(* ===== verification/_CoqProject ===== *)
-Q . S2P
Prelude.v
Param.v
Cstring.v
Numeral.v
UserPrintf.v
UserPrograms.v
Shell.v
ShellSpec.v
ShellText.v
Grep.v
Umalloc.v
SleepLock.v
Layout.v
Bio.v
Ide.v
IdeSpec.v
Log.v
LogCrash.v
BlockStore.v
LogStore.v
Transactions.v
LogSpace.v
Fs.v
FsBlocks.v
FsFile.v
FsWrite.v
FsDir.v
FsSpec.v
Namei.v
FsDemo.v
Mkfs.v
MkfsSpec.v
MkfsImage.v
MkfsBoot.v
Mmu.v
Spinlock.v
Kalloc.v
Vm.v
PageTable.v
UserMemory.v
AddressSpace.v
VmSpec.v
FileOps.v
Proc.v
Sched.v
ProcTable.v
ProcMemory.v
ProcSpec.v
Ring.v
Pipe.v
Console.v
ConsoleInput.v
Kbd.v
File.v
UserAccess.v
Sysfile.v
Exec.v
ExecMemory.v
ExecSpec.v
Rtc.v
Sysproc.v
Trap.v
Descriptors.v
DescriptorOps.v
DescriptorSpec.v
UserAccessSpec.v
SyscallSpec.v
ShellRun.v
PhysMem.v
Boot.v
Mp.v
Segments.v
Apic.v
Uart.v
Init.v
Asm.v
Switch.v
Start.v
