(* ===== verification/Prelude.v ===== *)
(** * A verification library for the xv6 kernel with colour console

    The program is a small Unix system for x86: a boot loader, a kernel with an
    IDE or memory disk and a buffer cache, a write-ahead log, a file system, pages
    and address spaces, processes with two priorities, pipes, a console with
    colours and the system calls that connect them to user programs; a shell, its
    library and small programs; and mkfs, which builds the disk on the host.

    ** How the parts interact

    bootmain.c loads the kernel, which finds its processors (mp.c), sets up
    interrupts (lapic.c, ioapic.c, trap.c) and starts the other processors
    (main.c).  A user program enters the kernel through a stub (usys.S), a gate
    and trapasm.S, which calls [trap] (trap.c) and that [syscall] (syscall.c); the
    handlers in sysproc.c and sysfile.c take their arguments from user memory,
    through the page tables (vm.c) and the page fault handler, which allocates
    pages lazily.  The handlers work on the process table (proc.c), whose
    processes take turns through swtch.S, and on open files (file.c), which are
    inodes (fs.c), pipes (pipe.c) or devices (console.c).  fs.c reads and writes
    blocks inside a transaction of log.c, which sits on the buffer cache bio.c and
    a disk driver, memide.c or ide.c.  Page tables, kernel stacks, pipes and user
    memory come from kalloc.c.  init.c starts the shell, which parses lines and
    arranges descriptors for the programs it runs.

    ** Conventions

    - A C integer is a [Z]; [u8], [u16], [u32], [s16], [s32] wrap to the width
      where the code can overflow.  An array is a list with [rd] and [wr]; a
      pointer to an element of a kernel table is its index; a pointer into
      physical memory is an address, and pages are lists of bytes.
    - A routine is a computation in the monad [M S] of this file: it ends with
      [Ret], with [Panic] (the kernel's [panic], or an access that leaves the
      modelled object), [Blocked] (it waits for another process) or [OutOfFuel].
      [wp] is total correctness: the routine returns and the postcondition holds;
      [lp] is partial correctness and is only used for invariants, where a
      routine that panics or blocks leaves no state to speak about.
    - The code between acquire and release of a spin lock is one atomic step;
      Spinlock.v runs acquire and release themselves, instruction by instruction
      on any number of processors, and proves that such sections are serial.
      A routine that sleeps is cut at the sleep, and a step relation interleaves
      the pieces of any number of processes (Pipe.v, ProcTable.v, LogSpace.v,
      ConsoleInput.v, IdeSpec.v, DescriptorSpec.v).
    - Loops that are bounded by a table recurse over it; the other loops take
      fuel.  The fuel is computed from the arguments (the number of bytes left,
      of blocks, of pages, of characters) and the [wp] theorems show that it is
      enough.  The computations that use up their fuel stand for ones that do not
      end in the code: an access of the kernel that faults again and again, and
      [mpinit] on an entry of an unknown kind.

    ** Files, in the order of the layers

    - Param: constants of param.h, fs.h, stat.h, fcntl.h.  Cstring: string.c and
      the string routines of user/ulib.c.  Numeral: the digits of both printf
      routines.
    - User code.  UserPrintf: user/printf.c.  UserPrograms: wc, cat, echo, ls and
      the names of colours.  Shell, ShellSpec, ShellText: the parser of sh.c, its
      grammar, and soundness and completeness of the parser.  Grep: grep.c, the
      matcher against a semantics of patterns.  Umalloc: user/umalloc.c.
    - SleepLock: sleeplock.c.  Layout: the on-disk structures of fs.h as bytes.
      Bio: bio.c and memide.c, with a refinement to a map from block numbers to
      blocks.  Ide, IdeSpec: ide.c over the ports of a controller; requests of
      any processes are served in order, each once, as memide.c would.
      Log: log.c.  LogCrash, Transactions: a commit is a sequence of
      block writes; after a crash at any point recovery gives the state before or
      after the transaction, and recovery may itself crash.  LogSpace: the
      reservations of [begin_op] under interleaving.
    - BlockStore: the interface between fs.c and the blocks; LogStore discharges
      it for log.c over bio.c.  Fs: fs.c.  FsBlocks, FsFile, FsWrite, FsDir: its
      lemmas.  FsSpec: block allocation, reading and writing files, the inode
      cache, directories and path names.  Namei: the walk along a path.  FsDemo:
      these theorems on a concrete disk.  Mkfs: mkfs.c.  MkfsSpec, MkfsImage: the
      image it builds.  MkfsBoot: the kernel reads from that image what the host
      had.
    - Mmu: mmu.h and memlayout.h.  Spinlock: spinlock.c.  Kalloc: kalloc.c.  Vm:
      vm.c.  PageTable, UserMemory, AddressSpace: page tables as maps and the
      pages an address space owns.  VmSpec: allocation, copying and freeing of
      address spaces, and [copyout].
    - FileOps: the interface between proc.c and the file layer.  Proc: proc.c.
      Sched: the scheduler.  ProcTable: the process table in every execution.
      ProcMemory: each page has one owner.  ProcSpec: the theorems, with fork,
      exit and wait.
    - Ring, Pipe: pipe.c.  Console: output and graphics of console.c, graphics.h.
      ConsoleInput: the line discipline of console.c.  Kbd: kbd.c and kbd.h.
    - File: file.c and the allocation of pipes; it discharges FileOps.
      UserAccess: the page fault handler of trap.c and the argument routines of
      syscall.c.  Sysfile, Exec, Sysproc: sysfile.c, exec.c, sysproc.c.
      ExecMemory, ExecSpec: exec keeps the ownership of pages, and the stack it
      builds.  Rtc: [cmostime] of lapic.c.  Trap: [syscall] and [trap].
    - Descriptors, DescriptorOps, DescriptorSpec: reference counts of open files
      and pipes are exact in every execution of the system calls.
      UserAccessSpec: lazy allocation and the checks of arguments.  SyscallSpec:
      the clock's wakeups, and the places where checks fall short.
    - ShellRun: runcmd and main of sh.c, as system calls on the descriptors of
      processes; what a session does is what the grammar says of its lines.
    - The machine.  PhysMem: memory by addresses.  Boot: bootmain.c.  Mp: mp.c.
      Segments: the descriptors of mmu.h, seginit, switchuvm and tvinit.  Apic:
      ioapic.c, lapic.c and picirq.c.  Uart: uart.c.  Init: user/init.c.  Asm: the
      instructions of the assembly files.  Switch: swtch.S, trapasm.S,
      vectors.pl, usys.S and initcode.S.  Start: startothers of main.c with
      entryother.S.

    ** Assumptions

    They are arguments of the definitions and hypotheses of the theorems: the
    end [kend] of the kernel image and other addresses of the linker, the address
    of [ticks], the table [devsw] of device routines, the clock chip, which system
    calls of a user program fail, the files of the host and, in the scheduler,
    what a process does while it runs.  The ports of the disk controllers are
    classes of operations with the laws of their protocol.  The disk writes a
    block atomically.  Memory is sequentially consistent.

    ** Not modelled

    - The code that enters protected mode and turns paging on (bootasm.S, entry.S
      and the first part of entryother.S), and the order of initialisation in
      [main]; idtinit and kvmalloc load a register.
    - The kernel routines take the current process and processor as arguments;
      that [swtch] and the trap code keep them apart is proved in Switch.v.
    - Messages for the user on the console, apart from the routines that print
      them, and procdump.
    - User programs that make one system call with their arguments (clear, date,
      kill, ln, mkdir, rm, zombie, the main routines of color and line), and the
      programs that test the kernel. *)

From stdpp Require Export base tactics numbers list gmap strings.
From Stdlib Require Export ZArith Lia.

#[global] Open Scope Z_scope.

(** ** Machine integers *)

Declare Scope xv6_scope.
Delimit Scope xv6_scope with xv6.

Definition u8 (x : Z) : Z := x mod 2 ^ 8.
Definition u16 (x : Z) : Z := x mod 2 ^ 16.
Definition u32 (x : Z) : Z := x mod 2 ^ 32.
Definition s16 (x : Z) : Z := (x + 2 ^ 15) mod 2 ^ 16 - 2 ^ 15.
Definition s32 (x : Z) : Z := (x + 2 ^ 31) mod 2 ^ 32 - 2 ^ 31.

Definition is_u8 (x : Z) : Prop := 0 <= x < 2 ^ 8.
Definition is_u16 (x : Z) : Prop := 0 <= x < 2 ^ 16.
Definition is_u32 (x : Z) : Prop := 0 <= x < 2 ^ 32.
Definition is_s16 (x : Z) : Prop := - 2 ^ 15 <= x < 2 ^ 15.
Definition is_s32 (x : Z) : Prop := - 2 ^ 31 <= x < 2 ^ 31.

Create HintDb xv6.
Create Rewrite HintDb u32.
Create Rewrite HintDb arr.

(** [mlia] closes goals of linear arithmetic in which powers of two,
    quotients and remainders by constants occur. *)
Ltac mlia :=
  unfold is_u8, is_u16, is_u32, is_s16, is_s32, u8, u16, u32, s16, s32 in *;
  change (2 ^ 8) with 256 in *; change (2 ^ 16) with 65536 in *;
  change (2 ^ 15) with 32768 in *; change (2 ^ 31) with 2147483648 in *;
  change (2 ^ 32) with 4294967296 in *;
  Z.to_euclidean_division_equations; lia.

Lemma u8_range x : is_u8 (u8 x).
Proof. mlia. Qed.
Lemma u16_range x : is_u16 (u16 x).
Proof. mlia. Qed.
Lemma u32_range x : is_u32 (u32 x).
Proof. mlia. Qed.
Lemma s16_range x : is_s16 (s16 x).
Proof. mlia. Qed.
Lemma s32_range x : is_s32 (s32 x).
Proof. mlia. Qed.

Lemma u8_id x : is_u8 x -> u8 x = x.
Proof. mlia. Qed.
Lemma u16_id x : is_u16 x -> u16 x = x.
Proof. mlia. Qed.
Lemma u32_id x : is_u32 x -> u32 x = x.
Proof. mlia. Qed.
Lemma s16_id x : is_s16 x -> s16 x = x.
Proof. mlia. Qed.
Lemma s32_id x : is_s32 x -> s32 x = x.
Proof. mlia. Qed.

Lemma s32_u32 x : is_s32 x -> s32 (u32 x) = x.
Proof. mlia. Qed.

Lemma u32_add_l x y : u32 (u32 x + y) = u32 (x + y).
Proof. unfold u32. by rewrite Zplus_mod_idemp_l. Qed.
Lemma u32_add_r x y : u32 (x + u32 y) = u32 (x + y).
Proof. unfold u32. by rewrite Zplus_mod_idemp_r. Qed.
Lemma u32_sub_l x y : u32 (u32 x - y) = u32 (x - y).
Proof. unfold u32. by rewrite Zminus_mod_idemp_l. Qed.
Lemma u32_sub_r x y : u32 (x - u32 y) = u32 (x - y).
Proof. unfold u32. by rewrite Zminus_mod_idemp_r. Qed.

(** A property of bytes that holds of each of the 256 bytes. *)
Lemma u8_cases (P : Z -> bool) :
  forallb P (seqZ 0 256) = true -> forall c, is_u8 c -> P c = true.
Proof.
  intros F c Hc. rewrite forallb_forall in F. apply F, list_elem_of_In, elem_of_seqZ. mlia.
Qed.

(** Or-ing bits into the low zeros of a number adds them. *)
Lemma lor_add a b n : 0 <= n -> a mod 2 ^ n = 0 -> 0 <= b < 2 ^ n -> Z.lor a b = a + b.
Proof.
  intros Hn Ha Hb. assert (E : Z.land a b = 0); [|assert (L := Z.add_lor_land a b); lia].
  apply Z.bits_inj'. intros m Hm. rewrite Z.land_spec, Z.bits_0. destruct (decide (m < n)).
  - rewrite <- (Z.mod_pow2_bits_low a n m) by lia. by rewrite Ha, Z.bits_0.
  - destruct (decide (b = 0)) as [->|]; [by rewrite Z.bits_0, andb_false_r|].
    rewrite (Z.bits_above_log2 b m); [apply andb_false_r|lia|]. apply Z.log2_lt_pow2; [lia|].
    apply Z.lt_le_trans with (2 ^ n); [lia|]. apply Z.pow_le_mono_r; lia.
Qed.

#[export] Hint Resolve u8_range u16_range u32_range s16_range s32_range : xv6.
#[export] Hint Rewrite u32_add_l u32_add_r u32_sub_l u32_sub_r : u32.

(** ** Arrays: a C array is a list, an index a [Z]

    [rd l i] reads [l[i]] and [wr l i v] assigns it.  Outside the bounds of
    the array a read gives [d] and a write leaves the array unchanged; the
    theorems that use them establish that the index is in range. *)

Section arrays.
Context {A : Type}.
Implicit Types (l : list A) (i j : Z).

Definition rd (d : A) l i : A :=
  if decide (0 <= i) then default d (l !! Z.to_nat i) else d.

Definition wr l i (v : A) : list A :=
  if decide (0 <= i) then <[Z.to_nat i := v]> l else l.

Definition zlen l : Z := Z.of_nat (length l).

Lemma zlen_nonneg l : 0 <= zlen l.
Proof. unfold zlen. lia. Qed.

Lemma length_wr l i v : length (wr l i v) = length l.
Proof. unfold wr. case_decide; [apply length_insert | done]. Qed.

Lemma zlen_wr l i v : zlen (wr l i v) = zlen l.
Proof. unfold zlen. by rewrite length_wr. Qed.

Lemma rd_wr_eq d l i v : 0 <= i < zlen l -> rd d (wr l i v) i = v.
Proof.
  unfold rd, wr, zlen. intros. repeat (case_decide; try lia).
  rewrite list_lookup_insert_eq; [done | lia].
Qed.

Lemma rd_wr_ne d l i j v : i ≠ j -> rd d (wr l i v) j = rd d l j.
Proof.
  unfold rd, wr. intros. repeat (case_decide; try lia); try done.
  rewrite list_lookup_insert_ne; [done | lia].
Qed.

Lemma rd_wr d l i j v :
  0 <= i < zlen l -> rd d (wr l i v) j = if decide (i = j) then v else rd d l j.
Proof. intros. case_decide; subst; [by apply rd_wr_eq | by apply rd_wr_ne]. Qed.

Lemma rd_lookup d l i x : 0 <= i -> l !! Z.to_nat i = Some x -> rd d l i = x.
Proof. unfold rd. intros ? E. case_decide; [by rewrite E | lia]. Qed.

Lemma lookup_rd d l (n : nat) : (n < length l)%nat -> l !! n = Some (rd d l (Z.of_nat n)).
Proof.
  intros. unfold rd. case_decide; [|lia]. rewrite Nat2Z.id.
  destruct (lookup_lt_is_Some_2 l n) as [x E]; [done|]. by rewrite E.
Qed.

Lemma rd_out d l i : i < 0 \/ zlen l <= i -> rd d l i = d.
Proof.
  unfold rd, zlen. intros. case_decide; [|done].
  by rewrite lookup_ge_None_2 by lia.
Qed.

Lemma wr_out l i v : i < 0 \/ zlen l <= i -> wr l i v = l.
Proof.
  unfold wr, zlen. intros. case_decide; [|done].
  by rewrite list_insert_ge by lia.
Qed.

Lemma rd_ext d l1 l2 :
  length l1 = length l2 ->
  (forall i, 0 <= i < zlen l1 -> rd d l1 i = rd d l2 i) -> l1 = l2.
Proof.
  intros Hlen H. apply list_eq_same_length with (length l1); try done.
  intros n x y Hn Hx Hy. specialize (H (Z.of_nat n)).
  rewrite (rd_lookup d _ _ x) in H by (lia || by rewrite Nat2Z.id).
  rewrite (rd_lookup d _ _ y) in H by (lia || by rewrite Nat2Z.id).
  apply H. unfold zlen. lia.
Qed.

Lemma rd_replicate d n v i : 0 <= i < Z.of_nat n -> rd d (replicate n v) i = v.
Proof.
  intros. unfold rd. case_decide; [|lia].
  by rewrite lookup_replicate_2 by lia.
Qed.

Lemma zlen_replicate n (v : A) : zlen (replicate n v) = Z.of_nat n.
Proof. unfold zlen. by rewrite length_replicate. Qed.
End arrays.

#[export] Hint Rewrite @zlen_wr @length_wr @zlen_replicate : arr.

Lemma rd_Forall {A} (P : A -> Prop) d l i : P d -> Forall P l -> P (rd d l i).
Proof.
  intros Hd Hl. unfold rd. case_decide; [|done]. destruct (l !! Z.to_nat i) eqn:E; [|done].
  by eapply Forall_lookup_1 in Hl.
Qed.

Lemma rd_u8 l i : Forall is_u8 l -> is_u8 (rd 0 l i).
Proof. apply rd_Forall. mlia. Qed.

Lemma rd_fmap_seqZ (f : Z -> Z) m n i : 0 <= i < n -> rd 0 (f <$> seqZ m n) i = f (m + i).
Proof.
  intros Hi. apply rd_lookup; [lia|]. rewrite list_lookup_fmap, lookup_seqZ_lt by lia. simpl. do 2 f_equal. lia.
Qed.

Lemma rd_app {A} (d : A) l1 l2 i :
  rd d (l1 ++ l2) i = if decide (i < zlen l1) then rd d l1 i else rd d l2 (i - zlen l1).
Proof.
  unfold rd, zlen. repeat (case_decide; try lia); try done.
  - by rewrite lookup_app_l by lia.
  - rewrite lookup_app_r by lia. do 2 f_equal. lia.
Qed.

Lemma zlen_cons {A} (x : A) l : zlen (x :: l) = zlen l + 1.
Proof. unfold zlen. simpl. lia. Qed.

Lemma zlen_app {A} (l l' : list A) : zlen (l ++ l') = zlen l + zlen l'.
Proof. unfold zlen. rewrite length_app. lia. Qed.

(** The sum of [f] over a list. *)
Definition zsum {A} (f : A -> Z) (l : list A) : Z := foldr (fun x n => f x + n) 0 l.

Lemma zsum_insert {A} (f : A -> Z) l i x y : l !! i = Some x -> zsum f (<[i := y]> l) = zsum f l - f x + f y.
Proof. revert i. induction l as [|z l IH]; intros [|i] H; simplify_eq/=; [lia|]. rewrite (IH i H). lia. Qed.

Lemma zsum_app {A} (f : A -> Z) l l' : zsum f (l ++ l') = zsum f l + zsum f l'.
Proof. induction l as [|x l IH]; simpl; [done|]. rewrite IH. lia. Qed.

Lemma zsum_nonneg {A} (f : A -> Z) l : (forall i x, l !! i = Some x -> 0 <= f x) -> 0 <= zsum f l.
Proof.
  induction l as [|x l IH]; intros H; simpl; [done|]. assert (0 <= f x) by by apply (H 0%nat).
  assert (0 <= zsum f l) by (apply IH; intros i y Hy; by apply (H (S i))). lia.
Qed.

Lemma zsum_zero {A} (f : A -> Z) l : (forall i x, l !! i = Some x -> f x = 0) -> zsum f l = 0.
Proof. induction l as [|x l IH]; intros H; simpl; [done|]. rewrite (H 0%nat x), IH; [done| |done]. intros i y Hy. by apply (H (S i)). Qed.

Lemma rd_cons {A} (d : A) x l i : 0 <= i -> rd d (x :: l) i = if decide (i = 0) then x else rd d l (i - 1).
Proof.
  intros. unfold rd. repeat (case_decide; try lia); subst; try done.
  by replace (Z.to_nat i) with (S (Z.to_nat (i - 1))) by lia.
Qed.

Lemma rd_drop {A} (d : A) l n i : 0 <= n -> 0 <= i -> rd d (drop (Z.to_nat n) l) i = rd d l (n + i).
Proof. intros. unfold rd. repeat (case_decide; try lia). rewrite lookup_drop. do 2 f_equal. lia. Qed.

(** [slice l off n] is the [n] bytes at [l + off]; [blit l off src] is the
    array after [memmove(l + off, src, length src)] between distinct
    objects. *)
Section slices.
Context {A : Type}.
Implicit Types (l src : list A) (off n i : Z).

Definition slice l off n : list A :=
  take (Z.to_nat n) (drop (Z.to_nat off) l).

Definition blit l off src : list A :=
  take (Z.to_nat off) l ++ src ++ drop (Z.to_nat off + length src)%nat l.

Lemma length_slice l off n :
  0 <= off -> 0 <= n -> off + n <= zlen l -> length (slice l off n) = Z.to_nat n.
Proof. unfold slice, zlen. intros. rewrite length_take, length_drop. lia. Qed.

Lemma zlen_slice l off n :
  0 <= off -> 0 <= n -> off + n <= zlen l -> zlen (slice l off n) = n.
Proof. intros. unfold zlen at 1. rewrite length_slice by done. lia. Qed.

Lemma rd_slice d l off n i :
  0 <= off -> 0 <= i < n -> rd d (slice l off n) i = rd d l (off + i).
Proof.
  intros. unfold rd, slice. repeat (case_decide; try lia).
  rewrite lookup_take_lt by lia. rewrite lookup_drop. do 2 f_equal. lia.
Qed.

Lemma length_blit l off src :
  0 <= off -> off + zlen src <= zlen l -> length (blit l off src) = length l.
Proof.
  unfold blit, zlen. intros. rewrite !length_app, length_take, length_drop. lia.
Qed.

Lemma zlen_blit l off src :
  0 <= off -> off + zlen src <= zlen l -> zlen (blit l off src) = zlen l.
Proof. intros. unfold zlen at 1 2. by rewrite length_blit. Qed.

Lemma rd_blit_in d l off src i :
  0 <= off -> off + zlen src <= zlen l -> off <= i < off + zlen src ->
  rd d (blit l off src) i = rd d src (i - off).
Proof.
  unfold rd, blit, zlen. intros. repeat (case_decide; try lia).
  rewrite lookup_app_r by (rewrite length_take; lia).
  rewrite length_take, lookup_app_l by lia. do 2 f_equal. lia.
Qed.

Lemma rd_blit_out d l off src i :
  0 <= off -> off + zlen src <= zlen l -> i < off \/ off + zlen src <= i ->
  rd d (blit l off src) i = rd d l i.
Proof.
  unfold rd, blit, zlen. intros ? ? [?|?]; (case_decide; [|done]).
  - rewrite lookup_app_l by (rewrite length_take; lia).
    by rewrite lookup_take_lt by lia.
  - rewrite lookup_app_r by (rewrite length_take; lia).
    rewrite length_take, lookup_app_r by lia.
    rewrite lookup_drop. do 2 f_equal. lia.
Qed.

(** [blit] may also extend the array. *)
Lemma zlen_blit_gen l off src : 0 <= off <= zlen l -> zlen (blit l off src) = Z.max (zlen l) (off + zlen src).
Proof. unfold blit, zlen. intros. rewrite !length_app, length_take, length_drop. lia. Qed.

Lemma rd_blit_gen d l off src i : 0 <= off <= zlen l ->
  rd d (blit l off src) i = if decide (off <= i < off + zlen src) then rd d src (i - off) else rd d l i.
Proof.
  unfold rd, blit, zlen. intros. repeat (case_decide; try lia); try done.
  - rewrite lookup_app_r by (rewrite length_take; lia).
    rewrite length_take, lookup_app_l by lia. do 2 f_equal. lia.
  - destruct (decide (i < off)).
    + rewrite lookup_app_l by (rewrite length_take; lia). by rewrite lookup_take_lt by lia.
    + rewrite lookup_app_r by (rewrite length_take; lia).
      rewrite length_take, lookup_app_r by lia. rewrite lookup_drop. do 2 f_equal. lia.
Qed.

Lemma slice_blit l off src :
  0 <= off -> off + zlen src <= zlen l -> slice (blit l off src) off (zlen src) = src.
Proof.
  unfold slice, blit, zlen. intros.
  rewrite drop_app_length' by (rewrite length_take; lia).
  by rewrite take_app_length' by lia.
Qed.

Lemma slice_blit_ne l off src off' n :
  0 <= off -> off + zlen src <= zlen l -> 0 <= off' -> 0 <= n -> off' + n <= zlen l ->
  off' + n <= off \/ off + zlen src <= off' ->
  slice (blit l off src) off' n = slice l off' n.
Proof.
  intros. destruct l as [|d l'] eqn:El.
  { unfold zlen in *. simpl in *. unfold blit, slice.
    destruct src; [|simpl in *; lia]. by rewrite take_nil, drop_nil. }
  rewrite <- El in *. clear El l'.
  apply (rd_ext d).
  - rewrite !length_slice; rewrite ?zlen_blit; done || lia.
  - intros i. rewrite zlen_slice by (rewrite ?zlen_blit; done || lia). intros.
    rewrite !rd_slice by lia. apply rd_blit_out; lia.
Qed.

Lemma slice_app l off n m : 0 <= off -> 0 <= n -> 0 <= m ->
  slice l off (n + m) = slice l off n ++ slice l (off + n) m.
Proof.
  intros. unfold slice. rewrite !Z2Nat.inj_add by done.
  rewrite <- drop_drop. symmetry. apply take_take_drop.
Qed.

Lemma slice_nil l off : slice l off 0 = [].
Proof. done. Qed.

Lemma slice_all l : slice l 0 (zlen l) = l.
Proof. unfold slice, zlen. simpl. rewrite drop_0. apply take_ge. lia. Qed.

Lemma blit_all l src : length l = length src -> blit l 0 src = src.
Proof.
  unfold blit. intros <-. simpl. by rewrite drop_all, app_nil_r.
Qed.
End slices.

(** ** Invariants of step relations *)

Lemma rtc_invariant {A} (R : A -> A -> Prop) (I : A -> Prop) x y :
  (forall x y, R x y -> I x -> I y) -> rtc R x y -> I x -> I y.
Proof. intros HI. induction 1; eauto. Qed.

(** ** Counting and searching *)

(** A list without duplicates whose elements are all in another is no longer. *)
Lemma length_incl {A} (l l' : list A) : NoDup l -> (forall a, a ∈ l -> a ∈ l') -> (length l <= length l')%nat.
Proof. intros N H. apply submseteq_length, NoDup_submseteq; done. Qed.

(** A decidable property that holds below [n] holds at a least number. *)
Lemma least_Z (P : Z -> Prop) `{forall b, Decision (P b)} (n : nat) :
  (exists b, 0 <= b < Z.of_nat n /\ P b) ->
  exists b, 0 <= b < Z.of_nat n /\ P b /\ forall b', 0 <= b' < b -> ~ P b'.
Proof.
  induction n as [|n IH]; intros (b & Hb & HP); [lia|].
  destruct (decide (Exists (fun k => P (Z.of_nat k)) (seq 0 n))) as [E|E].
  - apply Exists_exists in E as (k & Hk & HPk). apply elem_of_seq in Hk.
    destruct IH as (b' & Hb' & HPb' & Hmin); [exists (Z.of_nat k); split; [lia|done]|].
    exists b'. split; [lia|]. done.
  - exists b. split; [done|]. split; [done|]. intros b' Hb' HPb'. apply E, Exists_exists.
    exists (Z.to_nat b'). rewrite Z2Nat.id by lia. split; [apply elem_of_seq; lia|done].
Qed.

Lemma filter_ext_in {A} (P P' : A -> Prop) `{forall x, Decision (P x)} `{forall x, Decision (P' x)}
    (l : list A) : (forall x, x ∈ l -> P x <-> P' x) -> filter P l = filter P' l.
Proof.
  induction l as [|y l IH]; intros E; [done|].
  assert (IH' := IH ltac:(intros x Hx; apply E; by right)).
  destruct (decide (P y)) as [Py|Py].
  - rewrite (filter_cons_True P), (filter_cons_True P') by (done || (apply E; [left|done])). by rewrite IH'.
  - rewrite (filter_cons_False P), (filter_cons_False P') by (done || (rewrite <- E; [done|left])). done.
Qed.

Lemma filter_remove {A} (P P' : A -> Prop) `{forall x, Decision (P x)} `{forall x, Decision (P' x)}
    (l : list A) b :
  NoDup l -> b ∈ l -> P b -> (forall x, x ∈ l -> P' x <-> P x /\ x ≠ b) ->
  length (filter P l) = S (length (filter P' l)).
Proof.
  intros Hnd. revert b. induction Hnd as [|y l Hy Hnd IH]; intros b Hb HP HP'.
  { by apply elem_of_nil in Hb. }
  apply elem_of_cons in Hb as [->|Hb].
  - rewrite (filter_cons_True P), (filter_cons_False P') by (done || (rewrite HP'; [naive_solver|left])).
    simpl. do 2 f_equal. apply filter_ext_in. intros x Hx. rewrite HP' by (by right).
    split; [|naive_solver]. intros HPx. split; [done|]. by intros ->.
  - assert (y ≠ b) by (intros ->; done).
    assert (E := IH b Hb HP ltac:(intros x Hx; apply HP'; by right)).
    destruct (decide (P y)) as [Py|Py].
    + rewrite (filter_cons_True P), (filter_cons_True P') by (done || (rewrite HP'; [done|left])).
      simpl. by rewrite E.
    + rewrite (filter_cons_False P), (filter_cons_False P') by (done || (rewrite HP'; [naive_solver|left])).
      done.
Qed.

(** ** Little-endian byte encodings of machine words *)

Fixpoint le_bytes (n : nat) (x : Z) : list Z :=
  match n with
  | O => []
  | S n' => x mod 256 :: le_bytes n' (x / 256)
  end.

Fixpoint le_word (bs : list Z) : Z :=
  match bs with
  | [] => 0
  | b :: bs' => b + 256 * le_word bs'
  end.

Lemma length_le_bytes n x : length (le_bytes n x) = n.
Proof. revert x. induction n; simpl; auto. Qed.

Lemma zlen_le_bytes n x : zlen (le_bytes n x) = Z.of_nat n.
Proof. unfold zlen. by rewrite length_le_bytes. Qed.

Lemma zlen_le4 x : zlen (le_bytes 4 x) = 4.
Proof. done. Qed.

Lemma zlen_le2 x : zlen (le_bytes 2 x) = 2.
Proof. done. Qed.

Lemma le_bytes_u8 n x : Forall is_u8 (le_bytes n x).
Proof.
  revert x. induction n as [|n IH]; intros x; simpl; constructor; [|apply IH].
  apply u8_range.
Qed.

Lemma le_word_bytes n x : le_word (le_bytes n x) = x mod 256 ^ Z.of_nat n.
Proof.
  revert x. induction n as [|n IH]; intros x; simpl le_bytes; simpl le_word.
  - change (256 ^ Z.of_nat 0) with 1. by rewrite Z.mod_1_r.
  - rewrite IH. rewrite Nat2Z.inj_succ, Z.pow_succ_r by lia.
    rewrite (Z.mul_comm 256 (256 ^ _)).
    rewrite (Z.mul_comm _ 256), Z.rem_mul_r by lia. done.
Qed.

Lemma le_word_range bs :
  Forall is_u8 bs -> 0 <= le_word bs < 256 ^ Z.of_nat (length bs).
Proof.
  induction 1 as [|b bs Hb _ IH]; simpl le_word; [done|].
  rewrite length_cons, Nat2Z.inj_succ, Z.pow_succ_r by lia. mlia.
Qed.

Lemma le_bytes_word bs :
  Forall is_u8 bs -> le_bytes (length bs) (le_word bs) = bs.
Proof.
  induction 1 as [|b bs Hb _ IH]; simpl; [done|].
  rewrite (Z.mul_comm 256). rewrite Z.mod_add, Z.div_add by lia.
  rewrite Z.mod_small by mlia. rewrite Z.div_small by mlia. by rewrite Z.add_0_l, IH.
Qed.

Lemma le_word_bytes_u32 x : is_u32 x -> le_word (le_bytes 4 x) = x.
Proof. intros. rewrite le_word_bytes. apply Z.mod_small. mlia. Qed.

Lemma le_word_bytes_u16 x : is_u16 x -> le_word (le_bytes 2 x) = x.
Proof. intros. rewrite le_word_bytes. apply Z.mod_small. mlia. Qed.

Lemma exists_iff {A} (P Q : A -> Prop) : (forall x, P x <-> Q x) -> (exists x, P x) <-> exists x, Q x.
Proof. intros H. split; intros [x X]; exists x; by apply H. Qed.

(** ** Kernel computations

    A kernel routine is a function from the state it reads and writes to an
    outcome: it returns a value in a new state, it calls [panic], the calling
    process goes to sleep on a condition that only another process can
    establish, or the fuel of a loop runs out. *)

Inductive outcome (S A : Type) : Type :=
| Ret (a : A) (s : S)
| Panic (msg : string)
| Blocked
| OutOfFuel.
Arguments Ret {S A} a s.
Arguments Panic {S A} msg.
Arguments Blocked {S A}.
Arguments OutOfFuel {S A}.

Definition M (S A : Type) : Type := S -> outcome S A.

#[export] Instance M_ret {S} : MRet (M S) := fun A a s => Ret a s.

#[export] Instance M_bind {S} : MBind (M S) := fun A B f m s =>
  match m s with
  | Ret a s' => f a s'
  | Panic msg => Panic msg
  | Blocked => Blocked
  | OutOfFuel => OutOfFuel
  end.

Section ops.
Context {S : Type}.
Definition panic {A} (msg : string) : M S A := fun _ => Panic msg.
Definition blocked {A} : M S A := fun _ => Blocked.
Definition out_of_fuel {A} : M S A := fun _ => OutOfFuel.
Definition get : M S S := fun s => Ret s s.
Definition gets {A} (f : S -> A) : M S A := fun s => Ret (f s) s.
Definition put (s : S) : M S unit := fun _ => Ret tt s.
Definition modify (f : S -> S) : M S unit := fun s => Ret tt (f s).
Definition assert_or (b : bool) (msg : string) : M S unit :=
  if b then mret tt else panic msg.
Definition when (b : bool) (m : M S unit) : M S unit :=
  if b then m else mret tt.
End ops.

(** A computation on a part of the state, run on the whole state. *)
Definition zoom {S T A} (rd : S -> T) (wr : T -> S -> S) (m : M T A) : M S A :=
  fun s => match m (rd s) with
           | Ret a t => Ret a (wr t s)
           | Panic msg => Panic msg
           | Blocked => Blocked
           | OutOfFuel => OutOfFuel
           end.

(** [wp m Q s]: run from [s], [m] returns, and its result and final state
    satisfy [Q].  This is total correctness: no panic, no blocking and no
    exhausted fuel. *)
Definition wp {S A} (m : M S A) (Q : A -> S -> Prop) (s : S) : Prop :=
  match m s with Ret a s' => Q a s' | _ => False end.

Section wp.
Context {S : Type}.

Lemma wp_ret {A} (a : A) (Q : A -> S -> Prop) s : Q a s -> wp (mret a) Q s.
Proof. done. Qed.

Lemma wp_bind {A B} (m : M S A) (f : A -> M S B) Q s :
  wp m (fun a s' => wp (f a) Q s') s -> wp (mbind f m) Q s.
Proof. unfold wp, mbind, M_bind. by destruct (m s). Qed.

Lemma wp_assoc {A B C} (m : M S A) (n : M S B) (k : M S C) Q s :
  wp ((m;; n);; k) Q s -> wp (m;; n;; k) Q s.
Proof. unfold wp, mbind, M_bind. by destruct (m s). Qed.

(** A computation panics if a part of it runs and the rest panics. *)
Lemma panic_bind {A B} (m : M S A) (f : A -> M S B) msg s :
  wp m (fun a s' => f a s' = Panic msg) s -> mbind f m s = Panic msg.
Proof. unfold wp, mbind, M_bind. by destruct (m s). Qed.

Lemma wp_mono {A} (m : M S A) (P Q : A -> S -> Prop) s :
  wp m P s -> (forall a s', P a s' -> Q a s') -> wp m Q s.
Proof. unfold wp. destruct (m s); naive_solver. Qed.

Lemma wp_get (Q : S -> S -> Prop) s : Q s s -> wp get Q s.
Proof. done. Qed.

Lemma wp_gets {A} (f : S -> A) Q s : Q (f s) s -> wp (gets f) Q s.
Proof. done. Qed.

Lemma wp_put (s' : S) Q s : Q tt s' -> wp (put s') Q s.
Proof. done. Qed.

Lemma wp_modify (f : S -> S) Q s : Q tt (f s) -> wp (modify f) Q s.
Proof. done. Qed.

Lemma wp_assert b msg (Q : unit -> S -> Prop) s :
  b = true -> Q tt s -> wp (assert_or b msg) Q s.
Proof. by intros ->. Qed.

Lemma wp_inv {A} (m : M S A) Q s :
  wp m Q s -> exists a s', m s = Ret a s' /\ Q a s'.
Proof. unfold wp. destruct (m s); naive_solver. Qed.

Lemma wp_intro {A} (m : M S A) (Q : A -> S -> Prop) s a s' :
  m s = Ret a s' -> Q a s' -> wp m Q s.
Proof. unfold wp. by intros ->. Qed.

Lemma wp_eq {A} (m : M S A) a s s' :
  wp m (fun a' t => a' = a /\ t = s') s -> m s = Ret a s'.
Proof. unfold wp. destruct (m s); naive_solver. Qed.
End wp.

Lemma wp_zoom {S T A} (rd : S -> T) (wr : T -> S -> S) (m : M T A) Q s :
  wp m (fun a t => Q a (wr t s)) (rd s) -> wp (zoom rd wr m) Q s.
Proof. unfold wp, zoom. by destruct (m (rd s)). Qed.

Create HintDb wp.
#[export] Hint Resolve wp_ret wp_get wp_gets wp_put wp_modify : wp.

(** [wp_step] performs the next step of a computation whose effect is
    immediate. *)
Ltac wp_step :=
  lazymatch goal with
  | |- wp (mbind _ _) _ _ => apply wp_bind
  | |- wp (mret _) _ _ => apply wp_ret
  | |- wp get _ _ => apply wp_get
  | |- wp (gets _) _ _ => apply wp_gets
  | |- wp (put _) _ _ => apply wp_put
  | |- wp (modify _) _ _ => apply wp_modify
  | |- wp (zoom _ _ _) _ _ => apply wp_zoom
  end.

(** [lp m Q s]: whenever [m] returns from [s], its result and final state
    satisfy [Q].  Step relations, whose steps are calls that returned, need
    only this. *)
Definition lp {S A} (m : M S A) (Q : A -> S -> Prop) (s : S) : Prop :=
  forall a s', m s = Ret a s' -> Q a s'.

Section lp.
Context {S : Type}.

Lemma lp_ret {A} (a : A) (Q : A -> S -> Prop) s : Q a s -> lp (mret a) Q s.
Proof. intros H a' s' E. by injection E as <- <-. Qed.

Lemma lp_bind {A B} (m : M S A) (f : A -> M S B) Q s :
  lp m (fun a s' => lp (f a) Q s') s -> lp (mbind f m) Q s.
Proof. unfold lp, mbind, M_bind. intros H b s''. destruct (m s); [|done..]. by apply H. Qed.

Lemma lp_mono {A} (m : M S A) (P Q : A -> S -> Prop) s :
  lp m P s -> (forall a s', P a s' -> Q a s') -> lp m Q s.
Proof. unfold lp. eauto. Qed.

Lemma lp_get (Q : S -> S -> Prop) s : Q s s -> lp get Q s.
Proof. intros H a s' E. by injection E as <- <-. Qed.

Lemma lp_gets {A} (f : S -> A) Q s : Q (f s) s -> lp (gets f) Q s.
Proof. intros H a s' E. by injection E as <- <-. Qed.

Lemma lp_modify (f : S -> S) Q s : Q tt (f s) -> lp (modify f) Q s.
Proof. intros H a s' E. by injection E as <- <-. Qed.

Lemma lp_panic {A} msg (Q : A -> S -> Prop) s : lp (panic msg) Q s.
Proof. done. Qed.

Lemma wp_lp {A} (m : M S A) Q s : wp m Q s -> lp m Q s.
Proof. unfold wp, lp. intros H a s' E. by rewrite E in H. Qed.

Lemma wp_and_lp {A} (m : M S A) P Q s : wp m P s -> lp m Q s -> wp m (fun a s' => P a s' /\ Q a s') s.
Proof. unfold wp, lp. destruct (m s); eauto. Qed.
End lp.

Lemma lp_zoom {S T A} (rd : S -> T) (wr : T -> S -> S) (m : M T A) Q s :
  lp m (fun a t => Q a (wr t s)) (rd s) -> lp (zoom rd wr m) Q s.
Proof. unfold lp, zoom. intros H a s' E. destruct (m (rd s)); simplify_eq. by apply H. Qed.

Ltac lp_step :=
  lazymatch goal with
  | |- lp (mbind _ _) _ _ => apply lp_bind
  | |- lp (mret _) _ _ => apply lp_ret
  | |- lp get _ _ => apply lp_get
  | |- lp (gets _) _ _ => apply lp_gets
  | |- lp (modify _) _ _ => apply lp_modify
  | |- lp (panic _) _ _ => apply lp_panic
  | |- lp (zoom _ _ _) _ _ => apply lp_zoom
  end.

(** [ep P m Q s]: run from [s], [m] comes to an end; if it returns, its result
    and final state satisfy [Q], and it panics only if [P].  [ep False] is [wp]. *)
Definition ep {S A} (P : Prop) (m : M S A) (Q : A -> S -> Prop) (s : S) : Prop :=
  match m s with Ret a s' => Q a s' | Panic _ => P | _ => False end.

Section ep.
Context {S : Type} (P : Prop).

Lemma ep_ret {A} (a : A) (Q : A -> S -> Prop) s : Q a s -> ep P (mret a) Q s.
Proof. done. Qed.

Lemma ep_bind {A B} (m : M S A) (f : A -> M S B) Q s :
  ep P m (fun a s' => ep P (f a) Q s') s -> ep P (mbind f m) Q s.
Proof. unfold ep, mbind, M_bind. by destruct (m s). Qed.

Lemma ep_mono {A} (m : M S A) (Q Q' : A -> S -> Prop) s :
  ep P m Q s -> (forall a s', Q a s' -> Q' a s') -> ep P m Q' s.
Proof. unfold ep. destruct (m s); naive_solver. Qed.

Lemma ep_panic {A} msg (Q : A -> S -> Prop) s : P -> ep P (panic msg) Q s.
Proof. done. Qed.

Lemma wp_ep {A} (m : M S A) Q s : wp m Q s -> ep P m Q s.
Proof. unfold wp, ep. by destruct (m s). Qed.
End ep.

Lemma ep_wp {S A} (m : M S A) Q s : ep False m Q s -> wp m Q s.
Proof. unfold wp, ep. by destruct (m s). Qed.

(** [munfold] exposes the state passing of the next steps. *)
Ltac munfold :=
  unfold mbind, M_bind, mret, M_ret, modify, get, gets, put, panic, when, assert_or;
  cbv beta iota.

(** [bool_prop] turns the boolean tests of the code into propositions. *)
Ltac bool_prop :=
  repeat match goal with
  | H : _ && _ = true |- _ => apply andb_true_iff in H; destruct H
  | H : _ || _ = false |- _ => apply orb_false_iff in H; destruct H
  | H : negb _ = true |- _ => apply negb_true_iff in H
  | H : negb _ = false |- _ => apply negb_false_iff in H
  | H : (_ =? _) = true |- _ => apply Z.eqb_eq in H
  | H : (_ =? _) = false |- _ => apply Z.eqb_neq in H
  | H : (_ <? _) = true |- _ => apply Z.ltb_lt in H
  | H : (_ <? _) = false |- _ => apply Z.ltb_ge in H
  | H : (_ <=? _) = true |- _ => apply Z.leb_le in H
  | H : (_ <=? _) = false |- _ => apply Z.leb_gt in H
  | H : bool_decide _ = true |- _ => apply bool_decide_eq_true in H
  | H : bool_decide _ = false |- _ => apply bool_decide_eq_false in H
  end.
