(* ===== verification/Param.v ===== *)
(** * Kernel parameters and on-disk constants

    The constants of [param.h], [fs.h], [buf.h], [stat.h] and [fcntl.h] that
    the components share. *)

From S2P Require Import Prelude.

Definition NPROC : nat := 64.
Definition NCPU : Z := 8.
Definition NOFILE : Z := 16.
Definition NFILE : nat := 100.
Definition NINODE : nat := 50.
Definition NDEV : Z := 10.
Definition ROOTDEV : Z := 1.
Definition MAXARG : Z := 32.
Definition MAXOPBLOCKS : Z := 10.
Definition LOGSIZE : Z := MAXOPBLOCKS * 3.
Definition NBUF : nat := 30.
Definition FSSIZE : Z := 1000.

Definition ROOTINO : Z := 1.
Definition BSIZE : Z := 512.
Definition NDIRECT : Z := 12.
Definition NINDIRECT : Z := BSIZE / 4.
Definition MAXFILE : Z := NDIRECT + NINDIRECT.
Definition DIRSIZ : Z := 14.

Definition B_VALID : Z := 2.
Definition B_DIRTY : Z := 4.

Definition T_DIR : Z := 1.
Definition T_FILE : Z := 2.
Definition T_DEV : Z := 3.

Definition O_RDONLY : Z := 0.
Definition O_WRONLY : Z := 1.
Definition O_RDWR : Z := 2.
Definition O_CREATE : Z := 512.

(** A disk block is [BSIZE] bytes. *)
Definition block : Type := list Z.

Definition is_block (d : block) : Prop := zlen d = BSIZE /\ Forall is_u8 d.

Definition zero_block : block := replicate (Z.to_nat BSIZE) 0.

Lemma zero_block_ok : is_block zero_block.
Proof. split; [done|]. apply Forall_replicate. mlia. Qed.

#[export] Hint Resolve zero_block_ok : xv6.
