(* ===== verification/Cstring.v ===== *)
(** * Strings and memory (string.c, user/ulib.c)

    [memset], [memmove] and [memcpy] act on a memory, an array of bytes
    indexed by address; the kernel's [memmove] is correct for overlapping
    regions.  The string routines take the bytes from a pointer on; the
    bytes after the end of the list read as NUL. *)

From S2P Require Import Prelude.

(** The bytes of a string literal. *)
Definition cstring (s : string) : list Z := (Z.of_N ∘ Ascii.N_of_ascii <$> String.list_ascii_of_string s) ++ [0].

(** ** memset *)

(** The string instructions of x86.h: [rep stosb] and [rep stosl]. *)
Fixpoint stosb (m : list Z) (addr data : Z) (cnt : nat) : list Z :=
  match cnt with
  | O => m
  | S cnt' => stosb (wr m addr (u8 data)) (addr + 1) data cnt'
  end.

Fixpoint stosl (m : list Z) (addr data : Z) (cnt : nat) : list Z :=
  match cnt with
  | O => m
  | S cnt' => stosl (blit m addr (le_bytes 4 data)) (addr + 4) data cnt'
  end.

Definition memset (m : list Z) (dst c n : Z) : list Z :=
  if (Z.rem (s32 dst) 4 =? 0) && (n mod 4 =? 0) then
    let c := Z.land c 255 in
    stosl m dst (s32 (Z.lor (Z.lor (Z.lor (Z.shiftl c 24) (Z.shiftl c 16)) (Z.shiftl c 8)) c))
      (Z.to_nat (n / 4))
  else stosb m dst c (Z.to_nat n).

(** [memset] of ulib.c. *)
Definition ulib_memset (m : list Z) (dst c n : Z) : list Z := stosb m dst c (Z.to_nat n).

(** ** memmove *)

Fixpoint copy_up (m : list Z) (d s : Z) (n : nat) : list Z :=
  match n with
  | O => m
  | S n' => copy_up (wr m d (rd 0 m s)) (d + 1) (s + 1) n'
  end.

Fixpoint copy_down (m : list Z) (d s : Z) (n : nat) : list Z :=
  match n with
  | O => m
  | S n' => copy_down (wr m (d - 1) (rd 0 m (s - 1))) (d - 1) (s - 1) n'
  end.

Definition memmove (m : list Z) (dst src n : Z) : list Z :=
  if (src <? dst) && (dst <? u32 (src + n))
  then copy_down m (dst + n) (src + n) (Z.to_nat n)
  else copy_up m dst src (Z.to_nat n).

Definition memcpy (m : list Z) (dst src n : Z) : list Z := memmove m dst src n.

(** [memmove] of ulib.c copies upwards always; [n] is an [int]. *)
Definition ulib_memmove (m : list Z) (vdst vsrc n : Z) : list Z :=
  copy_up m vdst vsrc (Z.to_nat n).

(** ** Comparing and copying strings *)

Fixpoint memcmp (s1 s2 : list Z) (n : nat) : Z :=
  match n with
  | O => 0
  | S n' =>
      if negb (hd 0 s1 =? hd 0 s2) then hd 0 s1 - hd 0 s2
      else memcmp (tail s1) (tail s2) n'
  end.

Fixpoint strncmp (p q : list Z) (n : nat) : Z :=
  match n with
  | O => 0
  | S n' =>
      if negb (hd 0 p =? 0) && (hd 0 p =? hd 0 q) then strncmp (tail p) (tail q) n'
      else u8 (hd 0 p) - u8 (hd 0 q)
  end.

(** [strcmp] of ulib.c: the loop ends at the end of [p] at the latest. *)
Fixpoint strcmp (p q : list Z) : Z :=
  match p with
  | [] => 0 - u8 (hd 0 q)
  | c :: p' => if negb (c =? 0) && (c =? hd 0 q) then strcmp p' (tail q) else u8 c - u8 (hd 0 q)
  end.

Fixpoint strlen (s : list Z) : Z :=
  match s with
  | [] => 0
  | c :: s' => if c =? 0 then 0 else 1 + strlen s'
  end.

(** The loop [while(n-- > 0 && ( *s++ = *t++ ) != 0)] from [s + i]: the
    array, the next index and the count that is left. *)
Fixpoint copy_str (s : list Z) (i : Z) (t : list Z) (n : nat) : list Z * Z * nat :=
  match n with
  | O => (s, i, O)
  | S n' =>
      let s' := wr s i (hd 0 t) in
      if hd 0 t =? 0 then (s', i + 1, n') else copy_str s' (i + 1) (tail t) n'
  end.

Fixpoint fill_zero (s : list Z) (i : Z) (n : nat) : list Z :=
  match n with
  | O => s
  | S n' => fill_zero (wr s i 0) (i + 1) n'
  end.

Definition strncpy (s t : list Z) (n : Z) : list Z :=
  let '(s, i, n') := copy_str s 0 t (Z.to_nat n) in
  fill_zero s i n'.

(** The loop of [safestrcpy]; on exit, where [s] points. *)
Fixpoint copy_safe (s : list Z) (i : Z) (t : list Z) (n : nat) : list Z * Z :=
  match n with
  | O => (s, i)
  | S n' =>
      let s' := wr s i (hd 0 t) in
      if hd 0 t =? 0 then (s', i + 1) else copy_safe s' (i + 1) (tail t) n'
  end.

Definition safestrcpy (s t : list Z) (n : Z) : list Z :=
  if n <=? 0 then s
  else let '(s, i) := copy_safe s 0 t (Z.to_nat (n - 1)) in wr s i 0.

(** [strcpy] of ulib.c copies the terminator too. *)
Fixpoint strcpy_from (s : list Z) (i : Z) (t : list Z) : list Z :=
  match t with
  | [] => wr s i 0
  | c :: t' => if c =? 0 then wr s i 0 else strcpy_from (wr s i c) (i + 1) t'
  end.
Definition strcpy (s t : list Z) : list Z := strcpy_from s 0 t.

(** [strchr] of ulib.c: the rest of the string from the first [c]. *)
Fixpoint strchr (s : list Z) (c : Z) : option (list Z) :=
  match s with
  | [] => None
  | x :: s' => if x =? 0 then None else if x =? c then Some s else strchr s' c
  end.

(** [atoi] of ulib.c; the accumulator is an [int]. *)
Fixpoint atoi_from (n : Z) (s : list Z) : Z :=
  match s with
  | [] => n
  | c :: s' => if (48 <=? c) && (c <=? 57) then atoi_from (s32 (n * 10 + c - 48)) s' else n
  end.
Definition atoi (s : list Z) : Z := atoi_from 0 s.

(** ** Correctness of memset *)

Lemma rd_stosb m a c n j : 0 <= a -> a + Z.of_nat n <= zlen m ->
  rd 0 (stosb m a c n) j = if decide (a <= j < a + Z.of_nat n) then u8 c else rd 0 m j.
Proof.
  revert m a. induction n as [|n IH]; intros m a Ha Hn; simpl.
  - by rewrite decide_False by lia.
  - rewrite IH by (rewrite ?zlen_wr; lia). rewrite rd_wr by lia. repeat case_decide; lia || done.
Qed.

Lemma zlen_stosb m a c n : zlen (stosb m a c n) = zlen m.
Proof. revert m a. induction n as [|n IH]; intros; simpl; [done|]. by rewrite IH, zlen_wr. Qed.

Lemma zlen_stosl m a v n : 0 <= a -> a + 4 * Z.of_nat n <= zlen m -> zlen (stosl m a v n) = zlen m.
Proof.
  revert m a. induction n as [|n IH]; intros m a Ha Hn; cbn [stosl]; [done|].
  rewrite IH; rewrite ?zlen_blit; rewrite ?zlen_le4; lia.
Qed.

(** The word that [memset] stores has the byte in all four positions. *)
Definition splat (c : Z) : Z :=
  s32 (Z.lor (Z.lor (Z.lor (Z.shiftl c 24) (Z.shiftl c 16)) (Z.shiftl c 8)) c).

Lemma splat_bytes c : is_u8 c -> le_bytes 4 (splat c) = [c; c; c; c].
Proof.
  intros Hc. apply (bool_decide_eq_true_1 (le_bytes 4 (splat c) = [c; c; c; c])).
  revert c Hc. apply u8_cases. vm_compute. reflexivity.
Qed.

Lemma rd_four c i : 0 <= i < 4 -> rd 0 [c; c; c; c] i = c.
Proof.
  intros Hi. assert (E : i = 0 \/ i = 1 \/ i = 2 \/ i = 3) by lia.
  destruct E as [->|[->|[->| ->]]]; reflexivity.
Qed.

Lemma rd_stosl m a c n j : is_u8 c -> 0 <= a -> a + 4 * Z.of_nat n <= zlen m ->
  rd 0 (stosl m a (splat c) n) j =
  if decide (a <= j < a + 4 * Z.of_nat n) then c else rd 0 m j.
Proof.
  intros Hc. revert m a. induction n as [|n IH]; intros m a Ha Hn; cbn [stosl].
  - by rewrite decide_False by lia.
  - assert (Z4 := zlen_le4 (splat c)).
    rewrite IH by (rewrite ?zlen_blit; lia).
    destruct (decide (a <= j < a + 4)).
    + rewrite decide_False, decide_True by lia. rewrite rd_blit_in by lia.
      rewrite splat_bytes by done. apply rd_four. lia.
    + rewrite rd_blit_out by lia. repeat case_decide; lia || done.
Qed.

Lemma rem4_0 x : 0 <= x < 2 ^ 32 -> Z.rem (s32 x) 4 = 0 <-> x mod 4 = 0.
Proof. intros. mlia. Qed.

Lemma land_255 c : Z.land c 255 = u8 c.
Proof. apply (Z.land_ones c 8). lia. Qed.

Lemma blit_ext m a b l : 0 <= a -> a + zlen l <= zlen m -> zlen b = zlen m ->
  (forall j, rd 0 b j = if decide (a <= j < a + zlen l) then rd 0 l (j - a) else rd 0 m j) ->
  b = blit m a l.
Proof.
  intros Ha Hl Hb H. apply (rd_ext 0).
  - rewrite length_blit by lia. unfold zlen in *. lia.
  - intros j Hj. rewrite H. case_decide; [by rewrite rd_blit_in by lia|by rewrite rd_blit_out by lia].
Qed.

(** [memset(dst, c, n)] sets the [n] bytes at [dst] to the byte [c] and
    changes nothing else, on the path that stores words with [stosl] as on
    the one that stores bytes. *)
Lemma memset_blit m dst c n :
  0 <= dst -> 0 <= n -> dst + n <= zlen m -> zlen m <= 2 ^ 32 ->
  memset m dst c n = blit m dst (replicate (Z.to_nat n) (u8 c)).
Proof.
  intros Hd Hn Hm Hz. assert (Hr : zlen (replicate (Z.to_nat n) (u8 c)) = n).
  { rewrite zlen_replicate. lia. }
  assert (Hrd : forall j, dst <= j < dst + n -> rd 0 (replicate (Z.to_nat n) (u8 c)) (j - dst) = u8 c).
  { intros. apply rd_replicate. lia. }
  unfold memset. destruct (_ && _) eqn:E.
  - bool_prop. rewrite land_255. fold (splat (u8 c)).
    assert (Hq : 4 * Z.of_nat (Z.to_nat (n / 4)) = n) by mlia.
    apply blit_ext; [lia|lia|apply zlen_stosl; lia|].
    intros j. rewrite rd_stosl by (auto with xv6; lia). rewrite Hr, Hq.
    case_decide; [by rewrite Hrd|done].
  - apply blit_ext; [lia|lia|apply zlen_stosb|]. intros j. rewrite rd_stosb by lia.
    rewrite Hr. replace (dst + Z.of_nat (Z.to_nat n)) with (dst + n) by lia.
    case_decide; [by rewrite Hrd|done].
Qed.

(** ** Correctness of memmove *)

Lemma zlen_copy_up m d s n : zlen (copy_up m d s n) = zlen m.
Proof. revert m d s. induction n as [|n IH]; intros; simpl; [done|]. by rewrite IH, zlen_wr. Qed.

Lemma zlen_copy_down m d s n : zlen (copy_down m d s n) = zlen m.
Proof. revert m d s. induction n as [|n IH]; intros; simpl; [done|]. by rewrite IH, zlen_wr. Qed.

Lemma rd_copy_up m d s n j :
  0 <= d -> 0 <= s -> d + Z.of_nat n <= zlen m -> s + Z.of_nat n <= zlen m ->
  ~ (s < d < s + Z.of_nat n) ->
  rd 0 (copy_up m d s n) j =
  if decide (d <= j < d + Z.of_nat n) then rd 0 m (s + (j - d)) else rd 0 m j.
Proof.
  revert m d s. induction n as [|n IH]; intros m d s Hd Hs Hdn Hsn Hov; simpl.
  - by rewrite decide_False by lia.
  - destruct (decide (s = d)) as [->|Hne].
    { rewrite IH by (rewrite ?zlen_wr; lia). rewrite !rd_wr by lia.
      repeat case_decide; subst; try lia; f_equal; lia. }
    rewrite IH by (rewrite ?zlen_wr; lia). rewrite !rd_wr by lia.
    repeat case_decide; subst; try lia; f_equal; lia.
Qed.

Lemma rd_copy_down m d s n j :
  0 <= d - Z.of_nat n -> 0 <= s - Z.of_nat n -> d <= zlen m -> s <= zlen m -> s <= d ->
  rd 0 (copy_down m d s n) j =
  if decide (d - Z.of_nat n <= j < d) then rd 0 m (s + (j - d)) else rd 0 m j.
Proof.
  revert m d s. induction n as [|n IH]; intros m d s Hd Hs Hdn Hsn Hov; simpl.
  - by rewrite decide_False by lia.
  - rewrite IH by (rewrite ?zlen_wr; lia). rewrite !rd_wr by lia.
    repeat case_decide; subst; try lia; f_equal; lia.
Qed.

(** [memmove(dst, src, n)] leaves at [dst] the [n] bytes that were at
    [src] before the call and changes nothing else, however the two regions
    overlap. *)
Theorem memmove_correct m dst src n :
  0 <= dst -> 0 <= src -> 0 <= n -> dst + n <= zlen m -> src + n <= zlen m -> zlen m < 2 ^ 32 ->
  memmove m dst src n = blit m dst (slice m src n).
Proof.
  intros Hd Hs Hn Hdn Hsn Hz. assert (Hl : zlen (slice m src n) = n) by (by apply zlen_slice).
  unfold memmove. rewrite u32_id by mlia. destruct (_ && _) eqn:E; bool_prop.
  - apply blit_ext; [lia|lia|apply zlen_copy_down|]. intros j.
    rewrite rd_copy_down by lia. rewrite Hl.
    repeat case_decide; try lia. rewrite rd_slice by lia. f_equal; lia.
  - apply blit_ext; [lia|lia|apply zlen_copy_up|]. intros j.
    apply andb_false_iff in E. rewrite rd_copy_up by (destruct E; bool_prop; lia). rewrite Hl.
    repeat case_decide; try lia. rewrite rd_slice by lia. f_equal; lia.
Qed.

Lemma memmove_correct_witness :
  memmove [1; 2; 3; 4; 5; 6] 2 0 4 = [1; 2; 1; 2; 3; 4] /\
  memmove [1; 2; 3; 4; 5; 6] 0 2 4 = [3; 4; 5; 6; 5; 6].
Proof.
  split; [apply (memmove_correct [1; 2; 3; 4; 5; 6] 2 0 4)|apply (memmove_correct [1; 2; 3; 4; 5; 6] 0 2 4)];
    vm_compute; congruence.
Defined.

(** ** C strings *)

(** The string at a pointer: the bytes before the first NUL. *)
Fixpoint cstr (s : list Z) : list Z :=
  match s with
  | [] => []
  | c :: s' => if c =? 0 then [] else c :: cstr s'
  end.

Lemma strlen_cstr s : strlen s = zlen (cstr s).
Proof.
  unfold zlen. induction s as [|c s IH]; cbn [strlen cstr]; [done|].
  destruct (c =? 0); [done|]. rewrite IH, length_cons. lia.
Qed.

Lemma cstr_nonzero s : Forall (fun c => c ≠ 0) (cstr s).
Proof.
  induction s as [|c s IH]; simpl; [done|]. destruct (Z.eqb_spec c 0); [done|]. by constructor.
Qed.

Lemma cstr_id s : Forall (fun c => c ≠ 0) s -> cstr s = s.
Proof.
  induction 1 as [|c s Hc _ IH]; simpl; [done|].
  destruct (Z.eqb_spec c 0); [done|]. by rewrite IH.
Qed.

Lemma hd_cstr s : hd 0 (cstr s) = hd 0 s.
Proof. destruct s as [|c s]; simpl; [done|]. by destruct (Z.eqb_spec c 0). Qed.

Lemma tail_cstr s : hd 0 s ≠ 0 -> cstr (tail s) = tail (cstr s).
Proof. destruct s as [|c s]; simpl; [done|]. intros. by destruct (Z.eqb_spec c 0). Qed.

Lemma cstr_end s : hd 0 s = 0 -> cstr s = [].
Proof. destruct s as [|c s]; simpl; [done|]. by intros ->. Qed.

Lemma cstr_step s : hd 0 s ≠ 0 -> cstr s = hd 0 s :: cstr (tail s).
Proof. destruct s as [|c s]; simpl; [done|]. intros. by destruct (Z.eqb_spec c 0). Qed.

Lemma hd_u8 s : Forall is_u8 s -> is_u8 (hd 0 s).
Proof. destruct 1; simpl; [mlia|done]. Qed.

Lemma tail_u8 s : Forall is_u8 s -> Forall is_u8 (tail s).
Proof. by destruct 1. Qed.

(** [strncmp(p, q, n)] is zero exactly when the two strings agree in
    their first [n] bytes. *)
Lemma strncmp_zero p q n : Forall is_u8 p -> Forall is_u8 q ->
  strncmp p q n = 0 <-> take n (cstr p) = take n (cstr q).
Proof.
  revert p q. induction n as [|n IH]; intros p q Fp Fq; cbn [strncmp]; [done|].
  assert (Hp := hd_u8 _ Fp). assert (Hq := hd_u8 _ Fq).
  rewrite !u8_id by done. destruct (_ && _) eqn:E; bool_prop.
  - rewrite IH by auto using tail_u8. assert (hd 0 q ≠ 0) by congruence.
    rewrite (cstr_step p), (cstr_step q) by done. simpl. split; congruence.
  - apply andb_false_iff in E. destruct (decide (hd 0 p = 0)) as [E0|E0].
    + rewrite (cstr_end p) by done. destruct (decide (hd 0 q = 0)) as [E1|E1].
      * rewrite (cstr_end q) by done. split; [done|lia].
      * rewrite (cstr_step q) by done. simpl. split; [lia|done].
    + destruct E as [E|E]; bool_prop; [done|]. rewrite (cstr_step p) by done.
      destruct (decide (hd 0 q = 0)) as [E1|E1].
      * rewrite (cstr_end q) by done. simpl. split; [lia|done].
      * rewrite (cstr_step q) by done. simpl. split; [lia|congruence].
Qed.

(** The first [n] bytes of a string, filled up with NUL bytes. *)
Definition padded (n : nat) (t : list Z) : list Z :=
  take n (cstr t) ++ replicate (n - length (cstr t)) 0.

Lemma length_padded n t : length (padded n t) = n.
Proof. unfold padded. rewrite length_app, length_take, length_replicate. lia. Qed.

Lemma padded_S n t : padded (S n) t = hd 0 t :: (if hd 0 t =? 0 then replicate n 0 else padded n (tail t)).
Proof.
  unfold padded. destruct (Z.eqb_spec (hd 0 t) 0) as [E|E].
  - rewrite (cstr_end t), E by done. done.
  - rewrite (cstr_step t) by done. done.
Qed.

Lemma cstr_u8 t : Forall is_u8 t -> Forall is_u8 (cstr t).
Proof. induction 1 as [|c t Hc _ IH]; simpl; [done|]. destruct (c =? 0); [done|]. by constructor. Qed.

Lemma padded_u8 n t : Forall is_u8 t -> Forall is_u8 (padded n t).
Proof.
  intros Ht. apply Forall_app_2; [by apply Forall_take, cstr_u8|]. apply Forall_replicate. mlia.
Qed.

(** Writing one element and then the rest is one write. *)
Lemma blit_cons (s l : list Z) (i c : Z) : 0 <= i -> i + 1 + zlen l <= zlen s ->
  blit (wr s i c) (i + 1) l = blit s i (c :: l).
Proof.
  intros Hi Hl. assert (P := zlen_nonneg l). assert (E : zlen (c :: l) = 1 + zlen l) by (unfold zlen; rewrite length_cons; lia).
  apply blit_ext; [lia|lia|rewrite zlen_blit, zlen_wr; rewrite ?zlen_wr; lia|].
  intros j. rewrite E. destruct (decide (i + 1 <= j < i + 1 + zlen l)).
  - rewrite rd_blit_in by (rewrite ?zlen_wr; lia). rewrite decide_True by lia.
    unfold rd. repeat (case_decide; try lia).
    replace (Z.to_nat (j - i)) with (S (Z.to_nat (j - (i + 1)))) by lia. done.
  - rewrite rd_blit_out by (rewrite ?zlen_wr; lia). rewrite rd_wr by lia.
    repeat case_decide; try lia. subst. by rewrite Z.sub_diag.
Qed.

Lemma blit_nil {A} (s : list A) i : blit s i [] = s.
Proof. unfold blit. simpl. rewrite Nat.add_0_r. apply take_drop. Qed.

Lemma fill_zero_blit s i n : 0 <= i -> i + Z.of_nat n <= zlen s ->
  fill_zero s i n = blit s i (replicate n 0).
Proof.
  revert s i. induction n as [|n IH]; intros s i Hi Hn; simpl; [by rewrite blit_nil|].
  rewrite IH by (rewrite ?zlen_wr; lia). apply blit_cons; [lia|]. rewrite zlen_replicate. lia.
Qed.

Lemma copy_str_blit s i t n : 0 <= i -> i + Z.of_nat n <= zlen s ->
  (let '(s', i', n') := copy_str s i t n in fill_zero s' i' n') = blit s i (padded n t).
Proof.
  revert s i t. induction n as [|n IH]; intros s i t Hi Hn.
  - unfold padded. simpl. by rewrite blit_nil.
  - cbn [copy_str]. rewrite padded_S. destruct (Z.eqb_spec (hd 0 t) 0) as [E|E].
    + rewrite fill_zero_blit by (rewrite ?zlen_wr; lia). apply blit_cons; [lia|].
      rewrite zlen_replicate. lia.
    + rewrite IH by (rewrite ?zlen_wr; lia). apply blit_cons; [lia|].
      unfold zlen. rewrite length_padded. unfold zlen in Hn. lia.
Qed.

(** [strncpy(s, t, n)] writes exactly [n] bytes: the string [t], cut to [n]
    bytes or filled up with NUL bytes. *)
Lemma strncpy_padded s t n : 0 <= n <= zlen s -> strncpy s t n = blit s 0 (padded (Z.to_nat n) t).
Proof. intros. unfold strncpy. apply copy_str_blit; lia. Qed.

Lemma cstr_padded n t : cstr (padded n t) = take n (cstr t).
Proof.
  revert t. induction n as [|n IH]; intros t; [done|]. rewrite padded_S.
  destruct (Z.eqb_spec (hd 0 t) 0) as [E|E].
  - rewrite E, (cstr_end t) by done. done.
  - simpl. destruct (Z.eqb_spec (hd 0 t) 0); [done|]. by rewrite IH, (cstr_step t).
Qed.

Lemma copy_safe_cstr s i t n : 0 <= i -> i + Z.of_nat n < zlen s ->
  let '(s', i') := copy_safe s i t n in
  wr s' i' 0 = blit s i (take n (cstr t) ++ [0]) \/
  (exists k, (k < n)%nat /\ wr s' i' 0 = blit s i (take k (cstr t) ++ [0; 0]) /\ cstr t = take k (cstr t)).
Proof.
  revert s i t. induction n as [|n IH]; intros s i t Hi Hn; cbn [copy_safe].
  - left. simpl. rewrite <- blit_cons; [by rewrite blit_nil|lia|unfold zlen in *; simpl; lia].
  - destruct (Z.eqb_spec (hd 0 t) 0) as [E|E].
    + right. exists 0%nat. rewrite (cstr_end t) by done. split; [lia|]. split; [|done]. simpl.
      rewrite <- !blit_cons, blit_nil; rewrite ?zlen_wr; try (unfold zlen in *; simpl; lia).
      by rewrite E.
    + specialize (IH (wr s i (hd 0 t)) (i + 1) (tail t) ltac:(lia) ltac:(rewrite zlen_wr; lia)).
      destruct (copy_safe _ _ _ _) as [s' i']. rewrite (cstr_step t) by done.
      destruct IH as [IH|(k & Hk & IH & Ek)].
      * left. rewrite IH. simpl. apply blit_cons; [lia|].
        unfold zlen in *. rewrite length_app, length_take. simpl. lia.
      * right. exists (S k). split; [lia|]. split; [|simpl; by rewrite <- Ek]. rewrite IH. simpl.
        apply blit_cons; [lia|]. unfold zlen in *. rewrite length_app, length_take. simpl. lia.
Qed.

Lemma cstr_app_nul s l : Forall (fun c => c ≠ 0) s -> cstr (s ++ 0 :: l) = s.
Proof.
  induction 1 as [|c s Hc _ IH]; simpl; [done|]. destruct (Z.eqb_spec c 0); [done|]. by rewrite IH.
Qed.

(** [safestrcpy(s, t, n)] leaves a NUL-terminated string in [s]: [t] cut to
    [n - 1] bytes. *)
Lemma safestrcpy_cstr s t n : 0 < n <= zlen s ->
  cstr (safestrcpy s t n) = take (Z.to_nat (n - 1)) (cstr t).
Proof.
  intros Hn. unfold safestrcpy. destruct (Z.leb_spec n 0); [lia|].
  assert (C := copy_safe_cstr s 0 t (Z.to_nat (n - 1)) ltac:(lia) ltac:(lia)).
  destruct (copy_safe _ _ _ _) as [s' i']. assert (N := cstr_nonzero t).
  destruct C as [->|(k & Hk & -> & Ek)]; unfold blit; simpl; rewrite <- app_assoc.
  - apply cstr_app_nul. by apply Forall_take.
  - simpl. rewrite cstr_app_nul by by apply Forall_take. rewrite <- Ek.
    symmetry. apply take_ge. rewrite Ek, length_take. lia.
Qed.

