(* ===== verification/Numeral.v ===== *)
(** * Numbers as text

    The digits of a number the way [printint] of console.c and of
    user/printf.c produces them, over a table of digit characters, and what
    the text denotes. *)

From S2P Require Import Prelude Cstring.

(** The loop of [printint] that fills [buf]: the digits of [x], least
    significant first. *)
Fixpoint digits_of (tbl : list Z) (fuel : nat) (x base : Z) : list Z :=
  match fuel with
  | O => []
  | S fuel' =>
      rd 0 tbl (x mod base) :: (if x / base =? 0 then [] else digits_of tbl fuel' (x / base) base)
  end.

(** What [printint] leaves in its buffer of 16 bytes. *)
Definition number_buf (tbl : list Z) (xx base : Z) (sign : bool) : list Z :=
  let neg := sign && (xx <? 0) in
  digits_of tbl 16 (u32 (if neg then - xx else xx)) base ++ (if neg then [45] else []).

(** ** What the digits denote *)

Definition digit_val (c : Z) : Z := if c <=? 57 then c - 48 else if c <=? 70 then c - 55 else c - 87.

(** The number that a string of digits denotes. *)
Definition value (base : Z) (l : list Z) : Z := fold_left (fun a c => a * base + digit_val c) l 0.

(** A table with the 16 digits in order. *)
Class DigitTable (tbl : list Z) : Prop := {
  digits_in_order : digit_val <$> tbl = seqZ 0 16;
  digit_zero : rd 0 tbl 0 = 48
}.

Section table.
Context (tbl : list Z) `{Ht : DigitTable tbl}.

Lemma digit_table d : 0 <= d < 16 -> digit_val (rd 0 tbl d) = d.
Proof using Ht.
  intros Hd. assert (E : (digit_val <$> tbl) !! Z.to_nat d = Some d) by (rewrite digits_in_order, lookup_seqZ; lia).
  rewrite list_lookup_fmap in E. unfold rd. rewrite decide_True by lia.
  destruct (tbl !! Z.to_nat d); [by injection E|done].
Qed.

Lemma value_digits fuel x base : 2 <= base <= 16 -> 0 <= x < base ^ Z.of_nat fuel ->
  value base (reverse (digits_of tbl fuel x base)) = x.
Proof.
  intros Hb. revert x. induction fuel as [|fuel IH]; intros x Hx; [simpl in *; unfold value; simpl; lia|].
  rewrite Nat2Z.inj_succ, Z.pow_succ_r in Hx by lia. assert (D := Z.div_mod x base ltac:(lia)).
  assert (B := Z.mod_pos_bound x base ltac:(lia)). assert (Q := Z.div_pos x base ltac:(lia) ltac:(lia)).
  cbn [digits_of]. rewrite reverse_cons. unfold value. rewrite fold_left_app. cbn [fold_left].
  rewrite digit_table by lia. destruct (Z.eqb_spec (x / base) 0) as [E|E].
  - simpl. lia.
  - fold (value base (reverse (digits_of tbl fuel (x / base) base))). rewrite IH; [lia|].
    split; [done|]. apply Z.div_lt_upper_bound; lia.
Qed.

Lemma length_digits fuel (n : nat) x base : 2 <= base <= 16 -> 0 <= x < base ^ Z.of_nat n -> (1 <= n <= fuel)%nat ->
  (1 <= length (digits_of tbl fuel x base) <= n)%nat.
Proof.
  intros Hb. revert fuel x. induction n as [|n IH]; intros fuel x Hx Hn; [lia|].
  destruct fuel as [|fuel]; [lia|]. cbn [digits_of]. rewrite Nat2Z.inj_succ, Z.pow_succ_r in Hx by lia.
  destruct (Z.eqb_spec (x / base) 0) as [E|E]; [simpl; lia|]. rewrite length_cons.
  assert (Q := Z.div_pos x base ltac:(lia) ltac:(lia)).
  assert (L : x / base < base ^ Z.of_nat n) by (apply Z.div_lt_upper_bound; lia).
  destruct n as [|n]; [simpl in L; lia|]. assert (X := IH fuel (x / base) ltac:(lia) ltac:(lia)). lia.
Qed.

(** No leading zero. *)
Lemma hd_digits fuel x base : 2 <= base <= 16 -> 0 < x < base ^ Z.of_nat fuel ->
  hd 0 (reverse (digits_of tbl fuel x base)) ≠ 48.
Proof.
  intros Hb. revert x. induction fuel as [|fuel IH]; intros x Hx; [simpl in Hx; lia|].
  rewrite Nat2Z.inj_succ, Z.pow_succ_r in Hx by lia. assert (D := Z.div_mod x base ltac:(lia)).
  assert (B := Z.mod_pos_bound x base ltac:(lia)). assert (Q := Z.div_pos x base ltac:(lia) ltac:(lia)).
  cbn [digits_of]. rewrite reverse_cons. destruct (Z.eqb_spec (x / base) 0) as [E|E].
  - simpl. intros E1. assert (V := digit_table (x mod base) ltac:(lia)). rewrite E1 in V. unfold digit_val in V. simpl in V. lia.
  - assert (L : x / base < base ^ Z.of_nat fuel) by (apply Z.div_lt_upper_bound; lia).
    specialize (IH (x / base) ltac:(lia)). destruct (reverse (digits_of tbl fuel (x / base) base)) eqn:Er; [|done].
    destruct fuel as [|fuel]; [simpl in L; lia|]. cbn [digits_of] in Er. rewrite reverse_cons in Er.
    by destruct (reverse _).
Qed.

(** The text is a minus sign exactly for a negative number printed as signed,
    and digits without a leading zero that denote the absolute value, or the
    unsigned value; it fits in the buffer. *)
Lemma number_buf_spec xx base sign :
  base = 10 \/ base = 16 -> is_s32 xx ->
  zlen (number_buf tbl xx base sign) <= 16 /\
  exists ds, reverse (number_buf tbl xx base sign) = (if sign && (xx <? 0) then [45] else []) ++ ds /\
    value base ds = (if sign then Z.abs xx else u32 xx) /\ (ds = [48] \/ hd 0 ds ≠ 48).
Proof.
  intros Hb Hx. unfold number_buf. set (x := u32 _).
  assert (Ex : x = if sign then Z.abs xx else u32 xx).
  { unfold x. destruct sign; simpl; [|done]. destruct (Z.ltb_spec xx 0); rewrite u32_id; mlia. }
  assert (Rx : is_u32 x) by apply u32_range. assert (P10 : x < base ^ Z.of_nat 10).
  { destruct Hb as [-> | ->]; [change (10 ^ Z.of_nat 10) with 10000000000|change (16 ^ Z.of_nat 10) with 1099511627776]; mlia. }
  assert (P16 : x < base ^ Z.of_nat 16).
  { destruct Hb as [-> | ->]; [change (10 ^ Z.of_nat 16) with 10000000000000000|change (16 ^ Z.of_nat 16) with 18446744073709551616]; mlia. }
  assert (Bb : 2 <= base <= 16) by lia. assert (Hx0 : 0 <= x) by apply Rx.
  assert (L := length_digits 16 10 x base Bb ltac:(lia) ltac:(lia)).
  split; [unfold zlen; rewrite length_app; destruct (sign && (xx <? 0)); cbn [length]; lia|].
  exists (reverse (digits_of tbl 16 x base)). split_and!.
  - rewrite reverse_app. by destruct (sign && (xx <? 0)).
  - rewrite value_digits by (done || lia). done.
  - destruct (decide (x = 0)) as [E|E]; [left|right; apply hd_digits; lia].
    rewrite E. destruct Hb as [-> | ->]; cbn [digits_of]; rewrite Z.mod_0_l, digit_zero by done; done.
Qed.
End table.
