(* ===== verification/UserPrintf.v ===== *)
(** * Formatted output of user programs (user/printf.c)

    [printf] writes its text one character at a time, so that a call is the list
    of the characters it writes.  A call that follows its format prints each
    piece as it should, numbers in the decimal notation that the library
    function [pretty] gives, and [atoi] reads them back. *)

From stdpp Require Import pretty.
From S2P Require Import Prelude Cstring Numeral.

Definition udigits : list Z :=
  [48; 49; 50; 51; 52; 53; 54; 55; 56; 57; 65; 66; 67; 68; 69; 70].

#[export] Instance udigits_table : DigitTable udigits.
Proof. by split. Qed.

(** What [putc] writes. *)
Definition putc (c : Z) : list Z := [u8 c].

Definition printint (xx base : Z) (sgn : bool) : list Z := reverse (number_buf udigits xx base sgn).

(** [ap] are the words after [fmt] on the stack; [str_at] gives the characters
    of the string at an address. *)
Section printf.
Context (str_at : Z -> list Z).

Fixpoint printf_from (fmt : list Z) (state : Z) (ap : list Z) : list Z :=
  match fmt with
  | [] => []
  | c :: fmt' =>
      if c =? 0 then []
      else
        let c := Z.land c 0xff in
        if state =? 0 then
          if c =? 37 then printf_from fmt' 37 ap else putc c ++ printf_from fmt' state ap
        else if state =? 37 then
          if c =? 100 then printint (s32 (hd 0 ap)) 10 true ++ printf_from fmt' 0 (tail ap)
          else if (c =? 120) || (c =? 112) then printint (s32 (hd 0 ap)) 16 false ++ printf_from fmt' 0 (tail ap)
          else if c =? 115 then
            (if hd 0 ap =? 0 then [40; 110; 117; 108; 108; 41] else str_at (hd 0 ap)) ++ printf_from fmt' 0 (tail ap)
          else if c =? 99 then putc (hd 0 ap) ++ printf_from fmt' 0 (tail ap)
          else if c =? 37 then putc c ++ printf_from fmt' 0 ap
          else (putc 37 ++ putc c) ++ printf_from fmt' 0 ap
        else printf_from fmt' state ap
  end.

Definition printf (fmt ap : list Z) : list Z := printf_from fmt 0 ap.

End printf.

(** ** Numbers *)

Definition chars (s : string) : list Z := Z.of_N ∘ Ascii.N_of_ascii <$> String.list_ascii_of_string s.

Definition hex_text (n : Z) (t : list Z) : Prop := value 16 t = n /\ (t = [48] \/ hd 0 t ≠ 48) /\ Forall (fun c => c ∈ udigits) t.

Lemma digits_pretty fuel x s : 0 < x < 10 ^ Z.of_nat fuel ->
  reverse (digits_of udigits fuel x 10) ++ chars s = chars (pretty_N_go (Z.to_N x) s).
Proof.
  revert x s. induction fuel as [|fuel IH]; intros x s Hx; [simpl in Hx; lia|].
  rewrite Nat2Z.inj_succ, Z.pow_succ_r in Hx by lia. assert (B := Z.mod_pos_bound x 10 ltac:(lia)). assert (Q := Z.div_pos x 10 ltac:(lia) ltac:(lia)).
  rewrite pretty_N_go_step by lia. cbn [digits_of]. rewrite reverse_cons, <- app_assoc.
  assert (C : [rd 0 udigits (x mod 10)] ++ chars s = chars (String (pretty_N_char (Z.to_N x mod 10)) s)).
  { unfold chars. cbn [String.list_ascii_of_string fmap list_fmap]. simpl app. f_equal.
    rewrite <- (Z2N.id (x mod 10)) by lia. rewrite Z2N.inj_mod by lia. change (Z.to_N 10) with 10%N.
    assert (M := N.mod_lt (Z.to_N x) 10 ltac:(done)). revert M. generalize (Z.to_N x mod 10)%N. intros d Hd.
    assert (E : d ∈ (N.of_nat <$> seq 0 10)). { apply list_elem_of_fmap. exists (N.to_nat d). split; [lia|]. apply elem_of_seq. lia. }
    revert d E Hd. apply (Forall_forall (fun d => (d < 10)%N -> _)). repeat constructor. }
  rewrite C. replace (Z.to_N x / 10)%N with (Z.to_N (x / 10)) by (rewrite Z2N.inj_div by lia; done).
  destruct (Z.eqb_spec (x / 10) 0) as [E|E]; [by rewrite E, pretty_N_go_0|]. apply IH. split; [lia|]. apply Z.div_lt_upper_bound; lia.
Qed.

Lemma printint_decimal n : is_s32 n -> printint n 10 true = chars (pretty n).
Proof.
  intros Hn. unfold printint, number_buf. simpl andb.
  assert (P : forall x, 0 <= x <= 2 ^ 31 -> reverse (digits_of udigits 16 (u32 x) 10) = chars (pretty (Z.to_N x))).
  { intros x Hx. rewrite u32_id by (unfold is_u32; lia). destruct (decide (x = 0)) as [->|N]; [by vm_compute|].
    unfold pretty, pretty_N. rewrite decide_False by lia. rewrite <- (digits_pretty 16) by (change (10 ^ Z.of_nat 16) with 10000000000000000; lia).
    by rewrite app_nil_r. }
  destruct (Z.ltb_spec n 0) as [L|L].
  - rewrite reverse_app, P by mlia. destruct n as [|p|p]; try lia. done.
  - rewrite app_nil_r, P by mlia. destruct n as [|p|p]; try lia; done.
Qed.

(** [atoi] of the text of a number is the number. *)
Lemma atoi_digits ds n c r : Forall (fun d => 48 <= d <= 57) ds -> ~ 48 <= c <= 57 -> 0 <= n ->
  fold_left (fun a c => a * 10 + digit_val c) ds n < 2 ^ 31 -> atoi_from n (ds ++ c :: r) = fold_left (fun a c => a * 10 + digit_val c) ds n.
Proof.
  intros Hd Hc. revert n. induction Hd as [|d ds Hd Hds IH]; intros n Hn Hv; simpl.
  - destruct (Z.leb_spec 48 c), (Z.leb_spec c 57); simpl; try done. lia.
  - simpl in Hv. assert (Ed : digit_val d = d - 48) by (unfold digit_val; destruct (Z.leb_spec d 57); lia). rewrite Ed in *.
    assert (G : forall l a, Forall (fun d => 48 <= d <= 57) l -> 0 <= a -> a <= fold_left (fun a c => a * 10 + digit_val c) l a).
    { clear. induction l as [|d l IH]; intros a Hl Ha; simpl; [lia|]. inversion_clear Hl as [|?? Hd Hl'].
      assert (Ed : digit_val d = d - 48) by (unfold digit_val; destruct (Z.leb_spec d 57); lia). rewrite Ed.
      specialize (IH (a * 10 + (d - 48)) Hl' ltac:(lia)). lia. }
    assert (X := G ds (n * 10 + (d - 48)) Hds ltac:(lia)).
    destruct (Z.leb_spec 48 d), (Z.leb_spec d 57); simpl; try lia. rewrite s32_id by (unfold is_s32; lia).
    replace (n * 10 + d - 48) with (n * 10 + (d - 48)) by lia. apply IH; [lia|done].
Qed.

Lemma digits_from_table fuel x base : 2 <= base <= 16 -> Forall (fun c => exists d, 0 <= d < base /\ c = rd 0 udigits d) (digits_of udigits fuel x base).
Proof.
  intros Hb. revert x. induction fuel as [|fuel IH]; intros x; cbn [digits_of]; constructor.
  - exists (x mod base). split; [apply Z.mod_pos_bound; lia|done].
  - destruct (x / base =? 0); [constructor|apply IH].
Qed.

Lemma udigits_elem d : 0 <= d < 16 -> rd 0 udigits d ∈ udigits /\ (d < 10 -> 48 <= rd 0 udigits d <= 57).
Proof.
  intros Hd. set (P d := bool_decide (rd 0 udigits d ∈ udigits) && ((10 <=? d) || (48 <=? rd 0 udigits d) && (rd 0 udigits d <=? 57))).
  assert (F : forallb P (seqZ 0 16) = true) by (vm_compute; reflexivity). rewrite forallb_forall in F.
  specialize (F d ltac:(apply list_elem_of_In, elem_of_seqZ; lia)). unfold P in F. apply andb_true_iff in F as [F1 F2].
  split; [by apply bool_decide_eq_true in F1|]. intros H10. apply orb_true_iff in F2 as [F2|F2]; [apply Z.leb_le in F2; lia|].
  apply andb_true_iff in F2 as [A B]. apply Z.leb_le in A, B. lia.
Qed.

Lemma printint_hex n : is_s32 n -> hex_text (u32 n) (printint n 16 false).
Proof.
  intros Hn. destruct (number_buf_spec udigits n 16 false ltac:(by right) Hn) as (_ & ds & E & V & H0). simpl in E.
  unfold hex_text, printint. rewrite E. split; [done|]. split; [done|]. rewrite <- E. unfold number_buf. simpl andb. rewrite app_nil_r.
  apply Forall_reverse. eapply Forall_impl; [by apply digits_from_table|]. intros c (d & Hd & ->). apply udigits_elem. lia.
Qed.

Section calls.
Context (str_at : Z -> list Z).

(** ** What a call means *)

Inductive piece :=
| PText (c : Z)
| PDec (n : Z)
| PHex (n : Z)
| PStr (a : Z)
| PChar (c : Z)
| PPercent.

Definition fmt_piece (p : piece) : list Z :=
  match p with
  | PText c => [c]
  | PDec _ => [37; 100]
  | PHex _ => [37; 120]
  | PStr _ => [37; 115]
  | PChar _ => [37; 99]
  | PPercent => [37; 37]
  end.

Definition arg_piece (p : piece) : list Z :=
  match p with
  | PDec n | PHex n => [u32 n]
  | PStr a => [a]
  | PChar c => [c]
  | PText _ | PPercent => []
  end.

(** [t] is the text of a piece. *)
Definition shows (p : piece) (t : list Z) : Prop :=
  match p with
  | PText c => t = [c]
  | PDec n => t = chars (pretty n)
  | PHex n => hex_text (u32 n) t
  | PStr a => t = str_at a
  | PChar c => t = [u8 c]
  | PPercent => t = [37]
  end.

Definition piece_ok (p : piece) : Prop :=
  match p with
  | PText c => is_u8 c /\ c ≠ 0 /\ c ≠ 37
  | PDec n | PHex n => is_s32 n
  | PStr a => a ≠ 0
  | PChar _ | PPercent => True
  end.

Lemma printf_piece p ps r : piece_ok p -> exists t, shows p t /\
  printf_from str_at (fmt_piece p ++ r) 0 (arg_piece p ++ ps) = t ++ printf_from str_at r 0 ps.
Proof.
  destruct p as [c|n|n|a|c|]; intros Hp.
  - exists [c]. split; [done|]. destruct Hp as (Hc & N0 & N37). cbn [fmt_piece arg_piece app printf_from].
    assert (E : Z.land c 0xff = c) by (change 0xff with (Z.ones 8); rewrite Z.land_ones by lia; apply Z.mod_small; mlia). rewrite E.
    rewrite (proj2 (Z.eqb_neq c 0)), (proj2 (Z.eqb_neq c 37)) by done. unfold putc. by rewrite u8_id.
  - exists (chars (pretty n)). split; [done|]. rewrite <- printint_decimal by done. simpl. by rewrite s32_u32.
  - exists (printint n 16 false). split; [by apply printint_hex|]. simpl. by rewrite s32_u32.
  - exists (str_at a). split; [done|]. simpl. by rewrite (proj2 (Z.eqb_neq a 0)).
  - exists [u8 c]. by split.
  - exists [37]. by split.
Qed.

(** Printf follows its format.  Whatever characters, decimal and
    hexadecimal numbers, strings and percent signs a call of [printf] is made of,
    it prints their texts one after the other; a decimal number is printed in the
    usual notation, also the smallest [int], and a hexadecimal one without
    leading zeros. *)
Theorem printf_correct ps r : Forall piece_ok ps -> exists ts, Forall2 shows ps ts /\
  printf str_at (mjoin (fmt_piece <$> ps) ++ 0 :: r) (mjoin (arg_piece <$> ps)) = mjoin ts.
Proof.
  unfold printf. induction 1 as [|p ps Hp Hps IH]; [by exists []|]. destruct IH as (ts & F & E).
  destruct (printf_piece p (mjoin (arg_piece <$> ps)) (mjoin (fmt_piece <$> ps) ++ 0 :: r) Hp) as (t & S & Et).
  exists (t :: ts). split; [by constructor|]. rewrite !fmap_cons. change (printf_from str_at ((fmt_piece p ++ mjoin (fmt_piece <$> ps)) ++ 0 :: r) 0 (arg_piece p ++ mjoin (arg_piece <$> ps)) = t ++ mjoin ts).
  by rewrite <- app_assoc, Et, E.
Qed.

(** A number that [printf] printed is the number that [atoi] reads. *)
Theorem printf_atoi n c r : 0 <= n < 2 ^ 31 -> ~ 48 <= c <= 57 -> atoi (printf str_at [37; 100] [n] ++ c :: r) = n.
Proof.
  intros Hn Hc. unfold printf, atoi. cbn [printf_from hd Z.eqb]. simpl. rewrite app_nil_r, s32_id by (unfold is_s32; lia).
  destruct (number_buf_spec udigits n 10 true ltac:(by left) ltac:(unfold is_s32; lia)) as (_ & ds & E & V & _).
  rewrite (proj2 (Z.ltb_ge n 0)) in E by lia. simpl in E. unfold printint. rewrite E. rewrite Z.abs_eq in V by lia. unfold value in V.
  rewrite atoi_digits; [done| |done|lia|lia]. rewrite <- E. unfold number_buf. rewrite (proj2 (Z.ltb_ge n 0)) by lia. simpl andb. rewrite app_nil_r.
  apply Forall_reverse. eapply Forall_impl; [by apply digits_from_table|]. intros d (k & Hk & ->). apply udigits_elem; lia.
Qed.
End calls.

(** [printf("p%c%d:%s%%")] *)
Definition demo_pieces : list piece := [PText 112; PChar 300; PDec (-7); PText 58; PStr 5; PPercent].

Lemma printf_correct_witness : exists ts, Forall2 (shows (fun _ => [115; 104])) demo_pieces ts /\
  printf (fun _ => [115; 104]) (mjoin (fmt_piece <$> demo_pieces) ++ 0 :: []) (mjoin (arg_piece <$> demo_pieces)) = mjoin ts.
Proof. apply printf_correct. by repeat constructor. Defined.
