(* ===== verification/UserPrograms.v ===== *)
(** * User programs (user/wc.c, cat.c, echo.c, ls.c, color.c)

    Programs over what their reads return: a list of pieces and then the end of
    the file, or an error.  A program that reads or prints is the text it writes
    and the status it exits with. *)

From stdpp Require Import pretty.
From S2P Require Import Prelude Param Cstring UserPrintf.

Definition no_strings (a : Z) : list Z := [].

(** The text of [printf] with string arguments: the strings are numbered. *)
Definition printf_strings (fmt : list Z) (args : list Z) (strs : list (list Z)) : list Z :=
  printf (fun a => default [] (strs !! Z.to_nat (a - 1))) fmt args.

(** ** wc *)

Record counts := Counts { n_l : Z; n_w : Z; n_c : Z; inword : bool }.

(** [strchr(" \r\t\n\v", c)] *)
Definition is_space (c : Z) : bool :=
  match strchr [32; 13; 9; 10; 11; 0] c with Some _ => true | None => false end.

(** The body of the inner loop of [wc]. *)
Definition wc_char (s : counts) (b : Z) : counts :=
  let c := s32 (n_c s + 1) in
  let l := if b =? 10 then s32 (n_l s + 1) else n_l s in
  if is_space b then Counts l (n_w s) c false
  else if negb (inword s) then Counts l (s32 (n_w s + 1)) c true
  else Counts l (n_w s) c true.

(** [wc(fd, name)] for a descriptor whose reads return the pieces [reads], and
    then [n]: what it prints, and the status if it exits. *)
Definition wc (reads : list (list Z)) (n : Z) (name : list Z) : list Z * option Z :=
  let s := foldl (foldl wc_char) (Counts 0 0 0 false) reads in
  if n <? 0 then (printf no_strings (cstring "wc: read error
") [], Some 1)
  else (printf_strings (cstring "%d %d %d %s
") [u32 (n_l s); u32 (n_w s); u32 (n_c s); 1] [name], None).

(** [main] of wc: [open] gives the reads of a file. *)
Fixpoint wc_files (files : list Z -> option (list (list Z) * Z)) (argv : list (list Z)) : list Z * Z :=
  match argv with
  | [] => ([], 0)
  | path :: argv' =>
      match files path with
      | None => (printf_strings (cstring "wc: cannot open %s
") [1] [path], 1)
      | Some (reads, n) =>
          match wc reads n path with
          | (out, Some st) => (out, st)
          | (out, None) => let '(out', st) := wc_files files argv' in (out ++ out', st)
          end
      end
  end.

(** [wc_main stdin files argv]: with no arguments it exits with 1 whatever the
    reads of the standard input give. *)
Definition wc_main (stdin : list (list Z) * Z) (files : list Z -> option (list (list Z) * Z)) (argv : list (list Z)) : list Z * Z :=
  match argv with
  | [] => ((wc stdin.1 stdin.2 []).1, 1)
  | _ => wc_files files argv
  end.

(** ** cat *)

(** [cat(fd)]: the writes take the results in [rs] from the front; a write that
    returns [r] has written [r] bytes. *)
Fixpoint cat (reads : list (list Z)) (n : Z) (rs : list Z) : list Z * option Z :=
  match reads with
  | [] => if n <? 0 then (printf no_strings (cstring "cat: read error
") [], Some 1) else ([], None)
  | buf :: reads' =>
      let r := hd 0 rs in
      let done := take (Z.to_nat r) buf in
      if negb (r =? zlen buf) then (done ++ printf no_strings (cstring "cat: write error
") [], Some 1)
      else let '(out, st) := cat reads' n (tail rs) in (done ++ out, st)
  end.

(** [main] of cat: the files that are opened, with the reads of each and the
    results of its writes. *)
Fixpoint cat_files (files : list Z -> option (list (list Z) * Z * list Z)) (argv : list (list Z)) : list Z * Z :=
  match argv with
  | [] => ([], 0)
  | path :: argv' =>
      match files path with
      | None => (printf_strings (cstring "cat: cannot open %s
") [1] [path], 1)
      | Some (reads, n, rs) =>
          match cat reads n rs with
          | (out, Some st) => (out, st)
          | (out, None) => let '(out', st) := cat_files files argv' in (out ++ out', st)
          end
      end
  end.

Definition cat_main (stdin : list (list Z) * Z * list Z) (files : list Z -> option (list (list Z) * Z * list Z)) (argv : list (list Z)) : list Z * Z :=
  match argv with
  | [] => ((cat stdin.1.1 stdin.1.2 stdin.2).1, 1)
  | _ => cat_files files argv
  end.

(** ** echo *)

Fixpoint echo (argv : list (list Z)) : list Z :=
  match argv with
  | [] => []
  | a :: argv' => printf_strings (cstring "%s%s") [1; 2] [a; if decide (argv' = []) then [10] else [32]] ++ echo argv'
  end.

(** ** The names of ls *)

(** [for(p=path+strlen(path); p >= path && *p != '/'; p--)], from the index [p] *)
Fixpoint back_to_slash (path : list Z) (n : nat) : Z :=
  if rd 0 path (Z.of_nat n) =? 47 then Z.of_nat n
  else match n with O => -1 | S n' => back_to_slash path n' end.

(** [fmtname]: the string that it returns. *)
Definition fmtname (path : list Z) : list Z :=
  let p := cstr (drop (Z.to_nat (back_to_slash path (Z.to_nat (strlen path)) + 1)) path) in
  if DIRSIZ <=? zlen p then p else p ++ replicate (Z.to_nat (DIRSIZ - zlen p)) 32.

(** ** ls *)

(** What [ls] sees of a file that can be opened: the fields [type], [ino] and
    [size] of [fstat], and the directory entries that the reads return. *)
Record listed := Listed { li_stat : option (Z * Z * Z); li_entries : list (Z * list Z) }.

Section ls.
Context (files : list Z -> option listed).

(** [stat] of ulib.c *)
Definition stat_path (path : list Z) : option (Z * Z * Z) := f ← files path; li_stat f.

(** [printf(1, "%s %d %d %d\n", fmtname(path), st.type, st.ino, st.size)] *)
Definition ls_line (path : list Z) '(type, ino, size) : list Z :=
  printf_strings (cstring "%s %d %d %d
") [1; u32 type; ino; size] [fmtname (path ++ [0])].

(** The loop over the entries of a directory: a name that fills its field has no
    end mark of its own. *)
Fixpoint ls_entries (path : list Z) (es : list (Z * list Z)) : list Z :=
  match es with
  | [] => []
  | (inum, name) :: es' =>
      if inum =? 0 then ls_entries path es'
      else
        let buf := path ++ [47] ++ cstr (take (Z.to_nat DIRSIZ) name) in
        match stat_path buf with
        | None => printf_strings (cstring "ls: cannot stat %s
") [1] [buf] ++ ls_entries path es'
        | Some st => ls_line buf st ++ ls_entries path es'
        end
  end.

(** [ls(path)]: the texts on the descriptors 1 and 2. *)
Definition ls (path : list Z) : list Z * list Z :=
  match files path with
  | None => ([], printf_strings (cstring "ls: cannot open %s
") [1] [path])
  | Some f =>
      match li_stat f with
      | None => ([], printf_strings (cstring "ls: cannot stat %s
") [1] [path])
      | Some (type, ino, size) =>
          if type =? T_FILE then (ls_line path (type, ino, size), [])
          else if type =? T_DIR then
            if 512 <? zlen path + 1 + DIRSIZ + 1 then (printf no_strings (cstring "ls: path too long
") [], [])
            else (ls_entries path (li_entries f), [])
          else ([], [])
      end
  end.

(** [main] *)
Definition ls_main (argv : list (list Z)) : list (list Z * list Z) :=
  match argv with
  | [] => [ls [46]]
  | _ => ls <$> argv
  end.
End ls.

(** ** color and line *)

(** [parse_color]: a case without [break] goes on with the next one. *)
Definition parse_color (color : list Z) : Z :=
  let c i := rd 0 color i in
  let from_R := 0x4 in
  let from_G := if c 3 =? 69 then 0xa else if c 3 =? 89 then 0x8 else from_R in
  let from_B := if c 1 =? 76 then (if c 2 =? 85 then 0x9 else if c 2 =? 65 then 0x0 else 0x6) else if c 1 =? 82 then 0x6 else from_G in
  let from_L := if c 1 =? 82 then 0xc else if c 1 =? 71 then 0x7 else from_B in
  let from_D := if c 1 =? 66 then 0x1 else if c 1 =? 71 then 0x2 else if c 1 =? 77 then 0x5 else from_L in
  if c 0 =? 68 then from_D
  else if c 0 =? 76 then from_L
  else if c 0 =? 66 then from_B
  else if c 0 =? 71 then from_G
  else if c 0 =? 82 then from_R
  else if c 0 =? 67 then 0xb
  else if c 0 =? 77 then 0xd
  else if c 0 =? 89 then 0xe
  else if c 0 =? 87 then 0xf
  else 0x7.

(** ** What the programs compute *)

(** The parts of a text between white space. *)
Fixpoint split_space (l : list Z) : list (list Z) :=
  match l with
  | [] => [[]]
  | c :: l' =>
      if is_space c then [] :: split_space l'
      else match split_space l' with w :: ws => (c :: w) :: ws | [] => [[c]] end
  end.
Definition word_list (l : list Z) : list (list Z) := filter (fun w => w ≠ []) (split_space l).
Definition line_count (l : list Z) : Z := zlen (filter (fun c => c = 10) l).

Definition starts_word (l : list Z) : Z := match l with c :: _ => if is_space c then 0 else 1 | [] => 0 end.

Lemma split_space_cons l : exists w ws, split_space l = w :: ws /\ (w = [] <-> starts_word l = 0).
Proof.
  induction l as [|c l (w & ws & E & H)]; [by exists [], []|]. simpl. destruct (is_space c); [by eexists _, _|].
  rewrite E. eexists _, _. split; [done|]. done.
Qed.

Lemma word_list_cons c l : zlen (word_list (c :: l)) = if is_space c then zlen (word_list l) else zlen (word_list l) + 1 - starts_word l.
Proof.
  unfold word_list. cbn [split_space]. destruct (is_space c); [by rewrite filter_cons_False by tauto|].
  destruct (split_space_cons l) as (w & ws & E & H). rewrite E, filter_cons_True by done.
  assert (S : starts_word l = 0 \/ starts_word l = 1) by (destruct l as [|x l]; simpl; [by left|]; destruct (is_space x); auto).
  destruct (decide (w = [])) as [->|N].
  - rewrite (filter_cons_False _ []) by tauto. rewrite (proj1 H eq_refl). unfold zlen. simpl. lia.
  - rewrite (filter_cons_True _ w) by done. destruct S as [S|S]; [by destruct N; apply H|]. rewrite S. unfold zlen. simpl. lia.
Qed.

Lemma wc_fold l : forall s, 0 <= n_l s -> 0 <= n_w s -> 0 <= n_c s -> n_l s + zlen l < 2 ^ 31 -> n_w s + zlen l < 2 ^ 31 -> n_c s + zlen l < 2 ^ 31 ->
  let s' := foldl wc_char s l in n_l s' = n_l s + line_count l /\ n_c s' = n_c s + zlen l /\
    n_w s' = n_w s + zlen (word_list l) - (if inword s then starts_word l else 0).
Proof.
  induction l as [|c l IH]; intros s H1 H2 H3 B1 B2 B3; simpl.
  - change (zlen (word_list [])) with 0. change (line_count []) with 0. unfold zlen. simpl. destruct (inword s); lia.
  - assert (Lc : zlen (c :: l) = zlen l + 1) by (unfold zlen; simpl; lia). rewrite Lc in *. assert (L0 := zlen_nonneg l).
    assert (Cn : line_count (c :: l) = (if c =? 10 then 1 else 0) + line_count l).
    { unfold line_count. destruct (Z.eqb_spec c 10) as [->|N]; [rewrite filter_cons_True by done; unfold zlen; simpl; lia|by rewrite filter_cons_False]. }
    rewrite Cn, word_list_cons. set (s1 := wc_char s c).
    assert (P : n_l s1 = n_l s + (if c =? 10 then 1 else 0) /\ n_c s1 = n_c s + 1 /\ inword s1 = negb (is_space c) /\
      n_w s1 = n_w s + (if is_space c then 0 else if inword s then 0 else 1)).
    { unfold s1, wc_char. rewrite !s32_id by (unfold is_s32; lia). destruct (c =? 10), (is_space c), (inword s); simpl; split_and!; try done; lia. }
    destruct P as (P1 & P2 & P3 & P4). destruct (IH s1) as (I1 & I2 & I3); [destruct (c =? 10); lia|destruct (is_space c), (inword s); lia|lia| | |lia|].
    + destruct (c =? 10); lia.
    + destruct (is_space c), (inword s); lia.
    + rewrite I1, I2, I3, P1, P2, P3, P4. split; [lia|]. split; [lia|]. destruct (is_space c), (inword s); simpl; lia.
Qed.

Lemma foldl_join {A} (f : A -> Z -> A) reads s : foldl (foldl f) s reads = foldl f s (mjoin reads).
Proof. revert s. induction reads as [|l reads IH]; intros s; [done|]. simpl. change (mjoin (l :: reads)) with (l ++ mjoin reads). by rewrite foldl_app, IH. Qed.

Lemma zlen_word_list l : zlen (word_list l) <= zlen l.
Proof.
  induction l as [|c l IH]; [by vm_compute|]. rewrite word_list_cons. assert (Lc : zlen (c :: l) = zlen l + 1) by (unfold zlen; simpl; lia).
  assert (S : 0 <= starts_word l) by (destruct l as [|x l]; simpl; [done|]; destruct (is_space x); done). destruct (is_space c); lia.
Qed.

Lemma zlen_line_count l : 0 <= line_count l <= zlen l.
Proof. unfold line_count. split; [apply zlen_nonneg|]. unfold zlen. assert (X := length_filter (fun c => c = 10) l). lia. Qed.

(** Wc counts.  However the reads cut the file into pieces, [wc] prints the
    number of newlines, of words (the longest parts without white space) and of
    bytes of the whole file, in decimal, and the name. *)
Theorem wc_correct reads name : zlen (mjoin reads) < 2 ^ 31 -> let file := mjoin reads in
  wc reads 0 name = (chars (pretty (line_count file)) ++ [32] ++ chars (pretty (zlen (word_list file))) ++ [32] ++ chars (pretty (zlen file)) ++ [32] ++ name ++ [10], None).
Proof.
  intros Hl file. unfold wc. rewrite foldl_join. fold file in Hl |- *. assert (B1 := zlen_line_count file). assert (B2 := zlen_word_list file). assert (B3 := zlen_nonneg (word_list file)).
  destruct (wc_fold file (Counts 0 0 0 false)) as (E1 & E2 & E3); try (done || (simpl; lia)). simpl in E1, E2, E3. rewrite E1, E2, E3. rewrite !Z.sub_0_r.
  change (0 <? 0) with false. cbv iota. f_equal. unfold printf_strings, printf. simpl.
  rewrite !s32_u32 by (unfold is_s32; lia). rewrite !Z.add_0_l.
  rewrite (printint_decimal (line_count file)), (printint_decimal (zlen (word_list file))), (printint_decimal (zlen file)) by (unfold is_s32; lia). done.
Qed.

(** [a b] and a newline, in two pieces *)
Lemma wc_correct_witness : wc [[97; 32]; [98; 10]] 0 [102] = (cstr (cstring "1 2 4 f
"), None).
Proof. exact (wc_correct [[97; 32]; [98; 10]] [102] eq_refl). Defined.

(** [cat] writes the file when the writes succeed, and never anything but a
    beginning of it and a message. *)
Theorem cat_copies reads rs : exists k msg st, cat reads 0 rs = (take k (mjoin reads) ++ msg, st) /\
  (st = None -> msg = [] /\ (length (mjoin reads) <= k)%nat) /\ (Forall2 (fun l r => r = zlen l) reads (take (length reads) rs) -> st = None).
Proof.
  revert rs. induction reads as [|l reads IH]; intros rs; [by exists 0%nat, [], None|]. change (mjoin (l :: reads)) with (l ++ mjoin reads). cbn [cat].
  destruct (Z.eqb_spec (hd 0 rs) (zlen l)) as [E|E]; simpl negb; cbv iota.
  - destruct (IH (tail rs)) as (k & msg & st & Ec & H1 & H2). rewrite Ec. exists (length l + k)%nat, msg, st. split; [|split].
    + rewrite E. unfold zlen. rewrite Nat2Z.id, firstn_all, take_app_add, app_assoc. done.
    + intros Hs. destruct (H1 Hs) as [-> Hk]. split; [done|]. rewrite length_app. lia.
    + intros F. destruct rs as [|r rs]; simpl in F; [by inversion F|]. inversion F; subst. by apply H2.
  - assert (Hk : take (Z.to_nat (hd 0 rs)) l = take (Nat.min (Z.to_nat (hd 0 rs)) (length l)) (l ++ mjoin reads)).
    { generalize (Z.to_nat (hd 0 rs)). intros r. rewrite take_app_le by lia. destruct (decide (r <= length l)%nat); [by rewrite Nat.min_l|]. rewrite Nat.min_r, !take_ge by lia. done. }
    rewrite Hk. eexists _, _, _. split; [done|]. split; [done|]. intros F. destruct rs as [|r rs]; simpl in F; [by inversion F|]. inversion F; subst. done.
Qed.

(** [echo] prints its arguments with spaces between them and a newline. *)
Theorem echo_correct a argv : echo (a :: argv) = a ++ mjoin ((fun b => 32 :: b) <$> argv) ++ [10].
Proof.
  revert a. induction argv as [|b argv IH]; intros a.
  - change (echo [a]) with ((a ++ [10] ++ []) ++ []). by rewrite !app_nil_r.
  - change (echo (a :: b :: argv)) with ((a ++ [32] ++ []) ++ echo (b :: argv)). rewrite IH, app_nil_r, fmap_cons, <- app_assoc.
    change (mjoin ((32 :: b) :: ((fun b => 32 :: b) <$> argv))) with (32 :: b ++ mjoin ((fun b => 32 :: b) <$> argv)). simpl. by rewrite <- app_assoc.
Qed.

(** The colours that [color] names. *)
Definition color_names : list (string * Z) :=
  [("BLACK", 0x0); ("DBLUE", 0x1); ("DGREEN", 0x2); ("RED", 0x4); ("DMAGENTA", 0x5); ("BROWN", 0x6); ("LGREY", 0x7); ("GREY", 0x8);
   ("BLUE", 0x9); ("GREEN", 0xa); ("CYAN", 0xb); ("LRED", 0xc); ("MAGENTA", 0xd); ("YELLOW", 0xe); ("WHITE", 0xf)]%string.

(** All names of the usage message but DCYAN, which is taken for RED, are
    understood. *)
Theorem colors_parsed : Forall (fun e => parse_color (cstring e.1) = e.2) color_names /\ parse_color (cstring "DCYAN") = parse_color (cstring "RED").
Proof. split; [repeat constructor|done]. Qed.

(** A name at the end of a path. *)
Lemma back_to_slash_name dir name k : Forall (fun c => c ≠ 47) name -> (k <= length name)%nat ->
  back_to_slash (dir ++ 47 :: name ++ [0]) (S (length dir + k)) = Z.of_nat (length dir).
Proof.
  intros Hn Hk. assert (R : forall j, (j <= length name)%nat -> rd 0 (dir ++ 47 :: name ++ [0]) (Z.of_nat (S (length dir + j))) ≠ 47).
  { intros j Hj. rewrite rd_app, decide_False by (unfold zlen; lia). rewrite rd_cons, decide_False by (unfold zlen; lia). unfold zlen. rewrite rd_app.
    case_decide as D; unfold zlen in D; [|by replace (_ - _) with 0 by (unfold zlen; lia)].
    unfold rd. rewrite decide_True by lia. destruct (name !! _) as [x|] eqn:E; [exact (Forall_lookup_1 _ _ _ _ Hn E)|done]. }
  induction k as [|k IH]; cbn [back_to_slash]; rewrite (proj2 (Z.eqb_neq _ _) (R _ Hk)).
  - rewrite Nat.add_0_r. assert (E : rd 0 (dir ++ 47 :: name ++ [0]) (Z.of_nat (length dir)) = 47).
    { rewrite rd_app, decide_False by (unfold zlen; lia). unfold zlen. by rewrite Z.sub_diag. }
    destruct (length dir); cbn [back_to_slash]; by rewrite E.
  - replace (length dir + S k)%nat with (S (length dir + k)) by lia. apply IH. lia.
Qed.

(** [fmtname] returns the last name of a path, filled up with blanks to the width
    of a directory entry. *)
Theorem fmtname_correct dir name : Forall (fun c => c ≠ 0) dir -> Forall (fun c => c ≠ 0 /\ c ≠ 47) name ->
  fmtname (dir ++ 47 :: name ++ [0]) = name ++ replicate (Z.to_nat (DIRSIZ - zlen name)) 32.
Proof.
  intros Hd Hn. assert (N0 : Forall (fun c => c ≠ 0) name) by (eapply Forall_impl; [exact Hn|by intros c [? _]]).
  assert (N47 : Forall (fun c => c ≠ 47) name) by (eapply Forall_impl; [exact Hn|by intros c [_ ?]]).
  assert (L : Z.to_nat (strlen (dir ++ 47 :: name ++ [0])) = S (length dir + length name)).
  { rewrite strlen_cstr. replace (dir ++ 47 :: name ++ [0]) with ((dir ++ 47 :: name) ++ 0 :: []) by (by rewrite <- app_assoc).
    rewrite cstr_app_nul by (apply Forall_app; split; [done|by constructor]). unfold zlen. rewrite length_app. simpl. lia. }
  unfold fmtname. rewrite L, back_to_slash_name by done. replace (Z.to_nat (Z.of_nat (length dir) + 1)) with (length dir + 1)%nat by lia.
  rewrite drop_app_add. change (drop 1 (47 :: name ++ [0])) with (name ++ 0 :: []). rewrite cstr_app_nul by done.
  destruct (Z.leb_spec DIRSIZ (zlen name)); [|done]. replace (Z.to_nat (DIRSIZ - zlen name)) with 0%nat by lia. by rewrite app_nil_r.
Qed.

(** [ls] of a directory prints a line for every entry that is in use: its name,
    filled up with blanks, and what [stat] says of it. *)
Theorem ls_names files path es st : Forall (fun c => c ≠ 0) path ->
  (forall inum name, (inum, name) ∈ es -> inum ≠ 0 -> let nm := cstr (take (Z.to_nat DIRSIZ) name) in
     Forall (fun c => c ≠ 0 /\ c ≠ 47) nm /\ stat_path files (path ++ [47] ++ nm) = Some (st nm)) ->
  ls_entries files path es = mjoin ((fun e => let nm := cstr (take (Z.to_nat DIRSIZ) e.2) in
    printf_strings (cstring "%s %d %d %d
") [1; u32 (st nm).1.1; (st nm).1.2; (st nm).2] [nm ++ replicate (Z.to_nat (DIRSIZ - zlen nm)) 32]) <$> filter (fun e => e.1 ≠ 0) es).
Proof.
  intros Hp. induction es as [|[inum name] es IH]; intros H; [done|]. cbn [ls_entries]. rewrite filter_cons. cbn [fst].
  assert (IH' := IH (fun i n Hi => H i n ltac:(by right))). clear IH. destruct (Z.eqb_spec inum 0) as [->|N]; [rewrite decide_False by (intros X; by apply X); exact IH'|].
  rewrite decide_True by done. destruct (H inum name ltac:(by left) N) as [Hn Es]. rewrite Es. rewrite fmap_cons. cbn [snd].
  change (mjoin (?a :: ?b)) with (a ++ mjoin b). rewrite IH'. f_equal. destruct (st (cstr (take (Z.to_nat DIRSIZ) name))) as [[t i] z]. unfold ls_line. cbn [fst snd].
  rewrite <- fmtname_correct with (dir := path) by done. do 3 f_equal. rewrite <- !app_assoc. done.
Qed.
