(* ===== verification/Shell.v ===== *)
(** * The shell's parser (user/sh.c)

    The parser works on a line of text [buf] of length [es], in place: pointers
    into the line are indices, and the nodes of the parsed command live in a heap
    whose pointers are indices too.  A node of type EXEC is filled in after other
    nodes already point to it.  The calls of [malloc] succeed. *)

From S2P Require Import Prelude Param Cstring.

Definition MAXARGS : Z := 10.

(** [struct cmd] and its variants; a null pointer is [None]. *)
Inductive cmdnode :=
| NExec (argv eargv : list (option Z))
| NRedir (cmd : nat) (file efile mode fd : Z)
| NPipe (left right : nat)
| NList (left right : nat)
| NBack (cmd : nat).

(** The pointer [*ps] of the parser and the heap. *)
Record shell := Shell { ps : Z; heap : list cmdnode }.

Definition set_ps (p : Z) (s : shell) : shell := Shell p (heap s).
Definition set_heap (h : list cmdnode) (s : shell) : shell := Shell (ps s) h.

Definition new_cmd (n : cmdnode) : M shell nat := fun s =>
  Ret (length (heap s)) (set_heap (heap s ++ [n]) s).

Definition execcmd : M shell nat := new_cmd (NExec (replicate 10 None) (replicate 10 None)).
Definition redircmd (subcmd : nat) (file efile mode fd : Z) : M shell nat :=
  new_cmd (NRedir subcmd file efile mode fd).
Definition pipecmd (left right : nat) : M shell nat := new_cmd (NPipe left right).
Definition listcmd (left right : nat) : M shell nat := new_cmd (NList left right).
Definition backcmd (subcmd : nat) : M shell nat := new_cmd (NBack subcmd).

(** [cmd->argv[i] = q; cmd->eargv[i] = eq] for the EXEC node [c]. *)
Definition set_arg (c : nat) (i : Z) (q eq : option Z) : M shell unit :=
  modify (fun s => set_heap (alter (fun n =>
    match n with
    | NExec argv eargv => NExec (wr argv i q) (wr eargv i eq)
    | _ => n
    end) c (heap s)) s).

(** space, tab, carriage return, newline, vertical tab; and [<|>&;()] *)
Definition whitespace : list Z := [32; 9; 13; 10; 11].
Definition symbols : list Z := [60; 124; 62; 38; 59; 40; 41].

Definition mem_chr (s : list Z) (c : Z) : bool :=
  match strchr s c with Some _ => true | None => false end.

Section parser.
Context (buf : list Z) (es : Z).

Definition ch (s : Z) : Z := rd 0 buf s.

(** [while(s < es && p( *s )) s++], at most [n] times *)
Fixpoint skip (p : Z -> bool) (n : nat) (s : Z) : Z :=
  match n with
  | O => s
  | S n' => if (s <? es) && p (ch s) then skip p n' (s + 1) else s
  end.

Definition skip_while (p : Z -> bool) (s : Z) : Z := skip p (Z.to_nat (es - s)) s.

(** The switch of [gettoken]: the token at [s] and the pointer behind it. *)
Definition scan_token (s : Z) : Z * Z :=
  let c := ch s in
  if c =? 0 then (0, s)
  else if (c =? 124) || (c =? 40) || (c =? 41) || (c =? 59) || (c =? 38) || (c =? 60) then (c, s + 1)
  else if c =? 62 then if ch (s + 1) =? 62 then (43, s + 2) else (62, s + 1)
  else (97, skip_while (fun c => negb (mem_chr whitespace c) && negb (mem_chr symbols c)) s).

(** The token, its start [q] and its end [eq]. *)
Definition gettoken : M shell (Z * Z * Z) :=
  s0 ← gets ps;
  let q := skip_while (mem_chr whitespace) s0 in
  let '(ret, eq) := scan_token q in
  modify (set_ps (skip_while (mem_chr whitespace) eq));;
  mret (ret, q, eq).

Definition peek (toks : list Z) : M shell bool :=
  s0 ← gets ps;
  let s := skip_while (mem_chr whitespace) s0 in
  modify (set_ps s);;
  mret (negb (ch s =? 0) && mem_chr toks (ch s)).

Definition open_mode (tok : Z) : Z * Z :=
  if tok =? 60 then (O_RDONLY, 0) else (Z.lor O_WRONLY O_CREATE, 1).

Fixpoint parseredirs (fuel : nat) (cmd : nat) : M shell nat :=
  match fuel with
  | O => out_of_fuel
  | S fuel' =>
      b ← peek [60; 62];
      if negb b then mret cmd else
      '(tok, _, _) ← gettoken;
      '(tok', q, eq) ← gettoken;
      if negb (tok' =? 97) then panic "missing file for redirection" else
      cmd' ← redircmd cmd q eq (open_mode tok).1 (open_mode tok).2;
      parseredirs fuel' cmd'
  end.

(** The loop of [parseexec] over the arguments of the EXEC node [cmd]. *)
Fixpoint parseargs (fuel : nat) (cmd : nat) (argc : Z) (ret : nat) : M shell nat :=
  match fuel with
  | O => out_of_fuel
  | S fuel' =>
      b ← peek [124; 41; 38; 59];
      if b : bool then set_arg cmd argc None None;; mret ret else
      '(tok, q, eq) ← gettoken;
      if tok =? 0 then set_arg cmd argc None None;; mret ret else
      if negb (tok =? 97) then panic "syntax" else
      set_arg cmd argc (Some q) (Some eq);;
      if MAXARGS <=? argc + 1 then panic "too many args" else
      ret' ← parseredirs fuel' ret;
      parseargs fuel' cmd (argc + 1) ret'
  end.

(** [while(peek(ps, es, "&"))] of [parseline] *)
Fixpoint parsebacks (fuel : nat) (cmd : nat) : M shell nat :=
  match fuel with
  | O => out_of_fuel
  | S fuel' =>
      b ← peek [38];
      if negb b then mret cmd else
      gettoken;;
      cmd' ← backcmd cmd;
      parsebacks fuel' cmd'
  end.

Fixpoint parseline (fuel : nat) : M shell nat :=
  match fuel with
  | O => out_of_fuel
  | S fuel' =>
      cmd ← parsepipe fuel';
      cmd ← parsebacks fuel' cmd;
      b ← peek [59];
      if negb b then mret cmd else
      gettoken;;
      right ← parseline fuel';
      listcmd cmd right
  end
with parsepipe (fuel : nat) : M shell nat :=
  match fuel with
  | O => out_of_fuel
  | S fuel' =>
      cmd ← parseexec fuel';
      b ← peek [124];
      if negb b then mret cmd else
      gettoken;;
      right ← parsepipe fuel';
      pipecmd cmd right
  end
with parseexec (fuel : nat) : M shell nat :=
  match fuel with
  | O => out_of_fuel
  | S fuel' =>
      b ← peek [40];
      if b : bool then parseblock fuel' else
      cmd ← execcmd;
      ret ← parseredirs fuel' cmd;
      parseargs fuel' cmd 0 ret
  end
with parseblock (fuel : nat) : M shell nat :=
  match fuel with
  | O => out_of_fuel
  | S fuel' =>
      b ← peek [40];
      if negb b then panic "parseblock" else
      gettoken;;
      cmd ← parseline fuel';
      b ← peek [41];
      if negb b then panic "syntax - missing )" else
      gettoken;;
      parseredirs fuel' cmd
  end.

End parser.

(** ** NUL-termination *)

(** [for(i=0; argv[i]; i++) *eargv[i] = 0] *)
Fixpoint nulargs (buf : list Z) (argv eargv : list (option Z)) : list Z :=
  match argv, eargv with
  | Some _ :: argv', Some e :: eargv' => nulargs (wr buf e 0) argv' eargv'
  | _, _ => buf
  end.

(** The nodes of a command are older than their parents, so [n] bounds the
    depth when it is larger than [cmd]. *)
Fixpoint nulterminate (h : list cmdnode) (n : nat) (cmd : nat) (buf : list Z) : list Z :=
  match n with
  | O => buf
  | S n' =>
      match h !! cmd with
      | Some (NExec argv eargv) => nulargs buf argv eargv
      | Some (NRedir c _ efile _ _) => wr (nulterminate h n' c buf) efile 0
      | Some (NPipe l r) | Some (NList l r) => nulterminate h n' r (nulterminate h n' l buf)
      | Some (NBack c) => nulterminate h n' c buf
      | None => buf
      end
  end.

(** The parsed command, the heap, and the line with its words terminated. *)
Definition parsecmd (buf : list Z) : M shell (nat * list Z) :=
  let es := strlen buf in
  modify (set_ps 0);;
  cmd ← parseline buf es (4 * Z.to_nat es + 5);
  peek buf es [];;
  s ← get;
  if negb (ps s =? es) then panic "syntax" else
  mret (cmd, nulterminate (heap s) (S (length (heap s))) cmd buf).
