(* ===== verification/ShellSpec.v ===== *)
(** * The shell's parser follows its grammar

    The tokens of a line, the grammar of command lines, and the nodes that
    represent a command.  On every line the parser comes to an end, what it
    accepts is derived by the grammar, and every line of the grammar is
    accepted.  ShellText.v goes on to the words of the command. *)

From S2P Require Import Prelude Param Cstring Shell.

(** ** Tokens *)

Definition token : Type := Z * Z * Z.

Lemma mem_chr_true s c : Forall (fun x => x ≠ 0) s -> mem_chr s c = true <-> c ∈ s.
Proof.
  unfold mem_chr. induction 1 as [|x s Hx _ IH]; cbn [strchr]; [set_solver|].
  destruct (Z.eqb_spec x 0); [done|]. destruct (Z.eqb_spec x c) as [->|]; [set_solver|]. rewrite IH. set_solver.
Qed.

Section lexer.
Context (buf : list Z) (es : Z).
Context (Hes : 0 <= es) (Hnul : forall i, 0 <= i < es -> ch buf i ≠ 0) (Hend : ch buf es = 0).
Notation ch := (ch buf).
Notation skip_while := (skip_while buf es).
Notation scan_token := (scan_token buf es).
Notation ws := (mem_chr whitespace).

Lemma skip_spec p n s : s <= es -> es - s <= Z.of_nat n ->
  s <= skip buf es p n s <= es /\
  (forall i, s <= i < skip buf es p n s -> p (ch i) = true) /\
  (skip buf es p n s = es \/ p (ch (skip buf es p n s)) = false).
Proof.
  revert s. induction n as [|n IH]; intros s Hs Hn; simpl.
  - assert (s = es) as -> by lia. split; [lia|]. split; [lia|by left].
  - destruct (Z.ltb_spec s es) as [Hlt|Hge]; simpl.
    + destruct (p (ch s)) eqn:Ep; simpl.
      * destruct (IH (s + 1)) as (H1 & H2 & H3); [lia|lia|]. split; [lia|]. split; [|done].
        intros i Hi. destruct (decide (i = s)) as [->|]; [done|]. apply H2. lia.
      * split; [lia|]. split; [lia|by right].
    + split; [lia|]. split; [lia|left; lia].
Qed.

Lemma skip_while_spec p s : s <= es ->
  s <= skip_while p s <= es /\
  (forall i, s <= i < skip_while p s -> p (ch i) = true) /\
  (skip_while p s = es \/ p (ch (skip_while p s)) = false).
Proof. intros. apply skip_spec; lia. Qed.

Lemma skip_while_stop p s : s <= es -> s = es \/ p (ch s) = false -> skip_while p s = s.
Proof.
  intros Hs H. destruct (skip_while_spec p s Hs) as (H1 & H2 & _).
  destruct (decide (skip_while p s = s)); [done|]. specialize (H2 s ltac:(lia)). destruct H; [lia|congruence].
Qed.

Lemma skip_idem p s : s <= es -> skip_while p (skip_while p s) = skip_while p s.
Proof. intros Hs. destruct (skip_while_spec p s Hs) as (H1 & H2 & H3). apply skip_while_stop; [lia|done]. Qed.

(** A character that starts a token. *)
Definition starts_token (q : Z) : Prop := 0 <= q <= es /\ (q = es \/ ws (ch q) = false).

Lemma scan_spec q k e : starts_token q -> scan_token q = (k, e) ->
  (k = 0 /\ q = es /\ e = es) \/
  (k ≠ 0 /\ q < e <= es /\
   ((k = 97 /\ (forall i, q <= i < e -> ws (ch i) = false /\ mem_chr symbols (ch i) = false) /\
     (e = es \/ ws (ch e) = true \/ mem_chr symbols (ch e) = true)) \/
    (k ≠ 97 /\ mem_chr symbols (ch q) = true /\ ch q = if decide (k = 43) then 62 else k))).
Proof.
  intros [Hq Hw] E. unfold Shell.scan_token in E.
  destruct (Z.eqb_spec (ch q) 0) as [E0|E0].
  { injection E as <- <-. left. destruct (decide (q = es)); [done|]. destruct (Hnul q); [lia|done]. }
  assert (q ≠ es) by (intros ->; done). destruct Hw as [|Hw]; [done|]. right.
  destruct (_ || _) eqn:Es in E.
  { injection E as <- <-. split; [done|]. split; [lia|]. right.
    assert (Hc : ch q ∈ [124; 40; 41; 59; 38; 60]).
    { rewrite !orb_true_iff, !Z.eqb_eq in Es. set_solver. }
    clear -Hc. repeat (apply elem_of_cons in Hc as [->|Hc]; [done|]). by apply elem_of_nil in Hc. }
  destruct (Z.eqb_spec (ch q) 62) as [E2|E2].
  { assert (mem_chr symbols (ch q) = true) by (by rewrite E2).
    destruct (Z.eqb_spec (ch (q + 1)) 62) as [E3|E3]; injection E as <- <-; (split; [done|]).
    - assert (q + 1 ≠ es) by (intros E; rewrite E in E3; congruence). split; [lia|]. right. done.
    - split; [lia|]. right. by rewrite E2. }
  assert (Hs : mem_chr symbols (ch q) = false).
  { rewrite !orb_false_iff, !Z.eqb_neq in Es. apply not_true_iff_false. rewrite mem_chr_true by by repeat constructor.
    unfold symbols. set_solver. }
  injection E as <- <-. destruct (skip_while_spec (fun c => negb (ws c) && negb (mem_chr symbols c)) q) as (H1 & H2 & H3); [lia|].
  set (e := skip_while _ _) in *. split; [done|].
  assert (e ≠ q) by (intros E; rewrite E in H3; rewrite Hw, Hs in H3; naive_solver).
  split; [lia|]. left. split; [done|]. split.
  - intros i Hi. specialize (H2 i Hi). bool_prop. done.
  - destruct H3 as [|H3]; [by left|right]. by apply andb_false_iff in H3 as [H3%negb_false_iff|H3%negb_false_iff]; [left|right].
Qed.

Fixpoint lex (n : nat) (s : Z) : list token :=
  match n with
  | O => []
  | S n' =>
      let q := skip_while ws s in
      let '(k, e) := scan_token q in
      if k =? 0 then [] else (k, q, e) :: lex n' e
  end.

(** The tokens from [s] to the end of the line. *)
Definition toks (s : Z) : list token := lex (Z.to_nat (es - s) + 1) s.

Lemma starts_skip s : 0 <= s <= es -> starts_token (skip_while ws s).
Proof. intros Hs. destruct (skip_while_spec ws s) as (H1 & H2 & H3); [lia|]. split; [lia|done]. Qed.

Lemma lex_fuel n n' s : 0 <= s <= es -> es - s < Z.of_nat n -> es - s < Z.of_nat n' -> lex n s = lex n' s.
Proof.
  revert n' s. induction n as [|n IH]; intros [|n'] s Hs Hn Hn'; try lia. cbn [lex].
  destruct (scan_token _) as [k e] eqn:E. destruct (Z.eqb_spec k 0); [done|]. f_equal.
  destruct (scan_spec _ _ _ (starts_skip s Hs) E) as [?|(_ & He & _)]; [tauto|].
  assert (H := skip_while_spec ws s ltac:(lia)). apply IH; lia.
Qed.

Lemma toks_eq s k e : 0 <= s <= es -> scan_token (skip_while ws s) = (k, e) ->
  toks s = if k =? 0 then [] else (k, skip_while ws s, e) :: toks e.
Proof.
  intros Hs E. unfold toks at 1. rewrite Nat.add_1_r. cbn [lex]. rewrite E. destruct (Z.eqb_spec k 0); [done|].
  f_equal. destruct (scan_spec _ _ _ (starts_skip s Hs) E) as [?|(_ & He & _)]; [tauto|].
  assert (H := skip_while_spec ws s ltac:(lia)). apply lex_fuel; lia.
Qed.

Lemma toks_skip s : 0 <= s <= es -> toks (skip_while ws s) = toks s.
Proof.
  intros Hs. assert (H := skip_while_spec ws s ltac:(lia)). destruct (scan_token (skip_while ws s)) as [k e] eqn:E.
  rewrite (toks_eq s k e) by done. rewrite (toks_eq (skip_while ws s) k e); rewrite ?skip_idem by lia; [done|lia|done].
Qed.

Lemma length_toks s : 0 <= s <= es -> (length (toks s) <= Z.to_nat (es - s))%nat.
Proof.
  remember (Z.to_nat (es - s)) as n. revert s Heqn. induction (lt_wf n) as [n _ IH]; intros s -> Hs.
  destruct (scan_token (skip_while ws s)) as [k e] eqn:E. rewrite (toks_eq s k e) by done.
  destruct (Z.eqb_spec k 0); simpl; [lia|].
  destruct (scan_spec _ _ _ (starts_skip s Hs) E) as [?|(_ & He & _)]; [tauto|].
  assert (H := skip_while_spec ws s ltac:(lia)).
  assert (length (toks e) <= Z.to_nat (es - e))%nat by (eapply IH; [|done|]; lia). lia.
Qed.

(** ** gettoken and peek on tokens *)

(** The first token starts with one of the symbols [l]. *)
Definition first (l : list Z) (ts : list token) : bool :=
  match ts with
  | [] => false
  | (k, _, _) :: _ => if k =? 97 then false else mem_chr l (if k =? 43 then 62 else k)
  end.

(** The tokens [ts] are left. *)
Definition left_ts (ts : list token) (s : shell) : Prop := 0 <= ps s <= es /\ toks (ps s) = ts.

Lemma toks_cons s k q e ts : 0 <= s <= es -> toks s = (k, q, e) :: ts ->
  k ≠ 0 /\ q = skip_while ws s /\ scan_token q = (k, e) /\ q < e <= es /\ toks e = ts.
Proof.
  intros Hs H. destruct (scan_token (skip_while ws s)) as [k' e'] eqn:E. rewrite (toks_eq s k' e') in H by done.
  destruct (Z.eqb_spec k' 0); [done|]. injection H as <- <- <- <-.
  destruct (scan_spec _ _ _ (starts_skip s Hs) E) as [?|(_ & He & _)]; [tauto|]. done.
Qed.

Lemma toks_nil s : 0 <= s <= es -> toks s = [] <-> skip_while ws s = es.
Proof.
  intros Hs. destruct (scan_token (skip_while ws s)) as [k e] eqn:E. rewrite (toks_eq s k e) by done.
  destruct (scan_spec _ _ _ (starts_skip s Hs) E) as [(-> & Hq & _)|(Hk & He & _)]; [done|].
  destruct (Z.eqb_spec k 0); [done|]. split; [done|lia].
Qed.

Lemma ep_gettoken P Q t ts s : left_ts (t :: ts) s ->
  (forall s', left_ts ts s' -> heap s' = heap s -> Q t s') -> ep P (gettoken buf es) Q s.
Proof.
  intros [Hs Ht] HQ. destruct t as [[k q] e]. destruct (toks_cons _ _ _ _ _ Hs Ht) as (Hk & -> & E & He & Et).
  unfold ep, gettoken. munfold. rewrite E. cbv beta iota. apply HQ; [|done].
  assert (H := skip_while_spec ws (ps s) ltac:(lia)). assert (H' := skip_while_spec ws e ltac:(lia)).
  split; simpl; [lia|]. rewrite toks_skip by lia. done.
Qed.

Lemma ep_gettoken_nil P Q s : left_ts [] s ->
  (forall s' q e, left_ts [] s' -> heap s' = heap s -> Q (0, q, e) s') -> ep P (gettoken buf es) Q s.
Proof.
  intros [Hs Ht] HQ. unfold ep, gettoken. munfold. apply toks_nil in Ht as E; [|done]. rewrite E.
  destruct (scan_token es) as [k e] eqn:Es. assert (Hst : starts_token es) by (split; [lia|by left]).
  destruct (scan_spec _ _ _ Hst Es) as [(-> & _ & ->)|(_ & He & _)]; [|lia].
  cbv beta iota. apply HQ; [|done]. rewrite (skip_while_stop ws es) by (lia || by left).
  split; simpl; [lia|]. apply toks_nil; [lia|]. apply skip_while_stop; [lia|by left].
Qed.

Lemma ep_peek P Q l ts s : l ⊆ symbols -> left_ts ts s ->
  (forall s', left_ts ts s' -> heap s' = heap s -> (ps s' = es <-> ts = []) -> Q (first l ts) s') ->
  ep P (peek buf es l) Q s.
Proof.
  intros Hl [Hs Ht] HQ. unfold ep, peek. munfold. assert (H := skip_while_spec ws (ps s) ltac:(lia)).
  assert (Hl0 : Forall (fun x => x ≠ 0) l).
  { apply Forall_forall. intros x Hx%Hl. unfold symbols in Hx. set_solver. }
  replace (negb _ && _) with (first l ts); [apply HQ|].
  - split; simpl; [lia|]. by rewrite toks_skip.
  - done.
  - simpl. rewrite <- Ht. symmetry. by apply toks_nil.
  - destruct ts as [|[[k q] e] ts]; simpl.
    + apply toks_nil in Ht as ->; [|done]. by rewrite Hend.
    + destruct (toks_cons _ _ _ _ _ Hs Ht) as (Hk & -> & E & He & Et).
      destruct (Z.eqb_spec (ch (skip_while ws (ps s))) 0) as [E0|E0]; [destruct (Hnul (skip_while ws (ps s))); [lia|done]|].
      destruct (scan_spec _ _ _ (starts_skip _ Hs) E) as [?|(_ & _ & [(-> & Hw & _)|(Hn & Hy & Ec)])]; [tauto| |].
      * simpl. destruct (Hw (skip_while ws (ps s))) as [_ Hw']; [lia|]. symmetry. apply not_true_iff_false.
        rewrite mem_chr_true by done. intros Hx%Hl. rewrite <- mem_chr_true in Hx by by repeat constructor. congruence.
      * destruct (Z.eqb_spec k 97); [done|]. simpl. rewrite Ec. by destruct (decide (k = 43)), (Z.eqb_spec k 43).
Qed.
End lexer.

(** ** Commands and their representation in the heap *)

Definition word : Type := Z * Z.
Definition redir : Type := word * Z * Z.

Inductive tree :=
| TExec (args : list word)
| TRedir (t : tree) (r : redir)
| TPipe (l r : tree)
| TList (l r : tree)
| TBack (t : tree).

(** The argument array that holds [ws]. *)
Definition arg_array (ws : list Z) : list (option Z) :=
  (Some <$> ws) ++ replicate (10 - length ws) None.

Fixpoint repr (h : list cmdnode) (p : nat) (t : tree) : Prop :=
  match t with
  | TExec args =>
      (length args < 10)%nat /\ h !! p = Some (NExec (arg_array args.*1) (arg_array args.*2))
  | TRedir t r =>
      exists c, h !! p = Some (NRedir c r.1.1.1 r.1.1.2 r.1.2 r.2) /\ (c < p)%nat /\ repr h c t
  | TPipe t1 t2 =>
      exists c1 c2, h !! p = Some (NPipe c1 c2) /\ (c1 < p)%nat /\ (c2 < p)%nat /\ repr h c1 t1 /\ repr h c2 t2
  | TList t1 t2 =>
      exists c1 c2, h !! p = Some (NList c1 c2) /\ (c1 < p)%nat /\ (c2 < p)%nat /\ repr h c1 t1 /\ repr h c2 t2
  | TBack t => exists c, h !! p = Some (NBack c) /\ (c < p)%nat /\ repr h c t
  end.

(** A command is represented in the nodes up to its own. *)
Lemma repr_ext h h' p t : (forall i, (i <= p)%nat -> h' !! i = h !! i) -> repr h p t -> repr h' p t.
Proof.
  revert p. induction t as [args|t IH r|t1 IH1 t2 IH2|t1 IH1 t2 IH2|t IH]; intros p E; simpl.
  - by rewrite E.
  - intros (c & H & Hc & R). exists c. rewrite E by done. split_and!; [done|done|]. apply IH; [|done].
    intros. apply E. lia.
  - intros (c1 & c2 & H & Hc1 & Hc2 & R1 & R2). exists c1, c2. rewrite E by done.
    split_and!; [done|done|done|apply IH1|apply IH2]; try done; intros; apply E; lia.
  - intros (c1 & c2 & H & Hc1 & Hc2 & R1 & R2). exists c1, c2. rewrite E by done.
    split_and!; [done|done|done|apply IH1|apply IH2]; try done; intros; apply E; lia.
  - intros (c & H & Hc & R). exists c. rewrite E by done. split_and!; [done|done|]. apply IH; [|done].
    intros. apply E. lia.
Qed.

(** The heap grows: old nodes stay as they are. *)
Definition grows (h h' : list cmdnode) : Prop := h `prefix_of` h'.

Lemma grows_lookup h h' i : grows h h' -> (i < length h)%nat -> h' !! i = h !! i.
Proof. intros [k ->] Hi. by rewrite lookup_app_l. Qed.

Lemma repr_grows h h' p t : grows h h' -> (p < length h)%nat -> repr h p t -> repr h' p t.
Proof. intros G Hp. apply repr_ext. intros i Hi. apply grows_lookup; [done|lia]. Qed.

Lemma grows_length h h' : grows h h' -> (length h <= length h')%nat.
Proof. apply prefix_length. Qed.

(** The nodes of the redirections [rs] lead from [p] down to [c]. *)
Inductive chain (h : list cmdnode) (c : nat) : list redir -> nat -> Prop :=
| chain_nil : chain h c [] c
| chain_snoc rs p p' r :
    chain h c rs p -> h !! p' = Some (NRedir p r.1.1.1 r.1.1.2 r.1.2 r.2) -> (p < p')%nat ->
    chain h c (rs ++ [r]) p'.

Definition wrap (t : tree) (rs : list redir) : tree := foldl TRedir t rs.

Lemma chain_repr h c rs p t : chain h c rs p -> repr h c t -> repr h p (wrap t rs).
Proof.
  intros H Ht. induction H as [|rs p p' r _ IH E Hp]; [done|]. unfold wrap. rewrite foldl_app. simpl. eauto.
Qed.

Lemma chain_le h c rs p : chain h c rs p -> (c <= p)%nat.
Proof. induction 1; lia. Qed.

Lemma chain_frame h h' c rs p :
  (forall i, (c < i <= p)%nat -> h' !! i = h !! i) -> chain h c rs p -> chain h' c rs p.
Proof.
  intros E H. induction H as [|rs p p' r H IH Ep Hp]; [constructor|]. assert (Hc := chain_le _ _ _ _ H).
  apply chain_snoc with p; [apply IH; intros; apply E; lia | rewrite E; [done|lia] | done].
Qed.

Lemma chain_grows h h' c rs p : grows h h' -> (p < length h)%nat -> chain h c rs p -> chain h' c rs p.
Proof. intros G Hp. apply chain_frame. intros. apply grows_lookup; [done|lia]. Qed.

(** ** The grammar of command lines

      line  ::=  pipe &* | pipe &* ; line
      pipe  ::=  exec | exec "|" pipe
      exec  ::=  ( line ) redir* | (word | redir)*          fewer than 10 words
      redir ::=  < word | > word | >> word *)

Definition is_redir (k : Z) : Prop := k = 60 \/ k = 62 \/ k = 43.

Definition redir_of (k q e : Z) : redir := (q, e, (open_mode k).1, (open_mode k).2).

Inductive gitems : list token -> list word -> list redir -> Prop :=
| gi_nil : gitems [] [] []
| gi_word q e ts args rs : gitems ts args rs -> gitems ((97, q, e) :: ts) ((q, e) :: args) rs
| gi_redir k q0 e0 q e ts args rs :
    is_redir k -> gitems ts args rs ->
    gitems ((k, q0, e0) :: (97, q, e) :: ts) args (redir_of k q e :: rs).

Definition kind_is (k : Z) (t : token) : Prop := t.1.1 = k.

Fixpoint backs (n : nat) (t : tree) : tree := match n with O => t | S n' => backs n' (TBack t) end.

Inductive gline : list token -> tree -> Prop :=
| gl_line ts bs t : gpipe ts t -> Forall (kind_is 38) bs -> gline (ts ++ bs) (backs (length bs) t)
| gl_list ts bs t c ts' t' :
    gpipe ts t -> Forall (kind_is 38) bs -> kind_is 59 c -> gline ts' t' ->
    gline (ts ++ bs ++ c :: ts') (TList (backs (length bs) t) t')
with gpipe : list token -> tree -> Prop :=
| gp_exec ts t : gexec ts t -> gpipe ts t
| gp_pipe ts t c ts' t' :
    gexec ts t -> kind_is 124 c -> gpipe ts' t' -> gpipe (ts ++ c :: ts') (TPipe t t')
with gexec : list token -> tree -> Prop :=
| ge_simple ts args rs : gitems ts args rs -> (length args < 10)%nat -> gexec ts (wrap (TExec args) rs)
| ge_block o ts t c rts rs :
    kind_is 40 o -> gline ts t -> kind_is 41 c -> gitems rts [] rs ->
    gexec (o :: ts ++ c :: rts) (wrap t rs).

Scheme gline_mut := Minimality for gline Sort Prop
  with gpipe_mut := Minimality for gpipe Sort Prop
  with gexec_mut := Minimality for gexec Sort Prop.
Combined Scheme grammar_ind from gline_mut, gpipe_mut, gexec_mut.

Lemma gitems_app ts1 a1 r1 ts2 a2 r2 :
  gitems ts1 a1 r1 -> gitems ts2 a2 r2 -> gitems (ts1 ++ ts2) (a1 ++ a2) (r1 ++ r2).
Proof. induction 1; intros; simpl; [done|constructor; auto..]. Qed.

Lemma chain_app h c rs1 p1 rs2 p2 : chain h c rs1 p1 -> chain h p1 rs2 p2 -> chain h c (rs1 ++ rs2) p2.
Proof.
  intros H1 H2. induction H2 as [|rs p p' r _ IH E Hp]; [by rewrite app_nil_r|].
  rewrite app_assoc. by apply chain_snoc with p.
Qed.

Lemma chain_one h c p r : h !! p = Some (NRedir c r.1.1.1 r.1.1.2 r.1.2 r.2) -> (c < p)%nat -> chain h c [r] p.
Proof. intros E H. by apply (chain_snoc h c [] c p r (chain_nil h c)). Qed.

Lemma grows_refl h : grows h h.
Proof. done. Qed.

Lemma grows_trans h1 h2 h3 : grows h1 h2 -> grows h2 h3 -> grows h1 h3.
Proof. apply transitivity. Qed.

Lemma grows_snoc h n : grows h (h ++ [n]).
Proof. by apply prefix_app_r. Qed.

Lemma grows_of_lookup h h' :
  (forall i, (i < length h)%nat -> h' !! i = h !! i) -> (length h <= length h')%nat -> grows h h'.
Proof.
  intros E Hl. exists (drop (length h) h'). rewrite <- (take_drop (length h) h') at 1. f_equal.
  apply list_eq_same_length with (length h); rewrite ?length_take; [done|lia|].
  intros i x y Hi Hx Hy. rewrite lookup_take_lt in Hx by done. rewrite E in Hx by done. congruence.
Qed.

Lemma arg_array_set ws q : (length ws < 10)%nat -> wr (arg_array ws) (zlen ws) (Some q) = arg_array (ws ++ [q]).
Proof.
  intros H. unfold arg_array, wr, zlen. rewrite decide_True, Nat2Z.id by lia.
  rewrite fmap_app, length_app, <- app_assoc. simpl.
  replace (10 - length ws)%nat with (S (10 - (length ws + 1)))%nat by lia. simpl.
  rewrite insert_app_r_alt by (rewrite length_fmap; lia). by rewrite length_fmap, Nat.sub_diag.
Qed.

Lemma arg_array_end ws : (length ws < 10)%nat -> wr (arg_array ws) (zlen ws) None = arg_array ws.
Proof.
  intros H. unfold arg_array, wr, zlen. rewrite decide_True, Nat2Z.id by lia.
  replace (10 - length ws)%nat with (S (10 - (length ws + 1)))%nat by lia. simpl.
  rewrite insert_app_r_alt by (rewrite length_fmap; lia). by rewrite length_fmap, Nat.sub_diag.
Qed.

(** The EXEC node [e] has the arguments [args]. *)
Definition exec_node (h : list cmdnode) (e : nat) (args : list word) : Prop :=
  h !! e = Some (NExec (arg_array args.*1) (arg_array args.*2)).

(** The heap after [set_arg e]. *)
Lemma ep_set_arg P Q e args (q eq : option Z) args' s :
  exec_node (heap s) e args ->
  wr (arg_array args.*1) (zlen args) q = arg_array args'.*1 ->
  wr (arg_array args.*2) (zlen args) eq = arg_array args'.*2 ->
  (forall s', ps s' = ps s -> length (heap s') = length (heap s) -> exec_node (heap s') e args' ->
     (forall i, i ≠ e -> heap s' !! i = heap s !! i) -> Q tt s') ->
  ep P (set_arg e (zlen args) q eq) Q s.
Proof.
  intros E E1 E2 HQ. unfold ep, set_arg, modify. apply HQ; simpl.
  - done.
  - apply length_alter.
  - unfold exec_node. rewrite list_lookup_alter_eq. rewrite E. simpl. by rewrite E1, E2.
  - intros i Hi. by rewrite list_lookup_alter_ne.
Qed.

Ltac estep := cbv beta iota; lazymatch goal with
  | |- ep _ (mbind _ _) _ _ => apply ep_bind
  | |- ep _ (mret _) _ _ => apply ep_ret
  end.

(** ** Soundness: what the parser accepts *)

Section parser.
Context (buf : list Z) (es : Z).
Context (Hes : 0 <= es) (Hnul : forall i, 0 <= i < es -> ch buf i ≠ 0) (Hend : ch buf es = 0).
Notation left_ts := (left_ts buf es).

Lemma left_kind k q e ts s : left_ts ((k, q, e) :: ts) s -> k ≠ 0.
Proof. intros [Hs Ht]. by destruct (toks_cons buf es Hes Hnul Hend _ _ _ _ _ Hs Ht). Qed.

Lemma left_heap ts s s' : ps s' = ps s -> left_ts ts s -> left_ts ts s'.
Proof. unfold ShellSpec.left_ts. by intros ->. Qed.

Lemma ep_alloc P Q n s :
  (forall s', ps s' = ps s -> heap s' = heap s ++ [n] -> Q (length (heap s)) s') -> ep P (new_cmd n) Q s.
Proof. intros HQ. unfold ep, new_cmd. by apply HQ. Qed.

(** One redirection has been read. *)
Lemma redirs_sound fuel cmd s ts :
  left_ts ts s -> (length ts < fuel)%nat -> (cmd < length (heap s))%nat ->
  ep True (parseredirs buf es fuel cmd) (fun p s' => exists used ts' rs,
    ts = used ++ ts' /\ left_ts ts' s' /\ grows (heap s) (heap s') /\ gitems used [] rs /\
    chain (heap s') cmd rs p /\ (p < length (heap s'))%nat) s.
Proof.
  revert cmd s ts. induction fuel as [|fuel IH]; intros cmd s ts Hl Hf Hc; [lia|]. cbn [parseredirs].
  estep. apply (ep_peek buf es Hes Hnul Hend _ _ [60; 62] ts); [set_solver|done|]. intros s1 Hl1 Eh1 _.
  destruct (first [60; 62] ts) eqn:Ef; simpl negb; cbv iota.
  2: { estep. exists [], ts, []. rewrite Eh1. split_and!; [done..|constructor|constructor|done]. }
  destruct ts as [|[[k q0] e0] ts]; [done|].
  assert (Hk : is_redir k).
  { unfold first in Ef. destruct (Z.eqb_spec k 97); [done|]. rewrite mem_chr_true in Ef by by repeat constructor.
    unfold is_redir. destruct (Z.eqb_spec k 43); [tauto|]. set_solver. }
  estep. eapply (ep_gettoken buf es Hes Hnul Hend); [done|]. intros s2 Hl2 Eh2.
  estep. destruct ts as [|[[k' q] e] ts].
  { eapply (ep_gettoken_nil buf es Hes Hnul Hend); [done|]. intros s3 q e Hl3 Eh3. by apply ep_panic. }
  eapply (ep_gettoken buf es Hes Hnul Hend); [done|]. intros s3 Hl3 Eh3.
  cbv beta iota. destruct (Z.eqb_spec k' 97) as [->|]; [|by apply (ep_panic True)]. simpl negb; cbv iota.
  estep. apply ep_alloc. intros s4 Ep4 Eh4.
  eapply ep_mono; [apply (IH _ _ ts); [by eapply left_heap|simpl in Hf; lia|rewrite Eh4, length_app; simpl; lia]|].
  simpl. intros p s' (used & ts' & rs & -> & Hl' & G & Hg & Hch & Hp).
  assert (Eh : heap s3 = heap s) by congruence. rewrite Eh in *.
  exists ((k, q0, e0) :: (97, q, e) :: used), ts', (redir_of k q e :: rs). split_and!; try done.
  - eapply grows_trans; [apply grows_snoc|]. by rewrite <- Eh4.
  - by apply gi_redir.
  - apply (chain_app _ _ [_] (length (heap s))); [|done]. apply chain_one; [|done].
    erewrite grows_lookup; [|exact G|rewrite Eh4, length_app; simpl; lia].
    rewrite Eh4, lookup_app_r, Nat.sub_diag by done. done.
Qed.

(** What the argument loop has done when it returns. *)
Definition args_done (s : shell) (e : nat) (args : list word) (rs0 : list redir)
    (used : list token) (p : nat) (s' : shell) : Prop :=
  exists args' rs,
    (forall i, (i < e)%nat -> heap s' !! i = heap s !! i) /\ (length (heap s) <= length (heap s'))%nat /\
    gitems used args' rs /\ (length (args ++ args') < 10)%nat /\ exec_node (heap s') e (args ++ args') /\
    chain (heap s') e (rs0 ++ rs) p /\ (p < length (heap s'))%nat.

(** The end of the loop. *)
Lemma args_end P Q e args rs0 ret s s1 ts :
  left_ts ts s1 -> heap s1 = heap s -> exec_node (heap s) e args -> (length args < 10)%nat ->
  chain (heap s) e rs0 ret -> (ret < length (heap s))%nat ->
  (forall s', left_ts ts s' -> args_done s e args rs0 [] ret s' -> Q ret s') ->
  ep P (set_arg e (zlen args) None None;; mret ret) Q s1.
Proof.
  intros Hl Eh He Ha Hc Hr HQ. estep. apply (ep_set_arg _ _ e args None None args).
  - by rewrite Eh.
  - rewrite <- (arg_array_end args.*1) at 2 by (by rewrite length_fmap). unfold zlen. by rewrite length_fmap.
  - rewrite <- (arg_array_end args.*2) at 2 by (by rewrite length_fmap). unfold zlen. by rewrite length_fmap.
  - intros s' Ep El He' Hne. estep. apply HQ; [by eapply left_heap|]. rewrite Eh in *. exists [], [].
    rewrite !app_nil_r. split_and!; [intros; apply Hne; lia|lia|constructor|done|done| |lia].
    eapply chain_frame; [|done]. intros. apply Hne. lia.
Qed.

(** One more word, and the redirections after it. *)
Lemma args_more e args rs0 ret q ex rts rs s s1 s2 ret' used p s' :
  (forall i, i ≠ e -> heap s1 !! i = heap s !! i) -> length (heap s1) = length (heap s) -> (e < length (heap s))%nat ->
  chain (heap s) e rs0 ret -> (ret < length (heap s))%nat ->
  grows (heap s1) (heap s2) -> gitems rts [] rs -> chain (heap s2) ret rs ret' ->
  args_done s2 e (args ++ [(q, ex)]) (rs0 ++ rs) used p s' ->
  args_done s e args rs0 ((97, q, ex) :: rts ++ used) p s'.
Proof.
  intros Hne El He Hc Hr G Hg Hc' (args' & rs' & Hlo & Hle & Hg' & Hn & He' & Hch & Hp).
  exists ((q, ex) :: args'), (rs ++ rs'). assert (Hl2 := grows_length _ _ G).
  rewrite <- app_assoc in *. simpl in *. split_and!; try done.
  - intros i Hi. rewrite Hlo by done. erewrite grows_lookup by (done || lia). apply Hne. lia.
  - lia.
  - apply gi_word. by apply (gitems_app rts [] rs used args' rs').
Qed.

Lemma args_sound fuel e args ret rs0 s ts :
  left_ts ts s -> (length ts < fuel)%nat -> exec_node (heap s) e args -> (length args < 10)%nat ->
  chain (heap s) e rs0 ret -> (ret < length (heap s))%nat ->
  ep True (parseargs buf es fuel e (zlen args) ret) (fun p s' => exists used ts',
    ts = used ++ ts' /\ left_ts ts' s' /\ args_done s e args rs0 used p s') s.
Proof.
  revert args ret rs0 s ts. induction fuel as [|fuel IH]; intros args ret rs0 s ts Hl Hf He Ha Hc Hr; [lia|].
  cbn [parseargs]. estep. apply (ep_peek buf es Hes Hnul Hend _ _ [124; 41; 38; 59] ts); [set_solver|done|].
  intros s1 Hl1 Eh1 _. destruct (first _ ts) eqn:Ef.
  { apply (args_end _ _ e args rs0 ret s s1 ts); try done. intros s' Hl' D. by exists [], ts. }
  estep. destruct ts as [|[[k q] ex] ts].
  { eapply (ep_gettoken_nil buf es Hes Hnul Hend); [done|]. intros s2 q ex Hl2 Eh2. cbv beta iota.
    rewrite Z.eqb_refl. apply (args_end _ _ e args rs0 ret s s2 []); try done; [congruence|]. intros s' Hl' D. by exists [], []. }
  eapply (ep_gettoken buf es Hes Hnul Hend); [done|]. intros s2 Hl2 Eh2. cbv beta iota.
  destruct (Z.eqb_spec k 0); [by apply left_kind in Hl|].
  destruct (Z.eqb_spec k 97) as [->|]; [|by apply (ep_panic True)]. simpl negb. cbv iota.
  assert (Eh : heap s2 = heap s) by congruence.
  estep. apply (ep_set_arg _ _ e args _ _ (args ++ [(q, ex)])); rewrite ?Eh; [done| | |].
  { rewrite fmap_app. simpl. rewrite <- arg_array_set by (by rewrite length_fmap). unfold zlen. by rewrite length_fmap. }
  { rewrite fmap_app. simpl. rewrite <- arg_array_set by (by rewrite length_fmap). unfold zlen. by rewrite length_fmap. }
  intros s3 Ep3 El3 He3 Hne3. destruct (Z.leb_spec MAXARGS (zlen args + 1)) as [?|Hmax]; [by apply (ep_panic True)|].
  assert (Hel : (e < length (heap s))%nat) by (by eapply lookup_lt_Some).
  estep. eapply ep_mono; [apply (redirs_sound fuel ret s3 ts); [by eapply left_heap|simpl in Hf; lia|lia]|].
  intros ret' s4 (rts & ts' & rs & -> & Hl4 & G & Hg & Hc4 & Hp4). cbv beta.
  replace (zlen args + 1) with (zlen (args ++ [(q, ex)])) by (unfold zlen; rewrite length_app; simpl; lia).
  eapply ep_mono; [apply (IH _ ret' (rs0 ++ rs) s4 ts')|]; try done.
  - rewrite !length_cons, length_app in Hf. lia.
  - unfold exec_node. erewrite grows_lookup; [done|done|lia].
  - unfold MAXARGS, zlen in Hmax. rewrite length_app. simpl. lia.
  - apply (chain_app _ _ _ ret); [|done]. eapply chain_grows; [done|lia|]. eapply chain_frame; [|done]. intros; apply Hne3; lia.
  - simpl. intros p s' (used & ts'' & -> & Hl' & D). exists ((97, q, ex) :: rts ++ used), ts''.
    split; [simpl; by rewrite <- app_assoc|]. split; [done|]. by eapply args_more.
Qed.

Lemma first_one c k q e ts : c ∈ [38; 59; 124; 40; 41] -> first [c] ((k, q, e) :: ts) = true -> k = c.
Proof.
  intros Hc Ef. unfold first in Ef. destruct (Z.eqb_spec k 97); [done|].
  assert (c ≠ 0 /\ c ≠ 62) as [? ?] by (clear -Hc; set_solver).
  rewrite mem_chr_true in Ef by (by repeat constructor). destruct (Z.eqb_spec k 43); set_solver.
Qed.

(** [peek] for one symbol, followed by [gettoken]. *)
Lemma ep_accept P c (m1 m2 : M shell nat) Q ts s :
  c ∈ [38; 59; 124; 40; 41] -> left_ts ts s ->
  (forall s', left_ts ts s' -> heap s' = heap s -> first [c] ts = false -> ep P m1 Q s') ->
  (forall s' t ts', ts = t :: ts' -> kind_is c t -> left_ts ts' s' -> heap s' = heap s -> ep P m2 Q s') ->
  ep P (b ← peek buf es [c]; if negb b then m1 else gettoken buf es;; m2) Q s.
Proof.
  intros Hc Hl H1 H2. estep. apply (ep_peek buf es Hes Hnul Hend _ _ [c] ts); [clear -Hc; unfold symbols; set_solver|done|].
  intros s1 Hl1 Eh1 _. destruct (first [c] ts) eqn:Ef; simpl negb; cbv iota; [|by apply H1].
  destruct ts as [|[[k q] e] ts]; [done|]. apply first_one in Ef as ->; [|done].
  estep. eapply (ep_gettoken buf es Hes Hnul Hend); [done|]. intros s2 Hl2 Eh2. apply (H2 s2 (c, q, e) ts); congruence || done.
Qed.

(** A new node on top of represented commands. *)
Lemma repr_snoc h n p t : (p < length h)%nat -> repr h p t -> repr (h ++ [n]) p t.
Proof. intros. apply (repr_grows h); [apply grows_snoc|done|done]. Qed.

Lemma lookup_snoc (h : list cmdnode) n : (h ++ [n]) !! length h = Some n.
Proof. by rewrite lookup_app_r, Nat.sub_diag by done. Qed.

Lemma backs_sound fuel cmd s ts t :
  left_ts ts s -> (length ts < fuel)%nat -> repr (heap s) cmd t -> (cmd < length (heap s))%nat ->
  ep True (parsebacks buf es fuel cmd) (fun p s' => exists bs ts',
    ts = bs ++ ts' /\ left_ts ts' s' /\ grows (heap s) (heap s') /\ Forall (kind_is 38) bs /\
    repr (heap s') p (backs (length bs) t) /\ (p < length (heap s'))%nat) s.
Proof.
  revert cmd s ts t. induction fuel as [|fuel IH]; intros cmd s ts t Hl Hf Hr Hc; [lia|]. cbn [parsebacks].
  apply (ep_accept _ 38 _ _ _ ts); [set_solver|done| |].
  - intros s1 Hl1 Eh1 _. estep. exists [], ts. rewrite Eh1. by split_and!.
  - intros s1 c ts' -> Hk Hl1 Eh1. estep. apply ep_alloc. intros s2 Ep2 Eh2. rewrite Eh1 in *.
    eapply ep_mono; [apply (IH _ _ ts' (TBack t))|].
    + by eapply left_heap.
    + simpl in Hf. lia.
    + rewrite Eh2. exists cmd. split; [apply lookup_snoc|]. split; [done|]. by apply repr_snoc.
    + rewrite Eh2, length_app. simpl. lia.
    + simpl. intros p s' (bs & ts'' & -> & Hl' & G & Hb & R & Hp). exists (c :: bs), ts''. split_and!; try done.
      * eapply grows_trans; [apply grows_snoc|]. by rewrite <- Eh2.
      * by constructor.
Qed.

Definition parsed (g : list token -> tree -> Prop) (s : shell) (ts : list token) (p : nat) (s' : shell) : Prop :=
  exists used ts' t, ts = used ++ ts' /\ left_ts ts' s' /\ grows (heap s) (heap s') /\ g used t /\
    repr (heap s') p t /\ (p < length (heap s'))%nat.

(** On at most [b] tokens [m] panics or parses a [g]. *)
Definition sound (g : list token -> tree -> Prop) (b : nat) (m : M shell nat) : Prop :=
  forall s ts, left_ts ts s -> (length ts <= b)%nat -> ep True m (parsed g s ts) s.

Lemma line_sound fuel b :
  (4 * b + 4 <= S fuel)%nat -> sound gpipe b (parsepipe buf es fuel) ->
  (forall b', (b' < b)%nat -> sound gline b' (parseline buf es fuel)) ->
  sound gline b (parseline buf es (S fuel)).
Proof.
  intros Hf Hpipe Hline s ts Hl Hb. cbn [parseline]. estep. eapply ep_mono; [by apply Hpipe|].
  intros c1 s1 (used & ts' & t & -> & Hl1 & G1 & Hg & R1 & Hc1). rewrite length_app in Hb. estep.
  eapply ep_mono; [apply (backs_sound _ _ _ ts' t); [done|lia|done|done]|].
  intros c2 s2 (bs & ts2 & -> & Hl2 & G2 & Hbs & R2 & Hc2). rewrite length_app in Hb.
  apply (ep_accept _ 59 _ _ _ ts2); [set_solver|done| |].
  - intros s3 Hl3 Eh3 _. estep. exists (used ++ bs), ts2, (backs (length bs) t). rewrite Eh3.
    split_and!; try done; [by rewrite app_assoc|by eapply grows_trans|by constructor].
  - intros s3 sep ts3 -> Hk Hl3 Eh3. simpl in Hb. estep. eapply ep_mono; [apply (Hline (length ts3)); [lia|done|lia]|].
    intros c3 s4 (used3 & ts4 & t3 & -> & Hl4 & G4 & Hg3 & R3 & Hc3). apply ep_alloc. intros s5 Ep5 Eh5.
    rewrite Eh3 in *. assert (L4 := grows_length _ _ G4).
    exists (used ++ bs ++ sep :: used3), ts4, (TList (backs (length bs) t) t3). rewrite Eh5. split_and!.
    + by rewrite <- !app_assoc.
    + by eapply left_heap.
    + eapply grows_trans; [done|]. eapply grows_trans; [done|]. eapply grows_trans; [done|]. apply grows_snoc.
    + by apply gl_list.
    + exists c2, c3. split_and!; [apply lookup_snoc|lia|done| |]; apply repr_snoc; try done; [lia|].
      by eapply repr_grows.
    + rewrite length_app. simpl. lia.
Qed.

Lemma pipe_sound fuel b :
  (4 * b + 3 <= S fuel)%nat -> sound gexec b (parseexec buf es fuel) ->
  (forall b', (b' < b)%nat -> sound gpipe b' (parsepipe buf es fuel)) ->
  sound gpipe b (parsepipe buf es (S fuel)).
Proof.
  intros Hf Hexec Hpipe s ts Hl Hb. cbn [parsepipe]. estep. eapply ep_mono; [by apply Hexec|].
  intros c1 s1 (used & ts' & t & -> & Hl1 & G1 & Hg & R1 & Hc1). rewrite length_app in Hb.
  apply (ep_accept _ 124 _ _ _ ts'); [set_solver|done| |].
  - intros s3 Hl3 Eh3 _. estep. exists used, ts', t. rewrite Eh3. split_and!; try done. by constructor.
  - intros s3 sep ts3 -> Hk Hl3 Eh3. simpl in Hb. estep. eapply ep_mono; [apply (Hpipe (length ts3)); [lia|done|lia]|].
    intros c3 s4 (used3 & ts4 & t3 & -> & Hl4 & G4 & Hg3 & R3 & Hc3). apply ep_alloc. intros s5 Ep5 Eh5.
    rewrite Eh3 in *. assert (L4 := grows_length _ _ G4).
    exists (used ++ sep :: used3), ts4, (TPipe t t3). rewrite Eh5. split_and!.
    + by rewrite <- !app_assoc.
    + by eapply left_heap.
    + eapply grows_trans; [done|]. eapply grows_trans; [done|]. apply grows_snoc.
    + by apply gp_pipe.
    + exists c1, c3. split_and!; [apply lookup_snoc|lia|done| |]; apply repr_snoc; try done; [lia|].
      by eapply repr_grows.
    + rewrite length_app. simpl. lia.
Qed.

Lemma exec_sound fuel b :
  (4 * b + 2 <= S fuel)%nat -> sound gexec b (parseblock buf es fuel) ->
  sound gexec b (parseexec buf es (S fuel)).
Proof.
  intros Hf Hblock s ts Hl Hb. cbn [parseexec]. estep.
  apply (ep_peek buf es Hes Hnul Hend _ _ [40] ts); [unfold symbols; set_solver|done|]. intros s1 Hl1 Eh1 _.
  destruct (first [40] ts) eqn:Ef; cbv iota.
  { eapply ep_mono; [by apply Hblock|]. unfold parsed. by rewrite Eh1. }
  estep. apply ep_alloc. intros s2 Ep2 Eh2. rewrite Eh1 in *. set (e := length (heap s)) in *.
  assert (El2 : length (heap s2) = S e) by (rewrite Eh2, length_app; simpl; lia).
  estep. eapply ep_mono; [apply (redirs_sound fuel e s2 ts); [by eapply left_heap|lia|lia]|].
  intros ret s3 (rts & ts' & rs & -> & Hl3 & G3 & Hg & Hch & Hret). rewrite length_app in Hb.
  eapply ep_mono; [apply (args_sound fuel e [] ret rs s3 ts'); try done; [lia| |simpl; lia]|].
  { unfold exec_node. erewrite grows_lookup by (done || lia). rewrite Eh2. apply lookup_snoc. }
  intros p s' (used & ts'' & -> & Hl' & args & rs' & Hlo & Hle & Hg' & Hn & He & Hch' & Hp). simpl in *.
  assert (L3 := grows_length _ _ G3).
  exists (rts ++ used), ts'', (wrap (TExec args) (rs ++ rs')). split_and!; try done.
  - by rewrite app_assoc.
  - apply grows_of_lookup; [|lia]. intros i Hi. rewrite Hlo by done. erewrite grows_lookup by (done || lia).
    rewrite Eh2. by apply lookup_app_l.
  - apply ge_simple; [|done]. by apply (gitems_app rts [] rs used args rs').
  - by apply (chain_repr _ e).
Qed.

Lemma block_sound fuel b :
  (4 * b + 1 <= S fuel)%nat -> (forall b', (b' < b)%nat -> sound gline b' (parseline buf es fuel)) ->
  sound gexec b (parseblock buf es (S fuel)).
Proof.
  intros Hf Hline s ts Hl Hb. cbn [parseblock].
  apply (ep_accept _ 40 _ _ _ ts); [set_solver|done|intros; by apply (ep_panic True)|].
  intros s1 o ts1 -> Ho Hl1 Eh1. simpl in Hb. estep. eapply ep_mono; [apply (Hline (length ts1)); [lia|done|lia]|].
  intros c1 s2 (used & ts2 & t & -> & Hl2 & G2 & Hg & R2 & Hc1). rewrite length_app in Hb.
  apply (ep_accept _ 41 _ _ _ ts2); [set_solver|done|intros; by apply (ep_panic True)|].
  intros s3 c ts3 -> Hc Hl3 Eh3. simpl in Hb.
  eapply ep_mono; [apply (redirs_sound fuel c1 s3 ts3); [done|lia|by rewrite Eh3]|].
  intros p s4 (rts & ts4 & rs & -> & Hl4 & G4 & Hg4 & Hch & Hp). rewrite Eh1, Eh3 in *.
  exists (o :: used ++ c :: rts), ts4, (wrap t rs). split_and!; try done.
  - simpl. by rewrite <- !app_assoc.
  - by eapply grows_trans.
  - by apply ge_block.
  - eapply chain_repr; [done|]. by eapply repr_grows.
Qed.

Lemma parser_sound fuel : forall b,
  ((4 * b + 4 <= fuel)%nat -> sound gline b (parseline buf es fuel)) /\
  ((4 * b + 3 <= fuel)%nat -> sound gpipe b (parsepipe buf es fuel)) /\
  ((4 * b + 2 <= fuel)%nat -> sound gexec b (parseexec buf es fuel)) /\
  ((4 * b + 1 <= fuel)%nat -> sound gexec b (parseblock buf es fuel)).
Proof.
  induction fuel as [|fuel IH]; intros b; [split_and!; lia|]. split_and!; intros Hf.
  - apply line_sound; [done|apply IH; lia|]. intros b' Hb. apply IH. lia.
  - apply pipe_sound; [done|apply IH; lia|]. intros b' Hb. apply IH. lia.
  - apply exec_sound; [done|apply IH; lia].
  - apply block_sound; [done|]. intros b' Hb. apply IH. lia.
Qed.

(** ** Completeness: every command of the grammar is accepted *)

(** The line goes on with one of the tokens [l], or ends. *)
Definition follow (l : list Z) (ts : list token) : Prop :=
  ts = [] \/ exists t ts', ts = t :: ts' /\ t.1.1 ∈ l.

Lemma first_follow m l ts :
  follow l ts -> Forall (fun k => first m [(k, 0, 0)] = false) l -> first m ts = false.
Proof.
  intros [->|([[k q] e] & ts' & -> & Hk)] H; [done|]. rewrite Forall_forall in H. by apply (H k).
Qed.

Lemma follow_incl l l' ts : follow l ts -> l ⊆ l' -> follow l' ts.
Proof. intros [->|(t & ts' & -> & Hk)] H; [by left|right]. exists t, ts'. auto. Qed.

Lemma follow_cons l t ts : t.1.1 ∈ l -> follow l (t :: ts).
Proof. intros H. right. by exists t, ts. Qed.

(** What the parser of a [g] promises on a line that starts with a [g]. *)
Definition result (s : shell) (rest : list token) (t : tree) (p : nat) (s' : shell) : Prop :=
  left_ts rest s' /\ grows (heap s) (heap s') /\ repr (heap s') p t /\ (p < length (heap s'))%nat.

Definition complete (g : list token -> tree -> Prop) (l : list Z) (b : nat) (m : M shell nat) : Prop :=
  forall s used rest t, g used t -> follow l rest -> left_ts (used ++ rest) s -> (length used <= b)%nat ->
  ep False m (result s rest t) s.

Lemma redirs_complete fuel used rs cmd s rest :
  gitems used [] rs -> first [60; 62] rest = false -> left_ts (used ++ rest) s -> (length used < fuel)%nat ->
  (cmd < length (heap s))%nat ->
  ep False (parseredirs buf es fuel cmd) (fun p s' =>
    left_ts rest s' /\ grows (heap s) (heap s') /\ chain (heap s') cmd rs p /\ (p < length (heap s'))%nat) s.
Proof.
  revert used rs cmd s. induction fuel as [|fuel IH]; intros used rs cmd s Hg Hr Hl Hf Hc; [lia|]. cbn [parseredirs].
  estep. apply (ep_peek buf es Hes Hnul Hend _ _ [60; 62] (used ++ rest)); [set_solver|done|]. intros s1 Hl1 Eh1 _.
  inversion Hg as [|?|k q0 e0 q e ts args rs' Hk Hg' E1 E2 E3]; subst; simpl app in *.
  { rewrite Hr. simpl negb. cbv iota. estep. rewrite Eh1. split_and!; [done|done|constructor|done]. }
  replace (first _ _) with true by (by destruct Hk as [->|[->| ->]]). simpl negb. cbv iota.
  estep. eapply (ep_gettoken buf es Hes Hnul Hend); [done|]. intros s2 Hl2 Eh2.
  estep. eapply (ep_gettoken buf es Hes Hnul Hend); [done|]. intros s3 Hl3 Eh3. cbv beta iota. rewrite Z.eqb_refl.
  simpl negb. cbv iota. estep. apply ep_alloc. intros s4 Ep4 Eh4.
  assert (Eh : heap s3 = heap s) by congruence. rewrite Eh in *.
  eapply ep_mono; [apply (IH ts rs'); [done|done|by eapply left_heap|simpl in Hf; lia|rewrite Eh4, length_app; simpl; lia]|].
  simpl. intros p s' (Hl' & G & Hch & Hp). split_and!; try done.
  - eapply grows_trans; [apply grows_snoc|]. by rewrite <- Eh4.
  - apply (chain_app _ _ [_] (length (heap s))); [|done]. apply chain_one; [|done].
    erewrite grows_lookup; [|exact G|rewrite Eh4, length_app; simpl; lia]. rewrite Eh4. apply lookup_snoc.
Qed.

(** Redirections first, then a word or the end. *)
Lemma gitems_split its args rs : gitems its args rs ->
  exists rts its' rs1 rs2, its = rts ++ its' /\ rs = rs1 ++ rs2 /\ gitems rts [] rs1 /\
    (its' = [] /\ args = [] /\ rs2 = [] \/
     exists q e its2 args', its' = (97, q, e) :: its2 /\ args = (q, e) :: args' /\ gitems its2 args' rs2).
Proof.
  induction 1 as [|q e ts args rs H IH|k q0 e0 q e ts args rs Hk H IH].
  - exists [], [], [], []. split_and!; [done|done|constructor|by left].
  - exists [], ((97, q, e) :: ts), [], rs. split_and!; [done|done|constructor|]. right. by exists q, e, ts, args.
  - destruct IH as (rts & its' & rs1 & rs2 & -> & -> & Hg & Hr).
    exists ((k, q0, e0) :: (97, q, e) :: rts), its', (redir_of k q e :: rs1), rs2.
    split_and!; [done|done|by apply gi_redir|done].
Qed.

Notation exec_follow := [124; 41; 38; 59].

Lemma args_complete fuel e args ret rs0 s rest its args' rs :
  (its = [] /\ args' = [] /\ rs = [] \/
   exists q ex its2 args2, its = (97, q, ex) :: its2 /\ args' = (q, ex) :: args2 /\ gitems its2 args2 rs) ->
  follow exec_follow rest -> (length (args ++ args') < 10)%nat ->
  left_ts (its ++ rest) s -> (length its < fuel)%nat -> exec_node (heap s) e args ->
  chain (heap s) e rs0 ret -> (ret < length (heap s))%nat ->
  ep False (parseargs buf es fuel e (zlen args) ret) (fun p s' => left_ts rest s' /\
    (forall i, (i < e)%nat -> heap s' !! i = heap s !! i) /\ (length (heap s) <= length (heap s'))%nat /\
    exec_node (heap s') e (args ++ args') /\ chain (heap s') e (rs0 ++ rs) p /\ (p < length (heap s'))%nat) s.
Proof.
  revert args ret rs0 s its args' rs. induction fuel as [|fuel IH]; intros args ret rs0 s its args' rs Hits Hfo Ha Hl Hf He Hc Hr; [lia|].
  cbn [parseargs]. estep. apply (ep_peek buf es Hes Hnul Hend _ _ [124; 41; 38; 59] (its ++ rest)); [set_solver|done|].
  intros s1 Hl1 Eh1 _. destruct Hits as [(-> & -> & ->)|(q & ex & its2 & args2 & -> & -> & Hg)].
  { assert (Hend_case : forall s', left_ts rest s' -> args_done s e args rs0 [] ret s' -> left_ts rest s' /\
      (forall i, (i < e)%nat -> heap s' !! i = heap s !! i) /\ (length (heap s) <= length (heap s'))%nat /\
      exec_node (heap s') e (args ++ []) /\ chain (heap s') e (rs0 ++ []) ret /\ (ret < length (heap s'))%nat).
    { intros s' Hl' (a & r & H1 & H2 & Hg & H3 & H4 & H5 & H6). inversion Hg; subst. done. }
    rewrite app_nil_r in Ha. simpl app in *. destruct Hfo as [->|([[k q] ex] & ts & -> & Hk)].
    - simpl first. cbv iota. estep. eapply (ep_gettoken_nil buf es Hes Hnul Hend); [done|]. intros s2 q ex Hl2 Eh2.
      cbv beta iota. rewrite Z.eqb_refl. apply (args_end _ _ e args rs0 ret s s2 []); congruence || done.
    - replace (first _ _) with true; [apply (args_end _ _ e args rs0 ret s s1 ((k, q, ex) :: ts)); congruence || done|].
      simpl in Hk. clear -Hk. repeat (apply elem_of_cons in Hk as [->|Hk]; [done|]). by apply elem_of_nil in Hk. }
  rewrite <- app_comm_cons in Hl1.
  simpl first. cbv iota. estep. eapply (ep_gettoken buf es Hes Hnul Hend); [done|]. intros s2 Hl2 Eh2. cbv beta iota.
  simpl Z.eqb. simpl negb. cbv iota. assert (Eh : heap s2 = heap s) by congruence.
  assert (Ha' : (length args < 9)%nat) by (rewrite length_app in Ha; simpl in Ha; lia).
  estep. apply (ep_set_arg _ _ e args _ _ (args ++ [(q, ex)])); rewrite ?Eh; [done| | |].
  { rewrite fmap_app. simpl. rewrite <- arg_array_set by (rewrite length_fmap; lia). unfold zlen. by rewrite length_fmap. }
  { rewrite fmap_app. simpl. rewrite <- arg_array_set by (rewrite length_fmap; lia). unfold zlen. by rewrite length_fmap. }
  intros s3 Ep3 El3 He3 Hne3. destruct (Z.leb_spec MAXARGS (zlen args + 1)) as [Hmax|_]; [unfold MAXARGS, zlen in Hmax; lia|].
  assert (Hel : (e < length (heap s))%nat) by (by eapply lookup_lt_Some).
  destruct (gitems_split _ _ _ Hg) as (rts & its' & rs1 & rs2 & -> & -> & Hg1 & Hits').
  rewrite <- app_assoc in Hl2. rewrite length_cons, length_app in Hf.
  estep. eapply ep_mono; [apply (redirs_complete fuel rts rs1 ret s3 (its' ++ rest)); [done| |by eapply left_heap|lia|lia]|].
  { destruct Hits' as [(-> & _)|(q' & e' & its2 & args3 & -> & _)]; [|done].
    eapply first_follow; [done|]. by repeat constructor. }
  intros ret' s4 (Hl4 & G & Hc4 & Hp4). cbv beta. assert (L4 := grows_length _ _ G).
  replace (zlen args + 1) with (zlen (args ++ [(q, ex)])) by (unfold zlen; rewrite length_app; simpl; lia).
  eapply ep_mono; [apply (IH _ ret' (rs0 ++ rs1) s4 its' args2 rs2)|]; try done.
  - by rewrite <- app_assoc.
  - unfold token in *. lia.
  - unfold exec_node. erewrite grows_lookup; [done|done|lia].
  - apply (chain_app _ _ _ ret); [|done]. eapply chain_grows; [done|lia|]. eapply chain_frame; [|done]. intros; apply Hne3; lia.
  - cbv beta. rewrite <- !app_assoc. simpl app. intros p s' (Hl' & Hlo & Hle & He' & Hch & Hp). split_and!; try done; [|lia].
    intros i Hi. rewrite Hlo by done. erewrite grows_lookup by (done || lia). apply Hne3. lia.
Qed.

Notation line_follow := [41].
Notation pipe_follow := [41; 38; 59].

Lemma ep_accept_yes c (m1 m2 : M shell nat) Q t ts s :
  c ∈ [38; 59; 124; 40; 41] -> kind_is c t -> left_ts (t :: ts) s ->
  (forall s', left_ts ts s' -> heap s' = heap s -> ep False m2 Q s') ->
  ep False (b ← peek buf es [c]; if negb b then m1 else gettoken buf es;; m2) Q s.
Proof.
  intros Hc Hk Hl H. apply (ep_accept _ c _ _ _ (t :: ts)); [done|done| |].
  - intros s' _ _ Ef. destruct t as [[k q] e]. unfold kind_is in Hk. simpl in Hk. subst k.
    exfalso. clear -Hc Ef. repeat (apply elem_of_cons in Hc as [->|Hc]; [done|]). by apply elem_of_nil in Hc.
  - intros s' t' ts' [= <- <-] _. apply H.
Qed.

Lemma ep_accept_no c l (m1 m2 : M shell nat) Q ts s :
  c ∈ [38; 59; 124; 40; 41] -> follow l ts -> c ∉ l -> left_ts ts s ->
  (forall s', left_ts ts s' -> heap s' = heap s -> ep False m1 Q s') ->
  ep False (b ← peek buf es [c]; if negb b then m1 else gettoken buf es;; m2) Q s.
Proof.
  intros Hc Hf Hn Hl H. apply (ep_accept _ c _ _ _ ts); [done|done|auto|].
  intros s' t ts' -> Hk _ _. destruct Hf as [?|(t' & ts2 & [= <- <-] & Hk')]; [done|]. by rewrite Hk in Hk'.
Qed.

Lemma backs_complete fuel bs cmd s rest t :
  Forall (kind_is 38) bs -> follow [41; 59] rest -> left_ts (bs ++ rest) s -> (length bs < fuel)%nat ->
  repr (heap s) cmd t -> (cmd < length (heap s))%nat ->
  ep False (parsebacks buf es fuel cmd) (result s rest (backs (length bs) t)) s.
Proof.
  intros Hb Hfo. revert bs cmd s t Hb. induction fuel as [|fuel IH]; intros bs cmd s t Hb Hl Hf R Hc; [lia|]. cbn [parsebacks].
  destruct Hb as [|c bs Hk Hb]; simpl app in *.
  - apply (ep_accept_no 38 [41; 59] _ _ _ rest); [set_solver|done|set_solver|done|].
    intros s1 Hl1 Eh1. estep. unfold result. by rewrite Eh1.
  - apply (ep_accept_yes 38 _ _ _ c (bs ++ rest)); [set_solver|done|done|]. intros s1 Hl1 Eh1.
    estep. apply ep_alloc. intros s2 Ep2 Eh2. rewrite Eh1 in *.
    eapply ep_mono; [apply (IH bs _ s2 (TBack t))|]; try done.
    + by eapply left_heap.
    + simpl in Hf. lia.
    + rewrite Eh2. exists cmd. split; [apply lookup_snoc|]. split; [done|]. by apply repr_snoc.
    + rewrite Eh2, length_app. simpl. lia.
    + simpl. intros p s' (Hl' & G & R' & Hp). split_and!; try done. eapply grows_trans; [apply grows_snoc|]. by rewrite <- Eh2.
Qed.

(** Two parsed commands under a new node. *)
Lemma repr_two h0 h1 h2 c1 c2 t1 t2 n :
  grows h0 h1 -> grows h1 h2 -> (c1 < length h1)%nat -> (c2 < length h2)%nat -> repr h1 c1 t1 -> repr h2 c2 t2 ->
  grows h0 (h2 ++ [n]) /\ (h2 ++ [n]) !! length h2 = Some n /\ (c1 < length h2)%nat /\
  repr (h2 ++ [n]) c1 t1 /\ repr (h2 ++ [n]) c2 t2 /\ (length h2 < length (h2 ++ [n]))%nat.
Proof.
  intros G1 G2 H1 H2 R1 R2. assert (L := grows_length _ _ G2). split_and!.
  - eapply grows_trans; [done|]. eapply grows_trans; [done|]. apply grows_snoc.
  - apply lookup_snoc.
  - lia.
  - apply repr_snoc; [lia|]. by eapply repr_grows.
  - by apply repr_snoc.
  - rewrite length_app. simpl. lia.
Qed.

Lemma line_complete fuel b :
  (4 * b + 4 <= S fuel)%nat -> complete gpipe pipe_follow b (parsepipe buf es fuel) ->
  (forall b', (b' < b)%nat -> complete gline line_follow b' (parseline buf es fuel)) ->
  complete gline line_follow b (parseline buf es (S fuel)).
Proof.
  intros Hf Hpipe Hline s used rest t Hg Hfo Hl Hb. cbn [parseline]. estep.
  inversion Hg as [ts bs t1 Hp Hbs|ts bs t1 c ts' t' Hp Hbs Hc Hg']; subst; rewrite !length_app in Hb; rewrite <- !app_assoc in Hl.
  - assert (Hfo' : follow pipe_follow (bs ++ rest)).
    { destruct Hbs as [|c bs Hc Hbs]; [eapply follow_incl; [done|set_solver]|]. apply follow_cons. rewrite Hc. set_solver. }
    eapply ep_mono; [by apply (Hpipe _ ts _ t1 Hp Hfo' Hl); lia|]. intros c1 s1 (Hl1 & G1 & R1 & Hc1). estep.
    eapply ep_mono; [apply (backs_complete fuel bs c1 s1 rest t1); try done; [eapply follow_incl; [done|set_solver]|lia]|].
    intros c2 s2 (Hl2 & G2 & R2 & Hc2). apply (ep_accept_no 59 line_follow _ _ _ rest); [set_solver|done|set_solver|done|].
    intros s3 Hl3 Eh3. estep. unfold result. rewrite Eh3. split_and!; try done. by eapply grows_trans.
  - simpl in Hb, Hl. assert (Hfo' : follow pipe_follow (bs ++ c :: ts' ++ rest)).
    { destruct Hbs as [|c' bs Hc' Hbs]; apply follow_cons; [rewrite Hc|rewrite Hc']; set_solver. }
    eapply ep_mono; [by apply (Hpipe _ ts _ t1 Hp Hfo' Hl); lia|]. intros c1 s1 (Hl1 & G1 & R1 & Hc1). estep.
    eapply ep_mono; [apply (backs_complete fuel bs c1 s1 (c :: ts' ++ rest) t1); try done; [apply follow_cons; rewrite Hc; set_solver|lia]|].
    intros c2 s2 (Hl2 & G2 & R2 & Hc2). apply (ep_accept_yes 59 _ _ _ c (ts' ++ rest)); [set_solver|done|done|].
    intros s3 Hl3 Eh3. estep. eapply ep_mono; [apply (Hline (length ts') ltac:(lia) _ ts' rest t'); done|].
    intros c3 s4 (Hl4 & G4 & R4 & Hc4). apply ep_alloc. intros s5 Ep5 Eh5. rewrite Eh3 in *.
    destruct (repr_two (heap s) (heap s2) (heap s4) c2 c3 _ _ (NList c2 c3) (grows_trans _ _ _ G1 G2) G4 Hc2 Hc4 R2 R4)
      as (H1 & H2 & H3 & H4 & H5 & H6).
    unfold result. rewrite Eh5. split_and!; try done; [by eapply left_heap|]. by exists c2, c3.
Qed.

Lemma pipe_complete fuel b :
  (4 * b + 3 <= S fuel)%nat -> complete gexec exec_follow b (parseexec buf es fuel) ->
  (forall b', (b' < b)%nat -> complete gpipe pipe_follow b' (parsepipe buf es fuel)) ->
  complete gpipe pipe_follow b (parsepipe buf es (S fuel)).
Proof.
  intros Hf Hexec Hpipe s used rest t Hg Hfo Hl Hb. cbn [parsepipe]. estep.
  inversion Hg as [ts t1 He|ts t1 c ts' t' He Hc Hg']; subst; rewrite ?length_app in Hb; rewrite <- ?app_assoc in Hl.
  - eapply ep_mono; [apply (Hexec _ used rest t He); [eapply follow_incl; [done|set_solver]|done|lia]|].
    intros c1 s1 (Hl1 & G1 & R1 & Hc1). apply (ep_accept_no 124 pipe_follow _ _ _ rest); [set_solver|done|set_solver|done|].
    intros s3 Hl3 Eh3. estep. unfold result. by rewrite Eh3.
  - simpl in Hb, Hl. eapply ep_mono; [apply (Hexec _ ts (c :: ts' ++ rest) t1 He); [apply follow_cons; rewrite Hc; set_solver|done|lia]|].
    intros c1 s1 (Hl1 & G1 & R1 & Hc1). apply (ep_accept_yes 124 _ _ _ c (ts' ++ rest)); [set_solver|done|done|].
    intros s3 Hl3 Eh3. estep. eapply ep_mono; [apply (Hpipe (length ts') ltac:(lia) _ ts' rest t'); done|].
    intros c3 s4 (Hl4 & G4 & R4 & Hc4). apply ep_alloc. intros s5 Ep5 Eh5. rewrite Eh3 in *.
    destruct (repr_two (heap s) (heap s1) (heap s4) c1 c3 _ _ (NPipe c1 c3) G1 G4 Hc1 Hc4 R1 R4)
      as (H1 & H2 & H3 & H4 & H5 & H6).
    unfold result. rewrite Eh5. split_and!; try done; [by eapply left_heap|]. by exists c1, c3.
Qed.

(** A simple command does not start with a parenthesis. *)
Lemma simple_first its args rs rest :
  gitems its args rs -> follow exec_follow rest -> first [40] (its ++ rest) = false.
Proof.
  intros Hg Hfo. destruct Hg as [|q e ts args rs _|k q0 e0 q e ts args rs Hk _]; [|done|].
  - eapply first_follow; [done|]. by repeat constructor.
  - by destruct Hk as [->|[->| ->]].
Qed.

Lemma exec_complete fuel b :
  (4 * b + 2 <= S fuel)%nat ->
  (forall s o ts rest t, kind_is 40 o -> gexec (o :: ts) t -> follow exec_follow rest -> left_ts (o :: ts ++ rest) s ->
     (S (length ts) <= b)%nat -> ep False (parseblock buf es fuel) (result s rest t) s) ->
  complete gexec exec_follow b (parseexec buf es (S fuel)).
Proof.
  intros Hf Hblock s used rest t Hg Hfo Hl Hb. cbn [parseexec]. estep.
  apply (ep_peek buf es Hes Hnul Hend _ _ [40] (used ++ rest)); [unfold symbols; set_solver|done|]. intros s1 Hl1 Eh1 _.
  inversion Hg as [ts args rs Hits Hn|o ts t1 c rts rs Ho Hline Hc Hits]; subst.
  2: { replace (first _ _) with true by (destruct o as [[k q] e]; unfold kind_is in Ho; simpl in Ho; by subst k).
       eapply ep_mono; [by apply (Hblock s1 o (ts ++ c :: rts) rest (wrap t1 rs))|]. unfold result. by rewrite Eh1. }
  rewrite (simple_first _ _ _ _ Hits Hfo). cbv iota.
  estep. apply ep_alloc. intros s2 Ep2 Eh2. rewrite Eh1 in *. set (e := length (heap s)) in *.
  assert (El2 : length (heap s2) = S e) by (rewrite Eh2, length_app; simpl; lia).
  destruct (gitems_split _ _ _ Hits) as (rts & its' & rs1 & rs2 & -> & -> & Hg1 & Hits'). rewrite length_app in Hb.
  rewrite <- app_assoc in Hl1.
  estep. eapply ep_mono; [apply (redirs_complete fuel rts rs1 e s2 (its' ++ rest)); [done| |by eapply left_heap|lia|lia]|].
  { destruct Hits' as [(-> & _)|(q' & e' & its2 & args3 & -> & _)]; [|done].
    eapply first_follow; [done|]. by repeat constructor. }
  intros ret s3 (Hl3 & G3 & Hch & Hret). assert (L3 := grows_length _ _ G3).
  eapply ep_mono; [apply (args_complete fuel e [] ret rs1 s3 rest its' args rs2); try done; [unfold token in *; lia|]|].
  { unfold exec_node. erewrite grows_lookup by (done || lia). rewrite Eh2. apply lookup_snoc. }
  intros p s' (Hl' & Hlo & Hle & He & Hch' & Hp). split_and!; try done.
  - apply grows_of_lookup; [|lia]. intros i Hi. rewrite Hlo by done. erewrite grows_lookup by (done || lia).
    rewrite Eh2. by apply lookup_app_l.
  - by apply (chain_repr _ e).
Qed.

Lemma block_complete fuel b s o ts rest t :
  (4 * b + 1 <= S fuel)%nat -> (forall b', (b' < b)%nat -> complete gline line_follow b' (parseline buf es fuel)) ->
  kind_is 40 o -> gexec (o :: ts) t -> follow exec_follow rest -> left_ts (o :: ts ++ rest) s ->
  (S (length ts) <= b)%nat -> ep False (parseblock buf es (S fuel)) (result s rest t) s.
Proof.
  intros Hf Hline Ho Hg Hfo Hl Hb. cbn [parseblock].
  inversion Hg as [ts' args rs Hits Hn|o' ts' t1 c rts rs _ Hg1 Hc Hits]; subst.
  { exfalso. inversion Hits as [|?|k q0 e0 q e ts2 a2 r2 Hk]; subst; unfold kind_is in Ho; simpl in Ho; [done|].
    destruct Hk; simplify_eq; lia. }
  rewrite length_app in Hb. simpl in Hb. rewrite <- app_assoc, <- app_comm_cons in Hl.
  apply (ep_accept_yes 40 _ _ _ o (ts' ++ c :: rts ++ rest)); [set_solver|done|done|]. intros s1 Hl1 Eh1.
  estep. eapply ep_mono; [apply (Hline (length ts') ltac:(lia) _ ts' (c :: rts ++ rest) t1); [done| |done|done]|].
  { apply follow_cons. rewrite Hc. set_solver. }
  intros c1 s2 (Hl2 & G2 & R2 & Hc1). apply (ep_accept_yes 41 _ _ _ c (rts ++ rest)); [set_solver|done|done|].
  intros s3 Hl3 Eh3. eapply ep_mono; [apply (redirs_complete fuel rts rs c1 s3 rest); try done; [|lia|by rewrite Eh3]|].
  { eapply first_follow; [done|]. by repeat constructor. }
  intros p s4 (Hl4 & G4 & Hch & Hp). rewrite Eh1, Eh3 in *. split_and!; try done.
  - by eapply grows_trans.
  - eapply chain_repr; [done|]. by eapply repr_grows.
Qed.

Lemma parser_complete fuel : forall b,
  ((4 * b + 4 <= fuel)%nat -> complete gline line_follow b (parseline buf es fuel)) /\
  ((4 * b + 3 <= fuel)%nat -> complete gpipe pipe_follow b (parsepipe buf es fuel)) /\
  ((4 * b + 2 <= fuel)%nat -> complete gexec exec_follow b (parseexec buf es fuel)) /\
  ((4 * b + 1 <= fuel)%nat -> forall s o ts rest t, kind_is 40 o -> gexec (o :: ts) t -> follow exec_follow rest ->
     left_ts (o :: ts ++ rest) s -> (S (length ts) <= b)%nat -> ep False (parseblock buf es fuel) (result s rest t) s).
Proof.
  induction fuel as [|fuel IH]; intros b; [split_and!; lia|]. split_and!; intros Hf.
  - apply line_complete; [done|apply IH; lia|]. intros b' Hb. apply IH. lia.
  - apply pipe_complete; [done|apply IH; lia|]. intros b' Hb. apply IH. lia.
  - apply exec_complete; [done|apply IH; lia].
  - intros. eapply (block_complete fuel b); try done. intros b' Hb. apply IH. lia.
Qed.
End parser.
