(* ===== verification/ShellText.v ===== *)
(** * The words of a parsed command

    [nulterminate] writes a NUL at the end of each word.  The ends are not
    inside other words, so each word becomes a string of its own, and the
    command that [runcmd] gets has the words of the line. *)

From S2P Require Import Prelude Param Cstring Shell ShellSpec.

(** A command with its words; [runcmd] sees a node of the heap and the strings
    its pointers point to. *)
Inductive command :=
| CExec (argv : list (list Z))
| CRedir (c : command) (file : list Z) (mode fd : Z)
| CPipe (l r : command)
| CList (l r : command)
| CBack (c : command).

Definition string_at (buf : list Z) (q : Z) : list Z := cstr (drop (Z.to_nat q) buf).

Fixpoint loaded (h : list cmdnode) (buf : list Z) (p : nat) (c : command) : Prop :=
  match c with
  | CExec argv => exists qs es, h !! p = Some (NExec (arg_array qs) (arg_array es)) /\
      (length qs < 10)%nat /\ argv = string_at buf <$> qs /\ Forall (Z.le 0) qs
  | CRedir c f mode fd => exists c' q e, h !! p = Some (NRedir c' q e mode fd) /\
      f = string_at buf q /\ 0 <= q /\ loaded h buf c' c
  | CPipe c1 c2 => exists p1 p2, h !! p = Some (NPipe p1 p2) /\ loaded h buf p1 c1 /\ loaded h buf p2 c2
  | CList c1 c2 => exists p1 p2, h !! p = Some (NList p1 p2) /\ loaded h buf p1 c1 /\ loaded h buf p2 c2
  | CBack c => exists c', h !! p = Some (NBack c') /\ loaded h buf c' c
  end.

Definition text (buf : list Z) (w : word) : list Z := slice buf w.1 (w.2 - w.1).

Fixpoint meaning (buf : list Z) (t : tree) : command :=
  match t with
  | TExec args => CExec (text buf <$> args)
  | TRedir t r => CRedir (meaning buf t) (text buf r.1.1) r.1.2 r.2
  | TPipe t1 t2 => CPipe (meaning buf t1) (meaning buf t2)
  | TList t1 t2 => CList (meaning buf t1) (meaning buf t2)
  | TBack t => CBack (meaning buf t)
  end.

(** The nodes of a command are at most [cdepth] deep. *)
Fixpoint cdepth (c : command) : nat :=
  match c with
  | CExec _ => 1
  | CRedir c _ _ _ | CBack c => S (cdepth c)
  | CPipe l r | CList l r => S (Nat.max (cdepth l) (cdepth r))
  end.

Lemma repr_depth h buf p t : repr h p t -> (cdepth (meaning buf t) <= S p)%nat.
Proof.
  revert p. induction t as [args|t IH r|t1 IH1 t2 IH2|t1 IH1 t2 IH2|t IH]; intros p R; simpl in *; [lia| | | |].
  - destruct R as (c & _ & Hc & R). specialize (IH c R). lia.
  - destruct R as (c1 & c2 & _ & H1 & H2 & R1 & R2). specialize (IH1 c1 R1). specialize (IH2 c2 R2). lia.
  - destruct R as (c1 & c2 & _ & H1 & H2 & R1 & R2). specialize (IH1 c1 R1). specialize (IH2 c2 R2). lia.
  - destruct R as (c & _ & Hc & R). specialize (IH c R). lia.
Qed.

(** The line [buf] is a line of the grammar, with the meaning [c]. *)
Definition derives (buf : list Z) (c : command) : Prop :=
  exists t, gline (toks buf (strlen buf) 0) t /\ c = meaning buf t.

(** ** nulterminate *)

Fixpoint words (t : tree) : list word :=
  match t with
  | TExec args => args
  | TRedir t r => words t ++ [r.1.1]
  | TPipe t1 t2 | TList t1 t2 => words t1 ++ words t2
  | TBack t => words t
  end.

Definition cut (buf : list Z) (es : list Z) : list Z := foldl (fun b e => wr b e 0) buf es.

Lemma cut_app buf es es' : cut buf (es ++ es') = cut (cut buf es) es'.
Proof. apply foldl_app. Qed.

Lemma nulargs_cut buf qs es : length qs = length es -> nulargs buf (arg_array qs) (arg_array es) = cut buf es.
Proof.
  unfold arg_array. intros E. rewrite E.
  set (n := (10 - length es)%nat). clearbody n. revert buf qs E. induction es as [|e es IH]; intros buf [|q qs] E; try done; simpl.
  - by destruct n.
  - apply IH. simpl in E. lia.
Qed.

Lemma nulterminate_cut h n p t buf : repr h p t -> (p < n)%nat -> nulterminate h n p buf = cut buf (words t).*2.
Proof.
  revert n p buf. induction t as [args|t IH r|t1 IH1 t2 IH2|t1 IH1 t2 IH2|t IH]; intros [|n] p buf R Hn; try lia; simpl in *.
  - destruct R as [Ha ->]. apply nulargs_cut. by rewrite !length_fmap.
  - destruct R as (c & -> & Hc & R). by rewrite fmap_app, cut_app, (IH n c) by (done || lia).
  - destruct R as (c1 & c2 & -> & Hc1 & Hc2 & R1 & R2). by rewrite fmap_app, cut_app, (IH1 n c1), (IH2 n c2) by (done || lia).
  - destruct R as (c1 & c2 & -> & Hc1 & Hc2 & R1 & R2). by rewrite fmap_app, cut_app, (IH1 n c1), (IH2 n c2) by (done || lia).
  - destruct R as (c & -> & Hc & R). by rewrite (IH n c) by (done || lia).
Qed.

Lemma zlen_cut buf es : zlen (cut buf es) = zlen buf.
Proof. revert buf. induction es as [|e es IH]; intros buf; [done|]. simpl. rewrite IH. apply zlen_wr. Qed.

Lemma rd_cut_ne buf es i : i ∉ es -> rd 0 (cut buf es) i = rd 0 buf i.
Proof.
  revert buf. induction es as [|e es IH]; intros buf Hi; [done|]. apply not_elem_of_cons in Hi as [Hi Hi'].
  simpl. rewrite IH by done. apply rd_wr_ne. done.
Qed.

Lemma rd_cut_eq buf es i : i ∈ es -> rd 0 (cut buf es) i = 0.
Proof.
  revert buf. induction es as [|e es IH]; intros buf Hi; [by apply elem_of_nil in Hi|]. simpl.
  destruct (decide (i ∈ es)) as [H|H]; [by apply IH|]. apply elem_of_cons in Hi as [->|?]; [|done].
  change (rd 0 (cut (wr buf e 0) es) e = 0). rewrite rd_cut_ne by done.
  destruct (decide (0 <= e < zlen buf)); [by apply rd_wr_eq|]. apply rd_out. rewrite zlen_wr. lia.
Qed.

Lemma cstr_take l n : (n <= length l)%nat -> (forall i, 0 <= i < Z.of_nat n -> rd 0 l i ≠ 0) -> rd 0 l (Z.of_nat n) = 0 ->
  cstr l = take n l.
Proof.
  revert n. induction l as [|x l IH]; intros n Hn Hi H0; [by rewrite take_nil|]. simpl.
  destruct n as [|n].
  - rewrite rd_cons in H0 by lia. rewrite decide_True in H0 by done. subst. done.
  - specialize (Hi 0 ltac:(lia)) as Hx. rewrite rd_cons in Hx by lia. rewrite decide_True in Hx by done.
    destruct (Z.eqb_spec x 0); [done|]. simpl. f_equal. apply IH; [simpl in Hn; lia| |].
    + intros i Hi'. specialize (Hi (i + 1) ltac:(lia)). rewrite rd_cons, decide_False in Hi by lia.
      by replace (i + 1 - 1) with i in Hi by lia.
    + rewrite rd_cons, decide_False in H0 by lia. by replace (Z.of_nat (S n) - 1) with (Z.of_nat n) in H0 by lia.
Qed.

(** ** Words are tokens of the line *)

Definition from_tokens (ts : list token) (t : tree) : Prop := Forall (fun w => (97, w.1, w.2) ∈ ts) (words t).

Lemma from_tokens_incl ts ts' t : from_tokens ts t -> ts ⊆ ts' -> from_tokens ts' t.
Proof. intros H Hi. eapply Forall_impl; [done|]. simpl. intros w Hw. by apply Hi. Qed.

Lemma words_wrap t rs : words (wrap t rs) = words t ++ ((fun r : redir => r.1.1) <$> rs).
Proof.
  unfold wrap. revert t. induction rs as [|r rs IH]; intros t; simpl; [by rewrite app_nil_r|].
  rewrite IH. simpl. by rewrite <- app_assoc.
Qed.

Lemma words_backs n t : words (backs n t) = words t.
Proof. revert t. induction n as [|n IH]; intros t; simpl; [done|]. by rewrite IH. Qed.

Lemma gitems_words ts args rs : gitems ts args rs ->
  Forall (fun w => (97, w.1, w.2) ∈ ts) (args ++ ((fun r : redir => r.1.1) <$> rs)).
Proof.
  induction 1 as [|q e ts args rs H IH|k q0 e0 q e ts args rs Hk H IH]; simpl; [constructor|constructor|].
  - by left.
  - eapply Forall_impl; [exact IH|]. simpl. intros w Hw. by right.
  - rewrite Forall_app in IH |- *. destruct IH as [IH1 IH2].
    split; [|constructor; [right; by left|]]; (eapply Forall_impl; [done|]); simpl; intros w Hw; by do 2 right.
Qed.

Lemma grammar_words :
  (forall ts t, gline ts t -> from_tokens ts t) /\ (forall ts t, gpipe ts t -> from_tokens ts t) /\
  (forall ts t, gexec ts t -> from_tokens ts t).
Proof.
  apply grammar_ind; unfold from_tokens; simpl.
  - intros ts bs t _ H _. rewrite words_backs. eapply from_tokens_incl; [exact H|set_solver].
  - intros ts bs t c ts' t' _ H _ _ _ H'. rewrite words_backs. apply Forall_app. split.
    + eapply from_tokens_incl; [exact H|set_solver].
    + eapply from_tokens_incl; [exact H'|set_solver].
  - done.
  - intros ts t c ts' t' _ H _ _ H'. apply Forall_app. split.
    + eapply from_tokens_incl; [exact H|set_solver].
    + eapply from_tokens_incl; [exact H'|set_solver].
  - intros ts args rs H _. rewrite words_wrap. by apply gitems_words.
  - intros o ts t c rts rs _ _ H _ Hr. rewrite words_wrap. apply Forall_app. split.
    + eapply from_tokens_incl; [exact H|set_solver].
    + apply gitems_words in Hr. simpl in Hr. eapply Forall_impl; [exact Hr|]. simpl. set_solver.
Qed.

Section strings.
Context (buf : list Z).
Notation es := (strlen buf).

Lemma strlen_bounds : 0 <= es <= zlen buf.
Proof.
  unfold zlen. induction buf as [|c l IH]; simpl; [lia|]. destruct (c =? 0); [lia|]. rewrite Nat2Z.inj_succ. lia.
Qed.

Lemma strlen_spec : (forall i, 0 <= i < es -> ch buf i ≠ 0) /\ ch buf es = 0.
Proof.
  unfold ch. assert (B := strlen_bounds). clear B. induction buf as [|c l IH]; cbn [strlen].
  { split; [lia|done]. }
  destruct (Z.eqb_spec c 0) as [->|Hc].
  { split; [lia|done]. }
  destruct IH as [IH1 IH2]. assert (0 <= strlen l) by (rewrite strlen_cstr; apply zlen_nonneg). split.
  - intros i Hi. rewrite rd_cons by lia. case_decide; [done|]. apply IH1. lia.
  - rewrite rd_cons, decide_False by lia. by replace (1 + strlen l - 1) with (strlen l) by lia.
Qed.

(** A word token: its characters are no separators, and one follows it. *)
Definition word_ok (w : word) : Prop :=
  0 <= w.1 < w.2 /\ w.2 <= es /\
  (forall i, w.1 <= i < w.2 -> mem_chr whitespace (ch buf i) = false /\ mem_chr symbols (ch buf i) = false) /\
  (w.2 = es \/ mem_chr whitespace (ch buf w.2) = true \/ mem_chr symbols (ch buf w.2) = true).

Lemma toks_words s q e : 0 <= s <= es -> (97, q, e) ∈ toks buf es s -> word_ok (q, e).
Proof.
  destruct strlen_spec as [Hnul Hend]. assert (B := strlen_bounds).
  remember (Z.to_nat (es - s)) as n eqn:En. revert s En. induction (lt_wf n) as [n _ IH]; intros s -> Hs H.
  destruct (toks buf es s) as [|[[k q'] e'] ts] eqn:Et; [by apply elem_of_nil in H|].
  destruct (toks_cons buf es ltac:(lia) Hnul Hend _ _ _ _ _ Hs Et) as (Hk & Hq & Esc & He & Et').
  destruct (skip_while_spec buf es (mem_chr whitespace) s ltac:(lia)) as (S1 & _ & _).
  assert (St := starts_skip buf es s Hs). rewrite <- Hq in St.
  apply elem_of_cons in H as [[= <- <- <-]|H].
  - destruct (scan_spec buf es ltac:(lia) Hnul Hend _ _ _ St Esc) as [(? & _)|(_ & _ & [(_ & H1 & H2)|(? & _)])]; [done| |done].
    split; simpl; [lia|]. split; [lia|]. done.
  - eapply (IH (Z.to_nat (es - e'))); [lia|done|lia|]. by rewrite Et'.
Qed.

(** No word ends inside another. *)
Lemma word_sep w w' : word_ok w -> word_ok w' -> ~ (w.1 <= w'.2 < w.2).
Proof.
  intros (H1 & H2 & H3 & _) (_ & _ & _ & H4) Hin. destruct (H3 _ Hin). destruct H4 as [?|[?|?]]; [lia|congruence|congruence].
Qed.

Lemma string_word ws w : Forall word_ok ws -> w ∈ ws -> string_at (cut buf ws.*2) w.1 = text buf w.
Proof.
  intros Hws Hw. rewrite Forall_forall in Hws. assert (Hok := Hws w Hw). destruct Hok as (H1 & H2 & H3 & H4).
  destruct strlen_spec as [Hnul Hend]. assert (B := strlen_bounds).
  assert (Hin : forall i, w.1 <= i < w.2 -> rd 0 (cut buf ws.*2) i = rd 0 buf i).
  { intros i Hi. apply rd_cut_ne. intros (w' & -> & Hw')%list_elem_of_fmap. eapply (word_sep w w'); eauto. }
  unfold string_at. rewrite (cstr_take _ (Z.to_nat (w.2 - w.1))).
  - unfold text, slice. apply (rd_ext 0).
    + assert (L := zlen_cut buf ws.*2). unfold zlen in *. rewrite !length_take, !length_drop. lia.
    + intros i Hi. assert (L := zlen_cut buf ws.*2).
      change (take _ (drop _ (cut buf ws.*2))) with (slice (cut buf ws.*2) w.1 (w.2 - w.1)) in *.
      change (take _ (drop _ buf)) with (slice buf w.1 (w.2 - w.1)). rewrite zlen_slice in Hi by lia.
      rewrite !rd_slice by lia. apply Hin. lia.
  - assert (L := zlen_cut buf ws.*2). unfold zlen in *. rewrite length_drop. lia.
  - intros i Hi. rewrite rd_drop by lia. rewrite Hin by lia. apply Hnul. lia.
  - rewrite rd_drop by lia. replace (w.1 + _) with w.2 by lia. apply rd_cut_eq. apply list_elem_of_fmap. eauto.
Qed.

(** The nodes of a command, with the line cut at its words, have its meaning. *)
Lemma repr_loaded ws h p t : Forall word_ok ws -> words t ⊆ ws -> repr h p t -> loaded h (cut buf ws.*2) p (meaning buf t).
Proof.
  intros Hws. revert p. induction t as [args|t IH r|t1 IH1 t2 IH2|t1 IH1 t2 IH2|t IH]; intros p Hsub R; simpl in *.
  - destruct R as [Ha R]. exists args.*1, args.*2. split; [done|]. rewrite length_fmap. split; [done|].
    rewrite Forall_forall in Hws. split.
    + rewrite <- list_fmap_compose. apply list_fmap_ext. intros i w Hw. symmetry. apply string_word; [by apply Forall_forall|].
      apply Hsub. by eapply list_elem_of_lookup_2.
    + apply Forall_fmap, Forall_forall. intros w Hw. apply (Hws w). by apply Hsub.
  - destruct R as (c & Hp & Hc & R). exists c, r.1.1.1, r.1.1.2. split; [done|].
    split; [|split; [|apply IH; [set_solver|done]]].
    + symmetry. apply string_word; [done|set_solver].
    + rewrite Forall_forall in Hws. apply (Hws r.1.1). set_solver.
  - destruct R as (c1 & c2 & Hp & _ & _ & R1 & R2). exists c1, c2. split_and!; [done|apply IH1|apply IH2]; set_solver.
  - destruct R as (c1 & c2 & Hp & _ & _ & R1 & R2). exists c1, c2. split_and!; [done|apply IH1|apply IH2]; set_solver.
  - destruct R as (c & Hp & Hc & R). exists c. split; [done|]. apply IH; [set_solver|done].
Qed.
End strings.

(** ** The parser as a whole *)

Lemma parse_start buf s : left_ts buf (strlen buf) (toks buf (strlen buf) 0) (set_ps 0 s).
Proof. assert (B := strlen_bounds buf). split; simpl; [lia|done]. Qed.

Lemma parse_fuel buf : (length (toks buf (strlen buf) 0) <= Z.to_nat (strlen buf))%nat.
Proof.
  assert (B := strlen_bounds buf). destruct (strlen_spec buf) as [Hnul Hend].
  assert (H := length_toks buf (strlen buf) ltac:(lia) Hnul Hend 0 ltac:(lia)). by rewrite Z.sub_0_r in H.
Qed.

(** The end of [parsecmd], once the whole line has been read. *)
Lemma parse_finish buf t p s :
  gline (toks buf (strlen buf) 0) t -> repr (heap s) p t -> (p < length (heap s))%nat ->
  loaded (heap s) (nulterminate (heap s) (S (length (heap s))) p buf) p (meaning buf t).
Proof.
  intros Hg R Hp. rewrite (nulterminate_cut _ _ _ t) by (done || lia). apply repr_loaded; [|done|done].
  destruct grammar_words as [G _]. eapply Forall_impl; [apply (G _ _ Hg)|]. simpl. intros [q e] Hw.
  eapply (toks_words buf 0); [|done]. assert (B := strlen_bounds buf). lia.
Qed.

Lemma ep_parse_end P buf ts cmd s (Q : nat * list Z -> shell -> Prop) :
  left_ts buf (strlen buf) ts s -> (ts ≠ [] -> P) ->
  (forall s', ts = [] -> heap s' = heap s ->
     Q (cmd, nulterminate (heap s') (S (length (heap s'))) cmd buf) s') ->
  ep P (peek buf (strlen buf) [];; s ← get;
        if negb (ps s =? strlen buf) then panic "syntax" else
        mret (cmd, nulterminate (heap s) (S (length (heap s))) cmd buf)) Q s.
Proof.
  intros Hl HP HQ. assert (B := strlen_bounds buf). destruct (strlen_spec buf) as [Hnul Hend].
  estep. apply (ep_peek buf (strlen buf) ltac:(lia) Hnul Hend _ _ [] ts); [set_solver|done|]. intros s1 Hl1 Eh1 Hiff.
  estep. unfold ep, get. destruct (Z.eqb_spec (ps s1) (strlen buf)) as [E|E]; simpl.
  - apply HQ; [by apply Hiff|done].
  - apply HP. intros ->. by destruct E; apply Hiff.
Qed.

(** The command in the heap, with its words in the line. *)
Definition parsed_as (c : command) (r : nat * list Z) (s : shell) : Prop := loaded (heap s) r.2 r.1 c /\ (cdepth c <= length (heap s))%nat.

Lemma parse_sound buf s : ep True (parsecmd buf) (fun r s' => exists c, derives buf c /\ parsed_as c r s') s.
Proof.
  assert (B := strlen_bounds buf). destruct (strlen_spec buf) as [Hnul Hend]. assert (F := parse_fuel buf).
  unfold parsecmd. estep. unfold ep at 1, modify. estep.
  eapply ep_mono; [eapply (parser_sound buf (strlen buf) ltac:(lia) Hnul Hend _ (Z.to_nat (strlen buf)));
    [lia|apply parse_start|done]|].
  intros p s1 (used & ts' & t & E & Hl & G & Hg & R & Hp). eapply ep_parse_end; [done|done|].
  intros s2 -> Eh. rewrite app_nil_r in E. subst used. exists (meaning buf t). split; [by exists t|].
  split; simpl; rewrite Eh; [by apply parse_finish|]. apply (repr_depth _ buf) in R. lia.
Qed.

(** C25: on every line the parser comes to an end.  It reports a syntax error or
    returns a command that the grammar derives from the line, whose arguments
    and file names are the words of the line, each a string of its own. *)
Theorem parsecmd_sound buf s :
  ep True (parsecmd buf) (fun r s' => exists c, derives buf c /\ loaded (heap s') r.2 r.1 c) s.
Proof. eapply ep_mono; [apply parse_sound|]. intros r s' (c & D & L & _). by exists c. Qed.

Lemma arg_array_inj qs qs' : (length qs < 10)%nat -> (length qs' < 10)%nat -> arg_array qs = arg_array qs' -> qs = qs'.
Proof.
  unfold arg_array. intros H H'. set (n := (10 - length qs)%nat). set (n' := (10 - length qs')%nat).
  assert (Hn : n ≠ 0%nat) by lia. assert (Hn' : n' ≠ 0%nat) by lia. clearbody n n'. clear H H'. revert qs'.
  induction qs as [|q qs IH]; intros [|q' qs'] E; simpl in *; [done|by destruct n|by destruct n'|].
  injection E as -> E. f_equal. by apply IH.
Qed.

(** The heap and the line determine the command. *)
Lemma loaded_fun h buf p c c' : loaded h buf p c -> loaded h buf p c' -> c = c'.
Proof.
  revert p c'. induction c as [argv|c IH f mode fd|c1 IH1 c2 IH2|c1 IH1 c2 IH2|c IH];
    intros p [argv'|c' f' mode' fd'|c1' c2'|c1' c2'|c'] H H'; simpl in H, H';
    repeat match goal with H : exists _, _ |- _ => destruct H | H : _ /\ _ |- _ => destruct H end;
    simplify_eq; try (f_equal; eauto).
  f_equal. by apply arg_array_inj.
Qed.

Lemma parse_complete buf s c : derives buf c -> wp (parsecmd buf) (parsed_as c) s.
Proof.
  intros (t & Hg & ->). assert (B := strlen_bounds buf). destruct (strlen_spec buf) as [Hnul Hend].
  assert (F := parse_fuel buf). apply ep_wp. unfold parsecmd. estep. unfold ep at 1, modify. estep.
  eapply ep_mono; [eapply (parser_complete buf (strlen buf) ltac:(lia) Hnul Hend _ (Z.to_nat (strlen buf)) );
    [lia|exact Hg|by left|rewrite app_nil_r; apply parse_start|done]|].
  intros p s1 (Hl & G & R & Hp). eapply ep_parse_end; [done|done|]. intros s2 _ Eh. split; simpl; rewrite Eh; [by apply parse_finish|].
  apply (repr_depth _ buf) in R. lia.
Qed.

(** C26: every line of the grammar is accepted, with its meaning, and the
    grammar gives a line one meaning only. *)
Theorem parsecmd_complete buf s c :
  derives buf c ->
  wp (parsecmd buf) (fun r s' => loaded (heap s') r.2 r.1 c) s /\ forall c', derives buf c' -> c' = c.
Proof.
  intros Hc. destruct (wp_inv _ _ _ (parse_complete buf s c Hc)) as (r & s' & E & L & _). split; [by apply (wp_intro _ _ _ _ _ E)|].
  intros c' Hc'. destruct (wp_inv _ _ _ (parse_complete buf s c' Hc')) as (r' & s2 & E' & L' & _). rewrite E in E'. injection E' as <- <-.
  by eapply loaded_fun.
Qed.

(** The line [ls -l >o | wc &] and a newline. *)
Definition demo_line : list Z :=
  [108; 115; 32; 45; 108; 32; 62; 111; 32; 124; 32; 119; 99; 32; 38; 10; 0].

Definition demo_command : command :=
  CBack (CPipe (CRedir (CExec [[108; 115]; [45; 108]]) [111] 513 1) (CExec [[119; 99]])).

Lemma demo_derives : derives demo_line demo_command.
Proof.
  exists (TBack (TPipe (TRedir (TExec [(0, 2); (3, 5)]) (7, 8, 513, 1)) (TExec [(11, 13)]))).
  split; [|by vm_compute]. 
  replace (toks _ _ _) with
    (([(97, 0, 2); (97, 3, 5); (62, 6, 7); (97, 7, 8)] ++ (124, 9, 10) :: [(97, 11, 13)]) ++ [(38, 14, 15)])
    by (vm_compute; reflexivity).
  apply (gl_line _ [_] (TPipe _ _)); [|by repeat constructor].
  apply gp_pipe; [|done|].
  - apply (ge_simple _ [_; _] [_]); [|simpl; lia]. repeat (apply gi_word || apply gi_nil || (apply gi_redir; [right; by left|])).
  - apply gp_exec, (ge_simple _ [_] []); [|simpl; lia]. repeat constructor.
Qed.

Lemma parsecmd_complete_witness :
  wp (parsecmd demo_line) (fun r s' => loaded (heap s') r.2 r.1 demo_command) (Shell 0 []).
Proof. exact (proj1 (parsecmd_complete demo_line (Shell 0 []) demo_command demo_derives)). Defined.
