(* ===== verification/Grep.v ===== *)
(** * grep (user/grep.c)

    The matcher of Kernighan and Pike, for patterns with [^ . * $], and the loop
    of [grep] over the lines of a file.  A string is the list of its characters
    before the NUL; the end of the list reads as NUL.  An independent definition
    of patterns as regular expressions says what the matcher computes. *)

From S2P Require Import Prelude Cstring.

Definition c_star : Z := 42.
Definition c_dot : Z := 46.
Definition c_caret : Z := 94.
Definition c_dollar : Z := 36.
Definition newline : Z := 10.

(** [matchstar(c, re, text)], with the rest of the pattern as the test [here] *)
Fixpoint matchstar (c : Z) (here : list Z -> bool) (text : list Z) : bool :=
  if here text then true
  else match text with
       | [] => false
       | t :: text' => if (t =? c) || (c =? c_dot) then matchstar c here text' else false
       end.

Fixpoint matchhere (re : list Z) (text : list Z) : bool :=
  match re with
  | [] => true
  | c :: re1 =>
      if rd 0 re1 0 =? c_star then
        match re1 with
        | _ :: re2 => matchstar c (matchhere re2) text
        | [] => false
        end
      else if (c =? c_dollar) && (rd 0 re1 0 =? 0) then
        match text with [] => true | _ => false end
      else match text with
           | t :: text' => if (c =? c_dot) || (c =? t) then matchhere re1 text' else false
           | [] => false
           end
  end.

(** [do ... while( *text++ != 0)] of [match] *)
Fixpoint matchany (re : list Z) (text : list Z) : bool :=
  if matchhere re text then true
  else match text with [] => false | _ :: text' => matchany re text' end.

Definition match_ (re text : list Z) : bool :=
  if rd 0 re 0 =? c_caret then matchhere (drop 1 re) text else matchany re text.

(** ** grep

    [p] is the part of the buffer from the pointer [p] on.  The loop over its
    lines returns what is written and the rest without a newline. *)
Fixpoint grep_lines (n : nat) (re p : list Z) : list Z * list Z :=
  match n with
  | O => ([], p)
  | S n' =>
      match strchr p newline with
      | None => ([], p)
      | Some q =>
          let line := take (length p - length q) p in
          let '(out, rest) := grep_lines n' re (drop 1 q) in
          ((if match_ re line then line ++ [newline] else []) ++ out, rest)
      end
  end.

(** One round of the outer loop: [buf] holds the [m] bytes kept, [chunk] is
    what [read] added. *)
Definition grep_round (re buf chunk : list Z) : list Z * list Z :=
  let data := buf ++ chunk in
  let '(out, p) := grep_lines (length data) re data in
  (out, if decide (length p = length data) then [] else p).

Definition BUFSIZE : nat := 1024.

(** [grep] on a descriptor whose reads return the chunks [input]; a read
    returns at most the space that is left in the buffer. *)
Fixpoint grep_reads (re buf : list Z) (input : list (list Z)) : list Z :=
  match input with
  | [] => []
  | chunk :: input' => let '(out, buf') := grep_round re buf chunk in out ++ grep_reads re buf' input'
  end.

(** [grep] on a regular file, whose reads return as much as fits. *)
Fixpoint grep_file (n : nat) (re buf file : list Z) : list Z :=
  match n with
  | O => []
  | S n' =>
      let chunk := take (BUFSIZE - length buf - 1) file in
      match chunk with
      | [] => []
      | _ =>
          let '(out, buf') := grep_round re buf chunk in
          out ++ grep_file n' re buf' (drop (length chunk) file)
      end
  end.

Definition grep (re file : list Z) : list Z := grep_file (length file + 1) re [] file.

(** ** Regular expressions *)

Inductive atom := Lit (c : Z) | Any.
Inductive item := One (a : atom) | Star (a : atom).

Definition atom_ok (a : atom) (t : Z) : Prop := match a with Lit c => t = c | Any => True end.

(** The strings of a sequence of items. *)
Fixpoint lang (r : list item) (s : list Z) : Prop :=
  match r with
  | [] => s = []
  | One a :: r' => exists t s', s = t :: s' /\ atom_ok a t /\ lang r' s'
  | Star a :: r' => exists s1 s2, s = s1 ++ s2 /\ Forall (atom_ok a) s1 /\ lang r' s2
  end.

Definition atom_of (c : Z) : atom := if c =? c_dot then Any else Lit c.

(** The items of a pattern, and whether it ends with a dollar. *)
Fixpoint parse (re : list Z) : list item * bool :=
  match re with
  | [] => ([], false)
  | c :: re1 =>
      match re1 with
      | 42 :: re2 => let '(r, e) := parse re2 in (Star (atom_of c) :: r, e)
      | [] => if c =? c_dollar then ([], true) else ([One (atom_of c)], false)
      | _ => let '(r, e) := parse re1 in (One (atom_of c) :: r, e)
      end
  end.

(** The pattern matches at the start of the text. *)
Definition here_spec (re text : list Z) : Prop :=
  exists s rest, text = s ++ rest /\ lang (parse re).1 s /\ ((parse re).2 = true -> rest = []).

Definition match_spec (re text : list Z) : Prop :=
  match re with
  | 94 :: re' => here_spec re' text
  | _ => exists before text', text = before ++ text' /\ here_spec re text'
  end.

Lemma matchstar_spec c here text :
  matchstar c here text = true <->
  exists s1 s2, text = s1 ++ s2 /\ Forall (atom_ok (atom_of c)) s1 /\ here s2 = true.
Proof.
  induction text as [|t text IH]; simpl.
  - split.
    + destruct (here []) eqn:E; [|done]. intros _. by exists [], [].
    + intros ([|] & s2 & E & _ & H); simplify_eq/=. by rewrite H.
  - destruct (here (t :: text)) eqn:E.
    { split; [|done]. intros _. by exists [], (t :: text). }
    assert (A : atom_ok (atom_of c) t <-> (t =? c) || (c =? c_dot) = true).
    { unfold atom_of. rewrite orb_true_iff, !Z.eqb_eq. destruct (Z.eqb_spec c c_dot); simpl; tauto. }
    destruct ((t =? c) || (c =? c_dot)) eqn:Ec.
    + rewrite IH. split.
      * intros (s1 & s2 & -> & F & H). exists (t :: s1), s2. split; [done|]. split; [|done]. constructor; [by apply A|done].
      * intros ([|t' s1] & s2 & E' & F & H); simplify_eq/=; [congruence|]. inversion F; subst. eauto.
    + split; [done|]. intros ([|t' s1] & s2 & E' & F & H); simplify_eq/=; [congruence|].
      inversion F as [|? ? Ht]; subst. by apply A in Ht.
Qed.

Definition nonul (l : list Z) : Prop := Forall (fun c => c ≠ 0) l.

Lemma matchhere_spec re text : nonul re -> matchhere re text = true <-> here_spec re text.
Proof.
  revert text. remember (length re) as n eqn:En. revert re En.
  induction (lt_wf n) as [n _ IH]; intros [|c re1] -> text Hre; unfold here_spec.
  { simpl. split; [|done]. intros _. by exists [], text. }
  inversion Hre as [|? ? Hc Hre1]; subst. cbn [matchhere parse].
  destruct re1 as [|d re2]; [cbn|].
  - destruct (Z.eqb_spec c c_dollar) as [->|Hd]; simpl.
    + split.
      * destruct text; [|done]. intros _. by exists [], [].
      * intros (s & rest & -> & -> & ->); done.
    + unfold atom_of. split.
      * destruct text as [|t text]; [done|]. intros H. exists [t], text. split; [done|]. split; [|done].
        exists t, []. destruct (Z.eqb_spec c c_dot); [done|]. destruct (Z.eqb_spec c t); [|done]. by subst.
      * intros (s & rest & -> & (t & s' & -> & Ha & ->) & _). simpl.
        destruct (Z.eqb_spec c c_dot); [done|]. simpl in Ha. subst. by rewrite Z.eqb_refl.
  - inversion Hre1 as [|? ? Hd Hre2]; subst. change (rd 0 (d :: re2) 0) with d.
    destruct (Z.eqb_spec d c_star) as [->|Hs].
    + rewrite matchstar_spec. unfold c_star. destruct (parse re2) as [r e] eqn:Ep. cbn [fst snd lang]. split.
      * intros (s1 & s2 & -> & F & H). apply (IH (length re2) ltac:(simpl; lia) re2 eq_refl s2 Hre2) in H.
        destruct H as (s & rest & -> & Hl & He). rewrite Ep in Hl, He. exists (s1 ++ s), rest. rewrite app_assoc.
        split; [done|]. split; [|done]. by exists s1, s.
      * intros (s & rest & -> & (s1 & s2 & -> & F & Hl) & He). exists s1, (s2 ++ rest). rewrite app_assoc.
        split; [done|]. split; [done|]. apply (IH (length re2) ltac:(simpl; lia) re2 eq_refl _ Hre2).
        exists s2, rest. by rewrite Ep.
    + destruct (Z.eqb_spec d 0); [done|]. rewrite andb_false_r.
      set (pr := match d with 42 => _ | _ => _ end).
      assert (Epr : pr = (One (atom_of c) :: (parse (d :: re2)).1, (parse (d :: re2)).2)).
      { unfold pr. destruct (parse (d :: re2)) as [r e]. unfold c_star in Hs. clear -Hs.
        destruct d as [|p|]; [done| |done]. do 6 (destruct p as [p|p|]; try done). }
      rewrite Epr. cbn [fst snd lang]. clear pr Epr. split.
      * destruct text as [|t text]; [done|]. destruct ((c =? c_dot) || (c =? t)) eqn:Ec; [|done]. intros H.
        apply (IH (length (d :: re2)) ltac:(simpl; lia) _ eq_refl _ Hre1) in H as (s & rest & -> & Hl & He).
        exists (t :: s), rest. split; [done|]. split; [|done]. exists t, s. split; [done|]. split; [|done].
        unfold atom_of. destruct (Z.eqb_spec c c_dot); [done|]. simpl in *. by apply Z.eqb_eq in Ec.
      * intros (s & rest & -> & (t & s' & -> & Ha & Hl) & He). simpl app. cbv iota.
        replace ((c =? c_dot) || (c =? t)) with true.
        { apply (IH (length (d :: re2)) ltac:(simpl; lia) _ eq_refl _ Hre1). by exists s', rest. }
        unfold atom_of in Ha. destruct (Z.eqb_spec c c_dot); [done|]. simpl in Ha. subst. by rewrite Z.eqb_refl.
Qed.

Lemma matchany_spec re text :
  matchany re text = true <-> exists before text', text = before ++ text' /\ matchhere re text' = true.
Proof.
  induction text as [|t text IH]; cbn [matchany].
  - destruct (matchhere re []) eqn:E.
    + split; [|done]. intros _. by exists [], [].
    + split; [done|]. intros ([|] & ? & ? & ?); simplify_eq/=. congruence.
  - destruct (matchhere re (t :: text)) eqn:E.
    { split; [|done]. intros _. by exists [], (t :: text). }
    rewrite IH. split.
    + intros (b & t' & -> & H). by exists (t :: b), t'.
    + intros ([|x b] & t' & E' & H); simplify_eq/=; [congruence|]. eauto.
Qed.

(** C27: the matcher decides exactly whether the text has a part in the language
    of the pattern: at its start after a caret, and up to its end before a final
    dollar. *)
Theorem match_equiv re text : nonul re -> match_ re text = true <-> match_spec re text.
Proof.
  intros Hre. unfold match_, match_spec. destruct re as [|c re'].
  - simpl. rewrite matchany_spec. by setoid_rewrite (matchhere_spec [] _ Hre).
  - change (rd 0 (c :: re') 0) with c. change (drop 1 (c :: re')) with re'.
    destruct (Z.eqb_spec c c_caret) as [->|Hc].
    + inversion Hre; subst. by apply matchhere_spec.
    + rewrite matchany_spec. setoid_rewrite (matchhere_spec (c :: re') _ Hre). unfold c_caret in Hc. clear -Hc.
      destruct c as [|p|]; [done| |done]. do 7 (destruct p as [p|p|]; try done).
Qed.

(** ** The lines of a file *)

Definition line_ok (l : list Z) : Prop := nonul l /\ newline ∉ l /\ (length l < BUFSIZE - 1)%nat.

Definition unlines (ls : list (list Z)) : list Z := mjoin ((fun l => l ++ [newline]) <$> ls).

(** The lines that match, as they are printed. *)
Definition matching (re : list Z) (ls : list (list Z)) : list Z :=
  unlines (filter (fun l => match_ re l = true) ls).

Lemma unlines_cons l ls : unlines (l :: ls) = l ++ newline :: unlines ls.
Proof. unfold unlines. simpl. by rewrite <- app_assoc. Qed.

Lemma matching_cons re l ls :
  matching re (l :: ls) = (if match_ re l then l ++ [newline] else []) ++ matching re ls.
Proof.
  unfold matching. rewrite filter_cons. destruct (match_ re l) eqn:E.
  - rewrite decide_True by done. rewrite unlines_cons, <- app_assoc. done.
  - by rewrite decide_False.
Qed.

Lemma matching_app re ls ls' : matching re (ls ++ ls') = matching re ls ++ matching re ls'.
Proof. unfold matching, unlines. by rewrite filter_app, fmap_app, join_app. Qed.

Lemma strchr_line l x : nonul l -> newline ∉ l -> strchr (l ++ newline :: x) newline = Some (newline :: x).
Proof.
  intros Hl. induction Hl as [|c l Hc _ IH]; intros Hn; simpl; [done|]. apply not_elem_of_cons in Hn as [Hn Hn'].
  destruct (Z.eqb_spec c 0); [done|]. destruct (Z.eqb_spec c newline); [done|]. by apply IH.
Qed.

Lemma strchr_none p : newline ∉ p -> strchr p newline = None.
Proof.
  induction p as [|c p IH]; intros Hn; simpl; [done|]. apply not_elem_of_cons in Hn as [Hn Hn'].
  destruct (c =? 0); [done|]. destruct (Z.eqb_spec c newline); [done|]. by apply IH.
Qed.

Lemma grep_lines_spec re ls p n :
  Forall line_ok ls -> newline ∉ p -> (length ls <= n)%nat ->
  grep_lines n re (unlines ls ++ p) = (matching re ls, p).
Proof.
  intros Hls Hp. revert n. induction Hls as [|l ls (Hl & Hn & _) _ IH]; intros n Hlen.
  { simpl. destruct n; simpl; [done|]. by rewrite strchr_none. }
  destruct n as [|n]; [simpl in Hlen; lia|]. rewrite unlines_cons, <- app_assoc. simpl app. cbn [grep_lines].
  rewrite strchr_line by done.
  replace (take _ _) with l; [|rewrite length_app, Nat.add_sub, take_app_length; done].
  simpl drop. rewrite drop_0, IH by (simpl in Hlen; lia). by rewrite matching_cons.
Qed.

Lemma length_unlines ls : (length ls <= length (unlines ls))%nat.
Proof. induction ls as [|l ls IH]; [simpl; lia|]. rewrite unlines_cons, length_app. simpl. lia. Qed.

(** A prefix of the text is some whole lines and the start of one more. *)
Lemma unlines_take ls k : Forall line_ok ls -> exists ls1 ls2 p,
  ls = ls1 ++ ls2 /\ take k (unlines ls) = unlines ls1 ++ p /\ newline ∉ p /\ p ++ drop k (unlines ls) = unlines ls2 /\
  (ls ≠ [] -> (BUFSIZE - 1 <= k)%nat -> ls1 ≠ []).
Proof.
  intros Hls. revert k. induction Hls as [|l ls (Hl & Hn & Hlen) _ IH]; intros k.
  { exists [], [], []. change (unlines []) with (@nil Z). rewrite take_nil, drop_nil. split_and!; [done..|set_solver|done|done]. }
  destruct (decide (k <= length l)%nat) as [Hk|Hk].
  - exists [], (l :: ls), (take k l). rewrite unlines_cons, take_app_le, drop_app_le by lia. split_and!; try done.
    + intros H. apply Hn. eapply list_elem_of_lookup in H as [i H]. apply lookup_take_Some in H as [H _].
      by eapply list_elem_of_lookup_2.
    + by rewrite app_assoc, take_drop.
    + lia.
  - destruct (IH (k - length l - 1)%nat) as (ls1 & ls2 & p & -> & Et & Hp & Ed & _).
    exists (l :: ls1), ls2, p. rewrite unlines_cons, take_app_ge, drop_app_ge by lia.
    replace (k - length l)%nat with (S (k - length l - 1)) by lia. simpl. rewrite Et, Ed, unlines_cons, <- app_assoc. done.
Qed.

Lemma grep_file_spec re ls buf file n :
  Forall line_ok ls -> newline ∉ buf -> buf ++ file = unlines ls -> (length buf < BUFSIZE - 1)%nat ->
  (length file < n)%nat -> grep_file n re buf file = matching re ls.
Proof.
  revert ls buf file. induction n as [|n IH]; intros ls buf file Hls Hb E Hbuf Hn; [lia|]. cbn [grep_file].
  destruct file as [|c file'].
  { rewrite take_nil. rewrite app_nil_r in E. destruct ls as [|l ls]; [done|]. exfalso. apply Hb. rewrite E, unlines_cons.
    set_solver. }
  remember (c :: file') as file. destruct (take (BUFSIZE - length buf - 1) file) as [|x chunk] eqn:Ec.
  { exfalso. subst file. replace (BUFSIZE - length buf - 1)%nat with (S (BUFSIZE - length buf - 2)) in Ec by (unfold BUFSIZE in *; lia). done. }
  rewrite <- Ec. clear Ec x chunk. set (k := (BUFSIZE - length buf - 1)%nat).
  assert (Ed : buf ++ take k file = take (BUFSIZE - 1) (unlines ls)).
  { rewrite <- E, take_app_ge by lia. do 2 f_equal. unfold k. lia. }
  destruct (unlines_take ls (BUFSIZE - 1) Hls) as (ls1 & ls2 & p & -> & Et & Hp & Edr & Hne).
  apply Forall_app in Hls as [Hls1 Hls2]. unfold grep_round. rewrite Ed, Et.
  rewrite grep_lines_spec; [|done|done|rewrite length_app; assert (H := length_unlines ls1); lia].
  assert (Hl1 : ls1 ≠ []). { apply Hne; [|done]. intros E0. rewrite E0 in E. subst file. by destruct buf. }
  rewrite decide_False.
  2: { destruct ls1; [done|]. rewrite unlines_cons, !length_app. simpl. lia. }
  rewrite matching_app. f_equal.
  assert (Edf : drop (length (take k file)) file = drop (BUFSIZE - 1) (unlines (ls1 ++ ls2))).
  { rewrite <- E, drop_app_ge by lia. replace (BUFSIZE - 1 - length buf)%nat with k by (unfold k; lia).
    destruct (decide (k <= length file)%nat); [by rewrite length_take_le|]. rewrite (take_ge file), !drop_ge by lia. done. }
  apply IH; [done|done|by rewrite Edf| |].
  - assert (H : (length (take (BUFSIZE - 1) (unlines (ls1 ++ ls2))) <= BUFSIZE - 1)%nat) by (rewrite length_take; lia).
    rewrite Et, length_app in H. destruct ls1; [done|]. rewrite unlines_cons, length_app in H. cbn [length] in H. lia.
  - rewrite length_drop, length_take. subst file. simpl in *. unfold k, BUFSIZE in *. lia.
Qed.

(** Grep prints exactly the lines of a file that match, in their order,
    wherever the boundaries of the buffer fall, if the lines fit in it. *)
Theorem grep_correct re ls : Forall line_ok ls -> grep re (unlines ls) = matching re ls.
Proof. intros H. unfold grep. apply grep_file_spec; [done|by apply not_elem_of_nil|done|unfold BUFSIZE; simpl; lia|lia]. Qed.

(** A read that returns part of a line, as a read from a pipe may, loses it:
    the line [abc] arrives in two parts and is not found. *)
Theorem grep_partial_read : exists re chunks,
  grep_reads re [] chunks = [] /\ grep re (mjoin chunks) = mjoin chunks /\ mjoin chunks ≠ [].
Proof. exists [97; 98; 99], [[97; 98]; [99; 10]]. by vm_compute. Qed.

(** [^a.*c$] and the text [abbc] *)
Lemma match_equiv_witness : match_ [94; 97; 46; 42; 99; 36] [97; 98; 98; 99] = true /\
  match_spec [94; 97; 46; 42; 99; 36] [97; 98; 98; 99].
Proof.
  split; [by vm_compute|]. apply (match_equiv [94; 97; 46; 42; 99; 36] [97; 98; 98; 99]); [by repeat constructor|by vm_compute].
Defined.

Lemma grep_correct_witness :
  grep [97] (unlines [[98; 97]; [99]; [97]]) = [98; 97; 10; 97; 10].
Proof.
  rewrite (grep_correct [97] [[98; 97]; [99]; [97]]); [by vm_compute|].
  repeat constructor; try done; try (unfold newline; set_solver); unfold BUFSIZE; simpl; lia.
Defined.
