(* ===== verification/Umalloc.v ===== *)
(** * The memory allocator of user programs (user/umalloc.c)

    A free list in a circle, in the order of the addresses, through headers
    that stand before each block.  Memory is the headers, by address; sizes are
    in units of a header.  [sbrk] is the system call: from the break and the
    increment to the new break, or [None] when it returns -1. *)

From stdpp Require Import sorting.
From S2P Require Import Prelude.

Definition sizeof_Header : Z := 8.

Record uheap := UHeap {
  hdrs : gmap Z (Z * Z);   (* ptr and size of the header at an address *)
  freep : Z;
  brk : Z
}.
Definition set_hdrs v s := UHeap v (freep s) (brk s).
Definition set_freep v s := UHeap (hdrs s) v (brk s).
Definition set_brk v s := UHeap (hdrs s) (freep s) v.

Definition hdr (s : uheap) (a : Z) : Z * Z := default (0, 0) (hdrs s !! a).
Definition hptr (s : uheap) (a : Z) : Z := (hdr s a).1.
Definition hsize (s : uheap) (a : Z) : Z := (hdr s a).2.
Definition set_hptr (a v : Z) : M uheap unit := modify (fun s => set_hdrs (<[a := (v, hsize s a)]> (hdrs s)) s).
Definition set_hsize (a v : Z) : M uheap unit := modify (fun s => set_hdrs (<[a := (hptr s a, v)]> (hdrs s)) s).

(** [a + n] for a pointer to headers. *)
Definition hplus (a n : Z) : Z := u32 (a + sizeof_Header * n).

Section umalloc.
(** [&base], and the system call. *)
Context (base : Z) (sbrk : Z -> Z -> option Z).

(** The search of [free] for the place of [bp]. *)
Fixpoint free_scan (fuel : nat) (bp p : Z) : M uheap Z :=
  s ← get;
  if (p <? bp) && (bp <? hptr s p) then mret p
  else if (hptr s p <=? p) && ((p <? bp) || (bp <? hptr s p)) then mret p
  else match fuel with O => out_of_fuel | S fuel' => free_scan fuel' bp (hptr s p) end.

(** [free] joins [bp] to the block after it, and to the block [p] before it. *)
Definition join_next (bp p : Z) : M uheap unit :=
  s ← get;
  if hplus bp (hsize s bp) =? hptr s p then
    set_hsize bp (u32 (hsize s bp + hsize s (hptr s p)));;
    s ← get; set_hptr bp (hptr s (hptr s p))
  else set_hptr bp (hptr s p).
Definition join_prev (bp p : Z) : M uheap unit :=
  s ← get;
  if hplus p (hsize s p) =? bp then
    set_hsize p (u32 (hsize s p + hsize s bp));;
    s ← get; set_hptr p (hptr s bp)
  else set_hptr p bp.

Definition free (ap : Z) : M uheap unit :=
  let bp := hplus ap (-1) in
  s ← get;
  p ← free_scan (size (hdrs s)) bp (freep s);
  join_next bp p;;
  join_prev bp p;;
  modify (set_freep p).

Definition morecore (nu : Z) : M uheap Z :=
  let nu := if nu <? 4096 then 4096 else nu in
  s ← get;
  match sbrk (brk s) (s32 (nu * sizeof_Header)) with
  | None => mret 0
  | Some b =>
      modify (set_brk b);;
      if brk s =? 2 ^ 32 - 1 then mret 0
      else
        set_hsize (brk s) nu;;
        free (hplus (brk s) 1);;
        gets freep
  end.

(** [malloc] takes [nunits] units from the block [p], at its end. *)
Definition take_block (nunits prevp p : Z) : M uheap Z :=
  s ← get;
  r ← (if hsize s p =? nunits then set_hptr prevp (hptr s p);; mret p
       else
         set_hsize p (u32 (hsize s p - nunits));;
         s ← get;
         let p := hplus p (hsize s p) in
         set_hsize p nunits;; mret p);
  modify (set_freep prevp);;
  mret (hplus r 1).

(** The loop of [malloc]. *)
Fixpoint malloc_loop (fuel : nat) (nunits prevp p : Z) : M uheap Z :=
  s ← get;
  if nunits <=? hsize s p then take_block nunits prevp p
  else
    let next p := match fuel with O => out_of_fuel | S fuel' => s ← get; malloc_loop fuel' nunits p (hptr s p) end in
    if p =? freep s then
      p ← morecore nunits;
      if p =? 0 then mret 0 else next p
    else next p.

Definition nunits_of (nbytes : Z) : Z := u32 (u32 (nbytes + sizeof_Header - 1) / sizeof_Header + 1).

Definition malloc (nbytes : Z) : M uheap Z :=
  let nunits := nunits_of nbytes in
  s ← get;
  (if freep s =? 0 then
     set_hptr base base;; modify (set_freep base);; set_hsize base 0
   else mret tt);;
  s ← get;
  malloc_loop (2 * size (hdrs s) + 2) nunits (freep s) (hptr s (freep s)).

(** ** The free list *)

(** The address of the first block, or [q]. *)
Definition head_or (q : Z) (C : list (Z * Z)) : Z := match C with [] => q | (a, _) :: _ => a end.

(** The headers of the blocks [C], each with the address of the next; the last
    one with [q]. *)
Fixpoint chain (h : gmap Z (Z * Z)) (C : list (Z * Z)) (q : Z) : Prop :=
  match C with
  | [] => True
  | (a, n) :: C' => h !! a = Some (head_or q C', n) /\ chain h C' q
  end.

(** The blocks are in order, not adjacent, and between [lo] and [hi]. *)
Fixpoint spread (lo : Z) (F : list (Z * Z)) (hi : Z) : Prop :=
  match F with
  | [] => True
  | (a, n) :: F' => lo < a /\ 1 <= n /\ a + sizeof_Header * n <= hi /\ spread (a + sizeof_Header * n) F' hi
  end.

(** Two blocks without a common byte. *)
Definition apart (a n b m : Z) : Prop := a + sizeof_Header * n <= b \/ b + sizeof_Header * m <= a.

Definition inside (x a n : Z) : Prop := a <= x < a + sizeof_Header * n.

Lemma head_or_app q C1 C2 : head_or q (C1 ++ C2) = head_or (head_or q C2) C1.
Proof. by destruct C1. Qed.

Lemma fchain_app h C1 C2 q : chain h (C1 ++ C2) q <-> chain h C1 (head_or q C2) /\ chain h C2 q.
Proof.
  induction C1 as [|[a n] C1 IH]; simpl; [tauto|]. rewrite IH, head_or_app. tauto.
Qed.

Lemma chain_insert h C q a x : a ∉ C.*1 -> chain h C q -> chain (<[a := x]> h) C q.
Proof.
  induction C as [|[b n] C IH]; simpl; [done|]. intros [Hn Hc]%not_elem_of_cons [E H]. split; [by rewrite lookup_insert_ne|by apply IH].
Qed.

Lemma chain_lookup h C q i a n : chain h C q -> C !! i = Some (a, n) -> h !! a = Some (head_or q (drop (S i) C), n).
Proof.
  revert i. induction C as [|[b m] C IH]; intros i; [done|]. intros [E H]. destruct i as [|i]; simpl.
  - intros [= -> ->]. by rewrite drop_0.
  - by apply IH.
Qed.

Lemma spread_bounds lo F hi a n : spread lo F hi -> (a, n) ∈ F -> lo < a /\ 1 <= n /\ a + sizeof_Header * n <= hi.
Proof.
  revert lo. induction F as [|[b m] F IH]; intros lo; [by intros _ ?%elem_of_nil|]. intros (H1 & H2 & H3 & H4) [[= -> ->]|H]%elem_of_cons; [done|].
  destruct (IH _ H4 H) as (A & B). unfold sizeof_Header in *. lia.
Qed.

Lemma spread_app lo F1 F2 hi : spread lo (F1 ++ F2) hi <->
  spread lo F1 hi /\ spread (match last F1 with Some (a, n) => a + sizeof_Header * n | None => lo end) F2 hi.
Proof.
  revert lo. induction F1 as [|[a n] F1 IH]; intros lo; cbn [app spread]; [simpl; tauto|]. rewrite IH, last_cons.
  destruct (last F1) as [[c m]|]; tauto.
Qed.

Lemma spread_nodup lo F hi : spread lo F hi -> NoDup F.*1.
Proof.
  revert lo. induction F as [|[a n] F IH]; intros lo; simpl; [constructor|]. intros (H1 & H2 & H3 & H4). constructor; [|by eapply IH].
  intros ([b m] & -> & Hb)%list_elem_of_fmap. destruct (spread_bounds _ _ _ _ _ H4 Hb). simpl in *. unfold sizeof_Header in *. lia.
Qed.

Lemma spread_sorted lo F hi : spread lo F hi -> forall b, b <= lo -> StronglySorted Z.lt (b :: F.*1).
Proof.
  revert lo. induction F as [|[a n] F IH]; intros lo; cbn [fmap list_fmap]; [by intros _ b _; repeat constructor|].
  intros (H1 & H2 & H3 & H4) b Hb. assert (S1 := IH _ H4 a ltac:(unfold sizeof_Header; lia)). constructor; [exact S1|].
  apply StronglySorted_inv in S1 as [_ S1]. constructor; [simpl; lia|]. eapply Forall_impl; [exact S1|]. simpl. intros x Hx. lia.
Qed.

(** Where a block that is apart from the free ones belongs. *)
Lemma spread_split lo F hi bp n : spread lo F hi -> 1 <= n -> (forall b m, (b, m) ∈ F -> apart bp n b m) ->
  exists F1 F2, F = F1 ++ F2 /\ (forall b m, (b, m) ∈ F1 -> b + sizeof_Header * m <= bp) /\
    (forall b m, (b, m) ∈ F2 -> bp + sizeof_Header * n <= b).
Proof.
  revert lo. induction F as [|[a m] F IH]; intros lo; [exists [], []; split_and!; [done|by intros ? ? ?%elem_of_nil..]|].
  intros (H1 & H2 & H3 & H4) Hn Ha. destruct (Ha a m ltac:(left)) as [X|X].
  - exists [], ((a, m) :: F). split; [done|]. split; [by intros ? ? ?%elem_of_nil|]. intros b k [[= -> ->]|Hb]%elem_of_cons; [done|].
    destruct (spread_bounds _ _ _ _ _ H4 Hb). unfold sizeof_Header in *. lia.
  - destruct (IH _ H4 Hn) as (F1 & F2 & -> & A1 & A2); [intros b k Hb; apply Ha; by right|].
    exists ((a, m) :: F1), F2. split; [done|]. split; [|done]. intros b k [[= -> ->]|Hb]%elem_of_cons; [done|by apply A1].
Qed.

(** ** The search of [free] *)

Definition stops (s : uheap) (bp a : Z) : bool :=
  (a <? bp) && (bp <? hptr s a) || (hptr s a <=? a) && ((a <? bp) || (bp <? hptr s a)).

Lemma free_scan_step fuel bp p s : free_scan fuel bp p s =
  if stops s bp p then Ret p s else match fuel with O => OutOfFuel | S fuel' => free_scan fuel' bp (hptr s p) s end.
Proof. unfold stops. destruct fuel; simpl; munfold; destruct (_ && _); [done| |done|]; destruct (_ && _); done. Qed.

Lemma hptr_of s a p n : hdrs s !! a = Some (p, n) -> hptr s a = p /\ hsize s a = n.
Proof. intros E. unfold hptr, hsize, hdr. by rewrite E. Qed.

Lemma free_scan_run s bp t nt D1 D2 q : forall fuel, chain (hdrs s) (D1 ++ (t, nt) :: D2) q ->
  (forall a n, (a, n) ∈ D1 -> stops s bp a = false) -> stops s bp t = true -> (length D1 <= fuel)%nat ->
  free_scan fuel bp (head_or t D1) s = Ret t s.
Proof.
  induction D1 as [|[a n] D1 IH]; intros fuel Hc Hs Ht Hf; rewrite free_scan_step; simpl; [by rewrite Ht|].
  destruct Hc as [E Hc]. rewrite (Hs a n) by left. simpl in Hf. destruct fuel as [|fuel]; [lia|].
  destruct (hptr_of _ _ _ _ E) as [-> _]. rewrite head_or_app. apply IH; [done|intros b m Hb; apply (Hs b m); by right|done|lia].
Qed.

(** The circle from another block of it. *)
Lemma chain_rotate h X p n Y : chain h (X ++ (p, n) :: Y) base -> head_or base (X ++ [(p, n)]) = base ->
  chain h ((p, n) :: Y ++ X) p.
Proof.
  rewrite fchain_app. intros [H1 [H2 H3]] E. destruct X as [|[x nx] X]; simpl in E.
  - rewrite app_nil_r. simpl. by subst.
  - simpl in E. subst x. split; [by rewrite head_or_app|]. apply fchain_app. by split.
Qed.

(** ** The invariant *)

(** The heap starts at [start], above [base]; [F] are the free blocks and [A] the
    blocks that the program holds, by the address of their headers. *)
Context (start : Z) (base_pos : 0 < base) (base_low : base + sizeof_Header <= start).

Definition covered (F : list (Z * Z)) (x : Z) : Prop := exists a n, (a, n) ∈ F /\ inside x a n.

Record heap_ok (s : uheap) (F : list (Z * Z)) (A : gmap Z Z) : Prop := {
  hk_chain : chain (hdrs s) ((base, 0) :: F) base;
  hk_spread : spread (start - 1) F (brk s);
  hk_used a n : A !! a = Some n -> (exists p, hdrs s !! a = Some (p, n)) /\ start <= a /\ 1 <= n /\ a + sizeof_Header * n <= brk s;
  hk_uu a n b m : A !! a = Some n -> A !! b = Some m -> a ≠ b -> apart a n b m;
  hk_uf a n b m : A !! a = Some n -> (b, m) ∈ F -> apart a n b m;
  hk_cover x : start <= x < brk s -> covered F x \/ exists a n, A !! a = Some n /\ inside x a n;
  hk_freep : freep s ∈ base :: F.*1;
  hk_top : start <= brk s < 2 ^ 32
}.

Lemma apart_iff a n b m : 1 <= n -> 1 <= m -> apart a n b m <-> forall x, inside x a n -> ~ inside x b m.
Proof.
  unfold apart, inside, sizeof_Header. intros Hn Hm. split; [intros; lia|]. intros H.
  destruct (decide (a + 8 * n <= b)); [by left|]. destruct (decide (b + 8 * m <= a)); [by right|].
  exfalso. apply (H (Z.max a b)); lia.
Qed.

Lemma chain_dom h C q : chain h C q -> NoDup C.*1 -> (length C <= size h)%nat.
Proof.
  intros Hc Hd. rewrite <- (length_fmap fst), <- size_dom. rewrite <- (size_list_to_set (C := gset Z)) by done. apply subseteq_size.
  intros a ([b n] & -> & Hb)%elem_of_list_to_set%list_elem_of_fmap. apply list_elem_of_lookup_1 in Hb as [i Hi].
  apply elem_of_dom. exists (head_or q (drop (S i) C), n). by eapply chain_lookup.
Qed.

(** The next header of a block in the list. *)
Lemma next_of s X a n Y : chain (hdrs s) (X ++ (a, n) :: Y) base -> hptr s a = head_or base Y /\ hsize s a = n.
Proof. rewrite fchain_app. intros [_ [E _]]. by apply hptr_of. Qed.

Lemma sorted_after X (a n : Z) Y b m : StronglySorted Z.lt (X ++ (a, n) :: Y).*1 -> (b, m) ∈ Y -> a < b.
Proof.
  rewrite fmap_app. intros (_ & _ & S1)%StronglySorted_app Hb. cbn in S1. apply StronglySorted_inv in S1 as [_ S1].
  rewrite Forall_forall in S1. apply S1. by apply (list_elem_of_fmap_2 fst _ (b, m)).
Qed.

(** The header after which the free block [bp] goes. *)
Lemma stops_iff s C1 t nt F2 bp : chain (hdrs s) (C1 ++ (t, nt) :: F2) base -> StronglySorted Z.lt (C1 ++ (t, nt) :: F2).*1 ->
  base <= t < bp -> base < bp -> (forall b m, (b, m) ∈ F2 -> bp < b) ->
  stops s bp t = true /\ forall a n, (a, n) ∈ C1 ++ F2 -> stops s bp a = false.
Proof.
  intros Hc Hs Ht Hb HF. unfold stops. split.
  - destruct (next_of _ _ _ _ _ Hc) as [-> _]. destruct F2 as [|[b m] F2]; simpl.
    + rewrite (proj2 (Z.leb_le base t)), (proj2 (Z.ltb_lt t bp)) by lia. simpl. apply orb_true_r.
    + rewrite (proj2 (Z.ltb_lt t bp)), (proj2 (Z.ltb_lt bp b)) by (lia || apply (HF b m); left). done.
  - intros a n [Ha|Ha]%elem_of_app; apply list_elem_of_split in Ha as (X & Y & ->).
    + rewrite <- app_assoc in Hc, Hs. cbn [app] in Hc, Hs. destruct (next_of _ _ _ _ _ Hc) as [-> _].
      rewrite head_or_app. cbn [head_or]. assert (Hat := sorted_after _ _ _ _ t nt Hs ltac:(rewrite elem_of_app, elem_of_cons; tauto)).
      destruct Y as [|[y k] Y]; cbn [head_or].
      * rewrite (proj2 (Z.ltb_ge bp t)), (proj2 (Z.leb_gt t a)) by lia. by rewrite andb_false_r.
      * assert (Hay := sorted_after _ _ _ _ y k Hs ltac:(left)).
        assert (Hyt : y < t).
        { apply (sorted_after (X ++ [(a, n)]) y k (Y ++ (t, nt) :: F2) t nt); [|rewrite elem_of_app, elem_of_cons; tauto].
          rewrite <- app_assoc. exact Hs. }
        rewrite (proj2 (Z.ltb_ge bp y)), (proj2 (Z.leb_gt y a)) by lia. by rewrite andb_false_r.
    + assert (Hba := HF a n ltac:(rewrite elem_of_app, elem_of_cons; tauto)). rewrite (proj2 (Z.ltb_ge a bp)) by lia.
      rewrite (app_comm_cons X), (app_assoc C1) in Hc, Hs. destruct (next_of _ _ _ _ _ Hc) as [-> _]. simpl.
      destruct Y as [|[y k] Y]; cbn [head_or].
      * rewrite (proj2 (Z.ltb_ge bp base)) by lia. apply andb_false_r.
      * assert (Hay := sorted_after _ _ _ _ y k Hs ltac:(left)). by rewrite (proj2 (Z.leb_gt y a)) by lia.
Qed.

Lemma sorted_nodup (l : list Z) : StronglySorted Z.lt l -> NoDup l.
Proof.
  induction 1 as [|a l S1 IH H]; constructor; [|done]. intros X. rewrite Forall_forall in H. specialize (H a X). lia.
Qed.

(** The circle as seen from one of its headers. *)
Lemma circle_from h C p : chain h C base -> head_or base C = base -> p ∈ C.*1 ->
  exists n D, chain h ((p, n) :: D) p /\ (p, n) :: D ≡ₚ C.
Proof.
  intros Hc E ([q n] & -> & Hp)%list_elem_of_fmap. apply list_elem_of_split in Hp as (X & Y & ->). exists n, (Y ++ X). split.
  - apply chain_rotate; [done|]. by destruct X.
  - by rewrite (Permutation_app_comm X).
Qed.

(** Wherever [freep] is, the search finds the place. *)
Lemma free_find s F A F1 F2 C1 t nt bp : heap_ok s F A -> F = F1 ++ F2 -> (base, 0) :: F1 = C1 ++ [(t, nt)] -> start <= bp -> t < bp ->
  (forall b m, (b, m) ∈ F2 -> bp < b) -> free_scan (size (hdrs s)) bp (freep s) s = Ret t s.
Proof.
  intros [Hc Hs _ _ _ _ Hf _] -> E Hb Ht HF. assert (So := spread_sorted _ _ _ Hs base ltac:(unfold sizeof_Header in *; lia)).
  assert (Hbt : base <= t).
  { assert (X : (t, nt) ∈ (base, 0) :: F1) by (rewrite E, elem_of_app, elem_of_cons; tauto).
    apply elem_of_cons in X as [[= -> _]|X]; [lia|]. apply spread_app in Hs as [Hs _].
    destruct (spread_bounds _ _ _ _ _ Hs X). unfold sizeof_Header in *. lia. }
  set (C := (base, 0) :: F1 ++ F2) in *. change (base :: (F1 ++ F2).*1) with (C.*1) in Hf, So.
  assert (EC : C = C1 ++ (t, nt) :: F2) by (unfold C; rewrite app_comm_cons, E, <- app_assoc; done).
  assert (ND := sorted_nodup _ So).
  destruct (stops_iff s C1 t nt F2 bp) as [St Sn]; [by rewrite <- EC|by rewrite <- EC|lia|unfold sizeof_Header in *; lia|done|].
  destruct (circle_from _ _ _ Hc eq_refl Hf) as (n & D & Hd & Pd).
  assert (Hin : (t, nt) ∈ (freep s, n) :: D) by (rewrite Pd, EC, elem_of_app, elem_of_cons; tauto).
  apply list_elem_of_split in Hin as (D1 & D2 & ED). rewrite <- Pd in ND. rewrite ED in Hd, Pd, ND.
  assert (Ep : freep s = head_or t D1) by (destruct D1 as [|[? ?] ?]; simpl in *; by simplify_eq). rewrite Ep at 1.
  eapply free_scan_run; [exact Hd| |exact St|].
  - intros a m Ha. apply (Sn a m). assert (X : (a, m) ∈ C) by (rewrite <- Pd, elem_of_app; by left).
    rewrite EC in X. rewrite elem_of_app, elem_of_cons in X. rewrite elem_of_app. destruct X as [X|[[= -> ->]|X]]; [tauto| |tauto].
    exfalso. rewrite fmap_app in ND. apply NoDup_app in ND as (_ & ND & _). apply (ND t); [|by left].
    by apply (list_elem_of_fmap_2 fst _ (t, nt)).
  - apply chain_dom in Hd; [|done]. rewrite length_app in Hd. simpl in Hd. lia.
Qed.

(** ** [free] *)

(** The block [bp] joined with the first of the blocks after it. *)
Definition merge_right (bp n : Z) (F2 : list (Z * Z)) : Z * list (Z * Z) :=
  match F2 with
  | (b, m) :: F2' => if bp + sizeof_Header * n =? b then (n + m, F2') else (n, F2)
  | [] => (n, [])
  end.

(** The free blocks with [bp] put after [F1], joined with the last of them. *)
Fixpoint merge (F1 : list (Z * Z)) (bp n : Z) (F2 : list (Z * Z)) : list (Z * Z) :=
  match F1 with
  | [] => (bp, n) :: F2
  | [(t, nt)] => if t + sizeof_Header * nt =? bp then (t, nt + n) :: F2 else (t, nt) :: (bp, n) :: F2
  | x :: F1' => x :: merge F1' bp n F2
  end.

Lemma hdr_insert_eq s a x : hptr (set_hdrs (<[a := x]> (hdrs s)) s) a = x.1 /\ hsize (set_hdrs (<[a := x]> (hdrs s)) s) a = x.2.
Proof. unfold hptr, hsize, hdr. simpl. by rewrite lookup_insert_eq. Qed.

Lemma hdr_insert_ne s a b x : a ≠ b ->
  hptr (set_hdrs (<[a := x]> (hdrs s)) s) b = hptr s b /\ hsize (set_hdrs (<[a := x]> (hdrs s)) s) b = hsize s b.
Proof. intros N. unfold hptr, hsize, hdr. simpl. by rewrite lookup_insert_ne. Qed.

Lemma join_next_run s bp n pb t nt F2 n' F2' : hdrs s !! bp = Some (pb, n) -> chain (hdrs s) ((t, nt) :: F2) base ->
  merge_right bp n F2 = (n', F2') -> base < bp -> t < bp -> (forall b m, (b, m) ∈ F2 -> bp < b /\ 0 <= m) ->
  0 < n <= n' -> bp + sizeof_Header * n' < 2 ^ 32 ->
  join_next bp t s = Ret tt (set_hdrs (<[bp := (head_or base F2', n')]> (hdrs s)) s).
Proof.
  intros Eb [Et Hc] Hm Hb Ht HF Hn Hx. destruct (hptr_of _ _ _ _ Eb) as [Eb1 Eb2]. destruct (hptr_of _ _ _ _ Et) as [Et1 Et2].
  assert (Ep : hplus bp n = bp + sizeof_Header * n) by (unfold hplus; apply u32_id; unfold sizeof_Header in *; mlia).
  unfold join_next. munfold. rewrite Eb2, Et1, Ep. unfold merge_right in Hm. destruct F2 as [|[b m] F2]; simpl in *.
  - injection Hm as <- <-. rewrite (proj2 (Z.eqb_neq _ _)) by (unfold sizeof_Header in *; lia). unfold set_hptr. munfold. by rewrite Eb2.
  - destruct (HF b m ltac:(left)) as [Hbb Hm0]. destruct (_ =? b) eqn:Eq; bool_prop; injection Hm as <- <-.
    + destruct Hc as [Ec _]. destruct (hptr_of _ _ _ _ Ec) as [Ec1 Ec2]. unfold set_hsize, set_hptr. munfold. rewrite Ec2.
      rewrite (u32_id (n + m)) by (unfold sizeof_Header in *; mlia).
      destruct (hdr_insert_ne s bp t (hptr s bp, n + m) ltac:(lia)) as [-> _].
      rewrite Et1. destruct (hdr_insert_ne s bp b (hptr s bp, n + m) ltac:(lia)) as [-> _]. rewrite Ec1.
      destruct (hdr_insert_eq s bp (hptr s bp, n + m)) as [_ ->]. unfold set_hdrs. simpl. by rewrite insert_insert_eq.
    + unfold set_hptr. munfold. by rewrite Eb2.
Qed.

Lemma join_prev_run s bp n q t nt p : hdrs s !! bp = Some (q, n) -> hdrs s !! t = Some (p, nt) -> t ≠ bp ->
  0 <= t -> 0 <= nt -> 0 <= n -> t + sizeof_Header * nt <= bp -> bp + sizeof_Header * n < 2 ^ 32 ->
  join_prev bp t s = Ret tt (set_hdrs (<[t := if t + sizeof_Header * nt =? bp then (q, nt + n) else (bp, nt)]> (hdrs s)) s).
Proof.
  intros Eb Et N Ht Hnt Hn Hle Hx. destruct (hptr_of _ _ _ _ Eb) as [Eb1 Eb2]. destruct (hptr_of _ _ _ _ Et) as [Et1 Et2].
  assert (Ep : hplus t nt = t + sizeof_Header * nt) by (unfold hplus; apply u32_id; unfold sizeof_Header in *; mlia).
  unfold join_prev. munfold. rewrite Et2, Ep, Eb2. destruct (_ =? bp) eqn:Eq; bool_prop; unfold set_hsize, set_hptr; munfold.
  - rewrite (u32_id (nt + n)) by (unfold sizeof_Header in *; mlia).
    destruct (hdr_insert_ne s t bp (hptr s t, nt + n) N) as [-> _]. rewrite Eb1.
    destruct (hdr_insert_eq s t (hptr s t, nt + n)) as [_ ->]. unfold set_hdrs. simpl. by rewrite insert_insert_eq.
  - by rewrite Et2.
Qed.

Lemma merge_last G t nt bp n F2 : merge (G ++ [(t, nt)]) bp n F2 =
  G ++ (if t + sizeof_Header * nt =? bp then (t, nt + n) :: F2 else (t, nt) :: (bp, n) :: F2).
Proof.
  induction G as [|x G IH]; [done|]. cbn [app]. rewrite <- IH. destruct x. by destruct G as [|[] []].
Qed.

Lemma merge_right_ok bp n F2 n' F2' hi : merge_right bp n F2 = (n', F2') -> 1 <= n -> spread (bp + sizeof_Header * n - 1) F2 hi ->
  bp + sizeof_Header * n <= hi ->
  n <= n' /\ bp + sizeof_Header * n' <= hi /\ spread (bp + sizeof_Header * n') F2' hi /\
  forall x, inside x bp n' \/ covered F2' x <-> inside x bp n \/ covered F2 x.
Proof.
  intros E Hn Hs Hh. unfold merge_right in E. destruct F2 as [|[b m] F2]; [injection E as <- <-; done|].
  destruct Hs as (H1 & H2 & H3 & H4). destruct (_ =? b) eqn:Eq; bool_prop; injection E as <- <-.
  - assert (Ee : bp + sizeof_Header * (n + m) = b + sizeof_Header * m) by (unfold sizeof_Header in *; lia). rewrite Ee. split_and!; try done; [lia|].
    intros x. unfold covered, inside. split.
    + intros [Hx|(a & k & Ha & Hx)]; [|right; exists a, k; split; [by right|done]].
      destruct (decide (x < b)); [left; lia|]. right. exists b, m. split; [left|lia].
    + intros [Hx|(a & k & [[= -> ->]|Ha]%elem_of_cons & Hx)]; [left; unfold sizeof_Header in *; lia|left; unfold sizeof_Header in *; lia|].
      right. by exists a, k.
  - split_and!; [done|done|split_and!; try done; lia|done].
Qed.

Lemma covered_cons F a n x : covered ((a, n) :: F) x <-> inside x a n \/ covered F x.
Proof.
  unfold covered. split.
  - intros (b & m & [[= -> ->]|H]%elem_of_cons & Hx); [by left|]. right. by exists b, m.
  - intros [H|(b & m & H & Hx)]; [exists a, n|exists b, m]; (split; [|done]); [left|by right].
Qed.

Lemma covered_app F1 F2 x : covered (F1 ++ F2) x <-> covered F1 x \/ covered F2 x.
Proof.
  induction F1 as [|[a n] F1 IH]; simpl; [|rewrite !covered_cons, IH; tauto]. split; [tauto|].
  intros [(a & n & []%elem_of_nil & _)|H]; done.
Qed.

Lemma merge_ok F1 lo bp n F2 hi : spread lo F1 hi -> (forall b m, (b, m) ∈ F1 -> b + sizeof_Header * m <= bp) -> lo < bp -> 1 <= n ->
  bp + sizeof_Header * n <= hi -> spread (bp + sizeof_Header * n) F2 hi ->
  spread lo (merge F1 bp n F2) hi /\
  (forall x, covered (merge F1 bp n F2) x <-> covered F1 x \/ inside x bp n \/ covered F2 x) /\
  exists a m, (a, m) ∈ merge F1 bp n F2 /\ a <= bp /\ bp + sizeof_Header * n <= a + sizeof_Header * m.
Proof.
  revert lo. induction F1 as [|[t nt] F1 IH]; intros lo Hs HF Hlo Hn Hh H2.
  { simpl. split; [done|]. split; [|exists bp, n; split; [left|lia]]. intros x. rewrite covered_cons. unfold covered at 2.
    split; [tauto|]. intros [(? & ? & []%elem_of_nil & _)|H]; done. }
  destruct Hs as (A1 & A2 & A3 & A4). assert (At := HF t nt ltac:(left)).
  destruct F1 as [|y F1].
  - simpl. destruct (_ =? bp) eqn:Eq; bool_prop.
    + assert (Ee : t + sizeof_Header * (nt + n) = bp + sizeof_Header * n) by (unfold sizeof_Header in *; lia).
      split; [cbn [spread]; rewrite Ee; split_and!; try done; lia|]. split.
      * intros x. rewrite !covered_cons. unfold covered at 2. unfold inside. rewrite Ee. split.
        -- intros [Hx|H]; [|tauto]. destruct (decide (x < bp)); [left; left; lia|]. right. left. lia.
        -- intros [[Hx|(? & ? & []%elem_of_nil & _)]|[Hx|H]]; [left|left|tauto]; unfold sizeof_Header in *; lia.
      * exists t, (nt + n). split; [left|]. unfold sizeof_Header in *. lia.
    + split; [cbn [spread]; split_and!; try done; lia|]. split; [|exists bp, n; split; [right; left|lia]].
      intros x. rewrite !covered_cons. unfold covered at 2. split; [tauto|]. intros [[Hx|(? & ? & []%elem_of_nil & _)]|H]; tauto.
  - assert (X : (t, nt) :: merge (y :: F1) bp n F2 = merge ((t, nt) :: y :: F1) bp n F2) by done. rewrite <- X. clear X.
    destruct (IH (t + sizeof_Header * nt) A4) as (B1 & B2 & a & m & B3 & B4); [intros b m Hb; apply HF; by right| |done|done|done|].
    { destruct y as [y ny]. destruct A4 as (C1 & C2 & _). assert (X := HF y ny ltac:(right; left)). unfold sizeof_Header in *. lia. }
    split; [by split_and!|]. split; [intros x; rewrite !(covered_cons _ t nt), B2; tauto|].
    exists a, m. split; [by right|done].
Qed.

Lemma spread_raise lo lo' F hi : spread lo F hi -> (forall a n, (a, n) ∈ F -> lo' < a) -> spread lo' F hi.
Proof. destruct F as [|[a n] F]; [done|]. intros (_ & H) Ha. split; [apply (Ha a n); left|done]. Qed.

Lemma merge_right_chain h bp n F2 n' F2' q : merge_right bp n F2 = (n', F2') -> chain h F2 q -> chain h F2' q /\ forall e, e ∈ F2' -> e ∈ F2.
Proof.
  unfold merge_right. destruct F2 as [|[b m] F2]; [by intros [= <- <-]|]. destruct (_ =? b); intros [= <- <-]; [|done].
  intros [_ H]. split; [done|]. intros e He. by right.
Qed.

Lemma merge_list F1 C1 t nt bp n F2 : (base, 0) :: F1 = C1 ++ [(t, nt)] -> base < bp ->
  (base, 0) :: merge F1 bp n F2 = C1 ++ (if t + sizeof_Header * nt =? bp then (t, nt + n) :: F2 else (t, nt) :: (bp, n) :: F2).
Proof.
  intros E Hb. destruct C1 as [|c C1]; simpl in E; [injection E as <- <- ->; simpl|injection E as <- ->; by rewrite merge_last].
  by rewrite (proj2 (Z.eqb_neq _ _)) by (unfold sizeof_Header; lia).
Qed.

(** The list with the block in it. *)
Lemma free_chain h C1 t nt F1 F2 bp n' F2' : (base, 0) :: F1 = C1 ++ [(t, nt)] -> chain h (C1 ++ (t, nt) :: F2) base ->
  NoDup (C1 ++ (t, nt) :: F2).*1 -> bp ∉ (C1 ++ (t, nt) :: F2).*1 -> base < bp -> chain h F2' base -> (forall e, e ∈ F2' -> e ∈ F2) ->
  chain (<[t := if t + sizeof_Header * nt =? bp then (head_or base F2', nt + n') else (bp, nt)]> (<[bp := (head_or base F2', n')]> h))
    ((base, 0) :: merge F1 bp n' F2') base.
Proof.
  intros E Hc ND Nb Hb H2 Hsub. apply fchain_app in Hc as [Hc1 _]. simpl in Hc1.
  rewrite fmap_app in ND, Nb. cbn [fmap list_fmap fst] in ND, Nb. apply NoDup_app in ND as (_ & ND1 & ND2).
  apply NoDup_cons in ND2 as [ND2 _]. rewrite not_elem_of_app, not_elem_of_cons in Nb. destruct Nb as (Nb1 & Nb2 & Nb3).
  assert (Sub : forall a, a ∈ F2'.*1 -> a ∈ F2.*1).
  { intros a ([c k] & -> & Hk)%list_elem_of_fmap. apply (list_elem_of_fmap_2 fst _ (c, k)). by apply Hsub. }
  rewrite (merge_list F1 C1 t nt bp n' F2' E Hb). apply fchain_app. assert (N1 : t ∉ C1.*1) by (intros X; apply (ND1 t X); by left).
  split.
  - match goal with |- context [head_or base (if ?b then ?x else ?y)] => replace (head_or base (if b then x else y)) with t by by destruct b end.
    by apply chain_insert, chain_insert.
  - assert (H2' : forall x y, chain (<[t := x]> (<[bp := y]> h)) F2' base).
    { intros x y. apply chain_insert; [by intros X%Sub|]. apply chain_insert; [by intros X%Sub|done]. }
    destruct (_ =? bp); simpl; rewrite lookup_insert_eq; [done|]. rewrite lookup_insert_ne, lookup_insert_eq by done. done.
Qed.

Lemma used_not_free s F A a n : heap_ok s F A -> A !! a = Some n -> a ∉ ((base, 0) :: F).*1.
Proof.
  intros [Hc Hs Hu Huu Huf Hcov Hf Ht] Ha. destruct (Hu a n Ha) as (_ & Hbs & Hn & Hbt).
  intros [X|X]%elem_of_cons; [simpl in X; unfold sizeof_Header in *; lia|]. apply list_elem_of_fmap in X as ([b m] & -> & Hm).
  destruct (spread_bounds _ _ _ _ _ Hs Hm) as (_ & Hm1 & _). assert (Y := Huf _ _ _ _ Ha Hm).
  unfold apart in Y. unfold sizeof_Header in *. simpl in *. lia.
Qed.

(** The place of a held block among the free ones. *)
Lemma free_place s F A bp n : heap_ok s F A -> A !! bp = Some n ->
  exists F1 F2 C1 t nt, F = F1 ++ F2 /\ (base, 0) :: F1 = C1 ++ [(t, nt)] /\ (base, 0) :: F = C1 ++ (t, nt) :: F2 /\
    (forall b m, (b, m) ∈ F1 -> b + sizeof_Header * m <= bp) /\ (forall b m, (b, m) ∈ F2 -> bp < b /\ 0 <= m) /\
    spread (bp + sizeof_Header * n - 1) F2 (brk s) /\ spread (start - 1) F1 (brk s) /\
    base <= t < bp /\ 0 <= nt /\ t + sizeof_Header * nt <= bp /\ bp ∉ ((base, 0) :: F).*1.
Proof.
  intros O Hb. assert (O' := O). destruct O' as [Hc Hs Hu Huu Huf Hcov Hf Ht]. destruct (Hu bp n Hb) as (_ & Hbs & Hn & Hbt).
  destruct (spread_split _ _ _ bp n Hs Hn) as (F1 & F2 & EF & L1 & L2); [intros b m; by apply Huf|].
  destruct (exists_last (l := (base, 0) :: F1)) as (C1 & [t nt] & EC); [done|].
  exists F1, F2, C1, t, nt. assert (Hs' := Hs). rewrite EF in Hs'. apply spread_app in Hs' as [Hs1 Hs2].
  assert (Htb : base <= t < bp /\ 0 <= nt /\ t + sizeof_Header * nt <= bp).
  { assert (X : (t, nt) ∈ (base, 0) :: F1) by (rewrite EC, elem_of_app, elem_of_cons; tauto).
    apply elem_of_cons in X as [[= -> ->]|X]; [unfold sizeof_Header in *; lia|]. specialize (L1 t nt X).
    destruct (spread_bounds _ _ _ _ _ Hs1 X). unfold sizeof_Header in *. lia. }
  split_and!; try done; try tauto.
  - by rewrite EF, app_comm_cons, EC, <- app_assoc.
  - intros b m Hm. assert (X := L2 b m Hm). destruct (spread_bounds _ _ _ _ _ Hs2 Hm). unfold sizeof_Header in *. lia.
  - eapply spread_raise; [exact Hs2|]; intros a m Ha; specialize (L2 a m Ha); lia.
  - by eapply used_not_free.
Qed.

(** A held block moves to the free ones. *)
Lemma heap_give s F A h' fp F' bp n : heap_ok s F A -> A !! bp = Some n -> chain h' ((base, 0) :: F') base -> spread (start - 1) F' (brk s) ->
  (forall x, covered F' x <-> covered F x \/ inside x bp n) -> (forall a m, A !! a = Some m -> a ≠ bp -> h' !! a = hdrs s !! a) ->
  fp ∈ base :: F'.*1 -> heap_ok (UHeap h' fp (brk s)) F' (delete bp A).
Proof.
  intros [Hc Hs Hu Huu Huf Hcov Hf Ht] Hb C' S' Cov Hh Hfp. destruct (Hu bp n Hb) as (_ & _ & Hn & _). split; simpl; try done.
  - intros a m [Na Ha]%lookup_delete_Some. rewrite (Hh a m) by done. by apply Hu.
  - intros a m b k [_ Ha]%lookup_delete_Some [_ Hk]%lookup_delete_Some. by apply Huu.
  - intros a m b k [Na Ha]%lookup_delete_Some Hk. destruct (Hu a m Ha) as (_ & _ & Hm & _).
    destruct (spread_bounds _ _ _ _ _ S' Hk) as (_ & Hk1 & _). apply apart_iff; [done|done|]. intros x Hx Hxk.
    assert (X : covered F' x) by (by exists b, k). apply Cov in X as [(c & l & Hc' & Hxc)|Hxb].
    + destruct (spread_bounds _ _ _ _ _ Hs Hc') as (_ & Hl & _). by eapply (apart_iff a m c l Hm Hl); [apply Huf|..].
    + by eapply (apart_iff a m bp n Hm Hn); [apply Huu|..].
  - intros x Hx. destruct (Hcov x Hx) as [X|(a & m & Ha & X)]; [left; apply Cov; by left|].
    destruct (decide (a = bp)) as [->|N]; [left; apply Cov; right; congruence|]. right. exists a, m. by rewrite lookup_delete_ne.
Qed.

Lemma merge_length F1 bp n F2 : (length (merge F1 bp n F2) <= S (length (F1 ++ F2)))%nat.
Proof.
  induction F1 as [|[t nt] F1 IH]; [done|]. destruct F1 as [|y F1]; [simpl; destruct (_ =? bp); simpl; lia|].
  change (length (merge ((t, nt) :: y :: F1) bp n F2)) with (S (length (merge (y :: F1) bp n F2))). simpl in *. lia.
Qed.

Lemma merge_right_length bp n F2 : (length (merge_right bp n F2).2 <= length F2)%nat.
Proof. unfold merge_right. destruct F2 as [|[b m] F2]; [done|]. destruct (_ =? b); simpl; lia. Qed.

Lemma free_ok s F A bp n : heap_ok s F A -> A !! bp = Some n ->
  exists s' F', free (bp + sizeof_Header) s = Ret tt s' /\ heap_ok s' F' (delete bp A) /\ brk s' = brk s /\ (length F' <= S (length F))%nat /\
    exists a m, (a, m) ∈ F' /\ a <= bp /\ bp + sizeof_Header * n <= a + sizeof_Header * m.
Proof.
  intros O Hb. destruct (free_place s F A bp n O Hb) as (F1 & F2 & C1 & t & nt & EF & EC & HC & L1 & L2 & Hs2 & Hs1 & Htb & Hnt & Hle & Nb).
  assert (O' := O). destruct O' as [Hc Hs Hu _ _ _ _ Ht]. destruct (Hu bp n Hb) as ([pb Eb] & Hbs & Hn & Hbt).
  assert (So := spread_sorted _ _ _ Hs base ltac:(unfold sizeof_Header in *; lia)). apply sorted_nodup in So.
  change (base :: F.*1) with (((base, 0) :: F).*1) in So. rewrite HC in Hc, So, Nb.
  destruct (merge_right bp n F2) as [n' F2'] eqn:Em. destruct (merge_right_ok _ _ _ _ _ _ Em Hn Hs2 Hbt) as (Hn' & Hh' & Sp' & Cov').
  assert (Hc2 := proj2 (proj1 (fchain_app _ _ _ _) Hc)). assert (Et := proj1 Hc2).
  destruct (merge_right_chain _ _ _ _ _ _ base Em (proj2 Hc2)) as [Hc2' Sub].
  destruct (merge_ok F1 (start - 1) bp n' F2' (brk s) Hs1 L1) as (M1 & M2 & a & m & Ha & Ham); [lia|lia|done|done|].
  eexists (UHeap _ t (brk s)), (merge F1 bp n' F2'). split; [|split; [|split; [done|split]]].
  - unfold free. replace (hplus (bp + sizeof_Header) (-1)) with bp by (unfold hplus, sizeof_Header in *; rewrite u32_id; [lia|mlia]).
    munfold. rewrite (free_find s F A F1 F2 C1 t nt bp O EF EC); [|lia|lia|intros b k Hk; by apply (L2 b k)].
    rewrite (join_next_run s bp n pb t nt F2 n' F2' Eb);
      [|done|done|unfold sizeof_Header in *; lia|lia|done|lia|unfold sizeof_Header in *; lia].
    rewrite (join_prev_run _ bp n' (head_or base F2') t nt (head_or base F2)); simpl; try done; try lia; [by rewrite lookup_insert_eq|].
    by rewrite lookup_insert_ne by lia.
  - apply (heap_give s F A _ t _ bp n O Hb).
    + by apply (free_chain _ C1 t nt F1 F2); try done; unfold sizeof_Header in *; try lia.
    + done.
    + intros x. rewrite M2. assert (X := Cov' x). rewrite EF, covered_app. tauto.
    + intros c k Hk Nc. assert (X := used_not_free _ _ _ _ _ O Hk). rewrite HC, fmap_app, elem_of_app in X. cbn in X. rewrite elem_of_cons in X.
      unfold set_hdrs. cbn [hdrs]. by rewrite !lookup_insert_ne by (done || intros ->; tauto).
    + change (t ∈ ((base, 0) :: merge F1 bp n' F2').*1). rewrite (merge_list F1 C1 t nt) by (done || unfold sizeof_Header in *; lia).
      rewrite fmap_app, elem_of_app. right. destruct (_ =? bp); left.
  - assert (X := merge_length F1 bp n' F2'). assert (Y := merge_right_length bp n F2). rewrite Em in Y. simpl in Y.
    rewrite EF. rewrite !length_app in *. lia.
  - exists a, m. split; [done|]. unfold sizeof_Header in *. lia.
Qed.

(** ** [malloc] *)

(** A block [r] of [nu] units moves from the free ones to the held ones. *)
Lemma heap_take s F A h' fp F' r nu : heap_ok s F A -> chain h' ((base, 0) :: F') base -> spread (start - 1) F' (brk s) -> 1 <= nu ->
  (forall x, covered F x <-> covered F' x \/ inside x r nu) -> (forall x, inside x r nu -> ~ covered F' x) ->
  (exists p, h' !! r = Some (p, nu)) -> (forall a n, A !! a = Some n -> h' !! a = hdrs s !! a) -> fp ∈ base :: F'.*1 ->
  heap_ok (UHeap h' fp (brk s)) F' (<[r := nu]> A) /\ A !! r = None /\ start <= r.
Proof.
  intros [Hc Hs Hu Huu Huf Hcov Hf Ht] C' S' Hn Cov Dis Er Hh Hfp.
  assert (Rc : forall x, inside x r nu -> exists b m, (b, m) ∈ F /\ inside x b m) by (intros x Hx; apply Cov; by right).
  assert (Ar : forall a n, A !! a = Some n -> apart a n r nu).
  { intros a n Ha. destruct (Hu a n Ha) as (_ & _ & Hn1 & _). apply apart_iff; [done|done|]. intros x Hx Hr.
    destruct (Rc x Hr) as (b & m & Hm & Hxm). destruct (spread_bounds _ _ _ _ _ Hs Hm) as (_ & Hm1 & _).
    by eapply (apart_iff a n b m Hn1 Hm1); [apply Huf|..]. }
  assert (Nr : A !! r = None).
  { destruct (A !! r) as [n|] eqn:E; [|done]. destruct (Hu r n E) as (_ & _ & Hn1 & _). specialize (Ar r n E).
    unfold apart, sizeof_Header in Ar. lia. }
  destruct (Rc r) as (b & m & Hm & Hx); [unfold inside, sizeof_Header; lia|]. destruct (spread_bounds _ _ _ _ _ Hs Hm) as (Lb & _).
  destruct (Rc (r + sizeof_Header * nu - 1)) as (b' & m' & Hm' & Hx'); [unfold inside, sizeof_Header; lia|].
  destruct (spread_bounds _ _ _ _ _ Hs Hm') as (_ & _ & Lb'). unfold inside in Hx, Hx'.
  split; [|split; [done|lia]]. split; simpl; try done.
  - intros a n [[<- <-]|[N Ha]]%lookup_insert_Some; [split_and!; [done|lia|done|lia]|]. rewrite (Hh a n Ha). by apply Hu.
  - intros a n c k [[<- <-]|[N Ha]]%lookup_insert_Some [[<- <-]|[N' Hk]]%lookup_insert_Some N2; [done| | |by apply Huu].
    + destruct (Ar c k Hk); [by right|by left].
    + by apply Ar.
  - intros a n c k [[<- <-]|[N Ha]]%lookup_insert_Some Hk; destruct (spread_bounds _ _ _ _ _ S' Hk) as (_ & Hk1 & _).
    + apply apart_iff; [done|done|]. intros x Hxr Hxk. apply (Dis x Hxr). by exists c, k.
    + destruct (Hu a n Ha) as (_ & _ & Hn1 & _). apply apart_iff; [done|done|]. intros x Hxa Hxk.
      assert (X : covered F x) by (apply Cov; left; by exists c, k). destruct X as (d & l & Hd & Hxd).
      destruct (spread_bounds _ _ _ _ _ Hs Hd) as (_ & Hl & _). by eapply (apart_iff a n d l Hn1 Hl); [apply Huf|..].
  - intros x Hxx. destruct (Hcov x Hxx) as [X|(a & n & Ha & X)].
    + apply Cov in X as [X|X]; [by left|]. right. exists r, nu. by rewrite lookup_insert_eq.
    + right. exists a, n. split; [|done]. rewrite lookup_insert_ne; [done|]. intros ->. congruence.
Qed.

Lemma next_inj s C i j a b n m t : chain (hdrs s) C base -> NoDup C.*1 -> C !! i = Some (a, n) -> C !! j = Some (b, m) ->
  hptr s a = t -> hptr s b = t -> t ≠ base -> a = b.
Proof.
  intros Hc ND Hi Hj Ea Eb Nt.
  assert (Nx : forall k c l, C !! k = Some (c, l) -> hptr s c = t -> C.*1 !! S k = Some t).
  { intros k c l Hk Ec. destruct (hptr_of _ _ _ _ (chain_lookup _ _ _ _ _ _ Hc Hk)) as [E _]. rewrite Ec in E.
    rewrite list_lookup_fmap. assert (L : drop (S k) C !! 0%nat = C !! S k) by (rewrite lookup_drop; f_equal; lia).
    destruct (drop (S k) C) as [|[x y] D]; simpl in *; [done|]. rewrite <- L. by subst. }
  assert (Eij := NoDup_lookup _ _ _ _ ND (Nx i a n Hi Ea) (Nx j b m Hj Eb)). simplify_eq. by simplify_eq.
Qed.

(** The free block [t] between the blocks [G1] and [F2], after the header [prevp]. *)
Record at_block (s : uheap) (F : list (Z * Z)) (A : gmap Z Z) (t nt prevp np : Z) (G1 F2 X : list (Z * Z)) : Prop := {
  ab_list : F = G1 ++ (t, nt) :: F2;
  ab_prev : (base, 0) :: G1 = X ++ [(prevp, np)];
  ab_chain : chain (hdrs s) X prevp;
  ab_hprev : hdrs s !! prevp = Some (t, np);
  ab_hdr : hdrs s !! t = Some (head_or base F2, nt);
  ab_rest : chain (hdrs s) F2 base;
  ab_once : prevp ∉ X.*1 /\ t ∉ X.*1 /\ prevp ≠ t /\ prevp ∉ F2.*1 /\ t ∉ F2.*1;
  ab_used a n : A !! a = Some n -> a ≠ prevp /\ a ≠ t
}.

(** A free block with the block before it in the list. *)
Lemma take_place s F A t nt prevp : heap_ok s F A -> (t, nt) ∈ F -> prevp ∈ ((base, 0) :: F).*1 -> hptr s prevp = t ->
  exists G1 F2 X np, at_block s F A t nt prevp np G1 F2 X.
Proof.
  intros O Ht Hp Ep. assert (O' := O). destruct O' as [Hc Hs _ _ _ _ _ _]. apply list_elem_of_split in Ht as (G1 & F2 & EF).
  destruct (exists_last (l := (base, 0) :: G1)) as (X & [pv np] & EG); [done|]. exists G1, F2, X, np.
  assert (HC : (base, 0) :: F = X ++ (pv, np) :: (t, nt) :: F2) by (rewrite EF, app_comm_cons, EG, <- app_assoc; done).
  assert (ND := sorted_nodup _ (spread_sorted _ _ _ Hs base ltac:(unfold sizeof_Header in *; lia))).
  change (base :: F.*1) with (((base, 0) :: F).*1) in ND.
  assert (Hc' := Hc). rewrite HC in Hc'. destruct (next_of _ _ _ _ _ Hc') as [En _].
  apply list_elem_of_fmap in Hp as ([p' n'] & -> & Hp). apply list_elem_of_lookup_1 in Hp as [i Hi]. simpl in Ep.
  assert (Hj : ((base, 0) :: F) !! length X = Some (pv, np)) by (rewrite HC; by apply list_lookup_middle).
  assert (Nt : t ≠ base).
  { intros ->. rewrite EF in Hs. destruct (spread_bounds _ _ _ base nt Hs) as (L & _); [rewrite elem_of_app, elem_of_cons; tauto|].
    unfold sizeof_Header in *. lia. }
  assert (Epv := next_inj s _ _ _ _ _ _ _ t Hc ND Hi Hj Ep En Nt). simpl. subst p'.
  rewrite HC, fmap_app in ND. cbn in ND. apply NoDup_app in ND as (_ & ND1 & [ND2 [ND3 _]%NoDup_cons]%NoDup_cons).
  rewrite not_elem_of_cons in ND2. apply fchain_app in Hc' as [Hc1 (E1 & E2 & Hc2)].
  split; try done.
  - split_and!; try tauto; intros Y; apply (ND1 _ Y); rewrite !elem_of_cons; tauto.
  - intros a n Ha. assert (Y := used_not_free _ _ _ _ _ O Ha). rewrite HC, fmap_app, elem_of_app in Y. cbn in Y.
    rewrite !elem_of_cons in Y. split; intros ->; tauto.
Qed.

Lemma spread_remove lo G1 t nt F2 hi : spread lo (G1 ++ (t, nt) :: F2) hi -> spread lo (G1 ++ F2) hi.
Proof.
  rewrite !spread_app. intros [H1 (H2 & H3 & H4 & H5)]. split; [done|]. eapply spread_raise; [exact H5|].
  intros a n Ha. destruct (spread_bounds _ _ _ _ _ H5 Ha). unfold sizeof_Header in *. lia.
Qed.

Lemma spread_shrink lo G1 t nt k F2 hi : spread lo (G1 ++ (t, nt) :: F2) hi -> 1 <= k < nt -> spread lo (G1 ++ (t, k) :: F2) hi.
Proof.
  rewrite !spread_app. intros [H1 (H2 & H3 & H4 & H5)] Hk. split; [done|]. split_and!; try done; [lia|unfold sizeof_Header in *; lia|].
  eapply spread_raise; [exact H5|]. intros a n Ha. destruct (spread_bounds _ _ _ _ _ H5 Ha). unfold sizeof_Header in *. lia.
Qed.

(** A point of a block is in no other block of the list. *)
Lemma spread_alone lo G1 t nt F2 hi x : spread lo (G1 ++ (t, nt) :: F2) hi -> inside x t nt -> ~ covered (G1 ++ F2) x.
Proof.
  intros Hs Hx (a & n & Ha & Hxa). unfold inside in *. apply elem_of_app in Ha as [Ha|Ha].
  - apply list_elem_of_split in Ha as (P & Q & ->). rewrite <- app_assoc in Hs. cbn [app] in Hs.
    apply spread_app in Hs as [_ (_ & _ & _ & Hs)].
    destruct (spread_bounds _ _ _ t nt Hs) as (L & _); [rewrite elem_of_app, elem_of_cons; tauto|]. lia.
  - apply spread_app in Hs as [_ (_ & _ & _ & Hs)]. destruct (spread_bounds _ _ _ _ _ Hs Ha) as (L & _). lia.
Qed.

Lemma take_exact s F A t nt prevp np G1 F2 X : heap_ok s F A -> 1 <= nt -> at_block s F A t nt prevp np G1 F2 X ->
  heap_ok (UHeap (<[prevp := (head_or base F2, np)]> (hdrs s)) prevp (brk s)) (G1 ++ F2) (<[t := nt]> A) /\ A !! t = None /\ start <= t.
Proof.
  intros O Hn [EF EG Hc1 E1 E2 Hc2 (N1 & N2 & N3 & N4 & N5) Eu]. assert (Hs := hk_spread _ _ _ O). rewrite EF in Hs.
  apply (heap_take s F A); try done.
  - rewrite app_comm_cons, EG, <- app_assoc. apply fchain_app. split; [by apply chain_insert|]. simpl.
    rewrite lookup_insert_eq. split; [done|]. by apply chain_insert.
  - by eapply spread_remove.
  - intros x. rewrite EF, !covered_app, covered_cons. tauto.
  - intros x. by eapply spread_alone.
  - exists (head_or base F2). by rewrite lookup_insert_ne.
  - intros a n Ha. rewrite lookup_insert_ne; [done|]. intros ->. by destruct (Eu a n Ha).
  - change (prevp ∈ ((base, 0) :: G1 ++ F2).*1). rewrite app_comm_cons, EG. rewrite !fmap_app, !elem_of_app. left. right. left.
Qed.

(** The end of the block is taken. *)
Lemma take_end s F A t nt prevp np G1 F2 X nu y : heap_ok s F A -> 1 <= nu < nt -> at_block s F A t nt prevp np G1 F2 X ->
  let k := nt - nu in let r := t + sizeof_Header * k in
  heap_ok (UHeap (<[r := (y, nu)]> (<[t := (head_or base F2, k)]> (hdrs s))) prevp (brk s)) (G1 ++ (t, k) :: F2) (<[r := nu]> A) /\
  A !! r = None /\ start <= r.
Proof.
  intros O Hn [EF EG Hc1 E1 E2 Hc2 (N1 & N2 & N3 & N4 & N5) Eu] k r. assert (Hs := hk_spread _ _ _ O). assert (Hs' := Hs). rewrite EF in Hs'.
  assert (Ht : (t, nt) ∈ F) by (rewrite EF, elem_of_app, elem_of_cons; tauto). destruct (spread_bounds _ _ _ _ _ Hs Ht) as (Lt & _ & Rt).
  assert (Nr : forall a n, (a, n) ∈ G1 ++ F2 -> a ≠ r).
  { intros a n Ha ->. apply (spread_alone _ _ _ _ _ _ r Hs'); [unfold inside, r, k, sizeof_Header in *; lia|].
    exists r, n. split; [done|]. assert (Y : (r, n) ∈ F) by (rewrite EF; apply elem_of_app in Ha; rewrite elem_of_app, elem_of_cons; tauto).
    destruct (spread_bounds _ _ _ _ _ Hs Y). unfold inside, sizeof_Header in *. lia. }
  assert (NF : r ∉ (G1 ++ F2).*1) by (intros ([a n] & -> & Ha)%list_elem_of_fmap; by eapply Nr).
  assert (NC : r ∉ ((base, 0) :: G1).*1 /\ r ∉ F2.*1).
  { rewrite fmap_app, not_elem_of_app in NF. destruct NF as [NF1 NF2]. split; [|done]. intros [Y|Y]%elem_of_cons; [|done].
    simpl in Y. unfold r, k, sizeof_Header in *. lia. }
  destruct NC as [NC1 NC2]. assert (Nrt : r ≠ t) by (unfold r, k, sizeof_Header in *; lia).
  apply (heap_take s F A); try done.
  - rewrite app_comm_cons, EG, <- app_assoc. rewrite EG, fmap_app, not_elem_of_app in NC1. destruct NC1 as [NC1 NC3].
    simpl in NC3. rewrite list_elem_of_singleton in NC3. apply fchain_app. split; [apply chain_insert; [done|]; by apply chain_insert|]. simpl.
    split_and!; [by rewrite !lookup_insert_ne by (done || intros ->; tauto)|by rewrite lookup_insert_ne, lookup_insert_eq|].
    apply chain_insert; [done|]. by apply chain_insert.
  - eapply spread_shrink; [exact Hs'|]. unfold k. lia.
  - lia.
  - intros x. rewrite EF, !covered_app, !covered_cons. unfold inside, r, k, sizeof_Header.
    assert (Y : t <= x < t + 8 * nt <-> t <= x < t + 8 * (nt - nu) \/ t + 8 * (nt - nu) <= x < t + 8 * (nt - nu) + 8 * nu) by lia. tauto.
  - intros x Hx. rewrite covered_app, covered_cons. assert (Y := spread_alone _ _ _ _ _ _ x Hs').
    rewrite covered_app in Y. unfold inside, r, k, sizeof_Header in *. intros [Z|[Z|Z]]; [|lia|]; apply Y; tauto || lia.
  - exists y. by rewrite lookup_insert_eq.
  - intros a n Ha. destruct (Eu a n Ha) as [Ea1 Ea2]. rewrite !lookup_insert_ne; [done|done|].
    intros Ea3. destruct (hk_used _ _ _ O a n Ha) as (_ & _ & Hn1 & _). assert (Y := hk_uf _ _ _ O _ _ _ _ Ha Ht).
    unfold apart, r, k, sizeof_Header in *. lia.
  - change (prevp ∈ ((base, 0) :: G1 ++ (t, k) :: F2).*1). rewrite app_comm_cons, EG. rewrite !fmap_app, !elem_of_app. left. right. left.
Qed.

Lemma take_block_ok s F A t nt prevp nu : heap_ok s F A -> (t, nt) ∈ F -> prevp ∈ ((base, 0) :: F).*1 -> hptr s prevp = t -> 1 <= nu <= nt ->
  exists r s' F', take_block nu prevp t s = Ret (r + sizeof_Header) s' /\ heap_ok s' F' (<[r := nu]> A) /\ A !! r = None /\ start <= r /\ brk s' = brk s.
Proof.
  intros O Ht Hp Ep Hn. destruct (take_place _ _ _ _ _ _ O Ht Hp Ep) as (G1 & F2 & X & np & B).
  assert (Htop := hk_top _ _ _ O). destruct (spread_bounds _ _ _ _ _ (hk_spread _ _ _ O) Ht) as (Lt & _ & Rt).
  destruct (hptr_of _ _ _ _ (ab_hprev _ _ _ _ _ _ _ _ _ _ B)) as [_ P2]. destruct (hptr_of _ _ _ _ (ab_hdr _ _ _ _ _ _ _ _ _ _ B)) as [T1 T2].
  unfold take_block. munfold. rewrite T2. destruct (nt =? nu) eqn:E; bool_prop.
  - subst nu. rewrite T1. unfold set_hptr. munfold. rewrite P2. eexists t, _, (G1 ++ F2).
    split; [unfold hplus; rewrite u32_id; [reflexivity|unfold sizeof_Header in *; mlia]|].
    destruct (take_exact _ _ _ _ _ _ _ _ _ _ O (proj1 Hn) B) as (H1 & H2 & H3). by split_and!.
  - unfold set_hsize. munfold. rewrite T1, (u32_id (nt - nu)) by (unfold sizeof_Header in *; mlia).
    destruct (hdr_insert_eq s t (head_or base F2, nt - nu)) as [_ ->]. cbn [snd].
    assert (Er : hplus t (nt - nu) = t + sizeof_Header * (nt - nu)) by (unfold hplus; apply u32_id; unfold sizeof_Header in *; mlia). rewrite Er.
    eexists (t + sizeof_Header * (nt - nu)), _, (G1 ++ (t, nt - nu) :: F2).
    split; [unfold hplus; rewrite u32_id; [reflexivity|unfold sizeof_Header in *; mlia]|]. simpl.
    match goal with |- context [(?y, nu)] => destruct (take_end s F A t nt _ _ _ _ _ nu y O ltac:(lia) B) as (H1 & H2 & H3) end. by split_and!.
Qed.

(** Blocks that are too small are passed over. *)
Lemma malloc_skip nu D1 s t nt D2 q fuel : forall prevp, chain (hdrs s) (D1 ++ (t, nt) :: D2) q ->
  (forall a n, (a, n) ∈ D1 -> n < nu /\ a ≠ freep s) ->
  malloc_loop (length D1 + fuel) nu prevp (head_or t D1) s = malloc_loop fuel nu (default prevp (fst <$> last D1)) t s.
Proof.
  induction D1 as [|[a n] D1 IH]; intros prevp Hc Hs; [done|]. destruct Hc as [E Hc]. destruct (Hs a n ltac:(left)) as [Hn Ha].
  destruct (hptr_of _ _ _ _ E) as [E1 E2]. cbn [length Nat.add head_or malloc_loop]. munfold.
  rewrite E2, (proj2 (Z.leb_gt _ _)), (proj2 (Z.eqb_neq _ _)) by done. rewrite E1, head_or_app. cbn [head_or].
  rewrite IH; [|done|intros b m Hb; apply (Hs b m); by right]. rewrite last_cons. by destruct (last D1).
Qed.

(** A step around the circle from [p]. *)
Lemma circle_prev s p n D D1 t nt D2 : hdrs s !! p = Some (head_or p D, n) -> chain (hdrs s) D p -> D ++ [(p, n)] = D1 ++ (t, nt) :: D2 ->
  let prev := default p (fst <$> last D1) in
  hptr s prev = t /\ prev ∈ p :: D.*1 /\ chain (hdrs s) (D1 ++ (t, nt) :: D2) (hptr s p) /\ hptr s p = head_or t D1.
Proof.
  intros E Hd ED prev. destruct (hptr_of _ _ _ _ E) as [E1 E2].
  assert (C2 : chain (hdrs s) (D ++ [(p, n)]) (hptr s p)) by (apply fchain_app; split; [done|]; simpl; by rewrite E1).
  assert (Eh : hptr s p = head_or t D1).
  { rewrite E1. replace (head_or p D) with (head_or 0 (D ++ [(p, n)])) by (by rewrite head_or_app). by rewrite ED, head_or_app. }
  rewrite ED in C2. unfold prev. destruct (last D1) as [[a m]|] eqn:El; simpl.
  - apply last_Some in El as [D1' ->]. split_and!; [| |done|done].
    + rewrite <- app_assoc in C2. apply fchain_app in C2 as [_ [C2 _]]. by destruct (hptr_of _ _ _ _ C2) as [-> _].
    + rewrite <- app_assoc in ED. assert (X : a ∈ (D ++ [(p, n)]).*1) by (rewrite ED, fmap_app, elem_of_app; right; left).
      rewrite fmap_app, elem_of_app in X. rewrite elem_of_cons. cbn in X. rewrite list_elem_of_singleton in X. tauto.
  - apply last_None in El as ->. split_and!; try done. left.
Qed.

(** The first block that is large enough. *)
Lemma first_fit nu (D : list (Z * Z)) :
  (forall a m, (a, m) ∈ D -> m < nu) \/ exists D1 t nt D2, D = D1 ++ (t, nt) :: D2 /\ nu <= nt /\ forall a m, (a, m) ∈ D1 -> m < nu.
Proof.
  induction D as [|[a n] D IH]; [left; by intros ? ? ?%elem_of_nil|]. destruct (decide (nu <= n)) as [L|L].
  { right. exists [], a, n, D. split_and!; [done|done|]. by intros ? ? ?%elem_of_nil. }
  destruct IH as [H|(D1 & t & nt & D2 & -> & H1 & H2)].
  - left. intros b m [[= -> ->]|Hb]%elem_of_cons; [lia|by eapply H].
  - right. exists ((a, n) :: D1), t, nt, D2. split_and!; [done|done|]. intros b m [[= -> ->]|Hb]%elem_of_cons; [lia|by eapply H2].
Qed.

(** The loop from [freep] stops at the first block that is large enough, or at
    [freep] again. *)
Lemma malloc_scan s F A nu : heap_ok s F A -> exists len prev t, (len <= length F)%nat /\
  (forall fuel, malloc_loop (len + fuel) nu (freep s) (hptr s (freep s)) s = malloc_loop fuel nu prev t s) /\
  ((exists nt, (t, nt) ∈ (base, 0) :: F /\ hsize s t = nt /\ nu <= nt /\ hptr s prev = t /\ prev ∈ ((base, 0) :: F).*1) \/
   (t = freep s /\ hsize s t < nu /\ forall a m, (a, m) ∈ F -> m < nu)).
Proof.
  intros [Hc Hs _ _ _ _ Hf _]. assert (ND := sorted_nodup _ (spread_sorted _ _ _ Hs base ltac:(unfold sizeof_Header in *; lia))).
  change (base :: F.*1) with (((base, 0) :: F).*1) in ND, Hf. destruct (circle_from _ _ _ Hc eq_refl Hf) as (n & D & [E Hd] & Pd).
  destruct (hptr_of _ _ _ _ E) as [E1 E2]. assert (Ln := Permutation_length Pd). simpl in Ln. injection Ln as Ln.
  assert (ND' := ND). rewrite <- Pd in ND'. cbn in ND'. apply NoDup_cons in ND' as [NDf _].
  assert (Nf : forall a m, (a, m) ∈ D -> a ≠ freep s) by (intros a m Ha ->; apply NDf; by apply (list_elem_of_fmap_2 fst _ (freep s, m))).
  destruct (first_fit nu D) as [Sm|(D1 & t & nt & D2 & -> & Hnt & Sm)].
  - destruct (circle_prev s _ n D D _ n [] E Hd eq_refl) as (P1 & P2 & P3 & P4).
    exists (length D), (default (freep s) (fst <$> last D)), (freep s). split; [lia|]. split.
    { intros fuel. rewrite P4. eapply malloc_skip; [exact P3|]. intros a m Ha. split; [by eapply Sm|by eapply Nf]. }
    destruct (decide (nu <= n)) as [L|L].
    + left. exists n. split_and!; [rewrite <- Pd; left|done|done|done|]. by rewrite <- Pd.
    + right. split_and!; [done|lia|]. intros a m Ha. assert (X : (a, m) ∈ (freep s, n) :: D) by (rewrite Pd; by right).
      apply elem_of_cons in X as [[= -> ->]|X]; [lia|by eapply Sm].
  - destruct (circle_prev s _ n (D1 ++ (t, nt) :: D2) D1 t nt (D2 ++ [(freep s, n)]) E Hd) as (P1 & P2 & P3 & P4); [by rewrite <- app_assoc|].
    exists (length D1), (default (freep s) (fst <$> last D1)), t. split; [rewrite length_app in Ln; simpl in Ln; lia|]. split.
    { intros fuel. rewrite P4. eapply malloc_skip; [exact P3|]. intros a m Ha. split; [by eapply Sm|].
      eapply Nf. rewrite elem_of_app. by left. }
    left. exists nt. split_and!; [| |done|done|by rewrite <- Pd].
    + rewrite <- Pd. right. rewrite elem_of_app. right. left.
    + apply fchain_app in P3 as [_ [P3 _]]. by destruct (hptr_of _ _ _ _ P3).
Qed.

(** What the allocator relies on: [sbrk] moves the break up by its argument. *)
Context (sbrk_grows : forall b n b', 0 <= n -> sbrk b n = Some b' -> b' = u32 (b + n)).

(** The addresses suffice for [nu] more units. *)
Definition room (s : uheap) (nu : Z) : Prop :=
  sizeof_Header * Z.max nu 4096 < 2 ^ 31 /\ brk s + sizeof_Header * Z.max nu 4096 < 2 ^ 32.

Lemma heap_grow s F A n x : heap_ok s F A -> 1 <= n -> brk s + sizeof_Header * n < 2 ^ 32 ->
  heap_ok (UHeap (<[brk s := (x, n)]> (hdrs s)) (freep s) (brk s + sizeof_Header * n)) F (<[brk s := n]> A).
Proof.
  intros [Hc Hs Hu Huu Huf Hcov Hf Ht] Hn Hr.
  assert (Hb : forall a m, (a, m) ∈ F -> a + sizeof_Header * m <= brk s /\ 1 <= m) by (intros a m Ha; by destruct (spread_bounds _ _ _ _ _ Hs Ha) as (? & ? & ?)).
  assert (Na : forall a m, A !! a = Some m -> a ≠ brk s) by (intros a m Ha ->; destruct (Hu _ _ Ha) as (_ & _ & ? & ?); unfold sizeof_Header in *; lia).
  split; cbn [hdrs freep brk]; try done.
  - apply chain_insert; [|done]. intros [X|X]%elem_of_cons; [simpl in X; unfold sizeof_Header in *; lia|].
    apply list_elem_of_fmap in X as ([a m] & X & Ha). simpl in X. destruct (Hb a m Ha). unfold sizeof_Header in *. lia.
  - assert (X : forall lo G, spread lo G (brk s) -> spread lo G (brk s + sizeof_Header * n)); [|by apply X].
    intros lo G. revert lo. induction G as [|[a m] G IH]; intros lo; [done|]. intros (H1 & H2 & H3 & H4).
    split_and!; try done; [unfold sizeof_Header in *; lia|by apply IH].
  - intros a m [[<- <-]|[N Ha]]%lookup_insert_Some; [split_and!; [exists x; by rewrite lookup_insert_eq|lia|done|lia]|].
    destruct (Hu a m Ha) as (X & H1 & H2 & H3). rewrite lookup_insert_ne by done. split_and!; try done. unfold sizeof_Header in *. lia.
  - intros a m b k [[<- <-]|[N Ha]]%lookup_insert_Some [[<- <-]|[N' Hk]]%lookup_insert_Some N2; [done| | |by apply Huu].
    + right. apply (Hu b k Hk).
    + left. apply (Hu a m Ha).
  - intros a m b k [[<- <-]|[N Ha]]%lookup_insert_Some Hk; [right; by apply (Hb b k)|by apply Huf].
  - intros y Hy. destruct (decide (y < brk s)) as [L|L].
    + destruct (Hcov y) as [X|(a & m & Ha & X)]; [lia|by left|]. right. exists a, m. rewrite lookup_insert_ne; [done|]. intros E. by apply (Na a m).
    + right. exists (brk s), n. rewrite lookup_insert_eq. split; [done|]. unfold inside. lia.
  - unfold sizeof_Header in *. lia.
Qed.

Lemma morecore_ok s F A nu : heap_ok s F A -> 1 <= nu -> room s nu ->
  exists r s', morecore nu s = Ret r s' /\
    (r = 0 /\ s' = s /\ sbrk (brk s) (sizeof_Header * Z.max nu 4096) = None \/
     r = freep s' /\ r ≠ 0 /\ exists F', heap_ok s' F' A /\ (length F' <= S (length F))%nat /\ exists a m, (a, m) ∈ F' /\ nu <= m).
Proof.
  intros O Hn [R1 R2]. set (N := Z.max nu 4096) in *.
  assert (HN : (if nu <? 4096 then 4096 else nu) = N) by (unfold N; destruct (_ <? _) eqn:E; bool_prop; lia).
  assert (Hs32 : s32 (N * sizeof_Header) = sizeof_Header * N) by (rewrite Z.mul_comm; unfold sizeof_Header in *; mlia).
  assert (Ht := hk_top _ _ _ O). unfold morecore. rewrite HN, Hs32. munfold.
  destruct (sbrk (brk s) (sizeof_Header * N)) as [b|] eqn:Eb; [|eexists _, _; split; [done|by left]].
  apply sbrk_grows in Eb; [|unfold sizeof_Header; lia]. rewrite u32_id in Eb by (unfold sizeof_Header in *; mlia). subst b.
  rewrite (proj2 (Z.eqb_neq _ _)) by (unfold sizeof_Header in *; mlia). unfold set_hsize. munfold.
  assert (Ep : hplus (brk s) 1 = brk s + sizeof_Header) by (unfold hplus; rewrite u32_id; unfold sizeof_Header in *; mlia). rewrite Ep.
  set (x := hptr _ (brk s)). assert (G := heap_grow s F A N x O ltac:(lia) R2).
  assert (Nb : A !! brk s = None).
  { destruct (A !! brk s) as [m|] eqn:E; [|done]. destruct (hk_used _ _ _ O _ _ E) as (_ & _ & ? & ?). unfold sizeof_Header in *. lia. }
  destruct (free_ok _ _ _ (brk s) N G) as (s' & F' & E & O' & _ & L & a & m & Ha & H1 & H2); [by rewrite lookup_insert_eq|].
  rewrite delete_insert_id in O' by done. unfold set_hdrs, set_brk in *. cbn [hdrs freep brk] in *. rewrite E. eexists _, _. split; [done|]. right.
  split; [done|]. split.
  - intros X. assert (Y := hk_freep _ _ _ O'). rewrite X in Y. apply elem_of_cons in Y as [Y|([c k] & Y & Hk)%list_elem_of_fmap]; [lia|].
    destruct (spread_bounds _ _ _ _ _ (hk_spread _ _ _ O') Hk). simpl in Y. unfold sizeof_Header in *. lia.
  - exists F'. split; [done|]. split; [done|]. exists a, m. split; [done|]. unfold sizeof_Header in *. lia.
Qed.

(** What [malloc] of [nu] units leaves. *)
Definition malloced (s : uheap) (A : gmap Z Z) (nu r : Z) (s' : uheap) : Prop :=
  r = 0 /\ sbrk (brk s) (sizeof_Header * Z.max nu 4096) = None /\ (exists F', heap_ok s' F' A) \/
  exists bp F', r = bp + sizeof_Header /\ heap_ok s' F' (<[bp := nu]> A) /\ A !! bp = None /\ start <= bp.

Lemma malloc_loop_step fuel nu prevp p s : malloc_loop fuel nu prevp p s =
  if nu <=? hsize s p then take_block nu prevp p s
  else
    let next p := match fuel with O => out_of_fuel | S fuel' => s ← get; malloc_loop fuel' nu p (hptr s p) end in
    (if p =? freep s then p ← morecore nu; if p =? 0 then mret 0 else next p else next p) s.
Proof. destruct fuel; simpl; munfold; destruct (_ <=? _); done. Qed.

Lemma malloc_found s F A nu fuel prev t nt : heap_ok s F A -> 1 <= nu -> (t, nt) ∈ (base, 0) :: F -> hsize s t = nt -> nu <= nt ->
  hptr s prev = t -> prev ∈ ((base, 0) :: F).*1 ->
  exists r s', malloc_loop fuel nu prev t s = Ret r s' /\
    exists bp F', r = bp + sizeof_Header /\ heap_ok s' F' (<[bp := nu]> A) /\ A !! bp = None /\ start <= bp.
Proof.
  intros O Hn Ht Es Hnt Ep Hp. apply elem_of_cons in Ht as [[= -> ->]|Ht]; [lia|].
  destruct (take_block_ok s F A t nt prev nu O Ht Hp Ep ltac:(lia)) as (bp & s' & F' & E & O' & N & L & _).
  rewrite malloc_loop_step, Es, (proj2 (Z.leb_le _ _)) by done. exists (bp + sizeof_Header), s'. split; [done|]. by exists bp, F'.
Qed.

Lemma malloc_loop_ok s F A nu fuel : heap_ok s F A -> 1 <= nu -> room s nu -> (2 * length F + 2 <= fuel)%nat ->
  exists r s', malloc_loop fuel nu (freep s) (hptr s (freep s)) s = Ret r s' /\ malloced s A nu r s'.
Proof.
  intros O Hn R Hf. destruct (malloc_scan s F A nu O) as (len & prev & t & Hl & Run & H).
  replace fuel with (len + (fuel - len))%nat by lia. rewrite Run. destruct H as [(nt & Ht & Es & Hnt & Ep & Hp)|(-> & Es & Sm)].
  { destruct (malloc_found s F A nu (fuel - len) prev t nt) as (r & s' & E & H); try done. exists r, s'. split; [done|by right]. }
  rewrite malloc_loop_step, (proj2 (Z.leb_gt _ _)), Z.eqb_refl by done. cbv zeta.
  destruct (morecore_ok s F A nu O Hn R) as (r & s1 & E & [(-> & -> & Eb)|(-> & Nz & F1 & O1 & L1 & a & m & Ha & Hm)]).
  { munfold. rewrite E. simpl. eexists _, _. split; [done|]. left. eauto. }
  munfold. rewrite E. rewrite (proj2 (Z.eqb_neq _ _)) by done. destruct (fuel - len)%nat as [|fuel'] eqn:Ef; [lia|]. simpl.
  destruct (malloc_scan s1 F1 A nu O1) as (len1 & prev1 & t1 & Hl1 & Run1 & H).
  replace fuel' with (len1 + (fuel' - len1))%nat by lia. rewrite Run1.
  destruct H as [(nt & Ht & Es1 & Hnt & Ep & Hp)|(_ & _ & Sm1)]; [|specialize (Sm1 a m Ha); lia].
  destruct (malloc_found s1 F1 A nu (fuel' - len1) prev1 t1 nt) as (r & s' & E' & H); try done. exists r, s'. split; [done|by right].
Qed.

(** Before the first call, and after it. *)
Definition heap_ready (s : uheap) (A : gmap Z Z) : Prop :=
  s = UHeap ∅ 0 start /\ A = ∅ \/ exists F, heap_ok s F A.

Lemma freep_nonzero s F A : heap_ok s F A -> freep s ≠ 0.
Proof.
  intros O X. assert (Y := hk_freep _ _ _ O). rewrite X in Y. apply elem_of_cons in Y as [Y|([c k] & Y & Hk)%list_elem_of_fmap]; [lia|].
  destruct (spread_bounds _ _ _ _ _ (hk_spread _ _ _ O) Hk). simpl in Y. unfold sizeof_Header in *. lia.
Qed.

Lemma heap_first : start < 2 ^ 32 -> heap_ok (UHeap {[base := (base, 0)]} base start) [] ∅.
Proof.
  intros Hs. split; simpl; try done; try (intros; by rewrite lookup_empty in *).
  - split; [|done]. by rewrite lookup_singleton_eq.
  - intros x Hx. lia.
  - left.
Qed.

Lemma malloc_ok s A nbytes : heap_ready s A -> start < 2 ^ 32 -> 1 <= nunits_of nbytes -> room s (nunits_of nbytes) ->
  exists r s', malloc nbytes s = Ret r s' /\ malloced s A (nunits_of nbytes) r s'.
Proof.
  intros [[-> ->]|[F O]] Hs Hn R; unfold malloc.
  - munfold. simpl (freep _). rewrite Z.eqb_refl. unfold set_hptr, set_hsize. munfold. unfold set_hdrs, set_freep. cbn [hdrs freep brk].
    replace (<[base := _]> _) with ({[base := (base, 0)]} : gmap Z (Z * Z)).
    2:{ unfold hptr, hdr. cbn [hdrs]. rewrite lookup_insert_eq. simpl. by rewrite insert_insert_eq. }
    assert (O := heap_first Hs).
    apply (malloc_loop_ok _ [] ∅ (nunits_of nbytes) _ O Hn R). simpl. lia.
  - munfold. rewrite (proj2 (Z.eqb_neq _ _)) by (by eapply freep_nonzero). apply (malloc_loop_ok _ F A _ _ O Hn R).
    assert (X := chain_dom _ _ _ (hk_chain _ _ _ O)). simpl in X.
    assert (ND := sorted_nodup _ (spread_sorted _ _ _ (hk_spread _ _ _ O) base ltac:(unfold sizeof_Header in *; lia))).
    specialize (X ND). lia.
Qed.

(** ** Programs *)

(** What a program does with the allocator; [L] are the blocks it holds, with
    the number of bytes it asked for. *)
Inductive uruns : uheap -> gmap Z Z -> Prop :=
  | ur_start : uruns (UHeap ∅ 0 start) ∅
  | ur_malloc s L n r s' : uruns s L -> 0 <= n < 2 ^ 31 -> room s (nunits_of n) -> malloc n s = Ret r s' ->
      uruns s' (if r =? 0 then L else <[r := n]> L)
  | ur_free s L p n s' : uruns s L -> L !! p = Some n -> free p s = Ret tt s' -> uruns s' (delete p L).

(** The blocks that hold [L]. *)
Record holds (L A : gmap Z Z) : Prop := {
  ho_block p n : L !! p = Some n -> A !! (p - sizeof_Header) = Some (nunits_of n) /\ 0 <= n < 2 ^ 31;
  ho_held a m : A !! a = Some m -> is_Some (L !! (a + sizeof_Header))
}.

Lemma nunits_spec n : 0 <= n < 2 ^ 31 -> 1 <= nunits_of n /\ n <= sizeof_Header * (nunits_of n - 1).
Proof. intros Hn. unfold nunits_of, sizeof_Header. mlia. Qed.

Lemma holds_insert L A p n : holds L A -> A !! (p - sizeof_Header) = None -> 0 <= n < 2 ^ 31 ->
  holds (<[p := n]> L) (<[p - sizeof_Header := nunits_of n]> A).
Proof.
  intros [H1 H2] Hn Hr. split.
  - intros q m [[<- <-]|[N Hq]]%lookup_insert_Some; [by rewrite lookup_insert_eq|]. rewrite lookup_insert_ne by lia. by apply H1.
  - intros a m [[<- <-]|[N Ha]]%lookup_insert_Some.
    + replace (p - sizeof_Header + sizeof_Header) with p by lia. by rewrite lookup_insert_eq.
    + rewrite lookup_insert_ne by lia. by eapply H2.
Qed.

Lemma holds_delete L A p : holds L A -> holds (delete p L) (delete (p - sizeof_Header) A).
Proof.
  intros [H1 H2]. split.
  - intros q m [N Hq]%lookup_delete_Some. rewrite lookup_delete_ne by lia. by apply H1.
  - intros a m [N Ha]%lookup_delete_Some. rewrite lookup_delete_ne by lia. by eapply H2.
Qed.

Lemma uruns_inv s L : start < 2 ^ 32 -> uruns s L -> exists A, heap_ready s A /\ holds L A.
Proof.
  intros Hs. induction 1 as [|s L n r s' _ (A & O & H) Hn R E|s L p n s' _ (A & O & H) Hp E].
  - exists ∅. split; [by left|]. split; intros ? ?; by rewrite lookup_empty.
  - destruct (nunits_spec n Hn) as [Hu _]. destruct (malloc_ok s A n O Hs Hu R) as (r' & s1 & E' & M). rewrite E in E'. injection E' as <- <-.
    destruct M as [(-> & _ & F & O')|(bp & F & -> & O' & N & Hb)]; [exists A; split; [right; eauto|done]|].
    rewrite (proj2 (Z.eqb_neq _ _)) by (unfold sizeof_Header in *; lia).
    exists (<[bp := nunits_of n]> A). split; [right; eauto|].
    assert (X := holds_insert L A (bp + sizeof_Header) n H). replace (bp + sizeof_Header - sizeof_Header) with bp in X by lia. by apply X.
  - destruct (ho_block _ _ H _ _ Hp) as [Ha Hn]. destruct O as [[-> ->]|[F O]]; [by rewrite lookup_empty in Ha|].
    destruct (free_ok s F A _ _ O Ha) as (s1 & F' & E' & O' & _). replace (p - sizeof_Header + sizeof_Header) with p in E' by lia.
    rewrite E in E'. injection E' as <-. exists (delete (p - sizeof_Header) A). split; [right; eauto|by apply holds_delete].
Qed.

(** Without held blocks, one free block is all of the heap. *)
Lemma all_free s F : heap_ok s F ∅ -> start < brk s -> exists n, F = [(start, n)] /\ start + sizeof_Header * n = brk s.
Proof.
  intros [Hc Hs _ _ _ Hcov _ _] Hb.
  assert (Cov : forall x, start <= x < brk s -> covered F x).
  { intros x Hx. destruct (Hcov x Hx) as [X|(a & n & Ha & _)]; [done|by rewrite lookup_empty in Ha]. }
  destruct F as [|[a n] F]; [destruct (Cov start) as (? & ? & []%elem_of_nil & _); lia|].
  destruct Hs as (H1 & H2 & H3 & H4).
  assert (After : forall b m, (b, m) ∈ F -> a + sizeof_Header * n < b) by (intros b m Hm; by destruct (spread_bounds _ _ _ _ _ H4 Hm)).
  assert (a = start) as ->.
  { destruct (Cov start) as (b & m & [[= -> ->]|Hm]%elem_of_cons & Hx); [lia|unfold inside in Hx; lia|].
    specialize (After b m Hm). unfold inside, sizeof_Header in *. lia. }
  assert (En : start + sizeof_Header * n = brk s).
  { destruct (decide (start + sizeof_Header * n < brk s)) as [L|L]; [|lia].
    destruct (Cov (start + sizeof_Header * n)) as (b & m & [[= -> ->]|Hm]%elem_of_cons & Hx); [unfold sizeof_Header in *; lia|unfold inside in Hx; lia|].
    specialize (After b m Hm). unfold inside in Hx. lia. }
  exists n. split; [|done]. destruct F as [|[b m] F]; [done|]. assert (X := After b m ltac:(left)). destruct H4 as (_ & Hm & Hx & _).
  unfold sizeof_Header in *. lia.
Qed.


(** A request near the largest number wraps around: it gets a block without
    room. *)
Theorem malloc_wraps : nunits_of (2 ^ 32 - 1) = 1.
Proof. reflexivity. Qed.
End umalloc.

(** ** A program *)

(** The system call of the kernel, for an increment that is not negative. *)
Definition kernel_sbrk (b n : Z) : option Z := if 0 <=? n then Some (u32 (b + n)) else None.

Definition after {A} (m : M uheap A) (s : uheap) : uheap := match m s with Ret _ s' => s' | _ => s end.
Definition demo_heap0 : uheap := UHeap ∅ 0 0x2000.
Definition demo_heap1 : uheap := after (malloc 0x1000 kernel_sbrk 10) demo_heap0.
Definition demo_heap2 : uheap := after (malloc 0x1000 kernel_sbrk 100) demo_heap1.
Definition demo_heap3 : uheap := after (free 40944) demo_heap2.

Lemma demo_run : uruns 0x1000 kernel_sbrk 0x2000 demo_heap3 {[40832 := 100]}.
Proof.
  assert (E1 : malloc 0x1000 kernel_sbrk 10 demo_heap0 = Ret 40944 demo_heap1) by (vm_compute; reflexivity).
  assert (E2 : malloc 0x1000 kernel_sbrk 100 demo_heap1 = Ret 40832 demo_heap2) by (vm_compute; reflexivity).
  assert (E3 : free 40944 demo_heap2 = Ret tt demo_heap3) by (vm_compute; reflexivity).
  assert (R1 : uruns 0x1000 kernel_sbrk 0x2000 demo_heap1 (if 40944 =? 0 then ∅ else <[40944 := 10]> ∅)).
  { apply (ur_malloc 0x1000 kernel_sbrk 0x2000 demo_heap0 ∅ 10 40944 demo_heap1); [constructor|lia|split; vm_compute; reflexivity|exact E1]. }
  change (40944 =? 0) with false in R1. cbv iota in R1.
  assert (R2 : uruns 0x1000 kernel_sbrk 0x2000 demo_heap2 (if 40832 =? 0 then <[40944 := 10]> ∅ else <[40832 := 100]> (<[40944 := 10]> ∅))).
  { apply (ur_malloc 0x1000 kernel_sbrk 0x2000 demo_heap1 _ 100 40832 demo_heap2); [exact R1|lia|split; vm_compute; reflexivity|exact E2]. }
  change (40832 =? 0) with false in R2. cbv iota in R2.
  assert (R3 := ur_free 0x1000 kernel_sbrk 0x2000 demo_heap2 _ 40944 10 demo_heap3 R2 eq_refl E3).
  replace ({[40832 := 100]} : gmap Z Z) with (delete 40944 (<[40832 := 100]> (<[40944 := 10]> (∅ : gmap Z Z)))) by (vm_compute; reflexivity).
  exact R3.
Qed.

