(* ===== verification/SleepLock.v ===== *)
(** * Sleep locks (sleeplock.c)

    The lock itself and its operations as seen by the process that runs
    them.  The spin lock [lk->lk] only makes each operation atomic; the
    debugging [name] is not kept. *)

From S2P Require Import Prelude.

Record sleeplock := SleepLock {
  locked : bool;   (* is the lock held? *)
  pid : Z          (* process holding the lock *)
}.

Definition initsleeplock : sleeplock := SleepLock false 0.

(** [acquiresleep] by process [me]: [None] when the caller goes to sleep
    because the lock is held. *)
Definition acquiresleep (me : Z) (lk : sleeplock) : option sleeplock :=
  if locked lk then None else Some (SleepLock true me).

Definition releasesleep (lk : sleeplock) : sleeplock := SleepLock false 0.

Definition holdingsleep (me : Z) (lk : sleeplock) : bool :=
  locked lk && (pid lk =? me).

Lemma holdingsleep_true me lk :
  holdingsleep me lk = true <-> lk = SleepLock true me.
Proof.
  destruct lk as [[] p]; unfold holdingsleep; simpl; split; intros H;
    try done; [apply Z.eqb_eq in H; by subst | injection H as ->; apply Z.eqb_refl].
Qed.
