(* ===== verification/Layout.v ===== *)
(** * On-disk layout (fs.h): how structures are laid out in blocks

    Words are little-endian.  A structure is read from and written to a
    block at a byte offset; reading back what was written gives the same
    structure, and bytes outside the structure do not change. *)

From S2P Require Import Prelude Param.

(** ** Words in blocks *)

Definition get32 (d : block) (off : Z) : Z := le_word (slice d off 4).
Definition put32 (d : block) (off x : Z) : block := blit d off (le_bytes 4 x).
Definition get16 (d : block) (off : Z) : Z := le_word (slice d off 2).
Definition put16 (d : block) (off x : Z) : block := blit d off (le_bytes 2 x).

(** Fields of type [int] and [short]. *)
Definition geti32 (d : block) (off : Z) : Z := s32 (get32 d off).
Definition geti16 (d : block) (off : Z) : Z := s16 (get16 d off).

Lemma blit_block d off src :
  is_block d -> 0 <= off -> off + zlen src <= BSIZE -> Forall is_u8 src -> is_block (blit d off src).
Proof.
  intros [Hl Hd] Ho Hs Hsrc. split; [rewrite zlen_blit; lia|].
  unfold blit. apply Forall_app; split; [by apply Forall_take|].
  apply Forall_app; split; [done | by apply Forall_drop].
Qed.

Lemma put32_block d off x : is_block d -> 0 <= off -> off + 4 <= BSIZE -> is_block (put32 d off x).
Proof. intros. apply blit_block; try done. apply le_bytes_u8. Qed.

Lemma put16_block d off x : is_block d -> 0 <= off -> off + 2 <= BSIZE -> is_block (put16 d off x).
Proof. intros. apply blit_block; try done. apply le_bytes_u8. Qed.

Lemma zlen_put32 d off x : 0 <= off -> off + 4 <= zlen d -> zlen (put32 d off x) = zlen d.
Proof. intros. apply zlen_blit; rewrite ?zlen_le_bytes; lia. Qed.

Lemma get32_put32 d off x : 0 <= off -> off + 4 <= zlen d -> get32 (put32 d off x) off = u32 x.
Proof.
  intros. unfold get32, put32.
  change 4 with (zlen (le_bytes 4 x)). rewrite slice_blit by (rewrite ?zlen_le_bytes; lia).
  rewrite le_word_bytes. done.
Qed.

Lemma get16_put16 d off x : 0 <= off -> off + 2 <= zlen d -> get16 (put16 d off x) off = u16 x.
Proof.
  intros. unfold get16, put16.
  change 2 with (zlen (le_bytes 2 x)). rewrite slice_blit by (rewrite ?zlen_le_bytes; lia).
  rewrite le_word_bytes. done.
Qed.

(** Reading a word from a part of the block that was not written. *)
Lemma get32_blit_ne d off src off' :
  0 <= off -> off + zlen src <= zlen d -> 0 <= off' -> off' + 4 <= zlen d ->
  off' + 4 <= off \/ off + zlen src <= off' ->
  get32 (blit d off src) off' = get32 d off'.
Proof. intros. unfold get32. rewrite slice_blit_ne by (done || lia). done. Qed.

Lemma get16_blit_ne d off src off' :
  0 <= off -> off + zlen src <= zlen d -> 0 <= off' -> off' + 2 <= zlen d ->
  off' + 2 <= off \/ off + zlen src <= off' ->
  get16 (blit d off src) off' = get16 d off'.
Proof. intros. unfold get16. rewrite slice_blit_ne by (done || lia). done. Qed.

Lemma get32_put32_ne d off x off' :
  0 <= off -> off + 4 <= zlen d -> 0 <= off' -> off' + 4 <= zlen d ->
  off' + 4 <= off \/ off + 4 <= off' ->
  get32 (put32 d off x) off' = get32 d off'.
Proof. intros. apply get32_blit_ne; rewrite ?zlen_le_bytes; lia. Qed.

Lemma slice_u8 d off n : Forall is_u8 d -> Forall is_u8 (slice d off n).
Proof. intros. unfold slice. by apply Forall_take, Forall_drop. Qed.

Lemma get32_range d off : is_block d -> 0 <= off -> off + 4 <= BSIZE -> is_u32 (get32 d off).
Proof.
  intros [Hl Hd] Ho He. unfold get32.
  assert (R := le_word_range (slice d off 4) (slice_u8 _ _ _ Hd)).
  rewrite length_slice in R by lia. done.
Qed.

Lemma get16_range d off : is_block d -> 0 <= off -> off + 2 <= BSIZE -> is_u16 (get16 d off).
Proof.
  intros [Hl Hd] Ho He. unfold get16.
  assert (R := le_word_range (slice d off 2) (slice_u8 _ _ _ Hd)).
  rewrite length_slice in R by lia. done.
Qed.

Lemma s16_u16 x : is_s16 x -> s16 (u16 x) = x.
Proof. mlia. Qed.

Lemma le_word_zeros n : le_word (replicate n 0) = 0.
Proof. induction n as [|n IH]; simpl; [done|]. by rewrite IH. Qed.

Lemma get32_zero off : get32 zero_block off = 0.
Proof.
  unfold get32, slice, zero_block. rewrite drop_replicate, take_replicate. apply le_word_zeros.
Qed.

(** ** The super block *)

Record superblock := Superblock {
  sb_size : Z;
  sb_nblocks : Z;
  sb_ninodes : Z;
  sb_nlog : Z;
  sb_logstart : Z;
  sb_inodestart : Z;
  sb_bmapstart : Z
}.

(** [memmove(sb, bp->data, sizeof *sb)]. *)
Definition read_superblock (d : block) : superblock :=
  Superblock (get32 d 0) (get32 d 4) (get32 d 8) (get32 d 12)
             (get32 d 16) (get32 d 20) (get32 d 24).

(** ** On-disk inodes *)

Record dinode := Dinode {
  d_type : Z;
  d_major : Z;
  d_minor : Z;
  d_nlink : Z;
  d_size : Z;
  d_addrs : list Z
}.

Definition sizeof_dinode : Z := 64.
Definition IPB : Z := BSIZE / sizeof_dinode.
Definition BPB : Z := BSIZE * 8.
Definition IBLOCK (i : Z) (sb : superblock) : Z := u32 (i / IPB + sb_inodestart sb).
Definition BBLOCK (b : Z) (sb : superblock) : Z := u32 (b / BPB + sb_bmapstart sb).

Definition encode_dinode (di : dinode) : list Z :=
  le_bytes 2 (d_type di) ++ le_bytes 2 (d_major di) ++ le_bytes 2 (d_minor di) ++
  le_bytes 2 (d_nlink di) ++ le_bytes 4 (d_size di) ++ mjoin (le_bytes 4 <$> d_addrs di).

Definition decode_dinode (bs : list Z) : dinode :=
  Dinode (s16 (le_word (slice bs 0 2))) (s16 (le_word (slice bs 2 2)))
         (s16 (le_word (slice bs 4 2))) (s16 (le_word (slice bs 6 2)))
         (le_word (slice bs 8 4))
         ((fun k => le_word (slice bs (12 + 4 * k) 4)) <$> seqZ 0 (NDIRECT + 1)).

(** The inode structure at byte [off] of a block. *)
Definition get_dinode (d : block) (off : Z) : dinode := decode_dinode (slice d off sizeof_dinode).
Definition put_dinode (d : block) (off : Z) (di : dinode) : block := blit d off (encode_dinode di).

Record dinode_wf (di : dinode) : Prop := {
  dw_type : is_s16 (d_type di);
  dw_major : is_s16 (d_major di);
  dw_minor : is_s16 (d_minor di);
  dw_nlink : is_s16 (d_nlink di);
  dw_size : is_u32 (d_size di);
  dw_addrs : zlen (d_addrs di) = NDIRECT + 1;
  dw_addr : Forall is_u32 (d_addrs di)
}.

Lemma s16_le_word x : is_s16 x -> s16 (le_word (le_bytes 2 x)) = x.
Proof. intros H. rewrite le_word_bytes. fold (u16 x). change (256 ^ Z.of_nat 2) with (2 ^ 16). by apply s16_u16. Qed.

Lemma list_13 {A} (l : list A) : zlen l = NDIRECT + 1 ->
  exists a b c d e f g h i j k m n, l = [a; b; c; d; e; f; g; h; i; j; k; m; n].
Proof.
  unfold zlen, NDIRECT. intros H.
  do 13 (destruct l as [|? l]; [simpl in H; lia|]). destruct l; [|simpl in H; lia].
  by repeat eexists.
Qed.

Lemma decode_encode_dinode di : dinode_wf di -> decode_dinode (encode_dinode di) = di.
Proof.
  intros [Ht Hma Hmi Hn Hs Hl Ha]. destruct di as [t ma mi n s l]. simpl in *.
  destruct (list_13 l Hl) as (a1&a2&a3&a4&a5&a6&a7&a8&a9&a10&a11&a12&a13&->).
  unfold decode_dinode.
  change (Dinode (s16 (le_word (le_bytes 2 t))) (s16 (le_word (le_bytes 2 ma)))
    (s16 (le_word (le_bytes 2 mi))) (s16 (le_word (le_bytes 2 n))) (le_word (le_bytes 4 s))
    ((fun x => le_word (le_bytes 4 x)) <$> [a1;a2;a3;a4;a5;a6;a7;a8;a9;a10;a11;a12;a13]) =
    Dinode t ma mi n s [a1;a2;a3;a4;a5;a6;a7;a8;a9;a10;a11;a12;a13]).
  rewrite !s16_le_word, le_word_bytes_u32 by done. f_equal.
  etransitivity; [|apply list_fmap_id]. apply list_fmap_ext. intros i x Hx.
  apply le_word_bytes_u32. by eapply Forall_lookup_1 in Ha.
Qed.

Lemma zlen_encode_dinode di : zlen (d_addrs di) = NDIRECT + 1 -> zlen (encode_dinode di) = sizeof_dinode.
Proof.
  intros H. destruct di as [t ma mi n s l]. simpl in *.
  by destruct (list_13 l H) as (a1&a2&a3&a4&a5&a6&a7&a8&a9&a10&a11&a12&a13&->).
Qed.

Lemma encode_dinode_u8 di : Forall is_u8 (encode_dinode di).
Proof.
  unfold encode_dinode. repeat (apply Forall_app_2; [apply le_bytes_u8|]).
  apply Forall_join. apply Forall_fmap, Forall_true. intros x. apply le_bytes_u8.
Qed.

Lemma get_put_dinode d off di :
  dinode_wf di -> 0 <= off -> off + sizeof_dinode <= zlen d ->
  get_dinode (put_dinode d off di) off = di.
Proof.
  intros W Ho Hd. unfold get_dinode, put_dinode. rewrite <- (zlen_encode_dinode di) by apply W.
  rewrite slice_blit; [by apply decode_encode_dinode|done|]. by rewrite zlen_encode_dinode by apply W.
Qed.

Lemma get_put_dinode_ne d off off' di :
  dinode_wf di -> 0 <= off -> off + sizeof_dinode <= zlen d ->
  0 <= off' -> off' + sizeof_dinode <= zlen d ->
  off' + sizeof_dinode <= off \/ off + sizeof_dinode <= off' ->
  get_dinode (put_dinode d off di) off' = get_dinode d off'.
Proof.
  intros W Ho Hd Ho' Hd' Hne. assert (E := zlen_encode_dinode di (dw_addrs _ W)).
  unfold get_dinode, put_dinode. rewrite slice_blit_ne; try done; rewrite ?E; done || lia.
Qed.

Lemma put_dinode_block d off di :
  dinode_wf di -> is_block d -> 0 <= off -> off + sizeof_dinode <= BSIZE -> is_block (put_dinode d off di).
Proof.
  intros W B Ho Hd. apply blit_block; auto using encode_dinode_u8.
  by rewrite zlen_encode_dinode by apply W.
Qed.

Lemma le_word_slice_u32 bs off : Forall is_u8 bs -> is_u32 (le_word (slice bs off 4)).
Proof.
  intros F. assert (R := le_word_range _ (slice_u8 bs off 4 F)).
  assert (L : (length (slice bs off 4) <= 4)%nat) by (unfold slice; rewrite length_take; lia).
  assert (256 ^ Z.of_nat (length (slice bs off 4)) <= 256 ^ 4) by (apply Z.pow_le_mono_r; lia).
  unfold is_u32. change (2 ^ 32) with (256 ^ 4). lia.
Qed.

(** What is read from a block is a well-formed inode structure. *)
Lemma decode_dinode_wf bs : Forall is_u8 bs -> dinode_wf (decode_dinode bs).
Proof.
  intros F. split; simpl; auto with xv6.
  - by apply le_word_slice_u32.
  - repeat (apply Forall_cons_2; [by apply le_word_slice_u32|]). apply Forall_nil_2.
Qed.

(** ** Directory entries *)

Record dirent := Dirent {
  de_inum : Z;
  de_name : list Z
}.

Definition sizeof_dirent : Z := 16.

Definition encode_dirent (de : dirent) : list Z := le_bytes 2 (de_inum de) ++ de_name de.
Definition decode_dirent (bs : list Z) : dirent := Dirent (le_word (slice bs 0 2)) (slice bs 2 DIRSIZ).

Definition dirent_wf (de : dirent) : Prop :=
  is_u16 (de_inum de) /\ zlen (de_name de) = DIRSIZ /\ Forall is_u8 (de_name de).

Lemma decode_encode_dirent de : dirent_wf de -> decode_dirent (encode_dirent de) = de.
Proof.
  intros (Hi & Hl & _). destruct de as [i n]. simpl in *. unfold decode_dirent, encode_dirent. simpl.
  f_equal; [by apply le_word_bytes_u16|]. unfold slice. simpl. apply take_ge.
  unfold zlen, DIRSIZ in *. lia.
Qed.

Lemma zlen_encode_dirent de : zlen (de_name de) = DIRSIZ -> zlen (encode_dirent de) = sizeof_dirent.
Proof. unfold zlen, encode_dirent, DIRSIZ, sizeof_dirent. rewrite length_app. simpl. lia. Qed.

Lemma encode_dirent_u8 de : Forall is_u8 (de_name de) -> Forall is_u8 (encode_dirent de).
Proof. intros. apply Forall_app_2; [apply le_bytes_u8|done]. Qed.
