(* ===== verification/Bio.v ===== *)
(** * The buffer cache (bio.c) over the memory disk (memide.c) *)

From S2P Require Import Prelude Param SleepLock.

(** ** State *)

Record buf := Buf {
  flags : Z;
  dev : Z;
  blockno : Z;
  lock : sleeplock;
  refcnt : Z;
  data : block
}.

(** The disk driver of memide.c keeps the disk image in memory.  [wlog] is
    the history of the block writes that reached the disk, oldest first; it
    is not part of the program and is never read by it. *)
Record disk := Disk {
  image : list block;
  wlog : list (Z * block)
}.

(** [bcache.buf[i]] is the [i]-th element of [bcbuf].  The links of buffer
    [i] are [bcprev[i]] and [bcnext[i]]; index [NBUF] is [bcache.head].
    [me] is the pid of the running process. *)
Record bcache := Bcache {
  bcbuf : list buf;
  bcprev : list nat;
  bcnext : list nat;
  ide : disk;
  me : Z
}.

Definition head : nat := NBUF.

Definition set_bcbuf f s := Bcache (f (bcbuf s)) (bcprev s) (bcnext s) (ide s) (me s).
Definition set_bcprev f s := Bcache (bcbuf s) (f (bcprev s)) (bcnext s) (ide s) (me s).
Definition set_bcnext f s := Bcache (bcbuf s) (bcprev s) (f (bcnext s)) (ide s) (me s).
Definition set_ide d s := Bcache (bcbuf s) (bcprev s) (bcnext s) d (me s).

Definition set_flags v b := Buf v (dev b) (blockno b) (lock b) (refcnt b) (data b).
Definition set_lock v b := Buf (flags b) (dev b) (blockno b) v (refcnt b) (data b).
Definition set_refcnt v b := Buf (flags b) (dev b) (blockno b) (lock b) v (data b).
Definition set_data v b := Buf (flags b) (dev b) (blockno b) (lock b) (refcnt b) v.

(** A buffer that was never used: the cache starts zeroed (BSS). *)
Definition buf0 : buf := Buf 0 0 0 initsleeplock 0 zero_block.

Definition bufat (s : bcache) (i : nat) : buf := default buf0 (bcbuf s !! i).
Definition nextof (s : bcache) (i : nat) : nat := default head (bcnext s !! i).
Definition prevof (s : bcache) (i : nat) : nat := default head (bcprev s !! i).

Definition set_buf (i : nat) (f : buf -> buf) (s : bcache) : bcache :=
  set_bcbuf (fun l => <[i := f (bufat s i)]> l) s.
Definition set_next (i v : nat) (s : bcache) : bcache :=
  set_bcnext (fun l => <[i := v]> l) s.
Definition set_prev (i v : nat) (s : bcache) : bcache :=
  set_bcprev (fun l => <[i := v]> l) s.

(** ** binit: the list of all buffers, linked through prev/next *)

Definition binit_link (b : nat) (s : bcache) : bcache :=
  let s := set_next b (nextof s head) s in
  let s := set_prev b head s in
  let s := set_buf b (set_lock initsleeplock) s in
  let s := set_prev (nextof s head) b s in
  set_next head b s.

Definition binit (s : bcache) : bcache :=
  let s := set_prev head head s in
  let s := set_next head head s in
  fold_left (fun s b => binit_link b s) (seq 0 NBUF) s.

(** ** The disk driver: memide.c *)

Definition disksize (d : disk) : Z := zlen (image d).

Definition disk_read (d : disk) (b : Z) : block := rd zero_block (image d) b.

Definition disk_write (d : disk) (b : Z) (x : block) : disk :=
  Disk (wr (image d) b x) (wlog d ++ [(b, x)]).

(** [iderw] synchronises buffer [i] with the disk. *)
Definition iderw (i : nat) : M bcache unit := fun s =>
  let b := bufat s i in
  if negb (holdingsleep (me s) (lock b)) then Panic "iderw: buf not locked"
  else if Z.land (flags b) (Z.lor B_VALID B_DIRTY) =? B_VALID then Panic "iderw: nothing to do"
  else if negb (dev b =? 1) then Panic "iderw: request not for disk 1"
  else if disksize (ide s) <=? blockno b then Panic "iderw: block out of range"
  else
    let s1 :=
      if negb (Z.land (flags b) B_DIRTY =? 0)
      then set_ide (disk_write (ide s) (blockno b) (data b))
             (set_buf i (fun b => set_flags (Z.land (flags b) (Z.lnot B_DIRTY)) b) s)
      else set_buf i (set_data (disk_read (ide s) (blockno b))) s in
    Ret tt (set_buf i (fun b => set_flags (Z.lor (flags b) B_VALID) b) s1).

(** ** bget, bread, bwrite, brelse *)

(** The two scans of [bget] follow the links from the list head; [fuel]
    bounds the number of buffers visited. *)
Fixpoint scan (link : nat -> nat) (test : nat -> bool) (fuel : nat) (b : nat)
  : option (option nat) :=
  match fuel with
  | O => None
  | S fuel' =>
      if decide (b = head) then Some None
      else if test b then Some (Some b)
      else scan link test fuel' (link b)
  end.

Definition acquire_buf (b : nat) : M bcache unit := fun s =>
  match acquiresleep (me s) (lock (bufat s b)) with
  | Some lk => Ret tt (set_buf b (set_lock lk) s)
  | None => Blocked
  end.

Definition bget (dev' blockno' : Z) : M bcache nat := fun s =>
  let hit b := (dev (bufat s b) =? dev') && (blockno (bufat s b) =? blockno') in
  let free b := (refcnt (bufat s b) =? 0) && (Z.land (flags (bufat s b)) B_DIRTY =? 0) in
  match scan (nextof s) hit (S NBUF) (nextof s head) with
  | None => OutOfFuel
  | Some (Some b) =>
      (modify (set_buf b (fun x => set_refcnt (u32 (refcnt x + 1)) x));;
       acquire_buf b;; mret b) s
  | Some None =>
      match scan (prevof s) free (S NBUF) (prevof s head) with
      | None => OutOfFuel
      | Some (Some b) =>
          (modify (set_buf b (fun x => Buf 0 dev' blockno' (lock x) 1 (data x)));;
           acquire_buf b;; mret b) s
      | Some None => Panic "bget: no buffers"
      end
  end.

Definition bread (dev' blockno' : Z) : M bcache nat :=
  b ← bget dev' blockno';
  s ← get;
  (if Z.land (flags (bufat s b)) B_VALID =? 0 then iderw b else mret tt);;
  mret b.

Definition bwrite (b : nat) : M bcache unit :=
  s ← get;
  if negb (holdingsleep (me s) (lock (bufat s b))) then panic "bwrite"
  else
    modify (set_buf b (fun x => set_flags (Z.lor (flags x) B_DIRTY) x));;
    iderw b.

(** Move buffer [b] to the head of the most-recently-used list. *)
Definition relink (b : nat) (s : bcache) : bcache :=
  let s := set_prev (nextof s b) (prevof s b) s in
  let s := set_next (prevof s b) (nextof s b) s in
  let s := set_next b (nextof s head) s in
  let s := set_prev b head s in
  let s := set_prev (nextof s head) b s in
  set_next head b s.

Definition brelse (b : nat) : M bcache unit :=
  s ← get;
  if negb (holdingsleep (me s) (lock (bufat s b))) then panic "brelse"
  else
    modify (set_buf b (fun x => set_lock (releasesleep (lock x)) x));;
    modify (set_buf b (fun x => set_refcnt (u32 (refcnt x - 1)) x));;
    s ← get;
    if refcnt (bufat s b) =? 0 then modify (relink b) else mret tt.

(** ** Field accesses after updates *)

Create Rewrite HintDb bio.

Lemma bufat_set_buf i f s j :
  (i < length (bcbuf s))%nat ->
  bufat (set_buf i f s) j = if decide (i = j) then f (bufat s i) else bufat s j.
Proof.
  intros. unfold bufat at 1, set_buf, set_bcbuf. simpl.
  case_decide; subst.
  - by rewrite list_lookup_insert_eq.
  - by rewrite list_lookup_insert_ne.
Qed.

Lemma nextof_set_next i v s j :
  (i < length (bcnext s))%nat ->
  nextof (set_next i v s) j = if decide (i = j) then v else nextof s j.
Proof.
  intros. unfold nextof, set_next, set_bcnext. simpl. case_decide; subst.
  - by rewrite list_lookup_insert_eq.
  - by rewrite list_lookup_insert_ne.
Qed.

Lemma prevof_set_prev i v s j :
  (i < length (bcprev s))%nat ->
  prevof (set_prev i v s) j = if decide (i = j) then v else prevof s j.
Proof.
  intros. unfold prevof, set_prev, set_bcprev. simpl. case_decide; subst.
  - by rewrite list_lookup_insert_eq.
  - by rewrite list_lookup_insert_ne.
Qed.

Lemma length_bcbuf_set i f s : length (bcbuf (set_buf i f s)) = length (bcbuf s).
Proof. apply length_insert. Qed.
Lemma length_bcnext_set i v s : length (bcnext (set_next i v s)) = length (bcnext s).
Proof. apply length_insert. Qed.
Lemma length_bcprev_set i v s : length (bcprev (set_prev i v s)) = length (bcprev s).
Proof. apply length_insert. Qed.

#[export] Hint Rewrite length_bcbuf_set length_bcnext_set length_bcprev_set : bio.

(** ** The linked list of buffers

    [walk f p l q]: following the link [f] from [p] visits exactly the nodes
    [l], in order, and then reaches [q]. *)
Fixpoint walk (f : nat -> nat) (p : nat) (l : list nat) (q : nat) : Prop :=
  match l with
  | [] => f p = q
  | x :: l' => f p = x /\ walk f x l' q
  end.

(** [linked s p l q]: the nodes [p], [l], [q] are doubly linked in this
    order. *)
Fixpoint linked (s : bcache) (p : nat) (l : list nat) (q : nat) : Prop :=
  match l with
  | [] => nextof s p = q /\ prevof s q = p
  | x :: l' => nextof s p = x /\ prevof s x = p /\ linked s x l' q
  end.

(** The circular list through [bcache.head] holds the nodes [l] in
    most-recently-used order. *)
Definition dll (s : bcache) (l : list nat) : Prop := linked s head l head.

Lemma walk_app f p l1 x l2 q :
  walk f p (l1 ++ x :: l2) q <-> walk f p l1 x /\ walk f x l2 q.
Proof. revert p. induction l1 as [|y l1 IH]; intros p; simpl; [done|]. rewrite IH. tauto. Qed.

Lemma linked_next s p l q : linked s p l q -> walk (nextof s) p l q.
Proof. revert p. induction l; simpl; naive_solver. Qed.

Lemma linked_prev s p l q : linked s p l q -> walk (prevof s) q (rev l) p.
Proof.
  revert p. induction l as [|x l IH]; intros p; simpl; [naive_solver|].
  intros (_ & Hx & H). apply walk_app. split; [by apply IH | done].
Qed.

Lemma linked_app s p l1 x l2 q :
  linked s p (l1 ++ x :: l2) q <-> linked s p l1 x /\ linked s x l2 q.
Proof. revert p. induction l1 as [|y l1 IH]; intros p; simpl; [tauto|]. rewrite IH. tauto. Qed.

Lemma linked_ext s s' p l q :
  (forall x, x = p \/ x ∈ l -> nextof s' x = nextof s x) ->
  (forall x, x = q \/ x ∈ l -> prevof s' x = prevof s x) ->
  linked s p l q -> linked s' p l q.
Proof.
  revert p. induction l as [|y l IH]; intros p En Ep; simpl.
  - intros [<- Hp]. rewrite (En p), (Ep (nextof s p)) by (by left). done.
  - intros (<- & Hp & H). rewrite (En p) by (by left). rewrite Ep by (right; left).
    do 2 (split; [done|]). apply IH; [| |done]; intros x [->|Hx].
    + apply En. right; left.
    + apply En. right; by right.
    + apply Ep. by left.
    + apply Ep. right; by right.
Qed.

Lemma linked_prevof s p l q : linked s p l q -> prevof s q = p \/ prevof s q ∈ l.
Proof.
  revert p. induction l as [|x l IH]; intros p; simpl; [naive_solver|].
  intros (_ & _ & H). right. destruct (IH _ H) as [-> | ?]; set_solver.
Qed.

Lemma linked_nextof s p l q : linked s p l q -> nextof s p = q \/ nextof s p ∈ l.
Proof. destruct l; simpl; [naive_solver|]. intros (-> & _). set_solver. Qed.

Definition unlink (b : nat) (s : bcache) : bcache :=
  let s := set_prev (nextof s b) (prevof s b) s in
  set_next (prevof s b) (nextof s b) s.

Definition in_range (s : bcache) : Prop :=
  length (bcbuf s) = NBUF /\ length (bcnext s) = S NBUF /\ length (bcprev s) = S NBUF.

Definition node (x : nat) : Prop := (x < S NBUF)%nat.

(** What [unlink] does to the links. *)
Lemma unlink_links b s n p :
  in_range s -> node n -> node p -> nextof s b = n -> prevof s b = p -> n ≠ b ->
  (forall x, nextof (unlink b s) x = if decide (p = x) then n else nextof s x) /\
  (forall x, prevof (unlink b s) x = if decide (n = x) then p else prevof s x).
Proof.
  unfold in_range, node. intros (_ & Ln & Lp) Hn Hp En Ep Hnb. unfold unlink.
  rewrite En, Ep. rewrite prevof_set_prev by lia. rewrite decide_False by done.
  change (nextof (set_prev n p s)) with (nextof s). rewrite Ep, En. split; intros x.
  - rewrite nextof_set_next by (simpl; lia). done.
  - change (prevof (set_next p n (set_prev n p s)) x) with (prevof (set_prev n p s) x).
    rewrite prevof_set_prev by lia. done.
Qed.

Lemma linked_unlink s b p l1 l2 q :
  in_range s -> node q -> node p -> Forall node (l1 ++ b :: l2) ->
  NoDup (p :: l1 ++ b :: l2) -> q ∉ l1 ++ b :: l2 ->
  linked s p (l1 ++ b :: l2) q -> linked (unlink b s) p (l1 ++ l2) q.
Proof.
  intros Hr Hq. revert p. induction l1 as [|x l1 IH]; intros p Hp Hnode Hnd Hnq Hl.
  - simpl in *. destruct Hl as (Hpb & Hbp & Hl).
    apply NoDup_cons in Hnd as [Hpl Hnd]. apply NoDup_cons in Hnd as [Hbl Hnd].
    assert (Hn : nextof s b = q \/ nextof s b ∈ l2) by (by eapply linked_nextof).
    apply not_elem_of_cons in Hnq as [Hqb Hnq].
    destruct (unlink_links b s (nextof s b) p) as [En Ep]; try done.
    { destruct Hn as [-> | Hn]; [done|]. rewrite Forall_forall in Hnode. apply Hnode. set_solver. }
    { destruct Hn as [-> | Hn]; [done|]. intros E. rewrite E in Hn. done. }
    destruct l2 as [|z l2]; simpl in *.
    + destruct Hl as [Hl1 Hl2]. rewrite En, Ep, Hl1, !decide_True by done. done.
    + destruct Hl as (Hbz & Hzb & Hl). rewrite En, Ep, Hbz, !decide_True by done.
      do 2 (split; [done|]). apply (linked_ext s); [| |done].
      * intros y Hy. rewrite En, decide_False; [done|]. set_solver.
      * intros y Hy. rewrite Ep, Hbz, decide_False; [done|].
        apply NoDup_cons in Hnd as [Hz _]. set_solver.
  - simpl in *. destruct Hl as (Hpx & Hxp & Hl).
    apply NoDup_cons in Hnd as [Hpl Hnd]. apply Forall_cons in Hnode as [Hx Hnode].
    assert (Hl' := IH x Hx Hnode Hnd ltac:(set_solver) Hl). split_and!; [| |done].
    all: apply linked_app in Hl as [Hl1 Hl2].
    all: assert (Hb1 := linked_prevof _ _ _ _ Hl1); assert (Hb2 := linked_nextof _ _ _ _ Hl2).
    all: apply NoDup_cons in Hnd as [Hxl Hnd]; apply NoDup_app in Hnd as (Hnd1 & Hnd2 & Hnd3).
    all: apply NoDup_cons in Hnd3 as [Hbl2 Hnd3]; rewrite Forall_forall in Hnode.
    all: destruct (unlink_links b s (nextof s b) (prevof s b)) as [En Ep]; try done;
      [destruct Hb2 as [-> | ?]; [done | apply Hnode; set_solver]
      |destruct Hb1 as [-> | ?]; [done | apply Hnode; set_solver]
      |destruct Hb2 as [-> | ?]; [set_solver | intros E; rewrite E in *; done]
      |].
    + rewrite En, decide_False; [done|]. intros E. apply Hpl. rewrite <- E.
      destruct Hb1 as [-> | ?]; [left | right; apply elem_of_app; by left].
    + rewrite Ep, decide_False; [done|]. intros E. destruct Hb2 as [E' | E'].
      * apply Hnq. rewrite <- E', E. left.
      * apply Hxl. rewrite <- E. apply elem_of_app. right. by right.
Qed.

Definition link_front (b : nat) (s : bcache) : bcache :=
  let s := set_next b (nextof s head) s in
  let s := set_prev b head s in
  let s := set_prev (nextof s head) b s in
  set_next head b s.

Lemma relink_split b s : relink b s = link_front b (unlink b s).
Proof. done. Qed.

Lemma link_front_links b s :
  in_range s -> (b < NBUF)%nat -> node (nextof s head) -> nextof s head ≠ b ->
  (forall x, nextof (link_front b s) x =
     if decide (head = x) then b else if decide (b = x) then nextof s head else nextof s x) /\
  (forall x, prevof (link_front b s) x =
     if decide (nextof s head = x) then b else if decide (b = x) then head else prevof s x).
Proof.
  unfold in_range, node. intros (_ & Ln & Lp) Hb Hn Hnb. unfold link_front.
  change (nextof (set_prev b head (set_next b (nextof s head) s)) head)
    with (nextof (set_next b (nextof s head) s) head).
  rewrite nextof_set_next by lia.
  rewrite decide_False by (unfold head; lia).
  split; intros x.
  - rewrite nextof_set_next by (simpl; rewrite ?length_insert; unfold head in *; lia).
    case_decide; [done|].
    change (nextof (set_prev (nextof s head) b (set_prev b head (set_next b (nextof s head) s))) x)
      with (nextof (set_next b (nextof s head) s) x).
    rewrite nextof_set_next by lia. done.
  - change (prevof (set_next head b (set_prev (nextof s head) b
              (set_prev b head (set_next b (nextof s head) s)))) x)
      with (prevof (set_prev (nextof s head) b (set_prev b head (set_next b (nextof s head) s))) x).
    rewrite prevof_set_prev by (simpl; rewrite ?length_insert; unfold head in *; lia).
    case_decide; [done|].
    rewrite prevof_set_prev by (simpl; lia). done.
Qed.

Lemma dll_link_front s b l :
  in_range s -> (b < NBUF)%nat -> Forall (fun x => x < NBUF)%nat l -> NoDup (b :: l) ->
  dll s l -> dll (link_front b s) (b :: l).
Proof.
  unfold dll. intros Hr Hb Hl Hnd Hd.
  assert (Hnh := linked_nextof _ _ _ _ Hd). rewrite Forall_forall in Hl.
  apply NoDup_cons in Hnd as [Hbl Hnd].
  assert (nextof s head = head \/ (nextof s head < NBUF)%nat)
    by (destruct Hnh; [by left | right; by apply Hl]).
  destruct (link_front_links b s) as [En Ep]; try done.
  { unfold node, head in *. lia. }
  { destruct Hnh as [E|E]; [rewrite E; unfold head; lia | intros E'; by rewrite E' in E]. }
  simpl. split_and!.
  - by rewrite En, decide_True.
  - rewrite Ep. destruct Hnh as [E|E].
    + rewrite E, decide_False by (unfold head; lia). by rewrite decide_True.
    + rewrite decide_False by (intros E'; by rewrite E' in E). by rewrite decide_True.
  - destruct l as [|y l]; simpl in *.
    + destruct Hd as [Hd1 Hd2]. rewrite En, Ep. rewrite decide_False by (unfold head; lia).
      rewrite !decide_True by done. done.
    + destruct Hd as (Hd1 & Hd2 & Hd). rewrite En, Ep, Hd1.
      rewrite decide_False by (unfold head; lia). rewrite !decide_True by done.
      do 2 (split; [done|]).
      assert (y < NBUF)%nat by (apply Hl; left).
      apply NoDup_cons in Hnd as [Hyl _].
      apply (linked_ext s); [| |done].
      * intros x Hx. rewrite En.
        rewrite decide_False by (destruct Hx as [->|Hx];
          [|assert (x < NBUF)%nat by (apply Hl; by right)]; unfold head; lia).
        rewrite decide_False by set_solver. done.
      * intros x Hx. rewrite Ep, Hd1.
        rewrite decide_False by (destruct Hx as [->|Hx]; [unfold head; lia | set_solver]).
        rewrite decide_False by (destruct Hx as [->|Hx]; [unfold head; lia | set_solver]). done.
Qed.

Lemma in_range_unlink b s : in_range s -> in_range (unlink b s).
Proof.
  unfold in_range, unlink. simpl. rewrite !length_insert. done.
Qed.

(** Moving a buffer to the front of the list keeps the list well linked. *)
Lemma dll_relink s b l1 l2 :
  in_range s -> Forall (fun x => x < NBUF)%nat (l1 ++ b :: l2) -> NoDup (l1 ++ b :: l2) ->
  dll s (l1 ++ b :: l2) -> dll (relink b s) (b :: l1 ++ l2).
Proof.
  intros Hr Hl Hnd Hd. rewrite relink_split.
  assert (Hh : head ∉ l1 ++ b :: l2).
  { intros Hin. rewrite Forall_forall in Hl. specialize (Hl _ Hin). unfold head in *. lia. }
  assert (Hp : b :: l1 ++ l2 ≡ₚ l1 ++ b :: l2) by apply Permutation_middle.
  apply dll_link_front.
  - by apply in_range_unlink.
  - rewrite Forall_forall in Hl. apply Hl. set_solver.
  - rewrite <- Hp in Hl. by apply Forall_cons in Hl as [_ ?].
  - by rewrite Hp.
  - apply linked_unlink; try done.
    + unfold node, head. lia.
    + unfold node, head. lia.
    + eapply Forall_impl; [done|]. unfold node. intros. lia.
    + by apply NoDup_cons.
Qed.

(** ** Well-formed caches

    Between operations every buffer is either unused ([flags = 0], device 0)
    or holds a block of disk 1; a buffer is referenced exactly by the process
    that has locked it; no block is cached twice; and the contents of a
    clean, unlocked buffer are those of the disk. *)

Definition used (b : buf) : Prop := dev b = 1.
Definition dirty (b : buf) : Prop := flags b = Z.lor B_VALID B_DIRTY.

Record buf_wf (s : bcache) (b : buf) : Prop := {
  wf_data : is_block (data b);
  wf_ref : refcnt b = if locked (lock b) then 1 else 0;
  wf_owner : locked (lock b) = true -> pid (lock b) = me s;
  wf_state : (flags b = 0 /\ dev b = 0 /\ locked (lock b) = false) \/
             ((flags b = B_VALID \/ dirty b) /\ used b /\ 0 <= blockno b < disksize (ide s));
  wf_clean : flags b = B_VALID -> locked (lock b) = false ->
             data b = disk_read (ide s) (blockno b)
}.

Record bio_wf (s : bcache) : Prop := {
  wf_range : in_range s;
  wf_links : exists l, dll s l /\ l ≡ₚ seq 0 NBUF;
  wf_disk : Forall is_block (image (ide s));
  wf_bufs : forall i, (i < NBUF)%nat -> buf_wf s (bufat s i);
  wf_unique : forall i j, (i < NBUF)%nat -> (j < NBUF)%nat ->
    used (bufat s i) -> used (bufat s j) -> blockno (bufat s i) = blockno (bufat s j) -> i = j
}.

(** ** What the cache promises: a block store with pinned blocks

    [aview b] is the current content of block [b], [adirty] the blocks that
    are modified and must not be evicted, [aheld] the buffers the running
    process has locked with their block numbers. *)
Record store := Store {
  aview : Z -> block;
  adirty : gset Z;
  aheld : gmap nat Z
}.

Definition fupd {A} (f : Z -> A) (b : Z) (x : A) : Z -> A :=
  fun b' => if decide (b = b') then x else f b'.

Lemma fupd_eq {A} (f : Z -> A) b x : fupd f b x b = x.
Proof. unfold fupd. by rewrite decide_True. Qed.
Lemma fupd_ne {A} (f : Z -> A) b b' x : b ≠ b' -> fupd f b x b' = f b'.
Proof. intros. unfold fupd. by rewrite decide_False. Qed.

Definition cached (s : bcache) (b : Z) (i : nat) : Prop :=
  (i < NBUF)%nat /\ used (bufat s i) /\ blockno (bufat s i) = b.

Record bio_rep (s : bcache) (a : store) : Prop := {
  rep_wf : bio_wf s;
  rep_cached : forall b i, cached s b i -> data (bufat s i) = aview a b;
  rep_disk : forall b, 0 <= b < disksize (ide s) ->
    (forall i, ~ cached s b i) -> disk_read (ide s) b = aview a b;
  rep_dirty : forall b, b ∈ adirty a <-> exists i, cached s b i /\ dirty (bufat s i);
  rep_held : forall i b, aheld a !! i = Some b <->
    cached s b i /\ locked (lock (bufat s i)) = true
}.

(** The blocks that occupy a buffer that cannot be recycled. *)
Definition pinned (a : store) : gset Z := adirty a ∪ map_img (aheld a).

(** [bread] of block [b] finds a buffer. *)
Definition room (a : store) (b : Z) : Prop :=
  b ∈ adirty a \/ (size (pinned a) < NBUF)%nat.

(** ** Buffer replacement *)

Definition putbuf (i : nat) (x : buf) (s : bcache) : bcache :=
  set_bcbuf (fun l => <[i := x]> l) s.

Lemma set_buf_put i f s : set_buf i f s = putbuf i (f (bufat s i)) s.
Proof. done. Qed.

Lemma bufat_put i x s j :
  in_range s -> (i < NBUF)%nat ->
  bufat (putbuf i x s) j = if decide (i = j) then x else bufat s j.
Proof.
  intros (Hl & _) Hi. unfold putbuf. change (set_bcbuf _ s) with (set_buf i (fun _ => x) s).
  rewrite bufat_set_buf by lia. done.
Qed.

Lemma bufat_put_eq i x s : in_range s -> (i < NBUF)%nat -> bufat (putbuf i x s) i = x.
Proof. intros. rewrite bufat_put by done. by rewrite decide_True. Qed.

Lemma putbuf_putbuf i x y s : putbuf i y (putbuf i x s) = putbuf i y s.
Proof. unfold putbuf, set_bcbuf. simpl. by rewrite list_insert_insert_eq. Qed.

Lemma bufat_set_ide d s i : bufat (set_ide d s) i = bufat s i.
Proof. done. Qed.

Lemma putbuf_set_ide d i x s : putbuf i x (set_ide d s) = set_ide d (putbuf i x s).
Proof. done. Qed.

Lemma in_range_put i x s : in_range s -> in_range (putbuf i x s).
Proof. unfold in_range, putbuf. simpl. by rewrite length_insert. Qed.

Lemma dll_same_links s s' l :
  bcnext s' = bcnext s -> bcprev s' = bcprev s -> dll s l -> dll s' l.
Proof.
  intros En Ep. apply linked_ext; intros; unfold nextof, prevof; by rewrite ?En, ?Ep.
Qed.

#[export] Hint Resolve in_range_put : bio.

(** ** Bits of the flags word *)

Lemma flags_cases fl :
  fl = 0 \/ fl = B_VALID \/ fl = Z.lor B_VALID B_DIRTY ->
  (Z.land fl B_VALID =? 0) = (fl =? 0) /\
  (Z.land fl B_DIRTY =? 0) = negb (fl =? Z.lor B_VALID B_DIRTY).
Proof. by intros [->|[->| ->]]. Qed.

Lemma buf_wf_flags s b : buf_wf s b ->
  flags b = 0 \/ flags b = B_VALID \/ flags b = Z.lor B_VALID B_DIRTY.
Proof. intros [_ _ _ [(?&_)|([?|?]&_)] _]; auto. Qed.

Lemma buf_wf_used s b : buf_wf s b -> used b ->
  (flags b = B_VALID \/ dirty b) /\ 0 <= blockno b < disksize (ide s).
Proof. unfold used. intros [_ _ _ [(_&E&_)|(?&_&?)] _] ?; [lia | done]. Qed.

Lemma buf_wf_not_used s b : buf_wf s b -> ~ used b -> locked (lock b) = false /\ ~ dirty b.
Proof. intros [_ _ _ [(E&_&?)|(_&?&_)] _] ?; [|done]. split; [done|]. unfold dirty. by rewrite E. Qed.

(** ** A buffer that can be recycled *)

Definition recyclable (s : bcache) (i : nat) : bool :=
  (refcnt (bufat s i) =? 0) && (Z.land (flags (bufat s i)) B_DIRTY =? 0).

Lemma recyclable_spec s i : bio_wf s -> (i < NBUF)%nat ->
  recyclable s i = true <-> locked (lock (bufat s i)) = false /\ ~ dirty (bufat s i).
Proof.
  intros W Hi. assert (B := wf_bufs _ W i Hi). unfold recyclable, dirty.
  destruct (flags_cases _ (buf_wf_flags _ _ B)) as [_ ->].
  rewrite (wf_ref _ _ B). rewrite andb_true_iff, negb_true_iff, Z.eqb_neq.
  destruct (locked _); naive_solver.
Qed.

Lemma not_recyclable_pinned s a i : bio_rep s a -> (i < NBUF)%nat ->
  recyclable s i = false -> used (bufat s i) /\ blockno (bufat s i) ∈ pinned a.
Proof.
  intros R Hi Hf. assert (W := rep_wf _ _ R). assert (B := wf_bufs _ W i Hi).
  destruct (decide (used (bufat s i))) as [U|U].
  - split; [done|]. unfold pinned. apply elem_of_union.
    destruct (decide (dirty (bufat s i))) as [D|D].
    + left. apply (rep_dirty _ _ R). by exists i.
    + right. apply elem_of_map_img. exists i. apply (rep_held _ _ R). split; [done|].
      apply not_false_iff_true. intros L.
      assert (recyclable s i = true) by (by apply recyclable_spec). congruence.
  - destruct (buf_wf_not_used _ _ B U). exfalso.
    assert (recyclable s i = true) by (by apply recyclable_spec). congruence.
Qed.

Lemma recyclable_exists s a : bio_rep s a -> (size (pinned a) < NBUF)%nat ->
  exists i, (i < NBUF)%nat /\ recyclable s i = true.
Proof.
  intros R Hs. destruct (decide (Exists (fun i => recyclable s i = true) (seq 0 NBUF))) as [E|E].
  - apply Exists_exists in E as (i & Hi & ?). apply elem_of_seq in Hi. exists i. split; [lia|done].
  - exfalso. apply not_Exists_Forall in E; [|apply _].
    rewrite Forall_forall in E.
    assert (P : forall i, (i < NBUF)%nat -> used (bufat s i) /\ blockno (bufat s i) ∈ pinned a).
    { intros i Hi. apply not_recyclable_pinned; [done..|]. apply not_true_iff_false.
      apply E, elem_of_seq. lia. }
    set (bl := (fun i => blockno (bufat s i)) <$> seq 0 NBUF).
    assert (Hnd : NoDup bl).
    { apply NoDup_fmap_2_strong; [|apply NoDup_seq].
      intros i j Hi%elem_of_seq Hj%elem_of_seq Heq.
      apply (wf_unique _ (rep_wf _ _ R)); [lia|lia|apply P; lia|apply P; lia|done]. }
    assert (Hsub : list_to_set bl ⊆ pinned a).
    { intros b Hb. apply elem_of_list_to_set, list_elem_of_fmap in Hb as (i & -> & Hi%elem_of_seq).
      apply P. lia. }
    apply subseteq_size in Hsub. rewrite size_list_to_set in Hsub by done.
    unfold bl in Hsub. rewrite length_fmap, length_seq in Hsub. lia.
Qed.

(** ** The scans of [bget] *)

Lemma scan_walk f test l p fuel :
  walk f p l head -> head ∉ l -> (length l < fuel)%nat ->
  scan f test fuel (f p) = Some (List.find test l).
Proof.
  revert p fuel. induction l as [|x l IH]; intros p [|fuel] Hw Hn Hl;
    simpl in *; try lia.
  - by rewrite Hw, decide_True.
  - destruct Hw as [-> Hw]. apply not_elem_of_cons in Hn as [Hx Hn].
    rewrite decide_False by done. destruct (test x); [done|].
    apply IH; [done..|lia].
Qed.

Lemma scan_next s test : bio_wf s ->
  exists l, l ≡ₚ seq 0 NBUF /\
    scan (nextof s) test (S NBUF) (nextof s head) = Some (List.find test l).
Proof.
  intros W. destruct (wf_links _ W) as (l & Hd & Hp). exists l. split; [done|].
  apply scan_walk; [by apply linked_next | |].
  - rewrite Hp, elem_of_seq. unfold head. lia.
  - apply Permutation_length in Hp. rewrite length_seq in Hp. lia.
Qed.

Lemma scan_prev s test : bio_wf s ->
  exists l, l ≡ₚ seq 0 NBUF /\
    scan (prevof s) test (S NBUF) (prevof s head) = Some (List.find test l).
Proof.
  intros W. destruct (wf_links _ W) as (l & Hd & Hp). exists (rev l).
  assert (Hp' : rev l ≡ₚ seq 0 NBUF) by (by rewrite <- Permutation_rev).
  split; [done|]. apply scan_walk; [by apply linked_prev | |].
  - rewrite Hp', elem_of_seq. unfold head. lia.
  - apply Permutation_length in Hp'. rewrite length_seq in Hp'. lia.
Qed.

Lemma find_perm_some (test : nat -> bool) l i :
  l ≡ₚ seq 0 NBUF -> List.find test l = Some i -> (i < NBUF)%nat /\ test i = true.
Proof.
  intros Hp Hf. apply List.find_some in Hf as [Hi Ht]. split; [|done].
  apply list_elem_of_In in Hi. rewrite Hp, elem_of_seq in Hi. lia.
Qed.

Lemma find_perm_none (test : nat -> bool) l :
  l ≡ₚ seq 0 NBUF -> List.find test l = None -> forall i, (i < NBUF)%nat -> test i = false.
Proof.
  intros Hp Hf i Hi. apply (List.find_none _ _ Hf), list_elem_of_In.
  rewrite Hp, elem_of_seq. lia.
Qed.

(** [hold b x s i]: buffer [i] of [s] replaced by [x], locked by the running
    process. *)
Definition holdbuf (s : bcache) (fl : Z) (b : Z) (d : block) : buf :=
  Buf fl 1 b (SleepLock true (me s)) 1 d.

Lemma bget_hit s b i : bio_wf s -> cached s b i -> locked (lock (bufat s i)) = false ->
  bget 1 b s =
  Ret i (putbuf i (holdbuf s (flags (bufat s i)) b (data (bufat s i))) s).
Proof.
  intros W (Hi & Hu & Hb) HL. unfold bget.
  destruct (scan_next s (fun j => (dev (bufat s j) =? 1) && (blockno (bufat s j) =? b)) W)
    as (l & Hp & ->).
  destruct (List.find _ l) as [j|] eqn:Hf.
  - apply find_perm_some in Hf as [Hj Ht]; [|done]. bool_prop.
    assert (j = i) as -> by (apply (wf_unique _ W); congruence || done).
    assert (B := wf_bufs _ W i Hi).
    munfold. unfold acquire_buf. rewrite !set_buf_put.
    rewrite bufat_put_eq by (done || apply W). simpl.
    unfold acquiresleep. rewrite HL. rewrite set_buf_put, bufat_put_eq by (done || apply W).
    rewrite putbuf_putbuf. cbn -[u32]. do 2 f_equal.
    unfold set_lock, set_refcnt, holdbuf. cbn -[u32]. rewrite (wf_ref _ _ B), HL, Hb, Hu. done.
  - assert (Ht := find_perm_none _ _ Hp Hf i Hi). simpl in Ht.
    rewrite Hu, Hb, !Z.eqb_refl in Ht. done.
Qed.

Lemma bget_miss s a b : bio_rep s a -> (forall i, ~ cached s b i) ->
  (size (pinned a) < NBUF)%nat ->
  exists i, (i < NBUF)%nat /\ locked (lock (bufat s i)) = false /\ ~ dirty (bufat s i) /\
    bget 1 b s = Ret i (putbuf i (holdbuf s 0 b (data (bufat s i))) s).
Proof.
  intros R Hc Hs. assert (W := rep_wf _ _ R). unfold bget.
  destruct (scan_next s (fun j => (dev (bufat s j) =? 1) && (blockno (bufat s j) =? b)) W)
    as (l & Hp & ->).
  destruct (List.find _ l) as [j|] eqn:Hf.
  { apply find_perm_some in Hf as [Hj Ht]; [|done]. bool_prop. exfalso. by apply (Hc j). }
  destruct (scan_prev s (recyclable s) W) as (l' & Hp' & E).
  unfold recyclable in E at 1. rewrite E. clear E.
  destruct (List.find _ l') as [i|] eqn:Hf'.
  - apply find_perm_some in Hf' as [Hi Ht]; [|done]. apply recyclable_spec in Ht as [HL HD]; [|done..].
    exists i. split_and!; try done.
    munfold. unfold acquire_buf. rewrite !set_buf_put.
    rewrite bufat_put_eq by (done || apply W). simpl. unfold acquiresleep. rewrite HL.
    rewrite set_buf_put, bufat_put_eq by (done || apply W). by rewrite putbuf_putbuf.
  - destruct (recyclable_exists _ _ R Hs) as (i & Hi & Ht).
    rewrite (find_perm_none _ _ Hp' Hf' i Hi) in Ht. done.
Qed.

Lemma iderw_read s i b d :
  in_range s -> (i < NBUF)%nat -> bufat s i = holdbuf s 0 b d -> 0 <= b < disksize (ide s) ->
  iderw i s = Ret tt (putbuf i (holdbuf s B_VALID b (disk_read (ide s) b)) s).
Proof.
  intros Hr Hi E Hb. unfold iderw. rewrite E. simpl. unfold holdingsleep. simpl.
  rewrite Z.eqb_refl. simpl. destruct (Z.leb_spec (disksize (ide s)) b); [lia|].
  rewrite !set_buf_put, bufat_put_eq by done. rewrite putbuf_putbuf, E. done.
Qed.

Lemma iderw_write s i b d :
  in_range s -> (i < NBUF)%nat -> bufat s i = holdbuf s (Z.lor B_VALID B_DIRTY) b d ->
  0 <= b < disksize (ide s) ->
  iderw i s = Ret tt (set_ide (disk_write (ide s) b d) (putbuf i (holdbuf s B_VALID b d) s)).
Proof.
  intros Hr Hi E Hb. unfold iderw. rewrite E. simpl. unfold holdingsleep. simpl.
  rewrite Z.eqb_refl. simpl. destruct (Z.leb_spec (disksize (ide s)) b); [lia|].
  rewrite !set_buf_put, !bufat_set_ide, bufat_put_eq by done. rewrite E.
  by rewrite putbuf_set_ide, putbuf_putbuf.
Qed.

(** ** Well-formedness and representation after replacing a buffer *)

Lemma cached_put s i x b j : in_range s -> (i < NBUF)%nat ->
  cached (putbuf i x s) b j <->
  (if decide (i = j) then used x /\ blockno x = b else cached s b j).
Proof.
  intros Hr Hi. unfold cached. rewrite bufat_put by done. case_decide; [|done]. subst. tauto.
Qed.

Lemma buf_wf_same_env s s' b : ide s' = ide s -> me s' = me s -> buf_wf s b -> buf_wf s' b.
Proof. intros Ei Em [? ? ? ? ?]. split; rewrite ?Ei, ?Em; done. Qed.

Lemma bio_wf_put s i x : bio_wf s -> (i < NBUF)%nat -> buf_wf s x ->
  (used x -> forall j, j ≠ i -> ~ cached s (blockno x) j) -> bio_wf (putbuf i x s).
Proof.
  intros W Hi Hx Hu. assert (Hr := wf_range _ W). split.
  - by apply in_range_put.
  - destruct (wf_links _ W) as (l & Hd & Hp). exists l. split; [|done].
    by apply (dll_same_links s).
  - apply (wf_disk _ W).
  - intros j Hj. rewrite bufat_put by done. apply (buf_wf_same_env s); [done..|].
    case_decide; [done | by apply (wf_bufs _ W)].
  - intros j k Hj Hk. rewrite !bufat_put by done. repeat case_decide; subst; try done.
    + intros U1 U2 E. exfalso. by apply (Hu U1 k).
    + intros U1 U2 E. exfalso. by apply (Hu U2 j).
    + by apply (wf_unique _ W).
Qed.

Lemma disk_read_block s b : bio_wf s -> is_block (disk_read (ide s) b).
Proof.
  intros W. unfold disk_read, rd. case_decide; [|apply zero_block_ok].
  destruct (_ !! _) as [d|] eqn:E; [|apply zero_block_ok].
  assert (F := wf_disk _ W). rewrite Forall_forall in F. apply F.
  by eapply list_elem_of_lookup_2.
Qed.

Lemma rep_view_block s a b : bio_rep s a -> 0 <= b < disksize (ide s) -> is_block (aview a b).
Proof.
  intros R Hb. destruct (decide (Exists (fun i => used (bufat s i) /\ blockno (bufat s i) = b)
    (seq 0 NBUF))) as [E|E].
  - apply Exists_exists in E as (i & Hi%elem_of_seq & Hc).
    rewrite <- (rep_cached _ _ R b i) by (split; [lia|done]).
    apply (wf_data s). apply (wf_bufs _ (rep_wf _ _ R)). lia.
  - rewrite <- (rep_disk _ _ R b Hb); [by apply disk_read_block, (rep_wf _ a)|].
    intros i (Hi & Hc). apply E, Exists_exists. exists i. split; [apply elem_of_seq; lia|done].
Qed.

(** A buffer is given to the running process for block [b]. *)
Lemma rep_hold s a i b fl :
  bio_rep s a -> (i < NBUF)%nat -> 0 <= b < disksize (ide s) ->
  locked (lock (bufat s i)) = false ->
  (cached s b i /\ fl = flags (bufat s i) \/
   (forall j, ~ cached s b j) /\ ~ dirty (bufat s i) /\ fl = B_VALID) ->
  bio_rep (putbuf i (holdbuf s fl b (aview a b)) s)
          (Store (aview a) (adirty a) (<[i := b]> (aheld a))).
Proof.
  intros R Hi Hb HL Hc. assert (W := rep_wf _ _ R). assert (Hr := wf_range _ W).
  assert (B := wf_bufs _ W i Hi).
  assert (Huniq : forall j, j ≠ i -> ~ cached s b j).
  { intros j Hj Hcj. destruct Hc as [[Hc _]|[Hc _]]; [|by apply (Hc j)].
    destruct Hc as (_ & U & E), Hcj as (Hj' & U' & E').
    apply Hj, (wf_unique _ W); congruence || done. }
  assert (Hfl : fl = B_VALID \/ fl = Z.lor B_VALID B_DIRTY).
  { destruct Hc as [[Hc ->]|(_&_& ->)]; [|by left].
    destruct Hc as (_ & U & _). by destruct (buf_wf_used _ _ B U) as [[?|?] _]; [left|right]. }
  assert (Hdi : dirty (bufat s i) -> cached s b i /\ fl = Z.lor B_VALID B_DIRTY).
  { intros D. destruct Hc as [[Hc ->]|(_&?&_)]; [|done]. done. }
  split; simpl.
  - apply bio_wf_put; [done..| |by intros _].
    split; simpl; try done.
    + by apply (rep_view_block s).
    + right. split_and!; try done; [|lia..]. unfold dirty. simpl. naive_solver.
  - intros b' j. rewrite cached_put, bufat_put by done. case_decide.
    + by intros [_ <-].
    + apply (rep_cached _ _ R).
  - intros b' Hb' Hn. destruct (decide (cached s b' i)) as [Hci|Hci].
    + assert (Hne : b' ≠ b).
      { intros ->. apply (Hn i). rewrite cached_put by done. by rewrite decide_True. }
      assert (Hnd : ~ dirty (bufat s i)).
      { intros D. destruct (Hdi D) as [(_&_&E) _]. destruct Hci as (_&_&E'). congruence. }
      rewrite <- (rep_cached _ _ R b' i Hci). destruct Hci as (_ & U & <-).
      symmetry. apply (wf_clean _ _ B); [|done].
      by destruct (buf_wf_used _ _ B U) as [[?|?] _].
    + apply (rep_disk _ _ R); [done|]. intros j Hj. apply (Hn j). rewrite cached_put by done.
      case_decide; [by subst | done].
  - intros b'. rewrite (rep_dirty _ _ R). split.
    + intros (j & Hj & D). exists j. rewrite cached_put, bufat_put by done. case_decide; [subst|done].
      destruct (Hdi D) as [(_&_&E1) ->]. destruct Hj as (_&_&E2). split; [|done].
      split; [done|]. simpl. congruence.
    + intros (j & Hj & D). rewrite cached_put in Hj by done. rewrite bufat_put in D by done.
      case_decide; [subst j|by exists j]. destruct Hj as [_ <-]. unfold dirty in D. simpl in D. subst fl.
      destruct Hc as [[Hc E]|(_&_&E)]; [|done]. exists i. split; [done|by symmetry].
  - intros j b'. rewrite cached_put, bufat_put by done. destruct (decide (i = j)) as [<-|Hne].
    + rewrite lookup_insert_eq. simpl. split; [intros [= ->]|intros [[_ ->] _]]; done.
    + rewrite lookup_insert_ne by done. apply (rep_held _ _ R).
Qed.

(** ** The operations implement the block store *)

(** [bread] returns a buffer, locked by the caller, with the current content
    of the block. *)
Lemma bread_rep s a b :
  bio_rep s a -> 0 <= b < disksize (ide s) -> (forall i, aheld a !! i ≠ Some b) -> room a b ->
  exists i s', bread 1 b s = Ret i s' /\ aheld a !! i = None /\
    bio_rep s' (Store (aview a) (adirty a) (<[i := b]> (aheld a))) /\
    ide s' = ide s /\ me s' = me s.
Proof.
  intros R Hb Hh Hroom. assert (W := rep_wf _ _ R). assert (Hr := wf_range _ W).
  assert (Hfree : forall i, (i < NBUF)%nat -> locked (lock (bufat s i)) = false -> aheld a !! i = None).
  { intros i Hi HL. destruct (aheld a !! i) eqn:E; [|done].
    apply (rep_held _ _ R) in E as [_ E]. congruence. }
  destruct (decide (Exists (fun i => used (bufat s i) /\ blockno (bufat s i) = b)
    (seq 0 NBUF))) as [E|E].
  - apply Exists_exists in E as (i & Hi%elem_of_seq & Hc).
    assert (Hci : cached s b i) by (split; [lia|done]).
    assert (HL : locked (lock (bufat s i)) = false).
    { apply not_true_iff_false. intros L. apply (Hh i), (rep_held _ _ R). done. }
    exists i, (putbuf i (holdbuf s (flags (bufat s i)) b (aview a b)) s).
    split_and!; try done; [|apply Hfree; [lia|done]|apply rep_hold; auto; lia].
    unfold bread. munfold. rewrite (bget_hit s b i) by done.
    rewrite (rep_cached _ _ R b i) by done.
    rewrite bufat_put_eq by (done || lia). cbn [flags holdbuf].
    assert (B := wf_bufs _ W i (proj1 Hci)).
    destruct (flags_cases _ (buf_wf_flags _ _ B)) as [-> _].
    destruct Hc as [U _]. destruct (buf_wf_used _ _ B U) as [[-> | ->] _]; done.
  - assert (Hn : forall i, ~ cached s b i).
    { intros i (Hi & Hc). apply E, Exists_exists. exists i. split; [apply elem_of_seq; lia|done]. }
    destruct Hroom as [Hd|Hsz].
    { apply (rep_dirty _ _ R) in Hd as (i & Hi & _). by destruct (Hn i). }
    destruct (bget_miss s a b) as (i & Hi & HL & HD & Hg); [done..|].
    exists i, (putbuf i (holdbuf s B_VALID b (aview a b)) s).
    split_and!; try done; [|by apply Hfree|apply rep_hold; auto].
    unfold bread. munfold. rewrite Hg. rewrite bufat_put_eq by done. simpl.
    rewrite (iderw_read _ i b (data (bufat s i))); [|by apply in_range_put|done|by apply bufat_put_eq|done].
    rewrite putbuf_putbuf. simpl. by rewrite (rep_disk _ _ R b).
Qed.

Lemma held_buf s a i b : bio_rep s a -> aheld a !! i = Some b ->
  (i < NBUF)%nat /\ 0 <= b < disksize (ide s) /\
  exists fl, (fl = B_VALID \/ fl = Z.lor B_VALID B_DIRTY) /\
    (fl = Z.lor B_VALID B_DIRTY <-> b ∈ adirty a) /\
    bufat s i = holdbuf s fl b (aview a b).
Proof.
  intros R Hh. assert (W := rep_wf _ _ R).
  apply (rep_held _ _ R) in Hh as [Hc HL]. destruct Hc as (Hi & U & E).
  assert (B := wf_bufs _ W i Hi). destruct (buf_wf_used _ _ B U) as [Hf Hb].
  split; [done|]. split; [by rewrite <- E|]. exists (flags (bufat s i)). split_and!.
  - done.
  - rewrite (rep_dirty _ _ R). split.
    + intros D. by exists i.
    + intros (j & (Hj & U' & E') & D). assert (i = j) as <-; [|done].
      apply (wf_unique _ W); congruence || done.
  - assert (O := wf_owner _ _ B HL). assert (Rf := wf_ref _ _ B). rewrite HL in Rf.
    rewrite <- (rep_cached _ _ R b i) by done. unfold holdbuf.
    unfold used in U. destruct (bufat s i) as [fl dv bn [lk p] rc da]; simpl in *. by subst.
Qed.

(** Replacing a held buffer by another one for the same block. *)
Lemma rep_update s a i b x d' da :
  bio_rep s a -> aheld a !! i = Some b ->
  used x -> blockno x = b -> data x = d' -> is_block d' ->
  lock x = SleepLock true (me s) -> refcnt x = 1 ->
  (flags x = B_VALID /\ da = adirty a ∖ {[b]} \/ dirty x /\ da = adirty a ∪ {[b]}) ->
  bio_rep (putbuf i x s) (Store (fupd (aview a) b d') da (aheld a)).
Proof.
  intros R Hh U E <- Hd HL Hrc Hfl. assert (W := rep_wf _ _ R). assert (Hr := wf_range _ W).
  destruct (held_buf _ _ _ _ R Hh) as (Hi & Hb & fl & Hf & Hfd & Hbuf).
  assert (Hci : cached s b i) by (apply (rep_held _ _ R) in Hh; tauto).
  assert (Hun : forall b' j, cached s b' j -> j ≠ i -> b' ≠ b).
  { intros b' j (Hj & U' & E') Hne ->. apply Hne. destruct Hci as (_&Ui&Ei).
    apply (wf_unique _ W); congruence || done. }
  split; simpl.
  - apply bio_wf_put; [done..| |].
    + split; rewrite ?HL; simpl; try done. right. split_and!; [|done|lia..].
      destruct Hfl as [[? _]|[? _]]; auto.
    + intros _ j Hj Hc. rewrite E in Hc. by destruct (Hun b j).
  - intros b' j. rewrite cached_put, bufat_put by done. case_decide.
    + intros [_ <-]. by rewrite E, fupd_eq.
    + intros Hc. rewrite fupd_ne; [by apply (rep_cached _ _ R)|].
      intros ->. by destruct (Hun b' j).
  - intros b' Hb' Hn. destruct (decide (b = b')) as [<-|Hne].
    { exfalso. apply (Hn i). rewrite cached_put by done. by rewrite decide_True. }
    rewrite fupd_ne by done. apply (rep_disk _ _ R); [done|]. intros j Hj.
    apply (Hn j). rewrite cached_put by done. case_decide; [subst j|done].
    destruct Hj as (_&_&E1), Hci as (_&_&E2). congruence.
  - intros b'. transitivity ((b' = b /\ dirty x) \/ (b' ≠ b /\ b' ∈ adirty a)).
    { destruct Hfl as [[Hv ->]|[Hv ->]].
      - rewrite elem_of_difference, elem_of_singleton. unfold dirty. rewrite Hv. naive_solver.
      - rewrite elem_of_union, elem_of_singleton. destruct (decide (b' = b)); naive_solver. }
    rewrite (rep_dirty _ _ R). split.
    + intros [[-> D]|[Hne (j & Hc & D)]].
      * exists i. rewrite cached_put, bufat_put by done. by rewrite !decide_True.
      * exists j. rewrite cached_put, bufat_put by done. case_decide; [subst j|done].
        destruct Hc as (_&_&E1), Hci as (_&_&E2). congruence.
    + intros (j & Hc & D). rewrite cached_put in Hc by done. rewrite bufat_put in D by done.
      case_decide; [left; destruct Hc; by subst|]. right. split; [by eapply Hun|]. by exists j.
  - intros j b'. rewrite cached_put, bufat_put by done. destruct (decide (i = j)) as [<-|Hne].
    + rewrite HL, Hh. simpl. split; [intros [= <-]; done|]. by intros [[_ <-] _]; rewrite E.
    + apply (rep_held _ _ R).
Qed.

(** Stores are compared by the contents of their blocks. *)
#[export] Instance store_equiv : Equiv store := fun a a' =>
  (forall b, aview a b = aview a' b) /\ adirty a = adirty a' /\ aheld a = aheld a'.

#[export] Instance store_equivalence : Equivalence (≡@{store}).
Proof.
  split; unfold equiv, store_equiv.
  - done.
  - intros x y (?&?&?). done.
  - intros x y z (E&?&?) (E'&?&?). split_and!; [|congruence..]. intros. by rewrite E.
Qed.

#[export] Instance bio_rep_proper : Proper ((=) ==> (≡) ==> iff) bio_rep.
Proof.
  assert (P : forall s a a', a ≡ a' -> bio_rep s a -> bio_rep s a').
  { intros s a a' (Ev & Ed & Eh) [W C D Di H]. split.
    - done.
    - intros. rewrite <- Ev. auto.
    - intros. rewrite <- Ev. auto.
    - intros. rewrite <- Ed. auto.
    - intros. rewrite <- Eh. auto. }
  intros s s' <- a a' E. split; apply P; [done | by symmetry].
Qed.

Lemma fupd_id {A} (f : Z -> A) b b' : fupd f b (f b) b' = f b'.
Proof. unfold fupd. case_decide; by subst. Qed.

Lemma store_fupd_id a b da : Store (fupd (aview a) b (aview a b)) da (aheld a) ≡ Store (aview a) da (aheld a).
Proof. split_and!; simpl; try done. intros. apply fupd_id. Qed.

(** The caller modifies the contents of a buffer it holds. *)
Definition bufwrite (i : nat) (d : block) : M bcache unit := modify (set_buf i (set_data d)).

(** [log_write] pins a buffer it holds with [B_DIRTY]. *)
Definition bufdirty (i : nat) : M bcache unit :=
  modify (set_buf i (fun x => set_flags (Z.lor (flags x) B_DIRTY) x)).

Lemma bufwrite_rep s a i b d :
  bio_rep s a -> aheld a !! i = Some b -> is_block d ->
  exists s', bufwrite i d s = Ret tt s' /\
    bio_rep s' (Store (fupd (aview a) b d) (adirty a) (aheld a)) /\
    ide s' = ide s /\ me s' = me s.
Proof.
  intros R Hh Hd. destruct (held_buf _ _ _ _ R Hh) as (Hi & Hb & fl & Hf & Hfd & Hbuf).
  exists (putbuf i (set_data d (bufat s i)) s). split_and!; try done.
  apply (rep_update s a i b _ d _ R Hh); rewrite ?Hbuf; try done.
  unfold dirty. simpl. destruct Hf as [-> | ->].
  - left. split; [done|]. apply set_eq. intros b'. destruct (decide (b' = b)); [subst|set_solver].
    assert (b ∉ adirty a) by (intros Hin; by apply Hfd in Hin). set_solver.
  - right. split; [done|]. assert (b ∈ adirty a) by (by apply Hfd). set_solver.
Qed.

Lemma bufdirty_rep s a i b :
  bio_rep s a -> aheld a !! i = Some b ->
  exists s', bufdirty i s = Ret tt s' /\
    bio_rep s' (Store (aview a) (adirty a ∪ {[b]}) (aheld a)) /\
    ide s' = ide s /\ me s' = me s.
Proof.
  intros R Hh. destruct (held_buf _ _ _ _ R Hh) as (Hi & Hb & fl & Hf & Hfd & Hbuf).
  exists (putbuf i (holdbuf s (Z.lor B_VALID B_DIRTY) b (aview a b)) s).
  split_and!; try done.
  - unfold bufdirty, modify. rewrite set_buf_put, Hbuf. by destruct Hf as [-> | ->].
  - rewrite <- (store_fupd_id a b). apply (rep_update s a i b); try done.
    + by apply (rep_view_block s).
    + by right.
Qed.

Lemma bwrite_rep s a i b :
  bio_rep s a -> aheld a !! i = Some b ->
  exists s', bwrite i s = Ret tt s' /\
    bio_rep s' (Store (aview a) (adirty a ∖ {[b]}) (aheld a)) /\
    ide s' = disk_write (ide s) b (aview a b) /\ me s' = me s.
Proof.
  intros R Hh. assert (W := rep_wf _ _ R). assert (Hr := wf_range _ W).
  destruct (held_buf _ _ _ _ R Hh) as (Hi & Hb & fl & Hf & Hfd & Hbuf).
  set (x := holdbuf s (Z.lor B_VALID B_DIRTY) b (aview a b)).
  set (y := holdbuf s B_VALID b (aview a b)).
  assert (Hy : bio_rep (putbuf i y s) (Store (aview a) (adirty a ∖ {[b]}) (aheld a))).
  { rewrite <- (store_fupd_id a b). apply (rep_update s a i b); try done.
    - by apply (rep_view_block s).
    - by left. }
  exists (set_ide (disk_write (ide s) b (aview a b)) (putbuf i y s)). split_and!; try done.
  - unfold bwrite. munfold. rewrite Hbuf. unfold holdingsleep. simpl. rewrite Z.eqb_refl. simpl.
    rewrite set_buf_put, Hbuf.
    replace (set_flags _ _) with x by (by destruct Hf as [-> | ->]).
    rewrite (iderw_write _ i b (aview a b));
      [|by apply in_range_put|done|by apply bufat_put_eq|done].
    by rewrite putbuf_putbuf.
  - clear R W Hbuf Hfd Hf. assert (W := rep_wf _ _ Hy). destruct Hy as [_ C D Di H]. simpl in C.
    assert (Hsz : disksize (disk_write (ide s) b (aview a b)) = disksize (ide s)).
    { unfold disksize, disk_write. simpl. apply zlen_wr. }
    assert (Hdr : forall b', b' ≠ b -> disk_read (disk_write (ide s) b (aview a b)) b' = disk_read (ide s) b').
    { intros. unfold disk_read, disk_write. simpl. by rewrite rd_wr_ne. }
    assert (Hci : cached (putbuf i y s) b i) by (apply (H i b) in Hh; tauto).
    split; try done.
    + destruct W as [W1 W2 W3 W4 W5]. split; [exact W1| | | |exact W5].
      * destruct W2 as (l & Hl & ?). exists l. split; [|done]. by apply (dll_same_links (putbuf i y s)).
      * simpl. unfold wr. case_decide; [|done]. apply Forall_insert; [done|].
        rewrite <- (C b i Hci). apply (wf_data (putbuf i y s)), W4, Hi.
      * intros j Hj. specialize (W4 j Hj). destruct W4 as [V1 V2 V3 V4 V5].
        split; try done; simpl.
        -- rewrite Hsz. done.
        -- intros Hv HL. rewrite bufat_set_ide in *.
           destruct (decide (blockno (bufat (putbuf i y s) j) = b)) as [E|E].
           ++ exfalso. assert (Hu : used (bufat (putbuf i y s) j)).
              { destruct V4 as [(V4&_)|(_&V4&_)]; [|done]. rewrite V4 in Hv. done. }
              destruct Hci as (_ & Hu' & E').
              assert (j = i) as -> by (apply W5; done || congruence).
              apply (H i b) in Hh. destruct Hh as [_ Hh]. congruence.
           ++ rewrite Hdr by done. by apply V5.
    + simpl. intros b'. rewrite Hsz. intros Hb' Hn. rewrite Hdr; [by apply D|].
      intros ->. by apply (Hn i).
Qed.

(** [brelse] gives a buffer back.  Its block must be pinned in the log or
    agree with the disk: anything else could be lost when the buffer is
    recycled. *)
Lemma brelse_rep s a i b :
  bio_rep s a -> aheld a !! i = Some b ->
  b ∈ adirty a \/ aview a b = disk_read (ide s) b ->
  exists s', brelse i s = Ret tt s' /\
    bio_rep s' (Store (aview a) (adirty a) (delete i (aheld a))) /\
    ide s' = ide s /\ me s' = me s.
Proof.
  intros R Hh Hst. assert (W := rep_wf _ _ R). assert (Hr := wf_range _ W).
  destruct (held_buf _ _ _ _ R Hh) as (Hi & Hb & fl & Hf & Hfd & Hbuf).
  set (y := Buf fl 1 b (SleepLock false 0) 0 (aview a b)).
  exists (relink i (putbuf i y s)).
  assert (Ebuf : forall j, bufat (relink i (putbuf i y s)) j = bufat (putbuf i y s) j) by done.
  assert (Eca : forall b' j, cached (relink i (putbuf i y s)) b' j <->
     (if decide (i = j) then b' = b else cached s b' j)).
  { intros. unfold cached at 1. rewrite !Ebuf.
    change (cached (putbuf i y s) b' j <-> if decide (i = j) then b' = b else cached s b' j).
    rewrite cached_put by done. case_decide; [|done]. unfold used, y. simpl. naive_solver. }
  assert (Hci : cached s b i) by (apply (rep_held _ _ R) in Hh; tauto).
  split_and!; try done.
  - unfold brelse. munfold. rewrite Hbuf. unfold holdingsleep. simpl. rewrite Z.eqb_refl. simpl.
    rewrite !set_buf_put, !bufat_put_eq by (done || by apply in_range_put).
    rewrite putbuf_putbuf, Hbuf. done.
  - assert (Wp : bio_wf (putbuf i y s)).
    { apply bio_wf_put; try done.
      - split; simpl; try done.
        + by apply (rep_view_block s).
        + right. split_and!; try done; [|lia..]. unfold dirty. simpl. naive_solver.
        + intros -> _. destruct Hst as [Hst|Hst]; [|done]. apply Hfd in Hst. done.
      - intros _ j Hj (Hj' & U & E). apply Hj. destruct Hci as (_&U'&E').
        apply (wf_unique _ W); [done..|]. simpl in E. congruence. }
    split; simpl.
    + destruct Wp as [W1 (l & Hd & Hp) W3 W4 W5].
      split; [| |exact W3|intros j Hj; by apply (buf_wf_same_env (putbuf i y s)), W4|exact W5].
      * unfold in_range, relink. simpl. rewrite !length_insert. apply Hr.
      * assert (Hin : i ∈ l) by (rewrite Hp, elem_of_seq; lia).
        apply list_elem_of_split in Hin as (l1 & l2 & ->).
        exists (i :: l1 ++ l2). split.
        -- apply dll_relink; try done.
           ++ rewrite Hp. apply Forall_forall. intros x Hx%elem_of_seq. lia.
           ++ rewrite Hp. apply NoDup_seq.
        -- by rewrite Permutation_middle.
    + intros b' j. rewrite Eca, Ebuf, bufat_put by done. case_decide; [by intros ->|].
      apply (rep_cached _ _ R).
    + intros b' Hb' Hn. apply (rep_disk _ _ R); [done|]. intros j Hj. apply (Hn j), Eca.
      case_decide; [subst j|done]. destruct Hj as (_&_&E1), Hci as (_&_&E2). congruence.
    + intros b'. rewrite (rep_dirty _ _ R). split; intros (j & Hj & D); exists j;
        rewrite Eca, Ebuf, bufat_put in *; try done; case_decide; try done; subst.
      * destruct Hj as (_&_&E1), Hci as (_&_&E2). split; [congruence|].
        unfold dirty in *. rewrite Hbuf in D. done.
      * split; [done|]. unfold dirty in *. by rewrite Hbuf.
    + intros j b'. rewrite Eca, Ebuf, bufat_put by done. destruct (decide (i = j)) as [<-|Hne].
      * rewrite lookup_delete_eq. simpl. naive_solver.
      * rewrite lookup_delete_ne by done. apply (rep_held _ _ R).
Qed.

(** ** The cache at boot *)

(** Memory before [binit]: every field is zero. *)
Definition fresh_cache (d : disk) (p : Z) : bcache :=
  Bcache (replicate NBUF buf0) (replicate (S NBUF) 0%nat) (replicate (S NBUF) 0%nat) d p.

Lemma binit_bufs d p : bcbuf (binit (fresh_cache d p)) = replicate NBUF buf0.
Proof. reflexivity. Qed.

Lemma binit_dll d p : dll (binit (fresh_cache d p)) (rev (seq 0 NBUF)).
Proof. unfold dll. vm_compute. repeat split. Qed.

Lemma binit_rep d p : Forall is_block (image d) ->
  bio_rep (binit (fresh_cache d p)) (Store (disk_read d) ∅ ∅).
Proof.
  intros Hd. set (s := binit (fresh_cache d p)).
  assert (Hi : ide s = d) by reflexivity.
  assert (Hb : forall i, bufat s i = buf0).
  { intros i. unfold bufat, s. rewrite binit_bufs.
    destruct (decide (i < NBUF)%nat).
    - by rewrite lookup_replicate_2.
    - by rewrite lookup_ge_None_2 by (rewrite length_replicate; lia). }
  assert (Hu : forall i, ~ used (bufat s i)) by (intros i; by rewrite Hb).
  split; simpl.
  - split.
    + done.
    + exists (rev (seq 0 NBUF)). split; [apply binit_dll|]. by rewrite <- Permutation_rev.
    + by rewrite Hi.
    + intros i Hn. rewrite Hb. split; simpl; try done; [apply zero_block_ok|by left].
    + intros i j _ _ U. by destruct (Hu i).
  - intros b i (_ & U & _). by destruct (Hu i).
  - done.
  - intros b. split; [set_solver|]. intros (i & (_ & U & _) & _). by destruct (Hu i).
  - intros i b. rewrite lookup_empty. split; [done|]. intros [(_ & U & _) _]. by destruct (Hu i).
Qed.
