(* ===== verification/Ide.v ===== *)
(** * The disk driver (ide.c)

    Requests wait in a queue of buffers; the first one is the active request of
    the controller, which raises an interrupt when it is done.  The controller
    is not part of the kernel: its ports are a parameter, [AtaPorts].  A process
    sleeps in [iderw]; the sections of the driver that hold [idelock] are
    atomic, so [iderw] is [iderw_submit] followed by [iderw_check] as often as
    the process runs again. *)

From S2P Require Import Prelude Param SleepLock Bio.

(** The instructions that access the ports of the controller. *)
Class AtaPorts (D : Type) := {
  outb : Z -> Z -> M D unit;
  inb : Z -> M D Z;
  outsl : Z -> list Z -> M D unit;   (* the bytes of the words written *)
  insl : Z -> Z -> M D (list Z)
}.

Definition SECTOR_SIZE : Z := 512.
Definition IDE_BSY : Z := 0x80.
Definition IDE_DRDY : Z := 0x40.
Definition IDE_DF : Z := 0x20.
Definition IDE_ERR : Z := 0x01.
Definition IDE_CMD_READ : Z := 0x20.
Definition IDE_CMD_WRITE : Z := 0x30.
Definition IDE_CMD_RDMUL : Z := 0xc4.
Definition IDE_CMD_WRMUL : Z := 0xc5.

(** The buffers with their [qnext] links, the head of the queue, the
    controller, and the buffers for which a process sleeps in [iderw]. *)
Record istate (D : Type) := IState {
  ibufs : list buf;
  qnext : list (option nat);
  idequeue : option nat;
  havedisk1 : bool;
  port : D;
  asleep : list nat;
  running : Z
}.
Arguments IState {D}.
Arguments ibufs {D}. Arguments qnext {D}. Arguments idequeue {D}. Arguments havedisk1 {D}. Arguments port {D}.
Arguments asleep {D}. Arguments running {D}.

Section ide.
Context {D : Type} {AP : AtaPorts D} (patience : nat).
Notation istate := (istate D).

Definition set_ibufs v (s : istate) : istate := IState v (qnext s) (idequeue s) (havedisk1 s) (port s) (asleep s) (running s).
Definition set_qnext v (s : istate) : istate := IState (ibufs s) v (idequeue s) (havedisk1 s) (port s) (asleep s) (running s).
Definition set_idequeue v (s : istate) : istate := IState (ibufs s) (qnext s) v (havedisk1 s) (port s) (asleep s) (running s).
Definition set_havedisk1 v (s : istate) : istate := IState (ibufs s) (qnext s) (idequeue s) v (port s) (asleep s) (running s).
Definition set_port v (s : istate) : istate := IState (ibufs s) (qnext s) (idequeue s) (havedisk1 s) v (asleep s) (running s).
Definition set_asleep v (s : istate) : istate := IState (ibufs s) (qnext s) (idequeue s) (havedisk1 s) (port s) v (running s).

Definition ibuf (s : istate) (b : nat) : buf := default buf0 (ibufs s !! b).
Definition qnext_of (s : istate) (b : nat) : option nat := default None (qnext s !! b).
Definition bmod (b : nat) (f : buf -> buf) : M istate unit := modify (fun s => set_ibufs (<[b := f (ibuf s b)]> (ibufs s)) s).
Definition io {A} (m : M D A) : M istate A := zoom port set_port m.

(** The loop of [idewait] asks at most [patience] times more. *)
Fixpoint poll (fuel : nat) : M D Z :=
  r ← inb 0x1f7;
  if Z.land r (Z.lor IDE_BSY IDE_DRDY) =? IDE_DRDY then mret r
  else match fuel with O => out_of_fuel | S fuel' => poll fuel' end.

Definition idewait (checkerr : bool) : M istate Z :=
  r ← io (poll patience);
  mret (if checkerr && negb (Z.land r (Z.lor IDE_DF IDE_ERR) =? 0) then -1 else 0).

Fixpoint probe (n : nat) : M istate unit :=
  match n with
  | O => mret tt
  | S n' =>
      r ← io (inb 0x1f7);
      if negb (r =? 0) then modify (set_havedisk1 true) else probe n'
  end.

Definition ideinit : M istate unit :=
  idewait false;;
  io (outb 0x1f6 (Z.lor 0xe0 (Z.shiftl 1 4)));;
  probe 1000;;
  io (outb 0x1f6 (Z.lor 0xe0 (Z.shiftl 0 4))).

Definition idestart (ob : option nat) : M istate unit :=
  match ob with
  | None => panic "idestart"
  | Some i =>
      s ← get;
      let b := ibuf s i in
      if FSSIZE <=? blockno b then panic "incorrect blockno"
      else
        let sector_per_block := BSIZE / SECTOR_SIZE in
        let sector := blockno b * sector_per_block in
        let read_cmd := if sector_per_block =? 1 then IDE_CMD_READ else IDE_CMD_RDMUL in
        let write_cmd := if sector_per_block =? 1 then IDE_CMD_WRITE else IDE_CMD_WRMUL in
        if 7 <? sector_per_block then panic "idestart"
        else
          idewait false;;
          io (outb 0x3f6 0);;
          io (outb 0x1f2 sector_per_block);;
          io (outb 0x1f3 (Z.land sector 0xff));;
          io (outb 0x1f4 (Z.land (Z.shiftr sector 8) 0xff));;
          io (outb 0x1f5 (Z.land (Z.shiftr sector 16) 0xff));;
          io (outb 0x1f6 (Z.lor (Z.lor 0xe0 (Z.shiftl (Z.land (dev b) 1) 4)) (Z.land (Z.shiftr sector 24) 0x0f)));;
          if negb (Z.land (flags b) B_DIRTY =? 0) then
            io (outb 0x1f7 write_cmd);;
            io (outsl 0x1f0 (data b))
          else io (outb 0x1f7 read_cmd)
  end.

Definition wakeup (b : nat) : M istate unit := modify (fun s => set_asleep (filter (fun c => c ≠ b) (asleep s)) s).

(** [ideintr] takes the data of a request and marks the buffer. *)
Definition ide_complete (b : nat) : M istate unit :=
  s ← get;
  (if Z.land (flags (ibuf s b)) B_DIRTY =? 0 then
     r ← idewait true;
     if 0 <=? r then d ← io (insl 0x1f0 (BSIZE / 4)); bmod b (set_data d) else mret tt
   else mret tt);;
  bmod b (fun x => set_flags (Z.lor (flags x) B_VALID) x);;
  bmod b (fun x => set_flags (Z.land (flags x) (Z.lnot B_DIRTY)) x).

Definition ideintr : M istate unit :=
  s ← get;
  match idequeue s with
  | None => mret tt
  | Some b =>
      modify (set_idequeue (qnext_of s b));;
      ide_complete b;;
      wakeup b;;
      s ← get;
      match idequeue s with None => mret tt | Some _ => idestart (idequeue s) end
  end.

(** A link of the queue: [&idequeue], or the [qnext] field of a buffer. *)
Definition link (s : istate) (l : option nat) : option nat := match l with None => idequeue s | Some b => qnext_of s b end.
Definition set_link (l v : option nat) : M istate unit :=
  match l with
  | None => modify (set_idequeue v)
  | Some b => modify (fun s => set_qnext (<[b := v]> (qnext s)) s)
  end.

(** The loop of [iderw] to the link at the end of the queue. *)
Fixpoint last_link (fuel : nat) (pp : option nat) : M istate (option nat) :=
  s ← get;
  match link s pp with
  | None => mret pp
  | Some b => match fuel with O => out_of_fuel | S fuel' => last_link fuel' (Some b) end
  end.

(** The test of the loop in which [iderw] sleeps: [true] when it returns. *)
Definition iderw_check (b : nat) : M istate bool :=
  s ← get;
  if negb (Z.land (flags (ibuf s b)) (Z.lor B_VALID B_DIRTY) =? B_VALID)
  then modify (fun s => set_asleep (b :: asleep s) s);; mret false
  else mret true.

(** [iderw] up to its loop. *)
Definition iderw_submit (b : nat) : M istate unit :=
  s ← get;
  let x := ibuf s b in
  if negb (holdingsleep (running s) (lock x)) then panic "iderw: buf not locked"
  else if Z.land (flags x) (Z.lor B_VALID B_DIRTY) =? B_VALID then panic "iderw: nothing to do"
  else if negb (dev x =? 0) && negb (havedisk1 s) then panic "iderw: ide disk 1 not present"
  else
    set_link (Some b) None;;
    s ← get;
    pp ← last_link (length (ibufs s)) None;
    set_link pp (Some b);;
    s ← get;
    if bool_decide (idequeue s = Some b) then idestart (Some b) else mret tt.
End ide.
