(* ===== verification/IdeSpec.v ===== *)
(** * The disk driver behaves like an atomic disk

    Processes submit requests while others are served; interrupts complete
    them.  The requests are completed one at a time, in the order in which they
    were submitted, each exactly once, and the effect is the one of the memory
    disk of memide.c, over which the file system is verified. *)

From S2P Require Import Prelude Param SleepLock Bio Ide.

(** ** The controller *)

Inductive ata_req := AtaRead (drive lba : Z) | AtaWrite (drive lba : Z) (bytes : list Z).

(** Nothing to do; a write command without its data; at work; done. *)
Inductive ata_phase := Free | Wants (drive lba : Z) | Busy (r : ata_req) | Done (r : ata_req).

Definition at_rest (p : ata_phase) : Prop := p = Free \/ exists r, p = Done r.

Definition perform (r : ata_req) (st : Z -> Z -> list Z) : Z -> Z -> list Z :=
  match r with
  | AtaRead _ _ => st
  | AtaWrite v a bs => fun v' a' => if decide (v' = v /\ a' = a) then bs else st v' a'
  end.

(** A controller that works, as its documentation describes it: it is told the
    sector through registers, and transfers the sector one word at a time. *)
Class AtaLaws (D : Type) {AP : AtaPorts D} (patience : nat) := {
  reg : D -> Z -> Z;
  phase : D -> ata_phase;
  sectors : D -> Z -> Z -> list Z;
  polls : D -> nat;
  finish : D -> D;
  (* the status register: not ready for [polls] more reads, then ready *)
  status_wait d n : polls d = S n -> exists r d', inb 0x1f7 d = Ret r d' /\ Z.land r (Z.lor IDE_BSY IDE_DRDY) ≠ IDE_DRDY /\
    polls d' = n /\ reg d' = reg d /\ phase d' = phase d /\ sectors d' = sectors d;
  status_ready d : polls d = 0%nat -> exists r d', inb 0x1f7 d = Ret r d' /\ Z.land r (Z.lor IDE_BSY IDE_DRDY) = IDE_DRDY /\
    Z.land r (Z.lor IDE_DF IDE_ERR) = 0 /\ reg d' = reg d /\ phase d' = phase d /\ sectors d' = sectors d;
  settles d : at_rest (phase d) -> (polls d <= patience)%nat;
  (* the registers: number of sectors, address, drive; and the control register *)
  write_reg d p v : 0x1f2 <= p <= 0x1f6 -> is_u8 v -> exists d', outb p v d = Ret tt d' /\
    (forall q, reg d' q = if decide (q = p) then v else reg d q) /\ phase d' = phase d /\ sectors d' = sectors d;
  write_control d : exists d', outb 0x3f6 0 d = Ret tt d' /\ reg d' = reg d /\ phase d' = phase d /\ sectors d' = sectors d;
  (* the commands, for one sector in LBA mode *)
  command d c : at_rest (phase d) -> reg d 0x1f2 = 1 -> Z.land (reg d 0x1f6) 0xe0 = 0xe0 -> c = IDE_CMD_READ \/ c = IDE_CMD_WRITE ->
    exists d', outb 0x1f7 c d = Ret tt d' /\ sectors d' = sectors d /\
      let drive := Z.land (Z.shiftr (reg d 0x1f6) 4) 1 in
      let lba := reg d 0x1f3 + 256 * reg d 0x1f4 + 65536 * reg d 0x1f5 + 2 ^ 24 * Z.land (reg d 0x1f6) 15 in
      phase d' = if c =? IDE_CMD_READ then Busy (AtaRead drive lba) else Wants drive lba;
  send_data d v a bs : phase d = Wants v a -> zlen bs = SECTOR_SIZE ->
    exists d', outsl 0x1f0 bs d = Ret tt d' /\ phase d' = Busy (AtaWrite v a bs) /\ sectors d' = sectors d;
  (* when it is done it raises an interrupt *)
  finished d r : phase d = Busy r -> phase (finish d) = Done r /\ sectors (finish d) = perform r (sectors d);
  get_data d v a : phase d = Done (AtaRead v a) ->
    exists d', insl 0x1f0 (SECTOR_SIZE / 4) d = Ret (sectors d v a) d' /\ phase d' = Free /\ sectors d' = sectors d
}.

(** The request for a buffer. *)
Definition dirty_buf (b : buf) : bool := negb (Z.land (flags b) B_DIRTY =? 0).
Definition req_of (b : buf) : ata_req :=
  if dirty_buf b then AtaWrite (Z.land (dev b) 1) (blockno b) (data b) else AtaRead (Z.land (dev b) 1) (blockno b).

Section spec.
Context {D : Type} {AP : AtaPorts D} (patience : nat) {AL : AtaLaws D patience}.
Notation istate := (istate D).

(** ** Waiting and starting *)

Lemma poll_ok fuel d : (polls d <= fuel)%nat -> exists r d', poll fuel d = Ret r d' /\ Z.land r (Z.lor IDE_DF IDE_ERR) = 0 /\
  reg d' = reg d /\ phase d' = phase d /\ sectors d' = sectors d.
Proof.
  revert d. induction fuel as [|fuel IH]; intros d Hp; destruct (polls d) as [|n] eqn:E; simpl; munfold.
  1, 3: destruct (status_ready d E) as (r & d' & Ei & H1 & H2 & H3 & H4 & H5); rewrite Ei, (proj2 (Z.eqb_eq _ _) H1); by exists r, d'.
  - lia.
  - destruct (status_wait d n E) as (r & d' & Ei & H1 & H2 & H3 & H4 & H5). rewrite Ei, (proj2 (Z.eqb_neq _ _) H1).
    destruct (IH d') as (r2 & d2 & E2 & X & Y1 & Y2 & Y3); [lia|]. rewrite E2. exists r2, d2. split; [done|]. split; [done|].
    split_and!; congruence.
Qed.

Lemma idewait_ok checkerr s : at_rest (phase (port s)) -> wp (idewait patience checkerr) (fun r s' => r = 0 /\ exists d',
  s' = set_port d' s /\ reg d' = reg (port s) /\ phase d' = phase (port s) /\ sectors d' = sectors (port s)) s.
Proof.
  intros Hr. unfold idewait. wp_step. unfold io. wp_step.
  destruct (poll_ok patience (port s) (settles _ Hr)) as (r & d' & E & H1 & H2 & H3 & H4). eapply wp_intro; [exact E|]. wp_step.
  rewrite (proj2 (Z.eqb_eq _ _) H1), andb_false_r. split; [done|]. by exists d'.
Qed.

(** Writing a register of the controller. *)
Lemma wp_reg p v s Q : 0x1f2 <= p <= 0x1f6 -> is_u8 v ->
  (forall d', (forall q, reg d' q = if decide (q = p) then v else reg (port s) q) -> phase d' = phase (port s) ->
     sectors d' = sectors (port s) -> Q tt (set_port d' s)) -> wp (io (outb p v)) Q s.
Proof.
  intros Hp Hv H. apply wp_zoom. destruct (write_reg (port s) p v Hp Hv) as (d' & E & H1 & H2 & H3).
  eapply wp_intro; [exact E|]. by apply H.
Qed.

(** The number of a sector comes out of the registers again. *)
Lemma lba_split x : 0 <= x < 2 ^ 28 ->
  Z.land x 0xff + 256 * Z.land (Z.shiftr x 8) 0xff + 65536 * Z.land (Z.shiftr x 16) 0xff + 2 ^ 24 * Z.land (Z.shiftr x 24) 15 = x.
Proof.
  intros Hx. change 255 with (Z.ones 8). change 15 with (Z.ones 4). rewrite !Z.land_ones, !Z.shiftr_div_pow2 by lia.
  change (2 ^ 8) with 256. change (2 ^ 16) with 65536. change (2 ^ 24) with 16777216. change (2 ^ 4) with 16. mlia.
Qed.

(** A buffer that can be transferred. *)
Definition ibuf_ok (b : buf) : Prop := 0 <= blockno b < FSSIZE /\ zlen (data b) = SECTOR_SIZE.

(** [idestart] gives the controller the request for the buffer. *)
Lemma idestart_ok i s : at_rest (phase (port s)) -> ibuf_ok (ibuf s i) ->
  wp (idestart patience (Some i)) (fun _ s' => exists d', s' = set_port d' s /\ phase d' = Busy (req_of (ibuf s i)) /\
    sectors d' = sectors (port s)) s.
Proof.
  intros Hr [Hb Hd]. unfold idestart. wp_step. wp_step. set (b := ibuf s i) in *. cbv zeta.
  change (BSIZE / SECTOR_SIZE) with 1. rewrite Z.mul_1_r. rewrite (proj2 (Z.leb_gt _ _)) by lia.
  change (7 <? 1) with false. change (1 =? 1) with true. cbv iota.
  assert (Hu : forall x, is_u8 (Z.land x 255)) by (intros x; change 255 with (Z.ones 8); rewrite Z.land_ones by lia; unfold is_u8; mlia).
  assert (Hv : Z.land (dev b) 1 = 0 \/ Z.land (dev b) 1 = 1).
  { assert (E : Z.land (dev b) 1 = dev b mod 2) by exact (Z.land_ones (dev b) 1 ltac:(lia)). rewrite E. mlia. }
  assert (Hh : Z.land (Z.shiftr (blockno b) 24) 15 = 0).
  { rewrite Z.shiftr_div_pow2 by lia. rewrite Z.div_small; [done|]. unfold FSSIZE in Hb. lia. }
  wp_step. eapply wp_mono; [by apply idewait_ok|]. intros r s1 (-> & d1 & -> & R1 & P1 & S1).
  wp_step. unfold io at 1. wp_step. destruct (write_control d1) as (d2 & E2 & R2 & P2 & S2). eapply wp_intro; [exact E2|].
  wp_step. apply wp_reg; [lia|unfold is_u8; lia|]. intros d3 R3 P3 S3.
  wp_step. apply wp_reg; [lia|apply Hu|]. intros d4 R4 P4 S4.
  wp_step. apply wp_reg; [lia|apply Hu|]. intros d5 R5 P5 S5.
  wp_step. apply wp_reg; [lia|apply Hu|]. intros d6 R6 P6 S6.
  wp_step. apply wp_reg; [lia| |]. { rewrite Hh. destruct Hv as [-> | ->]; vm_compute; split; congruence. }
  intros d7 R7 P7 S7. simpl port in *.
  assert (Ph : at_rest (phase d7)) by (rewrite P7, P6, P5, P4, P3, P2, P1; done).
  assert (Sc : sectors d7 = sectors (port s)) by congruence.
  assert (G2 : reg d7 0x1f2 = 1) by (rewrite R7, R6, R5, R4, R3; done).
  assert (G6 : reg d7 0x1f6 = Z.lor (Z.lor 0xe0 (Z.shiftl (Z.land (dev b) 1) 4)) 0) by (rewrite R7, Hh; done).
  assert (GL : Z.land (reg d7 0x1f6) 0xe0 = 0xe0) by (rewrite G6; destruct Hv as [-> | ->]; done).
  assert (Lb : reg d7 0x1f3 + 256 * reg d7 0x1f4 + 65536 * reg d7 0x1f5 + 2 ^ 24 * Z.land (reg d7 0x1f6) 15 = blockno b).
  { rewrite <- (lba_split (blockno b)) by (unfold FSSIZE in Hb; lia). rewrite Hh, G6. rewrite !R7, !R6, !R5, !R4. simpl decide.
    destruct Hv as [-> | ->]; done. }
  assert (Dr : Z.land (Z.shiftr (reg d7 0x1f6) 4) 1 = Z.land (dev b) 1) by (rewrite G6; destruct Hv as [-> | ->]; done).
  unfold req_of, dirty_buf. fold b. destruct (negb _).
  - wp_step. unfold io. wp_step. destruct (command d7 IDE_CMD_WRITE Ph G2 GL) as (d8 & E8 & S8 & P8); [by right|].
    eapply wp_intro; [exact E8|]. wp_step. simpl port. destruct (send_data d8 _ _ (data b) P8 Hd) as (d9 & E9 & P9 & S9).
    eapply wp_intro; [exact E9|]. exists d9. split; [done|]. rewrite P9, Dr, Lb. split; [done|congruence].
  - unfold io. wp_step. destruct (command d7 IDE_CMD_READ Ph G2 GL) as (d8 & E8 & S8 & P8); [by left|].
    eapply wp_intro; [exact E8|]. exists d8. split; [done|]. rewrite P8. simpl (_ =? _). cbv iota. rewrite Dr, Lb. split; [done|congruence].
Qed.

(** ** The queue *)

Fixpoint qlinks (s : istate) (l : list nat) : Prop :=
  match l with [] => True | b :: l' => qnext_of s b = l' !! 0%nat /\ qlinks s l' end.

Record queue_ok (s : istate) (Q : list nat) : Prop := {
  qo_head : idequeue s = Q !! 0%nat;
  qo_links : qlinks s Q;
  qo_nodup : NoDup Q;
  qo_range b : b ∈ Q -> (b < length (ibufs s))%nat;
  qo_len : length (qnext s) = length (ibufs s)
}.

(** The link from which the last element of the queue, or nothing, hangs. *)
Lemma last_link_run s l b : forall fuel, qlinks s (b :: l) -> (length l <= fuel)%nat ->
  last_link fuel (Some b) s = Ret (last (b :: l)) s.
Proof.
  revert b. induction l as [|c l IH]; intros b fuel [E Hl] Hf; destruct fuel as [|fuel]; simpl in Hf; try lia;
    cbn [last_link]; munfold; change (link s (Some b)) with (qnext_of s b); rewrite E; simpl; try done.
  rewrite IH; [done|done|lia].
Qed.

Lemma last_link_queue s Q : queue_ok s Q -> last_link (length (ibufs s)) None s = Ret (last Q) s.
Proof.
  intros [Hh Hl Hn Hr Hq]. destruct Q as [|b Q].
  - destruct (length (ibufs s)); cbn [last_link]; munfold; change (link s None) with (idequeue s); by rewrite Hh.
  - assert (L : (length (b :: Q) <= length (ibufs s))%nat).
    { replace (length (ibufs s)) with (length (seq 0 (length (ibufs s)))) by apply length_seq. apply length_incl; [done|].
      intros x Hx. apply elem_of_seq. specialize (Hr x Hx). lia. }
    destruct (length (ibufs s)) as [|n]; simpl in L; [lia|]. cbn [last_link]. munfold. change (link s None) with (idequeue s). rewrite Hh. simpl.
    apply last_link_run; [done|]. lia.
Qed.

Lemma qlinks_qnext s l c v : c ∉ l -> qlinks s l -> qlinks (set_qnext (<[c := v]> (qnext s)) s) l.
Proof.
  induction l as [|b l IH]; [done|]. intros [N1 N2]%not_elem_of_cons [E H]. split; [|by apply IH].
  unfold qnext_of. simpl. by rewrite list_lookup_insert_ne.
Qed.

(** Appending to the queue. *)
Lemma qlinks_append s l b : NoDup (l ++ [b]) -> qlinks s l -> (forall c, c ∈ l -> (c < length (qnext s))%nat) ->
  qnext_of s b = None ->
  qlinks (match last l with None => s | Some c => set_qnext (<[c := Some b]> (qnext s)) s end) (l ++ [b]).
Proof.
  induction l as [|c l IH]; intros ND Hl Hr Hb; [by split|]. destruct Hl as [E Hl].
  cbn [app] in ND. apply NoDup_cons in ND as [Nc ND]. rewrite not_elem_of_app in Nc. destruct Nc as [Nc Ncb].
  rewrite list_elem_of_singleton in Ncb.
  destruct l as [|c' l].
  - simpl. assert (Lc := Hr c ltac:(left)). split.
    + unfold qnext_of. simpl. by rewrite list_lookup_insert_eq.
    + split; [|done]. unfold qnext_of in *. simpl. by rewrite list_lookup_insert_ne.
  - rewrite last_cons_cons. cbn [app] in *. split.
    + destruct (last (c' :: l)) as [d|] eqn:El; [|done]. unfold qnext_of. simpl.
      rewrite list_lookup_insert_ne; [exact E|]. intros ->. apply Nc. by apply last_Some_elem_of.
    + apply IH; [done|done| |done]. intros x Hx. apply Hr. by right.
Qed.

Definition needs_io (x : buf) : bool := negb (Z.land (flags x) (Z.lor B_VALID B_DIRTY) =? B_VALID).

Lemma qlinks_frame s s' l : qnext s' = qnext s -> qlinks s l -> qlinks s' l.
Proof.
  intros E. induction l as [|b l IH]; [done|]. intros [H1 H2]. split; [|by apply IH]. unfold qnext_of in *. by rewrite E.
Qed.

Lemma queue_frame s s' Q : queue_ok s Q -> idequeue s' = idequeue s -> qnext s' = qnext s -> length (ibufs s') = length (ibufs s) -> queue_ok s' Q.
Proof.
  intros [Hh Hl Hn Hr Hq] E1 E2 E3. split; rewrite ?E1, ?E2, ?E3; try done. by eapply qlinks_frame.
Qed.

(** A request is appended, and started when it is the only one. *)
Lemma iderw_submit_ok s Q b : queue_ok s Q -> b ∉ Q -> (b < length (ibufs s))%nat -> holdingsleep (running s) (lock (ibuf s b)) = true ->
  needs_io (ibuf s b) = true -> dev (ibuf s b) = 0 \/ havedisk1 s = true -> ibuf_ok (ibuf s b) -> (Q = [] -> at_rest (phase (port s))) ->
  wp (iderw_submit patience b) (fun _ s' => queue_ok s' (Q ++ [b]) /\ ibufs s' = ibufs s /\ asleep s' = asleep s /\
    havedisk1 s' = havedisk1 s /\ sectors (port s') = sectors (port s) /\
    if decide (Q = []) then phase (port s') = Busy (req_of (ibuf s b)) else port s' = port s) s.
Proof.
  intros O Nb Hb Hh Hi Hd Hok Hrest. unfold iderw_submit, needs_io in *. wp_step. wp_step. rewrite Hh. simpl negb. cbv iota.
  apply negb_true_iff in Hi. rewrite Hi.
  assert (E : negb (dev (ibuf s b) =? 0) && negb (havedisk1 s) = false) by (destruct Hd as [-> | ->]; [done|apply andb_false_r]). rewrite E.
  wp_step. unfold set_link at 1. wp_step. wp_step. wp_step. set (s1 := set_qnext _ s).
  assert (O1 : queue_ok s1 Q).
  { destruct O as [O1 O2 O3 O4 O5]. split; try done; [by apply qlinks_qnext|]. simpl. by rewrite length_insert. }
  wp_step. eapply wp_intro; [apply (last_link_queue s1 Q O1)|]. wp_step.
  assert (Qb : qnext_of s1 b = None) by (unfold qnext_of, s1; simpl; rewrite list_lookup_insert_eq by (by rewrite (qo_len _ _ O)); done).
  assert (ND : NoDup (Q ++ [b])).
  { apply NoDup_app. split; [apply O|]. split; [|by repeat constructor; intros ?%elem_of_nil]. intros x Hx ->%list_elem_of_singleton. done. }
  assert (Ap := qlinks_append s1 Q b ND (qo_links _ _ O1) ltac:(intros c Hc; rewrite (qo_len _ _ O1); by apply (qo_range _ _ O1)) Qb).
  set (s2 := match last Q with None => set_idequeue (Some b) s1 | Some c => set_qnext (<[c := Some b]> (qnext s1)) s1 end).
  assert (O2 : queue_ok s2 (Q ++ [b])).
  { unfold s2. destruct (last Q) as [c|] eqn:El.
    - destruct Q as [|q Q]; [done|]. destruct O1 as [A1 A2 A3 A4 A5]. split; try done; simpl.
      + intros x Hx. rewrite app_comm_cons in Hx. apply elem_of_app in Hx as [Hx|Hx%list_elem_of_singleton]; [by apply A4|by subst].
      + by rewrite length_insert.
    - apply last_None in El as ->. split; try done; [|apply O1]. intros x Hx%list_elem_of_singleton. by subst. }
  apply (wp_mono _ (fun _ s' => s' = s2)); [unfold set_link, s2; destruct (last Q); wp_step; done|]. intros [] s' ->.
  assert (F2 : ibufs s2 = ibufs s /\ asleep s2 = asleep s /\ havedisk1 s2 = havedisk1 s /\ port s2 = port s) by (unfold s2; destruct (last Q); done).
  destruct F2 as (F2 & F3 & F4 & F5). wp_step. wp_step. rewrite (qo_head _ _ O2). destruct Q as [|q Q].
  - simpl. rewrite bool_decide_true by done. eapply wp_mono; [apply idestart_ok; [rewrite F5; by apply Hrest|]|].
    + unfold ibuf. rewrite F2. exact Hok.
    + intros [] s' (d' & -> & P & Sc). split; [by eapply queue_frame; [exact O2|..]|]. simpl. rewrite Sc, P, F5. unfold ibuf. by rewrite F2.
  - simpl. rewrite bool_decide_false. 2:{ intros [= ->]. apply Nb. left. }
    wp_step. by rewrite F2, F3, F4, F5.
Qed.

(** ** Completion *)

Definition done_flags (f : Z) : Z := Z.land (Z.lor f B_VALID) (Z.lnot B_DIRTY).

(** The buffer after its request was completed on a disk with contents [st]. *)
Definition done_buf (st : Z -> Z -> list Z) (x : buf) : buf :=
  set_flags (done_flags (flags x)) (if dirty_buf x then x else set_data (st (Z.land (dev x) 1) (blockno x)) x).

Lemma done_flags_valid f : Z.land (done_flags f) (Z.lor B_VALID B_DIRTY) = B_VALID.
Proof.
  unfold done_flags. rewrite <- Z.land_assoc. change (Z.land (Z.lnot B_DIRTY) (Z.lor B_VALID B_DIRTY)) with B_VALID.
  apply Z.bits_inj'. intros n Hn. rewrite Z.land_spec, Z.lor_spec. destruct (Z.testbit B_VALID n), (Z.testbit f n); done.
Qed.

Lemma wp_bmod b f (s : istate) Q : Q tt (set_ibufs (<[b := f (ibuf s b)]> (ibufs s)) s) -> wp (bmod b f) Q s.
Proof. intros H. unfold bmod. by wp_step. Qed.

Lemma ibuf_insert (s : istate) b x : (b < length (ibufs s))%nat -> ibuf (set_ibufs (<[b := x]> (ibufs s)) s) b = x.
Proof. intros H. unfold ibuf. simpl. by rewrite list_lookup_insert_eq. Qed.

(** The data of the request and its flags. *)
Lemma wp_complete s b Q : (b < length (ibufs s))%nat -> phase (port s) = Done (req_of (ibuf s b)) ->
  (forall d', at_rest (phase d') -> sectors d' = sectors (port s) ->
     Q tt (set_ibufs (<[b := done_buf (sectors (port s)) (ibuf s b)]> (ibufs s)) (set_port d' s))) ->
  wp (ide_complete patience b) Q s.
Proof.
  intros Hb Hp HQ. set (x := ibuf s b) in *.
  assert (Fl : forall d' y, at_rest (phase d') -> sectors d' = sectors (port s) -> flags y = flags x ->
    set_flags (done_flags (flags x)) y = done_buf (sectors (port s)) x ->
    wp (bmod b (fun x => set_flags (Z.lor (flags x) B_VALID) x);; bmod b (fun x => set_flags (Z.land (flags x) (Z.lnot B_DIRTY)) x)) Q
      (set_ibufs (<[b := y]> (ibufs s)) (set_port d' s))).
  { intros d' y Hr Hs Ey Ed. wp_step. apply wp_bmod.
    assert (E1 : ibuf (set_ibufs (<[b := y]> (ibufs s)) (set_port d' s)) b = y) by (unfold ibuf; simpl; by rewrite list_lookup_insert_eq).
    rewrite E1. apply wp_bmod. rewrite ibuf_insert by (simpl; by rewrite length_insert). unfold set_ibufs. simpl. rewrite !list_insert_insert_eq.
    change (Q tt (set_ibufs (<[b := set_flags (done_flags (flags y)) y]> (ibufs s)) (set_port d' s))).
    rewrite Ey, Ed. by apply HQ. }
  unfold req_of, dirty_buf in Hp. unfold done_buf, dirty_buf in Fl. unfold ide_complete. wp_step. wp_step. fold x. wp_step. destruct (Z.land (flags x) B_DIRTY =? 0) eqn:E; simpl in Hp, Fl.
  - wp_step. eapply wp_mono; [apply idewait_ok; rewrite Hp; right; eauto|]. intros r s1 (-> & d1 & -> & _ & P1 & S1). change (0 <=? 0) with true. cbv iota.
    wp_step. unfold io. wp_step. simpl port. destruct (get_data d1 _ _ ltac:(rewrite P1; exact Hp)) as (d2 & E2 & P2 & S2).
    change (BSIZE / 4) with (SECTOR_SIZE / 4). eapply wp_intro; [exact E2|]. apply wp_bmod.
    change (wp (bmod b (fun x => set_flags (Z.lor (flags x) B_VALID) x);; bmod b (fun x => set_flags (Z.land (flags x) (Z.lnot B_DIRTY)) x)) Q
      (set_ibufs (<[b := set_data (sectors d1 (Z.land (dev x) 1) (blockno x)) x]> (ibufs s)) (set_port d2 s))).
    apply Fl; [rewrite P2; by left|congruence|done|by rewrite S1].
  - wp_step. assert (Ei : s = set_ibufs (<[b := x]> (ibufs s)) (set_port (port s) s)).
    { unfold x, ibuf. destruct (ibufs s !! b) as [y|] eqn:Ey; [|apply lookup_ge_None in Ey; lia]. simpl.
      unfold set_ibufs, set_port. simpl. rewrite list_insert_id by done. by destruct s. }
    rewrite Ei at 1. apply Fl; [rewrite Hp; right; eauto|done|done|done].
Qed.

(** The interrupt completes the first request and starts the next. *)
Lemma ideintr_ok s b Q : queue_ok s (b :: Q) -> phase (port s) = Done (req_of (ibuf s b)) -> (forall c, c ∈ Q -> ibuf_ok (ibuf s c)) ->
  wp (ideintr patience) (fun _ s' => queue_ok s' Q /\ ibufs s' = <[b := done_buf (sectors (port s)) (ibuf s b)]> (ibufs s) /\
    asleep s' = filter (fun c => c ≠ b) (asleep s) /\ havedisk1 s' = havedisk1 s /\ sectors (port s') = sectors (port s) /\
    match Q with [] => at_rest (phase (port s')) | c :: _ => phase (port s') = Busy (req_of (ibuf s c)) end) s.
Proof.
  intros O Hp HQ. unfold ideintr. wp_step. wp_step. rewrite (qo_head _ _ O). simpl lookup. cbv iota.
  assert (Hb := qo_range _ _ O b ltac:(left)). destruct (qo_links _ _ O) as [Eq Hl]. rewrite Eq.
  assert (Nb := qo_nodup _ _ O). apply NoDup_cons in Nb as [Nb ND].
  wp_step. wp_step. wp_step. apply wp_complete; [done|done|]. intros d' Hr Hs.
  wp_step. unfold wakeup. wp_step. wp_step. wp_step. simpl idequeue.
  set (s1 := set_asleep _ _). assert (O1 : queue_ok s1 Q).
  { split; cbn [idequeue ibufs qnext]; try done; [by eapply qlinks_frame, Hl| |]; simpl.
    - intros c Hc. rewrite length_insert. apply (qo_range _ _ O). by right.
    - rewrite length_insert. apply O. }
  destruct Q as [|c Q]; simpl lookup; cbv iota.
  - wp_step. by split_and!.
  - assert (Nc : b ≠ c) by (intros ->; apply Nb; left).
    assert (Ec : ibuf s1 c = ibuf s c) by (unfold ibuf; simpl; by rewrite list_lookup_insert_ne).
    eapply wp_mono; [apply (idestart_ok c s1 Hr); rewrite Ec; apply HQ; left|]. rewrite Ec.
    intros [] s' (d2 & -> & P2 & S2). split; [by eapply queue_frame; [exact O1|..]|]. split_and!; try done. simpl. rewrite S2. exact Hs.
Qed.

(** ** The driver at work *)

(** The driver, the buffers for which a process is in [iderw], whether the
    interrupt is raised, and the requests submitted and completed so far, the
    latter with the data in the buffer. *)
Record isys := ISys {
  drv : istate;
  inside : gset nat;
  irq : bool;
  subs : list (nat * ata_req);
  comp : list (nat * ata_req * list Z)
}.

Definition set_running (pid : Z) (s : istate) : istate :=
  IState (ibufs s) (qnext s) (idequeue s) (havedisk1 s) (port s) (asleep s) pid.

(** A process calls [iderw]; a process changes a buffer outside of [iderw];
    the controller finishes; the interrupt is handled; a process that was woken
    runs again. *)
Inductive istep : isys -> isys -> Prop :=
  | is_submit σ b pid s1 s2 r : b ∉ inside σ -> ibuf_ok (ibuf (drv σ) b) ->
      iderw_submit patience b (set_running pid (drv σ)) = Ret tt s1 -> iderw_check b s1 = Ret r s2 ->
      istep σ (ISys s2 (if r then inside σ else {[b]} ∪ inside σ) (irq σ) (subs σ ++ [(b, req_of (ibuf (drv σ) b))]) (comp σ))
  | is_touch σ b x : b ∉ inside σ ->
      istep σ (ISys (set_ibufs (<[b := x]> (ibufs (drv σ))) (drv σ)) (inside σ) (irq σ) (subs σ) (comp σ))
  | is_finish σ r : phase (port (drv σ)) = Busy r ->
      istep σ (ISys (set_port (finish (port (drv σ))) (drv σ)) (inside σ) true (subs σ) (comp σ))
  | is_intr σ b s' : irq σ = true -> idequeue (drv σ) = Some b -> ideintr patience (drv σ) = Ret tt s' ->
      istep σ (ISys s' (inside σ) false (subs σ) (comp σ ++ [(b, req_of (ibuf (drv σ) b), data (ibuf s' b))]))
  | is_wake σ b r s' : b ∈ inside σ -> b ∉ asleep (drv σ) -> iderw_check b (drv σ) = Ret r s' ->
      istep σ (ISys s' (if r then inside σ ∖ {[b]} else inside σ) (irq σ) (subs σ) (comp σ)).

Definition idle (σ : isys) : Prop :=
  queue_ok (drv σ) [] /\ at_rest (phase (port (drv σ))) /\ asleep (drv σ) = [] /\ inside σ = ∅ /\ irq σ = false /\ subs σ = [] /\ comp σ = [].

(** The contents of the disk after some requests, one at a time. *)
Definition replay (st : Z -> Z -> list Z) (l : list (nat * ata_req * list Z)) : Z -> Z -> list Z :=
  fold_left (fun st e => perform e.1.2 st) l st.

(** Each read returned what was on the disk at that point. *)
Definition legal (st : Z -> Z -> list Z) (l : list (nat * ata_req * list Z)) : Prop :=
  forall l1 b r d l2, l = l1 ++ (b, r, d) :: l2 ->
    match r with AtaRead v a => d = replay st l1 v a | AtaWrite _ _ bs => d = bs end.

Definition pending (σ : isys) (Q : list nat) : list (nat * ata_req) := (fun b => (b, req_of (ibuf (drv σ) b))) <$> Q.

Record ide_inv (st : Z -> Z -> list Z) (σ : isys) (Q : list nat) : Prop := {
  iv_queue : queue_ok (drv σ) Q;
  iv_wait b : b ∈ Q -> b ∈ inside σ /\ b ∈ asleep (drv σ) /\ needs_io (ibuf (drv σ) b) = true /\ ibuf_ok (ibuf (drv σ) b);
  iv_done b : b ∈ inside σ -> b ∉ Q -> needs_io (ibuf (drv σ) b) = false;
  iv_asleep b : b ∈ asleep (drv σ) -> b ∈ Q;
  iv_dev : match Q with
    | [] => irq σ = false /\ at_rest (phase (port (drv σ)))
    | b :: _ => phase (port (drv σ)) = (if irq σ then Done else Busy) (req_of (ibuf (drv σ) b))
    end;
  iv_subs : subs σ = (comp σ).*1 ++ pending σ Q;
  iv_store v a : sectors (port (drv σ)) v a =
    (if irq σ then match Q with [] => replay st (comp σ) | b :: _ => perform (req_of (ibuf (drv σ) b)) (replay st (comp σ)) end
     else replay st (comp σ)) v a;
  iv_legal : legal st (comp σ)
}.

Lemma idle_inv σ : idle σ -> ide_inv (sectors (port (drv σ))) σ [].
Proof.
  intros (H1 & H2 & H3 & H4 & H5 & H6 & H7). split; rewrite ?H3, ?H4, ?H5, ?H6, ?H7; try done.
  - by intros b ?%elem_of_nil.
  - intros l1 b r d l2 E. by destruct l1.
Qed.

Lemma legal_app st l b r d : legal st l -> match r with AtaRead v a => d = replay st l v a | AtaWrite _ _ bs => d = bs end ->
  legal st (l ++ [(b, r, d)]).
Proof.
  intros H Hr l1 b' r' d' l2 E. destruct (decide (l2 = [])) as [->|N].
  - apply app_inj_tail in E as [-> [= -> -> ->]]. done.
  - destruct (exists_last N) as (l3 & e & ->). rewrite (app_comm_cons l3), app_assoc in E. apply app_inj_tail in E as [-> _]. by eapply H.
Qed.

Lemma replay_app st l e : replay st (l ++ [e]) = perform e.1.2 (replay st l).
Proof. unfold replay. by rewrite fold_left_app. Qed.

Lemma check_run b (s : istate) : iderw_check b s =
  if needs_io (ibuf s b) then Ret false (set_asleep (b :: asleep s) s) else Ret true s.
Proof. unfold iderw_check, needs_io. munfold. by destruct (negb _). Qed.

Lemma done_needs_no_io st x : needs_io (done_buf st x) = false.
Proof. unfold needs_io, done_buf. simpl. by rewrite done_flags_valid. Qed.

Lemma pending_frame σ σ' Q : (forall b, b ∈ Q -> ibuf (drv σ') b = ibuf (drv σ) b) -> pending σ' Q = pending σ Q.
Proof. intros H. unfold pending. apply list_fmap_ext. intros i b Hi. by rewrite (H b) by (by eapply list_elem_of_lookup_2). Qed.

(** The tests that [iderw] passed. *)
Lemma submit_checks b (s s' : istate) : iderw_submit patience b s = Ret tt s' ->
  holdingsleep (running s) (lock (ibuf s b)) = true /\ needs_io (ibuf s b) = true /\ (dev (ibuf s b) = 0 \/ havedisk1 s = true).
Proof.
  unfold iderw_submit, needs_io. unfold mbind at 1, M_bind at 1, get at 1. destruct (holdingsleep _ _); [|done]. cbn [negb].
  destruct (_ =? B_VALID); [done|]. destruct (dev (ibuf s b) =? 0) eqn:Ed; bool_prop; [intros _; by split_and!; try done; left|].
  destruct (havedisk1 s); [intros _; by split_and!; try done; right|done].
Qed.

Lemma submit_inv st σ Q b pid s1 s2 r : ide_inv st σ Q -> b ∉ inside σ -> ibuf_ok (ibuf (drv σ) b) ->
  iderw_submit patience b (set_running pid (drv σ)) = Ret tt s1 -> iderw_check b s1 = Ret r s2 ->
  ide_inv st (ISys s2 (if r then inside σ else {[b]} ∪ inside σ) (irq σ) (subs σ ++ [(b, req_of (ibuf (drv σ) b))]) (comp σ)) (Q ++ [b]).
Proof.
  intros [I1 I2 I3 I4 I5 I6 I7 I8] Nb Hok E1 E2. assert (NQ : b ∉ Q) by (intros X; by apply Nb, I2).
  set (s0 := set_running pid (drv σ)) in *. assert (Eb : ibuf s0 b = ibuf (drv σ) b) by done.
  assert (O0 : queue_ok s0 Q) by (by eapply queue_frame; [exact I1|..]).
  (* the checks of iderw passed *)
  assert (Ck := submit_checks _ _ _ E1).
  destruct Ck as (C1 & C2 & C3).
  assert (Hb : (b < length (ibufs s0))%nat).
  { destruct (decide (b < length (ibufs s0))%nat); [done|]. unfold ibuf in C1. rewrite lookup_ge_None_2 in C1 by lia. done. }
  assert (W := iderw_submit_ok s0 Q b O0 NQ Hb C1 C2 C3 ltac:(by rewrite Eb)).
  assert (Hrest : Q = [] -> at_rest (phase (port s0))) by (intros ->; apply I5). specialize (W Hrest).
  unfold wp in W. rewrite E1 in W. destruct W as (O1 & B1 & A1 & _ & S1 & P1).
  assert (Ei : forall c, ibuf s1 c = ibuf (drv σ) c) by (intros c; unfold ibuf; by rewrite B1).
  rewrite check_run, Ei in E2. rewrite Eb in C2. rewrite C2 in E2. injection E2 as <- <-.
  split; cbn [drv inside irq subs comp].
  - by eapply queue_frame; [exact O1|..].
  - intros c [Hc|Hc%list_elem_of_singleton]%elem_of_app.
    + destruct (I2 c Hc) as (X1 & X2 & X3 & X4). split_and!; [set_solver|simpl; rewrite A1; by right|by rewrite <- Ei in X3|by rewrite <- Ei in X4].
    + subst c. split_and!; [set_solver|left|by rewrite <- Ei in C2|by rewrite <- Ei in Hok].
  - intros c [->%elem_of_singleton|Hc]%elem_of_union Nc; [exfalso; apply Nc, elem_of_app; right; left|].
    change (needs_io (ibuf s1 c) = false). rewrite Ei. apply I3; [done|]. intros X. apply Nc, elem_of_app. by left.
  - intros c [->|Hc]%elem_of_cons; apply elem_of_app; [right; left|]. rewrite A1 in Hc. left. by apply I4.
  - destruct Q as [|q Q]; simpl; simpl in P1.
    + destruct I5 as [-> _]. rewrite P1, Eb. do 2 f_equal. symmetry. apply Ei.
    + rewrite P1. change (ibuf (set_asleep (b :: asleep s1) s1) q) with (ibuf s1 q). by rewrite Ei.
  - rewrite I6, <- app_assoc. f_equal. unfold pending. rewrite fmap_app. simpl. f_equal; [|by rewrite <- (Ei b)].
    apply list_fmap_ext. intros k c Hc. by rewrite <- (Ei c).
  - intros v a. simpl. rewrite S1. change (sectors (port s0) v a) with (sectors (port (drv σ)) v a). rewrite I7.
    destruct (irq σ) eqn:Eq; [|done]. destruct Q as [|q Q]; [by destruct I5|]. simpl.
    change (ibuf (set_asleep (b :: asleep s1) s1) q) with (ibuf s1 q). by rewrite Ei.
  - done.
Qed.

(** A change of buffers outside of the queue. *)
Lemma touch_inv st σ Q b x : ide_inv st σ Q -> b ∉ inside σ ->
  ide_inv st (ISys (set_ibufs (<[b := x]> (ibufs (drv σ))) (drv σ)) (inside σ) (irq σ) (subs σ) (comp σ)) Q.
Proof.
  intros [I1 I2 I3 I4 I5 I6 I7 I8] Nb. assert (NQ : b ∉ Q) by (intros X; by apply Nb, I2).
  assert (Ei : forall c, c ≠ b -> ibuf (set_ibufs (<[b := x]> (ibufs (drv σ))) (drv σ)) c = ibuf (drv σ) c).
  { intros c N. unfold ibuf. simpl. by rewrite list_lookup_insert_ne. }
  assert (Eq : forall c, c ∈ Q -> ibuf (set_ibufs (<[b := x]> (ibufs (drv σ))) (drv σ)) c = ibuf (drv σ) c).
  { intros c Hc. apply Ei. by intros ->. }
  split; cbn [drv inside irq subs comp]; try done.
  - eapply queue_frame; [exact I1|done|done|]. simpl. by rewrite length_insert.
  - intros c Hc. rewrite (Eq c Hc). by apply I2.
  - intros c Hc Nc. rewrite Ei; [by apply I3|]. by intros ->.
  - destruct Q as [|q Q]; [done|]. rewrite (Eq q) by left. done.
  - rewrite I6. f_equal. symmetry. by apply pending_frame.
  - intros v a. simpl. rewrite I7. destruct Q as [|q Q]; [done|]. rewrite (Eq q) by left. done.
Qed.

Lemma finish_inv st σ Q r : ide_inv st σ Q -> phase (port (drv σ)) = Busy r ->
  ide_inv st (ISys (set_port (finish (port (drv σ))) (drv σ)) (inside σ) true (subs σ) (comp σ)) Q.
Proof.
  intros [I1 I2 I3 I4 I5 I6 I7 I8] Hp. destruct (finished _ _ Hp) as [P S]. destruct Q as [|q Q].
  { destruct I5 as [_ [X|[r' X]]]; congruence. }
  assert (Eq : irq σ = false /\ r = req_of (ibuf (drv σ) q)) by (destruct (irq σ); split; congruence). destruct Eq as [Ef ->].
  split; cbn [drv inside irq subs comp]; try done; [by eapply queue_frame; [exact I1|..]|].
  intros v a. simpl. rewrite S. unfold perform. rewrite Ef in I7. destruct (req_of _); [apply I7|]. simpl. case_decide; [done|apply I7].
Qed.

Lemma intr_inv st σ Q b s' : ide_inv st σ Q -> irq σ = true -> idequeue (drv σ) = Some b -> ideintr patience (drv σ) = Ret tt s' ->
  exists Q', Q = b :: Q' /\
    ide_inv st (ISys s' (inside σ) false (subs σ) (comp σ ++ [(b, req_of (ibuf (drv σ) b), data (ibuf s' b))])) Q'.
Proof.
  intros [I1 I2 I3 I4 I5 I6 I7 I8] Hq Hb E. assert (Hh := qo_head _ _ I1). rewrite Hb in Hh. destruct Q as [|q Q]; [done|].
  injection Hh as <-. exists Q. split; [done|]. rewrite Hq in I5, I7.
  assert (W := ideintr_ok (drv σ) b Q I1 I5 ltac:(intros c Hc; apply I2; by right)). unfold wp in W. rewrite E in W.
  destruct W as (O' & B' & A' & _ & S' & P'). assert (Nb := qo_nodup _ _ I1). apply NoDup_cons in Nb as [Nb ND].
  assert (Lb := qo_range _ _ I1 b ltac:(left)).
  assert (Eb : ibuf s' b = done_buf (sectors (port (drv σ))) (ibuf (drv σ) b)) by (unfold ibuf at 1; rewrite B', list_lookup_insert_eq; done).
  assert (Ei : forall c, c ≠ b -> ibuf s' c = ibuf (drv σ) c) by (intros c N; unfold ibuf; by rewrite B', list_lookup_insert_ne).
  assert (Eq : forall c, c ∈ Q -> ibuf s' c = ibuf (drv σ) c) by (intros c Hc; apply Ei; by intros ->).
  split; cbn [drv inside irq subs comp].
  - done.
  - intros c Hc. rewrite (Eq c Hc). destruct (I2 c) as (X1 & X2 & X3 & X4); [by right|]. split_and!; try done.
    rewrite A', list_elem_of_filter. split; [by intros ->|done].
  - intros c Hc Nc. destruct (decide (c = b)) as [->|N]; [rewrite Eb; apply done_needs_no_io|]. rewrite Ei by done.
    apply I3; [done|]. by intros [->|?]%elem_of_cons.
  - intros c Hc. rewrite A', list_elem_of_filter in Hc. destruct Hc as [N Hc]. apply I4, elem_of_cons in Hc as [->|Hc]; done.
  - destruct Q as [|c Q]; [done|]. by rewrite (Eq c) by left.
  - rewrite I6, fmap_app, <- app_assoc. simpl. do 2 f_equal. symmetry. by apply pending_frame.
  - intros v a. rewrite S', I7, replay_app. done.
  - apply legal_app; [done|]. rewrite Eb. unfold done_buf, req_of. destruct (dirty_buf _) eqn:Ed; [done|]. simpl.
    rewrite I7. unfold req_of. by rewrite Ed.
Qed.

Lemma wake_inv st σ Q b r s' : ide_inv st σ Q -> b ∈ inside σ -> b ∉ asleep (drv σ) -> iderw_check b (drv σ) = Ret r s' ->
  r = true /\ ide_inv st (ISys s' (inside σ ∖ {[b]}) (irq σ) (subs σ) (comp σ)) Q.
Proof.
  intros [I1 I2 I3 I4 I5 I6 I7 I8] Hb Na E. assert (NQ : b ∉ Q) by (intros X; by apply Na, I2).
  rewrite check_run, (I3 b Hb NQ) in E. injection E as <- <-. split; [done|]. split; cbn [drv inside irq subs comp]; try done.
  - intros c Hc. destruct (I2 c Hc) as (X1 & X2 & X3 & X4). split_and!; try done. apply elem_of_difference. split; [done|].
    intros ->%elem_of_singleton. done.
  - intros c [Hc _]%elem_of_difference. by apply I3.
Qed.

Lemma istep_inv st σ σ' Q : ide_inv st σ Q -> istep σ σ' -> exists Q', ide_inv st σ' Q'.
Proof.
  intros I H. destruct H as [σ b pid s1 s2 r Nb Hok E1 E2|σ b x Nb|σ r Hp|σ b s' Hq Hb E|σ b r s' Hb Na E].
  - exists (Q ++ [b]). by eapply submit_inv.
  - exists Q. by apply touch_inv.
  - exists Q. by eapply finish_inv.
  - destruct (intr_inv st σ Q b s' I Hq Hb E) as (Q' & _ & I'). by exists Q'.
  - destruct (wake_inv st σ Q b r s' I Hb Na E) as [-> I']. by exists Q.
Qed.

(** C11: whatever the order in which processes submit requests, the controller
    finishes and processes run: the requests completed are the first ones
    submitted, in that order, and [Q] are the others; each read got what the
    writes completed before it left on the disk, and the disk holds what all
    completed writes left; a process that is in [iderw] sleeps while its request
    is in [Q] and is awake, with its buffer valid and not dirty, when it is not;
    and while [Q] is not empty the controller works, or its interrupt completes
    the first request. *)
Theorem ide_linearizable σ0 σ : idle σ0 -> rtc istep σ0 σ -> let st := sectors (port (drv σ0)) in exists Q,
  subs σ = (comp σ).*1 ++ pending σ Q /\ legal st (comp σ) /\
  (irq σ = false -> forall v a, sectors (port (drv σ)) v a = replay st (comp σ) v a) /\
  (forall b, b ∈ inside σ -> b ∈ Q /\ b ∈ asleep (drv σ) \/ b ∉ Q /\ b ∉ asleep (drv σ) /\ needs_io (ibuf (drv σ) b) = false) /\
  (forall b Q', Q = b :: Q' ->
     irq σ = false /\ phase (port (drv σ)) = Busy (req_of (ibuf (drv σ) b)) \/
     irq σ = true /\ exists s', ideintr patience (drv σ) = Ret tt s' /\
       istep σ (ISys s' (inside σ) false (subs σ) (comp σ ++ [(b, req_of (ibuf (drv σ) b), data (ibuf s' b))]))).
Proof.
  intros H0 R st. assert (I : exists Q, ide_inv st σ Q).
  { eapply (rtc_invariant istep (fun σ => exists Q, ide_inv st σ Q)); [|exact R|exists []; by apply idle_inv].
    intros x y Hs [Q I]. by eapply istep_inv. }
  destruct I as [Q [I1 I2 I3 I4 I5 I6 I7 I8]]. exists Q. split_and!; try done.
  - intros Ei v a. by rewrite I7, Ei.
  - intros b Hb. destruct (decide (b ∈ Q)) as [X|X]; [left; by destruct (I2 b X) as (_ & Y & _)|]. right. split; [done|]. split; [|by apply I3].
    intros Y. by apply X, I4.
  - intros b Q' ->. destruct (irq σ) eqn:Ei; [right|by left]. split; [done|].
    assert (W := ideintr_ok (drv σ) b Q' I1 I5 ltac:(intros c Hc; apply I2; by right)). unfold wp in W.
    destruct (ideintr patience (drv σ)) as [[] s'| | |] eqn:E; try done. exists s'. split; [done|]. apply is_intr; [done|apply I1|done].
Qed.

(** ** The memory disk *)

Lemma done_flags_dirty f : done_flags f = Z.lor (Z.land f (Z.lnot B_DIRTY)) B_VALID.
Proof.
  unfold done_flags. apply Z.bits_inj'. intros n Hn. rewrite !Z.land_spec, !Z.lor_spec, !Z.land_spec.
  destruct (Z.eq_dec n 1) as [->|N]; [by destruct (Z.testbit f 1)|].
  assert (E : Z.testbit B_VALID n = false).
  { change B_VALID with (2 ^ 1). by apply Z.pow2_bits_false. } rewrite E, !orb_false_r. done.
Qed.

Lemma done_flags_clean f : Z.land f B_DIRTY = 0 -> done_flags f = Z.lor f B_VALID.
Proof.
  intros H. rewrite done_flags_dirty. f_equal. apply Z.bits_inj'. intros n Hn. rewrite Z.land_spec, Z.lnot_spec by done.
  apply (f_equal (fun x => Z.testbit x n)) in H. rewrite Z.land_spec, Z.bits_0 in H. destruct (Z.testbit f n), (Z.testbit B_DIRTY n); done.
Qed.

(** The interrupt that completes a request has the effect that the call of
    [iderw] of memide.c has as a whole: the same buffer, and the same contents
    of the disk.  [st] is the disk before the request. *)
Theorem ide_like_memide s b Q st c i s' c' : queue_ok s (b :: Q) -> phase (port s) = Done (req_of (ibuf s b)) ->
  (forall q, q ∈ Q -> ibuf_ok (ibuf s q)) -> (forall v a, sectors (port s) v a = perform (req_of (ibuf s b)) st v a) ->
  bufat c i = ibuf s b -> (i < length (bcbuf c))%nat -> dev (ibuf s b) = 1 -> 0 <= blockno (ibuf s b) ->
  (forall a, 0 <= a < disksize (ide c) -> disk_read (ide c) a = st 1 a) ->
  ideintr patience s = Ret tt s' -> iderw i c = Ret tt c' ->
  bufat c' i = ibuf s' b /\ forall a, 0 <= a < disksize (ide c) -> disk_read (ide c') a = sectors (port s') 1 a.
Proof.
  intros O P HQ Hst Ec Hi Hd Hb0 Hdisk E1 E2. assert (W := ideintr_ok s b Q O P HQ). unfold wp in W. rewrite E1 in W.
  destruct W as (_ & B' & _ & _ & S' & _). assert (Lb := qo_range _ _ O b ltac:(left)).
  assert (Eb : ibuf s' b = done_buf (sectors (port s)) (ibuf s b)) by (unfold ibuf at 1; rewrite B', list_lookup_insert_eq; done).
  rewrite Eb, S'. set (x := ibuf s b) in *. clearbody x. unfold iderw in E2. rewrite Ec in E2.
  destruct (negb (holdingsleep _ _)); [done|]. destruct (_ =? B_VALID); [done|]. rewrite Hd in E2. simpl in E2.
  destruct (disksize (ide c) <=? blockno x) eqn:Eg; [done|]. bool_prop.
  assert (Bi : forall f c0, (i < length (bcbuf c0))%nat -> bufat (set_buf i f c0) i = f (bufat c0 i)).
  { intros f c0 L. unfold bufat at 1, set_buf, set_bcbuf. simpl. by rewrite list_lookup_insert_eq. }
  unfold done_buf, req_of, dirty_buf in *. rewrite Hd in *. change (Z.land 1 1) with 1 in *.
  destruct (negb (Z.land (flags x) B_DIRTY =? 0)) eqn:Ed; injection E2 as <-; simpl.
  - split.
    + rewrite Bi by (unfold set_ide, set_buf, set_bcbuf; simpl; by rewrite length_insert).
      change (bufat (set_ide _ ?c0) i) with (bufat c0 i). rewrite Bi, Ec by done. rewrite done_flags_dirty. done.
    + intros a Ha. rewrite Hst. simpl. unfold disk_read, disk_write. simpl. unfold disksize in *.
      case_decide as X; [destruct X as [_ ->]; by rewrite rd_wr_eq|].
      rewrite rd_wr_ne; [by apply Hdisk|]. intros E. apply X. done.
  - apply negb_false_iff in Ed. bool_prop. split.
    + rewrite Bi by (unfold set_buf, set_bcbuf; simpl; by rewrite length_insert). rewrite Bi, Ec by done. rewrite done_flags_clean by done.
      rewrite Hst, Hdisk by lia. done.
    + intros a Ha. rewrite Hst. simpl. by apply Hdisk.
Qed.
End spec.

(** After an error the data is not taken, but the buffer is marked valid. *)
Theorem ide_error_valid {D} {AP : AtaPorts D} patience (s : istate D) b : (b < length (ibufs s))%nat ->
  Z.land (flags (ibuf s b)) B_DIRTY = 0 -> (exists d', idewait patience true s = Ret (-1) (set_port d' s)) ->
  exists s', ide_complete patience b s = Ret tt s' /\ data (ibuf s' b) = data (ibuf s b) /\ needs_io (ibuf s' b) = false.
Proof.
  intros Hb Hf (d' & E). unfold ide_complete. munfold. rewrite (proj2 (Z.eqb_eq _ _) Hf), E. simpl.
  eexists. split; [reflexivity|]. unfold bmod, modify, needs_io, ibuf. simpl.
  rewrite !list_lookup_insert_eq by (rewrite ?length_insert; done). simpl. split; [done|]. apply negb_false_iff, Z.eqb_eq, done_flags_valid.
Qed.

(** ** A simulated controller *)

Record sim := Sim { sim_reg : Z -> Z; sim_phase : ata_phase; sim_sectors : Z -> Z -> list Z; sim_polls : nat }.

Definition sim_left (d : sim) : nat := Nat.min (sim_polls d) 2.

Definition sim_command (d : sim) (c : Z) : ata_phase :=
  let drive := Z.land (Z.shiftr (sim_reg d 0x1f6) 4) 1 in
  let lba := sim_reg d 0x1f3 + 256 * sim_reg d 0x1f4 + 65536 * sim_reg d 0x1f5 + 2 ^ 24 * Z.land (sim_reg d 0x1f6) 15 in
  if c =? IDE_CMD_READ then Busy (AtaRead drive lba) else Wants drive lba.

#[export] Instance sim_ports : AtaPorts sim := {|
  outb p v := modify (fun d =>
    if p =? 0x1f7 then Sim (sim_reg d) (sim_command d v) (sim_sectors d) 0
    else if p =? 0x3f6 then d
    else Sim (fun q => if decide (q = p) then v else sim_reg d q) (sim_phase d) (sim_sectors d) (sim_polls d));
  inb p := fun d =>
    match sim_left d with
    | S n => Ret IDE_BSY (Sim (sim_reg d) (sim_phase d) (sim_sectors d) n)
    | O => Ret IDE_DRDY d
    end;
  outsl p bs := modify (fun d =>
    match sim_phase d with Wants v a => Sim (sim_reg d) (Busy (AtaWrite v a bs)) (sim_sectors d) (sim_polls d) | _ => d end);
  insl p n := fun d =>
    match sim_phase d with
    | Done (AtaRead v a) => Ret (sim_sectors d v a) (Sim (sim_reg d) Free (sim_sectors d) (sim_polls d))
    | _ => Ret [] d
    end
|}.

Definition sim_finish (d : sim) : sim :=
  match sim_phase d with Busy r => Sim (sim_reg d) (Done r) (perform r (sim_sectors d)) 1 | _ => d end.

#[local] Obligation Tactic := idtac.
#[export] Program Instance sim_laws : AtaLaws sim 2 := {|
  reg := sim_reg; phase := sim_phase; sectors := sim_sectors; polls := sim_left; finish := sim_finish
|}.
Next Obligation. intros d n E. simpl. rewrite E. eexists _, _. split; [reflexivity|]. split_and!; try done. unfold sim_left in *. simpl. lia. Qed.
Next Obligation. intros d E. simpl. rewrite E. by eexists _, _. Qed.
Next Obligation. intros d _. unfold sim_left. lia. Qed.
Next Obligation.
  intros d p v Hp Hv. simpl. unfold modify. rewrite (proj2 (Z.eqb_neq p 0x1f7)), (proj2 (Z.eqb_neq p 0x3f6)) by lia. by eexists.
Qed.
Next Obligation. intros d. by eexists. Qed.
Next Obligation. intros d c _ _ _ _. by eexists. Qed.
Next Obligation. intros d v a bs E _. simpl. unfold modify. rewrite E. by eexists. Qed.
Next Obligation. intros d r E. unfold sim_finish. by rewrite E. Qed.
Next Obligation. intros d v a E. simpl. rewrite E. by eexists. Qed.

(** One buffer of disk 1, to be read, and the disk with zeroes and one block of
    ones. *)
Definition demo_buf : buf := Buf 0 1 7 (SleepLock true 5) 1 zero_block.
Definition demo_sectors (v a : Z) : list Z := if decide (v = 1 /\ a = 7) then replicate 512 1 else zero_block.
Definition demo_ide : istate sim := IState [demo_buf] [None] None true (Sim (fun _ => 0) Free demo_sectors 2) [] 5.
Definition demo_sys0 : isys (D := sim) := ISys demo_ide ∅ false [] [].

Lemma demo_idle : idle 2 demo_sys0.
Proof. split_and!; try done; [|by left]. split; try done; [constructor|]. by intros b ?%elem_of_nil. Qed.

(** The process submits the request, the controller finishes, the interrupt is
    handled, and the process returns. *)
Definition ran {A} (m : M (istate sim) A) (s : istate sim) : istate sim := match m s with Ret _ s' => s' | _ => s end.
Definition demo_ide1 : istate sim := ran (iderw_submit 2 0) (set_running 5 demo_ide).
Definition demo_ide2 : istate sim := ran (iderw_check 0) demo_ide1.
Definition demo_ide3 : istate sim := set_port (sim_finish (port demo_ide2)) demo_ide2.
Definition demo_ide4 : istate sim := ran (ideintr 2) demo_ide3.
Definition demo_sys4 : isys (D := sim) :=
  ISys demo_ide4 ({[0%nat]} ∖ {[0%nat]}) false [(0%nat, AtaRead 1 7)] [(0%nat, AtaRead 1 7, replicate 512 1)].

Lemma demo_ide_run : rtc (istep 2) demo_sys0 demo_sys4.
Proof.
  eapply rtc_l; [apply (is_submit 2 demo_sys0 0 5 demo_ide1 demo_ide2 false)|].
  - apply not_elem_of_empty.
  - split; [vm_compute; split; congruence|reflexivity].
  - vm_compute. reflexivity.
  - vm_compute. reflexivity.
  - eapply rtc_l; [apply (is_finish 2 _ (AtaRead 1 7)); vm_compute; reflexivity|].
    eapply rtc_l; [apply (is_intr 2 _ 0 demo_ide4); vm_compute; reflexivity|].
    assert (E : demo_sys4 = ISys demo_ide4 (({[0%nat]} ∪ ∅) ∖ {[0%nat]}) false ([] ++ [(0%nat, req_of demo_buf)])
      ([] ++ [(0%nat, req_of demo_buf, data (ibuf demo_ide4 0))])) by (vm_compute; reflexivity).
    rewrite E. eapply rtc_l; [apply (is_wake 2 _ 0 true demo_ide4)|apply rtc_refl].
    + set_solver.
    + vm_compute. by intros ?%elem_of_nil.
    + vm_compute. reflexivity.
Qed.

Lemma ide_linearizable_witness : rtc (istep 2) demo_sys0 demo_sys4 /\ legal demo_sectors (comp demo_sys4) /\
  comp demo_sys4 = [(0%nat, AtaRead 1 7, demo_sectors 1 7)].
Proof.
  split; [apply demo_ide_run|]. destruct (ide_linearizable 2 demo_sys0 demo_sys4 demo_idle demo_ide_run) as (Q & _ & H & _).
  split; [exact H|reflexivity].
Defined.

(** The same request on a memory disk. *)
Definition demo_image : disk := Disk (replicate 7 zero_block ++ [replicate 512 1]) [].
Definition demo_cache : bcache := Bcache [demo_buf] [] [] demo_image 5.

Lemma ide_like_memide_witness : exists s' c', ideintr 2 demo_ide3 = Ret tt s' /\ iderw 0 demo_cache = Ret tt c' /\
  bufat c' 0 = ibuf s' 0 /\ data (ibuf s' 0) = replicate 512 1.
Proof.
  exists demo_ide4, (match iderw 0 demo_cache with Ret _ c => c | _ => demo_cache end).
  assert (E1 : ideintr 2 demo_ide3 = Ret tt demo_ide4) by (vm_compute; reflexivity).
  assert (E2 : iderw 0 demo_cache = Ret tt (match iderw 0 demo_cache with Ret _ c => c | _ => demo_cache end)) by (vm_compute; reflexivity).
  split; [exact E1|]. split; [exact E2|]. split; [|vm_compute; reflexivity].
  apply (ide_like_memide 2 demo_ide3 0 [] demo_sectors demo_cache 0 demo_ide4 _); try exact E1; try exact E2; try reflexivity.
  - split; try (vm_compute; reflexivity); [vm_compute; split; done|repeat constructor; by intros ?%elem_of_nil|].
    intros b ->%list_elem_of_singleton. vm_compute. lia.
  - by intros q ?%elem_of_nil.
  - simpl. lia.
  - vm_compute. congruence.
  - intros a Ha. change (disksize (ide demo_cache)) with 8 in Ha.
    assert (C : a = 0 \/ a = 1 \/ a = 2 \/ a = 3 \/ a = 4 \/ a = 5 \/ a = 6 \/ a = 7) by lia.
    destruct C as [->|[->|[->|[->|[->|[->|[->| ->]]]]]]]; vm_compute; reflexivity.
Defined.
