(* ===== verification/Log.v ===== *)
(** * The write-ahead log (log.c)

    The log over the buffer cache: transactions of file-system calls, commit,
    and recovery after a crash. *)

From S2P Require Import Prelude Param SleepLock Layout Bio.

(** ** State *)

(** [struct log] with its embedded [struct logheader]: [lh_n] and
    [lh_block] are [log.lh.n] and [log.lh.block].  [wakeups] counts the calls
    of [wakeup(&log)], whose effect is on the process table. *)
Record log := Log {
  start : Z;
  size : Z;
  outstanding : Z;
  committing : bool;
  ldev : Z;
  lh_n : Z;
  lh_block : list Z;
  wakeups : nat
}.

Record lstate := LState {
  bio : bcache;
  lg : log
}.

Definition set_bio b s := LState b (lg s).
Definition set_lg l s := LState (bio s) l.

Definition set_outstanding v l := Log (start l) (size l) v (committing l) (ldev l) (lh_n l) (lh_block l) (wakeups l).
Definition set_committing v l := Log (start l) (size l) (outstanding l) v (ldev l) (lh_n l) (lh_block l) (wakeups l).
Definition set_lh_n v l := Log (start l) (size l) (outstanding l) (committing l) (ldev l) v (lh_block l) (wakeups l).
Definition set_lh_block v l := Log (start l) (size l) (outstanding l) (committing l) (ldev l) (lh_n l) v (wakeups l).
Definition set_wakeups v l := Log (start l) (size l) (outstanding l) (committing l) (ldev l) (lh_n l) (lh_block l) v.

Definition bio_op {A} (m : M bcache A) : M lstate A := zoom bio set_bio m.
Definition log_mod (f : log -> log) : M lstate unit := modify (fun s => set_lg (f (lg s)) s).

Definition wakeup_log : M lstate unit := log_mod (fun l => set_wakeups (S (wakeups l)) l).

(** [b->data], read and assigned through a buffer the caller holds. *)
Definition bdata (b : nat) : M lstate block := gets (fun s => data (bufat (bio s) b)).
Definition set_bdata (b : nat) (d : block) : M lstate unit := bio_op (bufwrite b d).

(** ** Installing, reading and writing the log *)

Definition install_one (tail : Z) : M lstate unit :=
  l ← gets lg;
  lbuf ← bio_op (bread (ldev l) (start l + tail + 1));
  dbuf ← bio_op (bread (ldev l) (rd 0 (lh_block l) tail));
  d ← bdata lbuf;
  set_bdata dbuf d;;
  bio_op (bwrite dbuf);;
  bio_op (brelse lbuf);;
  bio_op (brelse dbuf).

(** [for (tail = lo; tail < hi; tail++) body(tail)], [n] iterations. *)
Fixpoint for_from (body : Z -> M lstate unit) (tail : Z) (n : nat) : M lstate unit :=
  match n with
  | O => mret tt
  | S n' => body tail;; for_from body (tail + 1) n'
  end.

Definition install_trans : M lstate unit :=
  l ← gets lg;
  for_from install_one 0 (Z.to_nat (lh_n l)).

(** The loop of [read_head] copies [n] block numbers out of the header. *)
Fixpoint copy_head (d : block) (i : Z) (n : nat) (l : list Z) : list Z :=
  match n with
  | O => l
  | S n' => copy_head d (i + 1) n' (wr l i (geti32 d (4 + 4 * i)))
  end.

Definition read_head : M lstate unit :=
  l ← gets lg;
  b ← bio_op (bread (ldev l) (start l));
  d ← bdata b;
  log_mod (set_lh_n (geti32 d 0));;
  log_mod (fun l => set_lh_block (copy_head d 0 (Z.to_nat (lh_n l)) (lh_block l)) l);;
  bio_op (brelse b).

(** The loop of [write_head] stores [n] block numbers into the header. *)
Fixpoint store_head (l : list Z) (i : Z) (n : nat) (d : block) : block :=
  match n with
  | O => d
  | S n' => store_head l (i + 1) n' (put32 d (4 + 4 * i) (rd 0 l i))
  end.

Definition write_head : M lstate unit :=
  l ← gets lg;
  b ← bio_op (bread (ldev l) (start l));
  d ← bdata b;
  set_bdata b (store_head (lh_block l) 0 (Z.to_nat (lh_n l)) (put32 d 0 (lh_n l)));;
  bio_op (bwrite b);;
  bio_op (brelse b).

Definition recover_from_log : M lstate unit :=
  read_head;;
  install_trans;;
  log_mod (set_lh_n 0);;
  write_head.

(** [readsb] of fs.c: read the super block. *)
Definition readsb (dev' : Z) : M lstate superblock :=
  b ← bio_op (bread dev' 1);
  d ← bdata b;
  bio_op (brelse b);;
  mret (read_superblock d).

Definition sizeof_logheader : Z := 4 + 4 * LOGSIZE.

Definition initlog (dev' : Z) : M lstate unit :=
  if BSIZE <=? sizeof_logheader then panic "initlog: too big logheader"
  else
    sb ← readsb dev';
    log_mod (fun l => Log (s32 (sb_logstart sb)) (s32 (sb_nlog sb)) (outstanding l)
                          (committing l) dev' (lh_n l) (lh_block l) (wakeups l));;
    recover_from_log.

(** ** Transactions *)

(** [begin_op]: the caller sleeps while the log commits or may run out of
    space. *)
Definition begin_op : M lstate unit :=
  l ← gets lg;
  if committing l then blocked
  else if LOGSIZE <? lh_n l + (outstanding l + 1) * MAXOPBLOCKS then blocked
  else log_mod (set_outstanding (outstanding l + 1)).

Definition write_log_one (tail : Z) : M lstate unit :=
  l ← gets lg;
  to ← bio_op (bread (ldev l) (start l + tail + 1));
  from ← bio_op (bread (ldev l) (rd 0 (lh_block l) tail));
  d ← bdata from;
  set_bdata to d;;
  bio_op (bwrite to);;
  bio_op (brelse from);;
  bio_op (brelse to).

Definition write_log : M lstate unit :=
  l ← gets lg;
  for_from write_log_one 0 (Z.to_nat (lh_n l)).

Definition commit : M lstate unit :=
  l ← gets lg;
  if 0 <? lh_n l then
    write_log;;
    write_head;;
    install_trans;;
    log_mod (set_lh_n 0);;
    write_head
  else mret tt.

Definition end_op : M lstate unit :=
  log_mod (fun l => set_outstanding (outstanding l - 1) l);;
  l ← gets lg;
  if committing l then panic "log.committing"
  else if outstanding l =? 0 then
    log_mod (set_committing true);;
    commit;;
    log_mod (set_committing false);;
    wakeup_log
  else wakeup_log.

(** The search loop of [log_write]: the first [i < n] with
    [log.lh.block[i] == blockno], or [n]. *)
Fixpoint absorb (l : list Z) (bn : Z) (i : Z) (n : nat) : Z :=
  match n with
  | O => i
  | S n' => if rd 0 l i =? bn then i else absorb l bn (i + 1) n'
  end.

Definition log_write (b : nat) : M lstate unit :=
  l ← gets lg;
  if (LOGSIZE <=? lh_n l) || (size l - 1 <=? lh_n l) then panic "too big a transaction"
  else if outstanding l <? 1 then panic "log_write outside of trans"
  else
    bn ← gets (fun s => blockno (bufat (bio s) b));
    let i := absorb (lh_block l) bn 0 (Z.to_nat (lh_n l)) in
    log_mod (set_lh_block (wr (lh_block l) i bn));;
    (if i =? lh_n l then log_mod (set_lh_n (lh_n l + 1)) else mret tt);;
    bio_op (bufdirty b).

(** ** Rules for the buffer operations of the log *)

(** Block [b] of the disk is readable through the cache. *)
Definition on_disk (s : lstate) (b : Z) : Prop := 0 <= b < disksize (ide (bio s)).

Lemma wp_bread s a b Q :
  bio_rep (bio s) a -> on_disk s b -> (forall i, aheld a !! i ≠ Some b) -> room a b ->
  (forall i t, aheld a !! i = None ->
     bio_rep t (Store (aview a) (adirty a) (<[i := b]> (aheld a))) ->
     ide t = ide (bio s) -> Q i (set_bio t s)) ->
  wp (bio_op (bread 1 b)) Q s.
Proof.
  intros R Hb Hh Hr HQ. apply wp_zoom.
  destruct (bread_rep _ _ _ R Hb Hh Hr) as (i & t & E & Hn & R' & Ei & _).
  apply (wp_intro _ _ _ _ _ E). by apply HQ.
Qed.

Lemma wp_bdata s a i b Q :
  bio_rep (bio s) a -> aheld a !! i = Some b -> Q (aview a b) s -> wp (bdata i) Q s.
Proof.
  intros R Hh HQ. apply wp_gets. destruct (held_buf _ _ _ _ R Hh) as (_&_&fl&_&_& ->). done.
Qed.

Lemma wp_set_bdata s a i b d Q :
  bio_rep (bio s) a -> aheld a !! i = Some b -> is_block d ->
  (forall t, bio_rep t (Store (fupd (aview a) b d) (adirty a) (aheld a)) ->
     ide t = ide (bio s) -> Q tt (set_bio t s)) ->
  wp (set_bdata i d) Q s.
Proof.
  intros R Hh Hd HQ. apply wp_zoom.
  destruct (bufwrite_rep _ _ _ _ _ R Hh Hd) as (t & E & R' & Ei & _).
  apply (wp_intro _ _ _ _ _ E). by apply HQ.
Qed.

Lemma wp_bwrite s a i b Q :
  bio_rep (bio s) a -> aheld a !! i = Some b ->
  (forall t, bio_rep t (Store (aview a) (adirty a ∖ {[b]}) (aheld a)) ->
     ide t = disk_write (ide (bio s)) b (aview a b) -> Q tt (set_bio t s)) ->
  wp (bio_op (bwrite i)) Q s.
Proof.
  intros R Hh HQ. apply wp_zoom.
  destruct (bwrite_rep _ _ _ _ R Hh) as (t & E & R' & Ei & _).
  apply (wp_intro _ _ _ _ _ E). by apply HQ.
Qed.

Lemma wp_brelse s a i b Q :
  bio_rep (bio s) a -> aheld a !! i = Some b ->
  b ∈ adirty a \/ aview a b = disk_read (ide (bio s)) b ->
  (forall t, bio_rep t (Store (aview a) (adirty a) (delete i (aheld a))) ->
     ide t = ide (bio s) -> Q tt (set_bio t s)) ->
  wp (bio_op (brelse i)) Q s.
Proof.
  intros R Hh Hst HQ. apply wp_zoom.
  destruct (brelse_rep _ _ _ _ R Hh Hst) as (t & E & R' & Ei & _).
  apply (wp_intro _ _ _ _ _ E). by apply HQ.
Qed.

Lemma wp_bufdirty s a i b Q :
  bio_rep (bio s) a -> aheld a !! i = Some b ->
  (forall t, bio_rep t (Store (aview a) (adirty a ∪ {[b]}) (aheld a)) ->
     ide t = ide (bio s) -> Q tt (set_bio t s)) ->
  wp (bio_op (bufdirty i)) Q s.
Proof.
  intros R Hh HQ. apply wp_zoom.
  destruct (bufdirty_rep _ _ _ _ R Hh) as (t & E & R' & Ei & _).
  apply (wp_intro _ _ _ _ _ E). by apply HQ.
Qed.

(** ** Sequences of disk writes *)

Definition disk_writes (d : disk) (ws : list (Z * block)) : disk :=
  fold_left (fun d w => disk_write d w.1 w.2) ws d.

Lemma disk_writes_app d ws1 ws2 :
  disk_writes d (ws1 ++ ws2) = disk_writes (disk_writes d ws1) ws2.
Proof. apply fold_left_app. Qed.

Lemma disksize_write d b x : disksize (disk_write d b x) = disksize d.
Proof. unfold disksize, disk_write. simpl. apply zlen_wr. Qed.

Lemma disksize_writes d ws : disksize (disk_writes d ws) = disksize d.
Proof.
  revert d. induction ws as [|w ws IH]; intros d; simpl; [done|].
  by rewrite IH, disksize_write.
Qed.

Lemma disk_read_write d b x b' : 0 <= b < disksize d ->
  disk_read (disk_write d b x) b' = fupd (disk_read d) b x b'.
Proof. intros. unfold disk_read, disk_write, fupd. simpl. by rewrite rd_wr. Qed.

(** What a process without buffers sees is what is on the disk, except for
    the blocks pinned by the log. *)
Lemma rep_clean s a b : bio_rep s a -> aheld a = ∅ -> 0 <= b < disksize (ide s) ->
  b ∉ adirty a -> aview a b = disk_read (ide s) b.
Proof.
  intros R Hh Hb Hd. assert (W := rep_wf _ _ R).
  destruct (decide (Exists (fun i => used (bufat s i) /\ blockno (bufat s i) = b)
    (seq 0 NBUF))) as [E|E].
  - apply Exists_exists in E as (i & Hi%elem_of_seq & Hc).
    assert (Hci : cached s b i) by (split; [lia|done]).
    rewrite <- (rep_cached _ _ R b i) by done.
    assert (B := wf_bufs _ W i (proj1 Hci)). destruct Hc as [U Eb].
    rewrite <- Eb. apply (wf_clean _ _ B).
    + destruct (buf_wf_used _ _ B U) as [[?|?] _]; [done|]. exfalso. apply Hd, (rep_dirty _ _ R).
      by exists i.
    + apply not_true_iff_false. intros L. assert (X : aheld a !! i = Some b) by (by apply (rep_held _ _ R)).
      by rewrite Hh in X.
  - symmetry. apply (rep_disk _ _ R b Hb). intros i (Hi & Hc). apply E, Exists_exists.
    exists i. split; [apply elem_of_seq; lia|done].
Qed.

(** ** Log geometry

    The log occupies the [size] blocks from [start]: the header block and
    then the logged blocks.  Every block number recorded in the log is a
    block outside the log. *)

Definition in_log (l : log) (b : Z) : Prop := start l <= b < start l + size l.

Definition home (s : lstate) (b : Z) : Prop := on_disk s b /\ ~ in_log (lg s) b.

Record log_geom (s : lstate) : Prop := {
  geom_dev : ldev (lg s) = 1;
  geom_start : 0 <= start (lg s);
  geom_end : start (lg s) + size (lg s) <= disksize (ide (bio s));
  geom_block : zlen (lh_block (lg s)) = LOGSIZE;
  geom_n : 0 <= lh_n (lg s) <= LOGSIZE;
  geom_size : lh_n (lg s) < size (lg s)
}.

(** The recorded block numbers. *)
Definition logged (l : log) : list Z := slice (lh_block l) 0 (lh_n l).

Lemma zlen_logged s : log_geom s -> zlen (logged (lg s)) = lh_n (lg s).
Proof. intros [_ _ _ Hb Hn _]. apply zlen_slice; lia. Qed.

Lemma rd_logged s i : log_geom s -> 0 <= i < lh_n (lg s) ->
  rd 0 (lh_block (lg s)) i = rd 0 (logged (lg s)) i.
Proof. intros G Hi. unfold logged. rewrite rd_slice by lia. done. Qed.

Lemma rd_logged_in s i : log_geom s -> 0 <= i < lh_n (lg s) ->
  rd 0 (lh_block (lg s)) i ∈ logged (lg s).
Proof.
  intros G Hi. rewrite (rd_logged s) by done.
  apply list_elem_of_lookup. exists (Z.to_nat i).
  rewrite (lookup_rd 0) by (assert (zlen (logged (lg s)) = lh_n (lg s)) by (by apply zlen_logged);
    unfold zlen in *; lia).
  do 2 f_equal. lia.
Qed.

Lemma pinned_no_held v d : pinned (Store v d ∅) = d.
Proof. unfold pinned. simpl. rewrite map_img_empty_L. set_solver. Qed.

Lemma pinned_one_held v d i b : pinned (Store v d {[i := b]}) = d ∪ {[b]}.
Proof. unfold pinned. simpl. rewrite map_img_singleton_L. done. Qed.

Lemma room_small v d b : (base.size d < NBUF)%nat -> room (Store v d ∅) b.
Proof. intros. right. by rewrite pinned_no_held. Qed.

Lemma size_add_one (d : gset Z) x : (base.size (d ∪ {[x]}) <= S (base.size d))%nat.
Proof.
  rewrite size_union_alt.
  assert (base.size ({[x]} ∖ d) <= base.size ({[x]} : gset Z))%nat as H
    by (apply subseteq_size; set_solver).
  rewrite size_singleton in H. lia.
Qed.

(** One iteration of [write_log]: the block is copied into the log. *)
Lemma wp_write_log_one s v d tail Q :
  bio_rep (bio s) (Store v d ∅) -> log_geom s -> (base.size d < NBUF)%nat ->
  0 <= tail < lh_n (lg s) ->
  let b := rd 0 (lh_block (lg s)) tail in
  let lb := start (lg s) + tail + 1 in
  b ∈ d -> home s b -> lb ∉ d ->
  (forall t, bio_rep t (Store (fupd v lb (v b)) d ∅) ->
     ide t = disk_write (ide (bio s)) lb (v b) -> Q tt (set_bio t s)) ->
  wp (write_log_one tail) Q s.
Proof.
  intros R G Hsz Ht b lb Hbd Hb Hlb HQ. destruct G as [Gd Gs Ge Gb Gn Gz].
  unfold write_log_one. repeat wp_step. rewrite Gd.
  assert (Hne : lb ≠ b).
  { intros E. destruct Hb as [_ Hb]. apply Hb. unfold in_log, lb in *. lia. }
  apply (wp_bread _ _ _ _ R); [unfold on_disk, lb; lia|done|by apply room_small|].
  intros to t1 _ R1 E1. simpl in R1. rewrite insert_empty in R1. wp_step.
  eapply wp_bread; [exact R1|unfold on_disk; simpl; rewrite E1; apply Hb| | |].
  { intros i. simpl. rewrite lookup_singleton_Some. naive_solver. }
  { by left. }
  intros from t2 Hf R2 E2. simpl in *. fold b in R2. wp_step.
  rewrite lookup_singleton_None in Hf.
  eapply wp_bdata; [exact R2|apply lookup_insert_eq|]. simpl. wp_step.
  eapply wp_set_bdata; [exact R2|simpl; rewrite lookup_insert_ne by done; apply lookup_singleton_eq
    |eapply (rep_view_block t2 _ b R2); rewrite E2, E1; apply Hb|].
  intros t3 R3 E3. simpl in R3, E3. wp_step.
  eapply wp_bwrite; [exact R3|simpl; rewrite lookup_insert_ne by done; apply lookup_singleton_eq|].
  intros t4 R4 E4. simpl in R4, E4. wp_step.
  eapply wp_brelse; [exact R4|apply lookup_insert_eq|left; simpl; set_solver|].
  intros t5 R5 E5. simpl in R5, E5.
  rewrite delete_insert_id in R5 by (by rewrite lookup_singleton_ne).
  eapply wp_brelse; [exact R5|apply lookup_singleton_eq| |].
  { right. simpl. rewrite E5, E4, disk_read_write. 2:{ rewrite E3, E2, E1. unfold lb. lia. }
    by rewrite !fupd_eq. }
  intros t6 R6 E6. simpl in R6, E6. change (set_bio t6 _) with (set_bio t6 s). apply HQ.
  - rewrite delete_singleton_eq in R6. replace d with (d ∖ {[lb]}); [done|]. set_solver.
  - rewrite E6, E5, E4, E3, E2, E1. by rewrite fupd_eq.
Qed.

(** One iteration of [install_trans]: a logged block is copied to its home
    location. *)
Lemma wp_install_one s v d tail Q :
  bio_rep (bio s) (Store v d ∅) -> log_geom s -> (base.size d < NBUF)%nat ->
  0 <= tail < lh_n (lg s) ->
  let b := rd 0 (lh_block (lg s)) tail in
  let lb := start (lg s) + tail + 1 in
  b ∈ d \/ (S (base.size d) < NBUF)%nat -> home s b -> lb ∉ d ->
  (forall t, bio_rep t (Store (fupd v b (v lb)) (d ∖ {[b]}) ∅) ->
     ide t = disk_write (ide (bio s)) b (v lb) -> Q tt (set_bio t s)) ->
  wp (install_one tail) Q s.
Proof.
  intros R G Hsz Ht b lb Hroom Hb Hlb HQ. destruct G as [Gd Gs Ge Gb Gn Gz].
  unfold install_one. repeat wp_step. rewrite Gd.
  assert (Hne : lb ≠ b).
  { intros E. destruct Hb as [_ Hb]. apply Hb. unfold in_log, lb in *. lia. }
  assert (Hlo : on_disk s lb) by (unfold on_disk, lb; lia).
  apply (wp_bread _ _ _ _ R); [done|done|by apply room_small|].
  intros l t1 _ R1 E1. simpl in R1. rewrite insert_empty in R1. wp_step.
  eapply wp_bread; [exact R1|unfold on_disk; simpl; rewrite E1; apply Hb| | |].
  { intros i. simpl. rewrite lookup_singleton_Some. naive_solver. }
  { destruct Hroom as [?|Hs]; [by left|]. right. rewrite pinned_one_held.
    eapply Nat.le_lt_trans; [apply size_add_one|]. lia. }
  intros h t2 Hf R2 E2. simpl in *. fold b in R2. wp_step.
  rewrite lookup_singleton_None in Hf.
  eapply wp_bdata; [exact R2|simpl; rewrite lookup_insert_ne by done; apply lookup_singleton_eq|].
  simpl. wp_step.
  eapply wp_set_bdata; [exact R2|apply lookup_insert_eq
    |eapply (rep_view_block t2 _ lb R2); rewrite E2, E1; apply Hlo|].
  intros t3 R3 E3. simpl in R3, E3. wp_step.
  eapply wp_bwrite; [exact R3|apply lookup_insert_eq|].
  intros t4 R4 E4. simpl in R4, E4. wp_step.
  assert (Hclean : v lb = disk_read (ide (bio s)) lb) by (apply (rep_clean _ _ lb R); done).
  eapply wp_brelse; [exact R4|simpl; rewrite lookup_insert_ne by done; apply lookup_singleton_eq| |].
  { right. simpl. rewrite E4, disk_read_write by (rewrite E3, E2, E1; apply Hb).
    rewrite !fupd_ne by done. by rewrite E3, E2, E1. }
  intros t5 R5 E5. simpl in R5, E5.
  rewrite delete_insert_ne, delete_singleton_eq in R5 by done.
  eapply wp_brelse; [exact R5|apply lookup_insert_eq| |].
  { right. simpl. rewrite E5, E4, disk_read_write by (rewrite E3, E2, E1; apply Hb).
    by rewrite !fupd_eq. }
  intros t6 R6 E6. simpl in R6, E6. change (set_bio t6 _) with (set_bio t6 s). apply HQ.
  - by rewrite delete_insert_eq, delete_empty in R6.
  - rewrite E6, E5, E4, E3, E2, E1. by rewrite fupd_eq.
Qed.

(** The header block that [write_head] writes over the old one. *)
Definition new_head (l : log) (d : block) : block :=
  store_head (lh_block l) 0 (Z.to_nat (lh_n l)) (put32 d 0 (lh_n l)).

Lemma store_head_block l i n d :
  is_block d -> 0 <= i -> i + Z.of_nat n <= LOGSIZE -> is_block (store_head l i n d).
Proof.
  revert i d. induction n as [|n IH]; intros i d Hd Hi Hn; simpl; [done|].
  apply IH; [|lia..]. apply put32_block; [done|lia|]. unfold LOGSIZE, MAXOPBLOCKS, BSIZE in *. lia.
Qed.

Lemma new_head_block s d : log_geom s -> is_block d -> is_block (new_head (lg s) d).
Proof.
  intros [_ _ _ _ Hn _] Hd. apply store_head_block; [|lia..]. by apply put32_block.
Qed.

Lemma wp_write_head s v d Q :
  bio_rep (bio s) (Store v d ∅) -> log_geom s -> (base.size d < NBUF)%nat ->
  let st := start (lg s) in
  st ∉ d ->
  (forall t, bio_rep t (Store (fupd v st (new_head (lg s) (v st))) d ∅) ->
     ide t = disk_write (ide (bio s)) st (new_head (lg s) (v st)) -> Q tt (set_bio t s)) ->
  wp write_head Q s.
Proof.
  intros R G Hsz st Hst HQ. assert (G' := G). destruct G as [Gd Gs Ge Gb Gn Gz].
  assert (Ho : on_disk s st) by (unfold on_disk, st; lia).
  unfold write_head. repeat wp_step. rewrite Gd.
  apply (wp_bread _ _ _ _ R); [done|done|by apply room_small|].
  intros i t1 _ R1 E1. simpl in R1. rewrite insert_empty in R1. wp_step.
  eapply wp_bdata; [exact R1|apply lookup_singleton_eq|]. simpl. wp_step.
  eapply wp_set_bdata; [exact R1|apply lookup_singleton_eq| |].
  { apply (new_head_block s); [done|]. eapply (rep_view_block _ _ st R1). by rewrite E1. }
  intros t2 R2 E2. simpl in R2, E2. wp_step.
  eapply wp_bwrite; [exact R2|apply lookup_singleton_eq|].
  intros t3 R3 E3. simpl in R3, E3.
  eapply wp_brelse; [exact R3|apply lookup_singleton_eq| |].
  { right. simpl. rewrite E3, disk_read_write by (by rewrite E2, E1). by rewrite !fupd_eq. }
  intros t4 R4 E4. simpl in R4, E4. change (set_bio t4 _) with (set_bio t4 s). apply HQ.
  - rewrite delete_singleton_eq in R4. replace d with (d ∖ {[st]}); [done|]. set_solver.
  - rewrite E4, E3, E2, E1. by rewrite fupd_eq.
Qed.

(** ** Loops and the writes they perform *)

Lemma wp_for_from body (I : Z -> lstate -> Prop) tail n Q s :
  I tail s ->
  (forall i s, tail <= i < tail + Z.of_nat n -> I i s -> wp (body i) (fun _ s' => I (i + 1) s') s) ->
  (forall s', I (tail + Z.of_nat n) s' -> Q tt s') ->
  wp (for_from body tail n) Q s.
Proof.
  revert tail s. induction n as [|n IH]; intros tail s H0 Hstep HQ; simpl.
  - wp_step. apply HQ. by rewrite Z.add_0_r.
  - wp_step. eapply wp_mono; [apply Hstep; [lia|done]|]. intros [] s' HI.
    apply IH; [done| |].
    + intros. apply Hstep; [lia|done].
    + intros. apply HQ. replace (tail + Z.of_nat (S n)) with (tail + 1 + Z.of_nat n) by lia. done.
Qed.

Definition fupds (v : Z -> block) (ws : list (Z * block)) : Z -> block :=
  fold_left (fun v w => fupd v w.1 w.2) ws v.

Lemma fupds_app v ws1 ws2 : fupds v (ws1 ++ ws2) = fupds (fupds v ws1) ws2.
Proof. apply fold_left_app. Qed.

Lemma fupds_ne v ws b : b ∉ ws.*1 -> fupds v ws b = v b.
Proof.
  revert v. induction ws as [|w ws IH]; intros v Hb; simpl in *; [done|].
  rewrite IH by set_solver. apply fupd_ne. set_solver.
Qed.

(** The writes of [write_log] and of [install_trans]: block [k] of the log
    belongs to the [k]-th recorded block number. *)
Definition log_copies (st : Z) (L : list Z) (v : Z -> block) : list (Z * block) :=
  imap (fun k b => (st + Z.of_nat k + 1, v b)) L.

Definition home_copies (st : Z) (L : list Z) (v : Z -> block) : list (Z * block) :=
  imap (fun k b => (b, v (st + Z.of_nat k + 1))) L.

Lemma take_imap_S {A B} (f : nat -> A -> B) l i x :
  l !! i = Some x -> take (S i) (imap f l) = take i (imap f l) ++ [f i x].
Proof.
  intros H. apply take_S_r. by rewrite list_lookup_imap, H.
Qed.

Lemma logged_lookup s i : log_geom s -> 0 <= i < lh_n (lg s) ->
  logged (lg s) !! Z.to_nat i = Some (rd 0 (lh_block (lg s)) i).
Proof.
  intros G Hi. rewrite (rd_logged s) by done.
  rewrite (lookup_rd 0) by (assert (zlen (logged (lg s)) = lh_n (lg s)) by (by apply zlen_logged);
    unfold zlen in *; lia).
  by rewrite Z2Nat.id by lia.
Qed.

Lemma log_copies_dom st L v b k : b ∈ (take k (log_copies st L v)).*1 ->
  exists j : nat, (j < length L)%nat /\ (j < k)%nat /\ b = st + Z.of_nat j + 1.
Proof.
  intros H. apply list_elem_of_fmap in H as ([b' x] & -> & H).
  apply elem_of_take in H as (j & H & Hj). unfold log_copies in H.
  rewrite list_lookup_imap in H. destruct (L !! j) eqn:E; [|done]. simpl in H. injection H as <- <-.
  exists j. split; [by eapply lookup_lt_Some|]. done.
Qed.

Lemma home_copies_dom st L v b k : b ∈ (take k (home_copies st L v)).*1 -> b ∈ take k L.
Proof.
  intros H. apply list_elem_of_fmap in H as ([b' x] & -> & H).
  apply elem_of_take in H as (j & H & Hj). unfold home_copies in H.
  rewrite list_lookup_imap in H. destruct (L !! j) eqn:E; [|done]. simpl in H. injection H as <- <-.
  apply elem_of_take. eauto.
Qed.

(** The recorded blocks are home blocks pinned by [d], and [d] pins nothing
    else that could be in the log. *)
Record log_ready (s : lstate) (d : gset Z) : Prop := {
  ready_geom : log_geom s;
  ready_size : (base.size d < NBUF)%nat;
  ready_home : forall b, b ∈ logged (lg s) -> home s b;
  ready_out : forall b, b ∈ d -> ~ in_log (lg s) b
}.

Lemma wp_write_log s v d Q :
  bio_rep (bio s) (Store v d ∅) -> log_ready s d -> (forall b, b ∈ logged (lg s) -> b ∈ d) ->
  let W := log_copies (start (lg s)) (logged (lg s)) v in
  (forall t, bio_rep t (Store (fupds v W) d ∅) -> ide t = disk_writes (ide (bio s)) W ->
     Q tt (set_bio t s)) ->
  wp write_log Q s.
Proof.
  intros R [G Hsz Hhome Hout] Hd W HQ. unfold write_log. repeat wp_step.
  set (n := lh_n (lg s)). assert (Hn := geom_n _ G). fold n in Hn.
  assert (HW : length W = Z.to_nat n).
  { unfold W, log_copies. rewrite length_imap. assert (X := zlen_logged s G). unfold zlen in X. lia. }
  apply wp_for_from with (I := fun i s' => exists t, s' = set_bio t s /\
    bio_rep t (Store (fupds v (take (Z.to_nat i) W)) d ∅) /\
    ide t = disk_writes (ide (bio s)) (take (Z.to_nat i) W)).
  - exists (bio s). by destruct s.
  - intros i s' Hi (t & -> & Rt & Et).
    assert (Hi' : 0 <= i < lh_n (lg s)) by (fold n; lia).
    assert (Hb := logged_lookup s i G Hi').
    assert (Hbin := rd_logged_in s i G Hi').
    eapply wp_write_log_one with (v := fupds v (take (Z.to_nat i) W)) (d := d); simpl; try done.
    + destruct G. split; simpl; try done. by rewrite Et, disksize_writes.
    + by apply Hd.
    + destruct (Hhome _ Hbin) as [H1 H2]. split; [|done].
      unfold on_disk in *. simpl. by rewrite Et, disksize_writes.
    + intros Hin. apply (Hout _ Hin). destruct G. unfold in_log. lia.
    + intros t' Rt' Et'. exists t'. split; [done|].
      replace (Z.to_nat (i + 1)) with (S (Z.to_nat i)) by lia.
      unfold W, log_copies. rewrite (take_imap_S _ _ _ _ Hb).
      rewrite fupds_app, disk_writes_app. simpl. rewrite Z2Nat.id by lia.
      assert (Hsame : fupds v (take (Z.to_nat i) W) (rd 0 (lh_block (lg s)) i) = v (rd 0 (lh_block (lg s)) i)).
      { apply fupds_ne. intros Hx. apply log_copies_dom in Hx as (j & Hj & Hji & Hx).
        apply (proj2 (Hhome _ Hbin)). unfold in_log. rewrite Hx. destruct G. lia. }
      rewrite Hsame in Rt', Et'. split; [done|]. by rewrite Et', Et.
  - intros s' (t & -> & Rt & Et).
    rewrite Z.add_0_l, Z2Nat.id in Rt, Et by lia. rewrite take_ge in Rt, Et by lia. by apply HQ.
Qed.

Lemma wp_install_trans s v d Q :
  bio_rep (bio s) (Store v d ∅) -> log_ready s d -> NoDup (logged (lg s)) ->
  (forall b, b ∈ logged (lg s) -> b ∈ d) \/ d = ∅ ->
  let W := home_copies (start (lg s)) (logged (lg s)) v in
  (forall t, bio_rep t (Store (fupds v W) (d ∖ list_to_set (logged (lg s))) ∅) ->
     ide t = disk_writes (ide (bio s)) W -> Q tt (set_bio t s)) ->
  wp install_trans Q s.
Proof.
  intros R [G Hsz Hhome Hout] Hnd Hd W HQ. unfold install_trans. repeat wp_step.
  set (n := lh_n (lg s)). assert (Hn := geom_n _ G). fold n in Hn.
  assert (HL : length (logged (lg s)) = Z.to_nat n).
  { assert (X := zlen_logged s G). unfold zlen in X. lia. }
  assert (HW : length W = Z.to_nat n) by (unfold W, home_copies; by rewrite length_imap).
  apply wp_for_from with (I := fun i s' => exists t, s' = set_bio t s /\
    bio_rep t (Store (fupds v (take (Z.to_nat i) W))
                     (d ∖ list_to_set (take (Z.to_nat i) (logged (lg s)))) ∅) /\
    ide t = disk_writes (ide (bio s)) (take (Z.to_nat i) W)).
  - exists (bio s). destruct s. simpl. split; [done|]. split; [|done].
    replace (d ∖ ∅) with d by set_solver. done.
  - intros i s' Hi (t & -> & Rt & Et).
    assert (Hi' : 0 <= i < lh_n (lg s)) by (fold n; lia).
    assert (Hb := logged_lookup s i G Hi').
    assert (Hbin := rd_logged_in s i G Hi').
    set (di := d ∖ list_to_set (take (Z.to_nat i) (logged (lg s)))) in *.
    assert (Hdi : (base.size di <= base.size d)%nat) by (apply subseteq_size; set_solver).
    eapply wp_install_one with (v := fupds v (take (Z.to_nat i) W)) (d := di); simpl; try done.
    + destruct G. split; simpl; try done. by rewrite Et, disksize_writes.
    + lia.
    + destruct Hd as [Hd| ->].
      * left. apply elem_of_difference. split; [by apply Hd|].
        rewrite elem_of_list_to_set, elem_of_take. intros (j & Hj & Hji).
        assert (j = Z.to_nat i) by (by eapply NoDup_lookup). lia.
      * right. rewrite size_empty in Hdi. unfold NBUF. lia.
    + destruct (Hhome _ Hbin) as [H1 H2]. split; [|done].
      unfold on_disk in *. simpl. by rewrite Et, disksize_writes.
    + intros Hin. apply elem_of_difference in Hin as [Hin _]. apply (Hout _ Hin).
      destruct G. unfold in_log. lia.
    + intros t' Rt' Et'. exists t'. split; [done|].
      replace (Z.to_nat (i + 1)) with (S (Z.to_nat i)) by lia.
      unfold W, home_copies. rewrite (take_imap_S _ _ _ _ Hb).
      rewrite fupds_app, disk_writes_app. simpl. rewrite Z2Nat.id by lia.
      assert (Hsame : fupds v (take (Z.to_nat i) W) (start (lg s) + i + 1) = v (start (lg s) + i + 1)).
      { apply fupds_ne. intros Hx. apply home_copies_dom in Hx.
        apply subseteq_take in Hx. apply (proj2 (Hhome _ Hx)). unfold in_log. destruct G. lia. }
      rewrite Hsame in Rt', Et'. split; [|by rewrite Et', Et].
      rewrite (take_S_r _ _ _ Hb), list_to_set_app_L.
      replace (d ∖ _) with (di ∖ {[rd 0 (lh_block (lg s)) i]}); [done|]. unfold di. set_solver.
  - intros s' (t & -> & Rt & Et).
    rewrite Z.add_0_l, Z2Nat.id in Rt, Et by lia. rewrite !take_ge in Rt by lia.
    rewrite take_ge in Et by lia. by apply HQ.
Qed.

(** ** The contents of the log header *)

(** The block numbers recorded in a header block. *)
Definition head_list (h : block) : list Z :=
  (fun i => geti32 h (4 + 4 * Z.of_nat i)) <$> seq 0 (Z.to_nat (geti32 h 0)).

Lemma get32_store_head l i n d off :
  is_block d -> 0 <= i -> i + Z.of_nat n <= LOGSIZE -> 0 <= off -> off + 4 <= 4 + 4 * i ->
  get32 (store_head l i n d) off = get32 d off.
Proof.
  revert i d. induction n as [|n IH]; intros i d Hd Hi Hn Ho He; simpl; [done|].
  assert (4 + 4 * i + 4 <= BSIZE) by (unfold LOGSIZE, MAXOPBLOCKS, BSIZE in *; lia).
  rewrite IH by (try lia; apply put32_block; done || lia).
  apply get32_put32_ne; destruct Hd; lia.
Qed.

Lemma get32_store_head_in l i n d j :
  is_block d -> 0 <= i -> i + Z.of_nat n <= LOGSIZE -> i <= j < i + Z.of_nat n ->
  get32 (store_head l i n d) (4 + 4 * j) = u32 (rd 0 l j).
Proof.
  revert i d. induction n as [|n IH]; intros i d Hd Hi Hn Hj; simpl; [lia|].
  assert (4 + 4 * i + 4 <= BSIZE) by (unfold LOGSIZE, MAXOPBLOCKS, BSIZE in *; lia).
  assert (is_block (put32 d (4 + 4 * i) (rd 0 l i))) by (apply put32_block; done || lia).
  destruct (decide (j = i)) as [->|].
  - rewrite get32_store_head by (done || lia). apply get32_put32; destruct Hd; lia.
  - apply IH; done || lia.
Qed.

Lemma head_count_new_head s d :
  log_geom s -> is_block d -> geti32 (new_head (lg s) d) 0 = lh_n (lg s).
Proof.
  intros G Hd. assert (Hn := geom_n _ G). unfold geti32, new_head.
  rewrite get32_store_head by (lia || by apply put32_block).
  rewrite get32_put32 by (destruct Hd; unfold BSIZE in *; lia).
  apply s32_u32. unfold LOGSIZE, MAXOPBLOCKS in Hn. mlia.
Qed.

(** Reading the header that [write_head] wrote gives the recorded block
    numbers. *)
Lemma head_list_new_head s d :
  log_geom s -> is_block d -> Forall is_s32 (logged (lg s)) ->
  head_list (new_head (lg s) d) = logged (lg s).
Proof.
  intros G Hd Hs. assert (Hn := geom_n _ G). unfold head_list.
  assert (is_block (put32 d 0 (lh_n (lg s)))) by (by apply put32_block).
  rewrite head_count_new_head by done. unfold new_head. apply list_eq. intros k. rewrite list_lookup_fmap.
  destruct (decide (Z.of_nat k < lh_n (lg s))) as [Hk|Hk].
  - rewrite lookup_seq_lt by lia. simpl. unfold geti32.
    rewrite get32_store_head_in by (done || lia).
    assert (X := logged_lookup s (Z.of_nat k) G ltac:(lia)). rewrite Nat2Z.id in X. rewrite X.
    f_equal. apply s32_u32. rewrite Forall_forall in Hs. apply Hs.
    by eapply list_elem_of_lookup_2.
  - rewrite lookup_seq_ge by lia. simpl. symmetry. apply lookup_ge_None.
    assert (X := zlen_logged s G). unfold zlen in X. lia.
Qed.
