(* ===== verification/LogCrash.v ===== *)
(** * Crash safety of the log

    A commit is a sequence of block writes; the machine may stop after any
    prefix of it.  Recovery then brings the disk to the state before the
    transaction or to the state after it, and a crash during recovery is
    repaired by the next recovery. *)

From S2P Require Import Prelude Param SleepLock Layout Bio Log.

(** ** The state between two file-system calls *)

Record log_rep (s : lstate) (a : store) : Prop := {
  lr_bio : bio_rep (bio s) a;
  lr_geom : log_geom s;
  lr_nodup : NoDup (logged (lg s));
  lr_home : forall b, b ∈ logged (lg s) -> home s b;
  lr_dirty : adirty a = list_to_set (logged (lg s));
  lr_nlog : size (lg s) <= LOGSIZE;
  lr_head : geti32 (disk_read (ide (bio s)) (start (lg s))) 0 = 0;
  lr_disk : disksize (ide (bio s)) <= 2 ^ 31
}.

Lemma log_rep_size s a : log_rep s a -> (base.size (adirty a) < NBUF)%nat.
Proof.
  intros [_ G N _ -> Hl _ _]. rewrite size_list_to_set by done.
  assert (X := zlen_logged s G). destruct G. unfold zlen, LOGSIZE, MAXOPBLOCKS, NBUF in *. lia.
Qed.

Lemma log_rep_ready s a : log_rep s a -> log_ready s (adirty a).
Proof.
  intros R. split; [apply R|by apply (log_rep_size s)| |].
  - apply R.
  - intros b. rewrite (lr_dirty _ _ R), elem_of_list_to_set. intros Hb. apply (lr_home _ _ R b Hb).
Qed.

Lemma log_rep_s32 s a : log_rep s a -> Forall is_s32 (logged (lg s)).
Proof.
  intros R. apply Forall_forall. intros b Hb. destruct (lr_home _ _ R b Hb) as [Ho _].
  assert (X := lr_disk _ _ R). unfold on_disk in Ho. mlia.
Qed.

(** ** The writes of a commit *)

Definition home_writes (L : list Z) (v : Z -> block) : list (Z * block) :=
  (fun b => (b, v b)) <$> L.

Definition commit_writes (l : log) (v : Z -> block) : list (Z * block) :=
  let h := new_head l (v (start l)) in
  log_copies (start l) (logged l) v ++ [(start l, h)] ++
  home_writes (logged l) v ++ [(start l, new_head (set_lh_n 0 l) h)].

Lemma fupds_log_copies st L v k b :
  L !! k = Some b -> fupds v (log_copies st L v) (st + Z.of_nat k + 1) = v b.
Proof.
  intros Hk. unfold log_copies.
  rewrite <- (take_drop (S k) (imap _ L)). rewrite fupds_app.
  rewrite (take_imap_S _ _ _ _ Hk), fupds_app. simpl.
  rewrite fupds_ne; [by rewrite fupd_eq|].
  intros Hin. apply list_elem_of_fmap in Hin as ([b' x] & Eb & Hin). simpl in Eb.
  apply list_elem_of_lookup in Hin as (j & Hj). rewrite lookup_drop, list_lookup_imap in Hj.
  destruct (L !! (S k + j)%nat); [|done]. simpl in Hj. injection Hj as <- <-. lia.
Qed.

Lemma fupds_log_copies_out st L v b :
  b <= st \/ st + Z.of_nat (length L) < b -> fupds v (log_copies st L v) b = v b.
Proof.
  intros Hb. apply fupds_ne. intros Hin.
  rewrite <- (firstn_all (log_copies st L v)) in Hin.
  apply log_copies_dom in Hin as (j & ? & ? & ?). lia.
Qed.

Lemma home_copies_writes st L v u :
  (forall k b, L !! k = Some b -> u (st + Z.of_nat k + 1) = v b) ->
  home_copies st L u = home_writes L v.
Proof.
  intros H. apply list_eq. intros k. unfold home_copies, home_writes.
  rewrite list_lookup_imap, list_lookup_fmap. destruct (L !! k) eqn:E; [|done]. simpl.
  by rewrite (H k z E).
Qed.

Lemma fupds_home_writes L v w b :
  fupds w (home_writes L v) b = if decide (b ∈ L) then v b else w b.
Proof.
  revert w. induction L as [|x L IH]; intros w; simpl; [done|].
  rewrite IH. destruct (decide (b = x)) as [->|Hne].
  - rewrite (decide_True (P := x ∈ x :: L)) by (left). case_decide; [done|]. by rewrite fupd_eq.
  - rewrite fupd_ne by done. repeat case_decide; set_solver.
Qed.

(** [commit] runs to completion, performs exactly [commit_writes], empties
    the log and leaves every block outside the log with its current
    content. *)
Lemma commit_run s a Q :
  log_rep s a -> aheld a = ∅ -> 0 < lh_n (lg s) ->
  (forall t v', log_rep (LState t (set_lh_n 0 (lg s))) (Store v' ∅ ∅) ->
     (forall b, ~ in_log (lg s) b -> v' b = aview a b) ->
     ide t = disk_writes (ide (bio s)) (commit_writes (lg s) (aview a)) ->
     Q tt (LState t (set_lh_n 0 (lg s)))) ->
  wp commit Q s.
Proof.
  intros R Hh Hn HQ. assert (Rd := log_rep_ready _ _ R). assert (G := lr_geom _ _ R).
  destruct a as [v d h]. simpl in *. subst h.
  assert (HL : length (logged (lg s)) = Z.to_nat (lh_n (lg s))).
  { assert (X := zlen_logged s G). unfold zlen in X. lia. }
  assert (Hst : start (lg s) ∉ d).
  { intros Hin. apply (ready_out _ _ Rd _ Hin). destruct G. unfold in_log. lia. }
  assert (Hdl : forall b, b ∈ logged (lg s) -> b ∈ d).
  { intros b Hb. rewrite (lr_dirty _ _ R : d = _). by apply elem_of_list_to_set. }
  unfold commit. wp_step. wp_step. destruct (Z.ltb_spec 0 (lh_n (lg s))); [|lia]. wp_step.
  eapply wp_write_log; [apply (lr_bio _ _ R)|done|done|]. intros t1 R1 E1. wp_step.
  assert (G1 : log_geom (set_bio t1 s)).
  { destruct G. split; simpl; try done. by rewrite E1, disksize_writes. }
  eapply wp_write_head; [exact R1|done|by apply (log_rep_size _ _ R)|done|].
  simpl. intros t2 R2 E2. simpl in E2. wp_step.
  rewrite fupds_log_copies_out in R2, E2 by lia.
  set (L := logged (lg s)) in *. set (st := start (lg s)) in *.
  set (h := new_head (lg s) (v st)) in *. set (v1 := fupds v (log_copies st L v)) in *.
  assert (Hsz2 : disksize (ide t2) = disksize (ide (bio s))).
  { by rewrite E2, disksize_write, E1, disksize_writes. }
  eapply wp_install_trans; [exact R2| |apply R|by left|].
  { destruct Rd as [_ ? Rh Ro]. split; try done.
    - destruct G. split; simpl; try done. by rewrite Hsz2.
    - intros b Hb. destruct (Rh b Hb). split; [|done]. unfold on_disk in *. simpl. by rewrite Hsz2. }
  simpl. fold L st. intros t3 R3 E3. simpl in E3. wp_step. unfold log_mod. wp_step.
  assert (EW : home_copies st L (fupd v1 st h) = home_writes L v).
  { apply home_copies_writes. intros k b Hk. rewrite fupd_ne by lia. by apply fupds_log_copies. }
  rewrite EW in R3, E3.
  assert (Hsz3 : disksize (ide t3) = disksize (ide (bio s))) by (by rewrite E3, disksize_writes).
  assert (Ed : d ∖ list_to_set L = ∅).
  { rewrite (lr_dirty _ _ R : d = _). set_solver. }
  rewrite Ed in R3.
  eapply wp_write_head; [exact R3| |by rewrite size_empty; unfold NBUF; lia|set_solver|].
  { destruct G. split; simpl; try done; [by rewrite Hsz3|lia]. }
  simpl. fold st. intros t4 R4 E4. simpl in E4.
  assert (Hhst : fupds (fupd v1 st h) (home_writes L v) st = h).
  { rewrite fupds_home_writes, decide_False, fupd_eq; [done|]. intros Hin. by apply Hst, Hdl. }
  rewrite Hhst in R4, E4.
  change (set_bio t4 _) with (LState t4 (set_lh_n 0 (lg s))).
  assert (Hsz4 : disksize (ide t4) = disksize (ide (bio s))) by (by rewrite E4, disksize_write).
  assert (G4 : log_geom (LState t4 (set_lh_n 0 (lg s)))).
  { destruct G. split; simpl; try done; [by rewrite Hsz4|lia]. }
  eapply HQ; [split; [exact R4|..]| |]; simpl; try done.
  - apply NoDup_nil_2.
  - intros b Hb. by apply elem_of_nil in Hb.
  - apply R.
  - rewrite E4. fold st. rewrite disk_read_write by (rewrite Hsz3; destruct G; unfold st; lia).
    rewrite fupd_eq.
    change (set_lh_n 0 (lg s)) with (lg (LState t4 (set_lh_n 0 (lg s)))).
    rewrite head_count_new_head; [done|done|].
    apply (new_head_block s); [done|]. apply (rep_view_block _ _ st (lr_bio _ _ R)).
    destruct G. unfold st. simpl in *. lia.
  - rewrite Hsz4. apply R.
  - intros b Hb. assert (b ≠ st) by (intros ->; apply Hb; destruct G; unfold in_log, st; lia).
    rewrite fupd_ne by done. rewrite fupds_home_writes. case_decide; [done|].
    rewrite fupd_ne by done. unfold v1. apply fupds_log_copies_out.
    destruct G. unfold in_log in Hb. fold st in Hb. lia.
  - rewrite E4, E3, E2, E1. unfold commit_writes. fold st L h.
    by rewrite !disk_writes_app.
Qed.

(** ** Recovery *)

(** What recovery makes of the disk contents [D] when the log is at [st]. *)
Definition recovered (st : Z) (D : Z -> block) : Z -> block :=
  fupds D (home_copies st (head_list (D st)) D).

(** A disk with a usable log: the super block places the log at [st] with
    [nlog] blocks, and the header records distinct blocks outside the log. *)
Record log_disk (d : disk) (st nlog : Z) : Prop := {
  ld_blocks : Forall is_block (image d);
  ld_size : disksize d <= 2 ^ 31;
  ld_start : 2 <= st;
  ld_end : st + nlog <= disksize d;
  ld_nlog : 0 < nlog <= LOGSIZE;
  ld_sb : sb_logstart (read_superblock (disk_read d 1)) = st /\
          sb_nlog (read_superblock (disk_read d 1)) = nlog;
  ld_n : 0 <= geti32 (disk_read d st) 0 < nlog;
  ld_nodup : NoDup (head_list (disk_read d st));
  ld_home : forall b, b ∈ head_list (disk_read d st) ->
    0 <= b < disksize d /\ ~ (st <= b < st + nlog);
  ld_keep : 1 ∉ head_list (disk_read d st)
}.

Definition log0 : log := Log 0 0 0 false 0 0 (replicate (Z.to_nat LOGSIZE) 0) 0.

(** The kernel after a reboot with disk [d]. *)
Definition boot (d : disk) (p : Z) : lstate := LState (binit (fresh_cache d p)) log0.

Lemma room_empty v b : room (Store v ∅ ∅) b.
Proof. apply room_small. rewrite size_empty. unfold NBUF. lia. Qed.

Lemma empty_minus (X : gset Z) : ∅ ∖ X = ∅.
Proof. set_solver. Qed.

Lemma zlen_copy_head d i n l : zlen (copy_head d i n l) = zlen l.
Proof. revert i l. induction n as [|n IH]; intros; simpl; [done|]. by rewrite IH, zlen_wr. Qed.

Lemma rd_copy_head d i n l j : 0 <= i -> i + Z.of_nat n <= zlen l ->
  rd 0 (copy_head d i n l) j =
  if decide (i <= j < i + Z.of_nat n) then geti32 d (4 + 4 * j) else rd 0 l j.
Proof.
  revert i l. induction n as [|n IH]; intros i l Hi Hn; simpl.
  - by rewrite decide_False by lia.
  - rewrite IH by (rewrite ?zlen_wr; lia). rewrite rd_wr by lia.
    repeat case_decide; try lia; subst; try done.
Qed.

Lemma logged_copy_head d l :
  zlen (lh_block l) = LOGSIZE -> lh_n l = geti32 d 0 -> 0 <= lh_n l <= LOGSIZE ->
  logged (set_lh_block (copy_head d 0 (Z.to_nat (lh_n l)) (lh_block l)) l) = head_list d.
Proof.
  intros Hz Hn Hr. unfold logged, head_list. simpl. rewrite <- Hn.
  apply (rd_ext 0).
  - rewrite length_slice by (rewrite ?zlen_copy_head; lia). by rewrite length_fmap, length_seq.
  - intros i. rewrite zlen_slice by (rewrite ?zlen_copy_head; lia). intros Hi.
    rewrite rd_slice by lia. rewrite rd_copy_head by lia. rewrite decide_True by lia.
    symmetry. apply rd_lookup; [lia|]. rewrite list_lookup_fmap, lookup_seq_lt by lia. simpl.
    do 2 f_equal. lia.
Qed.

Lemma wp_read_head s v Q :
  bio_rep (bio s) (Store v ∅ ∅) -> log_geom s ->
  let h := v (start (lg s)) in
  0 <= geti32 h 0 <= LOGSIZE ->
  (forall t, bio_rep t (Store v ∅ ∅) -> ide t = ide (bio s) ->
     let l' := set_lh_n (geti32 h 0) (lg s) in
     Q tt (LState t (set_lh_block (copy_head h 0 (Z.to_nat (lh_n l')) (lh_block l')) l'))) ->
  wp read_head Q s.
Proof.
  intros R G h Hn HQ. destruct G as [Gd Gs Ge Gb Gn Gz].
  assert (Ho : on_disk s (start (lg s))) by (unfold on_disk; lia).
  unfold read_head. repeat wp_step. rewrite Gd.
  apply (wp_bread _ _ _ _ R); [done|done|apply room_empty|].
  intros i t1 _ R1 E1. simpl in R1. rewrite insert_empty in R1. wp_step.
  eapply wp_bdata; [exact R1|apply lookup_singleton_eq|]. simpl. wp_step. unfold log_mod.
  wp_step. wp_step. wp_step.
  eapply wp_brelse; [exact R1|apply lookup_singleton_eq| |].
  { right. simpl. rewrite E1. by apply (rep_clean _ _ _ R). }
  intros t2 R2 E2. simpl in R2, E2. rewrite delete_singleton_eq in R2.
  apply (HQ t2); [done|]. by rewrite E2.
Qed.

Lemma wp_readsb s v Q :
  bio_rep (bio s) (Store v ∅ ∅) -> 1 < disksize (ide (bio s)) ->
  (forall t, bio_rep t (Store v ∅ ∅) -> ide t = ide (bio s) ->
     Q (read_superblock (v 1)) (set_bio t s)) ->
  wp (readsb 1) Q s.
Proof.
  intros R Ho HQ. unfold readsb. wp_step.
  apply (wp_bread _ _ _ _ R); [unfold on_disk; lia|done|apply room_empty|].
  intros i t1 _ R1 E1. simpl in R1. rewrite insert_empty in R1. wp_step.
  eapply wp_bdata; [exact R1|apply lookup_singleton_eq|]. simpl. wp_step.
  eapply wp_brelse; [exact R1|apply lookup_singleton_eq| |].
  { right. simpl. rewrite E1. apply (rep_clean _ _ _ R); [done|lia|set_solver]. }
  intros t2 R2 E2. simpl in R2, E2. rewrite delete_singleton_eq in R2. wp_step.
  change (set_bio t2 _) with (set_bio t2 s). apply HQ; [done|]. by rewrite E2.
Qed.

(** The writes of recovery. *)
Definition recovery_writes (st : Z) (D : Z -> block) : list (Z * block) :=
  home_copies st (head_list (D st)) D ++ [(st, put32 (D st) 0 0)].

(** Recovery runs to completion on every such disk. *)
Lemma initlog_run d st nlog p Q :
  log_disk d st nlog ->
  (forall r v', log_rep r (Store v' ∅ ∅) ->
     ide (bio r) = disk_writes d (recovery_writes st (disk_read d)) ->
     start (lg r) = st -> size (lg r) = nlog -> lh_n (lg r) = 0 ->
     outstanding (lg r) = 0 -> committing (lg r) = false -> Q tt r) ->
  wp (initlog 1) Q (boot d p).
Proof.
  intros [Db Dsz Dst Den Dnl [Dsb1 Dsb2] Dn Dnd Dh _] HQ.
  set (D := disk_read d) in *.
  assert (R0 : bio_rep (bio (boot d p)) (Store D ∅ ∅)) by (by apply binit_rep).
  assert (E0 : ide (bio (boot d p)) = d) by reflexivity.
  unfold initlog. change (BSIZE <=? sizeof_logheader) with false. cbv iota.
  wp_step. eapply wp_readsb; [exact R0|rewrite E0; lia|]. intros t1 R1 E1. wp_step.
  unfold log_mod. wp_step. rewrite Dsb1, Dsb2, !s32_id by mlia.
  unfold recover_from_log. wp_step.
  assert (G1 : log_geom (LState t1 (Log st nlog 0 false 1 0 (replicate (Z.to_nat LOGSIZE) 0) 0))).
  { split; simpl; try done; try lia. by rewrite E1. }
  eapply wp_read_head; [exact R1|exact G1|simpl; lia|]. simpl. intros t2 R2 E2. wp_step.
  set (l0 := Log st nlog 0 false 1 (geti32 (D st) 0) (replicate (Z.to_nat LOGSIZE) 0) 0).
  set (l2 := set_lh_block _ _).
  assert (EL : logged l2 = head_list (D st)) by (apply (logged_copy_head _ l0); simpl; done || lia).
  assert (Ed2 : ide t2 = d) by (by rewrite E2, E1).
  assert (G2 : log_geom (LState t2 l2)).
  { split; simpl; rewrite ?Ed2, ?zlen_copy_head; done || lia. }
  eapply wp_install_trans; [exact R2| |simpl; by rewrite EL|by right|].
  { split; [exact G2|rewrite size_empty; unfold NBUF; lia| |intros b Hb; by apply not_elem_of_empty in Hb].
    simpl. rewrite EL. intros b Hb. destruct (Dh b Hb). split; [|done].
    unfold on_disk. simpl. by rewrite Ed2. }
  simpl. rewrite EL. intros t3 R3 E3. simpl in E3. wp_step. unfold log_mod. wp_step.
  rewrite empty_minus in R3.
  assert (Hsz3 : disksize (ide t3) = disksize d) by (by rewrite E3, disksize_writes, Ed2).
  assert (G3 : log_geom (LState t3 (set_lh_n 0 l2))).
  { split; simpl; rewrite ?Hsz3, ?zlen_copy_head; done || lia. }
  eapply wp_write_head; [exact R3|exact G3|by rewrite size_empty; unfold NBUF; lia|apply not_elem_of_empty|].
  simpl. intros t4 R4 E4. simpl in E4.
  assert (Hst : fupds D (home_copies st (head_list (D st)) D) st = D st).
  { apply fupds_ne. rewrite <- (firstn_all (home_copies _ _ _)). intros Hin.
    apply home_copies_dom, subseteq_take, Dh in Hin. lia. }
  rewrite Hst in R4, E4.
  assert (Hsz4 : disksize (ide t4) = disksize d) by (by rewrite E4, disksize_write).
  eapply HQ; [split; [exact R4|..]| | | | | |]; simpl; try done.
  - split; simpl; rewrite ?Hsz4, ?zlen_copy_head; done || lia.
  - apply NoDup_nil_2.
  - intros b Hb. by apply elem_of_nil in Hb.
  - lia.
  - rewrite E4, disk_read_write by (rewrite Hsz3; lia). rewrite fupd_eq.
    assert (B : is_block (D st)) by (apply (rep_view_block _ _ st R1); rewrite E1, E0; lia).
    etransitivity; [by apply (head_count_new_head (LState t3 (set_lh_n 0 l2)))|]. done.
  - by rewrite Hsz4.
  - rewrite E4, E3, Ed2. unfold recovery_writes. by rewrite disk_writes_app.
Qed.

(** ** Crashes *)

(** The disk after the first [k] of the writes [ws]. *)
Definition crash_disk (d : disk) (ws : list (Z * block)) (k : nat) : disk :=
  disk_writes d (take k ws).

Definition good_write (d : disk) (w : Z * block) : Prop :=
  0 <= w.1 < disksize d /\ is_block w.2.

Lemma fupds_ext v u ws b : (forall b, v b = u b) -> fupds v ws b = fupds u ws b.
Proof.
  revert v u. induction ws as [|w ws IH]; intros v u E; simpl; [done|].
  apply IH. intros. unfold fupd. by case_decide.
Qed.

Lemma fupds_in v u ws b : b ∈ ws.*1 -> fupds v ws b = fupds u ws b.
Proof.
  revert v u. induction ws as [|w ws IH]; intros v u Hb; simpl in *; [by apply elem_of_nil in Hb|].
  destruct (decide (b ∈ ws.*1)); [by apply IH|].
  rewrite !fupds_ne by done. unfold fupd. case_decide; [done|]. set_solver.
Qed.

Lemma disk_read_writes d ws b : Forall (good_write d) ws ->
  disk_read (disk_writes d ws) b = fupds (disk_read d) ws b.
Proof.
  revert d. induction ws as [|w ws IH]; intros d Hf; simpl; [done|].
  apply Forall_cons in Hf as [[Hw _] Hf]. rewrite IH.
  - apply fupds_ext. intros. by apply disk_read_write.
  - eapply Forall_impl; [done|]. intros x [H1 H2]. split; [|done]. by rewrite disksize_write.
Qed.

Lemma disk_writes_blocks d ws : Forall is_block (image d) -> Forall (good_write d) ws ->
  Forall is_block (image (disk_writes d ws)).
Proof.
  revert d. induction ws as [|w ws IH]; intros d Hd Hf; simpl; [done|].
  apply Forall_cons in Hf as [[_ Hw] Hf]. apply IH.
  - simpl. unfold wr. case_decide; [|done]. by apply Forall_insert.
  - eapply Forall_impl; [done|]. intros x [H1 H2]. split; [|done]. by rewrite disksize_write.
Qed.

Lemma log_copies_good s v d : log_geom s ->
  (forall b, b ∈ logged (lg s) -> is_block (v b)) -> disksize d = disksize (ide (bio s)) ->
  Forall (good_write d) (log_copies (start (lg s)) (logged (lg s)) v).
Proof.
  intros G Hv Hd. apply Forall_lookup. intros k w Hk. unfold log_copies in Hk.
  rewrite list_lookup_imap in Hk. destruct (logged (lg s) !! k) as [b|] eqn:E; [|done].
  simpl in Hk. injection Hk as <-. assert (X := zlen_logged s G).
  apply lookup_lt_Some in E as El. unfold zlen in X. split; simpl.
  - rewrite Hd. destruct G. lia.
  - apply Hv. by eapply list_elem_of_lookup_2.
Qed.

Lemma commit_writes_good s a : log_rep s a -> Forall (good_write (ide (bio s))) (commit_writes (lg s) (aview a)).
Proof.
  intros R. assert (G := lr_geom _ _ R).
  assert (V : forall b, 0 <= b < disksize (ide (bio s)) -> is_block (aview a b)).
  { intros. by eapply rep_view_block; [apply R|]. }
  assert (Hs : 0 <= start (lg s) < disksize (ide (bio s))) by (destruct G; lia).
  assert (Hh : is_block (new_head (lg s) (aview a (start (lg s))))) by (by apply new_head_block, V).
  unfold commit_writes. apply Forall_app; split; [|apply Forall_cons; split; [done|]].
  - apply log_copies_good; try done. intros b Hb. apply V, (lr_home _ _ R b Hb).
  - apply Forall_app; split; [|apply Forall_singleton; split; [done|]].
    + apply Forall_fmap, Forall_forall. intros b Hb. split; simpl; [|apply V]; apply (lr_home _ _ R b Hb).
    + simpl. apply (new_head_block (LState (bio s) (set_lh_n 0 (lg s)))); [|done].
      destruct G. split; simpl; try done; lia.
Qed.

(** The prefixes of the writes of a commit: inside the copying to the log,
    after the header was written, or all of them. *)
Lemma take_commit_writes l v k :
  let W1 := log_copies (start l) (logged l) v in
  let h := new_head l (v (start l)) in
  take k (commit_writes l v) = take k W1 \/
  (exists j, take k (commit_writes l v) = W1 ++ (start l, h) :: take j (home_writes (logged l) v)) \/
  take k (commit_writes l v) =
    W1 ++ (start l, h) :: home_writes (logged l) v ++ [(start l, new_head (set_lh_n 0 l) h)].
Proof.
  simpl. unfold commit_writes. set (W1 := log_copies _ _ _). set (W2 := home_writes _ _).
  destruct (decide (k <= length W1)%nat) as [Hk|Hk].
  { left. by rewrite take_app_le. }
  right. rewrite take_app_ge by lia.
  destruct (k - length W1)%nat as [|j] eqn:Ej; [lia|]. simpl.
  destruct (decide (j <= length W2)%nat) as [Hj|Hj].
  - left. exists j. by rewrite take_app_le.
  - right. rewrite take_ge; [done|]. rewrite length_app. simpl. lia.
Qed.

Lemma head_list_nil h : geti32 h 0 = 0 -> head_list h = [].
Proof. intros E. unfold head_list. by rewrite E. Qed.

(** What is on the disk after a crash in the middle of a commit. *)
Lemma commit_crash_cases s a k :
  log_rep s a -> aheld a = ∅ ->
  let st := start (lg s) in
  let L := logged (lg s) in
  let D := disk_read (ide (bio s)) in
  let Dk := fupds D (take k (commit_writes (lg s) (aview a))) in
  (geti32 (Dk st) 0 = 0 /\ forall b, home s b -> Dk b = D b) \/
  (geti32 (Dk st) 0 = lh_n (lg s) /\ head_list (Dk st) = L /\
   (forall i b, L !! i = Some b -> Dk (st + Z.of_nat i + 1) = aview a b) /\
   (forall b, home s b -> b ∉ L -> Dk b = aview a b)) \/
  (geti32 (Dk st) 0 = 0 /\ forall b, home s b -> Dk b = aview a b).
Proof.
  intros R Hh st L D Dk. assert (G := lr_geom _ _ R).
  assert (HL : length L = Z.to_nat (lh_n (lg s))).
  { assert (X := zlen_logged s G). unfold zlen in X. fold L in X. lia. }
  assert (Hn := geom_n _ G). assert (Hgs := geom_size _ G).
  assert (Hst : st ∉ L).
  { intros Hin. apply (lr_home _ _ R) in Hin as [_ Hin]. apply Hin. unfold in_log, st. lia. }
  assert (Hbst : is_block (aview a st)).
  { eapply rep_view_block; [apply R|]. destruct G. unfold st. lia. }
  assert (Hclean : forall b, home s b -> b ∉ L -> D b = aview a b).
  { intros b [Ho _] Hb. symmetry. apply (rep_clean _ _ _ (lr_bio _ _ R) Hh Ho).
    by rewrite (lr_dirty _ _ R), elem_of_list_to_set. }
  assert (HW1 : forall b j, home s b \/ b = st -> b ∉ (take j (log_copies st L (aview a))).*1).
  { intros b j Hb Hin. apply log_copies_dom in Hin as (i & Hi & _ & ->).
    destruct Hb as [[_ Hb]|Hb]; [|lia]. apply Hb. unfold in_log. fold st. lia. }
  assert (HW1' : forall b, home s b \/ b = st -> b ∉ (log_copies st L (aview a)).*1).
  { intros b Hb. rewrite <- (firstn_all (log_copies st L (aview a))). by apply HW1. }
  assert (Hhst : forall b, home s b -> b ≠ st).
  { intros b [_ Hb] ->. apply Hb. unfold in_log, st. lia. }
  unfold Dk. destruct (take_commit_writes (lg s) (aview a) k) as [-> | [(j & ->) | ->]];
    fold st L; set (h := new_head (lg s) (aview a st)); [left|right; left|right; right].
  - split.
    + rewrite fupds_ne by (apply HW1; by right). apply (lr_head _ _ R).
    + intros b Hb. apply fupds_ne, HW1. by left.
  - assert (HW2 : forall b, b ∉ L -> b ∉ (take j (home_writes L (aview a))).*1).
    { intros b Hb Hin. apply Hb. apply list_elem_of_fmap in Hin as (w & -> & Hin).
      apply subseteq_take in Hin. apply list_elem_of_fmap in Hin as (b & -> & Hin). done. }
    rewrite fupds_app. simpl.
    set (D1 := fupd (fupds D (log_copies st L (aview a))) st h).
    assert (EH : fupds D1 (take j (home_writes L (aview a))) st = h).
    { rewrite fupds_ne by (by apply HW2). apply fupd_eq. }
    rewrite EH. split_and!.
    + by apply head_count_new_head.
    + apply head_list_new_head; [done..|]. by eapply log_rep_s32.
    + intros i b Hi. apply lookup_lt_Some in Hi as Hil.
      rewrite fupds_ne; [|apply HW2; intros Hin; apply (lr_home _ _ R) in Hin as [_ Hin];
        apply Hin; unfold in_log; fold st; lia].
      unfold D1. rewrite fupd_ne by lia.
      rewrite (fupds_in D (aview a)); [by apply fupds_log_copies|].
      apply list_elem_of_fmap. exists (st + Z.of_nat i + 1, aview a b). split; [done|].
      apply list_elem_of_lookup. exists i. unfold log_copies. by rewrite list_lookup_imap, Hi.
    + intros b Hb HbL. rewrite fupds_ne by (by apply HW2). unfold D1.
      rewrite fupd_ne by (symmetry; by apply Hhst). rewrite fupds_ne by (apply HW1'; by left).
      by apply Hclean.
  - rewrite fupds_app. simpl. rewrite fupds_app. simpl. split.
    + rewrite fupd_eq.
      change (set_lh_n 0 (lg s)) with (lg (LState (bio s) (set_lh_n 0 (lg s)))).
      rewrite head_count_new_head; [done| |by apply new_head_block].
      destruct G. split; simpl; try done; lia.
    + intros b Hb. rewrite fupd_ne by (symmetry; by apply Hhst). rewrite fupds_home_writes.
      case_decide; [done|]. rewrite fupd_ne by (symmetry; by apply Hhst).
      rewrite fupds_ne by (apply HW1'; by left). by apply Hclean.
Qed.

Lemma recovered_empty st D b : geti32 (D st) 0 = 0 -> recovered st D b = D b.
Proof. intros E. unfold recovered. by rewrite head_list_nil. Qed.

Lemma recovered_full st D L v b :
  head_list (D st) = L -> (forall i b, L !! i = Some b -> D (st + Z.of_nat i + 1) = v b) ->
  recovered st D b = if decide (b ∈ L) then v b else D b.
Proof.
  intros E H. unfold recovered. rewrite E, (home_copies_writes _ _ v) by done.
  apply fupds_home_writes.
Qed.

(** The super block on the disk describes the log that the kernel uses, and
    the transaction does not overwrite it. *)
Record sb_ok (s : lstate) : Prop := {
  sbo_start : sb_logstart (read_superblock (disk_read (ide (bio s)) 1)) = start (lg s);
  sbo_nlog : sb_nlog (read_superblock (disk_read (ide (bio s)) 1)) = size (lg s);
  sbo_after : 2 <= start (lg s);
  sbo_keep : 1 ∉ logged (lg s)
}.

Lemma log_disk_intro d' s :
  (exists a, log_rep s a) -> sb_ok s ->
  Forall is_block (image d') -> disksize d' = disksize (ide (bio s)) ->
  disk_read d' 1 = disk_read (ide (bio s)) 1 ->
  (geti32 (disk_read d' (start (lg s))) 0 = 0 \/
   geti32 (disk_read d' (start (lg s))) 0 = lh_n (lg s) /\
   head_list (disk_read d' (start (lg s))) = logged (lg s)) ->
  log_disk d' (start (lg s)) (size (lg s)).
Proof.
  intros [a R] [S1 S2 S3 S4] Hb Hsz H1 Hh. assert (G := lr_geom _ _ R).
  assert (Hn := geom_n _ G). assert (Hgs := geom_size _ G).
  split; rewrite ?H1, ?Hsz; try done.
  - apply (lr_disk _ _ R).
  - apply G.
  - assert (X := lr_nlog _ _ R). lia.
  - destruct Hh as [->|[-> _]]; lia.
  - destruct Hh as [E|[_ ->]]; [rewrite head_list_nil by done; apply NoDup_nil_2|apply R].
  - destruct Hh as [E|[_ ->]].
    + rewrite head_list_nil by done. intros b Hb'. by apply elem_of_nil in Hb'.
    + apply (lr_home _ _ R).
  - destruct Hh as [E|[_ ->]]; [|done]. rewrite head_list_nil by done. apply not_elem_of_nil.
Qed.

Lemma wlog_disk_writes d ws : wlog (disk_writes d ws) = wlog d ++ ws.
Proof.
  revert d. induction ws as [|[b x] ws IH]; intros d; simpl; [by rewrite app_nil_r|].
  rewrite IH. simpl. by rewrite <- app_assoc.
Qed.

(** The block writes that reached the disk between two states. *)
Definition writes_between (s s' : lstate) : list (Z * block) :=
  drop (length (wlog (ide (bio s)))) (wlog (ide (bio s'))).

Lemma writes_between_eq s s' ws :
  ide (bio s') = disk_writes (ide (bio s)) ws -> writes_between s s' = ws.
Proof. intros E. unfold writes_between. by rewrite E, wlog_disk_writes, drop_app_length. Qed.

(** After recovery the disk holds what [recovered] says. *)
Lemma initlog_recovers d st nlog p :
  log_disk d st nlog ->
  exists r, initlog 1 (boot d p) = Ret tt r /\
    ide (bio r) = disk_writes d (recovery_writes st (disk_read d)) /\
    (exists v, log_rep r (Store v ∅ ∅)) /\
    forall b, 0 <= b < disksize d -> ~ (st <= b < st + nlog) ->
      disk_read (ide (bio r)) b = recovered st (disk_read d) b.
Proof.
  intros LD. assert (W : wp (initlog 1) (fun _ r =>
    ide (bio r) = disk_writes d (recovery_writes st (disk_read d)) /\
    exists v, log_rep r (Store v ∅ ∅)) (boot d p)).
  { eapply initlog_run; [exact LD|]. eauto. }
  apply wp_inv in W as ([] & r & Er & Ei & Hr). exists r.
  split; [exact Er|]. split; [exact Ei|]. split; [exact Hr|].
  intros b Hb Hout. rewrite Ei, disk_read_writes.
  - unfold recovery_writes. rewrite fupds_app. simpl. rewrite fupd_ne; [done|].
    destruct LD. lia.
  - unfold recovery_writes. destruct LD as [Db Dsz Dst Den Dnl Dsb Dn Dnd Dh _].
    assert (V : forall b, is_block (disk_read d b)).
    { intros b'. unfold disk_read, rd. case_decide; [|apply zero_block_ok].
      destruct (_ !! _) as [x|] eqn:E; [|apply zero_block_ok].
      rewrite Forall_forall in Db. apply Db. by eapply list_elem_of_lookup_2. }
    apply Forall_app; split; [|apply Forall_singleton; split; simpl; [lia|by apply put32_block]].
    apply Forall_lookup. intros k w Hk. unfold home_copies in Hk.
    rewrite list_lookup_imap in Hk. destruct (head_list _ !! k) as [b'|] eqn:E; [|done].
    simpl in Hk. injection Hk as <-. split; simpl; [|apply V]. apply Dh.
    by eapply list_elem_of_lookup_2.
Qed.

Lemma good_writes_take d ws k : Forall (good_write d) ws -> Forall (good_write d) (take k ws).
Proof. apply Forall_take. Qed.

Lemma disk_writes_nil d : disk_writes d [] = d.
Proof. done. Qed.

(** A commit that was interrupted after [k] of its writes is recovered. *)
Lemma commit_crash_recovers s a k p :
  log_rep s a -> aheld a = ∅ -> sb_ok s ->
  exists r, initlog 1 (boot (crash_disk (ide (bio s)) (commit_writes (lg s) (aview a)) k) p) = Ret tt r /\
    ((forall b, home s b -> disk_read (ide (bio r)) b = disk_read (ide (bio s)) b) \/
     (forall b, home s b -> disk_read (ide (bio r)) b = aview a b)).
Proof.
  intros R Hh Hsb. set (ws := commit_writes (lg s) (aview a)).
  set (dk := crash_disk (ide (bio s)) ws k). set (D := disk_read (ide (bio s))).
  assert (Hg := good_writes_take _ _ k (commit_writes_good s a R)). fold ws in Hg.
  assert (EDk : forall b, disk_read dk b = fupds D (take k ws) b) by (intros; by apply disk_read_writes).
  assert (Hsz : disksize dk = disksize (ide (bio s))) by apply disksize_writes.
  assert (H1h : home s 1).
  { destruct Hsb, (lr_geom _ _ R). split; [unfold on_disk; lia|unfold in_log; lia]. }
  assert (C := commit_crash_cases s a k R Hh). simpl in C. fold ws D in C.
  assert (Hclean1 : D 1 = aview a 1).
  { symmetry. apply (rep_clean _ _ _ (lr_bio _ _ R) Hh (proj1 H1h)).
    rewrite (lr_dirty _ _ R), elem_of_list_to_set. apply Hsb. }
  assert (LD : log_disk dk (start (lg s)) (size (lg s))).
  { apply log_disk_intro; try done.
    - by exists a.
    - apply disk_writes_blocks; [|done]. apply (rep_wf _ _ (lr_bio _ _ R)).
    - rewrite EDk. destruct C as [[_ C]|[(_&_&_&C)|[_ C]]].
      + by apply C.
      + rewrite C; [done|done|apply Hsb].
      + by rewrite C.
    - rewrite !EDk. naive_solver. }
  destruct (initlog_recovers _ _ _ p LD) as (r & Er & _ & _ & Hr). exists r. split; [exact Er|].
  assert (Erec : forall b, home s b -> disk_read (ide (bio r)) b = recovered (start (lg s)) (disk_read dk) b).
  { intros b [Ho Hl]. apply Hr; [by rewrite Hsz|done]. }
  destruct C as [[C0 C]|[(C0&CL&Clog&C)|[C0 C]]].
  - left. intros b Hb. rewrite (Erec b Hb), recovered_empty by (rewrite EDk; exact C0).
    rewrite EDk. by apply C.
  - right. intros b Hb. rewrite Erec by done.
    rewrite (recovered_full _ _ (logged (lg s)) (aview a)).
    + case_decide; [done|]. rewrite EDk. by apply C.
    + rewrite EDk. exact CL.
    + intros i b' Hi. rewrite EDk. by apply Clog.
  - right. intros b Hb. rewrite (Erec b Hb), recovered_empty by (rewrite EDk; exact C0).
    rewrite EDk. by apply C.
Qed.

(** [commit], with an empty log too. *)
Lemma commit_total s a :
  log_rep s a -> aheld a = ∅ ->
  exists s' v', commit s = Ret tt s' /\ log_rep s' (Store v' ∅ ∅) /\
    lg s' = set_lh_n 0 (lg s) /\ (forall b, home s b -> v' b = aview a b) /\
    ide (bio s') = disk_writes (ide (bio s))
      (if 0 <? lh_n (lg s) then commit_writes (lg s) (aview a) else []).
Proof.
  intros R Hh. destruct (Z.ltb_spec 0 (lh_n (lg s))) as [Hn|Hn].
  - assert (W : wp commit (fun _ s' => exists v', log_rep s' (Store v' ∅ ∅) /\
      lg s' = set_lh_n 0 (lg s) /\ (forall b, home s b -> v' b = aview a b) /\
      ide (bio s') = disk_writes (ide (bio s)) (commit_writes (lg s) (aview a))) s).
    { eapply commit_run; [done..|]. intros t v' Rt Hv Et. exists v'. split_and!; try done.
      intros b [_ Hb]. by apply Hv. }
    apply wp_inv in W as ([] & s' & E & v' & ?). by exists s', v'.
  - assert (H0 : lh_n (lg s) = 0) by (assert (X := geom_n _ (lr_geom _ _ R)); lia).
    assert (EL : lg s = set_lh_n 0 (lg s)) by (rewrite <- H0; by destruct (lg s)).
    exists s, (aview a). split_and!; try done.
    + unfold commit. munfold. destruct (Z.ltb_spec 0 (lh_n (lg s))); [lia|done].
    + assert (logged (lg s) = []) as E by (unfold logged; by rewrite H0).
      destruct a as [v d h]. simpl in Hh. subst h. assert (d = ∅) as ->; [|done].
      rewrite (lr_dirty _ _ R : d = _), E. done.
Qed.
