(* ===== verification/BlockStore.v ===== *)
(** * The interface between the file system and the block layers

    fs.c uses disk blocks through [bread], [log_write] and [brelse] and
    through the data of the buffers it holds.  [BlockStore] has these
    operations; [BlockStoreLaws] states what they promise inside a
    transaction.  The theorems about fs.c are proved against the laws;
    LogStore.v proves the laws for log.c over bio.c. *)

From S2P Require Import Prelude Param.

(** What a file-system call sees of the block layers: the current contents
    of the blocks, the blocks recorded in the running transaction, the
    buffers the process holds with their block numbers, and the held blocks
    that were modified and not yet passed to [log_write]. *)
Record bstore := BStore {
  bview : Z -> block;
  blogged : gset Z;
  bheld : gmap nat Z;
  bstale : gset Z
}.

(** The part of the environment that a transaction does not change. *)
Record benv := BEnv {
  e_size : Z;        (* blocks on the device *)
  e_logstart : Z;    (* first block of the log *)
  e_logsize : Z;     (* blocks of the log *)
  e_open : bool      (* a transaction is open *)
}.

Definition writable (e : benv) (b : Z) : Prop :=
  0 <= b < e_size e /\ ~ (e_logstart e <= b < e_logstart e + e_logsize e).

(** [log_write] panics when this many blocks are recorded. *)
Definition log_cap (e : benv) : Z := Z.min LOGSIZE (e_logsize e - 1).

Definition upd {A} (f : Z -> A) (b : Z) (x : A) : Z -> A :=
  fun b' => if decide (b = b') then x else f b'.

Lemma upd_eq {A} (f : Z -> A) b x : upd f b x b = x.
Proof. unfold upd. by rewrite decide_True. Qed.
Lemma upd_ne {A} (f : Z -> A) b b' x : b ≠ b' -> upd f b x b' = f b'.
Proof. intros. unfold upd. by rewrite decide_False. Qed.

(** A buffer can be found for one more block. *)
Definition bs_room (x : bstore) (b : Z) : Prop :=
  b ∈ blogged x \/ (size (blogged x ∪ map_img (bheld x)) < NBUF)%nat.

Class BlockStore (S : Type) := {
  bs_bread : Z -> Z -> M S nat;
  bs_brelse : nat -> M S unit;
  bs_log_write : nat -> M S unit;
  bs_data : nat -> M S block;
  bs_set_data : nat -> block -> M S unit
}.

Class BlockStoreLaws (S : Type) `{BlockStore S} := {
  bs_rep : S -> bstore -> Prop;
  bs_env : S -> benv;

  bs_view_block s x b : bs_rep s x -> 0 <= b < e_size (bs_env s) -> is_block (bview x b);

  bs_wp_bread s x b Q :
    bs_rep s x -> 0 <= b < e_size (bs_env s) -> (forall i, bheld x !! i ≠ Some b) ->
    bs_room x b ->
    (forall i s', bheld x !! i = None -> bs_env s' = bs_env s ->
       bs_rep s' (BStore (bview x) (blogged x) (<[i := b]> (bheld x)) (bstale x)) -> Q i s') ->
    wp (bs_bread ROOTDEV b) Q s;

  bs_wp_data s x i b Q :
    bs_rep s x -> bheld x !! i = Some b -> Q (bview x b) s -> wp (bs_data i) Q s;

  bs_wp_set_data s x i b d Q :
    bs_rep s x -> bheld x !! i = Some b -> is_block d ->
    (forall s', bs_env s' = bs_env s ->
       bs_rep s' (BStore (upd (bview x) b d) (blogged x) (bheld x) (bstale x ∪ {[b]})) -> Q tt s') ->
    wp (bs_set_data i d) Q s;

  bs_wp_log_write s x i b Q :
    bs_rep s x -> bheld x !! i = Some b -> writable (bs_env s) b -> e_open (bs_env s) = true ->
    Z.of_nat (size (blogged x)) < log_cap (bs_env s) ->
    (forall s', bs_env s' = bs_env s ->
       bs_rep s' (BStore (bview x) (blogged x ∪ {[b]}) (bheld x) (bstale x ∖ {[b]})) -> Q tt s') ->
    wp (bs_log_write i) Q s;

  bs_wp_brelse s x i b Q :
    bs_rep s x -> bheld x !! i = Some b -> b ∉ bstale x ->
    (forall s', bs_env s' = bs_env s ->
       bs_rep s' (BStore (bview x) (blogged x) (delete i (bheld x)) (bstale x)) -> Q tt s') ->
    wp (bs_brelse i) Q s
}.
