(* ===== verification/LogStore.v ===== *)
(** * The log implements the block-store interface *)

From S2P Require Import Prelude Param SleepLock Layout Bio Log LogCrash BlockStore.

#[export] Instance log_store : BlockStore lstate := {|
  bs_bread dev' b := bio_op (bread dev' b);
  bs_brelse i := bio_op (brelse i);
  bs_log_write i := log_write i;
  bs_data i := bdata i;
  bs_set_data i d := set_bdata i d
|}.

Definition log_env (s : lstate) : benv :=
  BEnv (disksize (ide (bio s))) (start (lg s)) (size (lg s)) (1 <=? outstanding (lg s)).

(** Blocks that are neither recorded nor modified are on the disk. *)
Record ls_rep (s : lstate) (x : bstore) : Prop := {
  ls_log : log_rep s (Store (bview x) (blogged x) (bheld x));
  ls_disk : forall b, 0 <= b < disksize (ide (bio s)) -> b ∉ blogged x -> b ∉ bstale x ->
    bview x b = disk_read (ide (bio s)) b
}.

Lemma log_rep_bio s a t a' :
  log_rep s a -> bio_rep t a' -> adirty a' = adirty a -> ide t = ide (bio s) ->
  log_rep (set_bio t s) a'.
Proof.
  intros [Rb [G1 G2 G3 G4 G5 G6] Rn Rh Rd Rl Rhd Rdk] Rt Ed Ei.
  split; simpl; rewrite ?Ei, ?Ed; try done.
  - split; simpl; rewrite ?Ei; done.
  - intros b Hb. destruct (Rh b Hb). split; [|done]. unfold on_disk in *. simpl. by rewrite Ei.
Qed.

Lemma log_env_bio t s : ide t = ide (bio s) -> log_env (set_bio t s) = log_env s.
Proof. intros E. unfold log_env. simpl. by rewrite E. Qed.

(** ** The search of [log_write] *)

Lemma absorb_spec l bn i n :
  let j := absorb l bn i n in
  i <= j <= i + Z.of_nat n /\
  (j < i + Z.of_nat n -> rd 0 l j = bn) /\
  (forall k, i <= k < j -> rd 0 l k ≠ bn).
Proof.
  revert i. induction n as [|n IH]; intros i; simpl.
  - split_and!; try lia.
  - destruct (Z.eqb_spec (rd 0 l i) bn) as [E|E].
    + split_and!; try lia; done.
    + destruct (IH (i + 1)) as (H1 & H2 & H3). split; [lia|]. split.
      * intros. apply H2. lia.
      * intros k Hk. destruct (decide (k = i)) as [->|]; [done|]. apply H3. lia.
Qed.

Lemma logged_elem s b : log_geom s ->
  b ∈ logged (lg s) <-> exists i, 0 <= i < lh_n (lg s) /\ rd 0 (lh_block (lg s)) i = b.
Proof.
  intros G. split.
  - intros Hb. apply list_elem_of_lookup in Hb as (k & Hk).
    assert (X := zlen_logged s G). apply lookup_lt_Some in Hk as Hl. unfold zlen in X.
    exists (Z.of_nat k). split; [lia|].
    assert (Y := logged_lookup s (Z.of_nat k) G ltac:(lia)). rewrite Nat2Z.id, Hk in Y.
    by injection Y as <-.
  - intros (i & Hi & <-). by apply rd_logged_in.
Qed.

(** The log after recording block [b]: unchanged if [b] is already
    recorded, extended by [b] otherwise. *)
Lemma record_logged s b :
  log_geom s -> lh_n (lg s) < LOGSIZE ->
  let l := lg s in
  let i := absorb (lh_block l) b 0 (Z.to_nat (lh_n l)) in
  let l1 := set_lh_block (wr (lh_block l) i b) l in
  let l2 := if i =? lh_n l then set_lh_n (lh_n l + 1) l1 else l1 in
  logged l2 = (if decide (b ∈ logged l) then logged l else logged l ++ [b]) /\
  lh_n l2 = zlen (logged l2) /\ zlen (lh_block l2) = LOGSIZE.
Proof.
  intros G Hn l i l1 l2. assert (Gn := geom_n _ G). assert (Gb := geom_block _ G). fold l in Gn, Gb, Hn.
  assert (A := absorb_spec (lh_block l) b 0 (Z.to_nat (lh_n l))). simpl in A. fold i in A.
  destruct A as (A1 & A2 & A3). rewrite Z2Nat.id in A1, A2 by lia.
  assert (ZL := zlen_logged s G). fold l in ZL.
  assert (Hz1 : zlen (lh_block l1) = LOGSIZE) by (simpl; by rewrite zlen_wr).
  destruct (Z.eqb_spec i (lh_n l)) as [Ei|Ei]; unfold l2.
  - rewrite decide_False.
    + assert (EL : logged (set_lh_n (lh_n l + 1) l1) = logged l ++ [b]).
      { unfold logged. simpl. rewrite Ei. apply (rd_ext 0).
        - rewrite length_app. simpl. rewrite !length_slice by (rewrite ?zlen_wr; lia). lia.
        - intros k. rewrite zlen_slice by (rewrite ?zlen_wr; lia). intros Hk.
          rewrite rd_slice by lia. rewrite rd_wr by lia. rewrite Z.add_0_l.
          assert (Hls : length (slice (lh_block l) 0 (lh_n l)) = Z.to_nat (lh_n l))
            by (apply length_slice; lia).
          case_decide as Hd.
          + subst k. symmetry. apply rd_lookup; [lia|].
            rewrite lookup_app_r by lia. rewrite Hls, Nat.sub_diag. done.
          + symmetry. apply rd_lookup; [lia|]. rewrite lookup_app_l by lia.
            rewrite (lookup_rd 0) by lia. rewrite rd_slice by lia. do 2 f_equal. lia. }
      rewrite EL. split_and!; [done| |done]. simpl. unfold zlen in *. rewrite length_app. simpl. lia.
    + unfold l. rewrite (logged_elem s) by done. intros (k & Hk & Hb). apply (A3 k); [fold l in Hk; lia|done].
  - assert (Hb : rd 0 (lh_block l) i = b) by (apply A2; lia).
    rewrite decide_True by (apply (logged_elem s); [done|]; exists i; fold l; split; [lia|done]).
    assert (EL : logged l1 = logged l).
    { unfold logged. simpl. apply (rd_ext 0).
      - rewrite !length_slice by (rewrite ?zlen_wr; lia). done.
      - intros k. rewrite zlen_slice by (rewrite ?zlen_wr; lia). intros Hk.
        rewrite !rd_slice by lia. rewrite rd_wr by lia. case_decide as E; [|done].
        by rewrite <- E, Hb. }
    rewrite EL. split_and!; done || (simpl; lia).
Qed.

Lemma log_write_rep s a i b :
  log_rep s a -> aheld a !! i = Some b -> home s b -> 1 <= outstanding (lg s) ->
  lh_n (lg s) < LOGSIZE -> lh_n (lg s) < size (lg s) - 1 ->
  exists s', log_write i s = Ret tt s' /\
    log_rep s' (Store (aview a) (adirty a ∪ {[b]}) (aheld a)) /\
    ide (bio s') = ide (bio s) /\ log_env s' = log_env s.
Proof.
  intros R Hh Hb Ho H1 H2. assert (G := lr_geom _ _ R).
  assert (RL := record_logged s b G H1). simpl in RL.
  set (l2 := if _ =? _ then _ else _) in RL. destruct RL as (RL1 & RL2 & RL3).
  destruct (bufdirty_rep _ _ _ _ (lr_bio _ _ R) Hh) as (t & Et & Rt & It & _).
  destruct (held_buf _ _ _ _ (lr_bio _ _ R) Hh) as (_ & _ & fl & _ & _ & Hbuf).
  assert (Hl2 : start l2 = start (lg s) /\ size l2 = size (lg s) /\ ldev l2 = ldev (lg s) /\
    outstanding l2 = outstanding (lg s)) by (unfold l2; by destruct (_ =? _)).
  destruct Hl2 as (Es & Ez & Ed & Eo).
  exists (LState t l2). split_and!; try done.
  - unfold bufdirty, modify in Et. injection Et as <-. unfold log_write. munfold.
    destruct (Z.leb_spec LOGSIZE (lh_n (lg s))); [lia|].
    destruct (Z.leb_spec (size (lg s) - 1) (lh_n (lg s))); [lia|]. simpl.
    destruct (Z.ltb_spec (outstanding (lg s)) 1); [lia|]. unfold log_mod, modify. simpl.
    rewrite Hbuf. simpl. unfold l2. by destruct (_ =? lh_n (lg s)).
  - assert (Hn2 : lh_n l2 <= lh_n (lg s) + 1) by (unfold l2; destruct (_ =? _); simpl; lia).
    destruct R as [Rb [G1 G2 G3 G4 G5 G6] Rn Rh Rd Rl Rhd Rdk]. simpl in *.
    split; simpl; rewrite ?It, ?Es, ?Ez; try done.
    + split; simpl; rewrite ?It, ?Es, ?Ez, ?Ed; try done; [|lia].
      assert (0 <= lh_n l2) by (rewrite RL2; apply zlen_nonneg). lia.
    + rewrite RL1. case_decide; [done|]. apply NoDup_app. split_and!; [done| |apply NoDup_singleton].
      intros x Hx Hx'. apply list_elem_of_singleton in Hx'. by subst.
    + intros x. rewrite RL1. intros Hx.
      assert (Hx' : home s x).
      { case_decide; [by apply Rh|]. apply elem_of_app in Hx as [Hx|Hx]; [by apply Rh|].
        apply list_elem_of_singleton in Hx. by subst. }
      destruct Hx' as [X1 X2]. split; [unfold on_disk in *; simpl; by rewrite It|].
      unfold in_log in *. simpl. by rewrite Es, Ez.
    + rewrite Rd, RL1. case_decide; [|rewrite list_to_set_app_L; simpl; clear; set_solver].
      assert (X : {[b]} ⊆ (list_to_set (logged (lg s)) : gset Z)); [|clear -X; set_solver].
      intros x ->%elem_of_singleton. by apply elem_of_list_to_set.
  - unfold log_env. simpl. by rewrite It, Es, Ez, Eo.
Qed.

Lemma logged_count s a : log_rep s a -> Z.of_nat (base.size (adirty a)) = lh_n (lg s).
Proof.
  intros R. rewrite (lr_dirty _ _ R), size_list_to_set by apply R.
  assert (X := zlen_logged s (lr_geom _ _ R)). unfold zlen in X. done.
Qed.

#[export] Program Instance log_store_laws : BlockStoreLaws lstate := {|
  bs_rep := ls_rep;
  bs_env := log_env
|}.
Next Obligation.
  intros s x b [R _] Hb. by apply (rep_view_block (bio s) _ b (lr_bio _ _ R)).
Qed.
Next Obligation.
  intros s x b Q [R Hd] Hb Hh Hr HQ. simpl.
  apply (wp_bread s (Store (bview x) (blogged x) (bheld x))); try done.
  - apply R.
  - intros i t Hi Rt Et. apply HQ; [done|by apply log_env_bio|]. split; simpl.
    + by eapply log_rep_bio.
    + by rewrite Et.
Qed.
Next Obligation.
  intros s x i b Q [R _] Hh HQ. by eapply wp_bdata; [apply R|..].
Qed.
Next Obligation.
  intros s x i b d Q [R Hd] Hh Hb HQ. simpl. eapply wp_set_bdata; [apply R|done|done|].
  intros t Rt Et. apply HQ; [by apply log_env_bio|]. split; simpl.
  - by eapply log_rep_bio.
  - rewrite Et. intros b' Hb' Hl Hs. rewrite upd_ne by set_solver. apply Hd; set_solver.
Qed.
Next Obligation.
  intros s x i b Q [R Hd] Hh [Hw1 Hw2] Ho Hc HQ. simpl in *.
  assert (Hcnt := logged_count _ _ R). simpl in Hcnt.
  unfold log_env in Ho. simpl in Ho. apply Z.leb_le in Ho. unfold log_cap in Hc. simpl in Hc.
  destruct (log_write_rep s _ i b R Hh) as (s' & E & R' & Ei & Ee); try done; try lia.
  apply (wp_intro _ _ _ _ _ E). apply HQ; [done|]. split; simpl; [done|].
  rewrite Ei. intros b' Hb' Hl Hs. apply Hd; set_solver.
Qed.
Next Obligation.
  intros s x i b Q [R Hd] Hh Hs HQ. simpl.
  destruct (held_buf _ _ _ _ (lr_bio _ _ R) Hh) as (_ & Hb & _).
  eapply wp_brelse; [apply R|done| |].
  - simpl. destruct (decide (b ∈ blogged x)); [by left|]. right. by apply Hd.
  - intros t Rt Et. apply HQ; [by apply log_env_bio|]. split; simpl; [|by rewrite Et].
    by eapply log_rep_bio.
Qed.
