(* ===== verification/Transactions.v ===== *)
(** * Transactions: begin_op, end_op and what survives a crash *)

From S2P Require Import Prelude Param SleepLock Layout Bio Log LogCrash BlockStore LogStore.

(** ** end_op of the last outstanding call commits *)

Lemma log_rep_lg s a f :
  (forall l, start (f l) = start l /\ size (f l) = size l /\ ldev (f l) = ldev l /\
             lh_n (f l) = lh_n l /\ lh_block (f l) = lh_block l) ->
  log_rep s a -> log_rep (LState (bio s) (f (lg s))) a.
Proof.
  intros Hf [Rb [G1 G2 G3 G4 G5 G6] Rn Rh Rd Rl Rhd Rdk].
  destruct (Hf (lg s)) as (E1 & E2 & E3 & E4 & E5).
  assert (EL : logged (f (lg s)) = logged (lg s)) by (unfold logged; by rewrite E4, E5).
  split; simpl; rewrite ?E1, ?E2, ?E3, ?E4, ?E5, ?EL; try done.
  - split; simpl; rewrite ?E1, ?E2, ?E3, ?E4, ?E5; done.
  - intros b Hb. destruct (Rh b Hb). split; [done|]. unfold in_log in *. simpl. by rewrite E1, E2.
Qed.

(** The log record when [commit] is called by [end_op]. *)
Definition closing (l : log) : log := set_committing true (set_outstanding (outstanding l - 1) l).

Lemma end_op_last s a :
  log_rep s a -> aheld a = ∅ -> outstanding (lg s) = 1 -> committing (lg s) = false ->
  exists s' v', end_op s = Ret tt s' /\ log_rep s' (Store v' ∅ ∅) /\
    (forall b, home s b -> v' b = aview a b) /\
    outstanding (lg s') = 0 /\ committing (lg s') = false /\ lh_n (lg s') = 0 /\
    start (lg s') = start (lg s) /\ size (lg s') = size (lg s) /\
    ide (bio s') = disk_writes (ide (bio s))
      (if 0 <? lh_n (lg s) then commit_writes (closing (lg s)) (aview a) else []).
Proof.
  intros R Hh Ho Hc. set (s1 := LState (bio s) (closing (lg s))).
  assert (R1 : log_rep s1 a) by (by apply (log_rep_lg s a closing)).
  destruct (commit_total s1 a R1 Hh) as (s2 & v' & E2 & R2 & El & Hv & Ei).
  exists (LState (bio s2) (set_wakeups (S (wakeups (lg s2))) (set_committing false (lg s2)))), v'.
  split_and!; try (simpl; rewrite ?El; done).
  - unfold end_op, log_mod, wakeup_log, log_mod. munfold. cbn -[commit]. rewrite Hc.
    destruct (Z.eqb_spec (outstanding (lg s) - 1) 0); [|lia].
    match goal with |- context [commit ?x] => change x with s1 end. by rewrite E2.
  - by apply (log_rep_lg s2 _ (fun l => set_wakeups (S (wakeups l)) (set_committing false l))).
  - simpl. rewrite El. simpl. lia.
Qed.

(** [end_op] while other calls are outstanding only gives back the space
    reserved by this call. *)
Lemma end_op_other s :
  1 < outstanding (lg s) -> committing (lg s) = false ->
  end_op s = Ret tt (set_lg (set_wakeups (S (wakeups (lg s)))
                               (set_outstanding (outstanding (lg s) - 1) (lg s))) s).
Proof.
  intros Ho Hc. unfold end_op, log_mod, wakeup_log, log_mod. munfold. simpl. rewrite Hc.
  destruct (Z.eqb_spec (outstanding (lg s) - 1) 0); [lia|]. done.
Qed.

(** C1: a transaction is atomic with respect to crashes.  When the last
    outstanding file-system call ends, [end_op] commits: it returns, and the
    blocks outside the log hold on the disk what the file system sees.  If
    the machine stops after any number [k] of the block writes that this
    commit performs and boots again, [initlog] returns, and on every block
    outside the log the disk holds either everything the transaction wrote or
    nothing of it. *)
Theorem transaction_crash_atomic s a p :
  log_rep s a -> aheld a = ∅ -> sb_ok s ->
  outstanding (lg s) = 1 -> committing (lg s) = false ->
  exists s', end_op s = Ret tt s' /\
    ide (bio s') = disk_writes (ide (bio s)) (writes_between s s') /\
    (forall b, home s b -> disk_read (ide (bio s')) b = aview a b) /\
    forall k, exists r,
      initlog 1 (boot (crash_disk (ide (bio s)) (writes_between s s') k) p) = Ret tt r /\
      ((forall b, home s b -> disk_read (ide (bio r)) b = disk_read (ide (bio s)) b) \/
       (forall b, home s b -> disk_read (ide (bio r)) b = aview a b)).
Proof.
  intros R Hh Hsb Ho Hc. set (s1 := LState (bio s) (closing (lg s))).
  assert (R1 : log_rep s1 a) by (by apply (log_rep_lg s a closing)).
  destruct (end_op_last s a R Hh Ho Hc) as (s' & v' & E & R' & Hv & _ & _ & _ & _ & _ & Ei).
  exists s'. assert (Ew := writes_between_eq _ _ _ Ei). rewrite Ew. split_and!; [done|done| |].
  - intros b Hb. rewrite <- Hv by done. symmetry. apply (rep_clean _ _ _ (lr_bio _ _ R')); [done| |set_solver].
    rewrite Ei, disksize_writes. apply Hb.
  - intros k. destruct (Z.ltb_spec 0 (lh_n (lg s))) as [Hn|Hn].
    + apply (commit_crash_recovers s1 a k p R1 Hh). destruct Hsb. by split.
    + assert (H0 : lh_n (lg s) = 0) by (assert (X := geom_n _ (lr_geom _ _ R)); lia).
      unfold crash_disk. rewrite take_nil, disk_writes_nil.
      destruct (commit_crash_recovers s1 a 0 p R1 Hh) as (r & Er & Hr); [destruct Hsb; by split|].
      exists r. split; [exact Er|done].
Qed.

(** ** Crashes during recovery *)

(** After [k] writes of recovery the log is still there, or recovery is
    complete. *)
Lemma recovery_prefix d st nlog k :
  log_disk d st nlog ->
  let D := disk_read d in
  let L := head_list (D st) in
  take k (recovery_writes st D) = take k (home_copies st L D) \/
  take k (recovery_writes st D) = recovery_writes st D.
Proof.
  intros LD D L. unfold recovery_writes. fold L.
  destruct (decide (k <= length (home_copies st L D))%nat).
  - left. by rewrite take_app_le.
  - right. apply take_ge. rewrite length_app. simpl. lia.
Qed.

Lemma disk_read_is_block d b : Forall is_block (image d) -> is_block (disk_read d b).
Proof.
  intros Hd. unfold disk_read, rd. case_decide; [|apply zero_block_ok].
  destruct (_ !! _) as [x|] eqn:E; [|apply zero_block_ok].
  rewrite Forall_forall in Hd. apply Hd. by eapply list_elem_of_lookup_2.
Qed.

Lemma recovery_writes_good d st nlog :
  log_disk d st nlog -> Forall (good_write d) (recovery_writes st (disk_read d)).
Proof.
  intros [Db Dsz Dst Den Dnl Dsb Dn Dnd Dh _]. unfold recovery_writes.
  apply Forall_app; split;
    [|apply Forall_singleton; split; simpl; [lia|by apply put32_block; [apply disk_read_is_block|..]]].
  apply Forall_lookup. intros i w Hi. unfold home_copies in Hi.
  rewrite list_lookup_imap in Hi. destruct (head_list _ !! i) as [b|] eqn:E; [|done].
  simpl in Hi. injection Hi as <-. split; simpl; [|by apply disk_read_is_block].
  apply Dh. by eapply list_elem_of_lookup_2.
Qed.

(** Interrupted recovery leaves a disk that recovers to the same contents. *)
Lemma recovery_crash_same d st nlog k :
  log_disk d st nlog ->
  let dk := crash_disk d (recovery_writes st (disk_read d)) k in
  log_disk dk st nlog /\ disksize dk = disksize d /\
  forall b, ~ (st <= b < st + nlog) ->
    recovered st (disk_read dk) b = recovered st (disk_read d) b.
Proof.
  intros LD dk. assert (Hg := good_writes_take _ _ k (recovery_writes_good _ _ _ LD)).
  assert (EDk : forall b, disk_read dk b = fupds (disk_read d) (take k (recovery_writes st (disk_read d))) b)
    by (intros; by apply disk_read_writes).
  assert (Hsz : disksize dk = disksize d) by apply disksize_writes.
  assert (Hbl : Forall is_block (image dk)) by (apply disk_writes_blocks; [apply LD|done]).
  set (D := disk_read d) in *. set (L := head_list (D st)) in *.
  destruct LD as [Db Dsz Dst Den Dnl Dsb Dn Dnd Dh Dk]. fold D L in Dn, Dnd, Dh, Dk, Dsb.
  assert (Hout : forall b j, b ∉ L -> b ∉ (take j (home_copies st L D)).*1).
  { intros b j Hb Hin. by apply Hb, (subseteq_take j), (home_copies_dom st L D). }
  assert (Hall : forall b, b ∉ L -> b ∉ (home_copies st L D).*1).
  { intros b Hb. rewrite <- (firstn_all (home_copies st L D)). by apply Hout. }
  assert (Hlog : forall b, st <= b < st + nlog -> b ∉ L) by (intros b Hb Hin; by apply (Dh b Hin)).
  destruct (recovery_prefix d st nlog k ltac:(by split)) as [Et|Et]; fold D L in Et; rewrite Et in EDk.
  - assert (Elog : forall b, st <= b < st + nlog -> disk_read dk b = D b).
    { intros b Hb. rewrite EDk. by apply fupds_ne, Hout, Hlog. }
    assert (EL : head_list (disk_read dk st) = L) by (by rewrite Elog by lia).
    split_and!; try done.
    + split; rewrite ?Hsz, ?EL; try done; rewrite ?Elog by lia; try done.
      rewrite EDk, fupds_ne by (by apply Hout). done.
    + intros b Hb. unfold recovered. rewrite EL. fold L.
      replace (home_copies st L (disk_read dk)) with (home_copies st L D).
      * destruct (decide (b ∈ (home_copies st L D).*1)); [by apply fupds_in|].
        rewrite !fupds_ne by done. rewrite EDk. apply fupds_ne. intros Hin.
        apply list_elem_of_fmap in Hin as (w & -> & Hin). apply subseteq_take in Hin.
        apply n, list_elem_of_fmap. by exists w.
      * apply list_eq. intros i. unfold home_copies. rewrite !list_lookup_imap.
        destruct (L !! i) eqn:Ei; [|done]. simpl. rewrite Elog; [done|].
        apply lookup_lt_Some in Ei. unfold L, head_list in Ei. rewrite length_fmap, length_seq in Ei. lia.
  - unfold recovery_writes in EDk. fold L in EDk.
    assert (E0 : geti32 (disk_read dk st) 0 = 0).
    { rewrite EDk, fupds_app. simpl. rewrite fupd_eq. unfold geti32.
      rewrite get32_put32; [done|lia|]. assert (B := disk_read_is_block d st Db). fold D in B.
      destruct B. unfold BSIZE in *. lia. }
    split_and!; try done.
    + split; rewrite ?Hsz, ?E0, ?(head_list_nil _ E0); try done; try lia.
      * rewrite EDk, fupds_app. simpl. rewrite fupd_ne by lia. by rewrite fupds_ne by (by apply Hall).
      * apply NoDup_nil_2.
      * intros b Hb. by apply elem_of_nil in Hb.
      * apply not_elem_of_nil.
    + intros b Hb. rewrite recovered_empty by done. rewrite EDk, fupds_app. simpl.
      rewrite fupd_ne by lia. done.
Qed.

(** C16: recovery is idempotent under crashes.  On every disk with a usable
    log, recovery returns; if the machine stops after any number [k] of the
    writes that recovery performs, the next recovery returns as well and
    leaves the same contents in every block outside the log. *)
Theorem recovery_crash_idempotent d st nlog p q :
  log_disk d st nlog ->
  exists r, initlog 1 (boot d p) = Ret tt r /\
    forall k, exists r',
      initlog 1 (boot (crash_disk d (writes_between (boot d p) r) k) q) = Ret tt r' /\
      forall b, 0 <= b < disksize d -> ~ (st <= b < st + nlog) ->
        disk_read (ide (bio r')) b = disk_read (ide (bio r)) b.
Proof.
  intros LD. destruct (initlog_recovers d st nlog p LD) as (r & Er & Ei & _ & Hr).
  exists r. split; [exact Er|]. intros k.
  assert (Ew : writes_between (boot d p) r = recovery_writes st (disk_read d)).
  { by apply writes_between_eq. }
  rewrite Ew. destruct (recovery_crash_same d st nlog k LD) as (LD' & Hsz & Hsame).
  destruct (initlog_recovers _ st nlog q LD') as (r' & Er' & _ & _ & Hr').
  exists r'. split; [exact Er'|]. intros b Hb Hout.
  rewrite Hr' by (rewrite ?Hsz; done). rewrite Hsame by done. symmetry. by apply Hr.
Qed.

(** ** A concrete transaction *)

(** An eight-block disk: boot block, super block, a log of three blocks at
    block 2, and data. *)
Definition demo_sb : block := put32 (put32 (put32 zero_block 0 8) 12 3) 16 2.
Definition demo_disk : disk := Disk (zero_block :: demo_sb :: replicate 6 zero_block) [].
Definition demo_data : block := replicate (Z.to_nat BSIZE) 7.

Lemma demo_sb_block : is_block demo_sb.
Proof. unfold demo_sb. repeat apply put32_block; auto with xv6; unfold BSIZE; lia. Qed.

Lemma demo_log_disk : log_disk demo_disk 2 3.
Proof.
  assert (E : head_list (disk_read demo_disk 2) = []) by (apply head_list_nil; reflexivity).
  assert (Es : disksize demo_disk = 8) by (vm_compute; reflexivity).
  assert (En : geti32 (disk_read demo_disk 2) 0 = 0) by (vm_compute; reflexivity).
  split; rewrite ?E, ?Es, ?En; unfold LOGSIZE, MAXOPBLOCKS; try lia.
  - simpl. repeat apply Forall_cons_2; auto using Forall_nil_2, zero_block_ok, demo_sb_block.
  - split; vm_compute; reflexivity.
  - apply NoDup_nil_2.
  - intros b Hb. by apply elem_of_nil in Hb.
  - apply not_elem_of_nil.
Qed.

(** The same disk after a crash between the commit of [demo_data] for block
    6 and its installation. *)
Definition crashed_disk : disk :=
  Disk [zero_block; demo_sb; put32 (put32 zero_block 0 1) 4 6; demo_data;
        zero_block; zero_block; zero_block; zero_block] [].

Lemma demo_data_block : is_block demo_data.
Proof. split; [done|]. apply Forall_replicate. mlia. Qed.

Lemma crashed_log_disk : log_disk crashed_disk 2 3.
Proof.
  assert (E : head_list (disk_read crashed_disk 2) = [6]) by (vm_compute; reflexivity).
  assert (Es : disksize crashed_disk = 8) by (vm_compute; reflexivity).
  assert (En : geti32 (disk_read crashed_disk 2) 0 = 1) by (vm_compute; reflexivity).
  split; rewrite ?E, ?Es, ?En; unfold LOGSIZE, MAXOPBLOCKS; try lia.
  - simpl. repeat apply Forall_cons_2; auto using Forall_nil_2, zero_block_ok, demo_sb_block, demo_data_block.
    repeat apply put32_block; auto with xv6; unfold BSIZE; lia.
  - split; vm_compute; reflexivity.
  - apply NoDup_singleton.
  - intros b Hb. apply list_elem_of_singleton in Hb. lia.
  - rewrite list_elem_of_singleton. lia.
Qed.

(** Write [demo_data] to block 6 inside a transaction. *)
Definition demo_ops : M lstate unit :=
  initlog 1;;
  begin_op;;
  b ← bs_bread 1 6;
  bs_set_data b demo_data;;
  bs_log_write b;;
  bs_brelse b.

Definition demo_state : lstate :=
  match demo_ops (boot demo_disk 1) with Ret _ s => s | _ => boot demo_disk 1 end.

Lemma begin_op_run s a :
  log_rep s a -> committing (lg s) = false ->
  lh_n (lg s) + (outstanding (lg s) + 1) * MAXOPBLOCKS <= LOGSIZE ->
  exists s', begin_op s = Ret tt s' /\ log_rep s' a /\ bio s' = bio s /\
    lg s' = set_outstanding (outstanding (lg s) + 1) (lg s).
Proof.
  intros R Hc Hn. eexists. split_and!.
  - unfold begin_op. munfold. rewrite Hc. destruct (Z.ltb_spec LOGSIZE
      (lh_n (lg s) + (outstanding (lg s) + 1) * MAXOPBLOCKS)); [lia|]. reflexivity.
  - by apply (log_rep_lg s a (set_outstanding (outstanding (lg s) + 1))).
  - done.
  - done.
Qed.

Lemma demo_wp : wp demo_ops (fun _ s => exists v, ls_rep s (BStore v {[6]} ∅ ∅) /\ v 6 = demo_data)
  (boot demo_disk 1).
Proof.
  unfold demo_ops. wp_step. eapply initlog_run; [apply demo_log_disk|].
  intros r v R Er Es Ez En Eo Ec. wp_step.
  destruct (begin_op_run r _ R Ec) as (s1 & E1 & R1 & Eb1 & El1).
  { rewrite En, Eo. unfold LOGSIZE, MAXOPBLOCKS. lia. }
  apply (wp_intro _ _ _ _ _ E1).
  assert (Hsz : disksize (ide (bio s1)) = 8) by (rewrite Eb1, Er, disksize_writes; done).
  assert (Ee : bs_env s1 = BEnv 8 2 3 true).
  { simpl. unfold log_env. rewrite Hsz, El1. simpl. by rewrite Es, Ez, Eo. }
  assert (R1' : bs_rep s1 (BStore v ∅ ∅ ∅)).
  { split; simpl; [done|]. intros b Hb _ _. by apply (rep_clean _ _ b (lr_bio _ _ R1)). }
  wp_step. eapply bs_wp_bread; [exact R1'|rewrite Ee; simpl; lia|done| |].
  { right. simpl. rewrite map_img_empty_L, union_empty_l_L, size_empty. unfold NBUF. lia. }
  intros i s2 _ Ee2 R2. simpl in R2. rewrite insert_empty in R2. wp_step.
  eapply bs_wp_set_data; [exact R2|apply lookup_singleton_eq| |].
  { apply demo_data_block. }
  intros s3 Ee3 R3. simpl in R3. wp_step.
  eapply bs_wp_log_write; [exact R3|apply lookup_singleton_eq| | | |].
  1-3: rewrite Ee3, Ee2, Ee. { split; simpl; lia. } { done. }
  { vm_compute. reflexivity. }
  intros s4 Ee4 R4. simpl in R4.
  eapply bs_wp_brelse; [exact R4|apply lookup_singleton_eq|simpl; clear; set_solver|].
  intros s5 _ R5. simpl in R5. rewrite delete_singleton_eq, !union_empty_l_L, difference_diag_L in R5.
  exists (upd v 6 demo_data). split; [exact R5|apply upd_eq].
Qed.

Lemma demo_state_rep : exists v, ls_rep demo_state (BStore v {[6]} ∅ ∅) /\ v 6 = demo_data.
Proof.
  assert (W := demo_wp). apply wp_inv in W as ([] & s & E & H). unfold demo_state. by rewrite E.
Qed.

Lemma demo_state_open : outstanding (lg demo_state) = 1 /\ committing (lg demo_state) = false.
Proof. vm_compute. done. Qed.

Lemma demo_state_sb : sb_ok demo_state.
Proof.
  split.
  1-2: vm_compute; reflexivity.
  - assert (E : start (lg demo_state) = 2) by (vm_compute; reflexivity). by rewrite E.
  - assert (E : logged (lg demo_state) = [6]) by (vm_compute; reflexivity). 
    rewrite E, list_elem_of_singleton. lia.
Qed.

Lemma transaction_crash_atomic_witness : exists v, v 6 = demo_data /\
  exists s', end_op demo_state = Ret tt s' /\
    (forall b, home demo_state b -> disk_read (ide (bio s')) b = v b) /\
    forall k, exists r,
      initlog 1 (boot (crash_disk (ide (bio demo_state)) (writes_between demo_state s') k) 2) = Ret tt r /\
      ((forall b, home demo_state b -> disk_read (ide (bio r)) b = disk_read (ide (bio demo_state)) b) \/
       (forall b, home demo_state b -> disk_read (ide (bio r)) b = v b)).
Proof.
  destruct demo_state_rep as (v & R & E6). exists v. split; [exact E6|].
  destruct (transaction_crash_atomic demo_state (Store v {[6]} ∅) 2 (ls_log _ _ R) eq_refl
    demo_state_sb (proj1 demo_state_open) (proj2 demo_state_open)) as (s' & E & _ & H1 & H2).
  exists s'. split; [exact E|]. split; [exact H1|exact H2].
Defined.

Lemma recovery_crash_idempotent_witness :
  disk_read crashed_disk 6 ≠ demo_data /\
  exists r, initlog 1 (boot crashed_disk 1) = Ret tt r /\
    forall k, exists r',
      initlog 1 (boot (crash_disk crashed_disk (writes_between (boot crashed_disk 1) r) k) 1) = Ret tt r' /\
      forall b, 0 <= b < disksize crashed_disk -> ~ (2 <= b < 2 + 3) ->
        disk_read (ide (bio r')) b = disk_read (ide (bio r)) b.
Proof.
  split; [vm_compute; discriminate|].
  exact (recovery_crash_idempotent crashed_disk 2 3 1 1 crashed_log_disk).
Defined.

(** ** Starting the kernel *)

(** The first transaction on a disk with an empty log sees the blocks of the
    disk. *)
Lemma boot_open_run d p : log_disk d 2 LOGSIZE -> head_list (disk_read d 2) = [] ->
  wp (initlog 1;; begin_op) (fun _ s => log_env s = BEnv (disksize d) 2 LOGSIZE true /\
    exists v, ls_rep s (BStore v ∅ ∅ ∅) /\ forall b, 0 <= b < disksize d -> b ≠ 2 -> v b = disk_read d b) (boot d p).
Proof.
  intros Ld Eh. wp_step. eapply initlog_run; [exact Ld|]. intros r v R Ed Es Ez En Eo Ec.
  destruct (begin_op_run r _ R Ec) as (s1 & E1 & R1 & Eb1 & El1).
  { rewrite En, Eo. unfold LOGSIZE, MAXOPBLOCKS. lia. }
  apply (wp_intro _ _ _ _ _ E1).
  assert (Hsz : disksize (ide (bio s1)) = disksize d) by (rewrite Eb1, Ed, disksize_writes; done).
  split; [unfold log_env; rewrite Hsz, El1; simpl; by rewrite Es, Ez, Eo|].
  assert (Hrep : forall b, 0 <= b < disksize (ide (bio s1)) -> v b = disk_read (ide (bio s1)) b).
  { intros b Hb. apply (rep_clean _ (Store v ∅ ∅) b (lr_bio _ _ R1)); [done|done|]. apply not_elem_of_empty. }
  exists v. split; [split; simpl; [exact R1|]; intros b Hb _ _; by apply Hrep|].
  intros b Hb Hne. rewrite Hrep, Eb1, Ed by lia.
  rewrite disk_read_writes by (by apply (recovery_writes_good _ _ LOGSIZE)).
  apply fupds_ne. unfold recovery_writes. rewrite Eh. simpl. rewrite list_elem_of_singleton. exact Hne.
Qed.
