(* ===== verification/LogSpace.v ===== *)
(** * Log space: the reservations of begin_op

    [begin_op] reserves [MAXOPBLOCKS] blocks of log space for each
    outstanding call so that [log_write] never runs out of space.  Calls
    from several processes interleave; an interleaving is a list of events. *)

From S2P Require Import Prelude Param SleepLock Layout Bio Log LogCrash BlockStore LogStore Transactions.

(** ** Interleavings of file-system calls *)

(** A call begins; call [i] updates block [bn]; call [i] ends. *)
Inductive event :=
| EBegin
| EWrite (i : nat) (bn : Z)
| EEnd (i : nat).

(** The kernel, and for each outstanding call how many updates it made. *)
Record tstate := TState {
  kern : lstate;
  used : list Z
}.

(** One update, as the file system makes it: read, modify, log, release. *)
Definition update (bn : Z) : M lstate unit :=
  b ← bs_bread 1 bn;
  bs_log_write b;;
  bs_brelse b.

Definition kern_op (m : M lstate unit) : M tstate unit :=
  zoom kern (fun k t => TState k (used t)) m.
Definition set_used (f : list Z -> list Z) : M tstate unit :=
  modify (fun t => TState (kern t) (f (used t))).

(** An event of calls that make at most [w] updates each.  Events that are
    not possible (of a call that is not outstanding, or beyond its [w]
    updates) do not happen. *)
Definition event_step (w : Z) (e : event) : M tstate unit :=
  us ← gets used;
  match e with
  | EBegin => kern_op begin_op;; set_used (fun us => us ++ [0])
  | EWrite i bn =>
      match us !! i with
      | Some u => if u <? w then kern_op (update bn);; set_used (<[i := u + 1]>) else blocked
      | None => blocked
      end
  | EEnd i =>
      match us !! i with
      | Some _ => kern_op end_op;; set_used (delete i)
      | None => blocked
      end
  end.

Fixpoint run_events (w : Z) (es : list event) : M tstate unit :=
  match es with
  | [] => mret tt
  | e :: es' => event_step w e;; run_events w es'
  end.

(** ** The reservation invariant *)

Fixpoint reserved (us : list Z) : Z :=
  match us with
  | [] => 0
  | u :: us' => (MAXOPBLOCKS - u) + reserved us'
  end.

Lemma reserved_app us us' : reserved (us ++ us') = reserved us + reserved us'.
Proof. induction us as [|u us IH]; simpl; lia. Qed.

Lemma reserved_insert us i u v : us !! i = Some u -> reserved (<[i := v]> us) = reserved us + u - v.
Proof.
  revert i. induction us as [|x us IH]; intros [|i] E; simplify_eq/=; [lia|].
  rewrite (IH i E). lia.
Qed.

Lemma reserved_delete us i u : us !! i = Some u -> reserved (delete i us) = reserved us - (MAXOPBLOCKS - u).
Proof.
  revert i. induction us as [|x us IH]; intros [|i] E; simplify_eq/=; [lia|].
  rewrite (IH i E). lia.
Qed.

Lemma reserved_lookup us i u : us !! i = Some u -> Forall (fun u => u <= MAXOPBLOCKS) us ->
  MAXOPBLOCKS - u <= reserved us.
Proof.
  revert i. induction us as [|x us IH]; intros [|i] E F; inversion F; simplify_eq/=.
  - assert (0 <= reserved us); [|lia]. clear -H2. induction H2; simpl; lia.
  - specialize (IH _ E H2). lia.
Qed.

Lemma reserved_bounds us w : 0 <= w <= MAXOPBLOCKS -> Forall (fun u => 0 <= u <= w) us ->
  (MAXOPBLOCKS - w) * zlen us <= reserved us <= MAXOPBLOCKS * zlen us.
Proof.
  intros Hw. unfold zlen. induction 1; simpl length; simpl reserved; lia.
Qed.

Record space_inv (w dsize st : Z) (t : tstate) : Prop := {
  si_rep : exists v d, ls_rep (kern t) (BStore v d ∅ ∅);
  si_out : outstanding (lg (kern t)) = zlen (used t);
  si_idle : committing (lg (kern t)) = false;
  si_geom : disksize (ide (bio (kern t))) = dsize /\ start (lg (kern t)) = st /\
            size (lg (kern t)) = LOGSIZE;
  si_used : Forall (fun u => 0 <= u <= w) (used t);
  si_space : lh_n (lg (kern t)) + reserved (used t) <= LOGSIZE
}.

(** The blocks the calls may update. *)
Definition data_block (dsize st b : Z) : Prop := 0 <= b < dsize /\ ~ (st <= b < st + LOGSIZE).

Definition event_ok (dsize st : Z) (e : event) : Prop :=
  match e with EWrite _ bn => data_block dsize st bn | _ => True end.

(** [event_step] returns in a state with the invariant, or does not happen. *)
Definition returns_or_blocks {S A} (o : outcome S A) (Q : S -> Prop) : Prop :=
  match o with Ret _ s => Q s | Blocked => True | _ => False end.

(** ** Effects of one update *)

Lemma bio_op_lg {A} (m : M bcache A) s a s' : bio_op m s = Ret a s' -> lg s' = lg s.
Proof. unfold bio_op, zoom. destruct (m (bio s)); naive_solver. Qed.

Lemma log_write_counters i s a s' : log_write i s = Ret a s' ->
  outstanding (lg s') = outstanding (lg s) /\ committing (lg s') = committing (lg s).
Proof.
  unfold log_write, log_mod. munfold.
  destruct (_ || _); [done|]. destruct (_ <? _); [done|].
  destruct (_ =? _); intros E; apply bio_op_lg in E; rewrite E; done.
Qed.

Lemma update_counters bn s a s' : update bn s = Ret a s' ->
  outstanding (lg s') = outstanding (lg s) /\ committing (lg s') = committing (lg s).
Proof.
  unfold update. cbn. munfold.
  destruct (bio_op (bread 1 bn) s) as [b s1| | |] eqn:E1; try done.
  destruct (log_write b s1) as [[] s2| | |] eqn:E2; try done. intros E3.
  apply bio_op_lg in E1, E3. apply log_write_counters in E2 as [E2 E2'].
  by rewrite E3, E2, E2', E1.
Qed.

Lemma update_run s v d bn :
  ls_rep s (BStore v d ∅ ∅) -> writable (log_env s) bn -> 1 <= outstanding (lg s) ->
  lh_n (lg s) < Z.min LOGSIZE (size (lg s) - 1) ->
  exists s', update bn s = Ret tt s' /\ ls_rep s' (BStore v (d ∪ {[bn]}) ∅ ∅) /\
    log_env s' = log_env s.
Proof.
  intros R Hw Ho Hn.
  assert (Hc : Z.of_nat (base.size d) = lh_n (lg s)) by apply (logged_count _ _ (ls_log _ _ R)).
  assert (W : wp (update bn) (fun _ s' => ls_rep s' (BStore v (d ∪ {[bn]}) ∅ ∅) /\ log_env s' = log_env s) s).
  2:{ apply wp_inv in W as ([] & s' & E & H). by exists s'. }
  unfold update. wp_step. eapply bs_wp_bread; [exact R|apply Hw|done| |].
  { right. simpl. rewrite map_img_empty_L, union_empty_r_L. unfold NBUF, LOGSIZE, MAXOPBLOCKS in *. lia. }
  intros i s1 _ E1 R1. simpl in R1. rewrite insert_empty in R1. wp_step.
  eapply bs_wp_log_write; [exact R1|apply lookup_singleton_eq| | | |].
  { rewrite E1. exact Hw. }
  { rewrite E1. simpl. by apply Z.leb_le. }
  { rewrite E1. cbn [blogged]. rewrite Hc. exact Hn. }
  intros s2 E2 R2. cbn in R2.
  eapply bs_wp_brelse; [exact R2|apply lookup_singleton_eq|cbn; clear; set_solver|].
  intros s3 E3 R3. cbn in R3. rewrite delete_singleton_eq in R3.
  split; [|exact (eq_trans E3 (eq_trans E2 E1))].
  by replace (∅ ∖ {[bn]}) with (∅ : gset Z) in R3 by (clear; set_solver).
Qed.

(** ** Every event preserves the invariant *)

Section preservation.
Context (w dsize st : Z).
Context (Hw : 0 <= w <= MAXOPBLOCKS - 1).

Lemma begin_preserves t : space_inv w dsize st t ->
  returns_or_blocks (event_step w EBegin t) (space_inv w dsize st).
Proof.
  intros [(v & d & R) So Si Sg Su Ss]. unfold event_step, kern_op, zoom, begin_op, log_mod, set_used.
  munfold. rewrite Si. destruct (Z.ltb_spec LOGSIZE
    (lh_n (lg (kern t)) + (outstanding (lg (kern t)) + 1) * MAXOPBLOCKS)); [done|]. simpl.
  assert (B := reserved_bounds (used t) w). rewrite <- So in B.
  split; simpl; try done.
  - exists v, d. destruct R as [R Rd]. split; [|done].
    by apply (log_rep_lg (kern t) _ (set_outstanding _)).
  - unfold zlen in *. rewrite length_app. simpl. lia.
  - apply Forall_app. split; [done|]. constructor; [lia|constructor].
  - rewrite reserved_app. simpl. destruct B; unfold MAXOPBLOCKS in *; lia || done.
Qed.

Lemma write_preserves t i bn : space_inv w dsize st t -> data_block dsize st bn ->
  returns_or_blocks (event_step w (EWrite i bn) t) (space_inv w dsize st).
Proof.
  intros [(v & d & R) So Si (Sg1 & Sg2 & Sg3) Su Ss] Hb. unfold event_step. munfold.
  destruct (used t !! i) as [u|] eqn:Ei; [|done].
  destruct (Z.ltb_spec u w) as [Hu|]; [|done].
  assert (B : MAXOPBLOCKS - u <= reserved (used t)).
  { eapply reserved_lookup; [done|]. eapply Forall_impl; [exact Su|]. simpl. lia. }
  assert (Hlt := lookup_lt_Some _ _ _ Ei).
  destruct (update_run (kern t) v d bn R) as (s' & E & R' & Ee).
  { unfold writable. simpl. rewrite Sg1, Sg2, Sg3. exact Hb. }
  { rewrite So. unfold zlen. lia. }
  { rewrite Sg3. lia. }
  unfold kern_op, zoom. rewrite E. simpl. unfold set_used. munfold. simpl.
  apply update_counters in E as [Eo Ec]. unfold log_env in Ee. injection Ee as E1 E2 E3 _.
  assert (Hc := logged_count _ _ (ls_log _ _ R)). assert (Hc' := logged_count _ _ (ls_log _ _ R')).
  simpl in Hc, Hc'. assert (X := size_add_one d bn).
  split; simpl.
  - by eexists _, _.
  - rewrite Eo, So. unfold zlen. by rewrite length_insert.
  - by rewrite Ec.
  - by rewrite E1, E2, E3.
  - apply Forall_insert; [done|]. apply Forall_lookup_1 with (1 := Su) in Ei. lia.
  - rewrite (reserved_insert _ _ u) by done. lia.
Qed.

Lemma end_preserves t i : space_inv w dsize st t ->
  returns_or_blocks (event_step w (EEnd i) t) (space_inv w dsize st).
Proof.
  intros [(v & d & R) So Si (Sg1 & Sg2 & Sg3) Su Ss]. unfold event_step. munfold.
  destruct (used t !! i) as [u|] eqn:Ei; [|done].
  assert (Hlt := lookup_lt_Some _ _ _ Ei).
  assert (Hu : 0 <= u <= w) by apply (Forall_lookup_1 _ _ _ _ Su Ei).
  assert (Hdel := length_delete (used t) i ltac:(eauto)).
  assert (Hr := reserved_delete _ _ _ Ei).
  assert (Hf : Forall (fun u => 0 <= u <= w) (delete i (used t))) by by apply Forall_delete.
  destruct (decide (length (used t) = 1%nat)) as [H1|H1].
  - destruct (end_op_last (kern t) _ (ls_log _ _ R) eq_refl) as
      (s' & v' & E & R' & _ & Eo & Ec & En & Es & Ez & Ed); [by rewrite So; unfold zlen; rewrite H1|done|].
    unfold kern_op, zoom. rewrite E. unfold set_used. munfold. simpl.
    apply (f_equal disksize) in Ed. rewrite disksize_writes in Ed.
    split; simpl; try done.
    + exists v', ∅. split; simpl; [done|]. intros b Hb _ _. by apply (rep_clean _ _ b (lr_bio _ _ R')).
    + rewrite Eo. unfold zlen. lia.
    + by rewrite Ed, Es, Ez.
    + assert (B := reserved_bounds _ w ltac:(lia) Hf). unfold zlen in B.
      rewrite En. unfold LOGSIZE, MAXOPBLOCKS in *. lia.
  - unfold kern_op, zoom. rewrite end_op_other; [|rewrite So; unfold zlen; lia|done].
    unfold set_used. munfold. simpl. split; simpl; try done.
    + exists v, d. destruct R as [R Rd]. split; [|done].
      by apply (log_rep_lg (kern t) _ (fun l => set_wakeups _ (set_outstanding _ l))).
    + rewrite So. unfold zlen. lia.
    + rewrite Hr. lia.
Qed.

Lemma event_preserves t e : space_inv w dsize st t -> event_ok dsize st e ->
  returns_or_blocks (event_step w e t) (space_inv w dsize st).
Proof. destruct e; auto using begin_preserves, write_preserves, end_preserves. Qed.

Lemma run_preserves es t : space_inv w dsize st t -> Forall (event_ok dsize st) es ->
  returns_or_blocks (run_events w es t) (space_inv w dsize st).
Proof.
  revert t. induction es as [|e es IH]; intros t I F; [done|].
  inversion F; subst. assert (P := event_preserves t e I ltac:(done)).
  simpl. unfold mbind, M_bind. destruct (event_step w e t); try done. by apply IH.
Qed.
End preservation.

(** ** Boot with the log that mkfs makes *)

Lemma boot_space d st p : log_disk d st LOGSIZE ->
  exists r, initlog 1 (boot d p) = Ret tt r /\
    forall w, 0 <= w -> space_inv w (disksize d) st (TState r []).
Proof.
  intros L.
  assert (W : wp (initlog 1) (fun _ r => forall w, 0 <= w -> space_inv w (disksize d) st (TState r [])) (boot d p)).
  { eapply initlog_run; [exact L|]. intros r v R Ed Es Ez En Eo Ec w Hw.
    apply (f_equal disksize) in Ed. rewrite disksize_writes in Ed. split; simpl.
    - exists v, ∅. split; simpl; [done|]. intros b Hb _ _. by apply (rep_clean _ _ b (lr_bio _ _ R)).
    - done.
    - done.
    - done.
    - constructor.
    - rewrite En. unfold LOGSIZE, MAXOPBLOCKS. lia. }
  apply wp_inv in W as ([] & r & E & H). exists r. exact (conj E H).
Qed.

(** C31: the reservation of [begin_op] keeps [log_write] from running out of
    log space.  After boot on a disk whose log has [LOGSIZE] blocks (mkfs
    makes it so), in every interleaving of calls of which each records at
    most [MAXOPBLOCKS - 1] blocks of the disk outside the log, no
    [begin_op], update or [end_op] panics: the interleaving runs to its end,
    or a [begin_op] sleeps, and what is recorded together with what is
    reserved never exceeds the log. *)
Theorem reservation_no_panic d st p w es :
  log_disk d st LOGSIZE -> 0 <= w <= MAXOPBLOCKS - 1 -> Forall (event_ok (disksize d) st) es ->
  exists r, initlog 1 (boot d p) = Ret tt r /\
    returns_or_blocks (run_events w es (TState r []))
      (fun t => lh_n (lg (kern t)) + reserved (used t) <= LOGSIZE).
Proof.
  intros L Hw F. destruct (boot_space d st p L) as (r & E & I). exists r. split; [exact E|].
  assert (P := run_preserves w _ st Hw es _ (I w ltac:(lia)) F).
  destruct (run_events w es (TState r [])); [apply P|exact P..].
Qed.

(** A disk of 64 blocks with the log of [LOGSIZE] blocks at block 2. *)
Definition space_sb : block := put32 (put32 (put32 zero_block 0 64) 12 LOGSIZE) 16 2.
Definition space_disk : disk := Disk (zero_block :: space_sb :: replicate 62 zero_block) [].

Lemma space_log_disk : log_disk space_disk 2 LOGSIZE.
Proof.
  assert (E : head_list (disk_read space_disk 2) = []) by (apply head_list_nil; reflexivity).
  assert (Es : disksize space_disk = 64) by (vm_compute; reflexivity).
  assert (En : geti32 (disk_read space_disk 2) 0 = 0) by (vm_compute; reflexivity).
  split; rewrite ?E, ?Es, ?En; unfold LOGSIZE, MAXOPBLOCKS; try lia.
  - simpl. repeat apply Forall_cons_2; auto using Forall_nil_2, zero_block_ok.
    unfold space_sb. repeat apply put32_block; auto with xv6; unfold BSIZE; lia.
  - split; vm_compute; reflexivity.
  - apply NoDup_nil_2.
  - intros b Hb. by apply elem_of_nil in Hb.
  - apply not_elem_of_nil.
Qed.

(** Three calls, each of which updates [n] blocks of its own. *)
Definition three_calls (n : nat) : list event :=
  let writes i := (fun k => EWrite i (33 + 10 * Z.of_nat i + Z.of_nat k)) <$> seq 0 n in
  [EBegin; EBegin; EBegin] ++ writes 0%nat ++ writes 1%nat ++ writes 2%nat.

Definition space_boot : lstate :=
  match initlog 1 (boot space_disk 1) with Ret _ s => s | _ => boot space_disk 1 end.

Lemma three_calls_ok n : (n <= 10)%nat -> Forall (event_ok (disksize space_disk) 2) (three_calls n).
Proof.
  intros Hn. assert (Es : disksize space_disk = 64) by (vm_compute; reflexivity). rewrite Es.
  unfold three_calls. repeat (apply Forall_app; split); [by repeat constructor|..].
  all: apply Forall_fmap, Forall_forall; intros k Hk; apply elem_of_seq in Hk; simpl;
    unfold data_block, LOGSIZE, MAXOPBLOCKS; lia.
Qed.

Lemma reservation_no_panic_witness :
  (exists r, initlog 1 (boot space_disk 1) = Ret tt r /\
    returns_or_blocks (run_events 9 (three_calls 9) (TState r []))
      (fun t => lh_n (lg (kern t)) + reserved (used t) <= LOGSIZE)) /\
  match run_events 9 (three_calls 9) (TState space_boot []) with
  | Ret _ t => lh_n (lg (kern t)) = 27 | _ => False end.
Proof.
  split; [|vm_compute; reflexivity].
  apply (reservation_no_panic space_disk 2 1 9 (three_calls 9) space_log_disk).
  - unfold MAXOPBLOCKS. lia.
  - apply three_calls_ok. lia.
Defined.

(** The reservation and the capacity of the log disagree by one block.
    [begin_op] admits three calls of [MAXOPBLOCKS] blocks each, [LOGSIZE] in
    all, but [log_write] panics when [size - 1] blocks are recorded: three
    calls that each use their full reservation on a disk made by mkfs
    panic. *)
Theorem full_reservation_panics :
  Forall (event_ok (disksize space_disk) 2) (three_calls (Z.to_nat MAXOPBLOCKS)) /\
  initlog 1 (boot space_disk 1) = Ret tt space_boot /\
  run_events MAXOPBLOCKS (three_calls (Z.to_nat MAXOPBLOCKS)) (TState space_boot []) =
    Panic "too big a transaction".
Proof.
  split; [apply three_calls_ok; unfold MAXOPBLOCKS; lia|]. split; vm_compute; reflexivity.
Qed.
