(* ===== verification/Fs.v ===== *)
(** * The file system (fs.c)

    Every routine of fs.c over an arbitrary block store: the block
    allocator, the inode cache, the contents of inodes, directories and path
    names.  A pointer to a cached inode is its index in the cache. *)

From S2P Require Import Prelude Param Cstring SleepLock Layout BlockStore.

(** ** State *)

Record inode := Inode {
  idev : Z;
  inum : Z;
  ref : Z;
  ilk : sleeplock;
  valid : Z;
  itype : Z;
  major : Z;
  minor : Z;
  nlink : Z;
  isize : Z;
  addrs : list Z
}.

Definition set_ref v i := Inode (idev i) (inum i) v (ilk i) (valid i) (itype i) (major i) (minor i) (nlink i) (isize i) (addrs i).
Definition set_ilk v i := Inode (idev i) (inum i) (ref i) v (valid i) (itype i) (major i) (minor i) (nlink i) (isize i) (addrs i).
Definition set_valid v i := Inode (idev i) (inum i) (ref i) (ilk i) v (itype i) (major i) (minor i) (nlink i) (isize i) (addrs i).
Definition set_itype v i := Inode (idev i) (inum i) (ref i) (ilk i) (valid i) v (major i) (minor i) (nlink i) (isize i) (addrs i).
Definition set_nlink v i := Inode (idev i) (inum i) (ref i) (ilk i) (valid i) (itype i) (major i) (minor i) v (isize i) (addrs i).
Definition set_isize v i := Inode (idev i) (inum i) (ref i) (ilk i) (valid i) (itype i) (major i) (minor i) (nlink i) v (addrs i).
Definition set_addrs v i := Inode (idev i) (inum i) (ref i) (ilk i) (valid i) (itype i) (major i) (minor i) (nlink i) (isize i) v.

(** The copy of the on-disk inode inside the cached inode. *)
Definition dinode_of (i : inode) : dinode :=
  Dinode (itype i) (major i) (minor i) (nlink i) (isize i) (addrs i).
Definition load_dinode (di : dinode) (i : inode) : inode :=
  Inode (idev i) (inum i) (ref i) (ilk i) (valid i)
        (d_type di) (d_major di) (d_minor di) (d_nlink di) (d_size di) (d_addrs di).

(** The cache starts zeroed (BSS). *)
Definition inode0 : inode :=
  Inode 0 0 0 initsleeplock 0 0 0 0 0 0 (replicate (Z.to_nat (NDIRECT + 1)) 0).

Section fs.
Context {S : Type} {BS : BlockStore S}.

(** [blk] is the state of the layers below; [fpid] the running process. *)
Record fstate := FState {
  blk : S;
  icache : list inode;
  sb : superblock;
  fpid : Z
}.

Definition set_blk b s := FState b (icache s) (sb s) (fpid s).
Definition set_icache c s := FState (blk s) c (sb s) (fpid s).
Definition set_sb v s := FState (blk s) (icache s) v (fpid s).

Definition inode_at (s : fstate) (ip : nat) : inode := default inode0 (icache s !! ip).
Definition set_inode (ip : nat) (f : inode -> inode) (s : fstate) : fstate :=
  set_icache (<[ip := f (inode_at s ip)]> (icache s)) s.
Definition imod (ip : nat) (f : inode -> inode) : M fstate unit := modify (set_inode ip f).

Definition blk_op {A} (m : M S A) : M fstate A := zoom blk set_blk m.

(** The calls of the block layers, and [bp->data] of a buffer [bp]. *)
Definition bread' (dev b : Z) : M fstate nat := blk_op (bs_bread dev b).
Definition brelse' (bp : nat) : M fstate unit := blk_op (bs_brelse bp).
Definition log_write' (bp : nat) : M fstate unit := blk_op (bs_log_write bp).
Definition data' (bp : nat) : M fstate block := blk_op (bs_data bp).
Definition set_data' (bp : nat) (d : block) : M fstate unit := blk_op (bs_set_data bp d).

(** ** Blocks *)

Definition fs_readsb (dev : Z) : M fstate superblock :=
  bp ← bread' dev 1;
  d ← data' bp;
  brelse' bp;;
  mret (read_superblock d).

Definition bzero (dev bno : Z) : M fstate unit :=
  bp ← bread' dev bno;
  set_data' bp zero_block;;
  log_write' bp;;
  brelse' bp.

(** The bit of block [bi] in a bitmap block. *)
Definition bit_mask (bi : Z) : Z := Z.shiftl 1 (bi mod 8).
Definition bit_clear (d : block) (bi : Z) : bool := Z.land (rd 0 d (bi / 8)) (bit_mask bi) =? 0.
Definition set_bit (d : block) (bi : Z) : block :=
  wr d (bi / 8) (u8 (Z.lor (rd 0 d (bi / 8)) (bit_mask bi))).
Definition clear_bit (d : block) (bi : Z) : block :=
  wr d (bi / 8) (u8 (Z.land (rd 0 d (bi / 8)) (Z.lnot (bit_mask bi)))).

(** The inner loop of [balloc]: the first clear bit from [bi], if any. *)
Fixpoint find_free (d : block) (b size bi : Z) (n : nat) : option Z :=
  match n with
  | O => None
  | Datatypes.S n' =>
      if u32 (b + bi) <? size then
        if bit_clear d bi then Some bi else find_free d b size (bi + 1) n'
      else None
  end.

Fixpoint balloc_from (fuel : nat) (dev b : Z) : M fstate Z :=
  s ← get;
  if u32 b <? sb_size (sb s) then
    match fuel with
    | O => out_of_fuel
    | Datatypes.S fuel' =>
        bp ← bread' dev (BBLOCK b (sb s));
        d ← data' bp;
        match find_free d b (sb_size (sb s)) 0 (Z.to_nat BPB) with
        | Some bi =>
            set_data' bp (set_bit d bi);;
            log_write' bp;;
            brelse' bp;;
            bzero dev (b + bi);;
            mret (b + bi)
        | None =>
            brelse' bp;;
            balloc_from fuel' dev (b + BPB)
        end
    end
  else panic "balloc: out of blocks".

(** One iteration for every bitmap block. *)
Definition balloc (dev : Z) : M fstate Z :=
  s ← get;
  balloc_from (Datatypes.S (Z.to_nat (sb_size (sb s) / BPB))) dev 0.

Definition bfree (dev b : Z) : M fstate unit :=
  v ← fs_readsb dev;
  modify (set_sb v);;
  bp ← bread' dev (BBLOCK b v);
  d ← data' bp;
  let bi := b mod BPB in
  if bit_clear d bi then panic "freeing free block"
  else
    set_data' bp (clear_bit d bi);;
    log_write' bp;;
    brelse' bp.

(** ** Inodes *)

Definition iinit (dev : Z) : M fstate unit :=
  modify (fun s => set_icache (set_ilk initsleeplock <$> icache s) s);;
  v ← fs_readsb dev;
  modify (set_sb v).

(** The scan of [iget]: a hit, or the first empty slot. *)
Fixpoint iget_scan (l : list inode) (i : nat) (empty : option nat) (dev inum' : Z)
  : nat + option nat :=
  match l with
  | [] => inr empty
  | ip :: l' =>
      if (0 <? ref ip) && (idev ip =? dev) && (inum ip =? inum') then inl i
      else iget_scan l' (Datatypes.S i)
             (match empty with
              | None => if ref ip =? 0 then Some i else None
              | Some e => Some e
              end) dev inum'
  end.

Definition iget (dev inum' : Z) : M fstate nat :=
  s ← get;
  match iget_scan (icache s) 0 None dev inum' with
  | inl ip => imod ip (fun i => set_ref (s32 (ref i + 1)) i);; mret ip
  | inr None => panic "iget: no inodes"
  | inr (Some ip) =>
      imod ip (fun i => Inode dev inum' 1 (ilk i) 0 (itype i) (major i) (minor i) (nlink i)
                              (isize i) (addrs i));;
      mret ip
  end.

Definition inode_off (inum' : Z) : Z := inum' mod IPB * sizeof_dinode.

(** The loop of [ialloc] from [inum]. *)
Fixpoint ialloc_from (fuel : nat) (dev type inum' : Z) : M fstate nat :=
  s ← get;
  if u32 inum' <? sb_ninodes (sb s) then
    match fuel with
    | O => out_of_fuel
    | Datatypes.S fuel' =>
        bp ← bread' dev (IBLOCK inum' (sb s));
        d ← data' bp;
        if d_type (get_dinode d (inode_off inum')) =? 0 then
          let d := blit d (inode_off inum') (replicate (Z.to_nat sizeof_dinode) 0) in
          set_data' bp (put16 d (inode_off inum') type);;
          log_write' bp;;
          brelse' bp;;
          iget dev inum'
        else
          brelse' bp;;
          ialloc_from fuel' dev type (inum' + 1)
    end
  else panic "ialloc: no inodes".

Definition ialloc (dev type : Z) : M fstate nat :=
  s ← get;
  ialloc_from (Z.to_nat (sb_ninodes (sb s))) dev type 1.

Definition iupdate (ip : nat) : M fstate unit :=
  s ← get;
  let i := inode_at s ip in
  bp ← bread' (idev i) (IBLOCK (inum i) (sb s));
  d ← data' bp;
  set_data' bp (put_dinode d (inode_off (inum i)) (dinode_of i));;
  log_write' bp;;
  brelse' bp.

Definition idup (ip : nat) : M fstate nat :=
  imod ip (fun i => set_ref (s32 (ref i + 1)) i);; mret ip.

(** [acquiresleep(&ip->lock)] and [releasesleep(&ip->lock)]. *)
Definition acquire_inode (ip : nat) : M fstate unit :=
  s ← get;
  match acquiresleep (fpid s) (ilk (inode_at s ip)) with
  | Some lk => imod ip (set_ilk lk)
  | None => blocked
  end.
Definition release_inode (ip : nat) : M fstate unit :=
  imod ip (fun i => set_ilk (releasesleep (ilk i)) i).

Definition ilock (ip : nat) : M fstate unit :=
  s ← get;
  if ref (inode_at s ip) <? 1 then panic "ilock"
  else
    acquire_inode ip;;
    s ← get;
    let i := inode_at s ip in
    if valid i =? 0 then
      bp ← bread' (idev i) (IBLOCK (inum i) (sb s));
      d ← data' bp;
      let di := get_dinode d (inode_off (inum i)) in
      imod ip (load_dinode di);;
      brelse' bp;;
      imod ip (set_valid 1);;
      if d_type di =? 0 then panic "ilock: no type" else mret tt
    else mret tt.

Definition iunlock (ip : nat) : M fstate unit :=
  s ← get;
  let i := inode_at s ip in
  if negb (holdingsleep (fpid s) (ilk i)) || (ref i <? 1) then panic "iunlock"
  else release_inode ip.

(** ** Inode contents *)

Definition bmap (ip : nat) (bn : Z) : M fstate Z :=
  s ← get;
  let i := inode_at s ip in
  if bn <? NDIRECT then
    let addr := rd 0 (addrs i) bn in
    if addr =? 0 then
      addr ← balloc (idev i);
      imod ip (fun i => set_addrs (wr (addrs i) bn addr) i);;
      mret addr
    else mret addr
  else
    let bn := bn - NDIRECT in
    if bn <? NINDIRECT then
      addr ← (let addr := rd 0 (addrs i) NDIRECT in
              if addr =? 0 then
                addr ← balloc (idev i);
                imod ip (fun i => set_addrs (wr (addrs i) NDIRECT addr) i);;
                mret addr
              else mret addr);
      bp ← bread' (idev i) addr;
      a ← data' bp;
      addr ← (let addr := get32 a (4 * bn) in
              if addr =? 0 then
                addr ← balloc (idev i);
                a ← data' bp;
                set_data' bp (put32 a (4 * bn) addr);;
                log_write' bp;;
                mret addr
              else mret addr);
      brelse' bp;;
      mret addr
    else panic "bmap: out of range".

(** The loops of [itrunc] over the direct and the indirect blocks. *)
Fixpoint free_direct (ip : nat) (k : Z) (n : nat) : M fstate unit :=
  match n with
  | O => mret tt
  | Datatypes.S n' =>
      s ← get;
      let i := inode_at s ip in
      (if negb (rd 0 (addrs i) k =? 0) then
         bfree (idev i) (rd 0 (addrs i) k);;
         imod ip (fun i => set_addrs (wr (addrs i) k 0) i)
       else mret tt);;
      free_direct ip (k + 1) n'
  end.

Fixpoint free_indirect (dev : Z) (bp : nat) (j : Z) (n : nat) : M fstate unit :=
  match n with
  | O => mret tt
  | Datatypes.S n' =>
      a ← data' bp;
      (if negb (get32 a (4 * j) =? 0) then bfree dev (get32 a (4 * j)) else mret tt);;
      free_indirect dev bp (j + 1) n'
  end.

Definition itrunc (ip : nat) : M fstate unit :=
  free_direct ip 0 (Z.to_nat NDIRECT);;
  s ← get;
  let i := inode_at s ip in
  let ind := rd 0 (addrs i) NDIRECT in
  (if negb (ind =? 0) then
     bp ← bread' (idev i) ind;
     free_indirect (idev i) bp 0 (Z.to_nat NINDIRECT);;
     brelse' bp;;
     bfree (idev i) ind;;
     imod ip (fun i => set_addrs (wr (addrs i) NDIRECT 0) i)
   else mret tt);;
  imod ip (set_isize 0);;
  iupdate ip.

Definition iput (ip : nat) : M fstate unit :=
  acquire_inode ip;;
  s ← get;
  let i := inode_at s ip in
  (if negb (valid i =? 0) && (nlink i =? 0) then
     if ref i =? 1 then
       itrunc ip;;
       imod ip (set_itype 0);;
       iupdate ip;;
       imod ip (set_valid 0)
     else mret tt
   else mret tt);;
  release_inode ip;;
  imod ip (fun i => set_ref (s32 (ref i - 1)) i).

Definition iunlockput (ip : nat) : M fstate unit :=
  iunlock ip;; iput ip.

Record stat := Stat {
  st_type : Z;
  st_dev : Z;
  st_ino : Z;
  st_nlink : Z;
  st_size : Z
}.

Definition stati (ip : nat) : M fstate stat :=
  s ← get;
  let i := inode_at s ip in
  mret (Stat (itype i) (s32 (idev i)) (inum i) (nlink i) (isize i)).

(** The device switch: what the drivers registered. *)
Record devsw_entry := Devsw {
  dev_read : option (nat -> Z -> M fstate (Z * list Z));
  dev_write : option (nat -> list Z -> Z -> M fstate Z)
}.
Context (devsw : Z -> devsw_entry).

(** The loop of [readi]: the bytes copied to [dst]. *)
Fixpoint readi_loop (fuel : nat) (ip : nat) (off tot n : Z) : M fstate (list Z) :=
  if tot <? n then
    match fuel with
    | O => out_of_fuel
    | Datatypes.S fuel' =>
        s ← get;
        a ← bmap ip (off / BSIZE);
        bp ← bread' (idev (inode_at s ip)) a;
        d ← data' bp;
        let m := Z.min (n - tot) (BSIZE - off mod BSIZE) in
        brelse' bp;;
        rest ← readi_loop fuel' ip (off + m) (tot + m) n;
        mret (slice d (off mod BSIZE) m ++ rest)
    end
  else mret [].

(** [readi] returns the C result and the bytes it copied. *)
Definition readi (ip : nat) (off n : Z) : M fstate (Z * list Z) :=
  s ← get;
  let i := inode_at s ip in
  if itype i =? T_DEV then
    if (major i <? 0) || (NDEV <=? major i) then mret (-1, [])
    else match dev_read (devsw (major i)) with
         | None => mret (-1, [])
         | Some f => f ip n
         end
  else if (isize i <? off) || (u32 (off + n) <? off) then mret (-1, [])
  else
    let n := if isize i <? u32 (off + n) then isize i - off else n in
    bs ← readi_loop (Z.to_nat n) ip off 0 n;
    mret (s32 n, bs).

Fixpoint writei_loop (fuel : nat) (ip : nat) (src : list Z) (off tot n : Z) : M fstate Z :=
  if tot <? n then
    match fuel with
    | O => out_of_fuel
    | Datatypes.S fuel' =>
        s ← get;
        a ← bmap ip (off / BSIZE);
        bp ← bread' (idev (inode_at s ip)) a;
        d ← data' bp;
        let m := Z.min (n - tot) (BSIZE - off mod BSIZE) in
        set_data' bp (blit d (off mod BSIZE) (slice src tot m));;
        log_write' bp;;
        brelse' bp;;
        writei_loop fuel' ip src (off + m) (tot + m) n
    end
  else mret off.

(** [src] are the [n] bytes to write. *)
Definition writei (ip : nat) (src : list Z) (off n : Z) : M fstate Z :=
  s ← get;
  let i := inode_at s ip in
  if itype i =? T_DEV then
    if (major i <? 0) || (NDEV <=? major i) then mret (-1)
    else match dev_write (devsw (major i)) with
         | None => mret (-1)
         | Some f => f ip src n
         end
  else if (isize i <? off) || (u32 (off + n) <? off) then mret (-1)
  else if MAXFILE * BSIZE <? u32 (off + n) then mret (-1)
  else
    off ← writei_loop (Z.to_nat n) ip src off 0 n;
    s ← get;
    (if (0 <? n) && (isize (inode_at s ip) <? off) then
       imod ip (set_isize off);; iupdate ip
     else mret tt);;
    mret (s32 n).

(** ** Directories *)

Definition namecmp (s t : list Z) : Z := strncmp s t (Z.to_nat DIRSIZ).

(** The loop of [dirlookup] from [off]: the inode and the offset of the
    entry. *)
Fixpoint dirlookup_from (fuel : nat) (dp : nat) (name : list Z) (off : Z)
  : M fstate (option (nat * Z)) :=
  s ← get;
  if off <? isize (inode_at s dp) then
    match fuel with
    | O => out_of_fuel
    | Datatypes.S fuel' =>
        r ← readi dp off sizeof_dirent;
        if negb (r.1 =? sizeof_dirent) then panic "dirlookup read"
        else
          let de := decode_dirent r.2 in
          if de_inum de =? 0 then dirlookup_from fuel' dp name (off + sizeof_dirent)
          else if namecmp name (de_name de) =? 0 then
            ip ← iget (idev (inode_at s dp)) (de_inum de);
            mret (Some (ip, off))
          else dirlookup_from fuel' dp name (off + sizeof_dirent)
    end
  else mret None.

Definition dir_fuel (s : fstate) (dp : nat) : nat :=
  Datatypes.S (Z.to_nat (isize (inode_at s dp) / sizeof_dirent)).

Definition dirlookup (dp : nat) (name : list Z) : M fstate (option (nat * Z)) :=
  s ← get;
  if negb (itype (inode_at s dp) =? T_DIR) then panic "dirlookup not DIR"
  else dirlookup_from (dir_fuel s dp) dp name 0.

(** The loop of [dirlink] that looks for an empty entry: the offset of the
    first one, or of the end of the directory. *)
Fixpoint find_slot (fuel : nat) (dp : nat) (off : Z) : M fstate Z :=
  s ← get;
  if off <? isize (inode_at s dp) then
    match fuel with
    | O => out_of_fuel
    | Datatypes.S fuel' =>
        r ← readi dp off sizeof_dirent;
        if negb (r.1 =? sizeof_dirent) then panic "dirlink read"
        else if de_inum (decode_dirent r.2) =? 0 then mret off
        else find_slot fuel' dp (off + sizeof_dirent)
    end
  else mret off.

Definition dirlink (dp : nat) (name : list Z) (inum' : Z) : M fstate Z :=
  r ← dirlookup dp name;
  match r with
  | Some (ip, _) => iput ip;; mret (-1)
  | None =>
      s ← get;
      off ← find_slot (dir_fuel s dp) dp 0;
      let de := Dirent (u16 inum') (strncpy (replicate (Z.to_nat DIRSIZ) 0) name DIRSIZ) in
      w ← writei dp (encode_dirent de) off sizeof_dirent;
      if negb (w =? sizeof_dirent) then panic "dirlink" else mret 0
  end.

(** ** Paths *)

Definition slash : Z := 47.

Fixpoint skip_slashes (path : list Z) : list Z :=
  match path with
  | c :: path' => if c =? slash then skip_slashes path' else path
  | [] => []
  end.

(** The element at the start of a path and what follows it. *)
Fixpoint take_elem (path : list Z) : list Z * list Z :=
  match path with
  | [] => ([], [])
  | c :: path' =>
      if (c =? slash) || (c =? 0) then ([], path)
      else let '(e, rest) := take_elem path' in (c :: e, rest)
  end.

(** [skipelem(path, name)]: the rest of the path and the new contents of the
    array [name]. *)
Definition skipelem (path name : list Z) : option (list Z * list Z) :=
  let path := skip_slashes path in
  if hd 0 path =? 0 then None
  else
    let '(s, path) := take_elem path in
    let len := zlen s in
    let name' :=
      if DIRSIZ <=? len then blit name 0 (take (Z.to_nat DIRSIZ) s)
      else wr (blit name 0 s) len 0 in
    Some (skip_slashes path, name').

(** The loop of [namex] from inode [ip]. *)
Fixpoint namex_from (fuel : nat) (ip : nat) (path : list Z) (nameiparent : bool) (name : list Z)
  : M fstate (option nat * list Z) :=
  match skipelem path name with
  | None =>
      if nameiparent then iput ip;; mret (None, name) else mret (Some ip, name)
  | Some (path, name) =>
      match fuel with
      | O => out_of_fuel
      | Datatypes.S fuel' =>
          ilock ip;;
          s ← get;
          if negb (itype (inode_at s ip) =? T_DIR) then iunlockput ip;; mret (None, name)
          else if nameiparent && (hd 0 path =? 0) then iunlock ip;; mret (Some ip, name)
          else
            next ← dirlookup ip name;
            match next with
            | None => iunlockput ip;; mret (None, name)
            | Some (next, _) =>
                iunlockput ip;;
                namex_from fuel' next path nameiparent name
            end
      end
  end.

(** [cwd] is [myproc()->cwd]. *)
Definition namex (cwd : nat) (path : list Z) (nameiparent : bool) (name : list Z)
  : M fstate (option nat * list Z) :=
  ip ← (if hd 0 path =? slash then iget ROOTDEV ROOTINO else idup cwd);
  namex_from (length path) ip path nameiparent name.

Definition namei (cwd : nat) (path : list Z) : M fstate (option nat) :=
  r ← namex cwd path false (replicate (Z.to_nat DIRSIZ) 0);
  mret r.1.

Definition nameiparent (cwd : nat) (path name : list Z) : M fstate (option nat * list Z) :=
  namex cwd path true name.

End fs.
Arguments fstate : clear implicits.
Arguments devsw_entry : clear implicits.
