(* ===== verification/FsBlocks.v ===== *)
(** * The block allocator (balloc, bfree, bzero of fs.c)

    [balloc] returns the lowest-numbered free block, marks it in the bitmap
    and zeroes it; [bfree] undoes the marking.  The theorems are about any
    block store that satisfies the laws of BlockStore.v. *)

From S2P Require Import Prelude Param Cstring SleepLock Layout BlockStore Fs.

(** ** Bits of the bitmap *)

Lemma land_bit x k : 0 <= k -> (Z.land x (Z.shiftl 1 k) =? 0) = negb (Z.testbit x k).
Proof.
  intros Hk. rewrite Z.shiftl_1_l. destruct (Z.testbit x k) eqn:E; simpl.
  - apply Z.eqb_neq. intros E0. apply (f_equal (fun z => Z.testbit z k)) in E0.
    rewrite Z.land_spec, E, Z.pow2_bits_true, Z.bits_0 in E0 by done. done.
  - apply Z.eqb_eq, Z.bits_inj'. intros j Hj. rewrite Z.land_spec, Z.bits_0.
    destruct (decide (j = k)) as [->|Hne]; [by rewrite E|].
    by rewrite Z.pow2_bits_false, andb_false_r by lia.
Qed.

Lemma testbit_u8 x k : 0 <= k < 8 -> Z.testbit (u8 x) k = Z.testbit x k.
Proof. intros. unfold u8. apply Z.mod_pow2_bits_low. lia. Qed.

Lemma bit_clear_testbit d i : bit_clear d i = negb (Z.testbit (rd 0 d (i / 8)) (i mod 8)).
Proof. unfold bit_clear, bit_mask. apply land_bit. mlia. Qed.

Lemma div_mod_8 i j : i / 8 = j / 8 -> i mod 8 = j mod 8 -> i = j.
Proof. mlia. Qed.

Section bits.
Context (d : block) (i : Z).
Context (Hd : zlen d = BSIZE) (Hi : 0 <= i < BPB).

Lemma byte_in_block : 0 <= i / 8 < zlen d.
Proof using Hd Hi. rewrite Hd. unfold BPB, BSIZE in *. mlia. Qed.

Lemma bit_clear_set_bit j : 0 <= j < BPB ->
  bit_clear (set_bit d i) j = if decide (i = j) then false else bit_clear d j.
Proof using Hd Hi.
  intros Hj. assert (B := byte_in_block). rewrite !bit_clear_testbit. unfold set_bit.
  rewrite rd_wr by done. destruct (decide (i / 8 = j / 8)) as [E|E].
  - rewrite testbit_u8 by mlia. unfold bit_mask. rewrite Z.lor_spec, Z.shiftl_1_l, Z.pow2_bits_eqb by mlia.
    rewrite E. destruct (Z.eqb_spec (i mod 8) (j mod 8)) as [E8|E8].
    + rewrite decide_True by by apply div_mod_8. by rewrite orb_true_r.
    + rewrite decide_False by congruence. by rewrite orb_false_r.
  - by rewrite decide_False by congruence.
Qed.

Lemma bit_clear_clear_bit j : 0 <= j < BPB ->
  bit_clear (clear_bit d i) j = if decide (i = j) then true else bit_clear d j.
Proof using Hd Hi.
  intros Hj. assert (B := byte_in_block). rewrite !bit_clear_testbit. unfold clear_bit.
  rewrite rd_wr by done. destruct (decide (i / 8 = j / 8)) as [E|E].
  - rewrite testbit_u8 by mlia. unfold bit_mask.
    rewrite Z.land_spec, Z.lnot_spec, Z.shiftl_1_l, Z.pow2_bits_eqb by mlia.
    rewrite E. destruct (Z.eqb_spec (i mod 8) (j mod 8)) as [E8|E8].
    + rewrite decide_True by by apply div_mod_8. simpl. by rewrite andb_false_r.
    + rewrite decide_False by congruence. simpl. by rewrite andb_true_r.
  - by rewrite decide_False by congruence.
Qed.
End bits.

Lemma wr_block d i x : is_block d -> is_u8 x -> is_block (wr d i x).
Proof.
  intros [Hl Hf] Hx. split; [by rewrite zlen_wr|]. unfold wr. case_decide; [|done].
  by apply Forall_insert.
Qed.

Lemma set_bit_block d i : is_block d -> is_block (set_bit d i).
Proof. intros. apply wr_block; auto with xv6. Qed.

Lemma clear_bit_block d i : is_block d -> is_block (clear_bit d i).
Proof. intros. apply wr_block; auto with xv6. Qed.

(** Clearing a bit that was just set gives the same bitmap block. *)
Lemma clear_set_bit d i : is_block d -> 0 <= i < BPB -> bit_clear d i = true ->
  clear_bit (set_bit d i) i = d.
Proof.
  intros [Hl Hf] Hi Hc. assert (B := byte_in_block d i Hl Hi). rewrite bit_clear_testbit in Hc.
  apply negb_true_iff in Hc.
  unfold clear_bit, set_bit. rewrite rd_wr_eq by done.
  assert (Hx : is_u8 (rd 0 d (i / 8))) by by apply rd_u8.
  assert (E : u8 (Z.land (u8 (Z.lor (rd 0 d (i / 8)) (bit_mask i))) (Z.lnot (bit_mask i))) = rd 0 d (i / 8)).
  { rewrite <- (u8_id _ Hx) at 2. apply Z.bits_inj'. intros k Hk.
    destruct (decide (k < 8)) as [Hk8|Hk8]; [|by unfold u8; rewrite !Z.mod_pow2_bits_high by lia].
    rewrite !testbit_u8, Z.land_spec, Z.lnot_spec by lia. rewrite testbit_u8, Z.lor_spec by lia.
    unfold bit_mask. rewrite Z.shiftl_1_l, Z.pow2_bits_eqb by mlia.
    destruct (Z.eqb_spec (i mod 8) k) as [<-|]; simpl; [by rewrite Hc|].
    by rewrite orb_false_r, andb_true_r. }
  rewrite E. apply (rd_ext 0).
  - by rewrite !length_wr.
  - intros j _. rewrite rd_wr by (rewrite zlen_wr; lia). rewrite rd_wr by lia.
    case_decide; [by subst|done].
Qed.

(** The inner loop of [balloc] finds the first clear bit. *)
Lemma find_free_spec d b size bi n :
  0 <= b -> 0 <= bi -> b + bi + Z.of_nat n <= 2 ^ 32 ->
  match find_free d b size bi n with
  | Some k => bi <= k < bi + Z.of_nat n /\ b + k < size /\ bit_clear d k = true /\
              (forall j, bi <= j < k -> bit_clear d j = false)
  | None => forall j, bi <= j < bi + Z.of_nat n -> b + j < size -> bit_clear d j = false
  end.
Proof.
  revert bi. induction n as [|n IH]; intros bi Hb Hbi Hn; cbn [find_free]; [intros; lia|].
  rewrite u32_id by mlia. destruct (Z.ltb_spec (b + bi) size) as [Hlt|Hge]; [|intros; lia].
  destruct (bit_clear d bi) eqn:Ec; [split_and!; try lia; done|].
  specialize (IH (bi + 1) ltac:(lia) ltac:(lia) ltac:(lia)).
  destruct (find_free d b size (bi + 1) n) as [k|].
  - destruct IH as (H1 & H2 & H3 & H4). split_and!; try lia; [done|].
    intros j Hj. destruct (decide (j = bi)) as [->|]; [done|]. apply H4. lia.
  - intros j Hj1 Hj2. destruct (decide (j = bi)) as [->|]; [done|]. apply IH; lia.
Qed.

(** ** The layout of the disk *)

(** The first data block: the boot block, the super block, the log, the
    inode blocks and the bitmap come before it. *)
Definition datastart (v : superblock) : Z := sb_bmapstart v + sb_size v / BPB + 1.

Record fs_geom (e : benv) (v : superblock) : Prop := {
  fg_log : 2 <= e_logstart e /\ 0 <= e_logsize e;
  fg_inode : e_logstart e + e_logsize e <= sb_inodestart v;
  fg_ninodes : 1 <= sb_ninodes v < 2 ^ 16;
  fg_bmap : sb_inodestart v + (sb_ninodes v - 1) / IPB + 1 <= sb_bmapstart v;
  fg_data : datastart v <= sb_size v;
  fg_size : 0 < sb_size v <= e_size e /\ sb_size v < 2 ^ 31
}.

(** The bitmap marks block [b] as in use. *)
Definition used (v : superblock) (view : Z -> block) (b : Z) : Prop :=
  bit_clear (view (BBLOCK b v)) (b mod BPB) = false.

#[export] Instance used_dec v view b : Decision (used v view b).
Proof. unfold used. apply _. Defined.

(** The contents of the blocks after [balloc] returned [b], and after
    [bfree] of [b]. *)
Definition mark (v : superblock) (view : Z -> block) (b : Z) : Z -> block :=
  upd view (BBLOCK b v) (set_bit (view (BBLOCK b v)) (b mod BPB)).
Definition alloc (v : superblock) (view : Z -> block) (b : Z) : Z -> block :=
  upd (mark v view b) b zero_block.
Definition unmark (v : superblock) (view : Z -> block) (b : Z) : Z -> block :=
  upd view (BBLOCK b v) (clear_bit (view (BBLOCK b v)) (b mod BPB)).

Section layout.
Context (e : benv) (v : superblock) (G : fs_geom e v).

Lemma BBLOCK_range b : 0 <= b < sb_size v ->
  BBLOCK b v = b / BPB + sb_bmapstart v /\
  sb_bmapstart v <= BBLOCK b v < datastart v.
Proof using G.
  intros Hb. destruct G as [[] ? ? ? Gd []]. unfold BBLOCK, datastart in *.
  assert (b / BPB <= sb_size v / BPB) by (apply Z.div_le_mono; [done|lia]).
  assert (0 <= b / BPB) by (apply Z.div_pos; [lia|done]).
  assert (0 <= (sb_ninodes v - 1) / IPB) by (apply Z.div_pos; [lia|done]).
  rewrite u32_id by (unfold is_u32; lia). lia.
Qed.

Lemma bmap_writable b : 0 <= b < sb_size v -> writable e (BBLOCK b v).
Proof using G.
  intros Hb. destruct (BBLOCK_range b Hb) as [_ ?]. destruct G as [[] ? ? ? Gd []].
  assert (0 <= (sb_ninodes v - 1) / IPB) by (apply Z.div_pos; [lia|done]).
  split; lia.
Qed.

Lemma IBLOCK_range i : 0 <= i < sb_ninodes v ->
  IBLOCK i v = i / IPB + sb_inodestart v /\
  sb_inodestart v <= IBLOCK i v < sb_bmapstart v.
Proof using G.
  intros Hi. destruct G as [[] ? ? ? Gd []]. unfold IBLOCK, datastart in *.
  assert (i / IPB <= (sb_ninodes v - 1) / IPB) by (apply Z.div_le_mono; [done|lia]).
  assert (0 <= i / IPB) by (apply Z.div_pos; [lia|done]).
  assert (0 <= sb_size v / BPB) by (apply Z.div_pos; [lia|done]).
  rewrite u32_id by (unfold is_u32; lia). lia.
Qed.

Lemma inode_writable i : 0 <= i < sb_ninodes v -> writable e (IBLOCK i v).
Proof using G.
  intros Hi. destruct (IBLOCK_range i Hi) as [_ ?]. destruct G as [[] ? ? ? Gd []].
  unfold datastart in *. assert (0 <= sb_size v / BPB) by (apply Z.div_pos; [lia|done]).
  split; lia.
Qed.

Lemma data_writable b : datastart v <= b < sb_size v -> writable e b.
Proof using G.
  intros Hb. destruct G as [[] ? ? ? Gd []]. unfold datastart in *.
  assert (0 <= sb_size v / BPB) by (apply Z.div_pos; [lia|done]).
  assert (0 <= (sb_ninodes v - 1) / IPB) by (apply Z.div_pos; [lia|done]).
  split; lia.
Qed.

Lemma meta_pos : 2 <= datastart v /\ 1 < sb_bmapstart v < datastart v /\ 1 < sb_inodestart v < sb_bmapstart v.
Proof using G.
  destruct G as [[] ? ? ? Gd []]. unfold datastart in *.
  assert (0 <= sb_size v / BPB) by (apply Z.div_pos; [lia|done]).
  assert (0 <= (sb_ninodes v - 1) / IPB) by (apply Z.div_pos; [lia|done]).
  lia.
Qed.

(** Two blocks with the same bit in the bitmap are the same block. *)
Lemma bit_inj b b' : 0 <= b < sb_size v -> 0 <= b' < sb_size v ->
  BBLOCK b v = BBLOCK b' v -> b mod BPB = b' mod BPB -> b = b'.
Proof using G.
  intros Hb Hb'. destruct (BBLOCK_range b Hb) as [-> _]. destruct (BBLOCK_range b' Hb') as [-> _].
  unfold BPB, BSIZE. mlia.
Qed.
End layout.

Lemma mod_BPB b : 0 <= b mod BPB < BPB.
Proof. by apply Z.mod_pos_bound. Qed.

Section marks.
Context (e : benv) (v : superblock) (G : fs_geom e v) (view : Z -> block).
Context (V : forall b, 0 <= b < e_size e -> is_block (view b)).

Lemma bmap_block b : 0 <= b < sb_size v -> is_block (view (BBLOCK b v)).
Proof using G V. intros Hb. apply V. by apply (bmap_writable e v G). Qed.

Lemma used_mark b b' : 0 <= b < sb_size v -> 0 <= b' < sb_size v ->
  used v (mark v view b) b' <-> b = b' \/ used v view b'.
Proof using G V.
  intros Hb Hb'. unfold used, mark, upd.
  destruct (decide (BBLOCK b v = BBLOCK b' v)) as [E|E].
  - rewrite bit_clear_set_bit; [|apply (bmap_block b Hb)|apply mod_BPB|apply mod_BPB].
    rewrite E. destruct (decide (b mod BPB = b' mod BPB)) as [Em|Em].
    + assert (b = b') by by apply (bit_inj e v G). naive_solver.
    + naive_solver.
  - naive_solver.
Qed.

Lemma used_alloc b b' : datastart v <= b < sb_size v -> 0 <= b' < sb_size v ->
  used v (alloc v view b) b' <-> b = b' \/ used v view b'.
Proof using G V.
  intros Hb Hb'. assert (P := meta_pos e v G). rewrite <- used_mark by lia.
  unfold used, alloc. rewrite upd_ne; [done|].
  destruct (BBLOCK_range e v G b' Hb') as [_ ?]. lia.
Qed.

Lemma used_unmark b b' : 0 <= b < sb_size v -> 0 <= b' < sb_size v ->
  used v (unmark v view b) b' <-> b ≠ b' /\ used v view b'.
Proof using G V.
  intros Hb Hb'. unfold used, unmark, upd.
  destruct (decide (BBLOCK b v = BBLOCK b' v)) as [E|E].
  - rewrite bit_clear_clear_bit; [|apply (bmap_block b Hb)|apply mod_BPB|apply mod_BPB].
    rewrite E. destruct (decide (b mod BPB = b' mod BPB)) as [Em|Em].
    + assert (b = b') by by apply (bit_inj e v G). naive_solver.
    + naive_solver.
  - naive_solver.
Qed.

(** Blocks other than [b] and its bitmap block keep their contents. *)
Lemma alloc_ne b b' : b ≠ b' -> BBLOCK b v ≠ b' -> alloc v view b b' = view b'.
Proof. intros. unfold alloc, mark. by rewrite !upd_ne. Qed.

Lemma alloc_eq b : alloc v view b b = zero_block.
Proof. apply upd_eq. Qed.
End marks.

(** ** The number of free blocks *)

Definition nfree (v : superblock) (view : Z -> block) : Z :=
  zlen (filter (fun b => ~ used v view b) (seqZ 0 (sb_size v))).

(** The first free block. *)
Definition first_free (v : superblock) (view : Z -> block) (b : Z) : Prop :=
  0 <= b < sb_size v /\ ~ used v view b /\ forall b', 0 <= b' < b -> used v view b'.

Lemma nfree_first v view : 0 < nfree v view -> exists b, first_free v view b.
Proof.
  intros Hn. unfold nfree, zlen in Hn.
  destruct (filter (fun b => ~ used v view b) (seqZ 0 (sb_size v))) as [|b l] eqn:E; [simpl in Hn; lia|].
  assert (Hb : b ∈ filter (fun b => ~ used v view b) (seqZ 0 (sb_size v))) by (rewrite E; left).
  apply list_elem_of_filter in Hb as [Hu Hb]. apply elem_of_seqZ in Hb.
  destruct (least_Z (fun b => ~ used v view b) (Z.to_nat (sb_size v))) as (b' & Hb' & Hu' & Hm).
  { exists b. split; [lia|done]. }
  exists b'. split; [lia|]. split; [done|]. intros c Hc. specialize (Hm c Hc).
  destruct (decide (used v view c)); [done|]. by destruct Hm.
Qed.

Lemma nfree_alloc e v view b : fs_geom e v -> (forall b, 0 <= b < e_size e -> is_block (view b)) ->
  datastart v <= b < sb_size v -> ~ used v view b -> nfree v (alloc v view b) = nfree v view - 1.
Proof.
  intros G V Hb Hu. assert (P := meta_pos e v G). unfold nfree, zlen.
  rewrite (filter_remove (fun b => ~ used v view b) (fun b' => ~ used v (alloc v view b) b') _ b); [lia| | |done|].
  - apply NoDup_seqZ.
  - apply elem_of_seqZ. lia.
  - intros x Hx. apply elem_of_seqZ in Hx. rewrite (used_alloc e v G view V b x) by lia. naive_solver.
Qed.

(** ** The file system over a block store *)

(** [log_write] and [bread] succeed while this many blocks are recorded, with
    up to two buffers in use. *)
Definition fs_cap (e : benv) : Z := Z.min (log_cap e) 28.

(** Recording blocks of [M] is already paid for. *)
Definition cost (M L : gset Z) : Z := Z.of_nat (size (L ∪ M)).

Lemma cost_in M L b : b ∈ M -> cost M (L ∪ {[b]}) = cost M L.
Proof. intros. unfold cost. do 2 f_equal. set_solver. Qed.

Lemma cost_add M L b : cost M L <= cost M (L ∪ {[b]}) <= cost M L + 1.
Proof.
  unfold cost. replace (L ∪ {[b]} ∪ M) with (L ∪ M ∪ {[b]}) by set_solver.
  assert (X := size_union_alt (L ∪ M) {[b]}). rewrite X.
  assert (Y : (size ({[b]} ∖ (L ∪ M)) <= size ({[b]} : gset Z))%nat) by (apply subseteq_size; set_solver).
  rewrite size_singleton in Y. lia.
Qed.

Lemma cost_logged M L b : b ∈ L -> cost M (L ∪ {[b]}) = cost M L.
Proof. intros. unfold cost. do 2 f_equal. set_solver. Qed.

Lemma cost_size M L : Z.of_nat (size L) <= cost M L.
Proof. unfold cost. apply inj_le, subseteq_size. set_solver. Qed.

Lemma map_img_size (H : gmap nat Z) : (size (map_img H : gset Z) <= size H)%nat.
Proof.
  induction H as [|i x H Hi IH] using map_ind; [by rewrite map_img_empty_L, size_empty|].
  rewrite map_img_insert_notin_L, map_size_insert_None by done.
  assert (X := size_union_alt {[x]} (map_img H : gset Z)).
  assert (Y : (size ((map_img H : gset Z) ∖ {[x]}) <= size (map_img H : gset Z))%nat) by (apply subseteq_size; set_solver).
  rewrite size_singleton in X. lia.
Qed.

Section fs_rep.
Context {S : Type} {BS : BlockStore S} {BL : BlockStoreLaws S}.
Implicit Types (s : fstate S) (Q : unit -> fstate S -> Prop).

Definition env s : benv := bs_env (blk s).

(** [v] are the contents of the blocks, [L] the blocks of the running
    transaction, [H] the buffers in use. *)
Record fs_rep s (v : Z -> block) (L : gset Z) (H : gmap nat Z) : Prop := {
  fr_bs : bs_rep (blk s) (BStore v L H ∅);
  fr_geom : fs_geom (env s) (sb s);
  fr_open : e_open (env s) = true;
  fr_sb : read_superblock (v 1) = sb s;
  fr_meta : forall b, 0 <= b < datastart (sb s) -> used (sb s) v b
}.

Lemma fr_block s v L H b : fs_rep s v L H -> 0 <= b < e_size (env s) -> is_block (v b).
Proof. intros R Hb. exact (bs_view_block _ _ b (fr_bs _ _ _ _ R) Hb). Qed.

(** The same state with other layers below. *)
Lemma fs_rep_blk s t v v' L L' H H' :
  fs_rep s v L H -> bs_env t = env s -> bs_rep t (BStore v' L' H' ∅) ->
  v' 1 = v 1 -> (forall b, 0 <= b < datastart (sb s) -> used (sb s) v b -> used (sb s) v' b) ->
  fs_rep (set_blk t s) v' L' H'.
Proof.
  intros [Rb Rg Ro Rs Rm] Et Rt E1 Hm. unfold env in *.
  split; unfold env; simpl; rewrite ?Et, ?E1; auto.
Qed.

Lemma room_for L H b : Z.of_nat (size L) + Z.of_nat (size H) < 30 -> forall v st,
  bs_room (BStore v L H st) b.
Proof.
  intros Hs v st. right. simpl. unfold NBUF.
  assert (X := size_union_alt L (map_img H : gset Z)). rewrite X.
  assert (Y : (size ((map_img H : gset Z) ∖ L) <= size (map_img H : gset Z))%nat) by (apply subseteq_size; set_solver).
  assert (W : (size (map_img H : gset Z) <= size H)%nat) by apply map_img_size.
  lia.
Qed.
(** *** Rules for the calls of the block layers *)

Lemma wp_bread' s v L H b (Q : nat -> fstate S -> Prop) :
  fs_rep s v L H -> 0 <= b < e_size (env s) -> (forall i, H !! i ≠ Some b) ->
  Z.of_nat (size L) + Z.of_nat (size H) < 30 ->
  (forall i t, H !! i = None -> bs_env t = env s ->
     fs_rep (set_blk t s) v L (<[i := b]> H) -> Q i (set_blk t s)) ->
  wp (bread' ROOTDEV b) Q s.
Proof.
  intros R Hb Hn Hr HQ. apply wp_zoom. eapply bs_wp_bread; [apply R|done|done|by apply room_for|].
  intros i t Hi Et Rt. apply HQ; [done|done|]. by eapply fs_rep_blk.
Qed.

Lemma wp_data' s v L H i b (Q : block -> fstate S -> Prop) :
  fs_rep s v L H -> H !! i = Some b -> Q (v b) s -> wp (data' i) Q s.
Proof.
  intros R Hi HQ. apply wp_zoom. eapply bs_wp_data; [apply R|done|].
  by destruct s.
Qed.

Lemma wp_brelse' s v L H i b Q :
  fs_rep s v L H -> H !! i = Some b ->
  (forall t, bs_env t = env s -> fs_rep (set_blk t s) v L (delete i H) -> Q tt (set_blk t s)) ->
  wp (brelse' i) Q s.
Proof.
  intros R Hi HQ. apply wp_zoom. eapply bs_wp_brelse; [apply R|done|apply not_elem_of_empty|].
  intros t Et Rt. apply HQ; [done|]. by eapply fs_rep_blk.
Qed.

(** Storing new contents into a buffer and logging it. *)
Lemma wp_store s v L H i b d Q :
  fs_rep s v L H -> H !! i = Some b -> is_block d -> writable (env s) b ->
  Z.of_nat (size L) < log_cap (env s) -> b ≠ 1 ->
  (forall b', 0 <= b' < datastart (sb s) -> used (sb s) v b' -> used (sb s) (upd v b d) b') ->
  (forall t, bs_env t = env s -> fs_rep (set_blk t s) (upd v b d) (L ∪ {[b]}) H -> Q tt (set_blk t s)) ->
  wp (set_data' i d;; log_write' i) Q s.
Proof.
  intros R Hi Hd Hw Hc H1 Hm HQ. wp_step. apply wp_zoom.
  eapply bs_wp_set_data; [apply R|done|done|]. intros t Et Rt. simpl in Rt.
  apply wp_zoom. simpl. eapply bs_wp_log_write; [exact Rt|done|by rewrite Et|rewrite Et; apply R|by rewrite Et|].
  intros t' Et' Rt'. simpl in Rt'.
  replace ((∅ ∪ {[b]}) ∖ {[b]}) with (∅ : gset Z) in Rt' by (clear; set_solver).
  change (set_blk t' (set_blk t s)) with (set_blk t' s).
  assert (E : bs_env t' = env s) by exact (eq_trans Et' Et).
  apply HQ; [exact E|]. eapply fs_rep_blk; [exact R|exact E|exact Rt'|by apply upd_ne|exact Hm].
Qed.

(** [set_data'; log_write'; brelse'] followed by [k]. *)
Lemma wp_store_release {A} s v L H i b d (k : M (fstate S) A) (Q : A -> fstate S -> Prop) :
  fs_rep s v L H -> H !! i = Some b -> is_block d -> writable (env s) b ->
  Z.of_nat (size L) < log_cap (env s) -> b ≠ 1 ->
  (forall b', 0 <= b' < datastart (sb s) -> used (sb s) v b' -> used (sb s) (upd v b d) b') ->
  (forall t, bs_env t = env s -> fs_rep (set_blk t s) (upd v b d) (L ∪ {[b]}) (delete i H) ->
     wp k Q (set_blk t s)) ->
  wp (set_data' i d;; log_write' i;; brelse' i;; k) Q s.
Proof.
  intros R Hi Hd Hw Hc H1 Hm HQ. apply wp_assoc. wp_step. eapply wp_store; [done..|].
  intros t Et Rt. wp_step. eapply wp_brelse'; [exact Rt|done|]. intros t' Et' Rt'.
  change (set_blk t' (set_blk t s)) with (set_blk t' s) in *. apply HQ; [|exact Rt'].
  exact (eq_trans Et' Et).
Qed.

(** A data block is not a bitmap block. *)
Lemma used_upd_data s v b d b' : fs_geom (env s) (sb s) -> datastart (sb s) <= b ->
  0 <= b' < sb_size (sb s) -> used (sb s) (upd v b d) b' <-> used (sb s) v b'.
Proof.
  intros G Hb Hb'. unfold used. destruct (BBLOCK_range _ _ G b' Hb') as [_ ?].
  by rewrite upd_ne by lia.
Qed.

Lemma wp_bzero s v L H b Q :
  fs_rep s v L H -> datastart (sb s) <= b < sb_size (sb s) -> (forall i, H !! i ≠ Some b) ->
  Z.of_nat (size H) <= 1 -> Z.of_nat (size L) < log_cap (env s) -> Z.of_nat (size L) <= 28 ->
  (forall t, bs_env t = env s -> fs_rep (set_blk t s) (upd v b zero_block) (L ∪ {[b]}) H ->
     Q tt (set_blk t s)) ->
  wp (bzero ROOTDEV b) Q s.
Proof.
  intros R Hb Hn Hh Hc Hl HQ. assert (G := fr_geom _ _ _ _ R). assert (P := meta_pos _ _ G).
  assert (Hw := data_writable _ _ G b Hb).
  unfold bzero. wp_step. eapply wp_bread'; [done|apply Hw|done|lia|]. intros i t Hi Et Rt.
  apply (wp_mono _ (fun _ => Q tt)); [|by intros []].
  apply wp_assoc. wp_step.
  eapply wp_store; [exact Rt|apply lookup_insert_eq|apply zero_block_ok|unfold env; simpl; by rewrite Et
    |unfold env; simpl; by rewrite Et|lia| |].
  { intros b' Hb' Hu. simpl in *. apply (used_upd_data (set_blk t s)); [apply Rt|simpl; lia|simpl; destruct G; lia|done]. }
  intros t1 Et1 Rt1. eapply wp_brelse'; [exact Rt1|apply lookup_insert_eq|]. intros t2 Et2 Rt2.
  rewrite delete_insert_id in Rt2 by done. change (set_blk t2 _) with (set_blk t2 s) in *.
  apply HQ; [|done]. exact (eq_trans Et2 (eq_trans Et1 Et)).
Qed.

Lemma first_free_data s v L H b :
  fs_rep s v L H -> first_free (sb s) v b -> datastart (sb s) <= b < sb_size (sb s).
Proof.
  intros R (Hb & Hn & _). split; [|lia]. destruct (decide (b < datastart (sb s))); [|lia].
  destruct Hn. apply (fr_meta _ _ _ _ R). lia.
Qed.

(** [M] has the bitmap blocks, and there is room for [k] blocks outside
    [M]. *)
Definition fits s (M L : gset Z) (k : Z) : Prop :=
  (forall b, 0 <= b < sb_size (sb s) -> BBLOCK b (sb s) ∈ M) /\ cost M L + k <= fs_cap (env s).

Lemma fits_size s M L k : fits s M L k -> Z.of_nat (size L) + k <= log_cap (env s) /\ Z.of_nat (size L) + k <= 28.
Proof. intros [_ Hf]. assert (X := cost_size M L). unfold fs_cap in Hf. lia. Qed.

Lemma fits_bmap s M L k b : fits s M L k -> 0 <= b < sb_size (sb s) ->
  fits s M (L ∪ {[BBLOCK b (sb s)]}) k.
Proof. intros [Hm Hf] Hb. split; [done|]. by rewrite cost_in by auto. Qed.

Lemma fits_env s t M L k : fits s M L k -> bs_env t = env s -> fits (set_blk t s) M L k.
Proof. intros [Hm Hf] Et. split; [done|]. unfold env in *. simpl. by rewrite Et. Qed.

(** [balloc] after it found the clear bit of [b]. *)
Lemma wp_balloc_take s v M L H i b (Q : Z -> fstate S -> Prop) :
  fs_rep s v L (<[i := BBLOCK b (sb s)]> H) -> H !! i = None -> first_free (sb s) v b ->
  (forall j, H !! j ≠ Some b) -> Z.of_nat (size H) <= 1 -> fits s M L 1 ->
  (forall t, bs_env t = env s ->
     fs_rep (set_blk t s) (alloc (sb s) v b) (L ∪ {[BBLOCK b (sb s)]} ∪ {[b]}) H -> Q b (set_blk t s)) ->
  wp (set_data' i (set_bit (v (BBLOCK b (sb s))) (b mod BPB));;
      log_write' i;; brelse' i;; bzero ROOTDEV b;; mret b) Q s.
Proof.
  intros R Hi F Hn Hh Hf HQ. assert (Hd := first_free_data _ _ _ _ _ R F).
  assert (G := fr_geom _ _ _ _ R). assert (P := meta_pos _ _ G).
  assert (Hr := BBLOCK_range _ _ G b ltac:(lia)).
  assert (V : forall b, 0 <= b < e_size (env s) -> is_block (v b)) by (intros b' Hb'; by eapply fr_block).
  assert (Y := fits_size _ _ _ _ Hf). assert (X := fits_size _ _ _ _ (fits_bmap _ _ _ _ b Hf ltac:(lia))).
  eapply wp_store_release; [done|apply lookup_insert_eq|apply set_bit_block, V; by apply (bmap_writable _ _ G); lia
    |by apply (bmap_writable _ _ G); lia|lia|lia| |].
  { intros b' Hb' Hu. apply (used_mark _ _ G v V); [lia|destruct G; lia|by right]. }
  intros t Et Rt. rewrite delete_insert_id in Rt by done. wp_step.
  eapply wp_bzero; [exact Rt|done|done|done|unfold env in *; simpl; rewrite Et; lia|lia|].
  intros t' Et' Rt'. wp_step. change (set_blk t' _) with (set_blk t' s) in *.
  apply HQ; [exact (eq_trans Et' Et)|exact Rt'].
Qed.

(** The loop of [balloc], entered at the beginning of a bitmap block with
    every earlier block in use. *)
Lemma balloc_from_spec s v M L H fuel b0 :
  fs_rep s v L H -> (forall i b, H !! i = Some b -> datastart (sb s) <= b /\ used (sb s) v b) ->
  Z.of_nat (size H) <= 1 -> fits s M L 1 ->
  0 <= b0 -> b0 mod BPB = 0 -> (forall b, 0 <= b < b0 -> b < sb_size (sb s) -> used (sb s) v b) ->
  sb_size (sb s) < b0 + Z.of_nat fuel * BPB ->
  (exists b, first_free (sb s) v b) ->
  forall (Q : Z -> fstate S -> Prop),
  (forall b t, first_free (sb s) v b -> bs_env t = env s ->
     fs_rep (set_blk t s) (alloc (sb s) v b) (L ∪ {[BBLOCK b (sb s)]} ∪ {[b]}) H -> Q b (set_blk t s)) ->
  wp (balloc_from fuel ROOTDEV b0) Q s.
Proof.
  intros R Hh Hsh Hl1. revert s R Hh Hl1 b0. induction fuel as [|fuel IH];
    intros s R Hh Hl1 b0 Hb0 Hm Hall Hfuel (bf & Hbf & Hnf & Hff) Q HQ.
  all: assert (G := fr_geom _ _ _ _ R); assert (Hsz := fg_size _ _ G); assert (Y := fits_size _ _ _ _ Hl1).
  all: assert (Hle : b0 <= bf) by (destruct (decide (bf < b0)); [exfalso; apply Hnf, Hall; lia|lia]).
  { lia. }
  cbn [balloc_from]. wp_step. wp_step. rewrite u32_id by (unfold is_u32; lia).
  destruct (Z.ltb_spec b0 (sb_size (sb s))) as [_|]; [|lia].
  assert (Hr := BBLOCK_range _ _ G b0 ltac:(lia)).
  assert (Hw := bmap_writable _ _ G b0 ltac:(lia)).
  wp_step. eapply wp_bread'; [done|apply Hw| |lia|].
  { intros i E. destruct (Hh i _ E). lia. }
  intros i t Hi Et Rt. wp_step. eapply wp_data'; [exact Rt|apply lookup_insert_eq|].
  assert (Fd : forall j, 0 <= j < BPB -> b0 + j < sb_size (sb s) ->
    used (sb s) v (b0 + j) <-> bit_clear (v (BBLOCK b0 (sb s))) j = false).
  { intros j Hj Hlt. unfold used. destruct (BBLOCK_range _ _ G (b0 + j) ltac:(lia)) as [-> _].
    destruct Hr as [-> _]. unfold BPB, BSIZE in *. 
    replace ((b0 + j) / (512 * 8)) with (b0 / (512 * 8)) by mlia.
    by replace ((b0 + j) mod (512 * 8)) with j by mlia. }
  assert (Fs := find_free_spec (v (BBLOCK b0 (sb s))) b0 (sb_size (sb s)) 0 (Z.to_nat BPB)
    ltac:(lia) ltac:(lia) ltac:(unfold BPB, BSIZE; lia)).
  destruct (find_free _ b0 _ 0 _) as [bi|].
  - destruct Fs as (Hbi & Hlt & Hc & Hmin). rewrite Z2Nat.id in Hbi by done.
    assert (F : first_free (sb s) v (b0 + bi)).
    { split; [lia|]. split; [rewrite Fd by lia; by rewrite Hc|]. intros b' Hb'.
      destruct (decide (b' < b0)); [apply Hall; lia|].
      replace b' with (b0 + (b' - b0)) by lia. apply Fd; [lia|lia|]. apply Hmin. lia. }
    assert (Eb : BBLOCK (b0 + bi) (sb s) = BBLOCK b0 (sb s)).
    { destruct (BBLOCK_range _ _ G (b0 + bi) ltac:(lia)) as [-> _]. destruct Hr as [-> _].
      f_equal. unfold BPB, BSIZE in *. mlia. }
    assert (Em : (b0 + bi) mod BPB = bi) by (unfold BPB, BSIZE in *; mlia).
    rewrite <- Eb in Rt.
    replace (set_bit (v (BBLOCK b0 (sb s))) bi)
      with (set_bit (v (BBLOCK (b0 + bi) (sb (set_blk t s)))) ((b0 + bi) mod BPB)) by (simpl; congruence).
    eapply wp_balloc_take; [exact Rt|done|exact F| |done|by apply fits_env|].
    { intros j E. apply F. by destruct (Hh j _ E). }
    intros t' Et' Rt'. change (set_blk t' _) with (set_blk t' s) in *.
    apply HQ; [done|exact (eq_trans Et' Et)|done].
  - wp_step. eapply wp_brelse'; [exact Rt|apply lookup_insert_eq|]. intros t' Et' Rt'.
    rewrite delete_insert_id in Rt' by done. change (set_blk t' _) with (set_blk t' s) in *.
    assert (E' : env (set_blk t' s) = env s) by exact (eq_trans Et' Et).
    apply IH; simpl; [done|done|by apply fits_env|unfold BPB, BSIZE; lia| | | | |].
    + rewrite Z.add_mod, Hm, Z_mod_same_full by done. done.
    + intros b Hb1 Hb2. destruct (decide (b < b0)); [apply Hall; lia|].
      replace b with (b0 + (b - b0)) by lia. apply Fd; [lia|lia|].
      apply Fs; [rewrite Z2Nat.id by done; lia|lia].
    + lia.
    + by exists bf.
    + intros b t1 F Et1 Rt1. apply HQ; [done|exact (eq_trans Et1 E')|exact Rt1].
Qed.

(** The buffers in use hold data blocks that are marked in the bitmap. *)
Definition held_data s (v : Z -> block) (H : gmap nat Z) : Prop :=
  forall i b, H !! i = Some b -> datastart (sb s) <= b < sb_size (sb s) /\ used (sb s) v b.

Lemma held_data_empty s v : held_data s v ∅.
Proof. intros i b E. by rewrite lookup_empty in E. Qed.

Lemma wp_balloc s v M L H (Q : Z -> fstate S -> Prop) :
  fs_rep s v L H -> held_data s v H -> Z.of_nat (size H) <= 1 -> fits s M L 1 ->
  (exists b, first_free (sb s) v b) ->
  (forall b t, first_free (sb s) v b -> bs_env t = env s ->
     fs_rep (set_blk t s) (alloc (sb s) v b) (L ∪ {[BBLOCK b (sb s)]} ∪ {[b]}) H -> Q b (set_blk t s)) ->
  wp (balloc ROOTDEV) Q s.
Proof.
  intros R Hh Hs Hf Hb HQ. unfold balloc. wp_step. wp_step.
  eapply balloc_from_spec; try done.
  - intros i b E. destruct (Hh i b E). split; [lia|done].
  - intros. lia.
  - assert (G := fg_size _ _ (fr_geom _ _ _ _ R)). unfold BPB, BSIZE. mlia.
Qed.

(** With every block in use the loop reaches the end and [balloc] panics. *)
Lemma balloc_from_full s v L H fuel b0 :
  fs_rep s v L H -> held_data s v H -> Z.of_nat (size H) <= 1 -> Z.of_nat (size L) <= 28 ->
  0 <= b0 -> b0 mod BPB = 0 -> (forall b, 0 <= b < sb_size (sb s) -> used (sb s) v b) ->
  sb_size (sb s) < b0 + Z.of_nat fuel * BPB -> b0 < sb_size (sb s) + BPB ->
  balloc_from fuel ROOTDEV b0 s = Panic "balloc: out of blocks".
Proof.
  intros R Hh Hsh Hl1. revert s R Hh b0. induction fuel as [|fuel IH];
    intros s R Hh b0 Hb0 Hm Hall Hfuel Hb1.
  all: assert (G := fr_geom _ _ _ _ R); assert (Hsz := fg_size _ _ G).
  all: cbn [balloc_from]; apply panic_bind; wp_step; rewrite u32_id by (unfold is_u32, BPB, BSIZE in *; lia).
  all: destruct (Z.ltb_spec b0 (sb_size (sb s))) as [Hlt|]; [|done].
  { lia. }
  assert (Hr := BBLOCK_range _ _ G b0 ltac:(lia)). assert (Hw := bmap_writable _ _ G b0 ltac:(lia)).
  apply panic_bind. eapply wp_bread'; [done|apply Hw| |lia|].
  { intros i E. destruct (Hh i _ E). lia. }
  intros i t Hi Et Rt. apply panic_bind. eapply wp_data'; [exact Rt|apply lookup_insert_eq|].
  assert (Fs := find_free_spec (v (BBLOCK b0 (sb s))) b0 (sb_size (sb s)) 0 (Z.to_nat BPB)
    ltac:(lia) ltac:(lia) ltac:(unfold BPB, BSIZE; lia)).
  destruct (find_free _ b0 _ 0 _) as [bi|].
  - destruct Fs as (Hbi & Hlt' & Hc & _). rewrite Z2Nat.id in Hbi by done.
    assert (U := Hall (b0 + bi) ltac:(lia)). unfold used in U.
    destruct (BBLOCK_range _ _ G (b0 + bi) ltac:(lia)) as [Eb _]. rewrite Eb in U.
    destruct Hr as [Eb0 _]. rewrite Eb0 in Hc. unfold BPB, BSIZE in *.
    replace ((b0 + bi) / (512 * 8)) with (b0 / (512 * 8)) in U by mlia.
    replace ((b0 + bi) mod (512 * 8)) with bi in U by mlia. congruence.
  - apply panic_bind. eapply wp_brelse'; [exact Rt|apply lookup_insert_eq|]. intros t' Et' Rt'.
    rewrite delete_insert_id in Rt' by done. change (set_blk t' _) with (set_blk t' s) in *.
    apply IH; simpl; try done; unfold BPB, BSIZE in *; try lia.
    rewrite Z.add_mod, Hm by done. done.
Qed.

Lemma wp_bfree s v M L H b Q :
  fs_rep s v L H -> held_data s v H -> Z.of_nat (size H) <= 1 -> fits s M L 1 ->
  datastart (sb s) <= b < sb_size (sb s) -> used (sb s) v b ->
  (forall t, bs_env t = env s ->
     fs_rep (set_blk t s) (unmark (sb s) v b) (L ∪ {[BBLOCK b (sb s)]}) H -> Q tt (set_blk t s)) ->
  wp (bfree ROOTDEV b) Q s.
Proof.
  intros R Hh Hs Hf Hb Hu HQ. assert (G := fr_geom _ _ _ _ R). assert (P := meta_pos _ _ G).
  assert (Hsz := fg_size _ _ G). assert (Y := fits_size _ _ _ _ Hf).
  assert (Hr := BBLOCK_range _ _ G b ltac:(lia)). assert (Hw := bmap_writable _ _ G b ltac:(lia)).
  assert (V : forall b, 0 <= b < e_size (env s) -> is_block (v b)) by (intros b' Hb'; by eapply fr_block).
  unfold bfree, fs_readsb. wp_step. wp_step.
  eapply wp_bread'; [done|lia|intros i E; destruct (Hh i _ E); lia|lia|]. intros i t Hi Et Rt.
  wp_step. eapply wp_data'; [exact Rt|apply lookup_insert_eq|]. wp_step.
  eapply wp_brelse'; [exact Rt|apply lookup_insert_eq|]. intros t1 Et1 Rt1.
  rewrite delete_insert_id in Rt1 by done. change (set_blk t1 _) with (set_blk t1 s) in *.
  wp_step. wp_step. wp_step. rewrite (fr_sb _ _ _ _ R).
  change (set_sb (sb s) (set_blk t1 s)) with (set_blk t1 s).
  assert (E1 : env (set_blk t1 s) = env s) by exact (eq_trans Et1 Et).
  wp_step. eapply wp_bread'; [exact Rt1|rewrite E1; apply Hw|intros j E; destruct (Hh j _ E); lia|lia|].
  intros j t2 Hj Et2 Rt2. change (set_blk t2 _) with (set_blk t2 s) in *.
  assert (E2 : env (set_blk t2 s) = env s) by exact (eq_trans Et2 E1).
  wp_step. eapply wp_data'; [exact Rt2|apply lookup_insert_eq|]. unfold used in Hu. rewrite Hu.
  apply wp_assoc. wp_step.
  eapply wp_store; [exact Rt2|apply lookup_insert_eq|apply clear_bit_block, V, Hw|by rewrite E2
    |rewrite E2; lia|lia| |].
  { simpl. intros b' Hb' Hu'. apply (used_unmark _ _ G v V); [lia|lia|]. split; [lia|done]. }
  intros t3 Et3 Rt3. eapply wp_brelse'; [exact Rt3|apply lookup_insert_eq|]. intros t4 Et4 Rt4.
  rewrite delete_insert_id in Rt4 by done. change (set_blk t4 _) with (set_blk t4 s) in *.
  apply HQ; [|exact Rt4]. exact (eq_trans Et4 (eq_trans Et3 E2)).
Qed.
End fs_rep.
