(* ===== verification/FsFile.v ===== *)
(** * The contents of inodes (bmap, readi, writei, itrunc of fs.c)

    The blocks of a file are found through the direct addresses and the
    indirect block of its inode.  [readi] returns the bytes of the file;
    [writei] replaces bytes, extends the file, and leaves every block that
    belongs to something else alone. *)

From S2P Require Import Prelude Param Cstring SleepLock Layout BlockStore Fs FsBlocks.

(** ** The block addresses of a file *)

(** The address of block [k] of the file; position [MAXFILE] is the indirect
    block itself.  Zero: not allocated. *)
Definition faddr (view : Z -> block) (ad : list Z) (k : Z) : Z :=
  let ind := rd 0 ad NDIRECT in
  if k <? NDIRECT then rd 0 ad k
  else if k <? MAXFILE then
    if ind =? 0 then 0 else get32 (view ind) (4 * (k - NDIRECT))
  else ind.

Definition position (k : Z) : Prop := 0 <= k <= MAXFILE.

(** Every address of the file is a data block marked in the bitmap, and no
    block occurs twice. *)
Record file_wf (g : superblock) (view : Z -> block) (ad : list Z) : Prop := {
  fw_len : zlen ad = NDIRECT + 1;
  fw_data : forall k, position k -> faddr view ad k ≠ 0 ->
    datastart g <= faddr view ad k < sb_size g /\ used g view (faddr view ad k);
  fw_inj : forall j k, position j -> position k -> faddr view ad j ≠ 0 ->
    faddr view ad j = faddr view ad k -> j = k
}.

Lemma faddr_ind view ad : faddr view ad MAXFILE = rd 0 ad NDIRECT.
Proof. done. Qed.

(** The addresses depend on the blocks only through the indirect block. *)
Lemma faddr_view view view' ad k :
  rd 0 ad NDIRECT = 0 \/ view' (rd 0 ad NDIRECT) = view (rd 0 ad NDIRECT) ->
  faddr view' ad k = faddr view ad k.
Proof.
  unfold faddr. intros [->| ->]; [|done]. by rewrite Z.eqb_refl.
Qed.

(** A block that is free is not a block of the file. *)
Lemma faddr_not_free g view ad b k : file_wf g view ad -> ~ used g view b -> b ≠ 0 -> position k ->
  faddr view ad k ≠ b.
Proof. intros W Hb H0 Hk E. destruct (fw_data _ _ _ W k Hk) as [_ U]; [congruence|]. by rewrite E in U. Qed.

(** One more block for a file. *)
Lemma file_wf_grow g view view' ad ad' b k0 :
  file_wf g view ad -> zlen ad' = NDIRECT + 1 -> position k0 -> faddr view ad k0 = 0 ->
  datastart g <= b < sb_size g -> b ≠ 0 -> ~ used g view b -> used g view' b ->
  (forall b', datastart g <= b' < sb_size g -> used g view b' -> used g view' b') ->
  (forall k, position k -> faddr view' ad' k = if decide (k = k0) then b else faddr view ad k) ->
  file_wf g view' ad'.
Proof.
  intros W Hl Hk0 H0 Hb Hb0 Hu Hu' Hmono E. split; [done| |].
  - intros k Hk. rewrite E by done. case_decide; [done|]. intros Hne.
    destruct (fw_data _ _ _ W k Hk Hne). auto.
  - intros j k Hj Hk. rewrite !E by done. repeat case_decide; subst; try done.
    + intros _ Eb. by destruct (faddr_not_free g view ad b k W Hu Hb0 Hk).
    + intros _ Eb. by destruct (faddr_not_free g view ad b j W Hu Hb0 Hj).
    + apply (fw_inj _ _ _ W); done.
Qed.

Section positions.
Context (view : Z -> block) (ad : list Z) (Hl : zlen ad = NDIRECT + 1).

Lemma faddr_wr_direct bn b k : 0 <= bn < NDIRECT -> position k ->
  faddr view (wr ad bn b) k = if decide (k = bn) then b else faddr view ad k.
Proof using Hl.
  intros Hbn Hk. unfold faddr, position, MAXFILE, NINDIRECT, NDIRECT, BSIZE in *.
  rewrite !(rd_wr 0 ad bn) by lia.
  destruct (Z.ltb_spec k 12); repeat case_decide; subst; try lia; try done.
Qed.

Lemma faddr_wr_indirect b k : rd 0 ad NDIRECT = 0 -> view b = zero_block -> position k ->
  faddr view (wr ad NDIRECT b) k = if decide (k = MAXFILE) then b else faddr view ad k.
Proof using Hl.
  intros H0 Hz Hk.
  unfold faddr, position, MAXFILE, NINDIRECT, NDIRECT, BSIZE in *. rewrite H0.
  rewrite !(rd_wr 0 ad 12) by lia. rewrite (decide_True (P := 12 = 12)) by done.
  destruct (Z.ltb_spec k 12); [repeat case_decide; subst; try lia; done|].
  destruct (Z.ltb_spec k (12 + 512 / 4)) as [Hlt|Hge].
  - rewrite decide_False by (change (512 / 4) with 128 in *; lia).
    simpl. destruct (Z.eqb_spec b 0); [done|]. rewrite Hz.
    apply get32_zero.
  - rewrite decide_True; [done|]. change (512 / 4) with 128 in *. lia.
Qed.

Lemma faddr_put_entry bn b k d : let ind := rd 0 ad NDIRECT in
  ind ≠ 0 -> is_block d -> is_u32 b -> 0 <= bn < NINDIRECT -> view ind = d -> position k ->
  faddr (upd view ind (put32 d (4 * bn) b)) ad k =
  if decide (k = NDIRECT + bn) then b else faddr view ad k.
Proof using Hl.
  intros ind Hi [Hz Hd] Hb Hbn Hv Hk. unfold faddr. fold ind. rewrite upd_eq, Hv.
  unfold position, MAXFILE, NINDIRECT, NDIRECT, BSIZE in *. change (512 / 4) with 128 in *.
  destruct (Z.ltb_spec k 12); [by rewrite decide_False by lia|].
  destruct (Z.ltb_spec k (12 + 128)); [|by rewrite decide_False by lia].
  destruct (Z.eqb_spec ind 0); [done|]. case_decide.
  - subst k. replace (12 + bn - 12) with bn by lia. rewrite get32_put32 by lia. by apply u32_id.
  - rewrite get32_put32_ne by lia. done.
Qed.
End positions.

(** ** Steps that change a file *)

Section steps.
Context {S : Type} {BS : BlockStore S} {BL : BlockStoreLaws S}.
Implicit Types (s t : fstate S).

(** A block that does not belong to the file. *)
Definition foreign (view : Z -> block) (ad : list Z) (b : Z) : Prop :=
  forall k, position k -> faddr view ad k ≠ b.

(** From [s] to [s'], inode [ip] and its blocks may have changed, and nothing
    else: addresses are kept, new ones were free, blocks of other files and
    the blocks before the bitmap keep their contents. *)
Record file_step s s' (ip : nat) (v v' : Z -> block) (L L' : gset Z) (ad ad' : list Z) : Prop := {
  gs_rep : fs_rep s' v' L' ∅;
  gs_env : env s' = env s;
  gs_sb : sb s' = sb s;
  gs_pid : fpid s' = fpid s;
  gs_icache : icache s' = <[ip := set_addrs ad' (inode_at s ip)]> (icache s);
  gs_wf : file_wf (sb s) v' ad';
  gs_keep : forall k, position k -> faddr v ad k ≠ 0 -> faddr v' ad' k = faddr v ad k;
  gs_new : forall k, position k -> faddr v' ad' k ≠ 0 -> faddr v ad k = 0 ->
    ~ used (sb s) v (faddr v' ad' k);
  gs_meta : forall b, b < sb_bmapstart (sb s) -> v' b = v b;
  gs_used : forall b, 0 <= b < sb_size (sb s) -> used (sb s) v b -> used (sb s) v' b;
  gs_foreign : forall b, datastart (sb s) <= b < sb_size (sb s) -> used (sb s) v b ->
    foreign v ad b -> v' b = v b
}.

Lemma inode_at_insert s s' ip i : (ip < length (icache s))%nat -> icache s' = <[ip := i]> (icache s) ->
  inode_at s' ip = i.
Proof. intros Hi E. unfold inode_at. by rewrite E, list_lookup_insert_eq. Qed.

Lemma file_step_trans s1 s2 s3 ip v1 v2 v3 L1 L2 L3 ad1 ad2 ad3 :
  (ip < length (icache s1))%nat -> addrs (inode_at s1 ip) = ad1 -> file_wf (sb s1) v1 ad1 ->
  file_step s1 s2 ip v1 v2 L1 L2 ad1 ad2 -> file_step s2 s3 ip v2 v3 L2 L3 ad2 ad3 ->
  file_step s1 s3 ip v1 v3 L1 L3 ad1 ad3.
Proof.
  intros Hip Had W1 [R2 E2 Sb2 P2 I2 W2 K2 N2 M2 U2 F2] [R3 E3 Sb3 P3 I3 W3 K3 N3 M3 U3 F3].
  rewrite Sb2 in *. split; try done; try congruence.
  - rewrite I3, I2. rewrite list_insert_insert_eq. f_equal.
    by rewrite (inode_at_insert s1 s2 ip (set_addrs ad2 (inode_at s1 ip)) Hip I2).
  - intros k Hk H0. rewrite K3; [by apply K2|done|by rewrite K2].
  - intros k Hk H3 H0. destruct (decide (faddr v2 ad2 k = 0)) as [H2|H2].
    + intros U. destruct (fw_data _ _ _ W3 k Hk H3) as [Hd _].
      assert (Hg := meta_pos _ _ (fr_geom _ _ _ _ R2)). rewrite Sb2 in Hg.
      apply (N3 k Hk H3 H2). apply U2; [lia|done].
    + rewrite K3 by done. by apply N2.
  - intros b Hb. rewrite M3, M2; done.
  - intros b Hb Hu. auto.
  - intros b Hb Hu Hf. assert (Hg := meta_pos _ _ (fr_geom _ _ _ _ R2)). rewrite Sb2 in Hg.
    rewrite F3; [by apply F2|done|apply U2; [lia|done]|].
    intros k Hk E. destruct (decide (faddr v1 ad1 k = 0)) as [H0|H0].
    + apply (N2 k Hk); [lia|done|by rewrite E].
    + apply (Hf k Hk). by rewrite <- K2.
Qed.

Lemma file_step_inode s s' ip v v' L L' ad ad' :
  (ip < length (icache s))%nat -> file_step s s' ip v v' L L' ad ad' ->
  inode_at s' ip = set_addrs ad' (inode_at s ip) /\ (ip < length (icache s'))%nat.
Proof.
  intros Hip St. assert (E := gs_icache _ _ _ _ _ _ _ _ _ St). split.
  - by apply (inode_at_insert s).
  - by rewrite E, length_insert.
Qed.

(** ** Accounting for log space and free blocks *)

(** The indirect block costs log space until it is recorded. *)
Definition ind_cost (L : gset Z) (ad : list Z) : Z :=
  if decide (rd 0 ad NDIRECT ≠ 0 /\ rd 0 ad NDIRECT ∈ L) then 0 else 1.
Definition fcost (M L : gset Z) (ad : list Z) : Z := cost M L + ind_cost L ad.

(** Free blocks, less one that the indirect block may still need. *)
Definition ffree (g : superblock) (v : Z -> block) (ad : list Z) : Z :=
  nfree g v - (if rd 0 ad NDIRECT =? 0 then 1 else 0).

Lemma ind_cost_bounds L ad : 0 <= ind_cost L ad <= 1.
Proof. unfold ind_cost. case_decide; lia. Qed.

(** Facts about the block that [balloc] returned. *)
Record fresh_block s (v : Z -> block) (b : Z) : Prop := {
  fb_range : datastart (sb s) <= b < sb_size (sb s);
  fb_pos : 2 <= b;
  fb_u32 : is_u32 b;
  fb_unused : ~ used (sb s) v b;
  fb_used : forall b', 0 <= b' < sb_size (sb s) ->
    used (sb s) (alloc (sb s) v b) b' <-> b = b' \/ used (sb s) v b';
  fb_keep : forall b', datastart (sb s) <= b' < sb_size (sb s) -> used (sb s) v b' ->
    alloc (sb s) v b b' = v b';
  fb_meta : forall b', b' < sb_bmapstart (sb s) -> alloc (sb s) v b b' = v b';
  fb_nfree : nfree (sb s) (alloc (sb s) v b) = nfree (sb s) v - 1;
  fb_bmap : 0 <= b < sb_size (sb s)
}.

Lemma fresh_block_intro s v L H b : fs_rep s v L H -> first_free (sb s) v b -> fresh_block s v b.
Proof.
  intros R F. assert (Hd := first_free_data _ _ _ _ _ R F). assert (G := fr_geom _ _ _ _ R).
  assert (P := meta_pos _ _ G). assert (Hsz := fg_size _ _ G).
  assert (Hr := BBLOCK_range _ _ G b ltac:(lia)).
  assert (V : forall b, 0 <= b < e_size (env s) -> is_block (v b)) by (intros b' Hb'; by eapply fr_block).
  destruct F as (_ & Hu & _). split; try done; try lia.
  - unfold is_u32. lia.
  - intros b' Hb'. by apply (used_alloc _ _ G v V).
  - intros b' Hb' Hu'. apply alloc_ne; [by intros ->|lia].
  - intros b' Hb'. apply alloc_ne; [unfold datastart in *|lia]. lia.
  - by apply (nfree_alloc (env s)).
Qed.

(** ** Adding a block to a file *)

(** The position in the file of entry [q] of [addrs]. *)
Definition entry_pos (q : Z) : Z := if q =? NDIRECT then MAXFILE else q.

Lemma faddr_entry v ad q : 0 <= q <= NDIRECT -> faddr v ad (entry_pos q) = rd 0 ad q.
Proof.
  intros Hq. unfold entry_pos, faddr. destruct (Z.eqb_spec q NDIRECT) as [->|]; [done|].
  destruct (Z.ltb_spec q NDIRECT); [done|lia].
Qed.

Lemma entry_position q : 0 <= q <= NDIRECT -> position (entry_pos q).
Proof.
  unfold entry_pos, position, MAXFILE, NINDIRECT, NDIRECT, BSIZE. intros. change (512 / 4) with 128.
  destruct (Z.eqb_spec q 12); lia.
Qed.

(** The addresses after block [b] was entered at [q]. *)
Lemma faddr_grown s v ad q b k : file_wf (sb s) v ad -> fresh_block s v b -> 0 <= q <= NDIRECT ->
  rd 0 ad q = 0 -> position k ->
  faddr (alloc (sb s) v b) (wr ad q b) k = if decide (k = entry_pos q) then b else faddr v ad k.
Proof.
  intros W F Hq H0 Hk. assert (Hl := fw_len _ _ _ W). assert (E : faddr (alloc (sb s) v b) ad k = faddr v ad k).
  { apply faddr_view. destruct (decide (rd 0 ad NDIRECT = 0)) as [|Hne]; [by left|right].
    destruct (fw_data _ _ _ W MAXFILE) as [Hd Hu]; [unfold position, MAXFILE, NINDIRECT, NDIRECT, BSIZE; change (512 / 4) with 128; lia|done|].
    by apply (fb_keep _ _ _ F). }
  unfold entry_pos. destruct (Z.eqb_spec q NDIRECT) as [->|Hne].
  - rewrite faddr_wr_indirect by (done || apply alloc_eq). case_decide; [done|exact E].
  - rewrite faddr_wr_direct by (done || lia). case_decide; [done|exact E].
Qed.

Lemma wp_grow s v M L ip q (Q : Z -> fstate S -> Prop) :
  let ad := addrs (inode_at s ip) in
  fs_rep s v L ∅ -> (ip < length (icache s))%nat -> idev (inode_at s ip) = ROOTDEV ->
  file_wf (sb s) v ad -> 0 <= q <= NDIRECT -> rd 0 ad q = 0 -> fits s M L 1 -> 0 < nfree (sb s) v ->
  (forall b s', fresh_block s v b ->
     file_step s s' ip v (alloc (sb s) v b) L (L ∪ {[BBLOCK b (sb s)]} ∪ {[b]}) ad (wr ad q b) ->
     Q b s') ->
  wp (addr ← balloc (idev (inode_at s ip));
      imod ip (fun i => set_addrs (wr (addrs i) q addr) i);; mret addr) Q s.
Proof.
  intros ad R Hip Hdev W Hq H0 Hf Hn HQ. rewrite Hdev. wp_step.
  eapply wp_balloc; [exact R|apply held_data_empty|by rewrite map_size_empty|exact Hf|by apply nfree_first|].
  intros b t Fb Et Rt. assert (F := fresh_block_intro _ _ _ _ _ R Fb). wp_step. unfold imod. wp_step. wp_step.
  assert (P := meta_pos _ _ (fr_geom _ _ _ _ R)).
  apply HQ; [done|]. assert (Fa := faddr_grown s v ad q b).
  assert (E0 : faddr v ad (entry_pos q) = 0) by (by rewrite faddr_entry).
  assert (Hp := entry_position q Hq).
  split; simpl; try done.
  - destruct Rt. by split.
  - eapply (file_wf_grow _ v _ ad _ b (entry_pos q)); try done.
    + rewrite zlen_wr. apply W.
    + apply F.
    + destruct F. lia.
    + apply F.
    + apply F; [apply F|by left].
    + intros b' Hb' Hu. apply F; [lia|by right].
    + intros k Hk. by apply Fa.
  - intros k Hk Hne. rewrite Fa by done. case_decide; [congruence|done].
  - intros k Hk Hne E. rewrite Fa in Hne by done. rewrite Fa by done.
    case_decide; [apply F|congruence].
  - apply F.
  - intros b' Hb' Hu. apply F; [done|by right].
  - intros b' Hb' Hu _. by apply F.
Qed.

(** ** bmap *)

(** What [bmap] did when it returned [a] for block [bn]: the address of the
    block, allocated and zeroed if there was none. *)
Record bmap_post s s' (ip : nat) (v v' : Z -> block) (M L L' : gset Z) (ad ad' : list Z) (bn a : Z)
  : Prop := {
  bp_step : file_step s s' ip v v' L L' ad ad';
  bp_addr : a = faddr v' ad' bn /\ a ≠ 0;
  bp_only : forall k, 0 <= k < MAXFILE -> k ≠ bn -> faddr v' ad' k = faddr v ad k;
  bp_data : forall b, datastart (sb s) <= b < sb_size (sb s) -> used (sb s) v b ->
    b ≠ rd 0 ad NDIRECT -> v' b = v b;
  bp_zero : faddr v ad bn = 0 -> v' a = zero_block /\ a ∈ L';
  bp_same : faddr v ad bn ≠ 0 -> v' = v /\ L' = L /\ ad' = ad;
  bp_cost : fcost M L' ad' <= fcost M L ad + (if faddr v ad bn =? 0 then 1 else 0);
  bp_free : ffree (sb s) v ad - (if faddr v ad bn =? 0 then 1 else 0) <= ffree (sb s) v' ad'
}.

Lemma set_addrs_id i : set_addrs (addrs i) i = i.
Proof. by destruct i. Qed.

Lemma icache_same s ip : (ip < length (icache s))%nat ->
  icache s = <[ip := set_addrs (addrs (inode_at s ip)) (inode_at s ip)]> (icache s).
Proof.
  intros Hip. rewrite set_addrs_id. symmetry. apply list_insert_id. unfold inode_at.
  by destruct (lookup_lt_is_Some_2 _ _ Hip) as [i ->].
Qed.

Lemma file_step_refl s (t : S) ip v L :
  let ad := addrs (inode_at s ip) in
  (ip < length (icache s))%nat -> file_wf (sb s) v ad ->
  bs_env t = env s -> fs_rep (set_blk t s) v L ∅ ->
  file_step s (set_blk t s) ip v v L L ad ad.
Proof.
  intros ad Hip W Et Rt. split; try done.
  - exact (icache_same s ip Hip).
Qed.

Lemma bmap_post_same s (t : S) ip v M L bn :
  let ad := addrs (inode_at s ip) in
  (ip < length (icache s))%nat -> file_wf (sb s) v ad ->
  bs_env t = env s -> fs_rep (set_blk t s) v L ∅ -> faddr v ad bn ≠ 0 ->
  bmap_post s (set_blk t s) ip v v M L L ad ad bn (faddr v ad bn).
Proof.
  intros ad Hip W Et Rt Hne. split; try done.
  - by apply file_step_refl.
  - destruct (Z.eqb_spec (faddr v ad bn) 0); lia.
  - destruct (Z.eqb_spec (faddr v ad bn) 0); lia.
Qed.

(** The block that [wp_grow] entered at [q]. *)
Lemma bmap_post_grow s s' ip v M L q b :
  let ad := addrs (inode_at s ip) in
  let L' := L ∪ {[BBLOCK b (sb s)]} ∪ {[b]} in
  fs_rep s v L ∅ -> file_wf (sb s) v ad -> fresh_block s v b -> 0 <= q < NDIRECT -> rd 0 ad q = 0 -> fits s M L 1 ->
  file_step s s' ip v (alloc (sb s) v b) L L' ad (wr ad q b) ->
  bmap_post s s' ip v (alloc (sb s) v b) M L L' ad (wr ad q b) q b.
Proof.
  intros ad L' R W F Hq H0 [Hm _] St. assert (Fa := faddr_grown s v ad q b).
  assert (Ep : entry_pos q = q) by (unfold entry_pos; destruct (Z.eqb_spec q NDIRECT); [lia|done]).
  rewrite Ep in Fa. assert (Hq' : position q).
  { unfold position, MAXFILE, NINDIRECT, NDIRECT, BSIZE in *. change (512 / 4) with 128. lia. }
  assert (E0 : faddr v ad q = 0) by (rewrite <- Ep, faddr_entry; [done|lia]).
  assert (Ei : rd 0 (wr ad q b) NDIRECT = rd 0 ad NDIRECT) by (apply rd_wr_ne; lia).
  assert (Hc1 := cost_add M (L ∪ {[BBLOCK b (sb s)]}) b).
  rewrite (cost_in M L) in Hc1 by (apply Hm, F). fold L' in Hc1.
  split.
  - done.
  - rewrite Fa by (done || lia). rewrite decide_True by done. destruct F. lia.
  - intros k Hk Hne. rewrite Fa by (done || unfold position; lia). by rewrite decide_False.
  - intros b' Hb' Hu _. by apply F.
  - intros _. split; [apply alloc_eq|]. unfold L'. clear. set_solver.
  - done.
  - rewrite E0. simpl. unfold fcost, ind_cost. rewrite Ei.
    repeat case_decide; try lia. exfalso. unfold L' in *. clear -H H1. set_solver.
  - rewrite E0. simpl. unfold ffree. rewrite Ei, (fb_nfree _ _ _ F). lia.
Qed.

Lemma position_max : position MAXFILE.
Proof. unfold position, MAXFILE, NINDIRECT, NDIRECT, BSIZE. change (512 / 4) with 128. lia. Qed.

(** Block [b] entered into the indirect block at entry [j]. *)
Lemma bmap_post_entry s s' ip v M L j b :
  let ad := addrs (inode_at s ip) in
  let ind := rd 0 ad NDIRECT in
  let v' := upd (alloc (sb s) v b) ind (put32 (v ind) (4 * j) b) in
  let L' := L ∪ {[BBLOCK b (sb s)]} ∪ {[b]} ∪ {[ind]} in
  fs_rep s v L ∅ -> (ip < length (icache s))%nat -> file_wf (sb s) v ad -> fresh_block s v b ->
  0 <= j < NINDIRECT -> ind ≠ 0 -> faddr v ad (NDIRECT + j) = 0 ->
  fits s M L 1 -> env s' = env s -> sb s' = sb s -> fpid s' = fpid s -> icache s' = icache s ->
  fs_rep s' v' L' ∅ ->
  bmap_post s s' ip v v' M L L' ad ad (NDIRECT + j) b.
Proof.
  intros ad ind v' L' R Hip W F Hj Hi E0 [Hm _] Ee Es Ep Ei R'.
  assert (G := fr_geom _ _ _ _ R). assert (P := meta_pos _ _ G).
  destruct (fw_data _ _ _ W MAXFILE position_max Hi) as [Hid Hiu]. rewrite faddr_ind in Hid, Hiu. fold ind in Hid, Hiu.
  assert (Ea : alloc (sb s) v b ind = v ind) by by apply F.
  assert (Bi : is_block (v ind)) by (eapply fr_block; [exact R|]; destruct G; lia).
  assert (Hne : ind ≠ b) by (intros Eb; apply (fb_unused _ _ _ F); by rewrite <- Eb).
  assert (Fa : forall k, position k -> faddr v' ad k = if decide (k = NDIRECT + j) then b else faddr v ad k).
  { intros k Hk. unfold v', ind. rewrite (faddr_put_entry _ ad (fw_len _ _ _ W)); try done; [|apply F].
    case_decide; [done|]. apply faddr_view. by right. }
  assert (Hp : position (NDIRECT + j)) by (unfold position, MAXFILE, NDIRECT; lia).
  assert (U : forall b', 0 <= b' < sb_size (sb s) -> used (sb s) v' b' <-> b = b' \/ used (sb s) v b').
  { intros b' Hb'. rewrite <- (fb_used _ _ _ F b' Hb'). apply (used_upd_data s); [done|lia|lia]. }
  assert (Hb2 := fb_pos _ _ _ F). assert (Hbr := fb_range _ _ _ F).
  split.
  - split; try done.
    + rewrite Ei. by apply icache_same.
    + eapply (file_wf_grow _ v _ ad _ b (NDIRECT + j)); try done; try lia; [apply W|apply F|apply U; [lia|by left]|].
      intros b' Hb' Hu. apply U; [lia|by right].
    + intros k Hk Hk0. rewrite Fa by done. case_decide; [congruence|done].
    + intros k Hk Hk0 H0. rewrite Fa in * by done. case_decide; [apply F|congruence].
    + intros b' Hb'. unfold v'. rewrite upd_ne; [by apply (fb_meta _ _ _ F)|lia].
    + intros b' Hb' Hu. apply U; [done|by right].
    + intros b' Hb' Hu Hf. unfold v'. rewrite upd_ne; [by apply (fb_keep _ _ _ F)|]. exact (Hf MAXFILE position_max).
  - rewrite Fa by done. rewrite decide_True by done. lia.
  - intros k Hk Hk'. rewrite Fa by (unfold position; lia). by rewrite decide_False.
  - intros b' Hb' Hu Hb''. unfold v'. rewrite upd_ne by (by intros <-). by apply F.
  - intros _. split; [unfold v'; rewrite upd_ne by done; apply alloc_eq|]. unfold L'. clear. set_solver.
  - done.
  - rewrite E0. simpl. unfold fcost, ind_cost. fold ad ind.
    assert (C1 := cost_add M (L ∪ {[BBLOCK b (sb s)]}) b). rewrite (cost_in M L) in C1 by (apply Hm, F).
    assert (C2 := cost_add M (L ∪ {[BBLOCK b (sb s)]} ∪ {[b]}) ind). fold L' in C2.
    rewrite (decide_True (P := ind ≠ 0 /\ ind ∈ L')) by (split; [done|unfold L'; clear; set_solver]).
    case_decide as Hl; [|lia]. unfold L'. rewrite cost_logged; [lia|]. clear -Hl. set_solver.
  - rewrite E0. simpl. unfold ffree. fold ind. replace (nfree (sb s) v') with (nfree (sb s) v - 1); [lia|].
    rewrite <- (fb_nfree _ _ _ F). unfold nfree. f_equal. apply filter_ext_in. intros b' Hb'.
    apply elem_of_seqZ in Hb'. rewrite U, (fb_used _ _ _ F) by lia. done.
Qed.

Lemma faddr_indirect v ad j : 0 <= j < NINDIRECT -> rd 0 ad NDIRECT ≠ 0 ->
  faddr v ad (NDIRECT + j) = get32 (v (rd 0 ad NDIRECT)) (4 * j).
Proof.
  intros Hj Hi. unfold faddr. destruct (Z.ltb_spec (NDIRECT + j) NDIRECT); [lia|].
  destruct (Z.ltb_spec (NDIRECT + j) MAXFILE); [|unfold MAXFILE in *; lia].
  destruct (Z.eqb_spec (rd 0 ad NDIRECT) 0); [done|]. do 2 f_equal. lia.
Qed.

(** The part of [bmap] that goes through the indirect block. *)
Definition bmap_entry (dev ind bn : Z) : M (fstate S) Z :=
  bp ← bread' dev ind;
  a ← data' bp;
  addr ← (let addr := get32 a (4 * bn) in
          if addr =? 0 then
            addr ← balloc dev;
            a ← data' bp;
            set_data' bp (put32 a (4 * bn) addr);;
            log_write' bp;;
            mret addr
          else mret addr);
  brelse' bp;;
  mret addr.

Lemma fits_le s M L k k' : fits s M L k -> k' <= k -> fits s M L k'.
Proof. intros [Hm Hf] Hk. split; [done|lia]. Qed.

Lemma size_add_one' (L : gset Z) b : Z.of_nat (size (L ∪ {[b]})) <= Z.of_nat (size L) + 1.
Proof.
  assert (X := size_union_alt L {[b]}).
  assert (Y : (size ({[b]} ∖ L) <= size ({[b]} : gset Z))%nat) by (apply subseteq_size; set_solver).
  rewrite size_singleton in Y. lia.
Qed.

Lemma wp_bmap_entry s v M L ip j (Q : Z -> fstate S -> Prop) :
  let ad := addrs (inode_at s ip) in
  let ind := rd 0 ad NDIRECT in
  fs_rep s v L ∅ -> (ip < length (icache s))%nat -> file_wf (sb s) v ad ->
  0 <= j < NINDIRECT -> ind ≠ 0 -> Z.of_nat (size L) <= 28 ->
  (faddr v ad (NDIRECT + j) = 0 -> fits s M L 2 /\ 0 < nfree (sb s) v) ->
  (forall a s' v' L', bmap_post s s' ip v v' M L L' ad ad (NDIRECT + j) a -> Q a s') ->
  wp (bmap_entry ROOTDEV ind j) Q s.
Proof.
  intros ad ind R Hip W Hj Hi Hl Hr HQ.
  assert (G := fr_geom _ _ _ _ R). assert (P := meta_pos _ _ G). assert (Hsz := fg_size _ _ G).
  destruct (fw_data _ _ _ W MAXFILE position_max Hi) as [Hid Hiu]. rewrite faddr_ind in Hid, Hiu. fold ind in Hid, Hiu.
  assert (Bi : is_block (v ind)) by (eapply fr_block; [exact R|lia]).
  assert (Ef := faddr_indirect v ad j Hj Hi). fold ind in Ef.
  unfold bmap_entry. wp_step. eapply wp_bread'; [exact R|lia|done|rewrite map_size_empty; lia|].
  intros bp t _ Et Rt. rewrite insert_empty in Rt. wp_step.
  eapply wp_data'; [exact Rt|apply lookup_singleton_eq|]. rewrite <- Ef. wp_step. cbv zeta.
  destruct (Z.eqb_spec (faddr v ad (NDIRECT + j)) 0) as [E0|E0].
  - destruct (Hr E0) as [Hf Hn]. wp_step.
    assert (Sz := fits_size _ _ _ _ Hf).
    eapply (wp_balloc _ _ M); [exact Rt| |by rewrite map_size_singleton|apply fits_env; [apply (fits_le s M L 2); [done|lia]|done]
      |by apply nfree_first|].
    { intros i b E. apply lookup_singleton_Some in E as [_ <-]. done. }
    intros b t1 Fb Et1 Rt1. simpl in Fb, Rt1. assert (F := fresh_block_intro _ _ _ _ _ R Fb).
    change (set_blk t1 _) with (set_blk t1 s) in *.
    assert (E1 : env (set_blk t1 s) = env s) by exact (eq_trans Et1 Et).
    wp_step. eapply wp_data'; [exact Rt1|apply lookup_singleton_eq|].
    rewrite (fb_keep _ _ _ F ind Hid Hiu). apply wp_assoc. wp_step.
    assert (Y := fits_size _ _ _ _ (fits_bmap _ _ _ _ b Hf ltac:(destruct F; lia))).
    assert (X := size_add_one' (L ∪ {[BBLOCK b (sb s)]}) b).
    eapply wp_store; [exact Rt1|apply lookup_singleton_eq| |rewrite E1; by apply (data_writable _ _ G)
      |rewrite E1; lia|lia| |].
    { apply put32_block; [done|lia|unfold NINDIRECT, BSIZE in *; change (512 / 4) with 128 in *; lia]. }
    { simpl. intros b' Hb' Hu. apply (used_upd_data s); [done|lia|lia|done]. }
    intros t2 Et2 Rt2. simpl in Rt2. wp_step. wp_step.
    eapply wp_brelse'; [exact Rt2|apply lookup_singleton_eq|].
    intros t3 Et3 Rt3. rewrite delete_singleton_eq in Rt3. wp_step.
    change (set_blk t3 _) with (set_blk t3 s) in *.
    assert (E3 : env (set_blk t3 s) = env s) by exact (eq_trans Et3 (eq_trans Et2 E1)).
    apply (HQ b _ (upd (alloc (sb s) v b) ind (put32 (v ind) (4 * j) b))
             (L ∪ {[BBLOCK b (sb s)]} ∪ {[b]} ∪ {[ind]})).
    apply bmap_post_entry; try done. apply (fits_le s M L 2); [done|lia].
  - wp_step. wp_step. eapply wp_brelse'; [exact Rt|apply lookup_singleton_eq|].
    intros t1 Et1 Rt1. rewrite delete_singleton_eq in Rt1. wp_step.
    change (set_blk t1 _) with (set_blk t1 s) in *.
    apply (HQ _ _ v L). apply bmap_post_same; try done. exact (eq_trans Et1 Et).
Qed.

(** There is log space for [k] more blocks of the file, and free blocks. *)
Definition ffits s (M L : gset Z) (ad : list Z) (k : Z) : Prop :=
  (forall b, 0 <= b < sb_size (sb s) -> BBLOCK b (sb s) ∈ M) /\ fcost M L ad + k <= fs_cap (env s).

Lemma ffits_fits s M L ad k : ffits s M L ad k -> fits s M L k.
Proof. intros [Hm Hf]. split; [done|]. unfold fcost in Hf. assert (X := ind_cost_bounds L ad). lia. Qed.

(** First the indirect block was allocated, then the block. *)
Lemma bmap_post_ind s s1 s2 ip v v2 M L L2 j b a :
  let ad := addrs (inode_at s ip) in
  let ad1 := wr ad NDIRECT b in
  let L1 := L ∪ {[BBLOCK b (sb s)]} ∪ {[b]} in
  (ip < length (icache s))%nat -> file_wf (sb s) v ad -> fresh_block s v b -> fs_rep s v L ∅ ->
  0 <= j < NINDIRECT -> rd 0 ad NDIRECT = 0 -> (forall b, 0 <= b < sb_size (sb s) -> BBLOCK b (sb s) ∈ M) ->
  file_step s s1 ip v (alloc (sb s) v b) L L1 ad ad1 ->
  bmap_post s1 s2 ip (alloc (sb s) v b) v2 M L1 L2 ad1 ad1 (NDIRECT + j) a ->
  bmap_post s s2 ip v v2 M L L2 ad ad1 (NDIRECT + j) a.
Proof.
  intros ad ad1 L1 Hip W F R Hj H0 Hm St1 [St2 Pa Po Pd Pz Ps Pc Pf].
  assert (P := meta_pos _ _ (fr_geom _ _ _ _ R)). assert (Hl := fw_len _ _ _ W).
  assert (Esb := gs_sb _ _ _ _ _ _ _ _ _ St1). rewrite Esb in *.
  assert (Fa := faddr_grown s v ad NDIRECT b). unfold entry_pos in Fa. rewrite Z.eqb_refl in Fa. fold ad1 in Fa.
  assert (Hp : position (NDIRECT + j)) by (unfold position, MAXFILE, NDIRECT; lia).
  assert (E0 : faddr v ad (NDIRECT + j) = 0).
  { unfold faddr. rewrite H0. destruct (Z.ltb_spec (NDIRECT + j) NDIRECT); [lia|].
    destruct (Z.ltb_spec (NDIRECT + j) MAXFILE); [done|unfold MAXFILE in *; lia]. }
  assert (E1 : faddr (alloc (sb s) v b) ad1 (NDIRECT + j) = 0).
  { rewrite Fa by (done || unfold NDIRECT; lia). rewrite decide_False by (unfold MAXFILE; lia). done. }
  assert (Ei : rd 0 ad1 NDIRECT = b) by (apply rd_wr_eq; rewrite Hl; unfold NDIRECT; lia).
  rewrite E1 in Pc, Pf. simpl in Pc, Pf. split.
  - by eapply (file_step_trans s s1 s2).
  - done.
  - intros k Hk Hne. rewrite Po by done. rewrite Fa by (done || (unfold position, NDIRECT; lia)).
    by rewrite decide_False by lia.
  - intros b' Hb' Hu _. rewrite Pd; [by apply F|done|apply F; [lia|by right]|].
    rewrite Ei. intros ->. by apply (fb_unused _ _ _ F).
  - intros _. by apply Pz.
  - done.
  - rewrite E0. simpl. etransitivity; [exact Pc|]. apply Zplus_le_compat_r. unfold fcost, ind_cost.
    rewrite Ei, H0. rewrite decide_True, decide_False.
    + assert (C := cost_add M (L ∪ {[BBLOCK b (sb s)]}) b). rewrite (cost_in M L) in C by (apply Hm, F).
      fold L1 in C. lia.
    + naive_solver.
    + split; [destruct F; lia|unfold L1; clear; set_solver].
  - rewrite E0. simpl. etransitivity; [|exact Pf]. unfold ffree. rewrite Ei, H0.
    rewrite (fb_nfree _ _ _ F). destruct (Z.eqb_spec b 0) as [E|]; [destruct F; lia|]. simpl. lia.
Qed.

Lemma wp_bmap s v M L ip bn (Q : Z -> fstate S -> Prop) :
  let ad := addrs (inode_at s ip) in
  fs_rep s v L ∅ -> (ip < length (icache s))%nat -> idev (inode_at s ip) = ROOTDEV ->
  file_wf (sb s) v ad -> 0 <= bn < MAXFILE -> Z.of_nat (size L) <= 28 ->
  (faddr v ad bn = 0 -> ffits s M L ad 2 /\ 1 <= ffree (sb s) v ad) ->
  (forall a s' v' L' ad', bmap_post s s' ip v v' M L L' ad ad' bn a -> Q a s') ->
  wp (bmap ip bn) Q s.
Proof.
  intros ad R Hip Hdev W Hbn Hl Hr HQ. unfold bmap. wp_step. wp_step. fold ad.
  destruct (Z.ltb_spec bn NDIRECT) as [Hd|Hd].
  - assert (Ef : faddr v ad bn = rd 0 ad bn) by (unfold faddr; destruct (Z.ltb_spec bn NDIRECT); [done|lia]).
    rewrite <- Ef. destruct (Z.eqb_spec (faddr v ad bn) 0) as [E0|E0].
    + destruct (Hr E0) as [Hf Hn]. assert (Hf1 : fits s M L 1) by (apply (fits_le s M L 2); [by eapply ffits_fits|lia]).
      eapply (wp_grow s v M L); try done; [lia|exact (eq_trans (eq_sym Ef) E0)|unfold ffree in Hn; destruct (_ =? _); lia|].
      intros b s' F St. eapply HQ. apply bmap_post_grow; try done; [lia|exact (eq_trans (eq_sym Ef) E0)].
    + wp_step. eapply HQ. assert (Es : set_blk (blk s) s = s) by by destruct s.
      assert (X := bmap_post_same s (blk s) ip v M L bn Hip W eq_refl). rewrite Es in X. by apply X.
  - destruct (Z.ltb_spec (bn - NDIRECT) NINDIRECT) as [Hj|]; [|unfold MAXFILE in *; lia].
    assert (Eb : bn = NDIRECT + (bn - NDIRECT)) by lia. rewrite Eb in Hr, HQ.
    set (j := bn - NDIRECT) in *. assert (Hj' : 0 <= j < NINDIRECT) by lia. clearbody j. clear Eb Hbn Hd Hj bn.
    wp_step. cbv zeta. rewrite Hdev.
    destruct (Z.eqb_spec (rd 0 ad NDIRECT) 0) as [E0|E0].
    + assert (Ez : faddr v ad (NDIRECT + j) = 0).
      { unfold faddr. rewrite E0. destruct (Z.ltb_spec (NDIRECT + j) NDIRECT); [lia|].
        destruct (Z.ltb_spec (NDIRECT + j) MAXFILE); [done|unfold MAXFILE in *; lia]. }
      destruct (Hr Ez) as [Hf Hn]. unfold ffree in Hn. rewrite E0 in Hn. simpl in Hn.
      rewrite <- Hdev.
      eapply (wp_grow s v M L); try done; [apply (fits_le s M L 2); [by eapply ffits_fits|lia]|lia|].
      intros b s1 F St. fold ad in St. destruct (file_step_inode _ _ _ _ _ _ _ _ _ Hip St) as [Ei1 Hip1].
      assert (Esb := gs_sb _ _ _ _ _ _ _ _ _ St). assert (Een := gs_env _ _ _ _ _ _ _ _ _ St).
      assert (Er : rd 0 (wr ad NDIRECT b) NDIRECT = b) by (apply rd_wr_eq; rewrite (fw_len _ _ _ W); unfold NDIRECT; lia).
      assert (C := cost_add M (L ∪ {[BBLOCK b (sb s)]}) b).
      rewrite (cost_in M L) in C by (apply (proj1 Hf), F).
      destruct Hf as [Hm Hf]. unfold fcost, ind_cost in Hf. rewrite E0 in Hf.
      rewrite decide_False in Hf by naive_solver.
      assert (Hf2 : fits s1 M (L ∪ {[BBLOCK b (sb s)]} ∪ {[b]}) 2).
      { split; [by rewrite Esb|]. rewrite Een. lia. }
      rewrite Hdev. rewrite <- Er at 1.
      replace (wr ad NDIRECT b) with (addrs (inode_at s1 ip)) by (by rewrite Ei1).
      eapply (wp_bmap_entry s1 (alloc (sb s) v b) M); rewrite ?Ei1; simpl; rewrite ?Esb.
      * apply St.
      * done.
      * apply St.
      * done.
      * rewrite Er. destruct F; lia.
      * apply (fits_size _ _ _ _) in Hf2. lia.
      * intros _. split; [done|]. rewrite (fb_nfree _ _ _ F). lia.
      * intros a s2 v2 L2 Bp. eapply HQ. by eapply bmap_post_ind.
    + wp_step. eapply (wp_bmap_entry s v M L ip j); try done.
      * intros Ez. destruct (Hr Ez) as [Hf Hn]. split; [by eapply ffits_fits|].
        unfold ffree in Hn. destruct (_ =? _); lia.
      * intros a s' v' L' Bp. by eapply HQ.
Qed.
End steps.

(** ** The bytes of a file *)

Definition fbyte (view : Z -> block) (ad : list Z) (i : Z) : Z :=
  rd 0 (view (faddr view ad (i / BSIZE))) (i mod BSIZE).

(** Every block below byte [n] is allocated. *)
Definition mapped (view : Z -> block) (ad : list Z) (n : Z) : Prop :=
  forall k, 0 <= k -> k * BSIZE < n -> faddr view ad k ≠ 0.

(** The first [n] bytes of the file. *)
Definition contents (view : Z -> block) (ad : list Z) (n : Z) : list Z :=
  fbyte view ad <$> seqZ 0 n.

Lemma zlen_contents view ad n : 0 <= n -> zlen (contents view ad n) = n.
Proof. intros. unfold contents, zlen. rewrite length_fmap, length_seqZ. lia. Qed.

Lemma rd_contents view ad n i : 0 <= i < n -> rd 0 (contents view ad n) i = fbyte view ad i.
Proof. intros. unfold contents. by rewrite rd_fmap_seqZ. Qed.

Lemma slice_contents view ad n off m : 0 <= off -> 0 <= m -> off + m <= n ->
  slice (contents view ad n) off m = fbyte view ad <$> seqZ off m.
Proof.
  intros Ho Hm Hn. apply (rd_ext 0).
  - rewrite length_slice by (rewrite ?zlen_contents; lia). by rewrite length_fmap, length_seqZ.
  - intros i. rewrite zlen_slice by (rewrite ?zlen_contents; lia). intros Hi.
    rewrite rd_slice by lia. rewrite rd_contents by lia. by rewrite rd_fmap_seqZ.
Qed.

(** A run of bytes inside one block. *)
Lemma block_bytes view ad off m d : is_block d -> view (faddr view ad (off / BSIZE)) = d ->
  0 <= off -> 0 <= m -> off mod BSIZE + m <= BSIZE ->
  slice d (off mod BSIZE) m = fbyte view ad <$> seqZ off m.
Proof.
  intros [Hd _] E Ho Hm Hb. assert (0 <= off mod BSIZE < BSIZE) by (by apply Z.mod_pos_bound).
  apply (rd_ext 0).
  - rewrite length_slice by lia. by rewrite length_fmap, length_seqZ.
  - intros i. rewrite zlen_slice by lia. intros Hi. rewrite rd_slice by lia. rewrite rd_fmap_seqZ by lia.
    unfold fbyte. unfold BSIZE in *. replace ((off + i) / 512) with (off / 512) by mlia. rewrite E.
    f_equal. mlia.
Qed.

Section readi.
Context {S : Type} {BS : BlockStore S} {BL : BlockStoreLaws S}.
Implicit Types (s : fstate S).

(** Only the layers below changed. *)
Definition quiet s s' : Prop :=
  env s' = env s /\ sb s' = sb s /\ fpid s' = fpid s /\ icache s' = icache s.

Lemma quiet_trans s1 s2 s3 : quiet s1 s2 -> quiet s2 s3 -> quiet s1 s3.
Proof. intros (? & ? & ? & ?) (? & ? & ? & ?). split_and!; congruence. Qed.

Lemma bmap_quiet s s' ip v v' M L L' ad' bn a :
  let ad := addrs (inode_at s ip) in
  (ip < length (icache s))%nat -> faddr v ad bn ≠ 0 ->
  bmap_post s s' ip v v' M L L' ad ad' bn a ->
  quiet s s' /\ fs_rep s' v L ∅ /\ a = faddr v ad bn.
Proof.
  intros ad Hip Hne [St [Pa _] _ _ _ Ps _ _]. destruct (Ps Hne) as (-> & -> & ->).
  split; [|split; [apply St|done]]. destruct St as [_ E1 E2 E3 E4 _ _ _ _ _ _].
  split_and!; try done. rewrite E4. symmetry. by apply icache_same.
Qed.

(** A file whose inode is in the cache. *)
Record open_file s (ip : nat) (v : Z -> block) : Prop := {
  of_cached : (ip < length (icache s))%nat;
  of_dev : idev (inode_at s ip) = ROOTDEV;
  of_wf : file_wf (sb s) v (addrs (inode_at s ip));
  of_size : 0 <= isize (inode_at s ip) <= MAXFILE * BSIZE;
  of_mapped : mapped v (addrs (inode_at s ip)) (isize (inode_at s ip))
}.

Lemma open_file_quiet s s' ip v : quiet s s' -> open_file s ip v -> open_file s' ip v.
Proof.
  intros (_ & E2 & _ & E4) [C D W Z0 Mp].
  assert (Ei : inode_at s' ip = inode_at s ip) by (unfold inode_at; by rewrite E4).
  split; rewrite ?Ei, ?E4, ?E2; done.
Qed.

Lemma wp_readi_loop s v L ip fuel off tot n :
  fs_rep s v L ∅ -> open_file s ip v -> Z.of_nat (size L) <= 28 ->
  0 <= off -> off + (n - tot) <= isize (inode_at s ip) -> n - tot <= Z.of_nat fuel ->
  wp (readi_loop fuel ip off tot n)
     (fun bs s' => bs = (fbyte v (addrs (inode_at s ip)) <$> seqZ off (n - tot)) /\ quiet s s' /\ fs_rep s' v L ∅) s.
Proof.
  revert s off tot. induction fuel as [|fuel IH]; intros s off tot R O Hl Ho Hn Hf; cbn [readi_loop].
  all: destruct (Z.ltb_spec tot n) as [Hlt|Hge].
  1: lia.
  1, 3: wp_step; unfold seqZ; replace (Z.to_nat (n - tot)) with 0%nat by lia; done.
  assert (W := of_wf _ _ _ O). assert (Hsz := of_size _ _ _ O).
  assert (Hne : faddr v (addrs (inode_at s ip)) (off / BSIZE) ≠ 0).
  { apply (of_mapped _ _ _ O); [by apply Z.div_pos|unfold BSIZE; mlia]. }
  assert (Hk : 0 <= off / BSIZE < MAXFILE).
  { split; [by apply Z.div_pos|]. apply Z.div_lt_upper_bound; [done|]. unfold BSIZE in *. lia. }
  wp_step. wp_step. wp_step.
  eapply (wp_bmap s v ∅ L); try done; try apply O.
  intros a s1 v1 L1 ad1 Bp. apply bmap_quiet in Bp as (Qt & R1 & ->); [|apply O|done].
  assert (Qt' := Qt). destruct Qt' as (Ee & Es & Ep & Ei).
  destruct (fw_data _ _ _ W (off / BSIZE)) as [Hd _]; [unfold position; lia|done|].
  assert (G := fr_geom _ _ _ _ R). assert (Hgs := fg_size _ _ G). assert (P := meta_pos _ _ G).
  wp_step. rewrite (of_dev _ _ _ O). eapply wp_bread'; [exact R1|rewrite Ee; lia|done|rewrite map_size_empty; lia|].
  intros bp t _ Et Rt. rewrite insert_empty in Rt. wp_step.
  eapply wp_data'; [exact Rt|apply lookup_singleton_eq|]. cbv zeta. wp_step.
  eapply wp_brelse'; [exact Rt|apply lookup_singleton_eq|]. intros t1 Et1 Rt1.
  rewrite delete_singleton_eq in Rt1. change (set_blk t1 _) with (set_blk t1 s1) in *.
  assert (Qt1 : quiet s (set_blk t1 s1)).
  { eapply quiet_trans; [exact Qt|]. split; [exact (eq_trans Et1 Et)|done]. }
  assert (Ein : inode_at (set_blk t1 s1) ip = inode_at s ip) by (unfold inode_at; simpl; by rewrite Ei).
  assert (Hm := Z.mod_pos_bound off BSIZE eq_refl).
  set (m := Z.min (n - tot) (BSIZE - off mod BSIZE)).
  wp_step. eapply wp_mono.
  { apply (IH (set_blk t1 s1)); [done|by eapply open_file_quiet|done|lia|rewrite Ein; lia|lia]. }
  rewrite Ein. intros rest s2 (-> & Q2 & R2). wp_step. split; [|split; [by eapply quiet_trans|done]].
  rewrite (block_bytes v (addrs (inode_at s ip))); try done; try lia.
  - rewrite <- fmap_app. f_equal. replace (n - (tot + m)) with (n - tot - m) by lia.
    rewrite <- seqZ_app by lia. f_equal. lia.
  - eapply fr_block; [exact R|]. lia.
Qed.

Lemma maxfile_bytes : MAXFILE * BSIZE = 71680.
Proof. reflexivity. Qed.

(** [readi] of a file or directory. *)
Lemma wp_readi devsw s v L ip off n :
  fs_rep s v L ∅ -> open_file s ip v -> Z.of_nat (size L) <= 28 -> itype (inode_at s ip) ≠ T_DEV ->
  is_u32 off -> is_u32 n ->
  let i := inode_at s ip in
  let len := Z.min n (isize i - off) in
  wp (readi devsw ip off n)
     (fun r s' => quiet s s' /\ fs_rep s' v L ∅ /\
        r = if decide (off <= isize i /\ off + n < 2 ^ 32)
            then (len, slice (contents v (addrs i) (isize i)) off len) else (-1, [])) s.
Proof.
  intros R O Hl Ht Ho Hn i len. assert (Hsz := of_size _ _ _ O). rewrite maxfile_bytes in Hsz. fold i in Hsz.
  unfold readi. wp_step. wp_step. fold i. cbv zeta.
  destruct (Z.eqb_spec (itype i) T_DEV); [done|].
  destruct (Z.ltb_spec (isize i) off) as [H1|H1]; simpl.
  { wp_step. split; [done|]. split; [done|]. by rewrite decide_False by lia. }
  destruct (Z.ltb_spec (u32 (off + n)) off) as [H2|H2].
  { wp_step. split; [done|]. split; [done|]. rewrite decide_False; [done|]. mlia. }
  assert (Hs : off + n < 2 ^ 32) by mlia. rewrite u32_id by mlia. rewrite decide_True by done.
  assert (El : (if isize i <? off + n then isize i - off else n) = len).
  { unfold len. destruct (Z.ltb_spec (isize i) (off + n)); lia. }
  rewrite El. wp_step. eapply wp_mono.
  { apply (wp_readi_loop s v L); try done; [mlia|fold i; lia|lia]. }
  fold i. intros bs s' (-> & Qt & R'). wp_step. split; [done|]. split; [done|].
  rewrite Z.sub_0_r, slice_contents by mlia. f_equal. apply s32_id. mlia.
Qed.
End readi.

(** ** Writing *)

Section writei.
Context {S : Type} {BS : BlockStore S} {BL : BlockStoreLaws S}.
Implicit Types (s : fstate S).

(** The number of blocks that [n] bytes at [off] touch. *)
Definition nblocks (off n : Z) : Z :=
  if 0 <? n then (off + n - 1) / BSIZE - off / BSIZE + 1 else 0.

Lemma nblocks_step off n m : 0 <= off -> 0 < n -> m = Z.min n (BSIZE - off mod BSIZE) ->
  nblocks off n = 1 + nblocks (off + m) (n - m).
Proof.
  intros Ho Hn ->. unfold nblocks, BSIZE.
  destruct (Z.ltb_spec 0 n); [|lia]. destruct (Z.ltb_spec 0 (n - Z.min n (512 - off mod 512))) as [H1|H1].
  - replace (off + Z.min n (512 - off mod 512)) with ((off / 512 + 1) * 512) by mlia.
    replace (off + n - 1) with ((off / 512 + 1) * 512 + (n - Z.min n (512 - off mod 512)) - 1) at 1 by mlia.
    rewrite Z.div_mul by lia. lia.
  - mlia.
Qed.

(** From [s] to [s'], the bytes [ls] were written to the file at [off]. *)
Record write_post s s' (ip : nat) (v v' : Z -> block) (M L L' : gset Z) (ad ad' : list Z) (off : Z) (ls : list Z)
  : Prop := {
  wr_step : file_step s s' ip v v' L L' ad ad';
  wr_bytes : forall i, 0 <= i < MAXFILE * BSIZE -> faddr v' ad' (i / BSIZE) ≠ 0 ->
    fbyte v' ad' i = if decide (off <= i < off + zlen ls) then rd 0 ls (i - off)
                     else if decide (faddr v ad (i / BSIZE) = 0) then 0 else fbyte v ad i;
  wr_mapped : forall i, off <= i < off + zlen ls -> faddr v' ad' (i / BSIZE) ≠ 0;
  wr_same : (forall i, off <= i < off + zlen ls -> faddr v ad (i / BSIZE) ≠ 0) -> ad' = ad;
  wr_cost : fcost M L' ad' <= fcost M L ad + nblocks off (zlen ls);
  wr_free : ffree (sb s) v ad - nblocks off (zlen ls) <= ffree (sb s) v' ad'
}.

(** A block of the file is overwritten. *)
Lemma file_step_data s (t : S) ip v L k d :
  let ad := addrs (inode_at s ip) in
  let a := faddr v ad k in
  fs_rep s v L ∅ -> (ip < length (icache s))%nat -> file_wf (sb s) v ad -> 0 <= k < MAXFILE -> a ≠ 0 ->
  bs_env t = env s -> fs_rep (set_blk t s) (upd v a d) (L ∪ {[a]}) ∅ ->
  (forall j, faddr (upd v a d) ad j = faddr v ad j) /\
  file_step s (set_blk t s) ip v (upd v a d) L (L ∪ {[a]}) ad ad.
Proof.
  intros ad a R Hip W Hk Ha Et Rt. assert (G := fr_geom _ _ _ _ R). assert (P := meta_pos _ _ G).
  assert (Hp : position k) by (unfold position; lia).
  destruct (fw_data _ _ _ W k Hp Ha) as [Hd Hu]. fold a in Hd, Hu.
  assert (Hi : rd 0 ad NDIRECT ≠ a).
  { intros E. assert (X := fw_inj _ _ _ W k MAXFILE Hp position_max Ha). rewrite faddr_ind in X.
    specialize (X (eq_sym E)). lia. }
  assert (Fa : forall j, faddr (upd v a d) ad j = faddr v ad j).
  { intros j. apply faddr_view. right. apply upd_ne. exact (not_eq_sym Hi). }
  assert (U : forall b, 0 <= b < sb_size (sb s) -> used (sb s) (upd v a d) b <-> used (sb s) v b).
  { intros b Hb. apply used_upd_data; [done|lia|done]. }
  split; [done|]. split; try done.
  - exact (icache_same s ip Hip).
  - destruct W as [Wl Wd Wi]. split; [done| |].
    + intros j Hj. rewrite Fa. intros Hj0. destruct (Wd j Hj Hj0). split; [done|]. apply U; [lia|done].
    + intros j j' Hj Hj'. rewrite !Fa. by apply Wi.
  - intros j Hj Hj0 H0. rewrite Fa in Hj0. done.
  - intros b Hb. apply upd_ne. lia.
  - intros b Hb Hub. by apply U.
  - intros b Hb Hub Hf. apply upd_ne. intros E. by apply (Hf k Hp).
Qed.

Lemma fcost_add M L ad a : fcost M (L ∪ {[a]}) ad <= fcost M L ad + 1.
Proof.
  unfold fcost, ind_cost. assert (C := cost_add M L a).
  repeat case_decide; try lia. exfalso. clear -H H0. set_solver.
Qed.

(** The bytes after [ls] was stored into block [k] of the file. *)
Lemma fbyte_store (v v1 v2 : Z -> block) (ad ad1 : list Z) (k a off : Z) (ls : list Z) i :
  is_block (v1 a) -> 0 <= off -> off mod BSIZE + zlen ls <= BSIZE -> k = off / BSIZE ->
  v2 = upd v1 a (blit (v1 a) (off mod BSIZE) ls) -> (forall j, faddr v2 ad1 j = faddr v1 ad1 j) ->
  faddr v1 ad1 k = a -> (faddr v ad k = 0 -> v1 a = zero_block) -> (faddr v ad k ≠ 0 -> v1 = v /\ ad1 = ad) ->
  (i / BSIZE ≠ k -> fbyte v2 ad1 i = if decide (faddr v ad (i / BSIZE) = 0) then 0 else fbyte v ad i) ->
  0 <= i ->
  fbyte v2 ad1 i = if decide (off <= i < off + zlen ls) then rd 0 ls (i - off)
                   else if decide (faddr v ad (i / BSIZE) = 0) then 0 else fbyte v ad i.
Proof.
  intros [Bz Bf] Ho Hm Hk E2 Fa Ea Hz Hs Hother Hi0. assert (Hz0 := zlen_nonneg ls).
  assert (Hom := Z.mod_pos_bound off BSIZE eq_refl).
  destruct (decide (i / BSIZE = k)) as [Ei|Ei].
  - unfold fbyte at 1. rewrite Fa, Ei, Ea, E2, upd_eq.
    assert (Hio : i - off = i mod BSIZE - off mod BSIZE) by (unfold BSIZE in *; mlia).
    destruct (decide (off <= i < off + zlen ls)) as [Hr|Hr].
    + rewrite rd_blit_in by lia. f_equal. lia.
    + rewrite rd_blit_out by lia. destruct (decide (faddr v ad k = 0)) as [E0|E0].
      * rewrite (Hz E0). unfold zero_block. apply rd_replicate. change (Z.of_nat (Z.to_nat BSIZE)) with BSIZE.
        by apply Z.mod_pos_bound.
      * destruct (Hs E0) as [-> ->]. unfold fbyte. by rewrite Ei, Ea.
  - rewrite Hother by done. rewrite (decide_False (P := off <= i < off + zlen ls)); [done|].
    intros Hr. apply Ei. subst k. unfold BSIZE in *. mlia.
Qed.

Lemma write_post_block s s1 (t : S) ip v v1 M L L1 ad1 off ls a :
  let ad := addrs (inode_at s ip) in
  let k := off / BSIZE in
  let v2 := upd v1 a (blit (v1 a) (off mod BSIZE) ls) in
  fs_rep s v L ∅ -> (ip < length (icache s))%nat -> file_wf (sb s) v ad ->
  0 <= off -> 0 < zlen ls -> off mod BSIZE + zlen ls <= BSIZE -> 0 <= k < MAXFILE ->
  bmap_post s s1 ip v v1 M L L1 ad ad1 k a ->
  bs_env t = env s1 -> fs_rep (set_blk t s1) v2 (L1 ∪ {[a]}) ∅ ->
  write_post s (set_blk t s1) ip v v2 M L (L1 ∪ {[a]}) ad ad1 off ls.
Proof.
  intros ad k v2 R Hip W Ho Hls Hm Hk Bp Et Rt. destruct Bp as [St [Pa Pn] Po Pd Pz Ps Pc Pf].
  destruct (file_step_inode _ _ _ _ _ _ _ _ _ Hip St) as [Ei1 Hip1].
  assert (Ead : addrs (inode_at s1 ip) = ad1) by (by rewrite Ei1).
  assert (Esb := gs_sb _ _ _ _ _ _ _ _ _ St). assert (W1 := gs_wf _ _ _ _ _ _ _ _ _ St).
  assert (R1 := gs_rep _ _ _ _ _ _ _ _ _ St). assert (G := fr_geom _ _ _ _ R).
  assert (Hp : position k) by (unfold position; lia).
  assert (Hsd := fw_data _ _ _ W1 k Hp). rewrite <- Pa in Hsd. destruct (Hsd Pn) as [Hd _].
  assert (D := file_step_data s1 t ip v1 L1 k (blit (v1 a) (off mod BSIZE) ls)).
  cbv zeta in D. rewrite Ead, Esb in D. rewrite <- Pa in D.
  destruct D as [Fa St2]; try done. assert (Hb : nblocks off (zlen ls) = 1).
  { rewrite (nblocks_step off (zlen ls) (zlen ls)) by (done || (unfold BSIZE in *; lia)).
    unfold nblocks. rewrite Z.sub_diag. done. }
  split; rewrite ?Hb.
  - by eapply file_step_trans.
  - intros i Hi Hne. eapply (fbyte_store v v1 v2 ad ad1 k a); try done; try lia.
    + eapply fr_block; [exact R1|]. rewrite (gs_env _ _ _ _ _ _ _ _ _ St). assert (P := meta_pos _ _ G). destruct G; lia.
    + intros E0. by apply Pz.
    + intros E0. destruct (Ps E0) as (-> & _ & ->). done.
    + intros Hik. fold v2 in Fa. unfold fbyte at 1. rewrite Fa in *.
      assert (Hkr : 0 <= i / BSIZE < MAXFILE).
      { split; [apply Z.div_pos; [lia|done]|]. apply Z.div_lt_upper_bound; [done|lia]. }
      assert (Hp' : position (i / BSIZE)) by (unfold position; lia).
      rewrite Po in * by done. rewrite decide_False by done. unfold fbyte.
      destruct (fw_data _ _ _ W _ Hp' Hne) as [Hd' Hu'].
      unfold v2. rewrite upd_ne.
      * f_equal. apply Pd; [done|done|]. intros E. assert (X := fw_inj _ _ _ W _ MAXFILE Hp' position_max Hne).
        rewrite faddr_ind in X. specialize (X E). lia.
      * intros E. apply Hik. symmetry. apply (fw_inj _ _ _ W1 k (i / BSIZE) Hp Hp'); [by rewrite <- Pa|].
        rewrite <- Pa, Po by done. done.
  - intros i Hi. assert (Ek : i / BSIZE = k) by (unfold k, BSIZE in *; mlia). by rewrite Ek, Fa, <- Pa.
  - intros Hall. by destruct (Ps (Hall off ltac:(lia))) as (_ & _ & ->).
  - destruct (Z.eqb_spec (faddr v ad k) 0) as [E0|E0].
    + destruct (Pz E0) as [_ Hin]. replace (L1 ∪ {[a]}) with L1; [lia|]. clear -Hin. set_solver.
    + assert (X := fcost_add M L1 ad1 a). lia.
  - etransitivity; [|etransitivity; [exact Pf|]]; [destruct (_ =? _); lia|].
    unfold ffree. apply Z.sub_le_mono; [|done]. apply Z.eq_le_incl. unfold nfree. f_equal. apply filter_ext_in.
    intros b Hb'. apply elem_of_seqZ in Hb'. unfold v2. assert (X := used_upd_data s v1 a (blit (v1 a) (off mod BSIZE) ls) b G).
    rewrite X by lia. done.
Qed.

Lemma write_post_trans s1 s2 s3 ip v1 v2 v3 M L1 L2 L3 ad1 ad2 ad3 off ls1 ls2 :
  (ip < length (icache s1))%nat -> addrs (inode_at s1 ip) = ad1 -> file_wf (sb s1) v1 ad1 -> 0 <= off ->
  nblocks off (zlen (ls1 ++ ls2)) = nblocks off (zlen ls1) + nblocks (off + zlen ls1) (zlen ls2) ->
  off + zlen (ls1 ++ ls2) <= MAXFILE * BSIZE ->
  write_post s1 s2 ip v1 v2 M L1 L2 ad1 ad2 off ls1 ->
  write_post s2 s3 ip v2 v3 M L2 L3 ad2 ad3 (off + zlen ls1) ls2 ->
  write_post s1 s3 ip v1 v3 M L1 L3 ad1 ad3 off (ls1 ++ ls2).
Proof.
  intros Hip Ead W Ho Hnb Hmax [St1 B1 M1 S1 C1 F1] [St2 B2 M2 S2 C2 F2].
  assert (Hl : zlen (ls1 ++ ls2) = zlen ls1 + zlen ls2) by (unfold zlen; rewrite length_app; lia).
  assert (H1 := zlen_nonneg ls1). assert (H2 := zlen_nonneg ls2).
  assert (Esb := gs_sb _ _ _ _ _ _ _ _ _ St1). rewrite Esb in F2.
  assert (Hpos : forall i, 0 <= i < MAXFILE * BSIZE -> position (i / BSIZE)).
  { intros i Hi. split; [apply Z.div_pos; [lia|done]|]. apply Z.lt_le_incl, Z.div_lt_upper_bound; [done|lia]. }
  split; rewrite ?Hnb, ?Hl in *.
  - by eapply file_step_trans.
  - intros i Hi Hne. assert (Hp := Hpos i Hi). rewrite B2 by done.
    destruct (decide (off + zlen ls1 <= i < off + zlen ls1 + zlen ls2)) as [Hr|Hr].
    { rewrite decide_True by lia. unfold rd. repeat (case_decide; try lia).
      rewrite lookup_app_r by (unfold zlen in *; lia). do 2 f_equal. unfold zlen in *. lia. }
    destruct (decide (faddr v2 ad2 (i / BSIZE) = 0)) as [E2|E2].
    + destruct (decide (off <= i < off + (zlen ls1 + zlen ls2))) as [Hr'|Hr'].
      { destruct (M1 i); [lia|done]. }
      rewrite decide_True; [done|]. destruct (decide (faddr v1 ad1 (i / BSIZE) = 0)); [done|].
      by rewrite <- (gs_keep _ _ _ _ _ _ _ _ _ St1) in *.
    + rewrite B1 by done. destruct (decide (off <= i < off + zlen ls1)) as [Hr'|Hr'].
      * rewrite (decide_True (P := off <= i < off + (zlen ls1 + zlen ls2))) by lia.
        unfold rd. repeat (case_decide; try lia). by rewrite lookup_app_l by (unfold zlen in *; lia).
      * by rewrite (decide_False (P := off <= i < off + (zlen ls1 + zlen ls2))) by lia.
  - intros i Hi. destruct (decide (i < off + zlen ls1)) as [Hr|Hr]; [|apply M2; lia].
    assert (Hne := M1 i ltac:(lia)). rewrite (gs_keep _ _ _ _ _ _ _ _ _ St2); [done|apply Hpos; lia|done].
  - intros Hall. assert (E1 : ad2 = ad1) by (apply S1; intros i Hi; apply Hall; lia).
    rewrite <- E1. apply S2. intros i Hi.
    rewrite (gs_keep _ _ _ _ _ _ _ _ _ St1); [apply Hall; lia|apply Hpos; lia|apply Hall; lia].
  - lia.
  - lia.
Qed.

Lemma write_post_nil s ip v M L off :
  fs_rep s v L ∅ -> (ip < length (icache s))%nat -> file_wf (sb s) v (addrs (inode_at s ip)) ->
  write_post s s ip v v M L L (addrs (inode_at s ip)) (addrs (inode_at s ip)) off [].
Proof.
  intros R Hip W. assert (Es : set_blk (blk s) s = s) by by destruct s.
  assert (X := file_step_refl s (blk s) ip v L Hip W eq_refl). rewrite Es in X.
  assert (Hn : nblocks off 0 = 0) by done. change (@zlen Z []) with 0.
  split; change (@zlen Z []) with 0; rewrite ?Hn; try lia.
  - by apply X.
  - intros i Hi Hne. rewrite (decide_False (P := off <= i < off + 0)) by lia. by rewrite decide_False.
  - done.
Qed.

(** One iteration of the loop of [writei]. *)
Lemma wp_write_block {A} (k : M (fstate S) A) (Q : A -> fstate S -> Prop) s v M L ip off ls :
  let ad := addrs (inode_at s ip) in
  fs_rep s v L ∅ -> (ip < length (icache s))%nat -> idev (inode_at s ip) = ROOTDEV ->
  file_wf (sb s) v ad -> 0 <= off -> 0 < zlen ls -> Forall is_u8 ls -> off mod BSIZE + zlen ls <= BSIZE ->
  0 <= off / BSIZE < MAXFILE -> ffits s M L ad 2 -> 1 <= ffree (sb s) v ad ->
  (forall s' v' L' ad', write_post s s' ip v v' M L L' ad ad' off ls -> wp k Q s') ->
  wp (a ← bmap ip (off / BSIZE);
      bp ← bread' (idev (inode_at s ip)) a;
      d ← data' bp;
      set_data' bp (blit d (off mod BSIZE) ls);;
      log_write' bp;; brelse' bp;; k) Q s.
Proof.
  intros ad R Hip Hdev W Ho Hls Hu8 Hm Hk Hf Hn HQ.
  assert (Sz := fits_size _ _ _ _ (ffits_fits _ _ _ _ _ Hf)).
  wp_step. eapply (wp_bmap s v M L); try done; [lia|].
  intros a s1 v1 L1 ad1 Bp. assert (St := bp_step _ _ _ _ _ _ _ _ _ _ _ _ Bp).
  assert (Esb := gs_sb _ _ _ _ _ _ _ _ _ St). assert (Een := gs_env _ _ _ _ _ _ _ _ _ St).
  assert (R1 := gs_rep _ _ _ _ _ _ _ _ _ St). assert (W1 := gs_wf _ _ _ _ _ _ _ _ _ St).
  assert (G := fr_geom _ _ _ _ R). assert (P := meta_pos _ _ G). assert (Hsz := fg_size _ _ G).
  destruct (bp_addr _ _ _ _ _ _ _ _ _ _ _ _ Bp) as [Ea Hne].
  assert (Hp : position (off / BSIZE)) by (unfold position; lia).
  assert (Hsd := fw_data _ _ _ W1 _ Hp). rewrite <- Ea in Hsd. destruct (Hsd Hne) as [Hd _].
  assert (Hc : fcost M L1 ad1 <= fcost M L ad + 1).
  { assert (X := bp_cost _ _ _ _ _ _ _ _ _ _ _ _ Bp). fold ad in X. destruct (_ =? _); lia. }
  assert (Hl1 : Z.of_nat (size L1) + 1 <= fs_cap (env s)).
  { assert (X := cost_size M L1). assert (Y := ind_cost_bounds L1 ad1). unfold fcost in Hc. destruct Hf. unfold fcost in *. lia. }
  unfold fs_cap in Hl1. rewrite Hdev. wp_step.
  eapply wp_bread'; [exact R1|rewrite Een; lia|done|rewrite map_size_empty; lia|].
  intros bp t _ Et Rt. rewrite insert_empty in Rt. wp_step.
  eapply wp_data'; [exact Rt|apply lookup_singleton_eq|].
  assert (Et' : bs_env t = env s) by exact (eq_trans Et Een).
  assert (B1 : is_block (v1 a)) by (eapply fr_block; [exact R1|rewrite Een; lia]).
  assert (Hm0 := Z.mod_pos_bound off BSIZE eq_refl).
  eapply wp_store_release; [exact Rt|apply lookup_singleton_eq|apply blit_block; [done|lia|lia|done]
    |unfold env; simpl; rewrite Et'; by apply (data_writable _ _ G)|unfold env; simpl; rewrite Et'; unfold env in *; lia|lia| |].
  { simpl. rewrite Esb. intros b Hb Hu. apply (used_upd_data s); [done|lia|lia|done]. }
  intros t1 Et1 Rt1. rewrite delete_singleton_eq in Rt1. change (set_blk t1 (set_blk t s1)) with (set_blk t1 s1) in *.
  eapply HQ. eapply write_post_block; try done. exact (eq_trans Et1 Et).
Qed.

Lemma wp_writei_loop s v M L ip src fuel off tot n :
  let ad := addrs (inode_at s ip) in
  fs_rep s v L ∅ -> (ip < length (icache s))%nat -> idev (inode_at s ip) = ROOTDEV ->
  file_wf (sb s) v ad -> 0 <= off -> 0 <= tot <= n -> zlen src = n -> Forall is_u8 src ->
  off + (n - tot) <= MAXFILE * BSIZE -> n - tot <= Z.of_nat fuel ->
  ffits s M L ad (nblocks off (n - tot) + 1) -> nblocks off (n - tot) <= ffree (sb s) v ad ->
  wp (writei_loop fuel ip src off tot n)
     (fun off' s' => off' = off + (n - tot) /\
        exists v' L' ad', write_post s s' ip v v' M L L' ad ad' off (slice src tot (n - tot))) s.
Proof.
  revert s v L off tot. induction fuel as [|fuel IH];
    intros s v L off tot ad R Hip Hdev W Ho Ht Hsrc Hu8 Hmax Hfuel Hf Hn; cbn [writei_loop].
  all: destruct (Z.ltb_spec tot n) as [Hlt|Hge].
  1: lia.
  1, 3: wp_step; replace (n - tot) with 0 by lia; split; [lia|]; rewrite slice_nil;
    eexists _, _, _; by apply write_post_nil.
  assert (Hm := Z.mod_pos_bound off BSIZE eq_refl). set (m := Z.min (n - tot) (BSIZE - off mod BSIZE)).
  assert (Hnb := nblocks_step off (n - tot) m Ho ltac:(lia) eq_refl).
  assert (Hnn : 0 <= nblocks (off + m) (n - tot - m)).
  { unfold nblocks. destruct (Z.ltb_spec 0 (n - tot - m)); [|lia].
    assert ((off + m) / BSIZE <= (off + m + (n - tot - m) - 1) / BSIZE) by (apply Z.div_le_mono; [done|lia]). lia. }
  assert (Hsl : zlen (slice src tot m) = m) by (apply zlen_slice; lia).
  wp_step. wp_step. eapply (wp_write_block _ _ s v M L ip off); try done; try lia.
  { by apply slice_u8. }
  { split; [apply Z.div_pos; [lia|done]|]. apply Z.div_lt_upper_bound; [done|lia]. }
  { destruct Hf as [Hbm Hf]. split; [done|]. unfold ad in *. lia. }
  { unfold ad in *. lia. }
  intros s1 v1 L1 ad1 Wp. fold ad in Wp. destruct Wp as [St B1 M1 S1 C1 F1] eqn:EWp. clear EWp.
  destruct (file_step_inode _ _ _ _ _ _ _ _ _ Hip St) as [Ei1 Hip1].
  assert (Ead : addrs (inode_at s1 ip) = ad1) by (by rewrite Ei1).
  assert (Esb := gs_sb _ _ _ _ _ _ _ _ _ St). assert (Een := gs_env _ _ _ _ _ _ _ _ _ St).
  assert (Hn1 : nblocks off m = 1).
  { unfold nblocks, m, BSIZE in *. destruct (Z.ltb_spec 0 (Z.min (n - tot) (512 - off mod 512))); mlia. }
  rewrite Hsl, Hn1 in C1, F1. replace (n - tot - m) with (n - (tot + m)) in * by lia.
  eapply wp_mono.
  { apply (IH s1 v1 L1 (off + m) (tot + m)); rewrite ?Ead, ?Esb; try done; try lia.
    - apply St.
    - by rewrite Ei1.
    - apply St.
    - destruct Hf as [Hbm Hf]. split; [by rewrite Esb|]. rewrite Een. lia. }
  rewrite Ead. intros off' s2 (-> & v2 & L2 & ad2 & Wp2). split; [lia|]. exists v2, L2, ad2.
  replace (n - tot) with (m + (n - (tot + m))) by lia. rewrite slice_app by lia.
  assert (Hs2 : zlen (slice src (tot + m) (n - (tot + m))) = n - (tot + m)) by (apply zlen_slice; lia).
  assert (Hla : zlen (slice src tot m ++ slice src (tot + m) (n - (tot + m))) = n - tot).
  { unfold zlen in *. rewrite length_app. lia. }
  eapply (write_post_trans s s1 s2); try done.
  - rewrite Hla, Hsl, Hs2, Hn1, Hnb. done.
  - lia.
  - by rewrite Hsl.
Qed.
End writei.

(** ** Inodes on the disk *)

(** The on-disk inode number [i]. *)
Definition dinode_at (g : superblock) (view : Z -> block) (i : Z) : dinode :=
  get_dinode (view (IBLOCK i g)) (inode_off i).

Lemma inode_off_range i : 0 <= inode_off i /\ inode_off i + sizeof_dinode <= BSIZE.
Proof. unfold inode_off, IPB, sizeof_dinode, BSIZE. change (512 / 64) with 8. mlia. Qed.

(** Two inodes do not overlap. *)
Lemma inode_disjoint e g i j : fs_geom e g -> 0 <= i < sb_ninodes g -> 0 <= j < sb_ninodes g -> i ≠ j ->
  IBLOCK i g ≠ IBLOCK j g \/
  inode_off j + sizeof_dinode <= inode_off i \/ inode_off i + sizeof_dinode <= inode_off j.
Proof.
  intros G Hi Hj Hne. destruct (IBLOCK_range _ _ G i Hi) as [-> _]. destruct (IBLOCK_range _ _ G j Hj) as [-> _].
  unfold inode_off, IPB, sizeof_dinode, BSIZE. change (512 / 64) with 8.
  destruct (decide (i / 8 = j / 8)); [right|left; lia]. mlia.
Qed.

Section iupdate.
Context {S : Type} {BS : BlockStore S} {BL : BlockStoreLaws S}.
Implicit Types (s : fstate S).

Lemma used_upd_low s v b d b' : fs_geom (env s) (sb s) -> b < sb_bmapstart (sb s) ->
  0 <= b' < sb_size (sb s) -> used (sb s) (upd v b d) b' <-> used (sb s) v b'.
Proof.
  intros G Hb Hb'. unfold used. destruct (BBLOCK_range _ _ G b' Hb') as [_ ?].
  by rewrite upd_ne by lia.
Qed.

(** The blocks after the on-disk inode [i] became [di]. *)
Definition put_inode (g : superblock) (view : Z -> block) (i : Z) (di : dinode) : Z -> block :=
  upd view (IBLOCK i g) (put_dinode (view (IBLOCK i g)) (inode_off i) di).

Lemma dinode_at_put e g view i j di : fs_geom e g -> is_block (view (IBLOCK i g)) -> dinode_wf di ->
  0 <= i < sb_ninodes g -> 0 <= j < sb_ninodes g ->
  dinode_at g (put_inode g view i di) j = if decide (i = j) then di else dinode_at g view j.
Proof.
  intros G [Bz Bf] Wd Hi Hj. assert (Oi := inode_off_range i). assert (Oj := inode_off_range j).
  unfold dinode_at, put_inode. destruct (decide (i = j)) as [->|Hne].
  - rewrite upd_eq. apply get_put_dinode; [done|lia|lia].
  - destruct (decide (IBLOCK i g = IBLOCK j g)) as [E|E]; [|by rewrite upd_ne].
    rewrite <- E, upd_eq. apply get_put_dinode_ne; try done; try lia.
    destruct (inode_disjoint e g i j G Hi Hj Hne); [done|done].
Qed.

Lemma wp_iupdate s v L ip Q :
  let i := inode_at s ip in
  fs_rep s v L ∅ -> idev i = ROOTDEV -> 0 <= inum i < sb_ninodes (sb s) -> dinode_wf (dinode_of i) ->
  Z.of_nat (size L) + 1 <= fs_cap (env s) ->
  (forall t, bs_env t = env s ->
     fs_rep (set_blk t s) (put_inode (sb s) v (inum i) (dinode_of i)) (L ∪ {[IBLOCK (inum i) (sb s)]}) ∅ ->
     Q tt (set_blk t s)) ->
  wp (iupdate ip) Q s.
Proof.
  intros i R Hdev Hi Wd Hl HQ. assert (G := fr_geom _ _ _ _ R). assert (P := meta_pos _ _ G).
  destruct (IBLOCK_range _ _ G _ Hi) as [_ Hr]. assert (Hw := inode_writable _ _ G _ Hi).
  unfold fs_cap in Hl. assert (O := inode_off_range (inum i)).
  assert (B : is_block (v (IBLOCK (inum i) (sb s)))) by (eapply fr_block; [exact R|apply Hw]).
  unfold iupdate. wp_step. wp_step. fold i. rewrite Hdev. wp_step.
  eapply wp_bread'; [exact R|apply Hw|done|rewrite map_size_empty; lia|].
  intros bp t _ Et Rt. rewrite insert_empty in Rt. wp_step.
  eapply wp_data'; [exact Rt|apply lookup_singleton_eq|]. apply wp_assoc. wp_step.
  eapply wp_store; [exact Rt|apply lookup_singleton_eq|apply put_dinode_block; try done; lia
    |unfold env; simpl; by rewrite Et|unfold env in *; simpl; rewrite Et; lia|lia| |].
  { simpl. intros b Hb Hu. apply (used_upd_low s); [done|lia|destruct G; lia|done]. }
  intros t1 Et1 Rt1. eapply wp_brelse'; [exact Rt1|apply lookup_singleton_eq|].
  intros t2 Et2 Rt2. rewrite delete_singleton_eq in Rt2. change (set_blk t2 _) with (set_blk t2 s) in *.
  apply HQ; [|exact Rt2]. exact (eq_trans Et2 (eq_trans Et1 Et)).
Qed.
End iupdate.
