(* ===== verification/FsWrite.v ===== *)
(** * Reading and writing files (readi and writei of fs.c)

    The functional correctness of [writei] and [readi], with the frame: what
    belongs to other files does not change, and the inode on the disk is kept
    equal to the cached one. *)

From S2P Require Import Prelude Param Cstring SleepLock Layout BlockStore Fs FsBlocks FsFile.

Section writei.
Context {S : Type} {BS : BlockStore S} {BL : BlockStoreLaws S}.
Implicit Types (s : fstate S).

(** The cached inode has the contents of the inode on the disk. *)
Record coherent s (ip : nat) (v : Z -> block) : Prop := {
  co_inum : 0 < inum (inode_at s ip) < sb_ninodes (sb s);
  co_wf : dinode_wf (dinode_of (inode_at s ip));
  co_disk : dinode_at (sb s) v (inum (inode_at s ip)) = dinode_of (inode_at s ip)
}.

(** What [writei(ip, src, off, n)] did. *)
Record writei_post s s' (ip : nat) (v v' : Z -> block) (M L L' : gset Z) (off : Z) (src : list Z) : Prop := {
  wi_rep : fs_rep s' v' L' ∅;
  wi_env : env s' = env s /\ sb s' = sb s /\ fpid s' = fpid s;
  wi_icache : exists ad', icache s' =
    <[ip := set_isize (Z.max (isize (inode_at s ip)) (off + zlen src)) (set_addrs ad' (inode_at s ip))]> (icache s);
  wi_open : open_file s' ip v';
  wi_contents : contents v' (addrs (inode_at s' ip)) (isize (inode_at s' ip)) =
    blit (contents v (addrs (inode_at s ip)) (isize (inode_at s ip))) off src;
  wi_coherent : coherent s' ip v';
  wi_inodes : forall j, 0 <= j < sb_ninodes (sb s) -> j ≠ inum (inode_at s ip) ->
    dinode_at (sb s) v' j = dinode_at (sb s) v j;
  wi_foreign : forall b, datastart (sb s) <= b < sb_size (sb s) -> used (sb s) v b ->
    foreign v (addrs (inode_at s ip)) b -> v' b = v b;
  wi_used : forall b, 0 <= b < sb_size (sb s) -> used (sb s) v b -> used (sb s) v' b;
  wi_cost : fcost M L' (addrs (inode_at s' ip)) <= fcost M L (addrs (inode_at s ip)) + nblocks off (zlen src);
  wi_free : ffree (sb s) v (addrs (inode_at s ip)) - nblocks off (zlen src) <=
    ffree (sb s) v' (addrs (inode_at s' ip))
}.

Lemma file_wf_u32 g v ad : file_wf g v ad -> 0 <= datastart g -> sb_size g < 2 ^ 31 -> Forall is_u32 ad.
Proof.
  intros W Hg0 Hg. assert (Hl := fw_len _ _ _ W). apply Forall_lookup_2. intros n a Hn.
  assert (Hlt := lookup_lt_Some _ _ _ Hn). unfold zlen in Hl.
  assert (E : rd 0 ad (Z.of_nat n) = a) by (apply rd_lookup; [lia|by rewrite Nat2Z.id]).
  assert (Hq : 0 <= Z.of_nat n <= NDIRECT) by lia.
  assert (D := fw_data _ _ _ W _ (entry_position _ Hq)). rewrite faddr_entry, E in D by done.
  destruct (decide (a = 0)) as [->|Ha]; [done|]. destruct (D Ha) as [Hd _].
  unfold is_u32. lia.
Qed.

Lemma contents_write s s' ip v v' M L L' ad ad' off src sz :
  write_post s s' ip v v' M L L' ad ad' off src -> mapped v ad sz -> 0 <= off <= sz ->
  sz <= MAXFILE * BSIZE -> off + zlen src <= MAXFILE * BSIZE -> file_wf (sb s) v ad ->
  mapped v' ad' (Z.max sz (off + zlen src)) /\
  contents v' ad' (Z.max sz (off + zlen src)) = blit (contents v ad sz) off src.
Proof.
  intros [St B Mp _ _ _] Hmap Ho Hsz Hmax W. assert (Hz := zlen_nonneg src).
  assert (Hmap' : mapped v' ad' (Z.max sz (off + zlen src))).
  { intros k Hk Hlt. destruct (decide (k * BSIZE < sz)) as [Hlo|Hhi].
    - rewrite (gs_keep _ _ _ _ _ _ _ _ _ St); [by apply Hmap| |by apply Hmap].
      split; [done|]. unfold BSIZE in *. lia.
    - replace k with (k * BSIZE / BSIZE) by (by apply Z.div_mul). apply Mp. lia. }
  split; [done|]. assert (Hc := zlen_contents v ad sz ltac:(lia)). apply (rd_ext 0).
  - assert (E1 := zlen_contents v' ad' (Z.max sz (off + zlen src)) ltac:(lia)).
    assert (E2 := zlen_blit_gen (contents v ad sz) off src ltac:(lia)). unfold zlen in *. lia.
  - intros i. rewrite zlen_contents by lia. intros Hi. rewrite rd_contents by done.
    rewrite rd_blit_gen by lia. rewrite B; [|lia|apply Hmap'; [apply Z.div_pos; [lia|done]|unfold BSIZE in *; mlia]].
    case_decide; [done|]. rewrite rd_contents by lia. rewrite decide_False; [done|].
    apply Hmap; [apply Z.div_pos; [lia|done]|unfold BSIZE in *; mlia].
Qed.

(** The blocks of a file are the same before and after an inode is
    written. *)
Lemma file_put_inode s v i di ad : fs_geom (env s) (sb s) -> 0 <= i < sb_ninodes (sb s) ->
  file_wf (sb s) v ad -> let v' := put_inode (sb s) v i di in
  (forall k, position k -> faddr v' ad k = faddr v ad k) /\ file_wf (sb s) v' ad /\
  (forall b, 0 <= b < sb_size (sb s) -> used (sb s) v' b <-> used (sb s) v b) /\
  (forall b, datastart (sb s) <= b -> v' b = v b) /\ nfree (sb s) v' = nfree (sb s) v.
Proof.
  intros G Hi W v'. assert (P := meta_pos _ _ G). destruct (IBLOCK_range _ _ G i Hi) as [_ Hr].
  assert (Hd : forall b, datastart (sb s) <= b -> v' b = v b) by (intros b Hb; apply upd_ne; lia).
  assert (U : forall b, 0 <= b < sb_size (sb s) -> used (sb s) v' b <-> used (sb s) v b).
  { intros b Hb. apply used_upd_low; [done|lia|done]. }
  assert (Fa : forall k, position k -> faddr v' ad k = faddr v ad k).
  { intros k Hk. apply faddr_view. destruct (decide (rd 0 ad NDIRECT = 0)) as [|Hne]; [by left|right].
    apply Hd. apply (fw_data _ _ _ W MAXFILE position_max Hne). }
  split_and!; try done.
  - destruct W as [Wl Wd Wi]. split; [done| |].
    + intros k Hk. rewrite Fa by done. intros Hne. destruct (Wd k Hk Hne). split; [done|]. apply U; [lia|done].
    + intros j k Hj Hk. rewrite !Fa by done. by apply Wi.
  - unfold nfree. f_equal. apply filter_ext_in. intros b Hb. apply elem_of_seqZ in Hb. by rewrite U by lia.
Qed.

Lemma dinode_at_low g v v' j e : fs_geom e g -> 0 <= j < sb_ninodes g ->
  (forall b, b < sb_bmapstart g -> v' b = v b) -> dinode_at g v' j = dinode_at g v j.
Proof.
  intros G Hj E. unfold dinode_at. rewrite E; [done|]. by apply (IBLOCK_range e g G).
Qed.

Lemma set_isize_id i : set_isize (isize i) i = i.
Proof. by destruct i. Qed.

(** [writei] when the file does not grow. *)
Lemma writei_post_inside s s' ip v v' M L L' ad' off src :
  let i := inode_at s ip in
  fs_rep s v L ∅ -> open_file s ip v -> coherent s ip v -> 0 <= off -> off + zlen src <= isize i ->
  write_post s s' ip v v' M L L' (addrs i) ad' off src ->
  writei_post s s' ip v v' M L L' off src.
Proof.
  intros i R O Co Ho Hs Wp. assert (Hz := zlen_nonneg src). assert (Hmx := of_size _ _ _ O).
  destruct (contents_write _ _ _ _ _ _ _ _ _ _ _ _ (isize i) Wp) as [Hmap Hcon]; try apply O; [fold i; lia|fold i in Hmx; lia|].
  rewrite Z.max_l in Hmap, Hcon by lia.
  destruct Wp as [St B Mp Sm C F].
  assert (E : ad' = addrs i).
  { apply Sm. intros j Hj. apply (of_mapped _ _ _ O); [apply Z.div_pos; [lia|done]|].
    fold i. unfold BSIZE. mlia. }
  subst ad'. destruct (file_step_inode _ _ _ _ _ _ _ _ _ (of_cached _ _ _ O) St) as [Ei Hip].
  fold i in Ei. rewrite set_addrs_id in Ei. destruct St as [R' Ee Es Ep Eic W' _ _ Hm U Fo].
  assert (G := fr_geom _ _ _ _ R). split; try done; rewrite ?Ei; try done.
  - exists (addrs i). rewrite Eic. fold i. rewrite Z.max_l by lia. by rewrite set_addrs_id, set_isize_id.
  - split; rewrite ?Ei; rewrite ?Es; try done; apply O.
  - destruct Co as [Ci Cw Cd]. split; rewrite ?Ei, ?Es; try done.
    etransitivity; [|exact Cd]. eapply dinode_at_low; [exact G|unfold i in *; lia|done].
  - intros j Hj _. by eapply dinode_at_low.
Qed.

(** [writei] when the file grows: the new size is stored and the inode
    written. *)
Lemma writei_post_grown s s1 (t : S) ip v v1 M L L1 ad1 off src :
  let i := inode_at s ip in
  let s2 := set_inode ip (set_isize (off + zlen src)) s1 in
  let i2 := set_isize (off + zlen src) (set_addrs ad1 i) in
  let v3 := put_inode (sb s) v1 (inum i) (dinode_of i2) in
  let L3 := L1 ∪ {[IBLOCK (inum i) (sb s)]} in
  fs_rep s v L ∅ -> open_file s ip v -> coherent s ip v -> 0 <= off <= isize i ->
  isize i < off + zlen src <= MAXFILE * BSIZE -> IBLOCK (inum i) (sb s) ∈ M ->
  write_post s s1 ip v v1 M L L1 (addrs i) ad1 off src ->
  inode_at s2 ip = i2 -> bs_env t = env s -> fs_rep (set_blk t s2) v3 L3 ∅ -> dinode_wf (dinode_of i2) ->
  writei_post s (set_blk t s2) ip v v3 M L L3 off src.
Proof.
  intros i s2 i2 v3 L3 R O Co Ho Hs HM Wp Ei2 Et Rt Wd. assert (G := fr_geom _ _ _ _ R).
  assert (Hi := co_inum _ _ _ Co). fold i in Hi. assert (P := meta_pos _ _ G).
  destruct (contents_write _ _ _ _ _ _ _ _ _ _ _ _ (isize i) Wp) as [Hmap Hcon]; try apply O; [done|lia|].
  rewrite Z.max_r in Hmap, Hcon by lia.
  destruct Wp as [St B Mp Sm C F]. assert (W1 := gs_wf _ _ _ _ _ _ _ _ _ St).
  assert (Esb := gs_sb _ _ _ _ _ _ _ _ _ St).
  destruct (file_put_inode s v1 (inum i) (dinode_of i2) ad1 G ltac:(lia) W1) as (Fa & W3 & U3 & D3 & N3). fold v3 in Fa, W3, U3, D3, N3.
  assert (Hfb : forall j, 0 <= j < off + zlen src -> fbyte v3 ad1 j = fbyte v1 ad1 j).
  { intros j Hj. unfold fbyte.
    assert (Hp : position (j / BSIZE)) by (split; [apply Z.div_pos; [lia|done]|apply Z.lt_le_incl, Z.div_lt_upper_bound; [done|lia]]).
    rewrite Fa by done. rewrite D3; [done|]. apply (fw_data _ _ _ W1); [done|].
    apply Hmap; [apply Z.div_pos; [lia|done]|unfold BSIZE; mlia]. }
  assert (EI : inode_at (set_blk t s2) ip = i2) by exact Ei2.
  assert (Hb : forall b, b < sb_bmapstart (sb s) -> b ≠ IBLOCK (inum i) (sb s) -> v3 b = v b).
  { intros b Hb Hne. unfold v3, put_inode. rewrite upd_ne by done. by apply (gs_meta _ _ _ _ _ _ _ _ _ St). }
  assert (Hbi : v1 (IBLOCK (inum i) (sb s)) = v (IBLOCK (inum i) (sb s))).
  { apply (gs_meta _ _ _ _ _ _ _ _ _ St). apply (IBLOCK_range _ _ G). lia. }
  assert (Bi : is_block (v1 (IBLOCK (inum i) (sb s)))).
  { rewrite Hbi. eapply fr_block; [exact R|]. apply (inode_writable _ _ G). lia. }
  split; try done; rewrite ?EI.
  - split; [exact Et|]. split; [exact Esb|apply St].
  - exists ad1. simpl. rewrite (gs_icache _ _ _ _ _ _ _ _ _ St), list_insert_insert_eq.
    rewrite Z.max_r by (fold i; lia). f_equal.
    destruct (file_step_inode _ _ _ _ _ _ _ _ _ (of_cached _ _ _ O) St) as [-> _]. done.
  - split; rewrite ?EI; simpl.
    + rewrite length_insert, (gs_icache _ _ _ _ _ _ _ _ _ St), length_insert. apply O.
    + apply O.
    + by rewrite Esb.
    + lia.
    + intros k Hk Hlt. rewrite Fa; [by apply Hmap|]. split; [done|]. unfold BSIZE in *. lia.
  - etransitivity; [|exact Hcon]. unfold contents. apply list_fmap_ext. intros n j Hn.
    apply lookup_seqZ in Hn. apply Hfb. lia.
  - split; rewrite ?EI; simpl; rewrite ?Esb; [lia|done|]. unfold v3.
    rewrite (dinode_at_put _ _ _ _ _ _ G); try done; try lia. by rewrite decide_True.
  - intros j Hj Hne. unfold v3. rewrite (dinode_at_put _ _ _ _ _ _ G); try done; try lia.
    rewrite decide_False by done. eapply dinode_at_low; [exact G|lia|apply St].
  - intros b Hb' Hu Hf. rewrite D3 by lia. by apply (gs_foreign _ _ _ _ _ _ _ _ _ St).
  - intros b Hb' Hu. apply U3; [done|]. by apply (gs_used _ _ _ _ _ _ _ _ _ St).
  - simpl. etransitivity; [|exact C]. unfold fcost, L3. rewrite cost_in by done.
    apply Zplus_le_compat_l. unfold ind_cost. repeat case_decide; try lia. exfalso. clear -H H0. set_solver.
  - simpl. etransitivity; [exact F|]. unfold ffree. by rewrite N3.
Qed.

Lemma fs_rep_inode s v L H ip f : fs_rep s v L H -> fs_rep (set_inode ip f s) v L H.
Proof. intros []. by split. Qed.

(** What [writei] needs to write [src] at [off]: the inode and its blocks in
    order, and log space and free blocks for the blocks it touches. *)
Record writei_pre s (ip : nat) (v : Z -> block) (M L : gset Z) (off : Z) (src : list Z) : Prop := {
  wq_rep : fs_rep s v L ∅;
  wq_open : open_file s ip v;
  wq_coherent : coherent s ip v;
  wq_type : itype (inode_at s ip) ≠ T_DEV;
  wq_off : 0 <= off <= isize (inode_at s ip);
  wq_end : off + zlen src <= MAXFILE * BSIZE;
  wq_bytes : Forall is_u8 src;
  wq_inode : IBLOCK (inum (inode_at s ip)) (sb s) ∈ M;
  wq_log : ffits s M L (addrs (inode_at s ip)) (nblocks off (zlen src) + 1);
  wq_free : nblocks off (zlen src) <= ffree (sb s) v (addrs (inode_at s ip))
}.

Lemma wp_writei devsw s v M L ip off src :
  writei_pre s ip v M L off src ->
  wp (writei devsw ip src off (zlen src))
     (fun r s' => r = zlen src /\ exists v' L', writei_post s s' ip v v' M L L' off src) s.
Proof.
  intros [R O Co Ht Ho Hend Hu8 HM Hlog Hfree]. set (i := inode_at s ip) in *.
  assert (Hz := zlen_nonneg src). assert (Hsz := of_size _ _ _ O). fold i in Hsz. rewrite maxfile_bytes in *.
  assert (G := fr_geom _ _ _ _ R). assert (Hg := fg_size _ _ G). assert (P := meta_pos _ _ G).
  unfold writei. wp_step. wp_step. fold i. destruct (Z.eqb_spec (itype i) T_DEV); [done|].
  rewrite u32_id by mlia. destruct (Z.ltb_spec (isize i) off); [lia|].
  destruct (Z.ltb_spec (off + zlen src) off); [lia|]. simpl.
  rewrite maxfile_bytes. destruct (Z.ltb_spec 71680 (off + zlen src)); [lia|].
  assert (Hip := of_cached _ _ _ O).
  wp_step. eapply wp_mono.
  { apply (wp_writei_loop s v M L); try done; try apply O; rewrite ?maxfile_bytes, ?Z.sub_0_r; try done; lia. }
  rewrite Z.sub_0_r, slice_all. intros off' s1 (-> & v1 & L1 & ad1 & Wp). fold i in Wp. wp_step. wp_step.
  destruct (file_step_inode _ _ _ _ _ _ _ _ _ Hip (wr_step _ _ _ _ _ _ _ _ _ _ _ _ Wp)) as [Ei1 Hip1].
  fold i in Ei1. rewrite Ei1. cbn [isize set_addrs].
  assert (Er : s32 (zlen src) = zlen src) by (apply s32_id; mlia).
  destruct (Z.ltb_spec (isize i) (off + zlen src)) as [Hgrow|Hin].
  - destruct (Z.ltb_spec 0 (zlen src)); [|lia]. simpl.
    assert (St := wr_step _ _ _ _ _ _ _ _ _ _ _ _ Wp).
    set (s2 := set_inode ip (set_isize (off + zlen src)) s1).
    assert (E2 : inode_at s2 ip = set_isize (off + zlen src) (set_addrs ad1 i)).
    { unfold s2. rewrite (inode_at_insert s1 _ ip (set_isize (off + zlen src) (inode_at s1 ip))); try done. by rewrite Ei1. }
    assert (Hi := co_inum _ _ _ Co). fold i in Hi.
    assert (Wd : dinode_wf (dinode_of (set_isize (off + zlen src) (set_addrs ad1 i)))).
    { destruct (co_wf _ _ _ Co). split; simpl; try done; [mlia|apply St|].
      eapply file_wf_u32; [apply St|lia|lia]. }
    assert (Esb := gs_sb _ _ _ _ _ _ _ _ _ St). assert (Een := gs_env _ _ _ _ _ _ _ _ _ St).
    wp_step. wp_step. unfold imod. wp_step. fold s2.
    eapply (wp_iupdate s2 v1 L1); rewrite ?E2.
    + apply fs_rep_inode. apply St.
    + apply O.
    + simpl. rewrite Esb. lia.
    + done.
    + change (env s2) with (env s1). rewrite Een.
      assert (C := wr_cost _ _ _ _ _ _ _ _ _ _ _ _ Wp). assert (X := cost_size M L1).
      assert (Y := ind_cost_bounds L1 ad1). destruct Hlog as [_ Hlog]. unfold fcost in *. lia.
    + simpl. rewrite Esb. intros t Et Rt. wp_step. split; [exact Er|].
      eexists _, _. eapply writei_post_grown; try done; try (rewrite maxfile_bytes; fold i; lia).
      exact (eq_trans Et Een).
  - rewrite andb_false_r. wp_step. wp_step. wp_step. split; [exact Er|]. exists v1, L1.
    eapply writei_post_inside; try done. lia.
Qed.

(** The checks of [writei]: nothing is written beyond the end of the file or
    past the maximal file size. *)
Lemma writei_rejects devsw s ip src off n :
  itype (inode_at s ip) ≠ T_DEV -> is_u32 off -> is_u32 n ->
  isize (inode_at s ip) < off \/ MAXFILE * BSIZE < off + n ->
  writei devsw ip src off n s = Ret (-1) s.
Proof.
  intros Ht Ho Hn Hr. unfold writei. munfold. destruct (Z.eqb_spec (itype (inode_at s ip)) T_DEV); [done|].
  rewrite maxfile_bytes in *. destruct (Z.ltb_spec (isize (inode_at s ip)) off) as [|H1]; [done|]. simpl.
  destruct (Z.ltb_spec (u32 (off + n)) off) as [|H2]; [done|].
  rewrite u32_id by mlia. destruct (Z.ltb_spec 71680 (off + n)); [done|lia].
Qed.
End writei.
