(* ===== verification/FsDir.v ===== *)
(** * The inode cache and directories (iget, dirlookup, dirlink of fs.c) *)

From S2P Require Import Prelude Param Cstring SleepLock Layout BlockStore Fs FsBlocks FsFile FsWrite.

(** ** The inode cache *)

(** The entry refers to inode [n] of device [d]. *)
Definition caches (i : inode) (d n : Z) : Prop := 0 < ref i /\ idev i = d /\ inum i = n.

#[export] Instance caches_dec i d n : Decision (caches i d n).
Proof. unfold caches. apply _. Defined.

(** At most one entry of the cache refers to an inode. *)
Definition icache_unique (l : list inode) : Prop :=
  forall j k i i' d n, l !! j = Some i -> l !! k = Some i' -> caches i d n -> caches i' d n -> j = k.

Lemma iget_scan_spec l i0 empty d n :
  match iget_scan l i0 empty d n with
  | inl k => exists j i, k = (i0 + j)%nat /\ l !! j = Some i /\ caches i d n
  | inr e =>
      (forall j i, l !! j = Some i -> ~ caches i d n) /\
      match e with
      | Some k => empty = Some k \/ empty = None /\ exists j i, k = (i0 + j)%nat /\ l !! j = Some i /\ ref i = 0
      | None => empty = None /\ forall j i, l !! j = Some i -> ref i ≠ 0
      end
  end.
Proof.
  revert i0 empty. induction l as [|x l IH]; intros i0 empty; cbn [iget_scan].
  - split; [done|]. destruct empty; [by left|]. done.
  - destruct (_ && _) eqn:E.
    + bool_prop. exists 0%nat, x. split; [lia|]. split; [done|]. done.
    + assert (Hx : ~ caches x d n).
      { intros (H1 & H2 & H3). rewrite H2, H3, !Z.eqb_refl in E. destruct (Z.ltb_spec 0 (ref x)); [done|lia]. }
      specialize (IH (S i0) (match empty with None => if ref x =? 0 then Some i0 else None | Some e => Some e end)).
      destruct (iget_scan l (S i0) _ d n) as [k|e].
      * destruct IH as (j & i & -> & Hj & Hc). exists (S j), i. split; [lia|]. done.
      * destruct IH as [Hn He]. split; [intros [|j] i Hj; [injection Hj as <-; done|by apply (Hn j)]|].
        destruct empty as [e0|].
        -- destruct e as [k|]; [|naive_solver]. destruct He as [He|[? _]]; [by left|done].
        -- destruct (Z.eqb_spec (ref x) 0) as [E0|E0].
           ++ destruct e as [k|]; [|naive_solver]. destruct He as [[= <-]|[? _]]; [|done].
              right. split; [done|]. exists 0%nat, x. split; [lia|]. done.
           ++ destruct e as [k|].
              ** destruct He as [?|(_ & j & i & -> & Hj & Hr)]; [done|]. right. split; [done|].
                 exists (S j), i. split; [lia|]. done.
              ** destruct He as [_ He]. split; [done|]. intros [|j] i Hj; [by injection Hj as <-|by apply (He j)].
Qed.

Section iget.
Context {S : Type} {BS : BlockStore S}.
Implicit Types (s : fstate S).

(** What [iget(d, n)] did when it returned entry [ip]: one more reference to
    the entry of the inode, or a new entry in a free slot. *)
Record iget_post s s' (d n : Z) (ip : nat) : Prop := {
  ig_cached : (ip < length (icache s))%nat;
  ig_entry : caches (inode_at s' ip) d n;
  ig_hit : caches (inode_at s ip) d n ->
    inode_at s' ip = set_ref (ref (inode_at s ip) + 1) (inode_at s ip);
  ig_miss : ~ caches (inode_at s ip) d n -> ref (inode_at s ip) = 0 /\
    (forall j, (j < length (icache s))%nat -> ~ caches (inode_at s j) d n) /\
    ref (inode_at s' ip) = 1 /\ valid (inode_at s' ip) = 0 /\ ilk (inode_at s' ip) = ilk (inode_at s ip);
  ig_rest : s' = set_icache (<[ip := inode_at s' ip]> (icache s)) s
}.

Definition refs_ok s : Prop := Forall (fun i => 0 <= ref i < 2 ^ 31 - 1) (icache s).

Lemma inode_at_lookup s j i : icache s !! j = Some i -> inode_at s j = i.
Proof. intros E. unfold inode_at. by rewrite E. Qed.

Lemma lookup_inode_at s j : (j < length (icache s))%nat -> icache s !! j = Some (inode_at s j).
Proof. intros H. unfold inode_at. by destruct (lookup_lt_is_Some_2 _ _ H) as [i ->]. Qed.

Lemma wp_iget s d n (Q : nat -> fstate S -> Prop) :
  refs_ok s ->
  (exists j, (j < length (icache s))%nat /\ (caches (inode_at s j) d n \/ ref (inode_at s j) = 0)) ->
  (forall ip s', iget_post s s' d n ip -> Q ip s') ->
  wp (iget d n) Q s.
Proof.
  intros Hr (j0 & Hj0 & Hc0) HQ. unfold iget. wp_step. wp_step.
  assert (Sp := iget_scan_spec (icache s) 0 None d n).
  destruct (iget_scan (icache s) 0 None d n) as [ip|[ip|]].
  - destruct Sp as (j & i & Ej & Hj & Hc). simpl in Ej. subst j. wp_step. unfold imod. wp_step. wp_step.
    assert (Hlt := lookup_lt_Some _ _ _ Hj). assert (Ei := inode_at_lookup _ _ _ Hj).
    assert (Hri := Forall_lookup_1 _ _ _ _ Hr Hj). simpl in Hri.
    assert (E : forall f, inode_at (set_inode ip f s) ip = f i).
    { intros f. unfold inode_at at 1, set_inode. simpl. by rewrite list_lookup_insert_eq, Ei. }
    apply HQ. split; rewrite ?E, ?Ei; try done.
    + destruct Hc as (H1 & H2 & H3). split; [|done]. simpl. rewrite s32_id by mlia. lia.
    + intros _. simpl. by rewrite s32_id by mlia.
    + unfold set_inode. by rewrite Ei.
  - destruct Sp as [Hn [?|(_ & j & i & Ej & Hj & Hi)]]; [done|]. simpl in Ej. subst j.
    wp_step. unfold imod. wp_step. wp_step.
    assert (Hlt := lookup_lt_Some _ _ _ Hj). assert (Ei := inode_at_lookup _ _ _ Hj).
    assert (E : forall f, inode_at (set_inode ip f s) ip = f i).
    { intros f. unfold inode_at at 1, set_inode. simpl. by rewrite list_lookup_insert_eq, Ei. }
    apply HQ. split; rewrite ?E, ?Ei; try done.
    + intros [Hc _]. lia.
    + intros _. split; [done|]. split; [|done]. intros k Hk. apply (Hn k). by apply lookup_inode_at.
    + unfold set_inode. by rewrite Ei.
  - destruct Sp as [Hn [_ He]]. destruct Hc0 as [Hc0|Hc0].
    + by destruct (Hn j0 _ (lookup_inode_at _ _ Hj0)).
    + by destruct (He j0 _ (lookup_inode_at _ _ Hj0)).
Qed.
End iget.

(** ** Directories as lists of entries *)

Definition dirents (c : list Z) : list dirent :=
  (fun k => decode_dirent (slice c (sizeof_dirent * k) sizeof_dirent)) <$> seqZ 0 (zlen c / sizeof_dirent).

Definition entry_matches (name : list Z) (de : dirent) : bool :=
  negb (de_inum de =? 0) && (namecmp name (de_name de) =? 0).

(** The first entry for [name], with its index. *)
Fixpoint dir_find (name : list Z) (l : list dirent) : option (nat * dirent) :=
  match l with
  | [] => None
  | de :: l' =>
      if entry_matches name de then Some (0%nat, de)
      else match dir_find name l' with
           | Some (k, de') => Some (S k, de')
           | None => None
           end
  end.

(** The index of the first free entry, or the number of entries. *)
Fixpoint free_slot (l : list dirent) : nat :=
  match l with
  | [] => 0
  | de :: l' => if de_inum de =? 0 then 0 else S (free_slot l')
  end.

Lemma free_slot_le l : (free_slot l <= length l)%nat.
Proof. induction l as [|de l IH]; simpl; [lia|]. destruct (_ =? _); lia. Qed.

Lemma length_dirents c : length (dirents c) = Z.to_nat (zlen c / sizeof_dirent).
Proof. unfold dirents. by rewrite length_fmap, length_seqZ. Qed.

Lemma dirents_lookup c k : (k < length (dirents c))%nat ->
  dirents c !! k = Some (decode_dirent (slice c (sizeof_dirent * Z.of_nat k) sizeof_dirent)).
Proof.
  intros Hk. rewrite length_dirents in Hk. unfold dirents.
  rewrite list_lookup_fmap, lookup_seqZ_lt by lia. simpl. do 3 f_equal.
Qed.

Lemma drop_dirents c k de : dirents c !! k = Some de -> drop k (dirents c) = de :: drop (S k) (dirents c).
Proof. apply drop_S. Qed.

Lemma free_slot_full l : (forall de, de ∈ l -> de_inum de ≠ 0) -> free_slot l = length l.
Proof.
  induction l as [|x l IH]; simpl; intros H; [done|].
  destruct (Z.eqb_spec (de_inum x) 0) as [E|_]; [destruct (H x); [left|done]|].
  rewrite IH; [done|]. intros de Hde. apply H. by right.
Qed.

Lemma free_slot_app l l' : (forall de, de ∈ l -> de_inum de ≠ 0) ->
  free_slot (l ++ l') = (length l + free_slot l')%nat.
Proof.
  induction l as [|x l IH]; simpl; intros H; [done|].
  destruct (Z.eqb_spec (de_inum x) 0) as [E|_]; [destruct (H x); [left|done]|].
  rewrite IH; [done|]. intros de Hde. apply H. by right.
Qed.

(** Entry [k] of the directory is replaced, or added at the end. *)
Definition put_entry (l : list dirent) (k : nat) (de : dirent) : list dirent :=
  take k l ++ de :: drop (S k) l.

Lemma dirents_blit c k de : dirent_wf de -> zlen c mod sizeof_dirent = 0 -> (k <= length (dirents c))%nat ->
  dirents (blit c (sizeof_dirent * Z.of_nat k) (encode_dirent de)) = put_entry (dirents c) k de.
Proof.
  intros Wde Hm Hk. assert (Hle := zlen_encode_dirent de (proj1 (proj2 Wde))).
  assert (Hl := length_dirents c). assert (Hz := zlen_nonneg c). unfold sizeof_dirent in *.
  assert (Hoff : 0 <= 16 * Z.of_nat k <= zlen c) by mlia.
  assert (Hzb := zlen_blit_gen c (16 * Z.of_nat k) (encode_dirent de) Hoff).
  assert (Hlb := length_dirents (blit c (16 * Z.of_nat k) (encode_dirent de))). unfold sizeof_dirent in Hlb.
  rewrite Hzb, Hle in Hlb.
  apply list_eq_same_length with (length (dirents (blit c (16 * Z.of_nat k) (encode_dirent de)))); [|done|].
  - unfold put_entry. rewrite length_app, length_take, length_cons, length_drop. mlia.
  - intros j x y Hj Hx Hy. rewrite dirents_lookup in Hx by done. injection Hx as <-. unfold sizeof_dirent in *.
    destruct (lt_eq_lt_dec j k) as [[Hjk|Hjk]|Hjk].
    + unfold put_entry in Hy. rewrite lookup_app_l in Hy by (rewrite length_take; lia).
      rewrite lookup_take_lt, dirents_lookup in Hy by lia. injection Hy as <-. f_equal. unfold sizeof_dirent.
      apply (rd_ext 0).
      * rewrite !length_slice by (rewrite ?Hzb; lia). done.
      * intros i. rewrite zlen_slice by (rewrite ?Hzb; lia). intros Hi. rewrite !rd_slice by lia.
        rewrite rd_blit_gen by lia. by rewrite decide_False by lia.
    + subst j. unfold put_entry in Hy. rewrite lookup_app_r in Hy by (rewrite length_take; lia).
      rewrite length_take, Nat.min_l, Nat.sub_diag in Hy by lia. injection Hy as <-.
      rewrite <- (decode_encode_dirent de) at 2 by done. f_equal.
      apply (rd_ext 0).
      * rewrite length_slice by (rewrite ?Hzb; lia). unfold zlen in Hle. lia.
      * intros i. rewrite zlen_slice by (rewrite ?Hzb; lia). intros Hi. rewrite rd_slice by lia.
        rewrite rd_blit_gen by lia. rewrite decide_True by lia. f_equal. lia.
    + unfold put_entry in Hy. rewrite lookup_app_r in Hy by (rewrite length_take; lia).
      rewrite length_take, Nat.min_l in Hy by lia.
      replace (j - k)%nat with (S (j - k - 1)) in Hy by lia. simpl in Hy. rewrite lookup_drop in Hy.
      replace (S k + (j - k - 1))%nat with j in Hy by lia.
      assert (Hjl := lookup_lt_Some _ _ _ Hy). rewrite dirents_lookup in Hy by done. injection Hy as <-.
      unfold sizeof_dirent. f_equal. apply (rd_ext 0).
      * rewrite !length_slice by (rewrite ?Hzb; mlia). done.
      * intros i. rewrite zlen_slice by (rewrite ?Hzb; mlia). intros Hi. rewrite !rd_slice by lia.
        rewrite rd_blit_gen by lia. by rewrite decide_False by lia.
Qed.

(** Looking up a name after an entry was put into a free slot. *)
Lemma dir_find_put name l de : de_inum de ≠ 0 ->
  dir_find name (put_entry l (free_slot l) de) =
  match dir_find name (take (free_slot l) l) with
  | Some r => Some r
  | None => if entry_matches name de then Some (free_slot l, de) else dir_find name l
  end.
Proof.
  intros Hi. induction l as [|x l IH]; [done|]. cbn [free_slot].
  destruct (Z.eqb_spec (de_inum x) 0) as [E|E].
  - unfold put_entry. simpl. unfold entry_matches at 3. rewrite E. simpl.
    destruct (entry_matches name de); done.
  - unfold put_entry in *. simpl. destruct (entry_matches name x); [done|].
    rewrite IH. destruct (dir_find name (take (free_slot l) l)) as [[k y]|]; [done|].
    destruct (entry_matches name de); done.
Qed.

Lemma dir_find_app_skip name l l' : dir_find name l = None ->
  dir_find name (l ++ l') =
  match dir_find name l' with Some (k, de) => Some ((length l + k)%nat, de) | None => None end.
Proof.
  induction l as [|x l IH]; simpl; [by destruct (dir_find name l') as [[]|]|].
  destruct (entry_matches name x); [done|]. destruct (dir_find name l) as [[]|]; [done|]. intros _.
  rewrite IH by done. by destruct (dir_find name l') as [[]|].
Qed.

Lemma dir_find_app_none name l l' : dir_find name l = None -> dir_find name l' = None ->
  dir_find name (l ++ l') = None.
Proof. intros H1 H2. by rewrite dir_find_app_skip, H2. Qed.

Lemma dir_find_take name l k r : dir_find name (take k l) = Some r -> dir_find name l = Some r.
Proof.
  revert k r. induction l as [|x l IH]; intros [|k] r; simpl; try done.
  destruct (entry_matches name x); [done|].
  destruct (dir_find name (take k l)) as [[j y]|] eqn:E; [|done]. intros [= <-]. by rewrite (IH _ _ E).
Qed.

(** ** dirlookup and dirlink *)

(** The entry that [dirlink] writes. *)
Definition new_entry (name : list Z) (n : Z) : dirent :=
  Dirent (u16 n) (strncpy (replicate (Z.to_nat DIRSIZ) 0) name DIRSIZ).

Lemma new_entry_name name n : de_name (new_entry name n) = padded (Z.to_nat DIRSIZ) name.
Proof.
  unfold new_entry. simpl. rewrite strncpy_padded by done. apply blit_all. by rewrite length_padded.
Qed.

Lemma new_entry_wf name n : Forall is_u8 name -> dirent_wf (new_entry name n).
Proof.
  intros Hn. split; [apply u16_range|]. rewrite new_entry_name. split.
  - unfold zlen. by rewrite length_padded.
  - by apply padded_u8.
Qed.

Lemma entry_matches_new name name' n : Forall is_u8 name -> Forall is_u8 name' -> u16 n ≠ 0 ->
  entry_matches name' (new_entry name n) = true <->
  take (Z.to_nat DIRSIZ) (cstr name') = take (Z.to_nat DIRSIZ) (cstr name).
Proof.
  intros H1 H2 Hn. unfold entry_matches. rewrite new_entry_name, andb_true_iff, negb_true_iff, Z.eqb_neq, Z.eqb_eq.
  unfold namecmp. rewrite strncmp_zero by (done || by apply padded_u8). rewrite cstr_padded, take_take.
  simpl. naive_solver.
Qed.


Section dirs.
Context {S : Type} {BS : BlockStore S} {BL : BlockStoreLaws S}.
Context (devsw : Z -> devsw_entry S).
Implicit Types (s : fstate S).

(** A directory whose inode is in the cache. *)
Record open_dir s (dp : nat) (v : Z -> block) : Prop := {
  od_file : open_file s dp v;
  od_type : itype (inode_at s dp) = T_DIR;
  od_size : isize (inode_at s dp) mod sizeof_dirent = 0
}.

(** Its bytes and its entries. *)
Definition dir_bytes s (dp : nat) (v : Z -> block) : list Z :=
  contents v (addrs (inode_at s dp)) (isize (inode_at s dp)).
Definition entries s (dp : nat) (v : Z -> block) : list dirent := dirents (dir_bytes s dp v).

Lemma quiet_inode s s' ip : quiet s s' -> inode_at s' ip = inode_at s ip.
Proof. intros (_ & _ & _ & E). unfold inode_at. by rewrite E. Qed.

Lemma open_dir_quiet s s' dp v : quiet s s' -> open_dir s dp v -> open_dir s' dp v.
Proof.
  intros Qt [Of Ot Os]. split; rewrite ?(quiet_inode s s') by done; try done. by eapply open_file_quiet.
Qed.

Lemma entries_quiet s s' dp v : quiet s s' -> entries s' dp v = entries s dp v.
Proof. intros Qt. unfold entries, dir_bytes. by rewrite (quiet_inode s s') by done. Qed.

Lemma zlen_dir_bytes s dp v : open_dir s dp v -> zlen (dir_bytes s dp v) = isize (inode_at s dp).
Proof. intros O. apply zlen_contents. apply (of_size _ _ _ (od_file _ _ _ O)). Qed.

Lemma length_entries s dp v : open_dir s dp v ->
  sizeof_dirent * Z.of_nat (length (entries s dp v)) = isize (inode_at s dp).
Proof.
  intros O. unfold entries. rewrite length_dirents, zlen_dir_bytes by done.
  assert (X := od_size _ _ _ O). assert (Y := of_size _ _ _ (od_file _ _ _ O)). unfold sizeof_dirent in *. mlia.
Qed.

(** Reading entry [k]. *)
Lemma wp_read_entry s v L dp k :
  fs_rep s v L ∅ -> open_dir s dp v -> Z.of_nat (size L) <= 28 -> (k < length (entries s dp v))%nat ->
  wp (readi devsw dp (sizeof_dirent * Z.of_nat k) sizeof_dirent)
     (fun r s' => quiet s s' /\ fs_rep s' v L ∅ /\ r.1 = sizeof_dirent /\
        entries s dp v !! k = Some (decode_dirent r.2)) s.
Proof.
  intros R O Hl Hk. assert (Hle := length_entries _ _ _ O). assert (Hsz := of_size _ _ _ (od_file _ _ _ O)).
  rewrite maxfile_bytes in Hsz. eapply wp_mono.
  { apply (wp_readi devsw s v L); try done; [apply O|rewrite (od_type _ _ _ O); done|..]; unfold sizeof_dirent in *; mlia. }
  simpl. intros r s' (Qt & R' & ->). split; [done|]. split; [done|].
  rewrite decide_True by (unfold sizeof_dirent in *; lia). unfold sizeof_dirent in *. rewrite Z.min_l by lia.
  split; [done|]. simpl. unfold entries. rewrite dirents_lookup by done. done.
Qed.

(** What [dirlookup(dp, name)] did when it returned [r]. *)
Definition lookup_post s (dp : nat) (v : Z -> block) (L : gset Z) (name : list Z) (r : option (nat * Z)) s' : Prop :=
  match dir_find name (entries s dp v) with
  | None => r = None /\ quiet s s' /\ fs_rep s' v L ∅
  | Some (k, de) => exists ip s1, r = Some (ip, sizeof_dirent * Z.of_nat k) /\
      quiet s s1 /\ fs_rep s1 v L ∅ /\ iget_post s1 s' ROOTDEV (de_inum de) ip
  end.

(** There is a free slot in the inode cache, or the inode is there. *)
Definition icache_room s (n : Z) : Prop :=
  exists j, (j < length (icache s))%nat /\ (caches (inode_at s j) ROOTDEV n \/ ref (inode_at s j) = 0).

Lemma wp_dirlookup_from s v L dp name fuel k :
  fs_rep s v L ∅ -> open_dir s dp v -> Z.of_nat (size L) <= 28 -> refs_ok s ->
  (k <= length (entries s dp v))%nat -> (length (entries s dp v) - k <= fuel)%nat ->
  (forall j de, dir_find name (entries s dp v) = Some (j, de) -> icache_room s (de_inum de)) ->
  dir_find name (take k (entries s dp v)) = None ->
  wp (dirlookup_from devsw fuel dp name (sizeof_dirent * Z.of_nat k))
     (fun r s' => lookup_post s dp v L name r s') s.
Proof.
  revert s k. induction fuel as [|fuel IH]; intros s k R O Hl Hr Hk Hf Hroom Hpre; cbn [dirlookup_from].
  all: assert (Hle := length_entries _ _ _ O); wp_step; wp_step.
  all: destruct (Z.ltb_spec (sizeof_dirent * Z.of_nat k) (isize (inode_at s dp))) as [Hlt|Hge].
  1: unfold sizeof_dirent in *; lia.
  1, 3: wp_step; unfold lookup_post; rewrite <- (firstn_all (entries s dp v));
    replace (length (entries s dp v)) with k by (unfold sizeof_dirent in *; lia); by rewrite Hpre.
  assert (Hk' : (k < length (entries s dp v))%nat) by (unfold sizeof_dirent in *; lia).
  wp_step. eapply wp_mono; [by apply (wp_read_entry s v L dp k)|].
  intros [n bs] s1 (Qt & R1 & Hn & Hde). cbn [fst snd] in *. subst n. rewrite Z.eqb_refl. cbn [negb].
  set (de := decode_dirent bs) in *.
  assert (Etk : take (Datatypes.S k) (entries s dp v) = take k (entries s dp v) ++ [de]) by (by apply take_S_r).
  assert (Hnext : entry_matches name de = false ->
    wp (dirlookup_from devsw fuel dp name (sizeof_dirent * Z.of_nat k + sizeof_dirent))
      (fun r s' => lookup_post s dp v L name r s') s1).
  { intros Hm. replace (sizeof_dirent * Z.of_nat k + sizeof_dirent) with (sizeof_dirent * Z.of_nat (Datatypes.S k)) by lia.
    assert (Ee := entries_quiet _ _ dp v Qt). eapply wp_mono.
    - apply (IH s1); rewrite ?Ee; try done.
      + by eapply open_dir_quiet.
      + unfold refs_ok. destruct Qt as (_ & _ & _ & ->). done.
      + lia.
      + intros j de' Hd. destruct (Hroom j de' Hd) as (j' & Hj' & Hc). exists j'.
        rewrite (quiet_inode s s1) by done. destruct Qt as (_ & _ & _ & ->). done.
      + rewrite Etk. apply dir_find_app_none; [done|]. simpl. by rewrite Hm.
    - unfold lookup_post. rewrite Ee. intros r s' H. destruct (dir_find name (entries s dp v)) as [[j de']|].
      + destruct H as (ip & s2 & E & Q2 & R2 & Ig). exists ip, s2. split; [done|].
        split; [by eapply quiet_trans|]. done.
      + destruct H as (E & Q2 & R2). split; [done|]. split; [by eapply quiet_trans|done]. }
  unfold entry_matches in Hnext. destruct (Z.eqb_spec (de_inum de) 0) as [E0|E0]; [by apply Hnext|].
  simpl in Hnext. destruct (namecmp name (de_name de) =? 0) eqn:Em; [|by apply Hnext].
  assert (Hfind : dir_find name (entries s dp v) = Some (k, de)).
  { rewrite <- (take_drop (Datatypes.S k) (entries s dp v)), Etk. rewrite <- app_assoc.
    rewrite dir_find_app_skip by done. simpl. unfold entry_matches. rewrite Em.
    destruct (Z.eqb_spec (de_inum de) 0); [done|]. simpl. rewrite length_take. do 3 f_equal. lia. }
  rewrite (of_dev _ _ _ (od_file _ _ _ O)). wp_step.
  eapply (wp_iget s1 ROOTDEV (de_inum de)).
  - unfold refs_ok. destruct Qt as (_ & _ & _ & ->). done.
  - destruct (Hroom _ _ Hfind) as (j' & Hj' & Hc). exists j'. rewrite (quiet_inode s s1) by done.
    destruct Qt as (_ & _ & _ & ->). done.
  - intros ip s2 Ig. wp_step. unfold lookup_post. rewrite Hfind. by exists ip, s1.
Qed.

Lemma wp_dirlookup s v L dp name :
  fs_rep s v L ∅ -> open_dir s dp v -> Z.of_nat (size L) <= 28 -> refs_ok s ->
  (forall j de, dir_find name (entries s dp v) = Some (j, de) -> icache_room s (de_inum de)) ->
  wp (dirlookup devsw dp name) (fun r s' => lookup_post s dp v L name r s') s.
Proof.
  intros R O Hl Hr Hroom. unfold dirlookup. wp_step. wp_step. rewrite (od_type _ _ _ O). rewrite Z.eqb_refl. cbn [negb].
  assert (Hle := length_entries _ _ _ O). change 0 with (sizeof_dirent * Z.of_nat 0) at 1.
  apply wp_dirlookup_from; try done; [lia|]. unfold dir_fuel. unfold sizeof_dirent in *. mlia.
Qed.

Lemma wp_find_slot s v L dp fuel k :
  fs_rep s v L ∅ -> open_dir s dp v -> Z.of_nat (size L) <= 28 ->
  (k <= length (entries s dp v))%nat -> (length (entries s dp v) - k <= fuel)%nat ->
  (forall de, de ∈ take k (entries s dp v) -> de_inum de ≠ 0) ->
  wp (find_slot devsw fuel dp (sizeof_dirent * Z.of_nat k))
     (fun off s' => off = sizeof_dirent * Z.of_nat (free_slot (entries s dp v)) /\
        quiet s s' /\ fs_rep s' v L ∅) s.
Proof.
  revert s k. induction fuel as [|fuel IH]; intros s k R O Hl Hk Hf Hpre; cbn [find_slot].
  all: assert (Hle := length_entries _ _ _ O); wp_step; wp_step.
  all: destruct (Z.ltb_spec (sizeof_dirent * Z.of_nat k) (isize (inode_at s dp))) as [Hlt|Hge].
  1: unfold sizeof_dirent in *; lia.
  1, 3: wp_step; split; [|done]; do 2 f_equal; rewrite <- (firstn_all (entries s dp v));
    replace (length (entries s dp v)) with k by (unfold sizeof_dirent in *; lia);
    rewrite free_slot_full by done; rewrite length_take; lia.
  assert (Hk' : (k < length (entries s dp v))%nat) by (unfold sizeof_dirent in *; lia).
  wp_step. eapply wp_mono; [by apply (wp_read_entry s v L dp k)|].
  intros [n bs] s1 (Qt & R1 & Hn & Hde). cbn [fst snd] in *. subst n. rewrite Z.eqb_refl. cbn [negb].
  set (de := decode_dirent bs) in *.
  assert (Etk : take (Datatypes.S k) (entries s dp v) = take k (entries s dp v) ++ [de]) by (by apply take_S_r).
  destruct (Z.eqb_spec (de_inum de) 0) as [E0|E0].
  - wp_step. split; [|done]. do 2 f_equal.
    rewrite <- (take_drop (Datatypes.S k) (entries s dp v)), Etk, <- app_assoc.
    rewrite free_slot_app by done. cbn [app free_slot].
    destruct (Z.eqb_spec (de_inum de) 0); [|done]. rewrite length_take. lia.
  - replace (sizeof_dirent * Z.of_nat k + sizeof_dirent) with (sizeof_dirent * Z.of_nat (Datatypes.S k)) by lia.
    assert (Ee := entries_quiet _ _ dp v Qt). eapply wp_mono.
    + apply (IH s1); rewrite ?Ee; try done; [by eapply open_dir_quiet|lia|].
      intros x. rewrite Etk, elem_of_app, list_elem_of_singleton. intros [Hx| ->]; [by apply Hpre|done].
    + rewrite Ee. intros off s' (E & Q2 & R2). split; [done|]. split; [by eapply quiet_trans|done].
Qed.

Lemma writei_pre_quiet s s' ip v M L off src : quiet s s' -> fs_rep s' v L ∅ ->
  writei_pre s ip v M L off src -> writei_pre s' ip v M L off src.
Proof.
  intros Qt R' [R O Co Ht Ho He Hb Hi Hl Hf]. assert (Ei := quiet_inode s s' ip Qt).
  assert (Q' := Qt). destruct Q' as (E1 & E2 & E3 & E4).
  split; rewrite ?Ei, ?E2; try done.
  - by eapply open_file_quiet.
  - destruct Co. split; rewrite ?Ei, ?E2; done.
  - destruct Hl. split; rewrite ?E2, ?E1; done.
Qed.

(** [dirlink] of a name that is not in the directory. *)
Lemma wp_dirlink s v M L dp name n :
  let k := free_slot (entries s dp v) in
  fs_rep s v L ∅ -> open_dir s dp v -> refs_ok s -> Forall is_u8 name ->
  dir_find name (entries s dp v) = None ->
  writei_pre s dp v M L (sizeof_dirent * Z.of_nat k) (encode_dirent (new_entry name n)) ->
  wp (dirlink devsw dp name n)
     (fun r s' => r = 0 /\ exists s1 v' L', quiet s s1 /\
        writei_post s1 s' dp v v' M L L' (sizeof_dirent * Z.of_nat k) (encode_dirent (new_entry name n)) /\
        entries s' dp v' = put_entry (entries s dp v) k (new_entry name n)) s.
Proof.
  intros k R O Hr Hn Hfind Wp. assert (Wde := new_entry_wf name n Hn).
  assert (Hlen := zlen_encode_dirent _ (proj1 (proj2 Wde))).
  assert (Sz : Z.of_nat (size L) <= 28).
  { assert (X := fits_size _ _ _ _ (ffits_fits _ _ _ _ _ (wq_log _ _ _ _ _ _ _ Wp))).
    assert (Y : 0 <= nblocks (sizeof_dirent * Z.of_nat k) (zlen (encode_dirent (new_entry name n)))); [|lia].
    rewrite Hlen. unfold nblocks, sizeof_dirent, BSIZE. simpl. mlia. }
  unfold dirlink. wp_step. eapply wp_mono.
  { apply (wp_dirlookup s v L dp name); try done. intros j de Hj. congruence. }
  intros r s1 Hp. unfold lookup_post in Hp. rewrite Hfind in Hp. destruct Hp as (-> & Q1 & R1).
  assert (E1 := entries_quiet _ _ dp v Q1). assert (O1 := open_dir_quiet _ _ _ _ Q1 O).
  wp_step. wp_step. wp_step. change 0 with (sizeof_dirent * Z.of_nat 0) at 1. eapply wp_mono.
  { apply (wp_find_slot s1 v L dp); try done; [lia| |].
    - assert (Hle := length_entries _ _ _ O1). unfold dir_fuel, sizeof_dirent in *. mlia.
    - intros de Hde. by apply elem_of_nil in Hde. }
  rewrite E1. fold k. intros off s2 (-> & Q2 & R2). fold (new_entry name n).
  assert (Q12 := quiet_trans _ _ _ Q1 Q2). wp_step. rewrite <- Hlen at 2.
  eapply wp_mono; [apply (wp_writei devsw s2 v M L); by eapply writei_pre_quiet|].
  intros w s3 (-> & v' & L' & Wpost). rewrite Hlen, Z.eqb_refl. cbn [negb]. wp_step. split; [done|].
  exists s2, v', L'. split; [done|]. split; [done|].
  unfold entries, dir_bytes. rewrite (wi_contents _ _ _ _ _ _ _ _ _ _ Wpost).
  rewrite (quiet_inode s s2) by done. fold (dir_bytes s dp v). apply dirents_blit; [done| |apply free_slot_le].
  rewrite zlen_dir_bytes by done. exact (od_size _ _ _ O).
Qed.
End dirs.
