(* ===== verification/FsSpec.v ===== *)
(** * Properties of the file system

    The theorems about fs.c over any block store that keeps the laws of
    BlockStore.v. *)

From S2P Require Import Prelude Param Cstring SleepLock Layout BlockStore Fs FsBlocks FsFile FsWrite FsDir.

Section properties.
Context {S : Type} {BS : BlockStore S} {BL : BlockStoreLaws S}.
Implicit Types (s : fstate S).

(** The block allocator.  With a free block on the disk, [balloc]
    returns the lowest-numbered free block; exactly that block is newly
    marked in the bitmap, it holds zeros, it is no metadata block, and every
    other block outside the bitmap keeps its contents.  With no free block,
    [balloc] panics. *)
Theorem balloc_correct s v M L :
  fs_rep s v L ∅ -> fits s M L 1 ->
  (0 < nfree (sb s) v -> exists b s' v',
     balloc ROOTDEV s = Ret b s' /\ fs_rep s' v' (L ∪ {[BBLOCK b (sb s)]} ∪ {[b]}) ∅ /\
     first_free (sb s) v b /\ datastart (sb s) <= b /\ v' b = zero_block /\
     (forall b', 0 <= b' < sb_size (sb s) -> used (sb s) v' b' <-> b' = b \/ used (sb s) v b') /\
     (forall b', b' ≠ b -> b' ≠ BBLOCK b (sb s) -> v' b' = v b')) /\
  ((forall b, 0 <= b < sb_size (sb s) -> used (sb s) v b) ->
     balloc ROOTDEV s = Panic "balloc: out of blocks").
Proof.
  intros R Hf. assert (Sz := fits_size _ _ _ _ Hf). split.
  - intros Hn. assert (W : wp (balloc ROOTDEV) (fun b s' => first_free (sb s) v b /\
      fs_rep s' (alloc (sb s) v b) (L ∪ {[BBLOCK b (sb s)]} ∪ {[b]}) ∅) s).
    { eapply (wp_balloc s v M L); [done|apply held_data_empty|by rewrite map_size_empty|done|by apply nfree_first|].
      intros b t F _ Rt. done. }
    apply wp_inv in W as (b & s' & E & F & R'). exists b, s', (alloc (sb s) v b).
    assert (Fb := fresh_block_intro _ _ _ _ _ R F). split; [exact E|]. split_and!; try done.
    + apply Fb.
    + apply alloc_eq.
    + intros b' Hb'. rewrite (fb_used _ _ _ Fb) by done. naive_solver.
    + intros b' H1 H2. apply alloc_ne; congruence.
  - intros Hall. assert (G := fg_size _ _ (fr_geom _ _ _ _ R)). unfold balloc. munfold.
    eapply balloc_from_full; [exact R|apply held_data_empty|by rewrite map_size_empty|lia|lia|done|exact Hall|..].
    + unfold BPB, BSIZE. mlia.
    + unfold BPB, BSIZE. lia.
Qed.

(** [bfree] undoes [balloc].  Freeing a block that [balloc] returned
    gives back the bitmap exactly as it was; every block but the freed one
    has its old contents. *)
Theorem balloc_bfree s v M L :
  fs_rep s v L ∅ -> fits s M L 2 -> 0 < nfree (sb s) v ->
  exists b s1 s2 v2 L2, balloc ROOTDEV s = Ret b s1 /\ bfree ROOTDEV b s1 = Ret tt s2 /\
    fs_rep s2 v2 L2 ∅ /\ forall b', b' ≠ b -> v2 b' = v b'.
Proof.
  intros R Hf Hn. assert (G := fr_geom _ _ _ _ R).
  assert (V : forall b, 0 <= b < e_size (env s) -> is_block (v b)) by (intros; by eapply fr_block).
  assert (W : wp (balloc ROOTDEV) (fun b s1 => wp (bfree ROOTDEV b) (fun _ s2 =>
    exists v2 L2, fs_rep s2 v2 L2 ∅ /\ forall b', b' ≠ b -> v2 b' = v b') s1) s).
  { eapply (wp_balloc s v M L); [done|apply held_data_empty|by rewrite map_size_empty
      |apply (fits_le s M L 2); [done|lia]|by apply nfree_first|].
    intros b t F Et Rt. assert (Fb := fresh_block_intro _ _ _ _ _ R F).
    assert (Hr := BBLOCK_range _ _ G b (fb_bmap _ _ _ Fb)).
    eapply (wp_bfree _ _ M); [exact Rt|apply held_data_empty|by rewrite map_size_empty| |simpl; apply Fb|simpl; apply Fb; [apply Fb|by left]|].
    { destruct Hf as [Hm Hf]. split; [done|]. unfold env in *. simpl. rewrite Et.
      assert (C := cost_add M (L ∪ {[BBLOCK b (sb s)]}) b). rewrite cost_in in C by (apply Hm, Fb). lia. }
    intros t2 Et2 Rt2. eexists _, _. split; [exact Rt2|]. intros b' Hb'. simpl. unfold unmark, upd.
    assert (Hne : BBLOCK b (sb s) ≠ b) by (assert (X := fb_range _ _ _ Fb); lia).
    destruct (decide (BBLOCK b (sb s) = b')) as [<-|Hn'].
    - unfold alloc, mark. rewrite upd_ne, upd_eq by congruence. apply clear_set_bit.
      + apply (bmap_block _ _ G v V). apply Fb.
      + apply mod_BPB.
      + destruct F as (_ & Hu & _). unfold used in Hu. by apply not_false_is_true in Hu.
    - apply alloc_ne; congruence. }
  apply wp_inv in W as (b & s1 & E1 & W). apply wp_inv in W as ([] & s2 & E2 & v2 & L2 & R2 & Hv).
  exists b, s1, s2, v2, L2. done.
Qed.

(** [readi] returns the bytes of the file.  For a file whose inode is
    cached, [readi(ip, off, n)] returns -1 exactly when [off] is beyond the
    end of the file or [off + n] overflows; otherwise it returns the number
    of bytes from [off] to the end of the file, at most [n], and those
    bytes.  Neither the inode cache nor any block changes. *)
Theorem readi_correct devsw s v L ip off n :
  fs_rep s v L ∅ -> open_file s ip v -> Z.of_nat (size L) <= 28 -> itype (inode_at s ip) ≠ T_DEV ->
  is_u32 off -> is_u32 n ->
  exists s', readi devsw ip off n s =
      Ret (if decide (off <= isize (inode_at s ip) /\ off + n < 2 ^ 32) then
             let len := Z.min n (isize (inode_at s ip) - off) in
             (len, slice (contents v (addrs (inode_at s ip)) (isize (inode_at s ip))) off len)
           else (-1, [])) s' /\
    quiet s s' /\ fs_rep s' v L ∅.
Proof.
  intros R O Hl Ht Ho Hn. assert (W := wp_readi devsw s v L ip off n R O Hl Ht Ho Hn).
  apply wp_inv in W as (r & s' & E & Qt & R' & ->). exists s'. done.
Qed.


(** C32: what was written can be read.  [readi] of the range that [writei]
    wrote returns the bytes written. *)
Theorem writei_readi devsw s v M L ip off src :
  writei_pre s ip v M L off src ->
  exists s1 s2, writei devsw ip src off (zlen src) s = Ret (zlen src) s1 /\
    readi devsw ip off (zlen src) s1 = Ret (zlen src, src) s2.
Proof.
  intros Wp. assert (W := wp_writei devsw s v M L ip off src Wp).
  apply wp_inv in W as (r & s1 & E & -> & v' & L' & P).
  assert (Hi : exists ad', inode_at s1 ip = set_isize (Z.max (isize (inode_at s ip)) (off + zlen src)) (set_addrs ad' (inode_at s ip))).
  { destruct (wi_icache _ _ _ _ _ _ _ _ _ _ P) as [ad' Ei]. exists ad'.
    apply (inode_at_insert s); [apply (of_cached _ _ _ (wq_open _ _ _ _ _ _ _ Wp))|done]. }
  destruct Hi as [ad' Ei]. assert (Ho := wq_off _ _ _ _ _ _ _ Wp). assert (He := wq_end _ _ _ _ _ _ _ Wp).
  assert (Hz := zlen_nonneg src). rewrite maxfile_bytes in He.
  assert (Hsize : isize (inode_at s1 ip) = Z.max (isize (inode_at s ip)) (off + zlen src)) by (by rewrite Ei).
  assert (Hsz := of_size _ _ _ (wq_open _ _ _ _ _ _ _ Wp)). rewrite maxfile_bytes in Hsz.
  assert (W2 := wp_readi devsw s1 v' L' ip off (zlen src) (wi_rep _ _ _ _ _ _ _ _ _ _ P) (wi_open _ _ _ _ _ _ _ _ _ _ P)).
  assert (Hl' : Z.of_nat (size L') <= 28).
  { assert (C := wi_cost _ _ _ _ _ _ _ _ _ _ P). destruct (wq_log _ _ _ _ _ _ _ Wp) as [_ Hlog].
    assert (X := cost_size M L'). assert (I1 := ind_cost_bounds L' (addrs (inode_at s1 ip))).
    unfold fs_cap in Hlog. unfold fcost in *. lia. }
  specialize (W2 Hl'). rewrite Ei in W2 at 1. specialize (W2 (wq_type _ _ _ _ _ _ _ Wp) ltac:(mlia) ltac:(mlia)).
  cbv zeta in W2. apply wp_inv in W2 as (r & s2 & E2 & _ & _ & Er). exists s1, s2. split; [exact E|].
  rewrite E2, Er, Hsize. rewrite decide_True by mlia. rewrite Z.min_l by lia. f_equal. f_equal.
  rewrite <- Hsize, (wi_contents _ _ _ _ _ _ _ _ _ _ P).
  apply (rd_ext 0); set (c := contents v _ _); assert (Hc : zlen c = isize (inode_at s ip)) by (apply zlen_contents; lia);
    assert (Hb := zlen_blit_gen c off src ltac:(lia)).
  - rewrite length_slice by lia. unfold zlen. lia.
  - intros i. rewrite zlen_slice by lia. intros Hi. rewrite rd_slice by lia. rewrite rd_blit_gen by lia.
    rewrite decide_True by lia. f_equal. lia.
Qed.

(** A directory is a map from names to inode numbers.  After
    [dirlink(dp, name, n)] of a name that is not in the directory, the call
    returns 0, looking up [name] finds [n] in the entry that was written,
    and looking up any name that differs from [name] in its first [DIRSIZ]
    bytes gives what it gave before. *)
Theorem dirlink_lookup devsw s v M L dp name n :
  fs_rep s v L ∅ -> open_dir s dp v -> refs_ok s -> Forall is_u8 name -> u16 n ≠ 0 ->
  dir_find name (entries s dp v) = None ->
  writei_pre s dp v M L (sizeof_dirent * Z.of_nat (free_slot (entries s dp v))) (encode_dirent (new_entry name n)) ->
  exists s' v', dirlink devsw dp name n s = Ret 0 s' /\
    (exists k, dir_find name (entries s' dp v') = Some (k, new_entry name n) /\ de_inum (new_entry name n) = u16 n) /\
    forall name', Forall is_u8 name' ->
      take (Z.to_nat DIRSIZ) (cstr name') ≠ take (Z.to_nat DIRSIZ) (cstr name) ->
      dir_find name' (entries s' dp v') = dir_find name' (entries s dp v).
Proof.
  intros R O Hr Hn Hu Hfind Wp. assert (W := wp_dirlink devsw s v M L dp name n R O Hr Hn Hfind Wp).
  apply wp_inv in W as (r & s' & E & -> & s1 & v' & L' & Q1 & _ & Ee). exists s', v'. split; [exact E|].
  rewrite Ee. split.
  - exists (free_slot (entries s dp v)). split; [|done]. rewrite dir_find_put by done.
    assert (Em : entry_matches name (new_entry name n) = true) by (by apply entry_matches_new). rewrite Em.
    destruct (dir_find name (take _ _)) as [r|] eqn:Et; [|done]. apply dir_find_take in Et. congruence.
  - intros name' Hn' Hne. rewrite dir_find_put by done.
    assert (Em : entry_matches name' (new_entry name n) = false).
    { apply not_true_is_false. intros Em. apply Hne. by apply (entry_matches_new name name' n) in Em. }
    rewrite Em. destruct (dir_find name' (take _ _)) as [r|] eqn:Et; [|done]. apply dir_find_take in Et. by rewrite Et.
Qed.

(** The inode cache has at most one entry per inode.  If it had before,
    [iget(d, n)] returns an entry that refers to inode [n] of device [d],
    with one more reference, and the cache still has at most one entry per
    inode; every other entry is unchanged. *)
Theorem iget_unique s d n :
  refs_ok s -> icache_unique (icache s) ->
  (exists j, (j < length (icache s))%nat /\ (caches (inode_at s j) d n \/ ref (inode_at s j) = 0)) ->
  exists ip s', iget d n s = Ret ip s' /\ caches (inode_at s' ip) d n /\
    ref (inode_at s' ip) = (if decide (caches (inode_at s ip) d n) then ref (inode_at s ip) + 1 else 1) /\
    icache_unique (icache s') /\
    (forall j, j ≠ ip -> inode_at s' j = inode_at s j).
Proof.
  intros Hr Hu Hroom. assert (W : wp (iget d n) (fun ip s' => iget_post s s' d n ip) s) by by apply wp_iget.
  apply wp_inv in W as (ip & s' & E & [Hc He Hhit Hmiss Hrest]). exists ip, s'.
  assert (Ei : icache s' = <[ip := inode_at s' ip]> (icache s)) by (rewrite Hrest at 1; done).
  split; [exact E|]. split; [done|]. split; [|split].
  - case_decide as Hd; [by rewrite (Hhit Hd)|]. by destruct (Hmiss Hd) as (_ & _ & -> & _).
  - assert (Hold : forall k i', k ≠ ip -> icache s !! k = Some i' -> ~ caches i' d n).
    { intros k i' Hk Hl Hc'. destruct (decide (caches (inode_at s ip) d n)) as [Hd|Hd].
      - apply Hk. by apply (Hu k ip i' (inode_at s ip) d n Hl (lookup_inode_at _ _ Hc)).
      - destruct (Hmiss Hd) as (_ & Hn & _). apply (Hn k); [by eapply lookup_lt_Some|].
        by rewrite (inode_at_lookup _ _ _ Hl). }
    rewrite Ei. intros j k i i' d' n' Hj Hk C1 C2.
    destruct (decide (j = ip)) as [->|Hj']; destruct (decide (k = ip)) as [->|Hk']; try done.
    + rewrite list_lookup_insert_eq in Hj by done. injection Hj as <-. rewrite list_lookup_insert_ne in Hk by done.
      destruct He as (_ & E1 & E2), C1 as (_ & E3 & E4). subst d' n'. rewrite E1, E2 in C2. by destruct (Hold k i').
    + rewrite list_lookup_insert_eq in Hk by done. injection Hk as <-. rewrite list_lookup_insert_ne in Hj by done.
      destruct He as (_ & E1 & E2), C2 as (_ & E3 & E4). subst d' n'. rewrite E1, E2 in C1. by destruct (Hold j i).
    + rewrite list_lookup_insert_ne in Hj, Hk by done. by apply (Hu j k i i' d' n').
  - intros j Hj. unfold inode_at at 1. by rewrite Ei, list_lookup_insert_ne.
Qed.
End properties.

(** ** Path names *)

(** The elements of a path: the non-empty parts between slashes. *)
Fixpoint split_slash (s : list Z) : list (list Z) :=
  match s with
  | [] => [[]]
  | c :: s' =>
      if c =? slash then [] :: split_slash s'
      else match split_slash s' with
           | e :: r => (c :: e) :: r
           | [] => [[c]]
           end
  end.

Definition path_elems (p : list Z) : list (list Z) := filter (fun e => e ≠ []) (split_slash (cstr p)).

Lemma path_elems_skip p : path_elems (skip_slashes p) = path_elems p.
Proof.
  induction p as [|c p IH]; [done|]. cbn [skip_slashes].
  destruct (Z.eqb_spec c slash) as [->|]; [|done]. rewrite IH. done.
Qed.

Lemma skip_slashes_hd p : hd 0 (skip_slashes p) ≠ slash.
Proof.
  induction p as [|c p IH]; [done|]. cbn [skip_slashes]. by destruct (Z.eqb_spec c slash).
Qed.

Lemma take_elem_split p e rest : take_elem p = (e, rest) ->
  split_slash (cstr p) = e :: tail (split_slash (cstr rest)) /\ hd [] (split_slash (cstr rest)) = [] /\
  Forall (fun c => c ≠ 0) e.
Proof.
  revert e rest. induction p as [|c p IH]; intros e rest; cbn [take_elem].
  - intros [= <- <-]. done.
  - destruct (Z.eqb_spec c slash) as [->|H1]; simpl.
    { intros [= <- <-]. done. }
    destruct (Z.eqb_spec c 0) as [->|H2]; simpl.
    { intros [= <- <-]. done. }
    destruct (take_elem p) as [e' rest'] eqn:E. intros [= <- <-].
    destruct (IH e' rest' eq_refl) as (-> & Hh & Hf).
    destruct (Z.eqb_spec c slash); [done|]. split_and!; [done|done|by constructor].
Qed.

Lemma cstr_name name e : Forall (fun c => c ≠ 0) e -> zlen name = DIRSIZ ->
  let name' := if DIRSIZ <=? zlen e then blit name 0 (take (Z.to_nat DIRSIZ) e)
               else wr (blit name 0 e) (zlen e) 0 in
  take (Z.to_nat DIRSIZ) (cstr name') = take (Z.to_nat DIRSIZ) e /\ zlen name' = DIRSIZ.
Proof.
  intros He Hn. assert (H0 := zlen_nonneg e). destruct (Z.leb_spec DIRSIZ (zlen e)) as [Hl|Hl]; simpl.
  - assert (Ht : length (take (Z.to_nat DIRSIZ) e) = Z.to_nat DIRSIZ) by (rewrite length_take; unfold zlen, DIRSIZ in *; lia).
    rewrite blit_all by (unfold zlen, DIRSIZ in *; lia). split.
    + rewrite cstr_id by by apply Forall_take. by rewrite take_take, Nat.min_id.
    + unfold zlen, DIRSIZ in *. lia.
  - rewrite zlen_wr, zlen_blit by lia. split; [|done].
    assert (E : wr (blit name 0 e) (zlen e) 0 = e ++ 0 :: drop (S (length e)) name).
    { unfold wr. rewrite decide_True by lia. unfold blit. simpl. unfold zlen. rewrite Nat2Z.id.
      rewrite insert_app_r_alt by lia. rewrite Nat.sub_diag. f_equal.
      destruct (drop (length e) name) as [|x l] eqn:Ed.
      { apply (f_equal length) in Ed. rewrite length_drop in Ed. unfold zlen, DIRSIZ in *. simpl in Ed. lia. }
      simpl. f_equal. replace (S (length e)) with (length e + 1)%nat by lia. rewrite <- drop_drop, Ed. done. }
    rewrite E, cstr_app_nul by done. done.
Qed.

(** [skipelem] takes the next element of a path.  It returns 0 exactly
    when no element is left; otherwise the name it stores is the first
    element, cut to [DIRSIZ] bytes, the path it returns has the remaining
    elements, and that path does not start with a slash. *)
Theorem skipelem_correct path name :
  zlen name = DIRSIZ ->
  match skipelem path name with
  | None => path_elems path = []
  | Some (path', name') => exists e, path_elems path = e :: path_elems path' /\ e ≠ [] /\
      take (Z.to_nat DIRSIZ) (cstr name') = take (Z.to_nat DIRSIZ) e /\
      zlen name' = DIRSIZ /\ hd 0 path' ≠ slash
  end.
Proof.
  intros Hn. unfold skipelem. rewrite <- path_elems_skip. assert (Hs := skip_slashes_hd path).
  set (p := skip_slashes path) in *. clearbody p. destruct (Z.eqb_spec (hd 0 p) 0) as [E0|E0].
  - unfold path_elems. by rewrite (cstr_end p).
  - destruct (take_elem p) as [e rest] eqn:Et. destruct (take_elem_split _ _ _ Et) as (Es & Hh & Hf).
    assert (Hne : e ≠ []).
    { destruct p as [|c p]; [done|]. simpl in Hs, E0, Et. destruct (Z.eqb_spec c slash); [done|].
      destruct (Z.eqb_spec c 0); [done|]. simpl in Et. destruct (take_elem p). injection Et as <- _. done. }
    exists e. destruct (cstr_name name e Hf Hn) as [Hc Hz]. split_and!; try done; [|apply skip_slashes_hd].
    rewrite path_elems_skip. unfold path_elems. rewrite Es, filter_cons_True by done. f_equal.
    destruct (split_slash (cstr rest)) as [|h t]; [done|]. simpl in Hh. subst h. done.
Qed.

Lemma skipelem_correct_witness :
  match skipelem [47; 47; 97; 47; 47; 98] (replicate 14 0) with
  | None => path_elems [47; 47; 97; 47; 47; 98] = []
  | Some (path', name') => exists e, path_elems [47; 47; 97; 47; 47; 98] = e :: path_elems path' /\ e ≠ [] /\
      take (Z.to_nat DIRSIZ) (cstr name') = take (Z.to_nat DIRSIZ) e /\
      zlen name' = DIRSIZ /\ hd 0 path' ≠ slash
  end.
Proof. apply (skipelem_correct [47; 47; 97; 47; 47; 98] (replicate 14 0)). reflexivity. Defined.
