(* ===== verification/Namei.v ===== *)
(** * Path names lead to inodes (ilock, iput, namex of fs.c)

    [namex] walks from a directory to the inode that a path names, locking and
    releasing the inodes on its way.  It returns the inode that the directories
    on the disk give for the elements of the path, with one more reference, and
    leaves all other reference counts as they were. *)

From S2P Require Import Prelude Param Cstring SleepLock Layout BlockStore Fs FsBlocks FsFile FsWrite FsDir FsSpec.

(** ** Walking on the disk *)

Section tree.
Context (g : superblock) (v : Z -> block).

Definition dir_at (n : Z) : list dirent := dirents (contents v (d_addrs (dinode_at g v n)) (d_size (dinode_at g v n))).

(** The inode that the elements of a path lead to from inode [n]; with [parent]
    the directory of the last one. *)
Fixpoint walk (parent : bool) (n : Z) (elems : list (list Z)) : option Z :=
  match elems with
  | [] => if parent then None else Some n
  | e :: elems' =>
      if negb (d_type (dinode_at g v n) =? T_DIR) then None
      else if parent && bool_decide (elems' = []) then Some n
      else match dir_find e (dir_at n) with
           | None => None
           | Some (_, de) => walk parent (de_inum de) elems'
           end
  end.

(** An inode that is in use, with the blocks of its contents. *)
Record good_inode (n : Z) : Prop := {
  gi_range : 0 <= n < sb_ninodes g;
  gi_type : d_type (dinode_at g v n) ≠ 0;
  gi_link : d_nlink (dinode_at g v n) ≠ 0;
  gi_wf : file_wf g v (d_addrs (dinode_at g v n));
  gi_size : 0 <= d_size (dinode_at g v n) <= MAXFILE * BSIZE;
  gi_mapped : mapped v (d_addrs (dinode_at g v n)) (d_size (dinode_at g v n));
  gi_dir : d_type (dinode_at g v n) = T_DIR -> d_size (dinode_at g v n) mod sizeof_dirent = 0
}.

(** The inodes [N] are in use, and so are those that their entries name. *)
Definition tree (N : Z -> Prop) : Prop := forall n, N n ->
  good_inode n /\ (d_type (dinode_at g v n) = T_DIR -> forall de, de ∈ dir_at n -> de_inum de ≠ 0 -> N (de_inum de)).
End tree.

Lemma dir_find_elem name l k de : dir_find name l = Some (k, de) -> de ∈ l /\ de_inum de ≠ 0.
Proof.
  revert k. induction l as [|x l IH]; intros k; simpl; [done|]. destruct (entry_matches name x) eqn:E.
  - intros [= <- <-]. split; [left|]. unfold entry_matches in E. bool_prop. done.
  - destruct (dir_find name l) as [[j y]|]; [|done]. intros [= _ <-]. destruct (IH j eq_refl). split; [by right|done].
Qed.

(** Looking up the array that [skipelem] filled is looking up the element. *)
Lemma dir_find_name name e l : Forall is_u8 name -> Forall is_u8 e -> Forall (fun c => c ≠ 0) e ->
  take (Z.to_nat DIRSIZ) (cstr name) = take (Z.to_nat DIRSIZ) e -> Forall (fun de => Forall is_u8 (de_name de)) l ->
  dir_find name l = dir_find e l.
Proof.
  intros Un Ue Ne Et. induction 1 as [|de l Hd _ IH]; simpl; [done|].
  assert (E : entry_matches name de = entry_matches e de); [|by rewrite E, IH].
  unfold entry_matches. f_equal. apply eq_true_iff_eq. rewrite !Z.eqb_eq. unfold namecmp.
  rewrite !strncmp_zero by done. by rewrite Et, (cstr_id e).
Qed.

(** ** The bytes of a path *)

Lemma split_slash_in t e c : e ∈ split_slash t -> c ∈ e -> c ∈ t.
Proof.
  revert e. induction t as [|x t IH]; intros e; cbn [split_slash].
  - rewrite list_elem_of_singleton. intros ->. by rewrite elem_of_nil.
  - destruct (x =? slash); [rewrite elem_of_cons; intros [->|He] Hc; [by apply elem_of_nil in Hc|right; by eapply IH]|].
    destruct (split_slash t) as [|y r]; [rewrite list_elem_of_singleton; intros ->; rewrite list_elem_of_singleton; intros ->; left|].
    rewrite elem_of_cons. intros [->|He] Hc; [apply elem_of_cons in Hc as [->|Hc]; [left|right; apply (IH y); [left|done]]|].
    right. apply (IH e); [by right|done].
Qed.

Lemma path_elem_ok p e : Forall is_u8 p -> e ∈ path_elems p -> Forall is_u8 e /\ Forall (fun c => c ≠ 0) e.
Proof.
  intros Hp He. unfold path_elems in He. apply list_elem_of_filter in He as [_ He].
  assert (H1 := cstr_u8 p Hp). assert (H2 := cstr_nonzero p). rewrite Forall_forall in H1, H2.
  split; apply Forall_forall; intros c Hc; [apply H1|apply H2]; by eapply split_slash_in.
Qed.

Lemma skip_slashes_u8 p : Forall is_u8 p -> Forall is_u8 (skip_slashes p).
Proof. induction 1 as [|c p Hc Hp IH]; simpl; [constructor|]. destruct (c =? slash); [done|by constructor]. Qed.

Lemma take_elem_u8 p e rest : Forall is_u8 p -> take_elem p = (e, rest) -> Forall is_u8 e /\ Forall is_u8 rest.
Proof.
  intros Hp. revert e rest. induction Hp as [|c p Hc Hp IH]; intros e rest; simpl; [by intros [= <- <-]|].
  destruct (_ || _); [intros [= <- <-]; split; [constructor|by constructor]|]. destruct (take_elem p) as [e' r']. intros [= <- <-].
  destruct (IH e' r' eq_refl). split; [by constructor|done].
Qed.

Lemma skipelem_u8 p name p' name' : Forall is_u8 p -> Forall is_u8 name -> skipelem p name = Some (p', name') -> Forall is_u8 p' /\ Forall is_u8 name'.
Proof.
  intros Hp Hn. unfold skipelem. destruct (hd 0 _ =? 0); [done|]. destruct (take_elem _) as [e rest] eqn:E. intros [= <- <-].
  destruct (take_elem_u8 _ e rest (skip_slashes_u8 p Hp) E) as [He Hr]. split; [by apply skip_slashes_u8|].
  assert (B : forall x, Forall is_u8 x -> Forall is_u8 (blit name 0 x)) by (intros x Hx; unfold blit; repeat apply Forall_app_2; [by apply Forall_take|done|by apply Forall_drop]).
  destruct (_ <=? _); [apply B; by apply Forall_take|]. unfold wr. case_decide; [apply Forall_insert; [by apply B|done]|by apply B].
Qed.

(** A path that [skipelem] returned has an element unless it is at its end. *)
Lemma path_elems_end p : hd 0 p ≠ slash -> path_elems p = [] <-> hd 0 p = 0.
Proof.
  intros Hs. destruct p as [|c p]; [done|]. simpl in *. unfold path_elems. simpl. destruct (Z.eqb_spec c 0) as [->|H0]; [done|].
  split; [|done]. simpl. destruct (Z.eqb_spec c slash); [done|]. by destruct (split_slash (cstr p)).
Qed.

Lemma path_elems_length p : (length (path_elems p) <= length p)%nat.
Proof.
  assert (A : forall t, (length (filter (fun e => e ≠ []) (split_slash t)) <= length t)%nat).
  { clear p. induction t as [|c t IH]; [done|]. cbn [split_slash length]. destruct (c =? slash); [rewrite filter_cons_False by tauto; lia|].
    destruct (split_slash t) as [|e r]; [rewrite filter_cons_True by done; simpl; lia|]. rewrite filter_cons_True by done. rewrite filter_cons in IH. cbn [length].
    case_decide; simpl in IH; lia. }
  unfold path_elems. etransitivity; [apply A|]. clear A. induction p as [|c p IH]; simpl; [done|]. destruct (c =? 0); simpl; lia.
Qed.

(** ** The inode cache *)

(** The references to inode [n], and the free slots. *)
Definition nref (l : list inode) (n : Z) : Z := zsum (fun i => if decide (caches i ROOTDEV n) then ref i else 0) l.
Definition slots (l : list inode) : Z := zsum (fun i => if decide (ref i = 0) then 1 else 0) l.

Definition one (m n : Z) : Z := if decide (m = n) then 1 else 0.

(** Between calls no inode is locked, and the inodes in use agree with the
    disk. *)
Record cache_ok (g : superblock) (v : Z -> block) (N : Z -> Prop) (l : list inode) : Prop := {
  co_unique : icache_unique l;
  co_lock : forall j i, l !! j = Some i -> ilk i = initsleeplock;
  co_ref : forall j i, l !! j = Some i -> 0 <= ref i;
  co_live : forall j i, l !! j = Some i -> 0 < ref i -> idev i = ROOTDEV /\ N (inum i) /\
    (valid i = 0 \/ valid i = 1 /\ dinode_of i = dinode_at g v (inum i))
}.

Lemma nref_slot l j i n : icache_unique l -> (forall j i, l !! j = Some i -> 0 <= ref i) -> l !! j = Some i -> caches i ROOTDEV n -> nref l n = ref i.
Proof.
  intros U R Hj Hc. assert (E := zsum_insert (fun i => if decide (caches i ROOTDEV n) then ref i else 0) l j i (set_ref 0 i) Hj).
  cbv beta in E. rewrite (decide_True (P := caches i ROOTDEV n)) in E by done.
  rewrite (decide_False (P := caches (set_ref 0 i) ROOTDEV n)) in E by (intros [X _]; simpl in X; lia).
  rewrite (zsum_zero _ (<[j := set_ref 0 i]> l)) in E; [unfold nref; lia|]. intros k x Hx. simpl. apply list_lookup_insert_Some in Hx as [(-> & <- & _)|[Nk Hx]].
  - rewrite decide_False; [done|]. intros [X _]. simpl in X. lia.
  - rewrite decide_False; [done|]. intros Hc'. apply Nk. by apply (U j k i x ROOTDEV n).
Qed.

Lemma slots_free l : 1 <= slots l -> exists j i, l !! j = Some i /\ ref i = 0.
Proof.
  unfold slots. induction l as [|x l IH]; simpl; [lia|]. case_decide as E; [intros _; by exists 0%nat, x|].
  intros H. destruct (IH H) as (j & i & Hj & Hi). by exists (S j), i.
Qed.

(** One more reference to inode [m], in slot [j]. *)
Inductive got (l : list inode) (m : Z) (j : nat) : list inode -> Prop :=
  | got_hit i : l !! j = Some i -> caches i ROOTDEV m -> got l m j (<[j := set_ref (ref i + 1) i]> l)
  | got_miss i x : l !! j = Some i -> ref i = 0 -> (forall k y, l !! k = Some y -> ~ caches y ROOTDEV m) ->
      caches x ROOTDEV m -> ref x = 1 -> valid x = 0 -> ilk x = ilk i -> got l m j (<[j := x]> l).

Section cache.
Context (g : superblock) (v : Z -> block) (N : Z -> Prop).
Notation cache_ok := (cache_ok g v N).

Lemma caches_set_ref i r d n : 0 < r -> 0 < ref i -> caches (set_ref r i) d n <-> caches i d n.
Proof. unfold caches. simpl. intuition. Qed.

Lemma unique_same l j i i' : icache_unique l -> l !! j = Some i -> (forall d n, caches i' d n -> caches i d n) -> icache_unique (<[j := i']> l).
Proof.
  intros U Hj Hc a b x y d n Ha Hb Cx Cy. apply list_lookup_insert_Some in Ha as [(<- & <- & _)|[Na Ha]]; apply list_lookup_insert_Some in Hb as [(<- & <- & _)|[Nb Hb]].
  - done.
  - apply (U j b i y d n); auto.
  - apply (U a j x i d n); auto.
  - by apply (U a b x y d n).
Qed.

Lemma cache_got l m j l' : cache_ok l -> N m -> got l m j l' ->
  cache_ok l' /\ (forall n, nref l' n = nref l n + one m n) /\
  exists i i', l !! j = Some i /\ l' !! j = Some i' /\ caches i' ROOTDEV m /\
    (ref i = 0 /\ ref i' = 1 /\ slots l' = slots l - 1 \/ 0 < ref i /\ ref i' = ref i + 1 /\ slots l' = slots l).
Proof.
  intros [U Lk Rf Lv] Nm G. destruct G as [i Hj Hc|i x Hj Hr Hn Hx Hx1 Hxv Hxl].
  all: assert (Hl := lookup_lt_Some _ _ _ Hj).
  - assert (H0 : 0 < ref i) by apply Hc. assert (Cs : forall d n, caches (set_ref (ref i + 1) i) d n <-> caches i d n) by (intros; apply caches_set_ref; lia).
    split; [split|split].
    + eapply unique_same; [done|done|]. intros d n. by rewrite Cs.
    + intros k y Hy. apply list_lookup_insert_Some in Hy as [(-> & <- & _)|[_ Hy]]; [by apply (Lk k i)|by eapply Lk].
    + intros k y Hy. apply list_lookup_insert_Some in Hy as [(-> & <- & _)|[_ Hy]]; [simpl; lia|by eapply Rf].
    + intros k y Hy. apply list_lookup_insert_Some in Hy as [(-> & <- & _)|[_ Hy]]; [intros _; by apply (Lv k i)|by eapply Lv].
    + intros n. unfold nref. rewrite (zsum_insert _ _ _ _ _ Hj). unfold one. destruct Hc as (_ & E1 & E2).
      repeat case_decide; simpl; try lia; rewrite ?Cs in *; unfold caches in *; try tauto; subst; tauto.
    + exists i, (set_ref (ref i + 1) i). split; [done|]. split; [by apply list_lookup_insert_eq|]. split; [by rewrite Cs|].
      right. split; [done|]. split; [done|]. unfold slots. rewrite (zsum_insert _ _ _ _ _ Hj). simpl. repeat case_decide; lia.
  - assert (H0 : ~ 0 < ref i) by lia. split; [split|split].
    + intros a b y z d n Ha Hb Cy Cz. apply list_lookup_insert_Some in Ha as [(<- & <- & _)|[Na Ha]]; apply list_lookup_insert_Some in Hb as [(<- & <- & _)|[Nb Hb]]; try done.
      * destruct Hx as (_ & E1 & E2), Cy as (_ & E3 & E4). subst. destruct (Hn b z Hb). by rewrite E1 in Cz || (rewrite <- E1, <- E2).
      * destruct Hx as (_ & E1 & E2), Cz as (_ & E3 & E4). subst. destruct (Hn a y Ha). by rewrite E1 in Cy || (rewrite <- E1, <- E2).
      * by apply (U a b y z d n).
    + intros k y Hy. apply list_lookup_insert_Some in Hy as [(-> & <- & _)|[_ Hy]]; [rewrite Hxl; by apply (Lk k i)|by eapply Lk].
    + intros k y Hy. apply list_lookup_insert_Some in Hy as [(-> & <- & _)|[_ Hy]]; [lia|by eapply Rf].
    + intros k y Hy. apply list_lookup_insert_Some in Hy as [(-> & <- & _)|[_ Hy]]; [|by eapply Lv]. intros _. destruct Hx as (_ & -> & ->). auto.
    + intros n. unfold nref. rewrite (zsum_insert _ _ _ _ _ Hj). unfold one. rewrite (decide_False (P := caches i ROOTDEV n)) by (intros [? _]; lia).
      destruct (decide (m = n)) as [<-|Nn]; [rewrite decide_True by done; lia|]. rewrite decide_False; [lia|]. intros (_ & _ & X). apply Nn. rewrite <- X. symmetry. apply Hx.
    + exists i, x. split; [done|]. split; [by apply list_lookup_insert_eq|]. split; [done|]. left. split; [done|]. split; [done|].
      unfold slots. rewrite (zsum_insert _ _ _ _ _ Hj). repeat case_decide; lia.
Qed.

(** One reference less. *)
Lemma cache_put l j i m : cache_ok l -> l !! j = Some i -> caches i ROOTDEV m -> let l' := <[j := set_ref (ref i - 1) i]> l in
  cache_ok l' /\ (forall n, nref l' n = nref l n - one m n) /\ slots l' = slots l + (if decide (ref i = 1) then 1 else 0).
Proof.
  intros [U Lk Rf Lv] Hj Hc l'. assert (H0 : 0 < ref i) by apply Hc. split; [split|split].
  - eapply unique_same; [done|done|]. unfold caches. simpl. intuition lia.
  - intros k y Hy. apply list_lookup_insert_Some in Hy as [(-> & <- & _)|[_ Hy]]; [by apply (Lk k i)|by eapply Lk].
  - intros k y Hy. apply list_lookup_insert_Some in Hy as [(-> & <- & _)|[_ Hy]]; [simpl; lia|by eapply Rf].
  - intros k y Hy. apply list_lookup_insert_Some in Hy as [(-> & <- & _)|[_ Hy]]; [intros _; by apply (Lv k i)|by eapply Lv].
  - intros n. unfold nref, l'. rewrite (zsum_insert _ _ _ _ _ Hj). unfold one. destruct Hc as (_ & E1 & E2). cbn [ref set_ref].
    destruct (decide (m = n)) as [<-|Nn].
    + rewrite (decide_True (P := caches i ROOTDEV m)) by done. case_decide as D; [lia|]. assert (ref i = 1); [|lia].
      destruct (decide (ref i = 1)); [done|]. destruct D. unfold caches. simpl. split; [lia|done].
    + rewrite !decide_False; [lia|unfold caches; simpl; intuition congruence|unfold caches; intuition congruence].
  - unfold slots, l'. rewrite (zsum_insert _ _ _ _ _ Hj). cbn [ref set_ref]. repeat case_decide; lia.
Qed.

(** The inode with its copy from the disk. *)
Definition loaded (i : inode) : inode := load_dinode (dinode_at g v (inum i)) (set_valid 1 i).

Lemma cache_load l j i : cache_ok l -> l !! j = Some i -> 0 < ref i ->
  cache_ok (<[j := loaded i]> l) /\ (forall n, nref (<[j := loaded i]> l) n = nref l n) /\ slots (<[j := loaded i]> l) = slots l.
Proof.
  intros [U Lk Rf Lv] Hj H0. split; [split|split].
  - eapply unique_same; [done|done|]. done.
  - intros k y Hy. apply list_lookup_insert_Some in Hy as [(-> & <- & _)|[_ Hy]]; [by apply (Lk k i)|by eapply Lk].
  - intros k y Hy. apply list_lookup_insert_Some in Hy as [(-> & <- & _)|[_ Hy]]; [simpl; lia|by eapply Rf].
  - intros k y Hy. apply list_lookup_insert_Some in Hy as [(-> & <- & _)|[_ Hy]]; [|by eapply Lv]. intros _. destruct (Lv k i Hj H0) as (X1 & X2 & _).
    split; [done|]. split; [done|]. right. split; [done|]. unfold loaded. simpl. by destruct (dinode_at g v (inum i)).
  - intros n. unfold nref. rewrite (zsum_insert _ _ _ _ _ Hj).
    destruct (decide (caches i ROOTDEV n)) as [D|D]; [rewrite (decide_True (P := caches (loaded i) ROOTDEV n)) by done|rewrite (decide_False (P := caches (loaded i) ROOTDEV n)) by done]; simpl; lia.
  - unfold slots. rewrite (zsum_insert _ _ _ _ _ Hj). change (ref (loaded i)) with (ref i). lia.
Qed.
End cache.

(** ** The calls *)

Section calls.
Context {S : Type} {BS : BlockStore S} {BL : BlockStoreLaws S} (devsw : Z -> devsw_entry S).
Context (e : benv) (g : superblock) (me : Z) (v : Z -> block) (L : gset Z) (HL : Z.of_nat (size L) <= 28).
Implicit Types (s : fstate S).

(** The state with the inode cache [l]. *)
Record cst s (l : list inode) : Prop := {
  cs_env : env s = e;
  cs_sb : sb s = g;
  cs_pid : fpid s = me;
  cs_cache : icache s = l;
  cs_rep : fs_rep s v L ∅
}.

Lemma cst_at s l j i : cst s l -> l !! j = Some i -> inode_at s j = i.
Proof. intros C H. apply inode_at_lookup. by rewrite (cs_cache _ _ C). Qed.

Lemma cst_set s l j i f : cst s l -> l !! j = Some i -> cst (set_inode j f s) (<[j := f i]> l).
Proof.
  intros C H. rewrite <- (cst_at _ _ _ _ C H). destruct C as [C1 C2 C3 C4 C5]. split; try done; [simpl; by rewrite C4|by apply fs_rep_inode].
Qed.

Definition locked_by (i : inode) : inode := set_ilk (SleepLock true me) i.

Lemma wp_ilock s l ip i (Q : unit -> fstate S -> Prop) : cst s l -> l !! ip = Some i -> ilk i = initsleeplock -> 0 < ref i -> idev i = ROOTDEV ->
  good_inode g v (inum i) -> valid i = 0 \/ valid i = 1 /\ dinode_of i = dinode_at g v (inum i) ->
  (forall s', cst s' (<[ip := locked_by (loaded g v i)]> l) -> Q tt s') -> wp (ilock ip) Q s.
Proof.
  intros C Hi Hl Hr Hd G Hv HQ. unfold ilock. wp_step. wp_step. rewrite (cst_at _ _ _ _ C Hi). destruct (Z.ltb_spec (ref i) 1); [lia|].
  wp_step. unfold acquire_inode. wp_step. wp_step. rewrite (cst_at _ _ _ _ C Hi), Hl, (cs_pid _ _ C). change (acquiresleep me initsleeplock) with (Some (SleepLock true me)). cbv iota.
  unfold imod. wp_step. assert (C1 := cst_set s l ip i (set_ilk (SleepLock true me)) C Hi). assert (Hlt := lookup_lt_Some _ _ _ Hi).
  set (i1 := set_ilk (SleepLock true me) i) in *. set (l1 := <[ip := i1]> l) in *. assert (Hi1 : l1 !! ip = Some i1) by (by apply list_lookup_insert_eq).
  set (s1 := set_inode ip _ s) in *. clearbody s1. wp_step. wp_step. rewrite (cst_at _ _ _ _ C1 Hi1). change (valid i1) with (valid i). change (inum i1) with (inum i). change (idev i1) with (idev i).
  destruct Hv as [Hv|[Hv Hdi]]; rewrite Hv; simpl (_ =? 0); cbv iota.
  2:{ wp_step. apply HQ. replace (locked_by (loaded g v i)) with i1; [done|]. unfold i1, locked_by, loaded. rewrite <- Hdi. destruct i; simpl in *. by subst. }
  assert (Gm := fr_geom _ _ _ _ (cs_rep _ _ C1)). rewrite (cs_sb _ _ C1) in Gm |- *. assert (Wi := inode_writable _ _ Gm (inum i) (gi_range _ _ _ G)).
  rewrite Hd. wp_step. eapply wp_bread'; [apply C1|apply Wi|done|rewrite map_size_empty; lia|]. intros bp t _ Et Rt. rewrite insert_empty in Rt. wp_step.
  eapply wp_data'; [exact Rt|apply lookup_singleton_eq|]. change (get_dinode _ _) with (dinode_at g v (inum i)). wp_step. wp_step. wp_step.
  set (s2 := set_inode ip _ (set_blk t s1)). assert (R2 : fs_rep s2 v L {[bp := IBLOCK (inum i) g]}) by (by apply fs_rep_inode).
  eapply wp_brelse'; [exact R2|apply lookup_singleton_eq|]. intros t2 Et2 R3. rewrite delete_singleton_eq in R3. wp_step. wp_step.
  match goal with |- context [?t =? 0] => change t with (d_type (dinode_at g v (inum i))) end.
  destruct (Z.eqb_spec (d_type (dinode_at g v (inum i))) 0) as [E0|_]; [by destruct (gi_type _ _ _ G)|]. wp_step. apply HQ.
  assert (C3 : cst (set_blk t2 s2) (<[ip := load_dinode (dinode_at g v (inum i)) i1]> l)).
  { split; try done; try apply C1; [exact (eq_trans Et2 (eq_trans Et (cs_env _ _ C1)))|]. unfold s2. cbn [set_inode set_blk set_icache icache].
    rewrite (cs_cache _ _ C1). unfold inode_at. cbn [set_blk icache]. rewrite (cs_cache _ _ C1), Hi1. simpl. unfold l1. by rewrite list_insert_insert_eq. }
  assert (C4 := cst_set _ _ ip _ (set_valid 1) C3 ltac:(by apply list_lookup_insert_eq)). by rewrite list_insert_insert_eq in C4.
Qed.

Lemma wp_iput s l ip i (Q : unit -> fstate S -> Prop) : cst s l -> l !! ip = Some i -> ilk i = initsleeplock -> 0 < ref i < 2 ^ 31 ->
  valid i = 0 \/ nlink i ≠ 0 -> (forall s', cst s' (<[ip := set_ref (ref i - 1) i]> l) -> Q tt s') -> wp (iput ip) Q s.
Proof.
  intros C Hi Hl Hr Hn HQ. assert (Hlt := lookup_lt_Some _ _ _ Hi). unfold iput. wp_step. unfold acquire_inode. wp_step. wp_step.
  rewrite (cst_at _ _ _ _ C Hi), Hl, (cs_pid _ _ C). change (acquiresleep me initsleeplock) with (Some (SleepLock true me)). cbv iota. unfold imod. wp_step.
  assert (C1 := cst_set s l ip i (set_ilk (SleepLock true me)) C Hi). set (s1 := set_inode ip _ s) in *. clearbody s1. wp_step. wp_step.
  rewrite (cst_at _ _ ip _ C1 ltac:(by apply list_lookup_insert_eq)).
  assert (E : negb (valid (set_ilk (SleepLock true me) i) =? 0) && (nlink (set_ilk (SleepLock true me) i) =? 0) = false).
  { cbn [valid nlink set_ilk]. destruct Hn as [->|Hn]; [done|]. apply Z.eqb_neq in Hn. rewrite Hn. apply andb_false_r. }
  rewrite E. wp_step. wp_step. wp_step. unfold release_inode, imod. wp_step. wp_step.
  assert (C2 := cst_set s1 _ ip _ (fun i => set_ilk (releasesleep (ilk i)) i) C1 ltac:(by apply list_lookup_insert_eq)). rewrite list_insert_insert_eq in C2.
  set (s2 := set_inode ip _ s1) in *. clearbody s2.
  assert (C3 := cst_set s2 _ ip _ (fun i => set_ref (s32 (ref i - 1)) i) C2 ltac:(by apply list_lookup_insert_eq)). rewrite list_insert_insert_eq in C3.
  apply HQ. cbn [ref set_ilk] in C3. rewrite s32_id in C3 by (unfold is_s32; lia). replace (set_ref (ref i - 1) i) with (set_ref (ref i - 1) (set_ilk (releasesleep (ilk (set_ilk (SleepLock true me) i))) (set_ilk (SleepLock true me) i))); [done|].
  destruct i; simpl in *. by subst.
Qed.

Lemma wp_iunlock s l ip i (Q : unit -> fstate S -> Prop) : cst s l -> l !! ip = Some (locked_by i) -> ilk i = initsleeplock -> 0 < ref i ->
  (forall s', cst s' (<[ip := i]> l) -> Q tt s') -> wp (iunlock ip) Q s.
Proof.
  intros C Hi Hl Hr HQ. unfold iunlock. wp_step. wp_step. rewrite (cst_at _ _ _ _ C Hi), (cs_pid _ _ C). cbn [locked_by ilk ref set_ilk].
  unfold holdingsleep. simpl. rewrite Z.eqb_refl. simpl. destruct (Z.ltb_spec (ref i) 1); [lia|]. simpl. unfold release_inode, imod. wp_step.
  apply HQ. assert (C1 := cst_set s l ip _ (fun i => set_ilk (releasesleep (ilk i)) i) C Hi).
  assert (Ei : set_ilk (releasesleep (ilk (locked_by i))) (locked_by i) = i) by (destruct i; simpl in *; by subst).
  cbv beta in C1. by rewrite Ei in C1.
Qed.

(** [iget] while inode [ip] is locked. *)
Lemma iget_got s l s' m j : icache s = l -> iget_post s s' ROOTDEV m j -> got l m j (icache s').
Proof.
  intros <- [I1 I2 I3 I4 I5]. assert (Hj := lookup_inode_at s j I1). assert (E : icache s' = <[j := inode_at s' j]> (icache s)) by (rewrite I5 at 1; done).
  rewrite E. destruct (decide (caches (inode_at s j) ROOTDEV m)) as [Hc|Hc].
  - rewrite (I3 Hc). by apply got_hit.
  - destruct (I4 Hc) as (R0 & Hn & R1 & V0 & Lk). eapply got_miss; try done. intros k y Hy. rewrite <- (inode_at_lookup _ _ _ Hy). apply Hn. by eapply lookup_lt_Some.
Qed.

Lemma iget_cst s l s' d m j : cst s l -> iget_post s s' d m j -> cst s' (icache s').
Proof.
  intros [C1 C2 C3 C4 C5] Ig. assert (E := ig_rest _ _ _ _ _ Ig).
  assert (Eb : blk s' = blk s /\ sb s' = sb s /\ fpid s' = fpid s) by (rewrite E; done). destruct Eb as (E1 & E2 & E3). unfold env in *.
  split; unfold env; rewrite ?E1, ?E2, ?E3; try done. destruct C5 as [F1 F2 F3 F4 F5]. unfold env in *. split; unfold env; rewrite ?E1, ?E2; done.
Qed.

Lemma quiet_cst s l s' : cst s l -> quiet s s' -> fs_rep s' v L ∅ -> cst s' l.
Proof. intros [C1 C2 C3 C4 C5] (Q1 & Q2 & Q3 & Q4) R. split; congruence || done. Qed.

Lemma got_locked lu ip i1 m j l2 : lu !! ip = Some i1 -> 0 < ref i1 -> got (<[ip := locked_by i1]> lu) m j l2 ->
  exists lu2 i2, got lu m j lu2 /\ lu2 !! ip = Some i2 /\ l2 = <[ip := locked_by i2]> lu2 /\
    (j ≠ ip /\ i2 = i1 \/ j = ip /\ i2 = set_ref (ref i1 + 1) i1).
Proof.
  intros Hi Hr G. assert (Hlt := lookup_lt_Some _ _ _ Hi). inversion G as [i Hj Hc E|i x Hj H0 Hn Hx Hx1 Hxv Hxl E]; subst l2.
  - apply list_lookup_insert_Some in Hj as [(<- & <- & _)|[Nj Hj]].
    + exists (<[ip := set_ref (ref i1 + 1) i1]> lu), (set_ref (ref i1 + 1) i1). split; [by apply got_hit|]. split; [by apply list_lookup_insert_eq|].
      rewrite !list_insert_insert_eq. split; [done|]. by right.
    + exists (<[j := set_ref (ref i + 1) i]> lu), i1. split; [by apply got_hit|]. split; [by rewrite list_lookup_insert_ne|].
      split; [by apply list_insert_insert_ne|]. left. by split.
  - apply list_lookup_insert_Some in Hj as [(<- & <- & _)|[Nj Hj]]; [simpl in H0; lia|]. exists (<[j := x]> lu), i1.
    split; [|split; [by rewrite list_lookup_insert_ne|split; [by apply list_insert_insert_ne|left; by split]]]. eapply got_miss; try done.
    intros k y Hy Hc. destruct (decide (k = ip)) as [->|Nk].
    + apply (Hn ip (locked_by i1)); [by apply list_lookup_insert_eq|]. simplify_eq. done.
    + apply (Hn k y); [by rewrite list_lookup_insert_ne|done].
Qed.

Context (N : Z -> Prop) (TN : tree g v N) (base : Z -> Z) (Hbase : forall n, 0 <= base n < 2 ^ 31 - 3).

(** The walk is at inode [n], in slot [ip]. *)
Record walker (l : list inode) (ip : nat) (i : inode) (n : Z) : Prop := {
  wk_ok : cache_ok g v N l;
  wk_slot : l !! ip = Some i;
  wk_inode : caches i ROOTDEV n;
  wk_room : 2 <= slots l + (if decide (ref i = 1) then 1 else 0);
  wk_ref : forall k, nref l k = base k + one n k
}.

Lemma walker_refs l ip i n j x : walker l ip i n -> l !! j = Some x -> 0 <= ref x < 2 ^ 31 - 2.
Proof using Hbase.
  clear HL. intros [[U Lk Rf Lv] _ _ _ W] Hx. assert (R0 := Rf j x Hx). split; [done|]. destruct (decide (ref x = 0)) as [->|Nz]; [lia|].
  destruct (Lv j x Hx ltac:(lia)) as (Ed & _). rewrite <- (nref_slot l j x (inum x)); [|done|done|done|unfold caches; split; [lia|done]].
  rewrite W. assert (B := Hbase (inum x)). unfold one. case_decide; lia.
Qed.

Lemma walker_N l ip i n : walker l ip i n -> N n /\ good_inode g v n.
Proof using TN.
  intros [C Hs Hc _ _]. assert (Nn : N n). { destruct (co_live _ _ _ _ C ip i Hs) as (_ & X & _); [apply Hc|]. by destruct Hc as (_ & _ & <-). }
  split; [done|]. by apply TN.
Qed.

(** Locking the inode loads it. *)
Lemma wp_walk_lock s l ip i n (Q : unit -> fstate S -> Prop) : cst s l -> walker l ip i n ->
  (forall s' lu i1, walker lu ip i1 n -> i1 = loaded g v i -> cst s' (<[ip := locked_by i1]> lu) -> Q tt s') -> wp (ilock ip) Q s.
Proof using HL TN.
  intros C W HQ. destruct (walker_N _ _ _ _ W) as [Nn G]. destruct W as [Ok Hs Hc Hr Hf]. assert (H0 : 0 < ref i) by apply Hc.
  destruct (co_live _ _ _ _ Ok ip i Hs H0) as (Ed & _ & Hv). assert (En : inum i = n) by apply Hc.
  destruct (cache_load _ _ _ _ _ _ Ok Hs H0) as (Ok' & Rf' & Sl'). assert (Hlt := lookup_lt_Some _ _ _ Hs).
  eapply wp_ilock; [done|done|exact (co_lock _ _ _ _ Ok ip i Hs)|done|done|by rewrite En|done|]. intros s' C'.
  eapply (HQ s' (<[ip := loaded g v i]> l) (loaded g v i)); [|done|by rewrite list_insert_insert_eq].
  split; [done|by apply list_lookup_insert_eq|exact Hc|rewrite Sl'; exact Hr|]. intros k. by rewrite Rf'.
Qed.

(** Releasing an inode that was walked through. *)
Lemma wp_iunlockput s lu ip i1 (Q : unit -> fstate S -> Prop) : cst s (<[ip := locked_by i1]> lu) -> lu !! ip = Some i1 ->
  ilk i1 = initsleeplock -> 0 < ref i1 < 2 ^ 31 -> nlink i1 ≠ 0 -> (forall s', cst s' (<[ip := set_ref (ref i1 - 1) i1]> lu) -> Q tt s') ->
  wp (iunlockput ip) Q s.
Proof.
  intros C Hi Hl Hr Hn HQ. assert (Hlt := lookup_lt_Some _ _ _ Hi). unfold iunlockput. wp_step.
  eapply wp_iunlock; [exact C|by apply list_lookup_insert_eq|done|lia|]. intros s1 C1. rewrite list_insert_insert_eq in C1.
  eapply wp_iput; [exact C1|by apply list_lookup_insert_eq|done|done|by right|]. intros s2 C2. rewrite list_insert_insert_eq in C2. by apply HQ.
Qed.

Lemma loaded_dir s lu ip i n : cst s (<[ip := locked_by (loaded g v i)]> lu) -> (ip < length lu)%nat -> idev i = ROOTDEV -> inum i = n ->
  good_inode g v n -> d_type (dinode_at g v n) = T_DIR -> open_dir s ip v /\ entries s ip v = dir_at g v n.
Proof.
  intros C Hlt Ed En G Ht. assert (E := cst_at _ _ ip _ C ltac:(by apply list_lookup_insert_eq)). subst n. unfold entries, dir_bytes. rewrite E. split; [|done].
  split; rewrite ?E; try done; [|by apply (gi_dir _ _ _ G)]. split; rewrite ?E, ?(cs_cache _ _ C), ?(cs_sb _ _ C); try done; [by rewrite length_insert|apply G..].
Qed.

(** From inode [n] to the inode of its entry for [name]. *)
Lemma wp_walk_step {A} s lu ip i0 n name (none : M (fstate S) A) (some : nat -> M (fstate S) A) (Q : A -> fstate S -> Prop) :
  let i1 := loaded g v i0 in walker lu ip i1 n -> cst s (<[ip := locked_by i1]> lu) -> d_type (dinode_at g v n) = T_DIR ->
  match dir_find name (dir_at g v n) with
  | None => forall s' l', cst s' l' -> cache_ok g v N l' -> (forall k, nref l' k = base k) -> wp none Q s'
  | Some (_, de) => forall s' l' j x, cst s' l' -> walker l' j x (de_inum de) -> wp (some j) Q s'
  end ->
  wp (next ← dirlookup devsw ip name; match next with None => iunlockput ip;; none | Some (next, _) => iunlockput ip;; some next end) Q s.
Proof using HL TN Hbase.
  intros i1 W C Ht HQ. destruct (walker_N _ _ _ _ W) as [Nn G]. assert (W' := W). destruct W' as [Ok Hs Hc Hr Hf]. assert (H0 : 0 < ref i1) by apply Hc.
  assert (Hlt := lookup_lt_Some _ _ _ Hs). destruct Hc as (_ & Ed & En).
  destruct (loaded_dir s lu ip i0 n C Hlt Ed En G Ht) as [Od Oe]. assert (Hl1 := co_lock _ _ _ _ Ok ip i1 Hs).
  assert (Hn1 : nlink i1 ≠ 0) by (change (nlink i1) with (d_nlink (dinode_at g v (inum i1))); rewrite En; apply G).
  assert (Hb := walker_refs _ _ _ _ ip i1 W Hs). clearbody i1.
  wp_step. eapply wp_mono; [apply (wp_dirlookup devsw s v L ip name (cs_rep _ _ C) Od HL)|].
  - apply Forall_lookup_2. rewrite (cs_cache _ _ C). intros j x Hx. apply list_lookup_insert_Some in Hx as [(<- & <- & _)|[_ Hx]]; [change (ref (locked_by i1)) with (ref i1); lia|].
    assert (X := walker_refs _ _ _ _ j x W Hx). lia.
  - intros j de _. assert (Sl : 1 <= slots lu) by (case_decide; lia). destruct (slots_free lu Sl) as (k & y & Hk & Hy). exists k.
    rewrite (cs_cache _ _ C), length_insert. split; [by eapply lookup_lt_Some|]. right. assert (Nk : ip ≠ k) by (intros <-; rewrite Hs in Hk; injection Hk as <-; clear -H0 Hy; lia).
    rewrite (cst_at _ _ k y C); [done|]. by rewrite list_lookup_insert_ne.
  - unfold lookup_post. rewrite Oe. intros r s1. destruct (dir_find name (dir_at g v n)) as [[k de]|] eqn:Fd.
    + intros (j & s0 & -> & Qt & R0 & Ig). assert (C0 := quiet_cst _ _ _ C Qt R0).
      assert (Gt := iget_got _ _ _ _ _ (cs_cache _ _ C0) Ig). assert (C1 := iget_cst _ _ _ _ _ _ C0 Ig).
      destruct (got_locked lu ip i1 _ _ _ Hs H0 Gt) as (lu2 & i2 & G2 & Hi2 & E2 & Ei2). rewrite E2 in C1.
      destruct (dir_find_elem _ _ _ _ Fd) as [He Hne]. assert (Nm : N (de_inum de)) by (by apply (TN n Nn)).
      destruct (cache_got _ _ _ _ _ _ _ Ok Nm G2) as (Ok2 & Rf2 & x & x' & Hx & Hx' & Cx & Sx).
      assert (Ci2 : caches i2 ROOTDEV n /\ ilk i2 = initsleeplock /\ nlink i2 ≠ 0 /\ 0 < ref i2 < 2 ^ 31).
      { unfold caches. destruct Ei2 as [[_ ->]|[_ ->]]; cbn [ref idev inum ilk nlink set_ref]; split_and!; done || lia. }
      destruct Ci2 as (Ci2 & Li2 & Ni2 & Ri2). wp_step. eapply wp_iunlockput; [exact C1|done|done|lia|done|]. intros s2 C2.
      destruct (cache_put _ _ _ _ _ _ n Ok2 Hi2 Ci2) as (Ok3 & Rf3 & Sl3).
      assert (Hlt2 := lookup_lt_Some _ _ _ Hi2).
      destruct Ei2 as [[Nj ->]|[-> ->]].
      * eapply (HQ s2 _ j x'); [exact C2|]. split; [done|by rewrite list_lookup_insert_ne|done| |].
        -- rewrite Sl3. destruct Sx as [(X0 & X1 & X2)|(X0 & X1 & X2)]; rewrite X2; repeat case_decide; lia.
        -- intros q. rewrite Rf3, Rf2, Hf. lia.
      * eapply (HQ s2 _ ip); [exact C2|]. split; [done|by apply list_lookup_insert_eq| | |].
        -- rewrite Hi2 in Hx'. injection Hx' as <-. destruct Cx as [_ Cx]. split; [cbn [ref set_ref]; lia|exact Cx].
        -- rewrite Hs in Hx. injection Hx as <-. rewrite Sl3. cbn [ref set_ref]. destruct Sx as [(X0 & X1 & X2)|(X0 & X1 & X2)]; [lia|]. rewrite X2. repeat case_decide; lia.
        -- intros q. rewrite Rf3, Rf2, Hf. lia.
    + intros (-> & Qt & R1). wp_step. assert (C1 := quiet_cst _ _ _ C Qt R1).
      eapply wp_iunlockput; [exact C1|done|done|lia|done|]. intros s2 C2.
      destruct (cache_put _ _ _ _ _ _ n Ok Hs ltac:(done)) as (Ok2 & Rf2 & _). eapply HQ; [exact C2|done|]. intros k. rewrite Rf2, Hf. lia.
Qed.

Lemma dir_at_u8 s l n : cst s l -> good_inode g v n -> Forall (fun de => Forall is_u8 (de_name de)) (dir_at g v n).
Proof using Type.
  clear. intros C [_ _ _ W Sz M _]. assert (R := cs_rep _ _ C). assert (G := fr_geom _ _ _ _ R). rewrite (cs_sb _ _ C) in G.
  assert (U : Forall is_u8 (contents v (d_addrs (dinode_at g v n)) (d_size (dinode_at g v n)))).
  { unfold contents. apply Forall_fmap, Forall_forall. intros k Hk. apply elem_of_seqZ in Hk. cbv beta. unfold fbyte. apply rd_u8.
    assert (Pk : position (k / BSIZE)) by (assert (Em : MAXFILE = 140) by done; rewrite maxfile_bytes in Sz; unfold position, BSIZE; rewrite Em; mlia).
    destruct (fw_data _ _ _ W (k / BSIZE) Pk) as [D _]; [apply M; unfold BSIZE; mlia|].
    apply (fr_block _ _ _ _ _ R). destruct G as [[] ? ? ? ? []]. assert (P := meta_pos _ _ (fr_geom _ _ _ _ R)). rewrite (cs_sb _ _ C) in P. lia. }
  unfold dir_at, dirents. apply Forall_fmap, Forall_true. intros k. by apply slice_u8, slice_u8.
Qed.

(** What [namex] did when it returned [r]. *)
Definition named (parent : bool) (n : Z) (elems : list (list Z)) (r : option nat * list Z) s' : Prop :=
  exists l', cst s' l' /\ cache_ok g v N l' /\
    match walk g v parent n elems with
    | None => r.1 = None /\ forall k, nref l' k = base k
    | Some m => exists ip i, r.1 = Some ip /\ l' !! ip = Some i /\ caches i ROOTDEV m /\ (forall k, nref l' k = base k + one m k) /\
        (parent = true -> take (Z.to_nat DIRSIZ) (cstr r.2) = take (Z.to_nat DIRSIZ) (default [] (last elems)))
    end.

Lemma named_put s l ip i n name parent elems : cst s l -> walker l ip i n -> walk g v parent n elems = None -> ilk i = initsleeplock ->
  wp (iput ip) (fun _ s' => wp (mret (None, name)) (named parent n elems) s') s.
Proof using TN Hbase.
  intros C W Hw Hl. destruct (walker_N _ _ _ _ W) as [Nn G]. assert (Hb := walker_refs _ _ _ _ ip i W (wk_slot _ _ _ _ W)).
  destruct W as [Ok Hs Hc Hr Hf]. assert (H0 : 0 < ref i) by apply Hc. destruct (co_live _ _ _ _ Ok ip i Hs H0) as (_ & _ & Hv).
  eapply wp_iput; [exact C|done|done|lia| |].
  - destruct Hv as [Hv|[_ Hv]]; [by left|right]. change (nlink i) with (d_nlink (dinode_of i)). rewrite Hv. destruct Hc as (_ & _ & ->). apply G.
  - intros s' C'. wp_step. destruct (cache_put _ _ _ _ _ _ n Ok Hs Hc) as (Ok' & Rf' & _). eexists. split; [exact C'|]. split; [done|]. rewrite Hw.
    split; [done|]. intros k. rewrite Rf', Hf. lia.
Qed.

Lemma wp_namex_from fuel : forall s l ip i n path name parent, cst s l -> walker l ip i n -> zlen name = DIRSIZ -> Forall is_u8 name -> Forall is_u8 path ->
  (length (path_elems path) <= fuel)%nat -> wp (namex_from devsw fuel ip path parent name) (named parent n (path_elems path)) s.
Proof using HL TN Hbase.
  induction fuel as [|fuel IH]; intros s l ip i n path name parent C W Hz Un Up Hf; cbn [namex_from].
  all: assert (Sk := skipelem_correct path name Hz); destruct (skipelem path name) as [[path' name']|] eqn:Es.
  1: destruct Sk as (x & E & _); rewrite E in Hf; simpl in Hf; lia.
  1, 3: rewrite Sk; destruct parent; [wp_step; eapply named_put; [done|done|done|exact (co_lock _ _ _ _ (wk_ok _ _ _ _ W) ip i (wk_slot _ _ _ _ W))]|];
    wp_step; exists l; split; [done|]; split; [apply W|]; simpl; exists ip, i; split_and!; try done; apply W.
  destruct Sk as (x & E & Hx & Ht & Hz' & Hs'). rewrite E in *. destruct (skipelem_u8 _ _ _ _ Up Un Es) as [Up' Un'].
  destruct (walker_N _ _ _ _ W) as [Nn G]. destruct (path_elem_ok path x Up) as [Ux Nx]; [rewrite E; left|].
  wp_step. eapply wp_walk_lock; [exact C|exact W|]. intros s1 lu i1 W1 Ei C1. assert (Hlt := lookup_lt_Some _ _ _ (wk_slot _ _ _ _ W1)).
  assert (H0 : 0 < ref i1) by apply (wk_inode _ _ _ _ W1). assert (En : inum i1 = n) by apply (wk_inode _ _ _ _ W1).
  assert (Hl1 := co_lock _ _ _ _ (wk_ok _ _ _ _ W1) ip i1 (wk_slot _ _ _ _ W1)).
  wp_step. wp_step. rewrite (cst_at _ _ ip _ C1 ltac:(by apply list_lookup_insert_eq)).
  replace (itype (locked_by i1)) with (d_type (dinode_at g v n)) by (subst i1; simpl in En |- *; by rewrite En).
  destruct (Z.eqb_spec (d_type (dinode_at g v n)) T_DIR) as [Hd|Hd]; cbn [negb].
  - assert (Ew : walk g v parent n (x :: path_elems path') = if parent && bool_decide (path_elems path' = []) then Some n else
      match dir_find x (dir_at g v n) with None => None | Some (_, de) => walk g v parent (de_inum de) (path_elems path') end) by (cbn [walk]; by rewrite Hd).
    assert (Eb : (hd 0 path' =? 0) = bool_decide (path_elems path' = [])) by (apply eq_true_iff_eq; rewrite Z.eqb_eq, bool_decide_eq_true; by rewrite path_elems_end).
    rewrite Eb. destruct (parent && bool_decide (path_elems path' = [])) eqn:Ep.
    + wp_step. eapply wp_iunlock; [exact C1|by apply list_lookup_insert_eq|done|done|]. intros s2 C2. rewrite list_insert_insert_eq, list_insert_id in C2 by apply W1. wp_step.
      exists lu. split; [done|]. split; [apply W1|]. rewrite Ew. exists ip, i1. split; [done|]. split; [apply W1|]. split; [apply W1|]. split; [apply W1|].
      intros ->. simpl in Ep. apply bool_decide_eq_true in Ep. rewrite Ep. exact Ht.
    + subst i1. eapply (wp_walk_step s1 lu ip i n name'); [exact W1|exact C1|done|]. rewrite (dir_find_name name' x) by (done || by eapply dir_at_u8).
      destruct (dir_find x (dir_at g v n)) as [[k de]|].
      * intros s' l' j y C' W'. eapply wp_mono; [eapply IH; [exact C'|exact W'|done|done|done|simpl in Hf; lia]|].
        intros r s2 (l2 & C2 & Ok2 & H2). exists l2. split; [done|]. split; [done|]. rewrite Ew. destruct (walk g v parent (de_inum de) (path_elems path')) as [m|] eqn:Em; [|done].
        destruct H2 as (ip2 & i2 & A1 & A2 & A3 & A4 & A5). exists ip2, i2. split_and!; try done. intros ->. rewrite (A5 eq_refl).
        destruct (path_elems path'); [|done]. by rewrite Ew in * || (simpl in Ep).
      * intros s' l' C' Ok' Rf'. wp_step. exists l'. split; [done|]. split; [done|]. by rewrite Ew.
  - assert (Ew : walk g v parent n (x :: path_elems path') = None) by (cbn [walk]; by destruct (Z.eqb_spec (d_type (dinode_at g v n)) T_DIR)).
    unfold iunlockput. wp_step. wp_step. eapply wp_iunlock; [exact C1|by apply list_lookup_insert_eq|done|done|]. intros s2 C2.
    rewrite list_insert_insert_eq, list_insert_id in C2 by apply W1. by eapply named_put.
Qed.

Lemma got_walker l n j l' : cache_ok g v N l -> N n -> 2 <= slots l -> (forall k, nref l k = base k) -> got l n j l' -> exists i, walker l' j i n.
Proof using Type.
  clear. intros Ok Nn Sl Rf G. destruct (cache_got _ _ _ _ _ _ _ Ok Nn G) as (Ok' & Rf' & i & i' & Hi & Hi' & Ci & X). exists i'. split; try done.
  - destruct X as [(X0 & X1 & X2)|(X0 & X1 & X2)]; rewrite X2, X1; case_decide; lia.
  - intros k. by rewrite Rf', Rf.
Qed.
End calls.

Section namex.
Context {S : Type} {BS : BlockStore S} {BL : BlockStoreLaws S} (devsw : Z -> devsw_entry S).

Lemma namex_run s v L N cwd c path parent name :
  fs_rep s v L ∅ -> Z.of_nat (size L) <= 28 -> tree (sb s) v N -> N ROOTINO -> cache_ok (sb s) v N (icache s) ->
  2 <= slots (icache s) -> (forall k, nref (icache s) k < 2 ^ 31 - 3) ->
  hd 0 path = slash \/ icache s !! cwd = Some c /\ 0 < ref c ->
  zlen name = DIRSIZ -> Forall is_u8 name -> Forall is_u8 path ->
  let start := if hd 0 path =? slash then ROOTINO else inum c in
  exists r name' s', namex devsw cwd path parent name s = Ret (r, name') s' /\
    fs_rep s' v L ∅ /\ sb s' = sb s /\ fpid s' = fpid s /\ cache_ok (sb s) v N (icache s') /\
    match walk (sb s) v parent start (path_elems path) with
    | None => r = None /\ forall k, nref (icache s') k = nref (icache s) k
    | Some m => exists ip i, r = Some ip /\ icache s' !! ip = Some i /\ caches i ROOTDEV m /\
        (forall k, nref (icache s') k = nref (icache s) k + one m k) /\
        (parent = true -> take (Z.to_nat DIRSIZ) (cstr name') = take (Z.to_nat DIRSIZ) (default [] (last (path_elems path))))
    end.
Proof.
  intros R HL TN Nr Ok Sl Hb Hcw Hz Un Up start. set (base := nref (icache s)).
  assert (Rf : refs_ok s).
  { apply Forall_lookup_2. intros j x Hx. assert (R0 := co_ref _ _ _ _ Ok j x Hx). destruct (decide (ref x = 0)) as [->|Nz]; [lia|].
    destruct (co_live _ _ _ _ Ok j x Hx ltac:(lia)) as (Ed & _). rewrite <- (nref_slot _ j x (inum x) (co_unique _ _ _ _ Ok) (co_ref _ _ _ _ Ok) Hx ltac:(split; [lia|done])).
    specialize (Hb (inum x)). assert (0 <= nref (icache s) (inum x)) by (apply zsum_nonneg; intros k y Hy; case_decide; [by eapply co_ref|done]). lia. }
  assert (Bb : forall k, 0 <= base k < 2 ^ 31 - 3).
  { intros k. split; [|apply Hb]. apply zsum_nonneg. intros q y Hy. case_decide; [by eapply co_ref|done]. }
  assert (C : cst (env s) (sb s) (fpid s) v L s (icache s)) by (by split).
  assert (W : wp (namex devsw cwd path parent name) (named (env s) (sb s) (fpid s) v L N base parent start (path_elems path)) s).
  { unfold namex. wp_step. apply (wp_mono _ (fun ip s' => exists l' i, cst (env s) (sb s) (fpid s) v L s' l' /\ walker (sb s) v N base l' ip i start)).
    - unfold start. destruct (Z.eqb_spec (hd 0 path) slash) as [Ea|Ea].
      + eapply wp_iget; [done| |].
        * destruct (slots_free (icache s) ltac:(lia)) as (j & x & Hj & Hx). exists j. split; [by eapply lookup_lt_Some|]. right. by rewrite (inode_at_lookup _ _ _ Hj).
        * intros ip s' Ig. assert (G := iget_got s _ s' ROOTINO ip eq_refl Ig). destruct (got_walker (sb s) v N base _ _ _ _ Ok Nr Sl ltac:(done) G) as [i W].
          exists (icache s'), i. split; [by eapply iget_cst|done].
      + destruct Hcw as [?|[Hc Hrc]]; [done|]. unfold idup, imod. wp_step. wp_step. wp_step. assert (Rc := Forall_lookup_1 _ _ _ _ Rf Hc). simpl in Rc.
        destruct (co_live _ _ _ _ Ok cwd c Hc Hrc) as (Ed & Nc & _).
        assert (G : got (icache s) (inum c) cwd (<[cwd := set_ref (ref c + 1) c]> (icache s))) by (apply got_hit; [done|by split]).
        destruct (got_walker (sb s) v N base _ _ _ _ Ok Nc Sl ltac:(done) G) as [i W]. eexists _, i. split; [|exact W].
        assert (C' := cst_set _ _ _ _ _ s _ cwd c (fun i => set_ref (s32 (ref i + 1)) i) C Hc). cbv beta in C'. rewrite s32_id in C' by (unfold is_s32; lia). exact C'.
    - intros ip s' (l' & i & C' & W). eapply wp_namex_from; try done. apply path_elems_length. }
  apply wp_inv in W as ([r name'] & s' & E & l' & C' & Ok' & H). exists r, name', s'. rewrite <- (cs_cache _ _ _ _ _ _ _ C') in Ok', H.
  split; [done|]. split; [apply C'|]. split; [apply C'|]. split; [apply C'|]. split; [done|]. exact H.
Qed.

(** C20: path names.  Between calls, with two free slots in the inode cache,
    [namex] returns the inode that the directories on the disk give for the
    elements of the path, from the root or from the current directory; with
    [parent], the directory of the last element, whose name it stores.  It
    returns 0 exactly when an element is missing or not a directory.  The inode
    returned has one more reference, all other counts are as before, no inode
    stays locked, and nothing on the disk changes. *)
Theorem namex_correct s v L N cwd c path parent name :
  fs_rep s v L ∅ -> Z.of_nat (size L) <= 28 -> tree (sb s) v N -> N ROOTINO -> cache_ok (sb s) v N (icache s) ->
  2 <= slots (icache s) -> (forall k, nref (icache s) k < 2 ^ 31 - 3) ->
  hd 0 path = slash \/ icache s !! cwd = Some c /\ 0 < ref c ->
  zlen name = DIRSIZ -> Forall is_u8 name -> Forall is_u8 path ->
  let start := if hd 0 path =? slash then ROOTINO else inum c in
  exists r name' s', namex devsw cwd path parent name s = Ret (r, name') s' /\
    fs_rep s' v L ∅ /\ sb s' = sb s /\ fpid s' = fpid s /\ cache_ok (sb s) v N (icache s') /\
    match walk (sb s) v parent start (path_elems path) with
    | None => r = None /\ forall k, nref (icache s') k = nref (icache s) k
    | Some m => exists ip i, r = Some ip /\ icache s' !! ip = Some i /\ caches i ROOTDEV m /\
        (forall k, nref (icache s') k = nref (icache s) k + one m k) /\
        (parent = true -> take (Z.to_nat DIRSIZ) (cstr name') = take (Z.to_nat DIRSIZ) (default [] (last (path_elems path))))
    end.
Proof. apply namex_run. Qed.
End namex.
