(* ===== verification/FsDemo.v ===== *)
(** * A file system on a small disk

    The theorems of FsSpec.v at a concrete state: a disk of 64 blocks with a
    root directory and a file, the kernel after [initlog] and [begin_op], and
    both inodes in the inode cache. *)

From S2P Require Import Prelude Param Cstring SleepLock Layout Bio Log LogCrash BlockStore LogStore.
From S2P Require Import Transactions LogSpace Fs FsBlocks FsFile FsWrite FsDir FsSpec.

(** ** The disk *)

Definition fsd_sb : superblock := Superblock 64 29 16 LOGSIZE 2 32 34.
Definition fsd_sb_block : block :=
  put32 (put32 (put32 (put32 (put32 (put32 (put32 zero_block 0 64) 4 29) 8 16) 12 LOGSIZE) 16 2) 20 32) 24 34.

(** Inode 1 is the root directory, inode 2 a file of five bytes. *)
Definition fsd_root : dinode := Dinode T_DIR 0 0 1 48 (35 :: replicate 12 0).
Definition fsd_file : dinode := Dinode T_FILE 0 0 1 5 (36 :: replicate 12 0).
Definition fsd_inodes : block := put_dinode (put_dinode zero_block 64 fsd_root) 128 fsd_file.

(** Blocks 0 to 36 are in use. *)
Definition fsd_bitmap : block := blit zero_block 0 [255; 255; 255; 255; 31].

Definition fsd_entries : list dirent :=
  [new_entry [46] 1; new_entry [46; 46] 1; new_entry [102] 2].
Definition fsd_dir : block := blit zero_block 0 (mjoin (encode_dirent <$> fsd_entries)).
Definition fsd_data : block := blit zero_block 0 [104; 101; 108; 108; 111].

Definition fsd_disk : disk :=
  Disk (zero_block :: fsd_sb_block :: replicate 30 zero_block ++
        [fsd_inodes; zero_block; fsd_bitmap; fsd_dir; fsd_data] ++ replicate 27 zero_block) [].

Lemma fsd_log_disk : log_disk fsd_disk 2 LOGSIZE.
Proof.
  assert (E : head_list (disk_read fsd_disk 2) = []) by (apply head_list_nil; reflexivity).
  assert (Es : disksize fsd_disk = 64) by (vm_compute; reflexivity).
  assert (En : geti32 (disk_read fsd_disk 2) 0 = 0) by (vm_compute; reflexivity).
  split; rewrite ?E, ?Es, ?En; unfold LOGSIZE, MAXOPBLOCKS; try lia.
  - assert (B : forall d, forallb (fun x => (0 <=? x) && (x <? 256)) d = true -> zlen d = BSIZE -> is_block d).
    { intros d F Z. split; [done|]. apply Forall_forall. intros x Hx. apply list_elem_of_In in Hx.
      rewrite forallb_forall in F. specialize (F x Hx). bool_prop. mlia. }
    simpl. repeat apply Forall_cons_2; auto using Forall_nil_2, zero_block_ok.
    all: apply B; vm_compute; reflexivity.
  - split; vm_compute; reflexivity.
  - apply NoDup_nil_2.
  - intros b Hb. by apply elem_of_nil in Hb.
  - apply not_elem_of_nil.
Qed.

(** ** The kernel in a transaction *)

Definition fsd_open : M lstate unit := initlog 1;; begin_op.
Definition fsd_lstate : lstate :=
  match fsd_open (boot fsd_disk 1) with Ret _ s => s | _ => boot fsd_disk 1 end.

Lemma fsd_open_run : wp fsd_open (fun _ s => log_env s = BEnv 64 2 LOGSIZE true /\
  exists v, ls_rep s (BStore v ∅ ∅ ∅) /\
    forall b, 0 <= b < 64 -> b ≠ 2 -> v b = disk_read fsd_disk b) (boot fsd_disk 1).
Proof. unfold fsd_open. apply (boot_open_run fsd_disk 1); [apply fsd_log_disk|by apply head_list_nil]. Qed.

(** ** The file system state *)

(** A cached and locked inode. *)
Definition fsd_inode (n : Z) (di : dinode) : inode :=
  load_dinode di (Inode ROOTDEV n 1 (SleepLock true 1) 1 0 0 0 0 0 []).

(** The directory is entry 0 of the cache, the file entry 1. *)
Definition fsd_state : fstate lstate :=
  FState fsd_lstate (fsd_inode 1 fsd_root :: fsd_inode 2 fsd_file :: replicate 48 inode0) fsd_sb 1.

Definition fsd_view (v : Z -> block) : Prop := forall b, 0 <= b < 64 -> b ≠ 2 -> v b = disk_read fsd_disk b.

Lemma fsd_geom : fs_geom (BEnv 64 2 LOGSIZE true) fsd_sb.
Proof. split; vm_compute; try done; split; done. Qed.

Lemma fsd_bblock b : 0 <= b < 64 -> BBLOCK b fsd_sb = 34.
Proof.
  intros Hb. destruct (BBLOCK_range _ _ fsd_geom b Hb) as [-> _]. rewrite Z.div_small; [done|].
  unfold BPB, BSIZE. lia.
Qed.

Lemma fsd_used v b : fsd_view v -> 0 <= b < 64 -> used fsd_sb v b <-> b <= 36.
Proof.
  intros Hv Hb. unfold used. rewrite fsd_bblock by done. rewrite (Hv 34) by lia.
  assert (F : forallb (fun b => Bool.eqb (negb (bit_clear (disk_read fsd_disk 34) (b mod BPB))) (b <=? 36)) (seqZ 0 64) = true)
    by (vm_compute; reflexivity).
  rewrite forallb_forall in F. specialize (F b). rewrite <- list_elem_of_In, elem_of_seqZ in F.
  specialize (F ltac:(lia)). apply eqb_prop in F. rewrite <- Z.leb_le, <- F. destruct (bit_clear _ _); done.
Qed.

Lemma fsd_nfree v : fsd_view v -> nfree fsd_sb v = 27.
Proof.
  intros Hv. unfold nfree. rewrite (filter_ext_in _ (fun b => 36 < b)).
  - vm_compute. reflexivity.
  - intros b Hb. apply elem_of_seqZ in Hb. rewrite fsd_used by (done || (simpl in Hb; lia)). lia.
Qed.

Lemma fsd_env : env fsd_state = BEnv 64 2 LOGSIZE true.
Proof.
  assert (W := fsd_open_run). apply wp_inv in W as ([] & s & E & He & _).
  unfold fsd_state, env. cbn [blk bs_env log_store_laws]. unfold fsd_lstate. rewrite E. exact He.
Qed.

Lemma fsd_rep : exists v, fs_rep fsd_state v ∅ ∅ /\ fsd_view v.
Proof.
  assert (W := fsd_open_run). apply wp_inv in W as ([] & s & E & He & v & Rv & Hv).
  exists v. split; [|exact Hv]. split.
  - unfold fsd_state. cbn [blk]. unfold fsd_lstate. rewrite E. exact Rv.
  - rewrite fsd_env. apply fsd_geom.
  - by rewrite fsd_env.
  - rewrite (Hv 1) by lia. vm_compute. reflexivity.
  - intros b Hb. change (datastart (sb fsd_state)) with 35 in Hb. apply fsd_used; [exact Hv|lia|lia].
Qed.

(** The addresses of a file with one block. *)
Lemma faddr_one v a k : position k -> faddr v (a :: replicate 12 0) k = if decide (k = 0) then a else 0.
Proof.
  intros Hk. unfold faddr. change (rd 0 (a :: replicate 12 0) NDIRECT) with 0. rewrite Z.eqb_refl.
  destruct (Z.ltb_spec k NDIRECT) as [Hd|Hd].
  - case_decide; [by subst|]. unfold rd. destruct Hk. rewrite decide_True by done.
    rewrite lookup_cons_ne_0 by lia. rewrite lookup_replicate_2; [done|unfold NDIRECT in Hd; lia].
  - destruct (k <? MAXFILE); by rewrite decide_False by (unfold NDIRECT in Hd; lia).
Qed.

Lemma fsd_file_wf v a : fsd_view v -> 35 <= a <= 36 -> file_wf fsd_sb v (a :: replicate 12 0).
Proof.
  intros Hv Ha. split; [done| |].
  - intros k Hk. rewrite faddr_one by done. case_decide; [|done]. intros _.
    change (datastart fsd_sb) with 35. change (sb_size fsd_sb) with 64. split; [lia|].
    apply fsd_used; [done|lia|lia].
  - intros j k Hj Hk. rewrite !faddr_one by done. repeat case_decide; congruence || lia.
Qed.

Lemma fsd_mapped v a n : a ≠ 0 -> n <= 512 -> mapped v (a :: replicate 12 0) n.
Proof.
  intros Ha Hn k Hk Hlt. assert (k = 0) by (unfold BSIZE in Hlt; lia). subst k.
  rewrite faddr_one; [done|]. split; done.
Qed.

Lemma fsd_open_file v : fsd_view v -> open_file fsd_state 1 v.
Proof.
  intros Hv. split.
  - simpl. lia.
  - done.
  - apply fsd_file_wf; [done|lia].
  - simpl. rewrite maxfile_bytes. lia.
  - apply fsd_mapped; simpl; lia.
Qed.

Lemma fsd_open_dir v : fsd_view v -> open_dir fsd_state 0 v.
Proof.
  intros Hv. split; [split|done|done].
  - simpl. lia.
  - done.
  - apply fsd_file_wf; [done|lia].
  - simpl. rewrite maxfile_bytes. lia.
  - apply fsd_mapped; simpl; lia.
Qed.

Lemma fsd_coherent v ip : fsd_view v -> (ip <= 1)%nat -> coherent fsd_state ip v.
Proof.
  intros Hv Hip. assert (E : ip = 0%nat \/ ip = 1%nat) by lia.
  destruct E as [-> | ->]; (split; [vm_compute; done| |]).
  1, 3: split; simpl; unfold T_DIR, T_FILE; try mlia; [reflexivity|repeat (apply Forall_cons_2; [mlia|]); apply Forall_nil_2].
  all: unfold dinode_at; cbn [sb fsd_state].
  all: rewrite Hv by (vm_compute; done); vm_compute; reflexivity.
Qed.

(** Bitmap and inode blocks. *)
Definition fsd_meta : gset Z := {[34; 32]}.

Lemma fsd_bitmap_in b : 0 <= b < sb_size (sb fsd_state) -> BBLOCK b (sb fsd_state) ∈ fsd_meta.
Proof. intros Hb. change (sb fsd_state) with fsd_sb in *. rewrite fsd_bblock by exact Hb. unfold fsd_meta. clear. set_solver. Qed.

Lemma fsd_fits k : k <= 20 -> fits fsd_state fsd_meta ∅ k.
Proof.
  intros Hk. split; [exact fsd_bitmap_in|]. rewrite fsd_env.
  assert (C : cost fsd_meta ∅ = 2) by (vm_compute; reflexivity).
  assert (F : fs_cap (BEnv 64 2 LOGSIZE true) = 28) by (vm_compute; reflexivity). lia.
Qed.

Lemma fsd_ffits a k : k <= 20 -> ffits fsd_state fsd_meta ∅ (a :: replicate 12 0) k.
Proof.
  intros Hk. split; [exact fsd_bitmap_in|]. rewrite fsd_env. unfold fcost.
  assert (I := ind_cost_bounds ∅ (a :: replicate 12 0)).
  assert (C : cost fsd_meta ∅ = 2) by (vm_compute; reflexivity).
  assert (F : fs_cap (BEnv 64 2 LOGSIZE true) = 28) by (vm_compute; reflexivity). lia.
Qed.

Lemma balloc_correct_witness : exists v, fsd_view v /\
  exists b s' v', balloc ROOTDEV fsd_state = Ret b s' /\ first_free fsd_sb v b /\ v' b = zero_block /\
    fs_rep s' v' (∅ ∪ {[BBLOCK b fsd_sb]} ∪ {[b]}) ∅.
Proof.
  destruct fsd_rep as (v & R & Hv). exists v. split; [exact Hv|].
  destruct (balloc_correct fsd_state v fsd_meta ∅ R (fsd_fits 1 ltac:(lia))) as [H _].
  destruct H as (b & s' & v' & E & R' & F & _ & Z0 & _).
  { change (sb fsd_state) with fsd_sb. rewrite (fsd_nfree v Hv). lia. }
  exists b, s', v'. split; [exact E|]. split; [exact F|]. split; [exact Z0|exact R'].
Defined.

Lemma balloc_bfree_witness : exists v, fsd_view v /\
  exists b s1 s2 v2 L2, balloc ROOTDEV fsd_state = Ret b s1 /\ bfree ROOTDEV b s1 = Ret tt s2 /\
    fs_rep s2 v2 L2 ∅ /\ forall b', b' ≠ b -> v2 b' = v b'.
Proof.
  destruct fsd_rep as (v & R & Hv). exists v. split; [exact Hv|].
  apply (balloc_bfree fsd_state v fsd_meta ∅ R (fsd_fits 2 ltac:(lia))).
  change (sb fsd_state) with fsd_sb. rewrite (fsd_nfree v Hv). lia.
Defined.

(** No device is opened. *)
Definition no_devices : Z -> devsw_entry lstate := fun _ => Devsw None None.

Lemma readi_correct_witness : exists v, fsd_view v /\
  exists s', readi no_devices 1 1 10 fsd_state =
      Ret (4, slice (contents v (36 :: replicate 12 0) 5) 1 4) s' /\ quiet fsd_state s'.
Proof.
  destruct fsd_rep as (v & R & Hv). exists v. split; [exact Hv|].
  destruct (readi_correct no_devices fsd_state v ∅ 1 1 10 R (fsd_open_file v Hv)) as (s' & E & Qt & _).
  - rewrite size_empty. lia.
  - discriminate.
  - mlia.
  - mlia.
  - exists s'. split; [exact E|exact Qt].
Defined.

(** 600 bytes at offset 3: the write fills the first block and allocates a
    second one. *)
Definition fsd_src : list Z := replicate 600 9.

Lemma fsd_writei_pre v : fs_rep fsd_state v ∅ ∅ -> fsd_view v -> writei_pre fsd_state 1 v fsd_meta ∅ 3 fsd_src.
Proof.
  intros R Hv. assert (Hn : nblocks 3 (zlen fsd_src) = 2) by (vm_compute; reflexivity).
  split.
  - exact R.
  - by apply fsd_open_file.
  - apply fsd_coherent; [done|lia].
  - discriminate.
  - simpl. lia.
  - vm_compute. discriminate.
  - apply Forall_replicate. mlia.
  - assert (E : IBLOCK (inum (inode_at fsd_state 1)) (sb fsd_state) = 32) by (vm_compute; reflexivity).
    rewrite E. unfold fsd_meta. clear. set_solver.
  - rewrite Hn. apply (fsd_ffits 36). lia.
  - rewrite Hn. change (sb fsd_state) with fsd_sb. unfold ffree. rewrite (fsd_nfree v Hv).
    change (addrs (inode_at fsd_state 1)) with (36 :: replicate 12 0).
    change (rd 0 (36 :: replicate 12 0) NDIRECT) with 0. simpl. lia.
Qed.


Lemma writei_readi_witness : exists s1 s2,
  writei no_devices 1 fsd_src 3 600 fsd_state = Ret 600 s1 /\
  readi no_devices 1 3 600 s1 = Ret (600, fsd_src) s2.
Proof.
  destruct fsd_rep as (v & R & Hv).
  exact (writei_readi no_devices fsd_state v fsd_meta ∅ 1 3 fsd_src (fsd_writei_pre v R Hv)).
Defined.

Lemma fsd_dir_bytes v : fsd_view v -> dir_bytes fsd_state 0 v = slice fsd_dir 0 48.
Proof.
  intros Hv. unfold dir_bytes. change (addrs (inode_at fsd_state 0)) with (35 :: replicate 12 0).
  change (isize (inode_at fsd_state 0)) with 48. apply (rd_ext 0).
  - vm_compute. reflexivity.
  - intros i. rewrite zlen_contents by lia. intros Hi. rewrite rd_contents, rd_slice by lia.
    unfold fbyte. rewrite Z.div_small, Z.mod_small by (unfold BSIZE; lia).
    rewrite faddr_one by (split; done). simpl. rewrite Hv by lia. reflexivity.
Qed.

Lemma fsd_dir_entries v : fsd_view v -> entries fsd_state 0 v = fsd_entries.
Proof. intros Hv. unfold entries. rewrite fsd_dir_bytes by done. vm_compute. reflexivity. Qed.

Lemma fsd_refs_ok : refs_ok fsd_state.
Proof.
  unfold refs_ok. simpl. apply Forall_cons_2; [simpl; mlia|]. apply Forall_cons_2; [simpl; mlia|].
  repeat (apply Forall_cons_2; [simpl; mlia|]). apply Forall_nil_2.
Qed.

(** A link [g] to the file is added to the directory. *)
Lemma fsd_link_pre v : fs_rep fsd_state v ∅ ∅ -> fsd_view v ->
  writei_pre fsd_state 0 v fsd_meta ∅ (sizeof_dirent * Z.of_nat (free_slot (entries fsd_state 0 v)))
    (encode_dirent (new_entry [103] 2)).
Proof.
  intros R Hv. rewrite (fsd_dir_entries v Hv).
  change (sizeof_dirent * Z.of_nat (free_slot fsd_entries)) with 48.
  assert (Hl : zlen (encode_dirent (new_entry [103] 2)) = 16) by (vm_compute; reflexivity).
  assert (Hn : nblocks 48 16 = 1) by (vm_compute; reflexivity).
  split.
  - exact R.
  - apply (od_file _ _ _ (fsd_open_dir v Hv)).
  - apply fsd_coherent; [done|lia].
  - discriminate.
  - simpl. lia.
  - rewrite Hl. vm_compute. discriminate.
  - apply encode_dirent_u8. rewrite new_entry_name. apply padded_u8. constructor; [mlia|constructor].
  - assert (E : IBLOCK (inum (inode_at fsd_state 0)) (sb fsd_state) = 32) by (vm_compute; reflexivity).
    rewrite E. unfold fsd_meta. clear. set_solver.
  - rewrite Hl, Hn. apply (fsd_ffits 35). lia.
  - rewrite Hl, Hn. change (sb fsd_state) with fsd_sb. unfold ffree. rewrite (fsd_nfree v Hv).
    change (addrs (inode_at fsd_state 0)) with (35 :: replicate 12 0).
    change (rd 0 (35 :: replicate 12 0) NDIRECT) with 0. simpl. lia.
Qed.

Lemma dirlink_lookup_witness : exists v, fsd_view v /\
  exists s' v', dirlink no_devices 0 [103] 2 fsd_state = Ret 0 s' /\
    (exists k, dir_find [103] (entries s' 0 v') = Some (k, new_entry [103] 2)) /\
    dir_find [102] (entries s' 0 v') = Some (2%nat, new_entry [102] 2).
Proof.
  destruct fsd_rep as (v & R & Hv). exists v. split; [exact Hv|].
  assert (U : forall c, 0 <= c < 256 -> Forall is_u8 [c]) by (intros c Hc; constructor; [mlia|constructor]).
  destruct (dirlink_lookup no_devices fsd_state v fsd_meta ∅ 0 [103] 2 R (fsd_open_dir v Hv) fsd_refs_ok
    (U 103 ltac:(lia))) as (s' & v' & E & (k & Hk & _) & Ho).
  - vm_compute. discriminate.
  - rewrite (fsd_dir_entries v Hv). vm_compute. reflexivity.
  - exact (fsd_link_pre v R Hv).
  - exists s', v'. split; [exact E|]. split; [by exists k|].
    rewrite Ho; [|apply U; lia|vm_compute; discriminate].
    rewrite (fsd_dir_entries v Hv). vm_compute. reflexivity.
Defined.

Lemma fsd_unique : icache_unique (icache fsd_state).
Proof.
  assert (H : forall j i, icache fsd_state !! j = Some i -> 0 < ref i ->
    (j = 0%nat /\ inum i = 1) \/ (j = 1%nat /\ inum i = 2)).
  { intros [|[|j]] i Hj Hr; [injection Hj as <-; by left|injection Hj as <-; by right|].
    simpl in Hj. change (replicate 48 inode0 !! j = Some i) in Hj. apply lookup_replicate in Hj as [-> _].
    simpl in Hr. lia. }
  intros j k i i' d n Hj Hk (H1 & _ & E1) (H2 & _ & E2).
  destruct (H j i Hj H1) as [[-> ?]|[-> ?]]; destruct (H k i' Hk H2) as [[-> ?]|[-> ?]]; done || lia.
Qed.

Lemma iget_unique_witness : exists ip s', iget ROOTDEV 2 fsd_state = Ret ip s' /\
  caches (inode_at s' ip) ROOTDEV 2 /\ icache_unique (icache s').
Proof.
  destruct (iget_unique fsd_state ROOTDEV 2 fsd_refs_ok fsd_unique) as (ip & s' & E & Hc & _ & Hu & _).
  - exists 1%nat. split; [simpl; lia|]. left. vm_compute. done.
  - exists ip, s'. split; [exact E|]. split; [exact Hc|exact Hu].
Defined.
