(* ===== verification/Mkfs.v ===== *)
(** * The file system builder (mkfs.c)

    [mkfs] writes the image of the disk that the kernel finds when it starts:
    a super block, an empty log, the inodes, the bitmap, a root directory and
    the files named in its arguments.  It runs on a host that stores numbers
    the way the disk does. *)

From S2P Require Import Prelude Param Cstring SleepLock Layout BlockStore Fs.

Definition NINODES : Z := 200.

(** The image, and the global variables. *)
Record mkfs := MkState { img : list block; freeinode : Z; freeblock : Z; msb : superblock }.

Definition set_img v s := MkState v (freeinode s) (freeblock s) (msb s).
Definition set_freeinode v s := MkState (img s) v (freeblock s) (msb s).
Definition set_freeblock v s := MkState (img s) (freeinode s) v (msb s).
Definition set_msb v s := MkState (img s) (freeinode s) (freeblock s) v.

Definition nbitmap : Z := FSSIZE / (BSIZE * 8) + 1.
Definition ninodeblocks : Z := NINODES / IPB + 1.
Definition nlog : Z := LOGSIZE.
Definition nmeta : Z := 2 + nlog + ninodeblocks + nbitmap.
Definition nblocks : Z := FSSIZE - nmeta.

(** The number whose bytes are [a]. *)
Definition xshort (x : Z) : Z := le_word [u8 x; u8 (Z.shiftr x 8)].
Definition xint (x : Z) : Z := le_word [u8 x; u8 (Z.shiftr x 8); u8 (Z.shiftr x 16); u8 (Z.shiftr x 24)].

(** The block of the image at the offset [lseek] moves to.  A write past the
    end of a file fills the space between with zeros. *)
Definition sect (sec : Z) : nat := Z.to_nat (u32 (sec * BSIZE) / BSIZE).

Definition wsect (sec : Z) (buf : block) : M mkfs unit :=
  modify (fun s => set_img (if decide (sect sec < length (img s))%nat then <[sect sec := buf]> (img s)
                            else img s ++ replicate (sect sec - length (img s)) zero_block ++ [buf]) s).

Definition rsect (sec : Z) : M mkfs block :=
  s ← get;
  match img s !! sect sec with Some d => mret d | None => panic "read" end.

Definition winode (inum : Z) (ip : dinode) : M mkfs unit :=
  s ← get;
  let bn := IBLOCK inum (msb s) in
  buf ← rsect bn;
  wsect bn (put_dinode buf (inode_off inum) ip).

Definition rinode (inum : Z) : M mkfs dinode :=
  s ← get;
  buf ← rsect (IBLOCK inum (msb s));
  mret (get_dinode buf (inode_off inum)).

Definition ialloc (type : Z) : M mkfs Z :=
  s ← get;
  let inum := freeinode s in
  modify (set_freeinode (u32 (inum + 1)));;
  winode inum (Dinode (xshort type) 0 0 (xshort 1) (xint 0) (replicate (Z.to_nat (NDIRECT + 1)) 0));;
  mret inum.

(** The loop of [balloc] from [i]: [buf[i/8] |= 0x1 << (i%8)]. *)
Fixpoint set_bits (buf : block) (i : Z) (n : nat) : block :=
  match n with O => buf | S n' => set_bits (set_bit buf i) (i + 1) n' end.

Definition balloc (used : Z) : M mkfs unit :=
  if BSIZE * 8 <=? used then panic "assert"
  else
    s ← get;
    wsect (sb_bmapstart (msb s)) (set_bits zero_block 0 (Z.to_nat used)).

(** [freeblock++] *)
Definition newblock : M mkfs Z :=
  s ← get;
  modify (set_freeblock (u32 (freeblock s + 1)));;
  mret (freeblock s).

(** The parts of [iappend] that find the address at index [k] of the inode and
    entry [n] of the indirect block, with a new block if there is none. *)
Definition inode_entry (addrs : list Z) (k : Z) : M mkfs (list Z) :=
  if xint (rd 0 addrs k) =? 0 then b ← newblock; mret (wr addrs k (xint b)) else mret addrs.

Definition indirect_entry (ind n : Z) : M mkfs Z :=
  indirect ← rsect ind;
  indirect ← (if get32 indirect (4 * n) =? 0 then
                b ← newblock;
                let indirect := put32 indirect (4 * n) (xint b) in
                wsect ind indirect;;
                mret indirect
              else mret indirect);
  mret (xint (get32 indirect (4 * n))).

(** The number of block [fbn] of the file, and the addresses. *)
Definition append_block (addrs : list Z) (fbn : Z) : M mkfs (Z * list Z) :=
  if fbn <? NDIRECT then
    addrs ← inode_entry addrs fbn;
    mret (xint (rd 0 addrs fbn), addrs)
  else
    addrs ← inode_entry addrs NDIRECT;
    x ← indirect_entry (xint (rd 0 addrs NDIRECT)) (fbn - NDIRECT);
    mret (x, addrs).

(** The loop of [iappend]: [p] are the bytes left. *)
Fixpoint append_loop (fuel : nat) (p : list Z) (off : Z) (addrs : list Z) : M mkfs (Z * list Z) :=
  if 0 <? zlen p then
    match fuel with
    | O => out_of_fuel
    | S fuel' =>
        let fbn := off / BSIZE in
        if MAXFILE <=? fbn then panic "assert"
        else
          r ← append_block addrs fbn;
          let n1 := Z.min (zlen p) (u32 ((fbn + 1) * BSIZE - off)) in
          buf ← rsect r.1;
          wsect r.1 (blit buf (off - fbn * BSIZE) (slice p 0 n1));;
          append_loop fuel' (drop (Z.to_nat n1) p) (u32 (off + n1)) r.2
    end
  else mret (off, addrs).

Definition iappend (inum : Z) (p : list Z) : M mkfs unit :=
  din ← rinode inum;
  r ← append_loop (length p) p (xint (d_size din)) (d_addrs din);
  winode inum (Dinode (d_type din) (d_major din) (d_minor din) (d_nlink din) (xint r.1) r.2).

Definition zeroname : list Z := replicate (Z.to_nat DIRSIZ) 0.

Section main.
(** The host: what the reads of a file return, and [basename]. *)
Context (host : list Z -> option (list (list Z))) (basename : list Z -> list Z).

Fixpoint append_file (inum : Z) (reads : list (list Z)) : M mkfs unit :=
  match reads with
  | [] => mret tt
  | buf :: reads' => if 0 <? zlen buf then iappend inum buf;; append_file inum reads' else mret tt
  end.

Fixpoint add_files (rootino : Z) (argv : list (list Z)) : M mkfs unit :=
  match argv with
  | [] => mret tt
  | path :: argv' =>
      match host path with
      | None => panic "open"
      | Some reads =>
          inum ← ialloc T_FILE;
          iappend rootino (encode_dirent (Dirent (xshort inum) (strncpy zeroname (basename path) DIRSIZ)));;
          append_file inum reads;;
          add_files rootino argv'
      end
  end.

Fixpoint wzeroes (i : Z) (n : nat) : M mkfs unit :=
  match n with O => mret tt | S n' => wsect i zero_block;; wzeroes (i + 1) n' end.

Definition encode_superblock (sb : superblock) : list Z :=
  mjoin (le_bytes 4 <$> [sb_size sb; sb_nblocks sb; sb_ninodes sb; sb_nlog sb; sb_logstart sb; sb_inodestart sb; sb_bmapstart sb]).

(** [main] after it has opened the image: [argv] are the files. *)
Definition main (argv : list (list Z)) : M mkfs unit :=
  modify (set_msb (Superblock (xint FSSIZE) (xint nblocks) (xint NINODES) (xint nlog) (xint 2) (xint (2 + nlog))
                              (xint (2 + nlog + ninodeblocks))));;
  modify (set_freeblock nmeta);;
  wzeroes 0 (Z.to_nat FSSIZE);;
  s ← get;
  wsect 1 (blit zero_block 0 (encode_superblock (msb s)));;
  rootino ← ialloc T_DIR;
  if negb (rootino =? ROOTINO) then panic "assert"
  else
    iappend rootino (encode_dirent (Dirent (xshort rootino) (strcpy zeroname [46; 0])));;
    iappend rootino (encode_dirent (Dirent (xshort rootino) (strcpy zeroname [46; 46; 0])));;
    add_files rootino argv;;
    din ← rinode rootino;
    let off := (xint (d_size din) / BSIZE + 1) * BSIZE in
    winode rootino (Dinode (d_type din) (d_major din) (d_minor din) (d_nlink din) (xint off) (d_addrs din));;
    s ← get;
    balloc (s32 (freeblock s)).
End main.

(** The state when it starts. *)
Definition mkfs0 : mkfs := MkState [] 1 0 (Superblock 0 0 0 0 0 0 0).
