(* ===== verification/MkfsSpec.v ===== *)
(** * The image that mkfs writes

    [main] of mkfs.c builds, for any files that fit, an image on which the
    kernel finds an empty log, a super block that describes the layout, a bitmap
    that marks exactly the blocks in use, a root directory with the names, and
    the contents of each file. *)

From S2P Require Import Prelude Param Cstring SleepLock Layout Bio Log LogCrash BlockStore Fs FsBlocks FsFile FsDir.
From S2P Require Import Mkfs.

Lemma xint_id x : is_u32 x -> xint x = x.
Proof. intros H. unfold xint, u8. simpl. rewrite !Z.shiftr_div_pow2 by lia. mlia. Qed.
Lemma xshort_id x : is_u16 x -> xshort x = x.
Proof. intros H. unfold xshort, u8. simpl. rewrite !Z.shiftr_div_pow2 by lia. mlia. Qed.

(** ** Sectors *)

Definition on_image (b : Z) : Prop := 0 <= b < FSSIZE.

(** The blocks of the image. *)
Record im_rep (s : mkfs) (v : Z -> block) : Prop := {
  im_len : zlen (img s) = FSSIZE;
  im_view : forall b, on_image b -> rd zero_block (img s) b = v b;
  im_block : forall b, on_image b -> is_block (v b)
}.

Lemma sect_id b : on_image b -> sect b = Z.to_nat b.
Proof. intros H. unfold sect, on_image, FSSIZE, BSIZE in *. f_equal. mlia. Qed.

Lemma wp_rsect s v b (Q : block -> mkfs -> Prop) : im_rep s v -> on_image b -> Q (v b) s -> wp (rsect b) Q s.
Proof.
  intros [L V _] Hb HQ. unfold rsect. wp_step. wp_step. rewrite sect_id by done.
  rewrite (lookup_rd zero_block) by (unfold on_image, zlen in *; lia). unfold on_image in Hb. rewrite Z2Nat.id by lia. rewrite V by done. by apply wp_ret.
Qed.

Lemma wp_wsect s v b d (Q : unit -> mkfs -> Prop) : im_rep s v -> on_image b -> is_block d ->
  (forall s', im_rep s' (upd v b d) -> freeinode s' = freeinode s -> freeblock s' = freeblock s -> msb s' = msb s -> Q tt s') ->
  wp (wsect b d) Q s.
Proof.
  intros [L V B] Hb Hd HQ. unfold wsect. wp_step. apply HQ; try done. unfold on_image in *. split; simpl.
  - rewrite sect_id by done. rewrite decide_True by (unfold zlen in L; lia). unfold zlen. by rewrite length_insert.
  - intros c Hc. rewrite sect_id by done. rewrite decide_True by (unfold zlen in L; lia).
    assert (E : <[Z.to_nat b := d]> (img s) = wr (img s) b d) by (unfold wr; by rewrite decide_True by lia).
    rewrite E. unfold upd. rewrite rd_wr by lia. destruct (decide (b = c)); [done|by apply V].
  - intros c Hc. unfold upd. case_decide; [done|by apply B].
Qed.

(** ** The blocks of the files *)

Lemma meta_values : nmeta = 59 /\ FSSIZE = 1000 /\ BSIZE = 512 /\ NDIRECT = 12 /\ NINDIRECT = 128 /\ MAXFILE = 140.
Proof. done. Qed.

(** A file: the type and the addresses of its inode, its bytes, and the
    positions that have a block. *)
Record mfile := MFile { mf_type : Z; mf_ad : list Z; mf_bytes : list Z; mf_pos : gset Z }.

(** Data blocks up to [fb] belong to files, each to one position of one file;
    the others hold zeros. *)
Record ftab (v : Z -> block) (fb : Z) (F : list mfile) : Prop := {
  ft_fb : nmeta <= fb <= FSSIZE;
  ft_zero : forall b, fb <= b < FSSIZE -> v b = zero_block;
  ft_len : forall i f, F !! i = Some f -> zlen (mf_ad f) = NDIRECT + 1;
  ft_pos : forall i f k, F !! i = Some f -> position k -> faddr v (mf_ad f) k ≠ 0 <-> k ∈ mf_pos f;
  ft_range : forall i f k, F !! i = Some f -> position k -> k ∈ mf_pos f -> nmeta <= faddr v (mf_ad f) k < fb;
  ft_inj : forall i j f g k l, F !! i = Some f -> F !! j = Some g -> position k -> position l ->
    k ∈ mf_pos f -> l ∈ mf_pos g -> faddr v (mf_ad f) k = faddr v (mf_ad g) l -> i = j /\ k = l;
  ft_byte : forall i f n, F !! i = Some f -> 0 <= n -> n / BSIZE < MAXFILE -> n / BSIZE ∈ mf_pos f ->
    fbyte v (mf_ad f) n = rd 0 (mf_bytes f) n
}.

Lemma pos_max : position MAXFILE.
Proof. done. Qed.

Lemma faddr_zero v ad k : rd 0 ad NDIRECT = 0 -> NDIRECT <= k <= MAXFILE -> faddr v ad k = 0.
Proof.
  intros H Hk. unfold faddr. rewrite H. destruct (meta_values) as (_ & _ & _ & E1 & E2 & E3).
  destruct (Z.ltb_spec k NDIRECT); [lia|]. by destruct (k <? MAXFILE).
Qed.

(** A change outside the blocks of a file leaves the file as it is. *)
Lemma file_outside v v' fb F i f : ftab v fb F -> F !! i = Some f ->
  (forall k, position k -> k ∈ mf_pos f -> v' (faddr v (mf_ad f) k) = v (faddr v (mf_ad f) k)) ->
  (forall k, position k -> faddr v' (mf_ad f) k = faddr v (mf_ad f) k) /\
  (forall n, 0 <= n -> n / BSIZE < MAXFILE -> n / BSIZE ∈ mf_pos f -> fbyte v' (mf_ad f) n = fbyte v (mf_ad f) n).
Proof.
  intros T Hf Hv. assert (A : forall k, faddr v' (mf_ad f) k = faddr v (mf_ad f) k).
  { intros k. apply faddr_view. destruct (decide (MAXFILE ∈ mf_pos f)) as [Hm|Hm].
    - right. rewrite <- (faddr_ind v). by apply Hv.
    - left. rewrite <- (faddr_ind v). destruct (decide (faddr v (mf_ad f) MAXFILE = 0)) as [E|E]; [done|].
      apply (ft_pos _ _ _ T i f) in E; done. }
  split; [intros k _; apply A|]. intros n Hn Hl Hp. unfold fbyte. rewrite A. f_equal. apply Hv; [|done].
  unfold position. split; [apply Z.div_pos; [done|by compute]|lia].
Qed.

Lemma lookup_update {A} (F : list A) i f' j x : <[i := f']> F !! j = Some x ->
  j = i /\ x = f' /\ (i < length F)%nat \/ j ≠ i /\ F !! j = Some x.
Proof. intros H. apply list_lookup_insert_Some in H as [(-> & -> & ?)|[? ?]]; auto. Qed.

Lemma div_pos n : 0 <= n -> n / BSIZE < MAXFILE -> position (n / BSIZE).
Proof. intros H1 H2. split; [apply Z.div_pos; [done|by compute]|lia]. Qed.

(** The next block becomes the block at position [p] of file [i]. *)
Lemma ftab_alloc v v' fb F i f ad' p : ftab v fb F -> F !! i = Some f -> position p -> p ∉ mf_pos f -> fb < FSSIZE ->
  zlen ad' = NDIRECT + 1 -> (p < MAXFILE -> zlen (mf_bytes f) <= p * BSIZE) ->
  (forall k, position k -> faddr v' ad' k = if decide (k = p) then fb else faddr v (mf_ad f) k) ->
  (forall b, (MAXFILE ∈ mf_pos f -> b ≠ faddr v (mf_ad f) MAXFILE) -> v' b = v b) ->
  ftab v' (fb + 1) (<[i := MFile (mf_type f) ad' (mf_bytes f) ({[p]} ∪ mf_pos f)]> F).
Proof.
  intros T Hf Hp Np Hfb Hl Hb A V. assert (T' := T). destruct T' as [T1 T2 T3 T4 T5 T6 T7].
  assert (Oth : forall j g, F !! j = Some g -> j ≠ i ->
    (forall k, position k -> faddr v' (mf_ad g) k = faddr v (mf_ad g) k) /\
    (forall n, 0 <= n -> n / BSIZE < MAXFILE -> n / BSIZE ∈ mf_pos g -> fbyte v' (mf_ad g) n = fbyte v (mf_ad g) n)).
  { intros j g Hg Nj. apply (file_outside v v' fb F j g); [done|done|]. intros k Hk Hkg. apply V. intros Hm E.
    destruct (T6 j i g f k MAXFILE) as [E' _]; try done. }
  assert (Vz : forall b, fb <= b -> v' b = v b).
  { intros b H. apply V. intros Hm. specialize (T5 i f MAXFILE Hf pos_max Hm). lia. }
  assert (Old : forall j g k, F !! j = Some g -> position k -> k ∈ mf_pos g -> faddr v (mf_ad g) k < fb).
  { intros j g k Hg Hk Hkg. apply (T5 j g k Hg Hk Hkg). }
  assert (Z0 : fb ≠ 0) by (destruct meta_values; lia).
  split.
  - lia.
  - intros b H. rewrite Vz by lia. apply T2. lia.
  - intros j g H. apply lookup_update in H as [(-> & -> & _)|[_ H]]; [done|by eapply T3].
  - intros j g k H Hk. apply lookup_update in H as [(-> & -> & _)|[Nj H]]; simpl.
    + rewrite A by done. case_decide; [set_solver|]. rewrite (T4 i f k Hf Hk). set_solver.
    + rewrite (proj1 (Oth j g H Nj)) by done. by eapply T4.
  - intros j g k H Hk. apply lookup_update in H as [(-> & -> & _)|[Nj H]]; simpl.
    + rewrite A by done. case_decide; [lia|]. intros Hkf. assert (X := T5 i f k Hf Hk). rewrite elem_of_union, elem_of_singleton in Hkf.
      destruct Hkf as [?|Hkf]; [done|]. specialize (X Hkf). lia.
    + intros Hkg. rewrite (proj1 (Oth j g H Nj)) by done. specialize (T5 j g k H Hk Hkg). lia.
  - intros j l g h k m Hg Hh Hk Hm. apply lookup_update in Hg as [(-> & -> & _)|[Nj Hg]]; apply lookup_update in Hh as [(-> & -> & _)|[Nl Hh]]; simpl;
      rewrite ?elem_of_union, ?elem_of_singleton; intros Pk Pm.
    + rewrite !A by done. intros E. split; [done|]. repeat case_decide; subst; try done.
      * destruct Pm as [?|Pm]; [done|]. specialize (Old i f m Hf Hm Pm). lia.
      * destruct Pk as [?|Pk]; [done|]. specialize (Old i f k Hf Hk Pk). lia.
      * destruct Pm as [?|Pm]; [done|]. destruct Pk as [?|Pk]; [done|]. by destruct (T6 i i f f k m).
    + rewrite A, (proj1 (Oth l h Hh Nl)) by done. intros E. specialize (Old l h m Hh Hm Pm). case_decide; [lia|].
      destruct Pk as [?|Pk]; [done|]. by destruct (T6 i l f h k m).
    + rewrite A, (proj1 (Oth j g Hg Nj)) by done. intros E. specialize (Old j g k Hg Hk Pk). case_decide; [lia|].
      destruct Pm as [?|Pm]; [done|]. by destruct (T6 j i g f k m).
    + rewrite (proj1 (Oth j g Hg Nj)), (proj1 (Oth l h Hh Nl)) by done. by apply T6.
  - intros j g n H Hn Hl' Hkn. apply lookup_update in H as [(-> & -> & _)|[Nj H]]; simpl in *.
    + unfold fbyte. rewrite A by by apply div_pos. case_decide as Ep.
      * rewrite Vz, T2 by lia. assert (Hz : 0 <= n mod BSIZE < BSIZE) by (by apply Z.mod_pos_bound).
        unfold zero_block. rewrite rd_replicate by (simpl; unfold BSIZE in *; lia). rewrite rd_out; [done|]. right.
        specialize (Hb ltac:(lia)). unfold BSIZE in *. mlia.
      * assert (Hk : n / BSIZE ∈ mf_pos f) by set_solver. rewrite <- (T7 i f n) by done. unfold fbyte. f_equal. apply V. intros Hm E.
        destruct (T6 i i f f (n / BSIZE) MAXFILE); try done; [by apply div_pos|lia].
    + rewrite (proj2 (Oth j g H Nj)) by done. by eapply T7.
Qed.

(** Bytes are added in a block the file has. *)
Lemma ftab_append v fb F i f src : let off := zlen (mf_bytes f) in let a := faddr v (mf_ad f) (off / BSIZE) in
  ftab v fb F -> F !! i = Some f -> off / BSIZE < MAXFILE -> off / BSIZE ∈ mf_pos f -> zlen (v a) = BSIZE ->
  off mod BSIZE + zlen src <= BSIZE ->
  ftab (upd v a (blit (v a) (off mod BSIZE) src)) fb (<[i := MFile (mf_type f) (mf_ad f) (mf_bytes f ++ src) (mf_pos f)]> F).
Proof.
  intros off a T Hf Hm Hp Hz Hs. assert (T' := T). destruct T' as [T1 T2 T3 T4 T5 T6 T7].
  assert (Ho : 0 <= off) by apply zlen_nonneg. assert (Pk := div_pos off Ho Hm).
  set (v' := upd v a _).
  assert (V : forall b, b ≠ a -> v' b = v b) by (intros b Hb; by apply upd_ne).
  assert (A : forall j g k, F !! j = Some g -> position k -> faddr v' (mf_ad g) k = faddr v (mf_ad g) k).
  { intros j g k Hg Hk. apply faddr_view. destruct (decide (rd 0 (mf_ad g) NDIRECT = 0)) as [E|E]; [by left|right].
    apply V. rewrite <- (faddr_ind v) in *. intros E'. apply (T4 j g MAXFILE Hg pos_max) in E.
    destruct (T6 j i g f MAXFILE (off / BSIZE)); try done. lia. }
  assert (L : forall j g, <[i := MFile (mf_type f) (mf_ad f) (mf_bytes f ++ src) (mf_pos f)]> F !! j = Some g ->
    exists g', F !! j = Some g' /\ mf_ad g = mf_ad g' /\ mf_pos g = mf_pos g').
  { intros j g H. apply lookup_update in H as [(-> & -> & _)|[_ H]]; [by exists f|by exists g]. }
  split.
  - done.
  - intros b Hb. rewrite V; [by apply T2|]. assert (X := T5 i f (off / BSIZE) Hf Pk Hp). lia.
  - intros j g H. destruct (L j g H) as (g' & H' & -> & _). by eapply T3.
  - intros j g k H Hk. destruct (L j g H) as (g' & H' & -> & ->). rewrite (A j) by done. by eapply T4.
  - intros j g k H Hk. destruct (L j g H) as (g' & H' & -> & ->). rewrite (A j) by done. by eapply T5.
  - intros j l g h k m Hg Hh Hk Hm'. destruct (L j g Hg) as (g' & Hg' & -> & ->). destruct (L l h Hh) as (h' & Hh' & -> & ->).
    rewrite (A j), (A l) by done. by apply T6.
  - intros j g n H Hn Hl' Hkn. assert (Pn := div_pos n Hn Hl'). apply lookup_update in H as [(-> & -> & _)|[Nj H]]; simpl in *.
    + unfold fbyte. rewrite (A i) by done. destruct (decide (n / BSIZE = off / BSIZE)) as [E|E].
      * rewrite E. fold a. unfold v'. rewrite upd_eq. assert (0 <= off mod BSIZE < BSIZE) by (by apply Z.mod_pos_bound).
        rewrite rd_blit_gen by lia. rewrite rd_app. fold off.
        assert (X := T7 i f n Hf Hn Hl' Hkn). unfold fbyte in X. rewrite E in X. fold a in X. unfold BSIZE in *.
        destruct (decide (n < off)) as [Hlt|Hge].
        -- rewrite decide_False by mlia. exact X.
        -- case_decide as D; [f_equal; mlia|]. rewrite X, !rd_out; [done|right; mlia|right; fold off; lia].
      * rewrite V. { assert (X := T7 i f n Hf Hn Hl' Hkn). unfold fbyte in X. rewrite X, rd_app. fold off.
          destruct (decide (n < off)); [done|]. rewrite !rd_out; [done|right; unfold BSIZE in *; mlia|right; fold off; lia]. }
        intros E'. destruct (T6 i i f f (n / BSIZE) (off / BSIZE)); done.
    + unfold fbyte. rewrite (A j) by done. rewrite V; [by apply (T7 j g n)|]. intros E'. by destruct (T6 j i g f (n / BSIZE) (off / BSIZE)).
Qed.

(** ** Allocation *)

Lemma faddr_u32 v fb F i f k : ftab v fb F -> F !! i = Some f -> position k -> is_u32 (faddr v (mf_ad f) k).
Proof.
  intros T Hf Hk. destruct (decide (faddr v (mf_ad f) k = 0)) as [->|E]; [done|].
  apply (ft_pos _ _ _ T i f k Hf Hk) in E. assert (X := ft_range _ _ _ T i f k Hf Hk E). assert (Y := ft_fb _ _ _ T).
  destruct meta_values as (? & ? & _). unfold is_u32. lia.
Qed.

(** The position in a file of the address at index [k] of its inode. *)
Definition slot (k : Z) : Z := if k <? NDIRECT then k else MAXFILE.

Lemma faddr_slot v ad k : 0 <= k <= NDIRECT -> faddr v ad (slot k) = rd 0 ad k /\ position (slot k).
Proof.
  intros H. unfold slot, position. destruct meta_values as (_ & _ & _ & E1 & _ & E2). destruct (Z.ltb_spec k NDIRECT) as [Hk|Hk].
  - unfold faddr. destruct (Z.ltb_spec k NDIRECT); [|lia]. split; [done|lia].
  - replace k with NDIRECT by lia. rewrite faddr_ind. split; [done|lia].
Qed.

(** Only the number of the next block changed. *)
Definition moved (s s' : mkfs) (d : Z) : Prop := freeblock s' = freeblock s + d /\ freeinode s' = freeinode s /\ msb s' = msb s.

Definition with_pos (f : mfile) (ad : list Z) (p : Z) : mfile := MFile (mf_type f) ad (mf_bytes f) ({[p]} ∪ mf_pos f).

Lemma with_pos_id (F : list mfile) i f p : F !! i = Some f -> p ∈ mf_pos f -> <[i := with_pos f (mf_ad f) p]> F = F.
Proof.
  intros Hf Hp. apply list_insert_id. rewrite Hf. f_equal. unfold with_pos.
  rewrite (subseteq_union_1_L {[p]} (mf_pos f)) by set_solver. by destruct f.
Qed.

Definition fresh_for (f : mfile) (p fb : Z) : Prop := p ∉ mf_pos f -> fb < FSSIZE /\ (p < MAXFILE -> zlen (mf_bytes f) <= p * BSIZE).

Lemma wp_newblock s v fb F (Q : Z -> mkfs -> Prop) : im_rep s v -> ftab v fb F -> freeblock s = fb ->
  (forall s', im_rep s' v -> moved s s' 1 -> Q fb s') -> wp newblock Q s.
Proof.
  intros R T E HQ. unfold newblock. wp_step. wp_step. wp_step. wp_step. wp_step. rewrite E. apply HQ.
  - by destruct R.
  - unfold moved. simpl. assert (Y := ft_fb _ _ _ T). destruct meta_values as (? & ? & _). rewrite E, u32_id by (unfold is_u32; lia). done.
Qed.

Lemma wp_inode_entry s v F i f k : let p := slot k in
  im_rep s v -> ftab v (freeblock s) F -> F !! i = Some f -> 0 <= k <= NDIRECT -> fresh_for f p (freeblock s) ->
  wp (inode_entry (mf_ad f) k) (fun ad s' => im_rep s' v /\ ftab v (freeblock s') (<[i := with_pos f ad p]> F) /\
    moved s s' (if decide (p ∈ mf_pos f) then 0 else 1)) s.
Proof.
  intros p R T Hf Hk Fr. destruct (faddr_slot v (mf_ad f) k Hk) as [Ep Pp]. fold p in Ep, Pp.
  assert (U := faddr_u32 _ _ _ _ _ p T Hf Pp). unfold inode_entry. rewrite <- Ep, xint_id by done.
  assert (X := ft_pos _ _ _ T i f p Hf Pp). destruct (Z.eqb_spec (faddr v (mf_ad f) p) 0) as [E|E].
  - assert (Np : p ∉ mf_pos f) by tauto. destruct (Fr Np) as [Hfb Hz]. wp_step. eapply wp_newblock; [done|done|done|].
    intros s' R' (M1 & M2 & M3). wp_step. split; [done|]. rewrite decide_False by done. rewrite M1. split; [|done].
    assert (Y := ft_fb _ _ _ T). destruct meta_values as (Em & Es & _). rewrite xint_id by (unfold is_u32; lia).
    assert (Ll := ft_len _ _ _ T i f Hf).
    apply (ftab_alloc v v (freeblock s) F i f); try done; [by rewrite zlen_wr|]. intros j Hj. unfold p, slot. destruct (Z.ltb_spec k NDIRECT).
    + apply faddr_wr_direct; [done|lia|done].
    + replace k with NDIRECT by lia. apply faddr_wr_indirect; try done.
      * replace NDIRECT with k by lia. congruence.
      * apply (ft_zero _ _ _ T). lia.
  - apply X in E. wp_step. rewrite decide_True by done. rewrite with_pos_id by done. split; [done|]. split; [done|]. unfold moved. split; [lia|done].
Qed.

Lemma wp_indirect_entry s v F i f k :
  im_rep s v -> ftab v (freeblock s) F -> F !! i = Some f -> NDIRECT <= k < MAXFILE -> MAXFILE ∈ mf_pos f -> fresh_for f k (freeblock s) ->
  wp (indirect_entry (faddr v (mf_ad f) MAXFILE) (k - NDIRECT)) (fun x s' => exists v', im_rep s' v' /\
    ftab v' (freeblock s') (<[i := with_pos f (mf_ad f) k]> F) /\ x = faddr v' (mf_ad f) k /\
    (forall b, b < nmeta -> v' b = v b) /\ moved s s' (if decide (k ∈ mf_pos f) then 0 else 1)) s.
Proof.
  intros R T Hf Hk Hm Fr. assert (Y := ft_fb _ _ _ T). destruct meta_values as (Em & Es & Eb & Ed & En & Ex).
  assert (Pk : position k) by (unfold position; lia).
  assert (Ri := ft_range _ _ _ T i f MAXFILE Hf pos_max Hm). assert (Ll := ft_len _ _ _ T i f Hf).
  set (ind := faddr v (mf_ad f) MAXFILE) in *. assert (Oi : on_image ind) by (unfold on_image; lia).
  assert (Ei : rd 0 (mf_ad f) NDIRECT = ind) by done.
  assert (Ek : get32 (v ind) (4 * (k - NDIRECT)) = faddr v (mf_ad f) k).
  { unfold faddr. rewrite Ei. destruct (Z.ltb_spec k NDIRECT); [lia|]. destruct (Z.ltb_spec k MAXFILE); [|lia]. destruct (Z.eqb_spec ind 0); [lia|done]. }
  assert (X := ft_pos _ _ _ T i f k Hf Pk). assert (U := faddr_u32 _ _ _ _ _ k T Hf Pk).
  assert (Bi := im_block _ _ R ind Oi). assert (Bz : zlen (v ind) = BSIZE) by apply Bi.
  unfold indirect_entry. wp_step. eapply wp_rsect; [done|done|]. rewrite Ek. wp_step.
  destruct (Z.eqb_spec (faddr v (mf_ad f) k) 0) as [E|E].
  - assert (Np : k ∉ mf_pos f) by tauto. destruct (Fr Np) as [Hfb Hz]. wp_step. eapply wp_newblock; [done|done|done|].
    intros s' R' (M1 & M2 & M3). wp_step. rewrite xint_id by (unfold is_u32; lia).
    eapply wp_wsect; [done|done|apply put32_block; [done|lia|lia]|]. intros s2 R2 N1 N2 N3. wp_step. wp_step.
    set (v' := upd v ind _) in *. assert (A : forall j, position j -> faddr v' (mf_ad f) j = if decide (j = k) then freeblock s else faddr v (mf_ad f) j).
    { intros j Hj. unfold v'. assert (P := faddr_put_entry v (mf_ad f) Ll (k - NDIRECT) (freeblock s) j (v ind)). cbv zeta in P. rewrite Ei in P.
      rewrite P; try done; try lia; [|unfold is_u32; lia]. by replace (NDIRECT + (k - NDIRECT)) with k by lia. }
    exists v'. split; [done|]. rewrite N2, M1. split.
    { apply (ftab_alloc v v' (freeblock s) F i f); try done. intros b Hb. apply upd_ne. symmetry. by apply Hb. }
    split; [|split; [intros b Hb; apply upd_ne; lia|]].
    + rewrite A, decide_True, get32_put32, u32_id, xint_id by (done || lia || (unfold is_u32; lia)). done.
    + rewrite decide_False by done. unfold moved. split; [lia|split; congruence].
  - apply X in E. wp_step. wp_step. exists v. rewrite decide_True by done. rewrite with_pos_id, Ek, xint_id by done.
    split_and!; try done. unfold moved. split; [lia|done].
Qed.

(** ** iappend *)

(** The positions of a file of [n] bytes that have a block, and their number. *)
Definition pos_of (n : Z) : gset Z :=
  list_to_set (filter (fun k => (if decide (k < MAXFILE) then k else NDIRECT) * BSIZE < n) (seqZ 0 (MAXFILE + 1))).

Definition nblk (n : Z) : Z := (n + (BSIZE - 1)) / BSIZE + (if NDIRECT * BSIZE <? n then 1 else 0).

Lemma elem_pos_of n k : k ∈ pos_of n <-> position k /\ (k < MAXFILE /\ k * BSIZE < n \/ k = MAXFILE /\ NDIRECT * BSIZE < n).
Proof.
  unfold pos_of, position. rewrite elem_of_list_to_set, list_elem_of_filter, elem_of_seqZ. case_decide; split; intros; lia.
Qed.

(** The block at [off] of a file of [off] bytes. *)
Lemma nblk_next off : 0 <= off -> let k := off / BSIZE in
  nblk ((k + 1) * BSIZE) - nblk off =
    (if decide (k * BSIZE < off) then 0 else 1) + (if decide (k < NDIRECT \/ NDIRECT * BSIZE < off) then 0 else 1).
Proof.
  intros Ho k. unfold nblk, k, BSIZE, NDIRECT. repeat case_decide; destruct (Z.ltb_spec (12 * 512) ((off / 512 + 1) * 512)), (Z.ltb_spec (12 * 512) off); mlia.
Qed.

Lemma nblk_mono n m : 0 <= n <= m -> nblk n <= nblk m.
Proof. intros H. unfold nblk, BSIZE, NDIRECT. destruct (Z.ltb_spec (12 * 512) n), (Z.ltb_spec (12 * 512) m); mlia. Qed.

Lemma nblk_same off n : 0 < n -> 0 <= off -> off mod BSIZE + n <= BSIZE -> let k := off / BSIZE in
  nblk (off + n) = nblk ((k + 1) * BSIZE) /\ (k < MAXFILE -> pos_of (off + n) = pos_of ((k + 1) * BSIZE)).
Proof.
  intros Hn Ho Hm k. split.
  - unfold nblk, k, BSIZE, NDIRECT in *. destruct (Z.ltb_spec (12 * 512) ((off / 512 + 1) * 512)), (Z.ltb_spec (12 * 512) (off + n)); mlia.
  - intros Hk. apply set_eq. intros j. rewrite !elem_pos_of. unfold k, BSIZE, NDIRECT in *. split; intros [Hj H]; (split; [done|]); mlia.
Qed.

Lemma pos_next off : 0 <= off -> let k := off / BSIZE in k < MAXFILE ->
  (k < NDIRECT -> {[k]} ∪ pos_of off = pos_of ((k + 1) * BSIZE)) /\
  (NDIRECT <= k -> {[k]} ∪ ({[MAXFILE]} ∪ pos_of off) = pos_of ((k + 1) * BSIZE)).
Proof.
  intros Ho k Hk. destruct meta_values as (Em & Es & Eb & Ed & En & Ex). unfold k, BSIZE in *. rewrite Ed in *.
  split; intros Hd; apply set_eq; intros j; rewrite !elem_of_union, ?elem_of_singleton, !elem_pos_of; unfold position; rewrite Ex in *; unfold BSIZE; rewrite Ed; split; intros H;
    repeat destruct H as [H|H]; try lia; mlia.
Qed.

Lemma moved_trans s1 s2 s3 m n : moved s1 s2 m -> moved s2 s3 n -> moved s1 s3 (m + n).
Proof. intros (A & B & C) (D & E & G). unfold moved. split; [lia|split; congruence]. Qed.

Lemma wp_append_block s v F i f : let off := zlen (mf_bytes f) in let k := off / BSIZE in
  im_rep s v -> ftab v (freeblock s) F -> F !! i = Some f -> k < MAXFILE -> mf_pos f = pos_of off ->
  freeblock s + (nblk ((k + 1) * BSIZE) - nblk off) <= FSSIZE ->
  wp (append_block (mf_ad f) k) (fun r s' => exists v', im_rep s' v' /\
    ftab v' (freeblock s') (<[i := MFile (mf_type f) r.2 (mf_bytes f) (pos_of ((k + 1) * BSIZE))]> F) /\ r.1 = faddr v' r.2 k /\
    (forall b, b < nmeta -> v' b = v b) /\ moved s s' (nblk ((k + 1) * BSIZE) - nblk off)) s.
Proof.
  intros off k R T Hf Hk Hp Hroom. assert (Ho : 0 <= off) by apply zlen_nonneg.
  assert (Pk : position k) by (apply div_pos; [done|exact Hk]).
  assert (Kp : k ∈ mf_pos f <-> k * BSIZE < off) by (rewrite Hp, elem_pos_of; unfold k in *; intuition lia).
  assert (Mp : MAXFILE ∈ mf_pos f <-> NDIRECT * BSIZE < off) by (rewrite Hp, elem_pos_of; pose proof pos_max; intuition lia).
  assert (N := nblk_next off Ho). cbv zeta in N. fold k in N. rewrite N in *.
  assert (PN := pos_next off Ho Hk). cbv zeta in PN. fold k in PN. destruct PN as [PN1 PN2].
  assert (Kz : ~ k * BSIZE < off -> zlen (mf_bytes f) <= k * BSIZE) by (fold off; lia).
  assert (Hi : (i < length F)%nat) by (by eapply lookup_lt_Some).
  destruct meta_values as (Em & Es & Eb & Ed & En & Ex). unfold append_block. destruct (Z.ltb_spec k NDIRECT) as [Hd|Hd].
  - rewrite (decide_True (P := k < NDIRECT \/ _)) in * by (by left).
    assert (Sk : slot k = k) by (unfold slot; destruct (Z.ltb_spec k NDIRECT); [done|lia]).
    wp_step. eapply wp_mono; [apply (wp_inode_entry s v F i f k); try done; rewrite ?Sk|].
    + unfold position in Pk. lia.
    + intros Np. rewrite decide_False in Hroom by tauto. split; [lia|tauto].
    + intros ad s' (R' & T' & M). rewrite Sk in *. wp_step. exists v.
      unfold with_pos in T'. rewrite Hp, PN1 in T' by done. split; [done|]. split; [done|].
      assert (U := faddr_u32 _ _ _ i (MFile (mf_type f) ad (mf_bytes f) (pos_of ((k + 1) * BSIZE))) k T' ltac:(by apply list_lookup_insert_eq) Pk).
      destruct (faddr_slot v ad k) as [E _]; [unfold position in Pk; lia|]. rewrite Sk in E. simpl in *. rewrite E in *.
      split; [by apply xint_id|]. split; [done|]. rewrite Z.add_0_r. erewrite decide_ext; [exact M|]. tauto.
  - wp_step. assert (Sk : slot NDIRECT = MAXFILE) by done. assert (DE : (if decide (k < NDIRECT \/ NDIRECT * BSIZE < off) then 0 else 1) = if decide (NDIRECT * BSIZE < off) then 0 else 1)
      by (repeat case_decide; lia).
    rewrite DE in *. clear DE.
    eapply wp_mono; [apply (wp_inode_entry s v F i f NDIRECT); try done; rewrite ?Sk|].
    + intros Np. split; [|lia]. rewrite (decide_False (P := NDIRECT * BSIZE < off)) in Hroom by tauto. case_decide; lia.
    + intros ad s1 (R1 & T1 & M1). rewrite Sk in *. set (f1 := with_pos f ad MAXFILE) in *.
      assert (Hf1 : <[i := f1]> F !! i = Some f1) by (by apply list_lookup_insert_eq).
      wp_step. rewrite <- (faddr_ind v ad). rewrite xint_id by (apply (faddr_u32 v _ _ i f1 MAXFILE T1 Hf1 pos_max)).
      eapply wp_mono; [apply (wp_indirect_entry s1 v _ i f1 k R1 T1 Hf1); [lia|set_solver|]|].
      * intros Np. simpl in Np. assert (Nk : ~ k * BSIZE < off) by set_solver. split; [|intros _; by apply Kz].
        destruct M1 as (-> & _). rewrite (decide_False (P := k * BSIZE < off)) in Hroom by done. repeat case_decide; tauto || lia.
      * intros x s2 (v' & R2 & T2 & -> & Lw & M2). wp_step. exists v'. simpl. rewrite list_insert_insert_eq in T2.
        unfold with_pos in T2. simpl in T2. rewrite Hp, PN2 in T2 by done. split_and!; try done.
        assert (Km : k ∈ {[MAXFILE]} ∪ mf_pos f <-> k * BSIZE < off) by (rewrite <- Kp, elem_of_union, elem_of_singleton; assert (k ≠ MAXFILE) by lia; tauto).
        assert (M := moved_trans _ _ _ _ _ M1 M2). simpl in M.
        replace (_ + _) with ((if decide (MAXFILE ∈ mf_pos f) then 0 else 1) + (if decide (k ∈ {[MAXFILE]} ∪ mf_pos f) then 0 else 1)); [done|].
        repeat case_decide; tauto.
Qed.

(** The file with [p] at its end. *)
Definition grown (f : mfile) (ad p : list Z) : mfile := MFile (mf_type f) ad (mf_bytes f ++ p) (pos_of (zlen (mf_bytes f ++ p))).

(** One round of the loop: the part [q] of the bytes that goes into the block at the end. *)
Lemma wp_append_round {A} s v F i f q (m : Z * list Z -> M mkfs A) (Q : A -> mkfs -> Prop) :
  let off := zlen (mf_bytes f) in let k := off / BSIZE in
  im_rep s v -> ftab v (freeblock s) F -> F !! i = Some f -> k < MAXFILE -> mf_pos f = pos_of off -> Forall is_u8 q ->
  0 < zlen q -> off mod BSIZE + zlen q <= BSIZE -> freeblock s + (nblk (off + zlen q) - nblk off) <= FSSIZE ->
  (forall r s' v', im_rep s' v' -> ftab v' (freeblock s') (<[i := grown f r.2 q]> F) -> (forall b, b < nmeta -> v' b = v b) ->
     moved s s' (nblk (off + zlen q) - nblk off) -> wp (m r) Q s') ->
  wp (r ← append_block (mf_ad f) k; buf ← rsect r.1; wsect r.1 (blit buf (off - k * BSIZE) q);; m r) Q s.
Proof.
  intros off k R T Hf Hk Hp Hu Hq Hm Hroom HQ. assert (Ho : 0 <= off) by apply zlen_nonneg.
  destruct (nblk_same off (zlen q) Hq Ho Hm) as [Nb Np]. fold k in Nb, Np. rewrite Nb in *.
  wp_step. eapply wp_mono; [by apply (wp_append_block s v F i f)|]. intros [x ad] s1 (v1 & R1 & T1 & Ex & Lw & M1). fold off k in T1, M1, Ex.
  cbn [fst snd] in *. set (f1 := MFile _ ad _ _) in *. assert (Hi := lookup_lt_Some _ _ _ Hf).
  assert (Hf1 : <[i := f1]> F !! i = Some f1) by (by apply list_lookup_insert_eq). assert (Pk := div_pos off Ho Hk).
  assert (Kp : k ∈ mf_pos f1). { simpl. rewrite elem_pos_of. split; [done|left]. split; [done|]. unfold k, BSIZE. mlia. }
  assert (Rk := ft_range _ _ _ T1 i f1 k Hf1 Pk Kp). change (mf_ad f1) with ad in Rk. rewrite <- Ex in Rk. assert (Y := ft_fb _ _ _ T1).
  assert (Ox : on_image x) by (unfold on_image; destruct meta_values; lia). assert (Bx := im_block _ _ R1 x Ox).
  wp_step. eapply wp_rsect; [done|done|]. wp_step. replace (off - k * BSIZE) with (off mod BSIZE) by (unfold k, BSIZE; mlia).
  assert (0 <= off mod BSIZE < BSIZE) by (by apply Z.mod_pos_bound).
  eapply wp_wsect; [done|done|by apply blit_block; try lia|]. intros s2 R2 E1 E2 E3.
  eapply (HQ (x, ad)); [exact R2| | |].
  - assert (T2 := ftab_append v1 (freeblock s1) _ i f1 q T1 Hf1 Hk Kp). simpl in T2. fold off k in T2. rewrite <- Ex in T2.
    specialize (T2 (proj1 Bx) Hm). rewrite list_insert_insert_eq in T2. rewrite E2. unfold grown. simpl.
    rewrite zlen_app. fold off. rewrite Np by done. exact T2.
  - intros b Hb. rewrite upd_ne by lia. by apply Lw.
  - destruct M1 as (M1 & M2 & M3). unfold moved. split; [congruence|split; congruence].
Qed.

Lemma wp_append_loop fuel : forall p s v F i f, let off := zlen (mf_bytes f) in (length p <= fuel)%nat ->
  im_rep s v -> ftab v (freeblock s) F -> F !! i = Some f -> mf_pos f = pos_of off -> Forall is_u8 p ->
  off + zlen p <= MAXFILE * BSIZE -> freeblock s + (nblk (off + zlen p) - nblk off) <= FSSIZE ->
  wp (append_loop fuel p off (mf_ad f)) (fun r s' => exists v', r.1 = off + zlen p /\ im_rep s' v' /\
    ftab v' (freeblock s') (<[i := grown f r.2 p]> F) /\ (forall b, b < nmeta -> v' b = v b) /\
    moved s s' (nblk (off + zlen p) - nblk off)) s.
Proof.
  induction fuel as [|fuel IH]; intros p s v F i f off Hl R T Hf Hp Hu Hmax Hroom; simpl.
  all: destruct (Z.ltb_spec 0 (zlen p)) as [H0|H0]; [|assert (p = []) as -> by (destruct p; [done|unfold zlen in H0; simpl in H0; lia])].
  1: by unfold zlen in H0; lia.
  1, 3: change (zlen []) with 0; rewrite Z.add_0_r, Z.sub_diag; wp_step; exists v; unfold grown; simpl; rewrite app_nil_r; fold off; rewrite <- Hp;
    rewrite list_insert_id by (by destruct f); split_and!; try done; unfold moved; split; [lia|done].
  assert (Ho : 0 <= off) by apply zlen_nonneg. assert (Hk : off / BSIZE < MAXFILE) by (unfold BSIZE in *; mlia).
  destruct (Z.leb_spec MAXFILE (off / BSIZE)); [lia|].
  assert (E1 : u32 ((off / BSIZE + 1) * BSIZE - off) = BSIZE - off mod BSIZE) by (unfold BSIZE in *; destruct meta_values; mlia).
  rewrite E1. set (n1 := Z.min (zlen p) (BSIZE - off mod BSIZE)).
  assert (0 <= off mod BSIZE < BSIZE) by (by apply Z.mod_pos_bound).
  assert (Ln : zlen (slice p 0 n1) = n1) by (rewrite zlen_slice; lia).
  assert (Eq : p = slice p 0 n1 ++ drop (Z.to_nat n1) p) by (unfold slice; simpl; by rewrite take_drop).
  assert (Nm : nblk (off + n1) <= nblk (off + zlen p)) by (apply nblk_mono; lia).
  apply (wp_append_round s v F i f (slice p 0 n1)); try done; rewrite ?Ln; fold off; try lia; [by apply slice_u8|].
  intros [x ad] s' v' R' T' Lw M. cbn [fst snd] in *. rewrite u32_id by (rewrite maxfile_bytes in Hmax; unfold is_u32; lia).
  set (f' := grown f ad (slice p 0 n1)) in *. assert (Hi := lookup_lt_Some _ _ _ Hf).
  assert (Lf : zlen (mf_bytes f') = off + n1) by (simpl; by rewrite zlen_app, Ln).
  assert (Ld : zlen (drop (Z.to_nat n1) p) = zlen p - n1) by (unfold zlen; rewrite length_drop; unfold zlen in *; lia).
  assert (W := IH (drop (Z.to_nat n1) p) s' v' _ i f' ltac:(rewrite length_drop; unfold zlen in *; lia) R' T' ltac:(by apply list_lookup_insert_eq) eq_refl ltac:(by apply Forall_drop)).
  cbv zeta in W. rewrite Lf, Ld in W. replace (off + n1 + (zlen p - n1)) with (off + zlen p) in W by lia.
  eapply wp_mono; [apply W; [done|destruct M; lia]|]. intros [y ad2] s2 (v2 & Er & R2 & T2 & Lw2 & M2). exists v2. cbn [fst snd] in *.
  split; [done|]. split; [done|]. split; [|split].
  - rewrite list_insert_insert_eq in T2. unfold grown in *. simpl in T2. by rewrite <- app_assoc, <- Eq in T2.
  - intros b Hb. rewrite Lw2 by done. by apply Lw.
  - assert (X := moved_trans _ _ _ _ _ M M2). by replace (nblk (off + zlen p) - nblk off) with (nblk (off + n1) - nblk off + (nblk (off + zlen p) - nblk (off + n1))) by lia.
Qed.

(** ** Inodes *)

Definition mkfs_sb : superblock := Superblock FSSIZE nblocks NINODES nlog 2 (2 + nlog) (2 + nlog + ninodeblocks).
Definition sb_block : block := blit zero_block 0 (encode_superblock mkfs_sb).

Lemma mkfs_geom : fs_geom (BEnv FSSIZE 2 LOGSIZE true) mkfs_sb.
Proof. split; vm_compute; try done; split; done. Qed.

Lemma read_sb_block : read_superblock sb_block = mkfs_sb.
Proof. by vm_compute. Qed.

(** Blocks below the data may change. *)
Lemma ftab_low v v' fb F : (forall b, nmeta <= b < FSSIZE -> v' b = v b) -> ftab v fb F -> ftab v' fb F.
Proof.
  intros V T. assert (A : forall i f, F !! i = Some f ->
    (forall k, position k -> faddr v' (mf_ad f) k = faddr v (mf_ad f) k) /\
    (forall n, 0 <= n -> n / BSIZE < MAXFILE -> n / BSIZE ∈ mf_pos f -> fbyte v' (mf_ad f) n = fbyte v (mf_ad f) n)).
  { intros i f Hf. apply (file_outside v v' fb F i f); [done|done|]. intros k Hk Hp. apply V. assert (X := ft_range _ _ _ T i f k Hf Hk Hp). assert (Y := ft_fb _ _ _ T). lia. }
  assert (T' := T). destruct T' as [T1 T2 T3 T4 T5 T6 T7]. split; try done.
  - intros b Hb. rewrite V by lia. by apply T2.
  - intros i f k Hf Hk. rewrite (proj1 (A i f Hf)) by done. by eapply T4.
  - intros i f k Hf Hk Hp. rewrite (proj1 (A i f Hf)) by done. by eapply T5.
  - intros i j f g k l Hf Hg Hk Hl. rewrite (proj1 (A i f Hf)), (proj1 (A j g Hg)) by done. by apply T6.
  - intros i f n Hf H0 H1 H2. rewrite (proj2 (A i f Hf)) by done. by eapply T7.
Qed.

Definition new_file (ty : Z) : mfile := MFile ty (replicate (Z.to_nat (NDIRECT + 1)) 0) [] ∅.

Lemma faddr_new v ty k : position k -> faddr v (mf_ad (new_file ty)) k = 0.
Proof.
  intros Hk. simpl. assert (E : forall j, rd 0 (replicate 13 0) j = 0).
  { intros j. destruct (decide (0 <= j < 13)); [by apply (rd_replicate 0 13 0 j)|]. apply rd_out. rewrite zlen_replicate. lia. }
  destruct (Z.ltb_spec k NDIRECT) as [H|H]; [unfold faddr; destruct (Z.ltb_spec k NDIRECT); [apply E|lia]|].
  apply faddr_zero; [apply E|]. unfold position in Hk. lia.
Qed.

Lemma ftab_new v fb F ty : ftab v fb F -> ftab v fb (F ++ [new_file ty]).
Proof.
  intros [T1 T2 T3 T4 T5 T6 T7].
  assert (L : forall i f, (F ++ [new_file ty]) !! i = Some f -> F !! i = Some f \/ f = new_file ty).
  { intros i f H. apply lookup_app_Some in H as [H|[_ H]]; [by left|]. apply list_lookup_singleton_Some in H as [_ <-]. by right. }
  split; try done.
  - intros i f H. destruct (L i f H) as [H' | ->]; [by eapply T3|done].
  - intros i f k H Hk. destruct (L i f H) as [H' | ->]; [by eapply T4|]. rewrite faddr_new by done. simpl. set_solver.
  - intros i f k H Hk Hp. destruct (L i f H) as [H' | ->]; [by eapply T5|]. simpl in Hp. set_solver.
  - intros i j f g k l Hf Hg Hk Hl Pk Pl. destruct (L i f Hf) as [Hf' | ->]; [|simpl in Pk; set_solver].
    destruct (L j g Hg) as [Hg' | ->]; [by apply T6|simpl in Pl; set_solver].
  - intros i f n H H0 H1 Hp. destruct (L i f H) as [H' | ->]; [by eapply T7|]. simpl in Hp. set_solver.
Qed.

Lemma mf_ad_u32 v fb F i f : ftab v fb F -> F !! i = Some f -> Forall is_u32 (mf_ad f).
Proof.
  intros T Hf. assert (Ll := ft_len _ _ _ T i f Hf). apply Forall_lookup_2. intros k x Hx. assert (Hk := lookup_lt_Some _ _ _ Hx).
  destruct (faddr_slot v (mf_ad f) (Z.of_nat k)) as [E P]; [unfold zlen in Ll; lia|].
  assert (U := faddr_u32 _ _ _ _ _ _ T Hf P). rewrite E in U. erewrite rd_lookup in U; [exact U|lia|]. by rewrite Nat2Z.id.
Qed.

Definition din_of (f : mfile) : dinode := Dinode (mf_type f) 0 0 1 (zlen (mf_bytes f)) (mf_ad f).

Lemma din_of_wf v fb F i f : ftab v fb F -> F !! i = Some f -> is_s16 (mf_type f) -> zlen (mf_bytes f) <= MAXFILE * BSIZE -> dinode_wf (din_of f).
Proof.
  intros T Hf Ht Hs. assert (0 <= zlen (mf_bytes f)) by apply zlen_nonneg. rewrite maxfile_bytes in Hs.
  split; simpl; try done; [unfold is_u32; lia|by eapply ft_len|by eapply mf_ad_u32].
Qed.

Lemma iblock_low i : 0 <= i < NINODES -> 32 <= IBLOCK i mkfs_sb < 58.
Proof. intros H. destruct (IBLOCK_range _ _ mkfs_geom i H) as [_ X]. exact X. Qed.

Lemma wp_rinode s v i (Q : dinode -> mkfs -> Prop) : im_rep s v -> msb s = mkfs_sb -> 0 <= i < NINODES ->
  Q (dinode_at mkfs_sb v i) s -> wp (rinode i) Q s.
Proof.
  intros R E Hi HQ. unfold rinode. wp_step. wp_step. rewrite E. wp_step. eapply wp_rsect; [done| |by wp_step].
  assert (X := iblock_low i Hi). unfold on_image, FSSIZE. lia.
Qed.

Lemma wp_winode s v i di (Q : unit -> mkfs -> Prop) : im_rep s v -> msb s = mkfs_sb -> 0 <= i < NINODES -> dinode_wf di ->
  (forall s', im_rep s' (put_inode mkfs_sb v i di) -> moved s s' 0 -> Q tt s') -> wp (winode i di) Q s.
Proof.
  intros R E Hi Wd HQ. assert (O : on_image (IBLOCK i mkfs_sb)).
  { assert (X := iblock_low i Hi). unfold on_image, FSSIZE. lia. }
  unfold winode. wp_step. wp_step. rewrite E. wp_step. eapply wp_rsect; [done|done|]. assert (X := inode_off_range i).
  eapply wp_wsect; [done|done|apply put_dinode_block; [done|by eapply im_block|lia|lia]|]. intros s' R' E1 E2 E3. apply HQ; [done|].
  unfold moved. split; [lia|done].
Qed.

(** ** The state between the calls *)

Definition needed (A : list (Z * list Z)) : Z := zsum (fun a => nblk (zlen a.2)) A.

Definition abs (F : list mfile) : list (Z * list Z) := (fun f => (mf_type f, mf_bytes f)) <$> F.

(** A file with an inode. *)
Record placed (v : Z -> block) (i : nat) (f : mfile) : Prop := {
  pl_inode : dinode_at mkfs_sb v (Z.of_nat i + 1) = din_of f;
  pl_pos : mf_pos f = pos_of (zlen (mf_bytes f));
  pl_size : zlen (mf_bytes f) <= MAXFILE * BSIZE;
  pl_type : is_s16 (mf_type f)
}.

Record mk_inv (s : mkfs) (v : Z -> block) (F : list mfile) : Prop := {
  mk_rep : im_rep s v;
  mk_sb : msb s = mkfs_sb;
  mk_next : freeinode s = 1 + zlen F;
  mk_room : zlen F < NINODES;
  mk_tab : ftab v (freeblock s) F;
  mk_file : forall i f, F !! i = Some f -> placed v i f;
  mk_none : forall j, 1 + zlen F <= j < NINODES -> d_type (dinode_at mkfs_sb v j) = 0;
  mk_count : freeblock s = nmeta + needed (abs F);
  mk_meta : v 1 = sb_block /\ forall b, b = 0 \/ 2 <= b < 32 \/ b = 58 -> v b = zero_block
}.

Lemma needed_update A i a a' : A !! i = Some a -> needed (<[i := a']> A) = needed A - nblk (zlen a.2) + nblk (zlen a'.2).
Proof. intros H. unfold needed. by rewrite (zsum_insert _ _ _ _ _ H). Qed.

Lemma needed_app A B : needed (A ++ B) = needed A + needed B.
Proof. apply zsum_app. Qed.

Lemma nblk_nonneg n : 0 <= n -> 0 <= nblk n.
Proof. intros H. unfold nblk. assert (0 <= (n + (BSIZE - 1)) / BSIZE) by (apply Z.div_pos; unfold BSIZE; lia). destruct (_ <? _); lia. Qed.

Lemma needed_nonneg A : 0 <= needed A.
Proof. apply zsum_nonneg. intros i a _. apply nblk_nonneg, zlen_nonneg. Qed.

Lemma put_inode_ne i di v b : 0 <= i < NINODES -> ~ 32 <= b < 58 -> put_inode mkfs_sb v i di b = v b.
Proof. intros Hi Hb. apply upd_ne. assert (X := iblock_low i Hi). lia. Qed.

Lemma dinode_put v i j di : (forall b, on_image b -> is_block (v b)) -> dinode_wf di -> 0 <= i < NINODES -> 0 <= j < NINODES ->
  dinode_at mkfs_sb (put_inode mkfs_sb v i di) j = if decide (i = j) then di else dinode_at mkfs_sb v j.
Proof.
  intros B Wd Hi Hj. apply (dinode_at_put _ _ _ _ _ _ mkfs_geom); try done. apply B. assert (X := iblock_low i Hi). unfold on_image, FSSIZE. lia.
Qed.

Lemma dinode_low v v' j : (forall b, b < nmeta -> v' b = v b) -> 0 <= j < NINODES -> dinode_at mkfs_sb v' j = dinode_at mkfs_sb v j.
Proof. intros V Hj. unfold dinode_at. rewrite V; [done|]. assert (X := iblock_low j Hj). destruct meta_values; lia. Qed.

Lemma wp_ialloc s v F ty (Q : Z -> mkfs -> Prop) : mk_inv s v F -> zlen F + 1 < NINODES -> is_u16 ty -> is_s16 ty ->
  (forall s' v', mk_inv s' v' (F ++ [new_file ty]) -> Q (1 + zlen F) s') -> wp (ialloc ty) Q s.
Proof.
  intros I Hr Hu Ht HQ. assert (I' := I). destruct I' as [R E1 E2 E3 T E4 E5 E6 [E7 E8]]. assert (0 <= zlen F) by apply zlen_nonneg.
  assert (T' := ftab_new v _ F ty T). assert (Hi : 0 <= 1 + zlen F < NINODES) by lia. unfold NINODES in *.
  assert (Hn : (F ++ [new_file ty]) !! length F = Some (new_file ty)) by (by rewrite list_lookup_middle).
  assert (Wd : dinode_wf (din_of (new_file ty))) by (by eapply (din_of_wf _ _ _ _ _ T' Hn)).
  unfold ialloc. wp_step. wp_step. wp_step. wp_step. rewrite E2, xshort_id, (xshort_id 1), (xint_id 0) by done. wp_step.
  eapply (wp_winode _ v _ (din_of (new_file ty))); [by destruct R|done|done|done|]. intros s' R' (M1 & M2 & M3). wp_step.
  apply (HQ s' (put_inode mkfs_sb v (1 + zlen F) (din_of (new_file ty)))). simpl in M1, M2, M3. rewrite Z.add_0_r in M1.
  assert (Ez : zlen (F ++ [new_file ty]) = zlen F + 1) by (rewrite zlen_app; done).
  assert (B := im_block _ _ R).
  split; rewrite ?Ez; try done.
  - congruence.
  - rewrite M2, u32_id by (unfold is_u32; lia). lia.
  - rewrite M1. eapply ftab_low; [|exact T']. intros b Hb. apply put_inode_ne; [done|]. destruct meta_values. lia.
  - intros i f Hf. apply lookup_app_Some in Hf as [Hf|[Hl Hf]].
    + destruct (E4 i f Hf) as [P1 P2 P3 P4]. split; try done. assert (L := lookup_lt_Some _ _ _ Hf). rewrite dinode_put; try done; [|unfold NINODES, zlen in *; lia].
      rewrite decide_False by (unfold zlen; lia). done.
    + apply list_lookup_singleton_Some in Hf as [Hl' <-]. split; try done. rewrite dinode_put; try done; [|unfold NINODES, zlen in *; lia].
      rewrite decide_True by (unfold zlen; lia). done.
  - intros j Hj. unfold NINODES in *. rewrite dinode_put by (done || (unfold NINODES; lia)). rewrite decide_False by lia. apply E5. unfold NINODES. lia.
  - rewrite M1, E6. unfold abs. rewrite fmap_app, needed_app. simpl. change (nblk (zlen [])) with 0. lia.
  - split; [rewrite put_inode_ne; [done|done|lia]|]. intros b Hb. rewrite put_inode_ne by (done || lia). by apply E8.
Qed.

Lemma wp_iappend s v F i f p (Q : unit -> mkfs -> Prop) : mk_inv s v F -> F !! i = Some f -> Forall is_u8 p ->
  zlen (mf_bytes f) + zlen p <= MAXFILE * BSIZE ->
  nmeta + needed (abs F) - nblk (zlen (mf_bytes f)) + nblk (zlen (mf_bytes f) + zlen p) <= FSSIZE ->
  (forall s' v' ad, mk_inv s' v' (<[i := grown f ad p]> F) -> Q tt s') -> wp (iappend (Z.of_nat i + 1) p) Q s.
Proof.
  intros I Hf Hu Hmax Hroom HQ. assert (I' := I). destruct I' as [R E1 E2 E3 T E4 E5 E6 [E7 E8]].
  destruct (E4 i f Hf) as [P1 P2 P3 P4]. assert (L := lookup_lt_Some _ _ _ Hf). assert (Hi : 0 <= Z.of_nat i + 1 < NINODES) by (unfold zlen in *; lia).
  assert (0 <= zlen (mf_bytes f)) by apply zlen_nonneg. assert (0 <= zlen p) by apply zlen_nonneg.
  assert (Mb := maxfile_bytes). unfold iappend. wp_step. eapply wp_rinode; [done|done|done|]. rewrite P1. simpl. rewrite xint_id by (unfold is_u32; lia).
  wp_step. eapply wp_mono; [apply (wp_append_loop (length p) p s v F i f); try done; lia|].
  intros [off ad] s1 (v1 & -> & R1 & T1 & Lw & (M1 & M2 & M3)). cbn [fst snd] in *. rewrite xint_id by (unfold is_u32; lia).
  set (g := grown f ad p) in *. assert (Hg : <[i := g]> F !! i = Some g) by (by apply list_lookup_insert_eq).
  assert (Lg : zlen (mf_bytes g) = zlen (mf_bytes f) + zlen p) by (simpl; by rewrite zlen_app).
  assert (Wd : dinode_wf (din_of g)) by (eapply (din_of_wf _ _ _ _ _ T1 Hg); [done|lia]).
  rewrite <- Lg. eapply (wp_winode s1 v1 _ (din_of g)); [done|congruence|done|done|]. intros s' R' (N1 & N2 & N3). rewrite Z.add_0_r in N1.
  apply (HQ s' (put_inode mkfs_sb v1 (Z.of_nat i + 1) (din_of g)) ad). fold g. assert (B := im_block _ _ R1).
  assert (Ez : zlen (<[i := g]> F) = zlen F) by (unfold zlen; by rewrite length_insert).
  split; rewrite ?Ez; try done; try congruence.
  - rewrite N1. eapply ftab_low; [|exact T1]. intros b Hb. apply put_inode_ne; [done|]. destruct meta_values. lia.
  - intros j h Hh. assert (Lj := lookup_lt_Some _ _ _ Hh). rewrite length_insert in Lj. assert (Hj : 0 <= Z.of_nat j + 1 < NINODES) by (unfold zlen in *; lia).
    apply lookup_update in Hh as [(-> & -> & _)|[Nj Hh]].
    + split; try done; [|simpl; rewrite zlen_app; lia]. rewrite dinode_put by done. by rewrite decide_True.
    + destruct (E4 j h Hh) as [Q1 Q2 Q3 Q4]. split; try done. rewrite dinode_put by done. rewrite decide_False by lia. by rewrite (dinode_low v v1).
  - intros j Hj. assert (0 <= zlen F) by apply zlen_nonneg. rewrite dinode_put by (done || lia). rewrite decide_False by (unfold zlen in *; lia). rewrite (dinode_low v v1) by (done || lia). by apply E5.
  - rewrite N1, M1, E6. unfold abs. rewrite list_fmap_insert, (needed_update _ i (mf_type f, mf_bytes f)) by (by rewrite list_lookup_fmap, Hf).
    simpl. rewrite zlen_app. lia.
  - destruct meta_values as [Em _]. split; [rewrite put_inode_ne by (done || lia); rewrite Lw; [done|lia]|]. intros b Hb. rewrite put_inode_ne by (done || lia). rewrite Lw by lia. by apply E8.
Qed.

(** The files by their types and bytes. *)
Definition built_as (s : mkfs) (A : list (Z * list Z)) : Prop := exists v F, mk_inv s v F /\ abs F = A.

Lemma built_ialloc s A ty (Q : Z -> mkfs -> Prop) : built_as s A -> zlen A + 1 < NINODES -> is_u16 ty -> is_s16 ty ->
  (forall s', built_as s' (A ++ [(ty, [])]) -> Q (1 + zlen A) s') -> wp (ialloc ty) Q s.
Proof.
  intros (v & F & I & <-) Hr Hu Ht HQ. assert (Ez : zlen (abs F) = zlen F) by (unfold zlen, abs; by rewrite length_fmap). rewrite Ez in *.
  eapply wp_ialloc; [done|done|done|done|]. intros s' v' I'. apply HQ. exists v', (F ++ [new_file ty]). split; [done|]. unfold abs. by rewrite fmap_app.
Qed.

Lemma built_iappend s A i ty bs p (Q : unit -> mkfs -> Prop) : built_as s A -> A !! i = Some (ty, bs) -> Forall is_u8 p ->
  zlen bs + zlen p <= MAXFILE * BSIZE -> nmeta + needed (<[i := (ty, bs ++ p)]> A) <= FSSIZE ->
  (forall s', built_as s' (<[i := (ty, bs ++ p)]> A) -> Q tt s') -> wp (iappend (Z.of_nat i + 1) p) Q s.
Proof.
  intros (v & F & I & <-) Hi Hu Hmax Hroom HQ. assert (Hi' := Hi). unfold abs in Hi. rewrite list_lookup_fmap in Hi. destruct (F !! i) as [f|] eqn:Hf; simplify_eq/=.
  rewrite (needed_update _ _ _ _ Hi') in Hroom. simpl in Hroom. rewrite zlen_app in Hroom.
  eapply wp_iappend; [done|done|done|done|lia|]. intros s' v' ad I'. apply HQ. exists v', (<[i := grown f ad p]> F). split; [done|]. unfold abs. by rewrite list_fmap_insert.
Qed.
