(* ===== verification/MkfsImage.v ===== *)
(** * mkfs and the kernel

    What [main] of mkfs.c leaves on the image, in the terms in which the kernel
    reads it. *)

From S2P Require Import Prelude Param Cstring SleepLock Layout Bio Log LogCrash BlockStore Fs FsBlocks FsFile FsDir.
From S2P Require Import Mkfs MkfsSpec.

(** ** The files *)

Lemma needed_grow A i ty bs p q : A !! i = Some (ty, bs) ->
  needed (<[i := (ty, bs ++ p)]> A) <= needed (<[i := (ty, (bs ++ p) ++ q)]> A).
Proof.
  intros H. rewrite !(needed_update A i (ty, bs)) by done. simpl. assert (X := nblk_mono (zlen (bs ++ p)) (zlen ((bs ++ p) ++ q))).
  assert (0 <= zlen (bs ++ p)) by apply zlen_nonneg. assert (0 <= zlen q) by apply zlen_nonneg. rewrite (zlen_app (bs ++ p) q) in *. lia.
Qed.

Lemma built_append_file reads : forall s A i ty bs (Q : unit -> mkfs -> Prop), built_as s A -> A !! i = Some (ty, bs) ->
  Forall (fun r => 0 < zlen r /\ Forall is_u8 r) reads -> zlen (bs ++ mjoin reads) <= MAXFILE * BSIZE ->
  nmeta + needed (<[i := (ty, bs ++ mjoin reads)]> A) <= FSSIZE ->
  (forall s', built_as s' (<[i := (ty, bs ++ mjoin reads)]> A) -> Q tt s') -> wp (append_file (Z.of_nat i + 1) reads) Q s.
Proof.
  induction reads as [|r reads IH]; intros s A i ty bs Q Bu Hi Hr Hm Hn HQ.
  { simpl in *. wp_step. apply HQ. rewrite app_nil_r, list_insert_id by done. done. }
  apply Forall_cons in Hr as [[H0 Hu] Hr]. simpl. change (mjoin (r :: reads)) with (r ++ mjoin reads) in *. rewrite app_assoc in *.
  destruct (Z.ltb_spec 0 (zlen r)); [|lia]. wp_step.
  assert (Hl := lookup_lt_Some _ _ _ Hi). assert (0 <= zlen (mjoin reads)) by apply zlen_nonneg.
  eapply built_iappend; [done|done|done| | |].
  - rewrite <- zlen_app. rewrite (zlen_app (bs ++ r)) in Hm. lia.
  - assert (X := needed_grow A i ty bs r (mjoin reads) Hi). lia.
  - intros s' Bu'. eapply IH; [done|by apply list_lookup_insert_eq|done|done|by rewrite list_insert_insert_eq|]. by rewrite list_insert_insert_eq.
Qed.

(** The entries for files with the inode numbers from [n] on. *)
Fixpoint dir_entries (n : Z) (files : list (list Z * list Z)) : list dirent :=
  match files with [] => [] | (name, _) :: files' => new_entry name n :: dir_entries (n + 1) files' end.

Definition dir_image (l : list dirent) : list Z := mjoin (encode_dirent <$> l).

(** ** The empty image *)

Lemma wp_wzeroes n : forall k s (Q : unit -> mkfs -> Prop), img s = replicate k zero_block -> (k + n <= 1000)%nat ->
  Q tt (set_img (replicate (k + n) zero_block) s) -> wp (wzeroes (Z.of_nat k) n) Q s.
Proof.
  induction n as [|n IH]; intros k s Q Ei Hk HQ; simpl.
  { wp_step. rewrite Nat.add_0_r, <- Ei in HQ. by destruct s. }
  wp_step. unfold wsect. wp_step. rewrite sect_id, Nat2Z.id by (unfold on_image, FSSIZE; lia). rewrite Ei, length_replicate, decide_False, Nat.sub_diag by lia.
  replace (Z.of_nat k + 1) with (Z.of_nat (S k)) by lia. apply IH; simpl.
  - by rewrite <- replicate_cons_app.
  - lia.
  - rewrite Nat.add_succ_r in HQ. exact HQ.
Qed.

Lemma dinode_zero v j : v (IBLOCK j mkfs_sb) = zero_block -> d_type (dinode_at mkfs_sb v j) = 0.
Proof.
  intros E. unfold dinode_at, get_dinode. rewrite E. unfold zero_block, slice. rewrite drop_replicate, take_replicate. unfold decode_dinode, slice. simpl.
  rewrite drop_0, take_replicate, le_word_zeros. done.
Qed.

Lemma built_start s : img s = <[1%nat := sb_block]> (replicate 1000 zero_block) -> freeinode s = 1 -> freeblock s = nmeta -> msb s = mkfs_sb ->
  built_as s [].
Proof.
  intros Ei En Eb Em. exists (fun b => if decide (b = 1) then sb_block else zero_block), []. split; [|done].
  assert (Bs : is_block sb_block) by (apply blit_block; [apply zero_block_ok|done|by vm_compute|]; apply Forall_join, Forall_fmap, Forall_true; intros x; apply le_bytes_u8).
  split; try done.
  - split; rewrite ?Ei.
    + unfold zlen. by rewrite length_insert, length_replicate.
    + intros b Hb. change (<[1%nat := sb_block]> (replicate 1000 zero_block)) with (wr (replicate 1000 zero_block) 1 sb_block).
      rewrite rd_wr by (rewrite zlen_replicate; lia). unfold on_image, FSSIZE in Hb. case_decide as D; case_decide; try lia; [done|]. apply rd_replicate. lia.
    + intros b Hb. case_decide; [done|apply zero_block_ok].
  - rewrite Eb. destruct meta_values. split; try done; try (intros; by rewrite lookup_nil in *).
    intros b Hb. rewrite decide_False by lia. done.
  - intros j Hj. apply dinode_zero. change (1 + zlen []) with 1 in Hj. assert (X := iblock_low j ltac:(lia)). rewrite decide_False by lia. done.
  - split; [done|]. intros b Hb. rewrite decide_False by lia. done.
Qed.

(** ** The bitmap *)

Lemma set_bits_spec n : forall d i, is_block d -> 0 <= i -> i + Z.of_nat n <= BPB -> is_block (set_bits d i n) /\
  forall j, 0 <= j < BPB -> bit_clear (set_bits d i n) j = if decide (i <= j < i + Z.of_nat n) then false else bit_clear d j.
Proof.
  induction n as [|n IH]; intros d i Hd H0 Hi; cbn [set_bits].
  { split; [done|]. intros j Hj. rewrite decide_False by lia. done. }
  destruct (IH (set_bit d i) (i + 1)) as [B S]; [by apply set_bit_block|lia|lia|]. split; [done|]. intros j Hj. rewrite S by done.
  rewrite bit_clear_set_bit by (apply Hd || lia). repeat case_decide; try lia; done.
Qed.

(** ** Directories *)

Lemma dirents_cons de c : dirent_wf de -> zlen c mod sizeof_dirent = 0 -> dirents (encode_dirent de ++ c) = de :: dirents c.
Proof.
  intros Wd Hc. assert (El := zlen_encode_dirent de (proj1 (proj2 Wd))). unfold sizeof_dirent in *. assert (0 <= zlen c) by apply zlen_nonneg.
  unfold dirents, sizeof_dirent. rewrite zlen_app, El. replace ((16 + zlen c) / 16) with (Z.succ (zlen c / 16)) by mlia.
  rewrite seqZ_cons by mlia. rewrite Z.pred_succ. cbn [fmap list_fmap]. f_equal.
  - transitivity (decode_dirent (encode_dirent de)); [|by apply decode_encode_dirent]. f_equal. revert El. generalize (encode_dirent de). intros x El.
    unfold slice. change (Z.to_nat (16 * 0)) with 0%nat. rewrite drop_0. apply take_app_length'. unfold zlen in El. lia.
  - change (Z.succ 0) with (1 + 0). rewrite <- (fmap_add_seqZ 1), <- list_fmap_compose. apply list_fmap_ext. intros k x Hx. cbn [compose]. f_equal.
    apply lookup_seqZ in Hx as [-> _]. unfold slice. f_equal. rewrite drop_app_ge; [f_equal|]; unfold zlen in El; lia.
Qed.

Definition free_entry : dirent := Dirent 0 (replicate (Z.to_nat DIRSIZ) 0).

Lemma dirents_image l z : Forall dirent_wf l -> 0 <= z -> dirents (dir_image l ++ replicate (Z.to_nat (16 * z)) 0) = l ++ replicate (Z.to_nat z) free_entry.
Proof.
  intros Hl Hz. induction Hl as [|de l Wd Hl IH].
  - simpl. revert Hz. apply (natlike_ind (fun z => dirents (replicate (Z.to_nat (16 * z)) 0) = replicate (Z.to_nat z) free_entry)); [done|].
    intros y Hy IH. replace (Z.to_nat (16 * Z.succ y)) with (16 + Z.to_nat (16 * y))%nat by lia. rewrite replicate_add. rewrite Z2Nat.inj_succ by done. simpl replicate at 3.
    change (replicate 16 0) with (encode_dirent free_entry). rewrite dirents_cons; [by rewrite IH|split; [done|]; split; [done|by apply Forall_replicate]|]. rewrite zlen_replicate. unfold sizeof_dirent. mlia.
  - change (dir_image (de :: l)) with (encode_dirent de ++ dir_image l). rewrite <- app_assoc, dirents_cons; [by rewrite IH|done|].
    assert (E : forall l, Forall dirent_wf l -> zlen (dir_image l) = 16 * zlen l).
    { clear. induction 1 as [|de l Wd _ IH]; [done|]. change (dir_image (de :: l)) with (encode_dirent de ++ dir_image l).
      rewrite zlen_app, IH, zlen_encode_dirent by apply Wd. unfold sizeof_dirent, zlen. simpl. lia. }
    rewrite zlen_app, E, zlen_replicate by done. unfold sizeof_dirent. mlia.
Qed.

(** ** What the kernel finds *)

Lemma used_mkfs v b : on_image b -> used mkfs_sb v b <-> bit_clear (v 58) b = false.
Proof.
  intros Hb. unfold used, on_image, FSSIZE in *. destruct (BBLOCK_range _ _ mkfs_geom b Hb) as [-> _].
  rewrite Z.div_small, Z.mod_small by (unfold BPB, BSIZE; lia). done.
Qed.

Section files.
Context (v : Z -> block) (fb : Z) (F : list mfile) (T : ftab v fb F).
Context (U : forall b, on_image b -> used mkfs_sb v b <-> b < fb) (V0 : v 0 = zero_block).
Context (i : nat) (f : mfile) (Hf : F !! i = Some f) (Hp : mf_pos f = pos_of (zlen (mf_bytes f))).

Lemma image_wf : file_wf mkfs_sb v (mf_ad f).
Proof using T U Hf.
  assert (Y := ft_fb _ _ _ T). destruct meta_values as (E1 & E2 & _). split.
  - by eapply ft_len.
  - intros k Hk Hne. apply (ft_pos _ _ _ T i f k Hf Hk) in Hne. assert (X := ft_range _ _ _ T i f k Hf Hk Hne).
    change (datastart mkfs_sb) with nmeta. change (sb_size mkfs_sb) with FSSIZE. rewrite U by (unfold on_image; lia). lia.
  - intros j k Hj Hk Hne E. assert (Hne' := Hne). rewrite E in Hne'. apply (ft_pos _ _ _ T i f j Hf Hj) in Hne. apply (ft_pos _ _ _ T i f k Hf Hk) in Hne'.
    by destruct (ft_inj _ _ _ T i i f f j k Hf Hf Hj Hk Hne Hne' E).
Qed.

Lemma image_mapped n : 0 <= n <= MAXFILE * BSIZE -> mapped v (mf_ad f) n <-> n <= zlen (mf_bytes f) \/ (n - 1) / BSIZE * BSIZE < zlen (mf_bytes f).
Proof using T Hf Hp.
  intros Hn. assert (Hz := zlen_nonneg (mf_bytes f)). unfold mapped. assert (P : forall k, 0 <= k -> k * BSIZE < n -> position k /\ k < MAXFILE).
  { intros k H0 Hk. unfold position, BSIZE in *. nia. }
  split.
  - intros H. destruct (decide (n <= zlen (mf_bytes f))); [by left|right]. assert (K0 : 0 <= (n - 1) / BSIZE) by (apply Z.div_pos; unfold BSIZE; lia).
    assert (K1 : (n - 1) / BSIZE * BSIZE < n) by (unfold BSIZE; mlia). specialize (H _ K0 K1). destruct (P _ K0 K1) as [Pk Pm].
    apply (ft_pos _ _ _ T i f _ Hf Pk) in H. rewrite Hp, elem_pos_of in H. lia.
  - intros H k H0 Hk. destruct (P k H0 Hk) as [Pk Pm]. apply (ft_pos _ _ _ T i f k Hf Pk). rewrite Hp, elem_pos_of. split; [done|]. left. split; [done|].
    destruct H as [H|H]; [lia|]. unfold BSIZE in *. mlia.
Qed.

Lemma image_byte n : 0 <= n -> n / BSIZE < MAXFILE -> fbyte v (mf_ad f) n = rd 0 (mf_bytes f) n.
Proof using T V0 Hf Hp.
  intros H0 Hn. destruct (decide (n / BSIZE ∈ mf_pos f)) as [Hk|Hk]; [by eapply ft_byte|]. assert (Pk := div_pos n H0 Hn).
  assert (E : faddr v (mf_ad f) (n / BSIZE) = 0).
  { destruct (decide (faddr v (mf_ad f) (n / BSIZE) = 0)) as [E|E]; [done|]. apply (ft_pos _ _ _ T i f _ Hf Pk) in E. done. }
  unfold fbyte. rewrite E, V0. assert (0 <= n mod BSIZE < BSIZE) by (by apply Z.mod_pos_bound).
  unfold zero_block. rewrite rd_replicate by (simpl; unfold BSIZE in *; lia). symmetry. apply rd_out. right.
  rewrite Hp, elem_pos_of in Hk. destruct (decide (n / BSIZE * BSIZE < zlen (mf_bytes f))) as [H1|H1]; [tauto|]. unfold BSIZE in *. mlia.
Qed.

Lemma image_contents n : zlen (mf_bytes f) <= n <= MAXFILE * BSIZE ->
  contents v (mf_ad f) n = mf_bytes f ++ replicate (Z.to_nat (n - zlen (mf_bytes f))) 0.
Proof using T V0 Hf Hp.
  intros Hn. assert (Hz := zlen_nonneg (mf_bytes f)). apply (rd_ext 0).
  - unfold contents. rewrite length_fmap, length_seqZ, length_app, length_replicate. unfold zlen in *. lia.
  - intros k. rewrite zlen_contents by lia. intros Hk. rewrite rd_contents by done. rewrite image_byte; [|lia|unfold BSIZE in *; mlia].
    rewrite rd_app. case_decide as D; [done|]. rewrite rd_replicate by lia. apply rd_out. lia.
Qed.
End files.

Lemma zlen_new_entry name n : zlen (encode_dirent (new_entry name n)) = 16.
Proof. apply zlen_encode_dirent. rewrite new_entry_name. unfold zlen. by rewrite length_padded. Qed.

Lemma zlen_dir_entries files : forall n, zlen (dir_image (dir_entries n files)) = 16 * zlen files.
Proof.
  induction files as [|[name bs] files IH]; intros n; [done|]. cbn [dir_entries].
  change (dir_image (_ :: _)) with (encode_dirent (new_entry name n) ++ dir_image (dir_entries (n + 1) files)).
  rewrite zlen_app, IH, zlen_new_entry. unfold zlen. simpl. lia.
Qed.

(** The entries of the root directory, and its size with [n] entries. *)
Definition image_entries (files : list (list Z * list Z)) : list dirent := new_entry [46] ROOTINO :: new_entry [46; 46] ROOTINO :: dir_entries 2 files.
Definition root_size (n : Z) : Z := (16 * n / BSIZE + 1) * BSIZE.

(** A file of the image: its inode, and its bytes. *)
Record image_file (v : Z -> block) (n ty size : Z) (bytes ad : list Z) : Prop := {
  if_inode : dinode_at mkfs_sb v n = Dinode ty 0 0 1 size ad;
  if_wf : file_wf mkfs_sb v ad;
  if_contents : contents v ad size = bytes
}.

(** A disk with [files] in its root directory. *)
Record fs_image (d : disk) (files : list (list Z * list Z)) : Prop := {
  fi_size : disksize d = FSSIZE;
  fi_log : log_disk d 2 LOGSIZE;
  fi_clean : head_list (disk_read d 2) = [];
  fi_sb : read_superblock (disk_read d 1) = mkfs_sb;
  fi_used : exists fb, nmeta <= fb <= FSSIZE /\ forall b, on_image b -> used mkfs_sb (disk_read d) b <-> b < fb;
  fi_root : exists ad bytes, let n := zlen files + 2 in let size := root_size n in
    image_file (disk_read d) ROOTINO T_DIR size bytes ad /\
    dirents bytes = image_entries files ++ replicate (Z.to_nat (32 - n mod 32)) free_entry /\
    (mapped (disk_read d) ad size <-> n mod 32 ≠ 0);
  fi_files : forall i name bytes, files !! i = Some (name, bytes) -> exists ad,
    image_file (disk_read d) (Z.of_nat i + 2) T_FILE (zlen bytes) bytes ad /\ mapped (disk_read d) ad (zlen bytes);
  fi_apart : forall i j k l, 1 <= i <= zlen files + 1 -> 1 <= j <= zlen files + 1 -> i ≠ j -> position k -> position l ->
    let a n := d_addrs (dinode_at mkfs_sb (disk_read d) n) in
    faddr (disk_read d) (a i) k ≠ 0 -> faddr (disk_read d) (a i) k ≠ faddr (disk_read d) (a j) l;
  fi_free : forall i, zlen files + 2 <= i < NINODES -> d_type (dinode_at mkfs_sb (disk_read d) i) = 0
}.

Lemma zlen_image_entries files : zlen (dir_image (image_entries files)) = 16 * (zlen files + 2).
Proof.
  unfold image_entries. change (dir_image (?a :: ?b :: ?l)) with (encode_dirent a ++ encode_dirent b ++ dir_image l).
  rewrite !zlen_app, !zlen_new_entry, zlen_dir_entries. lia.
Qed.

Lemma dir_entries_wf files : forall n, Forall (fun f => Forall is_u8 f.1) files -> Forall dirent_wf (dir_entries n files).
Proof.
  induction files as [|[name bs] files IH]; intros n H; [constructor|]. apply Forall_cons in H as [Hn H]. constructor; [by apply new_entry_wf|by apply IH].
Qed.

Section main.
Context (host : list Z -> option (list (list Z))) (basename : list Z -> list Z).

(** The file [f] has the name and the bytes of the file at [path]. *)
Definition hosted (path : list Z) (f : list Z * list Z) : Prop :=
  exists reads, host path = Some reads /\ Forall (fun r => 0 < zlen r /\ Forall is_u8 r) reads /\ f = (basename path, mjoin reads).

Lemma built_add_files files : forall argv s rb fs (Q : unit -> mkfs -> Prop), let n := 2 + zlen fs in
  built_as s ((T_DIR, rb) :: fs) -> Forall2 hosted argv files -> Forall (fun f => Forall is_u8 f.1 /\ zlen f.2 <= MAXFILE * BSIZE) files ->
  1 + zlen fs + zlen files < NINODES -> zlen rb + 16 * zlen files <= MAXFILE * BSIZE ->
  nmeta + needed ((T_DIR, rb ++ dir_image (dir_entries n files)) :: fs ++ (pair T_FILE <$> files.*2)) <= FSSIZE ->
  (forall s', built_as s' ((T_DIR, rb ++ dir_image (dir_entries n files)) :: fs ++ (pair T_FILE <$> files.*2)) -> Q tt s') ->
  wp (add_files host basename ROOTINO argv) Q s.
Proof.
  induction files as [|[name bs] files IH]; intros argv s rb fs Q n Bu Hh Hf Hn Hm Hr HQ; inversion Hh as [|path f0 argv' files0 Hp Hh']; subst; simpl.
  { wp_step. apply HQ. simpl. by rewrite !app_nil_r. }
  destruct Hp as (reads & Eh & Hreads & [= -> ->]). apply Forall_cons in Hf as [[Hu Hz] Hf]. simpl in Hu, Hz. rewrite Eh.
  assert (0 <= zlen fs) by apply zlen_nonneg. assert (0 <= zlen files) by apply zlen_nonneg. assert (0 <= zlen rb) by apply zlen_nonneg.
  assert (En : zlen ((basename path, mjoin reads) :: files) = zlen files + 1) by (unfold zlen; simpl; lia). rewrite En in *.
  assert (E1 : zlen ((T_DIR, rb) :: fs) = 1 + zlen fs) by (unfold zlen; simpl; lia).
  set (e := encode_dirent (new_entry (basename path) n)). assert (Ee : zlen e = 16) by apply zlen_new_entry.
  assert (Di : dir_image (dir_entries n ((basename path, mjoin reads) :: files)) = e ++ dir_image (dir_entries (n + 1) files)) by done.
  cbn [fst snd fmap list_fmap] in Hr, HQ. rewrite Di, app_assoc in Hr, HQ.
  assert (Zr : zlen ((rb ++ e) ++ dir_image (dir_entries (n + 1) files)) = zlen rb + 16 + 16 * zlen files) by (rewrite !zlen_app, zlen_dir_entries; lia).
  assert (Nr : nblk (zlen rb + 16) <= nblk (zlen rb + 16 + 16 * zlen files)) by (apply nblk_mono; lia).
  simpl in Hr. rewrite Zr, !needed_app in Hr. simpl in Hr. assert (Nn := needed_nonneg (pair T_FILE <$> files.*2)).
  assert (Nb := nblk_nonneg (zlen (mjoin reads)) (zlen_nonneg _)).
  wp_step. eapply built_ialloc; [done|lia|done|done|]. intros s1 B1. rewrite E1. simpl in B1. wp_step.
  replace (1 + (1 + zlen fs)) with n by (unfold n; lia). unfold NINODES in *. rewrite xshort_id by (unfold is_u16, n; lia).
  assert (Ed : Dirent n (strncpy zeroname (basename path) DIRSIZ) = new_entry (basename path) n) by (unfold new_entry; rewrite u16_id by (unfold is_u16, n; lia); done).
  rewrite Ed. fold e. change ROOTINO with (Z.of_nat 0 + 1). eapply (built_iappend s1 _ 0 T_DIR rb e); [exact B1|done| |lia| |].
  - apply encode_dirent_u8. by apply new_entry_wf.
  - simpl. rewrite needed_app, zlen_app, Ee. simpl. change (nblk (zlen [])) with 0. lia.
  - intros s2 B2. simpl in B2. wp_step. replace n with (Z.of_nat (1 + length fs) + 1) by (unfold n, zlen; lia).
    eapply (built_append_file reads s2 _ (1 + length fs) T_FILE []); [exact B2| |done|done| |].
    + simpl. by rewrite list_lookup_middle.
    + simpl. rewrite insert_app_r_alt by lia. rewrite Nat.sub_diag. simpl. rewrite needed_app, zlen_app, Ee. simpl. lia.
    + intros s3 B3. simpl in B3. rewrite insert_app_r_alt in B3 by lia. rewrite Nat.sub_diag in B3. simpl in B3.
      change (Z.of_nat 0 + 1) with ROOTINO. assert (Ef : 2 + zlen (fs ++ [(T_FILE, mjoin reads)]) = n + 1) by (rewrite zlen_app; unfold n; change (zlen [_]) with 1; lia).
      eapply (IH argv' s3 (rb ++ e) (fs ++ [(T_FILE, mjoin reads)])); try done; rewrite ?Ef, ?zlen_app, ?Ee; change (zlen [_]) with 1; try lia.
      * simpl. rewrite Zr, !needed_app. simpl. lia.
      * intros s' B'. apply HQ. rewrite <- (app_assoc fs) in B'. exact B'.
Qed.

(** The end of [main]: the size of the root directory, and the bitmap. *)
Definition main_tail : M mkfs unit :=
  din ← rinode ROOTINO;
  let off := (xint (d_size din) / BSIZE + 1) * BSIZE in
  winode ROOTINO (Dinode (d_type din) (d_major din) (d_minor din) (d_nlink din) (xint off) (d_addrs din));;
  s ← get;
  balloc (s32 (freeblock s)).

Lemma root_size_range n : 0 <= n <= 200 -> 16 * n < root_size n <= 16 * n + 512 /\ root_size n <= MAXFILE * BSIZE.
Proof. intros H. rewrite maxfile_bytes. unfold root_size, BSIZE. mlia. Qed.

Lemma wp_main_tail s v F r (Q : unit -> mkfs -> Prop) : mk_inv s v F -> F !! 0%nat = Some r -> zlen (mf_bytes r) <= 3200 ->
  let size := (zlen (mf_bytes r) / BSIZE + 1) * BSIZE in
  (forall s' v', im_rep s' v' -> ftab v' (freeblock s) F -> (forall b, on_image b -> used mkfs_sb v' b <-> b < freeblock s) ->
     v' 1 = sb_block -> (forall b, b = 0 \/ 2 <= b < 32 -> v' b = zero_block) ->
     dinode_at mkfs_sb v' ROOTINO = Dinode (mf_type r) 0 0 1 size (mf_ad r) ->
     (forall j, 2 <= j < NINODES -> dinode_at mkfs_sb v' j = dinode_at mkfs_sb v j) -> Q tt s') -> wp main_tail Q s.
Proof.
  intros I Hr Hz size HQ. destruct I as [R E1 E2 E3 T E4 E5 E6 [E7 E8]]. destruct (E4 0%nat r Hr) as [P1 P2 P3 P4].
  assert (0 <= zlen (mf_bytes r)) by apply zlen_nonneg. assert (Hs : 0 <= size <= 4096) by (unfold size, BSIZE; mlia).
  assert (Wr := din_of_wf _ _ _ _ _ T Hr P4 P3). assert (Y := ft_fb _ _ _ T). destruct meta_values as (Em & Ef & _).
  unfold main_tail. wp_step. eapply wp_rinode; [done|done|done|]. change ROOTINO with (Z.of_nat 0 + 1). rewrite P1. simpl.
  rewrite (xint_id (zlen _)) by (unfold is_u32; lia). fold size. rewrite xint_id by (unfold is_u32; lia).
  set (di := Dinode (mf_type r) 0 0 1 size (mf_ad r)). assert (Wd : dinode_wf di) by (destruct Wr; split; try done; simpl; unfold is_u32; lia).
  wp_step. eapply (wp_winode s v 1 di); [done|done|done|done|]. intros s1 R1 (M1 & M2 & M3). rewrite Z.add_0_r in M1. wp_step. wp_step.
  assert (B := im_block _ _ R). rewrite M1, s32_id by (unfold is_s32; lia). unfold balloc. destruct (Z.leb_spec (BSIZE * 8) (freeblock s)) as [H8|H8]; [unfold BSIZE in H8; lia|].
  destruct (set_bits_spec (Z.to_nat (freeblock s)) zero_block 0 zero_block_ok) as [Sb Sp]; [lia|unfold BPB, BSIZE; lia|].
  wp_step. wp_step. replace (sb_bmapstart (msb s1)) with 58 by (rewrite M3, E1; done). eapply wp_wsect; [done|done|done|]. intros s2 R2 _ _ _.
  assert (D : forall j, 1 <= j < NINODES -> dinode_at mkfs_sb (upd (put_inode mkfs_sb v 1 di) 58 (set_bits zero_block 0 (Z.to_nat (freeblock s)))) j =
    dinode_at mkfs_sb (put_inode mkfs_sb v 1 di) j).
  { intros j Hj. unfold dinode_at. rewrite upd_ne; [done|]. assert (X := iblock_low j ltac:(lia)). lia. }
  eapply (HQ s2); [exact R2| | | | | |].
  - eapply ftab_low; [|exact T]. intros b Hb. rewrite upd_ne by lia. apply put_inode_ne; [done|lia].
  - intros b Hb. rewrite used_mkfs, upd_eq by done. unfold on_image in Hb. rewrite Sp by (unfold BPB, BSIZE; lia). case_decide as Db; [split; [lia|done]|].
    split; [|lia]. unfold bit_clear, zero_block. intros X. exfalso. revert X. destruct (decide (0 <= b / 8 < 512)) as [H9|H9]; [by rewrite rd_replicate|]. exfalso. mlia.
  - rewrite upd_ne, put_inode_ne by (done || lia). done.
  - intros b Hb. rewrite upd_ne, put_inode_ne by (done || lia). apply E8. lia.
  - rewrite D by done. by rewrite dinode_put by done.
  - intros j Hj. rewrite D by lia. rewrite dinode_put by (done || lia). rewrite decide_False by lia. done.
Qed.

(** Blocks of different files differ. *)
Lemma image_apart w fb F (a : Z -> list Z) N : ftab w fb F ->
  (forall n, 1 <= n <= N -> exists f, F !! Z.to_nat (n - 1) = Some f /\ a n = mf_ad f) ->
  forall i j k l, 1 <= i <= N -> 1 <= j <= N -> i ≠ j -> position k -> position l -> faddr w (a i) k ≠ 0 -> faddr w (a i) k ≠ faddr w (a j) l.
Proof.
  intros T A i j k l Hi Hj Hij Hk Hl. destruct (A i Hi) as (f & Hf & ->). destruct (A j Hj) as (g & Hg & ->). intros H0 E. assert (H1 := H0). rewrite E in H1.
  apply (ft_pos _ _ _ T _ f k Hf Hk) in H0. apply (ft_pos _ _ _ T _ g l Hg Hl) in H1. destruct (ft_inj _ _ _ T _ _ f g k l Hf Hg Hk Hl H0 H1 E) as [X _]. lia.
Qed.

Lemma image_of_file w fb F i f n : ftab w fb F -> (forall b, on_image b -> used mkfs_sb w b <-> b < fb) -> w 0 = zero_block -> F !! i = Some f ->
  mf_pos f = pos_of (zlen (mf_bytes f)) -> zlen (mf_bytes f) <= MAXFILE * BSIZE -> dinode_at mkfs_sb w n = din_of f ->
  image_file w n (mf_type f) (zlen (mf_bytes f)) (mf_bytes f) (mf_ad f) /\ mapped w (mf_ad f) (zlen (mf_bytes f)).
Proof.
  intros T U W0 Hf Pf Sf Df. split; [split|].
  - exact Df.
  - by eapply image_wf.
  - rewrite (image_contents w fb F T W0 i f Hf Pf) by lia. rewrite Z.sub_diag. simpl. by rewrite app_nil_r.
  - apply (image_mapped w fb F T i f Hf Pf); [split; [apply zlen_nonneg|done]|]. by left.
Qed.

Lemma image_log s v : im_rep s v -> v 1 = sb_block -> v 2 = zero_block -> log_disk (Disk (img s) []) 2 LOGSIZE /\ head_list (disk_read (Disk (img s) []) 2) = [].
Proof.
  intros [L V B] V1 V2. assert (E2 : disk_read (Disk (img s) []) 2 = zero_block) by (rewrite <- V2; by apply V).
  assert (E1 : disk_read (Disk (img s) []) 1 = sb_block) by (rewrite <- V1; by apply V).
  assert (Eh : head_list zero_block = []) by (by apply head_list_nil). split; [|by rewrite E2].
  split; rewrite ?E1, ?E2, ?Eh; unfold disksize; simpl; rewrite ?L; try done; try by vm_compute.
  - apply Forall_lookup_2. intros i x Hx. assert (Hi := lookup_lt_Some _ _ _ Hx). rewrite (lookup_rd zero_block) in Hx by done. injection Hx as <-.
    unfold zlen, on_image in *. rewrite V by (unfold on_image; lia). apply B. unfold on_image. lia.
  - apply NoDup_nil_2.
  - intros b Hb. by apply elem_of_nil in Hb.
  - apply not_elem_of_nil.
Qed.

Lemma tail_image s files : built_as s ((T_DIR, dir_image (image_entries files)) :: (pair T_FILE <$> files.*2)) ->
  Forall (fun f => Forall is_u8 f.1) files -> zlen files <= 198 -> wp main_tail (fun _ s' => fs_image (Disk (img s') []) files) s.
Proof.
  intros (v0 & F & I & EF) Hn Hl. assert (Hz := zlen_nonneg files). assert (Ei := zlen_image_entries files).
  destruct F as [|r F']; [done|]. injection EF as Er1 Er2 EF. unfold abs in EF. assert (Hr : (r :: F') !! 0%nat = Some r) by done.
  assert (Lf : length F' = length files) by (apply (f_equal length) in EF; by rewrite !length_fmap in EF).
  eapply wp_main_tail; [exact I|exact Hr|rewrite Er2; lia|]. intros s' v R T U V1 Vz Dr Dj. set (d := Disk (img s') []). set (w := disk_read d).
  assert (W : forall b, on_image b -> w b = v b) by (intros b Hb; by apply (im_view _ _ R)).
  assert (Tw : ftab w (freeblock s) (r :: F')) by (eapply ftab_low; [|exact T]; intros b Hb; apply W; unfold on_image; destruct meta_values; lia).
  assert (Uw : forall b, on_image b -> used mkfs_sb w b <-> b < freeblock s) by (intros b Hb; rewrite used_mkfs, W, <- used_mkfs by done; by apply U).
  assert (W0 : w 0 = zero_block) by (rewrite W by done; apply Vz; by left).
  assert (Dw : forall j, 0 <= j < NINODES -> dinode_at mkfs_sb w j = dinode_at mkfs_sb v j).
  { intros j Hj. unfold dinode_at. rewrite W; [done|]. assert (X := iblock_low j Hj). unfold on_image, FSSIZE. lia. }
  assert (Pl : forall i f, (r :: F') !! i = Some f -> placed v0 i f) by apply I.
  assert (Df : forall i f, F' !! i = Some f -> dinode_at mkfs_sb w (Z.of_nat i + 2) = din_of f).
  { intros i f Hf. assert (X := lookup_lt_Some _ _ _ Hf). assert (Hi : 2 <= Z.of_nat i + 2 < NINODES) by (unfold NINODES, zlen in *; lia).
    rewrite Dw, Dj by lia. destruct (Pl (S i) f Hf) as [<- _ _ _]. f_equal. lia. }
  assert (Rr := root_size_range (zlen files + 2) ltac:(lia)).
  assert (Dr' : dinode_at mkfs_sb w ROOTINO = Dinode T_DIR 0 0 1 (root_size (zlen files + 2)) (mf_ad r)).
  { rewrite Dw by done. rewrite Dr, Er1, Er2, Ei. done. }
  assert (Pr := pl_pos _ _ _ (Pl 0%nat r Hr)).
  destruct (image_log s' v R V1 (Vz 2 ltac:(lia))) as [Lg Lc]. split; try done; [apply (im_len _ _ R)|..].
  - change (read_superblock (w 1) = mkfs_sb). by rewrite W, V1, read_sb_block.
  - exists (freeblock s). split; [apply (ft_fb _ _ _ T)|exact Uw].
  - exists (mf_ad r), (dir_image (image_entries files) ++ replicate (Z.to_nat (root_size (zlen files + 2) - 16 * (zlen files + 2))) 0). split; [split; [exact Dr'|by eapply image_wf|]|split].
    + change (contents w (mf_ad r) (root_size (zlen files + 2)) = dir_image (image_entries files) ++ replicate (Z.to_nat (root_size (zlen files + 2) - 16 * (zlen files + 2))) 0).
      rewrite (image_contents w (freeblock s) (r :: F') Tw W0 0 r Hr Pr) by (rewrite Er2, Ei; lia). by rewrite Er2, Ei.
    + replace (root_size _ - _) with (16 * (32 - (zlen files + 2) mod 32)) by (unfold root_size, BSIZE; mlia).
      apply dirents_image; [|mlia]. constructor; [apply new_entry_wf; by repeat constructor|]. constructor; [apply new_entry_wf; by repeat constructor|by apply dir_entries_wf].
    + change (mapped w (mf_ad r) (root_size (zlen files + 2)) <-> (zlen files + 2) mod 32 ≠ 0).
      rewrite (image_mapped w (freeblock s) (r :: F') Tw 0 r Hr Pr) by lia. rewrite Er2, Ei. unfold root_size, BSIZE. mlia.
  - intros i name bytes Hi. assert (X : is_Some (F' !! i)).
    { apply lookup_lt_is_Some_2. rewrite Lf. by eapply lookup_lt_Some. }
    destruct X as [f Hf]. assert (Ef : (mf_type f, mf_bytes f) = (T_FILE, bytes)).
    { apply (f_equal (fun l => l !! i)) in EF. rewrite !list_lookup_fmap, Hf, Hi in EF. by injection EF as -> ->. }
    injection Ef as Et Eb. exists (mf_ad f). assert (Hf' : (r :: F') !! S i = Some f) by done. assert (Pf := pl_pos _ _ _ (Pl _ _ Hf')). assert (Sf := pl_size _ _ _ (Pl _ _ Hf')).
    rewrite <- Eb, <- Et. by eapply (image_of_file w (freeblock s) (r :: F') (S i)); [..|by apply Df].
  - intros i j k l Hi Hj Hij Hk Hl'. cbv zeta. change (disk_read d) with w.
    assert (A : forall n, 1 <= n <= zlen files + 1 -> exists f, (r :: F') !! Z.to_nat (n - 1) = Some f /\ d_addrs (dinode_at mkfs_sb w n) = mf_ad f).
    { intros n Hnn. destruct (decide (n = 1)) as [->|N1]; [exists r; split; [done|]; change 1 with ROOTINO; by rewrite Dr'|].
      destruct (lookup_lt_is_Some_2 F' (Z.to_nat (n - 2))) as [f Hf]; [unfold zlen in *; lia|]. exists f. split.
      - replace (Z.to_nat (n - 1)) with (S (Z.to_nat (n - 2))) by lia. done.
      - replace n with (Z.of_nat (Z.to_nat (n - 2)) + 2) at 1 by lia. by rewrite (Df _ _ Hf). }
    eapply image_apart; [exact Tw|exact A|done..].
  - intros i Hi. change (disk_read d) with w. unfold NINODES in *. rewrite Dw, Dj by (unfold NINODES; lia). apply (mk_none _ _ _ I). unfold zlen in *. simpl. unfold NINODES. lia.
Qed.

(** The blocks that files need with their root directory. *)
Definition blocks_for (files : list (list Z * list Z)) : Z := nblk (16 * (zlen files + 2)) + needed (pair T_FILE <$> files.*2).

Lemma wp_main argv files : Forall2 hosted argv files ->
  Forall (fun f => Forall is_u8 f.1 /\ zlen f.2 <= MAXFILE * BSIZE) files -> zlen files <= 198 -> nmeta + blocks_for files <= FSSIZE ->
  wp (main host basename argv) (fun _ s' => fs_image (Disk (img s') []) files) mkfs0.
Proof.
  intros Hh Hf Hl Hn. assert (Hz := zlen_nonneg files). unfold main. wp_step. wp_step. wp_step. wp_step. wp_step. apply (wp_wzeroes 1000 0); [done|lia|].
  wp_step. wp_step. cbn [Nat.add]. wp_step. unfold wsect at 1. wp_step. wp_step.
  assert (R1 := root_size_range (zlen files + 2) ltac:(lia)). unfold blocks_for in Hn. assert (Nn := needed_nonneg (pair T_FILE <$> files.*2)).
  assert (N1 := nblk_mono 16 (16 * (zlen files + 2)) ltac:(lia)). assert (N2 := nblk_mono 32 (16 * (zlen files + 2)) ltac:(lia)).
  set (e1 := encode_dirent (Dirent (xshort 1) (strcpy zeroname [46; 0]))). set (e2 := encode_dirent (Dirent (xshort 1) (strcpy zeroname [46; 46; 0]))).
  assert (E1 : e1 = encode_dirent (new_entry [46] ROOTINO)) by (by vm_compute). assert (E2 : e2 = encode_dirent (new_entry [46; 46] ROOTINO)) by (by vm_compute).
  assert (Ue : Forall is_u8 e1 /\ Forall is_u8 e2) by (rewrite E1, E2; split; apply encode_dirent_u8, new_entry_wf; by repeat constructor). destruct Ue as [U1 U2].
  eapply (built_ialloc _ []); [apply built_start; [vm_compute; reflexivity|done|done|by vm_compute]|done|done|done|].
  intros s1 B1. change (1 + zlen []) with ROOTINO. simpl (negb _). cbv iota. wp_step. change ROOTINO with (Z.of_nat 0 + 1) at 1.
  change (xshort ROOTINO) with (xshort 1). fold e1. fold e2. clearbody e1 e2. eapply (built_iappend s1 _ 0 T_DIR [] e1); [exact B1|done|exact U1|rewrite E1, zlen_new_entry, maxfile_bytes; change (zlen []) with 0; lia|..].
  { simpl. rewrite E1, zlen_new_entry. change (nblk 16) with 1 in *. lia. }
  intros s2 B2. simpl in B2. wp_step.
  eapply (built_iappend s2 _ 0 T_DIR e1 e2); [exact B2|done|exact U2|..].
  { rewrite E1, E2, !zlen_new_entry. rewrite maxfile_bytes. lia. }
  { simpl. rewrite E1, E2, zlen_app, !zlen_new_entry. change (16 + 16) with 32. simpl. lia. }
  intros s3 B3. simpl in B3. wp_step.
  assert (Ed : (e1 ++ e2) ++ dir_image (dir_entries (2 + zlen ([] : list (Z * list Z))) files) = dir_image (image_entries files)) by (rewrite <- app_assoc, E1, E2; done).
  assert (Zd := zlen_image_entries files).
  eapply (built_add_files files argv s3 (e1 ++ e2) []); [exact B3|done|done|change (zlen []) with 0; unfold NINODES; lia| | |].
  - rewrite zlen_app, E1, E2, !zlen_new_entry. lia.
  - rewrite Ed. change (needed (?a :: ?l)) with (nblk (zlen a.2) + needed l). cbn [snd app]. rewrite Zd. lia.
  - intros s4 B4. rewrite Ed in B4. simpl in B4. apply tail_image; [done|by eapply Forall_impl; [exact Hf|intros f [? _]]|done].
Qed.

End main.

(** When the entries fill their blocks exactly, as with the 30 files of this
    repository, the root directory has a size beyond its last block. *)
Theorem root_hole d files : fs_image d files -> zlen files = 30 -> exists ad,
  dinode_at mkfs_sb (disk_read d) ROOTINO = Dinode T_DIR 0 0 1 1024 ad /\ ~ mapped (disk_read d) ad 1024.
Proof.
  intros I E. destruct (fi_root _ _ I) as (ad & bytes & [Ei _ _] & _ & M). rewrite E in *. exists ad. split; [exact Ei|].
  intros H. apply M in H. by apply H.
Qed.

(** ** An image with one file *)

Definition demo_host (path : list Z) : option (list (list Z)) :=
  if decide (path = [97; 0]) then Some [replicate 512 65; replicate 88 66] else None.

Definition demo_args : list (list Z) := [[97; 0]].
Definition demo_bytes : list Z := replicate 512 65 ++ replicate 88 66.
Definition demo_files : list (list Z * list Z) := [([97; 0], demo_bytes)].

Lemma demo_hosted : Forall2 (hosted demo_host id) demo_args demo_files.
Proof.
  constructor; [|constructor]. exists [replicate 512 65; replicate 88 66]. split; [done|]. split; [|done].
  repeat (constructor; [split; [done|by apply Forall_replicate]|]). constructor.
Qed.

Lemma demo_small : Forall (fun f => Forall is_u8 f.1 /\ zlen f.2 <= MAXFILE * BSIZE) demo_files.
Proof. constructor; [|constructor]. split; [by repeat constructor|by vm_compute]. Qed.

Lemma demo_fits : zlen demo_files <= 198 /\ nmeta + blocks_for demo_files <= FSSIZE /\ (zlen demo_files + 2) mod 32 ≠ 0.
Proof. by vm_compute. Qed.

