(* ===== verification/MkfsBoot.v ===== *)
(** * From mkfs to the kernel

    The kernel that starts on an image of mkfs finds each file under its name
    and reads its bytes. *)

From S2P Require Import Prelude Param Cstring SleepLock Layout Bio Log LogCrash BlockStore LogStore Transactions Fs FsBlocks FsFile FsWrite FsDir FsSpec Namei.
From S2P Require Import Mkfs MkfsSpec MkfsImage.

(** ** The entries of the directory *)

Lemma dir_entries_elem n fs de : de ∈ dir_entries n fs -> exists k f, fs !! k = Some f /\ de = new_entry f.1 (n + Z.of_nat k).
Proof.
  revert n. induction fs as [|[name bs] fs IH]; intros n; simpl; [by rewrite elem_of_nil|]. rewrite elem_of_cons. intros [->|H].
  - exists 0%nat, (name, bs). split; [done|]. by rewrite Z.add_0_r.
  - destruct (IH _ H) as (k & f & Hk & ->). exists (Datatypes.S k), f. split; [done|]. f_equal. lia.
Qed.

Lemma dir_find_entries e fs : forall n i f rest, fs !! i = Some f -> entry_matches e (new_entry f.1 (n + Z.of_nat i)) = true ->
  (forall j g, (j < i)%nat -> fs !! j = Some g -> entry_matches e (new_entry g.1 (n + Z.of_nat j)) = false) ->
  dir_find e (dir_entries n fs ++ rest) = Some (i, new_entry f.1 (n + Z.of_nat i)).
Proof.
  induction fs as [|[name bs] fs IH]; intros n [|i] f rest Hi Hm Hj; simplify_eq/=.
  - rewrite Z.add_0_r in *. by rewrite Hm.
  - assert (H0 := Hj 0%nat (name, bs) ltac:(lia) eq_refl). rewrite Z.add_0_r in H0. cbn [fst] in H0. rewrite H0. replace (n + Z.of_nat (Datatypes.S i)) with (n + 1 + Z.of_nat i) in * by lia.
    rewrite (IH (n + 1) i f rest Hi Hm); [done|]. intros j g Lj Hg. replace (n + 1 + Z.of_nat j) with (n + Z.of_nat (Datatypes.S j)) by lia. by apply Hj; [lia|].
Qed.

(** ** The directory tree of an image *)

Section image.
Context (d : disk) (v : Z -> block) (V : forall b, on_image b -> b ≠ 2 -> v b = disk_read d b).

Lemma view_inode n : 0 <= n < NINODES -> dinode_at mkfs_sb v n = dinode_at mkfs_sb (disk_read d) n.
Proof using V. intros Hn. unfold dinode_at. assert (X := iblock_low n Hn). rewrite V; [done|unfold on_image, FSSIZE; lia|lia]. Qed.

(** The kernel finds the same addresses and the same bytes. *)
Lemma view_file ad n : file_wf mkfs_sb (disk_read d) ad -> mapped (disk_read d) ad n -> 0 <= n <= MAXFILE * BSIZE ->
  file_wf mkfs_sb v ad /\ mapped v ad n /\ contents v ad n = contents (disk_read d) ad n.
Proof using V.
  intros W M Hn. assert (Dr : forall k, position k -> faddr (disk_read d) ad k ≠ 0 -> on_image (faddr (disk_read d) ad k) /\ faddr (disk_read d) ad k ≠ 2).
  { intros k Hk Hne. destruct (fw_data _ _ _ W k Hk Hne) as [D _]. change (datastart mkfs_sb) with nmeta in D. change (sb_size mkfs_sb) with FSSIZE in D.
    unfold on_image. destruct meta_values. lia. }
  assert (A : forall k, position k -> faddr v ad k = faddr (disk_read d) ad k).
  { intros k _. apply faddr_view. destruct (decide (rd 0 ad NDIRECT = 0)) as [E|E]; [by left|right]. rewrite <- (faddr_ind (disk_read d) ad) in *.
    destruct (Dr MAXFILE pos_max E). by apply V. }
  assert (Pos : forall k, 0 <= k -> k * BSIZE < n -> position k) by (intros k H0 Hk; rewrite maxfile_bytes in Hn; assert (Em : MAXFILE = 140) by done; unfold position, BSIZE in *; rewrite Em; lia).
  assert (U : forall b, on_image b -> used mkfs_sb v b <-> used mkfs_sb (disk_read d) b) by (intros b Hb; by rewrite !used_mkfs, V).
  split; [|split].
  - destruct W as [W1 W2 W3]. split; [done| |].
    + intros k Hk. rewrite A by done. intros Hne. destruct (W2 k Hk Hne) as [X Y]. split; [done|]. apply U; [|done]. by apply Dr.
    + intros j k Hj Hk. rewrite !A by done. by apply W3.
  - intros k H0 Hk. rewrite A by (by apply Pos). by apply M.
  - unfold contents. apply list_fmap_ext. intros i x Hx. apply lookup_seqZ in Hx as [-> Hi]. unfold fbyte.
    assert (Hk : 0 <= (0 + Z.of_nat i) / BSIZE /\ (0 + Z.of_nat i) / BSIZE * BSIZE < n) by (unfold BSIZE; mlia). destruct Hk as [K0 K1].
    rewrite A by by apply Pos. destruct (Dr _ (Pos _ K0 K1) (M _ K0 K1)). by rewrite V.
Qed.

Context (files : list (list Z * list Z)) (I : fs_image d files).
Context (Hmod : (zlen files + 2) mod 32 ≠ 0) (Hlen : zlen files <= 198) (Hsize : Forall (fun f => zlen f.2 <= MAXFILE * BSIZE) files).

Definition in_image (n : Z) : Prop := 1 <= n <= zlen files + 1.

(** An inode of the image, as the kernel sees it. *)
Lemma view_image_file n ty size bytes ad : 0 <= n < NINODES -> image_file (disk_read d) n ty size bytes ad -> mapped (disk_read d) ad size ->
  0 <= size <= MAXFILE * BSIZE -> ty ≠ 0 -> (ty = T_DIR -> size mod sizeof_dirent = 0) ->
  good_inode mkfs_sb v n /\ dinode_at mkfs_sb v n = Dinode ty 0 0 1 size ad /\ contents v ad size = bytes.
Proof using V.
  intros Hn [Ei Ew Ec] M Hs Ht Hd. destruct (view_file ad size Ew M Hs) as (W & M' & C). assert (E : dinode_at mkfs_sb v n = Dinode ty 0 0 1 size ad) by (by rewrite view_inode).
  split; [|split; [done|by rewrite C]]. split; rewrite ?E; try done.
Qed.

Lemma root_inode : exists ad, good_inode mkfs_sb v ROOTINO /\ dinode_at mkfs_sb v ROOTINO = Dinode T_DIR 0 0 1 (root_size (zlen files + 2)) ad /\
  dir_at mkfs_sb v ROOTINO = image_entries files ++ replicate (Z.to_nat (32 - (zlen files + 2) mod 32)) free_entry.
Proof using V I Hmod Hlen.
  destruct (fi_root _ _ I) as (ad & bytes & Im & De & M). exists ad. assert (Hz := zlen_nonneg files). assert (Rs := root_size_range (zlen files + 2) ltac:(lia)).
  destruct (view_image_file ROOTINO _ _ _ _ ltac:(done) Im) as (G & E & C); [by apply M|lia|done|unfold root_size, BSIZE, sizeof_dirent; intros _; mlia|].
  split; [done|]. split; [done|]. unfold dir_at. rewrite E. simpl d_addrs. simpl d_size. by rewrite C.
Qed.

Lemma file_inode i name bytes : files !! i = Some (name, bytes) -> exists ad, good_inode mkfs_sb v (Z.of_nat i + 2) /\
  dinode_at mkfs_sb v (Z.of_nat i + 2) = Dinode T_FILE 0 0 1 (zlen bytes) ad /\ contents v ad (zlen bytes) = bytes.
Proof using V I Hlen Hsize.
  intros Hi. destruct (fi_files _ _ I i name bytes Hi) as (ad & Im & M). exists ad. assert (L := lookup_lt_Some _ _ _ Hi).
  apply view_image_file; try done; [unfold NINODES, zlen in *; lia|]. split; [apply zlen_nonneg|]. exact (Forall_lookup_1 _ _ _ _ Hsize Hi).
Qed.

Lemma image_tree : tree mkfs_sb v in_image.
Proof using V I Hmod Hlen Hsize.
  assert (Hz := zlen_nonneg files). intros n Hn. unfold in_image in Hn. destruct (decide (n = ROOTINO)) as [->|N1].
  - destruct root_inode as (ad & G & _ & D). split; [done|]. intros _ de. rewrite D. unfold image_entries. rewrite elem_of_app, !elem_of_cons.
    intros [[->|[->|He]]|He] H0; [unfold in_image; change (de_inum _) with 1; lia..| |].
    + destruct (dir_entries_elem _ _ _ He) as (k & f & Hk & ->). assert (L := lookup_lt_Some _ _ _ Hk). unfold in_image. simpl. rewrite u16_id; unfold is_u16, zlen in *; lia.
    + apply elem_of_replicate in He as [-> _]. done.
  - destruct (lookup_lt_is_Some_2 files (Z.to_nat (n - 2))) as [[name bytes] Hf]; [unfold zlen in *; change ROOTINO with 1 in N1; lia|].
    destruct (file_inode _ _ _ Hf) as (ad & G & E & _). replace (Z.of_nat (Z.to_nat (n - 2)) + 2) with n in * by (change ROOTINO with 1 in N1; lia). split; [done|]. by rewrite E.
Qed.

(** [e] is the first [DIRSIZ] bytes of the name of file [i], and of no file
    before it. *)
Definition names (e : list Z) (i : nat) : Prop := let key := take (Z.to_nat DIRSIZ) in
  Forall is_u8 e /\ Forall (fun c => c ≠ 0) e /\ e ≠ [46] /\ e ≠ [46; 46] /\
  (exists f, files !! i = Some f /\ key (cstr f.1) = key e) /\ forall j g, (j < i)%nat -> files !! j = Some g -> key (cstr g.1) ≠ key e.

Lemma image_find e i : Forall (fun f => Forall is_u8 f.1) files -> names e i -> exists k f,
  dir_find e (dir_at mkfs_sb v ROOTINO) = Some (k, new_entry f.1 (Z.of_nat i + 2)) /\ files !! i = Some f.
Proof using V I Hmod Hlen.
  intros Hu (Ue & Ne & N1 & N2 & (f & Hf & Hk) & Hj). destruct root_inode as (ad & G & _ & D). rewrite D. exists (Datatypes.S (Datatypes.S i)), f. split; [|done].
  assert (Lf := lookup_lt_Some _ _ _ Hf). unfold zlen in Hlen.
  assert (Dot : forall t, (length t <= 2)%nat -> Forall is_u8 t -> Forall (fun c => c ≠ 0) t -> e ≠ t -> entry_matches e (new_entry t ROOTINO) = false).
  { intros t Lt Ut Nt Nne. apply not_true_is_false. rewrite entry_matches_new by done. rewrite !cstr_id by done. rewrite (take_ge t) by (unfold DIRSIZ; simpl; lia). intros E. apply Nne. rewrite <- E. symmetry.
    apply take_ge. apply (f_equal length) in E. rewrite length_take in E. change (Z.to_nat DIRSIZ) with 14%nat in *. lia. }
  unfold image_entries. simpl. rewrite (Dot [46]) by (done || (simpl; lia) || by repeat constructor). rewrite (Dot [46; 46]) by (done || (simpl; lia) || by repeat constructor).
  rewrite (dir_find_entries e files 2 i f); try done; [by rewrite (Z.add_comm 2)| |].
  - apply entry_matches_new; [exact (Forall_lookup_1 _ _ _ _ Hu Hf)|done|rewrite u16_id; unfold is_u16; lia|]. by rewrite (cstr_id e).
  - intros j h Lj Hh. apply not_true_is_false. rewrite entry_matches_new; [rewrite (cstr_id e) by done; intros X; by apply (Hj j h Lj Hh)|exact (Forall_lookup_1 _ _ _ _ Hu Hh)|done|rewrite u16_id; unfold is_u16; lia].
Qed.
End image.

(** ** Starting on an image *)

Section boot.
Context (devsw : Z -> devsw_entry lstate).

(** The kernel in its first transaction, with an empty inode cache. *)
Definition started_on (t : lstate) (p : Z) : fstate lstate := FState t (replicate NINODE inode0) mkfs_sb p.

(** A process opens a file and reads at most [n] bytes from its start. *)
Definition open_read (path : list Z) (n : Z) : M (fstate lstate) (Z * list Z) :=
  r ← namei devsw 0 path;
  match r with
  | None => mret (-1, [])
  | Some ip => ilock ip;; readi devsw ip 0 n
  end.

Lemma empty_cache g v N : cache_ok g v N (replicate NINODE inode0) /\ slots (replicate NINODE inode0) = 50 /\ forall k, nref (replicate NINODE inode0) k = 0.
Proof.
  assert (E : forall j i, replicate NINODE inode0 !! j = Some i -> i = inode0) by (intros j i H; by apply lookup_replicate in H as [-> _]).
  split; [split|split; [by vm_compute|]].
  - intros j k i i' x n Hj _ [H _]. rewrite (E j i Hj) in H. done.
  - intros j i H. by rewrite (E j i H).
  - intros j i H. by rewrite (E j i H).
  - intros j i H. by rewrite (E j i H).
  - intros k. apply zsum_zero. intros j i H. rewrite (E j i H). rewrite decide_False; [done|]. by intros [? _].
Qed.

Lemma image_rep d files t p v : fs_image d files -> log_env t = BEnv (disksize d) 2 LOGSIZE true -> ls_rep t (BStore v ∅ ∅ ∅) ->
  (forall b, on_image b -> b ≠ 2 -> v b = disk_read d b) -> fs_rep (started_on t p) v ∅ ∅.
Proof.
  intros I He Rv Hv. rewrite (fi_size _ _ I) in He. split.
  - exact Rv.
  - change (env (started_on t p)) with (log_env t). rewrite He. apply mkfs_geom.
  - change (env (started_on t p)) with (log_env t). by rewrite He.
  - rewrite Hv by done. apply (fi_sb _ _ I).
  - intros b Hb. change (datastart (sb (started_on t p))) with nmeta in Hb. destruct (fi_used _ _ I) as (fb & Hfb & U).
    assert (Ob : on_image b) by (unfold on_image; destruct meta_values; lia). rewrite used_mkfs by done. rewrite Hv by done. rewrite <- used_mkfs by done. apply U; [done|lia].
Qed.

Lemma path_elems_one e : Forall (fun c => c ≠ 0) e -> Forall (fun c => c ≠ slash) e -> e ≠ [] -> path_elems (slash :: e ++ [0]) = [e].
Proof.
  intros Hn Hs He. assert (E : cstr (slash :: e ++ [0]) = slash :: e).
  { change (slash :: e ++ [0]) with ((slash :: e) ++ 0 :: []). apply cstr_app_nul. by constructor. }
  unfold path_elems. rewrite E. cbn [split_slash]. rewrite Z.eqb_refl, filter_cons_False by tauto.
  assert (Es : split_slash e = [e]).
  { clear -Hs. induction Hs as [|c e Hc Hs IH]; [done|]. cbn [split_slash]. destruct (Z.eqb_spec c slash); [done|]. by rewrite IH. }
  rewrite Es, filter_cons_True by done. done.
Qed.

Lemma boot_reads d files p e i bytes n : fs_image d files -> (zlen files + 2) mod 32 ≠ 0 -> zlen files <= 198 ->
  Forall (fun f => Forall is_u8 f.1 /\ zlen f.2 <= MAXFILE * BSIZE) files ->
  names files e i -> e ≠ [] -> Forall (fun c => c ≠ slash) e -> snd <$> files !! i = Some bytes -> zlen bytes <= n < 2 ^ 31 ->
  wp (initlog 1;; begin_op) (fun _ t => wp (open_read (slash :: e ++ [0]) n) (fun r _ => r = (zlen bytes, bytes)) (started_on t p)) (boot d p).
Proof.
  intros I Hmod Hlen Hf Hnm He Hs Hb Hn. eapply wp_mono; [apply (boot_open_run d p); apply I|]. intros [] t (Env & v & Rv & Hv).
  assert (V : forall b, on_image b -> b ≠ 2 -> v b = disk_read d b) by (intros b Ob Nb; apply Hv; [rewrite (fi_size _ _ I); exact Ob|done]).
  assert (R := image_rep d files t p v I Env Rv V). destruct (empty_cache mkfs_sb v (in_image files)) as (Ok & Sl & Rf).
  assert (Hsz : Forall (fun f => zlen f.2 <= MAXFILE * BSIZE) files) by (eapply Forall_impl; [exact Hf|by intros f [_ ?]]).
  assert (Hu8 : Forall (fun f => Forall is_u8 f.1) files) by (eapply Forall_impl; [exact Hf|by intros f [? _]]).
  assert (TN := image_tree d v V files I Hmod Hlen Hsz). assert (Hn' := Hnm). destruct Hn' as (Ue & Ne & _).
  destruct (image_find d v V files I Hmod Hlen e i Hu8 Hnm) as (k & [name bs] & Fd & Fi). rewrite Fi in Hb. injection Hb as ->.
  destruct (file_inode d v V files I Hlen Hsz i name bytes Fi) as (ad & G & Di & Cn). assert (Li := lookup_lt_Some _ _ _ Fi).
  destruct (root_inode d v V files I Hmod Hlen) as (rad & _ & Dr & _).
  assert (Ec : icache (started_on t p) = replicate NINODE inode0) by done.
  destruct (namex_run devsw (started_on t p) v ∅ (in_image files) 0 inode0 (slash :: e ++ [0]) false (replicate (Z.to_nat DIRSIZ) 0)) as (r & name' & s1 & E1 & R1 & Sb1 & Pd1 & Ok1 & W);
    [exact R|by rewrite size_empty|exact TN|unfold in_image; assert (X := zlen_nonneg files); change ROOTINO with 1; lia|exact Ok|rewrite Ec, Sl; lia
    |intros q; rewrite Ec, Rf; lia|by left|done|by apply Forall_replicate|constructor; [done|]; apply Forall_app_2; [done|by repeat constructor]|].
  rewrite path_elems_one in W by done. change (hd 0 (slash :: e ++ [0]) =? slash) with true in W. cbv iota in W. cbn [walk] in W.
  change (sb (started_on t p)) with mkfs_sb in *. rewrite Dr in W. simpl negb in W. cbv iota in W. simpl andb in W. cbv iota in W. rewrite Fd in W.
  change (de_inum (new_entry (name, bytes).1 (Z.of_nat i + 2))) with (u16 (Z.of_nat i + 2)) in W. rewrite u16_id in W by (unfold is_u16, zlen in *; lia). cbn [walk] in W.
  destruct W as (ip & x & -> & Hx & Cx & _ & _). unfold open_read, namei. wp_step. wp_step. apply (wp_intro _ _ _ _ _ E1). wp_step. cbn [fst]. wp_step.
  assert (X0 : 0 < ref x) by apply Cx. destruct (co_live _ _ _ _ Ok1 ip x Hx X0) as (Ex & _ & Vx). assert (En : inum x = Z.of_nat i + 2) by apply Cx.
  eapply (wp_ilock (env s1) mkfs_sb (fpid s1) v ∅); [by rewrite size_empty|by split|exact Hx|exact (co_lock _ _ _ _ Ok1 ip x Hx)|done|done|by rewrite En|done|].
  intros s2 C2. assert (Hlt := lookup_lt_Some _ _ _ Hx). assert (E2 := cst_at _ _ _ _ _ _ _ ip _ C2 ltac:(by apply list_lookup_insert_eq)).
  assert (F2 : itype (inode_at s2 ip) = T_FILE /\ isize (inode_at s2 ip) = zlen bytes /\ addrs (inode_at s2 ip) = ad /\ idev (inode_at s2 ip) = ROOTDEV).
  { rewrite E2. unfold locked_by, loaded. rewrite En, Di. done. }
  destruct F2 as (F1 & F2 & F3 & F4). destruct G as [_ _ _ Gw Gs Gm _]. rewrite Di in Gw, Gs, Gm. simpl in Gw, Gs, Gm.
  eapply wp_mono; [apply (wp_readi devsw s2 v ∅ ip 0 n (cs_rep _ _ _ _ _ _ _ C2))|].
  - split; rewrite ?F1, ?F2, ?F3, ?F4, ?(cs_cache _ _ _ _ _ _ _ C2), ?(cs_sb _ _ _ _ _ _ _ C2); try done. by rewrite length_insert.
  - by rewrite size_empty.
  - by rewrite F1.
  - done.
  - unfold is_u32. assert (X := zlen_nonneg bytes). lia.
  - simpl. intros rr s3 (_ & _ & ->). rewrite F2, F3, Cn. assert (X := zlen_nonneg bytes). rewrite decide_True by lia. rewrite Z.min_r by lia. rewrite Z.sub_0_r. f_equal. apply slice_all.
Qed.

End boot.

Definition no_devsw (major : Z) : devsw_entry lstate := Devsw None None.

Lemma demo_names : names demo_files [97] 0.
Proof.
  split; [by repeat constructor|]. split; [by repeat constructor|]. split; [done|]. split; [done|].
  split; [by exists ([97; 0], demo_bytes)|]. intros j g Hj. lia.
Qed.

Lemma demo_element : ([97] : list Z) ≠ [] /\ Forall (fun c => c ≠ slash) [97].
Proof. split; [done|by repeat constructor]. Qed.

Lemma demo_read : snd <$> demo_files !! 0%nat = Some demo_bytes /\ zlen demo_bytes <= 1000 < 2 ^ 31.
Proof. split; [done|]. by vm_compute. Qed.


(** The kernel started on the image with the file [a]. *)
Lemma demo_started : exists t v, fs_rep (started_on t 1) v ∅ ∅ /\ tree mkfs_sb v (in_image demo_files) /\ in_image demo_files ROOTINO /\
  walk mkfs_sb v false ROOTINO (path_elems (slash :: [97] ++ [0])) = Some 2.
Proof.
  destruct demo_fits as (F1 & F2 & F3).
  destruct (wp_inv _ _ _ (wp_main demo_host id demo_args demo_files demo_hosted demo_small F1 F2)) as ([] & s & _ & I).
  revert I. generalize (Disk (img s) []). clear s. intros d I.
  destruct (wp_inv _ _ _ (boot_open_run d 1 (fi_log _ _ I) (fi_clean _ _ I))) as ([] & t & _ & Env & v & Rv & Hv).
  assert (V : forall b, on_image b -> b ≠ 2 -> v b = disk_read d b) by (intros b Ob Nb; apply Hv; [rewrite (fi_size _ _ I); exact Ob|done]).
  assert (Hsz : Forall (fun f => zlen f.2 <= MAXFILE * BSIZE) demo_files) by (eapply Forall_impl; [exact demo_small|by intros f [_ ?]]).
  assert (Hu8 : Forall (fun f => Forall is_u8 f.1) demo_files) by (eapply Forall_impl; [exact demo_small|by intros f [? _]]).
  destruct (image_find d v V demo_files I F3 F1 [97] 0 Hu8 demo_names) as (k & f & Fd & Fi). destruct (root_inode d v V demo_files I F3 F1) as (rad & _ & Dr & _).
  exists t, v. split; [by apply (image_rep d demo_files)|]. split; [by apply (image_tree d)|]. split; [by vm_compute|].
  destruct demo_element as [E1 E2]. rewrite path_elems_one by (done || by repeat constructor). cbn [walk]. rewrite Dr. simpl negb. cbv iota. simpl andb. cbv iota. by rewrite Fd.
Qed.

Lemma namex_correct_witness : exists t v, let s := started_on t 1 in exists r name' s',
  namex no_devsw 0 (slash :: [97] ++ [0]) false (replicate (Z.to_nat DIRSIZ) 0) s = Ret (r, name') s' /\ fs_rep s' v ∅ ∅ /\
  exists ip i, r = Some ip /\ icache s' !! ip = Some i /\ caches i ROOTDEV 2.
Proof.
  destruct demo_started as (t & v & R & T & N & W). exists t, v. destruct (empty_cache mkfs_sb v (in_image demo_files)) as (Ok & Sl & Rf).
  assert (Ec : icache (started_on t 1) = replicate NINODE inode0) by done.
  destruct (namex_correct no_devsw (started_on t 1) v ∅ (in_image demo_files) 0 inode0 (slash :: [97] ++ [0]) false (replicate (Z.to_nat DIRSIZ) 0))
    as (r & name' & s1 & E1 & R1 & _ & _ & _ & H);
    [exact R|by rewrite size_empty|exact T|exact N|exact Ok|rewrite Ec, Sl; lia|intros q; rewrite Ec, Rf; lia|by left|done|by apply Forall_replicate|by repeat constructor|].
  change (sb (started_on t 1)) with mkfs_sb in H. change (hd 0 (slash :: [97] ++ [0]) =? slash) with true in H. cbv iota in H. rewrite W in H.
  destruct H as (ip & i & Er & Hi & Ci & _). exists r, name', s1. split; [exact E1|]. split; [exact R1|]. by exists ip, i.
Defined.
