(* ===== verification/Mmu.v ===== *)
(** * Physical memory and addresses (memlayout.h, mmu.h)

    Page arithmetic on 32-bit addresses, the kernel's window on physical
    memory, and memory as pages of bytes. *)

From S2P Require Import Prelude Param Layout.

Definition EXTMEM : Z := 0x100000.
Definition PHYSTOP : Z := 0xE000000.
Definition DEVSPACE : Z := 0xFE000000.
Definition KERNBASE : Z := 0x80000000.
Definition KERNLINK : Z := KERNBASE + EXTMEM.

Definition V2P (a : Z) : Z := u32 (a - KERNBASE).
Definition P2V (a : Z) : Z := u32 (a + KERNBASE).

Definition PGSIZE : Z := 4096.
Definition NPDENTRIES : nat := 1024.

Definition PGROUNDUP (sz : Z) : Z := Z.land (u32 (sz + PGSIZE - 1)) (Z.lnot (PGSIZE - 1)).
Definition PGROUNDDOWN (a : Z) : Z := Z.land a (Z.lnot (PGSIZE - 1)).

Definition PDX (va : Z) : Z := Z.land (Z.shiftr va 22) 0x3FF.
Definition PTX (va : Z) : Z := Z.land (Z.shiftr va 12) 0x3FF.
Definition PGADDR (d t o : Z) : Z := u32 (Z.lor (Z.lor (Z.shiftl d 22) (Z.shiftl t 12)) o).

Definition PTE_P : Z := 0x001.
Definition PTE_W : Z := 0x002.
Definition PTE_U : Z := 0x004.

Definition PTE_ADDR (pte : Z) : Z := Z.land pte (Z.lnot 0xFFF).
Definition PTE_FLAGS (pte : Z) : Z := Z.land pte 0xFFF.

(** ** Arithmetic *)

Lemma land_lnot_ones a n : 0 <= n -> Z.land a (Z.lnot (2 ^ n - 1)) = a - a mod 2 ^ n.
Proof.
  intros Hn. rewrite <- Z.ldiff_land.
  replace (2 ^ n - 1) with (Z.ones n) by (rewrite Z.ones_equiv; lia).
  rewrite Z.ldiff_ones_r by done. rewrite Z.shiftl_mul_pow2, Z.shiftr_div_pow2 by done.
  assert (D := Z.div_mod a (2 ^ n) ltac:(lia)). lia.
Qed.

Lemma PGROUNDDOWN_eq a : PGROUNDDOWN a = a - a mod PGSIZE.
Proof. exact (land_lnot_ones a 12 ltac:(lia)). Qed.

Lemma PTE_ADDR_eq a : PTE_ADDR a = a - a mod PGSIZE.
Proof. exact (land_lnot_ones a 12 ltac:(lia)). Qed.

Lemma PGROUNDUP_eq a : 0 <= a <= 2 ^ 32 - PGSIZE -> PGROUNDUP a = (a + PGSIZE - 1) / PGSIZE * PGSIZE.
Proof.
  unfold PGSIZE. intros Ha. unfold PGROUNDUP, PGSIZE. rewrite u32_id by mlia.
  rewrite (land_lnot_ones _ 12) by lia. change (2 ^ 12) with 4096. mlia.
Qed.

Lemma PTE_FLAGS_eq a : PTE_FLAGS a = a mod PGSIZE.
Proof. exact (Z.land_ones a 12 ltac:(lia)). Qed.

Lemma PDX_eq va : PDX va = va / 2 ^ 22 mod 1024.
Proof. unfold PDX. rewrite Z.shiftr_div_pow2 by lia. exact (Z.land_ones _ 10 ltac:(lia)). Qed.

Lemma PTX_eq va : PTX va = va / 2 ^ 12 mod 1024.
Proof. unfold PTX. rewrite Z.shiftr_div_pow2 by lia. exact (Z.land_ones _ 10 ltac:(lia)). Qed.

(** ** Memory *)

(** A page is [PGSIZE] bytes; memory maps the kernel address of a page to
    its contents. *)
Definition page : Type := list Z.
Notation memory := (gmap Z page).

Definition is_page (p : page) : Prop := zlen p = PGSIZE /\ Forall is_u8 p.
Definition zero_page : page := replicate 4096 0.
Definition page_at (m : memory) (a : Z) : page := default zero_page (m !! a).

(** A 32-bit word at a kernel address. *)
Definition ld32 (m : memory) (a : Z) : Z := get32 (page_at m (PGROUNDDOWN a)) (a mod PGSIZE).
Definition st32 (m : memory) (a v : Z) : memory :=
  <[PGROUNDDOWN a := put32 (page_at m (PGROUNDDOWN a)) (a mod PGSIZE) v]> m.

Definition page_aligned (a : Z) : Prop := a mod PGSIZE = 0.
Definition mem_wf (m : memory) : Prop := map_Forall (fun _ => is_page) m.

Lemma zero_page_ok : is_page zero_page.
Proof. split; [done|]. apply Forall_replicate. mlia. Qed.

Lemma page_at_ok m a : mem_wf m -> is_page (page_at m a).
Proof. intros W. unfold page_at. destruct (m !! a) eqn:E; [by eapply W|apply zero_page_ok]. Qed.

Lemma page_at_insert m a p b : page_at (<[a := p]> m) b = if decide (a = b) then p else page_at m b.
Proof.
  unfold page_at. case_decide; [subst; by rewrite lookup_insert_eq|by rewrite lookup_insert_ne].
Qed.

Lemma blit_page p off l : is_page p -> 0 <= off -> off + zlen l <= PGSIZE -> Forall is_u8 l -> is_page (blit p off l).
Proof.
  intros [Hl Hp] Ho Hs Hb. split; [rewrite zlen_blit; lia|].
  unfold blit. apply Forall_app_2; [by apply Forall_take|]. apply Forall_app_2; [done|by apply Forall_drop].
Qed.

Lemma aligned_round a : page_aligned a -> PGROUNDDOWN a = a /\ a mod PGSIZE = 0.
Proof. intros H. rewrite PGROUNDDOWN_eq, H. split; [lia|done]. Qed.
