(* ===== verification/Spinlock.v ===== *)
(** * Spin locks (spinlock.c)

    Several processors run [acquire] and [release] at the same time.  A routine
    is a program of atomic accesses to shared memory, and the processors take
    turns in any order.  The memory is sequentially consistent: the code has its
    barriers ([xchg], [__sync_synchronize]) where it matters.  The other files
    take a section under a spin lock as one step; here the sections of each lock
    are shown to come one after the other, with interrupts off. *)

From stdpp Require Import functions.
From S2P Require Import Prelude Mmu.

(** The fields of [struct cpu] that matter here, and the interrupt flag FL_IF
    of the processor. *)
Record cpu := Cpu { cpu_if : bool; cpu_ncli : Z; cpu_intena : bool }.

(** [struct spinlock]; [lk_cpu] is the index of the processor. *)
Record spinlock := SpinLock { lk_locked : bool; lk_cpu : option nat; lk_pcs : list Z }.

Definition initlock : spinlock := SpinLock false None (replicate 10 0).

Record smem := SMem { sm_lk : nat -> spinlock; sm_cpu : nat -> cpu }.

Definition set_cpu (c : nat) (f : cpu -> cpu) (s : smem) : smem :=
  SMem (sm_lk s) (<[c := f (sm_cpu s c)]> (sm_cpu s)).
Definition set_lk (l : nat) (f : spinlock -> spinlock) (s : smem) : smem :=
  SMem (<[l := f (sm_lk s l)]> (sm_lk s)) (sm_cpu s).

(** ** Programs of atomic accesses *)

Inductive prog (A : Type) : Type :=
| Done (a : A)
| Act (B : Type) (op : M smem B) (k : B -> prog A).
Arguments Done {A} a.
Arguments Act {A B} op k.

Fixpoint prog_bind {A B} (f : A -> prog B) (p : prog A) : prog B :=
  match p with
  | Done a => f a
  | Act op k => Act op (fun b => prog_bind f (k b))
  end.

#[export] Instance prog_mret : MRet prog := fun A a => Done a.
#[export] Instance prog_mbind : MBind prog := fun A B f p => prog_bind f p.

Definition act {B} (op : M smem B) : prog B := Act op Done.

(** ** Interrupts *)

(** [mycpu] of proc.c: the processor knows its own index. *)
Definition mycpu (c : nat) : M smem nat :=
  on ← gets (fun s => cpu_if (sm_cpu s c));
  if on : bool then panic "mycpu called with interrupts enabled" else mret c.

Definition pushcli (c : nat) : M smem unit :=
  eflags ← gets (fun s => cpu_if (sm_cpu s c));
  modify (set_cpu c (fun p => Cpu false (cpu_ncli p) (cpu_intena p)));;
  me ← mycpu c;
  n ← gets (fun s => cpu_ncli (sm_cpu s me));
  when (n =? 0) (modify (set_cpu me (fun p => Cpu (cpu_if p) (cpu_ncli p) eflags)));;
  modify (set_cpu me (fun p => Cpu (cpu_if p) (cpu_ncli p + 1) (cpu_intena p))).

Definition popcli (c : nat) : M smem unit :=
  on ← gets (fun s => cpu_if (sm_cpu s c));
  if on : bool then panic "popcli - interruptible" else
  me ← mycpu c;
  modify (set_cpu me (fun p => Cpu (cpu_if p) (cpu_ncli p - 1) (cpu_intena p)));;
  p ← gets (fun s => sm_cpu s me);
  if cpu_ncli p <? 0 then panic "popcli" else
  when ((cpu_ncli p =? 0) && cpu_intena p)
    (modify (set_cpu c (fun p => Cpu true (cpu_ncli p) (cpu_intena p)))).

(** ** Locks *)

Section locks.
(** [word a] is the word of memory at address [a], [lkarg] the address of the
    parameter of [acquire] on the stack. *)
Context (word : Z -> Z) (lkarg : Z).

Fixpoint callerpcs (i : nat) (ebp : Z) : list Z :=
  match i with
  | O => []
  | S i' =>
      if (ebp =? 0) || (ebp <? KERNBASE) || (ebp =? 0xffffffff) then replicate i 0
      else word (u32 (ebp + 4)) :: callerpcs i' (word ebp)
  end.

Definition getcallerpcs (v : Z) : list Z := callerpcs 10 (u32 (v - 8)).

Definition holding (c l : nat) : prog bool :=
  act (pushcli c);;
  locked ← act (gets (fun s => lk_locked (sm_lk s l)));
  r ← (if locked : bool then
         owner ← act (gets (fun s => lk_cpu (sm_lk s l)));
         me ← act (mycpu c);
         mret (bool_decide (owner = Some me))
       else mret false);
  act (popcli c);;
  mret r.

(** [while(xchg(&lk->locked, 1) != 0);]: an exchange that finds 1 changes
    nothing, so the loop waits for the exchange that finds 0. *)
Definition spin (l : nat) : M smem unit :=
  locked ← gets (fun s => lk_locked (sm_lk s l));
  if locked : bool then blocked
  else modify (set_lk l (fun k => SpinLock true (lk_cpu k) (lk_pcs k))).

Definition acquire (c l : nat) : prog unit :=
  act (pushcli c);;
  h ← holding c l;
  if h : bool then act (panic "acquire") else
  act (spin l);;
  me ← act (mycpu c);
  act (modify (set_lk l (fun k => SpinLock (lk_locked k) (Some me) (lk_pcs k))));;
  act (modify (set_lk l (fun k => SpinLock (lk_locked k) (lk_cpu k) (getcallerpcs lkarg)))).

Definition release (c l : nat) : prog unit :=
  h ← holding c l;
  if negb h then act (panic "release") else
  act (modify (set_lk l (fun k => SpinLock (lk_locked k) (lk_cpu k) (wr (lk_pcs k) 0 0))));;
  act (modify (set_lk l (fun k => SpinLock (lk_locked k) None (lk_pcs k))));;
  act (modify (set_lk l (fun k => SpinLock false (lk_cpu k) (lk_pcs k))));;
  act (popcli c).

(** ** Processors

    A processor calls [acquire] and [release] in any order, and accesses data
    that belongs to locks it has acquired.  [held] has the locks whose
    [acquire] has returned and whose [release] has not. *)

Inductive call := Acquire (l : nat) | Release (l : nat).
Inductive event := Acquired (c l : nat) | Access (c l : nat) | Released (c l : nat).

Record machine := Machine {
  mem : smem;
  running : nat -> option (call * prog unit);
  held : nat -> gset nat
}.

Definition body (c : nat) (k : call) : prog unit :=
  match k with Acquire l => acquire c l | Release l => release c l end.
Definition after (k : call) (h : gset nat) : gset nat :=
  match k with Acquire l => {[l]} ∪ h | Release l => h ∖ {[l]} end.

(** A critical section begins when [acquire] returns and ends when [release] is
    called. *)
Definition returned (c : nat) (k : call) : option event :=
  match k with Acquire l => Some (Acquired c l) | Release _ => None end.
Definition called (c : nat) (k : call) (h : gset nat) : option event :=
  match k with
  | Acquire _ => None
  | Release l => if decide (l ∈ h) then Some (Released c l) else None
  end.

Inductive step : machine -> option event -> machine -> Prop :=
| step_call m c k :
    running m c = None ->
    step m (called c k (held m c))
      (Machine (mem m) (<[c := Some (k, body c k)]> (running m)) (held m))
| step_op m c k B (op : M smem B) f b s :
    running m c = Some (k, Act op f) -> op (mem m) = Ret b s ->
    step m None (Machine s (<[c := Some (k, f b)]> (running m)) (held m))
| step_return m c k :
    running m c = Some (k, Done tt) ->
    step m (returned c k)
      (Machine (mem m) (<[c := None]> (running m)) (<[c := after k (held m c)]> (held m)))
| step_access m c l :
    running m c = None -> l ∈ held m c ->
    step m (Some (Access c l)) m.

(** An execution and its events, the latest first. *)
Inductive run : machine -> list event -> machine -> Prop :=
| run_nil m : run m [] m
| run_cons m tr m' e m'' :
    run m tr m' -> step m' e m'' -> run m (option_list e ++ tr) m''.

(** Interrupts may be on or off at the start, as [base] says. *)
Definition boot (base : nat -> bool) : machine :=
  Machine (SMem (fun _ => initlock) (fun c => Cpu (base c) 0 false)) (fun _ => None) (fun _ => ∅).

(** ** What a processor knows

    The view of a processor: the locks it has taken with [xchg], the locks that
    carry its mark, and how often it has called [pushcli].  [consistent] ties the
    views of all processors to the memory; a processor changes its own view
    only. *)

Record view := View { v_tok : gset nat; v_mark : gset nat; v_depth : Z }.

(** Interrupts are off and their old state is remembered, or they are as they
    were. *)
Definition cpu_ok (base : bool) (d : Z) (p : cpu) : Prop :=
  0 <= d /\ cpu_ncli p = d /\
  (if decide (d = 0) then cpu_if p = base else cpu_if p = false /\ cpu_intena p = base).

Record consistent (base : nat -> bool) (s : smem) (g : nat -> view) : Prop := {
  c_locked l : lk_locked (sm_lk s l) = true <-> exists c, l ∈ v_tok (g c);
  c_unique c c' l : l ∈ v_tok (g c) -> l ∈ v_tok (g c') -> c = c';
  c_mark c l : lk_cpu (sm_lk s l) = Some c <-> l ∈ v_mark (g c);
  c_sub c : v_mark (g c) ⊆ v_tok (g c);
  c_cpu c : cpu_ok (base c) (v_depth (g c)) (sm_cpu s c)
}.

(** The locks [K] stay taken and marked, and interrupts stay off for them. *)
Definition kept (K : gset nat) (v : view) : Prop := K ⊆ v_mark v /\ Z.of_nat (size K) <= v_depth v.

(** [wps c K P Q v p]: run by processor [c] with view [v], interleaved with
    anything the others do, [p] keeps the locks [K] all the time and panics only
    if [P], and when it returns a value the view is one that [Q] allows. *)
Fixpoint wps {A} (base : nat -> bool) (c : nat) (K : gset nat) (P : Prop) (Q : A -> view -> Prop) (v : view)
    (p : prog A) : Prop :=
  match p with
  | Done a => Q a v
  | Act op k => forall s g, consistent base s g -> g c = v -> kept K v ->
      match op s with
      | Ret b s' => exists v', consistent base s' (<[c := v']> g) /\ kept K v' /\ wps base c K P Q v' (k b)
      | Panic _ => P
      | _ => True
      end
  end.

#[global] Arguments wps : simpl never.

Section proofs.
Context (base : nat -> bool).
Notation consistent := (consistent base).
Notation wps := (wps base).

Lemma wps_bind {A B} c K P (Q : B -> view -> Prop) v (p : prog A) f :
  wps c K P (fun a v' => wps c K P Q v' (f a)) v p -> wps c K P Q v (p ≫= f).
Proof.
  revert v. induction p as [a|B' op k IH]; intros v H; [done|].
  intros s g I E HK. specialize (H s g I E HK). destruct (op s) as [b s'| | |]; [|done..].
  destruct H as (v' & I' & HK' & H). exists v'. do 2 (split; [done|]). by apply IH.
Qed.

Lemma insert_view {A} (g : nat -> A) (c c' : nat) (v' : A) :
  (<[c := v']> g) c' = if decide (c = c') then v' else g c'.
Proof. case_decide; subst; [apply fn_lookup_insert | by apply fn_lookup_insert_ne]. Qed.

(** An access to the processor's own fields. *)
Lemma consistent_cpu s s' g c d :
  consistent s g -> sm_lk s' = sm_lk s -> (forall c', c ≠ c' -> sm_cpu s' c' = sm_cpu s c') ->
  cpu_ok (base c) d (sm_cpu s' c) ->
  consistent s' (<[c := View (v_tok (g c)) (v_mark (g c)) d]> g).
Proof.
  intros I El Ec Hp. split.
  - intros l. rewrite El, (c_locked _ _ _ I). apply exists_iff. intros c'. rewrite insert_view. by case_decide; subst.
  - intros c1 c2 l. rewrite !insert_view. repeat case_decide; subst; apply I.
  - intros c' l. rewrite El, insert_view. case_decide; subst; apply I.
  - intros c'. rewrite insert_view. case_decide; subst; apply I.
  - intros c'. rewrite insert_view. case_decide; subst; [done|]. rewrite Ec by done. apply I.
Qed.

(** An access to lock [l]. *)
Lemma consistent_lk s s' g c v' l :
  consistent s g -> (forall l', l ≠ l' -> sm_lk s' l' = sm_lk s l') -> sm_cpu s' = sm_cpu s ->
  v_depth v' = v_depth (g c) ->
  (forall l', l ≠ l' -> (l' ∈ v_tok v' <-> l' ∈ v_tok (g c)) /\ (l' ∈ v_mark v' <-> l' ∈ v_mark (g c))) ->
  (lk_locked (sm_lk s' l) = true <-> l ∈ v_tok v' \/ exists c', c ≠ c' /\ l ∈ v_tok (g c')) ->
  (l ∈ v_tok v' -> forall c', c ≠ c' -> l ∉ v_tok (g c')) ->
  (forall c', lk_cpu (sm_lk s' l) = Some c' <-> l ∈ v_mark (if decide (c = c') then v' else g c')) ->
  (l ∈ v_mark v' -> l ∈ v_tok v') ->
  consistent s' (<[c := v']> g).
Proof.
  intros I El Ec Ed Hne Hlk Hex Hmk Hsub. split.
  - intros l'. destruct (decide (l = l')) as [<-|n].
    + rewrite Hlk. setoid_rewrite insert_view. split.
      * intros [H|(c' & n & H)]; [exists c; by rewrite decide_True | exists c'; by rewrite decide_False].
      * intros [c' H]. case_decide; [by left | right; eauto].
    + rewrite El, (c_locked _ _ _ I) by done. apply exists_iff. intros c'. rewrite insert_view.
      case_decide; subst; [|done]. symmetry. by apply Hne.
  - intros c1 c2 l'. rewrite !insert_view. destruct (decide (l = l')) as [<-|n].
    + repeat case_decide; subst; intros H1 H2; try done; [by edestruct Hex | by edestruct Hex | by eapply I].
    + assert (K : forall x, l' ∈ v_tok (if decide (c = x) then v' else g x) -> l' ∈ v_tok (g x)).
      { intros x. case_decide; subst; [|done]. by apply Hne. }
      intros H1%K H2%K. by eapply I.
  - intros c' l'. rewrite insert_view. destruct (decide (l = l')) as [<-|n]; [by rewrite Hmk|].
    rewrite El, (c_mark _ _ _ I) by done. case_decide; subst; [|done]. symmetry. by apply Hne.
  - intros c' l'. rewrite insert_view. case_decide; subst; [|apply I].
    destruct (decide (l = l')) as [<-|n]; [done|]. destruct (Hne l' n) as [-> ->]. apply I.
  - intros c'. rewrite Ec, insert_view. case_decide; subst; [rewrite Ed|]; apply I.
Qed.

(** ** Each access *)

Ltac cpu_goal :=
  simpl; intros;
  repeat (rewrite !fn_lookup_insert || rewrite !fn_lookup_insert_ne by done || simpl);
  unfold cpu_ok in *; simpl; repeat case_decide; intuition (lia || congruence).

Ltac kept_goal := match goal with H : kept _ _ |- _ => destruct H; split; simpl in *; (done || lia) end.

Lemma wps_pushcli c K P Q v :
  Q tt (View (v_tok v) (v_mark v) (v_depth v + 1)) -> wps c K P Q v (act (pushcli c)).
Proof.
  intros HQ s g I <- HK. destruct (c_cpu _ _ _ I c) as (Hd & Hn & Hb).
  unfold pushcli, mycpu. munfold. simpl. rewrite !fn_lookup_insert. simpl. rewrite !fn_lookup_insert. simpl.
  rewrite Hn. destruct (Z.eqb_spec (v_depth (g c)) 0) as [E|E]; simpl;
    (eexists; split; [|split; [|exact HQ]];
      [apply (consistent_cpu s); try done; cpu_goal | by kept_goal]).
Qed.

Lemma wps_popcli c K P Q v :
  Z.of_nat (size K) < v_depth v -> Q tt (View (v_tok v) (v_mark v) (v_depth v - 1)) -> wps c K P Q v (act (popcli c)).
Proof.
  intros Hp HQ s g I <- HK. destruct (c_cpu _ _ _ I c) as (Hd & Hn & Hb). rewrite decide_False in Hb by lia.
  destruct Hb as [Hi Hb]. unfold popcli, mycpu. munfold. simpl. rewrite Hi. cbv iota. rewrite Hi. simpl.
  rewrite !fn_lookup_insert. simpl.
  rewrite Hn. destruct (Z.ltb_spec (v_depth (g c) - 1) 0); [lia|].
  destruct (Z.eqb_spec (v_depth (g c) - 1) 0) as [E|E]; simpl;
    [destruct (cpu_intena (sm_cpu s c)) eqn:Ei; simpl|];
    (eexists; split; [|split; [|exact HQ]];
      [apply (consistent_cpu s); try done; cpu_goal | by kept_goal]).
Qed.

Lemma consistent_same s g c : consistent s g -> consistent s (<[c := g c]> g).
Proof.
  intros I. assert (H := consistent_cpu s s g c (v_depth (g c)) I eq_refl (fun _ _ => eq_refl) (c_cpu _ _ _ I c)).
  by destruct (g c).
Qed.

Lemma wps_read {A} c K P (Q : A -> view -> Prop) v f :
  (forall s g, consistent s g -> g c = v -> Q (f s) v) -> wps c K P Q v (act (gets f)).
Proof. intros HQ s g I <- HK. exists (g c). do 2 (split; [done || by apply consistent_same|]). by eapply HQ. Qed.

Lemma wps_mycpu c K P Q v : 0 < v_depth v -> Q c v -> wps c K P Q v (act (mycpu c)).
Proof.
  intros Hp HQ s g I <- HK. destruct (c_cpu _ _ _ I c) as (Hd & Hn & Hb). rewrite decide_False in Hb by lia.
  destruct Hb as [Hi _]. unfold mycpu. munfold. rewrite Hi. exists (g c). by do 2 (split; [done || by apply consistent_same|]).
Qed.

Lemma wps_panic {A} c K (P : Prop) (Q : A -> view -> Prop) v msg : P -> wps c K P Q v (act (panic msg)).
Proof. by intros HP s g _ _ _. Qed.

(** [holding] is exact: the mark of this processor is on the lock. *)
Lemma wps_holding c K P Q v l :
  Z.of_nat (size K) <= v_depth v -> Q (bool_decide (l ∈ v_mark v)) v -> wps c K P Q v (holding c l).
Proof.
  intros Hd HQ. unfold holding. apply wps_bind, wps_pushcli.
  set (v1 := View _ _ _).
  assert (HQ' : Q (bool_decide (l ∈ v_mark v)) (View (v_tok v1) (v_mark v1) (v_depth v1 - 1))).
  { destruct v. simpl. by replace (_ + 1 - 1) with v_depth0 by lia. }
  assert (Hd1 : Z.of_nat (size K) < v_depth v1) by (simpl; lia).
  apply wps_bind, wps_read. intros s g I Eg. destruct (lk_locked (sm_lk s l)) eqn:El.
  - apply wps_bind, wps_bind, wps_read. intros s' g' I' Eg'. apply wps_bind, wps_mycpu; [lia|].
    apply wps_bind, wps_popcli; [done|]. 
    replace (bool_decide _) with (bool_decide (l ∈ v_mark v)); [done|].
    apply bool_decide_ext. rewrite (c_mark _ _ _ I'), Eg'. done.
  - apply wps_bind, wps_bind, wps_popcli; [done|]. rewrite bool_decide_false in HQ'; [done|].
    intros H. assert (lk_locked (sm_lk s l) = true); [|congruence]. apply (c_locked _ _ _ I). exists c.
    apply (c_sub _ _ _ I). by rewrite Eg.
Qed.

(** An access to lock [l] by its owner. *)
Lemma wps_own c K P Q v v' l f :
  l ∈ v_tok v -> K ⊆ v_mark v' -> v_depth v' = v_depth v ->
  (forall l', l ≠ l' -> (l' ∈ v_tok v' <-> l' ∈ v_tok v) /\ (l' ∈ v_mark v' <-> l' ∈ v_mark v)) ->
  (forall k, lk_locked k = true ->
     (lk_locked (f k) = true <-> l ∈ v_tok v') /\
     (lk_cpu k = (if decide (l ∈ v_mark v) then Some c else None) ->
      lk_cpu (f k) = if decide (l ∈ v_mark v') then Some c else None)) ->
  (l ∈ v_mark v' -> l ∈ v_tok v') ->
  Q tt v' -> wps c K P Q v (act (modify (set_lk l f))).
Proof.
  intros Ht HK' Ed Hne Hf Hsub HQ s g I <- HK.
  exists v'. split; [|split; [|done]]; [|split; [done|rewrite Ed; apply HK]].
  assert (Ho : forall c', c ≠ c' -> l ∉ v_tok (g c')) by (intros c' n H; apply n; by eapply (c_unique _ _ _ I)).
  destruct (Hf (sm_lk s l)) as [Hl Hc]; [apply (c_locked _ _ _ I); eauto|].
  assert (Ec : lk_cpu (sm_lk s l) = if decide (l ∈ v_mark (g c)) then Some c else None).
  { case_decide; [by apply (c_mark _ _ _ I)|]. destruct (lk_cpu (sm_lk s l)) as [c'|] eqn:E; [|done].
    apply (c_mark _ _ _ I) in E. destruct (decide (c = c')) as [<-|n]; [done|]. 
    destruct (Ho c' n). by apply (c_sub _ _ _ I c'). }
  apply (consistent_lk s _ _ _ _ l); try done; simpl; intros; rewrite ?fn_lookup_insert, ?fn_lookup_insert_ne by done; try done.
  - rewrite Hl. split; [by left|]. intros [H|(c' & n & H)]; [done|]. by destruct (Ho c').
  - rewrite (Hc Ec). repeat case_decide; subst; split; intros; simplify_eq; try done.
    all: destruct (Ho c'); [done|]; by apply (c_sub _ _ _ I c').
Qed.

Lemma wps_spin c K P Q v l :
  l ∉ v_tok v -> Q tt (View ({[l]} ∪ v_tok v) (v_mark v) (v_depth v)) -> wps c K P Q v (act (spin l)).
Proof.
  intros Ht HQ s g I <- HK. unfold spin. munfold. destruct (lk_locked (sm_lk s l)) eqn:El; [done|].
  assert (Ho : forall c', l ∉ v_tok (g c')).
  { intros c' H. assert (lk_locked (sm_lk s l) = true); [|congruence]. apply (c_locked _ _ _ I). eauto. }
  eexists; split; [|split; [|exact HQ]]; [|by kept_goal].
  apply (consistent_lk s _ _ _ _ l); try done; simpl; intros; rewrite ?fn_lookup_insert, ?fn_lookup_insert_ne by done; simpl.
  - done.
  - set_solver.
  - set_solver.
  - rewrite (c_mark _ _ _ I). by case_decide; subst.
  - set_solver.
Qed.

(** ** acquire and release

    At a call the locks taken and marked are the ones held. *)

Definition quiet (h : gset nat) (v : view) : Prop := v = View h h (Z.of_nat (size h)).

Definition misuse (k : call) (h : gset nat) : Prop :=
  match k with Acquire l => l ∈ h | Release l => l ∉ h end.

(** The locks that a call leaves alone. *)
Definition keeps (k : call) (h : gset nat) : gset nat :=
  match k with Acquire _ => h | Release l => h ∖ {[l]} end.

Lemma wps_acquire c h v l :
  quiet h v ->
  wps c (keeps (Acquire l) h) (misuse (Acquire l) h) (fun _ v' => ~ misuse (Acquire l) h /\ quiet (after (Acquire l) h) v') v
    (acquire c l).
Proof.
  intros ->. unfold acquire. apply wps_bind, wps_pushcli, wps_bind. simpl v_tok. simpl v_mark. simpl v_depth.
  apply wps_holding; [simpl; lia|]. simpl v_mark. case_bool_decide as Hl; [by apply wps_panic|]. cbv iota.
  apply wps_bind, wps_spin; [done|]. apply wps_bind, wps_mycpu; [simpl; lia|]. simpl v_tok. simpl v_mark. simpl v_depth.
  apply wps_bind, (wps_own _ _ _ _ _ (View ({[l]} ∪ h) ({[l]} ∪ h) (Z.of_nat (size h) + 1)) l);
    [set_solver|set_solver|done|set_solver| |set_solver|].
  { intros k Hk. simpl. split; [set_solver|]. intros _. rewrite decide_True by set_solver. done. }
  apply (wps_own _ _ _ _ _ (View ({[l]} ∪ h) ({[l]} ∪ h) (Z.of_nat (size h) + 1)) l);
    [set_solver|set_solver|done|set_solver| |set_solver|].
  { intros k Hk. simpl. split; [set_solver|done]. }
  split; [done|]. unfold quiet. simpl after. f_equal. rewrite size_union by set_solver. rewrite size_singleton. lia.
Qed.

Lemma wps_release c h v l :
  quiet h v ->
  wps c (keeps (Release l) h) (misuse (Release l) h) (fun _ v' => ~ misuse (Release l) h /\ quiet (after (Release l) h) v') v
    (release c l).
Proof.
  intros ->. unfold release. apply wps_bind, wps_holding;
    [simpl; apply inj_le, subseteq_size; set_solver|]. simpl v_mark.
  case_bool_decide as Hl; [|by apply wps_panic]. unfold negb.
  apply wps_bind, (wps_own _ _ _ _ _ (View h h (Z.of_nat (size h))) l);
    [set_solver|set_solver|done|set_solver| |set_solver|].
  { intros k Hk. simpl. split; [set_solver|done]. }
  apply wps_bind, (wps_own _ _ _ _ _ (View h (h ∖ {[l]}) (Z.of_nat (size h))) l);
    [set_solver|set_solver|done|set_solver| |set_solver|].
  { intros k Hk. simpl. split; [set_solver|]. intros _. rewrite decide_False by set_solver. done. }
  apply wps_bind, (wps_own _ _ _ _ _ (View (h ∖ {[l]}) (h ∖ {[l]}) (Z.of_nat (size h))) l);
    [set_solver|set_solver|done|set_solver| |set_solver|].
  { intros k Hk. simpl. split; [set_solver|]. by rewrite !decide_False by set_solver. }
  assert (Hs : size h ≠ O) by (apply size_non_empty_iff; set_solver).
  assert (Hd : size (h ∖ {[l]}) = (size h - 1)%nat).
  { rewrite size_difference by set_solver. by rewrite size_singleton. }
  apply wps_popcli; simpl; rewrite ?Hd; [lia|]. split; [tauto|]. unfold quiet. simpl. f_equal. lia.
Qed.

Lemma kept_quiet k h v : quiet h v -> kept (keeps k h) v.
Proof.
  intros ->. unfold kept. simpl. assert (keeps k h ⊆ h) by (destruct k; set_solver).
  split; [done|]. apply inj_le. by apply subseteq_size.
Qed.

(** ** The invariant of executions *)

Definition cpu_inv (m : machine) (g : nat -> view) (c : nat) : Prop :=
  match running m c with
  | None => quiet (held m c) (g c)
  | Some (k, p) =>
      kept (keeps k (held m c)) (g c) /\
      wps c (keeps k (held m c)) (misuse k (held m c))
        (fun _ v' => ~ misuse k (held m c) /\ quiet (after k (held m c)) v') (g c) p
  end.

Definition minv (m : machine) : Prop :=
  exists g, consistent (mem m) g /\ forall c, cpu_inv m g c.

Lemma minv_boot : minv (boot base).
Proof.
  exists (fun _ => View ∅ ∅ 0). split; [|done]. split; simpl.
  - intros l. split; [done|]. intros [c H]. set_solver.
  - set_solver.
  - intros c l. split; [done|set_solver].
  - done.
  - done.
Qed.

Lemma minv_step m e m' : step m e m' -> minv m -> minv m'.
Proof.
  intros H (g & I & C). destruct H as [m c k E|m c k B op f b s E Eo|m c k E|m c l E Hl].
  - exists g. split; [done|]. intros c'. unfold cpu_inv. simpl. rewrite insert_view. case_decide; subst; [|apply C].
    specialize (C c'). unfold cpu_inv in C. rewrite E in C. 
    split; [by apply kept_quiet|]. destruct k; [by apply wps_acquire | by apply wps_release].
  - assert (Cc := C c). unfold cpu_inv in Cc. rewrite E in Cc. destruct Cc as [HK Cc].
    specialize (Cc _ _ I eq_refl HK). rewrite Eo in Cc. destruct Cc as (v' & I' & W). exists (<[c:=v']> g). split; [done|]. intros c'. unfold cpu_inv. simpl.
    rewrite !insert_view. case_decide; subst; [done|apply C].
  - exists g. split; [done|]. intros c'. unfold cpu_inv. simpl. rewrite !insert_view. case_decide; subst; [|apply C].
    specialize (C c'). unfold cpu_inv in C. rewrite E in C. apply C.
  - by exists g.
Qed.

Lemma minv_run tr m : run (boot base) tr m -> minv m.
Proof.
  intros H. remember (boot base) as m0. induction H as [|? ? ? ? ? ? IH ?]; subst; [apply minv_boot|].
  eapply minv_step; eauto.
Qed.

(** ** Critical sections are serial *)

(** Processor [c] is in a critical section of lock [l]. *)
Definition inside (m : machine) (c l : nat) : Prop :=
  l ∈ held m c /\ forall p, running m c ≠ Some (Release l, p).

Lemma inside_mark m g c l :
  (forall c, cpu_inv m g c) -> inside m c l -> l ∈ v_mark (g c) /\ 0 < v_depth (g c).
Proof.
  intros C [Hl Hr]. specialize (C c). unfold cpu_inv in C. destruct (running m c) as [[k p]|].
  - destruct C as [[Hs Hd] _].
    assert (Hk : l ∈ keeps k (held m c)).
    { destruct k as [l'|l']; simpl; [done|]. apply elem_of_difference. split; [done|].
      rewrite elem_of_singleton. intros ->. by destruct (Hr p). }
    assert (size (keeps k (held m c)) ≠ O) by (apply size_non_empty_iff; set_solver). split; [by apply Hs|lia].
  - rewrite C. simpl. assert (size (held m c) ≠ O) by (apply size_non_empty_iff; set_solver). split; [done|lia].
Qed.

Lemma inside_unique m c c' l : minv m -> inside m c l -> inside m c' l -> c = c'.
Proof.
  intros (g & I & C) H H'. apply (inside_mark _ g) in H as [H _], H' as [H' _]; try done.
  eapply (c_unique _ _ _ I c c' l); by apply (c_sub _ _ _ I).
Qed.

(** The events of lock [l], the latest first, are sections one after the other:
    a processor acquires, accesses, and releases.  [o] is the processor that is
    in a section at the end. *)
Inductive serial (l : nat) : option nat -> list event -> Prop :=
| serial_nil : serial l None []
| serial_acquired c tr : serial l None tr -> serial l (Some c) (Acquired c l :: tr)
| serial_access c tr : serial l (Some c) tr -> serial l (Some c) (Access c l :: tr)
| serial_released c tr : serial l (Some c) tr -> serial l None (Released c l :: tr)
| serial_acquired_ne o c l' tr : l ≠ l' -> serial l o tr -> serial l o (Acquired c l' :: tr)
| serial_access_ne o c l' tr : l ≠ l' -> serial l o tr -> serial l o (Access c l' :: tr)
| serial_released_ne o c l' tr : l ≠ l' -> serial l o tr -> serial l o (Released c l' :: tr).

(** The processor in a section of [l] is the one the events say. *)
Definition owner_is (l : nat) (o : option nat) (m : machine) : Prop :=
  forall c, o = Some c <-> inside m c l.

Lemma owner_same l o m m' :
  owner_is l o m -> (forall c, inside m' c l <-> inside m c l) -> owner_is l o m'.
Proof. intros H E c. by rewrite E. Qed.

Lemma serial_call l o tr m c k :
  minv m -> running m c = None -> serial l o tr -> owner_is l o m ->
  let m' := Machine (mem m) (<[c := Some (k, body c k)]> (running m)) (held m) in
  exists o', serial l o' (option_list (called c k (held m c)) ++ tr) /\ owner_is l o' m'.
Proof.
  intros I E Hs Ho m'.
  assert (K : forall c', inside m' c' l <-> inside m c' l /\ (c = c' -> k ≠ Release l)).
  { intros c'. unfold inside, m'. simpl. rewrite insert_view. case_decide; subst; [|naive_solver].
    rewrite E. split; [intros [H H']|naive_solver]. split_and!; [done|done|]. intros _ ->. by eapply H'. }
  destruct k as [l'|l']; simpl.
  { exists o. split; [done|]. eapply owner_same; [done|]. intros c'. rewrite K. naive_solver. }
  destruct (decide (l = l')) as [<-|n].
  - case_decide as Hl; simpl.
    + assert (Hi : inside m c l) by (split; [done|intros p; by rewrite E]).
      exists None. split; [apply serial_released; by rewrite (proj2 (Ho c) Hi) in Hs|].
      intros c'. rewrite K. split; [done|]. intros [Hi' n]. destruct (n (inside_unique _ _ _ _ I Hi Hi')). done.
    + exists o. split; [done|]. eapply owner_same; [done|]. intros c'. rewrite K. split; [naive_solver|].
      intros Hi. split; [done|]. intros <-. by destruct Hi.
  - exists o. split; [case_decide; simpl; by (apply serial_released_ne || idtac)|].
    eapply owner_same; [done|]. intros c'. rewrite K. naive_solver.
Qed.

Lemma serial_return l o tr m c k :
  minv m -> running m c = Some (k, Done tt) -> serial l o tr -> owner_is l o m ->
  let m' := Machine (mem m) (<[c := None]> (running m)) (<[c := after k (held m c)]> (held m)) in
  exists o', serial l o' (option_list (returned c k) ++ tr) /\ owner_is l o' m'.
Proof.
  intros I E Hs Ho m'. assert (I' : minv m') by (eapply minv_step; [by apply step_return|done]).
  assert (K : forall c', inside m' c' l <-> l ∈ (if decide (c = c') then after k (held m c) else held m c') /\
    (c ≠ c' -> inside m c' l)).
  { intros c'. unfold inside, m'. simpl. rewrite !insert_view. case_decide; subst; naive_solver. }
  destruct k as [l'|l']; simpl in *.
  - destruct (decide (l = l')) as [<-|n].
    + assert (Hi : inside m' c l) by (apply K; rewrite decide_True by done; set_solver).
      exists (Some c). split.
      * apply serial_acquired. destruct o as [c'|]; [|done]. assert (Hi' := proj1 (Ho c') eq_refl).
        destruct (decide (c = c')) as [<-|n].
        -- destruct I as (g & I & C). specialize (C c). unfold cpu_inv in C. rewrite E in C.
           destruct C as [_ [Hm _]]. destruct Hm. apply Hi'.
        -- exfalso. apply n, (inside_unique _ _ _ l I' Hi). apply K. rewrite decide_False by done.
           split; [apply Hi'|done].
      * intros c'. split; [by intros [= <-]|]. intros Hi'. f_equal. by apply (inside_unique _ _ _ l I' Hi).
    + exists o. split; [by apply serial_acquired_ne|]. eapply owner_same; [done|]. intros c'. rewrite K.
      unfold inside. case_decide; subst; [rewrite E; set_solver|naive_solver].
  - exists o. split; [done|]. eapply owner_same; [done|]. intros c'. rewrite K.
    unfold inside. case_decide; subst; [rewrite E|naive_solver]. split.
    + intros [H _]. split; [set_solver|]. intros p [= ->]. set_solver.
    + intros [H H']. split; [|done]. assert (l' ≠ l) by (intros ->; by eapply H'). set_solver.
Qed.

Lemma serial_run l tr m : run (boot base) tr m -> exists o, serial l o tr /\ owner_is l o m.
Proof.
  intros H. remember (boot base) as m0. induction H as [|m0 tr m e m' H IH Hst]; subst.
  { exists None. split; [constructor|]. intros c. split; [done|]. intros [Hl _]. simpl in Hl. set_solver. }
  specialize (IH eq_refl). destruct IH as (o & Hs & Ho). assert (I := minv_run _ _ H).
  destruct Hst as [m c k E|m c k B op f b s E Eo|m c k E|m c l' E Hl].
  - by apply (serial_call l o).
  - exists o. split; [done|]. eapply owner_same; [done|]. intros c'. unfold inside. simpl. rewrite insert_view.
    case_decide; subst; [|done]. rewrite E. naive_solver.
  - by apply (serial_return l o).
  - exists o. split; [|done]. simpl. destruct (decide (l = l')) as [<-|n]; [|by apply serial_access_ne].
    assert (Hi : inside m c l) by (split; [done|intros p; by rewrite E]). apply Ho in Hi as ->. by apply serial_access.
Qed.

(** C4: in every execution of any number of processors that call acquire and
    release as they like, the critical sections of a lock come one after the
    other: between the return of acquire on one processor and its call of
    release no other processor accesses the data of the lock. *)
Theorem critical_sections_serial tr m l :
  run (boot base) tr m ->
  exists o, serial l o tr /\ (forall c, o = Some c <-> inside m c l) /\
            forall c c', inside m c l -> inside m c' l -> c = c'.
Proof.
  intros H. destruct (serial_run l _ _ H) as (o & Hs & Ho). exists o. split; [done|]. split; [done|].
  intros c c'. apply inside_unique, (minv_run _ _ H).
Qed.

(** A processor in a critical section has interrupts off, and one that
    holds no lock has them as they were before; acquire of a lock that the
    processor holds and release of a lock that it does not hold never return,
    and these are the only calls that panic. *)
Theorem spinlock_discipline tr m c :
  run (boot base) tr m ->
  (forall l, inside m c l -> cpu_if (sm_cpu (mem m) c) = false) /\
  (running m c = None -> held m c = ∅ -> sm_cpu (mem m) c = Cpu (base c) 0 (cpu_intena (sm_cpu (mem m) c))) /\
  (forall k, running m c = Some (k, Done tt) -> ~ misuse k (held m c)) /\
  (forall k B (op : M smem B) f msg, running m c = Some (k, Act op f) -> op (mem m) = Panic msg ->
     misuse k (held m c)).
Proof.
  intros H. destruct (minv_run _ _ H) as (g & I & C). destruct (c_cpu _ _ _ I c) as (Hd & Hn & Hi).
  split_and!.
  - intros l Hl. destruct (inside_mark _ _ _ _ C Hl) as [_ Hp]. rewrite decide_False in Hi by lia. apply Hi.
  - intros E Eh. specialize (C c). unfold cpu_inv in C. rewrite E, Eh in C. 
    assert (Hz : v_depth (g c) = 0) by (by rewrite C).
    rewrite Hz in Hn, Hi. rewrite decide_True in Hi by done. destruct (sm_cpu (mem m) c). simpl in *. congruence.
  - intros k E. specialize (C c). unfold cpu_inv in C. rewrite E in C. apply C.
  - intros k B op f msg E Ep. specialize (C c). unfold cpu_inv in C. rewrite E in C. destruct C as [HK C].
    specialize (C _ _ I eq_refl HK). by rewrite Ep in C.
Qed.
End proofs.

(** ** Schedules, for concrete executions *)

Inductive action := Call (c : nat) (k : call) | Go (c : nat) | Touch (c l : nat).

Definition act_on (a : action) (m : machine) : option (option event * machine) :=
  match a with
  | Call c k =>
      match running m c with
      | None => Some (called c k (held m c),
                      Machine (mem m) (<[c := Some (k, body c k)]> (running m)) (held m))
      | Some _ => None
      end
  | Go c =>
      match running m c with
      | Some (k, Act op f) =>
          match op (mem m) with
          | Ret b s => Some (None, Machine s (<[c := Some (k, f b)]> (running m)) (held m))
          | _ => None
          end
      | Some (k, Done _) =>
          Some (returned c k,
                Machine (mem m) (<[c := None]> (running m)) (<[c := after k (held m c)]> (held m)))
      | None => None
      end
  | Touch c l =>
      match running m c with
      | None => if decide (l ∈ held m c) then Some (Some (Access c l), m) else None
      | Some _ => None
      end
  end.

Fixpoint play (sched : list action) (tr : list event) (m : machine) : option (list event * machine) :=
  match sched with
  | [] => Some (tr, m)
  | a :: sched' => '(e, m') ← act_on a m; play sched' (option_list e ++ tr) m'
  end.

Lemma act_on_step a m e m' : act_on a m = Some (e, m') -> step m e m'.
Proof.
  destruct a as [c k|c|c l]; simpl; destruct (running m c) as [[k' p]|] eqn:E; intros H; simplify_eq.
  - by apply step_call.
  - destruct p as [[]|B op f]; simplify_eq; [by apply step_return|].
    destruct (op (mem m)) eqn:Eo; simplify_eq. by eapply step_op.
  - case_decide; simplify_eq. by apply step_access.
Qed.

Lemma play_run m0 sched tr m tr' m' : run m0 tr m -> play sched tr m = Some (tr', m') -> run m0 tr' m'.
Proof.
  revert tr m. induction sched as [|a sched IH]; intros tr m Hr H; simpl in H; [by simplify_eq|].
  destruct (act_on a m) as [[e m1]|] eqn:Ea; simpl in H; [|done]. eapply IH, H.
  eapply run_cons; [done|]. by apply act_on_step with a.
Qed.

End locks.

(** Processor 0 acquires lock 3 and processor 1 waits for it; 0 accesses the
    data and releases, and 1 acquires, while 0 is still in [release]. *)
Definition demo_sched : list action :=
  [Call 0 (Acquire 3)] ++ replicate 9 (Go 0) ++ [Call 1 (Acquire 3)] ++ replicate 6 (Go 1) ++
  [Touch 0 3; Call 0 (Release 3)] ++ replicate 8 (Go 0) ++ replicate 5 (Go 1) ++
  [Go 0; Touch 1 3; Go 0].

Definition demo_tr : list event :=
  [Access 1 3; Acquired 1 3; Released 0 3; Access 0 3; Acquired 0 3].

Definition demo_play : option (list event * machine) :=
  play (fun _ => 0) 0 demo_sched [] (boot (fun _ => true)).

Lemma demo_events : fst <$> demo_play = Some demo_tr.
Proof. vm_compute. reflexivity. Qed.

Lemma critical_sections_serial_witness :
  exists m o, run (fun _ => 0) 0 (boot (fun _ => true)) demo_tr m /\ serial 3 o demo_tr /\
              (forall c, o = Some c <-> inside m c 3).
Proof.
  assert (D := demo_events). destruct demo_play as [[tr m]|] eqn:E; [|done]. injection D as ->.
  assert (R := play_run _ _ _ _ _ _ _ _ (run_nil _ _ _) E).
  destruct (critical_sections_serial _ _ _ _ _ 3 R) as (o & H & H' & _).
  exists m, o. exact (conj R (conj H H')).
Defined.

Lemma spinlock_discipline_witness :
  exists m, run (fun _ => 0) 0 (boot (fun _ => true)) demo_tr m /\
            (forall l, inside m 1 l -> cpu_if (sm_cpu (mem m) 1) = false).
Proof.
  assert (D := demo_events). destruct demo_play as [[tr m]|] eqn:E; [|done]. injection D as ->.
  assert (R := play_run _ _ _ _ _ _ _ _ (run_nil _ _ _) E).
  destruct (spinlock_discipline _ _ _ _ _ 1 R) as (H & _).
  exists m. exact (conj R H).
Defined.
