(* ===== verification/Kalloc.v ===== *)
(** * The physical page allocator (kalloc.c)

    Free pages form a list that is threaded through their first words.  The
    allocator refines a list of free pages: [kalloc] takes its head and
    [kfree] puts a page at its head.  Clients may write to the pages they
    own; since these are not free, the list is never damaged. *)

From S2P Require Import Prelude Param Layout Cstring Mmu.

Section kalloc.
(** [end], the first address after the kernel, is set by the linker. *)
Context (kend : Z).

Record kmem := Kmem {
  freelist : Z;
  use_lock : bool;
  mem : memory
}.

Definition set_freelist v k := Kmem v (use_lock k) (mem k).
Definition set_use_lock v k := Kmem (freelist k) v (mem k).
Definition set_mem v k := Kmem (freelist k) (use_lock k) v.

Definition kfree (v : Z) : M kmem unit :=
  if negb (v mod PGSIZE =? 0) || (v <? kend) || (PHYSTOP <=? V2P v) then panic "kfree"
  else
    modify (fun k => set_mem (<[v := memset (page_at (mem k) v) 0 1 PGSIZE]> (mem k)) k);;
    modify (fun k => set_mem (st32 (mem k) v (freelist k)) k);;
    modify (set_freelist v).

Definition kalloc : M kmem Z :=
  k ← get;
  let r := freelist k in
  (if negb (r =? 0) then modify (set_freelist (ld32 (mem k) r)) else mret tt);;
  mret r.

(** The loop of [freerange]; [vend / PGSIZE] bounds the number of pages. *)
Fixpoint freerange_from (fuel : nat) (p vend : Z) : M kmem unit :=
  if u32 (p + PGSIZE) <=? vend then
    match fuel with
    | O => out_of_fuel
    | S fuel' => kfree p;; freerange_from fuel' (u32 (p + PGSIZE)) vend
    end
  else mret tt.

Definition freerange (vstart vend : Z) : M kmem unit :=
  freerange_from (Z.to_nat (vend / PGSIZE)) (PGROUNDUP vstart) vend.

Definition kinit1 (vstart vend : Z) : M kmem unit :=
  modify (set_use_lock false);; freerange vstart vend.

Definition kinit2 (vstart vend : Z) : M kmem unit :=
  freerange vstart vend;; modify (set_use_lock true).

(** ** The free list *)

(** A page that [kfree] accepts. *)
Definition allocatable (v : Z) : Prop := page_aligned v /\ kend <= v /\ KERNBASE <= v < KERNBASE + PHYSTOP.

(** The pages [l] are linked from [h]. *)
Fixpoint chain (m : memory) (h : Z) (l : list Z) : Prop :=
  match l with
  | [] => h = 0
  | p :: l' => h = p /\ chain m (ld32 m p) l'
  end.

Record kmem_rep (k : kmem) (l : list Z) : Prop := {
  kr_chain : chain (mem k) (freelist k) l;
  kr_nodup : NoDup l;
  kr_pages : Forall allocatable l;
  kr_mem : mem_wf (mem k)
}.

Lemma chain_ext m m' h l : (forall p, p ∈ l -> page_at m' p = page_at m p) -> Forall allocatable l ->
  chain m h l -> chain m' h l.
Proof.
  revert h. induction l as [|p l IH]; intros h E F; [done|]. inversion F as [|? ? [Ha _] F']; subst. intros [-> C].
  split; [done|]. apply IH; [intros q Hq; apply E; by right|done|].
  destruct (aligned_round p Ha) as [E1 E2]. unfold ld32 in *. rewrite E1 in *. rewrite E by (left; done). done.
Qed.

Lemma memset_page p c : is_page p -> memset p 0 c PGSIZE = replicate 4096 (u8 c).
Proof.
  intros [Hl Hp]. unfold PGSIZE in *. rewrite memset_blit by lia.
  change 4096%nat with (Z.to_nat 4096). apply blit_all. rewrite length_replicate. unfold zlen in Hl. lia.
Qed.

Lemma chain_head m h l : Forall allocatable l -> chain m h l -> is_u32 h.
Proof.
  destruct l as [|p l]; intros F C; [simpl in C; subst; mlia|]. destruct C as [-> _].
  inversion F as [|? ? (_ & _ & H) _]; subst. unfold KERNBASE, PHYSTOP in H. mlia.
Qed.

Lemma chain_nil m h l : Forall allocatable l -> chain m h l -> h = 0 <-> l = [].
Proof.
  destruct l as [|p l]; intros F C; [done|]. destruct C as [-> _]. split; [|done]. intros ->.
  inversion F as [|? ? (_ & _ & H) _]; subst. unfold KERNBASE in H. lia.
Qed.

(** A page of the allocator is written as a whole. *)
Lemma mem_wf_insert m v p : mem_wf m -> is_page p -> mem_wf (<[v := p]> m).
Proof. intros W P. by apply map_Forall_insert_2. Qed.

Lemma wp_kfree v k l : kmem_rep k l -> allocatable v -> v ∉ l ->
  wp (kfree v) (fun _ k' => kmem_rep k' (v :: l) /\ use_lock k' = use_lock k /\
    forall a, a ≠ v -> page_at (mem k') a = page_at (mem k) a) k.
Proof.
  intros [C N F W] Hv Hn. assert (Hu := chain_head _ _ _ F C). destruct Hv as (Ha & He & Hr).
  destruct (aligned_round v Ha) as [E1 E2]. unfold kfree. rewrite E2. unfold V2P. rewrite u32_id by (unfold KERNBASE, PHYSTOP in *; mlia).
  destruct (Z.ltb_spec v kend); [lia|]. destruct (Z.leb_spec PHYSTOP (v - KERNBASE)); [lia|]. simpl.
  repeat wp_step. rewrite memset_page by (by apply page_at_ok). change (u8 1) with 1. unfold st32. rewrite E1, E2. simpl.
  rewrite page_at_insert, decide_True by done. rewrite insert_insert_eq.
  assert (P : is_page (put32 (replicate 4096 1) 0 (freelist k))).
  { apply blit_page; try done; [|apply le_bytes_u8]. split; [done|]. apply Forall_replicate. mlia. }
  assert (X : forall a, a ≠ v -> page_at (<[v := put32 (replicate 4096 1) 0 (freelist k)]> (mem k)) a = page_at (mem k) a).
  { intros a Hne. rewrite page_at_insert. by rewrite decide_False. }
  split; [|done]. split; simpl.
  - split; [done|]. unfold ld32. rewrite E1, E2, page_at_insert, decide_True by done.
    rewrite get32_put32 by done. rewrite u32_id by done.
    eapply chain_ext; [|exact F|exact C]. intros p Hp. apply X. by intros ->.
  - by constructor.
  - by constructor.
  - by apply mem_wf_insert.
Qed.

Lemma wp_kalloc k l : kmem_rep k l ->
  wp kalloc (fun p k' => mem k' = mem k /\ use_lock k' = use_lock k /\
    match l with [] => p = 0 /\ kmem_rep k' [] | q :: l' => p = q /\ kmem_rep k' l' end) k.
Proof.
  intros [C N F W]. assert (Z0 := chain_nil _ _ _ F C). unfold kalloc. wp_step. wp_step. wp_step.
  destruct (Z.eqb_spec (freelist k) 0) as [E|E]; simpl.
  - wp_step. wp_step. split; [done|]. split; [done|]. rewrite (proj1 Z0 E). split; [done|]. rewrite (proj1 Z0 E) in *. by split.
  - wp_step. wp_step. split; [done|]. split; [done|]. destruct l as [|q l]; [by destruct E; apply Z0|].
    destruct C as [-> C]. split; [done|]. apply NoDup_cons in N as [_ N]. inversion F; subst. by split.
Qed.

(** The pages from [p] on. *)
Definition pages_from (p : Z) (n : nat) : list Z := (fun i => p + PGSIZE * Z.of_nat i) <$> seq 0 n.

Lemma pages_from_S p n : pages_from p (S n) = p :: pages_from (p + PGSIZE) n.
Proof.
  unfold pages_from. simpl. rewrite Z.mul_0_r, Z.add_0_r. f_equal. rewrite <- fmap_S_seq, <- list_fmap_compose.
  apply list_fmap_ext. intros i x _. simpl. lia.
Qed.

Lemma elem_of_pages_from p n a : a ∈ pages_from p n <-> exists i, (i < n)%nat /\ a = p + PGSIZE * Z.of_nat i.
Proof.
  unfold pages_from. rewrite list_elem_of_fmap. setoid_rewrite elem_of_seq.
  split; [intros (i & -> & Hi)|intros (i & Hi & ->)]; exists i; (split; [lia|done]) || (split; [done|lia]).
Qed.

Lemma wp_freerange_from n fuel p vend k l :
  kmem_rep k l -> page_aligned p -> kend <= p -> KERNBASE <= p -> vend <= KERNBASE + PHYSTOP ->
  p + PGSIZE * Z.of_nat n <= vend < p + PGSIZE * Z.of_nat n + PGSIZE -> (n <= fuel)%nat ->
  (forall a, a ∈ l -> a ∉ pages_from p n) ->
  wp (freerange_from fuel p vend) (fun _ k' => kmem_rep k' (reverse (pages_from p n) ++ l) /\ use_lock k' = use_lock k) k.
Proof.
  revert fuel p k l. induction n as [|n IH]; intros fuel p k l R Ha Hk Hb Hv Hn Hf Hd.
  all: assert (Eu : u32 (p + PGSIZE) = p + PGSIZE) by (unfold KERNBASE, PHYSTOP, PGSIZE in *; mlia).
  - destruct fuel; cbn [freerange_from]; rewrite Eu; destruct (Z.leb_spec (p + PGSIZE) vend); try lia; by wp_step.
  - destruct fuel as [|fuel]; [lia|]. cbn [freerange_from]. rewrite Eu. unfold PGSIZE in *.
    destruct (Z.leb_spec (p + 4096) vend); [|lia]. wp_step.
    rewrite pages_from_S in *. assert (Hp : p ∉ l) by (intros X; apply (Hd p X); by left).
    eapply wp_mono; [apply (wp_kfree p k l R); [split; [done|unfold PHYSTOP in *; lia]|done]|]. intros _ k1 (R1 & U1 & _).
    eapply wp_mono; [apply (IH fuel (p + 4096) k1 (p :: l) R1); try lia|].
    + unfold page_aligned, PGSIZE in *. mlia.
    + intros a Hm X. apply elem_of_cons in Hm as [->|Hm]; [|apply (Hd a Hm); by right].
      apply elem_of_pages_from in X as (i & Hi & X). unfold PGSIZE in X. lia.
    + intros _ k' [R' U']. rewrite reverse_cons, <- app_assoc. split; [done|congruence].
Qed.

Lemma wp_freerange vstart vend k l (n : nat) :
  kmem_rep k l -> KERNBASE <= vstart -> kend <= PGROUNDUP vstart -> vstart <= vend <= KERNBASE + PHYSTOP -> page_aligned vend ->
  PGROUNDUP vstart + PGSIZE * Z.of_nat n = vend -> (forall a, a ∈ l -> a ∉ pages_from (PGROUNDUP vstart) n) ->
  wp (freerange vstart vend) (fun _ k' => kmem_rep k' (reverse (pages_from (PGROUNDUP vstart) n) ++ l) /\ use_lock k' = use_lock k) k.
Proof.
  intros R Hb Hk Hv Ha Hn Hd. assert (Ep : PGROUNDUP vstart = (vstart + PGSIZE - 1) / PGSIZE * PGSIZE).
  { apply PGROUNDUP_eq. unfold KERNBASE, PHYSTOP, PGSIZE in *. lia. }
  unfold freerange. apply wp_freerange_from; try done; unfold page_aligned, PGSIZE, KERNBASE, PHYSTOP in *; rewrite ?Ep in *; mlia.
Qed.

(** ** Allocation in any order *)

(** The calls of [kinit1] and [kinit2] in [main]. *)
Definition boot_alloc : M kmem unit :=
  kinit1 kend (P2V (4 * 1024 * 1024));;
  kinit2 (P2V (4 * 1024 * 1024)) (P2V PHYSTOP).

(** The allocator with the pages that the kernel holds.  A step allocates or
    frees a page, or writes to a page that is held. *)
Record ksys := KSys { ks : kmem; owned : gset Z }.

Inductive kstep : ksys -> ksys -> Prop :=
| kstep_alloc s p k' :
    kalloc (ks s) = Ret p k' -> p ≠ 0 -> kstep s (KSys k' ({[p]} ∪ owned s))
| kstep_none s k' :
    kalloc (ks s) = Ret 0 k' -> kstep s (KSys k' (owned s))
| kstep_free s p k' :
    p ∈ owned s -> kfree p (ks s) = Ret tt k' -> kstep s (KSys k' (owned s ∖ {[p]}))
| kstep_write s p pg :
    p ∈ owned s -> is_page pg -> kstep s (KSys (set_mem (<[p := pg]> (mem (ks s))) (ks s)) (owned s)).

(** Every page is either free or held, not both. *)
Definition ksys_inv (s : ksys) : Prop :=
  exists l, kmem_rep (ks s) l /\ (forall a, a ∈ l -> a ∉ owned s) /\ (forall a, a ∈ l \/ a ∈ owned s <-> allocatable a).

Lemma kmem_rep_write k l p pg : kmem_rep k l -> p ∉ l -> is_page pg -> kmem_rep (set_mem (<[p := pg]> (mem k)) k) l.
Proof.
  intros [C N F W] Hp Hg. split; simpl; [|done|done|by apply mem_wf_insert].
  eapply chain_ext; [|exact F|exact C]. intros q Hq. rewrite page_at_insert. rewrite decide_False; [done|]. by intros ->.
Qed.

Lemma kstep_inv s s' : kstep s s' -> ksys_inv s -> ksys_inv s'.
Proof.
  intros St (l & R & D & A). destruct St as [s p k' E Hp|s k' E|s p k' Ho E|s p pg Ho Hg]; unfold ksys_inv; simpl.
  - assert (X := wp_kalloc _ _ R). unfold wp in X. rewrite E in X. destruct X as (_ & _ & X).
    destruct l as [|q l]; [by destruct X|]. destruct X as [-> X]. exists l. split; [done|].
    assert (Nq := kr_nodup _ _ R). apply NoDup_cons in Nq as [Nq _]. split.
    + intros a Ha. rewrite not_elem_of_union, not_elem_of_singleton. split; [by intros ->|]. apply D. by right.
    + intros a. rewrite <- A, elem_of_cons, elem_of_union, elem_of_singleton. tauto.
  - assert (X := wp_kalloc _ _ R). unfold wp in X. rewrite E in X. destruct X as (_ & _ & X).
    destruct l as [|q l]; [destruct X as [_ X]; by exists []|]. destruct X as [<- _].
    assert (F := kr_pages _ _ R). inversion F as [|? ? (_ & _ & H) _]. unfold KERNBASE in H. lia.
  - assert (Hv : allocatable p) by (apply A; by right). assert (Hn : p ∉ l) by (intros X; by apply D in X).
    assert (X := wp_kfree p _ _ R Hv Hn). unfold wp in X. rewrite E in X. destruct X as (X & _ & _).
    exists (p :: l). split; [done|]. split.
    + intros a Ha. rewrite elem_of_difference, elem_of_singleton. apply elem_of_cons in Ha as [->|Ha]; [tauto|].
      apply D in Ha. tauto.
    + intros a. rewrite <- A, elem_of_cons, elem_of_difference, elem_of_singleton.
      destruct (decide (a = p)) as [->|]; tauto.
  - exists l. split; [|done]. apply kmem_rep_write; [done| |done]. intros X. by apply D in X.
Qed.

(** The pages that [kinit1] and [kinit2] free are all the pages that
    [kfree] accepts. *)
Lemma boot_pages (n1 : nat) a : kend + PGSIZE <= KERNBASE + 4 * 1024 * 1024 -> KERNBASE <= kend ->
  PGROUNDUP kend + PGSIZE * Z.of_nat n1 = KERNBASE + 4 * 1024 * 1024 ->
  a ∈ pages_from (PGROUNDUP kend) n1 \/ a ∈ pages_from (KERNBASE + 4 * 1024 * 1024) (Z.to_nat 56320) <-> allocatable a.
Proof.
  intros He Hb Hn. assert (Ep : PGROUNDUP kend = (kend + PGSIZE - 1) / PGSIZE * PGSIZE).
  { apply PGROUNDUP_eq. unfold KERNBASE, PGSIZE in *. lia. }
  rewrite !elem_of_pages_from. unfold allocatable, page_aligned. split.
  - intros [(i & Hi & ->)|(i & Hi & ->)]; unfold KERNBASE, PHYSTOP, PGSIZE in *; rewrite ?Ep in *; mlia.
  - intros (Ha & Hk & Hr). destruct (decide (a < KERNBASE + 4 * 1024 * 1024)); [left; exists (Z.to_nat ((a - PGROUNDUP kend) / PGSIZE))
      |right; exists (Z.to_nat ((a - (KERNBASE + 4 * 1024 * 1024)) / PGSIZE))];
      unfold KERNBASE, PHYSTOP, PGSIZE in *; rewrite ?Ep in *; mlia.
Qed.

Lemma wp_boot_alloc k : freelist k = 0 -> mem_wf (mem k) -> KERNLINK <= kend -> kend + PGSIZE <= KERNBASE + 4 * 1024 * 1024 ->
  wp boot_alloc (fun _ k' => ksys_inv (KSys k' ∅)) k.
Proof.
  intros Hf W Hb He. unfold KERNLINK, EXTMEM in Hb. assert (Ep : PGROUNDUP kend = (kend + PGSIZE - 1) / PGSIZE * PGSIZE).
  { apply PGROUNDUP_eq. unfold KERNBASE, PGSIZE in *. lia. }
  pose (n1 := Z.to_nat ((KERNBASE + 4 * 1024 * 1024 - PGROUNDUP kend) / PGSIZE)).
  assert (Hn : PGROUNDUP kend + PGSIZE * Z.of_nat n1 = KERNBASE + 4 * 1024 * 1024)
    by (unfold n1, KERNBASE, PGSIZE in *; rewrite Ep; mlia).
  assert (Hp := boot_pages n1). unfold boot_alloc, kinit1, kinit2.
  change (P2V (4 * 1024 * 1024)) with (KERNBASE + 4 * 1024 * 1024). change (P2V PHYSTOP) with (KERNBASE + PHYSTOP).
  repeat wp_step. set (k1 := set_use_lock false k).
  assert (R0 : kmem_rep k1 []) by (split; simpl; [done|constructor|done|done]).
  eapply wp_mono; [apply (wp_freerange _ _ k1 [] n1 R0); try done|].
  1-3: unfold page_aligned, KERNBASE, PHYSTOP, PGSIZE in *; rewrite ?Ep; mlia.
  1: by intros a ?%elem_of_nil.
  intros _ k2 [R2 _]. wp_step.
  assert (E4 : PGROUNDUP (KERNBASE + 4 * 1024 * 1024) = KERNBASE + 4 * 1024 * 1024) by reflexivity.
  eapply wp_mono; [apply (wp_freerange _ _ k2 _ (Z.to_nat 56320) R2); rewrite ?E4; try done|].
  1: unfold KERNBASE, PHYSTOP, PGSIZE in *; lia.
  { intros a Ha X. rewrite app_nil_r, elem_of_reverse in Ha. apply elem_of_pages_from in Ha as (i & Hi & ->).
    apply elem_of_pages_from in X as (j & Hj & X). unfold PGSIZE in *. lia. }
  intros _ k3 [R3 _]. wp_step. eexists. split; [destruct R3; split; done|]. split; [intros a _; apply not_elem_of_empty|].
  intros a. assert (Z0 := not_elem_of_empty (C := gset Z) a). rewrite <- Hp by (unfold KERNBASE in *; lia). rewrite E4, app_nil_r, elem_of_app, !elem_of_reverse. simpl. tauto.
Qed.

(** C36: the page allocator is safe and complete.  After [kinit1] and
    [kinit2], in whatever order pages are allocated, written and freed by
    their holders: [kalloc] returns a page-aligned page of physical memory
    that nobody holds, and fails only when every page is held; [kfree] of a
    held page never panics; and neither changes the contents of a page that
    somebody else holds. *)
Theorem kalloc_safe k0 :
  freelist k0 = 0 -> mem_wf (mem k0) -> KERNLINK <= kend -> kend + PGSIZE <= KERNBASE + 4 * 1024 * 1024 ->
  wp boot_alloc (fun _ k => forall s, rtc kstep (KSys k ∅) s ->
    wp kalloc (fun p k' => mem k' = mem (ks s) /\
      if p =? 0 then forall a, allocatable a -> a ∈ owned s else allocatable p /\ p ∉ owned s) (ks s) /\
    forall p, p ∈ owned s ->
      wp (kfree p) (fun _ k' => forall a, a ∈ owned s -> a ≠ p -> page_at (mem k') a = page_at (mem (ks s)) a) (ks s)) k0.
Proof.
  intros Hf W Hb He. eapply wp_mono; [by apply wp_boot_alloc|]. intros [] k I s Hs.
  assert (I' : ksys_inv s) by (eapply rtc_invariant; [apply kstep_inv|exact Hs|exact I]).
  destruct I' as (l & R & D & A). split.
  - eapply wp_mono; [by apply wp_kalloc|]. intros p k' (Em & _ & X). split; [done|]. destruct l as [|q l]; destruct X as [-> _].
    + simpl. intros a Ha. apply A in Ha as [Ha|Ha]; [by apply elem_of_nil in Ha|done].
    + assert (Hq : allocatable q) by (apply A; left; by left). destruct (Z.eqb_spec q 0) as [->|].
      * destruct Hq as (_ & _ & Hq). unfold KERNBASE in Hq. lia.
      * split; [done|]. apply D. by left.
  - intros p Hp. eapply wp_mono; [apply (wp_kfree p _ l R)|].
    + apply A. by right.
    + intros X. by apply D in X.
    + intros _ k' (_ & _ & E) a _ Hne. by apply E.
Qed.
End kalloc.

Lemma kalloc_safe_witness :
  wp (boot_alloc 0x801154a8) (fun _ k => forall s, rtc (kstep 0x801154a8) (KSys k ∅) s ->
    wp kalloc (fun p k' => if p =? 0 then forall a, allocatable 0x801154a8 a -> a ∈ owned s
      else allocatable 0x801154a8 p /\ p ∉ owned s) (ks s)) (Kmem 0 false ∅).
Proof.
  eapply wp_mono.
  - apply (kalloc_safe 0x801154a8 (Kmem 0 false ∅) eq_refl (map_Forall_empty _)); vm_compute; discriminate.
  - intros [] k H s Hs. destruct (H s Hs) as [H1 _]. eapply wp_mono; [exact H1|]. intros p k' [_ X]. exact X.
Defined.
