(* ===== verification/Vm.v ===== *)
(** * Virtual memory (vm.c)

    Page directories and page tables are pages of memory that hold 32-bit
    entries; a pointer is a kernel address.  The routines run on the memory
    and the free list of the page allocator. *)

From S2P Require Import Prelude Param Layout Cstring Mmu Kalloc.

Section vm.
(** [end] and [data] are set by the linker. *)
Context (kend data : Z).

Definition load (a : Z) : M kmem Z := gets (fun k => ld32 (mem k) a).
Definition store (a v : Z) : M kmem unit := modify (fun k => set_mem (st32 (mem k) a v) k).

(** [memset(a, 0, PGSIZE)] of a page. *)
Definition clear_page (a : Z) : M kmem unit :=
  modify (fun k => set_mem (<[a := memset (page_at (mem k) a) 0 0 PGSIZE]> (mem k)) k).

(** The test of a flag of an entry. *)
Definition has (pte flag : Z) : bool := negb (Z.land pte flag =? 0).

Definition walkpgdir (pgdir va : Z) (alloc : bool) : M kmem Z :=
  let pde := pgdir + 4 * PDX va in
  e ← load pde;
  if has e PTE_P then mret (P2V (PTE_ADDR e) + 4 * PTX va)
  else if negb alloc then mret 0
  else
    pgtab ← kalloc;
    if pgtab =? 0 then mret 0
    else
      clear_page pgtab;;
      store pde (Z.lor (Z.lor (Z.lor (V2P pgtab) PTE_P) PTE_W) PTE_U);;
      mret (pgtab + 4 * PTX va).

(** The flags are taken of the entry's address, not of the entry. *)
Definition getFlags (pgdir va : Z) : M kmem Z :=
  pte ← walkpgdir pgdir va false; mret (PTE_FLAGS pte).

Fixpoint mappages_from (fuel : nat) (pgdir a last pa perm : Z) : M kmem Z :=
  match fuel with
  | O => out_of_fuel
  | S fuel' =>
      pte ← walkpgdir pgdir a true;
      if pte =? 0 then mret (-1)
      else
        e ← load pte;
        if has e PTE_P then panic "remap"
        else
          store pte (Z.lor (Z.lor pa perm) PTE_P);;
          if a =? last then mret 0
          else mappages_from fuel' pgdir (u32 (a + PGSIZE)) last (u32 (pa + PGSIZE)) perm
  end.

(** One iteration for every page from [a] to [last]. *)
Definition mappages (pgdir va size pa perm : Z) : M kmem Z :=
  let a := PGROUNDDOWN va in
  let last := PGROUNDDOWN (u32 (va + size - 1)) in
  mappages_from (S (Z.to_nat (u32 (last - a) / PGSIZE))) pgdir a last pa perm.

Record kmap_entry := Kmap { virt : Z; phys_start : Z; phys_end : Z; kperm : Z }.

Definition kmap : list kmap_entry :=
  [ Kmap KERNBASE 0 EXTMEM PTE_W;
    Kmap KERNLINK (V2P KERNLINK) (V2P data) 0;
    Kmap data (V2P data) PHYSTOP PTE_W;
    Kmap DEVSPACE DEVSPACE 0 PTE_W ].

(** The loop of [deallocuvm] from [a]; one iteration for every page. *)
Fixpoint deallocuvm_from (fuel : nat) (pgdir a oldsz : Z) : M kmem unit :=
  if a <? oldsz then
    match fuel with
    | O => out_of_fuel
    | S fuel' =>
        pte ← walkpgdir pgdir a false;
        if pte =? 0 then
          deallocuvm_from fuel' pgdir (u32 (u32 (PGADDR (PDX a + 1) 0 0 - PGSIZE) + PGSIZE)) oldsz
        else
          e ← load pte;
          (if has e PTE_P then
             let pa := PTE_ADDR e in
             if pa =? 0 then panic "kfree"
             else kfree kend (P2V pa);; store pte 0
           else mret tt);;
          deallocuvm_from fuel' pgdir (u32 (a + PGSIZE)) oldsz
    end
  else mret tt.

Definition deallocuvm (pgdir oldsz newsz : Z) : M kmem Z :=
  if oldsz <=? newsz then mret oldsz
  else
    deallocuvm_from (Z.to_nat (oldsz / PGSIZE + 1)) pgdir (PGROUNDUP newsz) oldsz;;
    mret newsz.

(** The loop of [freevm] over the page directory. *)
Fixpoint free_tables (pgdir i : Z) (n : nat) : M kmem unit :=
  match n with
  | O => mret tt
  | S n' =>
      e ← load (pgdir + 4 * i);
      (if has e PTE_P then kfree kend (P2V (PTE_ADDR e)) else mret tt);;
      free_tables pgdir (i + 1) n'
  end.

Definition freevm (pgdir : Z) (dodeallocuvm : bool) : M kmem unit :=
  if pgdir =? 0 then panic "freevm: no pgdir"
  else
    (if dodeallocuvm then deallocuvm pgdir KERNBASE 0;; mret tt else mret tt);;
    free_tables pgdir 0 NPDENTRIES;;
    kfree kend pgdir.

(** The loop of [setupkvm] over [kmap]. *)
Fixpoint map_kernel (pgdir : Z) (l : list kmap_entry) : M kmem Z :=
  match l with
  | [] => mret pgdir
  | k :: l' =>
      r ← mappages pgdir (virt k) (u32 (phys_end k - phys_start k)) (phys_start k) (kperm k);
      if r <? 0 then freevm pgdir false;; mret 0
      else map_kernel pgdir l'
  end.

Definition setupkvm : M kmem Z :=
  pgdir ← kalloc;
  if pgdir =? 0 then mret 0
  else
    clear_page pgdir;;
    if DEVSPACE <? P2V PHYSTOP then panic "PHYSTOP too high"
    else map_kernel pgdir kmap.

(** The loop of [allocuvm] from [a]; [newsz] and [oldsz] are those of the
    call, for the clean-up. *)
Fixpoint allocuvm_from (fuel : nat) (pgdir a oldsz newsz : Z) : M kmem Z :=
  if a <? newsz then
    match fuel with
    | O => out_of_fuel
    | S fuel' =>
        m ← kalloc;
        if m =? 0 then deallocuvm pgdir newsz oldsz;; mret 0
        else
          clear_page m;;
          r ← mappages pgdir a PGSIZE (V2P m) (Z.lor PTE_W PTE_U);
          if r <? 0 then deallocuvm pgdir newsz oldsz;; kfree kend m;; mret 0
          else allocuvm_from fuel' pgdir (u32 (a + PGSIZE)) oldsz newsz
    end
  else mret newsz.

Definition allocuvm (pgdir oldsz newsz : Z) : M kmem Z :=
  if KERNBASE <=? newsz then mret 0
  else if newsz <? oldsz then mret oldsz
  else allocuvm_from (Z.to_nat (newsz / PGSIZE + 1)) pgdir (PGROUNDUP oldsz) oldsz newsz.

(** [init] are the [sz] bytes at the address [init]. *)
Definition inituvm (pgdir : Z) (init : list Z) (sz : Z) : M kmem unit :=
  if PGSIZE <=? sz then panic "inituvm: more than a page"
  else
    m ← kalloc;
    clear_page m;;
    mappages pgdir 0 PGSIZE (V2P m) (Z.lor PTE_W PTE_U);;
    modify (fun k => set_mem (<[m := blit (page_at (mem k) m) 0 (slice init 0 sz)]> (mem k)) k).

Definition clearpteu (pgdir uva : Z) : M kmem unit :=
  pte ← walkpgdir pgdir uva false;
  if pte =? 0 then panic "clearpteu"
  else e ← load pte; store pte (Z.land e (Z.lnot PTE_U)).

(** The loop of [copyuvm] from page [i] into the directory [d]. *)
Fixpoint copyuvm_from (fuel : nat) (pgdir d i sz : Z) : M kmem Z :=
  if i <? sz then
    match fuel with
    | O => out_of_fuel
    | S fuel' =>
        pte ← walkpgdir pgdir i false;
        e ← (if pte =? 0 then mret 0 else load pte);
        if negb (pte =? 0) && has e PTE_P then
          let pa := PTE_ADDR e in
          let flags := PTE_FLAGS e in
          m ← kalloc;
          if m =? 0 then freevm d true;; mret 0
          else
            modify (fun k => set_mem (<[m := page_at (mem k) (P2V pa)]> (mem k)) k);;
            r ← mappages d i PGSIZE (V2P m) flags;
            if r <? 0 then kfree kend m;; freevm d true;; mret 0
            else copyuvm_from fuel' pgdir d (u32 (i + PGSIZE)) sz
        else copyuvm_from fuel' pgdir d (u32 (i + PGSIZE)) sz
    end
  else mret d.

Definition copyuvm (pgdir sz : Z) : M kmem Z :=
  d ← setupkvm;
  if d =? 0 then mret 0
  else copyuvm_from (Z.to_nat (sz / PGSIZE + 1)) pgdir d 0 sz.

(** When there is no page table, [pte] is null and the code reads the word
    at virtual address 0 of the running address space, [word0]. *)
Definition uva2ka (word0 : Z) (pgdir uva : Z) : M kmem Z :=
  pte ← walkpgdir pgdir uva false;
  e ← (if pte =? 0 then mret word0 else load pte);
  if negb (has e PTE_P) then mret 0
  else if negb (has e PTE_U) then mret 0
  else mret (P2V (PTE_ADDR e)).

(** The loop of [copyout]; every iteration copies at least one byte. *)
Fixpoint copyout_from (word0 : Z) (fuel : nat) (pgdir va : Z) (p : list Z) (len : Z) : M kmem Z :=
  if 0 <? len then
    match fuel with
    | O => out_of_fuel
    | S fuel' =>
        let va0 := PGROUNDDOWN va in
        pa0 ← uva2ka word0 pgdir va0;
        if pa0 =? 0 then mret (-1)
        else
          let n := Z.min (PGSIZE - (va - va0)) len in
          modify (fun k => set_mem (<[pa0 := blit (page_at (mem k) pa0) (va - va0) (slice p 0 n)]> (mem k)) k);;
          copyout_from word0 fuel' pgdir (u32 (va0 + PGSIZE)) (drop (Z.to_nat n) p) (len - n)
    end
  else mret 0.

Definition copyout (word0 pgdir va : Z) (p : list Z) (len : Z) : M kmem Z :=
  copyout_from word0 (Z.to_nat len) pgdir va p len.
End vm.
