(* ===== verification/PageTable.v ===== *)
(** * Page tables as maps

    [pt_rep m d tabs ent]: in memory [m] the page directory [d] has the page
    tables [tabs], by directory index, and entry [ent v] for the virtual page
    number [v].  The lemmas say what [walkpgdir] and [mappages] do to this
    map and to the free list. *)

From S2P Require Import Prelude Param Layout Cstring BlockStore Mmu Kalloc Vm.

(** ** Words in memory *)

Lemma word_in_page a : 0 <= a -> a mod 4 = 0 -> 0 <= a mod PGSIZE /\ a mod PGSIZE + 4 <= PGSIZE.
Proof. unfold PGSIZE. intros. mlia. Qed.

Lemma st32_wf m a v : mem_wf m -> 0 <= a -> a mod 4 = 0 -> mem_wf (st32 m a v).
Proof.
  intros W Ha H4. assert (B := word_in_page a Ha H4). apply mem_wf_insert; [done|].
  apply blit_page; [by apply page_at_ok|lia|rewrite zlen_le4; lia|apply le_bytes_u8].
Qed.

Lemma page_at_st32 m a v p : p ≠ PGROUNDDOWN a -> page_at (st32 m a v) p = page_at m p.
Proof. intros. unfold st32. rewrite page_at_insert. by rewrite decide_False. Qed.

Lemma ld32_st32 m a v b : mem_wf m -> 0 <= a -> a mod 4 = 0 -> 0 <= b -> b mod 4 = 0 ->
  ld32 (st32 m a v) b = if decide (a = b) then u32 v else ld32 m b.
Proof.
  intros W Ha H4 Hb H4b. assert (B := word_in_page a Ha H4). assert (B' := word_in_page b Hb H4b).
  assert (P := page_at_ok m (PGROUNDDOWN a) W). destruct P as [L _].
  unfold ld32, st32. rewrite page_at_insert. case_decide as E.
  - case_decide as E2; [subst; apply get32_put32; lia|].
    rewrite !PGROUNDDOWN_eq in E. rewrite get32_put32_ne; [by rewrite !PGROUNDDOWN_eq, E|lia..|].
    unfold PGSIZE in *. clear -H4 H4b E2 E. mlia.
  - rewrite decide_False; [done|]. by intros ->.
Qed.

(** A word depends only on its page. *)
Lemma ld32_page m m' p o : page_aligned p -> 0 <= o < PGSIZE -> page_at m' p = page_at m p -> ld32 m' (p + o) = ld32 m (p + o).
Proof.
  intros Hp Ho E. unfold ld32. replace (PGROUNDDOWN (p + o)) with p; [by rewrite E|].
  rewrite PGROUNDDOWN_eq. unfold page_aligned, PGSIZE in *. mlia.
Qed.

(** ** Entries *)

Lemma has_P e : has e PTE_P = Z.odd e.
Proof.
  unfold has, PTE_P. change (Z.land e 1) with (Z.land e (Z.ones 1)). rewrite Z.land_ones by lia. change (2 ^ 1) with 2.
  rewrite Zmod_odd. by destruct (Z.odd e).
Qed.

Section pagetable.
Context (kend : Z).
Notation allocatable := (allocatable kend).
Notation kmem_rep := (kmem_rep kend).

Lemma alloc_facts t : allocatable t -> t mod PGSIZE = 0 /\ KERNBASE <= t < KERNBASE + PHYSTOP.
Proof. by intros (A & _ & B). Qed.

Lemma V2P_alloc t : allocatable t -> V2P t = t - KERNBASE /\ V2P t mod PGSIZE = 0.
Proof.
  intros (A & B)%alloc_facts. unfold V2P, KERNBASE, PHYSTOP, PGSIZE in *. rewrite u32_id by mlia.
  split; [done|]. mlia.
Qed.

(** The address in an entry for an allocated page. *)
Lemma entry_addr t f : allocatable t -> 0 <= f < PGSIZE ->
  P2V (PTE_ADDR (V2P t + f)) = t /\ PTE_FLAGS (V2P t + f) = f /\ is_u32 (V2P t + f) /\ Z.lor (V2P t) f = V2P t + f.
Proof.
  intros Ht Hf. destruct (V2P_alloc t Ht) as [E M]. destruct (alloc_facts t Ht) as [A B].
  rewrite PTE_ADDR_eq, PTE_FLAGS_eq. unfold P2V. rewrite (lor_add _ _ 12) by (lia || done).
  rewrite E in *. unfold KERNBASE, PHYSTOP, PGSIZE in *. split_and!; mlia.
Qed.

Definition pde_of (t : Z) : Z := V2P t + 7.

Lemma pde_bits t : allocatable t -> Z.lor (Z.lor (Z.lor (V2P t) PTE_P) PTE_W) PTE_U = pde_of t.
Proof.
  intros Ht. rewrite <- !Z.lor_assoc. change (Z.lor PTE_P (Z.lor PTE_W PTE_U)) with 7.
  destruct (entry_addr t 7 Ht) as (_ & _ & _ & E); [unfold PGSIZE; lia|done].
Qed.

Lemma pde_present t : allocatable t -> has (pde_of t) PTE_P = true.
Proof.
  intros Ht. rewrite has_P. unfold pde_of. destruct (V2P_alloc t Ht) as [_ M].
  rewrite Z.odd_add. change (Z.odd 7) with true. rewrite <- Z.negb_even. assert (X : Z.even (V2P t) = true); [|by rewrite X].
  apply Z.even_spec. exists (V2P t / 2). unfold PGSIZE in M. mlia.
Qed.

(** ** The representation *)

Definition vpn (va : Z) : Z := va / PGSIZE.

Record pt_rep (m : memory) (d : Z) (tabs : gmap Z Z) (ent : Z -> Z) : Prop := {
  pt_dir : allocatable d;
  pt_tab i t : tabs !! i = Some t -> 0 <= i < 1024 /\ allocatable t /\ t ≠ d /\ ld32 m (d + 4 * i) = pde_of t;
  pt_inj i j t : tabs !! i = Some t -> tabs !! j = Some t -> i = j;
  pt_none i : 0 <= i < 1024 -> tabs !! i = None -> has (ld32 m (d + 4 * i)) PTE_P = false;
  pt_ent i t j : tabs !! i = Some t -> 0 <= j < 1024 -> ld32 m (t + 4 * j) = ent (1024 * i + j);
  pt_noent i j : 0 <= i < 1024 -> tabs !! i = None -> 0 <= j < 1024 -> ent (1024 * i + j) = 0
}.

(** The pages of the directory and its tables. *)
Definition tables (d : Z) (tabs : gmap Z Z) : gset Z := {[d]} ∪ map_img tabs.

Lemma elem_of_tables d tabs a : a ∈ tables d tabs <-> a = d \/ exists i, tabs !! i = Some a.
Proof. unfold tables. by rewrite elem_of_union, elem_of_singleton, elem_of_map_img. Qed.

(** [unch X m m']: outside the pages of [X] memory is the same. *)
Definition unch (X : gset Z) (m m' : memory) : Prop := forall a, a ∉ X -> page_at m' a = page_at m a.

Lemma unch_refl X m : unch X m m.
Proof. done. Qed.

Lemma unch_trans X Y m1 m2 m3 : unch X m1 m2 -> unch Y m2 m3 -> X ⊆ Y -> unch Y m1 m3.
Proof. intros A B S a Ha. rewrite B by done. apply A. intros X'. by apply Ha, S. Qed.

Lemma pt_rep_frame m m' d tabs ent : pt_rep m d tabs ent ->
  (forall a, a ∈ tables d tabs -> page_at m' a = page_at m a) -> pt_rep m' d tabs ent.
Proof.
  intros [D T I N E O] F. assert (Fd : forall i, 0 <= i < 1024 -> ld32 m' (d + 4 * i) = ld32 m (d + 4 * i)).
  { intros i Hi. apply ld32_page; [apply D|unfold PGSIZE; lia|]. apply F, elem_of_tables. by left. }
  split; try done.
  - intros i t Ht. destruct (T i t Ht) as (A & B & C & X). by rewrite Fd.
  - intros i Hi Hn. rewrite Fd by done. by apply N.
  - intros i t j Ht Hj. rewrite <- (E i t j) by done. apply ld32_page; [by apply (T i t)|unfold PGSIZE; lia|].
    apply F, elem_of_tables. right. by exists i.
Qed.

(** The indices of an address. *)
Lemma va_indices va : is_u32 va -> 0 <= PDX va < 1024 /\ 0 <= PTX va < 1024 /\ 1024 * PDX va + PTX va = vpn va.
Proof.
  intros Hv. rewrite PDX_eq, PTX_eq. unfold vpn, PGSIZE. change (2 ^ 22) with 4194304. change (2 ^ 12) with 4096. mlia.
Qed.

Lemma vpn_of v : 0 <= v < 2 ^ 20 -> is_u32 (PGSIZE * v) /\ vpn (PGSIZE * v) = v.
Proof. change (2 ^ 20) with 1048576. unfold vpn, PGSIZE. intros. mlia. Qed.

(** ** Walking *)

(** The address of an entry. *)
Definition pte_addr (tabs : gmap Z Z) (va : Z) : Z :=
  match tabs !! PDX va with Some t => t + 4 * PTX va | None => 0 end.

Lemma load_pde k d tabs ent va : pt_rep (mem k) d tabs ent -> is_u32 va ->
  match tabs !! PDX va with
  | Some t => has (ld32 (mem k) (d + 4 * PDX va)) PTE_P = true /\ P2V (PTE_ADDR (ld32 (mem k) (d + 4 * PDX va))) = t
  | None => has (ld32 (mem k) (d + 4 * PDX va)) PTE_P = false
  end.
Proof.
  intros R Hv. destruct (va_indices va Hv) as (Hd & _). destruct (tabs !! PDX va) as [t|] eqn:E.
  - destruct (pt_tab _ _ _ _ R _ _ E) as (_ & Ht & _ & ->). split; [by apply pde_present|].
    apply entry_addr; [done|unfold PGSIZE; lia].
  - by apply (pt_none _ _ _ _ R).
Qed.

Lemma walk_lookup k d tabs ent va : pt_rep (mem k) d tabs ent -> is_u32 va ->
  walkpgdir d va false k = Ret (pte_addr tabs va) k.
Proof.
  intros R Hv. assert (L := load_pde k d tabs ent va R Hv). unfold walkpgdir, load, pte_addr, mbind, M_bind, gets.
  destruct (tabs !! PDX va) as [t|]; [destruct L as [-> ->]|rewrite L]; done.
Qed.

(** The entry of a page that has a table. *)
Lemma load_pte k d tabs ent va t : pt_rep (mem k) d tabs ent -> is_u32 va -> tabs !! PDX va = Some t ->
  ld32 (mem k) (pte_addr tabs va) = ent (vpn va) /\ pte_addr tabs va ≠ 0.
Proof.
  intros R Hv Ht. destruct (va_indices va Hv) as (Hd & Hx & <-). unfold pte_addr. rewrite Ht. split.
  - by apply (pt_ent _ _ _ _ R).
  - destruct (pt_tab _ _ _ _ R _ _ Ht) as (_ & A & _). apply alloc_facts in A as [_ A]. unfold KERNBASE in A. lia.
Qed.

Lemma no_table d tabs ent m va : pt_rep m d tabs ent -> is_u32 va -> tabs !! PDX va = None -> ent (vpn va) = 0.
Proof. intros R Hv Hn. destruct (va_indices va Hv) as (Hd & Hx & <-). by apply (pt_noent _ _ _ _ R). Qed.

(** Looking an entry up and reading it; [w] is what is used when there is no
    table. *)
Lemma wp_entry_or {A} k d tabs ent va w (f : Z -> Z -> M kmem A) Q : pt_rep (mem k) d tabs ent -> is_u32 va ->
  (tabs !! PDX va = None -> wp (f 0 w) Q k) ->
  (pte_addr tabs va ≠ 0 -> wp (f (pte_addr tabs va) (ent (vpn va))) Q k) ->
  wp (pte ← walkpgdir d va false; e ← (if pte =? 0 then mret w else load pte); f pte e) Q k.
Proof.
  intros R Hv H0 H1. wp_step. eapply wp_intro; [by eapply walk_lookup|]. wp_step.
  destruct (tabs !! PDX va) as [t|] eqn:Et.
  - destruct (load_pte _ _ _ _ _ _ R Hv Et) as [El En]. rewrite (proj2 (Z.eqb_neq _ 0)) by done. unfold load. wp_step.
    rewrite El. by apply H1.
  - unfold pte_addr. rewrite Et. simpl. wp_step. by apply H0.
Qed.

(** A directory in a memory with free list [l]. *)
Record vm_ok (k : kmem) (l : list Z) (d : Z) (tabs : gmap Z Z) (ent : Z -> Z) : Prop := {
  vo_k : kmem_rep k l;
  vo_pt : pt_rep (mem k) d tabs ent;
  vo_free a : a ∈ l -> a ∉ tables d tabs
}.

(** Tables are added from the front of the free list, and nothing else in
    memory changes. *)
Record tab_grow (d : Z) (tabs tabs' : gmap Z Z) (k k' : kmem) (l l' : list Z) : Prop := {
  tg_sub : tabs ⊆ tabs';
  tg_new : exists new, l = new ++ l' /\ tables d tabs' = tables d tabs ∪ list_to_set new;
  tg_size : (length l + size tabs = length l' + size tabs')%nat;
  tg_mem : unch (tables d tabs') (mem k) (mem k')
}.

Lemma tab_grow_refl d tabs k l : tab_grow d tabs tabs k k l l.
Proof. split; [done| |done|apply unch_refl]. exists []. split; [done|]. set_solver. Qed.

Lemma tab_grow_trans d t1 t2 t3 k1 k2 k3 l1 l2 l3 :
  tab_grow d t1 t2 k1 k2 l1 l2 -> tab_grow d t2 t3 k2 k3 l2 l3 -> tab_grow d t1 t3 k1 k3 l1 l3.
Proof.
  intros [S1 (n1 & -> & E1) Z1 U1] [S2 (n2 & -> & E2) Z2 U2]. split; [by trans t2| |lia|].
  - exists (n1 ++ n2). split; [by rewrite app_assoc|]. rewrite E2, E1, list_to_set_app_L. set_solver.
  - eapply unch_trans; [exact U1|exact U2|]. rewrite E2. set_solver.
Qed.

Lemma tables_insert d (tabs : gmap Z Z) i t : tabs !! i = None -> tables d (<[i := t]> tabs) = tables d tabs ∪ {[t]}.
Proof.
  intros Hi. apply set_eq. intros a. rewrite elem_of_union, elem_of_singleton, !elem_of_tables. split.
  - intros [->|(j & Hj)]; [tauto|]. apply lookup_insert_Some in Hj as [[_ <-]|[_ Hj]]; [tauto|]. left. right. by exists j.
  - intros [[->|(j & Hj)]| ->]; [tauto| |].
    + right. exists j. rewrite lookup_insert_ne; [done|]. intros ->. congruence.
    + right. exists i. by rewrite lookup_insert_eq.
Qed.

(** A cleared page becomes the table of an index that had none. *)
Lemma pt_add_table m d tabs ent i t : mem_wf m -> pt_rep m d tabs ent -> allocatable t -> t ∉ tables d tabs ->
  0 <= i < 1024 -> tabs !! i = None -> page_at m t = zero_page ->
  pt_rep (st32 m (d + 4 * i) (pde_of t)) d (<[i := t]> tabs) ent.
Proof.
  intros W [D T I N E O] Ht Hn Hi Hnone Hz. assert (Dd := alloc_facts d D). assert (Dt := alloc_facts t Ht).
  assert (A4 : forall p, allocatable p -> forall j, 0 <= j -> 0 <= p + 4 * j /\ (p + 4 * j) mod 4 = 0).
  { intros p Hp j Hj. apply alloc_facts in Hp. unfold KERNBASE, PGSIZE in *. mlia. }
  assert (Hu : is_u32 (pde_of t)) by (apply entry_addr; [done|unfold PGSIZE; lia]).
  assert (L : forall p j, allocatable p -> 0 <= j < 1024 -> ld32 (st32 m (d + 4 * i) (pde_of t)) (p + 4 * j) =
    if decide (d + 4 * i = p + 4 * j) then pde_of t else ld32 m (p + 4 * j)).
  { intros p j Hp Hj. rewrite ld32_st32 by (done || apply A4; done || lia). by rewrite u32_id. }
  assert (Ld : forall p j, allocatable p -> p ≠ d -> 0 <= j < 1024 -> ld32 (st32 m (d + 4 * i) (pde_of t)) (p + 4 * j) = ld32 m (p + 4 * j)).
  { intros p j Hp Hne Hj. rewrite L by done. apply alloc_facts in Hp. rewrite decide_False; [done|]. unfold PGSIZE in *. mlia. }
  rewrite elem_of_tables in Hn. split; try done.
  - intros j p [[<- <-]|[Hne Hj]]%lookup_insert_Some.
    + rewrite L by (done || lia). rewrite decide_True by done. split_and!; try done; lia.
    + destruct (T j p Hj) as (A & B & C & X). rewrite L by done. rewrite decide_False by lia. done.
  - intros j1 j2 p H1 H2. apply lookup_insert_Some in H1 as [[<- E1]|[N1 H1]], H2 as [[<- E2]|[N2 H2]]; subst; try done.
    + destruct Hn. right. by exists j2.
    + destruct Hn. right. by exists j1.
    + by apply (I j1 j2 p).
  - intros j Hj [Hjn Hne]%lookup_insert_None. rewrite L by done. rewrite decide_False by lia. by apply N.
  - intros j p x [[<- <-]|[Hne Hj]]%lookup_insert_Some Hx.
    + rewrite Ld by (done || (intros ->; tauto)). rewrite (O i x) by done. unfold ld32.
      replace (PGROUNDDOWN (t + 4 * x)) with t by (rewrite PGROUNDDOWN_eq; unfold PGSIZE in *; mlia).
      rewrite Hz. unfold get32, slice, zero_page. rewrite drop_replicate, take_replicate. apply le_word_zeros.
    + destruct (T j p Hj) as (A & B & C & X). rewrite Ld by done. by apply E.
  - intros j x Hj [Hjn Hne]%lookup_insert_None Hx. by apply O.
Qed.

(** [memset(p, 0, PGSIZE)] of a page that is not free. *)
Lemma wp_clear_page p k l Q : kmem_rep k l -> p ∉ l ->
  (forall k', kmem_rep k' l -> page_at (mem k') p = zero_page -> unch {[p]} (mem k) (mem k') -> Q tt k') ->
  wp (clear_page p) Q k.
Proof.
  intros R Hp HQ. unfold clear_page. wp_step. rewrite memset_page by apply page_at_ok, R. change (u8 0) with 0.
  apply HQ.
  - apply kmem_rep_write; [done|done|apply zero_page_ok].
  - simpl. by rewrite page_at_insert, decide_True.
  - intros a Ha. simpl. rewrite page_at_insert, decide_False; [done|set_solver].
Qed.

Lemma wp_kalloc_cases k l Q : kmem_rep k l ->
  (l = [] -> Q 0 k) ->
  (forall p l' k', l = p :: l' -> allocatable p -> p ≠ 0 -> p ∉ l' -> kmem_rep k' l' -> mem k' = mem k -> Q p k') ->
  wp kalloc Q k.
Proof.
  intros R H0 H1. assert (X := wp_kalloc _ _ _ R). unfold wp in *. destruct (kalloc k) as [p k'| | |] eqn:E; try done.
  destruct X as (Em & Eu & X). destruct l as [|q l].
  - destruct X as [-> X]. assert (Ek : k' = k); [|rewrite Ek; by apply H0].
    apply (kr_chain _ _ _) in X as Ef. assert (Ef' := kr_chain _ _ _ R). simpl in Ef, Ef'.
    destruct k, k'. simpl in *. congruence.
  - destruct X as [-> X]. assert (F := kr_pages _ _ _ R). inversion F as [|? ? Ha _]; subst.
    assert (N := kr_nodup _ _ _ R). apply NoDup_cons in N as [N _].
    apply (H1 q l k'); try done. apply alloc_facts in Ha as [_ Ha]. unfold KERNBASE in Ha. lia.
Qed.

(** [walkpgdir] with [alloc]: it fails only when the free list is empty. *)
Lemma wp_walk_alloc k l d tabs ent va Q : vm_ok k l d tabs ent -> is_u32 va ->
  (l = [] -> tabs !! PDX va = None -> Q 0 k) ->
  (forall k' l' tabs' t, vm_ok k' l' d tabs' ent -> tab_grow d tabs tabs' k k' l l' ->
     tabs' !! PDX va = Some t -> (length l <= S (length l'))%nat -> Q (pte_addr tabs' va) k') ->
  wp (walkpgdir d va true) Q k.
Proof.
  intros [R P F] Hv H0 H1. destruct (va_indices va Hv) as (Hd & Hx & _). assert (L := load_pde k d tabs ent va P Hv).
  unfold walkpgdir, load. wp_step. wp_step. destruct (tabs !! PDX va) as [t|] eqn:Et.
  - destruct L as [-> ->]. wp_step. assert (X := H1 k l tabs t). unfold pte_addr in X. rewrite Et in X.
    apply X; [done|apply tab_grow_refl|done|lia].
  - rewrite L. cbn [negb]. wp_step. eapply wp_kalloc_cases; [done| |].
    { intros ->. simpl. wp_step. by apply H0. }
    intros p l' k1 -> Hp Hp0 Hpl R1 Em. rewrite (proj2 (Z.eqb_neq p 0)) by done. wp_step.
    assert (Hpt : p ∉ tables d tabs) by (apply F; by left).
    eapply wp_clear_page; [done|done|]. intros k2 R2 Z2 U2. wp_step. unfold store. wp_step. wp_step.
    rewrite pde_bits by done. rewrite Em in U2.
    assert (P2 : pt_rep (mem k2) d tabs ent).
    { eapply pt_rep_frame; [exact P|]. intros a Ha. apply U2. intros X. apply elem_of_singleton in X as ->. done. }
    assert (Dd := alloc_facts d (pt_dir _ _ _ _ P)). assert (W2 := kr_mem _ _ _ R2).
    assert (Ed : PGROUNDDOWN (d + 4 * PDX va) = d) by (rewrite PGROUNDDOWN_eq; unfold PGSIZE in *; mlia).
    assert (X := H1 (set_mem (st32 (mem k2) (d + 4 * PDX va) (pde_of p)) k2) l' (<[PDX va := p]> tabs) p).
    unfold pte_addr in X. rewrite lookup_insert_eq in X. apply X; [|split|done|done].
    + split.
      * unfold st32. rewrite Ed. apply kmem_rep_write; [done| |].
        { intros Y. apply (F d); [by right|]. apply elem_of_tables. by left. }
        apply blit_page; [by apply page_at_ok|unfold PGSIZE; mlia|rewrite zlen_le4; unfold PGSIZE in *; mlia|apply le_bytes_u8].
      * by apply pt_add_table.
      * intros a Ha. rewrite tables_insert by done. rewrite not_elem_of_union, not_elem_of_singleton.
        split; [apply F; by right|by intros ->].
    + by apply insert_subseteq.
    + exists [p]. split; [done|]. rewrite tables_insert by done. simpl. by rewrite union_empty_r_L.
    + rewrite map_size_insert_None by done. simpl. lia.
    + intros a Ha. rewrite tables_insert, not_elem_of_union in Ha by done. destruct Ha as [Ha Hap]. simpl.
      rewrite page_at_st32; [by apply U2|]. rewrite Ed. intros ->. apply Ha, elem_of_tables. by left.
Qed.

(** Storing an entry. *)
Lemma store_entry k l d tabs ent i j t v : vm_ok k l d tabs ent -> tabs !! i = Some t -> 0 <= j < 1024 ->
  vm_ok (set_mem (st32 (mem k) (t + 4 * j) v) k) l d tabs (upd ent (1024 * i + j) (u32 v)) /\
  unch (tables d tabs) (mem k) (st32 (mem k) (t + 4 * j) v).
Proof.
  intros [R P F] Ht Hj. destruct (pt_tab _ _ _ _ P _ _ Ht) as (Hi & Ha & Hne & Hl). assert (At := alloc_facts t Ha).
  assert (Dd := alloc_facts d (pt_dir _ _ _ _ P)).
  assert (Et : PGROUNDDOWN (t + 4 * j) = t) by (rewrite PGROUNDDOWN_eq; unfold PGSIZE in *; mlia).
  assert (Hin : t ∈ tables d tabs) by (apply elem_of_tables; right; by exists i).
  assert (W := kr_mem _ _ _ R).
  assert (L : forall p x, allocatable p -> 0 <= x < 1024 -> ld32 (st32 (mem k) (t + 4 * j) v) (p + 4 * x) =
    if decide (t + 4 * j = p + 4 * x) then u32 v else ld32 (mem k) (p + 4 * x)).
  { intros p x Hp Hx'. apply alloc_facts in Hp. apply ld32_st32; [done|..]; unfold KERNBASE, PGSIZE in *; mlia. }
  assert (Lne : forall p x, allocatable p -> p ≠ t -> 0 <= x < 1024 -> ld32 (st32 (mem k) (t + 4 * j) v) (p + 4 * x) = ld32 (mem k) (p + 4 * x)).
  { intros p x Hp Hpt Hx'. rewrite L by done. apply alloc_facts in Hp. rewrite decide_False; [done|]. unfold PGSIZE in *. mlia. }
  split; [split|].
  - unfold st32. rewrite Et. apply kmem_rep_write; [done|intros X; by apply (F t X)|].
    apply blit_page; [by apply page_at_ok|unfold PGSIZE; mlia|rewrite zlen_le4; unfold PGSIZE in *; mlia|apply le_bytes_u8].
  - destruct P as [D T I N E O]. split; try done.
    + intros i' t' Ht'. destruct (T i' t' Ht') as (A & B & C & X). simpl. rewrite Lne by done. done.
    + intros i' Hi' Hn. simpl. rewrite Lne by done. by apply N.
    + intros i' t' j' Ht' Hj'. simpl. destruct (T i' t' Ht') as (A & B & C & X). rewrite L by done. unfold upd.
      destruct (decide (i = i')) as [<-|Hii].
      * assert (t' = t) by congruence. subst t'. repeat case_decide; try lia; by apply E || done.
      * assert (t ≠ t') by (intros ->; apply Hii; by apply (I i i' t')). apply alloc_facts in B.
        rewrite decide_False by (unfold PGSIZE in *; mlia). rewrite decide_False by lia. by apply E.
    + intros i' j' Hi' Hn Hj'. unfold upd. rewrite decide_False; [by apply O|]. intros X.
      assert (i = i') by lia. congruence.
  - exact F.
  - intros a Hna. apply page_at_st32. rewrite Et. by intros ->.
Qed.

(** ** Mapping *)

(** The entry that [mappages] stores for the [w]-th page. *)
Definition map_entry (pa perm w : Z) : Z := u32 (Z.lor (Z.lor (u32 (pa + PGSIZE * w)) perm) PTE_P).

Lemma map_entry_next pa perm w : map_entry (u32 (pa + PGSIZE)) perm w = map_entry pa perm (w + 1).
Proof. unfold map_entry. do 3 f_equal. rewrite u32_add_l. f_equal. lia. Qed.

(** One page: the entry changes, or the free list was empty. *)
Lemma wp_map_page {A} k l d tabs ent v x (m : M kmem A) (fail : A) (Q : A -> kmem -> Prop) :
  vm_ok k l d tabs ent -> 0 <= v < 2 ^ 20 -> Z.odd (ent v) = false ->
  (l = [] -> Q fail k) ->
  (forall k' l' tabs', vm_ok k' l' d tabs' (upd ent v (u32 x)) -> tab_grow d tabs tabs' k k' l l' ->
     (length l <= S (length l'))%nat -> wp m Q k') ->
  wp (pte ← walkpgdir d (PGSIZE * v) true;
      if pte =? 0 then mret fail
      else e ← load pte; if has e PTE_P then panic "remap" else store pte x;; m) Q k.
Proof.
  intros O Hv Hodd H0 H1. destruct (vpn_of v Hv) as [Hu Ev]. destruct (va_indices _ Hu) as (Hd & Hx & Ei). rewrite Ev in Ei.
  wp_step. eapply wp_walk_alloc; [done|done|intros El _; simpl; wp_step; by apply H0|].
  intros k1 l1 tabs1 t O1 G1 Ht Ll. destruct (load_pte _ _ _ _ _ _ (vo_pt _ _ _ _ _ O1) Hu Ht) as [El En].
  rewrite (proj2 (Z.eqb_neq _ 0)) by done. unfold load. wp_step. wp_step. rewrite El, Ev, has_P, Hodd.
  wp_step. unfold store. wp_step. unfold pte_addr. rewrite Ht.
  destruct (store_entry _ _ _ _ _ _ _ _ x O1 Ht Hx) as [O2 U2]. rewrite Ei in O2.
  eapply (H1 _ l1 tabs1); [exact O2| |exact Ll]. destruct G1 as [S1 N1 Z1 U1]. split; [done|done|done|].
  intros a Ha. simpl. by rewrite U2, U1.
Qed.

Lemma wp_mappages_from n fuel k l d tabs ent v pa perm :
  vm_ok k l d tabs ent -> 0 <= v -> v + Z.of_nat n <= 2 ^ 20 -> (0 < n <= fuel)%nat -> is_u32 pa ->
  (forall w, v <= w < v + Z.of_nat n -> Z.odd (ent w) = false) ->
  wp (mappages_from fuel d (PGSIZE * v) (PGSIZE * (v + Z.of_nat n - 1)) pa perm)
    (fun r k' => exists tabs' l' ent', vm_ok k' l' d tabs' ent' /\ tab_grow d tabs tabs' k k' l l' /\
      (r = 0 /\ (forall w, ent' w = if decide (v <= w < v + Z.of_nat n) then map_entry pa perm (w - v) else ent w) /\
         (length l <= n + length l')%nat \/
       r = -1 /\ l' = [] /\ (n = 1%nat -> l = []) /\
         (forall w, ent' w = ent w \/ v <= w < v + Z.of_nat n - 1 /\ ent' w = map_entry pa perm (w - v)))) k.
Proof.
  revert fuel k l tabs ent v pa. induction n as [|n IH]; intros fuel k l tabs ent v pa O Hv Hn Hf Hpa Hodd; [lia|].
  destruct fuel as [|fuel]; [lia|]. cbn [mappages_from]. assert (E0 : u32 (Z.lor (Z.lor pa perm) PTE_P) = map_entry pa perm 0).
  { unfold map_entry. rewrite Z.mul_0_r, Z.add_0_r. by rewrite (u32_id pa). }
  eapply wp_map_page; [done|lia|apply Hodd; lia| |].
  { intros ->. exists tabs, [], ent. split; [done|]. split; [apply tab_grow_refl|]. right. split_and!; try done. by left. }
  intros k1 l1 tabs1 O1 G1 L1. rewrite E0 in O1. destruct n as [|n].
  { rewrite (proj2 (Z.eqb_eq _ _)) by lia. wp_step. exists tabs1, l1, (upd ent v (map_entry pa perm 0)).
    split; [done|]. split; [done|]. left. split; [done|]. split; [|lia]. intros w. unfold upd. repeat case_decide; try lia.
    subst. by rewrite Z.sub_diag. }
  rewrite (proj2 (Z.eqb_neq _ _)) by (unfold PGSIZE; lia).
  assert (Ea : u32 (PGSIZE * v + PGSIZE) = PGSIZE * (v + 1)) by (unfold PGSIZE in *; change (2 ^ 20) with 1048576 in *; mlia).
  rewrite Ea. replace (v + Z.of_nat (S (S n)) - 1) with (v + 1 + Z.of_nat (S n) - 1) by lia.
  eapply wp_mono; [apply (IH fuel k1 l1 tabs1 _ (v + 1) _ O1); try lia; [apply u32_range|]|].
  { intros w Hw. unfold upd. rewrite decide_False by lia. apply Hodd. lia. }
  intros r k2 (tabs2 & l2 & ent2 & O2 & G2 & C). exists tabs2, l2, ent2. split; [done|].
  split; [by eapply tab_grow_trans|]. destruct C as [(-> & C & L2)|(-> & -> & _ & C)]; [left|right].
  - split; [done|]. split; [|lia]. intros w. rewrite C. unfold upd. rewrite map_entry_next.
    repeat case_decide; try lia; try done; [f_equal; lia|]. subst. by rewrite Z.sub_diag.
  - split; [done|]. split; [done|]. split; [lia|]. intros w. destruct (C w) as [E|[Hw E]].
    + rewrite E. unfold upd. case_decide; [|by left]. right. subst. rewrite Z.sub_diag. split; [lia|done].
    + right. split; [lia|]. rewrite E, map_entry_next. f_equal. lia.
Qed.

(** [mappages] of [n] whole pages. *)
Lemma wp_mappages n k l d tabs ent v pa perm :
  vm_ok k l d tabs ent -> 0 <= v -> v + Z.of_nat n <= 2 ^ 20 -> (0 < n)%nat -> is_u32 pa ->
  (forall w, v <= w < v + Z.of_nat n -> Z.odd (ent w) = false) ->
  wp (mappages d (PGSIZE * v) (PGSIZE * Z.of_nat n) pa perm)
    (fun r k' => exists tabs' l' ent', vm_ok k' l' d tabs' ent' /\ tab_grow d tabs tabs' k k' l l' /\
      (r = 0 /\ (forall w, ent' w = if decide (v <= w < v + Z.of_nat n) then map_entry pa perm (w - v) else ent w) /\
         (length l <= n + length l')%nat \/
       r = -1 /\ l' = [] /\ (n = 1%nat -> l = []) /\
         (forall w, ent' w = ent w \/ v <= w < v + Z.of_nat n - 1 /\ ent' w = map_entry pa perm (w - v)))) k.
Proof.
  intros O Hv Hn H0 Hpa Hodd. unfold mappages. change (2 ^ 20) with 1048576 in Hn.
  assert (E1 : PGROUNDDOWN (PGSIZE * v) = PGSIZE * v) by (rewrite PGROUNDDOWN_eq; unfold PGSIZE; mlia).
  assert (E2 : PGROUNDDOWN (u32 (PGSIZE * v + PGSIZE * Z.of_nat n - 1)) = PGSIZE * (v + Z.of_nat n - 1)).
  { rewrite PGROUNDDOWN_eq. unfold PGSIZE. rewrite u32_id by mlia. mlia. }
  rewrite E1, E2. apply wp_mappages_from; try done. split; [lia|].
  rewrite u32_id by (unfold PGSIZE; mlia). unfold PGSIZE. mlia.
Qed.

(** A directory has at most 1024 tables. *)
Lemma size_tabs m d tabs ent : pt_rep m d tabs ent -> (size tabs <= 1024)%nat.
Proof.
  intros R. rewrite <- size_dom. assert (E : size (list_to_set (seqZ 0 1024) : gset Z) = 1024%nat).
  { rewrite size_list_to_set by apply NoDup_seqZ. by rewrite length_seqZ. }
  rewrite <- E. apply subseteq_size. intros i [t Ht]%elem_of_dom. apply elem_of_list_to_set, elem_of_seqZ.
  destruct (pt_tab _ _ _ _ R i t Ht) as (Hi & _). lia.
Qed.
End pagetable.
