(* ===== verification/UserMemory.v ===== *)
(** * User address spaces: growing, shrinking and freeing them

    An address space owns its page directory, its page tables and the pages
    mapped below [KERNBASE]; these are distinct and not free.  [allocuvm],
    [deallocuvm] and [freevm] keep this, and no page is lost: what leaves the
    free list is in the address space, and comes back. *)

From S2P Require Import Prelude Param Layout Cstring BlockStore Mmu Kalloc Vm PageTable.

(** The pages of user memory are numbered below [NUSER]. *)
Definition NUSER : Z := KERNBASE / PGSIZE.

(** The kernel address of the page in an entry. *)
Definition upage (e : Z) : Z := P2V (PTE_ADDR e).

Section user.
Context (kend : Z) (kend_high : KERNLINK <= kend).
Notation allocatable := (allocatable kend).
Notation kmem_rep := (kmem_rep kend).
Notation vm_ok := (vm_ok kend).
Notation pt_rep := (pt_rep kend).

(** An address space with free list [l]. *)
Record uvm_ok (k : kmem) (l : list Z) (d : Z) (tabs : gmap Z Z) (ent : Z -> Z) : Prop := {
  uo_vm : vm_ok k l d tabs ent;
  uo_page v : 0 <= v < NUSER -> Z.odd (ent v) = true ->
    allocatable (upage (ent v)) /\ upage (ent v) ∉ tables d tabs /\ upage (ent v) ∉ l;
  uo_inj v w : 0 <= v < NUSER -> 0 <= w < NUSER -> Z.odd (ent v) = true -> Z.odd (ent w) = true ->
    upage (ent v) = upage (ent w) -> v = w;
  uo_zero v : 0 <= v < NUSER -> Z.odd (ent v) = false -> ent v = 0
}.

(** The pages that an address space owns. *)
Definition in_as (d : Z) (tabs : gmap Z Z) (ent : Z -> Z) (a : Z) : Prop :=
  a ∈ tables d tabs \/ exists v, 0 <= v < NUSER /\ Z.odd (ent v) = true /\ upage (ent v) = a.

(** A page that is neither free nor a table is not changed. *)
Definition keeps (d : Z) (tabs : gmap Z Z) (ent : Z -> Z) (l : list Z) (k k' : kmem) : Prop :=
  forall a, a ∉ l -> ~ in_as d tabs ent a -> page_at (mem k') a = page_at (mem k) a.

(** ** Freeing user pages *)

(** The pages mapped at the [n] page numbers from [v]. *)
Fixpoint upages (ent : Z -> Z) (v : Z) (n : nat) : list Z :=
  match n with
  | O => []
  | S n' => (if Z.odd (ent v) then [upage (ent v)] else []) ++ upages ent (v + 1) n'
  end.

Lemma upages_ext ent ent' v n : (forall w, v <= w < v + Z.of_nat n -> ent' w = ent w) -> upages ent' v n = upages ent v n.
Proof.
  revert v. induction n as [|n IH]; intros v E; [done|]. simpl. rewrite E by lia. f_equal. apply IH. intros w Hw. apply E. lia.
Qed.

Lemma upages_skip ent v (m n : nat) : (forall w, v <= w < v + Z.of_nat m -> Z.odd (ent w) = false) ->
  upages ent v (m + n) = upages ent (v + Z.of_nat m) n.
Proof.
  revert v. induction m as [|m IH]; intros v E; [by rewrite Z.add_0_r|]. simpl. rewrite E by lia. simpl.
  rewrite IH by (intros w Hw; apply E; lia). f_equal. lia.
Qed.

Lemma elem_of_upages ent v n a : a ∈ upages ent v n <->
  exists w, v <= w < v + Z.of_nat n /\ Z.odd (ent w) = true /\ upage (ent w) = a.
Proof.
  revert v. induction n as [|n IH]; intros v; simpl.
  - split; [by intros ?%elem_of_nil|]. intros (w & Hw & _). lia.
  - rewrite elem_of_app, IH. destruct (Z.odd (ent v)) eqn:E.
    + rewrite list_elem_of_singleton. split.
      * intros [->|(w & Hw & X)]; [exists v; split; [lia|done]|exists w; split; [lia|done]].
      * intros (w & Hw & X & <-). destruct (decide (w = v)) as [->|]; [by left|right; exists w; split; [lia|done]].
    + split.
      * intros [X|(w & Hw & X)]; [by apply elem_of_nil in X|exists w; split; [lia|done]].
      * intros (w & Hw & X & Y). right. exists w. split; [|done]. destruct (decide (w = v)) as [->|]; [congruence|lia].
Qed.

(** The pages of the address space other than those at [v] are unaffected
    by taking away the one at [v]. *)
Lemma uvm_unmap k k' l d tabs ent v : uvm_ok k l d tabs ent -> 0 <= v < NUSER -> Z.odd (ent v) = true ->
  vm_ok k' (upage (ent v) :: l) d tabs (upd ent v 0) -> uvm_ok k' (upage (ent v) :: l) d tabs (upd ent v 0).
Proof.
  intros [V P I Z0] Hv Ho V'. split; [done|..]; unfold upd.
  - intros w Hw. case_decide; [done|]. intros How. destruct (P w Hw How) as (A & B & C). split; [done|]. split; [done|].
    rewrite not_elem_of_cons. split; [|done]. intros E. by apply I in E.
  - intros w x Hw Hx. repeat case_decide; try done. by apply I.
  - intros w Hw. case_decide; [done|]. by apply Z0.
Qed.

Lemma wp_free_page k l d tabs ent v Q : uvm_ok k l d tabs ent -> 0 <= v < NUSER -> Z.odd (ent v) = true ->
  (forall k', uvm_ok k' (upage (ent v) :: l) d tabs (upd ent v 0) ->
     unch (tables d tabs ∪ {[upage (ent v)]}) (mem k) (mem k') -> Q tt k') ->
  wp (kfree kend (upage (ent v));; store (pte_addr tabs (PGSIZE * v)) 0) Q k.
Proof.
  intros O Hv Ho HQ. destruct (uo_page _ _ _ _ _ O v Hv Ho) as (A & B & C). destruct (uo_vm _ _ _ _ _ O) as [R P F].
  assert (Hv' : 0 <= v < 2 ^ 20) by (unfold NUSER, KERNBASE, PGSIZE in Hv; change (2147483648 / 4096) with 524288 in Hv; change (2 ^ 20) with 1048576; lia).
  destruct (vpn_of v Hv') as [Hu Ev]. destruct (va_indices _ Hu) as (Hd & Hx & Ei). rewrite Ev in Ei.
  destruct (tabs !! PDX (PGSIZE * v)) as [t|] eqn:Et.
  2:{ assert (X := no_table _ _ _ _ _ _ P Hu Et). rewrite Ev in X. by rewrite X in Ho. }
  wp_step. eapply wp_mono; [by apply (wp_kfree kend _ _ l)|]. intros _ k1 (R1 & _ & U1).
  assert (V1 : vm_ok k1 (upage (ent v) :: l) d tabs ent).
  { split; [done| |].
    - eapply pt_rep_frame; [exact P|]. intros a Ha. apply U1. by intros ->.
    - intros a [->|Ha]%elem_of_cons; [done|by apply F]. }
  destruct (store_entry _ _ _ _ _ _ _ _ _ 0 V1 Et Hx) as [V2 U2]. rewrite Ei in V2. change (u32 0) with 0 in V2.
  unfold store, pte_addr. rewrite Et. wp_step. apply HQ; [by eapply uvm_unmap|].
  intros a Ha. rewrite not_elem_of_union, not_elem_of_singleton in Ha. destruct Ha as [Ha Hp]. simpl.
  rewrite U2 by done. by apply U1.
Qed.

Lemma upages_none ent v n : (forall w, v <= w < v + Z.of_nat n -> Z.odd (ent w) = false) -> upages ent v n = [].
Proof. intros E. rewrite <- (Nat.add_0_r n), upages_skip by done. done. Qed.

(** The address after the page table that would map page [v]. *)
Definition next_table (v : Z) : Z := 1024 * (v / 1024 + 1).

Lemma NUSER_eq : NUSER = 524288.
Proof. done. Qed.

Lemma user_va v : 0 <= v < NUSER -> is_u32 (PGSIZE * v) /\ vpn (PGSIZE * v) = v /\ PDX (PGSIZE * v) = v / 1024.
Proof.
  rewrite NUSER_eq. intros Hv. destruct (vpn_of v) as [A B]; [change (2 ^ 20) with 1048576; lia|]. split; [done|]. split; [done|].
  rewrite PDX_eq. unfold PGSIZE. change (2 ^ 22) with 4194304. mlia.
Qed.

Lemma next_addr v : 0 <= v < NUSER ->
  u32 (u32 (PGADDR (PDX (PGSIZE * v) + 1) 0 0 - PGSIZE) + PGSIZE) = PGSIZE * next_table v /\
  v < next_table v <= NUSER.
Proof.
  intros Hv. destruct (user_va v Hv) as (_ & _ & ->). unfold PGADDR, next_table. rewrite !Z.shiftl_0_l, !Z.lor_0_r.
  rewrite Z.shiftl_mul_pow2 by lia. rewrite NUSER_eq in *. unfold PGSIZE. change (2 ^ 22) with 4194304. mlia.
Qed.

(** Pages without a page table are not mapped. *)
Lemma no_table_range k l d tabs ent v : uvm_ok k l d tabs ent -> 0 <= v < NUSER -> tabs !! PDX (PGSIZE * v) = None ->
  forall w, v <= w < next_table v -> ent w = 0.
Proof.
  intros O Hv Hn w Hw. destruct (next_addr v Hv) as [_ Hb]. assert (Hw' : 0 <= w < NUSER) by lia.
  destruct (user_va v Hv) as (_ & _ & Ev). destruct (user_va w Hw') as (Uw & Vw & Ew).
  rewrite <- Vw. apply (no_table kend _ _ _ _ _ (vo_pt _ _ _ _ _ _ (uo_vm _ _ _ _ _ O)) Uw).
  rewrite Ew, <- Hn, Ev. f_equal. unfold next_table in Hw. mlia.
Qed.

(** What freeing the pages from [v] to [hi] does. *)
Record cut (d : Z) (tabs : gmap Z Z) (ent ent' : Z -> Z) (v hi : Z) (l l' : list Z) (k k' : kmem) : Prop := {
  cut_ok : uvm_ok k' l' d tabs ent';
  cut_ent w : 0 <= w < NUSER -> ent' w = if decide (v <= w < hi) then 0 else ent w;
  cut_kernel w : ~ (0 <= w < NUSER) -> ent' w = ent w;
  cut_list : l' = reverse (upages ent v (Z.to_nat (hi - v))) ++ l;
  cut_mem : unch (tables d tabs ∪ list_to_set (upages ent v (Z.to_nat (hi - v)))) (mem k) (mem k')
}.

Lemma cut_nil d tabs ent v hi l k : uvm_ok k l d tabs ent -> hi <= v -> cut d tabs ent ent v hi l l k k.
Proof.
  intros O H. split; try done.
  - intros w Hw. rewrite decide_False; [done|lia].
  - by replace (Z.to_nat (hi - v)) with 0%nat by lia.
Qed.

(** Nothing to free before [v']. *)
Lemma cut_skip d tabs ent ent' v v' hi l l' k k' : uvm_ok k l d tabs ent -> 0 <= v < v' -> v < hi <= NUSER ->
  (forall w, v <= w < v' -> ent w = 0) ->
  cut d tabs ent ent' v' hi l l' k k' -> cut d tabs ent ent' v hi l l' k k'.
Proof.
  intros O Hv Hhi H0 [C1 C2 C3 C4 C5].
  assert (E : upages ent v (Z.to_nat (hi - v)) = upages ent v' (Z.to_nat (hi - v'))).
  { destruct (decide (v' <= hi)).
    - replace (Z.to_nat (hi - v)) with (Z.to_nat (v' - v) + Z.to_nat (hi - v'))%nat by lia.
      rewrite upages_skip by (intros w Hw; rewrite H0 by lia; done). f_equal. lia.
    - replace (Z.to_nat (hi - v')) with 0%nat by lia. apply upages_none. intros w Hw. rewrite H0 by lia. done. }
  split; try done; [|by rewrite E|by rewrite E].
  intros w Hw. rewrite C2 by done. repeat case_decide; try lia. by rewrite H0 by lia.
Qed.

(** One page freed, then the others. *)
Lemma cut_cons d tabs ent ent' v hi l l' k k1 k' : uvm_ok k l d tabs ent -> 0 <= v < hi -> hi <= NUSER -> Z.odd (ent v) = true ->
  unch (tables d tabs ∪ {[upage (ent v)]}) (mem k) (mem k1) ->
  cut d tabs (upd ent v 0) ent' (v + 1) hi (upage (ent v) :: l) l' k1 k' -> cut d tabs ent ent' v hi l l' k k'.
Proof.
  intros O Hv Hhi Ho U1 [C1 C2 C3 C4 C5].
  assert (E : upages (upd ent v 0) (v + 1) (Z.to_nat (hi - (v + 1))) = upages ent (v + 1) (Z.to_nat (hi - (v + 1)))).
  { apply upages_ext. intros w Hw. unfold upd. by rewrite decide_False by lia. }
  assert (En : upages ent v (Z.to_nat (hi - v)) = upage (ent v) :: upages ent (v + 1) (Z.to_nat (hi - (v + 1)))).
  { replace (Z.to_nat (hi - v)) with (S (Z.to_nat (hi - (v + 1)))) by lia. simpl. by rewrite Ho. }
  rewrite E in C4, C5. split; try done.
  - intros w Hw. rewrite C2 by done. unfold upd. repeat case_decide; try lia; done.
  - intros w Hw. rewrite C3 by done. unfold upd. by rewrite decide_False by lia.
  - rewrite En, reverse_cons, <- app_assoc. done.
  - rewrite En. eapply unch_trans; [exact U1| |]; [|set_solver]. intros a Ha. apply C5. set_solver.
Qed.

Lemma wp_deallocuvm_from fuel k l d tabs ent v hi oldsz : uvm_ok k l d tabs ent -> 0 <= v <= NUSER -> hi <= NUSER ->
  PGSIZE * (hi - 1) < oldsz <= PGSIZE * hi -> hi - v <= Z.of_nat fuel ->
  wp (deallocuvm_from kend fuel d (PGSIZE * v) oldsz)
    (fun _ k' => exists ent' l', cut d tabs ent ent' v hi l l' k k') k.
Proof.
  revert k l ent v. induction fuel as [|fuel IH]; intros k l ent v O Hv Hhi Hs Hf; cbn [deallocuvm_from].
  all: destruct (Z.ltb_spec (PGSIZE * v) oldsz) as [L|L];
    [|wp_step; exists ent, l; apply cut_nil; [done|unfold PGSIZE in *; lia]].
  { unfold PGSIZE in *. lia. }
  assert (Hvh : v < hi) by (unfold PGSIZE in *; lia). assert (Hv' : 0 <= v < NUSER) by lia.
  destruct (user_va v Hv') as (Hu & Ev & Ed). assert (P := vo_pt _ _ _ _ _ _ (uo_vm _ _ _ _ _ O)).
  wp_step. eapply wp_intro; [by eapply walk_lookup|]. destruct (tabs !! PDX (PGSIZE * v)) as [t|] eqn:Et.
  - destruct (load_pte kend _ _ _ _ _ _ P Hu Et) as [El En]. rewrite (proj2 (Z.eqb_neq _ 0)) by done.
    unfold load. wp_step. wp_step. rewrite El, Ev, has_P.
    assert (Ea : u32 (PGSIZE * v + PGSIZE) = PGSIZE * (v + 1)) by (rewrite NUSER_eq in *; unfold PGSIZE; mlia).
    rewrite Ea. wp_step. destruct (Z.odd (ent v)) eqn:Eo.
    + destruct (uo_page _ _ _ _ _ O v Hv' Eo) as (A & _). assert (Ha := A).
      assert (N0 : PTE_ADDR (ent v) ≠ 0).
      { intros X. unfold upage in A. rewrite X in A. destruct A as (_ & A & _). unfold P2V, KERNLINK, EXTMEM, KERNBASE in *.
        change (u32 (0 + 2147483648)) with 2147483648 in A. lia. }
      rewrite (proj2 (Z.eqb_neq _ 0)) by done. fold (upage (ent v)).
      eapply wp_free_page; [done|done|done|]. intros k1 O1 U1.
      eapply wp_mono; [apply (IH k1 _ _ (v + 1) O1); lia|]. intros _ k2 (ent' & l' & C). exists ent', l'.
      eapply cut_cons; [exact O|lia|lia|exact Eo|exact U1|exact C].
    + wp_step. eapply wp_mono; [apply (IH k l ent (v + 1) O); lia|]. intros _ k2 (ent' & l' & C). exists ent', l'.
      eapply (cut_skip d tabs ent ent' v (v + 1)); try done; [lia|]. intros w Hw. assert (w = v) by lia. subst. by apply (uo_zero _ _ _ _ _ O).
  - unfold pte_addr. rewrite Et. simpl. destruct (next_addr v Hv') as [-> Hnx].
    eapply wp_mono; [apply (IH k l ent (next_table v) O); lia|]. intros _ k2 (ent' & l' & C). exists ent', l'.
    eapply (cut_skip d tabs ent ent' v (next_table v)); try done; [lia|]. by eapply no_table_range.
Qed.

(** The number of pages of a memory of [sz] bytes. *)
Definition pgs (sz : Z) : Z := (sz + PGSIZE - 1) / PGSIZE.

Lemma pgs_bounds sz : 0 <= sz <= KERNBASE ->
  0 <= pgs sz <= NUSER /\ PGSIZE * (pgs sz - 1) < sz <= PGSIZE * pgs sz /\ PGROUNDUP sz = PGSIZE * pgs sz /\ pgs sz <= sz / PGSIZE + 1.
Proof.
  unfold KERNBASE. intros Hs. rewrite PGROUNDUP_eq by (unfold PGSIZE; lia). rewrite NUSER_eq. unfold pgs, PGSIZE. mlia.
Qed.

Lemma wp_deallocuvm k l d tabs ent oldsz newsz : uvm_ok k l d tabs ent -> 0 <= newsz -> 0 <= oldsz <= KERNBASE ->
  wp (deallocuvm kend d oldsz newsz) (fun r k' => r = Z.min oldsz newsz /\
    exists ent' l', cut d tabs ent ent' (pgs newsz) (pgs oldsz) l l' k k') k.
Proof.
  intros O Hn Ho. unfold deallocuvm. destruct (Z.leb_spec oldsz newsz) as [L|L].
  - wp_step. split; [lia|]. exists ent, l. apply cut_nil; [done|]. unfold pgs, PGSIZE. mlia.
  - destruct (pgs_bounds newsz) as (A & B & C & D); [lia|]. destruct (pgs_bounds oldsz) as (A' & B' & C' & D'); [lia|].
    rewrite C. wp_step. eapply wp_mono; [apply (wp_deallocuvm_from _ k l d tabs ent (pgs newsz) (pgs oldsz) oldsz); try done; lia|].
    intros [] k' X. wp_step. split; [lia|done].
Qed.

(** ** Mapping a user page *)

Lemma vm_ok_ext k l d tabs ent ent' : (forall w, ent' w = ent w) -> vm_ok k l d tabs ent -> vm_ok k l d tabs ent'.
Proof.
  intros E [R [D T I N X O] F]. split; [done| |done]. split; try done.
  - intros i t j Ht Hj. rewrite E. by apply X.
  - intros i j Hi Hn Hj. rewrite E. by apply O.
Qed.

(** More tables from the free list do not touch the user pages. *)
Lemma uvm_grow k k' l l' d tabs tabs' ent : uvm_ok k l d tabs ent -> tab_grow d tabs tabs' k k' l l' ->
  vm_ok k' l' d tabs' ent -> uvm_ok k' l' d tabs' ent.
Proof.
  intros [V P I Z0] [S (new & -> & E) _ U] V'. split; try done. intros v Hv Ho. destruct (P v Hv Ho) as (A & B & C).
  rewrite not_elem_of_app in C. destruct C as [C1 C2]. split_and!; try done. rewrite E, not_elem_of_union, elem_of_list_to_set. done.
Qed.

Lemma upage_entry p f : allocatable p -> 0 <= f < PGSIZE -> upage (V2P p + f) = p /\ PTE_FLAGS (V2P p + f) = f.
Proof. intros Hp Hf. destruct (entry_addr kend p f Hp Hf) as (A & B & _). done. Qed.

Lemma map_entry_page p perm : allocatable p -> 0 <= perm < PGSIZE ->
  map_entry (V2P p) perm 0 = V2P p + Z.lor perm PTE_P /\ Z.odd (V2P p + Z.lor perm PTE_P) = true /\
  0 <= Z.lor perm PTE_P < PGSIZE.
Proof.
  intros Hp Hf. assert (B : 0 <= Z.lor perm PTE_P < PGSIZE).
  { assert (X := Z.lor_nonneg perm PTE_P). split; [apply X; unfold PTE_P; lia|]. unfold PGSIZE in *.
    destruct (decide (Z.lor perm PTE_P = 0)) as [->|N]; [lia|]. change 4096 with (2 ^ 12). apply Z.log2_lt_pow2; [unfold PTE_P in *; lia|].
    rewrite Z.log2_lor by (unfold PTE_P; lia). apply Z.max_lub_lt; [|done]. destruct (decide (perm = 0)) as [->|]; [done|].
    apply Z.log2_lt_pow2; [lia|]. change (2 ^ 12) with 4096. lia. }
  destruct (entry_addr kend p _ Hp B) as (_ & _ & U & L). destruct (V2P_alloc kend p Hp) as [_ M].
  unfold map_entry. rewrite Z.mul_0_r, Z.add_0_r, (u32_id (V2P p)) by (unfold V2P; apply u32_range).
  rewrite <- Z.lor_assoc, L, u32_id by done. split; [done|]. split; [|done].
  rewrite Z.odd_add, <- !Z.bit0_odd, Z.lor_spec. change (Z.testbit PTE_P 0) with true. rewrite orb_true_r, Z.bit0_odd.
  assert (Ev : Z.even (V2P p) = true) by (apply Z.even_spec; exists (V2P p / 2); unfold PGSIZE in M; mlia).
  by rewrite <- Z.negb_even, Ev.
Qed.

(** Mapping a page that nobody owns at an unmapped page number. *)
Lemma wp_map_user k l d tabs ent v p perm : uvm_ok k l d tabs ent -> 0 <= v < NUSER -> ent v = 0 ->
  allocatable p -> p ∉ l -> ~ in_as d tabs ent p -> 0 <= perm < PGSIZE ->
  wp (mappages d (PGSIZE * v) PGSIZE (V2P p) perm) (fun r k' => exists tabs' l', tab_grow d tabs tabs' k k' l l' /\
    (r = 0 /\ uvm_ok k' l' d tabs' (upd ent v (V2P p + Z.lor perm PTE_P)) /\ (length l <= S (length l'))%nat \/
     r = -1 /\ l = [] /\ l' = [] /\ uvm_ok k' l' d tabs' ent)) k.
Proof.
  intros O Hv H0 Hp Hpl Hin Hf. destruct (map_entry_page p perm Hp Hf) as (Em & Eo & Ef).
  assert (X := wp_mappages kend 1 k l d tabs ent v (V2P p) perm (uo_vm _ _ _ _ _ O)).
  rewrite Z.mul_1_r in X. eapply wp_mono; [apply X|].
  1-2: rewrite NUSER_eq in Hv; change (2 ^ 20) with 1048576; lia.
  1: lia. 1: unfold V2P; apply u32_range.
  { intros w Hw. assert (w = v) by lia. subst. by rewrite H0. }
  clear X. intros r k' (tabs' & l' & ent' & V' & G & [(-> & C & L)|(-> & -> & L & C)]).
  - exists tabs', l'. split; [done|]. left. split; [done|]. split; [|lia].
    assert (V2 : vm_ok k' l' d tabs' (upd ent v (V2P p + Z.lor perm PTE_P))).
    { eapply vm_ok_ext; [|exact V']. intros w. rewrite C. unfold upd. repeat case_decide; try lia. subst. by rewrite Z.sub_diag, Em. }
    destruct O as [V P I Z0]. destruct (tg_new _ _ _ _ _ _ _ G) as (new & -> & E).
    rewrite not_elem_of_app in Hpl. destruct Hpl as [Hp1 Hp2]. destruct (upage_entry p _ Hp Ef) as [Eu _].
    split; [done|..]; unfold upd.
    + intros w Hw. rewrite E, not_elem_of_union, elem_of_list_to_set. case_decide.
      * intros _. rewrite Eu. split_and!; try done. intros Y. apply Hin. by left.
      * intros Ho. destruct (P w Hw Ho) as (A & B & D). rewrite not_elem_of_app in D. tauto.
    + intros w x Hw Hx. repeat case_decide; subst; try done; rewrite ?Eu; try by apply I.
      * intros _ Ho Ey. destruct Hin. right. by exists x.
      * intros Ho _ Ey. destruct Hin. right. by exists w.
    + intros w Hw. case_decide; [by rewrite Eo|]. by apply Z0.
  - exists tabs', []. split; [done|]. right. split; [done|]. split; [by apply L|]. split; [done|]. eapply uvm_grow; [exact O|exact G|].
    eapply vm_ok_ext; [|exact V']. intros w. destruct (C w) as [->|[Hw _]]; [done|lia].
Qed.

(** ** Growing an address space *)

(** From free list [l] the pages numbered [v0] to [v] were added, zeroed,
    and the pages [held] were taken and not yet mapped. *)
Record grown (d : Z) (tabs tabs' : gmap Z Z) (ent ent' : Z -> Z) (v0 v : Z) (held l l' : list Z) (k k' : kmem) : Prop := {
  gr_ok : uvm_ok k' l' d tabs' ent';
  gr_ent w : ~ (v0 <= w < v) -> ent' w = ent w;
  gr_new w : v0 <= w < v -> Z.odd (ent' w) = true /\ PTE_FLAGS (ent' w) = 7 /\
    page_at (mem k') (upage (ent' w)) = zero_page;
  gr_cons a : a ∈ l <->
    a ∈ l' \/ a ∈ held \/ a ∈ tables d tabs' ∖ tables d tabs \/ exists w, v0 <= w < v /\ upage (ent' w) = a;
  gr_mem a : a ∉ l -> a ∉ tables d tabs -> page_at (mem k') a = page_at (mem k) a;
  gr_sub : tables d tabs ⊆ tables d tabs'
}.

Lemma grown_refl k l d tabs ent v : uvm_ok k l d tabs ent -> grown d tabs tabs ent ent v v [] l l k k.
Proof.
  intros O. split; try done; [lia|]. intros a. split; [tauto|].
  intros [X|[X|[X|(w & Hw & _)]]]; [done|by apply elem_of_nil in X|set_solver|lia].
Qed.

(** A page from the front of the free list is not in the address space. *)
Lemma fresh_page k p l d tabs ent : uvm_ok k (p :: l) d tabs ent -> ~ in_as d tabs ent p /\ p ∉ l /\ allocatable p.
Proof.
  intros [V P _ _]. split_and!.
  - intros [X|(v & Hv & Ho & E)].
    + apply (vo_free _ _ _ _ _ _ V p); [by left|done].
    + apply (P v Hv) in Ho as (_ & _ & Ho). rewrite E in Ho. apply Ho. by left.
  - assert (N := kr_nodup _ _ _ (vo_k _ _ _ _ _ _ V)). by apply NoDup_cons in N as [N _].
  - assert (F := kr_pages _ _ _ (vo_k _ _ _ _ _ _ V)). by inversion F.
Qed.

(** Taking a page off the free list and writing to it. *)
Lemma uvm_take k k' p l d tabs ent : uvm_ok k (p :: l) d tabs ent -> kmem_rep k' l ->
  unch {[p]} (mem k) (mem k') -> uvm_ok k' l d tabs ent.
Proof.
  intros O R U. destruct (fresh_page _ _ _ _ _ _ O) as (Hin & Hpl & Hp). destruct O as [V P I Z0]. split; try done.
  - destruct V as [_ T F]. split; [done| |].
    + eapply pt_rep_frame; [exact T|]. intros a Ha. apply U. intros ->%elem_of_singleton. apply Hin. by left.
    + intros a Ha. apply F. by right.
  - intros v Hv Ho. destruct (P v Hv Ho) as (A & B & C). rewrite not_elem_of_cons in C. tauto.
Qed.

(** One more page. *)
Lemma grown_step d tabs tabs1 tabs2 ent ent1 v0 v l l1 l2 p k k1 k2 k3 : 0 <= v0 <= v -> v < NUSER ->
  grown d tabs tabs1 ent ent1 v0 v [] l (p :: l1) k k1 ->
  unch {[p]} (mem k1) (mem k2) -> page_at (mem k2) p = zero_page ->
  tab_grow d tabs1 tabs2 k2 k3 l1 l2 -> uvm_ok k3 l2 d tabs2 (upd ent1 v (V2P p + 7)) ->
  grown d tabs tabs2 ent (upd ent1 v (V2P p + 7)) v0 (v + 1) [] l l2 k k3.
Proof.
  intros Hv HvN [O E N C M S] U Zp [Sub (new & -> & Et) _ Um] O'.
  destruct (fresh_page _ _ _ _ _ _ O) as (Hin & Hpl & Hp). assert (Ht2 : tables d tabs1 ⊆ tables d tabs2) by (rewrite Et; set_solver).
  destruct (upage_entry p 7 Hp) as [Eu Ef]; [unfold PGSIZE; lia|]. rewrite not_elem_of_app in Hpl.
  assert (Hpt : p ∉ tables d tabs2). { rewrite Et, not_elem_of_union, elem_of_list_to_set. split; [|tauto]. intros X. apply Hin. by left. }
  assert (Hold : forall w, v0 <= w < v -> upage (ent1 w) ∉ tables d tabs2 /\ upage (ent1 w) ≠ p).
  { intros w Hw. destruct (N w Hw) as (Ho & _). destruct (uo_page _ _ _ _ _ O w ltac:(lia) Ho) as (_ & B & D).
    rewrite not_elem_of_cons, not_elem_of_app in D. rewrite Et, not_elem_of_union, elem_of_list_to_set. tauto. }
  split; [done|..].
  - intros w Hw. unfold upd. rewrite decide_False by lia. apply E. lia.
  - intros w Hw. unfold upd. case_decide.
    + subst w. rewrite Eu, Ef. assert (Od := uo_zero _ _ _ _ _ O' v ltac:(lia)). unfold upd in Od. rewrite decide_True in Od by done.
      split; [|split; [done|by rewrite Um]]. destruct (Z.odd (V2P p + 7)) eqn:X; [done|]. specialize (Od eq_refl).
      assert (Y := u32_range (p - KERNBASE)). unfold V2P in Od. mlia.
    + destruct (N w ltac:(lia)) as (A & B & D). destruct (Hold w ltac:(lia)) as [X Y]. split; [done|]. split; [done|].
      rewrite Um by done. rewrite U by (by intros ?%elem_of_singleton). done.
  - intros a. rewrite C, elem_of_cons, elem_of_app. split.
    + intros [[->|[H|H]]|[H|[H|(w & Hw & <-)]]].
      * right. right. right. exists v. split; [lia|]. unfold upd. by rewrite decide_True.
      * right. right. left. rewrite elem_of_difference, Et, elem_of_union, elem_of_list_to_set. split; [by right|].
        intros X. apply S in X. apply (vo_free _ _ _ _ _ _ (uo_vm _ _ _ _ _ O) a); [right; apply elem_of_app; by left|done].
      * by left.
      * by apply elem_of_nil in H.
      * right. right. left. set_solver.
      * right. right. right. exists w. split; [lia|]. unfold upd. by rewrite decide_False by lia.
    + intros [H|[H|[H|(w & Hw & <-)]]].
      * left. tauto.
      * by apply elem_of_nil in H.
      * rewrite elem_of_difference, Et, elem_of_union, elem_of_list_to_set in H. destruct H as [[H|H] H']; [right; right; left; set_solver|tauto].
      * unfold upd. case_decide; [left; left; by rewrite Eu|]. right. right. right. exists w. split; [lia|done].
  - intros a Hl Ht. rewrite C in Hl. destruct (decide (a = p)) as [->|Hne]; [destruct Hl; left; by left|].
    destruct (decide (a ∈ tables d tabs2)) as [Ha|Ha].
    { rewrite Et, elem_of_union, elem_of_list_to_set in Ha. destruct Ha as [Ha|Ha]; destruct Hl; [right; right; left; set_solver|].
      left. right. apply elem_of_app. by left. }
    rewrite Um, U by (done || by intros ?%elem_of_singleton). apply M; [|done]. rewrite C. done.
  - by trans (tables d tabs1).
Qed.

(** The failure paths: a page was taken and written, tables were added. *)
Lemma grown_take d tabs tabs1 ent ent1 v0 v l l1 p k k1 k2 : 0 <= v0 <= v -> v <= NUSER ->
  grown d tabs tabs1 ent ent1 v0 v [] l (p :: l1) k k1 -> kmem_rep k2 l1 -> unch {[p]} (mem k1) (mem k2) ->
  grown d tabs tabs1 ent ent1 v0 v [p] l l1 k k2.
Proof.
  intros Hv HvN [O E N C M S] R U. destruct (fresh_page _ _ _ _ _ _ O) as (Hin & Hpl & Hp). split; try done.
  - by eapply uvm_take.
  - intros w Hw. destruct (N w Hw) as (A & B & D). split; [done|]. split; [done|]. rewrite U; [done|].
    intros X%elem_of_singleton. apply Hin. right. exists w. split; [lia|done].
  - intros a. rewrite C, elem_of_cons, list_elem_of_singleton. rewrite elem_of_nil. tauto.
  - intros a Hl Ht. rewrite U; [by apply M|]. intros ->%elem_of_singleton. apply Hl, C. left. by left.
Qed.

Lemma grown_tabs d tabs tabs1 tabs2 ent ent1 v0 v h l l1 l2 k k1 k2 : 0 <= v0 <= v -> v <= NUSER ->
  grown d tabs tabs1 ent ent1 v0 v h l l1 k k1 -> tab_grow d tabs1 tabs2 k1 k2 l1 l2 -> uvm_ok k2 l2 d tabs2 ent1 ->
  grown d tabs tabs2 ent ent1 v0 v h l l2 k k2.
Proof.
  intros Hv HvN [O E N C M S] [Sub (new & -> & Et) _ Um] O'. assert (F := vo_free _ _ _ _ _ _ (uo_vm _ _ _ _ _ O)).
  split; try done.
  - intros w Hw. destruct (N w Hw) as (A & B & D). split; [done|]. split; [done|].
    rewrite Um; [done|]. by apply (uo_page _ _ _ _ _ O' w ltac:(lia)).
  - intros a. rewrite C, elem_of_app, !elem_of_difference, Et, elem_of_union, elem_of_list_to_set. split; [|tauto].
    intros [[H|H]|H]; [|tauto|tauto]. right. right. left. split; [tauto|]. intros X. apply S in X.
    apply (F a); [apply elem_of_app; by left|done].
  - intros a Hl Ht. rewrite Um; [by apply M|]. rewrite Et, not_elem_of_union, elem_of_list_to_set. split.
    + intros X. apply Hl, C. right. right. left. set_solver.
    + intros X. apply Hl, C. left. apply elem_of_app. by left.
  - rewrite Et. set_solver.
Qed.

(** Freeing everything that was added. *)
Lemma grown_cut d tabs tabs1 ent ent1 ent2 v0 v hi h l l1 l2 k k1 k2 : 0 <= v0 <= v -> v <= hi -> hi <= NUSER ->
  (forall w, v0 <= w < hi -> ent w = 0) ->
  grown d tabs tabs1 ent ent1 v0 v h l l1 k k1 -> cut d tabs1 ent1 ent2 v0 hi l1 l2 k1 k2 ->
  grown d tabs tabs1 ent ent2 v0 v0 h l l2 k k2.
Proof.
  intros Hv Hhi HN H0 [O E N C M S] [O2 E2 K2 -> U2].
  assert (Hup : forall a, a ∈ upages ent1 v0 (Z.to_nat (hi - v0)) <-> exists w, v0 <= w < v /\ upage (ent1 w) = a).
  { intros a. rewrite elem_of_upages. split.
    - intros (w & Hw & Ho & <-). exists w. split; [|done]. destruct (decide (w < v)); [lia|].
      rewrite E in Ho by lia. by rewrite H0 in Ho by lia.
    - intros (w & Hw & <-). exists w. split; [lia|]. split; [|done]. by apply N. }
  split; try done; [..|lia| |].
  - intros w _. destruct (decide (0 <= w < NUSER)) as [Hw|Hw].
    + rewrite E2 by done. case_decide; [by rewrite H0|]. apply E. lia.
    + rewrite K2 by done. apply E. lia.
  - intros a. rewrite C, elem_of_app, elem_of_reverse, Hup. split; [tauto|]. intros [H|[H|[H|(w & Hw & _)]]]; [tauto..|lia].
  - intros a Hl Ht. rewrite U2; [by apply M|]. rewrite not_elem_of_union, elem_of_list_to_set, Hup. split.
    + intros X. apply Hl, C. right. right. left. set_solver.
    + intros X. apply Hl, C. tauto.
Qed.

(** A page that is held but not in the address space is freed. *)
Lemma wp_free_held k l d tabs ent p : uvm_ok k l d tabs ent -> allocatable p -> p ∉ l -> ~ in_as d tabs ent p ->
  wp (kfree kend p) (fun _ k' => uvm_ok k' (p :: l) d tabs ent /\ forall a, a ≠ p -> page_at (mem k') a = page_at (mem k) a) k.
Proof.
  intros [[R T F] P I Z0] Hp Hl Hin. eapply wp_mono; [by apply (wp_kfree kend p k l)|]. intros _ k' (R' & _ & U). split; [|done].
  split; try done; [split; [done| |]|].
  - eapply pt_rep_frame; [exact T|]. intros a Ha. apply U. intros ->. apply Hin. by left.
  - intros a [->|Ha]%elem_of_cons; [intros X; apply Hin; by left|by apply F].
  - intros v Hv Ho. destruct (P v Hv Ho) as (A & B & C). split; [done|]. split; [done|]. rewrite not_elem_of_cons. split; [|done].
    intros X. apply Hin. right. by exists v.
Qed.

(** A page that was taken is given back. *)
Lemma wp_give_back d tabs tabs1 ent ent1 v0 l l1 p k k1 :
  grown d tabs tabs1 ent ent1 v0 v0 [p] l l1 k k1 -> allocatable p -> p ∉ l1 -> ~ in_as d tabs1 ent1 p -> p ∉ tables d tabs ->
  wp (kfree kend p) (fun _ k' => grown d tabs tabs1 ent ent1 v0 v0 [] l (p :: l1) k k') k1.
Proof.
  intros [O E N C M S] Hp Hpl Hin Ht. eapply wp_mono; [by eapply wp_free_held|].
  intros _ k2 (O2 & U2). split; try done; [lia| |].
  - intros a. rewrite C, !elem_of_cons, !elem_of_nil. tauto.
  - intros a Hl Ha. rewrite U2; [by apply M|]. intros ->. apply Hl, C. right. left. by apply list_elem_of_singleton.
Qed.

(** The result of [allocuvm]: the pages up to [hi] are there, or the address
    space is as before; the latter only if there were too few free pages. *)
Definition alloc_post (d : Z) (tabs : gmap Z Z) (ent : Z -> Z) (v0 hi newsz : Z) (l : list Z) (k : kmem) (r : Z) (k' : kmem) : Prop :=
  exists tabs' ent' l', r = newsz /\ grown d tabs tabs' ent ent' v0 hi [] l l' k k' \/
    r = 0 /\ grown d tabs tabs' ent ent' v0 v0 [] l l' k k' /\ Z.of_nat (length l) < 2 * (hi - v0).

(** Out of pages: everything is undone. *)
Lemma wp_undo d tabs tabs1 ent ent1 v0 v hi h l k k1 l1 oldsz newsz : 0 <= v0 <= v -> v <= hi -> hi <= NUSER ->
  (forall w, v0 <= w < hi -> ent w = 0) -> v0 = pgs oldsz -> hi = pgs newsz -> 0 <= oldsz -> 0 <= newsz <= KERNBASE ->
  grown d tabs tabs1 ent ent1 v0 v h l l1 k k1 ->
  wp (deallocuvm kend d newsz oldsz) (fun _ k' => exists ent2 l2, grown d tabs tabs1 ent ent2 v0 v0 h l l2 k k' /\
    l2 = reverse (upages ent1 v0 (Z.to_nat (hi - v0))) ++ l1) k1.
Proof.
  intros Hv Hh HN H0 -> -> Ho Hn G. eapply wp_mono; [apply (wp_deallocuvm _ _ _ _ _ _ _ (gr_ok _ _ _ _ _ _ _ _ _ _ _ _ G)); lia|].
  intros r k' (_ & ent2 & l2 & C). exists ent2, l2. split; [by eapply grown_cut|apply C].
Qed.

Lemma wp_allocuvm_from fuel d tabs tabs1 ent ent1 v0 v hi oldsz newsz l l1 k k1 :
  0 <= v0 <= v -> v <= hi -> hi <= NUSER -> (forall w, v0 <= w < hi -> ent w = 0) ->
  v0 = pgs oldsz -> hi = pgs newsz -> 0 <= oldsz -> 0 <= newsz <= KERNBASE -> hi - v <= Z.of_nat fuel ->
  grown d tabs tabs1 ent ent1 v0 v [] l l1 k k1 -> Z.of_nat (length l) - Z.of_nat (length l1) <= 2 * (v - v0) ->
  wp (allocuvm_from kend fuel d (PGSIZE * v) oldsz newsz) (alloc_post d tabs ent v0 hi newsz l k) k1.
Proof.
  intros Hv Hh HN H0 E0 Eh Ho Hn. revert tabs1 ent1 v l1 k1 Hv Hh. induction fuel as [|fuel IH]; intros tabs1 ent1 v l1 k1 Hv Hh Hf G Lc.
  all: destruct (pgs_bounds newsz Hn) as (A & B & _ & _); rewrite <- Eh in A, B; cbn [allocuvm_from];
    destruct (Z.ltb_spec (PGSIZE * v) newsz) as [L|L].
  1: unfold PGSIZE in *; lia.
  1,3: wp_step; exists tabs1, ent1, l1; left; split; [done|]; replace hi with v by (unfold PGSIZE in *; lia); done.
  assert (Hvh : v < hi) by (unfold PGSIZE in *; lia). assert (O := gr_ok _ _ _ _ _ _ _ _ _ _ _ _ G).
  assert (Ev : ent1 v = 0) by (rewrite (gr_ent _ _ _ _ _ _ _ _ _ _ _ _ G) by lia; apply H0; lia).
  wp_step. eapply wp_kalloc_cases; [apply (vo_k _ _ _ _ _ _ (uo_vm _ _ _ _ _ O))| |].
  { intros ->. simpl. wp_step. eapply wp_mono; [by eapply (wp_undo d tabs tabs1 ent ent1 v0 v hi)|].
    intros r k2 (ent2 & l2 & G2 & _). wp_step. exists tabs1, ent2, l2. right. split; [done|]. split; [done|]. change (length []) with 0%nat in Lc. lia. }
  intros p l2 k2 -> Hp Hp0 Hpl R2 Em. destruct (fresh_page _ _ _ _ _ _ O) as (Hin & _ & _).
  rewrite (proj2 (Z.eqb_neq p 0)) by done. wp_step. eapply wp_clear_page; [done|done|]. intros k3 R3 Z3 U3. rewrite Em in U3.
  assert (O3 : uvm_ok k3 l2 d tabs1 ent1) by (by eapply uvm_take). wp_step.
  change (Z.lor PTE_W PTE_U) with 6. eapply wp_mono; [apply (wp_map_user k3 l2 d tabs1 ent1 v p 6 O3); try done; lia|].
  intros r k4 (tabs2 & l4 & Gt & [(-> & O4 & L4)|(-> & -> & -> & O4)]).
  - simpl. assert (Ea : u32 (PGSIZE * v + PGSIZE) = PGSIZE * (v + 1)) by (rewrite NUSER_eq in *; unfold PGSIZE; mlia).
    rewrite Ea. rewrite length_cons in Lc.
    eapply IH; [lia|lia|lia|eapply (grown_step d tabs tabs1 tabs2); try done; lia|lia].
  - simpl. wp_step. assert (G4 : grown d tabs tabs2 ent ent1 v0 v [p] l [] k k4).
    { eapply (grown_tabs d tabs tabs1 tabs2); [lia|lia| |exact Gt|exact O4]. eapply grown_take; try done; lia. }
    assert (Hpt : p ∉ tables d tabs2).
    { destruct (tg_new _ _ _ _ _ _ _ Gt) as (new & En & ->). symmetry in En. apply app_nil in En as [-> _].
      rewrite not_elem_of_union, elem_of_list_to_set. split; [|done]. intros X. apply Hin. by left. }
    eapply wp_mono; [by eapply (wp_undo d tabs tabs2 ent ent1 v0 v hi)|]. intros r k5 (ent5 & l5 & G5 & El). wp_step.
    assert (O5 := gr_ok _ _ _ _ _ _ _ _ _ _ _ _ G5).
    eapply wp_mono; [eapply (wp_give_back d tabs tabs2 ent ent5); try done|].
    + rewrite El, app_nil_r, elem_of_reverse, elem_of_upages. intros (w & Hw & How & X). apply Hin. right. exists w. split; [lia|done].
    + intros [X|(w & Hw & How & X)]; [done|]. rewrite (gr_ent _ _ _ _ _ _ _ _ _ _ _ _ G5) in How, X by lia.
      assert (Y := gr_ent _ _ _ _ _ _ _ _ _ _ _ _ G w). destruct (decide (v0 <= w < v)) as [Hwv|Hwv]; [by rewrite H0 in How by lia|].
      rewrite <- Y in How, X by done. apply Hin. right. by exists w.
    + intros X. apply Hin. left. by apply (gr_sub _ _ _ _ _ _ _ _ _ _ _ _ G).
    + intros [] k6 G6. wp_step. exists tabs2, ent5, (p :: l5). right. split; [done|]. split; [exact G6|]. rewrite length_cons in Lc. change (length []) with 0%nat in Lc. lia.
Qed.

Lemma wp_allocuvm d tabs ent oldsz newsz l k : uvm_ok k l d tabs ent -> 0 <= oldsz <= newsz -> newsz < KERNBASE ->
  (forall w, pgs oldsz <= w < pgs newsz -> ent w = 0) ->
  wp (allocuvm kend d oldsz newsz) (alloc_post d tabs ent (pgs oldsz) (pgs newsz) newsz l k) k.
Proof.
  intros O Ho Hn H0. unfold allocuvm. destruct (Z.leb_spec KERNBASE newsz); [lia|]. destruct (Z.ltb_spec newsz oldsz); [lia|].
  destruct (pgs_bounds oldsz) as (A & B & C & D); [lia|]. destruct (pgs_bounds newsz) as (A' & B' & C' & D'); [lia|].
  assert (pgs oldsz <= pgs newsz) by (unfold pgs, PGSIZE in *; mlia).
  rewrite C. eapply wp_allocuvm_from; try done; try lia; [by apply grown_refl|lia].
Qed.
End user.
