(* ===== verification/AddressSpace.v ===== *)
(** * Whole address spaces: [freevm], [setupkvm] and [copyuvm]

    [freevm] returns every page of an address space, [setupkvm] makes one
    with the kernel's mappings and no user page, and [copyuvm] makes a copy
    whose pages are new and have the same contents. *)

From S2P Require Import Prelude Param Layout Cstring BlockStore Mmu Kalloc Vm PageTable UserMemory.

Section aspace.
Context (kend : Z) (kend_high : KERNLINK <= kend).
Notation allocatable := (allocatable kend).
Notation kmem_rep := (kmem_rep kend).
Notation vm_ok := (vm_ok kend).
Notation pt_rep := (pt_rep kend).
Notation uvm_ok := (uvm_ok kend).

(** ** Freeing *)

(** What is left of the directory from index [i] while [freevm] frees its
    tables. *)
Record dir_tail (k : kmem) (l : list Z) (d : Z) (tabs : gmap Z Z) (i : Z) : Prop := {
  dt_k : kmem_rep k l;
  dt_d : allocatable d;
  dt_dl : d ∉ l;
  dt_tab j t : i <= j < 1024 -> tabs !! j = Some t ->
    ld32 (mem k) (d + 4 * j) = pde_of t /\ allocatable t /\ t ∉ l /\ t ≠ d;
  dt_none j : i <= j < 1024 -> tabs !! j = None -> has (ld32 (mem k) (d + 4 * j)) PTE_P = false;
  dt_inj j j' t : tabs !! j = Some t -> tabs !! j' = Some t -> j = j'
}.

Lemma wp_free_tables n i k l d tabs : dir_tail k l d tabs i -> 0 <= i -> i + Z.of_nat n = 1024 ->
  wp (free_tables kend d i n) (fun _ k' => exists l', kmem_rep k' l' /\
    (forall a, a ∈ l' <-> a ∈ l \/ exists j, i <= j < 1024 /\ tabs !! j = Some a) /\
    (forall a, (forall j, i <= j < 1024 -> tabs !! j ≠ Some a) -> page_at (mem k') a = page_at (mem k) a)) k.
Proof.
  revert i k l. induction n as [|n IH]; intros i k l [R D Dl T N I] Hi Hn; cbn [free_tables].
  { wp_step. exists l. split; [done|]. split; [|done]. intros a. split; [tauto|]. intros [X|(j & Hj & _)]; [done|lia]. }
  unfold load. wp_step. wp_step. wp_step. destruct (tabs !! i) as [t|] eqn:Et.
  - destruct (T i t ltac:(lia) Et) as (El & Ht & Htl & Htd). rewrite El, (pde_present kend) by done.
    destruct (entry_addr kend t 7 Ht) as (Ea & _); [unfold PGSIZE; lia|]. unfold pde_of. rewrite Ea.
    eapply wp_mono; [by apply (wp_kfree kend t k l)|]. intros _ k1 (R1 & _ & U1).
    assert (Ld : forall j, 0 <= j < 1024 -> ld32 (mem k1) (d + 4 * j) = ld32 (mem k) (d + 4 * j)).
    { intros j Hj. apply ld32_page; [apply D|unfold PGSIZE; lia|by apply U1]. }
    eapply wp_mono; [apply (IH (i + 1) k1 (t :: l)); [|lia|lia]|].
    { split; try done.
      - rewrite not_elem_of_cons. split; [congruence|done].
      - intros j t' Hj Hj'. rewrite Ld by lia. destruct (T j t' ltac:(lia) Hj') as (A & B & C & E). split_and!; try done.
        rewrite not_elem_of_cons. split; [|done]. intros ->. specialize (I _ _ _ Et Hj'). lia.
      - intros j Hj Hj'. rewrite Ld by lia. apply N; [lia|done]. }
    intros _ k2 (l2 & R2 & E2 & U2). exists l2. split; [done|]. split.
    + intros a. rewrite E2, elem_of_cons. split.
      * intros [[->|X]|(j & Hj & X)]; [right; exists i; split; [lia|done]|tauto|right; exists j; split; [lia|done]].
      * intros [X|(j & Hj & X)]; [tauto|]. destruct (decide (j = i)) as [->|]; [left; left; congruence|].
        right. exists j. split; [lia|done].
    + intros a Ha. rewrite U2, U1; [done| |].
      * intros ->. apply (Ha i); [lia|done].
      * intros j Hj. apply Ha. lia.
  - rewrite N by (done || lia). wp_step. eapply wp_mono; [apply (IH (i + 1) k l); [|lia|lia]|].
    { split; try done; [intros j t Hj; apply T; lia|intros j Hj; apply N; lia]. }
    intros _ k2 (l2 & R2 & E2 & U2). exists l2. split; [done|]. split.
    + intros a. rewrite E2. split; (intros [X|(j & Hj & X)]; [tauto|]); right; exists j; (split; [|done]); [lia|].
      destruct (decide (j = i)); [congruence|lia].
    + intros a Ha. apply U2. intros j Hj. apply Ha. lia.
Qed.

Lemma dir_tail_init k l d tabs ent : vm_ok k l d tabs ent -> dir_tail k l d tabs 0.
Proof.
  intros [R [D T I N E O] F]. split; try done.
  - intros X. apply (F d X), elem_of_tables. by left.
  - intros j t Hj Ht. destruct (T j t Ht) as (A & B & C & G). split_and!; try done. intros X. apply (F t X), elem_of_tables.
    right. by exists j.
Qed.

(** The directory and its tables are freed. *)
Lemma wp_free_dir k l d tabs ent Q : vm_ok k l d tabs ent ->
  (forall k' l', kmem_rep k' l' -> (forall a, a ∈ l' <-> a ∈ l \/ a ∈ tables d tabs) ->
     unch (tables d tabs) (mem k) (mem k') -> Q tt k') ->
  wp (free_tables kend d 0 NPDENTRIES;; kfree kend d) Q k.
Proof.
  intros V HQ. assert (D := pt_dir _ _ _ _ _ (vo_pt _ _ _ _ _ _ V)). assert (T := dir_tail_init _ _ _ _ _ V).
  wp_step. eapply wp_mono; [apply (wp_free_tables _ _ _ _ _ _ T); [lia|done]|]. intros _ k1 (l1 & R1 & E1 & U1).
  assert (Hd : d ∉ l1).
  { rewrite E1. intros [X|(j & Hj & X)]; [by apply (dt_dl _ _ _ _ _ T)|]. by apply (dt_tab _ _ _ _ _ T) in X as (_ & _ & _ & X). }
  eapply wp_mono; [by apply (wp_kfree kend d k1 l1)|]. intros [] k2 (R2 & _ & U2). apply (HQ k2 (d :: l1)); [done|..].
  - intros a. rewrite elem_of_cons, E1, elem_of_tables. split.
    + intros [->|[X|(j & Hj & X)]]; [tauto|tauto|]. right. right. by exists j.
    + intros [X|[->|(j & X)]]; [tauto|tauto|]. right. right. exists j. split; [|done].
      by apply (pt_tab _ _ _ _ _ (vo_pt _ _ _ _ _ _ V)) in X as (X & _).
  - intros a Ha. rewrite elem_of_tables in Ha. rewrite U2, U1; [done| |tauto]. intros j Hj X. apply Ha. right. by exists j.
Qed.

Lemma dir_nonzero k l d tabs ent : vm_ok k l d tabs ent -> (d =? 0) = false.
Proof.
  intros V. apply Z.eqb_neq. intros ->. destruct (alloc_facts kend 0 (pt_dir _ _ _ _ _ (vo_pt _ _ _ _ _ _ V))) as [_ X].
  unfold KERNBASE in X. lia.
Qed.

(** [freevm(pgdir, 0)], for a directory whose user pages are gone or were
    never there. *)
Lemma wp_freevm_dir k l d tabs ent Q : vm_ok k l d tabs ent ->
  (forall k' l', kmem_rep k' l' -> (forall a, a ∈ l' <-> a ∈ l \/ a ∈ tables d tabs) ->
     unch (tables d tabs) (mem k) (mem k') -> Q tt k') ->
  wp (freevm kend d false) Q k.
Proof.
  intros V HQ. unfold freevm. rewrite (dir_nonzero _ _ _ _ _ V). wp_step. wp_step. by eapply wp_free_dir.
Qed.

Lemma in_as_tables d tabs ent a : a ∈ tables d tabs -> in_as d tabs ent a.
Proof. by left. Qed.

(** [freevm(pgdir, 1)]. *)
Lemma wp_freevm k l d tabs ent Q : uvm_ok k l d tabs ent ->
  (forall k' l', kmem_rep k' l' -> (forall a, a ∈ l' <-> a ∈ l \/ in_as d tabs ent a) ->
     (forall a, ~ in_as d tabs ent a -> page_at (mem k') a = page_at (mem k) a) -> Q tt k') ->
  wp (freevm kend d true) Q k.
Proof.
  intros O HQ. unfold freevm. rewrite (dir_nonzero _ _ _ _ _ (uo_vm _ _ _ _ _ _ O)). wp_step. wp_step.
  eapply wp_mono; [apply (wp_deallocuvm kend kend_high k l d tabs ent KERNBASE 0 O); unfold KERNBASE; lia|].
  change (pgs 0) with 0. change (pgs KERNBASE) with NUSER.
  intros r k1 (_ & ent1 & l1 & [O1 E1 _ -> U1]). wp_step. rewrite Z.sub_0_r in *. set (n := Z.to_nat NUSER) in *.
  assert (Hup : forall a, a ∈ upages ent 0 n <-> exists v, 0 <= v < NUSER /\ Z.odd (ent v) = true /\ upage (ent v) = a).
  { intros a. rewrite elem_of_upages. unfold n. rewrite Z2Nat.id by done. done. }
  clearbody n.
  eapply wp_free_dir; [apply (uo_vm _ _ _ _ _ _ O1)|]. intros k2 l2 R2 E2 U2. apply (HQ k2 l2); [done|..].
  - intros a. rewrite E2, elem_of_app, elem_of_reverse, Hup. unfold in_as. tauto.
  - intros a Ha. unfold in_as in Ha. rewrite <- Hup in Ha.
    rewrite U2, U1; [done| |tauto]. rewrite not_elem_of_union, elem_of_list_to_set. tauto.
Qed.

(** ** The kernel's mappings *)

(** An entry of [kmap] covers [n] whole pages from page number [v]. *)
Definition region (e : kmap_entry) (v : Z) (n : nat) : Prop :=
  virt e = PGSIZE * v /\ u32 (phys_end e - phys_start e) = PGSIZE * Z.of_nat n /\ is_u32 (phys_start e) /\
  v + Z.of_nat n <= 2 ^ 20 /\ (0 < n)%nat.

(** Regions in increasing order. *)
Inductive regions : Z -> list kmap_entry -> Prop :=
| regions_nil lo : regions lo []
| regions_cons lo e v n l : region e v n -> lo <= v -> regions (v + Z.of_nat n) l -> regions lo (e :: l).

(** Every page of the regions is mapped as the table says. *)
Definition kernel_mapped (l : list kmap_entry) (ent : Z -> Z) : Prop :=
  forall e v n w, e ∈ l -> region e v n -> v <= w < v + Z.of_nat n -> ent w = map_entry (phys_start e) (kperm e) (w - v).

Lemma region_inj e v n v' n' : region e v n -> region e v' n' -> v = v' /\ n = n'.
Proof. intros (A & B & _) (A' & B' & _). unfold PGSIZE in *. lia. Qed.

(** The pages of [l] that are not free any more are tables of [d]; after a
    failure all are free again. *)
Lemma wp_map_kernel ks k l d tabs ent lo : vm_ok k l d tabs ent -> 0 <= lo -> regions lo ks ->
  (forall w, lo <= w -> ent w = 0) ->
  wp (map_kernel kend d ks) (fun r k' =>
    (r = d /\ exists tabs' l' ent', vm_ok k' l' d tabs' ent' /\ tab_grow d tabs tabs' k k' l l' /\
       (forall w, w < lo -> ent' w = ent w) /\ kernel_mapped ks ent') \/
    (r = 0 /\ exists l', kmem_rep k' l' /\ (forall a, a ∈ l' <-> a ∈ l \/ a ∈ tables d tabs) /\
       (forall a, a ∉ l -> a ∉ tables d tabs -> page_at (mem k') a = page_at (mem k) a) /\ (length l + size tabs <= 1024)%nat)) k.
Proof.
  intros V Hlo Rg. revert k l tabs ent V Hlo. induction Rg as [lo|lo e v n ks Re Hv Rg IH]; intros k l tabs ent V Hlo H0; cbn [map_kernel].
  { wp_step. left. split; [done|]. exists tabs, l, ent. split; [done|]. split; [apply tab_grow_refl|]. split; [done|].
    intros e v n w X. by apply elem_of_nil in X. }
  destruct Re as (Ev & En & Hp & Hn & Hn0). rewrite Ev, En. wp_step.
  eapply wp_mono; [apply (wp_mappages kend n k l d tabs ent v); try done; [lia|intros w Hw; by rewrite H0 by lia]|].
  intros r k1 (tabs1 & l1 & ent1 & V1 & G1 & [(-> & C & _)|(-> & -> & _ & _)]).
  - simpl. eapply wp_mono; [apply (IH k1 l1 tabs1 ent1 V1); [lia|]|].
    { intros w Hw. rewrite C, decide_False by lia. apply H0. lia. }
    intros r k2 [(-> & tabs2 & l2 & ent2 & V2 & G2 & E2 & K2)|(-> & l2 & R2 & E2 & U2 & L2)].
    + left. split; [done|]. exists tabs2, l2, ent2. split; [done|]. split; [by eapply tab_grow_trans|]. split.
      * intros w Hw. rewrite E2, C, decide_False by lia. done.
      * intros e' v' n' w [->|He]%elem_of_cons Hr Hw; [|by eapply K2].
        destruct (region_inj e v' n' v n Hr) as [-> ->]; [by split_and!|]. rewrite E2, C, decide_True by lia. done.
    + right. split; [done|]. destruct (tg_new _ _ _ _ _ _ _ G1) as (new & El & Et). exists l2. split; [done|]. split; [|split].
      * intros a. rewrite E2, El, Et, elem_of_app, elem_of_union, elem_of_list_to_set. tauto.
      * intros a Hl Ht. rewrite El, not_elem_of_app in Hl. destruct Hl as [Hl1 Hl2].
        assert (Ha : a ∉ tables d tabs1) by (rewrite Et, not_elem_of_union, elem_of_list_to_set; done).
        rewrite U2 by done. by apply (tg_mem _ _ _ _ _ _ _ G1).
      * assert (Y := tg_size _ _ _ _ _ _ _ G1). lia.
  - simpl. wp_step. eapply wp_freevm_dir; [exact V1|]. intros k2 l2 R2 E2 U2. wp_step. right. split; [done|].
    destruct (tg_new _ _ _ _ _ _ _ G1) as (new & El & Et). rewrite app_nil_r in El. subst new. exists l2. split; [done|]. split; [|split].
    + intros a. rewrite E2, Et, elem_of_union, elem_of_list_to_set, elem_of_nil. tauto.
    + intros a Hl Ht. assert (Ha : a ∉ tables d tabs1) by (rewrite Et, not_elem_of_union, elem_of_list_to_set; done).
      rewrite U2 by done. by apply (tg_mem _ _ _ _ _ _ _ G1).
    + assert (X := size_tabs _ _ _ _ _ (vo_pt _ _ _ _ _ _ V1)). assert (Y := tg_size _ _ _ _ _ _ _ G1). simpl in Y. lia.
Qed.

(** [data] is set by the linker: the kernel's data begins on a page of its
    own after the text, in the first 4 MB. *)
Context (data : Z) (data_aligned : data mod PGSIZE = 0) (data_range : KERNLINK < data <= KERNBASE + 4 * 1024 * 1024).

Lemma kmap_regions : regions NUSER (kmap data).
Proof.
  unfold KERNLINK, KERNBASE, EXTMEM, PGSIZE in *. assert (Ed : V2P data = data - KERNBASE) by (unfold V2P, KERNBASE; apply u32_id; mlia).
  apply (regions_cons _ _ (NUSER) 256).
  { split_and!; try done. lia. }
  { done. }
  apply (regions_cons _ _ (NUSER + 256) (Z.to_nat ((data - 0x80100000) / 4096))).
  { unfold region. cbn [virt phys_start phys_end]. rewrite Ed, NUSER_eq. unfold KERNLINK, KERNBASE, EXTMEM, PGSIZE, V2P.
    change (2 ^ 20) with 1048576. change (u32 (2147483648 + 1048576 - KERNBASE)) with 1048576. rewrite u32_id by mlia. split_and!; try mlia. }
  { lia. }
  apply (regions_cons _ _ (data / 4096) (Z.to_nat ((0x8E000000 - data) / 4096))).
  { unfold region. cbn [virt phys_start phys_end]. rewrite Ed. unfold KERNBASE, PHYSTOP, PGSIZE.
    change (2 ^ 20) with 1048576. rewrite u32_id by mlia. split_and!; try mlia. }
  { rewrite NUSER_eq. mlia. }
  apply (regions_cons _ _ 0xFE000 (Z.to_nat 8192)).
  { split_and!; try done. lia. }
  { mlia. }
  constructor.
Qed.

(** An empty address space: the kernel's mappings and nothing else. *)
Definition fresh_as (ent : Z -> Z) : Prop := (forall w, w < NUSER -> ent w = 0) /\ kernel_mapped (kmap data) ent.

Lemma uvm_empty k l d tabs ent : vm_ok k l d tabs ent -> (forall w, w < NUSER -> ent w = 0) -> uvm_ok k l d tabs ent.
Proof.
  intros V H0. split; [done|..].
  - intros v Hv Ho. by rewrite H0 in Ho by lia.
  - intros v w Hv Hw Ho. by rewrite H0 in Ho by lia.
  - intros v Hv _. apply H0. lia.
Qed.

Lemma fresh_in_as d tabs ent a : (forall w, w < NUSER -> ent w = 0) -> in_as d tabs ent a <-> a ∈ tables d tabs.
Proof. intros H0. split; [|by left]. intros [X|(v & Hv & Ho & _)]; [done|]. by rewrite H0 in Ho by lia. Qed.

(** A cleared page is an empty directory. *)
Lemma empty_dir k l d : kmem_rep k l -> allocatable d -> d ∉ l -> page_at (mem k) d = zero_page -> vm_ok k l d ∅ (fun _ => 0).
Proof.
  intros R Hd Hl Hz. split; [done| |].
  - split; try done. intros i Hi _. destruct (alloc_facts kend d Hd) as [A B]. unfold ld32.
    replace (PGROUNDDOWN (d + 4 * i)) with d by (rewrite PGROUNDDOWN_eq; unfold PGSIZE in *; mlia).
    rewrite Hz. unfold get32, slice, zero_page. rewrite drop_replicate, take_replicate, le_word_zeros. done.
  - intros a Ha. rewrite elem_of_tables. intros [->|(i & X)]; [done|]. by rewrite lookup_empty in X.
Qed.

Lemma tables_empty d a : a ∈ tables d ∅ <-> a = d.
Proof. rewrite elem_of_tables. split; [|tauto]. intros [->|(i & X)]; [done|]. by rewrite lookup_empty in X. Qed.

Lemma wp_setupkvm k l : kmem_rep k l ->
  wp (setupkvm kend data) (fun d k' =>
    (forall a, a ∉ l -> page_at (mem k') a = page_at (mem k) a) /\
    if d =? 0 then (exists l', kmem_rep k' l' /\ forall a, a ∈ l' <-> a ∈ l) /\ (length l <= 1025)%nat
    else exists tabs l' ent, uvm_ok k' l' d tabs ent /\ fresh_as ent /\
      (forall a, a ∈ l <-> a ∈ l' \/ a ∈ tables d tabs) /\ (length l = S (size tabs + length l'))) k.
Proof.
  intros R. unfold setupkvm. wp_step. eapply wp_kalloc_cases; [done| |].
  { intros ->. simpl. wp_step. split; [done|]. split; [by exists []|simpl; lia]. }
  intros d l1 k1 -> Hd Hd0 Hdl R1 Em. rewrite (proj2 (Z.eqb_neq d 0)) by done. wp_step.
  eapply wp_clear_page; [done|done|]. intros k2 R2 Z2 U2. rewrite Em in U2. change (DEVSPACE <? P2V PHYSTOP) with false. cbv iota.
  assert (V2 := empty_dir k2 l1 d R2 Hd Hdl Z2).
  eapply wp_mono; [apply (wp_map_kernel _ _ _ _ _ _ NUSER V2); [done|apply kmap_regions|done]|].
  intros r k3 [(-> & tabs & l3 & ent & V3 & G3 & E3 & K3)|(-> & l3 & R3 & E3 & U3 & L3)].
  - destruct (tg_new _ _ _ _ _ _ _ G3) as (new & -> & Et). split.
    + intros a Ha. rewrite not_elem_of_cons, not_elem_of_app in Ha. rewrite (tg_mem _ _ _ _ _ _ _ G3).
      * apply U2. intros X%elem_of_singleton. tauto.
      * rewrite Et, not_elem_of_union, elem_of_list_to_set, tables_empty. tauto.
    + rewrite (proj2 (Z.eqb_neq d 0)) by done. exists tabs, l3, ent. split; [by apply uvm_empty|]. split; [by split|]. split.
      * intros a. rewrite Et, elem_of_cons, elem_of_app, elem_of_union, elem_of_list_to_set, tables_empty. tauto.
      * assert (Y := tg_size _ _ _ _ _ _ _ G3). rewrite map_size_empty in Y. rewrite length_cons. lia.
  - split.
    + intros a Ha. rewrite not_elem_of_cons in Ha. destruct Ha as [Ha Ha1]. rewrite U3; [|done|by rewrite tables_empty].
      apply U2. by intros X%elem_of_singleton.
    + simpl. split; [|rewrite map_size_empty in L3; lia]. exists l3. split; [done|]. intros a. rewrite E3, tables_empty, elem_of_cons. tauto.
Qed.

(** ** Copying *)

(** A copied page: new, with the same flags and contents. *)
Definition same_page (m0 m : memory) (e0 e : Z) : Prop :=
  if Z.odd e0 then Z.odd e = true /\ PTE_FLAGS e = PTE_FLAGS e0 /\ page_at m (upage e) = page_at m0 (upage e0)
  else e = 0.

(** From memory [k0] with free list [l0], the pages of [ent0] below [i] were
    copied to the address space of [d]. *)
Record copied (k0 : kmem) (l0 : list Z) (ent0 : Z -> Z) (i : Z) (k : kmem) (l : list Z) (d : Z) (tabs : gmap Z Z) (ent : Z -> Z) : Prop := {
  cp_ok : uvm_ok k l d tabs ent;
  cp_same v : 0 <= v < i -> same_page (mem k0) (mem k) (ent0 v) (ent v);
  cp_rest v : i <= v < NUSER -> ent v = 0;
  cp_cons a : a ∈ l0 <-> a ∈ l \/ in_as d tabs ent a;
  cp_mem a : a ∉ l0 -> page_at (mem k) a = page_at (mem k0) a;
  cp_size : (length l0 <= S (Z.to_nat i) + size tabs + length l)%nat
}.

(** The address space that is copied is not touched. *)
Lemma parent_kept k0 l0 d0 tabs0 ent0 k l : uvm_ok k0 l0 d0 tabs0 ent0 -> kmem_rep k l -> (forall a, a ∈ l -> a ∈ l0) ->
  (forall a, a ∉ l0 -> page_at (mem k) a = page_at (mem k0) a) -> uvm_ok k l d0 tabs0 ent0.
Proof.
  intros [[R T F] P I Z0] R' S M. split; try done; [split; [done| |]|].
  - eapply pt_rep_frame; [exact T|]. intros a Ha. apply M. intros X. by apply (F a X).
  - intros a Ha. apply F. by apply S.
  - intros v Hv Ho. destruct (P v Hv Ho) as (A & B & C). split_and!; try done. intros X. by apply C, S.
Qed.

(** One more page copied to the new page [p]. *)
Lemma copied_step k0 l0 d0 tabs0 ent0 v k k2 k3 p l1 l2 d tabs tabs2 ent :
  uvm_ok k0 l0 d0 tabs0 ent0 -> 0 <= v < NUSER -> Z.odd (ent0 v) = true ->
  copied k0 l0 ent0 v k (p :: l1) d tabs ent ->
  unch {[p]} (mem k) (mem k2) -> page_at (mem k2) p = page_at (mem k0) (upage (ent0 v)) ->
  tab_grow d tabs tabs2 k2 k3 l1 l2 -> uvm_ok k3 l2 d tabs2 (upd ent v (V2P p + PTE_FLAGS (ent0 v))) ->
  copied k0 l0 ent0 (v + 1) k3 l2 d tabs2 (upd ent v (V2P p + PTE_FLAGS (ent0 v))).
Proof.
  intros Op Hv Ho [O S0 Rs C M Sz] U Zp [Sub (new & -> & Et) Sg Um] O3.
  destruct (fresh_page _ _ _ _ _ _ _ O) as (Hin & Hpl & Hp). rewrite not_elem_of_app in Hpl. destruct Hpl as [Hp1 Hp2].
  assert (Hf : 0 <= PTE_FLAGS (ent0 v) < PGSIZE) by (rewrite PTE_FLAGS_eq; apply Z.mod_pos_bound; done).
  destruct (upage_entry kend p _ Hp Hf) as [Eu Ef]. assert (Hpt : p ∉ tables d tabs2).
  { rewrite Et, not_elem_of_union, elem_of_list_to_set. split; [|done]. intros X. apply Hin. by left. }
  assert (Od : Z.odd (V2P p + PTE_FLAGS (ent0 v)) = true).
  { rewrite PTE_FLAGS_eq. destruct (V2P_alloc kend p Hp) as [_ X]. apply Z.odd_spec in Ho as [q Hq]. apply Z.odd_spec.
    exists ((V2P p + ent0 v mod 4096) / 2). unfold PGSIZE in *. mlia. }
  split; try done.
  - intros w Hw. unfold upd. case_decide.
    + subst w. unfold same_page. rewrite Ho, Eu, Ef, Um by done. done.
    + assert (X := S0 w ltac:(lia)). unfold same_page in *. destruct (Z.odd (ent0 w)); [|done]. destruct X as (A & B & D).
      split; [done|]. split; [done|]. destruct (uo_page _ _ _ _ _ _ O w ltac:(lia) A) as (_ & Y & Z).
      rewrite not_elem_of_cons, not_elem_of_app in Z. rewrite Um, U; [done| |].
      * rewrite not_elem_of_singleton. tauto.
      * rewrite Et, not_elem_of_union, elem_of_list_to_set. tauto.
  - intros w Hw. unfold upd. rewrite decide_False by lia. apply Rs. lia.
  - intros a. rewrite C, elem_of_cons, elem_of_app. unfold in_as. rewrite Et, elem_of_union, elem_of_list_to_set. split.
    + intros [[->|[X|X]]|[X|(w & Hw & Hwo & <-)]]; [|tauto|tauto|tauto|].
      * right. right. exists v. unfold upd. rewrite decide_True by done. done.
      * right. right. exists w. unfold upd. rewrite decide_False; [done|]. intros <-. by rewrite Rs in Hwo by lia.
    + intros [X|[[X|X]|(w & Hw & Hwo & <-)]]; [tauto..|]. unfold upd in *. case_decide; [left; left; by rewrite Eu|].
      right. right. by exists w.
  - intros a Ha. rewrite C, elem_of_cons, elem_of_app in Ha. rewrite Um, U; [apply M; rewrite C, elem_of_cons, elem_of_app; done| |].
    + rewrite not_elem_of_singleton. tauto.
    + rewrite Et, not_elem_of_union, elem_of_list_to_set. unfold in_as in Ha. tauto.
  - rewrite length_cons in Sz. rewrite length_app in *. lia.
Qed.

(** A page that the original does not have. *)
Lemma copied_skip k0 l0 ent0 v k l d tabs ent : 0 <= v < NUSER -> Z.odd (ent0 v) = false ->
  copied k0 l0 ent0 v k l d tabs ent -> copied k0 l0 ent0 (v + 1) k l d tabs ent.
Proof.
  intros Hv Ho [O S0 Rs C M Sz]. split; try done; [| |lia].
  - intros w Hw. destruct (decide (w = v)) as [->|]; [|apply S0; lia]. unfold same_page. rewrite Ho. apply Rs. lia.
  - intros w Hw. apply Rs. lia.
Qed.

Lemma flags_present e : Z.odd e = true -> Z.lor (PTE_FLAGS e) PTE_P = PTE_FLAGS e.
Proof.
  intros Ho. unfold PTE_FLAGS, PTE_P. apply Z.bits_inj'. intros n Hn. rewrite Z.lor_spec, Z.land_spec.
  destruct (decide (n = 0)) as [->|].
  - rewrite Z.bit0_odd, Ho. done.
  - replace (Z.testbit 1 n) with false; [apply orb_false_r|]. symmetry. apply Z.bits_above_log2; [lia|]. simpl. lia.
Qed.

(** The result of [copyuvm]: a complete copy, or everything as before. *)
Definition copy_post (k0 : kmem) (l0 : list Z) (d0 : Z) (tabs0 : gmap Z Z) (ent0 : Z -> Z) (n : Z) (r : Z) (k : kmem) : Prop :=
  if r =? 0 then
    (forall a, a ∉ l0 -> page_at (mem k) a = page_at (mem k0) a) /\
    (exists l, kmem_rep k l /\ forall a, a ∈ l <-> a ∈ l0) /\ Z.of_nat (length l0) <= 1025 + n
  else exists l tabs ent, copied k0 l0 ent0 n k l r tabs ent /\ uvm_ok k l d0 tabs0 ent0.

(** Out of pages: the copy is freed. *)
Lemma wp_copy_fail k0 l0 d0 tabs0 ent0 n k l d tabs ent :
  (forall a, a ∈ l0 <-> a ∈ l \/ in_as d tabs ent a) -> uvm_ok k l d tabs ent ->
  (forall a, a ∉ l0 -> page_at (mem k) a = page_at (mem k0) a) -> Z.of_nat (length l0) <= 1025 + n ->
  wp (freevm kend d true;; mret 0) (copy_post k0 l0 d0 tabs0 ent0 n) k.
Proof.
  intros C O M L. wp_step. eapply wp_freevm; [exact O|]. intros k2 l2 R2 E2 U2. wp_step. unfold copy_post. simpl. split_and!.
  - intros a Ha. rewrite U2; [by apply M|]. intros X. apply Ha, C. by right.
  - exists l2. split; [done|]. intros a. by rewrite E2, C.
  - done.
Qed.

Lemma wp_copyuvm_from fuel k0 l0 d0 tabs0 ent0 sz v k l d tabs ent : uvm_ok k0 l0 d0 tabs0 ent0 -> 0 <= sz <= KERNBASE ->
  0 <= v <= pgs sz -> pgs sz - v <= Z.of_nat fuel -> copied k0 l0 ent0 v k l d tabs ent ->
  wp (copyuvm_from kend fuel d0 d (PGSIZE * v) sz) (copy_post k0 l0 d0 tabs0 ent0 (pgs sz)) k.
Proof.
  intros Op Hs. destruct (pgs_bounds sz Hs) as (A & B & _ & _).
  revert v k l tabs ent. induction fuel as [|fuel IH]; intros v k l tabs ent Hv Hf Cp.
  all: assert (O := cp_ok _ _ _ _ _ _ _ _ _ Cp); assert (Rk := vo_k _ _ _ _ _ _ (uo_vm _ _ _ _ _ _ O));
    assert (Op' : uvm_ok k l d0 tabs0 ent0) by (eapply parent_kept; [exact Op|exact Rk| |apply Cp]; intros a Ha; apply Cp; by left);
    cbn [copyuvm_from]; destruct (Z.ltb_spec (PGSIZE * v) sz) as [L|L].
  1: unfold PGSIZE in *; lia.
  1,3: wp_step; unfold copy_post; rewrite (dir_nonzero _ _ _ _ _ (uo_vm _ _ _ _ _ _ O));
    replace (pgs sz) with v by (unfold PGSIZE in *; lia); by exists l, tabs, ent.
  assert (Hvn : v < pgs sz) by (unfold PGSIZE in *; lia). assert (Hv' : 0 <= v < NUSER) by lia.
  destruct (user_va v Hv') as (Hu & Ev & _). assert (Pp := vo_pt _ _ _ _ _ _ (uo_vm _ _ _ _ _ _ Op')).
  assert (Ea : u32 (PGSIZE * v + PGSIZE) = PGSIZE * (v + 1)) by (rewrite NUSER_eq in *; unfold PGSIZE; mlia).
  rewrite Ea. eapply wp_entry_or; [exact Pp|exact Hu| |].
  { intros Hn. rewrite andb_false_l. eapply IH; [lia|lia|]. apply copied_skip; [done| |done].
    assert (X := no_table kend _ _ _ _ _ Pp Hu Hn). rewrite Ev in X. by rewrite X. }
  intros En. rewrite (proj2 (Z.eqb_neq _ 0)), Ev, has_P by done. destruct (Z.odd (ent0 v)) eqn:Eo.
  2:{ rewrite andb_false_r. eapply IH; [lia|lia|]. by apply copied_skip. }
  cbn [negb andb].
  assert (Sz := cp_size _ _ _ _ _ _ _ _ _ Cp). assert (St := size_tabs kend _ _ _ _ (vo_pt _ _ _ _ _ _ (uo_vm _ _ _ _ _ _ O))).
  wp_step. eapply wp_kalloc_cases; [exact Rk| |].
  { intros ->. simpl. eapply (wp_copy_fail k0 l0 d0 tabs0 ent0 (pgs sz) k []); [apply Cp|done|apply Cp|]. simpl in Sz. lia. }
  intros p l1 k1 -> Hp Hp0 Hpl R1 Em. rewrite (proj2 (Z.eqb_neq p 0)) by done. wp_step. wp_step. wp_step.
  destruct (fresh_page _ _ _ _ _ _ _ O) as (Hin & _). destruct (uo_page _ _ _ _ _ _ Op' v Hv' Eo) as (Hup & _ & Hupl).
  change (P2V (PTE_ADDR (ent0 v))) with (upage (ent0 v)). rewrite Em.
  set (k2 := set_mem (<[p := page_at (mem k) (upage (ent0 v))]> (mem k)) k1).
  assert (R2 : kmem_rep k2 l1).
  { unfold k2. rewrite <- Em at 2. apply kmem_rep_write; [done|done|]. apply page_at_ok, Rk. }
  assert (U2 : unch {[p]} (mem k) (mem k2)).
  { intros a Ha. rewrite not_elem_of_singleton in Ha. simpl. by rewrite page_at_insert, decide_False. }
  assert (Z2 : page_at (mem k2) p = page_at (mem k0) (upage (ent0 v))).
  { simpl. rewrite page_at_insert, decide_True by done. apply (cp_mem _ _ _ _ _ _ _ _ _ Cp). by apply (uo_page _ _ _ _ _ _ Op v Hv' Eo). }
  assert (O2 : uvm_ok k2 l1 d tabs ent) by (by eapply uvm_take).
  assert (Hfl : 0 <= PTE_FLAGS (ent0 v) < PGSIZE) by (rewrite PTE_FLAGS_eq; apply Z.mod_pos_bound; done).
  assert (Ef : Z.lor (PTE_FLAGS (ent0 v)) PTE_P = PTE_FLAGS (ent0 v)) by (by apply flags_present).
  eapply wp_mono; [apply (wp_map_user kend k2 l1 d tabs ent v p (PTE_FLAGS (ent0 v)) O2); try done; apply (cp_rest _ _ _ _ _ _ _ _ _ Cp); lia|].
  rewrite Ef. intros r k3 (tabs3 & l3 & G3 & [(-> & O3 & _)|(-> & -> & -> & O3)]).
  - simpl. eapply IH; [lia|lia|]. by eapply (copied_step k0 l0 d0 tabs0).
  - simpl. wp_step. assert (Et3 : tables d tabs3 = tables d tabs).
    { destruct (tg_new _ _ _ _ _ _ _ G3) as (new & En' & ->). symmetry in En'. apply app_nil in En' as [-> _]. simpl. apply union_empty_r_L. }
    assert (Hin3 : ~ in_as d tabs3 ent p) by (unfold in_as; rewrite Et3; done).
    eapply wp_mono; [eapply (wp_free_held kend k3 [] d tabs3 ent p); done|]. intros [] k4 [O4 U4].
    eapply (wp_copy_fail k0 l0 d0 tabs0 ent0 (pgs sz) k4 [p] d tabs3 ent); [|done| |simpl in Sz; lia].
    + intros a. rewrite (cp_cons _ _ _ _ _ _ _ _ _ Cp). unfold in_as. by rewrite Et3.
    + intros a Ha. rewrite (cp_cons _ _ _ _ _ _ _ _ _ Cp), elem_of_cons in Ha. rewrite U4 by tauto.
      rewrite (tg_mem _ _ _ _ _ _ _ G3) by (rewrite Et3; unfold in_as in Ha; tauto).
      rewrite U2 by (rewrite not_elem_of_singleton; tauto).
      apply (cp_mem _ _ _ _ _ _ _ _ _ Cp). rewrite (cp_cons _ _ _ _ _ _ _ _ _ Cp), elem_of_cons. tauto.
Qed.

Lemma wp_copyuvm k l d0 tabs0 ent0 sz : uvm_ok k l d0 tabs0 ent0 -> 0 <= sz <= KERNBASE ->
  wp (copyuvm kend data d0 sz) (copy_post k l d0 tabs0 ent0 (pgs sz)) k.
Proof.
  intros Op Hs. destruct (pgs_bounds sz Hs) as (A & B & _ & D). unfold copyuvm. wp_step.
  eapply wp_mono; [apply (wp_setupkvm k l), (uo_vm _ _ _ _ _ _ Op)|]. intros d k1 [M X].
  destruct (d =? 0) eqn:E0.
  - wp_step. unfold copy_post. simpl. destruct X as [X L]. split; [done|]. split; [done|]. lia.
  - destruct X as (tabs & l1 & ent & O1 & [Hu Hk] & C1 & L1). change 0 with (PGSIZE * 0).
    eapply (wp_copyuvm_from _ k l d0 tabs0 ent0 sz 0 k1 l1 d tabs ent); try done; [lia|lia|].
    split; try done; [lia| | |].
    + intros v Hv. apply Hu. lia.
    + intros a. rewrite (fresh_in_as d tabs ent a) by done. apply C1.
    + simpl. lia.
Qed.
End aspace.
