(* ===== verification/VmSpec.v ===== *)
(** * Virtual memory: the theorems

    What [allocuvm], [deallocuvm], [freevm], [copyuvm] and [copyout] promise
    to the rest of the kernel. *)

From S2P Require Import Prelude Param Layout Cstring BlockStore Mmu Kalloc Vm PageTable UserMemory AddressSpace.

Section copyout.
Context (kend : Z) (kend_high : KERNLINK <= kend).
Notation uvm_ok := (uvm_ok kend).

(** The byte at user address [a]. *)
Definition uread (k : kmem) (ent : Z -> Z) (a : Z) : Z := rd 0 (page_at (mem k) (upage (ent (vpn a)))) (a mod PGSIZE).

(** A page that user code may access. *)
Definition user_ok (e : Z) : Prop := Z.odd e = true /\ has e PTE_U = true.

Lemma uvm_write k l d tabs ent v pg : uvm_ok k l d tabs ent -> 0 <= v < NUSER -> Z.odd (ent v) = true -> is_page pg ->
  uvm_ok (set_mem (<[upage (ent v) := pg]> (mem k)) k) l d tabs ent.
Proof.
  intros O Hv Ho Hg. destruct (uo_page _ _ _ _ _ _ O v Hv Ho) as (A & B & C). destruct O as [[R T F] P I Z0].
  split; try done. split; [by apply kmem_rep_write| |done].
  eapply pt_rep_frame; [exact T|]. intros a Ha. simpl. rewrite page_at_insert, decide_False; [done|]. by intros <-.
Qed.

Lemma uread_write k l d tabs ent v pg a : uvm_ok k l d tabs ent -> 0 <= v < NUSER -> Z.odd (ent v) = true ->
  0 <= vpn a < NUSER -> Z.odd (ent (vpn a)) = true ->
  uread (set_mem (<[upage (ent v) := pg]> (mem k)) k) ent a = if decide (vpn a = v) then rd 0 pg (a mod PGSIZE) else uread k ent a.
Proof.
  intros O Hv Ho Ha Hoa. unfold uread. simpl. rewrite page_at_insert. repeat case_decide; subst; try done.
  destruct H0. symmetry. by apply (uo_inj _ _ _ _ _ _ O).
Qed.

Lemma vpn_user a : 0 <= a < KERNBASE -> 0 <= vpn a < NUSER /\ is_u32 a.
Proof. rewrite NUSER_eq. unfold vpn, KERNBASE, PGSIZE. intros. mlia. Qed.

Lemma wp_uva2ka w0 k l d tabs ent va : uvm_ok k l d tabs ent -> 0 <= va < KERNBASE ->
  tabs !! PDX va ≠ None ->
  wp (uva2ka w0 d va) (fun r k' => k' = k /\ r = if Z.odd (ent (vpn va)) && has (ent (vpn va)) PTE_U then upage (ent (vpn va)) else 0) k.
Proof.
  intros O Hv Ht. destruct (vpn_user va Hv) as [Hn Hu]. unfold uva2ka.
  eapply wp_entry_or; [apply (vo_pt _ _ _ _ _ _ (uo_vm _ _ _ _ _ _ O))|exact Hu|done|].
  intros _. rewrite has_P. destruct (Z.odd (ent (vpn va))); simpl; [|by wp_step].
  destruct (has (ent (vpn va)) PTE_U); simpl; by wp_step.
Qed.

(** The page numbers of a range of addresses. *)
Definition in_range (va len w : Z) : Prop := vpn va <= w <= vpn (va + len - 1).

Lemma wp_copyout_from w0 fuel k l d tabs ent va p len : uvm_ok k l d tabs ent -> 0 <= va -> va + len <= KERNBASE ->
  0 <= len <= zlen p -> len <= Z.of_nat fuel -> Forall is_u8 p ->
  (forall w, 0 < len -> in_range va len w -> user_ok (ent w)) ->
  wp (copyout_from w0 fuel d va p len) (fun r k' => r = 0 /\ uvm_ok k' l d tabs ent /\
    (forall a, 0 <= a < KERNBASE -> Z.odd (ent (vpn a)) = true ->
       uread k' ent a = if decide (va <= a < va + len) then rd 0 p (a - va) else uread k ent a) /\
    (forall a, (forall w, in_range va len w -> upage (ent w) ≠ a) -> page_at (mem k') a = page_at (mem k) a)) k.
Proof.
  revert k va p len. induction fuel as [|fuel IH]; intros k va p len O Hv Hl Hp Hf Hb Hm; cbn [copyout_from];
    destruct (Z.ltb_spec 0 len) as [L|L]; try lia.
  1,3: wp_step; split; [done|]; split; [done|]; split; [|done]; intros a Ha _; rewrite decide_False by lia; done.
  assert (E0 : PGROUNDDOWN va = va - va mod PGSIZE) by apply PGROUNDDOWN_eq.
  assert (B0 := Z.mod_pos_bound va PGSIZE ltac:(done)). assert (Hk : va < KERNBASE) by lia.
  assert (Ev : vpn (PGROUNDDOWN va) = vpn va) by (rewrite E0; unfold vpn, PGSIZE in *; mlia).
  assert (H0 : 0 <= PGROUNDDOWN va < KERNBASE) by (rewrite E0; unfold PGSIZE in *; mlia).
  destruct (vpn_user va ltac:(lia)) as [Hn Hu]. destruct (Hm (vpn va) L) as [Ho Hus].
  { unfold in_range, vpn, PGSIZE. mlia. }
  assert (Ht : tabs !! PDX (PGROUNDDOWN va) ≠ None).
  { intros X. assert (Y := no_table kend _ _ _ _ _ (vo_pt _ _ _ _ _ _ (uo_vm _ _ _ _ _ _ O)) (proj2 (vpn_user _ H0)) X).
    rewrite Ev in Y. by rewrite Y in Ho. }
  destruct (uo_page _ _ _ _ _ _ O _ Hn Ho) as (Ha & _). wp_step.
  eapply wp_mono; [apply (wp_uva2ka w0 k l d tabs ent _ O H0 Ht)|]. intros r k' [-> ->]. rewrite Ev, Ho, Hus. cbn [andb].
  rewrite (proj2 (Z.eqb_neq _ 0)) by (apply alloc_facts in Ha as [_ Ha]; unfold KERNBASE in Ha; lia). wp_step. wp_step.
  rewrite E0. replace (va - (va - va mod PGSIZE)) with (va mod PGSIZE) by lia. set (n := Z.min (PGSIZE - va mod PGSIZE) len).
  set (pg := blit _ _ _). assert (Hnr : 0 < n <= len) by lia.
  assert (Lp := page_at_ok (mem k) (upage (ent (vpn va))) (kr_mem _ _ _ (vo_k _ _ _ _ _ _ (uo_vm _ _ _ _ _ _ O)))).
  assert (Ls : zlen (slice p 0 n) = n) by (apply zlen_slice; lia).
  assert (Hpg : is_page pg) by (apply blit_page; [done|lia|lia|by apply slice_u8]).
  assert (O1 := uvm_write k l d tabs ent (vpn va) pg O Hn Ho Hpg). set (k1 := set_mem _ k) in *.
  assert (Ea : u32 (va - va mod PGSIZE + PGSIZE) = va - va mod PGSIZE + PGSIZE) by (unfold KERNBASE, PGSIZE in *; mlia).
  rewrite Ea. set (va1 := va - va mod PGSIZE + PGSIZE). assert (C : va1 = va + n \/ n = len /\ va + n < va1) by lia.
  assert (Hv1 : va1 <= KERNBASE) by (unfold va1, KERNBASE, PGSIZE in *; mlia).
  assert (Hr : forall w, in_range va1 (len - n) w -> in_range va len w).
  { intros w Hw. unfold in_range, vpn, va1, PGSIZE in *. mlia. }
  eapply wp_mono; [apply (IH k1 va1 (drop (Z.to_nat n) p) (len - n) O1); try lia|].
  { unfold zlen in *. rewrite length_drop. lia. }
  { by apply Forall_drop. }
  { intros w Hlt Hw. apply Hm; [lia|by apply Hr]. }
  intros r k2 (-> & O2 & E2 & U2). split; [done|]. split; [done|]. split.
  - intros a Hra Hoa. rewrite E2 by done. destruct (vpn_user a Hra) as [Hna _].
    assert (X : uread k1 ent a = if decide (vpn a = vpn va) then rd 0 pg (a mod PGSIZE) else uread k ent a)
      by exact (uread_write k l d tabs ent (vpn va) pg a O Hn Ho Hna Hoa).
    rewrite X. clear X E2 U2.
    repeat case_decide; try lia.
    + rewrite rd_drop by lia. f_equal. lia.
    + unfold pg. rewrite rd_blit_gen by (destruct Lp; lia). rewrite Ls. rewrite decide_True, rd_slice; [f_equal; unfold vpn, PGSIZE in *; mlia|..];
        unfold vpn, PGSIZE in *; mlia.
    + unfold pg. rewrite rd_blit_gen by (destruct Lp; lia). rewrite Ls. rewrite decide_False; [|unfold vpn, va1, PGSIZE in *; mlia].
      unfold uread. congruence.
    + exfalso. unfold vpn, va1, PGSIZE in *. mlia.
  - intros a Hpa. rewrite U2.
    + unfold k1. simpl. rewrite page_at_insert, decide_False; [done|]. apply Hpa. unfold in_range, vpn, PGSIZE. mlia.
    + intros w Hw. by apply Hpa, Hr.
Qed.
End copyout.

(** ** The theorems *)

(** C34: growing an address space.  [allocuvm] either returns [newsz], and then
    every page between the old and the new size is mapped for user code,
    writable, to a zeroed page of its own that was free; or it returns 0, only
    if there were fewer than two free pages for each page wanted, and then
    nothing is mapped that was not before.  Either way every other mapping and
    every page that was not free is unchanged, and each page that was free is
    still free, is one of the new pages, or is a new page table: none is lost
    and none is used twice. *)
Theorem allocuvm_correct kend k l d tabs ent oldsz newsz :
  KERNLINK <= kend -> uvm_ok kend k l d tabs ent -> 0 <= oldsz <= newsz -> newsz < KERNBASE ->
  (forall w, pgs oldsz <= w < pgs newsz -> ent w = 0) ->
  wp (allocuvm kend d oldsz newsz) (fun r k' => exists tabs' ent' l' hi,
    uvm_ok kend k' l' d tabs' ent' /\
    (r = newsz /\ hi = pgs newsz \/ r = 0 /\ hi = pgs oldsz /\ Z.of_nat (length l) < 2 * (pgs newsz - pgs oldsz)) /\
    (forall w, pgs oldsz <= w < hi ->
       Z.odd (ent' w) = true /\ PTE_FLAGS (ent' w) = Z.lor PTE_P (Z.lor PTE_W PTE_U) /\
       page_at (mem k') (upage (ent' w)) = zero_page) /\
    (forall w, ~ (pgs oldsz <= w < hi) -> ent' w = ent w) /\
    (forall a, a ∉ l -> a ∉ tables d tabs -> page_at (mem k') a = page_at (mem k) a) /\
    (forall a, a ∈ l <-> a ∈ l' \/ a ∈ tables d tabs' ∖ tables d tabs \/ exists w, pgs oldsz <= w < hi /\ upage (ent' w) = a)) k.
Proof.
  intros Hk O Ho Hn H0. eapply wp_mono; [by apply wp_allocuvm|].
  intros r k' (tabs' & ent' & l' & [[-> G]|(-> & G & L)]); exists tabs', ent', l'; eexists;
    (split; [apply G|]; split; [by auto|]; split; [apply G|]; split; [apply G|]; split; [apply G|]);
    intros a; rewrite (gr_cons _ _ _ _ _ _ _ _ _ _ _ _ _ G), elem_of_nil; tauto.
Qed.

(** C35: freeing an address space.  [freevm] with [dodeallocuvm] panics
    nowhere and returns exactly the pages of the address space, its directory,
    page tables and user pages, to the free list; no other page changes. *)
Theorem freevm_returns_all kend k l d tabs ent :
  KERNLINK <= kend -> uvm_ok kend k l d tabs ent ->
  wp (freevm kend d true) (fun _ k' =>
    (exists l', kmem_rep kend k' l' /\ forall a, a ∈ l' <-> a ∈ l \/ in_as d tabs ent a) /\
    (forall a, ~ in_as d tabs ent a -> page_at (mem k') a = page_at (mem k) a)) k.
Proof.
  intros Hk O. eapply wp_freevm; [done|exact O|]. intros k' l' R E U. split; [by exists l'|done].
Qed.

(** C12: [copyuvm] makes an independent copy, as [fork] needs.  When it returns
    a directory, every user page below [sz] is mapped there with the same flags
    to a page with the same contents that was free before, pages that were not
    mapped, as with lazy allocation, are not mapped, and the original address
    space and everything else in memory are untouched.  When it returns 0,
    possible only with too few free pages, all pages it took are free again. *)
Theorem copyuvm_isolated kend data k l d0 tabs0 ent0 sz :
  KERNLINK <= kend -> data mod PGSIZE = 0 -> KERNLINK < data <= KERNBASE + 4 * 1024 * 1024 ->
  uvm_ok kend k l d0 tabs0 ent0 -> 0 <= sz <= KERNBASE ->
  wp (copyuvm kend data d0 sz) (fun d k' =>
    (forall a, a ∉ l -> page_at (mem k') a = page_at (mem k) a) /\
    if d =? 0 then
      (exists l', kmem_rep kend k' l' /\ forall a, a ∈ l' <-> a ∈ l) /\ Z.of_nat (length l) <= 1025 + pgs sz
    else exists l' tabs ent, uvm_ok kend k' l' d tabs ent /\ uvm_ok kend k' l' d0 tabs0 ent0 /\
      (forall v, 0 <= v < pgs sz -> same_page (mem k) (mem k') (ent0 v) (ent v)) /\
      (forall v, pgs sz <= v < NUSER -> ent v = 0) /\
      (forall a, a ∈ l <-> a ∈ l' \/ in_as d tabs ent a)) k.
Proof.
  intros Hk Ha Hr O Hs. eapply wp_mono; [by apply wp_copyuvm|]. intros d k' X. unfold copy_post in X. destruct (d =? 0).
  - destruct X as (M & X & L). done.
  - destruct X as (l' & tabs & ent & [C1 C2 C3 C4 C5 _] & O'). split; [done|]. by exists l', tabs, ent.
Qed.

(** [copyout] writes to user memory.  Over a range of pages that user code
    may access it returns 0, the range then holds the bytes of [p], every other
    byte of user memory and every other page keeps its contents. *)
Theorem copyout_correct kend w0 k l d tabs ent va p :
  KERNLINK <= kend -> uvm_ok kend k l d tabs ent -> 0 <= va -> va + zlen p <= KERNBASE -> Forall is_u8 p ->
  (forall w, in_range va (zlen p) w -> user_ok (ent w)) ->
  wp (copyout w0 d va p (zlen p)) (fun r k' => r = 0 /\ uvm_ok kend k' l d tabs ent /\
    (forall a, 0 <= a < KERNBASE -> Z.odd (ent (vpn a)) = true ->
       uread k' ent a = if decide (va <= a < va + zlen p) then rd 0 p (a - va) else uread k ent a) /\
    (forall a, (forall w, in_range va (zlen p) w -> upage (ent w) ≠ a) -> page_at (mem k') a = page_at (mem k) a)) k.
Proof.
  intros Hk O Hv Hl Hb Hm. unfold copyout. assert (P := zlen_nonneg p). eapply wp_copyout_from; try done; try lia. auto.
Qed.

(** [uva2ka] of an address without a page table does not fail.  It reads
    the word at virtual address 0 of the running process and, whenever that
    word happens to have the present and user bits, returns the page that it
    names. *)
Theorem uva2ka_no_table kend w0 k l d tabs ent va :
  uvm_ok kend k l d tabs ent -> 0 <= va < KERNBASE -> tabs !! PDX va = None ->
  uva2ka w0 d va k = Ret (if has w0 PTE_P && has w0 PTE_U then P2V (PTE_ADDR w0) else 0) k.
Proof.
  intros O Hv Hn. unfold uva2ka, mbind, M_bind. destruct (vpn_user va Hv) as [_ Hu].
  rewrite (walk_lookup kend k d tabs ent va (vo_pt _ _ _ _ _ _ (uo_vm _ _ _ _ _ _ O)) Hu).
  unfold pte_addr. rewrite Hn. simpl. destruct (has w0 PTE_P), (has w0 PTE_U); done.
Qed.

(** ** A machine with two address spaces' worth of memory *)
Definition kend0 : Z := 0x801154a8.
Definition data0 : Z := 0x80108000.

Lemma kend0_ok : KERNLINK <= kend0.
Proof. vm_compute. discriminate. Qed.

Lemma demo_boot : exists k l, kmem_rep kend0 k l /\ (forall a, a ∈ l <-> allocatable kend0 a) /\ (4000 <= length l)%nat.
Proof.
  assert (W := wp_boot_alloc kend0 (Kmem 0 false ∅) eq_refl (map_Forall_empty _) kend0_ok ltac:(vm_compute; discriminate)).
  apply wp_inv in W as ([] & k & _ & l & R & _ & A). exists k, l. split; [done|].
  assert (Al : forall a, a ∈ l <-> allocatable kend0 a).
  { intros a. rewrite <- A. split; [by left|]. intros [X|X]; [done|by apply elem_of_empty in X]. }
  split; [done|]. assert (L : length (pages_from 0x80400000 4000) = 4000%nat) by (unfold pages_from; by rewrite length_fmap, length_seq).
  rewrite <- L. apply length_incl.
  - unfold pages_from. apply NoDup_fmap_2; [|apply NoDup_seq]. intros x y E. unfold PGSIZE in E. lia.
  - intros a (i & Hi & ->)%elem_of_pages_from. apply Al.
    unfold allocatable, page_aligned, KERNBASE, PHYSTOP, PGSIZE, kend0. split; [mlia|]. lia.
Qed.

Lemma demo_fresh : exists k l d tabs ent, uvm_ok kend0 k l d tabs ent /\ (forall w, w < NUSER -> ent w = 0) /\
  (2900 <= length l)%nat.
Proof.
  destruct demo_boot as (k & l & R & _ & L).
  assert (W := wp_setupkvm kend0 data0 eq_refl ltac:(vm_compute; split; [done|discriminate]) k l R).
  apply wp_inv in W as (d & k' & _ & _ & X). destruct (d =? 0).
  - destruct X as [_ X]. lia.
  - destruct X as (tabs & l' & ent & O & [F _] & _ & E). exists k', l', d, tabs, ent. split; [done|]. split; [done|].
    assert (Z := size_tabs _ _ _ _ _ (vo_pt _ _ _ _ _ _ (uo_vm _ _ _ _ _ _ O))). lia.
Qed.

Lemma fresh_range w : pgs 0 <= w < pgs 8192 -> w < NUSER.
Proof. intros Hw. change (0 <= w < 2) in Hw. change NUSER with 524288. lia. Qed.

(** The user bit is one of the flags. *)
Lemma has_flags e f : Z.land 0xFFF f = f -> has e f = has (PTE_FLAGS e) f.
Proof. intros E. unfold has, PTE_FLAGS. by rewrite <- Z.land_assoc, E. Qed.

Lemma size_tables m d tabs ent : pt_rep kend0 m d tabs ent -> (base.size (tables d tabs) <= 1025)%nat.
Proof.
  intros R. unfold tables. rewrite size_union_alt. assert (T := size_tabs _ _ _ _ _ R).
  assert (I : (base.size (map_img tabs : gset Z) <= base.size tabs)%nat).
  { rewrite <- length_map_to_list, <- (length_fmap snd). apply length_incl; [apply NoDup_elements|].
    intros a (i & Hi)%elem_of_elements%elem_of_map_img. apply list_elem_of_fmap. exists (i, a).
    split; [done|]. by apply elem_of_map_to_list. }
  assert (X := subseteq_size (map_img tabs ∖ {[d]}) (map_img tabs : gset Z) ltac:(set_solver)).
  rewrite size_singleton. lia.
Qed.

(** An address space with two user pages, as [allocuvm] makes it. *)
Lemma demo_two : exists k l d tabs ent, uvm_ok kend0 k l d tabs ent /\ user_ok (ent 0) /\ user_ok (ent 1) /\
  (1800 <= length l)%nat.
Proof.
  destruct demo_fresh as (k & l & d & tabs & ent & O & F & L).
  assert (W := wp_allocuvm kend0 kend0_ok d tabs ent 0 8192 l k O ltac:(lia) eq_refl ltac:(intros w Hw; by apply F, fresh_range)).
  apply wp_inv in W as (r & k' & _ & tabs' & ent' & l' & [[-> G]|(-> & _ & X)]);
    [|change (pgs 8192 - pgs 0) with 2 in X; lia].
  exists k', l', d, tabs', ent'. assert (O' := gr_ok _ _ _ _ _ _ _ _ _ _ _ _ _ G). split; [done|].
  assert (N : forall w, 0 <= w < 2 -> user_ok (ent' w)).
  { intros w Hw. destruct (gr_new _ _ _ _ _ _ _ _ _ _ _ _ _ G w) as (Ho & Hf & _); [exact Hw|]. split; [done|].
    rewrite has_flags, Hf; done. }
  split; [by apply N|]. split; [by apply N|].
  assert (T := size_tables _ _ _ _ (vo_pt _ _ _ _ _ _ (uo_vm _ _ _ _ _ _ O'))).
  assert (X : (length l <= length (l' ++ elements (tables d tabs') ++ map (fun w => upage (ent' w)) [0%Z; 1%Z]))%nat).
  { apply length_incl; [apply (uo_vm _ _ _ _ _ _ O)|]. intros a Ha.
    apply (gr_cons _ _ _ _ _ _ _ _ _ _ _ _ _ G) in Ha as [Ha|[Ha|[Ha|(w & Hw & <-)]]]; rewrite !elem_of_app.
    - by left.
    - by apply elem_of_nil in Ha.
    - right. left. apply elem_of_elements. by apply elem_of_difference in Ha as [Ha _].
    - right. right. change (0 <= w < 2) in Hw. assert (E : w = 0 \/ w = 1) by lia. destruct E as [->| ->]; [left|right; left]. }
  rewrite !length_app in X. change (length (elements (tables d tabs'))) with (base.size (tables d tabs')) in X. simpl in X. lia.
Qed.

Lemma allocuvm_correct_witness : exists k l d tabs ent, uvm_ok kend0 k l d tabs ent /\
  wp (allocuvm kend0 d 0 8192) (fun r k' => r = 8192 /\ exists tabs' ent' l', uvm_ok kend0 k' l' d tabs' ent' /\
    Z.odd (ent' 0) = true /\ page_at (mem k') (upage (ent' 1)) = zero_page) k.
Proof.
  destruct demo_fresh as (k & l & d & tabs & ent & O & F & L). exists k, l, d, tabs, ent. split; [exact O|].
  eapply wp_mono.
  - apply (allocuvm_correct kend0 k l d tabs ent 0 8192 kend0_ok O); [lia|reflexivity|].
    intros w Hw. by apply F, fresh_range.
  - intros r k' (tabs' & ent' & l' & hi & O' & [[-> ->]|(_ & _ & X)] & H & _).
    + split; [done|]. exists tabs', ent', l'. split; [done|]. split; apply H; vm_compute; split; congruence.
    + change (pgs 8192 - pgs 0) with 2 in X. lia.
Defined.

Lemma freevm_returns_all_witness : exists k l d tabs ent, uvm_ok kend0 k l d tabs ent /\ Z.odd (ent 0) = true /\
  wp (freevm kend0 d true) (fun _ k' => exists l', kmem_rep kend0 k' l' /\ d ∈ l' /\ upage (ent 0) ∈ l') k.
Proof.
  destruct demo_two as (k & l & d & tabs & ent & O & [U0 _] & _ & _). exists k, l, d, tabs, ent. split; [exact O|].
  split; [exact U0|]. eapply wp_mono.
  - exact (freevm_returns_all kend0 k l d tabs ent kend0_ok O).
  - intros _ k' [(l' & R & E) _]. exists l'. split; [done|]. split; apply E; right.
    + left. apply elem_of_tables. by left.
    + right. exists 0. done.
Defined.

Lemma copyuvm_isolated_witness : exists k l d0 tabs0 ent0, uvm_ok kend0 k l d0 tabs0 ent0 /\ Z.odd (ent0 1) = true /\
  wp (copyuvm kend0 data0 d0 12288) (fun d k' => exists l' tabs ent, uvm_ok kend0 k' l' d tabs ent /\
    same_page (mem k) (mem k') (ent0 1) (ent 1) /\ same_page (mem k) (mem k') (ent0 2) (ent 2)) k.
Proof.
  destruct demo_two as (k & l & d & tabs & ent & O & _ & [U1 _] & L). exists k, l, d, tabs, ent. split; [exact O|].
  split; [exact U1|]. eapply wp_mono.
  - apply (copyuvm_isolated kend0 data0 k l d tabs ent 12288 kend0_ok eq_refl); [vm_compute; split; congruence|exact O|].
    vm_compute. split; congruence.
  - intros d' k' [_ X]. destruct (d' =? 0).
    + destruct X as [_ X]. change (1025 + pgs 12288) with 1028 in X. lia.
    + destruct X as (l' & tabs' & ent' & O' & _ & H & _). exists l', tabs', ent'. split; [done|]. split; apply H; vm_compute; split; congruence.
Defined.

Lemma copyout_correct_witness : exists k l d tabs ent, uvm_ok kend0 k l d tabs ent /\
  wp (copyout 0 d 4094 [1; 2; 3] 3) (fun r k' => r = 0 /\ uread k' ent 4095 = 2 /\ uread k' ent 4096 = 3) k.
Proof.
  destruct demo_two as (k & l & d & tabs & ent & O & U0 & U1 & L). exists k, l, d, tabs, ent. split; [exact O|].
  eapply wp_mono.
  - apply (copyout_correct kend0 0 k l d tabs ent 4094 [1; 2; 3] kend0_ok O); [lia|vm_compute; discriminate| |].
    + repeat constructor; unfold is_u8; lia.
    + intros w Hw. change (0 <= w <= 1) in Hw. assert (E : w = 0 \/ w = 1) by lia. destruct E as [->| ->]; [exact U0|exact U1].
  - intros r k' (-> & _ & H & _). split; [done|]. split.
    + rewrite H; [done|vm_compute; split; congruence|apply U0].
    + rewrite H; [done|vm_compute; split; congruence|apply U1].
Defined.

(** Address 0x40000000 has no page table; if the process has the word 7 at
    address 0, the kernel's address of physical page 0 comes back. *)
Lemma uva2ka_no_table_witness : exists k, uva2ka 7 0x80400000 0x40000000 k = Ret KERNBASE k.
Proof.
  exists (Kmem 0 false ∅). apply (uva2ka_no_table kend0 7 (Kmem 0 false ∅) [] 0x80400000 ∅ (fun _ => 0) 0x40000000).
  - apply uvm_empty; [|done]. apply (empty_dir kend0 data0); [|unfold allocatable, page_aligned, kend0, KERNBASE, PHYSTOP, PGSIZE; split; [reflexivity|lia]|apply not_elem_of_nil|reflexivity].
    split; [reflexivity|apply NoDup_nil_2|by constructor|apply map_Forall_empty].
  - vm_compute. split; congruence.
  - done.
Defined.
