(* ===== verification/FileOps.v ===== *)
(** * The interface between processes and the file layer

    proc.c passes open files and directories around as pointers: [fork]
    duplicates the references of its process, [exit] drops them.  [FileOps]
    has the calls it makes; File.v implements them over file.c, pipe.c and fs.c.
    A pointer to a [struct file] or to a cached inode is its index.  Closing the
    last end of a pipe gives its page back to the page allocator. *)

From S2P Require Import Prelude Param Kalloc.

Class FileOps (F : Type) := {
  fo_filedup : nat -> M F nat;
  fo_fileclose : nat -> M (F * kmem) unit;
  fo_idup : nat -> M F nat;
  (* [begin_op(); iput(ip); end_op();] *)
  fo_iput_op : nat -> M F unit;
  fo_namei : list Z -> M F (option nat);
  (* [iinit(ROOTDEV); initlog(ROOTDEV);] *)
  fo_init : M F unit
}.

(** What the calls promise: [fo_refs] are the reference counts of open files,
    [fo_pages] the pages that the file layer holds. *)
Class FileLaws (kend : Z) (F : Type) `{FileOps F} := {
  fo_refs : F -> nat -> Z;
  fo_pages : F -> gset Z;

  fo_filedup_law x f : 1 <= fo_refs f x < 2 ^ 31 - 1 -> exists f', fo_filedup x f = Ret x f';
  fo_filedup_ret x f y f' : fo_filedup x f = Ret y f' -> fo_refs f x < 2 ^ 31 - 1 ->
    y = x /\ fo_pages f' = fo_pages f /\ forall z, fo_refs f' z = fo_refs f z + if decide (z = x) then 1 else 0;
  fo_fileclose_ret x f k u f' k' : fo_fileclose x (f, k) = Ret u (f', k') ->
    (forall z, fo_refs f' z = fo_refs f z - if decide (z = x) then 1 else 0) /\
    (fo_pages f' = fo_pages f /\ k' = k \/
     exists a, a ∈ fo_pages f /\ fo_pages f' = fo_pages f ∖ {[a]} /\ kfree kend a k = Ret tt k');
  fo_idup_law x f : exists f', fo_idup x f = Ret x f' /\ fo_pages f' = fo_pages f /\ forall z, fo_refs f' z = fo_refs f z;
  fo_iput_ret x f u f' : fo_iput_op x f = Ret u f' -> fo_pages f' = fo_pages f /\ forall z, fo_refs f' z = fo_refs f z;
  fo_namei_ret path f r f' : fo_namei path f = Ret r f' -> fo_pages f' = fo_pages f
}.
