(* ===== verification/Proc.v ===== *)
(** * Processes (proc.c)

    The process table and the operations on it.  A pointer to a [struct proc]
    is its index in the table; the process that runs, [myproc()], is an
    argument.  Trap frames and contexts are words on the kernel stacks, in the
    same memory as the page tables.  The sections under [ptable.lock] are
    atomic; a routine that sleeps is cut at the sleep. *)

From S2P Require Import Prelude Param Layout Cstring Mmu Kalloc Vm FileOps.

(** ** Data *)

Inductive procstate := UNUSED | EMBRYO | SLEEPING | RUNNABLE | RUNNING | ZOMBIE.
#[export] Instance procstate_eq_dec : EqDecision procstate.
Proof. solve_decision. Defined.

(** [enum proc_prio]; the system calls store any number in it. *)
Definition NORMAL : Z := 0.
Definition HIGH : Z := 1.

(** What a process sleeps on: the address of a process, or another address. *)
Inductive channel := CProc (i : nat) | CAddr (a : Z).
#[export] Instance channel_eq_dec : EqDecision channel.
Proof. solve_decision. Defined.

Record proc := Proc {
  p_sz : Z;
  p_pgdir : Z;
  p_kstack : Z;
  p_state : procstate;
  p_prio : Z;
  p_pid : Z;
  p_ret : Z;
  p_parent : option nat;
  p_tf : Z;
  p_context : Z;
  p_chan : option channel;
  p_killed : Z;
  p_ofile : list (option nat);
  p_cwd : option nat;
  p_name : list Z
}.

Definition proc0 : proc :=
  Proc 0 0 0 UNUSED 0 0 0 None 0 0 None 0 (replicate (Z.to_nat NOFILE) None) None (replicate 16 0).

Definition set_sz v p := Proc v (p_pgdir p) (p_kstack p) (p_state p) (p_prio p) (p_pid p) (p_ret p) (p_parent p) (p_tf p) (p_context p) (p_chan p) (p_killed p) (p_ofile p) (p_cwd p) (p_name p).
Definition set_pgdir v p := Proc (p_sz p) v (p_kstack p) (p_state p) (p_prio p) (p_pid p) (p_ret p) (p_parent p) (p_tf p) (p_context p) (p_chan p) (p_killed p) (p_ofile p) (p_cwd p) (p_name p).
Definition set_kstack v p := Proc (p_sz p) (p_pgdir p) v (p_state p) (p_prio p) (p_pid p) (p_ret p) (p_parent p) (p_tf p) (p_context p) (p_chan p) (p_killed p) (p_ofile p) (p_cwd p) (p_name p).
Definition set_state v p := Proc (p_sz p) (p_pgdir p) (p_kstack p) v (p_prio p) (p_pid p) (p_ret p) (p_parent p) (p_tf p) (p_context p) (p_chan p) (p_killed p) (p_ofile p) (p_cwd p) (p_name p).
Definition set_prio v p := Proc (p_sz p) (p_pgdir p) (p_kstack p) (p_state p) v (p_pid p) (p_ret p) (p_parent p) (p_tf p) (p_context p) (p_chan p) (p_killed p) (p_ofile p) (p_cwd p) (p_name p).
Definition set_pid v p := Proc (p_sz p) (p_pgdir p) (p_kstack p) (p_state p) (p_prio p) v (p_ret p) (p_parent p) (p_tf p) (p_context p) (p_chan p) (p_killed p) (p_ofile p) (p_cwd p) (p_name p).
Definition set_ret v p := Proc (p_sz p) (p_pgdir p) (p_kstack p) (p_state p) (p_prio p) (p_pid p) v (p_parent p) (p_tf p) (p_context p) (p_chan p) (p_killed p) (p_ofile p) (p_cwd p) (p_name p).
Definition set_parent v p := Proc (p_sz p) (p_pgdir p) (p_kstack p) (p_state p) (p_prio p) (p_pid p) (p_ret p) v (p_tf p) (p_context p) (p_chan p) (p_killed p) (p_ofile p) (p_cwd p) (p_name p).
Definition set_tf v p := Proc (p_sz p) (p_pgdir p) (p_kstack p) (p_state p) (p_prio p) (p_pid p) (p_ret p) (p_parent p) v (p_context p) (p_chan p) (p_killed p) (p_ofile p) (p_cwd p) (p_name p).
Definition set_context v p := Proc (p_sz p) (p_pgdir p) (p_kstack p) (p_state p) (p_prio p) (p_pid p) (p_ret p) (p_parent p) (p_tf p) v (p_chan p) (p_killed p) (p_ofile p) (p_cwd p) (p_name p).
Definition set_chan v p := Proc (p_sz p) (p_pgdir p) (p_kstack p) (p_state p) (p_prio p) (p_pid p) (p_ret p) (p_parent p) (p_tf p) (p_context p) v (p_killed p) (p_ofile p) (p_cwd p) (p_name p).
Definition set_killed v p := Proc (p_sz p) (p_pgdir p) (p_kstack p) (p_state p) (p_prio p) (p_pid p) (p_ret p) (p_parent p) (p_tf p) (p_context p) (p_chan p) v (p_ofile p) (p_cwd p) (p_name p).
Definition set_ofile v p := Proc (p_sz p) (p_pgdir p) (p_kstack p) (p_state p) (p_prio p) (p_pid p) (p_ret p) (p_parent p) (p_tf p) (p_context p) (p_chan p) (p_killed p) v (p_cwd p) (p_name p).
Definition set_cwd v p := Proc (p_sz p) (p_pgdir p) (p_kstack p) (p_state p) (p_prio p) (p_pid p) (p_ret p) (p_parent p) (p_tf p) (p_context p) (p_chan p) (p_killed p) (p_ofile p) v (p_name p).
Definition set_name v p := Proc (p_sz p) (p_pgdir p) (p_kstack p) (p_state p) (p_prio p) (p_pid p) (p_ret p) (p_parent p) (p_tf p) (p_context p) (p_chan p) (p_killed p) (p_ofile p) (p_cwd p) v.

(** Sizes and offsets of [struct trapframe] and [struct context] (x86.h, proc.h). *)
Definition KSTACKSIZE : Z := 4096.
Definition sizeof_trapframe : Z := 76.
Definition tf_eax : Z := 28.
Definition tf_es : Z := 40.
Definition tf_ds : Z := 44.
Definition tf_eip : Z := 56.
Definition tf_cs : Z := 60.
Definition tf_eflags : Z := 64.
Definition tf_esp : Z := 68.
Definition tf_ss : Z := 72.
Definition sizeof_context : Z := 20.
Definition context_eip : Z := 16.

Definition SEG_UCODE : Z := 3.
Definition SEG_UDATA : Z := 4.
Definition DPL_USER : Z := 3.
Definition FL_IF : Z := 0x200.

(** [memset(a, c, n)], [*(ushort* )a = v] and the copy of [n] bytes from [b] to
    [a], each inside a page. *)
Definition set_bytes (a c n : Z) : M kmem unit :=
  modify (fun k => let p := PGROUNDDOWN a in
    set_mem (<[p := memset (page_at (mem k) p) (a mod PGSIZE) c n]> (mem k)) k).
Definition store16 (a v : Z) : M kmem unit :=
  modify (fun k => let p := PGROUNDDOWN a in
    set_mem (<[p := put16 (page_at (mem k) p) (a mod PGSIZE) v]> (mem k)) k).
Definition copy_bytes (a b n : Z) : M kmem unit :=
  modify (fun k => let p := PGROUNDDOWN a in
    set_mem (<[p := blit (page_at (mem k) p) (a mod PGSIZE)
                      (slice (page_at (mem k) (PGROUNDDOWN b)) (b mod PGSIZE) n)]> (mem k)) k).

Section proc.
(** The file layer. *)
Context {F : Type} {FO : FileOps F}.
(** [end], [data], [forkret] and [trapret] are set by the linker; [initcode] is
    the program of initcode.S. *)
Context (kend data forkret trapret : Z) (initcode : list Z).

(** [ptable], [initproc] and [nextpid]; [first] is the variable of [forkret];
    [km] is physical memory and [fl] the state of the file layer. *)
Record psys := PSys {
  ptable : list proc;
  initproc : option nat;
  nextpid : Z;
  first : bool;
  km : kmem;
  fl : F
}.

Definition set_ptable v s := PSys v (initproc s) (nextpid s) (first s) (km s) (fl s).
Definition set_initproc v s := PSys (ptable s) v (nextpid s) (first s) (km s) (fl s).
Definition set_nextpid v s := PSys (ptable s) (initproc s) v (first s) (km s) (fl s).
Definition set_first v s := PSys (ptable s) (initproc s) (nextpid s) v (km s) (fl s).
Definition set_km v s := PSys (ptable s) (initproc s) (nextpid s) (first s) v (fl s).
Definition set_fl v s := PSys (ptable s) (initproc s) (nextpid s) (first s) (km s) v.

Definition proc_at (s : psys) (i : nat) : proc := default proc0 (ptable s !! i).
Definition pmod (i : nat) (f : proc -> proc) : M psys unit :=
  modify (fun s => set_ptable (<[i := f (proc_at s i)]> (ptable s)) s).
Definition pget (i : nat) : M psys proc := gets (fun s => proc_at s i).
Definition km_op {A} (m : M kmem A) : M psys A := zoom km set_km m.
Definition fl_op {A} (m : M F A) : M psys A := zoom fl set_fl m.
Definition flk_op {A} (m : M (F * kmem) A) : M psys A :=
  zoom (fun s => (fl s, km s)) (fun x s => set_km x.2 (set_fl x.1 s)) m.

(** ** Creation *)

Definition allocproc : M psys (option nat) :=
  s ← get;
  match list_find (fun p => p_state p = UNUSED) (ptable s) with
  | None => mret None
  | Some (i, _) =>
      pmod i (fun p => set_pid (nextpid s) (set_state EMBRYO p));;
      modify (fun s => set_nextpid (s32 (nextpid s + 1)) s);;
      ks ← km_op kalloc;
      pmod i (set_kstack ks);;
      if ks =? 0 then
        pmod i (set_state UNUSED);;
        mret None
      else
        let sp := ks + KSTACKSIZE - sizeof_trapframe in
        pmod i (set_tf sp);;
        let sp := sp - 4 in
        km_op (store sp trapret);;
        let sp := sp - sizeof_context in
        pmod i (set_context sp);;
        km_op (set_bytes sp 0 sizeof_context);;
        km_op (store (sp + context_eip) forkret);;
        mret (Some i)
  end.

(** The access through a null pointer. *)
Definition null_access {A} : M psys A := panic "trap".

Definition userinit : M psys unit :=
  r ← allocproc;
  match r with
  | None => null_access
  | Some p =>
      modify (set_initproc (Some p));;
      pmod p (set_prio NORMAL);;
      d ← km_op (setupkvm kend data);
      pmod p (set_pgdir d);;
      if d =? 0 then panic "userinit: out of memory?"
      else
        km_op (inituvm d initcode (zlen initcode));;
        pmod p (set_sz PGSIZE);;
        c ← pget p;
        let tf := p_tf c in
        km_op (set_bytes tf 0 sizeof_trapframe);;
        km_op (store16 (tf + tf_cs) (Z.lor (Z.shiftl SEG_UCODE 3) DPL_USER));;
        km_op (store16 (tf + tf_ds) (Z.lor (Z.shiftl SEG_UDATA 3) DPL_USER));;
        km_op (store16 (tf + tf_es) (Z.lor (Z.shiftl SEG_UDATA 3) DPL_USER));;
        km_op (store16 (tf + tf_ss) (Z.lor (Z.shiftl SEG_UDATA 3) DPL_USER));;
        km_op (store (tf + tf_eflags) FL_IF);;
        km_op (store (tf + tf_esp) PGSIZE);;
        km_op (store (tf + tf_eip) 0);;
        pmod p (fun p => set_name (safestrcpy (p_name p) (cstring "initcode") 16) p);;
        cwd ← fl_op (fo_namei (cstring "/"));
        pmod p (set_cwd cwd);;
        pmod p (set_state RUNNABLE)
  end.

(** [n] is an [int] added to an unsigned size. *)
Definition growproc (cur : nat) (n : Z) : M psys Z :=
  c ← pget cur;
  let sz := p_sz c in
  if 0 <? n then
    sz' ← km_op (allocuvm kend (p_pgdir c) sz (u32 (sz + n)));
    if sz' =? 0 then mret (-1) else pmod cur (set_sz sz');; mret 0
  else if n <? 0 then
    sz' ← km_op (deallocuvm kend (p_pgdir c) sz (u32 (sz + n)));
    if sz' =? 0 then mret (-1) else pmod cur (set_sz sz');; mret 0
  else mret 0.

(** The loop of [fork] over the open files. *)
Fixpoint fork_files (cur np : nat) (i : Z) (n : nat) : M psys unit :=
  match n with
  | O => mret tt
  | S n' =>
      c ← pget cur;
      (match rd None (p_ofile c) i with
       | Some f =>
           f' ← fl_op (fo_filedup f);
           pmod np (fun p => set_ofile (wr (p_ofile p) i (Some f')) p)
       | None => mret tt
       end);;
      fork_files cur np (i + 1) n'
  end.

Definition fork (cur : nat) : M psys Z :=
  r ← allocproc;
  match r with
  | None => mret (-1)
  | Some np =>
      c ← pget cur;
      d ← km_op (copyuvm kend data (p_pgdir c) (p_sz c));
      pmod np (set_pgdir d);;
      if d =? 0 then
        q ← pget np;
        km_op (kfree kend (p_kstack q));;
        pmod np (fun p => set_state UNUSED (set_kstack 0 p));;
        mret (-1)
      else
        pmod np (fun p => set_parent (Some cur) (set_sz (p_sz c) p));;
        q ← pget np;
        km_op (copy_bytes (p_tf q) (p_tf c) sizeof_trapframe);;
        km_op (store (p_tf q + tf_eax) 0);;
        fork_files cur np 0 (Z.to_nat NOFILE);;
        match p_cwd c with
        | None => null_access
        | Some ip =>
            ip' ← fl_op (fo_idup ip);
            pmod np (set_cwd (Some ip'));;
            pmod np (fun p => set_name (safestrcpy (p_name p) (p_name c) 16) p);;
            q ← pget np;
            pmod np (fun p => set_state RUNNABLE (set_prio (p_prio c) p));;
            mret (p_pid q)
        end
  end.

(** ** Sleep and wakeup *)

(** [sleep] up to [sched], and after it. *)
Definition sleep_begin (cur : nat) (ch : option channel) : M psys unit :=
  pmod cur (fun p => set_state SLEEPING (set_chan ch p)).
Definition sleep_end (cur : nat) : M psys unit := pmod cur (set_chan None).

Definition wakeup1 (ch : option channel) : M psys unit :=
  modify (fun s => set_ptable ((fun p =>
    if bool_decide (p_state p = SLEEPING) && bool_decide (p_chan p = ch) then set_state RUNNABLE p else p)
    <$> ptable s) s).
Definition wakeup (ch : option channel) : M psys unit := wakeup1 ch.

Definition yield (cur : nat) : M psys unit := pmod cur (set_state RUNNABLE).

Definition forkret_first : M psys unit :=
  s ← get;
  if first s then modify (set_first false);; fl_op fo_init else mret tt.

Definition kill (pid : Z) : M psys Z :=
  s ← get;
  match list_find (fun p => p_pid p = pid) (ptable s) with
  | Some (i, _) =>
      pmod i (fun p => let p := set_killed 1 p in
                       if bool_decide (p_state p = SLEEPING) then set_state RUNNABLE p else p);;
      mret 0
  | None => mret (-1)
  end.

Definition getprocprio (pid : Z) : M psys Z :=
  s ← get;
  match list_find (fun p => p_pid p = pid) (ptable s) with
  | Some (_, p) => mret (p_prio p)
  | None => mret NORMAL
  end.

Definition setprocprio (pid prio : Z) : M psys unit :=
  s ← get;
  match list_find (fun p => p_pid p = pid) (ptable s) with
  | Some (i, _) => pmod i (set_prio prio)
  | None => mret tt
  end.

(** ** Exit and wait *)

Fixpoint close_files (cur : nat) (fd : Z) (n : nat) : M psys unit :=
  match n with
  | O => mret tt
  | S n' =>
      c ← pget cur;
      (match rd None (p_ofile c) fd with
       | Some f =>
           flk_op (fo_fileclose f);;
           pmod cur (fun p => set_ofile (wr (p_ofile p) fd None) p)
       | None => mret tt
       end);;
      close_files cur (fd + 1) n'
  end.

(** The loop of [exit] that passes the children to [init]. *)
Fixpoint reparent (cur : nat) (i n : nat) : M psys unit :=
  match n with
  | O => mret tt
  | S n' =>
      p ← pget i;
      (if bool_decide (p_parent p = Some cur) then
         s ← get;
         pmod i (set_parent (initproc s));;
         if bool_decide (p_state p = ZOMBIE) then wakeup1 (CProc <$> initproc s) else mret tt
       else mret tt);;
      reparent cur (S i) n'
  end.

(** [exit] up to [sched], from which it does not return. *)
Definition exit (cur : nat) (status : Z) : M psys unit :=
  s ← get;
  if bool_decide (initproc s = Some cur) then panic "init exiting"
  else
    close_files cur 0 (Z.to_nat NOFILE);;
    c ← pget cur;
    match p_cwd c with
    | None => null_access
    | Some ip =>
        fl_op (fo_iput_op ip);;
        pmod cur (set_cwd None);;
        c ← pget cur;
        wakeup1 (CProc <$> p_parent c);;
        reparent cur 0 NPROC;;
        km_op (deallocuvm kend (p_pgdir c) KERNBASE 0);;
        pmod cur (fun p => set_ret status (set_state ZOMBIE p))
    end.

(** The scan of [wait]: an exited child, or whether there are children. *)
Fixpoint wait_scan (cur : nat) (l : list proc) (i : nat) (havekids : bool) : nat + bool :=
  match l with
  | [] => inr havekids
  | p :: l' =>
      if bool_decide (p_parent p = Some cur) then
        if bool_decide (p_state p = ZOMBIE) then inl i else wait_scan cur l' (S i) true
      else wait_scan cur l' (S i) havekids
  end.

(** One iteration of the loop of [wait]: its result with the exit status, or
    [None] when the process has gone to sleep. *)
Definition wait (cur : nat) : M psys (option (Z * Z)) :=
  s ← get;
  match wait_scan cur (ptable s) 0 false with
  | inl i =>
      p ← pget i;
      km_op (kfree kend (p_kstack p));;
      pmod i (set_kstack 0);;
      km_op (freevm kend (p_pgdir p) false);;
      pmod i (fun p => set_state UNUSED (set_killed 0
        (set_name (wr (p_name p) 0 0) (set_parent None (set_pid 0 p)))));;
      mret (Some (p_pid p, p_ret p))
  | inr havekids =>
      c ← pget cur;
      if negb havekids || negb (p_killed c =? 0) then mret (Some (-1, 0))
      else sleep_begin cur (Some (CProc cur));; mret None
  end.
End proc.

Arguments psys F : clear implicits.
