(* ===== verification/Sched.v ===== *)
(** * The scheduler (proc.c)

    One round of the loop of [scheduler].  While a process runs, the table
    changes in ways the scheduler does not control: [run n i T] is the table when
    the [n]th dispatched process, process [i], gives the processor back, with [T]
    the table when it was dispatched. *)

From S2P Require Import Prelude Param Proc.

(** [c->proc = p], [p->state = RUNNING] and the switch to the process and back. *)
Record sched_state := Sched {
  sc_tab : list proc;
  sc_trace : list (nat * Z)      (* the processes dispatched and their priorities, the last one first *)
}.

Section sched.
Context (run : nat -> nat -> list proc -> list proc).

Definition dispatch (i : nat) (p : proc) (s : sched_state) : sched_state :=
  let T := <[i := set_state RUNNING p]> (sc_tab s) in
  Sched (run (length (sc_trace s)) i T) ((i, p_prio p) :: sc_trace s).

(** The first loop: runs the processes of high priority and finds the first of
    the others. *)
Fixpoint scan_high (n i : nat) (s : sched_state) (nalta : Z) (pnormal : option nat) : sched_state * Z * option nat :=
  match n with
  | O => (s, nalta, pnormal)
  | S n' =>
      let p := default proc0 (sc_tab s !! i) in
      if negb (bool_decide (p_state p = RUNNABLE)) then scan_high n' (S i) s nalta pnormal
      else if p_prio p =? HIGH then scan_high n' (S i) (dispatch i p s) (u32 (nalta + 1)) pnormal
      else scan_high n' (S i) s nalta (match pnormal with None => Some i | Some j => Some j end)
  end.

(** The second loop. *)
Fixpoint scan_all (n i : nat) (s : sched_state) : sched_state :=
  match n with
  | O => s
  | S n' =>
      let p := default proc0 (sc_tab s !! i) in
      if negb (bool_decide (p_state p = RUNNABLE)) then scan_all n' (S i) s
      else scan_all n' (S i) (dispatch i p s)
  end.

(** One iteration of the outer loop, up to [release]. *)
Definition round (T : list proc) : sched_state :=
  match scan_high NPROC 0 (Sched T []) 0 None with
  | (s, nalta, Some j) => if nalta =? 0 then scan_all (NPROC - j) j s else s
  | (s, _, None) => s
  end.

(** ** Who is dispatched *)

(** Process [i] is runnable with priority [pr] and stays so until it is
    dispatched. *)
Definition waiting (i : nat) (pr : Z) (T : list proc) : Prop :=
  exists p, T !! i = Some p /\ p_state p = RUNNABLE /\ p_prio p = pr.
Definition undisturbed (i : nat) (pr : Z) : Prop :=
  forall n j T, j ≠ i -> waiting i pr T -> waiting i pr (run n j T).

Lemma waiting_insert i j pr T q : waiting i pr T -> j ≠ i -> waiting i pr (<[j := q]> T).
Proof. intros (p & H & X) N. exists p. by rewrite list_lookup_insert_ne. Qed.

Lemma waiting_dispatch i j pr p s : undisturbed i pr -> j ≠ i -> waiting i pr (sc_tab s) -> waiting i pr (sc_tab (dispatch j p s)).
Proof. intros U N W. apply U; [done|]. by apply waiting_insert. Qed.

(** The first loop counts what it dispatches, which has high priority. *)
Lemma scan_high_trace n i s na pn : 0 <= na -> na + Z.of_nat n < 2 ^ 32 ->
  exists l, sc_trace (scan_high n i s na pn).1.1 = l ++ sc_trace s /\ (scan_high n i s na pn).1.2 = na + Z.of_nat (length l) /\
    Forall (fun x => x.2 = HIGH) l /\ (length l <= n)%nat.
Proof.
  revert i s na pn. induction n as [|n IH]; intros i s na pn H0 H1; cbn [scan_high].
  { exists []. simpl. split_and!; try done; lia. }
  destruct (negb _); [|destruct (Z.eqb_spec (p_prio (default proc0 (sc_tab s !! i))) HIGH) as [E|E]].
  - destruct (IH (S i) s na pn) as (l & A & B & C & D); [lia|lia|]. exists l. split_and!; try done; lia.
  - rewrite u32_id by mlia. set (p := default _ _) in *.
    destruct (IH (S i) (dispatch i p s) (na + 1) pn) as (l & A & B & C & D); [lia|lia|]. exists (l ++ [(i, p_prio p)]). split_and!.
    + rewrite A. simpl. by rewrite <- app_assoc.
    + rewrite B, length_app. simpl. lia.
    + apply Forall_app. split; [done|]. by constructor.
    + rewrite length_app. simpl. lia.
  - destruct (IH (S i) s na (match pn with None => Some i | Some j => Some j end)) as (l & A & B & C & D); [lia|lia|].
    exists l. split_and!; try done; lia.
Qed.

Lemma scan_high_waits i n : forall k s na pn, undisturbed i HIGH -> waiting i HIGH (sc_tab s) -> (k <= i < k + n)%nat ->
  exists pr, (i, pr) ∈ sc_trace (scan_high n k s na pn).1.1.
Proof.
  induction n as [|n IH]; intros k s na pn U W Hk; [lia|]. cbn [scan_high]. destruct (decide (k = i)) as [->|N].
  - destruct W as (p & Hp & Ep & Eh). rewrite Hp. simpl. rewrite bool_decide_true by done. simpl. rewrite Eh. simpl.
    exists (p_prio p). assert (X : exists l, sc_trace (scan_high n (S i) (dispatch i p s) (u32 (na + 1)) pn).1.1 = l ++ sc_trace (dispatch i p s)).
    { clear. generalize (S i) (dispatch i p s) (u32 (na + 1)) pn. induction n as [|n IH]; intros k s' na' pn'; [by exists []|]. cbn [scan_high].
      destruct (negb _); [apply IH|]. destruct (_ =? _); [|apply IH]. destruct (IH (S k) (dispatch k (default proc0 (sc_tab s' !! k)) s') (u32 (na' + 1)) pn') as [l ->].
      eexists (l ++ [_]). simpl. by rewrite <- app_assoc. }
    destruct X as [l ->]. apply elem_of_app. right. by left.
  - destruct (negb _); [apply IH; [done|done|lia]|]. destruct (_ =? _); apply IH; try done; try lia. by apply waiting_dispatch.
Qed.

(** Without high priority the first loop changes nothing and finds a process
    no later than any that waits. *)
Lemma scan_high_idle i pr n : forall k s na pn, 0 <= na -> na + Z.of_nat n < 2 ^ 32 ->
  (scan_high n k s na pn).1.2 = na -> waiting i pr (sc_tab s) ->
  (forall j, pn = Some j -> (j <= k)%nat) -> ((k <= i < k + n)%nat \/ exists j, pn = Some j /\ (j <= i)%nat) ->
  (scan_high n k s na pn).1.1 = s /\ exists j, (scan_high n k s na pn).2 = Some j /\ (j <= i)%nat.
Proof.
  induction n as [|n IH]; intros k s na pn H0 H1 Hna W Hp Hk; cbn [scan_high] in *.
  { destruct Hk as [Hk|(j & -> & Hj)]; [lia|]. split; [done|]. by exists j. }
  destruct (bool_decide (p_state _ = RUNNABLE)) eqn:Eb; cbn [negb] in *;
    [destruct (Z.eqb_spec (p_prio (default proc0 (sc_tab s !! k))) HIGH) as [E|E]|].
  - exfalso. rewrite u32_id in Hna by mlia.
    destruct (scan_high_trace n (S k) (dispatch k (default proc0 (sc_tab s !! k)) s) (na + 1) pn) as (l & _ & X & _); [lia|lia|]. lia.
  - apply IH; [lia|lia|done|done| |].
    + destruct pn as [j'|]; intros j [= <-]; [specialize (Hp j' eq_refl)|]; lia.
    + destruct Hk as [Hk|(j & -> & Hj)]; [|right; by exists j].
      destruct (decide (k = i)) as [->|N]; [|left; lia]. right. destruct pn as [j|]; [|by exists i]. exists j. split; [done|]. by apply Hp.
  - apply IH; [lia|lia|done|done| |].
    + intros j Hj. specialize (Hp j Hj). lia.
    + destruct Hk as [Hk|Hk]; [|by right]. left. destruct (decide (k = i)) as [->|N]; [|lia].
      destruct W as (p & Hp' & Ep & _). rewrite Hp' in Eb. simpl in Eb. by rewrite bool_decide_true in Eb.
Qed.

Lemma scan_all_trace n : forall k s, exists l, sc_trace (scan_all n k s) = l ++ sc_trace s.
Proof.
  induction n as [|n IH]; intros k s; [by exists []|]. cbn [scan_all]. destruct (negb _); [apply IH|].
  destruct (IH (S k) (dispatch k (default proc0 (sc_tab s !! k)) s)) as [l ->]. eexists (l ++ [_]). simpl. by rewrite <- app_assoc.
Qed.

Lemma scan_all_waits i pr n : forall k s, undisturbed i pr -> waiting i pr (sc_tab s) -> (k <= i < k + n)%nat ->
  exists pr', (i, pr') ∈ sc_trace (scan_all n k s).
Proof.
  induction n as [|n IH]; intros k s U W Hk; [lia|]. cbn [scan_all]. destruct (decide (k = i)) as [->|N].
  - destruct W as (p & Hp & Ep & Eh). rewrite Hp. simpl. rewrite bool_decide_true by done. simpl. exists (p_prio p).
    destruct (scan_all_trace n (S i) (dispatch i p s)) as [l ->]. apply elem_of_app. right. by left.
  - destruct (negb _); apply IH; try done; try lia. by apply waiting_dispatch.
Qed.


(** Priority.  As long as a process of high priority is runnable when a
    round begins, and is left alone, only processes of high priority are
    dispatched in that round. *)
Theorem high_priority_first T i : waiting i HIGH T -> undisturbed i HIGH -> (i < NPROC)%nat ->
  Forall (fun x => x.2 = HIGH) (sc_trace (round T)).
Proof.
  intros W U Hi. unfold round. assert (L := scan_high_trace NPROC 0 (Sched T []) 0 None ltac:(lia) ltac:(done)).
  destruct (scan_high_waits i NPROC 0 (Sched T []) 0 None U W ltac:(lia)) as [pr Hin].
  destruct (scan_high NPROC 0 (Sched T []) 0 None) as [[s na] pn]. cbn [fst snd sc_tab sc_trace] in *.
  destruct L as (l & El & En & Hl & _). rewrite app_nil_r in El. rewrite El in Hin.
  assert (na ≠ 0) by (destruct l; [by apply elem_of_nil in Hin|simpl in En; lia]).
  rewrite (proj2 (Z.eqb_neq na 0)) by done. destruct pn; by rewrite El.
Qed.
End sched.

(** A table with process 0 asleep with high priority and processes 1 and 2
    runnable; the first process that runs wakes process 0. *)
Definition demo_table : list proc :=
  [set_prio HIGH (set_state SLEEPING proc0); set_state RUNNABLE proc0; set_state RUNNABLE proc0].
Definition demo_run (n i : nat) (T : list proc) : list proc :=
  <[0%nat := set_prio HIGH (set_state RUNNABLE proc0)]> (<[i := set_state RUNNABLE proc0]> T).

(** After a process of normal priority the scheduler does not look for
    processes of high priority again, as its comment says: all runnable
    processes later in the table run first.  Here process 1 makes process 0, of
    high priority, runnable, and process 2 is dispatched before it. *)
Theorem scheduler_high_waits :
  sc_trace (round demo_run demo_table) = [(2%nat, NORMAL); (1%nat, NORMAL)] /\
  waiting 0 HIGH (demo_run 0 1 (<[1%nat := set_state RUNNING proc0]> demo_table)).
Proof. split; [vm_compute; done|]. eexists. split; [vm_compute; reflexivity|done]. Qed.


Lemma high_priority_first_witness :
  Forall (fun x => x.2 = HIGH) (sc_trace (round (fun _ _ T => T) [set_state RUNNABLE proc0; set_prio HIGH (set_state RUNNABLE proc0)])).
Proof.
  apply (high_priority_first _ _ 1).
  - by eexists.
  - by intros n j T _ X.
  - unfold NPROC. lia.
Defined.
