(* ===== verification/ProcTable.v ===== *)
(** * The process table: invariants of every execution

    A step relation runs the operations of proc.c in any order, by any number
    of running processes.  In every reachable state process identifiers are
    unique, the parent of a process is alive, and a process that sleeps in
    [wait] has a child and none that has exited: no wakeup is lost.  Exit
    statuses are delivered once and unchanged. *)

From S2P Require Import Prelude Param Layout Cstring Mmu Kalloc Vm FileOps Proc.

Definition used (p : proc) : Prop := p_state p ≠ UNUSED.
Definition live (p : proc) : Prop := p_state p ≠ UNUSED /\ p_state p ≠ ZOMBIE.
#[export] Instance used_dec p : Decision (used p).
Proof. unfold used. apply _. Defined.

(** ** What the operations do to the table *)

Section table.
Context {F : Type} {FO : FileOps F}.
Context (kend data forkret trapret : Z) (initcode : list Z).
Implicit Types (s : psys F) (T : list proc).
Notation St := (@PSys F).

Lemma proc_at_insert T i q ip np fs k f : (i < length T)%nat -> proc_at (St (<[i := q]> T) ip np fs k f) i = q.
Proof. intros H. unfold proc_at. simpl. by rewrite list_lookup_insert_eq. Qed.

Lemma proc_at_insert_ne T i j q ip np fs k f : i ≠ j ->
  proc_at (St (<[i := q]> T) ip np fs k f) j = proc_at (St T ip np fs k f) j.
Proof. intros H. unfold proc_at. simpl. by rewrite list_lookup_insert_ne. Qed.

Lemma lp_pmod T i q g ip np fs k f Q : (i < length T)%nat ->
  Q tt (St (<[i := g q]> T) ip np fs k f) -> lp (pmod i g) Q (St (<[i := q]> T) ip np fs k f).
Proof.
  intros Hi H. apply lp_modify. unfold set_ptable. simpl. by rewrite proc_at_insert, list_insert_insert_eq.
Qed.

Lemma lp_pmod_first T i p g ip np fs k f Q : T !! i = Some p ->
  Q tt (St (<[i := g p]> T) ip np fs k f) -> lp (pmod i g) Q (St T ip np fs k f).
Proof.
  intros Hi H. apply lp_modify. unfold set_ptable, proc_at. simpl. by rewrite Hi.
Qed.

Lemma lp_pget i s Q : Q (proc_at s i) s -> lp (pget i) Q s.
Proof. intros H. by apply lp_gets. Qed.

Lemma lp_km {A} (m : M kmem A) T ip np fs k f Q :
  (forall a k', Q a (St T ip np fs k' f)) -> lp (km_op m) Q (St T ip np fs k f).
Proof. intros H. apply lp_zoom. intros a k' _. apply H. Qed.

Lemma lp_km_eq {A} (m : M kmem A) T ip np fs k f Q :
  (forall a k', m k = Ret a k' -> Q a (St T ip np fs k' f)) -> lp (km_op m) Q (St T ip np fs k f).
Proof. intros H. apply lp_zoom. intros a k' E. by apply H. Qed.

Lemma lp_fl {A} (m : M F A) T ip np fs k f Q :
  (forall a f', Q a (St T ip np fs k f')) -> lp (fl_op m) Q (St T ip np fs k f).
Proof. intros H. apply lp_zoom. intros a f' _. apply H. Qed.

(** The fields of a slot that creation leaves alone. *)
Definition kept (p p' : proc) : Prop :=
  p_parent p' = p_parent p /\ p_chan p' = p_chan p /\ p_killed p' = p_killed p /\ p_ofile p' = p_ofile p.

Lemma lp_allocproc s :
  lp (allocproc forkret trapret) (fun r s' => (initproc s' = initproc s /\ fl s' = fl s) /\
    match r with
    | None => ptable s' = ptable s /\ nextpid s' = nextpid s \/ nextpid s' = s32 (nextpid s + 1) /\
        exists i p p', ptable s !! i = Some p /\ ptable s' = <[i := p']> (ptable s) /\ p_state p = UNUSED /\
          p_state p' = UNUSED /\ kept p p'
    | Some i => nextpid s' = s32 (nextpid s + 1) /\
        exists p p', ptable s !! i = Some p /\ ptable s' = <[i := p']> (ptable s) /\ p_state p = UNUSED /\
          p_state p' = EMBRYO /\ kept p p' /\ p_pid p' = nextpid s
    end) s.
Proof.
  destruct s as [T ip np fs k f]. unfold allocproc. lp_step. lp_step. simpl.
  destruct (list_find _ T) as [[i p]|] eqn:E; [|lp_step; auto].
  apply list_find_Some in E as (Hi & Hu & _). assert (Hl := lookup_lt_Some _ _ _ Hi).
  lp_step. eapply lp_pmod_first; [exact Hi|]. lp_step. lp_step. unfold set_nextpid. simpl.
  lp_step. apply lp_km. intros ks k1. lp_step. apply lp_pmod; [done|]. destruct (ks =? 0).
  - lp_step. apply lp_pmod; [done|]. lp_step. simpl. split; [done|]. right. split; [done|]. eexists i, p, _. split; [done|]. split; [reflexivity|]. by repeat split.
  - lp_step. apply lp_pmod; [done|]. lp_step. apply lp_km. intros [] k2. lp_step. apply lp_pmod; [done|].
    lp_step. apply lp_km. intros [] k3. lp_step. apply lp_km. intros [] k4. lp_step. simpl. split; [done|]. split; [done|]. eexists p, _. split; [done|]. split; [reflexivity|]. by repeat split.
Qed.

(** The loops over open files touch only [ofile]. *)
Definition same_but_files (p p' : proc) : Prop :=
  p_state p' = p_state p /\ p_pid p' = p_pid p /\ p_parent p' = p_parent p /\ p_chan p' = p_chan p /\
  p_killed p' = p_killed p /\ p_prio p' = p_prio p /\ p_kstack p' = p_kstack p /\ p_pgdir p' = p_pgdir p /\
  p_tf p' = p_tf p /\ p_sz p' = p_sz p /\ p_ret p' = p_ret p /\ p_cwd p' = p_cwd p.

Lemma lp_fork_files cur np0 n : forall T i q ip np fs k f Q, (np0 < length T)%nat ->
  (forall q' f', same_but_files q q' -> Q tt (St (<[np0 := q']> T) ip np fs k f')) ->
  lp (fork_files cur np0 i n) Q (St (<[np0 := q]> T) ip np fs k f).
Proof.
  induction n as [|n IH]; intros T i q ip np fs k f Q Hn H; cbn [fork_files].
  { lp_step. by apply H. }
  lp_step. apply lp_pget. lp_step. destruct (rd _ _ _).
  - lp_step. apply lp_fl. intros f1 f'. apply lp_pmod; [done|]. apply IH; [done|]. intros q' f'' X. apply H. exact X.
  - lp_step. by apply IH.
Qed.

(** Some files are closed. *)
Definition closes : F * kmem -> F * kmem -> Prop := rtc (fun x y => exists i u, fo_fileclose i x = Ret u y).

Lemma lp_close_files cur n : forall T i q ip np fs k f Q, (cur < length T)%nat ->
  (forall q' f' k', same_but_files q q' -> closes (f, k) (f', k') -> Q tt (St (<[cur := q']> T) ip np fs k' f')) ->
  lp (close_files cur i n) Q (St (<[cur := q]> T) ip np fs k f).
Proof.
  induction n as [|n IH]; intros T i q ip np fs k f Q Hn H; cbn [close_files].
  { lp_step. by apply H. }
  lp_step. apply lp_pget. lp_step. destruct (rd _ _ _) as [x|].
  - lp_step. apply lp_zoom. cbn [fl km]. intros u [f1 k1] E. apply lp_pmod; [done|]. apply IH; [done|].
    intros q' f' k' X C. apply H; [exact X|]. eapply rtc_l; [|exact C]. by exists x, u.
  - lp_step. by apply IH.
Qed.

(** [fork]: nothing but an unused slot changes, or the slot holds the child. *)
Lemma lp_fork cur s :
  lp (fork kend data forkret trapret cur) (fun r s' => initproc s' = initproc s /\
    (ptable s' = ptable s /\ nextpid s' = nextpid s \/ nextpid s' = s32 (nextpid s + 1) /\
     exists i p p', ptable s !! i = Some p /\ ptable s' = <[i := p']> (ptable s) /\ p_state p = UNUSED /\
       (p_state p' = UNUSED /\ p_parent p' = p_parent p \/
        r = nextpid s /\ p_state p' = RUNNABLE /\ p_parent p' = Some cur /\ p_pid p' = nextpid s /\
        p_chan p' = p_chan p /\ p_killed p' = p_killed p /\ (cur ≠ i -> p_prio p' = p_prio (proc_at s cur))))) s.
Proof.
  unfold fork. lp_step. eapply lp_mono; [apply lp_allocproc|]. intros [i|] [T' ip np fs k f] [[E _] H]; cbn [initproc ptable nextpid] in *.
  - destruct H as (En & p & p' & Hi & -> & Hu & Hp' & Hk & Hd). assert (Hl := lookup_lt_Some _ _ _ Hi). subst ip np.
    lp_step. apply lp_pget. lp_step. apply lp_km. intros d k1. lp_step. apply lp_pmod; [done|].
    set (c := proc_at _ cur). destruct (d =? 0).
    + lp_step. apply lp_pget. lp_step. apply lp_km. intros [] k2. lp_step. apply lp_pmod; [done|]. lp_step. simpl.
      split; [done|]. right. split; [done|]. eexists i, p, _. split; [done|]. split; [done|]. split; [done|]. left. split; [done|]. apply Hk.
    + lp_step. apply lp_pmod; [done|]. lp_step. apply lp_pget. lp_step. apply lp_km. intros [] k2. lp_step. apply lp_km. intros [] k3.
      lp_step. apply lp_fork_files; [done|]. intros q f' (Q1 & Q2 & Q3 & Q4 & Q5 & _). destruct (p_cwd c); [|apply lp_panic].
      lp_step. apply lp_fl. intros ip' f''. lp_step. apply lp_pmod; [done|]. lp_step. apply lp_pmod; [done|].
      lp_step. apply lp_pget. rewrite proc_at_insert by done. lp_step. apply lp_pmod; [done|]. lp_step. simpl.
      split; [done|]. right. split; [done|]. eexists i, p, _. split; [done|]. split; [done|]. split; [done|]. right.
      cbn in *. destruct Hk as (K1 & K2 & K3 & K4). split_and!; try congruence. intros Hne. subst c.
      unfold proc_at. simpl. by rewrite list_lookup_insert_ne by done.
  - destruct H as [[-> ->]|(-> & i & p & p' & Hi & -> & Hu & Hu' & Hk)]; lp_step; simpl; (split; [done|]); [by left|right].
    split; [done|]. exists i, p, p'. split; [done|]. split; [done|]. split; [done|]. left. split; [done|]. apply Hk.
Qed.

(** What [wakeup1] does to a process, and the loop of [exit] to a child. *)
Definition wake (ch : option channel) (p : proc) : proc :=
  if bool_decide (p_state p = SLEEPING) && bool_decide (p_chan p = ch) then set_state RUNNABLE p else p.
Definition adopt (cur : nat) (ip : option nat) (p : proc) : proc :=
  if bool_decide (p_parent p = Some cur) then set_parent ip p else p.
Definition wake_if (w : bool) (ch : option channel) (p : proc) : proc := if w then wake ch p else p.

(** The memory of a process is where it was. *)
Definition same_place (p p' : proc) : Prop :=
  p_pgdir p' = p_pgdir p /\ p_kstack p' = p_kstack p /\ p_tf p' = p_tf p.

Lemma wake_place ch p : same_place p (wake ch p).
Proof. unfold wake. by destruct (bool_decide _ && _). Qed.

Lemma same_place_trans p q r : same_place p q -> same_place q r -> same_place p r.
Proof. intros (A1 & A2 & A3) (B1 & B2 & B3). split_and!; congruence. Qed.

Lemma wake_fields ch p : p_parent (wake ch p) = p_parent p /\ p_pid (wake ch p) = p_pid p /\ p_ret (wake ch p) = p_ret p /\
  p_chan (wake ch p) = p_chan p /\ p_killed (wake ch p) = p_killed p /\
  (p_state (wake ch p) = p_state p \/ p_state p = SLEEPING /\ p_state (wake ch p) = RUNNABLE).
Proof. unfold wake. destruct (decide (p_state p = SLEEPING)) as [E|E]; [|rewrite bool_decide_false by done; simpl; tauto].
  rewrite bool_decide_true by done. simpl. destruct (bool_decide _); simpl; tauto. Qed.

Lemma wake_zombie ch p : p_state (wake ch p) = ZOMBIE <-> p_state p = ZOMBIE.
Proof. destruct (wake_fields ch p) as (_ & _ & _ & _ & _ & [->|[-> ->]]); naive_solver. Qed.

Lemma wake_adopt ch cur ip p : adopt cur ip (wake ch p) = wake ch (adopt cur ip p).
Proof. unfold adopt, wake. destruct p; simpl. repeat (case_bool_decide || simpl); naive_solver. Qed.

Lemma wake_wake ch p : wake ch (wake ch p) = wake ch p.
Proof. unfold wake. destruct p; simpl. repeat (case_bool_decide || simpl); naive_solver. Qed.

Lemma adopt_child cur ip p : p_parent p = Some cur -> adopt cur ip p = set_parent ip p.
Proof. intros E. unfold adopt. by rewrite bool_decide_true. Qed.
Lemma adopt_other cur ip p : p_parent p ≠ Some cur -> adopt cur ip p = p.
Proof. intros E. unfold adopt. by rewrite bool_decide_false. Qed.

Lemma lp_wakeup1 ch T ip np fs k f Q :
  Q tt (St (wake ch <$> T) ip np fs k f) -> lp (wakeup1 ch) Q (St T ip np fs k f).
Proof. intros H. by apply lp_modify. Qed.

Lemma lp_reparent cur n : forall i T ip np fs k f Q,
  (forall T' w, (forall j, T' !! j = (fun p => wake_if w (CProc <$> ip) (if decide (i <= j < i + n)%nat then adopt cur ip p else p)) <$> T !! j) ->
     (w = true <-> exists j p, (i <= j < i + n)%nat /\ T !! j = Some p /\ p_parent p = Some cur /\ p_state p = ZOMBIE) ->
     Q tt (St T' ip np fs k f)) ->
  lp (reparent cur i n) Q (St T ip np fs k f).
Proof.
  induction n as [|n IH]; intros i T ip np fs k f Q H; cbn [reparent].
  { lp_step. apply (H T false).
    - intros j. destruct (T !! j); simpl; [|done]. by rewrite decide_False by lia.
    - split; [done|]. intros (j & p & Hj & _). lia. }
  lp_step. apply lp_pget. unfold proc_at. simpl. lp_step. destruct (T !! i) as [p|] eqn:Ei; simpl; cycle 1.
  { lp_step. apply IH. intros T' w H1 H2. apply (H T' w).
    - intros j. rewrite H1. destruct (decide (j = i)) as [->|]; [by rewrite Ei|]. by repeat case_decide; try lia.
    - rewrite H2. apply exists_iff. intros j. apply exists_iff. intros p. split; intros (Hj & Hp & X); (split; [|done]); [lia|].
      destruct (decide (j = i)) as [->|]; [by rewrite Ei in Hp|lia]. }
  assert (Hl := lookup_lt_Some _ _ _ Ei). case_bool_decide as Ep; cycle 1.
  { lp_step. apply IH. intros T' w H1 H2. apply (H T' w).
    - intros j. rewrite H1. destruct (decide (j = i)) as [->|]; [|by repeat case_decide; try lia].
      rewrite Ei. simpl. rewrite decide_False, decide_True by lia. by rewrite adopt_other.
    - rewrite H2. apply exists_iff. intros j. apply exists_iff. intros q. split; intros (Hj & Hp & X); (split; [|done]); [lia|].
      destruct (decide (j = i)) as [->|]; [|lia]. rewrite Ei in Hp. naive_solver. }
  lp_step. lp_step. simpl. lp_step. eapply lp_pmod_first; [exact Ei|]. case_bool_decide as Ez.
  - apply lp_wakeup1, IH. intros T' w H1 H2. apply (H T' true).
    + intros j. rewrite H1, list_lookup_fmap. destruct (decide (j = i)) as [->|].
      * rewrite list_lookup_insert_eq, Ei by done. simpl. rewrite decide_False, decide_True by lia.
        rewrite adopt_child by done. destruct w; simpl; by rewrite ?wake_wake.
      * rewrite list_lookup_insert_ne by done. destruct (T !! j) as [q|]; [|done]. simpl. f_equal.
        repeat case_decide; try lia; rewrite ?wake_adopt; destruct w; simpl; by rewrite ?wake_wake.
    + split; [|done]. intros _. exists i, p. split; [lia|done].
  - lp_step. apply IH. intros T' w H1 H2. apply (H T' w).
    + intros j. rewrite H1. destruct (decide (j = i)) as [->|].
      * rewrite list_lookup_insert_eq, Ei by done. simpl. rewrite decide_False, decide_True by lia. by rewrite adopt_child.
      * rewrite list_lookup_insert_ne by done. by repeat case_decide; try lia.
    + rewrite H2. apply exists_iff. intros j. apply exists_iff. intros q. destruct (decide (j = i)) as [->|].
      * rewrite Ei. split; [lia|naive_solver].
      * rewrite list_lookup_insert_ne by done. split; intros (Hj & X); (split; [lia|done]).
Qed.

Lemma lookup_length (T T' : list proc) : (forall j, is_Some (T' !! j) <-> is_Some (T !! j)) -> length T' = length T.
Proof.
  intros H. setoid_rewrite lookup_lt_is_Some in H. destruct (Nat.lt_trichotomy (length T') (length T)) as [L|[L|L]]; [|done|].
  - apply H in L. lia.
  - apply H in L. lia.
Qed.

(** The table after [exit]: the process is a zombie, its children are those of
    [init], and whoever waits for a child was woken. *)
Lemma lp_exit cur st s c ini : length (ptable s) = NPROC -> ptable s !! cur = Some c -> initproc s = Some ini ->
  p_parent c ≠ Some cur -> p_state c = RUNNING ->
  lp (exit kend cur st) (fun _ s' => ini ≠ cur /\ initproc s' = Some ini /\ nextpid s' = nextpid s /\ exists w c',
    (w = true <-> exists j p, ptable s !! j = Some p /\ p_parent p = Some cur /\ p_state p = ZOMBIE) /\
    ptable s' !! cur = Some c' /\ p_state c' = ZOMBIE /\ p_ret c' = st /\ p_pid c' = p_pid c /\ p_parent c' = p_parent c /\
    p_chan c' = p_chan c /\ same_place c c' /\ (exists f1 k1 ip u r, closes (fl s, km s) (f1, k1) /\ fo_iput_op ip f1 = Ret u (fl s') /\
      deallocuvm kend (p_pgdir c) KERNBASE 0 k1 = Ret r (km s')) /\
    length (ptable s') = NPROC /\
    forall j, j ≠ cur -> ptable s' !! j =
      (fun p => wake_if w (Some (CProc ini)) (adopt cur (Some ini) (wake (CProc <$> p_parent c) p))) <$> ptable s !! j) s.
Proof.
  destruct s as [T ip np fs k f]. simpl. intros HL Hc -> Hp Hr. assert (Hl := lookup_lt_Some _ _ _ Hc).
  unfold exit. lp_step. lp_step. cbn [initproc]. case_bool_decide as Ei; [lp_step|]. lp_step.
  rewrite <- (list_insert_id T cur c) at 1 by done. apply lp_close_files; [done|].
  intros c1 f1 k0 (S1 & S2 & S3 & S4 & S5 & _ & S6 & S7 & S8 & _) Cl. lp_step. apply lp_pget. rewrite proc_at_insert by done.
  destruct (p_cwd c1) as [ip|]; [|apply lp_panic]. lp_step. apply lp_zoom. cbn [fl]. intros [] f2 Eip. lp_step. apply lp_pmod; [done|].
  lp_step. apply lp_pget. rewrite proc_at_insert by done. lp_step. apply lp_wakeup1. lp_step.
  set (c2 := set_cwd None c1). apply lp_reparent. intros T' w H1 H2. lp_step. apply lp_km_eq. intros r k1 Ek.
  assert (Ec : T' !! cur = Some (wake_if w (Some (CProc ini)) (wake (CProc <$> p_parent c2) c2))).
  { rewrite H1, list_lookup_fmap, list_lookup_insert_eq by done. simpl. rewrite decide_True by (unfold NPROC in *; lia).
    rewrite wake_adopt, adopt_other; [done|]. simpl. by rewrite S3. }
  eapply lp_pmod_first; [exact Ec|]. simpl. split; [naive_solver|]. split; [done|]. split; [done|]. eexists w, _. split.
  - rewrite H2. apply exists_iff. intros j. setoid_rewrite list_lookup_fmap. destruct (decide (j = cur)) as [->|].
    + rewrite list_lookup_insert_eq, Hc by done. split; [|naive_solver]. intros (p & _ & [= <-] & E & _).
      rewrite (proj1 (wake_fields _ _)) in E. simpl in E. congruence.
    + rewrite list_lookup_insert_ne by done. split.
      * intros (p & _ & X & E & Z). destruct (T !! j) as [q|]; [|done]. simplify_eq/=. exists q. split; [done|].
        rewrite (proj1 (wake_fields _ _)) in E. split; [done|]. by apply wake_zombie in Z.
      * intros (p & X & E & Z). rewrite X. eexists. split; [|split; [done|]].
        { apply lookup_lt_Some in X. lia. }
        rewrite (proj1 (wake_fields _ _)). split; [done|]. by apply wake_zombie.
  - rewrite list_lookup_insert_eq by (by eapply lookup_lt_Some). split; [done|]. split; [done|]. split; [done|].
    assert (K : p_pid (wake_if w (Some (CProc ini)) (wake (CProc <$> p_parent c2) c2)) = p_pid c /\
                p_parent (wake_if w (Some (CProc ini)) (wake (CProc <$> p_parent c2) c2)) = p_parent c /\
                p_chan (wake_if w (Some (CProc ini)) (wake (CProc <$> p_parent c2) c2)) = p_chan c).
    { destruct (wake_fields (CProc <$> p_parent c2) c2) as (A1 & A2 & _ & A4 & _).
      destruct (wake_fields (Some (CProc ini)) (wake (CProc <$> p_parent c2) c2)) as (B1 & B2 & _ & B4 & _).
      destruct w; cbn [wake_if]; rewrite ?B1, ?B2, ?B4, ?A1, ?A2, ?A4; done. }
    destruct K as (K1 & K2 & K3). split; [done|]. split; [done|]. split; [done|]. split.
    { assert (X : same_place c c2) by done. eapply same_place_trans; [exact X|].
      assert (Y := wake_place (CProc <$> p_parent c2) c2). eapply same_place_trans; [exact Y|].
      destruct w; [|done]. exact (wake_place (Some (CProc ini)) (wake (CProc <$> p_parent c2) c2)). }
    split; [exists f1, k0, ip, tt, r; simpl in Ek; by rewrite S7 in Ek|]. split.
    + rewrite length_insert, <- HL. apply lookup_length. intros j. rewrite H1, fmap_is_Some, list_lookup_fmap, fmap_is_Some.
      destruct (decide (j = cur)) as [->|]; [rewrite list_lookup_insert_eq, Hc by done|rewrite list_lookup_insert_ne by done]; done.
    + intros j Hj. rewrite list_lookup_insert_ne, H1, list_lookup_fmap, list_lookup_insert_ne by done.
      destruct (T !! j) as [q|] eqn:Eq; [|done]. simpl. rewrite decide_True by (apply lookup_lt_Some in Eq; lia).
      by rewrite S3.
Qed.

Lemma wait_scan_spec cur l : forall i0 hk,
  match wait_scan cur l i0 hk with
  | inl i => exists j p, i = (i0 + j)%nat /\ l !! j = Some p /\ p_parent p = Some cur /\ p_state p = ZOMBIE
  | inr hk' => (forall j p, l !! j = Some p -> p_parent p = Some cur -> p_state p ≠ ZOMBIE) /\
      (hk' = true <-> hk = true \/ exists j p, l !! j = Some p /\ p_parent p = Some cur)
  end.
Proof.
  induction l as [|q l IH]; intros i0 hk; cbn [wait_scan].
  { split; [by intros j p; rewrite lookup_nil|]. split; [by left|]. intros [|(j & p & X & _)]; [done|]. by rewrite lookup_nil in X. }
  assert (IH' : forall hk0, (p_parent q = Some cur -> p_state q ≠ ZOMBIE) -> (hk0 = true <-> hk = true \/ p_parent q = Some cur) ->
    match wait_scan cur l (S i0) hk0 with
    | inl i => exists j p, i = (i0 + j)%nat /\ (q :: l) !! j = Some p /\ p_parent p = Some cur /\ p_state p = ZOMBIE
    | inr hk' => (forall j p, (q :: l) !! j = Some p -> p_parent p = Some cur -> p_state p ≠ ZOMBIE) /\
        (hk' = true <-> hk = true \/ exists j p, (q :: l) !! j = Some p /\ p_parent p = Some cur)
    end).
  { intros hk0 Hz Hk. specialize (IH (S i0) hk0). destruct (wait_scan cur l (S i0) hk0) as [i|hk'].
    - destruct IH as (j & p & -> & X). exists (S j), p. split; [lia|done].
    - destruct IH as [A B]. split; [intros [|j] p; naive_solver|]. rewrite B, Hk. split.
      + intros [[|]|(j & p & X)]; [by left|right; by exists 0%nat, q|right; by exists (S j), p].
      + intros [|([|j] & p & X & Y)]; [by left; left|left; right; naive_solver|right; by exists j, p]. }
  case_bool_decide as Ep; [case_bool_decide as Ez|]; [|apply IH'; [done|naive_solver]..].
  exists 0%nat, q. split; [lia|done].
Qed.

Lemma lp_wait cur s c : ptable s !! cur = Some c ->
  lp (wait kend cur) (fun r s' => initproc s' = initproc s /\ nextpid s' = nextpid s /\
    match r with
    | None => ptable s' = <[cur := set_state SLEEPING (set_chan (Some (CProc cur)) c)]> (ptable s) /\ p_killed c = 0 /\
        (exists j p, ptable s !! j = Some p /\ p_parent p = Some cur) /\
        (forall j p, ptable s !! j = Some p -> p_parent p = Some cur -> p_state p ≠ ZOMBIE)
    | Some (pid, st) => pid = -1 /\ ptable s' = ptable s /\
          (p_killed c = 0 -> forall j p, ptable s !! j = Some p -> p_parent p ≠ Some cur) \/
        exists i p p', ptable s !! i = Some p /\ ptable s' = <[i := p']> (ptable s) /\
          p_parent p = Some cur /\ p_state p = ZOMBIE /\ pid = p_pid p /\ st = p_ret p /\
          p_state p' = UNUSED /\ p_parent p' = None /\ p_killed p' = 0
    end) s.
Proof.
  destruct s as [T ip np fs k f]. simpl. intros Hc. unfold wait. lp_step. lp_step. cbn [ptable].
  assert (Sp := wait_scan_spec cur T 0 false). destruct (wait_scan cur T 0 false) as [i|hk].
  - destruct Sp as (j & p & -> & Hj & Hp & Hz). rewrite Nat.add_0_l. assert (Hl := lookup_lt_Some _ _ _ Hj).
    lp_step. apply lp_pget. unfold proc_at at 1. cbn [ptable]. rewrite Hj. cbn [default]. lp_step. apply lp_km. intros [] k1.
    lp_step. eapply lp_pmod_first; [exact Hj|]. lp_step. apply lp_km. intros [] k2. lp_step. apply lp_pmod; [done|]. lp_step. simpl.
    unfold proc_at. simpl. rewrite Hj. simpl. split; [done|]. split; [done|]. right. eexists j, p, _. split; [done|]. by split; [reflexivity|].
  - destruct Sp as [A B]. lp_step. apply lp_pget. unfold proc_at. simpl. rewrite Hc. simpl.
    destruct hk; simpl.
    + destruct (Z.eqb_spec (p_killed c) 0) as [E|E]; simpl.
      * lp_step. eapply lp_pmod_first; [exact Hc|]. lp_step. simpl. split; [done|]. split; [done|]. split; [done|]. split; [done|].
        split; [|done]. destruct (proj1 B eq_refl) as [|X]; [done|exact X].
      * lp_step. simpl. split; [done|]. split; [done|]. left. split; [done|]. split; [done|]. done.
    + lp_step. simpl. split; [done|]. split; [done|]. left. split; [done|]. split; [done|]. intros _ j p Hj Hp.
      assert (X : false = true) by (apply B; right; by exists j, p). done.
Qed.
End table.

(** ** The invariant *)

(** A process asleep in [wait] has a child, and none that has exited. *)
Definition wait_ok (T : list proc) (j : nat) (q : proc) : Prop :=
  p_killed q = 0 /\ (exists i p, T !! i = Some p /\ p_parent p = Some j) /\
  forall i p, T !! i = Some p -> p_parent p = Some j -> p_state p ≠ ZOMBIE.

Record tab_inv (T : list proc) (ini : nat) (np : Z) : Prop := {
  ti_len : length T = NPROC;
  ti_init : exists p, T !! ini = Some p /\ live p /\ p_parent p = None;
  ti_embryo i p : T !! i = Some p -> p_state p ≠ EMBRYO;
  ti_free i p : T !! i = Some p -> p_state p = UNUSED -> p_parent p = None;
  ti_pid i p : T !! i = Some p -> used p -> 0 < p_pid p < np;
  ti_uniq i j p q : T !! i = Some p -> T !! j = Some q -> used p -> used q -> p_pid p = p_pid q -> i = j;
  ti_parent i p : T !! i = Some p -> used p -> i ≠ ini ->
    exists j q, p_parent p = Some j /\ j ≠ i /\ T !! j = Some q /\ live q;
  ti_wait j q m : T !! j = Some q -> p_state q = SLEEPING -> p_chan q = Some (CProc m) -> m = j /\ wait_ok T j q
}.

Lemma no_self_parent T ini np i c : tab_inv T ini np -> T !! i = Some c -> used c -> p_parent c ≠ Some i.
Proof.
  intros I Hc U. destruct (decide (i = ini)) as [->|N]; [destruct (ti_init _ _ _ I) as (q & Q1 & _ & Q2); congruence|].
  destruct (ti_parent _ _ _ I i c Hc U N) as (j & q & -> & X & _). congruence.
Qed.

(** Processes that stay unused, alive or exited. *)
Definition same_class (p p' : proc) : Prop :=
  p_pid p' = p_pid p /\ p_parent p' = p_parent p /\ p_state p' ≠ EMBRYO /\
  (p_state p' = UNUSED <-> p_state p = UNUSED) /\ (p_state p' = ZOMBIE <-> p_state p = ZOMBIE).

Lemma wait_ok_ext T T' j q q' :
  (forall i p', T' !! i = Some p' -> exists p, T !! i = Some p /\ same_class p p') -> length T' = length T ->
  p_killed q' = p_killed q -> wait_ok T j q -> wait_ok T' j q'.
Proof.
  intros H L K (A & (i & p & Hi & Hp) & C). split; [congruence|]. split.
  - assert (X : is_Some (T' !! i)) by (apply lookup_lt_is_Some; rewrite L; by eapply lookup_lt_Some).
    destruct X as [p' Hp']. exists i, p'. split; [done|]. destruct (H _ _ Hp') as (p0 & E & _ & -> & _). congruence.
  - intros i' p' Hp' E. destruct (H _ _ Hp') as (p0 & E' & _ & Ep & _ & _ & ->). eapply C; [done|congruence].
Qed.

(** The invariant is kept by changes that keep every process in its class. *)
Lemma inv_map T T' ini np : tab_inv T ini np -> length T' = length T ->
  (forall i p', T' !! i = Some p' -> exists p, T !! i = Some p /\ same_class p p' /\
     forall m, p_state p' = SLEEPING -> p_chan p' = Some (CProc m) ->
       p_state p = SLEEPING /\ p_chan p = p_chan p' /\ p_killed p' = p_killed p \/ m = i /\ wait_ok T i p') ->
  tab_inv T' ini np.
Proof.
  intros [I1 I2 I3 I4 I5 I6 I7 I8] L H.
  assert (H1 : forall i p', T' !! i = Some p' -> exists p, T !! i = Some p /\ same_class p p').
  { intros i p' X. destruct (H i p' X) as (p & A & B & _). eauto. }
  assert (H2 : forall i p, T !! i = Some p -> exists p', T' !! i = Some p' /\ same_class p p').
  { intros i p X. assert (Y : is_Some (T' !! i)) by (apply lookup_lt_is_Some; rewrite L; by eapply lookup_lt_Some).
    destruct Y as [p' Y]. exists p'. split; [done|]. destruct (H1 _ _ Y) as (p0 & E & S). congruence. }
  assert (H3 : forall p p', same_class p p' -> used p' -> used p) by (unfold same_class, used; naive_solver).
  assert (H4 : forall p p', same_class p p' -> live p -> live p') by (unfold same_class, live; naive_solver).
  split.
  - congruence.
  - destruct I2 as (p & Hp & Hl & Hn). destruct (H2 _ _ Hp) as (p' & Hp' & S). exists p'. split; [done|]. split; [by eapply H4|].
    destruct S as (_ & -> & _). done.
  - intros i p' X. destruct (H1 _ _ X) as (p & _ & S). apply S.
  - intros i p' X E. destruct (H1 _ _ X) as (p & Y & _ & -> & _ & S & _). by eapply I4, S.
  - intros i p' X U. destruct (H1 _ _ X) as (p & Y & S). assert (Z := H3 _ _ S U). destruct S as (-> & _). eauto.
  - intros i j p' q' X Y Ux Uy E. destruct (H1 _ _ X) as (p & X' & S), (H1 _ _ Y) as (q & Y' & S').
    eapply (I6 i j p q); eauto. destruct S as (<- & _), S' as (<- & _). done.
  - intros i p' X U Hne. destruct (H1 _ _ X) as (p & X' & S). destruct (I7 i p) as (j & q & E & Hij & Hq & Hl); eauto.
    destruct (H2 _ _ Hq) as (q' & Hq' & S'). exists j, q'. split_and!; eauto. destruct S as (_ & -> & _). done.
  - intros j q' m X E C. destruct (H _ _ X) as (q & Y & S & W). destruct (W m E C) as [(E' & C' & K)|[-> W']].
    + destruct (I8 j q m) as [-> W']; [done|done|congruence|]. split; [done|]. by eapply wait_ok_ext.
    + split; [done|]. by eapply wait_ok_ext.
Qed.

(** The same for a change of one process. *)
Lemma inv_update T ini np i p p' : tab_inv T ini np -> T !! i = Some p -> same_class p p' ->
  (forall m, p_state p' = SLEEPING -> p_chan p' = Some (CProc m) ->
     p_state p = SLEEPING /\ p_chan p = p_chan p' /\ p_killed p' = p_killed p \/ m = i /\ wait_ok T i p') ->
  tab_inv (<[i := p']> T) ini np.
Proof.
  intros I Hi S W. assert (Hl := lookup_lt_Some _ _ _ Hi). apply (inv_map T); [done|by rewrite length_insert|].
  intros j q. destruct (decide (j = i)) as [->|].
  - rewrite list_lookup_insert_eq by done. intros [= <-]. by exists p.
  - rewrite list_lookup_insert_ne by done. intros X. exists q. split; [done|]. split.
    + assert (Y := ti_embryo _ _ _ I _ _ X). by repeat split.
    + intros m E C. by left.
Qed.

Lemma inv_np T ini np np' : tab_inv T ini np -> np <= np' -> tab_inv T ini np'.
Proof. intros [I1 I2 I3 I4 I5 I6 I7 I8] H. split; try done. intros i p X U. specialize (I5 i p X U). lia. Qed.

(** A slot that was not alive, and so is nobody's parent, changes to [p']. *)
Lemma inv_slot T ini np i p p' : tab_inv T ini np -> T !! i = Some p -> ~ live p -> i ≠ ini ->
  p_state p' ≠ EMBRYO -> p_state p' ≠ SLEEPING -> p_state p' ≠ ZOMBIE ->
  (p_state p' = UNUSED -> p_parent p' = None) ->
  (used p' -> 0 < p_pid p' < np /\ (forall j q, T !! j = Some q -> used q -> p_pid q ≠ p_pid p') /\
     exists j q, p_parent p' = Some j /\ T !! j = Some q /\ live q) ->
  (forall j q m, T !! j = Some q -> p_state q = SLEEPING -> p_chan q = Some (CProc m) -> p_parent p = Some j -> False) ->
  tab_inv (<[i := p']> T) ini np.
Proof.
  intros [I1 I2 I3 I4 I5 I6 I7 I8] Hi Hd Hne E1 E2 E3 Hf Hu Hw. assert (Hl := lookup_lt_Some _ _ _ Hi).
  assert (L : forall j q, (<[i := p']> T) !! j = Some q -> j = i /\ q = p' \/ j ≠ i /\ T !! j = Some q).
  { intros j q. destruct (decide (j = i)) as [->|]; [rewrite list_lookup_insert_eq by done; left; naive_solver|].
    rewrite list_lookup_insert_ne by done. by right. }
  assert (K : forall j q, T !! j = Some q -> live q -> j ≠ i /\ (<[i := p']> T) !! j = Some q).
  { intros j q X Y. destruct (decide (j = i)) as [->|]; [congruence|]. by rewrite list_lookup_insert_ne. }
  split.
  - by rewrite length_insert.
  - destruct I2 as (q & X & Y & Z). exists q. by rewrite list_lookup_insert_ne.
  - intros j q [[-> ->]|[_ X]]%L; eauto.
  - intros j q [[-> ->]|[_ X]]%L; eauto.
  - intros j q [[-> ->]|[_ X]]%L U; [by apply Hu|eauto].
  - intros j m q r [[-> ->]|[N X]]%L [[-> ->]|[N' Y]]%L U V E; [done| | |eauto].
    + destruct (Hu U) as (_ & A & _). by destruct (A _ _ Y).
    + destruct (Hu V) as (_ & A & _). by destruct (A _ _ X).
  - intros j q [[-> ->]|[N X]]%L U Hj.
    + destruct (Hu U) as (_ & _ & m & q & E & Y & Z). destruct (K _ _ Y Z) as [A B]. by exists m, q.
    + destruct (I7 j q X U Hj) as (m & r & E & A & B & C). destruct (K _ _ B C) as [D G]. by exists m, r.
  - intros j q m [[-> ->]|[N X]]%L S C; [done|]. destruct (I8 j q m X S C) as [-> (W1 & (i' & r & W2 & W2') & W3)].
    split; [done|]. split; [done|]. split.
    + exists i', r. split; [|done]. destruct (decide (i' = i)) as [->|]; [|by rewrite list_lookup_insert_ne].
      rewrite Hi in W2. simplify_eq. by destruct (Hw _ _ _ X S C W2').
    + intros j' r' [[-> ->]|[N' Y]]%L; [done|]. eauto.
Qed.

(** What [exit] does to another process. *)
Definition exit_other (w : bool) (cur ini : nat) (ch : option channel) (p : proc) : proc :=
  wake_if w (Some (CProc ini)) (adopt cur (Some ini) (wake ch p)).

Lemma exit_other_fields w cur ini ch p (p' := exit_other w cur ini ch p) :
  p_pid p' = p_pid p /\ p_chan p' = p_chan p /\ p_killed p' = p_killed p /\ p_ret p' = p_ret p /\
  p_parent p' = (if decide (p_parent p = Some cur) then Some ini else p_parent p) /\
  (p_state p' = p_state p \/ p_state p = SLEEPING /\ p_state p' = RUNNABLE) /\
  (p_state p' = SLEEPING -> p_chan p ≠ ch /\ (w = true -> p_chan p ≠ Some (CProc ini))).
Proof.
  unfold p', exit_other, wake_if, adopt, wake. destruct p; simpl.
  destruct w; repeat (case_bool_decide || case_decide || simpl || simplify_eq); split_and!; auto; naive_solver.
Qed.

Lemma exit_other_place w cur ini ch p : same_place p (exit_other w cur ini ch p).
Proof.
  unfold exit_other. eapply same_place_trans; [apply (wake_place ch)|]. eapply same_place_trans; [|destruct w; [apply wake_place|done]].
  unfold adopt. by case_bool_decide.
Qed.

Section exit.
Context (T T' : list proc) (ini cur : nat) (np : Z) (c c' : proc) (w : bool).
Context (I : tab_inv T ini np) (Hc : T !! cur = Some c) (Hr : p_state c = RUNNING) (Hini : ini ≠ cur).
Context (Hw : w = true <-> exists j p, T !! j = Some p /\ p_parent p = Some cur /\ p_state p = ZOMBIE).
Context (Hc' : T' !! cur = Some c') (Hz : p_state c' = ZOMBIE) (Hpid : p_pid c' = p_pid c) (Hpar : p_parent c' = p_parent c).
Context (HL : length T' = NPROC).
Context (H : forall j, j ≠ cur -> T' !! j = exit_other w cur ini (CProc <$> p_parent c) <$> T !! j).

Lemma exit_inv i p' : T' !! i = Some p' -> i = cur /\ p' = c' \/
  i ≠ cur /\ exists p, T !! i = Some p /\ p' = exit_other w cur ini (CProc <$> p_parent c) p.
Proof.
  intros X. destruct (decide (i = cur)) as [->|N]; [left; split; [done|congruence]|right]. split; [done|]. rewrite H in X by done.
  destruct (T !! i) as [p|]; simplify_eq/=. eauto.
Qed.

Lemma exit_live i p : T !! i = Some p -> live p -> i ≠ cur -> exists p', T' !! i = Some p' /\ live p'.
Proof.
  intros X L N. rewrite H, X by done. eexists. split; [reflexivity|].
  destruct (exit_other_fields w cur ini (CProc <$> p_parent c) p) as (_ & _ & _ & _ & _ & S & _). unfold live in *.
  destruct S as [->|[_ ->]]; [done|]. naive_solver.
Qed.

Lemma exit_used i p' : T' !! i = Some p' -> used p' -> exists p, T !! i = Some p /\ used p /\ p_pid p' = p_pid p.
Proof.
  intros [[-> ->]|(N & p & X & ->)]%exit_inv U.
  - exists c. split; [done|]. split; [|done]. unfold used. by rewrite Hr.
  - exists p. split; [done|]. destruct (exit_other_fields w cur ini (CProc <$> p_parent c) p) as (E & _ & _ & _ & _ & S & _).
    split; [|done]. unfold used in *. destruct S as [<-|[-> _]]; done.
Qed.

Lemma exit_wait j q m : T' !! j = Some q -> p_state q = SLEEPING -> p_chan q = Some (CProc m) -> m = j /\ wait_ok T' j q.
Proof.
  intros [[-> ->]|(N & p & X & ->)]%exit_inv S C; [congruence|].
  destruct (exit_other_fields w cur ini (CProc <$> p_parent c) p) as (_ & F2 & F3 & _ & _ & F6 & F7).
  destruct F6 as [F6|[_ F6]]; [|congruence]. destruct (F7 S) as [G1 G2]. rewrite F2 in C. rewrite F6 in S.
  destruct (ti_wait _ _ _ I j p m X S C) as [-> (W1 & (i & r & W2 & W2') & W3)]. split; [done|]. rewrite C in G1, G2.
  assert (Gp : p_parent c ≠ Some j) by (intros E; rewrite E in G1; done). split; [congruence|]. split.
  - assert (i ≠ cur) by congruence. exists i. rewrite H, W2 by done. eexists. split; [reflexivity|].
    destruct (exit_other_fields w cur ini (CProc <$> p_parent c) r) as (_ & _ & _ & _ & -> & _).
    rewrite decide_False; [done|]. congruence.
  - intros i' r' [[-> ->]|(N' & r'' & Y & ->)]%exit_inv P Z; [congruence|].
    destruct (exit_other_fields w cur ini (CProc <$> p_parent c) r'') as (_ & _ & _ & _ & E & S' & _).
    rewrite E in P. destruct S' as [S'|[_ S']]; [|congruence]. rewrite S' in Z. case_decide.
    + assert (w = true) by (apply Hw; eauto). simplify_eq. by apply G2.
    + by eapply W3.
Qed.

Lemma exit_parent i p' : T' !! i = Some p' -> used p' -> i ≠ ini ->
  exists j q, p_parent p' = Some j /\ j ≠ i /\ T' !! j = Some q /\ live q.
Proof.
  intros X U Hi. destruct (exit_used _ _ X U) as (p & Y & Up & _).
  destruct (ti_parent _ _ _ I i p Y Up Hi) as (j & q & P1 & P2 & P3 & P4).
  destruct (ti_init _ _ _ I) as (p0 & I1 & I2 & _). destruct (exit_live _ _ I1 I2 Hini) as (p0' & J1 & J2).
  apply exit_inv in X as [[-> ->]|(N & p1 & X & ->)].
  - simplify_eq. destruct (exit_live _ _ P3 P4 P2) as (q' & Q1 & Q2). exists j, q'. by rewrite Hpar.
  - replace p1 with p by congruence. destruct (exit_other_fields w cur ini (CProc <$> p_parent c) p) as (_ & _ & _ & _ & E & _). rewrite E.
    destruct (decide (p_parent p = Some cur)) as [D|D]; [exists ini, p0'; auto|].
    destruct (exit_live _ _ P3 P4) as (q' & Q1 & Q2); [intros ->; by apply D|]. by exists j, q'.
Qed.

Lemma inv_exit : tab_inv T' ini np.
Proof.
  split.
  - done.
  - destruct (ti_init _ _ _ I) as (p0 & I1 & I2 & I3). destruct (exit_live _ _ I1 I2 Hini) as (p0' & J1 & J2).
    exists p0'. split; [done|]. split; [done|]. apply exit_inv in J1 as [[-> _]|(_ & q & X & ->)]; [done|]. replace p0 with q in * by congruence.
    destruct (exit_other_fields w cur ini (CProc <$> p_parent c) q) as (_ & _ & _ & _ & -> & _). by rewrite I3.
  - intros i p' [[-> ->]|(N & p & X & ->)]%exit_inv; [congruence|]. assert (Y := ti_embryo _ _ _ I _ _ X).
    destruct (exit_other_fields w cur ini (CProc <$> p_parent c) p) as (_ & _ & _ & _ & _ & [->|[_ ->]] & _); done.
  - intros i p' [[-> ->]|(N & p & X & ->)]%exit_inv E; [congruence|].
    destruct (exit_other_fields w cur ini (CProc <$> p_parent c) p) as (_ & _ & _ & _ & -> & [S|[_ S]] & _); [|congruence].
    rewrite S in E. by rewrite (ti_free _ _ _ I _ _ X E).
  - intros i p' X U. destruct (exit_used _ _ X U) as (p & Y & Up & ->). by eapply (ti_pid _ _ _ I).
  - intros i j p' q' X Y U V E. destruct (exit_used _ _ X U) as (p & X' & Up & Ep), (exit_used _ _ Y V) as (q & Y' & Uq & Eq).
    eapply (ti_uniq _ _ _ I i j p q); eauto. congruence.
  - apply exit_parent.
  - apply exit_wait.
Qed.
End exit.

(** ** Histories *)

(** Processes that called [exit], and children that [wait] returned. *)
Inductive event := Exited (pid status : Z) | Reaped (pid status : Z).

Definition exited_pid (e : event) : option Z := match e with Exited pid _ => Some pid | _ => None end.
Definition reaped_pid (e : event) : option Z := match e with Reaped pid _ => Some pid | _ => None end.
Definition exited_pids (ev : list event) : list Z := omap exited_pid ev.
Definition reaped_pids (ev : list event) : list Z := omap reaped_pid ev.

Record hist_inv (T : list proc) (np : Z) (ev : list event) : Prop := {
  hi_once : NoDup (exited_pids ev) /\ NoDup (reaped_pids ev);
  hi_reaped pid st : Reaped pid st ∈ ev -> Exited pid st ∈ ev;
  hi_zombie i p : T !! i = Some p -> p_state p = ZOMBIE -> Exited (p_pid p) (p_ret p) ∈ ev /\ p_pid p ∉ reaped_pids ev;
  hi_live i p : T !! i = Some p -> live p -> p_pid p ∉ exited_pids ev;
  hi_bound pid : pid ∈ exited_pids ev -> pid < np;
  hi_kept pid : pid ∈ exited_pids ev -> pid ∉ reaped_pids ev ->
    exists i p, T !! i = Some p /\ p_state p = ZOMBIE /\ p_pid p = pid
}.

Lemma elem_exited pid ev : pid ∈ exited_pids ev <-> exists st, Exited pid st ∈ ev.
Proof.
  unfold exited_pids. rewrite list_elem_of_omap. split; [|intros [st X]; by exists (Exited pid st)].
  intros ([pid' st|] & X & E); simplify_eq/=. eauto.
Qed.
Lemma elem_reaped pid ev : pid ∈ reaped_pids ev <-> exists st, Reaped pid st ∈ ev.
Proof.
  unfold reaped_pids. rewrite list_elem_of_omap. split; [|intros [st X]; by exists (Reaped pid st)].
  intros ([|pid' st] & X & E); simplify_eq/=. eauto.
Qed.

Lemma exited_unique ev pid st st' : NoDup (exited_pids ev) -> Exited pid st ∈ ev -> Exited pid st' ∈ ev -> st = st'.
Proof.
  induction ev as [|e ev IH]; intros N X Y; [by apply elem_of_nil in X|].
  assert (D : forall p q, e = Exited p q -> p ∉ exited_pids ev) by (intros p q ->; by apply NoDup_cons in N as [N _]).
  apply elem_of_cons in X as [X|X], Y as [Y|Y]; simplify_eq; [done|..].
  - destruct (D pid st eq_refl). apply elem_exited. eauto.
  - destruct (D pid st' eq_refl). apply elem_exited. eauto.
  - apply IH; [|done..]. destruct e; [by apply NoDup_cons in N as [_ N]|done].
Qed.

(** Steps without an exit keep the history: exited processes stay as they are
    and processes that are alive were so before or are new. *)
Lemma hist_map T T' np np' ev : hist_inv T np ev -> np <= np' ->
  (forall i p, T !! i = Some p -> p_state p = ZOMBIE ->
     exists p', T' !! i = Some p' /\ p_state p' = ZOMBIE /\ p_pid p' = p_pid p /\ p_ret p' = p_ret p) ->
  (forall i p', T' !! i = Some p' -> p_state p' = ZOMBIE ->
     exists p, T !! i = Some p /\ p_state p = ZOMBIE /\ p_pid p' = p_pid p /\ p_ret p' = p_ret p) ->
  (forall i p', T' !! i = Some p' -> live p' -> np <= p_pid p' \/ exists p, T !! i = Some p /\ live p /\ p_pid p' = p_pid p) ->
  hist_inv T' np' ev.
Proof.
  intros [H1 H2 H3 H4 H5 H6] Hn A B C. split; try done.
  - intros i p' X Z. destruct (B _ _ X Z) as (p & Y & Z' & -> & ->). eauto.
  - intros i p' X L. destruct (C _ _ X L) as [G|(p & Y & L' & ->)]; [|eauto]. intros E. specialize (H5 _ E). lia.
  - intros pid E. specialize (H5 _ E). lia.
  - intros pid E N. destruct (H6 pid E N) as (i & p & X & Z & <-). destruct (A _ _ X Z) as (p' & Y & Z' & E' & _). eauto.
Qed.

Lemma hist_update T np np' ev i p p' : hist_inv T np ev -> np <= np' -> T !! i = Some p ->
  p_state p ≠ ZOMBIE -> p_state p' ≠ ZOMBIE -> (live p' -> np <= p_pid p' \/ live p /\ p_pid p' = p_pid p) ->
  hist_inv (<[i := p']> T) np' ev.
Proof.
  intros H Hn Hi Z Z' L. assert (Hl := lookup_lt_Some _ _ _ Hi). eapply hist_map; [exact H|exact Hn|..]; intros j q X Y.
  - assert (j ≠ i) by congruence. exists q. by rewrite list_lookup_insert_ne.
  - destruct (decide (j = i)) as [->|]; [rewrite list_lookup_insert_eq in X by done; congruence|].
    rewrite list_lookup_insert_ne in X by done. eauto.
  - destruct (decide (j = i)) as [->|]; [rewrite list_lookup_insert_eq in X by done; simplify_eq|].
    + destruct (L Y) as [|[]]; eauto.
    + rewrite list_lookup_insert_ne in X by done. eauto.
Qed.

Lemma hist_exit T T' ini np cur c c' w ev :
  tab_inv T ini np -> hist_inv T np ev -> T !! cur = Some c -> p_state c = RUNNING ->
  T' !! cur = Some c' -> p_state c' = ZOMBIE -> p_pid c' = p_pid c ->
  (forall j, j ≠ cur -> T' !! j = exit_other w cur ini (CProc <$> p_parent c) <$> T !! j) ->
  hist_inv T' np (Exited (p_pid c) (p_ret c') :: ev).
Proof.
  intros I [[H1 H1'] H2 H3 H4 H5 H6] Hc Hr Hc' Hz Hp H.
  assert (E := exit_inv T T' ini cur c c' w Hc' H). assert (L : live c) by (unfold live; by rewrite Hr).
  assert (N := H4 _ _ Hc L). assert (N' : p_pid c ∉ reaped_pids ev).
  { intros [st X]%elem_reaped. apply N, elem_exited. eauto. }
  assert (S : forall j p, j ≠ cur -> T !! j = Some p -> exists p', T' !! j = Some p' /\
    p' = exit_other w cur ini (CProc <$> p_parent c) p) by (intros j p X Y; rewrite H, Y by done; eauto).
  split.
  - split; [by apply NoDup_cons_2|done].
  - intros pid st [X|X]%elem_of_cons; [done|]. right. eauto.
  - intros i p' [[-> ->]|(Ne & p & X & ->)]%E Z.
    + rewrite Hp. by split; [left|].
    + destruct (exit_other_fields w cur ini (CProc <$> p_parent c) p) as (-> & _ & _ & -> & _ & [St|[_ St]] & _); [|congruence].
      rewrite St in Z. destruct (H3 _ _ X Z). by split; [right|].
  - intros i p' [[-> ->]|(Ne & p & X & ->)]%E Lv; [by destruct Lv|].
    destruct (exit_other_fields w cur ini (CProc <$> p_parent c) p) as (Ep & _ & _ & _ & _ & St & _).
    assert (Lp : live p) by (unfold live in *; destruct St as [<-|[-> _]]; done).
    rewrite Ep. change (exited_pids (Exited (p_pid c) (p_ret c') :: ev)) with (p_pid c :: exited_pids ev).
    intros [X'|X']%elem_of_cons; [|by eapply H4]. apply Ne. eapply (ti_uniq _ _ _ I i cur p c); try done; [apply Lp|apply L].
  - change (exited_pids (Exited (p_pid c) (p_ret c') :: ev)) with (p_pid c :: exited_pids ev). intros pid [->|X]%elem_of_cons; [|eauto].
    apply (ti_pid _ _ _ I cur c Hc), L.
  - change (exited_pids (Exited (p_pid c) (p_ret c') :: ev)) with (p_pid c :: exited_pids ev). intros pid [->|X]%elem_of_cons R; [by exists cur, c'|].
    destruct (H6 pid X R) as (i & p & Y & Z & <-). destruct (S i p) as (p' & Y' & ->); [congruence|done|]. exists i. eexists. split; [done|].
    destruct (exit_other_fields w cur ini (CProc <$> p_parent c) p) as (-> & _ & _ & _ & _ & [St|[St _]] & _); split; congruence.
Qed.

Lemma hist_reap T ini np ev i p p' : tab_inv T ini np -> hist_inv T np ev -> T !! i = Some p -> p_state p = ZOMBIE ->
  p_state p' = UNUSED -> hist_inv (<[i := p']> T) np (Reaped (p_pid p) (p_ret p) :: ev).
Proof.
  intros I [[H1 H1'] H2 H3 H4 H5 H6] Hi Z U. assert (Hl := lookup_lt_Some _ _ _ Hi). destruct (H3 _ _ Hi Z) as [X N].
  assert (Up : used p) by (unfold used; congruence).
  assert (L : forall j q, (<[i := p']> T) !! j = Some q -> p_state q ≠ UNUSED -> j ≠ i /\ T !! j = Some q).
  { intros j q. destruct (decide (j = i)) as [->|]; [rewrite list_lookup_insert_eq by done; naive_solver|].
    rewrite list_lookup_insert_ne by done. done. }
  change (reaped_pids (Reaped (p_pid p) (p_ret p) :: ev)) with (p_pid p :: reaped_pids ev).
  split.
  - split; [done|]. by apply NoDup_cons_2.
  - intros pid st [[= -> ->]|Y]%elem_of_cons; right; eauto.
  - intros j q Y Zq. destruct (L _ _ Y) as [Ne Y']; [congruence|]. destruct (H3 _ _ Y' Zq). split; [by right|].
    intros [E|E]%elem_of_cons; [|done]. apply Ne. eapply (ti_uniq _ _ _ I j i q p); try done. unfold used. congruence.
  - intros j q Y Lq. destruct (L _ _ Y) as [Ne Y']; [apply Lq|]. by eapply H4.
  - done.
  - intros pid E R. destruct (H6 pid E) as (j & q & Y & Zq & <-).
    + intros Q. apply R. by right.
    + exists j, q. rewrite list_lookup_insert_ne; [done|]. intros ->. simplify_eq. apply R. by left.
Qed.

(** ** Executions *)

Section steps.
Context {F : Type} {FO : FileOps F}.
Context (kend data forkret trapret : Z).
Implicit Types (s : psys F).

Definition running s (i : nat) : Prop := p_state (proc_at s i) = RUNNING.

(** A change of a process to its own fields: files, directory, memory, name. *)
Definition private (g : proc -> proc) : Prop := forall p,
  p_pid (g p) = p_pid p /\ p_parent (g p) = p_parent p /\ p_state (g p) = p_state p /\ p_ret (g p) = p_ret p.

(** One step: a running process makes a call, an interrupt wakes processes,
    the scheduler dispatches a process.  Identifiers do not wrap around. *)
Inductive pstep : psys F -> list event -> psys F -> Prop :=
| ps_fork s i r s' : running s i -> nextpid s < 2 ^ 31 - 1 ->
    fork kend data forkret trapret i s = Ret r s' -> pstep s [] s'
| ps_exit s i st s' : running s i -> exit kend i st s = Ret tt s' -> pstep s [Exited (p_pid (proc_at s i)) st] s'
| ps_wait_sleep s i s' : running s i -> wait kend i s = Ret None s' -> pstep s [] s'
| ps_wait s i pid st s' : running s i -> wait kend i s = Ret (Some (pid, st)) s' ->
    pstep s (if pid =? -1 then [] else [Reaped pid st]) s'
| ps_sleep s i a s' : running s i -> sleep_begin i (Some (CAddr a)) s = Ret tt s' -> pstep s [] s'
| ps_resume s i s' : running s i -> sleep_end i s = Ret tt s' -> pstep s [] s'
| ps_wakeup s a s' : wakeup (Some (CAddr a)) s = Ret tt s' -> pstep s [] s'
| ps_kill s pid r s' : kill pid s = Ret r s' -> pstep s [] s'
| ps_yield s i s' : running s i -> yield i s = Ret tt s' -> pstep s [] s'
| ps_dispatch s i s' : p_state (proc_at s i) = RUNNABLE -> pmod i (set_state RUNNING) s = Ret tt s' -> pstep s [] s'
| ps_setprio s pid pr s' : setprocprio pid pr s = Ret tt s' -> pstep s [] s'
| ps_growproc s i n r s' : running s i -> growproc kend i n s = Ret r s' -> pstep s [] s'
| ps_private s i g s' : running s i -> private g -> pmod i g s = Ret tt s' -> pstep s [] s'
| ps_other s k f : pstep s [] (set_km k (set_fl f s)).

(** Runs from [s0], with the events in reverse order. *)
Inductive pruns (s0 : psys F) : list event -> psys F -> Prop :=
| pr_refl : pruns s0 [] s0
| pr_step ev s e s' : pruns s0 ev s -> pstep s e s' -> pruns s0 (e ++ ev) s'.

Definition sys_inv (s : psys F) (ev : list event) : Prop :=
  0 < nextpid s < 2 ^ 31 /\ exists ini, initproc s = Some ini /\ tab_inv (ptable s) ini (nextpid s) /\
    hist_inv (ptable s) (nextpid s) ev.

Lemma proc_at_some s i st : p_state (proc_at s i) = st -> st ≠ UNUSED -> exists p, ptable s !! i = Some p /\ p_state p = st.
Proof. unfold proc_at. destruct (ptable s !! i) as [p|]; simpl; [eauto|]. by intros <-. Qed.

(** A change of one process that keeps its class. *)
Lemma sys_update s ev i p p' : sys_inv s ev -> ptable s !! i = Some p -> same_class p p' -> p_ret p' = p_ret p ->
  (forall m, p_state p' = SLEEPING -> p_chan p' = Some (CProc m) ->
     p_state p = SLEEPING /\ p_chan p = p_chan p' /\ p_killed p' = p_killed p \/ m = i /\ wait_ok (ptable s) i p') ->
  forall s', ptable s' = <[i := p']> (ptable s) -> initproc s' = initproc s -> nextpid s' = nextpid s -> sys_inv s' ev.
Proof.
  intros (Hn & ini & Ei & I & H) Hi C R W s' E1 E2 E3. unfold sys_inv. rewrite E1, E2, E3. split; [done|]. exists ini. split; [done|].
  split; [by eapply inv_update|]. assert (Hl := lookup_lt_Some _ _ _ Hi). destruct C as (C1 & C2 & C3 & C4 & C5).
  eapply hist_map; [exact H|done|..]; intros j q X Y; (destruct (decide (j = i)) as [->|];
    [rewrite ?list_lookup_insert_eq in * by done|rewrite ?list_lookup_insert_ne in * by done; eauto 10]).
  - simplify_eq. exists p'. split; [done|]. split; [by apply C5|done].
  - simplify_eq. exists p. split; [done|]. split; [by apply C5|done].
  - simplify_eq. right. exists p. split; [done|]. split; [|done]. unfold live in *. naive_solver.
Qed.

Lemma same_class_live p p' : p_pid p' = p_pid p -> p_parent p' = p_parent p -> live p -> live p' -> p_state p' ≠ EMBRYO ->
  same_class p p'.
Proof. unfold same_class, live. naive_solver. Qed.

Lemma same_class_refl s ev i p p' : sys_inv s ev -> ptable s !! i = Some p -> p_pid p' = p_pid p -> p_parent p' = p_parent p ->
  p_state p' = p_state p -> same_class p p'.
Proof.
  intros (_ & ini & _ & I & _) Hi E1 E2 E3. assert (X := ti_embryo _ _ _ I _ _ Hi). unfold same_class. rewrite E3. done.
Qed.

(** A running process changes itself and is not asleep in [wait] after. *)
Lemma sys_pmod s ev i g s' st : sys_inv s ev -> p_state (proc_at s i) = st -> (st = RUNNING \/ st = RUNNABLE) ->
  (forall p, p_pid (g p) = p_pid p /\ p_parent (g p) = p_parent p /\ p_ret (g p) = p_ret p) ->
  (forall p, p_state p = st -> live (g p) /\ p_state (g p) ≠ EMBRYO /\
     (p_state (g p) = SLEEPING -> forall m, p_chan (g p) ≠ Some (CProc m))) ->
  pmod i g s = Ret tt s' -> sys_inv s' ev.
Proof.
  intros J Hs Hst G1 G2 E. injection E as <-. destruct (proc_at_some s i st Hs) as (p & Hp & Ep); [by destruct Hst as [->| ->]|].
  assert (Pa : proc_at s i = p) by (unfold proc_at; by rewrite Hp). rewrite Pa. destruct (G1 p) as (A & B & C), (G2 p Ep) as (D & D' & D'').
  assert (L : live p) by (unfold live; rewrite Ep; destruct Hst as [->| ->]; done).
  eapply (sys_update s ev i p (g p)); try done; [by apply same_class_live|]. intros m X Y. by destruct (D'' X m).
Qed.

Lemma sys_fork s ev i r s' : sys_inv s ev -> running s i -> nextpid s < 2 ^ 31 - 1 ->
  fork kend data forkret trapret i s = Ret r s' -> sys_inv s' ev.
Proof.
  intros (Hn & ini & Ei & I & H) Hr Hw E. apply (lp_fork kend data forkret trapret i s) in E as [E1 E2].
  unfold sys_inv. rewrite E1. destruct E2 as [[-> ->]|(-> & j & p & p' & Hj & -> & U & X)]; [by split; [lia|]; exists ini|].
  assert (Es : s32 (nextpid s + 1) = nextpid s + 1) by (unfold s32, u32 in *; mlia). rewrite Es. split; [lia|]. exists ini. split; [done|].
  assert (Hu : ~ live p) by (unfold live; naive_solver). assert (Hi0 : j ≠ ini).
  { intros ->. destruct (ti_init _ _ _ I) as (q & Q1 & Q2 & _). unfold live in Q2. simplify_eq. by destruct Q2. }
  assert (Hpp := ti_free _ _ _ I _ _ Hj U). destruct (proc_at_some s i _ Hr) as (c & Hc & Ec); [done|].
  destruct X as [[X1 X2]|(-> & X1 & X2 & X3 & _)].
  - split.
    + apply (inv_slot (ptable s) ini _ j p p'); [by eapply inv_np; [exact I|lia]|done..| | | | | |]; rewrite ?X1; try done.
      * intros _. congruence.
      * intros m q m' _ _ _ X. congruence.
    + eapply hist_update; [exact H|lia|exact Hj|congruence|congruence|]. unfold live. naive_solver.
  - split.
    + apply (inv_slot (ptable s) ini _ j p p'); [by eapply inv_np; [exact I|lia]|done..| | | | | |]; rewrite ?X1; try done.
      * intros _. rewrite X3. split; [lia|]. split.
        { intros m q X Y. assert (Z := ti_pid _ _ _ I _ _ X Y). lia. }
        exists i, c. split; [done|]. split; [done|]. unfold live. by rewrite Ec.
      * intros m q m' _ _ _ X. congruence.
    + eapply hist_update; [exact H|lia|exact Hj|congruence|congruence|]. intros _. left. lia.
Qed.

Lemma sys_exit s ev i st s' : sys_inv s ev -> running s i -> exit kend i st s = Ret tt s' ->
  sys_inv s' (Exited (p_pid (proc_at s i)) st :: ev).
Proof.
  intros (Hn & ini & Ei & I & H) Hr E. destruct (proc_at_some s i _ Hr) as (c & Hc & Ec); [done|].
  assert (Pa : proc_at s i = c) by (unfold proc_at; by rewrite Hc). rewrite Pa.
  assert (Hp : p_parent c ≠ Some i) by (eapply no_self_parent; [exact I|exact Hc|unfold used; congruence]).
  destruct (lp_exit kend i st s c ini (ti_len _ _ _ I) Hc Ei Hp Ec tt s' E) as (N & E1 & E2 & w & c' & Hw & Hc' & Hz & R & P1 & P2 & _ & _ & _ & L & Ht).
  unfold sys_inv. rewrite E1, E2. split; [done|]. exists ini. split; [done|]. split.
  - by eapply (inv_exit (ptable s) (ptable s') ini i _ c c' w).
  - rewrite <- R. by eapply hist_exit.
Qed.

Lemma sys_wait s ev i r s' : sys_inv s ev -> running s i -> wait kend i s = Ret r s' ->
  sys_inv s' (match r with Some (pid, st) => if pid =? -1 then [] else [Reaped pid st] | None => [] end ++ ev).
Proof.
  intros J Hr E. destruct (proc_at_some s i _ Hr) as (c & Hc & Ec); [done|].
  destruct (lp_wait kend i s c Hc r s' E) as (E1 & E2 & X). destruct r as [[pid st]|].
  - destruct X as [(-> & X & _)|(j & p & p' & Hj & Ht & Hp & Hz & -> & -> & U & N & _)].
    + simpl. unfold sys_inv in *. by rewrite X, E1, E2.
    + destruct J as (Hn & ini & Ei & I & H). assert (Up : used p) by (unfold used; congruence).
      rewrite (proj2 (Z.eqb_neq _ _)); [|assert (Y := ti_pid _ _ _ I _ _ Hj Up); lia].
      unfold sys_inv. rewrite E1, E2, Ht. split; [done|]. exists ini. split; [done|]. split; [|by eapply hist_reap].
      apply (inv_slot (ptable s) ini _ j p p'); [done|done| | | | | | | |]; rewrite ?U; try done.
      * unfold live. naive_solver.
      * intros ->. destruct (ti_init _ _ _ I) as (q & Q1 & Q2 & _). unfold live in Q2. naive_solver.
      * intros j' q m X Y Z W. assert (j' = i) by congruence. subst. congruence.
  - destruct X as (Ht & K & C & Zc). eapply (sys_update s ev i c); [done|done| | | |exact Ht|done|done].
    + apply same_class_live; try done; unfold live; by rewrite ?Ec.
    + done.
    + intros m _ [= <-]. right. split; [done|]. by split.
Qed.

Lemma sys_kill s ev pid r s' : sys_inv s ev -> kill pid s = Ret r s' -> sys_inv s' ev.
Proof.
  intros J E. unfold kill, mbind, M_bind, get in E. destruct (list_find _ _) as [[i p]|] eqn:Ef; [|by injection E as <- <-].
  injection E as <- <-. apply list_find_Some in Ef as (Hi & _). assert (Pa : proc_at s i = p) by (unfold proc_at; by rewrite Hi).
  rewrite Pa. simpl. case_bool_decide as Es.
  - eapply (sys_update s ev i p); [done|exact Hi| | | |reflexivity|done|done]; try done. unfold same_class. simpl. rewrite Es. done.
  - eapply (sys_update s ev i p); [done|exact Hi| | | |reflexivity|done|done]; [by eapply same_class_refl|done|].
    intros m X. by destruct Es.
Qed.

Lemma sys_wakeup s ev a s' : sys_inv s ev -> wakeup (Some (CAddr a)) s = Ret tt s' -> sys_inv s' ev.
Proof.
  intros (Hn & ini & Ei & I & H) E. injection E as <-. unfold sys_inv. simpl. split; [done|]. exists ini. split; [done|].
  fold (wake (Some (CAddr a))). change (fun p => wake (Some (CAddr a)) p) with (wake (Some (CAddr a))).
  set (T' := _ <$> _). assert (L : forall i p', T' !! i = Some p' -> exists p, ptable s !! i = Some p /\ p' = wake (Some (CAddr a)) p).
  { intros i p' X. unfold T' in X. rewrite list_lookup_fmap in X. destruct (ptable s !! i) as [p|]; [|done]. injection X as <-. by exists p. }
  split.
  - eapply inv_map; [exact I|apply length_fmap|]. intros i p' (p & Hp & ->)%L. exists p. split; [done|].
    assert (X := ti_embryo _ _ _ I _ _ Hp). destruct (wake_fields (Some (CAddr a)) p) as (F1 & F2 & _ & F4 & F5 & F6). split.
    + unfold same_class. destruct F6 as [->|[G ->]]; [done|]. rewrite G. done.
    + intros m Y _. left. rewrite F4, F5. destruct F6 as [<-|[_ G]]; [done|congruence].
  - eapply hist_map; [exact H|done|..].
    + intros i p Hp Z. exists (wake (Some (CAddr a)) p). unfold T'. rewrite list_lookup_fmap, Hp. split; [done|].
      destruct (wake_fields (Some (CAddr a)) p) as (_ & F2 & F3 & _). by rewrite wake_zombie.
    + intros i p' (p & Hp & ->)%L Z. exists p. apply wake_zombie in Z. destruct (wake_fields (Some (CAddr a)) p) as (_ & F2 & F3 & _). done.
    + intros i p' (p & Hp & ->)%L Lv. right. exists p. split; [done|]. destruct (wake_fields (Some (CAddr a)) p) as (_ & F2 & _ & _ & _ & F6).
      split; [|done]. unfold live in *. destruct F6 as [<-|[-> _]]; done.
Qed.

Lemma sys_growproc s ev i n r s' : sys_inv s ev -> running s i -> growproc kend i n s = Ret r s' -> sys_inv s' ev.
Proof.
  intros J Hr E. destruct (proc_at_some s i _ Hr) as (c & Hc & Ec); [done|].
  assert (X : lp (growproc kend i n) (fun _ s' => initproc s' = initproc s /\ nextpid s' = nextpid s /\
     (ptable s' = ptable s \/ exists v, ptable s' = <[i := set_sz v c]> (ptable s))) s).
  { destruct s as [T ip np fs k f]. unfold growproc. lp_step. apply lp_pget.
    destruct (0 <? n); [|destruct (n <? 0)]; [lp_step; apply lp_km; intros v k'..|];
      try (destruct (v =? 0)); try (lp_step; eapply lp_pmod_first; [exact Hc|]); lp_step; simpl; eauto 10. }
  destruct (X r s' E) as (E1 & E2 & [E3|[v E3]]).
  - unfold sys_inv in *. by rewrite E1, E2, E3.
  - eapply (sys_update s ev i c); [done|done| | | |exact E3|done|done]; simpl; try done; [by eapply same_class_refl|].
    intros m Y. congruence.
Qed.

Lemma sys_setprio s ev pid pr s' : sys_inv s ev -> setprocprio pid pr s = Ret tt s' -> sys_inv s' ev.
Proof.
  intros J E. unfold setprocprio, mbind, M_bind, get in E. destruct (list_find _ _) as [[i p]|] eqn:Ef; [|by injection E as <-].
  injection E as <-. apply list_find_Some in Ef as (Hi & _). assert (Pa : proc_at s i = p) by (unfold proc_at; by rewrite Hi).
  rewrite Pa. eapply (sys_update s ev i p); [done|exact Hi| | | |reflexivity|done|done]; [by eapply same_class_refl|done|].
  intros m X Y. by left.
Qed.

Lemma sys_step s ev e s' : sys_inv s ev -> pstep s e s' -> sys_inv s' (e ++ ev).
Proof.
  intros J H. destruct H.
  - by eapply sys_fork.
  - by eapply sys_exit.
  - by eapply (sys_wait s ev i None).
  - by eapply (sys_wait s ev i (Some (pid, st))).
  - eapply (sys_pmod s ev i _ s' RUNNING); [done|done|by left| | |eassumption]; [done|]. intros p E. unfold live. by simpl.
  - eapply (sys_pmod s ev i _ s' RUNNING); [done|done|by left| | |eassumption]; [done|]. intros p E. unfold live. simpl. by rewrite E.
  - by eapply sys_wakeup.
  - by eapply sys_kill.
  - eapply (sys_pmod s ev i _ s' RUNNING); [done|done|by left| | |eassumption]; [done|]. intros p E. unfold live. by simpl.
  - eapply (sys_pmod s ev i _ s' RUNNABLE); [done|done|by right| | |eassumption]; [done|]. intros p E. unfold live. by simpl.
  - by eapply sys_setprio.
  - by eapply sys_growproc.
  - eapply (sys_pmod s ev i g s' RUNNING); try done; [by left|intros p; destruct (H0 p) as (? & ? & ? & ?); done|].
    intros p E. destruct (H0 p) as (_ & _ & E' & _). unfold live. by rewrite E', E.
  - exact J.
Qed.

(** The state before [userinit]: a zeroed table. *)
Definition zero_table (s : psys F) : Prop := ptable s = replicate NPROC proc0 /\ nextpid s = 1.

Lemma zero_free s i p : zero_table s -> ptable s !! i = Some p -> p = proc0.
Proof. intros [-> _] X. by apply lookup_replicate in X as [-> _]. Qed.

Lemma lp_userinit initcode s : zero_table s ->
  lp (userinit kend data forkret trapret initcode) (fun _ s' => nextpid s' = 2 /\ exists i p, (i < NPROC)%nat /\
    initproc s' = Some i /\ ptable s' = <[i := p]> (replicate NPROC proc0) /\ p_state p = RUNNABLE /\ p_pid p = 1 /\
    p_parent p = None /\ p_sz p = PGSIZE /\ p_ofile p = p_ofile proc0 /\
    fo_namei (cstring "/") (fl s) = Ret (p_cwd p) (fl s')) s.
Proof.
  intros Hz. unfold userinit. lp_step. eapply lp_mono; [apply lp_allocproc|].
  intros [i|] [T ip np fs k f] [[Ei Ef0] H]; cbn [initproc ptable nextpid fl] in *; [|apply lp_panic].
  destruct H as (-> & p & p' & Hi & -> & Hu & Hp' & (K1 & K2 & K3 & K4) & Hd).
  assert (p = proc0) as -> by (by eapply zero_free). destruct Hz as [Et En]. rewrite Et, En in *.
  assert (Hl := lookup_lt_Some _ _ _ Hi). assert (Hn := Hl). rewrite length_replicate in Hn.
  lp_step. lp_step. unfold set_initproc. cbn [ptable nextpid first km fl]. lp_step. apply lp_pmod; [done|].
  lp_step. apply lp_km. intros d k1. lp_step. apply lp_pmod; [done|]. destruct (d =? 0); [apply lp_panic|].
  lp_step. apply lp_km. intros _ k2. lp_step. apply lp_pmod; [done|]. lp_step. apply lp_pget.
  do 8 (lp_step; apply lp_km; intros _ ?). lp_step. apply lp_pmod; [done|].
  lp_step. apply lp_zoom. cbn [fl]. intros cw f' Ef. lp_step. apply lp_pmod; [done|]. apply lp_pmod; [done|]. cbn [initproc ptable nextpid].
  split; [done|]. eexists i, _. split; [done|]. split; [done|]. split; [reflexivity|]. simpl. split_and!; try done; try congruence.
Qed.

Lemma userinit_inv initcode s s' : zero_table s -> userinit kend data forkret trapret initcode s = Ret tt s' -> sys_inv s' [].
Proof.
  intros Hz E. destruct (lp_userinit initcode s Hz tt s' E) as (En & i & p & Hi & Ei & Et & Es & Ep & Epa & _).
  unfold sys_inv. rewrite En, Ei, Et. split; [lia|]. exists i. split; [done|].
  assert (L : forall j q, (<[i := p]> (replicate NPROC proc0)) !! j = Some q -> j = i /\ q = p \/ q = proc0).
  { intros j q. destruct (decide (j = i)) as [->|]; [rewrite list_lookup_insert_eq by (by rewrite length_replicate); naive_solver|].
    rewrite list_lookup_insert_ne by done. intros [-> _]%lookup_replicate. by right. }
  assert (Li : (<[i := p]> (replicate NPROC proc0)) !! i = Some p) by (by rewrite list_lookup_insert_eq by (by rewrite length_replicate)).
  assert (N : ~ used proc0) by (unfold used; naive_solver). split; split.
  - by rewrite length_insert, length_replicate.
  - exists p. unfold live. by rewrite Es.
  - intros j q [[-> ->]| ->]%L; [congruence|done].
  - intros j q [[-> ->]| ->]%L; [congruence|done].
  - intros j q [[-> ->]| ->]%L U; [lia|done].
  - intros j m q r [[-> ->]| ->]%L [[-> ->]| ->]%L U V E'; done.
  - intros j q [[-> ->]| ->]%L U Hj; done.
  - intros j q m [[-> ->]| ->]%L U Hj; [congruence|done].
  - split; constructor.
  - by intros pid st X%elem_of_nil.
  - intros j q [[-> ->]| ->]%L U; [congruence|done].
  - intros j q _ _ X. by apply elem_of_nil in X.
  - by intros pid X%elem_of_nil.
  - by intros pid X%elem_of_nil.
Qed.

Lemma runs_inv initcode s0 s1 ev s : zero_table s0 -> userinit kend data forkret trapret initcode s0 = Ret tt s1 ->
  pruns s1 ev s -> sys_inv s ev.
Proof. intros Hz E H. induction H; [by eapply userinit_inv|by eapply sys_step]. Qed.
End steps.
