(* ===== verification/ProcMemory.v ===== *)
(** * Processes and physical memory

    Every page of the machine is free, is held by the rest of the kernel, or
    belongs to exactly one process: its kernel stack, its page directory and
    tables, or one of its user pages.  [fork], [exit], [wait] and [growproc]
    keep this so, whatever fails on the way. *)

From S2P Require Import Prelude Param Layout Cstring Mmu Kalloc Vm PageTable UserMemory AddressSpace FileOps Proc ProcTable.

(** ** Total and partial correctness at once

    The calls into the file layer may sleep.  [xp true] is [wp]; [xp false]
    is [lp], which says nothing of calls that do not return. *)

Definition xp {S A} (t : bool) (m : M S A) (Q : A -> S -> Prop) (s : S) : Prop := if t then wp m Q s else lp m Q s.

Section xp.
Context {S : Type} (t : bool).

Lemma xp_ret {A} (a : A) (Q : A -> S -> Prop) s : Q a s -> xp t (mret a) Q s.
Proof. destruct t; [apply wp_ret|apply lp_ret]. Qed.
Lemma xp_bind {A B} (m : M S A) (f : A -> M S B) Q s : xp t m (fun a s' => xp t (f a) Q s') s -> xp t (mbind f m) Q s.
Proof. destruct t; [apply wp_bind|apply lp_bind]. Qed.
Lemma xp_mono {A} (m : M S A) (P Q : A -> S -> Prop) s : xp t m P s -> (forall a s', P a s' -> Q a s') -> xp t m Q s.
Proof. destruct t; [apply wp_mono|apply lp_mono]. Qed.
Lemma xp_get (Q : S -> S -> Prop) s : Q s s -> xp t get Q s.
Proof. destruct t; [apply wp_get|apply lp_get]. Qed.
Lemma xp_gets {A} (f : S -> A) Q s : Q (f s) s -> xp t (gets f) Q s.
Proof. destruct t; [apply wp_gets|apply lp_gets]. Qed.
Lemma xp_modify (f : S -> S) Q s : Q tt (f s) -> xp t (modify f) Q s.
Proof. destruct t; [apply wp_modify|apply lp_modify]. Qed.
Lemma wp_xp {A} (m : M S A) Q s : wp m Q s -> xp t m Q s.
Proof. destruct t; [done|apply wp_lp]. Qed.
Lemma xp_panic {A} msg (Q : A -> S -> Prop) s : t = false -> xp t (panic msg) Q s.
Proof. intros ->. apply lp_panic. Qed.
End xp.

Lemma xp_zoom {S T A} (t : bool) (rd : S -> T) (wr : T -> S -> S) (m : M T A) Q s :
  xp t m (fun a x => Q a (wr x s)) (rd s) -> xp t (zoom rd wr m) Q s.
Proof. destruct t; [apply wp_zoom|apply lp_zoom]. Qed.

Ltac xp_step :=
  lazymatch goal with
  | |- xp _ (mbind _ _) _ _ => apply xp_bind
  | |- xp _ (mret _) _ _ => apply xp_ret
  | |- xp _ get _ _ => apply xp_get
  | |- xp _ (gets _) _ _ => apply xp_gets
  | |- xp _ (modify _) _ _ => apply xp_modify
  end.

(** ** Writes to a held page *)

Section held.
Context (kend : Z).
Notation kmem_rep := (kmem_rep kend).
Notation allocatable := (allocatable kend).

Lemma page_off ks off : allocatable ks -> 0 <= off < PGSIZE -> PGROUNDDOWN (ks + off) = ks /\ (ks + off) mod PGSIZE = off.
Proof.
  intros H Ho. destruct (alloc_facts kend ks H) as [A B]. assert (E : (ks + off) mod PGSIZE = off) by (unfold PGSIZE in *; mlia).
  split; [|done]. rewrite PGROUNDDOWN_eq, E. lia.
Qed.

(** What a routine that writes to page [ks] leaves. *)
Definition wrote (ks : Z) (pg : page) (l : list Z) (k k' : kmem) : Prop :=
  kmem_rep k' l /\ page_at (mem k') ks = pg /\ forall a, a ≠ ks -> page_at (mem k') a = page_at (mem k) a.

Lemma wrote_intro ks pg l k : kmem_rep k l -> ks ∉ l -> is_page pg -> wrote ks pg l k (set_mem (<[ks := pg]> (mem k)) k).
Proof.
  intros R H P. split; [by apply kmem_rep_write|]. simpl. rewrite page_at_insert, decide_True by done. split; [done|].
  intros a Ha. by rewrite page_at_insert, decide_False.
Qed.

Lemma wp_store_page ks off v l k : kmem_rep k l -> allocatable ks -> ks ∉ l -> 0 <= off -> off + 4 <= PGSIZE ->
  wp (store (ks + off) v) (fun _ k' => wrote ks (put32 (page_at (mem k) ks) off v) l k k') k.
Proof.
  intros R Ha Hl H0 H4. destruct (page_off ks off Ha) as [E1 E2]; [lia|]. unfold store. wp_step. unfold st32. rewrite E1, E2.
  apply wrote_intro; [done|done|]. apply blit_page; [apply page_at_ok, R|done|done|apply le_bytes_u8].
Qed.

Lemma wp_store16_page ks off v l k : kmem_rep k l -> allocatable ks -> ks ∉ l -> 0 <= off -> off + 2 <= PGSIZE ->
  wp (store16 (ks + off) v) (fun _ k' => wrote ks (put16 (page_at (mem k) ks) off v) l k k') k.
Proof.
  intros R Ha Hl H0 H4. destruct (page_off ks off Ha) as [E1 E2]; [lia|]. unfold store16. wp_step. rewrite E1, E2.
  apply wrote_intro; [done|done|]. apply blit_page; [apply page_at_ok, R|done|done|apply le_bytes_u8].
Qed.

Lemma wp_set_bytes_page ks off n l k : kmem_rep k l -> allocatable ks -> ks ∉ l -> 0 <= off < PGSIZE -> 0 <= n -> off + n <= PGSIZE ->
  wp (set_bytes (ks + off) 0 n) (fun _ k' => wrote ks (blit (page_at (mem k) ks) off (replicate (Z.to_nat n) 0)) l k k') k.
Proof.
  intros R Ha Hl H0 Hn H4. destruct (page_off ks off Ha) as [E1 E2]; [lia|]. unfold set_bytes. wp_step. rewrite E1, E2.
  destruct (page_at_ok (mem k) ks (kr_mem _ _ _ R)) as [L U]. rewrite memset_blit; [|lia|lia|lia|rewrite L; done].
  change (u8 0) with 0. apply wrote_intro; [done|done|]. apply blit_page; [done|lia| |by apply Forall_replicate].
  unfold zlen. rewrite length_replicate. lia.
Qed.

Lemma wp_copy_bytes_page ks off b n l k : kmem_rep k l -> allocatable ks -> ks ∉ l -> 0 <= off < PGSIZE -> 0 <= n -> off + n <= PGSIZE ->
  allocatable b -> 
  wp (copy_bytes (ks + off) (b + off) n) (fun _ k' =>
    wrote ks (blit (page_at (mem k) ks) off (slice (page_at (mem k) b) off n)) l k k') k.
Proof.
  intros R Ha Hl H0 Hn H4 Hb. destruct (page_off ks off Ha) as [E1 E2]; [lia|]. destruct (page_off b off Hb) as [E3 E4]; [lia|].
  unfold copy_bytes. wp_step. rewrite E1, E2, E3, E4. destruct (page_at_ok (mem k) b (kr_mem _ _ _ R)) as [L U].
  apply wrote_intro; [done|done|]. apply blit_page; [apply page_at_ok, R|lia|rewrite zlen_slice by lia; lia|by apply slice_u8].
Qed.
End held.

Section memory.
Context {F : Type} {FO : FileOps F} (kend : Z) {FL : FileLaws kend F} (t : bool).
Context (kend_high : KERNLINK <= kend) (data : Z) (data_aligned : data mod PGSIZE = 0)
  (data_range : KERNLINK < data <= KERNBASE + 4 * 1024 * 1024) (forkret trapret : Z).
Notation St := (@PSys F).
Notation kmem_rep := (kmem_rep kend).
Notation allocatable := (allocatable kend).
Notation uvm_ok := (uvm_ok kend).
Notation wrote := (wrote kend).

Lemma xp_pmod T i q g ip np fs k f Q : (i < length T)%nat ->
  Q tt (St (<[i := g q]> T) ip np fs k f) -> xp t (pmod i g) Q (St (<[i := q]> T) ip np fs k f).
Proof. intros Hi H. apply xp_modify. unfold set_ptable. simpl. by rewrite proc_at_insert, list_insert_insert_eq. Qed.

Lemma xp_pmod_first T i p g ip np fs k f Q : T !! i = Some p ->
  Q tt (St (<[i := g p]> T) ip np fs k f) -> xp t (pmod i g) Q (St T ip np fs k f).
Proof. intros Hi H. apply xp_modify. unfold set_ptable, proc_at. simpl. by rewrite Hi. Qed.

Lemma xp_pget i (s : psys F) Q : Q (proc_at s i) s -> xp t (pget i) Q s.
Proof. intros H. by apply xp_gets. Qed.

Lemma xp_km {A} (m : M kmem A) T ip np fs k f Q P : wp m P k ->
  (forall a k', P a k' -> Q a (St T ip np fs k' f)) -> xp t (km_op m) Q (St T ip np fs k f).
Proof. intros W H. apply xp_zoom, wp_xp. simpl. eapply wp_mono; [exact W|]. intros a k' X. by apply H. Qed.

(** A call into the file layer returns, when total correctness is asked for. *)
Lemma xp_fl {A} (m : M F A) T ip np fs k f Q : (t = true -> exists a f', m f = Ret a f') ->
  (forall a f', m f = Ret a f' -> Q a (St T ip np fs k f')) -> xp t (fl_op m) Q (St T ip np fs k f).
Proof.
  intros W H. apply xp_zoom. simpl. destruct t; simpl.
  - destruct (W eq_refl) as (a & f' & E). by eapply wp_intro; [exact E|apply H].
  - intros a f' E. by apply H.
Qed.

(** ** A new process *)

(** The kernel stack after [allocproc]: the context of [forkret], which
    returns to [trapret]. *)
Definition stack_page (pg : page) : page :=
  put32 (blit (put32 pg 4016 trapret) 3996 (replicate 20 0)) 4012 forkret.

Definition embryo (ks np : Z) (p : proc) : proc :=
  set_context (ks + 3996) (set_tf (ks + 4020) (set_kstack ks (set_pid np (set_state EMBRYO p)))).

Lemma wp_allocproc T ip np fs k f l Q : kmem_rep k l ->
  (forall T' np', (T' = T /\ (forall i p, T !! i = Some p -> used p) \/
      l = [] /\ exists i p p', T !! i = Some p /\ T' = <[i := p']> T /\ p_state p = UNUSED /\ p_state p' = UNUSED) ->
     Q None (St T' ip np' fs k f)) ->
  (forall i p ks l1 k', T !! i = Some p -> p_state p = UNUSED -> l = ks :: l1 -> allocatable ks -> ks ∉ l1 ->
     wrote ks (stack_page (page_at (mem k) ks)) l1 k k' ->
     Q (Some i) (St (<[i := embryo ks np p]> T) ip (s32 (np + 1)) fs k' f)) ->
  xp t (allocproc forkret trapret) Q (St T ip np fs k f).
Proof.
  intros R H0 H1. unfold allocproc. xp_step. xp_step. cbn [ptable].
  destruct (list_find _ T) as [[i p]|] eqn:E; [|xp_step; apply H0; left; split; [done|]; apply list_find_None in E; by apply Forall_lookup].
  apply list_find_Some in E as (Hi & Hu & _). assert (Hl := lookup_lt_Some _ _ _ Hi).
  xp_step. eapply xp_pmod_first; [exact Hi|]. xp_step. xp_step. unfold set_nextpid. cbn [ptable initproc nextpid first km fl].
  xp_step. eapply xp_km; [eapply wp_kalloc_cases with (Q := fun a k' => a = 0 /\ k' = k /\ l = [] \/
    exists l1, l = a :: l1 /\ allocatable a /\ a ≠ 0 /\ a ∉ l1 /\ kmem_rep k' l1 /\ mem k' = mem k); [exact R|auto|eauto 10]|].
  intros ks k1 [(-> & -> & El)|(l1 & -> & Ha & Hn0 & Hnl & R1 & Em)].
  - xp_step. apply xp_pmod; [done|]. simpl. xp_step. apply xp_pmod; [done|]. xp_step. apply H0. right. split; [done|]. by eexists i, p, _.
  - xp_step. apply xp_pmod; [done|]. rewrite (proj2 (Z.eqb_neq ks 0)) by done. unfold KSTACKSIZE, sizeof_trapframe, sizeof_context, context_eip.
    xp_step. apply xp_pmod; [done|]. xp_step. replace (ks + 4096 - 76 - 4) with (ks + 4016) by lia.
    eapply xp_km; [by apply wp_store_page|]. intros [] k2 (R2 & P2 & U2).
    xp_step. apply xp_pmod; [done|]. xp_step. replace (ks + 4016 - 20) with (ks + 3996) by lia.
    eapply xp_km; [by apply wp_set_bytes_page|]. intros [] k3 (R3 & P3 & U3).
    xp_step. replace (ks + 3996 + 16) with (ks + 4012) by lia.
    eapply xp_km; [by apply wp_store_page|]. intros [] k4 (R4 & P4 & U4). xp_step.
    replace (ks + 4096 - 76) with (ks + 4020) by lia. eapply H1; try done. split; [done|]. split.
    + rewrite P4, P3, P2. unfold stack_page. by rewrite Em.
    + intros a Hn. by rewrite U4, U3, U2, Em.
Qed.

(** ** Who owns a page *)

Lemma exit_other_used w cur ini ch p : used (exit_other w cur ini ch p) <-> used p.
Proof.
  destruct (exit_other_fields w cur ini ch p) as (_ & _ & _ & _ & _ & [E|[E1 E2]] & _); unfold used; [by rewrite E|]. by rewrite E1, E2.
Qed.

(** The page tables and the entries of an address space. *)
Definition space : Type := gmap Z Z * (Z -> Z).

Definition owns (p : proc) (A : space) (a : Z) : Prop := a = p_kstack p \/ in_as (p_pgdir p) A.1 A.2 a.

(** The memory of a process; an exited one has no user pages left. *)
Record proc_mem (k : kmem) (l : list Z) (p : proc) (A : space) : Prop := {
  pm_as : uvm_ok k l (p_pgdir p) A.1 A.2;
  pm_stack : allocatable (p_kstack p);
  pm_free : p_kstack p ∉ l;
  pm_apart : ~ in_as (p_pgdir p) A.1 A.2 (p_kstack p);
  pm_tf : p_tf p = p_kstack p + 4020;
  pm_zombie w : p_state p = ZOMBIE -> 0 <= w < NUSER -> A.2 w = 0
}.

(** [oth] are the pages that the rest of the kernel holds. *)
Record mem_inv (T : list proc) (k : kmem) (oth : gset Z) (l : list Z) (A : nat -> space) : Prop := {
  mi_k : kmem_rep k l;
  mi_proc i p : T !! i = Some p -> used p -> proc_mem k l p (A i);
  mi_apart i j p q a : T !! i = Some p -> T !! j = Some q -> used p -> used q -> owns p (A i) a -> owns q (A j) a -> i = j;
  mi_held a : a ∈ oth -> allocatable a;
  mi_oth a : a ∈ oth -> a ∉ l /\ forall i p, T !! i = Some p -> used p -> ~ owns p (A i) a;
  mi_all a : allocatable a -> a ∈ l \/ a ∈ oth \/ exists i p, T !! i = Some p /\ used p /\ owns p (A i) a
}.

Lemma owned_in_as k l d tabs ent a : uvm_ok k l d tabs ent -> in_as d tabs ent a -> a ∉ l.
Proof.
  intros O [X|(v & Hv & Ho & <-)].
  - intros Y. by apply (vo_free _ _ _ _ _ _ (uo_vm _ _ _ _ _ _ O) a Y).
  - apply (uo_page _ _ _ _ _ _ O v Hv Ho).
Qed.

Lemma owned_not_free k l p A a : proc_mem k l p A -> owns p A a -> a ∉ l.
Proof. intros [O _ H _ _ _] [->|X]; [done|by eapply owned_in_as]. Qed.

(** An address space is not affected by changes elsewhere. *)
Lemma uvm_frame k l k' l' d tabs ent : uvm_ok k l d tabs ent -> kmem_rep k' l' ->
  (forall a, in_as d tabs ent a -> a ∉ l' /\ page_at (mem k') a = page_at (mem k) a) -> uvm_ok k' l' d tabs ent.
Proof.
  intros [[R T Fr] P I Z0] R' H. split; try done; [split; [done| |]|].
  - eapply pt_rep_frame; [exact T|]. intros a Ha. apply H. by left.
  - intros a Ha Hd. destruct (H a) as [X _]; [by left|]. done.
  - intros v Hv Ho. destruct (P v Hv Ho) as (X & Y & _). split; [done|]. split; [done|]. apply H. right. eauto.
Qed.

Lemma proc_mem_frame k l k' l' p A : proc_mem k l p A -> kmem_rep k' l' ->
  (forall a, owns p A a -> a ∉ l' /\ page_at (mem k') a = page_at (mem k) a) -> proc_mem k' l' p A.
Proof.
  intros [O S1 S2 S3 S4 S5] R' H. split; try done; [|apply H; by left].
  eapply uvm_frame; [exact O|done|]. intros a X. apply H. by right.
Qed.

(** Processes with the same memory. *)
Definition same_mem (p p' : proc) : Prop :=
  p_pgdir p' = p_pgdir p /\ p_kstack p' = p_kstack p /\ p_tf p' = p_tf p /\ (used p' -> used p) /\
  (p_state p' = ZOMBIE -> p_state p = ZOMBIE).

Lemma exit_other_mem w cur ini ch p : same_mem p (exit_other w cur ini ch p).
Proof.
  destruct (exit_other_place w cur ini ch p) as (E1 & E2 & E3). unfold same_mem. split_and!; try done; [apply exit_other_used|].
  destruct (exit_other_fields w cur ini ch p) as (_ & _ & _ & _ & _ & [->|[_ ->]] & _); done.
Qed.

Lemma same_mem_owns p p' A a : same_mem p p' -> owns p' A a <-> owns p A a.
Proof. intros (E1 & E2 & _). unfold owns. by rewrite E1, E2. Qed.

Lemma same_mem_proc k l p p' A : same_mem p p' -> proc_mem k l p A -> proc_mem k l p' A.
Proof.
  intros (E1 & E2 & E3 & E4 & E5) [S0 S1 S2 S3 S4 S5]. split; rewrite ?E1, ?E2, ?E3; try done. intros w Z. apply S5. by apply E5.
Qed.

(** A change of the table that leaves all memory where it is. *)
Lemma mem_inv_map T T' k oth l A : mem_inv T k oth l A ->
  (forall i p', T' !! i = Some p' -> used p' -> exists p, T !! i = Some p /\ same_mem p p') ->
  (forall i p, T !! i = Some p -> used p -> exists p', T' !! i = Some p' /\ used p' /\ same_mem p p') ->
  mem_inv T' k oth l A.
Proof.
  intros [M1 M2 M3 Mh M4 M5] H1 H2. split; [done| | |done| |].
  - intros i p' X U. destruct (H1 i p' X U) as (p & Y & S). eapply same_mem_proc; [exact S|]. apply (M2 i p Y). by apply S.
  - intros i j p' q' a X Y U V O1 O2. destruct (H1 i p' X U) as (p & X' & S), (H1 j q' Y V) as (q & Y' & S').
    apply (same_mem_owns p p') in O1; [|done]. apply (same_mem_owns q q') in O2; [|done].
    eapply (M3 i j p q a); try done; [by apply S|by apply S'].
  - intros a Ha. destruct (M4 a Ha) as [B C]. split; [done|]. intros i p' X U. destruct (H1 i p' X U) as (p & X' & S).
    rewrite (same_mem_owns p p') by done. apply (C i p X'). by apply S.
  - intros a Ha. destruct (M5 a Ha) as [|[|(i & p & X & U & O)]]; [by left|by right; left|right; right].
    destruct (H2 i p X U) as (p' & X' & U' & S). exists i, p'. split; [done|]. split; [done|]. by apply (same_mem_owns p p').
Qed.

Lemma mem_inv_update T k oth l A i p p' : mem_inv T k oth l A -> T !! i = Some p -> same_mem p p' -> (used p -> used p') ->
  mem_inv (<[i := p']> T) k oth l A.
Proof.
  intros M Hi S U. assert (Hl := lookup_lt_Some _ _ _ Hi). eapply mem_inv_map; [exact M|..]; intros j q X V;
    (destruct (decide (j = i)) as [->|]; [rewrite ?list_lookup_insert_eq in * by done; simplify_eq; eauto|
      rewrite ?list_lookup_insert_ne in * by done]).
  - exists q. split; [done|]. by repeat split.
  - exists q. split; [done|]. split; [done|]. by repeat split.
Qed.

Definition upd_space (A : nat -> space) (i : nat) (B : space) : nat -> space := fun j => if decide (j = i) then B else A j.

(** The pages of a slot. *)
Definition mine (p : proc) (A : space) (a : Z) : Prop := used p /\ owns p A a.

(** Pages move between the free list and one process. *)
Lemma mem_inv_slot T k oth l A i p p' k' l' B : mem_inv T k oth l A -> T !! i = Some p -> kmem_rep k' l' ->
  (used p' -> proc_mem k' l' p' B) ->
  (forall a, a ∈ l \/ mine p (A i) a <-> a ∈ l' \/ mine p' B a) ->
  (forall a, a ∉ l -> ~ mine p (A i) a -> page_at (mem k') a = page_at (mem k) a) ->
  mem_inv (<[i := p']> T) k' oth l' (upd_space A i B).
Proof.
  clear data_range data_aligned kend_high.
  intros [M1 M2 M3 Mh M4 M5] Hi R Hp Hc Hm. assert (Hl := lookup_lt_Some _ _ _ Hi).
  assert (L : forall j q, (<[i := p']> T) !! j = Some q -> j = i /\ q = p' \/ j ≠ i /\ T !! j = Some q).
  { intros j q. destruct (decide (j = i)) as [->|]; [rewrite list_lookup_insert_eq by done; intros [= <-]; by left|].
    rewrite list_lookup_insert_ne by done. by right. }
  assert (Ei : upd_space A i B i = B) by (unfold upd_space; by rewrite decide_True).
  assert (En : forall j, j ≠ i -> upd_space A i B j = A j) by (intros j N; unfold upd_space; by rewrite decide_False).
  (* the pages of another process are neither free nor in this slot *)
  assert (Oth : forall j q a, j ≠ i -> T !! j = Some q -> used q -> owns q (A j) a -> a ∉ l' /\ ~ mine p' B a /\ page_at (mem k') a = page_at (mem k) a).
  { intros j q a N X U O. assert (X1 : a ∉ l) by (by eapply owned_not_free; [apply M2|]).
    assert (X2 : ~ mine p (A i) a) by (intros [Up Op]; apply N; by eapply M3).
    split; [intros Y; destruct (proj2 (Hc a)) as [|]; [by left|done|done]|]. split; [|by apply Hm].
    intros Y. destruct (proj2 (Hc a)) as [|]; [by right|done|done]. }
  split; [done| | |done| |].
  - intros j q [[-> ->]|[N X]]%L U; [rewrite Ei; by apply Hp|]. rewrite En by done. eapply proc_mem_frame; [by apply M2|done|].
    intros a O. destruct (Oth j q a N X U O) as (A1 & A2 & A3). done.
  - intros j m q r a [[-> ->]|[N X]]%L [[-> ->]|[N' Y]]%L U V; rewrite ?Ei, ?En by done; intros O1 O2; [done| | |by eapply M3].
    + destruct (Oth _ _ _ N' Y V O2) as (_ & W & _). by destruct W.
    + destruct (Oth _ _ _ N X U O1) as (_ & W & _). by destruct W.
  - intros a Ha. destruct (M4 a Ha) as [X Y]. assert (W : ~ mine p (A i) a) by (intros [U O]; by eapply Y).
    assert (Z : ~ (a ∈ l' \/ mine p' B a)) by (rewrite <- Hc; tauto). split; [tauto|].
    intros j q [[-> ->]|[N Q]]%L U; [rewrite Ei; intros O; apply Z; right; by split|]. rewrite En by done. by eapply Y.
  - intros a Ha. destruct (M5 a Ha) as [X|[X|(j & q & X & U & O)]].
    + destruct (proj1 (Hc a)) as [|[U O]]; [by left|by left|]. right. right. exists i, p'. by rewrite list_lookup_insert_eq, Ei.
    + by right; left.
    + destruct (decide (j = i)) as [->|N].
      * simplify_eq. destruct (proj1 (Hc a)) as [|[U' O']]; [by right|by left|]. right. right. exists i, p'. by rewrite list_lookup_insert_eq, Ei.
      * right. right. exists j, q. by rewrite list_lookup_insert_ne, En.
Qed.

(** ** [fork] *)

(** The open files of the child. *)
Fixpoint inherit (oc oq : list (option nat)) (i : Z) (n : nat) : list (option nat) :=
  match n with
  | O => oq
  | S n' => inherit oc (match rd None oc i with Some f => wr oq i (Some f) | None => oq end) (i + 1) n'
  end.

(** The references of a process to file [y], from descriptor [i] on. *)
Fixpoint fd_count (y : nat) (oc : list (option nat)) (i : Z) (n : nat) : Z :=
  match n with
  | O => 0
  | S n' => (if decide (rd None oc i = Some y) then 1 else 0) + fd_count y oc (i + 1) n'
  end.

Lemma fd_count_nonneg y oc i n : 0 <= fd_count y oc i n <= Z.of_nat n.
Proof. revert i. induction n as [|n IH]; intros i; simpl; [lia|]. specialize (IH (i + 1)). case_decide; lia. Qed.

Lemma xp_fork_files cur np0 c n : forall T i q ip np fs k f Q, np0 ≠ cur -> T !! cur = Some c -> (np0 < length T)%nat ->
  (forall y, fo_refs f y + Z.of_nat n < 2 ^ 31) ->
  (t = true -> forall j y, i <= j < i + Z.of_nat n -> rd None (p_ofile c) j = Some y -> 1 <= fo_refs f y) ->
  (forall f', fo_pages f' = fo_pages f -> (forall y, fo_refs f' y = fo_refs f y + fd_count y (p_ofile c) i n) ->
     Q tt (St (<[np0 := set_ofile (inherit (p_ofile c) (p_ofile q) i n) q]> T) ip np fs k f')) ->
  xp t (fork_files cur np0 i n) Q (St (<[np0 := q]> T) ip np fs k f).
Proof.
  induction n as [|n IH]; intros T i q ip np fs k f Q Hne Hc Hn Ho Ht H; cbn [fork_files].
  { xp_step. assert (X := H f). simpl in X. destruct q. apply X; [done|]. intros y. lia. }
  assert (Ec : proc_at (St (<[np0:=q]> T) ip np fs k f) cur = c).
  { rewrite proc_at_insert_ne by done. unfold proc_at. simpl. by rewrite Hc. }
  xp_step. apply xp_pget. rewrite Ec. xp_step. destruct (rd None (p_ofile c) i) as [x|] eqn:Ex.
  - xp_step. apply xp_fl.
    { intros Et. destruct (fo_filedup_law x f) as [f' X]; [|eauto]. split; [apply (Ht Et i x); [lia|done]|]. specialize (Ho x). lia. }
    intros y f' Ey. destruct (fo_filedup_ret x f y f' Ey) as (-> & Ep & Er); [specialize (Ho x); lia|]. apply xp_pmod; [done|].
    apply IH; try done.
    + intros y. rewrite Er. specialize (Ho y). case_decide; lia.
    + intros Et j y Hj Hy. rewrite Er. specialize (Ht Et j y ltac:(lia) Hy). case_decide; lia.
    + intros f'' Ep' Ef. assert (X := H f''). cbn [inherit fd_count] in X. rewrite Ex in X. apply X; [congruence|].
      intros y. rewrite Ef, Er. case_decide; case_decide; simplify_eq; lia.
  - xp_step. apply IH; try done.
    + intros y. specialize (Ho y). lia.
    + intros Et j y Hj Hy. apply (Ht Et j y); [lia|done].
    + intros f'' Ep' Ef. assert (X := H f''). cbn [inherit fd_count] in X. rewrite Ex in X. apply X; [congruence|].
      intros y. rewrite Ef. case_decide; simplify_eq; lia.
Qed.

(** The kernel stack of the child: it returns through [forkret] and [trapret]
    to the trap frame of the parent with 0 in %eax. *)
Record child_stack (pg pp : page) : Prop := {
  cs_forkret : get32 pg (3996 + context_eip) = u32 forkret;
  cs_trapret : get32 pg (4020 - 4) = u32 trapret;
  cs_eax : get32 pg (4020 + tf_eax) = 0;
  cs_tf o : 0 <= o < sizeof_trapframe -> ~ (tf_eax <= o < tf_eax + 4) -> rd 0 pg (4020 + o) = rd 0 pp (4020 + o)
}.

Lemma child_stack_page pg pp : is_page pg -> is_page pp ->
  child_stack (put32 (blit (stack_page pg) 4020 (slice pp 4020 76)) 4048 0) pp.
Proof.
  intros [L1 U1] [L2 U2]. unfold PGSIZE in *. assert (Ls : zlen (slice pp 4020 76) = 76) by (apply zlen_slice; lia).
  assert (Lr : zlen (replicate 20 0) = 20) by done.
  assert (L3 : zlen (put32 pg 4016 trapret) = 4096) by (unfold put32; rewrite zlen_blit; rewrite ?zlen_le_bytes; lia).
  assert (L4 : zlen (blit (put32 pg 4016 trapret) 3996 (replicate 20 0)) = 4096) by (rewrite zlen_blit; lia).
  assert (L5 : zlen (stack_page pg) = 4096) by (unfold stack_page, put32 at 1; rewrite zlen_blit; rewrite ?zlen_le_bytes; lia).
  assert (L6 : zlen (blit (stack_page pg) 4020 (slice pp 4020 76)) = 4096) by (rewrite zlen_blit; lia).
  split; unfold context_eip, tf_eax, sizeof_trapframe.
  - rewrite get32_put32_ne by lia. rewrite get32_blit_ne by lia. unfold stack_page. apply get32_put32; [lia|]. by rewrite L4.
  - rewrite get32_put32_ne by lia. rewrite get32_blit_ne by lia. unfold stack_page. rewrite get32_put32_ne by lia.
    change (4020 - 4) with 4016. rewrite get32_blit_ne by lia. apply get32_put32; lia.
  - rewrite get32_put32 by lia. done.
  - intros o Ho Hn. unfold put32. rewrite rd_blit_out by (rewrite ?zlen_le_bytes; lia).
    rewrite rd_blit_in by lia. rewrite rd_slice by lia. f_equal. lia.
Qed.

(** The child [p'] in the slot of [p]: as its parent [c], with its own stack
    [ks] and page directory [d]. *)
Definition child (cur : nat) (c : proc) (np ks d : Z) (p : proc) : proc :=
  Proc (p_sz c) d ks RUNNABLE (p_prio c) np (p_ret p) (Some cur) (ks + 4020) (ks + 3996) (p_chan p) (p_killed p)
    (inherit (p_ofile c) (p_ofile p) 0 (Z.to_nat NOFILE)) (p_cwd c) (safestrcpy (p_name p) (p_name c) 16).

(** The memory of the child: the parent's, copied. *)
Record child_mem (k k' : kmem) (c p' : proc) (A B : space) : Prop := {
  cm_same v : 0 <= v < pgs (p_sz c) -> same_page (mem k) (mem k') (A.2 v) (B.2 v);
  cm_top v : pgs (p_sz c) <= v < NUSER -> B.2 v = 0;
  cm_stack : child_stack (page_at (mem k') (p_kstack p')) (page_at (mem k) (p_kstack c))
}.

Lemma mem_inv_unused T k oth l A i p p' : mem_inv T k oth l A -> T !! i = Some p -> ~ used p -> ~ used p' ->
  mem_inv (<[i := p']> T) k oth l A.
Proof.
  intros M Hi U U'. assert (Hl := lookup_lt_Some _ _ _ Hi). eapply mem_inv_map; [exact M|..]; intros j q X V;
    (destruct (decide (j = i)) as [->|]; [rewrite ?list_lookup_insert_eq in * by done; by simplify_eq|
      rewrite ?list_lookup_insert_ne in * by done; exists q; by repeat split]).
Qed.

Lemma not_unused p : p_state p = UNUSED <-> ~ used p.
Proof. unfold used. destruct (decide (p_state p = UNUSED)); tauto. Qed.

Lemma unused_mine p A a : p_state p = UNUSED -> ~ mine p A a.
Proof. intros E [U _]. by apply U. Qed.

(** The files of [c] can be duplicated. *)
Definition files_ok (f : F) (c : proc) : Prop :=
  p_cwd c ≠ None /\ forall j y, 0 <= j < NOFILE -> rd None (p_ofile c) j = Some y -> 1 <= fo_refs f y.

Section fork.
Context (T : list proc) (oth : gset Z) (l : list Z) (A : nat -> space) (k : kmem) (cur : nat) (c : proc).
Context (M : mem_inv T k oth l A) (Hc : T !! cur = Some c) (Uc : used c) (Hsz : 0 <= p_sz c <= KERNBASE).

(** The state after a failed [fork]. *)
Definition fork_failed (T' : list proc) (k' : kmem) : Prop :=
  (T' = T \/ exists i p p', T !! i = Some p /\ T' = <[i := p']> T /\ p_state p = UNUSED /\ p_state p' = UNUSED) /\
  ((forall i p, T !! i = Some p -> used p) \/ Z.of_nat (length l) <= 1026 + pgs (p_sz c)) /\
  (forall a, a ∉ l -> page_at (mem k') a = page_at (mem k) a) /\
  exists l', mem_inv T' k' oth l' A /\ forall a, a ∈ l' <-> a ∈ l.

(** After [allocproc] and a failed [copyuvm]. *)
Lemma fork_undo i p p' ks l1 k3 l3 : T !! i = Some p -> p_state p = UNUSED -> p_state p' = UNUSED -> l = ks :: l1 ->
  kmem_rep k3 l3 -> (forall a, a ∈ l3 <-> a ∈ l) -> (forall a, a ∉ l -> page_at (mem k3) a = page_at (mem k) a) ->
  Z.of_nat (length l1) <= 1025 + pgs (p_sz c) -> fork_failed (<[i := p']> T) k3.
Proof.
  intros Hi U U' El R3 L3 M3 Hn. split; [right; by exists i, p, p'|]. split; [right; rewrite El; simpl; lia|]. split; [done|]. exists l3. split; [|done].
  eapply mem_inv_unused; [|exact Hi|by apply not_unused|by apply not_unused].
  destruct M as [M1 M2 M3' Mh M4 M5]. split; try done.
  - intros j q X V. eapply proc_mem_frame; [by apply M2|done|]. intros a O. assert (Y := owned_not_free _ _ _ _ _ (M2 _ _ X V) O).
    split; [by rewrite L3|by apply M3].
  - intros a Ha. rewrite L3. by apply M4.
  - intros a Ha. rewrite L3. by apply M5.
Qed.

(** After a successful one: [k1] and [l1] after [allocproc], [k2] and [l2]
    after [copyuvm], [k4] at the end. *)
Lemma fork_done i p ks l1 k1 d k2 l2 tabs ent k4 np : T !! i = Some p -> p_state p = UNUSED -> l = ks :: l1 -> allocatable ks ->
  wrote ks (stack_page (page_at (mem k) ks)) l1 k k1 ->
  copied kend k1 l1 (A cur).2 (pgs (p_sz c)) k2 l2 d tabs ent ->
  kmem_rep k4 l2 -> (forall a, a ≠ ks -> page_at (mem k4) a = page_at (mem k2) a) ->
  child_stack (page_at (mem k4) ks) (page_at (mem k) (p_kstack c)) ->
  let p' := child cur c np ks d p in
  mem_inv (<[i := p']> T) k4 oth l2 (upd_space A i (tabs, ent)) /\ child_mem k k4 c p' (A cur) (tabs, ent) /\
  forall a, a ∉ l -> page_at (mem k4) a = page_at (mem k) a.
Proof.
  intros Hi U El Ha (R1 & P1 & U1) [C1 C2 C3 C4 C5 _] R4 U4 Cs p'. subst l.
  assert (N := kr_nodup _ _ _ (mi_k _ _ _ _ _ M)). apply NoDup_cons in N as [N _].
  assert (Hks : ~ in_as d tabs ent ks /\ ks ∉ l2) by (split; intros X; apply N, C4; tauto).
  assert (Mem : forall a, a ∉ ks :: l1 -> page_at (mem k4) a = page_at (mem k) a).
  { intros a X. rewrite not_elem_of_cons in X. destruct X. by rewrite U4, C5, U1. }
  assert (Oc := mi_proc _ _ _ _ _ M cur c Hc Uc).
  split; [|split; [|done]].
  - apply (mem_inv_slot T k oth (ks :: l1) A i p p' k4 l2 (tabs, ent)); try done.
    + intros _. split; simpl; try done; [|apply Hks|apply Hks]. eapply uvm_frame; [exact C1|done|].
      intros a X. split; [intros Y; by eapply owned_in_as|]. apply U4. intros ->. by apply (proj1 Hks).
    + intros a. rewrite elem_of_cons, C4. split.
      * intros [[->|[X|X]]|X]; [right|by left|right|by apply unused_mine in X]; (split; [done|]); [by left|by right].
      * intros [X|[_ [->|X]]]; [left; right; by left|left; by left|left; right; by right].
    + intros a X _. by apply Mem.
  - split; simpl; [|done|done]. intros v Hv. destruct (pgs_bounds (p_sz c) Hsz) as (Ba & Bb & _). specialize (C2 v Hv). unfold same_page in *.
    destruct (Z.odd ((A cur).2 v)) eqn:Eo; [|done]. destruct C2 as (D1 & D2 & D3). split; [done|]. split; [done|].
    rewrite U4, D3, U1; [done| |].
    + intros X. apply (owned_not_free _ _ _ _ ks Oc); [|by left]. right. right. exists v. split; [lia|done].
    + intros X. apply (proj1 Hks). right. exists v. split; [lia|done].
Qed.

Lemma xp_fork ip np fs f Q : (forall y, fo_refs f y + 16 < 2 ^ 31) -> (t = true -> files_ok f c) ->
  (forall T' np' k', fork_failed T' k' -> Q (-1) (St T' ip np' fs k' f)) ->
  (forall i p ks d k' l' B f', T !! i = Some p -> p_state p = UNUSED ->
     let p' := child cur c np ks d p in
     mem_inv (<[i := p']> T) k' oth l' (upd_space A i B) -> child_mem k k' c p' (A cur) B ->
     (forall a, a ∉ l -> page_at (mem k') a = page_at (mem k) a) ->
     fo_pages f' = fo_pages f -> (forall y, fo_refs f' y = fo_refs f y + fd_count y (p_ofile c) 0 (Z.to_nat NOFILE)) ->
     Q np (St (<[i := p']> T) ip (s32 (np + 1)) fs k' f')) ->
  xp t (fork kend data forkret trapret cur) Q (St T ip np fs k f).
Proof.
  intros Hr Hf H0 H1. unfold fork. xp_step. eapply wp_allocproc; [apply (mi_k _ _ _ _ _ M)| |].
  { assert (Pg := proj1 (pgs_bounds (p_sz c) Hsz)). intros T' np' HT. xp_step. apply H0. split; [destruct HT as [[-> _]|[_ X]]; [by left|by right]|].
    split; [destruct HT as [[_ X]|[-> _]]; [by left|right; simpl; lia]|]. split; [done|]. exists l. split; [|done].
    destruct HT as [[-> _]|(_ & i & p & p' & Hi & -> & U & U')]; [done|]. eapply mem_inv_unused; [done|done|by apply not_unused..]. }
  intros i p ks l1 k1 Hi U El Ha Hnl W. assert (Hl := lookup_lt_Some _ _ _ Hi).
  assert (Hne : i ≠ cur) by (intros ->; apply Uc; congruence). assert (Oc := mi_proc _ _ _ _ _ M cur c Hc Uc).
  assert (Hksc : ks ≠ p_kstack c) by (intros E; apply (pm_free _ _ _ _ Oc); rewrite El, <- E; by left).
  assert (Ec : forall T' q np' k', proc_at (St (<[i := q]> T) ip np' fs k' T') cur = c).
  { intros. rewrite proc_at_insert_ne by done. unfold proc_at. simpl. by rewrite Hc. }
  assert (Oc1 : proc_mem k1 l1 c (A cur)).
  { destruct W as (R1 & _ & U1). eapply proc_mem_frame; [exact Oc|done|]. intros a X. assert (Y := owned_not_free _ _ _ _ _ Oc X).
    rewrite El, not_elem_of_cons in Y. split; [tauto|]. apply U1. tauto. }
  xp_step. apply xp_pget. rewrite Ec. xp_step.
  eapply xp_km; [by apply (wp_copyuvm kend kend_high data data_aligned data_range k1 l1 _ _ _ _ (pm_as _ _ _ _ Oc1))|].
  intros d k2 X. xp_step. apply xp_pmod; [done|]. unfold copy_post in X. destruct (d =? 0).
  - destruct X as (M2 & (l2 & R2 & L2) & Sh). xp_step. apply xp_pget. rewrite proc_at_insert by done. xp_step.
    eapply xp_km; [by apply (wp_kfree kend ks k2 l2 R2 Ha); rewrite L2|]. intros [] k3 (R3 & _ & U3). xp_step. apply xp_pmod; [done|]. xp_step.
    apply H0. eapply fork_undo; [exact Hi|done|done|exact El|exact R3| | |done].
    + intros a. by rewrite El, !elem_of_cons, L2.
    + destruct W as (_ & _ & U1). intros a Y. rewrite El, not_elem_of_cons in Y. destruct Y. by rewrite U3, M2, U1.
  - destruct X as (l2 & tabs & ent & C & O2). xp_step. apply xp_pmod; [done|]. xp_step. apply xp_pget. rewrite proc_at_insert by done.
    assert (R2 := vo_k _ _ _ _ _ _ (uo_vm _ _ _ _ _ _ O2)).
    assert (Hl2 : ks ∉ l2) by (intros Y; apply Hnl, (cp_cons _ _ _ _ _ _ _ _ _ _ C); by left).
    assert (Hk2 : forall a, a ∉ l1 -> a ≠ ks -> page_at (mem k2) a = page_at (mem k) a).
    { destruct W as (_ & _ & U1). intros a Y Y'. by rewrite (cp_mem _ _ _ _ _ _ _ _ _ _ C), U1. }
    xp_step. simpl p_tf. rewrite (pm_tf _ _ _ _ Oc).
    eapply xp_km; [apply (wp_copy_bytes_page kend ks 4020 (p_kstack c) sizeof_trapframe l2 k2); try done; apply Oc|].
    intros [] k3 (R3 & P3 & U3). xp_step. replace (ks + 4020 + tf_eax) with (ks + 4048) by (unfold tf_eax; lia).
    eapply xp_km; [by apply (wp_store_page kend ks 4048 0 l2 k3)|]. intros [] k4 (R4 & P4 & U4).
    xp_step. apply (xp_fork_files cur i c); try done.
    { intros Et j y Hj Hy. destruct (Hf Et) as [_ Z]. by apply (Z j y). }
    intros f' Epf Ef. destruct (p_cwd c) as [ip0|] eqn:Ecw; [|apply xp_panic; destruct t; [by destruct (Hf eq_refl)|done]].
    xp_step. destruct (fo_idup_law ip0 f') as (f2 & Ei & Epi & Er). apply xp_fl; [eauto|].
    intros a f2' Ea. assert (a = ip0 /\ f2' = f2) as [-> ->] by (rewrite Ei in Ea; by simplify_eq).
    xp_step. apply xp_pmod; [done|]. xp_step. apply xp_pmod; [done|]. xp_step. apply xp_pget. rewrite proc_at_insert by done.
    xp_step. apply xp_pmod; [done|]. xp_step.
    destruct (fork_done i p ks l1 k1 d k2 l2 tabs ent k4 np) as (G1 & G2 & G3); try done.
    + intros a Y. by rewrite U4, U3.
    + rewrite P4, P3. destruct W as (_ & P1 & U1).
      rewrite (cp_mem _ _ _ _ _ _ _ _ _ _ C ks Hnl), P1, (Hk2 (p_kstack c)).
      * apply child_stack_page; apply page_at_ok, M.
      * intros Y. apply (pm_free _ _ _ _ Oc). rewrite El. by right.
      * done.
    + assert (G := H1 i p ks d k4 l2 (tabs, ent) f2 Hi U G1 G2 G3). unfold child in G. rewrite Ecw in G. apply G; [congruence|].
      intros y. by rewrite Er, Ef.
Qed.
End fork.

(** ** [exit], [wait] and [growproc] *)

(** Shrinking an address space gives its pages to the free list. *)
Lemma cut_mem_inv T k oth l A i p p' ent' v hi l' k' : mem_inv T k oth l A -> T !! i = Some p -> used p -> used p' -> same_place p p' ->
  0 <= v -> hi <= NUSER -> (p_state p' = ZOMBIE -> p_state p = ZOMBIE \/ v = 0 /\ hi = NUSER) ->
  cut kend (p_pgdir p) (A i).1 (A i).2 ent' v hi l l' k k' ->
  mem_inv (<[i := p']> T) k' oth l' (upd_space A i ((A i).1, ent')).
Proof.
  clear data_range data_aligned.
  intros M Hi U U' (S1 & S2 & S3) Hv Hh Hz C. assert (O := mi_proc _ _ _ _ _ M i p Hi U). assert (O' := cut_ok _ _ _ _ _ _ _ _ _ _ _ C).
  assert (E := cut_ent _ _ _ _ _ _ _ _ _ _ _ C). assert (El := cut_list _ _ _ _ _ _ _ _ _ _ _ C).
  assert (Up : forall a, a ∈ l' <-> a ∈ l \/ exists w, v <= w < hi /\ Z.odd ((A i).2 w) = true /\ upage ((A i).2 w) = a).
  { intros a. rewrite El, elem_of_app, elem_of_reverse, elem_of_upages. split.
    - intros [(w & Hw & X)|X]; [right; exists w; split; [lia|done]|by left].
    - intros [X|(w & Hw & X)]; [by right|left; exists w; split; [lia|done]]. }
  assert (As : forall a, in_as (p_pgdir p) (A i).1 (A i).2 a <-> in_as (p_pgdir p) (A i).1 ent' a \/
    exists w, v <= w < hi /\ Z.odd ((A i).2 w) = true /\ upage ((A i).2 w) = a).
  { intros a. unfold in_as. split.
    - intros [X|(w & Hw & Ho & X)]; [by left; left|]. destruct (decide (v <= w < hi)) as [D|D]; [right; by exists w|].
      left. right. exists w. rewrite E, decide_False by done. done.
    - intros [[X|(w & Hw & Ho & X)]|(w & Hw & X)]; [by left| |right; exists w; split; [lia|done]].
      rewrite E in Ho, X by done. case_decide; [done|]. right. by exists w. }
  assert (Hsf : p_kstack p ∉ l').
  { rewrite Up. intros [X|(w & Hw & Ho & X)]; [by apply (pm_free _ _ _ _ O)|]. apply (pm_apart _ _ _ _ O). right. exists w. split; [lia|done]. }
  apply (mem_inv_slot T k oth l A i p p' k' l' _ M Hi (vo_k _ _ _ _ _ _ (uo_vm _ _ _ _ _ _ O'))).
  - intros _. destruct O as [P1 P2 P3 P4 P5 P6]. split; simpl; rewrite ?S1, ?S2, ?S3; try done.
    + intros X. apply P4, As. by left.
    + intros w Z Hw. rewrite E by done. destruct (Hz Z) as [Z'|[-> ->]]; [|by rewrite decide_True]. rewrite (P6 w Z' Hw). by case_decide.
  - intros a. unfold mine, owns. simpl. rewrite S1, S2, Up, As. tauto.
  - intros a X Y. apply (cut_mem _ _ _ _ _ _ _ _ _ _ _ C). rewrite not_elem_of_union, elem_of_list_to_set, elem_of_upages. split.
    + intros Z. apply Y. split; [done|]. right. by left.
    + intros (w & Hw & Z). apply Y. split; [done|]. right. apply As. right. exists w. split; [lia|done].
Qed.

(** A page of the kernel is freed. *)
Lemma free_held T k oth l A a k' : mem_inv T k oth l A -> a ∈ oth -> kfree kend a k = Ret tt k' -> mem_inv T k' (oth ∖ {[a]}) (a :: l) A.
Proof.
  clear data_range data_aligned kend_high. intros [M1 M2 M3 Mh M4 M5] Ha E. destruct (M4 a Ha) as [Hl Ho].
  assert (W := wp_kfree kend a k l M1 (Mh a Ha) Hl). unfold wp in W. rewrite E in W. destruct W as (R & _ & U). split; [done| |done| | |].
  - intros i p X V. eapply proc_mem_frame; [by apply M2|done|]. intros b O.
    assert (N : b ≠ a) by (intros ->; by eapply Ho). split; [|by apply U]. rewrite not_elem_of_cons. split; [done|].
    by eapply owned_not_free; [apply M2|].
  - intros b [Hb _]%elem_of_difference. by apply Mh.
  - intros b [Hb N]%elem_of_difference. rewrite elem_of_singleton in N. destruct (M4 b Hb). split; [|done]. by rewrite not_elem_of_cons.
  - intros b Hb. rewrite elem_of_cons, elem_of_difference, elem_of_singleton. destruct (decide (b = a)); [by left; left|].
    destruct (M5 b Hb) as [|[|]]; tauto.
Qed.

(** Closing files returns pages of the file layer. *)
Lemma closes_mem T oth l A x y : closes x y -> mem_inv T x.2 oth l A -> fo_pages x.1 ⊆ oth ->
  exists oth' l', mem_inv T y.2 oth' l' A /\ fo_pages y.1 ⊆ oth' /\ oth' ∖ fo_pages y.1 = oth ∖ fo_pages x.1.
Proof.
  intros C. revert oth l. induction C as [x|[f k] [f1 k1] [f2 k2] (i & u & E) C IH]; intros oth l M S; [by exists oth, l|].
  cbn [fst snd] in *. apply fo_fileclose_ret in E as (_ & [[Ep ->]|(a & Ha & Ep & Ek)]).
  - destruct (IH oth l M) as (oth' & l' & X & Y & Z); [by rewrite Ep|]. exists oth', l'. by rewrite <- Ep.
  - destruct (IH (oth ∖ {[a]}) (a :: l)) as (oth' & l' & X & Y & Z).
    + eapply free_held; [done|by apply S|done].
    + rewrite Ep. clear -S. set_solver.
    + exists oth', l'. split; [done|]. split; [done|]. rewrite Z, Ep. clear -Ha S. apply set_eq. intros b.
      rewrite !elem_of_difference, elem_of_singleton. destruct (decide (b = a)) as [->|]; tauto.
Qed.

Lemma exit_mem T k oth l A cur c c' T' k' r w ini : mem_inv T k oth l A -> T !! cur = Some c -> p_state c = RUNNING ->
  T' !! cur = Some c' -> p_state c' = ZOMBIE -> same_place c c' ->
  (forall j, j ≠ cur -> T' !! j = exit_other w cur ini (CProc <$> p_parent c) <$> T !! j) ->
  deallocuvm kend (p_pgdir c) KERNBASE 0 k = Ret r k' ->
  exists l' A', mem_inv T' k' oth l' A'.
Proof.
  intros M Hc Hr Hc' Hz Sp HT E. assert (Uc : used c) by (unfold used; congruence). assert (Uc' : used c') by (unfold used; congruence).
  assert (O := mi_proc _ _ _ _ _ M cur c Hc Uc).
  assert (W := wp_deallocuvm kend kend_high k l _ _ _ KERNBASE 0 (pm_as _ _ _ _ O) ltac:(lia) ltac:(unfold KERNBASE; lia)).
  unfold wp in W. rewrite E in W. destruct W as (_ & ent' & l' & C). change (pgs 0) with 0 in C. change (pgs KERNBASE) with NUSER in C.
  assert (M1 : mem_inv (<[cur := c]> T') k oth l A).
  { assert (Hl' := lookup_lt_Some _ _ _ Hc'). eapply mem_inv_map; [exact M|..]; intros i p X V;
      (destruct (decide (i = cur)) as [->|N];
        [rewrite ?list_lookup_insert_eq in * by done; exists c; replace p with c in * by congruence; by repeat split|
         rewrite ?list_lookup_insert_ne in * by done]).
    - rewrite HT in X by done. destruct (T !! i) as [q|]; [|done]. simplify_eq/=. exists q. split; [done|].
      by apply exit_other_mem.
    - rewrite HT, X by done. eexists. split; [done|]. split; [by apply exit_other_used|by apply exit_other_mem]. }
  assert (Hl' := lookup_lt_Some _ _ _ Hc'). eexists l', _.
  assert (E' : T' = <[cur := c']> (<[cur := c]> T')) by (by rewrite list_insert_insert_eq, list_insert_id).
  rewrite E'. eapply (cut_mem_inv _ k oth l A cur c c'); try done.
  - by rewrite list_lookup_insert_eq.
  - intros _. by right.
Qed.

(** [wait] frees the stack, the directory and the tables of the child. *)
Lemma wp_reap T k oth l A i p p' : mem_inv T k oth l A -> T !! i = Some p -> p_state p = ZOMBIE -> ~ used p' ->
  wp (kfree kend (p_kstack p);; freevm kend (p_pgdir p) false) (fun _ k' => exists l', mem_inv (<[i := p']> T) k' oth l' A /\
    forall a, a ∈ l' <-> a ∈ l \/ owns p (A i) a) k.
Proof.
  clear data_range data_aligned.
  intros M Hi Z U'. assert (U : used p) by (unfold used; congruence). assert (O := mi_proc _ _ _ _ _ M i p Hi U).
  wp_step. eapply wp_mono; [apply (wp_kfree kend _ k l); [apply M|apply O|apply O]|]. intros [] k1 (R1 & _ & U1).
  assert (V1 : vm_ok kend k1 (p_kstack p :: l) (p_pgdir p) (A i).1 (A i).2).
  { eapply uo_vm, uvm_frame; [apply O|done|]. intros a X. assert (X' : a ≠ p_kstack p) by (intros ->; by apply (pm_apart _ _ _ _ O)).
    split; [|by apply U1]. rewrite not_elem_of_cons. split; [done|]. by eapply owned_in_as; [apply O|]. }
  eapply wp_freevm_dir; [exact V1|]. intros k2 l2 R2 L2 U2.
  assert (As : forall a, in_as (p_pgdir p) (A i).1 (A i).2 a <-> a ∈ tables (p_pgdir p) (A i).1).
  { intros a. split; [|by left]. intros [X|(w & Hw & Ho & _)]; [done|]. by rewrite (pm_zombie _ _ _ _ O w Z Hw) in Ho. }
  assert (L : forall a, a ∈ l2 <-> a ∈ l \/ owns p (A i) a).
  { intros a. unfold owns. rewrite As, L2, elem_of_cons. tauto. }
  exists l2. split; [|done]. assert (Hx : mem_inv (<[i := p']> T) k2 oth l2 (upd_space A i (A i))).
  { apply (mem_inv_slot T k oth l A i p p' k2 l2 (A i) M Hi R2); [done| |].
    - intros a. rewrite L. unfold mine. tauto.
    - intros a X Y. rewrite U2, U1; [done| |].
      + intros ->. apply Y. split; [done|by left].
      + intros W. apply Y. split; [done|]. right. by apply As. }
  destruct Hx as [X1 X2 X3 Xh X4 X5]. unfold upd_space in *.
  assert (Eq : forall j, (if decide (j = i) then A i else A j) = A j) by (intros j; case_decide; by subst).
  split; [done| | |done| |].
  - intros j q X V. specialize (X2 j q X V). by rewrite Eq in X2.
  - intros j m q r a. specialize (X3 j m q r a). by rewrite !Eq in X3.
  - intros a Ha. destruct (X4 a Ha) as [Y W]. split; [done|]. intros j q X V. specialize (W j q X V). by rewrite Eq in W.
  - intros a Ha. destruct (X5 a Ha) as [|[|(j & q & X & V & Oj)]]; [by left|by right; left|]. right. right. exists j, q. by rewrite Eq in Oj.
Qed.
End memory.
