(* ===== verification/ProcSpec.v ===== *)
(** * Processes: the theorems

    Executions of processes that fork, exit, wait, sleep, shrink and write
    their memory, from the first process on. *)

From S2P Require Import Prelude Param Layout Cstring BlockStore Mmu Kalloc Vm PageTable UserMemory AddressSpace VmSpec FileOps Proc ProcTable ProcMemory.

(** ** The first process *)

Section init.
Context {F : Type} {FO : FileOps F} (kend : Z) {FL : FileLaws kend F}.
Context (kend_high : KERNLINK <= kend) (data : Z) (data_aligned : data mod PGSIZE = 0)
  (data_range : KERNLINK < data <= KERNBASE + 4 * 1024 * 1024) (forkret trapret : Z).
Context (initcode : list Z) (initcode_u8 : Forall is_u8 initcode) (initcode_size : zlen initcode < PGSIZE).
Notation St := (@PSys F).
Notation kmem_rep := (kmem_rep kend).
Notation allocatable := (allocatable kend).
Notation uvm_ok := (uvm_ok kend).
Notation wrote := (wrote kend).

(** [inituvm] maps a new page at address 0. *)
Lemma wp_inituvm k l d tabs ent : uvm_ok k l d tabs ent -> ent 0 = 0 -> (2 <= length l)%nat ->
  wp (inituvm d initcode (zlen initcode)) (fun _ k' => exists tabs' l' e, uvm_ok k' l' d tabs' (upd ent 0 e) /\
    Z.odd e = true /\
    (forall a, a ∈ l <-> a ∈ l' \/ a = upage e \/ a ∈ tables d tabs' ∖ tables d tabs) /\ tables d tabs ⊆ tables d tabs' /\
    (forall a, a ∉ l -> a ∉ tables d tabs -> page_at (mem k') a = page_at (mem k) a)) k.
Proof.
  intros O E0 Hl. assert (Hz := zlen_nonneg initcode). unfold inituvm. destruct (Z.leb_spec PGSIZE (zlen initcode)); [lia|].
  wp_step. eapply wp_kalloc_cases; [apply (uo_vm _ _ _ _ _ _ O)|intros ->; simpl in Hl; lia|].
  intros p l1 k1 -> Hp Hp0 Hpl R1 Em. wp_step. destruct (fresh_page _ _ _ _ _ _ _ O) as (Hin & _ & _).
  assert (O1 : uvm_ok k1 l1 d tabs ent).
  { eapply uvm_frame; [exact O|done|]. intros a X. rewrite Em. split; [|done]. intros Y. eapply owned_in_as; [exact O|exact X|by right]. }
  eapply wp_clear_page; [done|done|]. intros k2 R2 Z2 U2. rewrite Em in U2.
  assert (O2 : uvm_ok k2 l1 d tabs ent).
  { eapply uvm_frame; [exact O1|done|]. intros a X. split; [by eapply owned_in_as|]. rewrite Em. apply U2.
    rewrite not_elem_of_singleton. by intros ->. }
  wp_step. change 0 with (PGSIZE * 0) at 1.
  eapply wp_mono; [apply (wp_map_user kend k2 l1 d tabs ent 0 p (Z.lor PTE_W PTE_U) O2); try done|].
  intros r k3 (tabs' & l' & [G1 (new & -> & Et) _ G4] & [(_ & O3 & _)|(_ & X & _)]); [|simpl in Hl; rewrite X in Hl; simpl in Hl; lia].
  wp_step. set (e := V2P p + Z.lor (Z.lor PTE_W PTE_U) PTE_P) in *.
  destruct (upage_entry kend p 7 Hp) as [Eu Ef]; [done|]. change (V2P p + 7) with e in Eu, Ef.
  assert (Oe : Z.odd e = true).
  { unfold e. rewrite Z.odd_add. destruct (V2P_alloc kend p Hp) as [_ X]. rewrite <- (Z.negb_even (V2P p)).
    assert (Y : Z.even (V2P p) = true) by (apply Z.even_spec; exists (V2P p / 2); unfold PGSIZE in *; mlia). by rewrite Y. }
  assert (N := kr_nodup _ _ _ R1). rewrite not_elem_of_app in Hpl.
  exists tabs', l', e. set (k4 := set_mem _ k3).
  assert (O4 : uvm_ok k4 l' d tabs' (upd ent 0 e)).
  { unfold k4. rewrite <- Eu. assert (X := uvm_write kend k3 l' d tabs' (upd ent 0 e) 0). rewrite upd_eq in X. apply X; try done.
    apply blit_page; [apply page_at_ok, O3|done|rewrite zlen_slice; lia|by apply slice_u8]. }
  split; [done|]. split; [done|]. split; [|split].
  - intros a. rewrite Eu, elem_of_difference, Et, elem_of_union, elem_of_list_to_set, elem_of_cons, elem_of_app. split.
    + intros [->|[X|X]]; [tauto| |tauto]. right. right. split; [tauto|]. intros Y. by eapply (owned_in_as _ _ _ _ _ _ a O1); [left|apply elem_of_app; left].
    + intros [X|[X|[[X|X] Y]]]; tauto.
  - rewrite Et. apply union_subseteq_l.
  - intros a X Y. rewrite not_elem_of_cons, not_elem_of_app in X. destruct X as [Xp [Xn Xl]].
    unfold k4. simpl. rewrite page_at_insert, decide_False by done. rewrite G4, U2; [done|by rewrite not_elem_of_singleton|].
    rewrite Et, not_elem_of_union, elem_of_list_to_set. done.
Qed.

(** [k'] differs from [k] only in page [ks]. *)
Definition touched (ks : Z) (l : list Z) (k k' : kmem) : Prop :=
  kmem_rep k' l /\ forall a, a ≠ ks -> page_at (mem k') a = page_at (mem k) a.

Lemma touched_wrote ks pg l k k' k'' : touched ks l k k' -> wrote ks pg l k' k'' -> touched ks l k k''.
Proof. intros [_ U] (R & _ & U'). split; [done|]. intros a Ha. by rewrite U', U. Qed.

Lemma touched_store ks off v l k k' : touched ks l k k' -> allocatable ks -> ks ∉ l -> 0 <= off -> off + 4 <= PGSIZE ->
  wp (store (ks + off) v) (fun _ k'' => touched ks l k k'') k'.
Proof.
  intros X Ha Hl H0 H4. eapply wp_mono; [apply (wp_store_page kend ks off v l k'); try done; apply X|].
  intros [] k'' W. by eapply touched_wrote.
Qed.
Lemma touched_store16 ks off v l k k' : touched ks l k k' -> allocatable ks -> ks ∉ l -> 0 <= off -> off + 2 <= PGSIZE ->
  wp (store16 (ks + off) v) (fun _ k'' => touched ks l k k'') k'.
Proof.
  intros X Ha Hl H0 H4. eapply wp_mono; [apply (wp_store16_page kend ks off v l k'); try done; apply X|].
  intros [] k'' W. by eapply touched_wrote.
Qed.

(** Before [userinit]: every page is free or held by the kernel. *)
Definition boot_mem (k : kmem) (oth : gset Z) (l : list Z) : Prop :=
  kmem_rep k l /\ (forall a, a ∈ l -> a ∉ oth) /\ forall a, a ∈ l \/ a ∈ oth <-> allocatable a.

(** The memory of the only process. *)
Lemma first_mem T k0 k oth l l' i p p' A : boot_mem k0 oth l -> (forall j q, T !! j = Some q -> ~ used q) -> T !! i = Some p ->
  kmem_rep k l' -> proc_mem kend k l' p' A -> (forall a, a ∈ l <-> a ∈ l' \/ owns p' A a) -> used p' ->
  mem_inv kend (<[i := p']> T) k oth l' (fun _ => A).
Proof.
  intros (R0 & D & Al) HT Hi R P L U'. assert (Hl := lookup_lt_Some _ _ _ Hi).
  assert (X : forall j q, (<[i := p']> T) !! j = Some q -> used q -> j = i /\ q = p').
  { intros j q. destruct (decide (j = i)) as [->|]; [rewrite list_lookup_insert_eq by done; naive_solver|].
    rewrite list_lookup_insert_ne by done. intros X U. by destruct (HT _ _ X). }
  split; [done| | | | |].
  - intros j q Y U. by destruct (X j q Y U) as [-> ->].
  - intros j m q r a Y W U V _ _. destruct (X j q Y U) as [-> ->], (X m r W V) as [-> ->]. done.
  - intros a Ha. apply Al. by right.
  - intros a Ha. split; [intros Y; apply (D a); [apply L; by left|done]|]. intros j q Y U. destruct (X j q Y U) as [-> ->].
    intros O. apply (D a); [apply L; by right|done].
  - intros a Ha. apply Al in Ha as [Ha|Ha]; [|by right; left]. apply L in Ha as [Ha|Ha]; [by left|]. right. right.
    exists i, p'. by rewrite list_lookup_insert_eq.
Qed.

Lemma wp_userinit s oth l : zero_table s -> boot_mem (km s) oth l -> (1030 <= length l)%nat ->
  (exists r f', fo_namei (cstring "/") (fl s) = Ret r f') ->
  wp (userinit kend data forkret trapret initcode) (fun _ s' =>
    exists l' A, mem_inv kend (ptable s') (km s') oth l' A /\ fo_pages (fl s') = fo_pages (fl s) /\
      forall i w, 0 < w < NUSER -> (A i).2 w = 0) s.
Proof.
  intros [Et _] B Hl (rn & fn & En). destruct s as [T ip np fs k f]. cbn [ptable km fl nextpid] in *.
  assert (HT : forall j q, T !! j = Some q -> ~ used q).
  { intros j q. rewrite Et. intros [-> _]%lookup_replicate U. by apply U. }
  change wp with (@xp (psys F) unit true) at 1. unfold userinit. xp_step. eapply (wp_allocproc kend true forkret trapret); [apply B| |].
  { intros T' np' [[_ X]|[-> _]]; [|simpl in Hl; lia]. destruct (HT 0%nat proc0); [by rewrite Et|]. apply (X 0%nat). by rewrite Et. }
  intros i p ks l1 k1 Hi U -> Ha Hnl (R1 & P1 & U1). assert (HL := lookup_lt_Some _ _ _ Hi). simpl in Hl.
  xp_step. xp_step. unfold set_initproc. cbn [ptable nextpid first km fl]. xp_step. apply xp_pmod; [done|].
  xp_step. eapply xp_km; [apply (wp_setupkvm kend data data_aligned data_range k1 l1 R1)|].
  intros d k2 [M2 X]. xp_step. apply xp_pmod; [done|]. destruct (d =? 0); [destruct X as [_ X]; lia|].
  destruct X as (tabs & l2 & ent & O2 & [Fr _] & L2 & S2).
  assert (Sz := size_tabs _ _ _ _ _ (vo_pt _ _ _ _ _ _ (uo_vm _ _ _ _ _ _ O2))).
  xp_step. eapply xp_km; [apply (wp_inituvm k2 l2 d tabs ent O2); [by apply Fr|lia]|].
  intros _ k3 (tabs' & l3 & e & O3 & Oe & L3 & Sub & M3). xp_step. apply xp_pmod; [done|]. xp_step. apply xp_pget.
  rewrite proc_at_insert by done. cbn [p_tf set_sz set_pgdir set_prio embryo set_tf set_context].
  assert (As : forall a, in_as d tabs' (upd ent 0 e) a <-> a ∈ tables d tabs' \/ a = upage e).
  { intros a. unfold in_as. split.
    - intros [X|(v & Hv & Ho & <-)]; [by left|]. destruct (decide (0 = v)) as [<-|N]; [right; by rewrite upd_eq|].
      rewrite upd_ne in Ho by done. by rewrite Fr in Ho by lia.
    - intros [X| ->]; [by left|]. right. exists 0. rewrite upd_eq. done. }
  assert (L : forall a, a ∈ l1 <-> a ∈ l3 \/ in_as d tabs' (upd ent 0 e) a).
  { intros a. rewrite As, L2, L3, elem_of_difference. destruct (decide (a ∈ tables d tabs)) as [D|D]; [|tauto].
    assert (D' := Sub a D). tauto. }
  assert (Hks : ks ∉ l3 /\ ~ in_as d tabs' (upd ent 0 e) ks) by (split; intros X; apply Hnl, L; tauto).
  assert (T3 : touched ks l3 k3 k3) by (split; [apply O3|done]).
  xp_step. eapply xp_km; [apply (wp_set_bytes_page kend ks 4020 sizeof_trapframe l3 k3); try done; [apply O3|apply Hks]|].
  intros [] k4 W4. assert (T4 := touched_wrote _ _ _ _ _ _ T3 W4). clear W4.
  unfold tf_cs, tf_ds, tf_es, tf_ss, tf_eflags, tf_esp, tf_eip. rewrite <- !(Z.add_assoc ks 4020).
  xp_step. eapply xp_km; [by apply (touched_store16 ks _ _ l3 k3 k4 T4 Ha (proj1 Hks))|]. intros [] k5 T5.
  xp_step. eapply xp_km; [by apply (touched_store16 ks _ _ l3 k3 k5 T5 Ha (proj1 Hks))|]. intros [] k6 T6.
  xp_step. eapply xp_km; [by apply (touched_store16 ks _ _ l3 k3 k6 T6 Ha (proj1 Hks))|]. intros [] k7 T7.
  xp_step. eapply xp_km; [by apply (touched_store16 ks _ _ l3 k3 k7 T7 Ha (proj1 Hks))|]. intros [] k8 T8.
  xp_step. eapply xp_km; [by apply (touched_store ks _ _ l3 k3 k8 T8 Ha (proj1 Hks))|]. intros [] k9 T9.
  xp_step. eapply xp_km; [by apply (touched_store ks _ _ l3 k3 k9 T9 Ha (proj1 Hks))|]. intros [] k10 T10.
  xp_step. eapply xp_km; [by apply (touched_store ks _ _ l3 k3 k10 T10 Ha (proj1 Hks))|]. intros [] k11 [R11 U11].
  xp_step. apply xp_pmod; [done|]. xp_step. apply xp_fl; [intros _; eauto|]. intros cw f' Ef.
  xp_step. apply xp_pmod; [done|]. apply xp_pmod; [done|]. cbn [ptable km fl]. exists l3, (fun _ => (tabs', upd ent 0 e)).
  split; [|split; [by eapply fo_namei_ret|intros j w Hw; simpl; rewrite upd_ne by lia; apply Fr; lia]].
  eapply (first_mem T k k11 oth (ks :: l1)); [done|done|exact Hi|done| | |done].
  - split; simpl; try done; [|apply Hks|apply Hks]. eapply uvm_frame; [exact O3|done|].
    intros a X. split; [by eapply owned_in_as|]. apply U11. intros ->. by apply (proj2 Hks).
  - intros a. rewrite elem_of_cons, L. unfold owns. simpl. tauto.
Qed.
End init.

(** ** Executions *)

Section exec.
Context {F : Type} {FO : FileOps F} (kend : Z) {FL : FileLaws kend F}.
Context (kend_high : KERNLINK <= kend) (data : Z) (data_aligned : data mod PGSIZE = 0)
  (data_range : KERNLINK < data <= KERNBASE + 4 * 1024 * 1024) (forkret trapret : Z).
Implicit Types (s : psys F).
Notation pstep := (pstep kend data forkret trapret).

(** The page that the processor lets user code write at address [va]. *)
Definition user_page (m : memory) (d va : Z) : option Z :=
  let pde := ld32 m (d + 4 * PDX va) in
  if has pde PTE_P && has pde PTE_U then
    let pte := ld32 m (P2V (PTE_ADDR pde) + 4 * PTX va) in
    if has pte PTE_P && has pte PTE_U && has pte PTE_W then Some (P2V (PTE_ADDR pte)) else None
  else None.

(** No memory moves. *)
Definition quiet s s' : Prop := km s' = km s /\ fo_pages (fl s') = fo_pages (fl s) /\
  (forall i p', ptable s' !! i = Some p' -> exists p, ptable s !! i = Some p /\ same_mem p p') /\
  forall i p, ptable s !! i = Some p -> used p -> exists p', ptable s' !! i = Some p' /\ used p' /\ same_mem p p'.

Definition write_page (a : Z) (pg : page) s : psys F := set_km (set_mem (<[a := pg]> (mem (km s))) (km s)) s.

(** Steps of the kernel and of user programs that write to memory.  [ms_take]
    and [ms_held] are the file layer: it takes a page for a pipe and writes to
    its pages. *)
Inductive mstep : psys F -> list event -> psys F -> Prop :=
| ms_fork s i r s' : running s i -> nextpid s < 2 ^ 31 - 1 -> 0 <= p_sz (proc_at s i) <= KERNBASE ->
    (forall y, fo_refs (fl s) y + 16 < 2 ^ 31) ->
    fork kend data forkret trapret i s = Ret r s' -> mstep s [] s'
| ms_exit s i st s' : running s i -> exit kend i st s = Ret tt s' -> mstep s [Exited (p_pid (proc_at s i)) st] s'
| ms_wait_sleep s i s' : running s i -> wait kend i s = Ret None s' -> mstep s [] s'
| ms_wait s i pid st s' : running s i -> wait kend i s = Ret (Some (pid, st)) s' ->
    mstep s (if pid =? -1 then [] else [Reaped pid st]) s'
| ms_shrink s i n r s' : running s i -> n <= 0 -> 0 <= p_sz (proc_at s i) <= KERNBASE ->
    growproc kend i n s = Ret r s' -> mstep s [] s'
| ms_quiet s e s' : pstep s e s' -> quiet s s' -> mstep s e s'
| ms_user s i va a pg : running s i -> 0 <= va < KERNBASE -> user_page (mem (km s)) (p_pgdir (proc_at s i)) va = Some a ->
    is_page pg -> mstep s [] (write_page a pg s)
| ms_take s a k' f' : kalloc (km s) = Ret a k' -> a ≠ 0 -> fo_pages f' = fo_pages (fl s) ∪ {[a]} ->
    mstep s [] (set_km k' (set_fl f' s))
| ms_held s a pg f' : a ∈ fo_pages (fl s) -> is_page pg -> fo_pages f' = fo_pages (fl s) ->
    mstep s [] (write_page a pg (set_fl f' s))
| ms_stack s i pg : running s i -> is_page pg -> mstep s [] (write_page (p_kstack (proc_at s i)) pg s).

Inductive mruns s0 : list event -> psys F -> Prop :=
| mr_refl : mruns s0 [] s0
| mr_step ev s e s' : mruns s0 ev s -> mstep s e s' -> mruns s0 (e ++ ev) s'.

Lemma mstep_pstep s e s' : mstep s e s' -> pstep s e s'.
Proof.
  intros H. destruct H.
  - by eapply ps_fork.
  - by eapply ps_exit.
  - by eapply ps_wait_sleep.
  - by eapply ps_wait.
  - by eapply ps_growproc.
  - done.
  - destruct s. apply (ps_other kend data forkret trapret (PSys _ _ _ _ _ _)).
  - apply ps_other.
  - apply (ps_other kend data forkret trapret s (set_mem (<[a := pg]> (mem (km s))) (km s)) f').
  - destruct s. apply (ps_other kend data forkret trapret (PSys _ _ _ _ _ _)).
Qed.

Lemma mruns_pruns s0 ev s : mruns s0 ev s -> pruns kend data forkret trapret s0 ev s.
Proof. intros H. induction H; [constructor|]. econstructor; [done|by apply mstep_pstep]. Qed.

(** A page that user code can write is a user page of its address space. *)
Lemma user_page_owned k l d tabs ent va a : uvm_ok kend k l d tabs ent -> 0 <= va < KERNBASE ->
  user_page (mem k) d va = Some a -> exists v, 0 <= v < NUSER /\ Z.odd (ent v) = true /\ a = upage (ent v).
Proof.
  intros O Hv E. destruct (vpn_user va Hv) as [Hn Hu]. assert (R := vo_pt _ _ _ _ _ _ (uo_vm _ _ _ _ _ _ O)).
  assert (L := load_pde kend k d tabs ent va R Hu). unfold user_page in E. destruct (tabs !! PDX va) as [t|] eqn:Et.
  - destruct L as [L1 L2]. rewrite L1 in E. destruct (has (ld32 (mem k) _) PTE_U); [|done]. cbn [andb] in E. rewrite L2 in E.
    destruct (load_pte kend k d tabs ent va t R Hu Et) as [L3 _]. unfold pte_addr in L3. rewrite Et in L3. rewrite L3 in E.
    rewrite has_P in E. destruct (Z.odd (ent (vpn va))) eqn:Eo; [|done].
    destruct (_ && _); [|done]. injection E as <-. by exists (vpn va).
  - rewrite L in E. done.
Qed.

Lemma write_inv T k oth l A i p a pg : mem_inv kend T k oth l A -> T !! i = Some p -> used p -> is_page pg ->
  (a = p_kstack p \/ exists v, 0 <= v < NUSER /\ Z.odd ((A i).2 v) = true /\ a = upage ((A i).2 v)) ->
  mem_inv kend T (set_mem (<[a := pg]> (mem k)) k) oth l (upd_space A i (A i)).
Proof.
  intros M Hi U Hg Ha. assert (P := mi_proc _ _ _ _ _ _ M i p Hi U).
  assert (Own : owns p (A i) a) by (destruct Ha as [->|(v & Hv & Ho & ->)]; [by left|right; right; eauto]).
  assert (Hl : a ∉ l) by (by eapply owned_not_free).
  assert (R : kmem_rep kend (set_mem (<[a := pg]> (mem k)) k) l) by (by apply kmem_rep_write; [apply M|..]).
  assert (Un : forall b, b ≠ a -> page_at (mem (set_mem (<[a := pg]> (mem k)) k)) b = page_at (mem k) b).
  { intros b Hb. simpl. by rewrite page_at_insert, decide_False. }
  rewrite <- (list_insert_id T i p) by done. apply (mem_inv_slot kend T k oth l A i p p _ l (A i) M Hi R).
  - intros _. destruct P as [P1 P2 P3 P4 P5 P6]. split; try done. destruct Ha as [->|(v & Hv & Ho & ->)]; [|by apply uvm_write].
    eapply uvm_frame; [exact P1|done|]. intros b X. split; [by eapply owned_in_as|]. apply Un. by intros ->.
  - done.
  - intros b X Y. apply Un. intros ->. apply Y. by split.
Qed.

(** What [wait] does to memory. *)
Lemma lp_wait_mem cur s c : ptable s !! cur = Some c -> used c ->
  lp (wait kend cur) (fun r s' => fl s' = fl s /\ (km s' = km s /\ (exists p', ptable s' = <[cur := p']> (ptable s) /\ same_mem c p' /\ (used c -> used p')) \/
    exists i p p', ptable s !! i = Some p /\ ptable s' = <[i := p']> (ptable s) /\ p_state p = ZOMBIE /\ ~ used p' /\
      (kfree kend (p_kstack p);; freevm kend (p_pgdir p) false) (km s) = Ret tt (km s'))) s.
Proof.
  destruct s as [T ip np fs k f]. simpl. intros Hc Uc. unfold wait. lp_step. lp_step. cbn [ptable].
  assert (Same : same_mem c c) by (by repeat split).
  assert (Sp := wait_scan_spec cur T 0 false). destruct (wait_scan cur T 0 false) as [i|hk].
  - destruct Sp as (j & p & -> & Hj & Hp & Hz). rewrite Nat.add_0_l. assert (Hl := lookup_lt_Some _ _ _ Hj).
    lp_step. apply lp_pget. unfold proc_at at 1. cbn [ptable]. rewrite Hj. cbn [default]. lp_step. apply lp_km_eq. intros [] k1 E1.
    lp_step. eapply lp_pmod_first; [exact Hj|]. lp_step. apply lp_km_eq. intros [] k2 E2. lp_step. apply lp_pmod; [done|]. lp_step. cbn [ptable km fl].
    split; [done|]. right. eexists j, p, _. split; [done|]. split; [reflexivity|]. split; [done|]. split; [intros X; by apply X|].
    unfold mbind, M_bind. unfold proc_at in E1, E2. simpl in E1, E2. rewrite Hj in E1, E2. simpl in E1, E2. by rewrite E1.
  - lp_step. apply lp_pget. unfold proc_at. simpl. rewrite Hc. simpl. destruct (_ || _).
    + lp_step. split; [done|]. left. split; [done|]. exists c. cbn [ptable]. by rewrite list_insert_id.
    + lp_step. eapply lp_pmod_first; [exact Hc|]. lp_step. split; [done|]. left. split; [done|]. eexists. split; [reflexivity|]. by repeat split.
Qed.

Lemma lp_growproc_mem cur n s c : ptable s !! cur = Some c -> n <= 0 ->
  lp (growproc kend cur n) (fun _ s' => s' = s \/ exists r v,
    deallocuvm kend (p_pgdir c) (p_sz c) (u32 (p_sz c + n)) (km s) = Ret r (km s') /\
    fl s' = fl s /\ (ptable s' = ptable s \/ ptable s' = <[cur := set_sz v c]> (ptable s))) s.
Proof.
  destruct s as [T ip np fs k f]. simpl. intros Hc Hn. unfold growproc. lp_step. apply lp_pget. unfold proc_at. cbn [ptable]. rewrite Hc. cbn [default].
  destruct (Z.ltb_spec 0 n); [lia|]. destruct (n <? 0); [|lp_step; by left].
  lp_step. apply lp_km_eq. intros r k1 E. destruct (r =? 0).
  - lp_step. right. exists r, 0. split; [done|]. split; [done|by left].
  - lp_step. eapply lp_pmod_first; [exact Hc|]. lp_step. right. exists r, r. split; [done|]. split; [done|by right].
Qed.

(** [rest] is what the kernel holds besides the pages of the file layer. *)
Definition owned_once (rest : gset Z) s : Prop := exists oth l A, mem_inv kend (ptable s) (km s) oth l A /\
  fo_pages (fl s) ⊆ oth /\ oth ∖ fo_pages (fl s) = rest.

Lemma wait_owned oth l A s i c r s' : mem_inv kend (ptable s) (km s) oth l A -> ptable s !! i = Some c -> used c ->
  wait kend i s = Ret r s' -> fl s' = fl s /\ exists l' A', mem_inv kend (ptable s') (km s') oth l' A'.
Proof.
  intros M Hc U E. destruct (lp_wait_mem i s c Hc U r s' E) as [Ef [(Ek & p' & Et & S & U')|(j & p & p' & Hj & Et & Hz & U' & Ew)]];
    (split; [done|]).
  - exists l, A. rewrite Ek, Et. by eapply mem_inv_update.
  - assert (W := wp_reap kend (ptable s) (km s) oth l A j p p' M Hj Hz U'). unfold wp in W. rewrite Ew in W.
    destruct W as (l' & M' & _). exists l', A. by rewrite Et.
Qed.

Lemma shrink_owned oth l A s i c n r s' : mem_inv kend (ptable s) (km s) oth l A -> ptable s !! i = Some c -> p_state c = RUNNING ->
  n <= 0 -> 0 <= p_sz c <= KERNBASE -> growproc kend i n s = Ret r s' ->
  fl s' = fl s /\ exists l' A', mem_inv kend (ptable s') (km s') oth l' A'.
Proof.
  intros M Hc Hr Hn Hs E. assert (U : used c) by (unfold used; congruence). assert (P := mi_proc _ _ _ _ _ _ M i c Hc U).
  destruct (lp_growproc_mem i n s c Hc Hn r s' E) as [->|(v & w & Ed & Ef & Et)]; [split; [done|by exists l, A]|]. split; [done|].
  assert (Hu := u32_range (p_sz c + n)). destruct (pgs_bounds (p_sz c) Hs) as (B1 & B2 & _).
  assert (W := wp_deallocuvm kend kend_high (km s) l _ _ _ (p_sz c) (u32 (p_sz c + n)) (pm_as _ _ _ _ _ P) ltac:(apply Hu) Hs).
  unfold wp in W. rewrite Ed in W. destruct W as (_ & ent' & l' & C).
  assert (Hv : 0 <= pgs (u32 (p_sz c + n))) by (unfold pgs, PGSIZE; destruct Hu; mlia).
  exists l'. eexists. destruct Et as [-> | ->].
  - rewrite <- (list_insert_id (ptable s) i c) by done. eapply (cut_mem_inv kend _ (km s) oth l A i c c); try exact C; try done; try lia; intros X; by left.
  - eapply (cut_mem_inv kend _ (km s) oth l A i c); try exact C; try done; try lia; intros X; by left.
Qed.

(** The file layer takes a page. *)
Lemma take_owned T k oth l A a k' : mem_inv kend T k oth l A -> kalloc k = Ret a k' -> a ≠ 0 ->
  exists l', mem_inv kend T k' (oth ∪ {[a]}) l' A /\ a ∉ oth.
Proof.
  intros [M1 M2 M3 Mh M4 M5] E Hn. assert (W := wp_kalloc kend k l M1). unfold wp in W. rewrite E in W. destruct W as (Em & _ & X).
  destruct l as [|b l]; destruct X as [-> R]; [done|]. exists l.
  assert (N := kr_nodup _ _ _ M1). apply NoDup_cons in N as [N _]. assert (Hb : allocatable kend b) by (eapply Forall_inv, (kr_pages _ _ _ M1)).
  assert (Ho : b ∉ oth) by (intros Y; destruct (M4 b Y) as [Z _]; apply Z; by left). split; [|done]. split; [done| |done| | |].
  - intros i p Y U. eapply proc_mem_frame; [by apply M2|done|]. intros c O. rewrite Em. split; [|done].
    assert (Z := owned_not_free _ _ _ _ _ _ (M2 i p Y U) O). rewrite not_elem_of_cons in Z. tauto.
  - intros c [Hc|Hc]%elem_of_union; [by apply Mh|]. rewrite elem_of_singleton in Hc. by subst.
  - intros c [Hc|Hc]%elem_of_union.
    + destruct (M4 c Hc) as [Y Z]. split; [|done]. intros W. apply Y. by right.
    + rewrite elem_of_singleton in Hc. subst c. split; [done|]. intros i p Y U O.
      apply (owned_not_free _ _ _ _ _ _ (M2 i p Y U) O). by left.
  - intros c Hc. rewrite elem_of_union, elem_of_singleton. destruct (M5 c Hc) as [Y|[Y|Y]]; [|tauto|tauto].
    apply elem_of_cons in Y. tauto.
Qed.

(** A page of the kernel is written. *)
Lemma held_write T k oth l A a pg : mem_inv kend T k oth l A -> a ∈ oth -> is_page pg ->
  mem_inv kend T (set_mem (<[a := pg]> (mem k)) k) oth l A.
Proof.
  intros [M1 M2 M3 Mh M4 M5] Ha Hg. destruct (M4 a Ha) as [Hl Ho].
  assert (R : kmem_rep kend (set_mem (<[a := pg]> (mem k)) k) l) by (by apply kmem_rep_write). split; try done.
  intros i p X U. eapply proc_mem_frame; [by apply M2|done|]. intros b O. split; [by eapply owned_not_free; [apply M2|]|].
  simpl. rewrite page_at_insert, decide_False; [done|]. intros <-. by eapply Ho.
Qed.

Lemma mstep_mem rest s ev e s' : sys_inv s ev -> owned_once rest s -> mstep s e s' -> owned_once rest s'.
Proof.
  intros J (oth & l & A & M & Sb & Er) H. destruct H as [s i r s' Hr Hp Hs Hf E|s i st s' Hr E|s i s' Hr E|s i pid st s' Hr E|
    s i n r s' Hr Hn Hs E|s e s' _ (Ek & Ef & Q1 & Q2)|s i va a pg Hr Hv Ha Hg|s a k' f' E Hn Ef|s a pg f' Ha Hg Ef|s i pg Hr Hg].
  1-5,7,10: destruct (proc_at_some s i _ Hr) as (c & Hc & Ec); [done|]; assert (U : used c) by (unfold used; congruence);
    assert (Pa : proc_at s i = c) by (unfold proc_at; by rewrite Hc); try rewrite Pa in *.
  - destruct s as [T ip np fs k f]. cbn [ptable km fl] in *.
    assert (X := xp_fork kend false kend_high data data_aligned data_range forkret trapret T oth l A k i c M Hc U Hs ip np fs f
      (fun _ s' => owned_once rest s') Hf ltac:(done)). apply X in E; [done| |].
    + intros T' np' k' (_ & _ & _ & l' & M' & _). by exists oth, l', A.
    + intros j p ks d k' l' B f' _ _ p' M' _ _ Ep _. exists oth, l', (upd_space A j B). cbn [ptable km fl]. by rewrite Ep.
  - destruct J as (_ & ini & Ei & I & _).
    assert (Np : p_parent c ≠ Some i) by (eapply no_self_parent; [exact I|exact Hc|done]).
    destruct (lp_exit kend i st s c ini (ti_len _ _ _ I) Hc Ei Np Ec tt s' E)
      as (_ & _ & _ & w & c' & _ & Hc' & Hz & _ & _ & _ & _ & Sp & (f1 & k1 & ipx & u & r & Cl & Eip & D) & _ & HT).
    destruct (closes_mem kend (ptable s) oth l A (fl s, km s) (f1, k1) Cl M Sb) as (oth' & l1 & M1 & Sb1 & Er1). cbn [fst snd] in *.
    destruct (fo_iput_ret _ _ _ _ Eip) as [Ep _].
    destruct (exit_mem kend kend_high (ptable s) k1 oth' l1 A i c c' (ptable s') (km s') r w ini) as (l' & A' & M'); try done.
    exists oth', l', A'. rewrite Ep, Er1. done.
  - destruct (wait_owned oth l A s i c None s' M Hc U E) as [Ef (l' & A' & M')]. exists oth, l', A'. by rewrite Ef.
  - destruct (wait_owned oth l A s i c _ s' M Hc U E) as [Ef (l' & A' & M')]. exists oth, l', A'. by rewrite Ef.
  - destruct (shrink_owned oth l A s i c n r s' M Hc Ec Hn Hs E) as [Ef (l' & A' & M')]. exists oth, l', A'. by rewrite Ef.
  - assert (P := mi_proc _ _ _ _ _ _ M i c Hc U). eexists oth, l, _. split; [|done].
    eapply write_inv; [exact M|exact Hc|done|done|]. right. by eapply user_page_owned; [apply P|..].
  - eexists oth, l, _. split; [|done]. eapply write_inv; [exact M|exact Hc|done|done|]. by left.
  - exists oth, l, A. rewrite Ek, Ef. split; [|done]. eapply mem_inv_map; [exact M| |done]. intros i p' X _. by apply Q1.
  - destruct (take_owned _ _ _ _ _ _ _ M E Hn) as (l' & M' & Ho). exists (oth ∪ {[a]}), l', A. split; [done|]. cbn [fl set_km set_fl]. rewrite Ef.
    split; [clear -Sb; set_solver|]. rewrite <- Er. clear -Ho Sb. apply set_eq. intros b.
    rewrite !elem_of_difference, !elem_of_union, elem_of_singleton. destruct (decide (b = a)) as [->|]; tauto.
  - exists oth, l, A. cbn [ptable km fl write_page set_km set_fl]. rewrite Ef. split; [|done]. apply held_write; [done|by apply Sb|done].
Qed.

(** Sleeping, waking, killing and scheduling move no memory. *)
Lemma quiet_pmod s i g s' : used (proc_at s i) -> (forall p, same_place p (g p)) ->
  (forall p, used p -> used (g p) /\ (p_state (g p) = ZOMBIE -> p_state p = ZOMBIE)) -> pmod i g s = Ret tt s' -> quiet s s'.
Proof.
  intros U G1 G2 E. injection E as <-. unfold quiet. simpl.
  assert (X : exists p, ptable s !! i = Some p /\ proc_at s i = p).
  { unfold proc_at in *. destruct (ptable s !! i) as [p|]; [eauto|]. by destruct U. }
  destruct X as (p & Hp & Ep). rewrite Ep in *. assert (Hl := lookup_lt_Some _ _ _ Hp). destruct (G2 p U) as [U' Z'].
  assert (S : same_mem p (g p)) by (destruct (G1 p) as (A & B & C); by repeat split).
  split; [done|]. split; [done|]. split; intros j q.
  - destruct (decide (j = i)) as [->|N]; [rewrite list_lookup_insert_eq by done; intros [= <-]; by exists p|].
    rewrite list_lookup_insert_ne by done. intros X. exists q. split; [done|]. by repeat split.
  - intros X V. destruct (decide (j = i)) as [->|N].
    + rewrite list_lookup_insert_eq by done. replace q with p by congruence. by exists (g p).
    + rewrite list_lookup_insert_ne by done. exists q. split; [done|]. split; [done|]. by repeat split.
Qed.

Lemma mruns_owned oth initcode s0 s1 ev s : zero_table s0 -> userinit kend data forkret trapret initcode s0 = Ret tt s1 ->
  owned_once oth s1 -> mruns s1 ev s -> owned_once oth s.
Proof.
  intros Hz E H R. induction R as [|ev s e s' R IH St]; [done|]. eapply mstep_mem; [|exact IH|exact St].
  eapply runs_inv; [exact Hz|exact E|by apply mruns_pruns].
Qed.

(** ** The theorems *)

(** C6: the process table.  After [userinit], in every interleaving of
    [fork], [exit], [wait], [kill], sleeps, wakeups and scheduling by any
    number of processes: two processes never have the same identifier; every
    process but [init] has a parent that has not exited; and no wakeup is lost:
    a process that sleeps in [wait] has not been killed, has a child, and has
    no child that has already exited. *)
Theorem process_table_sound initcode s0 s1 ev s :
  zero_table s0 -> userinit kend data forkret trapret initcode s0 = Ret tt s1 -> pruns kend data forkret trapret s1 ev s ->
  exists ini, initproc s = Some ini /\
    (forall i j p q, ptable s !! i = Some p -> ptable s !! j = Some q -> used p -> used q -> p_pid p = p_pid q -> i = j) /\
    (forall i p, ptable s !! i = Some p -> used p -> i ≠ ini ->
       exists j q, p_parent p = Some j /\ j ≠ i /\ ptable s !! j = Some q /\ live q) /\
    (forall j q, ptable s !! j = Some q -> p_state q = SLEEPING -> p_chan q = Some (CProc j) ->
       p_killed q = 0 /\ (exists i p, ptable s !! i = Some p /\ p_parent p = Some j) /\
       forall i p, ptable s !! i = Some p -> p_parent p = Some j -> p_state p ≠ ZOMBIE).
Proof.
  intros Hz E H. destruct (runs_inv kend data forkret trapret initcode s0 s1 ev s Hz E H) as (_ & ini & Ei & I & _).
  exists ini. split; [done|]. split; [apply I|]. split; [apply I|]. intros j q X Y Z. by apply (ti_wait _ _ _ I j q j).
Qed.



(** C14: [fork].  In a state where memory is owned as above and the files of
    the process are open, [fork] returns.  It returns -1 only if all slots are in
    use or fewer than 1027 pages more than the size of the process are free, and
    then has changed no page in use and leaked none; or it returns the new
    process identifier, and the child has the sizes, priority, files and name of
    the parent, copies of its user pages on pages of its own, and a kernel stack
    that returns to the parent's trap frame with 0 in %eax.  No page in use
    before is changed. *)
Theorem fork_correct T ip np fs k f oth l A cur c :
  mem_inv kend T k oth l A -> T !! cur = Some c -> used c -> 0 <= p_sz c <= KERNBASE ->
  (forall y, fo_refs f y + 16 < 2 ^ 31) -> files_ok kend f c ->
  wp (fork kend data forkret trapret cur) (fun r s' => 
    r = -1 /\ fork_failed kend T oth l A k c (ptable s') (km s') /\ fl s' = f \/
    exists i p ks d B l', T !! i = Some p /\ p_state p = UNUSED /\ let p' := child cur c np ks d p in
      r = np /\ ptable s' = <[i := p']> T /\ mem_inv kend (ptable s') (km s') oth l' (upd_space A i B) /\
      child_mem forkret trapret k (km s') c p' (A cur) B /\ (forall a, a ∉ l -> page_at (mem (km s')) a = page_at (mem k) a) /\ fo_pages (fl s') = fo_pages f /\
      forall y, fo_refs (fl s') y = fo_refs f y + fd_count y (p_ofile c) 0 (Z.to_nat NOFILE))
    (PSys T ip np fs k f).
Proof.
  intros M Hc U Hs Hr Hf.
  apply (xp_fork kend true kend_high data data_aligned data_range forkret trapret T oth l A k cur c M Hc U Hs); [done|done| |].
  - intros T' np' k' X. left. done.
  - intros i p ks d k' l' B f' Hi Hu p' M' C U' Ep Rf. right. exists i, p, ks, d, B, l'. done.
Qed.
End exec.

(** ** A machine that boots

    The file layer here only counts references. *)

Definition counts : Type := nat -> Z.
Definition count_add (x : nat) (n : Z) (f : counts) : counts := fun y => f y + if decide (y = x) then n else 0.

#[export] Instance counts_ops : FileOps counts := {|
  fo_filedup x := fun f => if 1 <=? f x then Ret x (count_add x 1 f) else Panic "filedup";
  fo_fileclose x := fun '(f, k) => if 1 <=? f x then Ret tt (count_add x (-1) f, k) else Panic "fileclose";
  fo_idup x := fun f => Ret x f;
  fo_iput_op _ := fun f => Ret tt f;
  fo_namei _ := fun f => Ret (Some 0%nat) f;
  fo_init := fun f => Ret tt f
|}.

#[export] Instance counts_laws kend : FileLaws kend counts.
Proof.
  refine {| fo_refs := fun (f : counts) x => f x; fo_pages := fun _ => ∅ |}.
  - intros x f [H _]. simpl. rewrite (proj2 (Z.leb_le _ _)) by done. eauto.
  - intros x f y f' E _. simpl in E. destruct (1 <=? f x); simplify_eq. done.
  - intros x f k u f' k' E. simpl in E. destruct (1 <=? f x); simplify_eq. split; [|by left].
    intros z. unfold count_add. case_decide; lia.
  - intros x f. by exists f.
  - intros x f u f' E. by simplify_eq/=.
  - done.
Defined.

Lemma demo_boot_mem : exists k l, boot_mem kend0 k ∅ l /\ (4000 <= length l)%nat.
Proof.
  destruct demo_boot as (k & l & R & A & L). exists k, l. split; [|done]. split; [done|]. split; [intros a _; apply not_elem_of_empty|].
  intros a. rewrite <- A. split; [|by left]. intros [X|X]; [done|by apply elem_of_empty in X].
Qed.

(** The first process, dispatched. *)
Lemma demo_init : exists (s0 s1 s2 : psys counts) i, zero_table s0 /\ userinit kend0 data0 0 0 [] s0 = Ret tt s1 /\
  mruns kend0 data0 0 0 s1 [] s2 /\ running s2 i /\ owned_once kend0 ∅ s2 /\ p_sz (proc_at s2 i) = PGSIZE /\
  (forall y, fl s2 y = 0) /\ p_cwd (proc_at s2 i) = Some 0%nat /\ p_ofile (proc_at s2 i) = replicate 16 None /\ nextpid s2 = 2.
Proof.
  destruct demo_boot_mem as (k & l & B & L). set (s0 := PSys (replicate NPROC proc0) None 1 true k (fun _ => 0 : Z) : psys counts).
  assert (Hz : zero_table s0) by done. assert (D : KERNLINK < data0 <= KERNBASE + 4 * 1024 * 1024) by (vm_compute; split; congruence).
  assert (W := wp_userinit kend0 data0 eq_refl D 0 0 [] ltac:(by constructor) eq_refl s0 ∅ l Hz B ltac:(lia) ltac:(eexists _, _; reflexivity)).
  apply wp_inv in W as ([] & s1 & E & l1 & A1 & O & _ & _). exists s0, s1.
  destruct (lp_userinit kend0 data0 0 0 [] s0 Hz tt s1 E) as (En & i & p & Hi & Ei & Et & Es & Ep & _ & Esz & Eof & Efl).
  assert (Hp : ptable s1 !! i = Some p) by (rewrite Et, list_lookup_insert_eq; [done|by rewrite length_replicate]).
  assert (Pa : proc_at s1 i = p) by (unfold proc_at; by rewrite Hp).
  destruct (pmod i (set_state RUNNING) s1) as [[] s2| | |] eqn:E2; try done. exists s2, i.
  assert (Q : quiet kend0 s1 s2).
  { eapply (quiet_pmod kend0 s1 i (set_state RUNNING)); [|by intros|by intros|exact E2]. rewrite Pa. unfold used. congruence. }
  assert (St : mstep kend0 data0 0 0 s1 [] s2).
  { apply ms_quiet; [|done]. eapply ps_dispatch; [|exact E2]. congruence. }
  injection E2 as <-. assert (P2 : proc_at (set_ptable (<[i:=set_state RUNNING (proc_at s1 i)]> (ptable s1)) s1) i = set_state RUNNING p).
  { unfold proc_at at 1. simpl. rewrite list_lookup_insert_eq by (by eapply lookup_lt_Some). by rewrite Pa. }
  injection Efl as Ec Ef. unfold running. rewrite P2. split; [done|]. split; [done|]. split; [|split; [done|split]].
  - apply (mr_step _ _ _ _ s1 [] s1 []); [constructor|done].
  - eapply (mstep_mem kend0 kend0_ok data0 eq_refl D 0 0 ∅ s1 []); [by eapply userinit_inv|by exists ∅, l1, A1|exact St].
  - simpl. split; [done|]. split; [intros y; by rewrite <- Ef|]. split; [done|]. split; [by rewrite Eof|done].
Qed.

Lemma process_table_sound_witness : exists (s0 s1 s : psys counts) i, zero_table s0 /\
  userinit kend0 data0 0 0 [] s0 = Ret tt s1 /\ pruns kend0 data0 0 0 s1 [] s /\ running s i /\
  exists ini, initproc s = Some ini /\
    forall i j p q, ptable s !! i = Some p -> ptable s !! j = Some q -> used p -> used q -> p_pid p = p_pid q -> i = j.
Proof.
  destruct demo_init as (s0 & s1 & s2 & i & Hz & E & R & Hr & _). exists s0, s1, s2, i. apply mruns_pruns in R.
  split; [exact Hz|]. split; [exact E|]. split; [exact R|]. split; [exact Hr|].
  destruct (process_table_sound kend0 data0 0 0 [] s0 s1 [] s2 Hz E R) as (ini & Ei & U & _). exists ini. split; [exact Ei|exact U].
Defined.



Lemma fork_correct_witness : exists (s : psys counts) i, running s i /\
  wp (fork kend0 data0 0 0 i) (fun r s' => r = -1 \/ r = 2 /\ exists j p, ptable s' !! j = Some p /\ p_pid p = 2 /\ p_parent p = Some i) s.
Proof.
  destruct demo_init as (s0 & s1 & s2 & i & Hz & E & R & Hr & (oth & l & A & M & _ & _) & Esz & Ef & Ec & Eo & En). exists s2, i. split; [exact Hr|].
  destruct (proc_at_some s2 i _ Hr) as (c & Hc & Es); [done|].
  assert (Pa : proc_at s2 i = c) by (unfold proc_at; by rewrite Hc). rewrite Pa in *. destruct s2 as [T ip np fs k f]. cbn [ptable km fl nextpid] in *.
  eapply wp_mono.
  - apply (fork_correct kend0 kend0_ok data0 eq_refl ltac:(vm_compute; split; congruence) 0 0 T ip np fs k f oth l A i c); try done.
    + unfold used. congruence.
    + rewrite Esz. vm_compute. split; congruence.
    + intros y. rewrite Ef. done.
    + split; [congruence|]. intros j y Hj. rewrite Eo, rd_replicate by (unfold NOFILE in Hj; lia). done.
  - intros r s' [(-> & _)|(j & p & ks & d & B & l' & Hj & _ & -> & Et & _)]; [by left|]. right. split; [exact En|].
    exists j. eexists. rewrite Et, list_lookup_insert_eq by (by eapply lookup_lt_Some). split; [reflexivity|]. done.
Defined.
