(* ===== verification/Ring.v ===== *)
(** * Ring buffers with free-running 32-bit counters

    pipe.c and console.c store byte [k] of a stream in cell [k % N] of an
    array.  [ring N d start cnt] is the list of the [cnt] bytes from counter
    [start]; [N] divides 2^32, so that the counters may wrap around. *)

From S2P Require Import Prelude.

Section ring.
Context (N : Z) (N_pos : 0 < N) (N_div : (N | 2 ^ 32)).
Implicit Types (d : list Z) (start cnt : Z).

Definition ring d start cnt : list Z := (fun k => rd 0 d ((start + k) mod N)) <$> seqZ 0 cnt.

Lemma zlen_ring d start cnt : 0 <= cnt -> zlen (ring d start cnt) = cnt.
Proof. intros. unfold ring, zlen. rewrite length_fmap, length_seqZ. lia. Qed.

Lemma rd_ring d start cnt k : 0 <= k < cnt -> rd 0 (ring d start cnt) k = rd 0 d ((start + k) mod N).
Proof. intros. unfold ring. by rewrite rd_fmap_seqZ. Qed.

Lemma ring_nil d start : ring d start 0 = [].
Proof. done. Qed.

Lemma mod_u32 x y : (u32 x + y) mod N = (x + y) mod N.
Proof.
  destruct N_div as [q Hq]. assert (q ≠ 0) by (intros ->; lia). unfold u32.
  rewrite <- (Zplus_mod_idemp_l (x mod 2 ^ 32)), <- (Zplus_mod_idemp_l x). do 2 f_equal.
  rewrite Hq, Z.mul_comm. rewrite Z.rem_mul_r by nia.
  rewrite Z.mul_comm, Z.mod_add by lia. by rewrite Z.mod_mod by lia.
Qed.

Lemma u32_mod x : u32 x mod N = x mod N.
Proof. rewrite <- (Z.add_0_r (u32 x)), mod_u32. by rewrite Z.add_0_r. Qed.

Lemma ring_u32 d start cnt : ring d (u32 start) cnt = ring d start cnt.
Proof. unfold ring. apply list_fmap_ext. intros. by rewrite mod_u32. Qed.

Lemma ring_app d start a b : 0 <= a -> 0 <= b -> ring d start (a + b) = ring d start a ++ ring d (start + a) b.
Proof.
  intros Ha Hb. apply (rd_ext 0).
  - rewrite length_app. assert (X := zlen_ring d start (a + b)). assert (Y := zlen_ring d start a).
    assert (W := zlen_ring d (start + a) b). unfold zlen in *. lia.
  - rewrite zlen_ring by lia. intros k Hk. rewrite rd_app, zlen_ring by lia. rewrite rd_ring by lia.
    case_decide; rewrite rd_ring by lia; [done|]. do 2 f_equal. lia.
Qed.

Lemma ring_one d start : ring d start 1 = [rd 0 d (start mod N)].
Proof. unfold ring. simpl. by rewrite Z.add_0_r. Qed.

Lemma ring_cons d start cnt : 0 < cnt ->
  ring d start cnt = rd 0 d (start mod N) :: ring d (start + 1) (cnt - 1).
Proof. intros. replace cnt with (1 + (cnt - 1)) at 1 by lia. rewrite ring_app by lia. by rewrite ring_one. Qed.

Lemma ring_snoc d start cnt : 0 <= cnt ->
  ring d start (cnt + 1) = ring d start cnt ++ [rd 0 d ((start + cnt) mod N)].
Proof. intros. rewrite ring_app by lia. by rewrite ring_one. Qed.

(** Two positions less than [N] apart are different cells. *)
Lemma ring_ne x j k : 0 <= j < k -> k < N -> (x + j) mod N ≠ (x + k) mod N.
Proof.
  intros Hj Hk E. assert (D1 := Z.div_mod (x + j) N ltac:(lia)). assert (D2 := Z.div_mod (x + k) N ltac:(lia)).
  rewrite E in D1. set (q := (x + k) / N - (x + j) / N). assert (Eq : k - j = N * q) by (unfold q; lia).
  clearbody q. clear D1 D2 E. destruct (decide (q <= 0)); nia.
Qed.

(** Storing behind the stream does not change it. *)
Lemma ring_wr d start cnt v : 0 <= cnt < N -> ring (wr d ((start + cnt) mod N) v) start cnt = ring d start cnt.
Proof.
  intros Hc. apply (rd_ext 0).
  - assert (X := zlen_ring d start cnt). assert (Y := zlen_ring (wr d ((start + cnt) mod N) v) start cnt). unfold zlen in *. lia.
  - rewrite zlen_ring by lia. intros k Hk. rewrite !rd_ring by lia. apply rd_wr_ne.
    apply not_eq_sym, ring_ne; lia.
Qed.

Lemma ring_put d start cnt v : zlen d = N -> 0 <= cnt < N ->
  ring (wr d ((start + cnt) mod N) v) start (cnt + 1) = ring d start cnt ++ [v].
Proof.
  intros Hd Hc. rewrite ring_snoc by lia. rewrite ring_wr by lia. do 2 f_equal.
  apply rd_wr_eq. rewrite Hd. apply Z.mod_pos_bound. lia.
Qed.
End ring.
