(* ===== verification/Pipe.v ===== *)
(** * Pipes (pipe.c)

    A pipe is a ring buffer of [PIPESIZE] bytes with free-running counters.
    The pipe's lock is held from the start of a call to its end except while
    the caller sleeps, so a call runs in segments: from its start or from a
    wakeup to its next sleep or its return.  A step relation interleaves the
    segments of any number of calls. *)

From S2P Require Import Prelude Ring.

Definition PIPESIZE : Z := 512.

Record pipe := Pipe {
  data : list Z;
  nread : Z;
  nwrite : Z;
  readopen : bool;
  writeopen : bool
}.

(** The channels on which callers sleep: [&p->nread] and [&p->nwrite]. *)
Inductive chan := ChanRead | ChanWrite.

#[export] Instance chan_eq_dec : EqDecision chan.
Proof. solve_decision. Defined.

(** A segment returns to the caller or goes to sleep. *)
Inductive segment (A B : Type) := Returns (a : A) | Sleeps (b : B).
Arguments Returns {A B} a.
Arguments Sleeps {A B} b.

(** ** The routines *)

(** The initial pipe of [pipealloc]; the data array is what [kalloc]
    returned. *)
Definition pipeinit (page : list Z) : pipe := Pipe page 0 0 true true.

(** [pipeclose]: the pipe, the channel that is woken, and whether the page
    is given to [kfree]. *)
Definition pipeclose (p : pipe) (writable : bool) : pipe * list chan * bool :=
  let '(p, w) :=
    if writable then (Pipe (data p) (nread p) (nwrite p) (readopen p) false, [ChanRead])
    else (Pipe (data p) (nread p) (nwrite p) false (writeopen p), [ChanWrite]) in
  (p, w, negb (readopen p) && negb (writeopen p)).

Definition full (p : pipe) : bool := nwrite p =? u32 (nread p + PIPESIZE).
Definition is_empty (p : pipe) : bool := nread p =? nwrite p.

(** [p->data[p->nwrite++ % PIPESIZE] = c]. *)
Definition put_byte (p : pipe) (c : Z) : pipe :=
  Pipe (wr (data p) (nwrite p mod PIPESIZE) c) (nread p) (u32 (nwrite p + 1)) (readopen p) (writeopen p).

(** [p->data[p->nread++ % PIPESIZE]]. *)
Definition take_byte (p : pipe) : Z * pipe :=
  (rd 0 (data p) (nread p mod PIPESIZE),
   Pipe (data p) (u32 (nread p + 1)) (nwrite p) (readopen p) (writeopen p)).

(** The loop of [pipewrite] until it is done or the pipe is full; what is
    left of [addr]. *)
Fixpoint write_loop (p : pipe) (rest : list Z) : pipe * list Z :=
  match rest with
  | [] => (p, [])
  | c :: rest' => if full p then (p, rest) else write_loop (put_byte p c) rest'
  end.

(** A segment of [pipewrite] with the bytes [rest] of [n] still to write. *)
Definition pipewrite (p : pipe) (killed : bool) (n : Z) (rest : list Z)
  : pipe * list chan * segment Z (list Z) :=
  match write_loop p rest with
  | (p, []) => (p, [ChanRead], Returns n)
  | (p, rest) =>
      if negb (readopen p) || killed then (p, [], Returns (-1))
      else (p, [ChanRead], Sleeps rest)
  end.

(** The copy loop of [piperead]. *)
Fixpoint read_loop (p : pipe) (n : nat) : pipe * list Z :=
  match n with
  | O => (p, [])
  | S n' =>
      if is_empty p then (p, [])
      else let '(c, p) := take_byte p in
           let '(p, l) := read_loop p n' in (p, c :: l)
  end.

(** A segment of [piperead]: the C result and the bytes copied. *)
Definition piperead (p : pipe) (killed : bool) (n : Z)
  : pipe * list chan * segment (Z * list Z) unit :=
  if is_empty p && writeopen p then
    if killed then (p, [], Returns (-1, [])) else (p, [], Sleeps tt)
  else
    let '(p, l) := read_loop p (Z.to_nat n) in
    (p, [ChanWrite], Returns (zlen l, l)).

(** ** The queue of a pipe *)

Definition count (p : pipe) : Z := u32 (nwrite p - nread p).

(** The bytes in the pipe, oldest first. *)
Definition queue (p : pipe) : list Z :=
  ring PIPESIZE (data p) (nread p) (count p).

Record pipe_wf (p : pipe) : Prop := {
  pw_data : zlen (data p) = PIPESIZE;
  pw_nread : is_u32 (nread p);
  pw_nwrite : is_u32 (nwrite p);
  pw_count : count p <= PIPESIZE
}.

Lemma count_range p : 0 <= count p.
Proof. apply u32_range. Qed.

Lemma zlen_queue p : zlen (queue p) = count p.
Proof. apply zlen_ring, count_range. Qed.

Lemma pipesize_div : (PIPESIZE | 2 ^ 32).
Proof. by exists (2 ^ 23). Qed.

Lemma full_count p : pipe_wf p -> full p = (count p =? PIPESIZE).
Proof.
  intros [_ Hr Hw Hc]. unfold full, count, PIPESIZE in *.
  destruct (Z.eqb_spec (nwrite p) (u32 (nread p + 512))), (Z.eqb_spec (u32 (nwrite p - nread p)) 512); mlia || done.
Qed.

Lemma empty_count p : pipe_wf p -> is_empty p = (count p =? 0).
Proof.
  intros [_ Hr Hw Hc]. unfold is_empty, count, PIPESIZE in *.
  destruct (Z.eqb_spec (nread p) (nwrite p)), (Z.eqb_spec (u32 (nwrite p - nread p)) 0); mlia || done.
Qed.

Lemma put_byte_queue p c : pipe_wf p -> full p = false ->
  pipe_wf (put_byte p c) /\ queue (put_byte p c) = queue p ++ [c].
Proof.
  intros W Hf. rewrite full_count in Hf by done. bool_prop. destruct W as [Wd Wr Ww Wc].
  assert (C : count (put_byte p c) = count p + 1) by (unfold count, put_byte, PIPESIZE in *; simpl; mlia).
  assert (C0 : 0 <= count p) by (unfold count; mlia).
  assert (E : nwrite p mod PIPESIZE = (nread p + count p) mod PIPESIZE) by (unfold count, PIPESIZE; mlia).
  split.
  - split; simpl; [by rewrite zlen_wr|done|apply u32_range|]. rewrite C. lia.
  - unfold queue. rewrite C. simpl. rewrite E. apply ring_put; [done|by rewrite Wd|lia].
Qed.

Lemma take_byte_queue p : pipe_wf p -> is_empty p = false ->
  pipe_wf (take_byte p).2 /\ queue p = (take_byte p).1 :: queue (take_byte p).2.
Proof.
  intros W He. rewrite empty_count in He by done. bool_prop. destruct W as [Wd Wr Ww Wc].
  assert (C0 : 0 <= count p) by (unfold count; mlia).
  assert (C : count (take_byte p).2 = count p - 1) by (unfold count, take_byte, PIPESIZE in *; simpl; mlia).
  split.
  - split; [done|apply u32_range|done|]. rewrite C. lia.
  - unfold queue. rewrite C, (ring_cons PIPESIZE) by lia. f_equal. simpl.
    symmetry. apply (ring_u32 PIPESIZE ltac:(done) pipesize_div).
Qed.

Lemma write_loop_queue p l : pipe_wf p ->
  let '(p', rest) := write_loop p l in
  pipe_wf p' /\ readopen p' = readopen p /\ writeopen p' = writeopen p /\
  (exists w, l = w ++ rest /\ queue p' = queue p ++ w) /\ (rest ≠ [] -> full p' = true).
Proof.
  revert p. induction l as [|c l IH]; intros p W; cbn [write_loop].
  - split_and!; try done. exists []. split; [done|by rewrite app_nil_r].
  - destruct (full p) eqn:Ef.
    + split_and!; try done. exists []. split; [done|by rewrite app_nil_r].
    + destruct (put_byte_queue p c W Ef) as [W' Q']. specialize (IH _ W').
      destruct (write_loop (put_byte p c) l) as [p' rest].
      destruct IH as (W2 & Er & Ew & (w & -> & Q2) & Hf). split_and!; try done.
      exists (c :: w). split; [done|]. rewrite Q2, Q', <- app_assoc. done.
Qed.

Lemma read_loop_queue p n : pipe_wf p ->
  let '(p', l) := read_loop p n in
  pipe_wf p' /\ readopen p' = readopen p /\ writeopen p' = writeopen p /\
  queue p = l ++ queue p' /\ length l = (n `min` length (queue p))%nat.
Proof.
  revert p. induction n as [|n IH]; intros p W; cbn [read_loop]; [by split_and!|].
  destruct (is_empty p) eqn:Ee.
  - split_and!; try done. rewrite empty_count in Ee by done. bool_prop. assert (Z0 := zlen_queue p).
    unfold zlen in Z0. rewrite Nat.min_r by lia. simpl. lia.
  - destruct (take_byte_queue p W Ee) as [W' Q']. destruct (take_byte p) as [c p1] eqn:Et. simpl in *.
    specialize (IH p1 W'). destruct (read_loop p1 n) as [p' l]. destruct IH as (W2 & Er & Ew & Q2 & Hl).
    unfold take_byte in Et. injection Et as _ <-. simpl in *.
    split_and!; try done; [rewrite Q', Q2; done|]. rewrite Q', length_cons. lia.
Qed.

(** ** Interleavings *)

(** A call in progress. *)
Inductive call :=
| CWrite (n : Z) (rest : list Z)   (* pipewrite, bytes still to write *)
| CRead (n : Z).                   (* piperead *)

(** A caller runs or sleeps on a channel. *)
Inductive status := Runnable | Asleep (c : chan).

Record caller := Caller {
  what : call;
  stat : status;
  killed : bool
}.

(** The pipe, the calls in progress by process id, and as history all bytes
    that writers put into the pipe and that readers took out of it. *)
Record psys := PSys {
  pip : pipe;
  procs : gmap Z caller;
  written : list Z;
  delivered : list Z
}.

(** [wakeup(chan)] makes every caller that sleeps on the channel runnable. *)
Definition wake (w : list chan) (c : caller) : caller :=
  match stat c with
  | Asleep ch => if decide (ch ∈ w) then Caller (what c) Runnable (killed c) else c
  | Runnable => c
  end.
Definition wakeup (w : list chan) (m : gmap Z caller) : gmap Z caller := wake w <$> m.

(** The side of the pipe that a call needs. *)
Definition side_open (p : pipe) (c : call) : Prop :=
  match c with CWrite n l => writeopen p = true /\ n = zlen l | CRead _ => readopen p = true end.

(** [fileclose] calls [pipeclose] when the last reference to that side goes
    away, so no call on that side is in progress. *)
Definition side_idle (m : gmap Z caller) (writable : bool) : Prop :=
  forall pid c, m !! pid = Some c ->
    match what c with CWrite _ _ => writable = false | CRead _ => writable = true end.

(** The bytes that a segment of [pipewrite] stores. *)
Definition stored (p : pipe) (l : list Z) : list Z :=
  take (length l - length (write_loop p l).2) l.

(** One step: a call starts, a process is killed (if [ak] allows it), a side
    is closed, or a runnable call runs a segment. *)
Inductive pstep (ak : bool) : psys -> psys -> Prop :=
| step_start s pid c :
    side_open (pip s) c -> procs s !! pid = None ->
    pstep ak s (PSys (pip s) (<[pid := Caller c Runnable false]> (procs s)) (written s) (delivered s))
| step_kill s pid c :
    ak = true -> procs s !! pid = Some c ->
    pstep ak s (PSys (pip s) (<[pid := Caller (what c) Runnable true]> (procs s)) (written s) (delivered s))
| step_close s writable p w f :
    side_idle (procs s) writable -> pipeclose (pip s) writable = (p, w, f) ->
    pstep ak s (PSys p (wakeup w (procs s)) (written s) (delivered s))
| step_write_ret s pid n l k p w r :
    procs s !! pid = Some (Caller (CWrite n l) Runnable k) ->
    pipewrite (pip s) k n l = (p, w, Returns r) ->
    pstep ak s (PSys p (wakeup w (delete pid (procs s))) (written s ++ stored (pip s) l) (delivered s))
| step_write_sleep s pid n l k p w rest :
    procs s !! pid = Some (Caller (CWrite n l) Runnable k) ->
    pipewrite (pip s) k n l = (p, w, Sleeps rest) ->
    pstep ak s (PSys p (<[pid := Caller (CWrite n rest) (Asleep ChanWrite) k]> (wakeup w (procs s)))
                  (written s ++ stored (pip s) l) (delivered s))
| step_read_ret s pid n k p w r l :
    procs s !! pid = Some (Caller (CRead n) Runnable k) ->
    piperead (pip s) k n = (p, w, Returns (r, l)) ->
    pstep ak s (PSys p (wakeup w (delete pid (procs s))) (written s) (delivered s ++ l))
| step_read_sleep s pid n k p w :
    procs s !! pid = Some (Caller (CRead n) Runnable k) ->
    piperead (pip s) k n = (p, w, Sleeps tt) ->
    pstep ak s (PSys p (<[pid := Caller (CRead n) (Asleep ChanRead) k]> (wakeup w (procs s)))
                  (written s) (delivered s)).

(** A pipe just made by [pipealloc]. *)
Definition psys0 (page : list Z) : psys := PSys (pipeinit page) ∅ [] [].

(** ** First in, first out *)

Record fifo (s : psys) : Prop := {
  ff_wf : pipe_wf (pip s);
  ff_order : written s = delivered s ++ queue (pip s)
}.

Lemma write_segment p k n l p' w r : pipe_wf p -> pipewrite p k n l = (p', w, r) ->
  pipe_wf p' /\ queue p' = queue p ++ stored p l /\ readopen p' = readopen p /\ writeopen p' = writeopen p /\
  match r with
  | Returns _ => w = [ChanRead] \/ w = [] /\ (readopen p = false \/ k = true)
  | Sleeps rest => w = [ChanRead] /\ full p' = true /\ readopen p' = true
  end.
Proof.
  intros W E. assert (Q := write_loop_queue p l W). unfold pipewrite in E. unfold stored.
  destruct (write_loop p l) as [p1 rest]. simpl. destruct Q as (W1 & Er & Ew & (x & -> & Qx) & Hf).
  replace (take _ _) with x by (rewrite length_app, Nat.add_sub, take_app_length; done).
  destruct rest as [|c rest].
  - injection E as <- <- <-. split_and!; auto.
  - destruct (readopen p1) eqn:Eo; simpl in E; [destruct k|]; injection E as <- <- <-;
      (split; [done|]; split; [done|]; split; [congruence|]; split; [done|]).
    + right. split; [done|]. by right.
    + split; [done|]. split; [by apply Hf|done].
    + right. split; [done|]. left. congruence.
Qed.

Lemma read_segment p k n p' w r : pipe_wf p -> piperead p k n = (p', w, r) ->
  pipe_wf p' /\ readopen p' = readopen p /\ writeopen p' = writeopen p /\
  match r with
  | Returns (_, l) => queue p = l ++ queue p' /\ (w = [ChanWrite] \/ w = [] /\ p' = p)
  | Sleeps _ => p' = p /\ w = [] /\ is_empty p = true /\ writeopen p = true
  end.
Proof.
  intros W E. unfold piperead in E. destruct (is_empty p && writeopen p) eqn:Ee.
  - bool_prop. destruct k; injection E as <- <- <-; split_and!; auto.
  - assert (Q := read_loop_queue p (Z.to_nat n) W). destruct (read_loop p (Z.to_nat n)) as [p1 l].
    destruct Q as (W1 & Er & Ew & Q1 & _). injection E as <- <- <-. split_and!; auto.
Qed.

Lemma close_segment p writable p' w f : pipeclose p writable = (p', w, f) ->
  data p' = data p /\ nread p' = nread p /\ nwrite p' = nwrite p /\
  (writable = true -> w = [ChanRead] /\ readopen p' = readopen p /\ writeopen p' = false) /\
  (writable = false -> w = [ChanWrite] /\ readopen p' = false /\ writeopen p' = writeopen p).
Proof. unfold pipeclose. destruct writable; intros [= <- <- <-]; done. Qed.

Lemma close_queue p writable p' w f : pipe_wf p -> pipeclose p writable = (p', w, f) ->
  pipe_wf p' /\ queue p' = queue p.
Proof.
  intros [W1 W2 W3 W4] E. apply close_segment in E as (Ed & Er & Ew & _). unfold queue, count in *.
  split; [split; unfold count; rewrite ?Ed, ?Er, ?Ew; done|]. by rewrite Ed, Er, Ew.
Qed.

Lemma pstep_fifo ak s s' : pstep ak s s' -> fifo s -> fifo s'.
Proof.
  intros St [W O]. destruct St as [s pid c|s pid c|s wr p w f Hi E|s pid n l k p w r Hp E|s pid n l k p w rest Hp E
    |s pid n k p w r l Hp E|s pid n k p w Hp E]; try done.
  - destruct (close_queue _ _ _ _ _ W E) as [W' Q']. split; simpl; [done|]. by rewrite Q'.
  - apply write_segment in E as (W' & Q' & _); [|done]. split; simpl; [done|]. by rewrite Q', O, app_assoc.
  - apply write_segment in E as (W' & Q' & _); [|done]. split; simpl; [done|]. by rewrite Q', O, app_assoc.
  - apply read_segment in E as (W' & _ & _ & Q' & _); [|done]. split; simpl; [done|].
    by rewrite O, Q', app_assoc.
  - apply read_segment in E as (W' & _ & _ & -> & _); [|done]. by split.
Qed.

Lemma fifo_init page : zlen page = PIPESIZE -> fifo (psys0 page).
Proof. intros Hp. split; [split; done|done]. Qed.

(** ** No lost wakeup *)

(** A caller that sleeps has a reason to: a reader sleeps only while the
    pipe is empty and can still be written, a writer only while the pipe is
    full and can still be read. *)
Definition caller_ok (p : pipe) (c : caller) : Prop :=
  killed c = false /\
  match what c, stat c with
  | CRead _, Runnable => readopen p = true
  | CWrite _ _, Runnable => writeopen p = true
  | CRead _, Asleep ChanRead => readopen p = true /\ is_empty p = true /\ writeopen p = true
  | CWrite _ _, Asleep ChanWrite => writeopen p = true /\ full p = true /\ readopen p = true
  | _, _ => False
  end.

Definition all_ok (s : psys) : Prop := map_Forall (fun _ c => caller_ok (pip s) c) (procs s).

Lemma wakeup_lookup w m pid c : wakeup w m !! pid = Some c -> exists c0, m !! pid = Some c0 /\ c = wake w c0.
Proof. unfold wakeup. rewrite lookup_fmap. destruct (m !! pid) as [c0|]; simpl; naive_solver. Qed.

(** Callers that are woken do not depend on why they slept. *)
Lemma caller_ok_wake p p' w c : caller_ok p c -> readopen p' = readopen p -> writeopen p' = writeopen p ->
  (ChanRead ∈ w \/ (is_empty p = true -> readopen p = true -> is_empty p' = true)) ->
  (ChanWrite ∈ w \/ (full p = true -> writeopen p = true -> full p' = true)) -> caller_ok p' (wake w c).
Proof.
  intros [Hk H] Er Ew Hr Hw. unfold wake. destruct c as [[n l|n] [|[]] k]; simpl in *; try done;
    try (split; simpl; congruence).
  - destruct H as (H1 & H2 & H3). case_decide; split; simpl; try done; [congruence|].
    destruct Hw as [|Hw]; [done|]. rewrite Er, Ew. auto.
  - destruct H as (H1 & H2 & H3). case_decide; split; simpl; try done; [congruence|].
    destruct Hr as [|Hr]; [done|]. rewrite Er, Ew. auto.
Qed.

Lemma write_full p k n l p' w r : full p = true -> pipewrite p k n l = (p', w, r) -> p' = p.
Proof.
  intros Hf E. assert (X : write_loop p l = (p, l)) by (destruct l; simpl; [done|by rewrite Hf]).
  unfold pipewrite in E. rewrite X in E. destruct l; [by injection E|].
  destruct (negb (readopen p) || k); by injection E.
Qed.

Lemma read_empty p k n p' w r : is_empty p = true -> piperead p k n = (p', w, r) -> p' = p.
Proof.
  intros He E. assert (X : read_loop p (Z.to_nat n) = (p, [])) by (destruct (Z.to_nat n); simpl; [done|by rewrite He]).
  unfold piperead in E. rewrite He, X in E. simpl in E.
  destruct (writeopen p); [destruct k|]; by injection E.
Qed.

Lemma pstep_all_ok s s' : pstep false s s' -> fifo s -> all_ok s -> all_ok s'.
Proof.
  intros St [W _] A. destruct St as [s pid c Ho Hn|s pid c|s wr p w f Hi E|s pid n l k p w r Hp E
    |s pid n l k p w rest Hp E|s pid n k p w r l Hp E|s pid n k p w Hp E]; try done.
  - apply map_Forall_insert_2; [|done]. split; [done|]. destruct c; apply Ho.
  - intros pid c Hc. apply wakeup_lookup in Hc as (c0 & Hc & ->). assert (Hok := A _ _ Hc). simpl in Hok.
    assert (Hs := Hi _ _ Hc). apply close_segment in E as (Ed & Er & Ew & Ht & Hf). simpl.
    destruct Hok as [Hk Hok]. destruct c0 as [[n l|n] [|[]] k]; simpl in *; subst wr; try done.
    + split; [done|]. simpl. destruct Hf as (_ & _ & ->); done.
    + destruct Hf as (-> & _ & Ew'); [done|]. split; [done|]. simpl. destruct Hok as (Ho & _). congruence.
    + split; [done|]. simpl. destruct Ht as (_ & -> & _); done.
    + destruct Ht as (-> & Er' & _); [done|]. split; [done|]. simpl. destruct Hok as (Ho & _). congruence.
  - destruct (A _ _ Hp) as [Hk Hw]. simpl in Hk, Hw. subst k.
    assert (Es := write_segment _ _ _ _ _ _ _ W E). destruct Es as (W' & _ & Er & Ew & Hc).
    intros pid' c Hc'. apply wakeup_lookup in Hc' as (c0 & Hc' & ->). apply lookup_delete_Some in Hc' as [_ Hc'].
    apply (caller_ok_wake (pip s)); [by apply (A _ _ Hc')|done|done| |].
    + destruct Hc as [->|[-> [Hro|?]]]; [left; left|right; congruence|done].
    + right. intros Hf _. by rewrite (write_full _ _ _ _ _ _ _ Hf E).
  - destruct (A _ _ Hp) as [Hk Hw]. simpl in Hk, Hw. subst k.
    assert (Es := write_segment _ _ _ _ _ _ _ W E). destruct Es as (W' & _ & Er & Ew & -> & Hfull & Hro).
    apply map_Forall_insert_2; [split; [done|]; simpl; split; [congruence|done]|].
    intros pid' c Hc'. apply wakeup_lookup in Hc' as (c0 & Hc' & ->).
    apply (caller_ok_wake (pip s)); [by apply (A _ _ Hc')|done|done|left; left|].
    right. intros Hf _. by rewrite (write_full _ _ _ _ _ _ _ Hf E).
  - destruct (A _ _ Hp) as [Hk Hw]. simpl in Hk, Hw. subst k.
    assert (Es := read_segment _ _ _ _ _ _ W E). destruct Es as (W' & Er & Ew & _ & Hc).
    intros pid' c Hc'. apply wakeup_lookup in Hc' as (c0 & Hc' & ->). apply lookup_delete_Some in Hc' as [_ Hc'].
    apply (caller_ok_wake (pip s)); [by apply (A _ _ Hc')|done|done| |].
    + right. intros He _. by rewrite (read_empty _ _ _ _ _ _ He E).
    + destruct Hc as [->|[-> ->]]; [left; left|by right].
  - destruct (A _ _ Hp) as [Hk Hw]. simpl in Hk, Hw. subst k.
    assert (Es := read_segment _ _ _ _ _ _ W E). destruct Es as (W' & Er & Ew & -> & -> & He & Hwo).
    apply map_Forall_insert_2; [split; [done|]; simpl; done|].
    intros pid' c Hc'. apply wakeup_lookup in Hc' as (c0 & Hc' & ->).
    apply (caller_ok_wake (pip s)); [by apply (A _ _ Hc')|done|done|by right|by right].
Qed.

Lemma reach_fifo ak page s : zlen page = PIPESIZE -> rtc (pstep ak) (psys0 page) s -> fifo s.
Proof.
  intros Hp R. eapply (rtc_invariant _ fifo); [apply pstep_fifo|exact R|by apply fifo_init].
Qed.

Lemma reach_all_ok page s : zlen page = PIPESIZE -> rtc (pstep false) (psys0 page) s -> all_ok s.
Proof.
  intros Hp R. assert (H : fifo s /\ all_ok s); [|apply H].
  eapply (rtc_invariant _ (fun s => fifo s /\ all_ok s)); [|exact R|split; [by apply fifo_init|done]].
  intros x y St [F A]. split; [by eapply pstep_fifo|by eapply pstep_all_ok].
Qed.

(** C37: a pipe is a first-in first-out queue.  In every interleaving of
    reads, writes, closes and kills by any number of processes, also when
    the 32-bit counters wrap around, the bytes that writers stored are the
    bytes that readers received, in the same order, followed by what is in
    the pipe, and the pipe never holds more than [PIPESIZE] bytes. *)
Theorem pipe_fifo ak page s :
  zlen page = PIPESIZE -> rtc (pstep ak) (psys0 page) s ->
  written s = delivered s ++ queue (pip s) /\ zlen (queue (pip s)) <= PIPESIZE.
Proof.
  intros Hp R. destruct (reach_fifo ak page s Hp R) as [W O]. split; [done|].
  rewrite zlen_queue. apply W.
Qed.


(** A reader goes to sleep, a writer writes three bytes and wakes it. *)
Lemma demo_pipe_run : exists s, rtc (pstep false) (psys0 (replicate 512 0)) s /\
  written s = [1; 2; 3] /\ procs s !! 1 = Some (Caller (CRead 5) Runnable false).
Proof.
  eexists. split; [|].
  - eapply rtc_l; [apply (step_start _ _ 1 (CRead 5)); [reflexivity|apply lookup_empty]|].
    eapply rtc_l; [eapply (step_read_sleep _ _ 1 5 false); [apply lookup_insert_eq|reflexivity]|].
    eapply rtc_l; [apply (step_start _ _ 2 (CWrite 3 [1; 2; 3])); [split; reflexivity|reflexivity]|].
    eapply rtc_l; [eapply (step_write_ret _ _ 2 3 [1; 2; 3] false); [apply lookup_insert_eq|vm_compute; reflexivity]|].
    apply rtc_refl.
  - split; vm_compute; reflexivity.
Qed.

Lemma pipe_fifo_witness : exists s, written s = [1; 2; 3] /\
  written s = delivered s ++ queue (pip s) /\ zlen (queue (pip s)) <= PIPESIZE.
Proof.
  destruct demo_pipe_run as (s & R & W & _). exists s. split; [exact W|].
  exact (pipe_fifo false (replicate 512 0) s eq_refl R).
Defined.


(** Killing a writer loses a wakeup.  A writer that is killed when it
    finds the pipe full returns without waking the readers, although it
    stored bytes: a reader that went to sleep on the empty pipe stays asleep
    with the pipe full and its write side open. *)
Theorem pipe_kill_loses_wakeup : exists s,
  rtc (pstep true) (psys0 (replicate 512 0)) s /\
  procs s = {[1 := Caller (CRead 5) (Asleep ChanRead) false]} /\
  zlen (queue (pip s)) = PIPESIZE /\ writeopen (pip s) = true.
Proof.
  eexists. split; [|].
  - eapply rtc_l; [apply (step_start _ _ 1 (CRead 5)); [reflexivity|apply lookup_empty]|].
    eapply rtc_l; [eapply (step_read_sleep _ _ 1 5 false); [apply lookup_insert_eq|reflexivity]|].
    eapply rtc_l; [apply (step_start _ _ 2 (CWrite 513 (replicate 513 7))); [split; reflexivity|reflexivity]|].
    eapply rtc_l; [eapply (step_kill _ _ 2); [reflexivity|apply lookup_insert_eq]|].
    eapply rtc_l; [eapply (step_write_ret _ _ 2 513 (replicate 513 7) true); [apply lookup_insert_eq|vm_compute; reflexivity]|].
    apply rtc_refl.
  - split; [|split]; vm_compute; reflexivity.
Qed.
