(* ===== verification/Console.v ===== *)
(** * Console output (console.c, graphics.h, uart.c)

    The colour bytes, the CGA text screen with its cursor, the serial port,
    [printint], [cprintf] and [drawline].  Input is in ConsoleInput.v. *)

From S2P Require Import Prelude Cstring Numeral.

(** ** Colours *)

Definition RED := 0xe0.
Definition LRED := 0xe1.
Definition MAGENTA := 0x10.
Definition DMAGENTA := 0x11.
Definition CYAN := 0x1e.
Definition DCYAN := 0x1f.
Definition BLUE := 0xe6.
Definition DBLUE := 0xe7.
Definition GREEN := 0xe8.
Definition DGREEN := 0xe9.
Definition YELLOW := 0xea.
Definition WHITE := 0xeb.
Definition GREY := 0xec.
Definition LGREY := 0xed.
Definition BLACK := 0xee.
Definition BROWN := 0xef.
Definition BRED := 0xc0.
Definition BLRED := 0xc1.
Definition BMAGENTA := 0xc2.
Definition BDMAGENTA := 0xc3.
Definition BCYAN := 0xc4.
Definition BDCYAN := 0xc5.
Definition BBLUE := 0xc6.
Definition BDBLUE := 0xc7.
Definition BGREEN := 0xc8.
Definition BDGREEN := 0xc9.
Definition BYELLOW := 0xca.
Definition BWHITE := 0xcb.
Definition BGREY := 0xcc.
Definition BLGREY := 0xcd.
Definition BBLACK := 0xce.
Definition BBROWN := 0xcf.

Definition getfbytecolor (colorcode : Z) : Z :=
  if colorcode =? 0x0 then BLACK
  else if colorcode =? 0x1 then DBLUE
  else if colorcode =? 0x2 then DGREEN
  else if colorcode =? 0x3 then DCYAN
  else if colorcode =? 0x4 then RED
  else if colorcode =? 0x5 then DMAGENTA
  else if colorcode =? 0x6 then BROWN
  else if colorcode =? 0x7 then LGREY
  else if colorcode =? 0x8 then GREY
  else if colorcode =? 0x9 then BLUE
  else if colorcode =? 0xa then GREEN
  else if colorcode =? 0xb then CYAN
  else if colorcode =? 0xc then LRED
  else if colorcode =? 0xd then MAGENTA
  else if colorcode =? 0xe then YELLOW
  else WHITE.

Definition getbbytecolor (colorcode : Z) : Z :=
  if colorcode =? 0x0 then BBLACK
  else if colorcode =? 0x1 then BDBLUE
  else if colorcode =? 0x2 then BDGREEN
  else if colorcode =? 0x3 then BDCYAN
  else if colorcode =? 0x4 then BRED
  else if colorcode =? 0x5 then BDMAGENTA
  else if colorcode =? 0x6 then BBROWN
  else if colorcode =? 0x7 then BLGREY
  else if colorcode =? 0x8 then BGREY
  else if colorcode =? 0x9 then BBLUE
  else if colorcode =? 0xa then BGREEN
  else if colorcode =? 0xb then BCYAN
  else if colorcode =? 0xc then BLRED
  else if colorcode =? 0xd then BMAGENTA
  else if colorcode =? 0xe then BYELLOW
  else BWHITE.

Definition getcolorcode (bytecolor : Z) : Z :=
  if (bytecolor =? RED) || (bytecolor =? BRED) then 0x4
  else if (bytecolor =? LRED) || (bytecolor =? BLRED) then 0xc
  else if (bytecolor =? MAGENTA) || (bytecolor =? BMAGENTA) then 0xd
  else if (bytecolor =? DMAGENTA) || (bytecolor =? BDMAGENTA) then 0x5
  else if (bytecolor =? CYAN) || (bytecolor =? BCYAN) then 0xb
  else if (bytecolor =? DCYAN) || (bytecolor =? BDCYAN) then 0x3
  else if (bytecolor =? BLUE) || (bytecolor =? BBLUE) then 0x9
  else if (bytecolor =? DBLUE) || (bytecolor =? BDBLUE) then 0x1
  else if (bytecolor =? GREEN) || (bytecolor =? BGREEN) then 0xa
  else if (bytecolor =? DGREEN) || (bytecolor =? BDGREEN) then 0x2
  else if (bytecolor =? YELLOW) || (bytecolor =? BYELLOW) then 0xe
  else if (bytecolor =? WHITE) || (bytecolor =? BWHITE) then 0xf
  else if (bytecolor =? GREY) || (bytecolor =? BGREY) then 0x8
  else if (bytecolor =? LGREY) || (bytecolor =? BLGREY) then 0x7
  else if (bytecolor =? BLACK) || (bytecolor =? BBLACK) then 0x0
  else 0x6.

(** ** State *)

(** [crt] is the CGA text memory in 16-bit cells, [cur_hi] and [cur_lo] the
    cursor registers 14 and 15, [serial] what was sent to the serial port. *)
Record screen := Screen {
  crt : list Z;
  cur_hi : Z;
  cur_lo : Z;
  FOREGROUND_COLOR : Z;
  BACKGROUND_COLOR : Z;
  uart : bool;
  serial : list Z;
  panicked : bool
}.

Definition set_crt v s := Screen v (cur_hi s) (cur_lo s) (FOREGROUND_COLOR s) (BACKGROUND_COLOR s) (uart s) (serial s) (panicked s).
Definition set_cursor p s := Screen (crt s) (u8 (Z.shiftr p 8)) (u8 p) (FOREGROUND_COLOR s) (BACKGROUND_COLOR s) (uart s) (serial s) (panicked s).
Definition set_fg v s := Screen (crt s) (cur_hi s) (cur_lo s) v (BACKGROUND_COLOR s) (uart s) (serial s) (panicked s).
Definition set_bg v s := Screen (crt s) (cur_hi s) (cur_lo s) (FOREGROUND_COLOR s) v (uart s) (serial s) (panicked s).
Definition set_serial v s := Screen (crt s) (cur_hi s) (cur_lo s) (FOREGROUND_COLOR s) (BACKGROUND_COLOR s) (uart s) v (panicked s).

(** [pos = inb(CRTPORT+1) << 8; ...; pos |= inb(CRTPORT+1)]. *)
Definition cursor (s : screen) : Z := Z.lor (Z.shiftl (cur_hi s) 8) (cur_lo s).

Definition BACKSPACE := 0x100.
Definition newline := 10.

(** [memset(crt + i, c, 2 * n)]: both bytes of [n] cells. *)
Definition memset_cells (m : list Z) (i c n : Z) : list Z :=
  blit m i (replicate (Z.to_nat n) (u8 c + 256 * u8 c)).

(** ** Screen *)

Definition clear : M screen unit :=
  modify (fun s =>
    set_cursor 0 (set_crt (memset_cells (crt s) 0 (Z.lor (Z.shiftl (BACKGROUND_COLOR s) 8) 0) (24 * 80)) s)).

Definition setColor (colorcode : Z) : M screen unit :=
  modify (fun s => set_bg (Z.shiftr colorcode 4) (set_fg (Z.land colorcode 0x0f) s)).

Definition getColor : M screen Z := gets (fun s => getfbytecolor (FOREGROUND_COLOR s)).

(** The bytes that select a foreground and a background colour. *)
Definition is_fbyte (c : Z) : bool :=
  (0xe6 <=? c) && (c <=? 0xef) || (c =? RED) || (c =? LRED) || (c =? 0x10) || (c =? 0x11) || (c =? 0x1e) || (c =? 0x1f).
Definition is_bbyte (c : Z) : bool := (0xc0 <=? c) && (c <=? 0xcf).

(** [(c & 0xff) | (color << 8)] as a 16-bit cell. *)
Definition cell (c fg bg : Z) : Z :=
  u16 (Z.lor (Z.land c 0xff) (Z.shiftl (Z.lor fg (Z.shiftl bg 4)) 8)).

Definition blank : Z := Z.lor 32 0x0700.

(** The effect of a character before scrolling: the new position. *)
Definition cga_char (c pos : Z) : M screen Z :=
  if c =? newline then mret (pos + (80 - pos mod 80))
  else if c =? BACKSPACE then mret (if 0 <? pos then pos - 1 else pos)
  else if is_fbyte c then modify (set_fg (getcolorcode c));; mret pos
  else if is_bbyte c then modify (set_bg (getcolorcode c));; mret pos
  else
    modify (fun s => set_crt (wr (crt s) pos (cell c (FOREGROUND_COLOR s) (BACKGROUND_COLOR s))) s);;
    mret (pos + 1).

Definition scroll (pos : Z) : M screen Z :=
  if 24 <=? pos / 80 then
    modify (fun s => set_crt (blit (crt s) 0 (slice (crt s) 80 (23 * 80))) s);;
    modify (fun s => set_crt (memset_cells (crt s) (pos - 80) 0 (24 * 80 - (pos - 80))) s);;
    mret (pos - 80)
  else mret pos.

Definition cgaputc (c : Z) : M screen unit :=
  pos ← gets cursor;
  pos ← cga_char c pos;
  if (pos <? 0) || (25 * 80 <? pos) then panic "pos under/overflow"
  else
    pos ← scroll pos;
    modify (fun s => set_crt (wr (crt s) pos blank) (set_cursor pos s)).

Definition uartputc (c : Z) : M screen unit :=
  modify (fun s => if uart s then set_serial (serial s ++ [u8 c]) s else s).

(** The characters that [consputc] sends to the serial port. *)
Definition to_serial (c : Z) : bool :=
  ((c <? 0xe6) || (0xef <? c)) && negb (c =? RED) && negb (c =? LRED) && negb (c =? 0x10) &&
  negb (c =? 0x11) && negb (c =? 0x1e) && negb (c =? 0x1f).

Definition consputc (c : Z) : M screen unit :=
  s ← get;
  if panicked s then blocked
  else
    (if c =? BACKSPACE then uartputc 8;; uartputc 32;; uartputc 8
     else if to_serial c then uartputc c
     else mret tt);;
    cgaputc c.

Fixpoint putchars (l : list Z) : M screen unit :=
  match l with
  | [] => mret tt
  | c :: l' => consputc c;; putchars l'
  end.

(** The loop of [consolewrite]; the inode lock that it releases and takes
    again belongs to the file system. *)
Definition consolewrite (buf : list Z) : M screen Z :=
  putchars ((fun c => Z.land c 0xff) <$> buf);; mret (zlen buf).

(** ** Formatted output *)

Definition digits : list Z :=
  [48; 49; 50; 51; 52; 53; 54; 55; 56; 57; 97; 98; 99; 100; 101; 102].

#[export] Instance digits_table : DigitTable digits.
Proof. by split. Qed.

(** What [printint] leaves in [buf], of 16 bytes. *)
Definition printint_buf (xx base : Z) (sign : bool) : list Z := number_buf digits xx base sign.

Definition printint (xx base : Z) (sign : bool) : M screen unit :=
  putchars (reverse (printint_buf xx base sign)).

(** [cprintf]: [argp] are the words after [fmt] on the stack, and [str_at]
    gives the characters of the string at an address. *)
Section cprintf.
Context (str_at : Z -> list Z).

Definition null_str : list Z := [40; 110; 117; 108; 108; 41].

(** A [char] is signed: [consputc] gets the characters of a string
    sign-extended. *)
Definition schar (c : Z) : Z := (c + 128) mod 256 - 128.

Fixpoint cprintf (fmt argp : list Z) : M screen unit :=
  match fmt with
  | [] => mret tt
  | c :: fmt' =>
      if c =? 0 then mret tt
      else if negb (c =? 37) then consputc c;; cprintf fmt' argp
      else
        match fmt' with
        | [] => mret tt
        | c :: fmt' =>
            if c =? 0 then mret tt
            else if c =? 100 then printint (s32 (hd 0 argp)) 10 true;; cprintf fmt' (tail argp)
            else if (c =? 120) || (c =? 112) then printint (s32 (hd 0 argp)) 16 false;; cprintf fmt' (tail argp)
            else if c =? 115 then
              putchars (schar <$> (if hd 0 argp =? 0 then null_str else str_at (hd 0 argp)));;
              cprintf fmt' (tail argp)
            else if c =? 37 then consputc 37;; cprintf fmt' argp
            else if c =? 99 then consputc (s32 (hd 0 argp));; cprintf fmt' (tail argp)
            else consputc 37;; consputc c;; cprintf fmt' argp
        end
  end.
End cprintf.

(** ** Lines *)

(** The loop of [drawline]: the cells that it stores, as index and value.
    The code has no bound on the index. *)
Record bresenham := Bresenham {
  incXi : Z; incYi : Z; incXr : Z; incYr : Z; avR : Z; avI : Z
}.

Fixpoint drawline_loop (fuel : nat) (b : bresenham) (v bx x y av : Z) : option (list (Z * Z)) :=
  match fuel with
  | O => None
  | S fuel' =>
      let '(x', y', av') :=
        if 0 <=? av then (s32 (x + incXi b), s32 (y + incYi b), s32 (av + avI b))
        else (s32 (x + incXr b), s32 (y + incYr b), s32 (av + avR b)) in
      rest ← (if x' =? bx then Some [] else drawline_loop fuel' b v bx x' y' av');
      Some ((s32 (80 * (y - 1) + x), v) :: rest)
  end.

(** [drawline(ax, ay, bx, by, color, pixel)] with [fuel] iterations. *)
Definition drawline (fuel : nat) (ax ay bx by' color pixel bg : Z) : option (list (Z * Z)) :=
  let dx := s32 (bx - ax) in
  let dy := s32 (by' - ay) in
  let '(dy, yi) := if 0 <=? dy then (dy, 1) else (s32 (- dy), -1) in
  let '(dx, xi) := if 0 <=? dx then (dx, 1) else (s32 (- dx), -1) in
  let '(xr, yr, dx, dy) := if dy <=? dx then (xi, 0, dx, dy) else (0, yi, dy, dx) in
  let avR := s32 (2 * dy) in
  let av := s32 (avR - dx) in
  let avI := s32 (av - dx) in
  drawline_loop fuel (Bresenham xi yi xr yr avR avI) (cell pixel color bg) bx ax ay av.

(** ** The screen is safe *)

(** The cursor is on the 25 rows of the screen and the colours are codes
    of four bits. *)
Record screen_ok (s : screen) : Prop := {
  so_crt : 25 * 80 <= zlen (crt s);
  so_hi : is_u8 (cur_hi s);
  so_lo : is_u8 (cur_lo s);
  so_cursor : cursor s < 25 * 80;
  so_fg : 0 <= FOREGROUND_COLOR s < 16;
  so_bg : 0 <= BACKGROUND_COLOR s < 16;
  so_running : panicked s = false
}.

Lemma lor_bytes hi lo : is_u8 lo -> Z.lor (Z.shiftl hi 8) lo = 256 * hi + lo.
Proof.
  intros Hlo. rewrite Z.shiftl_mul_pow2 by lia. rewrite (lor_add _ _ 8); [lia|lia|by apply Z.mod_mul|done].
Qed.

Lemma cursor_set p s : 0 <= p < 2 ^ 16 -> cursor (set_cursor p s) = p.
Proof.
  intros Hp. unfold cursor, set_cursor. simpl. rewrite lor_bytes by apply u8_range.
  rewrite Z.shiftr_div_pow2 by lia. mlia.
Qed.

Lemma cursor_nonneg s : is_u8 (cur_hi s) -> is_u8 (cur_lo s) -> 0 <= cursor s.
Proof. intros. unfold cursor. rewrite lor_bytes by done. mlia. Qed.

Lemma getcolorcode_range c : 0 <= getcolorcode c < 16.
Proof. unfold getcolorcode. repeat case_match; lia. Qed.

(** What a character does to the screen apart from its cells. *)
Record char_step (s s' : screen) : Prop := {
  cs_len : zlen (crt s') = zlen (crt s);
  cs_hi : cur_hi s' = cur_hi s;
  cs_lo : cur_lo s' = cur_lo s;
  cs_run : panicked s' = panicked s;
  cs_fg : 0 <= FOREGROUND_COLOR s < 16 -> 0 <= FOREGROUND_COLOR s' < 16;
  cs_bg : 0 <= BACKGROUND_COLOR s < 16 -> 0 <= BACKGROUND_COLOR s' < 16
}.

Lemma wp_cga_char c pos s : 0 <= pos < 25 * 80 ->
  wp (cga_char c pos) (fun pos' s' => char_step s s' /\ 0 <= pos' <= 25 * 80) s.
Proof.
  intros Hp. assert (R := getcolorcode_range c). assert (D := Z.div_mod pos 80 ltac:(lia)).
  assert (B := Z.mod_pos_bound pos 80 ltac:(lia)). assert (pos / 80 <= 24) by lia.
  unfold cga_char. destruct (c =? newline); [repeat wp_step; split; [by split|lia]|].
  destruct (c =? BACKSPACE); [repeat wp_step; split; [by split|destruct (Z.ltb_spec 0 pos); lia]|].
  destruct (is_fbyte c); [repeat wp_step; split; [by split|lia]|].
  destruct (is_bbyte c); [repeat wp_step; split; [by split|lia]|].
  repeat wp_step. split; [split; simpl; rewrite ?zlen_wr; done|lia].
Qed.

Lemma zlen_memset_cells m i c n : 0 <= i -> 0 <= n -> i + n <= zlen m -> zlen (memset_cells m i c n) = zlen m.
Proof. intros. unfold memset_cells. rewrite zlen_blit; rewrite ?zlen_replicate; lia. Qed.

Lemma wp_scroll pos s : 0 <= pos <= 25 * 80 -> 25 * 80 <= zlen (crt s) ->
  wp (scroll pos) (fun pos' s' => char_step s s' /\ 0 <= pos' <= 24 * 80) s.
Proof.
  intros Hp Hc. assert (D := Z.div_mod pos 80 ltac:(lia)). assert (B := Z.mod_pos_bound pos 80 ltac:(lia)).
  unfold scroll. destruct (Z.leb_spec 24 (pos / 80)) as [H|H].
  - repeat wp_step. split; [split; simpl; try done|lia].
    assert (L : zlen (blit (crt s) 0 (slice (crt s) 80 (23 * 80))) = zlen (crt s))
      by (rewrite zlen_blit; rewrite ?zlen_slice; lia).
    rewrite zlen_memset_cells; rewrite ?L; lia.
  - repeat wp_step. split; [by split|lia].
Qed.

Lemma wp_cgaputc c s : screen_ok s ->
  wp (cgaputc c) (fun _ s' => screen_ok s' /\ zlen (crt s') = zlen (crt s)) s.
Proof.
  intros [Hc Hh Hl Hp Hf Hb Hr]. assert (C0 := cursor_nonneg s Hh Hl). unfold cgaputc. repeat wp_step.
  eapply wp_mono; [apply wp_cga_char; lia|]. intros pos s1 [[L1 H1 O1 R1 F1 B1] P1].
  destruct (Z.ltb_spec pos 0), (Z.ltb_spec (25 * 80) pos); try lia. simpl. wp_step.
  eapply wp_mono; [apply wp_scroll; lia|]. intros pos' s2 [[L2 H2 O2 R2 F2 B2] P2]. wp_step.
  split; [|simpl; rewrite zlen_wr; congruence].
  split; simpl; rewrite ?zlen_wr; try apply u8_range; try congruence; try lia; auto.
  change (cursor (set_cursor pos' s2) < 25 * 80). rewrite cursor_set; lia.
Qed.

Lemma wp_uartputc c s : screen_ok s ->
  wp (uartputc c) (fun _ s' => screen_ok s' /\ zlen (crt s') = zlen (crt s)) s.
Proof. intros H. unfold uartputc. wp_step. destruct (uart s); [|done]. split; [|done]. by destruct H. Qed.

Lemma wp_consputc c s : screen_ok s ->
  wp (consputc c) (fun _ s' => screen_ok s' /\ zlen (crt s') = zlen (crt s)) s.
Proof.
  intros H. assert (K : forall m : M screen unit,
    wp m (fun _ s' => screen_ok s' /\ zlen (crt s') = zlen (crt s)) s ->
    wp (m;; cgaputc c) (fun _ s' => screen_ok s' /\ zlen (crt s') = zlen (crt s)) s).
  { intros m Hm. wp_step. eapply wp_mono; [exact Hm|]. intros _ s1 [O1 <-]. by apply wp_cgaputc. }
  unfold consputc. repeat wp_step. rewrite (so_running s H). apply K.
  destruct (c =? BACKSPACE).
  - wp_step. eapply wp_mono; [by apply wp_uartputc|]. intros _ s1 [O1 <-]. wp_step.
    eapply wp_mono; [by apply wp_uartputc|]. intros _ s2 [O2 <-]. by apply wp_uartputc.
  - case_match; [by apply wp_uartputc|]. by wp_step.
Qed.

Lemma wp_putchars l s : screen_ok s ->
  wp (putchars l) (fun _ s' => screen_ok s' /\ zlen (crt s') = zlen (crt s)) s.
Proof.
  revert s. induction l as [|c l IH]; intros s H; cbn [putchars]; [by wp_step|].
  wp_step. eapply wp_mono; [by apply wp_consputc|]. intros _ s1 [O1 <-]. by apply IH.
Qed.

(** ** Printing text *)

(** A character that is stored in a cell. *)
Definition printable (c : Z) : bool :=
  (0 <=? c) && (c <? 256) && negb (c =? newline) && negb (is_fbyte c) && negb (is_bbyte c).

Lemma blit_over {A} (m l : list A) i v : 0 <= i -> l ≠ [] -> i + zlen l <= zlen m -> blit (wr m i v) i l = blit m i l.
Proof.
  intros Hi Hl Hm. destruct l as [|d l]; [done|]. apply (rd_ext d).
  - assert (L1 := zlen_blit (wr m i v) i (d :: l)). assert (L2 := zlen_blit m i (d :: l)).
    rewrite zlen_wr in L1. unfold zlen in *. lia.
  - intros j Hj. rewrite !rd_blit_gen by (rewrite ?zlen_wr; unfold zlen in *; simpl in *; lia).
    case_decide; [done|]. apply rd_wr_ne. unfold zlen in *. simpl in *. lia.
Qed.

(** A printable character not at the end of the screen. *)
Lemma cgaputc_printable c s : screen_ok s -> printable c = true -> cursor s < 24 * 80 - 1 ->
  cgaputc c s = Ret tt (set_crt (wr (wr (crt s) (cursor s) (cell c (FOREGROUND_COLOR s) (BACKGROUND_COLOR s)))
                                    (cursor s + 1) blank) (set_cursor (cursor s + 1) s)).
Proof.
  intros H Hc Hp. assert (C0 := cursor_nonneg s (so_hi s H) (so_lo s H)). unfold printable in Hc. bool_prop.
  assert (Ec : cga_char c (cursor s) s = Ret (cursor s + 1)
    (set_crt (wr (crt s) (cursor s) (cell c (FOREGROUND_COLOR s) (BACKGROUND_COLOR s))) s)).
  { unfold cga_char. destruct (Z.eqb_spec c newline); [done|].
    destruct (Z.eqb_spec c BACKSPACE); [unfold BACKSPACE in *; lia|].
    destruct (is_fbyte c); [done|]. by destruct (is_bbyte c). }
  unfold cgaputc, mbind, M_bind, gets. rewrite Ec.
  destruct (Z.ltb_spec (cursor s + 1) 0), (Z.ltb_spec (25 * 80) (cursor s + 1)); try lia. simpl.
  unfold scroll. assert (D := Z.div_mod (cursor s + 1) 80 ltac:(lia)).
  assert (B := Z.mod_pos_bound (cursor s + 1) 80 ltac:(lia)).
  destruct (Z.leb_spec 24 ((cursor s + 1) / 80)); [lia|]. done.
Qed.

Lemma to_serial_printable c : is_u8 c -> is_fbyte c = false -> to_serial c = true.
Proof.
  intros Hc Hf. assert (E : is_fbyte c || to_serial c = true); [|by rewrite Hf in E].
  revert c Hc Hf. intros c Hc _. revert c Hc. apply u8_cases. vm_compute. reflexivity.
Qed.

Lemma consputc_printable c s : screen_ok s -> printable c = true -> cursor s < 24 * 80 - 1 -> uart s = true ->
  consputc c s = cgaputc c (set_serial (serial s ++ [c]) s).
Proof.
  intros H Hc Hp Hu. unfold consputc, mbind, M_bind, get. rewrite (so_running s H).
  unfold printable in Hc. bool_prop. destruct (Z.eqb_spec c BACKSPACE); [unfold BACKSPACE in *; lia|].
  assert (Hb : is_u8 c) by mlia. assert (E := to_serial_printable c Hb ltac:(done)).
  rewrite E. unfold uartputc, modify. rewrite Hu. unfold u8. rewrite Z.mod_small by (change (2 ^ 8) with 256; lia). done.
Qed.

(** The cells of a text in the current colours. *)
Definition cells (s : screen) (l : list Z) : list Z :=
  (fun c => cell c (FOREGROUND_COLOR s) (BACKGROUND_COLOR s)) <$> l.

Definition text_post (l : list Z) (s s' : screen) : Prop :=
  crt s' = blit (crt s) (cursor s) (cells s l ++ [blank]) /\
  cursor s' = cursor s + zlen l /\ serial s' = serial s ++ l /\
  FOREGROUND_COLOR s' = FOREGROUND_COLOR s /\ BACKGROUND_COLOR s' = BACKGROUND_COLOR s /\
  uart s' = uart s.

Lemma zlen_cells s l : zlen (cells s l) = zlen l.
Proof. unfold zlen, cells. by rewrite length_fmap. Qed.

Lemma text_one c s : screen_ok s -> printable c = true -> cursor s < 24 * 80 - 1 -> uart s = true ->
  wp (consputc c) (fun _ s' => screen_ok s' /\ text_post [c] s s') s.
Proof.
  intros H Hc Hp Hu. assert (C0 := cursor_nonneg s (so_hi s H) (so_lo s H)).
  assert (W := wp_consputc c s H).
  assert (H1 : screen_ok (set_serial (serial s ++ [c]) s)) by (by destruct H).
  unfold wp in *. rewrite (consputc_printable c s) in * by done.
  rewrite (cgaputc_printable c (set_serial (serial s ++ [c]) s)) in * by done.
  destruct W as [W _]. split; [exact W|]. unfold text_post. split_and!; try done.
  - simpl. rewrite <- blit_cons; [|done|rewrite ?zlen_cells; destruct H; unfold zlen in *; simpl; lia].
    rewrite <- (blit_cons _ []); [by rewrite blit_nil|lia|]. rewrite zlen_wr. destruct H. unfold zlen in *. simpl. lia.
  - change (cursor (set_cursor (cursor s + 1) (set_serial (serial s ++ [c]) s)) = cursor s + zlen [c]).
    rewrite cursor_set; [done|lia].
Qed.

Lemma text_post_trans c l s s1 s' : screen_ok s -> cursor s + zlen (c :: l) < 24 * 80 -> l ≠ [] ->
  text_post [c] s s1 -> text_post l s1 s' -> text_post (c :: l) s s'.
Proof.
  intros H Hp Hl (E1 & C1 & S1 & F1 & B1 & U1) (E2 & C2 & S2 & F2 & B2 & U2).
  assert (C0 := cursor_nonneg s (so_hi s H) (so_lo s H)). assert (Hs := so_crt s H).
  assert (Lc : zlen (c :: l) = 1 + zlen l) by (unfold zlen; rewrite length_cons; lia). assert (Ln := zlen_nonneg l).
  assert (Ll : 0 < zlen l) by (destruct l; [done|unfold zlen; simpl; lia]).
  change (zlen [c]) with 1 in C1. unfold text_post. rewrite F2, B2, U2, F1, B1, U1. split_and!; try done; [|lia|].
  - rewrite E2, E1, C1. unfold cells. rewrite F1, B1. fold (cells s l). cbn [fmap list_fmap app].
    set (v := cell c _ _). rewrite <- (blit_cons (crt s)) by (try change (zlen [blank]) with 1; lia).
    rewrite <- (blit_cons (wr (crt s) _ _) []) by (rewrite ?zlen_wr; change (zlen (@nil Z)) with 0; lia). rewrite blit_nil.
    assert (Lx : zlen (cells s l ++ [blank]) = zlen l + 1) by (unfold zlen; rewrite length_app; unfold cells; rewrite length_fmap; simpl; lia).
    rewrite blit_over by (rewrite ?zlen_wr, ?Lx; try (by destruct (cells s l)); lia).
    rewrite blit_cons by (rewrite ?Lx; lia). done.
  - by rewrite S2, S1, <- app_assoc.
Qed.

Lemma wp_text l s : screen_ok s -> l ≠ [] -> forallb printable l = true -> cursor s + zlen l < 24 * 80 ->
  uart s = true -> wp (putchars l) (fun _ s' => screen_ok s' /\ text_post l s s') s.
Proof.
  revert s. induction l as [|c l IH]; intros s H Hl Hp Hc Hu; [done|]. cbn [forallb] in Hp. bool_prop.
  assert (Lc : zlen (c :: l) = 1 + zlen l) by (unfold zlen; rewrite length_cons; lia). assert (Ln := zlen_nonneg l).
  cbn [putchars]. wp_step. eapply wp_mono; [apply text_one; done || lia|].
  intros _ s1 [O1 P1]. destruct l as [|c' l]; [cbn [putchars]; by wp_step|].
  assert (E1 := P1). destruct E1 as (_ & C1 & _ & _ & _ & U1). change (zlen [c]) with 1 in C1.
  eapply wp_mono; [apply IH; try done; [lia|congruence]|]. intros _ s' [H' P']. split; [done|].
  by eapply text_post_trans.
Qed.

(** ** Bresenham lines *)

(** The row of column [k] of a line that falls [dy] rows in [dx] columns:
    [k * dy / dx] rounded to the nearest integer. *)
Definition line_row (dx dy k : Z) : Z := (2 * k * dy + dx) / (2 * dx).

Lemma line_row_bounds dx dy k : 0 < dx -> 0 <= dy <= dx -> 0 <= k <= dx -> 0 <= line_row dx dy k <= dy.
Proof.
  intros Hx Hy Hk. unfold line_row. split; [apply Z.div_pos; nia|].
  assert ((2 * k * dy + dx) / (2 * dx) < dy + 1); [|lia]. apply Z.div_lt_upper_bound; nia.
Qed.

(** The decision of the loop at column [k]. *)
Lemma line_row_step dx dy k : 0 < dx -> 0 <= dy <= dx -> 0 <= k ->
  let av := 2 * dy * (k + 1) - dx - 2 * dx * line_row dx dy k in
  line_row dx dy (k + 1) = line_row dx dy k + (if 0 <=? av then 1 else 0) /\ - 2 * dx <= av < 2 * dx.
Proof.
  intros Hx Hy Hk av. assert (D := Z.div_mod (2 * k * dy + dx) (2 * dx) ltac:(lia)).
  assert (B := Z.mod_pos_bound (2 * k * dy + dx) (2 * dx) ltac:(lia)). fold (line_row dx dy k) in D.
  assert (Ha : av = (2 * k * dy + dx) mod (2 * dx) + 2 * dy - 2 * dx) by (unfold av; lia).
  split; [|lia]. unfold line_row at 1. destruct (Z.leb_spec 0 av).
  - symmetry. apply Z.div_unique with ((2 * k * dy + dx) mod (2 * dx) + 2 * dy - 2 * dx); lia.
  - symmetry. apply Z.div_unique with ((2 * k * dy + dx) mod (2 * dx) + 2 * dy); lia.
Qed.

Definition small (x : Z) : Prop := - 2 ^ 20 <= x <= 2 ^ 20.

(** The loop from column [k], [n] columns before the last one. *)
Lemma drawline_loop_shallow n fuel ax ay dx dy xi yi v k :
  xi = 1 \/ xi = -1 -> yi = 1 \/ yi = -1 -> 0 < dx -> 0 <= dy <= dx ->
  small ax -> small ay -> dx <= 2 ^ 21 -> 0 <= k -> k + Z.of_nat n = dx -> (n <= fuel)%nat -> (0 < n)%nat ->
  drawline_loop fuel (Bresenham xi yi xi 0 (2 * dy) (2 * dy - 2 * dx)) v (ax + xi * dx)
    (ax + xi * k) (ay + yi * line_row dx dy k) (2 * dy * (k + 1) - dx - 2 * dx * line_row dx dy k) =
  Some ((fun j => (80 * (ay + yi * line_row dx dy j - 1) + (ax + xi * j), v)) <$> seqZ k (Z.of_nat n)).
Proof.
  unfold small. change (2 ^ 20) with 1048576. change (2 ^ 21) with 2097152.
  intros Hxi Hyi Hx Hy Hax Hay Hdx. revert fuel k. induction n as [|n IH]; intros fuel k Hk Hn Hf Hn0; [lia|].
  destruct fuel as [|fuel]; [lia|]. destruct (line_row_step dx dy k) as [R Ba]; [done..|].
  assert (B1 := line_row_bounds dx dy k Hx Hy ltac:(lia)).
  assert (B2 := line_row_bounds dx dy (k + 1) Hx Hy ltac:(lia)).
  set (av := 2 * dy * (k + 1) - dx - 2 * dx * line_row dx dy k) in *.
  cbn [drawline_loop incXi incYi incXr incYr avR avI].
  assert (E : (if 0 <=? av
     then (s32 (ax + xi * k + xi), s32 (ay + yi * line_row dx dy k + yi), s32 (av + (2 * dy - 2 * dx)))
     else (s32 (ax + xi * k + xi), s32 (ay + yi * line_row dx dy k + 0), s32 (av + 2 * dy))) =
    (ax + xi * (k + 1), ay + yi * line_row dx dy (k + 1),
     2 * dy * (k + 1 + 1) - dx - 2 * dx * line_row dx dy (k + 1))).
  { rewrite R. destruct (0 <=? av) eqn:Ea; bool_prop; rewrite !s32_id by (unfold is_s32; destruct Hxi as [-> | ->], Hyi as [-> | ->]; lia);
      f_equal; [f_equal|..|f_equal|]; unfold av; lia. }
  rewrite E. rewrite (seqZ_cons k) by lia. rewrite fmap_cons.
  rewrite s32_id by (unfold is_s32; destruct Hxi as [-> | ->], Hyi as [-> | ->]; lia).
  replace (Z.pred (Z.of_nat (S n))) with (Z.of_nat n) by lia.
  destruct n as [|n].
  - replace (k + 1) with dx by lia. rewrite Z.eqb_refl. done.
  - destruct (Z.eqb_spec (ax + xi * (k + 1)) (ax + xi * dx)); [destruct Hxi as [-> | ->]; lia|].
    rewrite (IH fuel (k + 1)) by lia. done.
Qed.

Definition dir (x : Z) : Z := if 0 <=? x then 1 else -1.

Lemma dir_abs x : dir x * Z.abs x = x.
Proof. unfold dir. destruct (Z.leb_spec 0 x); lia. Qed.

Lemma dir_cases x : dir x = 1 \/ dir x = -1.
Proof. unfold dir. destruct (0 <=? x); auto. Qed.

(** Removes the truncations of small numbers, innermost first. *)
Ltac s32_inner :=
  repeat match goal with
  | |- context [s32 ?x] =>
      lazymatch x with context [s32 _] => fail | _ => rewrite (s32_id x) by (unfold is_s32; lia) end
  end.

(** The set-up of [drawline] in the absence of overflow. *)
Lemma drawline_setup fuel ax ay bx by' color pixel bg :
  small ax -> small ay -> small bx -> small by' ->
  drawline fuel ax ay bx by' color pixel bg =
  let dx := Z.abs (bx - ax) in let dy := Z.abs (by' - ay) in
  let a := Z.max dx dy in let b := Z.min dx dy in
  drawline_loop fuel
    (Bresenham (dir (bx - ax)) (dir (by' - ay)) (if dy <=? dx then dir (bx - ax) else 0)
       (if dy <=? dx then 0 else dir (by' - ay)) (2 * b) (2 * b - 2 * a))
    (cell pixel color bg) bx ax ay (2 * b - a).
Proof.
  unfold small. change (2 ^ 20) with 1048576. intros. unfold drawline, dir.
  rewrite (s32_id (bx - ax)), (s32_id (by' - ay)) by (unfold is_s32; lia).
  destruct (Z.leb_spec 0 (by' - ay)), (Z.leb_spec 0 (bx - ax)); cbv zeta iota beta;
    rewrite ?(s32_id (- (by' - ay))), ?(s32_id (- (bx - ax))) by (unfold is_s32; lia);
    rewrite ?(Z.abs_eq (bx - ax)), ?(Z.abs_eq (by' - ay)), ?(Z.abs_neq (bx - ax)), ?(Z.abs_neq (by' - ay)) by lia;
    match goal with |- context [?a <=? ?b] => destruct (Z.leb_spec a b) end; cbv zeta iota beta;
    s32_inner; f_equal; try lia; f_equal; lia.
Qed.

(** A line of no length: every iteration advances diagonally. *)
Lemma drawline_loop_stuck fuel v ax x y : is_s32 ax -> is_s32 x ->
  (forall k, 1 <= k <= Z.of_nat fuel -> s32 (x + k) ≠ ax) ->
  drawline_loop fuel (Bresenham 1 1 1 0 0 0) v ax x y 0 = None.
Proof.
  intros Ha. revert x y. induction fuel as [|fuel IH]; intros x y Hx Hk; [done|].
  cbn [drawline_loop incXi incYi incXr incYr avR avI Z.leb Z.compare].
  destruct (Z.eqb_spec (s32 (x + 1)) ax) as [E|E]; [destruct (Hk 1); [lia|done]|].
  change (s32 (0 + 0)) with 0. rewrite IH; [done|apply s32_range|].
  intros k H1 E1. apply (Hk (k + 1)); [lia|]. rewrite <- E1. clear. mlia.
Qed.

(** ** The theorems *)

(** Console output never fails.  From any screen whose cursor is on the
    screen and whose colours are valid, [consolewrite] of any bytes, colour
    bytes and newlines included, returns the number of bytes; the cursor
    stays on the screen, the colours stay valid, and the "pos
    under/overflow" panic is never reached. *)
Theorem consolewrite_safe buf s :
  screen_ok s ->
  wp (consolewrite buf) (fun r s' => r = zlen buf /\ screen_ok s' /\ zlen (crt s') = zlen (crt s)) s.
Proof.
  intros H. unfold consolewrite. wp_step. eapply wp_mono; [by apply wp_putchars|].
  intros _ s' [H' L']. wp_step. done.
Qed.

(** The screen after [clear] at boot, with the cursor at the top. *)
Definition screen0 : screen := Screen (replicate 2000 0) 0 0 7 0 true [] false.

Lemma screen0_ok : screen_ok screen0.
Proof. split; try done; rewrite ?zlen_replicate; vm_compute; done. Qed.

Lemma consolewrite_safe_witness :
  wp (consolewrite [RED; 72; 105; BDBLUE; 10]) (fun r s' => r = 5 /\ screen_ok s' /\ zlen (crt s') = 2000) screen0.
Proof. exact (consolewrite_safe [RED; 72; 105; BDBLUE; 10] screen0 screen0_ok). Defined.

(** Text appears on the screen as written.  [consolewrite] of printable
    bytes that end before the last cell of the text rows stores them from
    the cursor on in the current colours, advances the cursor behind them,
    leaves every other cell except the one under the cursor as it was, and
    sends the same bytes to the serial port. *)
Theorem consolewrite_text buf s :
  screen_ok s -> uart s = true -> buf ≠ [] -> forallb printable buf = true -> cursor s + zlen buf < 24 * 80 ->
  wp (consolewrite buf) (fun r s' =>
    r = zlen buf /\ crt s' = blit (crt s) (cursor s) (cells s buf ++ [blank]) /\
    cursor s' = cursor s + zlen buf /\ serial s' = serial s ++ buf) s.
Proof.
  intros H Hu Hb Hp Hc. unfold consolewrite.
  assert (E : (fun c => Z.land c 0xff) <$> buf = buf).
  { clear -Hp. induction buf as [|c buf IH]; [done|]. cbn [forallb] in Hp. bool_prop. rewrite fmap_cons, IH by done.
    f_equal. unfold printable in *. bool_prop. rewrite land_255. apply u8_id. mlia. }
  rewrite E. wp_step. eapply wp_mono; [by apply wp_text|]. intros _ s' [_ (E1 & C1 & S1 & _)]. wp_step. done.
Qed.

Lemma consolewrite_text_witness :
  wp (consolewrite [72; 105]) (fun r s' =>
    r = 2 /\ crt s' = blit (replicate 2000 0) 0 ([0x748; 0x769] ++ [blank]) /\ cursor s' = 2 /\ serial s' = [72; 105]) screen0.
Proof. exact (consolewrite_text [72; 105] screen0 screen0_ok eq_refl ltac:(discriminate) eq_refl ltac:(vm_compute; reflexivity)). Defined.

(** The colour bytes round trip.  The byte of a foreground or a
    background colour selects that colour and nothing else, and is never
    taken for text. *)
Theorem color_bytes_roundtrip code s :
  0 <= code < 16 ->
  getcolorcode (getfbytecolor code) = code /\ getcolorcode (getbbytecolor code) = code /\
  cga_char (getfbytecolor code) (cursor s) s = Ret (cursor s) (set_fg code s) /\
  cga_char (getbbytecolor code) (cursor s) s = Ret (cursor s) (set_bg code s).
Proof.
  intros Hc. assert (E : code ∈ seqZ 0 16) by (apply elem_of_seqZ; lia). revert code E Hc.
  apply (Forall_forall (fun code => _ -> _)). repeat constructor.
Qed.

Lemma color_bytes_roundtrip_witness : getcolorcode (getbbytecolor 3) = 3.
Proof. exact (proj1 (proj2 (color_bytes_roundtrip 3 screen0 ltac:(lia)))). Defined.

(** [clear] does not use the background colour.  Whatever colours are
    selected, it sets the 24 text rows to zero cells, a black background,
    because [memset] keeps only the low byte of the pattern, and moves the
    cursor to the top. *)
Theorem clear_is_black s :
  clear s = Ret tt (set_cursor 0 (set_crt (blit (crt s) 0 (replicate 1920 0)) s)).
Proof.
  unfold clear, modify. do 3 f_equal. unfold memset_cells. rewrite Z.lor_0_r.
  assert (E : u8 (Z.shiftl (BACKGROUND_COLOR s) 8) = 0); [|by rewrite E].
  rewrite Z.shiftl_mul_pow2 by lia. apply Z.mod_mul. done.
Qed.

(** [printint] prints the number.  In base 10 or 16 the characters it
    prints are a minus sign exactly for a negative number printed as signed,
    and digits without a leading zero that denote the absolute value, or the
    unsigned value; they fit in the buffer of 16 characters. *)
Theorem printint_correct xx base sign :
  base = 10 \/ base = 16 -> is_s32 xx ->
  zlen (printint_buf xx base sign) <= 16 /\
  exists ds, reverse (printint_buf xx base sign) = (if sign && (xx <? 0) then [45] else []) ++ ds /\
    value base ds = (if sign then Z.abs xx else u32 xx) /\ (ds = [48] \/ hd 0 ds ≠ 48).
Proof. exact (number_buf_spec digits xx base sign). Qed.

Lemma printint_correct_witness : zlen (printint_buf (- 2 ^ 31) 10 true) <= 16.
Proof. exact (proj1 (printint_correct (- 2 ^ 31) 10 true (or_introl eq_refl) ltac:(unfold is_s32; lia))). Defined.

(** [drawline] draws a straight line between points at least as far
    apart in columns as in rows.  The loop ends after one iteration per
    column, and in column [k] it stores the pixel in the row nearest to the
    exact line; the last point is left out. *)
Theorem drawline_shallow fuel ax ay bx by' color pixel bg :
  small ax -> small ay -> small bx -> small by' -> ax ≠ bx ->
  Z.abs (by' - ay) <= Z.abs (bx - ax) -> Z.abs (bx - ax) <= Z.of_nat fuel ->
  drawline fuel ax ay bx by' color pixel bg =
  Some ((fun k => (80 * (ay + dir (by' - ay) * line_row (Z.abs (bx - ax)) (Z.abs (by' - ay)) k - 1) +
                   (ax + dir (bx - ax) * k), cell pixel color bg)) <$> seqZ 0 (Z.abs (bx - ax))).
Proof.
  intros Hax Hay Hbx Hby Hne Hs Hf. rewrite drawline_setup by done. cbv zeta. set (dx := Z.abs (bx - ax)) in *.
  set (dy := Z.abs (by' - ay)) in *. destruct (Z.leb_spec dy dx); [|lia]. rewrite Z.max_l, Z.min_r by done.
  assert (Hdx : 0 < dx) by lia. assert (Hl : dx <= 2 ^ 21) by (unfold small in *; change (2 ^ 21) with (2 * 2 ^ 20); lia).
  assert (R0 : line_row dx dy 0 = 0) by (unfold line_row; rewrite Z.mul_0_r, Z.mul_0_l; apply Z.div_small; lia).
  assert (X := drawline_loop_shallow (Z.to_nat dx) fuel ax ay dx dy (dir (bx - ax)) (dir (by' - ay))
    (cell pixel color bg) 0 (dir_cases _) (dir_cases _) Hdx ltac:(lia) Hax Hay Hl ltac:(lia) ltac:(lia) ltac:(lia) ltac:(lia)).
  rewrite R0, Z2Nat.id in X by lia. rewrite <- X. unfold dx at 4. rewrite dir_abs. f_equal; lia.
Qed.

Lemma drawline_shallow_witness :
  drawline 10 2 1 6 3 4 219 0 = Some [(2, 1243); (83, 1243); (84, 1243); (165, 1243)].
Proof. exact (drawline_shallow 10 2 1 6 3 4 219 0 ltac:(unfold small; lia) ltac:(unfold small; lia) ltac:(unfold small; lia) ltac:(unfold small; lia) ltac:(lia) ltac:(lia) ltac:(lia)). Defined.

(** [drawline] fails on vertical lines.  Of a vertical line it draws the
    first point only, and from a point to itself it does not stop before the
    column has wrapped around 32 bits, storing a cell in every iteration. *)
Theorem drawline_vertical fuel ax ay by' color pixel bg :
  small ax -> small ay -> small by' -> 0 < Z.of_nat fuel < 2 ^ 32 ->
  drawline fuel ax ay ax by' color pixel bg =
  if ay =? by' then None else Some [(80 * (ay - 1) + ax, cell pixel color bg)].
Proof.
  intros Ha Hy Hb Hf. rewrite drawline_setup by done. cbv zeta. rewrite Z.sub_diag. change (Z.abs 0) with 0.
  unfold small in *. change (2 ^ 20) with 1048576 in *.
  destruct (Z.eqb_spec ay by') as [<-|Hn].
  - rewrite Z.sub_diag. apply drawline_loop_stuck; [unfold is_s32; lia..|]. intros k Hk. mlia.
  - destruct fuel as [|fuel]; [lia|]. destruct (Z.leb_spec (Z.abs (by' - ay)) 0); [lia|].
    rewrite Z.max_r, Z.min_l by lia. cbn [drawline_loop incXi incYi incXr incYr avR avI].
    destruct (Z.leb_spec 0 (2 * 0 - Z.abs (by' - ay))); [lia|].
    rewrite (Z.add_0_r ax), (s32_id ax), Z.eqb_refl by (unfold is_s32; lia). rewrite s32_id by (unfold is_s32; lia). done.
Qed.

Lemma drawline_vertical_witness : drawline 100 5 1 5 20 4 219 0 = Some [(5, 1243)].
Proof. exact (drawline_vertical 100 5 1 20 4 219 0 ltac:(unfold small; lia) ltac:(unfold small; lia) ltac:(unfold small; lia) ltac:(lia)). Defined.
