(* ===== verification/ConsoleInput.v ===== *)
(** * Console input (console.c): the line discipline

    [consoleintr] edits the line being typed in a ring buffer of [INPUT_BUF]
    bytes between the counters [w] and [e], and [consoleread] takes finished
    lines between [r] and [w].  An abstract line editor says what they
    compute. *)

From S2P Require Import Prelude Cstring Ring Console.

Definition INPUT_BUF : Z := 128.

Record input := Input {
  buf : list Z;
  r : Z;
  w : Z;
  e : Z
}.

Definition set_buf v i := Input v (r i) (w i) (e i).
Definition set_r v i := Input (buf i) v (w i) (e i).
Definition set_w v i := Input (buf i) (r i) v (e i).
Definition set_e v i := Input (buf i) (r i) (w i) v.

(** [C(x)], control-x. *)
Definition C (x : Z) : Z := x - 64.
Definition ctrl_P : Z := C 80.
Definition ctrl_U : Z := C 85.
Definition ctrl_H : Z := C 72.
Definition ctrl_D : Z := C 68.

(** The console: the input buffer, the screen that echoes, and whether
    readers were woken. *)
Record cons := Cons {
  inp : input;
  scr : screen;
  woken : bool
}.

Definition set_inp v s := Cons v (scr s) (woken s).
Definition set_scr v s := Cons (inp s) v (woken s).
Definition set_woken v s := Cons (inp s) (scr s) v.
Definition imodify (f : input -> input) : M cons unit := modify (fun s => set_inp (f (inp s)) s).
Definition echo (c : Z) : M cons unit := zoom scr set_scr (consputc c).

(** ** The routines *)

(** The loop for control-U; the line has at most [INPUT_BUF] bytes. *)
Fixpoint kill_line (fuel : nat) : M cons unit :=
  s ← get;
  let i := inp s in
  if negb (e i =? w i) && negb (rd 0 (buf i) (u32 (e i - 1) mod INPUT_BUF) =? newline) then
    match fuel with
    | O => out_of_fuel
    | S fuel' => imodify (fun i => set_e (u32 (e i - 1)) i);; echo BACKSPACE;; kill_line fuel'
    end
  else mret tt.

(** The store of a character in the default case. *)
Definition put_char (c : Z) : M cons unit :=
  imodify (fun i => set_e (u32 (e i + 1)) (set_buf (wr (buf i) (e i mod INPUT_BUF) (u8 c)) i));;
  echo c;;
  s ← get;
  let i := inp s in
  if (c =? newline) || (c =? ctrl_D) || (e i =? u32 (r i + INPUT_BUF)) then
    imodify (fun i => set_w (e i) i);; modify (set_woken true)
  else mret tt.

(** The switch of [consoleintr]: whether [procdump] was asked for. *)
Definition intr_char (c : Z) : M cons bool :=
  s ← get;
  let i := inp s in
  if c =? ctrl_P then mret true
  else if c =? ctrl_U then kill_line (Z.to_nat INPUT_BUF);; mret false
  else if (c =? ctrl_H) || (c =? 127) then
    (if negb (e i =? w i) then imodify (fun i => set_e (u32 (e i - 1)) i);; echo BACKSPACE else mret tt);;
    mret false
  else
    (if negb (c =? 0) && (u32 (e i - r i) <? INPUT_BUF) then
       put_char (if c =? 13 then newline else c)
     else mret tt);;
    mret false.

(** [consoleintr(getc)]: the characters that [getc] returns until it
    returns a negative number; the result is [doprocdump]. *)
Fixpoint consoleintr (cs : list Z) : M cons bool :=
  match cs with
  | [] => mret false
  | c :: cs' => d ← intr_char c; d' ← consoleintr cs'; mret (d || d')
  end.

(** A segment of [consoleread] up to its return or its next [sleep]:
    [n] bytes of [target] are still wanted, [dst] was copied. *)
Inductive read_result :=
| Returns (res : Z) (dst : list Z)
| Sleeps (n : nat) (dst : list Z).

Fixpoint consoleread (killed : bool) (target : Z) (n : nat) (dst : list Z) (i : input) : input * read_result :=
  match n with
  | O => (i, Returns target dst)
  | S n' =>
      if r i =? w i then
        if killed then (i, Returns (-1) dst) else (i, Sleeps n dst)
      else
        let c := rd 0 (buf i) (r i mod INPUT_BUF) in
        let i' := set_r (u32 (r i + 1)) i in
        if c =? ctrl_D then
          (if Z.of_nat n <? target then set_r (u32 (r i' - 1)) i' else i', Returns (target - Z.of_nat n) dst)
        else if c =? newline then (i', Returns (target - Z.of_nat n') (dst ++ [c]))
        else consoleread killed target n' (dst ++ [c]) i'
  end.

(** ** The abstract line editor *)

(** Finished input that was not read yet, and the line being typed. *)
Record editor := Editor {
  ready : list Z;
  line : list Z
}.

Definition add_char (c : Z) (x : editor) : editor :=
  let l := line x ++ [c] in
  if (c =? newline) || (c =? ctrl_D) || (zlen (ready x) + zlen l =? INPUT_BUF)
  then Editor (ready x ++ l) [] else Editor (ready x) l.

Definition type_char (c : Z) (x : editor) : editor :=
  if c =? ctrl_P then x
  else if c =? ctrl_U then Editor (ready x) []
  else if (c =? ctrl_H) || (c =? 127) then Editor (ready x) (removelast (line x))
  else if (c =? 0) || (INPUT_BUF <=? zlen (ready x) + zlen (line x)) then x
  else add_char (if c =? 13 then newline else c) x.

Definition type_chars (cs : list Z) (x : editor) : editor := fold_left (fun x c => type_char c x) cs x.

(** The input buffer holds the editor's state. *)
Record input_rep (i : input) (x : editor) : Prop := {
  ir_buf : zlen (buf i) = INPUT_BUF;
  ir_r : is_u32 (r i);
  ir_w : w i = u32 (r i + zlen (ready x));
  ir_e : e i = u32 (r i + zlen (ready x) + zlen (line x));
  ir_fit : zlen (ready x) + zlen (line x) <= INPUT_BUF;
  ir_bytes : ready x ++ line x = ring INPUT_BUF (buf i) (r i) (zlen (ready x) + zlen (line x));
  ir_line : newline ∉ line x
}.

Lemma input_buf_div : (INPUT_BUF | 2 ^ 32).
Proof. by exists (2 ^ 25). Qed.

Lemma zlen_one {A} (a : A) : zlen [a] = 1.
Proof. done. Qed.

Section rep.
Context {i : input} {x : editor} (R : input_rep i x).

Lemma rep_sizes : 0 <= zlen (ready x) /\ 0 <= zlen (line x) /\ zlen (ready x) + zlen (line x) <= 128.
Proof. split; [apply zlen_nonneg|]. split; [apply zlen_nonneg|]. apply R. Qed.

Lemma rep_line_empty : (e i =? w i) = bool_decide (line x = []).
Proof.
  destruct rep_sizes as (A & B & D). assert (Hr := ir_r i x R). rewrite (ir_w i x R), (ir_e i x R).
  destruct (decide (line x = [])) as [->|H].
  - rewrite bool_decide_true by done. apply Z.eqb_eq. f_equal. change (zlen (@nil Z)) with 0. lia.
  - rewrite bool_decide_false by done. assert (0 < zlen (line x)) by (destruct (line x); [done|unfold zlen; simpl; lia]).
    apply Z.eqb_neq. mlia.
Qed.

Lemma rep_ready_empty : (r i =? w i) = bool_decide (ready x = []).
Proof.
  destruct rep_sizes as (A & B & D). assert (Hr := ir_r i x R). rewrite (ir_w i x R).
  destruct (decide (ready x = [])) as [->|H].
  - rewrite bool_decide_true by done. apply Z.eqb_eq. change (zlen (@nil Z)) with 0. rewrite Z.add_0_r. by rewrite u32_id.
  - rewrite bool_decide_false by done. assert (0 < zlen (ready x)) by (destruct (ready x); [done|unfold zlen; simpl; lia]).
    apply Z.eqb_neq. mlia.
Qed.

Lemma rep_count : u32 (e i - r i) = zlen (ready x) + zlen (line x).
Proof. destruct rep_sizes as (A & B & D). assert (Hr := ir_r i x R). rewrite (ir_e i x R). mlia. Qed.

(** The last character of the line. *)
Lemma rep_last l c : line x = l ++ [c] ->
  rd 0 (buf i) (u32 (e i - 1) mod INPUT_BUF) = c /\
  input_rep (set_e (u32 (e i - 1)) i) (Editor (ready x) l).
Proof.
  intros El. destruct rep_sizes as (A & B & D). destruct R as [Rb Rr Rw Re Rf Ry Rl].
  rewrite El in *. rewrite zlen_app, zlen_one in *. assert (Hl := zlen_nonneg l).
  assert (Ee : u32 (e i - 1) = u32 (r i + zlen (ready x) + zlen l)) by (rewrite Re; mlia).
  rewrite Z.add_assoc, ring_snoc in Ry by lia. rewrite app_assoc in Ry. apply app_inj_tail in Ry as [Ry Ec].
  split.
  - rewrite Ee, (u32_mod INPUT_BUF ltac:(done) input_buf_div). rewrite <- Z.add_assoc. done.
  - split; try done; simpl; [lia|]. intros X. apply Rl, elem_of_app. by left.
Qed.

(** One more character in the ring. *)
Lemma ring_put_char c : zlen (ready x) + zlen (line x) < INPUT_BUF -> is_u8 c ->
  ready x ++ line x ++ [c] =
  ring INPUT_BUF (wr (buf i) (e i mod INPUT_BUF) (u8 c)) (r i) (zlen (ready x) + (zlen (line x) + 1)).
Proof.
  intros Hf Hc. destruct rep_sizes as (A & B & D). destruct R as [Rb Rr Rw Re Rf Ry Rl].
  rewrite app_assoc, Ry, Z.add_assoc, u8_id by done.
  rewrite Re, (u32_mod INPUT_BUF ltac:(done) input_buf_div), <- (Z.add_assoc (r i)).
  symmetry. apply ring_put; [done|done|lia].
Qed.

(** A character that finishes the line. *)
Lemma rep_commit c : zlen (ready x) + zlen (line x) < INPUT_BUF -> is_u8 c ->
  input_rep (set_w (u32 (e i + 1)) (set_e (u32 (e i + 1)) (set_buf (wr (buf i) (e i mod INPUT_BUF) (u8 c)) i)))
    (Editor (ready x ++ line x ++ [c]) []).
Proof.
  intros Hf Hc. destruct rep_sizes as (A & B & D). assert (X := ring_put_char c Hf Hc). destruct R as [Rb Rr Rw Re Rf Ry Rl].
  split; simpl; rewrite ?zlen_wr, ?zlen_app, ?zlen_one, ?app_nil_r; change (zlen (@nil Z)) with 0; rewrite ?Z.add_0_r;
    try done; [rewrite Re; mlia|rewrite Re; mlia|lia|]. by intros Y%elem_of_nil.
Qed.

(** A character that does not. *)
Lemma rep_put c : zlen (ready x) + zlen (line x) < INPUT_BUF -> is_u8 c -> c ≠ newline ->
  input_rep (set_e (u32 (e i + 1)) (set_buf (wr (buf i) (e i mod INPUT_BUF) (u8 c)) i)) (Editor (ready x) (line x ++ [c])).
Proof.
  intros Hf Hc Hn. destruct rep_sizes as (A & B & D). assert (X := ring_put_char c Hf Hc). destruct R as [Rb Rr Rw Re Rf Ry Rl].
  split; simpl; rewrite ?zlen_wr, ?zlen_app, ?zlen_one; try done; [rewrite Re; mlia|lia|].
  intros Y. apply elem_of_app in Y as [Y|Y]; [done|]. by apply list_elem_of_singleton in Y.
Qed.
End rep.

(** ** Editing *)

(** The console represents an editor and its screen is in order. *)
Definition cons_ok (s : cons) (x : editor) : Prop := input_rep (inp s) x /\ screen_ok (scr s).

Lemma wp_echo c s Q : screen_ok (scr s) ->
  (forall t, screen_ok t -> Q tt (set_scr t s)) -> wp (echo c) Q s.
Proof.
  intros H HQ. unfold echo. wp_step. eapply wp_mono; [by apply wp_consputc|]. intros [] t [Ht _]. by apply HQ.
Qed.

Lemma wp_kill_line fuel s x : cons_ok s x -> (length (line x) <= fuel)%nat ->
  wp (kill_line fuel) (fun _ s' => cons_ok s' (Editor (ready x) []) /\ woken s' = woken s) s.
Proof.
  revert s x. induction fuel as [|fuel IH]; intros s x [R H] Hl; cbn [kill_line]; wp_step; wp_step;
    rewrite (rep_line_empty R); destruct (decide (line x = [])) as [E|E].
  - rewrite bool_decide_true by done. simpl. wp_step. split; [|done]. split; [|done]. destruct x. simpl in *. by subst.
  - destruct (line x); [done|simpl in Hl; lia].
  - rewrite bool_decide_true by done. simpl. wp_step. split; [|done]. split; [|done]. destruct x. simpl in *. by subst.
  - rewrite bool_decide_false by done. destruct (exists_last E) as (l & c & El). destruct (rep_last R l c El) as [-> R'].
    assert (Hc : (c =? newline) = false).
    { apply Z.eqb_neq. intros ->. apply (ir_line _ _ R). rewrite El. apply elem_of_app. right. by apply list_elem_of_singleton. }
    rewrite Hc. simpl. wp_step. unfold imodify. wp_step. wp_step. apply wp_echo; [done|]. intros t Ht.
    apply (IH (set_scr t (set_inp _ s)) (Editor (ready x) l)); [done|].
    simpl. rewrite El, length_app in Hl. simpl in Hl. lia.
Qed.

Lemma ready_grows (q l : list Z) c : bool_decide (q ++ l ++ [c] ≠ q) = true.
Proof.
  apply bool_decide_eq_true. intros E. apply (f_equal length) in E. rewrite !length_app in E. simpl in E. lia.
Qed.

Lemma wp_put_char c s x : cons_ok s x -> is_u8 c -> zlen (ready x) + zlen (line x) < INPUT_BUF ->
  wp (put_char c) (fun _ s' => cons_ok s' (add_char c x) /\
    woken s' = woken s || bool_decide (ready (add_char c x) ≠ ready x)) s.
Proof.
  intros [R H] Hc Hf. destruct (rep_sizes R) as (A & B & D). assert (Hr := ir_r _ _ R). unfold put_char, add_char.
  repeat (wp_step; unfold imodify). apply wp_echo; [done|]. intros t Ht. wp_step. wp_step.
  rewrite zlen_app, zlen_one. cbn [inp set_inp set_scr e r set_e set_buf].
  assert (Ee : (u32 (e (inp s) + 1) =? u32 (r (inp s) + INPUT_BUF)) = (zlen (ready x) + (zlen (line x) + 1) =? INPUT_BUF)).
  { rewrite (ir_e _ _ R). unfold INPUT_BUF in *. destruct (Z.eqb_spec (zlen (ready x) + (zlen (line x) + 1)) 128);
      [apply Z.eqb_eq|apply Z.eqb_neq]; mlia. }
  rewrite Ee. destruct ((c =? newline) || (c =? ctrl_D) || _) eqn:Ec.
  - repeat (wp_step; unfold imodify). cbn [ready]. rewrite ready_grows, orb_true_r. split; [|done]. split; [|done].
    by apply (rep_commit R).
  - wp_step. cbn [ready]. rewrite bool_decide_false by naive_solver. rewrite orb_false_r. split; [|done]. split; [|done].
    apply (rep_put R); [done..|]. intros ->. done.
Qed.

Lemma wp_intr_char c s x : cons_ok s x -> is_u8 c ->
  wp (intr_char c) (fun d s' => cons_ok s' (type_char c x) /\ d = (c =? ctrl_P) /\
    woken s' = woken s || bool_decide (ready (type_char c x) ≠ ready x)) s.
Proof.
  intros [R H] Hc. destruct (rep_sizes R) as (A & B & D).
  assert (Same : bool_decide (ready x ≠ ready x) = false) by (apply bool_decide_eq_false; naive_solver).
  unfold intr_char, type_char. wp_step. wp_step. destruct (Z.eqb_spec c ctrl_P) as [->|HP].
  { wp_step. rewrite Same, orb_false_r. done. }
  destruct (Z.eqb_spec c ctrl_U) as [->|HU].
  { wp_step. eapply wp_mono; [apply (wp_kill_line _ s x); [done|]|].
    { unfold zlen in *. change (Z.to_nat INPUT_BUF) with 128%nat. lia. }
    intros _ s' [O W]. wp_step. simpl. rewrite Same, orb_false_r. done. }
  destruct ((c =? ctrl_H) || (c =? 127)) eqn:EH.
  { wp_step. rewrite (rep_line_empty R). destruct (decide (line x = [])) as [E|E].
    - rewrite bool_decide_true by done. simpl. wp_step. wp_step. rewrite E, Same, orb_false_r. split; [|done].
      split; [|done]. destruct x. simpl in *. by subst.
    - rewrite bool_decide_false by done. destruct (exists_last E) as (l & c' & El). rewrite El, removelast_last.
      simpl. wp_step. unfold imodify. wp_step. apply wp_echo; [done|]. intros t Ht. wp_step. simpl. rewrite Same, orb_false_r.
      split; [|done]. split; [|done]. by apply (rep_last R l c'). }
  rewrite (rep_count R). unfold INPUT_BUF. wp_step.
  destruct (Z.eqb_spec c 0) as [->|H0]; [simpl; wp_step; wp_step; rewrite Same, orb_false_r; done|].
  destruct (Z.ltb_spec (zlen (ready x) + zlen (line x)) 128); [|destruct (Z.leb_spec 128 (zlen (ready x) + zlen (line x))); [|lia]; simpl; wp_step; wp_step; rewrite Same, orb_false_r; done].
  destruct (Z.leb_spec 128 (zlen (ready x) + zlen (line x))); [lia|]. cbn [negb andb orb].
  eapply wp_mono; [apply (wp_put_char _ s x); [done| |done]|].
  { destruct (c =? 13); [unfold newline; mlia|done]. }
  intros _ s' [O W]. wp_step. done.
Qed.

Lemma wp_consoleintr cs s x : cons_ok s x -> Forall is_u8 cs ->
  wp (consoleintr cs) (fun d s' => cons_ok s' (type_chars cs x) /\ d = bool_decide (ctrl_P ∈ cs) /\
    (ready (type_chars cs x) ≠ ready x -> woken s' = true) /\ (woken s = true -> woken s' = true)) s.
Proof.
  intros O F. revert s x O. induction F as [|c cs Hc _ IH]; intros s x O; cbn [consoleintr].
  { wp_step. by split_and!. }
  wp_step. eapply wp_mono; [by apply wp_intr_char|]. intros d s1 (O1 & -> & W1). wp_step.
  eapply wp_mono; [by apply IH|]. intros d' s2 (O2 & -> & W2 & W2'). wp_step. cbn [type_chars fold_left].
  split; [done|]. split.
  - destruct (Z.eqb_spec c ctrl_P) as [->|N]; cbn [orb]; [symmetry; apply bool_decide_true; left|].
    apply bool_decide_ext. rewrite elem_of_cons. naive_solver.
  - split; [|intros E; apply W2'; rewrite W1, E; done]. intros E.
    destruct (decide (ready (type_char c x) = ready x)) as [E1|E1].
    + apply W2. by rewrite E1.
    + apply W2'. rewrite W1, bool_decide_true by done. apply orb_true_r.
Qed.

(** ** Reading *)

Lemma rep_take i x c q : input_rep i x -> ready x = c :: q ->
  rd 0 (buf i) (r i mod INPUT_BUF) = c /\ input_rep (set_r (u32 (r i + 1)) i) (Editor q (line x)).
Proof.
  intros R E. destruct (rep_sizes R) as (A & B & D). destruct R as [Rb Rr Rw Re Rf Ry Rl]. rewrite E in *.
  assert (Lq : zlen (c :: q) = 1 + zlen q) by (unfold zlen; rewrite length_cons; lia). rewrite Lq in *.
  assert (Hq := zlen_nonneg q). rewrite ring_cons in Ry by lia. injection Ry as Ec Ey. split; [done|].
  split; simpl; try done; [apply u32_range|rewrite Rw; mlia|rewrite Re; mlia|lia|].
  rewrite (ring_u32 INPUT_BUF ltac:(done) input_buf_div), Ey. f_equal. lia.
Qed.

(** [consoleread] copies characters other than newline and control-D. *)
Lemma consoleread_copy killed target text rest n dst i l :
  input_rep i (Editor (text ++ rest) l) -> newline ∉ text -> ctrl_D ∉ text ->
  exists i', input_rep i' (Editor rest l) /\
    consoleread killed target (length text + n) dst i = consoleread killed target n (dst ++ text) i'.
Proof.
  revert dst i. induction text as [|c text IH]; intros dst i R Hn Hd; [exists i; split; [done|by rewrite app_nil_r]|].
  rewrite not_elem_of_cons in Hn, Hd. destruct Hn as [Hn Hn'], Hd as [Hd Hd'].
  destruct (rep_take _ _ c (text ++ rest) R eq_refl) as [Ec R'].
  destruct (IH (dst ++ [c]) _ R' Hn' Hd') as (i' & Ri & E). exists i'. split; [done|].
  cbn [length Nat.add consoleread]. rewrite (rep_ready_empty R), Ec.
  rewrite bool_decide_false by done. rewrite (proj2 (Z.eqb_neq c ctrl_D)), (proj2 (Z.eqb_neq c newline)) by done.
  rewrite E, <- app_assoc. done.
Qed.

(** Console input is a line editor.  Whatever characters an interrupt
    delivers, the ring buffer with its wrapping counters holds exactly the
    input of the abstract editor: backspace removes the last character of the
    line, control-U the whole line, newline, control-D and a full buffer make
    the line available, characters beyond the buffer are dropped.  Readers
    are woken whenever new input is available, and the screen stays in
    order. *)
Theorem consoleintr_edits cs s x :
  cons_ok s x -> Forall is_u8 cs ->
  wp (consoleintr cs) (fun d s' => cons_ok s' (type_chars cs x) /\ d = bool_decide (ctrl_P ∈ cs) /\
    (ready (type_chars cs x) ≠ ready x -> woken s' = true)) s.
Proof.
  intros O F. eapply wp_mono; [by apply wp_consoleintr|]. intros d s' (O' & D & W & _). done.
Qed.

(** The console at boot. *)
Definition cons0 : cons := Cons (Input (replicate 128 0) 0 0 0) screen0 false.

Lemma cons0_ok : cons_ok cons0 (Editor [] []).
Proof. split; [|apply screen0_ok]. split; try done. by intros X%elem_of_nil. Qed.

Lemma consoleintr_edits_witness :
  wp (consoleintr [108; 120; 8; 115; 13]) (fun d s' => cons_ok s' (Editor [108; 115; 10] []) /\ woken s' = true) cons0.
Proof.
  eapply wp_mono.
  - apply (consoleintr_edits [108; 120; 8; 115; 13] cons0 (Editor [] []) cons0_ok). repeat constructor; discriminate.
  - intros d s' (O & _ & W). split; [exact O|]. apply W. discriminate.
Defined.

(** A read returns one line.  With [text] free of newlines and
    control-Ds at the front of the available input and room for it,
    [consoleread] returns the text with the newline that follows it and
    leaves the rest; before a control-D it returns the text, and consumes the
    control-D only when the text is empty, so that the next read returns 0;
    it stops when [n] bytes are copied; and it sleeps when the input ends
    first. *)
Theorem consoleread_line n i text rest l :
  newline ∉ text -> ctrl_D ∉ text ->
  (input_rep i (Editor (text ++ newline :: rest) l) -> (length text < n)%nat ->
     exists i', input_rep i' (Editor rest l) /\
       consoleread false (Z.of_nat n) n [] i = (i', Returns (zlen text + 1) (text ++ [newline]))) /\
  (input_rep i (Editor (text ++ ctrl_D :: rest) l) -> (length text < n)%nat ->
     exists i', input_rep i' (Editor (if text then rest else ctrl_D :: rest) l) /\
       consoleread false (Z.of_nat n) n [] i = (i', Returns (zlen text) text)) /\
  (input_rep i (Editor (text ++ rest) l) -> length text = n ->
     exists i', input_rep i' (Editor rest l) /\
       consoleread false (Z.of_nat n) n [] i = (i', Returns (zlen text) text)) /\
  (input_rep i (Editor text l) -> (length text < n)%nat ->
     exists i', input_rep i' (Editor [] l) /\
       consoleread false (Z.of_nat n) n [] i = (i', Sleeps (n - length text) text)).
Proof.
  intros Hn Hd. assert (K : forall t (m : nat), (length text < m)%nat -> input_rep i (Editor (text ++ t) l) ->
    exists i', input_rep i' (Editor t l) /\
      consoleread false (Z.of_nat m) m [] i = consoleread false (Z.of_nat m) (S (m - S (length text))) text i').
  { intros t m Hm R. destruct (consoleread_copy false (Z.of_nat m) text t (S (m - S (length text))) [] i l R Hn Hd)
      as (i' & R' & E). exists i'. split; [done|]. replace (length text + _)%nat with m in E by lia. exact E. }
  split_and!.
  - intros R Hl. destruct (K _ n Hl R) as (i' & R' & ->). destruct (rep_take _ _ newline rest R' eq_refl) as [Ec R2].
    eexists. split; [exact R2|]. cbn [consoleread]. rewrite (rep_ready_empty R'), Ec. simpl. do 2 f_equal. unfold zlen. lia.
  - intros R Hl. destruct (K _ n Hl R) as (i' & R' & ->). destruct (rep_take _ _ ctrl_D rest R' eq_refl) as [Ec R2].
    cbn [consoleread]. rewrite (rep_ready_empty R'), Ec. cbn [ready bool_decide decide]. simpl.
    assert (El : Z.of_nat n - Z.of_nat (S (n - S (length text))) = zlen text) by (unfold zlen; lia).
    change (ctrl_D =? ctrl_D) with true. cbv iota. rewrite El.
    destruct (Z.ltb_spec (Z.of_nat (S (n - S (length text)))) (Z.of_nat n)) as [L|L].
    + eexists. split; [|reflexivity]. destruct text; [simpl in *; lia|]. assert (X := ir_r _ _ R').
      destruct i' as [b1 r1 w1 e1]. simpl in *. unfold set_r. simpl. replace (u32 (u32 (r1 + 1) - 1)) with r1; [done|]. mlia.
    + eexists. split; [|reflexivity]. destruct text; [done|]. simpl in *. lia.
  - intros R Hl. destruct (consoleread_copy false (Z.of_nat n) text rest 0 [] i l R Hn Hd) as (i' & R' & E).
    rewrite Nat.add_0_r in E. rewrite Hl in E. exists i'. split; [done|]. rewrite E. simpl. do 2 f_equal. unfold zlen. lia.
  - intros R Hl. rewrite <- (app_nil_r text) in R. destruct (K _ n Hl R) as (i' & R' & ->). exists i'. split; [done|].
    cbn [consoleread]. rewrite (rep_ready_empty R'). simpl. do 2 f_equal. lia.
Qed.

Lemma consoleread_line_witness : exists i',
  consoleread false 20 20 [] (Input ([108; 115; 10] ++ replicate 125 0) 0 3 3) = (i', Returns 3 [108; 115; 10]).
Proof.
  destruct (consoleread_line 20 (Input ([108; 115; 10] ++ replicate 125 0) 0 3 3) [108; 115] [] []) as (H & _).
  - set_solver.
  - set_solver.
  - destruct H as (i' & _ & E).
    + split; try done. by intros X%elem_of_nil.
    + simpl. lia.
    + exists i'. exact E.
Defined.

(** An ordinary character of a line. *)
Definition ordinary (c : Z) : bool :=
  (0 <? c) && (c <? 256) && negb (c =? ctrl_P) && negb (c =? ctrl_U) && negb (c =? ctrl_H) && negb (c =? 127) &&
  negb (c =? 13) && negb (c =? newline) && negb (c =? ctrl_D).

Lemma type_ordinary text l : forallb ordinary text = true -> zlen l + zlen text < INPUT_BUF ->
  type_chars text (Editor [] l) = Editor [] (l ++ text).
Proof.
  revert l. induction text as [|c text IH]; intros l Ho Hl; [by rewrite app_nil_r|].
  assert (Lc : zlen (c :: text) = 1 + zlen text) by (unfold zlen; rewrite length_cons; lia).
  assert (Ht := zlen_nonneg text). assert (Hl0 := zlen_nonneg l). cbn [forallb] in Ho. bool_prop.
  cbn [type_chars fold_left]. assert (E : type_char c (Editor [] l) = Editor [] (l ++ [c])).
  { unfold ordinary in *. bool_prop. unfold type_char, add_char. cbn [ready line]. change (zlen (@nil Z)) with 0.
    rewrite (proj2 (Z.eqb_neq c ctrl_P)), (proj2 (Z.eqb_neq c ctrl_U)), (proj2 (Z.eqb_neq c ctrl_H)),
      (proj2 (Z.eqb_neq c 127)), (proj2 (Z.eqb_neq c 0)), (proj2 (Z.eqb_neq c 13)) by (done || lia).
    destruct (Z.leb_spec INPUT_BUF (0 + zlen l)); [lia|]. simpl.
    rewrite (proj2 (Z.eqb_neq c newline)), (proj2 (Z.eqb_neq c ctrl_D)) by done. rewrite zlen_app, zlen_one.
    cbn [orb]. destruct (Z.eqb_spec (0 + (zlen l + 1)) INPUT_BUF); [lia|done]. }
  rewrite E. change (type_chars text (Editor [] (l ++ [c])) = Editor [] (l ++ c :: text)).
  rewrite IH; [by rewrite <- app_assoc|done|]. rewrite zlen_app, zlen_one. lia.
Qed.

(** Characters without effect. *)
Lemma type_chars_filter cs x : type_chars (filter (fun c => c ≠ 0) cs) x = type_chars cs x.
Proof.
  revert x. induction cs as [|c cs IH]; intros x; [done|]. rewrite filter_cons. case_decide as N; [exact (IH (type_char c x))|].
  assert (c = 0) as -> by lia. exact (IH x).
Qed.

(** A typed line is what a read returns.  When nothing is pending and ordinary
    characters that fit are typed, followed by Enter, the readers are woken and
    a [consoleread] with enough room returns exactly those characters and a
    newline, and nothing is pending again. *)
Theorem typed_line_read cs text c n s :
  cons_ok s (Editor [] []) -> Forall is_u8 cs -> filter (fun c => c ≠ 0) cs = text ++ [c] -> c = 13 \/ c = newline ->
  forallb ordinary text = true -> zlen text < INPUT_BUF - 1 -> (length text < n)%nat ->
  wp (consoleintr cs) (fun _ s' => woken s' = true /\
    exists i', consoleread false (Z.of_nat n) n [] (inp s') = (i', Returns (zlen text + 1) (text ++ [newline])) /\
      input_rep i' (Editor [] [])) s.
Proof.
  intros O Fu Ef Hc Ho Hl Hn. assert (Ht := zlen_nonneg text).
  assert (F : Forall (fun c => is_u8 c /\ c ≠ newline /\ c ≠ ctrl_D) text).
  { apply Forall_forall. intros x Hx. rewrite forallb_forall in Ho. apply list_elem_of_In, Ho in Hx.
    unfold ordinary in Hx. bool_prop. split; [mlia|done]. }
  assert (E : type_chars cs (Editor [] []) = Editor (text ++ [newline]) []).
  { rewrite <- type_chars_filter, Ef. unfold type_chars. rewrite fold_left_app. fold (type_chars text (Editor [] [])).
    rewrite type_ordinary by (done || (change (zlen (@nil Z)) with 0; lia)).
    unfold fold_left, type_char, add_char. cbn [ready line app]. change (zlen (@nil Z)) with 0.
    destruct (Z.leb_spec INPUT_BUF (0 + zlen text)); [lia|]. by destruct Hc as [-> | ->]. }
  eapply wp_mono; [by apply (wp_consoleintr _ s _ O)|].
  intros d s' ([R _] & _ & W & _). rewrite E in R, W. split; [apply W; by destruct text|].
  destruct (consoleread_copy false (Z.of_nat n) text [newline] (S (n - S (length text))) [] (inp s') [] R) as (i' & R' & Er).
  - intros X. rewrite Forall_forall in F. by apply F in X as (_ & X & _).
  - intros X. rewrite Forall_forall in F. by apply F in X as (_ & _ & X).
  - replace (length text + _)%nat with n in Er by lia. rewrite Er. cbn [consoleread].
    destruct (rep_take _ _ newline [] R' eq_refl) as [Ec R2]. rewrite (rep_ready_empty R'), Ec. simpl.
    eexists. split; [|exact R2]. do 2 f_equal. unfold zlen. lia.
Qed.

Lemma typed_line_read_witness :
  wp (consoleintr ([108; 115] ++ [13])) (fun _ s' => woken s' = true /\
    exists i', consoleread false 20 20 [] (inp s') = (i', Returns 3 [108; 115; 10]) /\ input_rep i' (Editor [] [])) cons0.
Proof.
  exact (typed_line_read [108; 115; 13] [108; 115] 13 20 cons0 cons0_ok ltac:(repeat constructor; discriminate) eq_refl (or_introl eq_refl)
    eq_refl ltac:(vm_compute; reflexivity) ltac:(simpl; lia)).
Defined.
