(* ===== verification/Kbd.v ===== *)
(** * The keyboard (kbd.c, kbd.h)

    Scan codes become characters: the key pressed, under the modifiers that are
    held or locked.  The controller is the queue of the codes that arrived; its
    status says whether there is one, and its data port takes it. *)

From S2P Require Import Prelude Cstring Ring Console ConsoleInput.

Definition SHIFT : Z := Z.shiftl 1 0.
Definition CTL : Z := Z.shiftl 1 1.
Definition ALT : Z := Z.shiftl 1 2.
Definition CAPSLOCK : Z := Z.shiftl 1 3.
Definition NUMLOCK : Z := Z.shiftl 1 4.
Definition SCROLLLOCK : Z := Z.shiftl 1 5.
Definition E0ESC : Z := Z.shiftl 1 6.

(** An array of 256 bytes with its first elements, and some others. *)
Definition keymap (first : list Z) (others : list (Z * Z)) : list Z :=
  fold_left (fun m e => wr m e.1 (u8 e.2)) others ((u8 <$> first) ++ replicate (256 - length first) 0).

Definition shiftcode : list Z := keymap [] [(0x1d, CTL); (0x2a, SHIFT); (0x36, SHIFT); (0x38, ALT); (0x9d, CTL); (0xb8, ALT)].
Definition togglecode : list Z := keymap [] [(0x3a, CAPSLOCK); (0x45, NUMLOCK); (0x46, SCROLLLOCK)].

Definition normalmap : list Z := keymap
   [0; 27; 49; 50; 51; 52; 53; 54; 55; 56; 57; 48; 45; 61; 8; 9;
    113; 119; 101; 114; 116; 121; 117; 105; 111; 112; 91; 93; 10; 0; 97; 115;
    100; 102; 103; 104; 106; 107; 108; 59; 39; 96; 0; 92; 122; 120; 99; 118;
    98; 110; 109; 44; 46; 47; 0; 42; 0; 32; 0; 0; 0; 0; 0; 0;
    0; 0; 0; 0; 0; 0; 0; 55; 56; 57; 45; 52; 53; 54; 43; 49;
    50; 51; 48; 46; 0; 0; 0; 0]
   [(0x9c, 10); (0xb5, 47); (0xc8, 226); (0xd0, 227); (0xc9, 230); (0xd1, 231); (0xcb, 228); (0xcd, 229); (0x97, 224); (0xcf, 225); (0xd2, 232); (0xd3, 233)].

Definition shiftmap : list Z := keymap
   [0; 27; 33; 64; 35; 36; 37; 94; 38; 42; 40; 41; 95; 43; 8; 9;
    81; 87; 69; 82; 84; 89; 85; 73; 79; 80; 123; 125; 10; 0; 65; 83;
    68; 70; 71; 72; 74; 75; 76; 58; 34; 126; 0; 124; 90; 88; 67; 86;
    66; 78; 77; 60; 62; 63; 0; 42; 0; 32; 0; 0; 0; 0; 0; 0;
    0; 0; 0; 0; 0; 0; 0; 55; 56; 57; 45; 52; 53; 54; 43; 49;
    50; 51; 48; 46; 0; 0; 0; 0]
   [(0x9c, 10); (0xb5, 47); (0xc8, 226); (0xd0, 227); (0xc9, 230); (0xd1, 231); (0xcb, 228); (0xcd, 229); (0x97, 224); (0xcf, 225); (0xd2, 232); (0xd3, 233)].

Definition ctlmap : list Z := keymap
   [0; 0; 0; 0; 0; 0; 0; 0; 0; 0; 0; 0; 0; 0; 0; 0;
    17; 23; 5; 18; 20; 25; 21; 9; 15; 16; 0; 0; 13; 0; 1; 19;
    4; 6; 7; 8; 10; 11; 12; 0; 0; 0; 0; 28; 26; 24; 3; 22;
    2; 14; 13; 0; 0; -17; 0; 0]
   [(0x9c, 13); (0xb5, -17); (0xc8, 226); (0xd0, 227); (0xc9, 230); (0xd1, 231); (0xcb, 228); (0xcd, 229); (0x97, 224); (0xcf, 225); (0xd2, 232); (0xd3, 233)].

(** [charcode[i]]. *)
Definition charcode (i : Z) : list Z := if i =? 0 then normalmap else if i =? 1 then shiftmap else ctlmap.

Record kbd := Kbd { shift : Z; codes : list Z }.

Definition bit (x b : Z) : bool := negb (Z.land x b =? 0).

(** What [kbdgetc] does with the code [data]: the character, and [shift]. *)
Definition kbd_code (shift data : Z) : Z * Z :=
  if data =? 0xe0 then (0, Z.lor shift E0ESC)
  else if bit data 0x80 then
    let data := if bit shift E0ESC then data else Z.land data 0x7f in
    (0, Z.land shift (Z.lnot (Z.lor (rd 0 shiftcode data) E0ESC)))
  else
    let '(data, shift) := if bit shift E0ESC then (Z.lor data 0x80, Z.land shift (Z.lnot E0ESC)) else (data, shift) in
    let shift := Z.lor shift (rd 0 shiftcode data) in
    let shift := Z.lxor shift (rd 0 togglecode data) in
    let c := rd 0 (charcode (Z.land shift (Z.lor CTL SHIFT))) data in
    (if bit shift CAPSLOCK then
       if (97 <=? c) && (c <=? 122) then c + (65 - 97)
       else if (65 <=? c) && (c <=? 90) then c + (97 - 65) else c
     else c, shift).

Definition kbdgetc : M kbd Z :=
  k ← get;
  match codes k with
  | [] => mret (-1)
  | data :: rest =>
      let '(c, sh) := kbd_code (shift k) data in
      put (Kbd sh rest);; mret c
  end.

(** The calls of [kbdgetc] by [consoleintr]: the characters up to -1. *)
Fixpoint getc_all (fuel : nat) : M kbd (list Z) :=
  c ← kbdgetc;
  if c <? 0 then mret []
  else match fuel with O => out_of_fuel | S fuel' => cs ← getc_all fuel'; mret (c :: cs) end.

Definition kbdintr : M (kbd * cons) bool :=
  s ← get;
  cs ← zoom fst (fun k s => (k, s.2)) (getc_all (length (codes s.1)));
  zoom snd (fun c s => (s.1, c)) (consoleintr cs).

(** ** Bounds *)

Lemma keymap_ok first others : (length first <= 256)%nat -> length (keymap first others) = 256%nat /\ Forall is_u8 (keymap first others).
Proof.
  intros H. unfold keymap. assert (I : length ((u8 <$> first) ++ replicate (256 - length first) 0) = 256%nat /\
    Forall is_u8 ((u8 <$> first) ++ replicate (256 - length first) 0)).
  { split; [rewrite length_app, length_fmap, length_replicate; lia|]. apply Forall_app_2; [|apply Forall_replicate; unfold is_u8; lia].
    apply Forall_fmap, Forall_true. intros x. unfold is_u8. simpl. mlia. }
  revert I. generalize ((u8 <$> first) ++ replicate (256 - length first) 0). induction others as [|e others IH]; intros l [I1 I2]; [done|].
  simpl. apply IH. split; [by rewrite length_wr|]. unfold wr. case_decide; [|done]. apply Forall_insert; [done|]. unfold is_u8. mlia.
Qed.

(** All codes, under all modifiers. *)
Lemma kbd_code_range sh d : 0 <= sh < 128 -> is_u8 d -> is_u8 (kbd_code sh d).1 /\ 0 <= (kbd_code sh d).2 < 128.
Proof.
  intros Hs Hd. assert (X : forallb (fun sh => forallb (fun d =>
    let '(c, sh') := kbd_code sh d in (0 <=? c) && (c <? 256) && (0 <=? sh') && (sh' <? 128)) (seqZ 0 256)) (seqZ 0 128) = true) by (vm_compute; reflexivity).
  rewrite forallb_forall in X. specialize (X sh). rewrite forallb_forall in X.
  specialize (X ltac:(apply list_elem_of_In, elem_of_seqZ; lia) d ltac:(apply list_elem_of_In, elem_of_seqZ; unfold is_u8 in Hd; lia)).
  destruct (kbd_code sh d) as [c sh']. bool_prop. unfold is_u8. simpl. lia.
Qed.

(** ** Typing *)

Fixpoint kbd_run (sh : Z) (cs : list Z) : list Z * Z :=
  match cs with
  | [] => ([], sh)
  | d :: cs' => let '(c, sh1) := kbd_code sh d in let '(r, sh2) := kbd_run sh1 cs' in (c :: r, sh2)
  end.

Lemma kbd_run_app sh cs cs' : kbd_run sh (cs ++ cs') =
  ((kbd_run sh cs).1 ++ (kbd_run (kbd_run sh cs).2 cs').1, (kbd_run (kbd_run sh cs).2 cs').2).
Proof.
  revert sh. induction cs as [|d cs IH]; intros sh; simpl; [by destruct (kbd_run sh cs')|].
  destruct (kbd_code sh d) as [c sh1]. rewrite IH. destruct (kbd_run sh1 cs) as [r sh2]. done.
Qed.

Lemma kbd_run_u8 sh cs : 0 <= sh < 128 -> Forall is_u8 cs -> Forall is_u8 (kbd_run sh cs).1.
Proof.
  intros Hs F. revert sh Hs. induction F as [|d cs Hd _ IH]; intros sh Hs; simpl; [constructor|].
  destruct (kbd_code_range sh d Hs Hd) as [H1 H2]. destruct (kbd_code sh d) as [c sh1]. specialize (IH sh1 H2).
  destruct (kbd_run sh1 cs) as [r sh2]. by constructor.
Qed.

(** The calls of [kbdgetc] take all codes. *)
Lemma getc_all_run sh cs : 0 <= sh < 128 -> Forall is_u8 cs ->
  getc_all (length cs) (Kbd sh cs) = Ret (kbd_run sh cs).1 (Kbd (kbd_run sh cs).2 []).
Proof.
  intros Hs F. revert sh Hs. induction F as [|d cs Hd _ IH]; intros sh Hs; [done|]. cbn [length getc_all kbd_run].
  destruct (kbd_code_range sh d Hs Hd) as [H1 H2]. unfold kbdgetc. munfold. cbn [codes shift]. destruct (kbd_code sh d) as [c sh1].
  unfold is_u8 in H1. cbn [fst snd] in *. rewrite (proj2 (Z.ltb_ge c 0)) by lia. rewrite (IH sh1 H2). destruct (kbd_run sh1 cs) as [r sh2]. done.
Qed.

(** The keys that type a character, each pressed and released; with the left
    shift key where it is needed. *)
Definition keystroke (c : Z) : list Z :=
  match list_find (fun x => x = c) normalmap with
  | Some (i, _) => [Z.of_nat i; Z.of_nat i + 0x80]
  | None =>
      match list_find (fun x => x = c) shiftmap with
      | Some (i, _) => [0x2a; Z.of_nat i; Z.of_nat i + 0x80; 0xaa]
      | None => []
      end
  end.

Definition enter : list Z := [0x1c; 0x9c].
Definition printable (c : Z) : bool := (32 <=? c) && (c <=? 126).

(** No key that changes characters is held or locked. *)
Definition kbd_rest (sh : Z) : Prop := sh ∈ [0; ALT; NUMLOCK; SCROLLLOCK; NUMLOCK + SCROLLLOCK; ALT + NUMLOCK; ALT + SCROLLLOCK; ALT + NUMLOCK + SCROLLLOCK].

Lemma strokes_checked : forallb (fun sh => forallb (fun c =>
    bool_decide (filter (fun x => x ≠ 0) (kbd_run sh (keystroke c)).1 = [c] /\ (kbd_run sh (keystroke c)).2 = sh) &&
    forallb (fun d => (0 <=? d) && (d <? 256)) (keystroke c)) (seqZ 32 95) &&
    bool_decide (filter (fun x => x ≠ 0) (kbd_run sh enter).1 = [newline] /\ (kbd_run sh enter).2 = sh))
  [0; ALT; NUMLOCK; SCROLLLOCK; NUMLOCK + SCROLLLOCK; ALT + NUMLOCK; ALT + SCROLLLOCK; ALT + NUMLOCK + SCROLLLOCK] = true.
Proof. vm_compute. reflexivity. Qed.

Lemma stroke sh c : kbd_rest sh -> printable c = true ->
  filter (fun x => x ≠ 0) (kbd_run sh (keystroke c)).1 = [c] /\ (kbd_run sh (keystroke c)).2 = sh /\ Forall is_u8 (keystroke c).
Proof.
  intros Hs Hc. assert (X := strokes_checked). rewrite forallb_forall in X. specialize (X sh ltac:(by apply list_elem_of_In)).
  apply andb_true_iff in X as [X _]. rewrite forallb_forall in X. unfold printable in Hc. bool_prop.
  specialize (X c ltac:(apply list_elem_of_In, elem_of_seqZ; lia)). apply andb_true_iff in X as [X Y].
  apply bool_decide_eq_true in X as [X1 X2]. split; [done|]. split; [done|]. apply Forall_forall. intros d Hd.
  rewrite forallb_forall in Y. specialize (Y d ltac:(by apply list_elem_of_In)). bool_prop. unfold is_u8. lia.
Qed.

Lemma enter_stroke sh : kbd_rest sh -> filter (fun x => x ≠ 0) (kbd_run sh enter).1 = [newline] /\ (kbd_run sh enter).2 = sh.
Proof.
  intros Hs. assert (X := strokes_checked). rewrite forallb_forall in X. specialize (X sh ltac:(by apply list_elem_of_In)).
  apply andb_true_iff in X as [_ X]. by apply bool_decide_eq_true in X.
Qed.

Lemma kbd_rest_range sh : kbd_rest sh -> 0 <= sh < 128.
Proof.
  unfold kbd_rest. rewrite !elem_of_cons, elem_of_nil.
  intros [->|[->|[->|[->|[->|[->|[->|[->|[]]]]]]]]]; vm_compute; split; congruence.
Qed.

Definition strokes (text : list Z) : list Z := mjoin (keystroke <$> text).

Lemma strokes_run sh text : kbd_rest sh -> forallb printable text = true ->
  filter (fun x => x ≠ 0) (kbd_run sh (strokes text)).1 = text /\ (kbd_run sh (strokes text)).2 = sh /\ Forall is_u8 (strokes text).
Proof.
  intros Hs. induction text as [|c text IH]; intros Ht; [done|]. cbn [forallb] in Ht. apply andb_true_iff in Ht as [Hc Ht].
  destruct (stroke sh c Hs Hc) as (E1 & E2 & E3). destruct (IH Ht) as (I1 & I2 & I3). 
  change (strokes (c :: text)) with (keystroke c ++ strokes text). rewrite kbd_run_app, E2. cbn [fst snd]. rewrite filter_app, E1, I1. split; [done|]. split; [done|]. by apply Forall_app_2.
Qed.

Lemma printable_ordinary text : forallb printable text = true -> forallb ordinary text = true.
Proof.
  rewrite !forallb_forall. intros H c Hc. specialize (H c Hc). unfold printable, ordinary in *. bool_prop.
  rewrite !andb_true_iff, !negb_true_iff, !Z.ltb_lt, !Z.eqb_neq. unfold ctrl_P, ctrl_U, ctrl_H, ctrl_D, newline, C. lia.
Qed.


