(* ===== verification/File.v ===== *)
(** * Open files (file.c, pipe.c)

    The table of open files over the file system and the pipes.  A pointer to a
    [struct file] is its index in the table; a pointer to a pipe is the address
    of its page.  [woken] collects the channels that the pipe routines pass to
    [wakeup]. *)

From S2P Require Import Prelude Param Cstring SleepLock Layout BlockStore Log LogStore Fs Kalloc Pipe FileOps.

(** The transactions of the log, as the file layer uses them. *)
Class TxOps (S : Type) := { tx_begin : M S unit; tx_end : M S unit; tx_init : Z -> M S unit }.
#[export] Instance log_tx : TxOps lstate := {| tx_begin := begin_op; tx_end := end_op; tx_init := initlog |}.

Inductive ftype := FD_NONE | FD_PIPE | FD_INODE.
#[export] Instance ftype_eq_dec : EqDecision ftype.
Proof. solve_decision. Defined.

Record file := File {
  f_type : ftype;
  f_ref : Z;
  f_readable : bool;
  f_writable : bool;
  f_pipe : Z;
  f_ip : nat;
  f_off : Z
}.

Definition file0 : file := File FD_NONE 0 false false 0 0%nat 0.
Definition set_f_ref v f := File (f_type f) v (f_readable f) (f_writable f) (f_pipe f) (f_ip f) (f_off f).
Definition set_f_type v f := File v (f_ref f) (f_readable f) (f_writable f) (f_pipe f) (f_ip f) (f_off f).
Definition set_f_off v f := File (f_type f) (f_ref f) (f_readable f) (f_writable f) (f_pipe f) (f_ip f) v.

Section file.
Context {S : Type} {BS : BlockStore S} {TX : TxOps S}.
Context (devsw : Z -> devsw_entry S) (kend : Z).

Record fsys := FSys {
  ftable : list file;
  fss : fstate S;
  pipes : gmap Z pipe;
  woken : list (Z * chan)
}.
Definition set_ftable v s := FSys v (fss s) (pipes s) (woken s).
Definition set_fss v s := FSys (ftable s) v (pipes s) (woken s).
Definition set_pipes v s := FSys (ftable s) (fss s) v (woken s).
Definition add_woken a w s := FSys (ftable s) (fss s) (pipes s) (((fun c => (a, c)) <$> w) ++ woken s).

Definition file_at (s : fsys) (f : nat) : file := default file0 (ftable s !! f).
Definition fmod (f : nat) (g : file -> file) : M fsys unit :=
  modify (fun s => set_ftable (<[f := g (file_at s f)]> (ftable s)) s).
Definition fs_op {A} (m : M (fstate S) A) : M fsys A := zoom fss set_fss m.
Definition tx_op {A} (m : M S A) : M fsys A := fs_op (blk_op m).

Definition filealloc : M fsys (option nat) :=
  s ← get;
  match list_find (fun f => f_ref f = 0) (ftable s) with
  | Some (i, _) => fmod i (set_f_ref 1);; mret (Some i)
  | None => mret None
  end.

Definition filedup (f : nat) : M fsys nat :=
  s ← get;
  if f_ref (file_at s f) <? 1 then panic "filedup"
  else fmod f (fun x => set_f_ref (s32 (f_ref x + 1)) x);; mret f.

(** [iput] in a transaction of its own. *)
Definition iput_op (ip : nat) : M fsys unit :=
  tx_op tx_begin;; fs_op (iput ip);; tx_op tx_end.

(** [pipeclose], and [kfree] of the pipe when both ends are closed. *)
Definition pipe_close (a : Z) (writable : bool) : M (fsys * kmem) unit :=
  x ← get;
  match pipes x.1 !! a with
  | None => panic "trap"
  | Some p =>
      let '(p', w, freed) := pipeclose p writable in
      modify (fun x => (add_woken a w x.1, x.2));;
      if freed then
        modify (fun x => (set_pipes (delete a (pipes x.1)) x.1, x.2));;
        zoom snd (fun k x => (x.1, k)) (kfree kend a)
      else modify (fun x => (set_pipes (<[a := p']> (pipes x.1)) x.1, x.2))
  end.

Definition fsys_op {A} (m : M fsys A) : M (fsys * kmem) A := zoom fst (fun f x => (f, x.2)) m.

Definition fileclose (f : nat) : M (fsys * kmem) unit :=
  x ← get;
  let ff := file_at x.1 f in
  if f_ref ff <? 1 then panic "fileclose"
  else
    fsys_op (fmod f (set_f_ref (f_ref ff - 1)));;
    if 0 <? f_ref ff - 1 then mret tt
    else
      fsys_op (fmod f (fun x => set_f_type FD_NONE (set_f_ref 0 x)));;
      match f_type ff with
      | FD_PIPE => pipe_close (f_pipe ff) (f_writable ff)
      | FD_INODE => fsys_op (iput_op (f_ip ff))
      | FD_NONE => mret tt
      end.

Definition filestat (f : nat) : M fsys (option Fs.stat) :=
  s ← get;
  let ff := file_at s f in
  if bool_decide (f_type ff = FD_INODE) then
    fs_op (ilock (f_ip ff));;
    st ← fs_op (stati (f_ip ff));
    fs_op (iunlock (f_ip ff));;
    mret (Some st)
  else mret None.

(** A segment of [fileread]: the result with the bytes read, or asleep. *)
Definition fileread (f : nat) (killed : bool) (n : Z) : M fsys (segment (Z * list Z) unit) :=
  s ← get;
  let ff := file_at s f in
  if negb (f_readable ff) then mret (Returns (-1, []))
  else match f_type ff with
  | FD_PIPE =>
      match pipes s !! f_pipe ff with
      | None => panic "trap"
      | Some p =>
          let '(p', w, r) := piperead p killed n in
          modify (fun s => add_woken (f_pipe ff) w (set_pipes (<[f_pipe ff := p']> (pipes s)) s));;
          mret r
      end
  | FD_INODE =>
      fs_op (ilock (f_ip ff));;
      r ← fs_op (readi devsw (f_ip ff) (f_off ff) n);
      (if 0 <? r.1 then fmod f (fun x => set_f_off (u32 (f_off x + r.1)) x) else mret tt);;
      fs_op (iunlock (f_ip ff));;
      mret (Returns r)
  | FD_NONE => panic "fileread"
  end.

(** The bytes of one transaction of [filewrite]. *)
Definition write_max : Z := (MAXOPBLOCKS - 1 - 1 - 2) / 2 * 512.

(** The loop of [filewrite] from [i] on; the bytes from [i] are [src]. *)
Fixpoint filewrite_from (fuel : nat) (f : nat) (src : list Z) (i n : Z) : M fsys Z :=
  if i <? n then
    match fuel with
    | O => out_of_fuel
    | Datatypes.S fuel' =>
        let n1 := Z.min (n - i) write_max in
        s ← get;
        let ip := f_ip (file_at s f) in
        tx_op tx_begin;;
        fs_op (ilock ip);;
        r ← fs_op (writei devsw ip (take (Z.to_nat n1) src) (f_off (file_at s f)) n1);
        (if 0 <? r then fmod f (fun x => set_f_off (u32 (f_off x + r)) x) else mret tt);;
        fs_op (iunlock ip);;
        tx_op tx_end;;
        if r <? 0 then mret i
        else if negb (r =? n1) then panic "short filewrite"
        else filewrite_from fuel' f (drop (Z.to_nat r) src) (i + r) n
    end
  else mret i.

(** A segment of [filewrite]; [rest] is what a writer to a pipe has left. *)
Definition filewrite (f : nat) (killed : bool) (src : list Z) (n : Z) (rest : list Z) : M fsys (segment Z (list Z)) :=
  s ← get;
  let ff := file_at s f in
  if negb (f_writable ff) then mret (Returns (-1))
  else match f_type ff with
  | FD_PIPE =>
      match pipes s !! f_pipe ff with
      | None => panic "trap"
      | Some p =>
          let '(p', w, r) := pipewrite p killed n rest in
          modify (fun s => add_woken (f_pipe ff) w (set_pipes (<[f_pipe ff := p']> (pipes s)) s));;
          mret r
      end
  | FD_INODE =>
      i ← filewrite_from (Z.to_nat n) f src 0 n;
      mret (Returns (if i =? n then n else -1))
  | FD_NONE => panic "filewrite"
  end.

(** [pipealloc]: the two files, or none. *)
Definition pipealloc : M (fsys * kmem) (option (nat * nat)) :=
  f0 ← fsys_op filealloc;
  match f0 with
  | None => mret None
  | Some f0 =>
      f1 ← fsys_op filealloc;
      match f1 with
      | None => fileclose f0;; mret None
      | Some f1 =>
          p ← zoom snd (fun k x => (x.1, k)) kalloc;
          if p =? 0 then fileclose f0;; fileclose f1;; mret None
          else
            x ← get;
            modify (fun x => (set_pipes (<[p := pipeinit (take (Z.to_nat PIPESIZE) (drop 52 (Mmu.page_at (mem x.2) p)))]> (pipes x.1)) x.1, x.2));;
            fsys_op (fmod f0 (fun f => File FD_PIPE (f_ref f) true false p (f_ip f) (f_off f)));;
            fsys_op (fmod f1 (fun f => File FD_PIPE (f_ref f) false true p (f_ip f) (f_off f)));;
            mret (Some (f0, f1))
      end
  end.

(** ** What proc.c uses *)

Definition root_namei (path : list Z) : M fsys (option nat) := fs_op (namei devsw 0 path).
Definition file_init : M fsys unit := fs_op (iinit ROOTDEV);; tx_op (tx_init ROOTDEV).

#[export] Instance file_ops : FileOps fsys := {|
  fo_filedup := filedup;
  fo_fileclose := fileclose;
  fo_idup ip := fs_op (idup ip);
  fo_iput_op := iput_op;
  fo_namei := root_namei;
  fo_init := file_init
|}.

Definition refs (s : fsys) (f : nat) : Z := f_ref (file_at s f).

Lemma refs_fmod f g s y : (f < length (ftable s))%nat ->
  refs (set_ftable (<[f := g (file_at s f)]> (ftable s)) s) y = if decide (y = f) then f_ref (g (file_at s f)) else refs s y.
Proof.
  intros H. unfold refs, file_at. simpl. destruct (decide (y = f)) as [->|N].
  - by rewrite list_lookup_insert_eq.
  - by rewrite list_lookup_insert_ne.
Qed.

Lemma open_lt s f : f_ref (file_at s f) ≠ 0 -> (f < length (ftable s))%nat.
Proof. intros H. unfold file_at in H. destruct (ftable s !! f) eqn:E; [by eapply lookup_lt_Some|done]. Qed.

(** The operations of the file system leave files and pipes alone. *)
Definition same_files (s s' : fsys) : Prop := ftable s' = ftable s /\ pipes s' = pipes s /\ woken s' = woken s.

Lemma lp_fs_op {A} (m : M (fstate S) A) (Q : A -> fsys -> Prop) s : (forall a s', same_files s s' -> Q a s') -> lp (fs_op m) Q s.
Proof. intros H. unfold fs_op. apply lp_zoom. intros a s' _. by apply H. Qed.

Lemma lp_iput_op ip s : lp (iput_op ip) (fun _ s' => same_files s s') s.
Proof.
  unfold iput_op, tx_op. lp_step. apply lp_fs_op. intros _ s1 (E1 & E2 & E3). lp_step. apply lp_fs_op. intros _ s2 (F1 & F2 & F3).
  apply lp_fs_op. intros _ s3 (G1 & G2 & G3). unfold same_files. by rewrite G1, G2, G3, F1, F2, F3.
Qed.

Lemma refs_same s s' y : same_files s s' -> refs s' y = refs s y.
Proof. intros (E & _). unfold refs, file_at. by rewrite E. Qed.

(** The count that [fileclose] leaves, and what happens to the pages. *)
Lemma lp_pipe_close a w s k : lp (pipe_close a w) (fun _ x =>
  ftable x.1 = ftable s /\ (dom (pipes x.1) = dom (pipes s) /\ x.2 = k \/
    a ∈ dom (pipes s) /\ dom (pipes x.1) = dom (pipes s) ∖ {[a]} /\ kfree kend a k = Ret tt x.2)) (s, k).
Proof.
  unfold pipe_close. lp_step. lp_step. simpl. destruct (pipes s !! a) as [p|] eqn:E; [|lp_step].
  destruct (pipeclose p w) as [[p' wk] freed]. lp_step. lp_step. destruct freed.
  - lp_step. lp_step. lp_step. simpl. intros [] k' Ek. split; [done|]. right. split; [by apply elem_of_dom_2 in E|].
    split; [by rewrite dom_delete_L|done].
  - lp_step. simpl. split; [done|]. left. split; [|done]. rewrite dom_insert_lookup_L; [done|by exists p].
Qed.

Lemma lp_fileclose f s k : lp (fileclose f) (fun _ x =>
  (forall y, refs x.1 y = refs s y - if decide (y = f) then 1 else 0) /\
  (dom (pipes x.1) = dom (pipes s) /\ x.2 = k \/
    exists a, a ∈ dom (pipes s) /\ dom (pipes x.1) = dom (pipes s) ∖ {[a]} /\ kfree kend a k = Ret tt x.2)) (s, k).
Proof.
  unfold fileclose. lp_step. lp_step. cbn [fst]. destruct (Z.ltb_spec (f_ref (file_at s f)) 1) as [L|L]; [lp_step|].
  assert (Hf : (f < length (ftable s))%nat) by (apply open_lt; lia).
  unfold fsys_op, fmod. lp_step. lp_step. lp_step. cbn [fst snd]. destruct (Z.ltb_spec 0 (f_ref (file_at s f) - 1)) as [P|P].
  { lp_step. cbn [fst snd pipes set_ftable]. split; [|by left]. intros y. rewrite refs_fmod by done. unfold refs. case_decide; subst; simpl; lia. }
  lp_step. lp_step. lp_step. cbn [fst snd].
  set (s1 := set_ftable _ (set_ftable _ s)).
  assert (R1 : forall y, refs s1 y = refs s y - if decide (y = f) then 1 else 0).
  { intros y. unfold s1, refs. set (x := file_at (set_ftable _ s) f). unfold file_at at 1. simpl. destruct (decide (y = f)) as [->|N].
    - rewrite list_lookup_insert_eq by (rewrite length_insert; done). simpl. lia.
    - rewrite !list_lookup_insert_ne by done. unfold file_at. lia. }
  destruct (f_type (file_at s f)).
  - lp_step. simpl. split; [done|by left].
  - eapply lp_mono; [apply lp_pipe_close|]. intros [] [s' k'] [Ef Ed]. cbn [fst snd] in *. split.
    + intros y. rewrite <- R1. unfold refs, file_at. by rewrite Ef.
    + destruct Ed as [Ed|Ed]; [by left|right; eauto].
  - lp_step. eapply lp_mono; [apply lp_iput_op|]. intros [] s' Sf. cbn [fst snd]. split; [intros y; rewrite (refs_same _ _ _ Sf); apply R1|].
    left. destruct Sf as (_ & -> & _). done.
Qed.

Lemma lp_filedup f s : refs s f < 2 ^ 31 - 1 -> lp (filedup f) (fun y s' =>
  y = f /\ dom (pipes s') = dom (pipes s) /\ forall z, refs s' z = refs s z + if decide (z = f) then 1 else 0) s.
Proof.
  intros H. unfold filedup, fmod. lp_step. lp_step. destruct (Z.ltb_spec (f_ref (file_at s f)) 1) as [L|L]; [lp_step|].
  lp_step. lp_step. lp_step. split; [done|]. split; [done|]. intros z.
  rewrite (refs_fmod f (fun x => set_f_ref (s32 (f_ref x + 1)) x)) by (apply open_lt; lia).
  unfold refs in *. case_decide; subst; simpl; [mlia|lia].
Qed.

#[export] Program Instance file_laws : FileLaws kend fsys := {|
  fo_refs := refs;
  fo_pages s := dom (pipes s)
|}.
Next Obligation.
  intros f s H. simpl. unfold filedup, refs in *. munfold. rewrite (proj2 (Z.ltb_ge _ _)) by lia. eauto.
Qed.
Next Obligation.
  intros f s y s' E H. exact (lp_filedup f s H y s' E).
Qed.
Next Obligation. intros f s k [] s' k' E. exact (lp_fileclose f s k _ _ E). Qed.
Next Obligation. intros ip s. eexists. split; [reflexivity|]. done. Qed.
Next Obligation.
  intros ip s [] s' E. assert (X := lp_iput_op ip s tt s' E). split; [by destruct X as (_ & -> & _)|]. intros z. by apply refs_same.
Qed.
Next Obligation.
  intros path s r s' E. simpl in E. assert (X : lp (root_namei path) (fun _ s' => same_files s s') s) by (apply lp_fs_op; auto).
  by destruct (X r s' E) as (_ & -> & _).
Qed.
End file.
Arguments fsys : clear implicits.
