(* ===== verification/UserAccess.v ===== *)
(** * User memory (trap.c, syscall.c)

    The page fault handler of [trap], the accesses of the kernel to the memory
    of the running process, and the system call arguments.  The processor
    translates an address through the page directory of the process; an access
    to a page that is not present goes through the handler and is repeated. *)

From S2P Require Import Prelude Param Cstring Layout Mmu Kalloc Vm FileOps Proc.

Section access.
Context {F : Type} {FO : FileOps F}.
Context (kend : Z).
Notation psys := (psys F).

(** ** Page faults *)

(** The page of a lazy allocation: kalloc, memset, mappages. *)
Definition lazy_alloc (pgdir verr : Z) : M kmem bool :=
  m ← kalloc;
  if m =? 0 then mret false
  else
    clear_page m;;
    r ← mappages pgdir verr PGSIZE (V2P m) (Z.lor PTE_W PTE_U);
    if r <? 0 then kfree kend m;; mret false
    else mret true.

(** The case [T_PGFLT] of [trap] for the process [cur]: [cr2] is the address of
    the access and [err] the error code in the frame of the process. *)
Definition pgflt (cur : nat) (cr2 err : Z) : M psys unit :=
  c ← pget cur;
  let verr := PGROUNDDOWN cr2 in
  if (p_sz c <? PGROUNDUP cr2) || (KERNBASE <=? verr) then pmod cur (set_killed 1)
  else if (err =? 7) || (err =? 5) then pmod cur (set_killed 1)
  else
    ok ← km_op (lazy_alloc (p_pgdir c) verr);
    if (ok : bool) then mret tt else pmod cur (set_killed 1).

(** ** Accesses of the kernel *)

(** The page that the processor lets the kernel access at address [va]. *)
Definition kern_page (m : memory) (d va : Z) : option Z :=
  let pde := ld32 m (d + 4 * PDX va) in
  if has pde PTE_P then
    let pte := ld32 m (P2V (PTE_ADDR pde) + 4 * PTX va) in
    if has pte PTE_P then Some (P2V (PTE_ADDR pte)) else None
  else None.

(** [va] as process [cur] sees it. *)
Definition page_of (s : psys) (cur : nat) (va : Z) : option Z := kern_page (mem (km s)) (p_pgdir (proc_at s cur)) va.

(** The page of an access at [va].  In the kernel the error code of the frame is
    that of the system call, 0; when the handler does not map the page the
    instruction faults again, for ever. *)
Definition touch (cur : nat) (va : Z) : M psys Z :=
  s ← get;
  match page_of s cur va with
  | Some a => mret a
  | None =>
      pgflt cur va 0;;
      s ← get;
      match page_of s cur va with Some a => mret a | None => out_of_fuel end
  end.

Definition user_load8 (cur : nat) (va : Z) : M psys Z :=
  a ← touch cur va;
  gets (fun s => rd 0 (page_at (mem (km s)) a) (va mod PGSIZE)).

Definition user_store8 (cur : nat) (va v : Z) : M psys unit :=
  a ← touch cur va;
  km_op (modify (fun k => set_mem (<[a := wr (page_at (mem k) a) (va mod PGSIZE) v]> (mem k)) k)).

Fixpoint user_load (cur : nat) (va : Z) (n : nat) : M psys (list Z) :=
  match n with
  | O => mret []
  | S n' => b ← user_load8 cur va; r ← user_load cur (u32 (va + 1)) n'; mret (b :: r)
  end.

Fixpoint user_store (cur : nat) (va : Z) (l : list Z) : M psys unit :=
  match l with
  | [] => mret tt
  | b :: l' => user_store8 cur va b;; user_store cur (u32 (va + 1)) l'
  end.

(** A register in the trap frame of the process. *)
Definition tf_load (cur : nat) (off : Z) : M psys Z := c ← pget cur; km_op (load (p_tf c + off)).
Definition tf_store (cur : nat) (off v : Z) : M psys unit := c ← pget cur; km_op (store (p_tf c + off) v).

(** ** Arguments of system calls *)

Definition fetchint (cur : nat) (addr : Z) : M psys (option Z) :=
  c ← pget cur;
  if (p_sz c <=? addr) || (p_sz c <? u32 (addr + 4)) then mret None
  else l ← user_load cur addr 4; mret (Some (s32 (get32 l 0))).

(** The loop of [fetchstr] from [s]: the string up to its NUL. *)
Fixpoint fetchstr_from (fuel : nat) (cur : nat) (s ep : Z) : M psys (option (list Z)) :=
  if s <? ep then
    match fuel with
    | O => out_of_fuel
    | S fuel' =>
        b ← user_load8 cur s;
        if b =? 0 then mret (Some [0])
        else
          r ← fetchstr_from fuel' cur (s + 1) ep;
          mret (cons b <$> r)
    end
  else mret None.

(** The string instead of a pointer to it. *)
Definition fetchstr (cur : nat) (addr : Z) : M psys (option (list Z)) :=
  c ← pget cur;
  if p_sz c <=? addr then mret None
  else fetchstr_from (Z.to_nat (p_sz c - addr)) cur addr (p_sz c).

Definition argint (cur : nat) (n : Z) : M psys (option Z) :=
  esp ← tf_load cur tf_esp;
  fetchint cur (u32 (esp + 4 + 4 * n)).

Definition argptr (cur : nat) (n size : Z) : M psys (option Z) :=
  i ← argint cur n;
  match i with
  | None => mret None
  | Some i =>
      c ← pget cur;
      if (size <? 0) || (p_sz c <=? u32 i) || (p_sz c <? u32 (u32 i + size)) then mret None
      else mret (Some (u32 i))
  end.

Definition argstr (cur : nat) (n : Z) : M psys (option (list Z)) :=
  i ← argint cur n;
  match i with
  | None => mret None
  | Some addr => fetchstr cur (u32 addr)
  end.
End access.
