(* ===== verification/Sysfile.v ===== *)
(** * System calls on files (sysfile.c)

    The handlers of sysfile.c for the running process [cur]: arguments from
    user memory, descriptors in the process table, open files, inodes. *)

From S2P Require Import Prelude Param Cstring SleepLock Layout BlockStore Fs Mmu Kalloc Vm Pipe FileOps Proc File UserAccess.

Definition set_fpid {S} (v : Z) (s : fstate S) : fstate S := FState (blk s) (icache s) (sb s) v.

Section sysfile.
Context {S : Type} {BS : BlockStore S} {TX : TxOps S}.
Context (devsw : Z -> devsw_entry S) (kend : Z).
#[local] Instance sysfile_ops : FileOps (fsys S) := file_ops devsw kend.
Notation psys := (psys (fsys S)).

(** [myproc()] for the sleep locks: set when a trap enters the kernel. *)
Definition enter (cur : nat) : M psys unit :=
  c ← pget cur; fl_op (fs_op (modify (set_fpid (p_pid c)))).
Definition fs_call {A} (m : M (fstate S) A) : M psys A := fl_op (fs_op m).
Definition begin_op' : M psys unit := fl_op (tx_op tx_begin).
Definition end_op' : M psys unit := fl_op (tx_op tx_end).
(** [m] after [end_op], for the early returns. *)
Definition fail_op : M psys Z := end_op';; mret (-1).

(** The directory of the process, for relative paths. *)
Definition cwd_of (cur : nat) : M psys nat :=
  c ← pget cur;
  match p_cwd c with Some ip => mret ip | None => null_access end.
Definition namei_of (cur : nat) (path : list Z) : M psys (option nat) :=
  cwd ← cwd_of cur; fs_call (namei devsw cwd path).
Definition nameiparent_of (cur : nat) (path : list Z) : M psys (option nat * list Z) :=
  cwd ← cwd_of cur; fs_call (nameiparent devsw cwd path (replicate (Z.to_nat DIRSIZ) 0)).

(** ** Descriptors *)

(** [argfd(n, &fd, &f)]. *)
Definition argfd (cur : nat) (n : Z) : M psys (option (Z * nat)) :=
  i ← argint kend cur n;
  match i with
  | None => mret None
  | Some fd =>
      c ← pget cur;
      if (fd <? 0) || (NOFILE <=? fd) then mret None
      else match rd None (p_ofile c) fd with
           | None => mret None
           | Some f => mret (Some (fd, f))
           end
  end.

Fixpoint fdalloc_from (cur f : nat) (fd : Z) (n : nat) : M psys Z :=
  match n with
  | O => mret (-1)
  | Datatypes.S n' =>
      c ← pget cur;
      match rd None (p_ofile c) fd with
      | None => pmod cur (fun p => set_ofile (wr (p_ofile p) fd (Some f)) p);; mret fd
      | Some _ => fdalloc_from cur f (fd + 1) n'
      end
  end.
Definition fdalloc (cur f : nat) : M psys Z := fdalloc_from cur f 0 (Z.to_nat NOFILE).

Definition set_fd (cur : nat) (fd : Z) (v : option nat) : M psys unit :=
  pmod cur (fun p => set_ofile (wr (p_ofile p) fd v) p).

Definition sys_dup (cur : nat) : M psys Z :=
  a ← argfd cur 0;
  match a with
  | None => mret (-1)
  | Some (_, f) =>
      fd ← fdalloc cur f;
      if fd <? 0 then mret (-1)
      else fl_op (filedup f);; mret fd
  end.

(** [ofile[fd]]; [ofile[NOFILE]] is outside the array. *)
Definition ofile_at (cur : nat) (fd : Z) : M psys (option nat) :=
  if fd <? NOFILE then c ← pget cur; mret (rd None (p_ofile c) fd)
  else panic "ofile[NOFILE]".

Definition sys_dup2 (cur : nat) : M psys Z :=
  a ← argint kend cur 0;
  match a with
  | None => mret (-1)
  | Some oldfd =>
      if (oldfd <? 0) || (NOFILE <? oldfd) then mret (-1)
      else
        fold ← ofile_at cur oldfd;
        match fold with
        | None => mret (-1)
        | Some fold =>
            b ← argint kend cur 1;
            match b with
            | None => mret (-1)
            | Some newfd =>
                if (newfd <? 0) || (NOFILE <? newfd) then mret (-1)
                else if newfd =? oldfd then mret newfd
                else
                  fnew ← ofile_at cur newfd;
                  (match fnew with
                   | Some fnew => set_fd cur newfd None;; flk_op (fileclose kend fnew)
                   | None => mret tt
                   end);;
                  fl_op (filedup fold);;
                  set_fd cur newfd (Some fold);;
                  mret newfd
            end
        end
  end.

Definition sys_close (cur : nat) : M psys Z :=
  a ← argfd cur 0;
  match a with
  | None => mret (-1)
  | Some (fd, f) =>
      set_fd cur fd None;;
      flk_op (fileclose kend f);;
      mret 0
  end.

(** ** Reading and writing *)

(** The three arguments of [read] and [write]: file, count and buffer. *)
Definition rw_args (cur : nat) : M psys (option (nat * Z * Z)) :=
  a ← argfd cur 0;
  match a with
  | None => mret None
  | Some (_, f) =>
      n ← argint kend cur 2;
      match n with
      | None => mret None
      | Some n =>
          p ← argptr kend cur 1 n;
          match p with
          | None => mret None
          | Some p => mret (Some (f, n, p))
          end
      end
  end.

(** A segment of [read]: the bytes go to user memory. *)
Definition sys_read (cur : nat) : M psys (segment Z unit) :=
  a ← rw_args cur;
  match a with
  | None => mret (Returns (-1))
  | Some (f, n, p) =>
      c ← pget cur;
      r ← fl_op (fileread devsw f (negb (p_killed c =? 0)) n);
      match r with
      | Returns (r, bytes) => user_store kend cur p bytes;; mret (Returns r)
      | Sleeps _ => mret (Sleeps tt)
      end
  end.

(** A segment of [write], from the start or ([rest]) from where it slept. *)
Definition sys_write (cur : nat) (rest : option (list Z)) : M psys (segment Z (list Z)) :=
  a ← rw_args cur;
  match a with
  | None => mret (Returns (-1))
  | Some (f, n, p) =>
      src ← user_load kend cur p (Z.to_nat n);
      c ← pget cur;
      fl_op (filewrite devsw f (negb (p_killed c =? 0)) src n (default src rest))
  end.

Definition sizeof_stat : Z := 20.
(** The layout of [struct stat]: type, dev, ino, nlink and size. *)
Definition encode_stat (st : Fs.stat) : list Z :=
  let z := replicate (Z.to_nat sizeof_stat) 0 in
  put32 (put16 (put32 (put32 (put16 z 0 (u16 (st_type st))) 4 (u32 (st_dev st))) 8 (st_ino st)) 12 (u16 (st_nlink st))) 16 (st_size st).

Definition sys_fstat (cur : nat) : M psys Z :=
  a ← argfd cur 0;
  match a with
  | None => mret (-1)
  | Some (_, f) =>
      p ← argptr kend cur 1 sizeof_stat;
      match p with
      | None => mret (-1)
      | Some p =>
          r ← fl_op (filestat f);
          match r with
          | None => mret (-1)
          | Some st =>
              (* the fields; the padding after the short ones is not written *)
              let e := encode_stat st in
              user_store kend cur p (slice e 0 2);;
              user_store kend cur (p + 4) (slice e 4 10);;
              user_store kend cur (p + 16) (slice e 16 4);;
              mret 0
          end
      end
  end.

(** ** Directories *)

(** [ip->nlink += d; iupdate(ip)]. *)
Definition add_link (ip : nat) (d : Z) : M psys unit :=
  fs_call (imod ip (fun i => set_nlink (s16 (nlink i + d)) i));;
  fs_call (iupdate ip).
Definition inode_of (ip : nat) : M psys inode := fs_call (gets (fun s => inode_at s ip)).

Definition sys_link (cur : nat) : M psys Z :=
  a ← argstr kend cur 0;
  match a with
  | None => mret (-1)
  | Some old =>
  b ← argstr kend cur 1;
  match b with
  | None => mret (-1)
  | Some new =>
      begin_op';;
      r ← namei_of cur old;
      match r with
      | None => fail_op
      | Some ip =>
          fs_call (ilock ip);;
          i ← inode_of ip;
          if itype i =? T_DIR then fs_call (iunlockput ip);; fail_op
          else
            add_link ip 1;;
            fs_call (iunlock ip);;
            let bad :=
              fs_call (ilock ip);;
              add_link ip (-1);;
              fs_call (iunlockput ip);;
              fail_op in
            q ← nameiparent_of cur new;
            match q with
            | (None, _) => bad
            | (Some dp, name) =>
                fs_call (ilock dp);;
                d ← inode_of dp;
                i ← inode_of ip;
                ok ← (if negb (idev d =? idev i) then mret false
                      else w ← fs_call (dirlink devsw dp name (inum i)); mret (0 <=? w));
                fs_call (iunlockput dp);;
                if (ok : bool) then
                  fs_call (iput ip);;
                  end_op';;
                  mret 0
                else bad
            end
      end
  end
  end.

Fixpoint isdirempty_from (fuel : nat) (dp : nat) (off : Z) : M psys bool :=
  d ← inode_of dp;
  if off <? isize d then
    match fuel with
    | O => out_of_fuel
    | Datatypes.S fuel' =>
        r ← fs_call (readi devsw dp off sizeof_dirent);
        if negb (r.1 =? sizeof_dirent) then panic "isdirempty: readi"
        else if negb (de_inum (decode_dirent r.2) =? 0) then mret false
        else isdirempty_from fuel' dp (off + sizeof_dirent)
    end
  else mret true.

Definition isdirempty (dp : nat) : M psys bool :=
  s ← get;
  isdirempty_from (dir_fuel (fss (fl s)) dp) dp (2 * sizeof_dirent).

Definition dot : list Z := cstring ".".
Definition dotdot : list Z := cstring "..".

Definition sys_unlink (cur : nat) : M psys Z :=
  a ← argstr kend cur 0;
  match a with
  | None => mret (-1)
  | Some path =>
      begin_op';;
      q ← nameiparent_of cur path;
      match q with
      | (None, _) => fail_op
      | (Some dp, name) =>
          fs_call (ilock dp);;
          let bad := fs_call (iunlockput dp);; fail_op in
          if (namecmp name dot =? 0) || (namecmp name dotdot =? 0) then bad
          else
            r ← fs_call (dirlookup devsw dp name);
            match r with
            | None => bad
            | Some (ip, off) =>
                fs_call (ilock ip);;
                i ← inode_of ip;
                if nlink i <? 1 then panic "unlink: nlink < 1"
                else
                  full ← (if itype i =? T_DIR then e ← isdirempty ip; mret (negb e) else mret false);
                  if (full : bool) then fs_call (iunlockput ip);; bad
                  else
                    w ← fs_call (writei devsw dp (replicate (Z.to_nat sizeof_dirent) 0) off sizeof_dirent);
                    if negb (w =? sizeof_dirent) then panic "unlink: writei"
                    else
                      (if itype i =? T_DIR then add_link dp (-1) else mret tt);;
                      fs_call (iunlockput dp);;
                      add_link ip (-1);;
                      fs_call (iunlockput ip);;
                      end_op';;
                      mret 0
            end
      end
  end.

Definition set_node (major' minor' nlink' : Z) (i : inode) : inode :=
  Inode (idev i) (inum i) (ref i) (ilk i) (valid i) (itype i) major' minor' nlink' (isize i) (addrs i).

(** The inode is returned locked. *)
Definition create (cur : nat) (path : list Z) (type major' minor' : Z) : M psys (option nat) :=
  q ← nameiparent_of cur path;
  match q with
  | (None, _) => mret None
  | (Some dp, name) =>
      fs_call (ilock dp);;
      r ← fs_call (dirlookup devsw dp name);
      match r with
      | Some (ip, _) =>
          fs_call (iunlockput dp);;
          fs_call (ilock ip);;
          i ← inode_of ip;
          if (type =? T_FILE) && (itype i =? T_FILE) then mret (Some ip)
          else fs_call (iunlockput ip);; mret None
      | None =>
          d ← inode_of dp;
          ip ← fs_call (ialloc (idev d) type);
          fs_call (ilock ip);;
          fs_call (imod ip (set_node (s16 major') (s16 minor') 1));;
          fs_call (iupdate ip);;
          i ← inode_of ip;
          (if type =? T_DIR then
             add_link dp 1;;
             w ← fs_call (dirlink devsw ip dot (inum i));
             if w <? 0 then panic "create dots"
             else
               w ← fs_call (dirlink devsw ip dotdot (inum d));
               if w <? 0 then panic "create dots" else mret tt
           else mret tt);;
          w ← fs_call (dirlink devsw dp name (inum i));
          if w <? 0 then panic "create: dirlink"
          else
            fs_call (iunlockput dp);;
            mret (Some ip)
      end
  end.

(** [sys_open] up to the locked inode. *)
Definition open_inode (cur : nat) (path : list Z) (omode : Z) : M psys (option nat) :=
  if negb (Z.land omode O_CREATE =? 0) then create cur path T_FILE 0 0
  else
    r ← namei_of cur path;
    match r with
    | None => mret None
    | Some ip =>
        fs_call (ilock ip);;
        i ← inode_of ip;
        if (itype i =? T_DIR) && negb (omode =? O_RDONLY) then fs_call (iunlockput ip);; mret None
        else mret (Some ip)
    end.

Definition sys_open (cur : nat) : M psys Z :=
  a ← argstr kend cur 0;
  match a with
  | None => mret (-1)
  | Some path =>
  b ← argint kend cur 1;
  match b with
  | None => mret (-1)
  | Some omode =>
      begin_op';;
      r ← open_inode cur path omode;
      match r with
      | None => fail_op
      | Some ip =>
          f ← fl_op filealloc;
          match f with
          | None => fs_call (iunlockput ip);; fail_op
          | Some f =>
              fd ← fdalloc cur f;
              if fd <? 0 then
                flk_op (fileclose kend f);;
                fs_call (iunlockput ip);;
                fail_op
              else
                fs_call (iunlock ip);;
                end_op';;
                fl_op (fmod f (fun x => File FD_INODE (f_ref x)
                         (Z.land omode O_WRONLY =? 0)
                         (negb (Z.land omode O_WRONLY =? 0) || negb (Z.land omode O_RDWR =? 0))
                         (f_pipe x) ip 0));;
                mret fd
          end
      end
  end
  end.

Definition sys_mkdir (cur : nat) : M psys Z :=
  begin_op';;
  a ← argstr kend cur 0;
  match a with
  | None => fail_op
  | Some path =>
      r ← create cur path T_DIR 0 0;
      match r with
      | None => fail_op
      | Some ip => fs_call (iunlockput ip);; end_op';; mret 0
      end
  end.

Definition sys_mknod (cur : nat) : M psys Z :=
  begin_op';;
  a ← argstr kend cur 0;
  match a with
  | None => fail_op
  | Some path =>
  ma ← argint kend cur 1;
  match ma with
  | None => fail_op
  | Some major' =>
  mi ← argint kend cur 2;
  match mi with
  | None => fail_op
  | Some minor' =>
      r ← create cur path T_DEV major' minor';
      match r with
      | None => fail_op
      | Some ip => fs_call (iunlockput ip);; end_op';; mret 0
      end
  end
  end
  end.

Definition sys_chdir (cur : nat) : M psys Z :=
  begin_op';;
  a ← argstr kend cur 0;
  match a with
  | None => fail_op
  | Some path =>
      r ← namei_of cur path;
      match r with
      | None => fail_op
      | Some ip =>
          fs_call (ilock ip);;
          i ← inode_of ip;
          if negb (itype i =? T_DIR) then fs_call (iunlockput ip);; fail_op
          else
            fs_call (iunlock ip);;
            cwd ← cwd_of cur;
            fs_call (iput cwd);;
            end_op';;
            pmod cur (set_cwd (Some ip));;
            mret 0
      end
  end.

Definition sys_pipe (cur : nat) : M psys Z :=
  a ← argptr kend cur 0 8;
  match a with
  | None => mret (-1)
  | Some fd =>
      r ← flk_op (pipealloc kend);
      match r with
      | None => mret (-1)
      | Some (rf, wf) =>
          fd0 ← fdalloc cur rf;
          if fd0 <? 0 then
            flk_op (fileclose kend rf);; flk_op (fileclose kend wf);; mret (-1)
          else
            fd1 ← fdalloc cur wf;
            if fd1 <? 0 then
              set_fd cur fd0 None;;
              flk_op (fileclose kend rf);; flk_op (fileclose kend wf);; mret (-1)
            else
              user_store kend cur fd (le_bytes 4 fd0);;
              user_store kend cur (u32 (fd + 4)) (le_bytes 4 fd1);;
              mret 0
      end
  end.
End sysfile.
