(* ===== verification/Exec.v ===== *)
(** * Executing a program (exec.c, [loaduvm] of vm.c)

    [exec] reads an ELF file into a new address space, pushes the arguments on
    a new stack, and replaces the memory of the running process [cur]. *)

From S2P Require Import Prelude Param Cstring SleepLock Layout BlockStore Fs Mmu Kalloc Vm Pipe FileOps Proc File UserAccess Sysfile.

Definition ELF_MAGIC : Z := 0x464C457F.
Definition ELF_PROG_LOAD : Z := 1.

Definition sizeof_elfhdr : Z := 52.
Record elfhdr := Elfhdr { eh_magic : Z; eh_entry : Z; eh_phoff : Z; eh_phnum : Z }.
Definition read_elfhdr (d : list Z) : elfhdr :=
  Elfhdr (get32 d 0) (get32 d 24) (get32 d 28) (le_word (slice d 44 2)).

Definition sizeof_proghdr : Z := 32.
Record proghdr := Proghdr { ph_type : Z; ph_off : Z; ph_vaddr : Z; ph_filesz : Z; ph_memsz : Z }.
Definition read_proghdr (d : list Z) : proghdr :=
  Proghdr (get32 d 0) (get32 d 4) (get32 d 8) (get32 d 16) (get32 d 20).

(** The last element of a path. *)
Fixpoint last_elem (last s : list Z) : list Z :=
  match s with
  | [] => last
  | c :: s' => if c =? 0 then last else last_elem (if c =? slash then s' else last) s'
  end.

Section exec.
Context {S : Type} {BS : BlockStore S} {TX : TxOps S}.
Context (devsw : Z -> devsw_entry S) (kend data : Z).
#[local] Instance exec_ops : FileOps (fsys S) := file_ops devsw kend.
Notation psys := (psys (fsys S)).

(** The loop of [loaduvm] from [i]. *)
Fixpoint loaduvm_from (fuel : nat) (pgdir addr : Z) (ip : nat) (offset i sz : Z) : M psys Z :=
  if i <? sz then
    match fuel with
    | O => out_of_fuel
    | Datatypes.S fuel' =>
        pte ← km_op (walkpgdir pgdir (u32 (addr + i)) false);
        if pte =? 0 then panic "loaduvm: address should exist"
        else
          e ← km_op (load pte);
          let a := P2V (PTE_ADDR e) in
          let n := if sz - i <? PGSIZE then sz - i else PGSIZE in
          r ← fs_call (readi devsw ip (u32 (offset + i)) n);
          km_op (modify (fun k => set_mem (<[a := blit (page_at (mem k) a) 0 (u8 <$> r.2)]> (mem k)) k));;
          if negb (r.1 =? n) then mret (-1)
          else loaduvm_from fuel' pgdir addr ip offset (i + PGSIZE) sz
    end
  else mret 0.

Definition loaduvm (pgdir addr : Z) (ip : nat) (offset sz : Z) : M psys Z :=
  if negb (addr mod PGSIZE =? 0) then panic "loaduvm: addr must be page aligned"
  else loaduvm_from (Datatypes.S (Z.to_nat (sz / PGSIZE))) pgdir addr ip offset 0 sz.

(** The loop over [n] program headers at [off]: the size, or [None] for
    [goto bad]. *)
Fixpoint load_segments (n : nat) (pgdir : Z) (ip : nat) (off sz : Z) : M psys (option Z) :=
  match n with
  | O => mret (Some sz)
  | Datatypes.S n' =>
      r ← fs_call (readi devsw ip (u32 off) sizeof_proghdr);
      if negb (r.1 =? sizeof_proghdr) then mret None
      else
        let ph := read_proghdr (u8 <$> r.2) in
        let vend := u32 (ph_vaddr ph + ph_memsz ph) in
        if negb (ph_type ph =? ELF_PROG_LOAD) || (ph_memsz ph =? 0) then load_segments n' pgdir ip (off + sizeof_proghdr) sz
        else if ph_memsz ph <? ph_filesz ph then mret None
        else if vend <? ph_vaddr ph then mret None
        else
          sz' ← km_op (allocuvm kend pgdir sz vend);
          if sz' =? 0 then mret None
          else if negb (ph_vaddr ph mod PGSIZE =? 0) then mret None
          else
            l ← loaduvm pgdir (ph_vaddr ph) ip (ph_off ph) (ph_filesz ph);
            if l <? 0 then mret None
            else load_segments n' pgdir ip (off + sizeof_proghdr) sz'
  end.

(** The word at address 0, which [uva2ka] reads for an address without table. *)
Definition word0 (cur : nat) : M psys Z :=
  gets (fun s => match page_of s cur 0 with Some a => get32 (page_at (mem (km s)) a) 0 | None => 0 end).

(** The loop that pushes the strings: the stack pointer and the addresses. *)
Fixpoint push_args (cur : nat) (pgdir sp argc : Z) (argv : list (list Z)) : M psys (option (Z * list Z)) :=
  match argv with
  | [] => mret (Some (sp, []))
  | a :: argv' =>
      if MAXARG <=? argc then mret None
      else
        let sp := Z.land (u32 (sp - (strlen a + 1))) (Z.lnot 3) in
        w ← word0 cur;
        r ← km_op (copyout w pgdir sp a (strlen a + 1));
        if r <? 0 then mret None
        else
          q ← push_args cur pgdir sp (argc + 1) argv';
          match q with
          | None => mret None
          | Some (sp', l) => mret (Some (sp', sp :: l))
          end
  end.

(** The two pages of the stack and the arguments: the size and the stack
    pointer. *)
Definition exec_stack (cur : nat) (pgdir sz : Z) (argv : list (list Z)) : M psys (option (Z * Z)) :=
  let sz := PGROUNDUP sz in
  sz ← km_op (allocuvm kend pgdir sz (u32 (sz + 2 * PGSIZE)));
  if sz =? 0 then mret None
  else
    km_op (clearpteu pgdir (u32 (sz - 2 * PGSIZE)));;
    q ← push_args cur pgdir sz 0 argv;
    match q with
    | None => mret None
    | Some (sp, l) =>
        let argc := zlen argv in
        let ustack := [0xffffffff; argc; u32 (sp - (argc + 1) * 4)] ++ l ++ [0] in
        let sp := u32 (sp - (3 + argc + 1) * 4) in
        w ← word0 cur;
        r ← km_op (copyout w pgdir sp (mjoin (le_bytes 4 <$> ustack)) ((3 + argc + 1) * 4));
        mret (if r <? 0 then None else Some (sz, sp))
    end.

(** The part of [exec] that reads the file: the page directory (0 before there
    is one), and the size and the entry point unless it went to [bad]. *)
Definition exec_image (ip : nat) : M psys (Z * option (Z * Z)) :=
  r ← fs_call (readi devsw ip 0 sizeof_elfhdr);
  if negb (r.1 =? sizeof_elfhdr) then mret (0, None)
  else
    let elf := read_elfhdr (u8 <$> r.2) in
    if negb (eh_magic elf =? ELF_MAGIC) then mret (0, None)
    else
      pgdir ← km_op (setupkvm kend data);
      if pgdir =? 0 then mret (0, None)
      else
        sz ← load_segments (Z.to_nat (eh_phnum elf)) pgdir ip (eh_phoff elf) 0;
        mret (pgdir, (fun sz => (sz, eh_entry elf)) <$> sz).

(** The end of [exec]: the name, and the commit to the user image. *)
Definition exec_switch (cur : nat) (path : list Z) (pgdir sz sp entry : Z) : M psys Z :=
  pmod cur (fun p => set_name (safestrcpy (p_name p) (last_elem path path) 16) p);;
  c ← pget cur;
  let oldpgdir := p_pgdir c in
  pmod cur (fun p => set_sz sz (set_pgdir pgdir p));;
  tf_store cur tf_eip entry;;
  tf_store cur tf_esp sp;;
  km_op (freevm kend oldpgdir true);;
  mret 0.

Definition exec (cur : nat) (path : list Z) (argv : list (list Z)) : M psys Z :=
  begin_op';;
  r ← namei_of devsw cur path;
  match r with
  | None => fail_op
  | Some ip =>
      fs_call (ilock ip);;
      im ← exec_image ip;
      match im with
      | (pgdir, None) =>
          (if pgdir =? 0 then mret tt else km_op (freevm kend pgdir true));;
          fs_call (iunlockput ip);;
          fail_op
      | (pgdir, Some (sz, entry)) =>
          fs_call (iunlockput ip);;
          end_op';;
          st ← exec_stack cur pgdir sz argv;
          match st with
          | None => km_op (freevm kend pgdir true);; mret (-1)
          | Some (sz, sp) => exec_switch cur path pgdir sz sp entry
          end
      end
  end.

(** The loop of [sys_exec] over the pointers at [uargv]. *)
Fixpoint fetch_argv (n : nat) (cur : nat) (uargv i : Z) : M psys (option (list (list Z))) :=
  match n with
  | O => mret None
  | Datatypes.S n' =>
      a ← fetchint kend cur (u32 (uargv + 4 * i));
      match a with
      | None => mret None
      | Some uarg =>
          if uarg =? 0 then mret (Some [])
          else
            s ← fetchstr kend cur (u32 uarg);
            match s with
            | None => mret None
            | Some s => r ← fetch_argv n' cur uargv (i + 1); mret (cons s <$> r)
            end
      end
  end.

Definition sys_exec (cur : nat) : M psys Z :=
  a ← argstr kend cur 0;
  match a with
  | None => mret (-1)
  | Some path =>
  b ← argint kend cur 1;
  match b with
  | None => mret (-1)
  | Some uargv =>
      r ← fetch_argv (Z.to_nat MAXARG) cur (u32 uargv) 0;
      match r with
      | None => mret (-1)
      | Some argv => exec cur path argv
      end
  end
  end.
End exec.
