(* ===== verification/ExecMemory.v ===== *)
(** * The memory of a new program (exec.c)

    [exec] builds an address space next to the one of the process: page by page
    from the free list.  The lemmas say what it owns at each point, so that the
    failures of [exec] can give everything back. *)

From S2P Require Import Prelude Param Layout Cstring SleepLock BlockStore Fs Mmu Kalloc Vm PageTable UserMemory AddressSpace VmSpec Pipe FileOps Proc ProcTable ProcMemory File UserAccess Sysfile Exec.

(** ** Entries without the user bit *)

Lemma clear_user_bit e : PTE_FLAGS e = 7 -> 0 <= PTE_ADDR e < 2 ^ 31 ->
  u32 (Z.land e (Z.lnot PTE_U)) = PTE_ADDR e + 3.
Proof.
  rewrite PTE_FLAGS_eq, PTE_ADDR_eq. intros Hf Ha. change (Z.lnot PTE_U) with (Z.lnot 4).
  assert (E4 : Z.land e 4 = 4).
  { replace (Z.land e 4) with (Z.land (Z.land e (Z.ones 12)) 4) by (by rewrite <- Z.land_assoc).
    rewrite Z.land_ones by lia. change (2 ^ 12) with PGSIZE. by rewrite Hf. }
  assert (E : Z.land e (Z.lnot 4) = e - 4).
  { rewrite <- Z.ldiff_land. rewrite Z.sub_nocarry_ldiff; [done|]. apply Z.bits_inj'. intros n Hn.
    rewrite Z.ldiff_spec, Z.bits_0. apply (f_equal (fun x => Z.testbit x n)) in E4. rewrite Z.land_spec in E4.
    destruct (Z.testbit 4 n), (Z.testbit e n); done. }
  rewrite E. unfold PGSIZE in *. mlia.
Qed.

Lemma get32_word d off : Forall is_u8 d -> is_u32 (get32 d off).
Proof.
  intros U. unfold get32. assert (U' : Forall is_u8 (slice d off 4)) by by apply slice_u8.
  assert (H := le_word_range _ U'). split; [lia|].
  assert (L : (length (slice d off 4) <= 4)%nat) by (unfold slice; rewrite length_take; lia).
  eapply Z.lt_le_trans; [apply H|]. change (2 ^ 32) with (256 ^ 4). apply Z.pow_le_mono_r; lia.
Qed.

Lemma ld32_range m a : mem_wf m -> is_u32 (ld32 m a).
Proof. intros W. by apply get32_word, page_at_ok. Qed.

Section space.
Context (kend : Z) (kend_high : KERNLINK <= kend).
Notation uvm_ok := (uvm_ok kend).
Notation kmem_rep := (kmem_rep kend).
Notation allocatable := (allocatable kend).

(** From memory [k0] with free list [l0] the address space [d] was built. *)
Record built (k0 : kmem) (l0 : list Z) (d : Z) (k : kmem) (l : list Z) (tabs : gmap Z Z) (ent : Z -> Z) : Prop := {
  bu_ok : uvm_ok k l d tabs ent;
  bu_pages a : a ∈ l0 <-> a ∈ l \/ in_as d tabs ent a;
  bu_mem a : a ∉ l0 -> page_at (mem k) a = page_at (mem k0) a
}.

(** Its user pages are the ones below size [sz]. *)
Record sized (ent : Z -> Z) (sz : Z) : Prop := {
  si_range : 0 <= sz <= KERNBASE;
  si_page w : 0 <= w < pgs sz -> Z.odd (ent w) = true /\ PTE_FLAGS (ent w) = 7;
  si_none w : pgs sz <= w < NUSER -> ent w = 0
}.

(** What [grown] does to the pages of the address space. *)
Lemma grown_in_as d tabs tabs' ent ent' v0 v l l' k k' : 0 <= v0 -> v <= NUSER -> (forall w, v0 <= w < v -> ent w = 0) ->
  grown kend d tabs tabs' ent ent' v0 v [] l l' k k' ->
  forall a, a ∈ l \/ in_as d tabs ent a <-> a ∈ l' \/ in_as d tabs' ent' a.
Proof.
  intros H0 Hn Hz G a. rewrite (gr_cons _ _ _ _ _ _ _ _ _ _ _ _ _ G). assert (Hs := gr_sub _ _ _ _ _ _ _ _ _ _ _ _ _ G).
  unfold in_as. split.
  - intros [[X|[X|[X|(w & Hw & X)]]]|[X|(w & Hw & Ho & X)]].
    + by left.
    + by apply elem_of_nil in X.
    + right. left. set_solver.
    + right. right. exists w. split; [lia|]. split; [by apply (gr_new _ _ _ _ _ _ _ _ _ _ _ _ _ G)|done].
    + right. left. by apply Hs.
    + right. right. exists w. destruct (decide (v0 <= w < v)); [by rewrite Hz in Ho by done|].
      by rewrite (gr_ent _ _ _ _ _ _ _ _ _ _ _ _ _ G) by done.
  - intros [X|[X|(w & Hw & Ho & X)]]; [by left; left| |].
    + destruct (decide (a ∈ tables d tabs)); [by right; left|]. left. right. right. left. set_solver.
    + destruct (decide (v0 <= w < v)) as [D|D]; [left; right; right; right; by exists w|].
      right. right. exists w. by rewrite <- (gr_ent _ _ _ _ _ _ _ _ _ _ _ _ _ G w) by done.
Qed.

Lemma grown_built k0 l0 d k l tabs ent tabs' ent' v0 v l' k' : built k0 l0 d k l tabs ent -> 0 <= v0 -> v <= NUSER ->
  (forall w, v0 <= w < v -> ent w = 0) -> grown kend d tabs tabs' ent ent' v0 v [] l l' k k' ->
  built k0 l0 d k' l' tabs' ent'.
Proof.
  intros [O P U] H0 Hn Hz G. split.
  - apply G.
  - intros a. rewrite P. by apply (grown_in_as d tabs tabs' ent ent' v0 v l l' k k').
  - intros a Ha. rewrite <- U by done. apply (gr_mem _ _ _ _ _ _ _ _ _ _ _ _ _ G).
    + intros X. apply Ha, P. by left.
    + intros X. apply Ha, P. right. by left.
Qed.

(** [allocuvm], whatever the new size. *)
Lemma built_alloc k0 l0 d k l tabs ent sz newsz : built k0 l0 d k l tabs ent -> sized ent sz -> 0 <= newsz ->
  wp (allocuvm kend d sz newsz) (fun r k' => exists l' tabs' ent', built k0 l0 d k' l' tabs' ent' /\
    (r = 0 /\ (KERNBASE <= newsz \/ Z.of_nat (length l) < 2 * (pgs newsz - pgs sz)) \/
     sized ent' r /\ newsz <= r /\ (sz <= newsz -> r = newsz)) /\
    forall w, 0 <= w < pgs sz -> ent' w = ent w /\ page_at (mem k') (upage (ent w)) = page_at (mem k) (upage (ent w))) k.
Proof.
  intros B [Hs Hp Hz] Hn.
  destruct (decide (KERNBASE <= newsz)) as [L|L].
  { unfold allocuvm. rewrite (proj2 (Z.leb_le _ _)) by done. wp_step. exists l, tabs, ent. split; [done|]. split; [left; by split; [|left]|done]. }
  destruct (decide (newsz < sz)) as [L'|L'].
  { unfold allocuvm. rewrite (proj2 (Z.leb_gt _ _)), (proj2 (Z.ltb_lt _ _)) by lia. wp_step. exists l, tabs, ent.
    split; [done|]. split; [right; split; [by split|lia]|done]. }
  destruct (pgs_bounds newsz ltac:(lia)) as (A' & _). destruct (pgs_bounds sz ltac:(lia)) as (A & _).
  assert (Keep : forall tabs' ent' hi l' k', grown kend d tabs tabs' ent ent' (pgs sz) hi [] l l' k k' ->
    forall w, 0 <= w < pgs sz -> ent' w = ent w /\ page_at (mem k') (upage (ent w)) = page_at (mem k) (upage (ent w))).
  { intros tabs' ent' hi l' k' G w Hw. split; [apply (gr_ent _ _ _ _ _ _ _ _ _ _ _ _ _ G); lia|].
    destruct (uo_page _ _ _ _ _ _ (bu_ok _ _ _ _ _ _ _ B) w) as (_ & X & Y); [lia|by apply Hp|].
    by apply (gr_mem _ _ _ _ _ _ _ _ _ _ _ _ _ G). }
  assert (Hz' : forall w, pgs sz <= w < pgs newsz -> ent w = 0) by (intros w Hw; apply Hz; lia).
  eapply wp_mono; [apply (wp_allocuvm kend kend_high d tabs ent sz newsz l k); [apply B|lia|lia|done]|].
  intros r k' (tabs' & ent' & l' & [[-> G]|(-> & G & Hfew)]).
  - exists l', tabs', ent'. split; [by apply (grown_built k0 l0 d k l tabs ent tabs' ent' (pgs sz) (pgs newsz)); try lia|].
    split; [|by eapply Keep]. right. split; [|lia]. split; [lia| |].
    + intros w Hw. destruct (decide (pgs sz <= w)); [destruct (gr_new _ _ _ _ _ _ _ _ _ _ _ _ _ G w) as (X & Y & _); [lia|done]|].
      rewrite (gr_ent _ _ _ _ _ _ _ _ _ _ _ _ _ G) by lia. apply Hp. lia.
    + intros w Hw. assert (pgs sz <= pgs newsz) by (unfold pgs, PGSIZE in *; mlia).
      rewrite (gr_ent _ _ _ _ _ _ _ _ _ _ _ _ _ G) by lia. apply Hz. lia.
  - exists l', tabs', ent'. split; [|split; [left; by split; [|right]|by eapply Keep]].
    by apply (grown_built k0 l0 d k l tabs ent tabs' ent' (pgs sz) (pgs sz)); try lia.
Qed.

(** Writing a user page. *)
Lemma built_write k0 l0 d k l tabs ent v pg : built k0 l0 d k l tabs ent -> 0 <= v < NUSER -> Z.odd (ent v) = true ->
  is_page pg -> built k0 l0 d (set_mem (<[upage (ent v) := pg]> (mem k)) k) l tabs ent.
Proof.
  intros [O P U] Hv Ho Hg. split; [by apply uvm_write|done|]. intros a Ha. simpl.
  rewrite page_at_insert, decide_False; [by apply U|]. intros <-. apply Ha, P. right. right. by exists v.
Qed.

(** [freevm] gives everything back. *)
Lemma built_free k0 l0 d k l tabs ent : built k0 l0 d k l tabs ent ->
  wp (freevm kend d true) (fun _ k' => (exists l', kmem_rep k' l' /\ forall a, a ∈ l' <-> a ∈ l0) /\
    forall a, a ∉ l0 -> page_at (mem k') a = page_at (mem k0) a) k.
Proof.
  intros [O P U]. eapply wp_freevm; [done|exact O|]. intros k' l' R Hl Hm. split.
  - exists l'. split; [done|]. intros a. by rewrite Hl, P.
  - intros a Ha. rewrite Hm; [by apply U|]. intros X. apply Ha, P. by right.
Qed.

(** The guard page under the stack. *)
Lemma built_clearpteu k0 l0 d k l tabs ent v : built k0 l0 d k l tabs ent -> 0 <= v < NUSER -> Z.odd (ent v) = true ->
  PTE_FLAGS (ent v) = 7 ->
  wp (clearpteu d (PGSIZE * v)) (fun _ k' => exists e, built k0 l0 d k' l tabs (upd ent v e) /\ Z.odd e = true /\
    has e PTE_U = false /\ upage e = upage (ent v) /\
    forall a, a ∉ tables d tabs -> page_at (mem k') a = page_at (mem k) a) k.
Proof.
  intros [O P U] Hv Ho Hf. destruct (user_va v Hv) as (Hu & Ev & _). destruct (va_indices _ Hu) as (Hd & Hx & Ei). rewrite Ev in Ei.
  assert (V := uo_vm _ _ _ _ _ _ O). assert (T := vo_pt _ _ _ _ _ _ V).
  destruct (tabs !! PDX (PGSIZE * v)) as [t|] eqn:Et.
  2:{ assert (X := no_table _ _ _ _ _ _ T Hu Et). rewrite Ev in X. by rewrite X in Ho. }
  destruct (load_pte _ _ _ _ _ _ _ T Hu Et) as [El En]. rewrite Ev in El.
  destruct (uo_page _ _ _ _ _ _ O v Hv Ho) as (Ha & Hnt & Hnl).
  assert (Hadr : 0 <= PTE_ADDR (ent v) < 2 ^ 31).
  { destruct (alloc_facts _ _ Ha) as [_ B]. unfold upage, P2V, KERNBASE, PHYSTOP in B.
    assert (X := ld32_range (mem k) (pte_addr tabs (PGSIZE * v)) (kr_mem _ _ _ (vo_k _ _ _ _ _ _ V))). rewrite El in X.
    assert (Y := PTE_ADDR_eq (ent v)). assert (Z := Z.mod_pos_bound (ent v) PGSIZE ltac:(done)). rewrite PTE_FLAGS_eq in Hf. mlia. }
  unfold clearpteu. wp_step. eapply wp_intro; [by eapply walk_lookup|]. rewrite (proj2 (Z.eqb_neq _ 0)) by done.
  wp_step. unfold load. wp_step. rewrite El. unfold store. wp_step.
  replace (pte_addr tabs (PGSIZE * v)) with (t + 4 * PTX (PGSIZE * v)) by (unfold pte_addr; by rewrite Et).
  destruct (store_entry _ _ _ _ _ _ _ _ _ (Z.land (ent v) (Z.lnot PTE_U)) V Et Hx) as [V2 U2]. rewrite Ei in V2.
  rewrite (clear_user_bit _ Hf Hadr) in V2. set (e := PTE_ADDR (ent v) + 3) in *.
  assert (Am : PTE_ADDR (ent v) mod PGSIZE = 0) by (rewrite PTE_ADDR_eq; unfold PGSIZE; mlia).
  assert (Ee : PTE_ADDR e = PTE_ADDR (ent v)) by (rewrite (PTE_ADDR_eq e); unfold e, PGSIZE in *; mlia).
  assert (Ef : PTE_FLAGS e = 3) by (rewrite PTE_FLAGS_eq; unfold e, PGSIZE in *; mlia).
  assert (Eo : Z.odd e = true).
  { assert (X := Zmod_odd e). assert (Y : e mod 2 = 1) by (unfold e, PGSIZE in *; mlia). destruct (Z.odd e); [done|lia]. }
  assert (Up : upage e = upage (ent v)) by (unfold upage; by rewrite Ee).
  assert (Au : forall w, Z.odd (upd ent v e w) = Z.odd (ent w) /\ upage (upd ent v e w) = upage (ent w)).
  { intros w. unfold upd. case_decide; [subst; split; congruence|done]. }
  exists e. split_and!; [split|done| |done|exact U2].
  - split; [done|..].
    + intros w Hw. destruct (Au w) as [-> ->]. apply (uo_page _ _ _ _ _ _ O w Hw).
    + intros w x Hw Hx'. destruct (Au w) as [-> ->], (Au x) as [-> ->]. by apply (uo_inj _ _ _ _ _ _ O).
    + intros w Hw. unfold upd. case_decide; [congruence|]. by apply (uo_zero _ _ _ _ _ _ O).
  - intros a. rewrite P. unfold in_as. split; (intros [X|[X|(w & Hw & X)]]; [by left|by right; left|right; right; exists w]).
    + by destruct (Au w) as [-> ->].
    + by destruct (Au w) as [E1 E2]; rewrite <- E1, <- E2.
  - intros a Hna. rewrite <- U by done. apply U2. intros X. apply Hna, P. right. by left.
  - unfold has. rewrite (proj2 (Z.eqb_eq _ 0)); [done|]. change PTE_U with 4.
    replace (Z.land e 4) with (Z.land (Z.land e (Z.ones 12)) 4) by (by rewrite <- Z.land_assoc).
    change (Z.land e (Z.ones 12)) with (PTE_FLAGS e). by rewrite Ef.
Qed.

(** Writes to pages of the address space only. *)
Lemma built_frame k0 l0 d k l tabs ent k' : built k0 l0 d k l tabs ent -> uvm_ok k' l d tabs ent ->
  (forall a, ~ in_as d tabs ent a -> page_at (mem k') a = page_at (mem k) a) -> built k0 l0 d k' l tabs ent.
Proof.
  intros [O P U] O' H. split; [done|done|]. intros a Ha. rewrite H; [by apply U|]. intros X. apply Ha, P. by right.
Qed.

Section setup.
Context (data : Z) (data_aligned : data mod PGSIZE = 0) (data_range : KERNLINK < data <= KERNBASE + 4 * 1024 * 1024).

Lemma built_setupkvm k l : kmem_rep k l ->
  wp (setupkvm kend data) (fun d k' =>
    (d = 0 /\ (exists l', kmem_rep k' l' /\ forall a, a ∈ l' <-> a ∈ l) /\
       (forall a, a ∉ l -> page_at (mem k') a = page_at (mem k) a)) \/
    d ≠ 0 /\ exists l' tabs ent, built k l d k' l' tabs ent /\ sized ent 0) k.
Proof.
  intros R. eapply wp_mono; [by apply wp_setupkvm|]. intros d k' [Hm H]. destruct (Z.eqb_spec d 0) as [->|Hd].
  - left. destruct H as [H _]. done.
  - right. split; [done|]. destruct H as (tabs & l' & ent & O & [Hf _] & Hp & _). exists l', tabs, ent. split; [split|split].
    + done.
    + intros a. by rewrite Hp, fresh_in_as.
    + done.
    + unfold KERNBASE. lia.
    + change (pgs 0) with 0. lia.
    + intros w Hw. apply Hf. lia.
Qed.
End setup.
End space.

(** ** The arguments on the stack *)

Lemma align4 x : 0 <= x < 2 ^ 32 -> Z.land (u32 x) (Z.lnot 3) = x - x mod 4.
Proof. intros H. rewrite u32_id by done. exact (land_lnot_ones x 2 ltac:(lia)). Qed.

(** Where the strings go, from the stack pointer [sp] down. *)
Fixpoint arg_sps (sp : Z) (argv : list (list Z)) : list Z :=
  match argv with
  | [] => []
  | a :: argv' => let q := (sp - (strlen a + 1)) - (sp - (strlen a + 1)) mod 4 in q :: arg_sps q argv'
  end.

Definition arg_end (sp : Z) (argv : list (list Z)) : Z := default sp (last (arg_sps sp argv)).

Fixpoint arg_bytes (argv : list (list Z)) : Z :=
  match argv with [] => 0 | a :: argv' => strlen a + 4 + arg_bytes argv' end.

(** A string: bytes with a NUL among them. *)
Definition arg_ok (a : list Z) : Prop := Forall is_u8 a /\ strlen a < zlen a.

Lemma strlen_nonneg a : 0 <= strlen a.
Proof. rewrite strlen_cstr. apply zlen_nonneg. Qed.

Lemma arg_end_cons sp a argv :
  arg_end sp (a :: argv) = arg_end ((sp - (strlen a + 1)) - (sp - (strlen a + 1)) mod 4) argv.
Proof. unfold arg_end. cbn [arg_sps]. rewrite last_cons. by destruct (last (arg_sps _ argv)). Qed.

Lemma arg_end_range sp argv : sp - arg_bytes argv <= arg_end sp argv <= sp.
Proof.
  revert sp. induction argv as [|a argv IH]; intros sp; [unfold arg_end; simpl; lia|]. rewrite arg_end_cons. cbn [arg_bytes].
  assert (H := strlen_nonneg a). assert (X := IH ((sp - (strlen a + 1)) - (sp - (strlen a + 1)) mod 4)).
  assert (Y := Z.mod_pos_bound (sp - (strlen a + 1)) 4 ltac:(lia)). lia.
Qed.

Lemma arg_bytes_nonneg argv : 0 <= arg_bytes argv.
Proof. induction argv as [|a argv IH]; simpl; [lia|]. assert (H := strlen_nonneg a). lia. Qed.

Lemma length_arg_sps sp argv : length (arg_sps sp argv) = length argv.
Proof. revert sp. induction argv as [|a argv IH]; intros sp; simpl; [done|]. by rewrite IH. Qed.

Lemma arg_sps_range sp argv i q : arg_sps sp argv !! i = Some q -> sp - arg_bytes argv <= q < sp.
Proof.
  revert sp i. induction argv as [|a argv IH]; intros sp i H; [done|]. simpl in H. cbn [arg_bytes].
  assert (X := strlen_nonneg a). assert (Y := Z.mod_pos_bound (sp - (strlen a + 1)) 4 ltac:(lia)).
  assert (B := arg_bytes_nonneg argv).
  destruct i as [|i]; simpl in H; [injection H as <-; lia|]. apply IH in H. lia.
Qed.

Lemma arg_sps_inside sp argv i a q : argv !! i = Some a -> arg_sps sp argv !! i = Some q ->
  arg_end sp argv <= q /\ q + strlen a < sp.
Proof.
  revert sp i. induction argv as [|b argv IH]; intros sp i Ha Hq; [done|]. rewrite arg_end_cons. cbn [arg_sps] in Hq.
  set (x := _ - _ mod 4) in *. assert (X := strlen_nonneg b).
  assert (Y := Z.mod_pos_bound (sp - (strlen b + 1)) 4 ltac:(lia)). assert (R := arg_end_range x argv).
  destruct i as [|i]; cbn in Ha, Hq.
  - injection Ha as <-. injection Hq as <-. unfold x in *. lia.
  - destruct (IH _ _ Ha Hq). unfold x in *. lia.
Qed.

Section stack.
Context {S : Type} {BS : BlockStore S} {TX : TxOps S} (devsw : Z -> devsw_entry S).
Context (kend : Z) (kend_high : KERNLINK <= kend) (cur : nat).
Notation St := (@PSys (fsys S)).
Notation uvm_ok := (uvm_ok kend).

(** The strings of [argv] are in user memory at [qs]. *)
Definition strings_at (k : kmem) (ent : Z -> Z) (argv : list (list Z)) (qs : list Z) : Prop :=
  forall i a q, argv !! i = Some a -> qs !! i = Some q ->
    forall j, 0 <= j <= strlen a -> uread k ent (q + j) = rd 0 a j.

(** User memory outside [lo, hi) is as before, as is every page but [pg]. *)
Definition same_outside (ent : Z -> Z) (lo hi pg : Z) (k k' : kmem) : Prop :=
  (forall a, 0 <= a < KERNBASE -> Z.odd (ent (vpn a)) = true -> a < lo \/ hi <= a -> uread k' ent a = uread k ent a) /\
  forall a, a ≠ pg -> page_at (mem k') a = page_at (mem k) a.

(** [copyout] within one user page. *)
Lemma wp_copyout_page w k l d tabs ent v q p n : uvm_ok k l d tabs ent -> 0 <= v < NUSER -> user_ok (ent v) ->
  PGSIZE * v <= q -> q + n <= PGSIZE * (v + 1) -> 0 < n <= zlen p -> Forall is_u8 p ->
  wp (copyout w d q p n) (fun r k' => r = 0 /\ uvm_ok k' l d tabs ent /\ same_outside ent q (q + n) (upage (ent v)) k k' /\
    forall j, 0 <= j < n -> uread k' ent (q + j) = rd 0 p j) k.
Proof.
  intros O Hv Hu Hq Hn Hp Hb. rewrite NUSER_eq in Hv.
  assert (Hr : forall w, 0 < n -> in_range q n w -> w = v) by (unfold in_range, vpn, PGSIZE in *; intros; mlia).
  assert (Hk : q + n <= KERNBASE) by (unfold KERNBASE, PGSIZE in *; lia).
  eapply wp_mono; [apply (wp_copyout_from kend w (Z.to_nat n) k l d tabs ent q p n); try done; try lia|].
  { unfold PGSIZE in *. lia. }
  { intros x Hx H. by rewrite (Hr x Hx H). }
  intros r k' (-> & O' & E & U). split; [done|]. split; [done|]. split; [split|].
  - intros a Ha Ho Hout. rewrite E by done. rewrite decide_False by lia. done.
  - intros a Ha. apply U. intros x Hx. rewrite (Hr x ltac:(lia) Hx). congruence.
  - intros j Hj. rewrite E.
    + rewrite decide_True by lia. f_equal. lia.
    + unfold PGSIZE in *. lia.
    + replace (vpn (q + j)) with v by (unfold vpn, PGSIZE in *; mlia). apply Hu.
Qed.

Lemma same_outside_trans ent lo hi lo' hi' pg k1 k2 k3 : lo <= lo' -> hi' <= hi ->
  same_outside ent lo hi pg k1 k2 -> same_outside ent lo' hi' pg k2 k3 -> same_outside ent lo hi pg k1 k3.
Proof.
  intros Hl Hh [A1 B1] [A2 B2]. split.
  - intros a Ha Ho Hout. rewrite A2 by (done || lia). by apply A1.
  - intros a Ha. rewrite B2 by done. by apply B1.
Qed.

Lemma same_outside_weaken ent lo hi lo' hi' pg k1 k2 : lo' <= lo -> hi <= hi' ->
  same_outside ent lo hi pg k1 k2 -> same_outside ent lo' hi' pg k1 k2.
Proof. intros Hl Hh [A1 B1]. split; [|done]. intros a Ha Ho Hout. apply A1; (done || lia). Qed.

Lemma wp_km_st {A} (m : M kmem A) T ip np fs k f Q P : wp m P k ->
  (forall a k', P a k' -> Q a (St T ip np fs k' f)) -> wp (km_op m) Q (St T ip np fs k f).
Proof. intros W H. apply wp_zoom. simpl. eapply wp_mono; [exact W|]. intros a k' X. by apply H. Qed.

Lemma wp_push_args T ip np fs f l d tabs ent v argv : forall argc sp k,
  uvm_ok k l d tabs ent -> 0 <= v < NUSER -> user_ok (ent v) -> Forall arg_ok argv ->
  argc + zlen argv <= MAXARG -> sp <= PGSIZE * (v + 1) -> PGSIZE * v <= sp - arg_bytes argv ->
  wp (push_args cur d sp argc argv) (fun r s' => exists k', s' = St T ip np fs k' f /\
    r = Some (arg_end sp argv, arg_sps sp argv) /\ uvm_ok k' l d tabs ent /\
    same_outside ent (arg_end sp argv) sp (upage (ent v)) k k' /\ strings_at k' ent argv (arg_sps sp argv)) (St T ip np fs k f).
Proof.
  induction argv as [|a argv IH]; intros argc sp k O Hv Hu Ha Hc Hsp Hlo; cbn [push_args arg_sps].
  { wp_step. exists k. by split_and!. }
  assert (Hz : zlen (a :: argv) = zlen argv + 1) by (unfold zlen; simpl; lia). assert (Z0 := zlen_nonneg argv).
  rewrite (proj2 (Z.leb_gt _ _)) by lia. apply Forall_cons in Ha as [[Ha8 Ha0] Ha]. cbn [arg_bytes] in Hlo.
  assert (Hs := strlen_nonneg a). assert (Hb := arg_bytes_nonneg argv). rewrite NUSER_eq in Hv.
  rewrite align4 by (unfold PGSIZE in *; change (2 ^ 32) with 4294967296; lia). set (q := sp - (strlen a + 1) - _).
  assert (Hm := Z.mod_pos_bound (sp - (strlen a + 1)) 4 ltac:(lia)). fold q. rewrite arg_end_cons. fold q.
  assert (Re := arg_end_range q argv).
  wp_step. unfold word0 at 1. wp_step. wp_step. eapply wp_km_st.
  { apply (wp_copyout_page _ k l d tabs ent v q a (strlen a + 1)); try done; rewrite ?NUSER_eq; lia. }
  intros r k1 (-> & O1 & U1 & E1). simpl. wp_step.
  eapply wp_mono; [apply (IH (argc + 1) q k1 O1); try done; rewrite ?NUSER_eq; lia|].
  intros r s' (k' & -> & -> & O' & U' & S'). wp_step. exists k'. split_and!; try done.
  - eapply (same_outside_trans ent _ sp (arg_end q argv) q (upage (ent v)) k k1 k'); [lia|lia| |done].
    eapply same_outside_weaken; [| |exact U1]; lia.
  - intros [|i] b x Hi Hq j Hj; simpl in Hi, Hq.
    + injection Hi as <-. injection Hq as <-. destruct U' as [U' _]. rewrite U'; [apply E1; lia|unfold PGSIZE, KERNBASE in *; lia| |lia].
      replace (vpn (q + j)) with v by (unfold vpn, PGSIZE in *; mlia). apply Hu.
    + by eapply S'.
Qed.

(** ** The frame of [main] *)

Definition uword (k : kmem) (ent : Z -> Z) (a : Z) : Z := le_word (uread k ent <$> [a; a + 1; a + 2; a + 3]).

Definition frame_words (sp : Z) (argv : list (list Z)) (qs : list Z) : list Z :=
  [0xffffffff; zlen argv; sp + 12] ++ qs ++ [0].

(** At [sp]: a return address that faults, [argc], [argv], and the array of the
    argument pointers with a null pointer at its end. *)
Definition main_frame (k : kmem) (ent : Z -> Z) (sp : Z) (argv : list (list Z)) (qs : list Z) : Prop :=
  (forall i x, frame_words sp argv qs !! i = Some x -> uword k ent (sp + 4 * Z.of_nat i) = x) /\ strings_at k ent argv qs.

Lemma zlen_words us : zlen (mjoin (le_bytes 4 <$> us)) = 4 * zlen us.
Proof.
  unfold zlen. induction us as [|x us IH]; [done|]. rewrite fmap_cons. change (mjoin (?a :: ?l)) with (a ++ mjoin l).
  rewrite length_app, length_le_bytes, length_cons. lia.
Qed.

Lemma rd_words us i j x : us !! i = Some x -> 0 <= j < 4 ->
  rd 0 (mjoin (le_bytes 4 <$> us)) (4 * Z.of_nat i + j) = rd 0 (le_bytes 4 x) j.
Proof.
  revert i. induction us as [|y us IH]; intros i Hi Hj; [done|].
  rewrite fmap_cons. change (mjoin (?a :: ?l)) with (a ++ mjoin l). rewrite rd_app, zlen_le4.
  destruct i as [|i]; simpl in Hi.
  - injection Hi as ->. by rewrite decide_True by lia.
  - rewrite decide_False by lia. rewrite <- (IH i) by done. f_equal. lia.
Qed.

Lemma uword_written k ent sp us i x : (forall j, 0 <= j < 4 * zlen us -> uread k ent (sp + j) = rd 0 (mjoin (le_bytes 4 <$> us)) j) ->
  us !! i = Some x -> is_u32 x -> uword k ent (sp + 4 * Z.of_nat i) = x.
Proof.
  intros H Hi Hx. assert (Hl := lookup_lt_Some _ _ _ Hi). unfold uword. rewrite <- (le_word_bytes_u32 x) at 1 by done. f_equal.
  assert (E : forall j, 0 <= j < 4 -> uread k ent (sp + 4 * Z.of_nat i + j) = rd 0 (le_bytes 4 x) j).
  { intros j Hj. rewrite <- (rd_words us i j x) by done. rewrite <- H by (unfold zlen; lia). f_equal. lia. }
  rewrite (rd_ext 0 (le_bytes 4 x) (uread k ent <$> [sp + 4 * Z.of_nat i; sp + 4 * Z.of_nat i + 1; sp + 4 * Z.of_nat i + 2; sp + 4 * Z.of_nat i + 3])); [done|done|].
  intros j Hj. rewrite zlen_le4 in Hj. rewrite <- E by done.
  assert (C : j = 0 \/ j = 1 \/ j = 2 \/ j = 3) by lia.
  destruct C as [->|[->|[->| ->]]]; rewrite ?Z.add_0_r; done.
Qed.

Definition frame_room (argv : list (list Z)) : Prop :=
  Forall arg_ok argv /\ zlen argv <= MAXARG /\ arg_bytes argv + 4 * (zlen argv + 4) <= PGSIZE.

(** The stack pointer of [main], on a stack that ends at [top]. *)
Definition frame_sp (top : Z) (argv : list (list Z)) : Z := arg_end top argv - 4 * (zlen argv + 4).

(** The frame is in one page. *)
Lemma main_frame_page k k' ent v argv : let top := PGSIZE * (v + 1) in frame_room argv ->
  page_at (mem k') (upage (ent v)) = page_at (mem k) (upage (ent v)) ->
  main_frame k ent (frame_sp top argv) argv (arg_sps top argv) -> main_frame k' ent (frame_sp top argv) argv (arg_sps top argv).
Proof using Type.
  clear. intros top (_ & _ & Hr) E [F1 F2]. assert (Re := arg_end_range top argv). assert (Hn := zlen_nonneg argv).
  assert (U : forall a, PGSIZE * v <= a < top -> uread k' ent a = uread k ent a).
  { intros a Ha. unfold uread. replace (vpn a) with v by (unfold vpn, top, PGSIZE in *; mlia). by rewrite E. }
  split.
  - intros i x Hi. rewrite <- (F1 i x Hi). assert (Li := lookup_lt_Some _ _ _ Hi).
    assert (Lf : zlen (frame_words (frame_sp top argv) argv (arg_sps top argv)) = zlen argv + 4).
    { unfold frame_words, zlen. rewrite !length_app, length_arg_sps. simpl. lia. }
    assert (Hi' : Z.of_nat i < zlen argv + 4) by (unfold zlen in *; lia). clear Lf Li Hi.
    unfold uword. f_equal. unfold frame_sp, top in *. cbn [fmap list_fmap].
    rewrite !U by (unfold PGSIZE in *; lia). done.
  - intros i a q Hi Hq j Hj. rewrite <- (F2 i a q Hi Hq j Hj). destruct (arg_sps_inside _ _ _ _ _ Hi Hq). apply U.
    unfold top, PGSIZE in *. lia.
Qed.

(** [exec_stack] after its [allocuvm] and [clearpteu]: the page [v] is the
    stack, and ends at [top]. *)
Lemma wp_push_frame T ip np fs f l d tabs ent v argv k : let top := PGSIZE * (v + 1) in
  uvm_ok k l d tabs ent -> 0 <= v < NUSER -> user_ok (ent v) -> frame_room argv ->
  wp (q ← push_args cur d top 0 argv;
      match q with
      | None => mret None
      | Some (sp, l) =>
          let argc := zlen argv in
          let ustack := [0xffffffff; argc; u32 (sp - (argc + 1) * 4)] ++ l ++ [0] in
          let sp := u32 (sp - (3 + argc + 1) * 4) in
          w ← word0 cur;
          r ← km_op (copyout w d sp (mjoin (le_bytes 4 <$> ustack)) ((3 + argc + 1) * 4));
          mret (if r <? 0 then None else Some (top, sp))
      end) (fun r s' => exists k', s' = St T ip np fs k' f /\ r = Some (top, frame_sp top argv) /\ uvm_ok k' l d tabs ent /\
        main_frame k' ent (frame_sp top argv) argv (arg_sps top argv) /\ same_outside ent (PGSIZE * v) top (upage (ent v)) k k') (St T ip np fs k f).
Proof.
  intros top O Hv Hu (Ha & Hc & Hroom). assert (Hv' := Hv). rewrite NUSER_eq in Hv'.
  assert (Hn := zlen_nonneg argv). assert (Hb := arg_bytes_nonneg argv). assert (Re := arg_end_range top argv).
  wp_step. eapply wp_mono; [apply (wp_push_args T ip np fs f l d tabs ent v argv 0 top k); try done; unfold top, PGSIZE in *; lia|].
  intros r s1 (k1 & -> & -> & O1 & U1 & S1). set (e := arg_end top argv) in *. cbv zeta beta iota.
  assert (Hm : MAXARG = 32) by done. assert (He : PGSIZE * v + 4 * (zlen argv + 4) <= e) by (unfold top, PGSIZE in *; lia).
  assert (Hk : 0 <= e <= KERNBASE) by (unfold top, KERNBASE, PGSIZE in *; lia).
  assert (Esp : u32 (e - (3 + zlen argv + 1) * 4) = e - 4 * (zlen argv + 4)) by (rewrite u32_id; unfold is_u32; [lia|unfold KERNBASE, PGSIZE in *; mlia]).
  rewrite Esp. change (frame_sp top argv) with (e - 4 * (zlen argv + 4)). set (sp := e - 4 * (zlen argv + 4)) in *.
  assert (Eap : u32 (e - (zlen argv + 1) * 4) = sp + 12) by (rewrite u32_id; unfold is_u32, sp; [lia|unfold KERNBASE, PGSIZE in *; mlia]).
  rewrite Eap. change ([4294967295; zlen argv; sp + 12] ++ arg_sps top argv ++ [0]) with (frame_words sp argv (arg_sps top argv)).
  set (us := frame_words sp argv (arg_sps top argv)).
  assert (Lu : zlen us = zlen argv + 4).
  { unfold us, frame_words, zlen. rewrite !length_app, length_arg_sps. simpl. lia. }
  replace ((3 + zlen argv + 1) * 4) with (4 * zlen us) by lia.
  wp_step. unfold word0. wp_step. wp_step. eapply wp_km_st.
  { apply (wp_copyout_page _ k1 l d tabs ent v sp _ (4 * zlen us)); try done; rewrite ?zlen_words; unfold top, sp in *; try lia.
    apply Forall_join, Forall_fmap, Forall_forall. intros x _. apply le_bytes_u8. }
  intros r k2 (-> & O2 & U2 & E2). simpl. wp_step. exists k2. split_and!; try done.
  - split.
    + intros i x Hi. eapply uword_written; [|exact Hi|]; [intros j Hj; by apply E2|].
      apply list_elem_of_lookup_2 in Hi. unfold us, frame_words in Hi. rewrite !elem_of_app, !elem_of_cons, elem_of_nil in Hi.
      unfold is_u32. destruct Hi as [[->|[->|[->|[]]]]|[Hi|[->|[]]]]; try (unfold sp, KERNBASE, PGSIZE in *; mlia).
      apply list_elem_of_lookup_1 in Hi as [j Hi]. apply arg_sps_range in Hi. unfold top, KERNBASE, PGSIZE in *. mlia.
    + intros i a q Hi Hq j Hj. destruct U2 as [U2 _]. assert (Hq' := arg_sps_range _ _ _ _ Hq).
      destruct (arg_sps_inside _ _ _ _ _ Hi Hq).
      rewrite U2; [by eapply S1|unfold top, KERNBASE, PGSIZE in *; lia| |unfold sp; lia].
      replace (vpn (q + j)) with v by (unfold vpn, top, PGSIZE in *; mlia). apply Hu.
  - eapply (same_outside_trans ent _ _ sp e _ k k1 k2); [unfold sp; lia|lia| |].
    + eapply same_outside_weaken; [| |exact U1]; lia.
    + eapply same_outside_weaken; [| |exact U2]; unfold sp; lia.
Qed.

(** [exec_stack] adds a guard page and a stack page and lays out the frame. *)
Lemma wp_exec_stack T ip np fs f k0 l0 d k l tabs ent sz argv : built kend k0 l0 d k l tabs ent -> sized ent sz -> frame_room argv ->
  wp (exec_stack kend cur d sz argv) (fun r s' => exists k' l' tabs' ent', s' = St T ip np fs k' f /\
    built kend k0 l0 d k' l' tabs' ent' /\
    match r with
    | None => KERNBASE <= PGSIZE * pgs sz + 2 * PGSIZE \/ Z.of_nat (length l) < 4
    | Some (sz', sp) => sz' = PGSIZE * pgs sz + 2 * PGSIZE /\ sz' <= KERNBASE /\ sp = frame_sp sz' argv /\
        main_frame k' ent' sp argv (arg_sps sz' argv) /\ user_ok (ent' (pgs sz + 1)) /\ has (ent' (pgs sz)) PTE_U = false /\
        forall w, 0 <= w < pgs sz -> ent' w = ent w /\ page_at (mem k') (upage (ent w)) = page_at (mem k) (upage (ent w))
    end) (St T ip np fs k f).
Proof.
  intros B Si Hroom. destruct (pgs_bounds sz (si_range _ _ Si)) as (Hp & _ & Eu & _). unfold exec_stack. rewrite Eu.
  set (p := pgs sz) in *. rewrite NUSER_eq in Hp.
  assert (Ep : pgs (PGSIZE * p) = p) by (unfold pgs, PGSIZE; mlia).
  assert (Si' : sized ent (PGSIZE * p)).
  { destruct Si as [A B' C]. split; rewrite ?Ep; [unfold KERNBASE, PGSIZE; lia|done|done]. }
  assert (E2 : u32 (PGSIZE * p + 2 * PGSIZE) = PGSIZE * p + 2 * PGSIZE) by (apply u32_id; unfold PGSIZE; mlia). rewrite E2.
  assert (Epn : pgs (PGSIZE * p + 2 * PGSIZE) = p + 2) by (unfold pgs, PGSIZE; mlia).
  wp_step. eapply wp_km_st; [by apply (built_alloc kend kend_high k0 l0 d k l tabs ent (PGSIZE * p)); [..|unfold PGSIZE; lia]|].
  rewrite Epn, Ep. intros r k1 (l1 & tabs1 & ent1 & B1 & [[-> Hfew]|(Si1 & _ & Er)] & Keep).
  { simpl. wp_step. exists k1, l1, tabs1, ent1. split; [done|]. split; [done|]. destruct Hfew; [by left|right; lia]. }
  rewrite Er in * by (unfold PGSIZE; lia). destruct Si1 as [R1 P1 N1]. rewrite Epn in P1, N1.
  rewrite (proj2 (Z.eqb_neq _ 0)) by (unfold PGSIZE; lia).
  assert (Hk2 : p + 2 <= NUSER) by (rewrite NUSER_eq; unfold KERNBASE, PGSIZE in R1; lia). assert (HN := NUSER_eq).
  replace (u32 (PGSIZE * p + 2 * PGSIZE - 2 * PGSIZE)) with (PGSIZE * p) by (rewrite u32_id; [lia|unfold PGSIZE; mlia]).
  destruct (P1 p) as [Po Pf]; [lia|]. destruct (P1 (p + 1)) as [So Sf]; [lia|].
  wp_step. eapply wp_km_st; [apply (built_clearpteu kend k0 l0 d k1 l1 tabs1 ent1 p B1); try done; lia|].
  intros _ k2 (e & B2 & Eo & Eh & Eu2 & U2). set (ent2 := upd ent1 p e) in *.
  assert (Hs : ent2 (p + 1) = ent1 (p + 1)) by (apply upd_ne; lia).
  assert (Hu : user_ok (ent2 (p + 1))).
  { rewrite Hs. split; [done|]. rewrite has_flags by done. by rewrite Sf. }
  replace (PGSIZE * p + 2 * PGSIZE) with (PGSIZE * (p + 1 + 1)) by (unfold PGSIZE; lia).
  eapply wp_mono; [apply (wp_push_frame T ip np fs f l1 d tabs1 ent2 (p + 1) argv k2); [apply B2|lia|done|done]|].
  intros r2 s' (k3 & -> & -> & O3 & F3 & [_ U3]). exists k3, l1, tabs1, ent2. split; [done|].
  assert (Hst : in_as d tabs1 ent2 (upage (ent2 (p + 1)))) by (right; exists (p + 1); split; [lia|split; [apply Hu|done]]).
  split; [apply (built_frame kend k0 l0 d k2 l1 tabs1 ent2 k3 B2 O3); intros a Ha; apply U3; by intros ->|].
  split_and!; try done.
  all: try (unfold p, KERNBASE, PGSIZE; lia). all: try (unfold ent2; by rewrite upd_eq).
  intros w Hw. destruct (Keep w Hw) as [K1 K2]. assert (Ew : ent2 w = ent1 w) by (apply upd_ne; lia).
  split; [congruence|]. rewrite <- K2, <- K1. rewrite U3, U2; [done| |].
  - apply (uo_page _ _ _ _ _ _ (bu_ok _ _ _ _ _ _ _ _ B1) w); [lia|apply P1; lia].
  - intros X. assert (w = p + 1); [|lia].
    apply (uo_inj _ _ _ _ _ _ (bu_ok _ _ _ _ _ _ _ _ B2)); [lia|lia| |apply Hu|congruence]. rewrite Ew. apply P1. lia.
Qed.
End stack.
