(* ===== verification/ExecSpec.v ===== *)
(** * [exec] and the memory of the machine

    A program is loaded into an address space of its own, and the one of the
    process is given up only when nothing can go wrong any more: [exec] that
    fails leaves the process and its memory as they were, and frees the pages
    it had taken; [exec] that succeeds frees exactly the old address space. *)

From S2P Require Import Prelude Param Layout Cstring SleepLock Bio Log LogCrash BlockStore LogStore Fs FsDemo Mmu Kalloc Vm PageTable UserMemory AddressSpace VmSpec Pipe FileOps Proc ProcTable ProcMemory ProcSpec File UserAccess Sysfile Exec ExecMemory.

Section file.
Context {S : Type} {BS : BlockStore S} {TX : TxOps S} (devsw : Z -> devsw_entry S).

(** What a driver promises: it copies no more than it is asked for. *)
Definition reads_bounded : Prop := forall m f ip n s r s', dev_read (devsw m) = Some f -> 0 <= n -> f ip n s = Ret r s' -> zlen r.2 <= n.

(** ** [readi] does not overrun its buffer *)

Lemma lp_readi_loop fuel ip : forall off tot n s, 0 <= off -> tot <= n ->
  lp (readi_loop fuel ip off tot n) (fun bs _ => zlen bs <= n - tot) s.
Proof.
  induction fuel as [|fuel IH]; intros off tot n s Ho Ht; cbn [readi_loop]; case_eq (tot <? n); intros Hb; bool_prop.
  - by intros ? ? ?.
  - lp_step. unfold zlen; simpl; lia.
  - lp_step. lp_step. lp_step. intros a s1 _. lp_step. intros bp s2 _. lp_step. intros d s3 _. lp_step. intros [] s4 _.
    assert (Hm : off mod BSIZE < BSIZE /\ 0 <= off mod BSIZE) by (unfold BSIZE; mlia).
    set (m := Z.min (n - tot) (BSIZE - off mod BSIZE)). assert (0 < m <= n - tot) by lia.
    lp_step. eapply lp_mono; [apply IH; lia|]. intros rest s5 Hr. lp_step.
    unfold zlen, slice in *. rewrite length_app, length_take. lia.
  - lp_step. unfold zlen; simpl; lia.
Qed.

Lemma lp_readi ip off n s : reads_bounded -> 0 <= off -> 0 <= n -> lp (readi devsw ip off n) (fun r _ => zlen r.2 <= n) s.
Proof.
  intros D Ho Hn. unfold readi. lp_step. lp_step. destruct (_ =? T_DEV).
  { destruct (_ || _); [by lp_step|]. destruct (dev_read _) as [f|] eqn:E; [|by lp_step]. intros r s' Hr. by eapply D. }
  destruct (_ || _) eqn:Eg; [by lp_step|]. bool_prop. assert (u32 (off + n) <= off + n) by mlia.
  lp_step. eapply lp_mono.
  - apply lp_readi_loop; [done|]. destruct (_ <? u32 _) eqn:E; bool_prop; lia.
  - intros bs s' Hb. lp_step. simpl. destruct (_ <? u32 _) eqn:E; bool_prop; lia.
Qed.
End file.

(** ** Moves of pages *)

Section moves.
Context (kend : Z) (kend_high : KERNLINK <= kend).
Notation mem_inv := (mem_inv kend).

(** Everything taken from the free list [l] is there again. *)
Definition given_back (k : kmem) (l : list Z) (k' : kmem) : Prop :=
  (exists l', kmem_rep kend k' l' /\ forall a, a ∈ l' <-> a ∈ l) /\ forall a, a ∉ l -> page_at (mem k') a = page_at (mem k) a.

Lemma given_back_refl k l : kmem_rep kend k l -> given_back k l k.
Proof. intros R. split; [by exists l|done]. Qed.

Lemma mem_inv_back T k oth l A k' : mem_inv T k oth l A -> given_back k l k' ->
  exists l', mem_inv T k' oth l' A /\ forall a, a ∈ l' <-> a ∈ l.
Proof.
  intros [M1 M2 M3 Mh M4 M5] [(l' & R & E) U]. exists l'. split; [|done]. split; try done.
  - intros i p Hi Hu. eapply proc_mem_frame; [by apply M2|done|]. intros a O.
    assert (N := owned_not_free _ _ _ _ _ _ (M2 i p Hi Hu) O). split; [by rewrite E|by apply U].
  - intros a Ha. rewrite E. by apply M4.
  - intros a Ha. rewrite E. by apply M5.
Qed.

(** The process [cur] moves to the address space built next to its own. *)
Lemma exec_commit T k oth l A cur c c' d B k1 l1 k2 : mem_inv T k oth l A -> T !! cur = Some c -> used c -> p_state c ≠ ZOMBIE ->
  built kend k l d k1 l1 B.1 B.2 -> kmem_rep kend k2 l1 ->
  (forall a, a ≠ p_kstack c -> page_at (mem k2) a = page_at (mem k1) a) ->
  p_pgdir c' = d -> p_kstack c' = p_kstack c -> p_tf c' = p_tf c -> p_state c' = p_state c ->
  wp (freevm kend (p_pgdir c) true) (fun _ k3 => exists l3, mem_inv (<[cur := c']> T) k3 oth l3 (upd_space A cur B) /\
    forall a, a ∉ l1 -> ~ in_as (p_pgdir c) (A cur).1 (A cur).2 a -> page_at (mem k3) a = page_at (mem k2) a) k2.
Proof.
  intros M Hc Hu Hz [O P U] R2 E2 Ed Ek Et Es. subst d.
  assert (M0 := mi_proc _ _ _ _ _ _ M cur c Hc Hu). destruct M0 as [Oo So Sf Sa St _].
  assert (Hsub : forall a, a ∈ l1 -> a ∈ l) by (intros a Ha; apply P; by left).
  assert (Hnew : forall a, in_as (p_pgdir c') B.1 B.2 a -> a ∈ l) by (intros a Ha; apply P; by right).
  assert (Hold : forall a, in_as (p_pgdir c) (A cur).1 (A cur).2 a -> a ∉ l) by (intros a; by eapply owned_in_as).
  assert (Hk : ~ in_as (p_pgdir c') B.1 B.2 (p_kstack c)) by (intros X; by apply Sf, Hnew).
  eapply wp_freevm; [done|eapply uvm_frame; [exact Oo|exact R2|]|].
  { intros a Ha. split; [intros X; by apply (Hold a Ha), Hsub|]. rewrite E2 by (by intros ->). apply U. by apply Hold. }
  intros k3 l3 R3 E3 U3. exists l3. split; [|intros a _; by apply U3].
  assert (Us : used c') by (unfold used; by rewrite Es).
  eapply mem_inv_slot; [exact M|exact Hc|exact R3| | |].
  - intros _. split; rewrite ?Ek, ?Et, ?Es; try done; [|rewrite E3; intros [X|X]; [by apply Sf, Hsub|done]].
    eapply uvm_frame; [exact O|done|]. intros a Ha. assert (Hn := Hnew a Ha). assert (No := owned_in_as _ _ _ _ _ _ a O Ha).
    assert (Nc : ~ in_as (p_pgdir c) (A cur).1 (A cur).2 a) by (intros X; by apply (Hold a X)).
    split; [rewrite E3; tauto|]. rewrite U3, E2; [done|by intros ->|done].
  - intros a. unfold mine, owns. rewrite Ek, E3, P. tauto.
  - intros a Ha Hm. unfold mine, owns in Hm. rewrite U3, E2; [by apply U|intros ->; tauto|tauto].
Qed.
End moves.

Section load.
Context {S : Type} {BS : BlockStore S} {TX : TxOps S} (devsw : Z -> devsw_entry S).
Context (kend : Z) (kend_high : KERNLINK <= kend) (cur : nat) (dev_ok : reads_bounded devsw).
Context (T : list proc) (ip0 : option nat) (np : Z) (fs : bool).
Notation St := (@PSys (fsys S) T ip0 np fs).

Lemma lp_km_st {A} (m : M kmem A) k f Q P : wp m P k ->
  (forall a k', P a k' -> Q a (St k' f)) -> lp (km_op m) Q (St k f).
Proof. intros W H. apply lp_zoom. apply wp_lp. simpl. eapply wp_mono; [exact W|]. intros a k' X. by apply H. Qed.

Lemma lp_km_ret {A} (m : M kmem A) a k k' f Q : m k = Ret a k' -> Q a (St k' f) -> lp (km_op m) Q (St k f).
Proof. intros E H. apply lp_zoom. simpl. intros b k2. rewrite E. by intros [= <- <-]. Qed.

(** A call of the file system does not touch the pages of the pipes. *)
Lemma lp_fs_st {A} (m : M (fstate S) A) P k f Q : lp m (fun a _ => P a) (fss f) ->
  (forall a f', P a -> pipes f' = pipes f -> Q a (St k f')) -> lp (fs_call m) Q (St k f).
Proof.
  intros W H. apply lp_zoom, lp_zoom. simpl. intros a x E. apply H; [by eapply W|done].
Qed.

(** ** Reading a segment into its pages *)

Lemma lp_loaduvm_from k0 l0 d addr ip offset sz size l tabs ent fuel : forall i k f, built kend k0 l0 d k l tabs ent ->
  sized ent size -> addr mod PGSIZE = 0 -> i mod PGSIZE = 0 -> 0 <= addr -> 0 <= i -> addr + sz <= size ->
  lp (loaduvm_from devsw fuel d addr ip offset i sz) (fun _ s' => exists k' f', s' = St k' f' /\ pipes f' = pipes f /\
    built kend k0 l0 d k' l tabs ent) (St k f).
Proof.
  induction fuel as [|fuel IH]; intros i k f B Si Ha Hi H0 Hi0 Hs; cbn [loaduvm_from]; destruct (i <? sz) eqn:Ei; bool_prop.
  - by intros ? ? ?.
  - lp_step. by exists k, f.
  - assert (K := si_range _ _ Si). unfold KERNBASE in K.
    assert (Hu : u32 (addr + i) = addr + i) by (apply u32_id; mlia). rewrite Hu. set (v := (addr + i) / PGSIZE).
    assert (Ev : addr + i = PGSIZE * v) by (unfold v, PGSIZE in *; mlia).
    destruct (pgs_bounds size (si_range _ _ Si)) as (Hp & Hp' & _).
    assert (Hv : 0 <= v < pgs size) by (unfold PGSIZE in *; lia).
    destruct (si_page _ _ Si v Hv) as [Ho _]. rewrite Ev.
    destruct (user_va v ltac:(lia)) as (Hw & Evp & _).
    assert (P := vo_pt _ _ _ _ _ _ (uo_vm _ _ _ _ _ _ (bu_ok _ _ _ _ _ _ _ _ B))).
    lp_step. eapply lp_km_ret; [by eapply walk_lookup|].
    destruct (tabs !! PDX (PGSIZE * v)) as [t|] eqn:Et.
    2:{ assert (X := no_table _ _ _ _ _ _ P Hw Et). rewrite Evp in X. by rewrite X in Ho. }
    destruct (load_pte _ _ _ _ _ _ _ P Hw Et) as [El En]. rewrite Evp in El. rewrite (proj2 (Z.eqb_neq _ 0)) by done.
    lp_step. eapply lp_km_ret; [reflexivity|]. rewrite El.
    set (n := if sz - i <? PGSIZE then sz - i else PGSIZE).
    assert (Hn : 0 <= n <= PGSIZE) by (unfold n; destruct (_ <? _) eqn:E; bool_prop; unfold PGSIZE in *; lia).
    lp_step. eapply lp_fs_st; [apply lp_readi; [done|mlia|lia]|]. intros r f1 Hr Hf1. lp_step.
    eapply lp_km_ret; [reflexivity|].
    assert (B1 : built kend k0 l0 d (set_mem (<[upage (ent v) := blit (page_at (mem k) (upage (ent v))) 0 (u8 <$> r.2)]> (mem k)) k) l tabs ent).
    { apply built_write; [done|lia|done|]. apply blit_page; [apply page_at_ok|lia| |].
      - apply (kr_mem _ _ _ (vo_k _ _ _ _ _ _ (uo_vm _ _ _ _ _ _ (bu_ok _ _ _ _ _ _ _ _ B)))).
      - unfold zlen in *. rewrite length_fmap. lia.
      - apply Forall_fmap, Forall_true. intros x. unfold is_u8. simpl. mlia. }
    destruct (negb _); [lp_step; by eexists _, f1|].
    eapply lp_mono; [apply (IH (i + PGSIZE)); [exact B1|done|done|unfold PGSIZE in *; mlia|lia|unfold PGSIZE; lia|lia]|].
    intros x s' (k2 & f2 & -> & F2 & B2). exists k2, f2. by rewrite F2.
  - lp_step. by exists k, f.
Qed.

(** The pages of the new address space, and its size unless the loop went to
    [bad]. *)
Definition loaded (k0 : kmem) (l0 : list Z) (d : Z) (f : fsys S) (r : option Z) (s' : psys (fsys S)) : Prop :=
  exists k' l' tabs' ent' f', s' = St k' f' /\ pipes f' = pipes f /\ built kend k0 l0 d k' l' tabs' ent' /\
    match r with Some sz => sized ent' sz | None => True end.

Lemma bytes_u8 (l : list Z) : Forall is_u8 (u8 <$> l).
Proof. apply Forall_fmap, Forall_true. intros x. unfold is_u8. simpl. mlia. Qed.

Lemma lp_load_segments k0 l0 d ip n : forall off sz k l tabs ent f, built kend k0 l0 d k l tabs ent -> sized ent sz ->
  lp (load_segments devsw kend n d ip off sz) (loaded k0 l0 d f) (St k f).
Proof.
  induction n as [|n IH]; intros off sz k l tabs ent f B Si; cbn [load_segments].
  { lp_step. by exists k, l, tabs, ent, f. }
  lp_step. eapply lp_fs_st; [by apply lp_readi; [|mlia|]|]. intros r f1 _ Hf1.
  destruct (negb _); [lp_step; by exists k, l, tabs, ent, f1|]. set (ph := read_proghdr _).
  assert (Hph : is_u32 (ph_vaddr ph) /\ is_u32 (ph_memsz ph) /\ is_u32 (ph_filesz ph)) by (split_and!; apply get32_word, bytes_u8).
  clearbody ph. destruct Hph as (Hva & Hms & Hfs).
  destruct (_ || _).
  { eapply lp_mono; [by eapply IH|]. intros x s'. unfold loaded. by rewrite Hf1. }
  destruct (_ <? ph_filesz ph) eqn:E1; [lp_step; by exists k, l, tabs, ent, f1|].
  destruct (_ <? ph_vaddr ph) eqn:E2; [lp_step; by exists k, l, tabs, ent, f1|]. bool_prop.
  assert (Ev : u32 (ph_vaddr ph + ph_memsz ph) = ph_vaddr ph + ph_memsz ph) by mlia. rewrite Ev.
  lp_step. eapply lp_km_st; [apply (built_alloc kend kend_high k0 l0 d k l tabs ent); [done|done|mlia]|].
  intros sz' k1 (l1 & tabs1 & ent1 & B1 & Hsz & _).
  destruct (sz' =? 0) eqn:E3; [lp_step; by exists k1, l1, tabs1, ent1, f1|]. bool_prop.
  destruct Hsz as [[? _]|(Si1 & Hle & _)]; [done|].
  destruct (negb _) eqn:E4; [lp_step; by exists k1, l1, tabs1, ent1, f1|]. bool_prop.
  lp_step. unfold loaduvm. rewrite (proj2 (Z.eqb_eq _ _) E4). simpl negb. cbv iota.
  eapply lp_mono; [apply (lp_loaduvm_from k0 l0 d (ph_vaddr ph) ip _ _ sz' l1 tabs1 ent1); try done; mlia|].
  intros x s' (k2 & f2 & -> & F2 & B2). destruct (_ <? 0); [lp_step; exists k2, l1, tabs1, ent1, f2; split_and!; [done|congruence|done|done]|].
  eapply lp_mono; [by eapply IH|]. intros y s'. unfold loaded. by rewrite F2, Hf1.
Qed.

(** The new image, as far as [exec_image] got: [None] went to [bad]. *)
Definition imaged (k : kmem) (l : list Z) (f : fsys S) (r : Z * option (Z * Z)) (s' : psys (fsys S)) : Prop :=
  exists k' f', s' = St k' f' /\ pipes f' = pipes f /\
    match r with
    | (d, None) => d = 0 /\ given_back kend k l k' \/ d ≠ 0 /\ exists l' tabs ent, built kend k l d k' l' tabs ent
    | (d, Some (sz, entry)) => is_u32 entry /\ exists l' tabs ent, built kend k l d k' l' tabs ent /\ sized ent sz
    end.

Lemma lp_exec_image data ip k l f : data mod PGSIZE = 0 -> KERNLINK < data <= KERNBASE + 4 * 1024 * 1024 -> kmem_rep kend k l ->
  lp (exec_image devsw kend data ip) (imaged k l f) (St k f).
Proof.
  intros D1 D2 R. unfold exec_image. lp_step. eapply lp_fs_st; [by apply lp_readi|]. intros r f1 _ Hf1.
  assert (Back : forall k' f', given_back kend k l k' -> pipes f' = pipes f1 -> imaged k l f (0, None) (St k' f')).
  { intros k' f' G E. exists k', f'. split; [done|]. split; [congruence|]. by left. }
  destruct (negb _); [lp_step; by apply Back; [apply given_back_refl|]|].
  destruct (negb _); [lp_step; by apply Back; [apply given_back_refl|]|].
  lp_step. eapply lp_km_st; [by apply built_setupkvm|]. intros d k1 [(-> & G)|(Hd & l1 & tabs & ent & B & Si)]; [simpl; lp_step; by apply Back|].
  rewrite (proj2 (Z.eqb_neq _ 0)) by done. lp_step. eapply lp_mono; [by eapply lp_load_segments|].
  intros sz s' (k2 & l2 & tabs2 & ent2 & f2 & -> & F2 & B2 & Si2). lp_step. exists k2, f2. split; [done|]. split; [congruence|].
  destruct sz as [sz|]; simpl; [split; [apply get32_word, bytes_u8|eauto]|right; eauto].
Qed.
End load.

Section exec.
Context {S : Type} {BS : BlockStore S} {TX : TxOps S} (devsw : Z -> devsw_entry S).
Context (kend : Z) (kend_high : KERNLINK <= kend).
Notation St := (@PSys (fsys S)).

(** What the process runs next: [main] of the new program with its arguments,
    on a stack page above an inaccessible one. *)
Record started (k : kmem) (c : proc) (B : space) (argv : list (list Z)) (entry : Z) : Prop := {
  sd_eip : ld32 (mem k) (p_tf c + tf_eip) = entry;
  sd_esp : ld32 (mem k) (p_tf c + tf_esp) = frame_sp (p_sz c) argv;
  sd_frame : main_frame k B.2 (frame_sp (p_sz c) argv) argv (arg_sps (p_sz c) argv);
  sd_size : p_sz c mod PGSIZE = 0 /\ 2 * PGSIZE <= p_sz c <= KERNBASE;
  sd_stack : user_ok (B.2 (vpn (p_sz c) - 1));
  sd_guard : has (B.2 (vpn (p_sz c) - 2)) PTE_U = false
}.

(** Writing a field of the trap frame, on the kernel stack. *)
Lemma wp_tf_store T ip np fs k f l cur c ks off v : T !! cur = Some c -> kmem_rep kend k l -> allocatable kend ks -> ks ∉ l ->
  p_tf c = ks + 4020 -> 0 <= off <= 72 ->
  wp (tf_store cur off v) (fun _ s' => exists k', s' = St T ip np fs k' f /\
    wrote kend ks (put32 (page_at (mem k) ks) (4020 + off) v) l k k') (St T ip np fs k f).
Proof.
  intros Hc R Ha Hn Ht Ho. unfold tf_store, pget. wp_step. wp_step.
  replace (proc_at _ cur) with c by (unfold proc_at; simpl; by rewrite Hc). rewrite Ht, <- Z.add_assoc.
  eapply wp_km_st; [by apply (wp_store_page kend ks (4020 + off) v l); try done; unfold PGSIZE; lia|]. eauto.
Qed.

Lemma ld32_stack m ks off pg : allocatable kend ks -> 0 <= off <= 72 -> page_at m ks = pg ->
  ld32 m (ks + 4020 + off) = get32 pg (4020 + off).
Proof.
  intros Ha Ho <-. destruct (page_off kend ks (4020 + off) Ha) as [E1 E2]; [unfold PGSIZE; lia|].
  unfold ld32. by rewrite <- Z.add_assoc, E1, E2.
Qed.

(** A user page of the new address space is neither free, nor of the old one,
    nor the kernel stack. *)
Lemma new_page_apart k l d k1 l1 B c A v : uvm_ok kend k l (p_pgdir c) A.1 A.2 -> p_kstack c ∉ l ->
  built kend k l d k1 l1 B.1 B.2 -> 0 <= v < NUSER -> Z.odd (B.2 v) = true ->
  upage (B.2 v) ∉ l1 /\ ~ in_as (p_pgdir c) A.1 A.2 (upage (B.2 v)) /\ upage (B.2 v) ≠ p_kstack c.
Proof.
  intros Oo Sf Bu Hv Ho. assert (In : in_as d B.1 B.2 (upage (B.2 v))) by (right; by exists v).
  assert (Il : upage (B.2 v) ∈ l) by (apply (bu_pages _ _ _ _ _ _ _ _ Bu); by right).
  split_and!; [by eapply owned_in_as, In; apply Bu| |intros X; by rewrite X in Il].
  intros X. by eapply owned_in_as in X; [|exact Oo].
Qed.

(** The change of the image. *)
Lemma wp_exec_switch T ip np fs k f oth l A cur c path d B k1 l1 p argv entry :
  mem_inv kend T k oth l A -> T !! cur = Some c -> used c -> p_state c ≠ ZOMBIE -> frame_room argv -> is_u32 entry ->
  built kend k l d k1 l1 B.1 B.2 -> let sz := PGSIZE * p + 2 * PGSIZE in 0 <= p -> sz <= KERNBASE ->
  main_frame k1 B.2 (frame_sp sz argv) argv (arg_sps sz argv) -> user_ok (B.2 (p + 1)) -> has (B.2 p) PTE_U = false ->
  wp (exec_switch kend cur path d sz (frame_sp sz argv) entry) (fun r s' => exists c' k3 l3, r = 0 /\
    s' = St (<[cur := c']> T) ip np fs k3 f /\ mem_inv kend (<[cur := c']> T) k3 oth l3 (upd_space A cur B) /\
    started k3 c' B argv entry) (St T ip np fs k1 f).
Proof.
  intros M Hc Hu Hz Hr He Bu sz Hp Hsz Hmain Hst Hg. assert (Hl := lookup_lt_Some _ _ _ Hc).
  assert (M0 := mi_proc _ _ _ _ _ _ M cur c Hc Hu).
  assert (R1 := vo_k _ _ _ _ _ _ (uo_vm _ _ _ _ _ _ (bu_ok _ _ _ _ _ _ _ _ Bu))).
  assert (Hf : p_kstack c ∉ l1) by (intros X; apply (pm_free _ _ _ _ _ M0), (bu_pages _ _ _ _ _ _ _ _ Bu); by left).
  destruct M0 as [Oo So Sf Sa Stf _].
  assert (Ec : forall k', proc_at (St T ip np fs k' f) cur = c) by (intros k'; unfold proc_at; simpl; by rewrite Hc).
  unfold exec_switch. wp_step. unfold pmod at 1. wp_step. wp_step. unfold pget at 1. wp_step. wp_step. unfold pmod. wp_step.
  unfold set_ptable. simpl. rewrite Ec, !proc_at_insert, list_insert_insert_eq by done. simpl.
  set (c' := set_sz sz _). assert (Hc' : (<[cur := c']> T) !! cur = Some c') by by rewrite list_lookup_insert_eq.
  wp_step. eapply wp_mono; [by apply (wp_tf_store _ _ _ _ _ _ l1 cur c' (p_kstack c))|]. intros _ s2 (k2 & -> & R2 & P2 & U2).
  wp_step. eapply wp_mono; [by apply (wp_tf_store _ _ _ _ _ _ l1 cur c' (p_kstack c))|]. intros _ s3 (k3 & -> & R3 & P3 & U3).
  wp_step. eapply wp_km_st.
  { apply (exec_commit kend kend_high T k oth l A cur c c' d B k1 l1 k3); try done. intros a Ha. by rewrite U3, U2. }
  intros _ k4 (l4 & M4 & U4). wp_step. exists c', k4, l4. split_and!; try done.
  assert (Pk : is_page (page_at (mem k1) (p_kstack c))) by apply page_at_ok, R1. destruct Pk as [Lk _].
  assert (Ek : page_at (mem k4) (p_kstack c) = put32 (put32 (page_at (mem k1) (p_kstack c)) (4020 + tf_eip) entry) (4020 + tf_esp) (frame_sp sz argv)).
  { rewrite U4 by done. by rewrite P3, P2. }
  assert (L2 : zlen (put32 (page_at (mem k1) (p_kstack c)) (4020 + 56) entry) = PGSIZE).
  { rewrite zlen_put32; [done|lia|rewrite Lk; unfold PGSIZE; lia]. }
  assert (Hfs : is_u32 (frame_sp sz argv)).
  { destruct Hr as (_ & _ & Hr). assert (Re := arg_end_range sz argv). unfold frame_sp, KERNBASE, sz, PGSIZE in *. assert (Hn := zlen_nonneg argv). mlia. }
  split; try done; change (p_tf c') with (p_tf c); change (p_sz c') with sz.
  - rewrite Stf, (ld32_stack _ _ tf_eip _ So ltac:(unfold tf_eip; lia) Ek). unfold tf_eip, tf_esp.
    rewrite get32_put32_ne, get32_put32; rewrite ?L2, ?Lk; unfold PGSIZE; try lia. by apply u32_id.
  - rewrite Stf, (ld32_stack _ _ tf_esp _ So ltac:(unfold tf_esp; lia) Ek). unfold tf_eip, tf_esp.
    rewrite get32_put32; rewrite ?L2; unfold PGSIZE; try lia. by apply u32_id.
  - assert (Esz : sz = PGSIZE * (p + 1 + 1)) by (unfold sz; lia). rewrite Esz in *. apply (main_frame_page k1); [done| |done].
    assert (Hv : 0 <= p + 1 < NUSER) by (rewrite NUSER_eq; unfold KERNBASE, PGSIZE in *; lia).
    destruct (new_page_apart _ _ _ _ _ _ _ _ (p + 1) Oo Sf Bu Hv (proj1 Hst)) as (N1 & N2 & N3). by rewrite U4, U3, U2.
  - split; unfold sz, PGSIZE in *; mlia.
  - replace (vpn sz - 1) with (p + 1) by (unfold vpn, sz, PGSIZE; mlia). done.
  - replace (vpn sz - 2) with p by (unfold vpn, sz, PGSIZE; mlia). done.
Qed.


(** ** The system call *)

Context (data : Z) (data_aligned : data mod PGSIZE = 0) (data_range : KERNLINK < data <= KERNBASE + 4 * 1024 * 1024).

(** The two ways [exec] ends. *)
Definition exec_result (T : list proc) (k : kmem) (f : fsys S) (oth : gset Z) (l : list Z) (A : nat -> space) (cur : nat)
    (argv : list (list Z)) (r : Z) (s' : psys (fsys S)) : Prop :=
  pipes (fl s') = pipes f /\
  (r = -1 /\ ptable s' = T /\ (exists l', mem_inv kend T (km s') oth l' A /\ forall a, a ∈ l' <-> a ∈ l) /\
     (forall a, a ∉ l -> page_at (mem (km s')) a = page_at (mem k) a) \/
   r = 0 /\ exists c' l' B entry, ptable s' = <[cur := c']> T /\
     mem_inv kend (<[cur := c']> T) (km s') oth l' (upd_space A cur B) /\ started (km s') c' B argv entry).

Lemma exec_back T ip np fs k k' f f' oth l A cur argv : mem_inv kend T k oth l A -> given_back kend k l k' -> pipes f' = pipes f ->
  exec_result T k f oth l A cur argv (-1) (St T ip np fs k' f').
Proof.
  intros M G E. split; [done|]. left. split; [done|]. split; [done|]. split; [by eapply mem_inv_back|apply G].
Qed.

(** A file-system call of which nothing is asked. *)
Lemma lp_any {A} (m : M (fstate S) A) T ip np fs k f Q :
  (forall a f', pipes f' = pipes f -> Q a (St T ip np fs k f')) -> lp (fs_call m) Q (St T ip np fs k f).
Proof. intros H. apply lp_zoom, lp_zoom. simpl. intros a x E. by apply H. Qed.

Lemma lp_tx {A} (m : M S A) T ip np fs k f Q :
  (forall a f', pipes f' = pipes f -> Q a (St T ip np fs k f')) -> lp (fl_op (tx_op m)) Q (St T ip np fs k f).
Proof. intros H. by apply (lp_any (blk_op m)). Qed.

End exec.

(** ** A machine that runs [exec] *)

Lemma namei_of_cwd {S} {BS : BlockStore S} (devsw : Z -> devsw_entry S) cur path s w : p_cwd (proc_at s cur) = Some w ->
  namei_of devsw cur path s = fs_call (namei devsw w path) s.
Proof. intros E. unfold namei_of, cwd_of, pget, gets, mbind, M_bind. by rewrite E. Qed.

Definition demo_fsys : fsys lstate := FSys (replicate NFILE file0) (FState fsd_lstate (replicate NINODE inode0) fsd_sb 1) ∅ [].

(** The file [/f] holds five bytes that are not a program. *)
Lemma demo_exec T i c ip np fs k : T !! i = Some c -> p_cwd c = Some 0%nat ->
  exists s', exec no_devices kend0 data0 i [47; 102; 0] [] (PSys T ip np fs k demo_fsys) = Ret (-1) s'.
Proof.
  intros Hc Ec. eexists. unfold exec. unfold mbind at 1, M_bind at 1.
  lazymatch goal with |- context [begin_op' ?s] => let r := eval vm_compute in (begin_op' s) in change (begin_op' s) with r end. cbv iota.
  unfold mbind at 1, M_bind at 1. rewrite (namei_of_cwd _ _ _ _ 0%nat) by (unfold proc_at; cbn [ptable]; by rewrite Hc).
  vm_compute. reflexivity.
Qed.


(** The arguments of [echo hi]. *)
Definition demo_argv : list (list Z) := [[101; 99; 104; 111; 0]; [104; 105; 0]].

Lemma demo_room : frame_room demo_argv.
Proof. split; [repeat constructor; done|]. by vm_compute. Qed.

