(* ===== verification/Rtc.v ===== *)
(** * The real-time clock ([cmostime] of lapic.c)

    The clock chip is an arbitrary function: [rtc t reg] is what read number
    [t] returns if it is a read of register [reg].  The state is the number of
    reads so far. *)

From S2P Require Import Prelude.

Definition CMOS_STATA : Z := 0x0a.
Definition CMOS_STATB : Z := 0x0b.
Definition CMOS_UIP : Z := Z.shiftl 1 7.
Definition SECS : Z := 0x00.
Definition MINS : Z := 0x02.
Definition HOURS : Z := 0x04.
Definition DAY : Z := 0x07.
Definition MONTH : Z := 0x08.
Definition YEAR : Z := 0x09.

Record rtcdate := Rtcdate { second : Z; minute : Z; hour : Z; day : Z; month : Z; year : Z }.
#[export] Instance rtcdate_eq_dec : EqDecision rtcdate.
Proof. solve_decision. Defined.

(** Binary coded decimal: [CONV]. *)
Definition conv (x : Z) : Z := u32 (Z.shiftr x 4 * 10 + Z.land x 0xf).
Definition conv_date (d : rtcdate) : rtcdate :=
  Rtcdate (conv (second d)) (conv (minute d)) (conv (hour d)) (conv (day d)) (conv (month d)) (conv (year d)).
Definition set_year v d := Rtcdate (second d) (minute d) (hour d) (day d) (month d) v.

Section rtc.
Context (rtc : nat -> Z -> Z).

(** [inb] returns a byte. *)
Definition cmos_read (reg : Z) : M nat Z :=
  t ← get; modify S;; mret (u8 (rtc t reg)).

Definition fill_rtcdate : M nat rtcdate :=
  s ← cmos_read SECS;
  mi ← cmos_read MINS;
  h ← cmos_read HOURS;
  d ← cmos_read DAY;
  mo ← cmos_read MONTH;
  y ← cmos_read YEAR;
  mret (Rtcdate s mi h d mo y).

(** The loop of [cmostime]. *)
Fixpoint stable_date (fuel : nat) : M nat rtcdate :=
  match fuel with
  | O => out_of_fuel
  | S fuel' =>
      t1 ← fill_rtcdate;
      a ← cmos_read CMOS_STATA;
      if negb (Z.land a CMOS_UIP =? 0) then stable_date fuel'
      else
        t2 ← fill_rtcdate;
        if bool_decide (t1 = t2) then mret t1 else stable_date fuel'
  end.

Definition cmostime (fuel : nat) : M nat rtcdate :=
  sb ← cmos_read CMOS_STATB;
  let bcd := Z.land sb (Z.shiftl 1 2) =? 0 in
  t1 ← stable_date fuel;
  let t1 := if (bcd : bool) then conv_date t1 else t1 in
  mret (set_year (u32 (year t1 + 2000)) t1).

(** ** The clock is read correctly *)

(** How the chip shows a number. *)
Definition bcd_of (x : Z) : Z := 16 * (x / 10) + x mod 10.
Definition show (bcd : bool) (x : Z) : Z := if bcd then bcd_of x else x.

Lemma conv_bcd x : 0 <= x < 100 -> conv (bcd_of x) = x.
Proof.
  intros H. unfold conv, bcd_of. rewrite Z.shiftr_div_pow2 by lia. change 0xf with (Z.ones 4). rewrite Z.land_ones by lia. mlia.
Qed.

(** Reads [t] to [t'] show the date [d] without an update in progress. *)
Definition shows (bcd : bool) (d : rtcdate) (t t' : nat) : Prop := forall i, (t <= i < t')%nat ->
  rtc i SECS = show bcd (second d) /\ rtc i MINS = show bcd (minute d) /\ rtc i HOURS = show bcd (hour d) /\
  rtc i DAY = show bcd (day d) /\ rtc i MONTH = show bcd (month d) /\ rtc i YEAR = show bcd (year d) /\
  Z.land (u8 (rtc i CMOS_STATA)) CMOS_UIP = 0.

Definition date_ok (d : rtcdate) : Prop :=
  0 <= second d < 100 /\ 0 <= minute d < 100 /\ 0 <= hour d < 100 /\ 0 <= day d < 100 /\ 0 <= month d < 100 /\ 0 <= year d < 100.

Definition raw (bcd : bool) (d : rtcdate) : rtcdate :=
  Rtcdate (show bcd (second d)) (show bcd (minute d)) (show bcd (hour d)) (show bcd (day d)) (show bcd (month d)) (show bcd (year d)).

Lemma show_byte bcd x : 0 <= x < 100 -> u8 (show bcd x) = show bcd x.
Proof. intros H. unfold show, bcd_of. destruct bcd; mlia. Qed.

Lemma fill_shows bcd d t : date_ok d -> shows bcd d t (t + 6) -> fill_rtcdate t = Ret (raw bcd d) (6 + t)%nat.
Proof.
  intros (D1 & D2 & D3 & D4 & D5 & D6) H. unfold fill_rtcdate, cmos_read. munfold.
  destruct (H t) as (-> & _); [lia|]. destruct (H (S t)) as (_ & -> & _); [lia|]. destruct (H (S (S t))) as (_ & _ & -> & _); [lia|].
  destruct (H (3 + t)%nat) as (_ & _ & _ & E4 & _); [lia|]. destruct (H (4 + t)%nat) as (_ & _ & _ & _ & E5 & _); [lia|].
  destruct (H (5 + t)%nat) as (_ & _ & _ & _ & _ & E6 & _); [lia|]. simpl in *. rewrite E4, E5, E6. unfold raw. by rewrite !show_byte.
Qed.

Lemma shows_sub bcd d t t' u u' : shows bcd d t t' -> (t <= u)%nat -> (u' <= t')%nat -> shows bcd d u u'.
Proof. intros H A B i Hi. apply H. lia. Qed.

Lemma fill_any t : exists d, fill_rtcdate t = Ret d (6 + t)%nat.
Proof. eexists. reflexivity. Qed.

(** An iteration that starts when the date is shown. *)
Lemma stable_shown bcd d fuel t : date_ok d -> shows bcd d t (t + 13) -> exists t', stable_date (S fuel) t = Ret (raw bcd d) t'.
Proof.
  intros D H. cbn [stable_date]. unfold mbind, M_bind. rewrite (fill_shows bcd d) by (done || (eapply shows_sub; [exact H|lia..])).
  unfold cmos_read, mbind, M_bind, get, modify, mret, M_ret.
  destruct (H (6 + t)%nat) as (_ & _ & _ & _ & _ & _ & ->); [lia|]. change (0 =? 0) with true. cbn [negb].
  rewrite (fill_shows bcd d) by (done || (eapply shows_sub; [exact H|lia..])). rewrite bool_decide_eq_true_2 by done. eauto.
Qed.

(** An update is in progress up to read [t0]. *)
Definition updating (t0 : nat) : Prop := forall i, (i < t0)%nat -> Z.land (u8 (rtc i CMOS_STATA)) CMOS_UIP ≠ 0.

Lemma stable_after bcd d t0 fuel t : date_ok d -> updating t0 -> shows bcd d t0 (t0 + 26) -> (t <= t0 + 13)%nat -> (t0 < t + fuel)%nat -> (1 < fuel)%nat ->
  exists t', stable_date fuel t = Ret (raw bcd d) t'.
Proof.
  intros D U H. revert t. induction fuel as [|fuel IH]; intros t Ht Hf H1; [lia|].
  destruct (decide (t0 <= t)%nat) as [L|L]; [apply stable_shown; [done|eapply shows_sub; [exact H|lia..]]|].
  cbn [stable_date]. unfold mbind, M_bind. destruct (fill_any t) as [x ->]. unfold cmos_read, mbind, M_bind, get, modify, mret, M_ret.
  destruct (decide (6 + t < t0)%nat) as [L'|L'].
  - rewrite (proj2 (Z.eqb_neq _ 0)) by (apply U; lia). cbn [negb]. apply IH; lia.
  - destruct (H (6 + t)%nat) as (_ & _ & _ & _ & _ & _ & ->); [lia|]. change (0 =? 0) with true. cbn [negb].
    rewrite (fill_shows bcd d) by (done || (eapply shows_sub; [exact H|lia..])). case_bool_decide; [subst; eauto|].
    destruct fuel as [|fuel]; [lia|]. apply stable_shown; [done|]. eapply shows_sub; [exact H|lia..].
Qed.

(** The date.  If the clock is in the middle of an update, whatever its
    registers hold, and shows a date once the update is over, in binary or in
    BCD as its status register says, for long enough to be read three times,
    then [cmostime] returns that date. *)
Theorem cmostime_correct bcd d t t0 fuel :
  (Z.land (u8 (rtc t CMOS_STATB)) 4 =? 0) = bcd ->
  date_ok d -> updating t0 -> shows bcd d t0 (t0 + 26) -> (t <= t0 + 12)%nat -> (t0 - t + 1 < fuel)%nat ->
  wp (cmostime fuel) (fun r _ => r = set_year (year d + 2000) d) t.
Proof.
  intros Eb D U H Ht Hf. unfold cmostime, cmos_read. do 6 wp_step.
  change (Z.shiftl 1 2) with 4. rewrite Eb. destruct (stable_after bcd d t0 fuel (S t)) as [t' E]; try done; try lia.
  wp_step. eapply wp_intro; [exact E|]. wp_step. destruct D as (D1 & D2 & D3 & D4 & D5 & D6). destruct d as [s mi h dy mo y]. simpl in *. unfold raw, set_year.
  destruct bcd; simpl; rewrite ?conv_bcd by lia; f_equal; mlia.
Qed.
End rtc.

(** A clock in BCD that updates during its first 20 reads. *)
Definition demo_rtc (t : nat) (reg : Z) : Z :=
  if (t <? 20)%nat then if reg =? CMOS_STATB then 2 else 128
  else if reg =? SECS then 0x59 else if reg =? MINS then 0x07 else if reg =? HOURS then 0x23
  else if reg =? DAY then 0x31 else if reg =? MONTH then 0x12 else if reg =? YEAR then 0x23 else 0.

Lemma cmostime_correct_witness :
  wp (cmostime demo_rtc 30) (fun r _ => r = Rtcdate 59 7 23 31 12 2023) 0%nat.
Proof.
  apply (cmostime_correct demo_rtc true (Rtcdate 59 7 23 31 12 23) 0 20 30); [done|unfold date_ok; simpl; lia| | |lia|lia].
  - intros i Hi. unfold demo_rtc. rewrite (proj2 (Nat.ltb_lt _ _)) by lia. done.
  - intros i Hi. unfold demo_rtc. rewrite (proj2 (Nat.ltb_ge _ _)) by lia. done.
Defined.
