(* ===== verification/Sysproc.v ===== *)
(** * System calls on processes, the clock and the screen (sysproc.c)

    The state of the kernel adds to processes and files the screen, [ticks] and
    the clock chip. *)

From S2P Require Import Prelude Param Cstring SleepLock Layout BlockStore Fs Mmu Kalloc Vm Console Pipe FileOps Proc File UserAccess Sysfile Rtc.

(** How a system call ends: with a value for %eax, asleep, or not at all. *)
Inductive sysret := SysRet (v : Z) | SysSleep | SysExit.

Section sysproc.
Context {S : Type} {BS : BlockStore S} {TX : TxOps S}.
Context (devsw : Z -> devsw_entry S) (kend data forkret trapret : Z).
(** The address of [ticks]; the clock chip; bounds on the two loops whose end
    depends on the chip and on the arguments. *)
Context (ticks_addr : Z) (rtc : nat -> Z -> Z) (rtc_fuel line_fuel : nat).
#[local] Instance sysproc_ops : FileOps (fsys S) := file_ops devsw kend.
Notation psys := (psys (fsys S)).

Record kernel := Kernel { kp : psys; scr : screen; ticks : Z; reads : nat }.
Definition set_kp v k := Kernel v (scr k) (ticks k) (reads k).
Definition set_scr v k := Kernel (kp k) v (ticks k) (reads k).
Definition set_ticks v k := Kernel (kp k) (scr k) v (reads k).
Definition set_reads v k := Kernel (kp k) (scr k) (ticks k) v.

Definition p_op {A} (m : M psys A) : M kernel A := zoom kp set_kp m.
Definition s_op {A} (m : M screen A) : M kernel A := zoom scr set_scr m.
(** [if(argint(n, &x) < 0) return -1;] and then [m x]. *)
Definition with_int (cur : nat) (n : Z) (m : Z -> M kernel sysret) : M kernel sysret :=
  i ← p_op (argint kend cur n);
  match i with None => mret (SysRet (-1)) | Some x => m x end.
Definition ret (m : M kernel Z) : M kernel sysret := v ← m; mret (SysRet v).

Definition sys_fork (cur : nat) : M kernel sysret := ret (p_op (fork kend data forkret trapret cur)).

Definition sys_exit (cur : nat) : M kernel sysret :=
  with_int cur 0 (fun status => p_op (exit kend cur (s32 (Z.shiftl status 8)));; mret SysExit).

(** The size of the buffer is [sizeof(int* ) < 0], which is 0. *)
Definition sys_wait (cur : nat) : M kernel sysret :=
  p ← p_op (argptr kend cur 0 0);
  match p with
  | None => mret (SysRet (-1))
  | Some pstatus =>
      r ← p_op (wait kend cur);
      match r with
      | None => mret SysSleep
      | Some (pid, st) =>
          (if (pstatus =? 0) || (pid <? 0) then mret tt
           else p_op (user_store kend cur pstatus (le_bytes 4 st)));;
          mret (SysRet pid)
      end
  end.

Definition sys_kill (cur : nat) : M kernel sysret := with_int cur 0 (fun pid => ret (p_op (kill pid))).

Definition sys_getpid (cur : nat) : M kernel sysret := ret (p_op (c ← pget cur; mret (p_pid c))).

Definition sys_sbrk (cur : nat) : M kernel sysret :=
  c ← p_op (pget cur);
  let szanterior := s32 (p_sz c) in
  with_int cur 0 (fun n =>
    if 0 <=? n then
      p_op (pmod cur (fun p => set_sz (u32 (p_sz p + n)) p));;
      mret (SysRet szanterior)
    else
      r ← p_op (growproc kend cur n);
      mret (SysRet (if r <? 0 then -1 else szanterior))).

(** An iteration of the loop of [sys_sleep]; the comparison is unsigned. *)
Definition sleep_check (cur : nat) (ticks0 n : Z) : M kernel sysret :=
  k ← get;
  if u32 (ticks k - ticks0) <? u32 n then
    if negb (p_killed (proc_at (kp k) cur) =? 0) then mret (SysRet (-1))
    else p_op (sleep_begin cur (Some (CAddr ticks_addr)));; mret SysSleep
  else mret (SysRet 0).
Definition sys_sleep (cur : nat) : M kernel sysret :=
  with_int cur 0 (fun n => k ← get; sleep_check cur (ticks k) n).

Definition sys_uptime : M kernel sysret := ret (gets (fun k => s32 (ticks k))).

Definition sizeof_rtcdate : Z := 24.
Definition encode_rtcdate (d : rtcdate) : list Z :=
  mjoin (le_bytes 4 <$> [second d; minute d; hour d; day d; month d; year d]).
Definition sys_date (cur : nat) : M kernel sysret :=
  p ← p_op (argptr kend cur 0 sizeof_rtcdate);
  match p with
  | None => mret (SysRet (-1))
  | Some r =>
      d ← zoom reads set_reads (cmostime rtc rtc_fuel);
      p_op (user_store kend cur r (encode_rtcdate d));;
      mret (SysRet 0)
  end.

Definition sys_color (cur : nat) : M kernel sysret :=
  with_int cur 0 (fun c =>
    if (c <? 0) || (255 <? c) then mret (SysRet (-1))
    else s_op (setColor c);; mret (SysRet 0)).

Definition sys_getcolor : M kernel sysret := ret (s_op getColor).
Definition sys_clear : M kernel sysret := s_op clear;; mret (SysRet 0).

(** The cells of [drawline] in the order they are stored. *)
Definition store_cells (l : list (Z * Z)) : M screen unit :=
  modify (fun s => set_crt (fold_left (fun m c => wr m c.1 c.2) l (crt s)) s).
Definition sys_drawline (cur : nat) : M kernel sysret :=
  with_int cur 0 (fun ax => with_int cur 1 (fun ay => with_int cur 2 (fun bx => with_int cur 3 (fun by' =>
  with_int cur 4 (fun color => with_int cur 5 (fun pixel =>
    k ← get;
    match drawline line_fuel ax ay bx by' color pixel (BACKGROUND_COLOR (scr k)) with
    | None => out_of_fuel
    | Some l => s_op (store_cells l);; mret (SysRet 0)
    end)))))).

Definition sys_getprio (cur : nat) : M kernel sysret :=
  with_int cur 0 (fun pid => if pid <? 0 then mret (SysRet (-1)) else ret (p_op (getprocprio pid))).

(** The type of [prio] is an unsigned enumeration. *)
Definition sys_setprio (cur : nat) : M kernel sysret :=
  with_int cur 0 (fun pid => with_int cur 1 (fun prio =>
    if (pid <? 0) || (2 <? u32 prio) then mret (SysRet (-1))
    else p_op (setprocprio pid (u32 prio));; mret (SysRet 0))).
End sysproc.
Arguments kernel : clear implicits.
