(* ===== verification/Trap.v ===== *)
(** * Traps and the dispatch of system calls (syscall.c, trap.c) *)

From S2P Require Import Prelude Param Cstring SleepLock Layout BlockStore Fs Mmu Kalloc Vm Console Pipe FileOps Proc File UserAccess Sysfile Exec Rtc Sysproc.

Definition T_PGFLT : Z := 14.
Definition T_SYSCALL : Z := 64.
Definition T_IRQ0 : Z := 32.
Definition IRQ_TIMER : Z := 0.
Definition IRQ_KBD : Z := 1.
Definition IRQ_COM1 : Z := 4.
Definition IRQ_IDE : Z := 14.
Definition IRQ_SPURIOUS : Z := 31.

(** How a trap ends: it returns to where it came from, or the process gave up
    the processor, is asleep, or has exited. *)
Inductive after := Resumes | Yields | Waits | Gone.

Section trap.
Context {S : Type} {BS : BlockStore S} {TX : TxOps S}.
Context (devsw : Z -> devsw_entry S) (kend data forkret trapret : Z).
Context (ticks_addr : Z) (rtc : nat -> Z -> Z) (rtc_fuel line_fuel : nat).
(** The interrupt handlers of the disk, the keyboard and the serial port. *)
Context (ideintr kbdintr uartintr : M (kernel S) unit).
#[local] Instance trap_ops : FileOps (fsys S) := file_ops devsw kend.
Notation kernel := (kernel S).

(** A call of sysfile.c; [read] and [write] may sleep on a pipe. *)
Definition file_call (m : M (psys (fsys S)) Z) : M kernel sysret := ret (p_op m).
Definition seg_call {B} (m : M (psys (fsys S)) (segment Z B)) : M kernel sysret :=
  r ← p_op m;
  match r with Returns v => mret (SysRet v) | Sleeps _ => mret SysSleep end.

(** The table [syscalls]. *)
Definition syscalls (num : Z) (cur : nat) : option (M kernel sysret) :=
  match num with
  | 1 => Some (sys_fork devsw kend data forkret trapret cur)
  | 2 => Some (sys_exit devsw kend cur)
  | 3 => Some (sys_wait kend cur)
  | 4 => Some (file_call (sys_pipe kend cur))
  | 5 => Some (seg_call (sys_read devsw kend cur))
  | 6 => Some (sys_kill kend cur)
  | 7 => Some (file_call (sys_exec devsw kend data cur))
  | 8 => Some (file_call (sys_fstat kend cur))
  | 9 => Some (file_call (sys_chdir devsw kend cur))
  | 10 => Some (file_call (sys_dup kend cur))
  | 11 => Some (file_call (sys_dup2 kend cur))
  | 12 => Some (sys_getpid cur)
  | 13 => Some (sys_sbrk kend cur)
  | 14 => Some (sys_sleep kend ticks_addr cur)
  | 15 => Some sys_uptime
  | 16 => Some (file_call (sys_open devsw kend cur))
  | 17 => Some (seg_call (sys_write devsw kend cur None))
  | 18 => Some (file_call (sys_mknod devsw kend cur))
  | 19 => Some (file_call (sys_unlink devsw kend cur))
  | 20 => Some (file_call (sys_link devsw kend cur))
  | 21 => Some (file_call (sys_mkdir devsw kend cur))
  | 22 => Some (file_call (sys_close kend cur))
  | 23 => Some (sys_date kend rtc rtc_fuel cur)
  | 24 => Some sys_clear
  | 25 => Some sys_getcolor
  | 26 => Some (sys_color kend cur)
  | 27 => Some (sys_drawline kend line_fuel cur)
  | 28 => Some (sys_getprio kend cur)
  | 29 => Some (sys_setprio kend cur)
  | _ => None
  end.

(** The result is stored when the call returns, also after it slept. *)
Definition finish (cur : nat) (r : sysret) : M kernel sysret :=
  match r with
  | SysRet v => p_op (tf_store cur tf_eax (u32 v));; mret r
  | _ => mret r
  end.

Definition syscall (cur : nat) : M kernel sysret :=
  p_op (enter cur);;
  eax ← p_op (tf_load cur tf_eax);
  match syscalls (s32 eax) cur with
  | Some m => r ← m; finish cur r
  | None => finish cur (SysRet (-1))
  end.

Definition is_killed (cur : nat) : M kernel bool := p_op (c ← pget cur; mret (negb (p_killed c =? 0))).
Definition die (cur : nat) (status : Z) : M kernel after := p_op (exit kend cur status);; mret Gone.

(** [trap] for a system call. *)
Definition trap_syscall (cur : nat) (tf : Z) : M kernel after :=
  k ← is_killed cur;
  if (k : bool) then die cur 1
  else
    p_op (pmod cur (set_tf tf));;
    r ← syscall cur;
    match r with
    | SysExit => mret Gone
    | SysSleep => mret Waits
    | SysRet _ =>
        k ← is_killed cur;
        if (k : bool) then die cur 1 else mret Resumes
    end.

(** The timer interrupt; [cpu] is the number of the processor. *)
Definition timer (cpu : Z) : M kernel unit :=
  if cpu =? 0 then
    modify (fun k => set_ticks (u32 (ticks k + 1)) k);;
    p_op (wakeup (Some (CAddr ticks_addr)))
  else mret tt.

(** The handlers; [cur] is [myproc()], [cs] and [err] are in the trap frame. *)
Definition handle (cur : option nat) (trapno cs err cr2 cpu : Z) : M kernel unit :=
  if trapno =? T_IRQ0 + IRQ_TIMER then timer cpu
  else if trapno =? T_IRQ0 + IRQ_IDE then ideintr
  else if trapno =? T_IRQ0 + IRQ_IDE + 1 then mret tt
  else if trapno =? T_IRQ0 + IRQ_KBD then kbdintr
  else if trapno =? T_IRQ0 + IRQ_COM1 then uartintr
  else if (trapno =? T_IRQ0 + 7) || (trapno =? T_IRQ0 + IRQ_SPURIOUS) then mret tt
  else match cur with
  | None => panic "trap"
  | Some cur =>
      if trapno =? T_PGFLT then p_op (pgflt kend cur cr2 err)
      else if Z.land cs 3 =? 0 then panic "trap"
      else p_op (pmod cur (set_killed 1))
  end.

(** The end of [trap] after [yield] returned, and for traps without it. *)
Definition trap_end (cur : nat) (trapno cs : Z) : M kernel after :=
  k ← is_killed cur;
  if (k : bool) && (Z.land cs 3 =? DPL_USER) then die cur (trapno + 1) else mret Resumes.

(** [trap]; it is cut where [yield] gives up the processor. *)
Definition trap (cur : option nat) (tf trapno cs err cr2 cpu : Z) : M kernel after :=
  match cur with
  | None => handle None trapno cs err cr2 cpu;; mret Resumes
  | Some cur =>
      if trapno =? T_SYSCALL then trap_syscall cur tf
      else
        handle (Some cur) trapno cs err cr2 cpu;;
        k ← is_killed cur;
        if (k : bool) && (Z.land cs 3 =? DPL_USER) then die cur (trapno + 1)
        else
          c ← p_op (pget cur);
          if bool_decide (p_state c = RUNNING) && (trapno =? T_IRQ0 + IRQ_TIMER) then
            p_op (yield cur);; mret Yields
          else trap_end cur trapno cs
  end.
End trap.
