(* ===== verification/Descriptors.v ===== *)
(** * File descriptors

    The invariant that ties the descriptors of all processes to the table of
    open files and to the pipes, and that every system call preserves it. *)

From S2P Require Import Prelude Param Cstring SleepLock Layout BlockStore Fs Mmu Kalloc Vm Pipe FileOps Proc ProcTable File UserAccess Sysfile Exec.

(** ** Counting descriptors *)

(** How often the list of descriptors [l] has the file [f]. *)
Definition fds_of (f : nat) (l : list (option nat)) : Z := Z.of_nat (length (filter (fun x => x = Some f) l)).

(** How often the processes of [T] do. *)
Fixpoint total (T : list proc) (f : nat) : Z :=
  match T with
  | [] => 0
  | p :: T' => fds_of f (p_ofile p) + total T' f
  end.

Lemma count_cons f x l : fds_of f (x :: l) = (if decide (x = Some f) then 1 else 0) + fds_of f l.
Proof. unfold fds_of. rewrite filter_cons. case_decide; rewrite ?length_cons; lia. Qed.

Lemma count_bounds f l : 0 <= fds_of f l <= Z.of_nat (length l).
Proof. unfold fds_of. assert (X := length_filter (fun x => x = Some f) l). lia. Qed.

Lemma count_insert f l i x y : l !! i = Some x ->
  fds_of f (<[i := y]> l) = fds_of f l - (if decide (x = Some f) then 1 else 0) + if decide (y = Some f) then 1 else 0.
Proof.
  revert i. induction l as [|z l IH]; intros [|i] E; simplify_eq/=; rewrite !count_cons; [lia|]. rewrite (IH i) by done. lia.
Qed.

Lemma count_wr f l fd y : 0 <= fd < zlen l ->
  fds_of f (wr l fd y) = fds_of f l - (if decide (rd None l fd = Some f) then 1 else 0) + if decide (y = Some f) then 1 else 0.
Proof.
  intros H. assert (X : is_Some (l !! Z.to_nat fd)) by (apply lookup_lt_is_Some; unfold zlen in H; lia). destruct X as [x E].
  assert (Er : rd None l fd = x) by (unfold rd; rewrite decide_True by lia; by rewrite E). rewrite Er.
  unfold wr. rewrite decide_True by lia. by apply count_insert.
Qed.

Lemma total_insert T i p q f : T !! i = Some p ->
  total (<[i := q]> T) f = total T f - fds_of f (p_ofile p) + fds_of f (p_ofile q).
Proof. revert i. induction T as [|z T IH]; intros [|i] E; simplify_eq/=; [lia|]. rewrite (IH i) by done. lia. Qed.

Lemma total_lookup T i p f : T !! i = Some p -> fds_of f (p_ofile p) <= total T f.
Proof.
  revert i. induction T as [|z T IH]; intros [|i] E; simplify_eq/=.
  - assert (0 <= total T f); [|lia]. clear. induction T as [|z T IH]; simpl; [lia|]. assert (X := count_bounds f (p_ofile z)). lia.
  - specialize (IH i E). assert (X := count_bounds f (p_ofile z)). lia.
Qed.

Lemma count_pos l fd f : rd None l fd = Some f -> 1 <= fds_of f l.
Proof.
  unfold rd. case_decide; [|done]. intros E. destruct (l !! Z.to_nat fd) as [x|] eqn:X; simplify_eq/=.
  revert X. generalize (Z.to_nat fd). induction l as [|z l IH]; intros [|n] X; simplify_eq/=; rewrite count_cons.
  - rewrite decide_True by done. assert (Y := count_bounds f l). lia.
  - specialize (IH n X). case_decide; lia.
Qed.

(** ** The invariant *)

Definition closed (p : proc) : Prop := Forall (eq None) (p_ofile p).
Definition busy (p : proc) : Prop := p_state p = SLEEPING \/ p_state p = RUNNABLE \/ p_state p = RUNNING.

Definition end_open (p : pipe) (w : bool) : bool := if w then writeopen p else readopen p.

Section fds.
Context {S : Type}.
Notation fsys := (fsys S).
Notation refs := (refs (S := S)).

(** [x] counts references that the kernel holds outside the descriptors, during
    a system call; [N] are files that were allocated and not yet set up. *)
Record fd_inv (T : list proc) (s : fsys) (x : nat -> Z) (N : gset nat) : Prop := {
  fi_len p : p ∈ T -> zlen (p_ofile p) = NOFILE;
  fi_procs : length T = NPROC;
  fi_closed p : p ∈ T -> ~ busy p -> closed p;
  fi_refs f : refs s f = total T f + x f;
  fi_none f : refs s f = 0 -> f_type (file_at s f) = FD_NONE;
  fi_type f : refs s f ≠ 0 -> f ∉ N -> f_type (file_at s f) ≠ FD_NONE;
  fi_new f : f ∈ N -> f_type (file_at s f) = FD_NONE;
  fi_pipe f : f_type (file_at s f) = FD_PIPE -> f_readable (file_at s f) = negb (f_writable (file_at s f)) /\
    exists p, pipes s !! f_pipe (file_at s f) = Some p /\ end_open p (f_writable (file_at s f)) = true;
  fi_uniq f g : f_type (file_at s f) = FD_PIPE -> f_type (file_at s g) = FD_PIPE ->
    f_pipe (file_at s f) = f_pipe (file_at s g) -> f_writable (file_at s f) = f_writable (file_at s g) -> f = g;
  fi_ends a p w : pipes s !! a = Some p -> end_open p w = true ->
    exists f, f_type (file_at s f) = FD_PIPE /\ f_pipe (file_at s f) = a /\ f_writable (file_at s f) = w;
  fi_open a p : pipes s !! a = Some p -> exists w, end_open p w = true
}.

(** ** What most of the kernel does: nothing *)

Definition slot_le (p p' : proc) : Prop := p_ofile p' = p_ofile p /\ (busy p -> busy p').
(** The same files and pipes, up to offsets and the bytes in the pipes. *)
Definition files_le (s s' : fsys) : Prop :=
  (forall f, exists o, file_at s' f = set_f_off o (file_at s f)) /\
  forall a, (fun p => (readopen p, writeopen p)) <$> pipes s' !! a = (fun p => (readopen p, writeopen p)) <$> pipes s !! a.
Definition same_fds (s s' : psys fsys) : Prop := Forall2 slot_le (ptable s) (ptable s') /\ files_le (fl s) (fl s').

#[export] Instance slot_le_refl : Reflexive slot_le.
Proof. by split. Qed.
#[export] Instance slot_le_trans : Transitive slot_le.
Proof. intros p q r [A B] [C D]. split; [congruence|auto]. Qed.
#[export] Instance files_le_refl : Reflexive files_le.
Proof. intros s. split; [|done]. intros f. exists (f_off (file_at s f)). by destruct (file_at s f). Qed.
#[export] Instance files_le_trans : Transitive files_le.
Proof.
  intros s t u [A B] [C D]. split; [|intros a; by rewrite D].
  intros f. destruct (A f) as [o E], (C f) as [o' E']. exists o'. rewrite E', E. done.
Qed.
#[export] Instance same_fds_refl : Reflexive same_fds.
Proof. intros s. by split. Qed.
#[export] Instance same_fds_trans : Transitive same_fds.
Proof. intros s t u [A B] [C D]. split; [by etrans|by etrans]. Qed.

Lemma total_le T T' f : Forall2 slot_le T T' -> total T' f = total T f.
Proof. intros H. induction H as [|p p' T T' [E _] H IH]; [done|]. simpl. by rewrite E, IH. Qed.

Lemma files_le_refs s s' f : files_le s s' -> refs s' f = refs s f.
Proof. intros [A _]. unfold File.refs. by destruct (A f) as [o ->]. Qed.

Lemma files_le_pipe s s' a p' w : files_le s s' -> pipes s' !! a = Some p' ->
  exists p, pipes s !! a = Some p /\ end_open p w = end_open p' w.
Proof.
  intros [_ B] E. specialize (B a). rewrite E in B. destruct (pipes s !! a) as [p|]; [|done]. exists p. split; [done|].
  simpl in B. injection B as B1 B2. unfold end_open. destruct w; congruence.
Qed.
#[export] Instance files_le_sym : Symmetric files_le.
Proof.
  intros s s' [A B]. split; [|intros a; by rewrite B]. intros f. destruct (A f) as [o E]. exists (f_off (file_at s f)). rewrite E.
  by destruct (file_at s f).
Qed.

Lemma fd_inv_le T T' s s' x N : fd_inv T s x N -> Forall2 slot_le T T' -> files_le s s' -> fd_inv T' s' x N.
Proof.
  intros I HT Hf. assert (R := fun f => files_le_refs s s' f Hf).
  assert (A : forall f, f_type (file_at s' f) = f_type (file_at s f) /\ f_pipe (file_at s' f) = f_pipe (file_at s f) /\
    f_writable (file_at s' f) = f_writable (file_at s f) /\ f_readable (file_at s' f) = f_readable (file_at s f)).
  { intros f. destruct (proj1 Hf f) as [o ->]. done. }
  assert (E : forall p', p' ∈ T' -> exists p, p ∈ T /\ slot_le p p').
  { intros p' Hp. apply list_elem_of_lookup in Hp as [i Hi]. destruct (Forall2_lookup_r _ _ _ _ _ HT Hi) as (p & Hp & L).
    exists p. split; [by eapply list_elem_of_lookup_2|done]. }
  split.
  - intros p' Hp. destruct (E p' Hp) as (p & Hp' & [-> _]). by apply I.
  - rewrite <- (Forall2_length _ _ _ HT). apply I.
  - intros p' Hp Hb. destruct (E p' Hp) as (p & Hp' & [Ef Hb']). unfold closed. rewrite Ef. apply (fi_closed _ _ _ _ I); [done|]. tauto.
  - intros f. rewrite R, (total_le T T') by done. apply I.
  - intros f. rewrite R. destruct (A f) as (-> & _). apply I.
  - intros f. rewrite R. destruct (A f) as (-> & _). apply I.
  - intros f. destruct (A f) as (-> & _). apply I.
  - intros f. destruct (A f) as (-> & -> & -> & ->). intros X. apply (fi_pipe _ _ _ _ I) in X as (X & p & Y & Z). split; [done|].
    destruct (files_le_pipe s' s _ p (f_writable (file_at s f)) (symmetry Hf) Y) as (p' & Y' & Z'). exists p'. split; [done|congruence].
  - intros f g. destruct (A f) as (-> & -> & -> & _), (A g) as (-> & -> & -> & _). apply I.
  - intros a p' w Ha Hw. destruct (files_le_pipe s s' a p' w Hf Ha) as (p & Ha' & Hw').
    destruct (fi_ends _ _ _ _ I a p w Ha') as (f & X & Y & Z); [congruence|]. exists f. by destruct (A f) as (-> & -> & -> & _).
  - intros a p' Ha. destruct (files_le_pipe s s' a p' true Hf Ha) as (p & Ha' & _). destruct (fi_open _ _ _ _ I a p Ha') as [w Hw].
    exists w. destruct (files_le_pipe s s' a p' w Hf Ha) as (q & Ha'' & Hw'). congruence.
Qed.

(** A computation that leaves descriptors, files and pipes alone. *)
Definition frames {A} (m : M (psys fsys) A) : Prop := forall s, lp m (fun _ s' => same_fds s s') s.

Lemma frames_ret {A} (a : A) : frames (mret a).
Proof. intros s. by apply lp_ret. Qed.
Lemma frames_bind {A B} (m : M (psys fsys) A) (k : A -> M (psys fsys) B) : frames m -> (forall a, frames (k a)) -> frames (mbind k m).
Proof.
  intros Hm Hk s. apply lp_bind. eapply lp_mono; [apply Hm|]. intros a s1 H1. eapply lp_mono; [apply Hk|].
  intros b s2 H2. by trans s1.
Qed.
Lemma frames_get : frames get.
Proof. intros s. by apply lp_get. Qed.
Lemma frames_gets {A} (g : psys fsys -> A) : frames (gets g).
Proof. intros s. by apply lp_gets. Qed.
Lemma frames_panic {A} msg : frames (panic msg : M _ A).
Proof. intros s. apply lp_panic. Qed.
Lemma frames_fuel {A} : frames (out_of_fuel : M _ A).
Proof. intros s a s' E. done. Qed.
Lemma frames_pmod i g : (forall p, slot_le p (g p)) -> frames (pmod i g).
Proof.
  intros H s. apply lp_modify. split; [|done]. simpl. unfold proc_at. destruct (ptable s !! i) as [p|] eqn:E.
  - simpl. rewrite <- (list_insert_id (ptable s) i p E) at 1. apply Forall2_insert; [done|apply H].
  - rewrite list_insert_ge by (by apply lookup_ge_None). done.
Qed.
Lemma frames_km {A} (m : M kmem A) : frames (km_op m).
Proof. intros s. apply lp_zoom. intros a k _. by split. Qed.
Lemma frames_fl {A} (m : M fsys A) : (forall s, lp m (fun _ s' => files_le s s') s) -> frames (fl_op m).
Proof. intros H s. apply lp_zoom. eapply lp_mono; [apply H|]. intros a f Hf. by split. Qed.
Lemma frames_modify (g : psys fsys -> psys fsys) : (forall s, same_fds s (g s)) -> frames (modify g).
Proof. intros H s. apply lp_modify. apply H. Qed.

Lemma same_files_le' (s s' : fsys) : ftable s' = ftable s -> pipes s' = pipes s -> files_le s s'.
Proof.
  intros A B. split; [|intros a; by rewrite B]. intros f. exists (f_off (file_at s f)). unfold file_at. rewrite A.
  fold (file_at s f). by destruct (file_at s f).
Qed.
Lemma same_files_le s s' : same_files s s' -> files_le s s'.
Proof. intros (A & B & _). by apply same_files_le'. Qed.
Lemma frames_fs {A} (m : M (fstate S) A) : frames (fs_call m).
Proof. apply frames_fl. intros s. apply lp_fs_op. intros a s' H. by apply same_files_le. Qed.

(** ** Changes of the invariant *)

End fds.

(** The parts of the invariant [I] that do not change. *)
Ltac keep I := try first [exact (fi_len _ _ _ _ I)|exact (fi_procs _ _ _ _ I)|exact (fi_closed _ _ _ _ I)|exact (fi_refs _ _ _ _ I)|
  exact (fi_none _ _ _ _ I)|exact (fi_type _ _ _ _ I)|exact (fi_new _ _ _ _ I)|exact (fi_pipe _ _ _ _ I)|exact (fi_uniq _ _ _ _ I)|
  exact (fi_ends _ _ _ _ I)|exact (fi_open _ _ _ _ I)].

Section changes.
Context {S : Type}.
Notation fsys := (fsys S).
Implicit Types (s : fsys) (T : list proc).

Definition bump (x : nat -> Z) (f : nat) (d : Z) : nat -> Z := fun g => x g + if decide (g = f) then d else 0.

Lemma fd_inv_ext T s x y N : (forall f, x f = y f) -> fd_inv T s x N -> fd_inv T s y N.
Proof. intros E I. split; keep I. intros f. rewrite <- E. apply I. Qed.

Lemma total_bounds T f : Forall (fun p => zlen (p_ofile p) = NOFILE) T -> 0 <= total T f <= 16 * Z.of_nat (length T).
Proof.
  intros H. induction H as [|p T Hp H IH]; [simpl; lia|]. simpl total. rewrite length_cons. assert (X := count_bounds f (p_ofile p)).
  unfold zlen, NOFILE in Hp. lia.
Qed.

Lemma fd_inv_total T s x N f : fd_inv T s x N -> 0 <= total T f <= 1024.
Proof.
  intros I. assert (X := total_bounds T f). rewrite (fi_procs _ _ _ _ I) in X. unfold NPROC in X.
  assert (0 <= total T f <= 16 * Z.of_nat 64); [|lia]. apply X. apply Forall_forall. intros p Hp. by apply I.
Qed.

(** A descriptor changes. *)
Lemma fd_inv_fd T s x N i c fd v : fd_inv T s x N -> T !! i = Some c -> busy c -> 0 <= fd < NOFILE ->
  fd_inv (<[i := set_ofile (wr (p_ofile c) fd v) c]> T) s
    (fun f => x f + (if decide (rd None (p_ofile c) fd = Some f) then 1 else 0) - if decide (v = Some f) then 1 else 0) N.
Proof.
  intros I Hi Hb Hfd. assert (Hl := fi_len _ _ _ _ I c ltac:(by eapply list_elem_of_lookup_2)).
  assert (E : forall p, p ∈ <[i := set_ofile (wr (p_ofile c) fd v) c]> T -> p = set_ofile (wr (p_ofile c) fd v) c \/ p ∈ T).
  { intros p Hp. apply list_elem_of_lookup in Hp as [j Hj]. apply list_lookup_insert_Some in Hj as [(_ & -> & _)|[_ Hj]]; [by left|].
    right. by eapply list_elem_of_lookup_2. }
  split; keep I.
  - intros p [->|Hp]%E; [simpl; by rewrite zlen_wr|by apply I].
  - rewrite length_insert. exact (fi_procs _ _ _ _ I).
  - intros p [->|Hp]%E Nb; [done|by apply I].
  - intros f. rewrite (total_insert T i c) by done. simpl. rewrite count_wr by (rewrite Hl; done). rewrite (fi_refs _ _ _ _ I). lia.
Qed.

(** A slot keeps its descriptors and is closed or busy afterwards. *)
Lemma fd_inv_slot T (f : fsys) x N i c c' : fd_inv T f x N -> T !! i = Some c -> p_ofile c' = p_ofile c -> closed c' \/ busy c' ->
  fd_inv (<[i := c']> T) f x N.
Proof.
  intros I Hi Eo Hc. assert (E : forall p, p ∈ <[i := c']> T -> p = c' \/ p ∈ T).
  { intros p Hp. apply list_elem_of_lookup in Hp as [j Hj]. apply list_lookup_insert_Some in Hj as [(_ & -> & _)|[_ Hj]]; [by left|].
    right. by eapply list_elem_of_lookup_2. }
  split; keep I.
  - intros p [->|Hp]%E; [|by apply I]. rewrite Eo. apply I. by eapply list_elem_of_lookup_2.
  - rewrite length_insert. exact (fi_procs _ _ _ _ I).
  - intros p [->|Hp]%E Nb; [tauto|by apply I].
  - intros h. rewrite (total_insert T i c) by done. rewrite Eo, (fi_refs _ _ _ _ I). lia.
Qed.

(** A file changes, with its count. *)
Lemma file_at_fmod (s : fsys) f g h : (f < length (ftable s))%nat ->
  file_at (set_ftable (<[f := g]> (ftable s)) s) h = if decide (h = f) then g else file_at s h.
Proof.
  intros H. unfold file_at. simpl. case_decide; [subst; by rewrite list_lookup_insert_eq|by rewrite list_lookup_insert_ne].
Qed.

Lemma fd_inv_ref T s x N f r : fd_inv T s x N -> refs s f ≠ 0 -> r ≠ 0 ->
  fd_inv T (set_ftable (<[f := set_f_ref r (file_at s f)]> (ftable s)) s) (bump x f (r - refs s f)) N.
Proof.
  intros I Hf Hr. assert (L := open_lt s f Hf). assert (Y := file_at_fmod s f (set_f_ref r (file_at s f))).
  set (s' := set_ftable _ s) in *.
  assert (A : forall h, f_type (file_at s' h) = f_type (file_at s h) /\ f_pipe (file_at s' h) = f_pipe (file_at s h) /\
    f_writable (file_at s' h) = f_writable (file_at s h) /\ f_readable (file_at s' h) = f_readable (file_at s h)).
  { intros h. rewrite Y by done. case_decide; by subst. }
  assert (R : forall h, refs s' h = if decide (h = f) then r else refs s h).
  { intros h. unfold refs. rewrite Y by done. by case_decide. }
  assert (Z : forall h, refs s' h = 0 -> refs s h = 0) by (intros h; rewrite R; case_decide; by subst).
  split; keep I.
  - intros h. rewrite R. unfold bump. rewrite (fi_refs _ _ _ _ I f). case_decide; [subst; lia|].
    rewrite (fi_refs _ _ _ _ I h). lia.
  - intros h Hh. destruct (A h) as (-> & _). apply I. by apply Z.
  - intros h Hh. destruct (A h) as (-> & _). apply I. intros X. apply Hh. rewrite R. case_decide; [subst; done|done].
  - intros h. destruct (A h) as (-> & _). apply I.
  - intros h. destruct (A h) as (-> & -> & -> & ->). apply I.
  - intros h g. destruct (A h) as (-> & -> & -> & _), (A g) as (-> & -> & -> & _). apply I.
  - intros a p w Ha Hw. destruct (fi_ends _ _ _ _ I a p w Ha Hw) as (h & X). exists h. by destruct (A h) as (-> & -> & -> & _).
Qed.
End changes.

Create HintDb frames.
#[export] Hint Resolve frames_ret frames_get frames_gets frames_panic frames_fuel frames_km frames_fs : frames.

(** [frame] takes a computation apart. *)
Ltac frame_step :=
  lazymatch goal with
  | |- frames (mbind _ _) => apply frames_bind; [|intros ?]
  | |- frames (match ?x with _ => _ end) => destruct x
  | |- frames (let _ := _ in _) => cbv zeta
  | |- frames (pmod _ _) => apply frames_pmod; intros ?; by split
  | |- frames (pget _) => apply frames_gets
  | |- frames _ => solve [eauto with frames]
  end.
Ltac frame := repeat frame_step.

(** ** The calls that do not touch descriptors *)

Section calls.
Context {S : Type} {BS : BlockStore S} {TX : TxOps S}.
Context (devsw : Z -> devsw_entry S) (kend data : Z).
#[local] Instance descriptors_ops : FileOps (fsys S) := file_ops devsw kend.
Notation psys := (psys (fsys S)).

Lemma frames_pgflt cur cr2 err : frames (S := S) (pgflt kend cur cr2 err).
Proof. unfold pgflt. frame. Qed.
Hint Resolve frames_pgflt : frames.

Lemma frames_touch cur va : frames (S := S) (touch kend cur va).
Proof. unfold touch. frame. Qed.
Hint Resolve frames_touch : frames.

Lemma frames_user_load8 cur va : frames (S := S) (user_load8 kend cur va).
Proof. unfold user_load8. frame. Qed.
Lemma frames_user_store8 cur va v : frames (S := S) (user_store8 kend cur va v).
Proof. unfold user_store8. frame. Qed.
Hint Resolve frames_user_load8 frames_user_store8 : frames.

Lemma frames_user_load cur va n : frames (S := S) (user_load kend cur va n).
Proof. revert va. induction n; intros va; cbn [user_load]; frame. Qed.
Lemma frames_user_store cur va l : frames (S := S) (user_store kend cur va l).
Proof. revert va. induction l; intros va; cbn [user_store]; frame. Qed.
Lemma frames_fetchstr_from fuel cur a ep : frames (S := S) (fetchstr_from kend fuel cur a ep).
Proof. revert a. induction fuel; intros a; cbn [fetchstr_from]; frame. Qed.
Hint Resolve frames_user_load frames_user_store frames_fetchstr_from : frames.

Lemma frames_fetchint cur a : frames (S := S) (fetchint kend cur a).
Proof. unfold fetchint. frame. Qed.
Lemma frames_fetchstr cur a : frames (S := S) (fetchstr kend cur a).
Proof. unfold fetchstr. frame. Qed.
Hint Resolve frames_fetchint frames_fetchstr : frames.

Lemma frames_argint cur n : frames (S := S) (argint kend cur n).
Proof. unfold argint, tf_load. frame. Qed.
Hint Resolve frames_argint : frames.
Lemma frames_argptr cur n size : frames (S := S) (argptr kend cur n size).
Proof. unfold argptr. frame. Qed.
Lemma frames_argstr cur n : frames (S := S) (argstr kend cur n).
Proof. unfold argstr. frame. Qed.
Hint Resolve frames_argptr frames_argstr : frames.

Lemma frames_begin : frames (S := S) begin_op'.
Proof. apply frames_fs. Qed.
Lemma frames_end : frames (S := S) end_op'.
Proof. apply frames_fs. Qed.
Hint Resolve frames_begin frames_end : frames.
Lemma frames_fail : frames (S := S) fail_op.
Proof. unfold fail_op. frame. Qed.
Lemma frames_cwd_of cur : frames (S := S) (cwd_of cur).
Proof. unfold cwd_of, null_access. frame. Qed.
Hint Resolve frames_fail frames_cwd_of : frames.
Lemma frames_namei_of cur path : frames (S := S) (namei_of devsw cur path).
Proof. unfold namei_of. frame. Qed.
Lemma frames_nameiparent_of cur path : frames (S := S) (nameiparent_of devsw cur path).
Proof. unfold nameiparent_of. frame. Qed.
Lemma frames_add_link ip d : frames (S := S) (add_link ip d).
Proof. unfold add_link. frame. Qed.
Lemma frames_inode_of ip : frames (S := S) (inode_of ip).
Proof. apply frames_fs. Qed.
Hint Resolve frames_namei_of frames_nameiparent_of frames_add_link frames_inode_of : frames.

Lemma frames_sys_link cur : frames (S := S) (sys_link devsw kend cur).
Proof. unfold sys_link. frame. Qed.

Lemma frames_isdirempty_from fuel dp off : frames (S := S) (isdirempty_from devsw fuel dp off).
Proof. revert off. induction fuel; intros off; cbn [isdirempty_from]; frame. Qed.
Hint Resolve frames_isdirempty_from : frames.
Lemma frames_isdirempty dp : frames (S := S) (isdirempty devsw dp).
Proof. unfold isdirempty. frame. Qed.
Hint Resolve frames_isdirempty : frames.

Lemma frames_sys_unlink cur : frames (S := S) (sys_unlink devsw kend cur).
Proof. unfold sys_unlink. frame. Qed.

Lemma frames_create cur path type ma mi : frames (S := S) (create devsw cur path type ma mi).
Proof. unfold create. frame. Qed.
Hint Resolve frames_create : frames.
Lemma frames_open_inode cur path omode : frames (S := S) (open_inode devsw cur path omode).
Proof. unfold open_inode. frame. Qed.
Lemma frames_sys_mkdir cur : frames (S := S) (sys_mkdir devsw kend cur).
Proof. unfold sys_mkdir. frame. Qed.
Lemma frames_sys_mknod cur : frames (S := S) (sys_mknod devsw kend cur).
Proof. unfold sys_mknod. frame. Qed.
Lemma frames_sys_chdir cur : frames (S := S) (sys_chdir devsw kend cur).
Proof. unfold sys_chdir. frame. Qed.
Hint Resolve frames_open_inode : frames.

Lemma frames_loaduvm_from fuel d a ip off i sz : frames (S := S) (loaduvm_from devsw fuel d a ip off i sz).
Proof. revert i. induction fuel; intros i; cbn [loaduvm_from]; frame. Qed.
Hint Resolve frames_loaduvm_from : frames.
Lemma frames_loaduvm d a ip off sz : frames (S := S) (loaduvm devsw d a ip off sz).
Proof. unfold loaduvm. frame. Qed.
Hint Resolve frames_loaduvm : frames.
Lemma frames_load_segments n d ip off sz : frames (S := S) (load_segments devsw kend n d ip off sz).
Proof. revert off sz. induction n; intros off sz; cbn [load_segments]; frame. Qed.
Lemma frames_push_args cur d sp argc argv : frames (S := S) (push_args cur d sp argc argv).
Proof. revert sp argc. induction argv; intros sp argc; cbn [push_args]; unfold word0; frame. Qed.
Hint Resolve frames_load_segments frames_push_args : frames.
Lemma frames_exec_stack cur d sz argv : frames (S := S) (exec_stack kend cur d sz argv).
Proof. unfold exec_stack, word0. frame. Qed.
Lemma frames_exec_image ip : frames (S := S) (exec_image devsw kend data ip).
Proof. unfold exec_image. frame. Qed.
Hint Resolve frames_exec_stack frames_exec_image : frames.
Lemma frames_exec cur path argv : frames (S := S) (exec devsw kend data cur path argv).
Proof. unfold exec, exec_switch, tf_store. frame. Qed.
Lemma frames_fetch_argv n cur u i : frames (S := S) (fetch_argv kend n cur u i).
Proof. revert i. induction n; intros i; cbn [fetch_argv]; frame. Qed.
Hint Resolve frames_exec frames_fetch_argv : frames.
Lemma frames_sys_exec cur : frames (S := S) (sys_exec devsw kend data cur).
Proof. unfold sys_exec. frame. Qed.

(** Reading and writing move offsets and bytes. *)

Lemma lp_off f o s (Q : unit -> fsys S -> Prop) : (forall s', files_le s s' -> Q tt s') ->
  lp (fmod f (fun x => set_f_off (o x) x)) Q s.
Proof.
  intros H. apply lp_modify. apply H. split; [|done]. intros g. unfold file_at. simpl. destruct (decide (g = f)) as [->|N].
  - destruct (decide (f < length (ftable s))%nat) as [L|L].
    + rewrite list_lookup_insert_eq by done. simpl. by eexists.
    + rewrite list_insert_ge by lia. exists (f_off (default file0 (ftable s !! f))). by destruct (default file0 _).
  - rewrite list_lookup_insert_ne by done. exists (f_off (default file0 (ftable s !! g))). by destruct (default file0 _).
Qed.

Lemma lp_fs_le {A} (m : M (fstate S) A) s (Q : A -> fsys S -> Prop) : (forall a s', files_le s s' -> Q a s') -> lp (fs_op m) Q s.
Proof. intros H. apply lp_fs_op. intros a s' X. apply H. by apply same_files_le. Qed.

Lemma pipe_le s a p p' w : pipes s !! a = Some p -> readopen p' = readopen p -> writeopen p' = writeopen p ->
  files_le (S := S) s (add_woken a w (set_pipes (<[a := p']> (pipes s)) s)).
Proof.
  intros E R W. split; [intros f; exists (f_off (file_at s f)); unfold file_at; simpl; by destruct (default file0 _)|].
  intros b. simpl. destruct (decide (b = a)) as [->|]; [rewrite lookup_insert_eq, E; simpl; by rewrite R, W|by rewrite lookup_insert_ne].
Qed.

Lemma write_loop_open p l : readopen (write_loop p l).1 = readopen p /\ writeopen (write_loop p l).1 = writeopen p.
Proof. revert p. induction l as [|c l IH]; intros p; cbn [write_loop]; [done|]. destruct (full p); [done|]. by destruct (IH (put_byte p c)) as [-> ->]. Qed.
Lemma read_loop_open p n : readopen (read_loop p n).1 = readopen p /\ writeopen (read_loop p n).1 = writeopen p.
Proof.
  revert p. induction n as [|n IH]; intros p; cbn [read_loop]; [done|]. destruct (is_empty p); [done|].
  destruct (take_byte p) as [c q] eqn:E. specialize (IH q). destruct (read_loop q n) as [q' l]. simpl in *.
  assert (X : readopen q = readopen p /\ writeopen q = writeopen p) by (unfold take_byte in E; by simplify_eq). by destruct X as [<- <-].
Qed.

Lemma lp_fileread f kl n s : lp (fileread devsw f kl n) (fun _ s' => files_le s s') s.
Proof.
  unfold fileread. lp_step. lp_step. destruct (negb _); [by lp_step|]. destruct (f_type (file_at s f)); [lp_step| |].
  - destruct (pipes s !! f_pipe (file_at s f)) as [p|] eqn:E; [|lp_step]. destruct (piperead p kl n) as [[p' w] r] eqn:Er.
    lp_step. lp_step. lp_step. eapply pipe_le; [exact E|..]; unfold piperead in Er;
      (destruct (_ && _); [destruct kl; by simplify_eq|]); destruct (read_loop p _) as [q l] eqn:El; simplify_eq;
      assert (X := read_loop_open p (Z.to_nat n)); rewrite El in X; apply X.
  - lp_step. apply lp_fs_le. intros _ s1 H1. lp_step. apply lp_fs_le. intros r s2 H2. lp_step.
    apply lp_mono with (P := fun _ s3 => files_le s2 s3).
    { destruct (_ <? _); [apply (lp_off f (fun x => u32 (f_off x + r.1))); auto|by lp_step]. }
    intros _ s3 H3. lp_step. apply lp_fs_le. intros _ s4 H4. lp_step. trans s1; [done|]. trans s2; [done|]. by trans s3.
Qed.

Lemma lp_filewrite_from fuel f src i n s : lp (filewrite_from devsw fuel f src i n) (fun _ s' => files_le s s') s.
Proof.
  revert src i s. induction fuel as [|fuel IH]; intros src i s; cbn [filewrite_from]; destruct (i <? n); try (by lp_step); [by intros ? ?|].
  lp_step. lp_step. lp_step. apply lp_fs_le. intros _ s1 H1. lp_step. apply lp_fs_le. intros _ s2 H2.
  lp_step. apply lp_fs_le. intros r s3 H3. lp_step. apply lp_mono with (P := fun _ s4 => files_le s3 s4).
  { destruct (_ <? _); [apply (lp_off f (fun x => u32 (f_off x + r))); auto|by lp_step]. }
  intros _ s4 H4. lp_step. apply lp_fs_le. intros _ s5 H5. lp_step. apply lp_fs_le. intros _ s6 H6.
  assert (H : files_le s s6) by (trans s1; [done|]; trans s2; [done|]; trans s3; [done|]; trans s4; [done|]; by trans s5).
  destruct (_ <? _); [by lp_step|]. destruct (negb _); [lp_step|]. eapply lp_mono; [apply IH|]. intros z s7 H7. simpl in H7. by trans s6.
Qed.

Lemma lp_filewrite f kl src n rest s : lp (filewrite devsw f kl src n rest) (fun _ s' => files_le s s') s.
Proof.
  unfold filewrite. lp_step. lp_step. destruct (negb _); [by lp_step|]. destruct (f_type (file_at s f)); [lp_step| |].
  - destruct (pipes s !! f_pipe (file_at s f)) as [p|] eqn:E; [|lp_step]. destruct (pipewrite p kl n rest) as [[p' w] r] eqn:Er.
    lp_step. lp_step. lp_step. assert (X := write_loop_open p rest). unfold pipewrite in Er.
    destruct (write_loop p rest) as [q l]. simpl in X. assert (p' = q) as -> by (destruct l; [|destruct (_ || _)]; by simplify_eq).
    eapply pipe_le; [exact E|apply X..].
  - lp_step. eapply lp_mono; [apply lp_filewrite_from|]. intros i s' H. by lp_step.
Qed.

Lemma lp_filestat f s : lp (filestat f) (fun _ s' => files_le (S := S) s s') s.
Proof.
  unfold filestat. lp_step. lp_step. case_bool_decide; [|by lp_step]. lp_step. apply lp_fs_le. intros _ s1 H1.
  lp_step. apply lp_fs_le. intros st s2 H2. lp_step. apply lp_fs_le. intros _ s3 H3. lp_step. trans s1; [done|]. by trans s2.
Qed.

Lemma frames_argfd cur n : frames (S := S) (argfd kend cur n).
Proof. unfold argfd. frame. Qed.
Hint Resolve frames_argfd : frames.
Lemma frames_rw_args cur : frames (S := S) (rw_args kend cur).
Proof. unfold rw_args. frame. Qed.
Hint Resolve frames_rw_args : frames.
Lemma frames_sys_read cur : frames (S := S) (sys_read devsw kend cur).
Proof. unfold sys_read. frame. apply frames_fl. intros s. apply lp_fileread. Qed.
Lemma frames_sys_write cur rest : frames (S := S) (sys_write devsw kend cur rest).
Proof. unfold sys_write. frame. apply frames_fl. intros s. apply lp_filewrite. Qed.
Lemma frames_sys_fstat cur : frames (S := S) (sys_fstat kend cur).
Proof. unfold sys_fstat. frame. apply frames_fl. intros s. apply lp_filestat. Qed.

(** Also most of proc.c. *)
Lemma frames_wakeup1 ch : frames (S := S) (wakeup1 ch).
Proof.
  apply frames_modify. intros s. split; [|done]. simpl. induction (ptable s) as [|p T IH]; constructor; [|done].
  destruct (_ && _) eqn:E; [|done]. split; [done|]. intros _. by right; left.
Qed.
Hint Resolve frames_wakeup1 : frames.
Lemma frames_reparent cur i n : frames (S := S) (reparent cur i n).
Proof. revert i. induction n as [|n IH]; intros i; cbn [reparent]; frame. Qed.
Lemma frames_kill pid : frames (S := S) (kill pid).
Proof.
  unfold kill. frame. apply frames_pmod. intros q. simpl. case_bool_decide as E; [|by split]. split; [done|]. intros _. by right; left.
Qed.
Lemma frames_growproc cur n : frames (S := S) (growproc kend cur n).
Proof. unfold growproc. frame. Qed.
End calls.
#[export] Hint Resolve frames_argint frames_argptr frames_argstr frames_argfd frames_user_load frames_user_store : frames.
#[export] Hint Resolve frames_begin frames_end frames_fail frames_open_inode frames_wakeup1 frames_reparent : frames.
