(* ===== verification/DescriptorOps.v ===== *)
(** * The calls that change descriptors

    [dup], [dup2], [close], [open], [pipe], [fork] and [exit] keep the invariant
    of Descriptors.v. *)

From S2P Require Import Prelude Param Cstring SleepLock Layout BlockStore Fs Mmu Kalloc Vm Pipe FileOps Proc ProcTable File UserAccess Sysfile Exec Descriptors.

Section files.
Context {S : Type} {BS : BlockStore S} {TX : TxOps S}.
Context (kend : Z).
Notation fsys := (fsys S).
Implicit Types (s : fsys) (T : list proc).

(** ** Files *)

(** A file that is not a pipe is replaced by one that is not. *)
Lemma fd_inv_file T s x N f g N' : fd_inv T s x N -> (f < length (ftable s))%nat ->
  f_type (file_at s f) ≠ FD_PIPE -> f_type g ≠ FD_PIPE ->
  (f_ref g = 0 -> f_type g = FD_NONE) -> (f_ref g ≠ 0 -> f ∉ N' -> f_type g ≠ FD_NONE) -> (f ∈ N' -> f_type g = FD_NONE) ->
  (forall h, h ≠ f -> h ∈ N' <-> h ∈ N) ->
  fd_inv T (set_ftable (<[f := g]> (ftable s)) s) (bump x f (f_ref g - refs s f)) N'.
Proof.
  intros I L Ho Hg G0 G1 G2 HN. assert (Y := fun h => file_at_fmod s f g h L).
  set (s' := set_ftable _ s) in *.
  assert (R : forall h, refs s' h = if decide (h = f) then f_ref g else refs s h).
  { intros h. unfold refs. rewrite Y. by case_decide. }
  split; keep I.
  - intros h. rewrite R. unfold bump. rewrite (fi_refs _ _ _ _ I f). case_decide; [subst; lia|]. rewrite (fi_refs _ _ _ _ I h). lia.
  - intros h. rewrite R, Y. case_decide; [done|]. apply I.
  - intros h. rewrite R, Y. case_decide; [subst; done|]. rewrite HN by done. apply I.
  - intros h. rewrite Y. case_decide; [by subst|]. rewrite HN by done. apply I.
  - intros h. rewrite Y. case_decide; [done|]. apply I.
  - intros h h'. rewrite !Y. repeat case_decide; subst; try done. apply I.
  - intros a p w Ha Hw. destruct (fi_ends _ _ _ _ I a p w Ha Hw) as (h & X1 & X2 & X3). exists h. rewrite Y.
    case_decide; [subst; done|done].
Qed.

(** The file of one end of a pipe is closed. *)
Lemma fd_inv_end T s x N f g p p' : fd_inv T s x N -> f_type (file_at s f) = FD_PIPE -> refs s f = 1 -> f_ref g = 0 -> f_type g = FD_NONE ->
  pipes s !! f_pipe (file_at s f) = Some p -> (pipeclose p (f_writable (file_at s f))).1.1 = p' ->
  fd_inv T (set_pipes (if (pipeclose p (f_writable (file_at s f))).2 then delete (f_pipe (file_at s f)) (pipes s)
                       else <[f_pipe (file_at s f) := p']> (pipes s))
              (set_ftable (<[f := g]> (ftable s)) s)) (bump x f (-1)) N.
Proof.
  intros I Hp Hr G0 Gt Ep Ec. assert (L : (f < length (ftable s))%nat) by (apply open_lt; unfold refs in Hr; lia).
  assert (Y := fun h => file_at_fmod s f g h L). set (ff := file_at s f) in *. set (w := f_writable ff) in *. set (a := f_pipe ff) in *.
  set (P' := if (pipeclose p w).2 then delete a (pipes s) else <[a := p']> (pipes s)). set (s' := set_pipes P' _).
  assert (Y' : forall h, file_at s' h = if decide (h = f) then g else file_at s h) by (intros h; rewrite <- Y; done). clear Y.
  assert (R : forall h, refs s' h = if decide (h = f) then 0 else refs s h) by (intros h; unfold refs; rewrite Y'; case_decide; [done|done]).
  assert (Op : forall v, end_open p' v = end_open p v && negb (Bool.eqb v w)).
  { intros v. subst p'. unfold pipeclose, end_open. destruct w, v; simpl; rewrite ?andb_true_r, ?andb_false_r; done. }
  assert (Fr : (pipeclose p w).2 = negb (end_open p' true) && negb (end_open p' false)).
  { subst p'. unfold pipeclose, end_open. destruct w; simpl; by rewrite andb_comm. }
  assert (Pa : forall b q v, P' !! b = Some q -> end_open q v = true ->
    (b = a /\ v = negb w /\ end_open p v = true) \/ (b ≠ a /\ pipes s !! b = Some q)).
  { intros b q v Hb Hv. unfold P' in Hb. destruct (decide (b = a)) as [->|Nb].
    - destruct (pipeclose p w).2; [by rewrite lookup_delete_eq in Hb|]. rewrite lookup_insert_eq in Hb. simplify_eq. left.
      rewrite Op in Hv. apply andb_true_iff in Hv as [Hv1 Hv2]. split; [done|]. split; [|done]. by destruct v, w.
    - right. split; [done|]. destruct (pipeclose p w).2; [by rewrite lookup_delete_ne in Hb|by rewrite lookup_insert_ne in Hb]. }
  split; keep I.
  - intros h. rewrite R. unfold bump. case_decide; [subst; rewrite (fi_refs _ _ _ _ I f) in Hr; lia|]. rewrite (fi_refs _ _ _ _ I h). lia.
  - intros h. rewrite R, Y'. case_decide; [done|]. apply I.
  - intros h. rewrite R, Y'. case_decide; [done|]. apply I.
  - intros h Hh. rewrite Y'. case_decide; [done|]. by apply (fi_new _ _ _ _ I).
  - intros h. rewrite Y'. case_decide as Dh; [by rewrite Gt|]. intros X. destruct (fi_pipe _ _ _ _ I h X) as (X1 & q & X2 & X3). split; [done|].
    cbn [pipes set_pipes s']. unfold P'. destruct (decide (f_pipe (file_at s h) = a)) as [Ea|Na].
    + assert (Nw : f_writable (file_at s h) ≠ w) by (intros E; apply Dh; by apply (fi_uniq _ _ _ _ I)).
      rewrite Ea in *. rewrite Ep in X2. simplify_eq.
      assert (Z : end_open (pipeclose q w).1.1 (f_writable (file_at s h)) = true).
      { rewrite Op, X3. simpl. apply negb_true_iff. apply Bool.eqb_false_iff. done. }
      destruct (pipeclose q w).2 eqn:Ef.
      { exfalso. symmetry in Fr. apply andb_true_iff in Fr as [F1 F2]. destruct (f_writable (file_at s h)); rewrite Z in *; done. }
      exists (pipeclose q w).1.1. by rewrite lookup_insert_eq.
    + exists q. destruct (pipeclose p w).2; [by rewrite lookup_delete_ne|by rewrite lookup_insert_ne].
  - intros h h'. rewrite !Y'. repeat case_decide; subst; rewrite ?Gt; try done. apply I.
  - intros b q v Hb Hv. destruct (Pa b q v Hb Hv) as [(-> & -> & Ho)|[Nb Hb']].
    + destruct (fi_ends _ _ _ _ I a p (negb w) Ep Ho) as (h & X1 & X2 & X3). exists h. rewrite Y'. case_decide; [subst h|done].
      exfalso. fold ff w in X3. by destruct w.
    + destruct (fi_ends _ _ _ _ I b q v Hb' Hv) as (h & X1 & X2 & X3). exists h. rewrite Y'. case_decide; [subst h; done|done].
  - intros b q Hb. cbn [pipes set_pipes s'] in Hb. unfold P' in Hb. destruct (decide (b = a)) as [->|Nb].
    + destruct (pipeclose p w).2 eqn:Ef; [by rewrite lookup_delete_eq in Hb|]. rewrite lookup_insert_eq in Hb. simplify_eq.
      destruct (end_open (pipeclose p w).1.1 true) eqn:E1; [by exists true|]. destruct (end_open (pipeclose p w).1.1 false) eqn:E2; [by exists false|]. done.
    + destruct (pipeclose p w).2; [rewrite lookup_delete_ne in Hb by done|rewrite lookup_insert_ne in Hb by done]; by eapply fi_open.
Qed.

Definition pipe_file (w : bool) (a : Z) (f : file) : file := File FD_PIPE (f_ref f) (negb w) w a (f_ip f) (f_off f).

(** A new pipe with its two files. *)
Lemma fd_inv_pipe T s x N f0 f1 a pg s' : fd_inv T s x N -> f0 ∈ N -> f1 ∈ N -> f0 ≠ f1 -> refs s f0 ≠ 0 -> refs s f1 ≠ 0 ->
  pipes s !! a = None -> pipes s' = <[a := pipeinit pg]> (pipes s) ->
  (forall h, file_at s' h = if decide (h = f0) then pipe_file false a (file_at s f0)
     else if decide (h = f1) then pipe_file true a (file_at s f1) else file_at s h) ->
  fd_inv T s' x (N ∖ {[f0; f1]}).
Proof.
  intros I N0 N1 Ne R0 R1 Ha Ep Y.
  assert (R : forall h, refs s' h = refs s h) by (intros h; unfold refs; rewrite Y; repeat case_decide; by subst).
  assert (Old : forall h, f_type (file_at s h) = FD_PIPE -> h ≠ f0 /\ h ≠ f1 /\ f_pipe (file_at s h) ≠ a).
  { intros h X. split_and!.
    - intros ->. by rewrite (fi_new _ _ _ _ I) in X.
    - intros ->. by rewrite (fi_new _ _ _ _ I) in X.
    - destruct (fi_pipe _ _ _ _ I h X) as (_ & q & Hq & _). congruence. }
  split; keep I.
  - intros h. rewrite R. apply I.
  - intros h. rewrite R, Y. intros X. repeat case_decide; subst; try done. by apply (fi_none _ _ _ _ I).
  - intros h. rewrite R, Y. intros X Hn. repeat case_decide; try done. apply (fi_type _ _ _ _ I); [done|]. set_solver.
  - intros h Hh. rewrite Y. rewrite !decide_False by set_solver. apply (fi_new _ _ _ _ I). set_solver.
  - intros h. rewrite Y, Ep. case_decide; [|case_decide].
    + intros _. split; [done|]. exists (pipeinit pg). by rewrite lookup_insert_eq.
    + intros _. split; [done|]. exists (pipeinit pg). by rewrite lookup_insert_eq.
    + intros X. destruct (Old h X) as (_ & _ & Na). rewrite lookup_insert_ne by done. by apply (fi_pipe _ _ _ _ I).
  - intros h h'. rewrite !Y. intros X X'. repeat case_decide; subst; simpl in *; try done.
    all: intros E; try (destruct (Old _ X) as (_ & _ & Na); congruence); try (destruct (Old _ X') as (_ & _ & Na); congruence).
    by apply (fi_uniq _ _ _ _ I).
  - intros b q w Hb Hw. rewrite Ep in Hb. destruct (decide (b = a)) as [->|Nb].
    + exists (if w then f1 else f0). rewrite Y. destruct w; [rewrite decide_False by done|]; rewrite decide_True by done; done.
    + rewrite lookup_insert_ne in Hb by done. destruct (fi_ends _ _ _ _ I b q w Hb Hw) as (h & X1 & X2 & X3). exists h. rewrite Y.
      destruct (Old h X1) as (? & ? & _). by rewrite !decide_False.
  - intros b q Hb. rewrite Ep in Hb. destruct (decide (b = a)) as [->|Nb].
    + rewrite lookup_insert_eq in Hb. simplify_eq. by exists true.
    + rewrite lookup_insert_ne in Hb by done. by eapply fi_open.
Qed.

(** ** The routines of file.c *)

Lemma lp_filealloc_inv T s x N : fd_inv T s x N -> (forall f, 0 <= x f) ->
  lp filealloc (fun r s' => match r with
    | None => s' = s
    | Some f => fd_inv T s' (bump x f 1) (N ∪ {[f]}) /\ refs s f = 0 /\ x f = 0 /\ pipes s' = pipes s
    end) s.
Proof.
  intros I Hx. unfold filealloc, fmod. lp_step. lp_step. destruct (list_find _ (ftable s)) as [[f g]|] eqn:E; [|by lp_step].
  apply list_find_Some in E as (Hf & Hr & _). lp_step. lp_step. lp_step.
  assert (Ef : file_at s f = g) by (unfold file_at; by rewrite Hf). assert (R0 : refs s f = 0) by (unfold refs; by rewrite Ef).
  assert (Et : f_type (file_at s f) = FD_NONE) by (by apply (fi_none _ _ _ _ I)).
  split; [|split; [done|]].
  - assert (X := fd_inv_file T s x N f (set_f_ref 1 (file_at s f)) (N ∪ {[f]}) I (lookup_lt_Some _ _ _ Hf)). rewrite R0 in X.
    apply X; simpl; rewrite ?Et; try done; set_solver.
  - split; [|done]. assert (Y := fi_refs _ _ _ _ I f). assert (Z := fd_inv_total _ _ _ _ f I). specialize (Hx f). lia.
Qed.

Lemma lp_filedup_inv T s x N f : fd_inv T s x N -> x f <= 1 ->
  lp (filedup f) (fun y s' => y = f /\ fd_inv T s' (bump x f 1) N /\ pipes s' = pipes s) s.
Proof.
  intros I Hx. unfold filedup, fmod. lp_step. lp_step. destruct (Z.ltb_spec (f_ref (file_at s f)) 1) as [L|L]; [lp_step|].
  lp_step. lp_step. lp_step. split; [done|]. split; [|done]. assert (B := fd_inv_total _ _ _ _ f I). assert (E := fi_refs _ _ _ _ I f).
  assert (E1 : s32 (f_ref (file_at s f) + 1) = f_ref (file_at s f) + 1) by (unfold refs in E; mlia). rewrite E1.
  eapply fd_inv_ext; [|apply (fd_inv_ref T s x N f (f_ref (file_at s f) + 1) I); unfold refs; lia].
  intros h. unfold bump, refs. case_decide; lia.
Qed.

Lemma lp_pipe_close_pipes a w s k :
  lp (pipe_close kend a w) (fun _ y => exists p, pipes s !! a = Some p /\ ftable y.1 = ftable s /\
    pipes y.1 = if (pipeclose p w).2 then delete a (pipes s) else <[a := (pipeclose p w).1.1]> (pipes s)) (s, k).
Proof.
  unfold pipe_close. lp_step. lp_step. cbn [fst]. destruct (pipes s !! a) as [p|] eqn:E; [|lp_step].
  destruct (pipeclose p w) as [[p' wk] fr] eqn:Ec. lp_step. lp_step. destruct fr.
  - lp_step. lp_step. lp_step. intros [] k' _. exists p. by rewrite Ec.
  - lp_step. exists p. by rewrite Ec.
Qed.

Lemma lp_fileclose_inv T s k x N f : fd_inv T s x N ->
  lp (fileclose kend f) (fun _ y => fd_inv T y.1 (bump x f (-1)) (if decide (refs s f = 1) then N ∖ {[f]} else N) /\
    (f_type (file_at s f) ≠ FD_PIPE -> pipes y.1 = pipes s)) (s, k).
Proof.
  intros I. unfold fileclose. lp_step. lp_step. cbn [fst]. destruct (Z.ltb_spec (f_ref (file_at s f)) 1) as [L|L]; [lp_step|].
  assert (Hf : (f < length (ftable s))%nat) by (apply open_lt; lia).
  unfold fsys_op, fmod. lp_step. lp_step. lp_step. cbn [fst snd]. destruct (Z.ltb_spec 0 (f_ref (file_at s f) - 1)) as [P|P].
  { lp_step. cbn [fst]. rewrite decide_False by (unfold refs; lia). split; [|done].
    eapply fd_inv_ext; [|apply (fd_inv_ref T s x N f (f_ref (file_at s f) - 1) I); unfold refs; lia].
    intros h. unfold bump, refs. case_decide; lia. }
  assert (E1 : refs s f = 1) by (unfold refs; lia). rewrite decide_True by done. lp_step. lp_step. lp_step. cbn [fst snd].
  rewrite (file_at_fmod s f _ f Hf), decide_True by done. cbn [ftable set_ftable]. rewrite list_insert_insert_eq.
  set (g := set_f_type FD_NONE _). set (s1 := set_ftable _ _).
  assert (Es : s1 = set_ftable (<[f := g]> (ftable s)) s) by done.
  assert (J : f_type (file_at s f) ≠ FD_PIPE -> fd_inv T s1 (bump x f (-1)) (N ∖ {[f]})).
  { intros Np. rewrite Es. assert (X := fd_inv_file T s x N f g (N ∖ {[f]}) I Hf Np). rewrite E1 in X. apply X; try done; set_solver. }
  destruct (f_type (file_at s f)) eqn:Et.
  - lp_step. cbn [fst]. split; [by apply J|done].
  - eapply lp_mono; [apply lp_pipe_close_pipes|]. intros [] [s' k'] (p & Ep & Ef & Ep'). cbn [fst] in *. split; [|done].
    assert (X := fd_inv_end T s x N f g p _ I Et E1 ltac:(done) ltac:(done) Ep ltac:(reflexivity)).
    assert (Nf : f ∉ N) by (intros Y; by rewrite (fi_new _ _ _ _ I f Y) in Et).
    replace (N ∖ {[f]}) with N by set_solver. eapply fd_inv_le; [exact X|done|]. apply same_files_le'; [done|]. by rewrite Ep'.
  - lp_step. eapply lp_mono; [apply lp_iput_op|]. intros [] s' Sf. cbn [fst]. split; [|intros _; by destruct Sf as (_ & -> & _)].
    eapply fd_inv_le; [by apply J|done|by apply same_files_le].
Qed.

Definition zero : nat -> Z := fun _ => 0.

(** Two files that were just allocated are closed again. *)
Lemma lp_close_new T s k x N f : fd_inv T s (bump x f 1) (N ∪ {[f]}) -> f ∉ N -> refs s f = 1 ->
  lp (fileclose kend f) (fun _ y => fd_inv T y.1 x N /\ pipes y.1 = pipes s) (s, k).
Proof.
  intros I Hf R. eapply lp_mono; [by apply (lp_fileclose_inv T s k (bump x f 1) (N ∪ {[f]}))|]. intros _ y [J Ep].
  rewrite decide_True in J by done. split.
  - replace ((N ∪ {[f]}) ∖ {[f]}) with N in J by set_solver. eapply fd_inv_ext; [|exact J]. intros h. unfold bump. case_decide; lia.
  - apply Ep. rewrite (fi_new _ _ _ _ I); [done|set_solver].
Qed.

Lemma new_ref T s x N f : fd_inv T s (bump x f 1) N -> total T f = 0 -> x f = 0 -> refs s f = 1.
Proof. intros I E Hx. rewrite (fi_refs _ _ _ _ I). unfold bump. rewrite decide_True by done. lia. Qed.

Lemma lp_pipealloc_inv T s k : fd_inv T s zero ∅ ->
  (forall a k', kalloc k = Ret a k' -> a ≠ 0 -> pipes s !! a = None) ->
  lp (pipealloc kend) (fun r y => match r with
    | None => fd_inv T y.1 zero ∅
    | Some (f0, f1) => fd_inv T y.1 (bump (bump zero f0 1) f1 1) ∅
    end) (s, k).
Proof.
  intros I Hk. unfold pipealloc, fsys_op. lp_step. lp_step. eapply lp_mono; [by apply (lp_filealloc_inv T s zero ∅)|].
  intros [f0|] s1; cbn [fst snd]; [|intros ->; by lp_step]. intros (I1 & R0 & _ & P1).
  assert (T0 : total T f0 = 0) by (rewrite (fi_refs _ _ _ _ I) in R0; unfold zero in R0; lia).
  assert (R1 := new_ref T s1 zero _ f0 I1 T0 ltac:(done)).
  lp_step. lp_step. eapply lp_mono; [apply (lp_filealloc_inv T s1 _ _ I1)|].
  { intros h. unfold bump, zero. case_decide; lia. }
  intros [f1|] s2; cbn [fst snd].
  2: { intros ->. lp_step. eapply lp_mono; [by apply (lp_close_new T s1 k zero ∅ f0)|]. intros _ y [J _]. by lp_step. }
  intros (I2 & R1' & X1 & P2). assert (Ne : f1 ≠ f0) by (intros ->; lia).
  assert (T1 : total T f1 = 0) by (rewrite (fi_refs _ _ _ _ I1) in R1'; lia).
  assert (R2 := new_ref T s2 _ _ f1 I2 T1 X1).
  assert (R2' : refs s2 f0 = 1).
  { rewrite (fi_refs _ _ _ _ I2), T0. unfold bump, zero. repeat case_decide; congruence || lia. }
  lp_step. lp_step. intros a k' Ea. cbn [fst snd]. destruct (Z.eqb_spec a 0) as [->|Na].
  { (* no page *)
    assert (I2' : fd_inv T s2 (bump (bump zero f1 1) f0 1) ((∅ ∪ {[f1]}) ∪ {[f0]})).
    { replace ((∅ ∪ {[f1]}) ∪ {[f0]}) with ((∅ ∪ {[f0]}) ∪ {[f1]} : gset nat) by set_solver. eapply fd_inv_ext; [|exact I2].
      intros h. unfold bump. lia. }
    lp_step. eapply lp_mono; [apply (lp_close_new T s2 k' _ _ f0 I2'); [set_solver|done]|]. intros _ [s3 k3] [J _]. cbn [fst] in J.
    lp_step. eapply lp_mono; [apply (lp_close_new T s3 k3 zero ∅ f1 J); [set_solver|by apply (new_ref T s3 zero _ f1 J)]|].
    intros _ y [J' _]. by lp_step. }
  lp_step. lp_step. lp_step. lp_step. lp_step. lp_step. unfold fmod. lp_step. lp_step. lp_step. lp_step. lp_step. cbn [fst snd].
  assert (L0 : (f0 < length (ftable s2))%nat) by (apply open_lt; unfold refs in R2'; lia).
  assert (L1 : (f1 < length (ftable s2))%nat) by (apply open_lt; unfold refs in R2; lia).
  replace (∅ : gset nat) with ((∅ ∪ {[f0]} ∪ {[f1]}) ∖ {[f0; f1]} : gset nat) by set_solver.
  eapply (fd_inv_pipe T s2 _ _ f0 f1 a); [exact I2|set_solver|set_solver|done|lia|lia| |reflexivity|].
  - rewrite P2, P1. by apply (Hk a k').
  - intros h. rewrite file_at_fmod by (simpl; by rewrite length_insert). rewrite file_at_fmod by done. rewrite (decide_False (P := f1 = f0)) by done.
    rewrite file_at_fmod by done. repeat case_decide; subst; done.
Qed.
End files.

(** ** The system calls *)

Section calls.
Context {S : Type} {BS : BlockStore S} {TX : TxOps S}.
Context (devsw : Z -> devsw_entry S) (kend data forkret trapret : Z).
#[local] Instance descriptor_ops : FileOps (fsys S) := file_ops devsw kend.
Notation psys := (psys (fsys S)).
Implicit Types s : psys.

Definition fdx s (x : nat -> Z) (N : gset nat) : Prop := fd_inv (ptable s) (fl s) x N.
(** Between system calls. *)
Definition fds s : Prop := fdx s zero ∅.

Lemma busy_at s cur : busy (proc_at s cur) -> ptable s !! cur = Some (proc_at s cur).
Proof. unfold proc_at. intros H. destruct (ptable s !! cur); [done|]. by destruct H as [H|[H|H]]. Qed.

Lemma same_fds_at s s' cur : same_fds s s' -> busy (proc_at s cur) ->
  busy (proc_at s' cur) /\ p_ofile (proc_at s' cur) = p_ofile (proc_at s cur).
Proof.
  intros [H _] Hb. apply busy_at in Hb as E. destruct (Forall2_lookup_l _ _ _ _ _ H E) as (p' & E' & L & B).
  assert (X : proc_at s' cur = p') by (unfold proc_at; by rewrite E'). rewrite X. split; [by apply B|done].
Qed.

Lemma fdx_le s s' x N : fdx s x N -> same_fds s s' -> fdx s' x N.
Proof. intros I [A B]. by eapply fd_inv_le. Qed.

(** [Q] after a computation that leaves descriptors alone. *)
Lemma lp_frames {A} (m : M psys A) s cur x N (Q : A -> psys -> Prop) : frames m -> fdx s x N -> busy (proc_at s cur) ->
  (forall a s', fdx s' x N -> busy (proc_at s' cur) -> p_ofile (proc_at s' cur) = p_ofile (proc_at s cur) -> files_le (fl s) (fl s') -> Q a s') -> lp m Q s.
Proof.
  intros Hm I Hb H. eapply lp_mono; [apply Hm|]. intros a s' X. destruct (same_fds_at s s' cur X Hb) as [Y Z].
  apply H; [by eapply fdx_le|done|done|apply X].
Qed.

Lemma fd_len s x N cur : fdx s x N -> busy (proc_at s cur) -> zlen (p_ofile (proc_at s cur)) = NOFILE.
Proof. intros I Hb. apply (fi_len _ _ _ _ I). eapply list_elem_of_lookup_2. by apply busy_at. Qed.

Lemma lp_set_fd s x N cur fd v : fdx s x N -> busy (proc_at s cur) -> 0 <= fd < NOFILE ->
  lp (set_fd cur fd v) (fun _ s' =>
    fdx s' (fun f => x f + (if decide (rd None (p_ofile (proc_at s cur)) fd = Some f) then 1 else 0) - if decide (v = Some f) then 1 else 0) N /\
    busy (proc_at s' cur) /\ p_ofile (proc_at s' cur) = wr (p_ofile (proc_at s cur)) fd v /\ fl s' = fl s) s.
Proof.
  intros I Hb Hfd. assert (E := busy_at s cur Hb). apply lp_modify. split; [by apply fd_inv_fd|].
  assert (X : proc_at (set_ptable (<[cur := set_ofile (wr (p_ofile (proc_at s cur)) fd v) (proc_at s cur)]> (ptable s)) s) cur =
    set_ofile (wr (p_ofile (proc_at s cur)) fd v) (proc_at s cur)).
  { unfold proc_at at 1. simpl. by rewrite list_lookup_insert_eq by (by eapply lookup_lt_Some). }
  rewrite X. done.
Qed.

Lemma lp_fdalloc s x N cur f : fdx s x N -> busy (proc_at s cur) ->
  lp (fdalloc cur f) (fun r s' => r = -1 /\ s' = s \/
    0 <= r < NOFILE /\ fdx s' (bump x f (-1)) N /\ busy (proc_at s' cur) /\ rd None (p_ofile (proc_at s' cur)) r = Some f /\ fl s' = fl s) s.
Proof.
  intros I Hb. unfold fdalloc. assert (L := fd_len s x N cur I Hb).
  assert (G : forall n fd, 0 <= fd -> fd + Z.of_nat n <= NOFILE -> lp (fdalloc_from cur f fd n) (fun r s' => r = -1 /\ s' = s \/
    0 <= r < NOFILE /\ fdx s' (bump x f (-1)) N /\ busy (proc_at s' cur) /\ rd None (p_ofile (proc_at s' cur)) r = Some f /\ fl s' = fl s) s).
  { induction n as [|n IH]; intros fd H0 H1; cbn [fdalloc_from]; [lp_step; by left|]. lp_step. apply lp_pget.
    destruct (rd None (p_ofile (proc_at s cur)) fd) eqn:E; [apply IH; lia|]. lp_step.
    eapply lp_mono; [apply (lp_set_fd s x N cur fd (Some f)); (done || lia)|]. intros _ s' (J & Hb' & Eo & Ef). lp_step. right.
    split; [lia|]. split; [|split; [done|]; split; [|done]].
    - eapply fd_inv_ext; [|exact J]. intros h. cbn beta. rewrite E. rewrite (decide_False (P := None = Some h)) by done.
      unfold bump. repeat case_decide; simplify_eq; lia.
    - rewrite Eo, rd_wr_eq; [done|rewrite L; lia]. }
  apply G; unfold NOFILE; lia.
Qed.

Lemma lp_argfd s x N cur n (Q : option (Z * nat) -> psys -> Prop) : fdx s x N -> busy (proc_at s cur) ->
  (forall s', fdx s' x N -> busy (proc_at s' cur) -> Q None s') ->
  (forall s' fd f, fdx s' x N -> busy (proc_at s' cur) -> 0 <= fd < NOFILE -> rd None (p_ofile (proc_at s' cur)) fd = Some f -> Q (Some (fd, f)) s') ->
  lp (argfd kend cur n) Q s.
Proof.
  intros I Hb H0 H1. unfold argfd. lp_step. eapply lp_frames; [auto with frames|exact I|exact Hb|]. intros [fd|] s' J Hb' _ _; [|lp_step; by apply H0].
  lp_step. apply lp_pget. destruct (_ || _) eqn:E; [lp_step; by apply H0|]. bool_prop.
  destruct (rd None _ fd) as [f|] eqn:Ef; lp_step; [|by apply H0]. by apply H1.
Qed.

Lemma lp_flk_close s x f cur : fdx s x ∅ -> busy (proc_at s cur) ->
  lp (flk_op (fileclose kend f)) (fun _ s' => fdx s' (bump x f (-1)) ∅ /\ busy (proc_at s' cur) /\ proc_at s' cur = proc_at s cur) s.
Proof.
  intros I Hb. apply lp_zoom. eapply lp_mono; [by apply (lp_fileclose_inv kend (ptable s) (fl s) (km s) x ∅ f)|]. intros _ [f' k'] [J _]. cbn [fst snd].
  split; [|done]. unfold fdx. cbn [ptable fl set_km set_fl]. by destruct (decide _); [replace (∅ ∖ {[f]}) with (∅ : gset nat) in J by set_solver|].
Qed.

Lemma lp_fl_dup s x N f cur : fdx s x N -> busy (proc_at s cur) -> x f <= 1 ->
  lp (fl_op (filedup f)) (fun _ s' => fdx s' (bump x f 1) N /\ busy (proc_at s' cur) /\ proc_at s' cur = proc_at s cur) s.
Proof.
  intros I Hb Hx. apply lp_zoom. eapply lp_mono; [by apply (lp_filedup_inv (ptable s) (fl s) x N f)|]. intros _ f' (_ & J & _). done.
Qed.

(** [bump] and [zero] by cases. *)
Ltac by_counts := intros ?; unfold bump, zero; repeat case_decide; simplify_eq; lia.

Lemma sys_dup_fds s cur : fds s -> busy (proc_at s cur) -> lp (sys_dup kend cur) (fun _ s' => fds s') s.
Proof.
  intros I Hb. unfold sys_dup. lp_step. eapply lp_argfd; [exact I|done|by intros; lp_step|]. intros s1 fd f I1 Hb1 Hfd Ef.
  lp_step. eapply lp_mono; [by apply (lp_fdalloc s1 zero ∅ cur f)|]. intros r s2 [[-> ->]|(Hr & I2 & Hb2 & _)]; [change (-1 <? 0) with true; cbv iota; by lp_step|].
  rewrite (proj2 (Z.ltb_ge _ _)) by lia. lp_step. eapply lp_mono; [apply (lp_fl_dup s2 _ ∅ f cur I2 Hb2)|].
  { unfold bump, zero. case_decide; lia. }
  intros _ s3 (I3 & _). lp_step. eapply fd_inv_ext; [|exact I3]. by_counts.
Qed.

Lemma sys_close_fds s cur : fds s -> busy (proc_at s cur) -> lp (sys_close kend cur) (fun _ s' => fds s') s.
Proof.
  intros I Hb. unfold sys_close. lp_step. eapply lp_argfd; [exact I|done|by intros; lp_step|]. intros s1 fd f I1 Hb1 Hfd Ef.
  lp_step. eapply lp_mono; [by apply (lp_set_fd s1 zero ∅ cur fd None)|]. intros _ s2 (I2 & Hb2 & _). rewrite Ef in I2.
  lp_step. eapply lp_mono; [exact (lp_flk_close s2 _ f cur I2 Hb2)|]. intros _ s3 (I3 & _). lp_step.
  eapply fd_inv_ext; [|exact I3]. by_counts.
Qed.

(** The two cases of [fdalloc]. *)
Lemma fdalloc_cases {A} s x N cur f (m : Z -> M psys A) (Q : A -> psys -> Prop) : fdx s x N -> busy (proc_at s cur) ->
  lp (m (-1)) Q s ->
  (forall r s', 0 <= r < NOFILE -> fdx s' (bump x f (-1)) N -> busy (proc_at s' cur) -> rd None (p_ofile (proc_at s' cur)) r = Some f ->
     fl s' = fl s -> lp (m r) Q s') -> lp (fdalloc cur f ≫= m) Q s.
Proof.
  intros I Hb H0 H1. lp_step. eapply lp_mono; [by apply lp_fdalloc|]. intros r s' [[-> ->]|(Hr & J & Hb' & Ef & El)]; [done|by apply H1].
Qed.

Lemma lp_ofile_at s cur fd (Q : option nat -> psys -> Prop) :
  (fd < NOFILE -> Q (rd None (p_ofile (proc_at s cur)) fd) s) -> lp (ofile_at cur fd) Q s.
Proof.
  intros H. unfold ofile_at. destruct (Z.ltb_spec fd NOFILE); [|lp_step]. lp_step. apply lp_pget. lp_step. by apply H.
Qed.

Lemma sys_dup2_fds s cur : fds s -> busy (proc_at s cur) -> lp (sys_dup2 kend cur) (fun _ s' => fds s') s.
Proof.
  intros I Hb. unfold sys_dup2. lp_step. eapply lp_frames; [auto with frames|exact I|exact Hb|]. intros [oldfd|] s1 I1 Hb1 _ _; [|by lp_step].
  destruct (_ || _) eqn:E1; [by lp_step|]. bool_prop. lp_step. apply lp_ofile_at. intros _. destruct (rd None _ oldfd) as [fold|]; [|by lp_step].
  lp_step. eapply lp_frames; [auto with frames|exact I1|exact Hb1|]. intros [newfd|] s2 I2 Hb2 _ _; [|by lp_step].
  destruct (_ || _) eqn:E2; [by lp_step|]. bool_prop. destruct (newfd =? oldfd); [by lp_step|].
  lp_step. apply lp_ofile_at. intros Hn.
  assert (Hfd : 0 <= newfd < NOFILE) by lia. lp_step.
  apply lp_mono with (P := fun _ s3 => fdx s3 zero ∅ /\ busy (proc_at s3 cur) /\ rd None (p_ofile (proc_at s3 cur)) newfd = None).
  - destruct (rd None _ newfd) as [fnew|] eqn:Ef; [|by lp_step]. lp_step. eapply lp_mono; [by apply (lp_set_fd s2 zero ∅ cur newfd None)|].
    intros _ s3 (I3 & Hb3 & Eo & _). rewrite Ef in I3. eapply lp_mono; [exact (lp_flk_close s3 _ fnew cur I3 Hb3)|].
    intros _ s4 (I4 & Hb4 & ->). split; [|split; [done|]].
    + eapply fd_inv_ext; [|exact I4]. by_counts.
    + rewrite Eo. apply rd_wr_eq. by rewrite (fd_len s2 zero ∅ cur).
  - intros _ s3 (I3 & Hb3 & Ef). lp_step. eapply lp_mono; [apply (lp_fl_dup s3 zero ∅ fold cur); (done || (unfold zero; lia))|].
    intros _ s4 (I4 & Hb4 & E4). lp_step. eapply lp_mono; [exact (lp_set_fd s4 _ ∅ cur newfd (Some fold) I4 Hb4 Hfd)|].
    intros _ s5 (I5 & _). lp_step. rewrite E4, Ef in I5. eapply fd_inv_ext; [|exact I5]. by_counts.
Qed.

Lemma sys_open_fds s cur : fds s -> busy (proc_at s cur) -> lp (sys_open devsw kend cur) (fun _ s' => fds s') s.
Proof.
  intros I Hb. unfold sys_open. lp_step. eapply lp_frames; [auto with frames|exact I|exact Hb|]. intros [path|] s1 I1 Hb1 _ _; [|by lp_step].
  lp_step. eapply lp_frames; [auto with frames|exact I1|exact Hb1|]. intros [omode|] s2 I2 Hb2 _ _; [|by lp_step].
  lp_step. eapply lp_frames; [auto with frames|exact I2|exact Hb2|]. intros [] s3 I3 Hb3 _ _.
  lp_step. eapply lp_frames; [auto with frames|exact I3|exact Hb3|]. intros [ip|] s4 I4 Hb4 _ _.
  2: { eapply lp_frames; [auto with frames|exact I4|exact Hb4|]. by intros. }
  lp_step. apply lp_zoom. eapply lp_mono; [apply (lp_filealloc_inv _ _ _ _ I4); by intros|].
  intros [f|] fl5; [|intros ->; apply (lp_frames _ (set_fl (fl s4) s4) cur zero ∅); [frame|exact I4|exact Hb4|by intros]].
  intros (I5 & R5 & _ & _). rewrite (left_id_L ∅ (∪)) in I5. set (s5 := set_fl fl5 s4). change (fdx s5 (bump zero f 1) {[f]}) in I5.
  assert (T5 : total (ptable s5) f = 0) by (rewrite (fi_refs _ _ _ _ I4) in R5; unfold zero in R5; simpl; lia).
  apply (fdalloc_cases s5 (bump zero f 1) {[f]} cur f); [exact I5|exact Hb4| |].
  - change (-1 <? 0) with true. cbv iota. lp_step. apply lp_zoom.
    eapply lp_mono; [apply (lp_close_new kend (ptable s5) (fl s5) (km s5) zero ∅ f)|].
    + by rewrite (left_id_L ∅ (∪)).
    + set_solver.
    + by apply (new_ref _ _ zero _ f I5).
    + intros _ [fl6 k6] [I6 _]. cbn [fst snd] in *. apply (lp_frames _ (set_km k6 (set_fl fl6 s5)) cur zero ∅); [frame|exact I6|exact Hb4|by intros].
  - intros fd s6 Hfd I6 Hb6 Ef El6. rewrite (proj2 (Z.ltb_ge _ _)) by lia.
    lp_step. eapply lp_frames; [auto with frames|exact I6|exact Hb6|]. intros [] s7 I7 Hb7 E7 _.
    lp_step. eapply lp_frames; [auto with frames|exact I7|exact Hb7|]. intros [] s8 I8 Hb8 E8 _.
    assert (R8 : refs (fl s8) f ≠ 0).
    { rewrite (fi_refs _ _ _ _ I8). assert (X := total_lookup _ _ _ f (busy_at s8 cur Hb8)). rewrite E8, E7 in X. apply count_pos in Ef.
      unfold bump, zero. repeat case_decide; (lia || congruence). }
    lp_step. apply lp_zoom. apply lp_modify. lp_step. eapply fd_inv_ext; [|eapply (fd_inv_file _ _ _ _ f _ ∅ I8)]; simpl; try done.
    + unfold refs. by_counts.
    + apply open_lt. exact R8.
    + rewrite (fi_new _ _ _ _ I8) by set_solver. done.
    + intros h Nh. set_solver.
Qed.

Lemma sys_pipe_fds s cur : fds s -> busy (proc_at s cur) ->
  (forall r s1 a k', argptr kend cur 0 8 s = Ret r s1 -> kalloc (km s1) = Ret a k' -> a ≠ 0 -> pipes (fl s1) !! a = None) ->
  lp (sys_pipe kend cur) (fun _ s' => fds s') s.
Proof.
  intros I Hb Hk. unfold sys_pipe. lp_step. intros r s1 E1. assert (Fr : frames (S := S) (argptr kend cur 0 8)) by auto with frames.
  destruct (same_fds_at s s1 cur (Fr s r s1 E1) Hb) as [Hb1 _]. assert (I1 := fdx_le s s1 _ _ I (Fr s r s1 E1)).
  destruct r as [fd|]; [|by lp_step]. lp_step. apply lp_zoom. eapply lp_mono; [apply (lp_pipealloc_inv kend (ptable s1) (fl s1) (km s1) I1)|].
  { intros a k' Ea Na. by eapply (Hk _ s1 a k' E1). }
  intros [[rf wf]|] [fl2 k2]; cbn [fst snd]; intros I2; [|by lp_step]. set (s2 := set_km k2 (set_fl fl2 s1)).
  change (fdx s2 (bump (bump zero rf 1) wf 1) ∅) in I2. assert (Hb2 : busy (proc_at s2 cur)) by exact Hb1.
  apply (fdalloc_cases s2 _ ∅ cur rf _ _ I2 Hb2).
  - change (-1 <? 0) with true. cbv iota. lp_step. eapply lp_mono; [exact (lp_flk_close s2 _ rf cur I2 Hb2)|]. intros _ s3 (I3 & Hb3 & _).
    lp_step. eapply lp_mono; [exact (lp_flk_close s3 _ wf cur I3 Hb3)|]. intros _ s4 (I4 & _). lp_step. eapply fd_inv_ext; [|exact I4]. by_counts.
  - intros fd0 s3 H0 I3 Hb3 E3 _. rewrite (proj2 (Z.ltb_ge _ _)) by lia. apply (fdalloc_cases s3 _ ∅ cur wf _ _ I3 Hb3).
    + change (-1 <? 0) with true. cbv iota. lp_step. eapply lp_mono; [exact (lp_set_fd s3 _ ∅ cur fd0 None I3 Hb3 H0)|].
      intros _ s4 (I4 & Hb4 & _). rewrite E3 in I4. lp_step. eapply lp_mono; [exact (lp_flk_close s4 _ rf cur I4 Hb4)|]. intros _ s5 (I5 & Hb5 & _).
      lp_step. eapply lp_mono; [exact (lp_flk_close s5 _ wf cur I5 Hb5)|]. intros _ s6 (I6 & _). lp_step. eapply fd_inv_ext; [|exact I6]. by_counts.
    + intros fd1 s4 H1 I4 Hb4 _ _. rewrite (proj2 (Z.ltb_ge _ _)) by lia.
      eapply lp_frames; [frame|exact I4|exact Hb4|]. intros r s5 I5 _ _ _. eapply fd_inv_ext; [|exact I5]. by_counts.
Qed.

(** ** [fork] and [exit] *)

(** The table with slot [np] taken for runnable, which it becomes at the end of
    [fork]. *)
Definition vt s (np : nat) : list proc := <[np := set_state RUNNABLE (proc_at s np)]> (ptable s).

Lemma vt_le s s' np : same_fds s s' -> (np < length (ptable s))%nat -> Forall2 slot_le (vt s np) (vt s' np).
Proof.
  intros [H _] L. apply Forall2_insert; [done|]. apply lookup_lt_is_Some in L as [p E].
  destruct (Forall2_lookup_l _ _ _ _ _ H E) as (p' & E' & X & _). unfold proc_at. rewrite E, E'. split; [done|]. intros _. by right; left.
Qed.

Lemma fork_files_fds cur np n : cur ≠ np -> forall i s, 0 <= i -> i + Z.of_nat n <= NOFILE ->
  fd_inv (vt s np) (fl s) zero ∅ -> (np < length (ptable s))%nat ->
  (forall j, i <= j -> rd None (p_ofile (proc_at s np)) j = None) ->
  lp (fork_files cur np i n) (fun _ s' => fd_inv (vt s' np) (fl s') zero ∅ /\ length (ptable s') = length (ptable s)) s.
Proof.
  intros Ne. induction n as [|n IH]; intros i s H0 H1 I L Hn; cbn [fork_files]; [by lp_step|].
  lp_step. apply lp_pget. lp_step. destruct (rd None (p_ofile (proc_at s cur)) i) as [f|]; [|lp_step; apply IH; try done; [lia|lia|intros j Hj; apply Hn; lia]].
  lp_step. apply lp_zoom. eapply lp_mono; [apply (lp_filedup_inv _ _ _ _ f I); unfold zero; lia|]. intros y fl1 (-> & I1 & _).
  apply lp_modify. set (s2 := set_ptable _ _). change (proc_at (set_fl fl1 s) np) with (proc_at s np) in s2. simpl in s2.
  assert (E2 : proc_at s2 np = set_ofile (wr (p_ofile (proc_at s np)) i (Some f)) (proc_at s np)).
  { unfold proc_at at 1. simpl. by rewrite list_lookup_insert_eq. }
  assert (V2 : vt s2 np = <[np := set_ofile (wr (p_ofile (set_state RUNNABLE (proc_at s np))) i (Some f)) (set_state RUNNABLE (proc_at s np))]> (vt s np)).
  { unfold vt. rewrite E2. simpl. by rewrite !list_insert_insert_eq. }
  assert (Lv : vt s np !! np = Some (set_state RUNNABLE (proc_at s np))) by (unfold vt; by rewrite list_lookup_insert_eq).
  assert (Ll : zlen (p_ofile (proc_at s np)) = NOFILE) by (apply (fi_len _ _ _ _ I (set_state RUNNABLE (proc_at s np))); by eapply list_elem_of_lookup_2).
  eapply lp_mono; [apply (IH (i + 1) s2)|].
  - lia.
  - lia.
  - rewrite V2. eapply fd_inv_ext; [|apply (fd_inv_fd _ _ _ _ np _ i (Some f) I1 Lv); [by right; left|lia]].
    cbn [p_ofile set_state]. rewrite Hn by lia. by_counts.
  - simpl. by rewrite length_insert.
  - intros j Hj. rewrite E2. simpl. rewrite rd_wr_ne by lia. apply Hn. lia.
  - intros [] s3 [I3 L3]. split; [done|]. rewrite L3. simpl. by rewrite length_insert.
Qed.

Lemma closed_rd p j : closed p -> rd None (p_ofile p) j = None.
Proof.
  intros H. unfold rd. case_decide; [|done]. destruct (p_ofile p !! Z.to_nat j) as [x|] eqn:E; [|done]. simpl.
  by apply (Forall_lookup_1 _ _ _ _ H) in E.
Qed.

(** [allocproc] leaves the descriptors of all slots, and a new slot is closed. *)
Lemma lp_allocproc_fds s cur : fds s -> busy (proc_at s cur) -> lp (allocproc forkret trapret) (fun r s' =>
  fds s' /\ busy (proc_at s' cur) /\ match r with None => True | Some np => cur ≠ np /\ (np < length (ptable s'))%nat /\ closed (proc_at s' np) end) s.
Proof.
  intros I Hb. assert (Hc := busy_at s cur Hb).
  assert (K : forall (i : nat) p p' s', ptable s !! i = Some p -> ptable s' = <[i := p']> (ptable s) -> p_state p = UNUSED -> kept p p' -> fl s' = fl s ->
    fds s' /\ busy (proc_at s' cur) /\ cur ≠ i /\ (i < length (ptable s'))%nat /\ closed (proc_at s' i)).
  { intros i p p' s' Hi Et Hu (_ & _ & _ & Eo) Ef. assert (L := lookup_lt_Some _ _ _ Hi).
    assert (Nb : ~ busy p) by (intros [X|[X|X]]; congruence).
    assert (Ne : cur ≠ i) by (intros ->; simplify_eq; done).
    assert (Cp : closed p) by (apply (fi_closed _ _ _ _ I); [by eapply list_elem_of_lookup_2|done]).
    assert (Cp' : closed p') by (unfold closed; by rewrite Eo).
    split_and!; [|unfold proc_at; rewrite Et, list_lookup_insert_ne by done; exact Hb|done|by rewrite Et, length_insert|].
    - unfold fds, fdx. rewrite Et, Ef. eapply fd_inv_slot; [exact I|exact Hi|done|by left].
    - unfold proc_at. rewrite Et, list_lookup_insert_eq by done. done. }
  eapply lp_mono; [apply lp_allocproc|]. intros [np|] s' [[_ Ef] H].
  - destruct H as (_ & p & p' & Hi & Et & Hu & _ & Hk & _). exact (K np p p' s' Hi Et Hu Hk Ef).
  - destruct H as [[Et _]|(_ & i & p & p' & Hi & Et & Hu & _ & Hk)].
    + split; [unfold fds, fdx; by rewrite Et, Ef|]. split; [unfold proc_at; by rewrite Et|done].
    + destruct (K i p p' s' Hi Et Hu Hk Ef) as (A & B & _). done.
Qed.

(** The part of [fork] after the memory has been copied. *)
Lemma lp_vt_frames {A} (m : M psys A) s np (Q : A -> psys -> Prop) : frames m -> fd_inv (vt s np) (fl s) zero ∅ -> (np < length (ptable s))%nat ->
  (forall a s', fd_inv (vt s' np) (fl s') zero ∅ -> (np < length (ptable s'))%nat -> Q a s') -> lp m Q s.
Proof.
  intros Hm I L H. eapply lp_mono; [apply Hm|]. intros a s' X. apply H.
  - eapply fd_inv_le; [exact I|by apply vt_le|apply X].
  - destruct X as [X _]. by rewrite <- (Forall2_length _ _ _ X).
Qed.

Lemma same_fds_closed s s' i : same_fds s s' -> closed (proc_at s i) -> (i < length (ptable s))%nat ->
  closed (proc_at s' i) /\ (i < length (ptable s'))%nat.
Proof.
  intros [H _] C L. apply lookup_lt_is_Some in L as [p E]. destruct (Forall2_lookup_l _ _ _ _ _ H E) as (p' & E' & X & _).
  unfold proc_at in *. rewrite E in C. rewrite E'. unfold closed in *. simpl in *. rewrite X. split; [done|]. by eapply lookup_lt_Some.
Qed.

Lemma at_lt s i : (i < length (ptable s))%nat -> ptable s !! i = Some (proc_at s i).
Proof. intros L. unfold proc_at. by destruct (lookup_lt_is_Some_2 _ _ L) as [p ->]. Qed.

Lemma fork_fds s cur : fds s -> busy (proc_at s cur) -> lp (fork kend data forkret trapret cur) (fun _ s' => fds s') s.
Proof.
  intros I Hb. unfold fork. lp_step. eapply lp_mono; [by apply (lp_allocproc_fds s cur)|]. intros [np|] s1 (I1 & Hb1 & H1); [|by lp_step].
  destruct H1 as (Ne & L1 & C1). lp_step. apply lp_pget. set (c := proc_at s1 cur).
  lp_step. assert (F2 : frames (S := S) (km_op (copyuvm kend data (p_pgdir c) (p_sz c)))) by auto with frames.
  intros d s2 E2. specialize (F2 s1 d s2 E2). assert (I2 := fdx_le _ _ _ _ I1 F2). destruct (same_fds_closed _ _ _ F2 C1 L1) as [C2 L2].
  lp_step. assert (F3 : frames (S := S) (pmod np (set_pgdir d))) by frame. intros [] s3 E3. specialize (F3 s2 tt s3 E3).
  assert (I3 := fdx_le _ _ _ _ I2 F3). destruct (same_fds_closed _ _ _ F3 C2 L2) as [C3 L3].
  destruct (d =? 0).
  { lp_step. apply lp_pget. lp_step. apply lp_zoom. intros [] k4 _. lp_step. apply lp_modify. lp_step.
    apply (fd_inv_slot _ _ _ _ np (proc_at s3 np)); [exact I3|exact (at_lt s3 np L3)|done|by left]. }
  assert (V3 : fd_inv (vt s3 np) (fl s3) zero ∅).
  { apply (fd_inv_slot _ _ _ _ np (proc_at s3 np)); [exact I3|exact (at_lt s3 np L3)|done|by right; right; left]. }
  lp_step. assert (F4 : frames (S := S) (pmod np (λ p, set_parent (Some cur) (set_sz (p_sz c) p)))) by frame. intros [] s4 E4. specialize (F4 s3 tt s4 E4).
  assert (V4 := fd_inv_le _ _ _ _ _ _ V3 (vt_le _ _ _ F4 L3) (proj2 F4)). destruct (same_fds_closed _ _ _ F4 C3 L3) as [C4 L4].
  lp_step. apply lp_pget. lp_step. apply lp_zoom. intros [] k5 _. lp_step. apply lp_zoom. intros [] k6 _. set (s6 := set_km k6 (set_km k5 s4)).
  lp_step. eapply lp_mono; [apply (fork_files_fds cur np (Z.to_nat NOFILE) Ne 0 s6); [lia|unfold NOFILE; lia|exact V4|exact L4|]|].
  { intros j _. by apply closed_rd. }
  intros [] s7 [V7 L7]. assert (L7' : (np < length (ptable s7))%nat) by (rewrite L7; exact L4).
  destruct (p_cwd c) as [ip|]; [|by intros ? ? ?]. lp_step. apply (lp_vt_frames _ s7 np); [exact (frames_fs (idup ip))|done|done|]. intros ip' s8 V8 L8.
  lp_step. apply (lp_vt_frames _ s8 np); [frame|done|done|]. intros [] s9 V9 L9.
  lp_step. apply (lp_vt_frames _ s9 np); [frame|done|done|]. intros [] s10 V10 L10.
  lp_step. apply lp_pget. lp_step. apply lp_modify. lp_step. eapply fd_inv_le; [exact V10| |done].
  unfold vt. simpl. apply Forall2_insert; [done|]. split; [done|]. intros _. by right; left.
Qed.
End calls.
