(* ===== verification/DescriptorSpec.v ===== *)
(** * Descriptors, open files and pipes are consistent

    The executions of the system calls that concern files, and the theorems
    about them. *)

From S2P Require Import Prelude Param Cstring SleepLock Layout Bio Log LogCrash BlockStore LogStore Fs FsDemo Mmu Kalloc Vm VmSpec Pipe FileOps Proc ProcTable ProcMemory ProcSpec File UserAccess Sysfile Exec Descriptors DescriptorOps.

Section spec.
Context {S : Type} {BS : BlockStore S} {TX : TxOps S}.
Context (devsw : Z -> devsw_entry S) (kend data forkret trapret : Z).
#[local] Instance spec_ops : FileOps (fsys S) := file_ops devsw kend.
Notation psys := (psys (fsys S)).
Implicit Types s : psys.

(** ** [exit] and [wait] *)

Lemma lp_close_files_fds cur n : forall fd s, 0 <= fd -> fd + Z.of_nat n <= NOFILE -> fds s -> busy (proc_at s cur) ->
  lp (close_files cur fd n) (fun _ s' => fds s' /\ busy (proc_at s' cur) /\
    forall j, rd None (p_ofile (proc_at s' cur)) j = if decide (fd <= j < fd + Z.of_nat n) then None else rd None (p_ofile (proc_at s cur)) j) s.
Proof.
  induction n as [|n IH]; intros fd s H0 H1 I Hb; cbn [close_files].
  { lp_step. split; [done|]. split; [done|]. intros j. by rewrite decide_False by lia. }
  lp_step. apply lp_pget. lp_step.
  apply lp_mono with (P := fun _ s' => fds s' /\ busy (proc_at s' cur) /\
    forall j, rd None (p_ofile (proc_at s' cur)) j = if decide (j = fd) then None else rd None (p_ofile (proc_at s cur)) j).
  - assert (L := fd_len s _ _ cur I Hb). destruct (rd None (p_ofile (proc_at s cur)) fd) as [f|] eqn:E.
    + lp_step. eapply lp_mono; [exact (lp_flk_close kend s _ f cur I Hb)|]. intros _ s1 (I1 & Hb1 & E1).
      eapply lp_mono; [apply (lp_set_fd s1 _ ∅ cur fd None I1 Hb1); lia|]. intros _ s2 (I2 & Hb2 & E2 & _). rewrite E1 in E2, I2. rewrite E in I2.
      split; [|split; [done|]].
      * eapply fd_inv_ext; [|exact I2]. intros h. unfold bump, zero. repeat case_decide; simplify_eq; lia.
      * intros j. rewrite E2. case_decide as D; [subst; apply rd_wr_eq; lia|by rewrite rd_wr_ne].
    + lp_step. split; [done|]. split; [done|]. intros j. case_decide; [by subst|done].
  - intros [] s1 (I1 & Hb1 & E1). eapply lp_mono; [apply (IH (fd + 1) s1); (done || lia)|]. intros [] s2 (I2 & Hb2 & E2).
    split; [done|]. split; [done|]. intros j. rewrite E2, E1. repeat case_decide; try done; lia.
Qed.

Lemma frames_iput_op ip : frames (S := S) (fl_op (iput_op ip)).
Proof. apply frames_fl. intros f. eapply lp_mono; [apply lp_iput_op|]. intros u f'. apply same_files_le. Qed.

Lemma exit_fds s cur st : fds s -> busy (proc_at s cur) -> lp (exit kend cur st) (fun _ s' => fds s') s.
Proof.
  intros I Hb. unfold exit. lp_step. lp_step. case_bool_decide; [lp_step|]. lp_step.
  eapply lp_mono; [apply (lp_close_files_fds cur (Z.to_nat NOFILE) 0 s); (done || (unfold NOFILE; lia))|]. intros [] s1 (I1 & Hb1 & E1).
  assert (C1 : closed (proc_at s1 cur)).
  { assert (L := fd_len s1 _ _ cur I1 Hb1). apply Forall_lookup_2. intros i x Hx. apply lookup_lt_Some in Hx as Hi.
    specialize (E1 (Z.of_nat i)). unfold rd at 1 in E1. rewrite decide_True, Nat2Z.id, Hx in E1 by lia. rewrite decide_True in E1 by (unfold zlen in L; lia). done. }
  lp_step. apply lp_pget. destruct (p_cwd (proc_at s1 cur)) as [ip|]; [|by intros ? ? ?].
  lp_step. eapply lp_frames; [exact (frames_iput_op ip)|exact I1|exact Hb1|]. intros [] s2 I2 Hb2 E2 _.
  lp_step. eapply lp_frames; [frame|exact I2|exact Hb2|]. intros [] s3 I3 Hb3 E3 _. lp_step. apply lp_pget.
  lp_step. eapply lp_frames; [auto with frames|exact I3|exact Hb3|]. intros [] s4 I4 Hb4 E4 _.
  lp_step. eapply lp_frames; [auto with frames|exact I4|exact Hb4|]. intros [] s5 I5 Hb5 E5 _.
  lp_step. eapply lp_frames; [auto with frames|exact I5|exact Hb5|]. intros r s6 I6 Hb6 E6 _.
  apply lp_modify. apply (fd_inv_slot _ _ _ _ cur (proc_at s6 cur)); [exact I6|by apply busy_at|done|].
  left. unfold closed in *. simpl. by rewrite E6, E5, E4, E3, E2.
Qed.

Lemma wait_fds s cur : fds s -> busy (proc_at s cur) -> lp (wait kend cur) (fun _ s' => fds s') s.
Proof.
  intros I Hb. unfold wait. lp_step. lp_step. assert (Sp := wait_scan_spec cur (ptable s) 0 false).
  destruct (wait_scan cur (ptable s) 0 false) as [i|hk].
  - destruct Sp as (j & p & -> & Hj & _ & Hz). rewrite Nat.add_0_l.
    assert (C : closed (proc_at s j)).
    { unfold proc_at. rewrite Hj. apply (fi_closed _ _ _ _ I); [by eapply list_elem_of_lookup_2|]. intros [X|[X|X]]; simpl in X; congruence. }
    assert (L := lookup_lt_Some _ _ _ Hj).
    lp_step. apply lp_pget. lp_step. apply lp_zoom. intros [] k1 _. lp_step. apply lp_modify. lp_step. apply lp_zoom. intros [] k2 _.
    lp_step. apply lp_modify. lp_step. simpl. rewrite list_insert_insert_eq.
    apply (fd_inv_slot _ _ _ _ j (proc_at s j)); [exact I|by apply at_lt| |].
    + unfold proc_at. simpl. by rewrite list_lookup_insert_eq.
    + left. unfold closed. simpl. unfold proc_at at 1. simpl. rewrite list_lookup_insert_eq by done. exact C.
  - lp_step. apply lp_pget. destruct (_ || _); [by lp_step|]. lp_step.
    apply (lp_frames _ s cur zero ∅); [|exact I|exact Hb|intros [] s' I' _ _ _; by lp_step].
    apply frames_pmod. intros q. split; [done|]. intros _. by left.
Qed.

(** ** Executions *)

(** What a running process does: a system call on files or processes, or a page
    fault. *)
Inductive fcall :=
| CDup | CDup2 | CClose | COpen | CPipe | CRead | CWrite (rest : option (list Z)) | CFstat
| CLink | CUnlink | CMkdir | CMknod | CChdir | CExec
| CFork | CExit (st : Z) | CWait | CKill (pid : Z) | CGrow (n : Z) | CFault (cr2 err : Z) | CWakeup (ch : option channel).

Definition run_call (c : fcall) (cur : nat) : M psys unit :=
  match c with
  | CDup => sys_dup kend cur;; mret tt
  | CDup2 => sys_dup2 kend cur;; mret tt
  | CClose => sys_close kend cur;; mret tt
  | COpen => sys_open devsw kend cur;; mret tt
  | CPipe => sys_pipe kend cur;; mret tt
  | CRead => sys_read devsw kend cur;; mret tt
  | CWrite rest => sys_write devsw kend cur rest;; mret tt
  | CFstat => sys_fstat kend cur;; mret tt
  | CLink => sys_link devsw kend cur;; mret tt
  | CUnlink => sys_unlink devsw kend cur;; mret tt
  | CMkdir => sys_mkdir devsw kend cur;; mret tt
  | CMknod => sys_mknod devsw kend cur;; mret tt
  | CChdir => sys_chdir devsw kend cur;; mret tt
  | CExec => sys_exec devsw kend data cur;; mret tt
  | CFork => fork kend data forkret trapret cur;; mret tt
  | CExit st => exit kend cur st
  | CWait => wait kend cur;; mret tt
  | CKill pid => kill pid;; mret tt
  | CGrow n => growproc kend cur n;; mret tt
  | CFault cr2 err => pgflt kend cur cr2 err
  | CWakeup ch => wakeup ch
  end.

(** The page allocator does not give out a page that holds a pipe. *)
Definition fresh_pages (c : fcall) (cur : nat) s : Prop :=
  c = CPipe -> forall r s1 a k', argptr kend cur 0 8 s = Ret r s1 -> kalloc (km s1) = Ret a k' -> a ≠ 0 -> pipes (fl s1) !! a = None.

Inductive fstep : psys -> psys -> Prop :=
| fs_call_step s cur c s' : p_state (proc_at s cur) = RUNNING -> fresh_pages c cur s -> run_call c cur s = Ret tt s' -> fstep s s'
| fs_sched s i st : busy (proc_at s i) -> busy (set_state st (proc_at s i)) ->
    fstep s (set_ptable (<[i := set_state st (proc_at s i)]> (ptable s)) s).

Inductive fruns s0 : psys -> Prop :=
| fr_refl : fruns s0 s0
| fr_step s s' : fruns s0 s -> fstep s s' -> fruns s0 s'.

Lemma lp_tail {A} (m : M psys A) s (Q : psys -> Prop) : lp m (fun _ s' => Q s') s -> lp (m;; mret tt) (fun _ s' => Q s') s.
Proof. intros H. lp_step. eapply lp_mono; [exact H|]. intros a s' X. by lp_step. Qed.

Lemma frames_fds {A} (m : M psys A) s : frames m -> fds s -> lp m (fun _ s' => fds s') s.
Proof. intros Hm I. eapply lp_mono; [apply Hm|]. intros a s' X. by eapply fdx_le. Qed.

Lemma call_fds c cur s : fds s -> busy (proc_at s cur) -> fresh_pages c cur s -> lp (run_call c cur) (fun _ s' => fds s') s.
Proof.
  intros I Hb Hf. destruct c; simpl; try apply lp_tail.
  - by apply sys_dup_fds.
  - by apply sys_dup2_fds.
  - by apply sys_close_fds.
  - by apply sys_open_fds.
  - apply sys_pipe_fds; [done|done|]. by apply Hf.
  - apply frames_fds; [apply frames_sys_read|done].
  - apply frames_fds; [apply frames_sys_write|done].
  - apply frames_fds; [apply frames_sys_fstat|done].
  - apply frames_fds; [apply frames_sys_link|done].
  - apply frames_fds; [apply frames_sys_unlink|done].
  - apply frames_fds; [apply frames_sys_mkdir|done].
  - apply frames_fds; [apply frames_sys_mknod|done].
  - apply frames_fds; [apply frames_sys_chdir|done].
  - apply frames_fds; [apply frames_sys_exec|done].
  - by apply fork_fds.
  - by apply exit_fds.
  - by apply wait_fds.
  - apply frames_fds; [apply frames_kill|done].
  - apply frames_fds; [apply frames_growproc|done].
  - apply frames_fds; [apply frames_pgflt|done].
  - apply frames_fds; [apply frames_wakeup1|done].
Qed.

Lemma step_fds s s' : fds s -> fstep s s' -> fds s'.
Proof.
  intros I H. destruct H as [s cur c s' Hr Hf E|s i st Hb Hb'].
  - by apply (call_fds c cur s I ltac:(by right; right) Hf tt s').
  - apply (fd_inv_slot _ _ _ _ i (proc_at s i)); [exact I|by apply busy_at|done|by right].
Qed.

(** The table of files when the machine starts. *)
Definition no_files (f : fsys S) : Prop := (forall i, file_at f i = file0) /\ pipes f = ∅.

Lemma boot_fds initcode s s1 : zero_table s -> no_files (fl s) -> userinit kend data forkret trapret initcode s = Ret tt s1 -> fds s1.
Proof.
  intros Hz [Hf Hp] E. destruct (lp_userinit kend data forkret trapret initcode s Hz tt s1 E) as (_ & i & p & Hi & _ & Et & Es & _ & _ & _ & Eo & En).
  assert (Sf : same_files (fl s) (fl s1)).
  { assert (X : lp (root_namei devsw (cstring "/")) (fun _ f' => same_files (fl s) f') (fl s)) by (apply lp_fs_op; auto). by eapply X. }
  assert (C0 : closed proc0) by (by repeat constructor).
  assert (I0 : fd_inv (replicate NPROC proc0) (fl s) zero ∅).
  { assert (P0 : forall q, q ∈ replicate NPROC proc0 -> q = proc0) by (intros q Hq; by apply elem_of_replicate in Hq as [-> _]).
    split; try (intros f; unfold refs; rewrite Hf; done); try (by intros a q; rewrite Hp, lookup_empty).
    - by intros q ->%P0.
    - done.
    - by intros q ->%P0. }
  unfold fds, fdx. rewrite Et. eapply fd_inv_le; [|done|by apply same_files_le].
  apply (fd_inv_slot _ _ _ _ i proc0); [done|by apply lookup_replicate_2|done|]. left. unfold closed. by rewrite Eo.
Qed.

Lemma runs_fds s1 s : fds s1 -> fruns s1 s -> fds s.
Proof. intros I R. induction R as [|s s' R IH St]; [done|]. by eapply step_fds. Qed.

Lemma total_pos T f : total T f ≠ 0 -> exists i p fd, T !! i = Some p /\ rd None (p_ofile p) fd = Some f.
Proof.
  induction T as [|p T IH]; simpl; [done|]. intros H. destruct (decide (fds_of f (p_ofile p) = 0)) as [E|E].
  - destruct IH as (i & q & fd & Hi & Hq); [lia|]. by exists (Datatypes.S i), q, fd.
  - assert (X : exists n : nat, p_ofile p !! n = Some (Some f)).
    { clear H. revert E. induction (p_ofile p) as [|x l IHl]; [done|]. rewrite count_cons. case_decide as D; [intros _; exists 0%nat; by rewrite D|].
      intros E. destruct IHl as [n Hn]; [lia|]. by exists (Datatypes.S n). }
    destruct X as [n Hn]. exists 0%nat, p, (Z.of_nat n). split; [done|]. unfold rd. rewrite decide_True by lia. by rewrite Nat2Z.id, Hn.
Qed.


(** [dup2] accepts [NOFILE] as a descriptor: the array of descriptors is
    accessed past its end. *)
Theorem dup2_past_end s cur oldfd f :
  argint kend cur 0 s = Ret (Some oldfd) s -> argint kend cur 1 s = Ret (Some NOFILE) s -> 0 <= oldfd < NOFILE ->
  rd None (p_ofile (proc_at s cur)) oldfd = Some f -> sys_dup2 kend cur s = Panic "ofile[NOFILE]".
Proof.
  intros E0 E1 H Ef. unfold sys_dup2, mbind, M_bind. rewrite E0.
  rewrite (proj2 (Z.ltb_ge oldfd 0)), (proj2 (Z.ltb_ge NOFILE oldfd)) by lia. simpl.
  unfold ofile_at. rewrite (proj2 (Z.ltb_lt oldfd NOFILE)) by lia. unfold mbind, M_bind, pget, gets. unfold mret, M_ret at 1. rewrite Ef, E1.
  rewrite (proj2 (Z.eqb_neq NOFILE oldfd)) by lia. done.
Qed.
End spec.

(** ** A machine that boots *)

Definition demo_files : fsys lstate :=
  FSys (replicate NFILE file0) (FState (boot fsd_disk 1) (replicate NINODE inode0) fsd_sb 1) ∅ [].
Definition demo_devsw (major' : Z) : devsw_entry lstate := Devsw None None.

