(* ===== verification/UserAccessSpec.v ===== *)
(** * User memory is accessed correctly

    Lazy allocation, and the checks of system call arguments. *)

From S2P Require Import Prelude Param Cstring Layout Mmu Kalloc Vm PageTable UserMemory AddressSpace VmSpec FileOps Proc ProcTable ProcMemory ProcSpec UserAccess.

Section memory.
Context (kend : Z) (kend_high : KERNLINK <= kend).
Notation uvm_ok := (uvm_ok kend).
Notation grown := (grown kend).

(** ** Lazy allocation *)

Lemma wp_lazy_alloc k l d tabs ent v : uvm_ok k l d tabs ent -> 0 <= v < NUSER -> ent v = 0 ->
  wp (lazy_alloc kend d (PGSIZE * v)) (fun ok k' => exists tabs' ent' l',
    ok = true /\ grown d tabs tabs' ent ent' v (v + 1) [] l l' k k' \/
    ok = false /\ grown d tabs tabs' ent ent' v v [] l l' k k' /\ (length l < 2)%nat) k.
Proof.
  intros O Hv H0. assert (G0 := grown_refl kend kend_high k l d tabs ent v O). unfold lazy_alloc.
  wp_step. eapply wp_kalloc_cases; [apply (vo_k _ _ _ _ _ _ (uo_vm _ _ _ _ _ _ O))| |].
  { intros ->. simpl. wp_step. exists tabs, ent, []. right. split; [done|]. split; [done|]. simpl. lia. }
  intros p l2 k2 -> Hp Hp0 Hpl R2 Em. destruct (fresh_page _ _ _ _ _ _ _ O) as (Hin & _ & _).
  rewrite (proj2 (Z.eqb_neq p 0)) by done. wp_step. eapply wp_clear_page; [done|done|]. intros k3 R3 Z3 U3. rewrite Em in U3.
  assert (O3 : uvm_ok k3 l2 d tabs ent) by (by eapply uvm_take). wp_step.
  change (Z.lor PTE_W PTE_U) with 6. eapply wp_mono; [apply (wp_map_user kend k3 l2 d tabs ent v p 6 O3); try done; unfold PGSIZE; lia|].
  intros r k4 (tabs2 & l4 & Gt & [(-> & O4 & L4)|(-> & -> & -> & O4)]).
  - simpl. wp_step. eexists tabs2, _, l4. left. split; [done|].
    eapply (grown_step kend kend_high d tabs tabs tabs2); try done; lia.
  - simpl. wp_step. assert (G4 : grown d tabs tabs2 ent ent v v [p] [p] [] k k4).
    { eapply (grown_tabs kend kend_high d tabs tabs tabs2); [lia|lia| |exact Gt|exact O4]. eapply grown_take; try done; lia. }
    assert (Hpt : p ∉ tables d tabs2).
    { destruct (tg_new _ _ _ _ _ _ _ Gt) as (new & En & ->). symmetry in En. apply app_nil in En as [-> _].
      rewrite not_elem_of_union, elem_of_list_to_set. split; [|done]. intros X. apply Hin. by left. }
    eapply wp_mono; [eapply (wp_give_back kend d tabs tabs2 ent ent v [p] [] p k k4 G4 Hp)|].
    + set_solver.
    + intros [X|X]; [done|]. apply Hin. by right.
    + intros X. apply Hin. by left.
    + intros [] k5 G5. wp_step. exists tabs2, ent, [p]. right. split; [done|]. split; [done|]. simpl. lia.
Qed.

(** What was free or in the address space still is. *)
Lemma grown_pages d tabs tabs' ent ent' v0 v l l' k k' a : grown d tabs tabs' ent ent' v0 v [] l l' k k' -> 0 <= v0 -> v <= NUSER ->
  (forall w, v0 <= w < v -> ent w = 0) ->
  a ∈ l \/ in_as d tabs ent a <-> a ∈ l' \/ in_as d tabs' ent' a.
Proof.
  intros [O E N C M Sb] H0 Hv Z. unfold in_as. rewrite C. split.
  - intros [[X|[X|[X|(w & Hw & <-)]]]|[X|(w & Hw & Ho & <-)]].
    + by left.
    + by apply elem_of_nil in X.
    + right. left. by apply elem_of_difference in X as [X _].
    + right. right. exists w. destruct (N w Hw) as (Ho & _). split; [lia|done].
    + right. left. by apply Sb.
    + right. right. exists w. split; [done|]. rewrite E; [done|]. intros Hw'. by rewrite Z in Ho.
  - intros [X|[X|(w & Hw & Ho & <-)]].
    + left. by left.
    + destruct (decide (a ∈ tables d tabs)); [right; by left|]. left. right. right. left. by apply elem_of_difference.
    + destruct (decide (v0 <= w < v)) as [D|D]; [left; right; right; right; by exists w|].
      right. right. exists w. rewrite E in Ho |- * by done. done.
Qed.

(** The processor finds a page with the flags of user memory. *)
Lemma user_page_present k l d tabs ent va : uvm_ok k l d tabs ent -> 0 <= va < KERNBASE -> Z.odd (ent (vpn va)) = true ->
  PTE_FLAGS (ent (vpn va)) = 7 -> user_page (mem k) d va = Some (upage (ent (vpn va))).
Proof.
  intros O Hv Ho Hf. destruct (vpn_user va Hv) as [Hn Hu]. assert (R := vo_pt _ _ _ _ _ _ (uo_vm _ _ _ _ _ _ O)).
  assert (L := load_pde kend k d tabs ent va R Hu). destruct (va_indices va Hu) as (Hd & _). unfold user_page.
  destruct (tabs !! PDX va) as [t|] eqn:Et; [|by rewrite (no_table kend d tabs ent (mem k) va R Hu Et) in Ho].
  destruct L as [L1 L2]. rewrite L1, L2. destruct (pt_tab _ _ _ _ _ R _ _ Et) as (_ & At & _ & Ep).
  assert (U : has (ld32 (mem k) (d + 4 * PDX va)) PTE_U = true).
  { rewrite Ep, has_flags by done. unfold pde_of. destruct (upage_entry kend t 7 At) as [_ ->]; [unfold PGSIZE; lia|done]. }
  rewrite U. cbn [andb]. destruct (load_pte kend k d tabs ent va t R Hu Et) as [L3 _]. unfold pte_addr in L3. rewrite Et in L3. rewrite L3.
  rewrite (has_flags _ PTE_P), (has_flags _ PTE_U), (has_flags _ PTE_W), Hf by done. done.
Qed.
End memory.

Section fault.
Context {F : Type} {FO : FileOps F}.
Context (kend : Z) (kend_high : KERNLINK <= kend).
Implicit Types s : psys F.

(** The access at [va] may be given a page. *)
Definition allowed (c : proc) (va err : Z) : Prop := PGROUNDUP va <= p_sz c /\ err ≠ 7 /\ err ≠ 5.

Lemma mem_inv_grown T k oth l A cur c tabs' ent' l' k' v0 v : mem_inv kend T k oth l A -> T !! cur = Some c -> used c -> p_state c ≠ ZOMBIE ->
  0 <= v0 -> v <= NUSER -> (forall w, v0 <= w < v -> (A cur).2 w = 0) ->
  grown kend (p_pgdir c) (A cur).1 tabs' (A cur).2 ent' v0 v [] l l' k k' ->
  mem_inv kend T k' oth l' (upd_space A cur (tabs', ent')).
Proof.
  intros M Hc U Nz H0 Hv Z G. assert (P := mi_proc _ _ _ _ _ _ M cur c Hc U). assert (O' := gr_ok _ _ _ _ _ _ _ _ _ _ _ _ _ G).
  assert (Eq := fun a => grown_pages kend _ _ _ _ _ _ _ _ _ _ _ a G H0 Hv Z).
  rewrite <- (list_insert_id T cur c Hc). eapply mem_inv_slot; [exact M|exact Hc|apply (vo_k _ _ _ _ _ _ (uo_vm _ _ _ _ _ _ O'))| | |].
  - intros _. assert (X : p_kstack c ∉ l' /\ ~ in_as (p_pgdir c) tabs' ent' (p_kstack c)).
    { assert (Y : ~ (p_kstack c ∈ l \/ in_as (p_pgdir c) (A cur).1 (A cur).2 (p_kstack c))).
      { intros [Y|Y]; [by apply (pm_free _ _ _ _ _ P)|by apply (pm_apart _ _ _ _ _ P)]. }
      rewrite Eq in Y. tauto. }
    split; [done|apply (pm_stack _ _ _ _ _ P)|apply X|apply X|apply (pm_tf _ _ _ _ _ P)|done].
  - intros a. unfold mine, owns. cbn [fst snd]. specialize (Eq a). tauto.
  - intros a Hl Hm. apply (gr_mem _ _ _ _ _ _ _ _ _ _ _ _ _ G); [done|]. intros X. apply Hm. split; [done|]. right. by left.
Qed.

End fault.

(** ** Arguments *)

Section args.
Context {F : Type} {FO : FileOps F} (kend : Z).
Implicit Types s : psys F.

(** The byte of the process [cur] at [va]. *)
Definition mapped s (cur : nat) (va : Z) : Prop := page_of s cur va ≠ None.
Definition ubyte s (cur : nat) (va : Z) : Z :=
  match page_of s cur va with Some a => rd 0 (page_at (mem (km s)) a) (va mod PGSIZE) | None => 0 end.
Definition uword s (cur : nat) (va : Z) : Z :=
  u32 (le_word [ubyte s cur va; ubyte s cur (va + 1); ubyte s cur (va + 2); ubyte s cur (va + 3)]).

Lemma wp_load8 s cur va (Q : Z -> psys F -> Prop) : mapped s cur va -> Q (ubyte s cur va) s -> wp (user_load8 kend cur va) Q s.
Proof.
  unfold mapped, ubyte, user_load8, touch. intros Hm HQ. wp_step. wp_step. wp_step.
  destruct (page_of s cur va) as [a|]; [|done]. wp_step. wp_step. exact HQ.
Qed.

Lemma wp_load32 s cur va (Q : list Z -> psys F -> Prop) : 0 <= va -> va + 4 < 2 ^ 32 -> (forall i, va <= i < va + 4 -> mapped s cur i) ->
  Q [ubyte s cur va; ubyte s cur (va + 1); ubyte s cur (va + 2); ubyte s cur (va + 3)] s -> wp (user_load kend cur va 4) Q s.
Proof.
  intros H0 H1 Hm HQ. cbn [user_load]. assert (E1 : u32 (va + 1) = va + 1) by mlia.
  assert (E2 : u32 (va + 1 + 1) = va + 2) by mlia. assert (E3 : u32 (va + 2 + 1) = va + 3) by mlia. rewrite E1, E2, E3.
  wp_step. apply wp_load8; [apply Hm; lia|]. wp_step. wp_step. apply wp_load8; [apply Hm; lia|].
  wp_step. wp_step. apply wp_load8; [apply Hm; lia|]. wp_step. wp_step. apply wp_load8; [apply Hm; lia|].
  wp_step. wp_step. wp_step. wp_step. wp_step. exact HQ.
Qed.

Lemma wp_fetchint s cur addr (Q : option Z -> psys F -> Prop) : 0 <= addr < 2 ^ 32 -> p_sz (proc_at s cur) <= KERNBASE ->
  (addr + 4 <= p_sz (proc_at s cur) -> forall i, addr <= i < addr + 4 -> mapped s cur i) ->
  Q (if decide (addr + 4 <= p_sz (proc_at s cur)) then Some (s32 (uword s cur addr)) else None) s -> wp (fetchint kend cur addr) Q s.
Proof.
  intros Ha Hs Hm HQ. unfold fetchint. wp_step. apply wp_gets. unfold KERNBASE in Hs. destruct (decide (addr + 4 <= _)) as [D|D].
  - rewrite (proj2 (Z.leb_gt _ _)), (proj2 (Z.ltb_ge _ _)) by mlia. cbn [orb]. wp_step. apply wp_load32; [lia|lia|by apply Hm|].
    wp_step. set (l := [_; _; _; _]). replace (s32 (get32 l 0)) with (s32 (uword s cur addr)); [exact HQ|].
    unfold uword. fold l. change (get32 l 0) with (le_word l). generalize (le_word l). intros z. mlia.
  - assert (X : (p_sz (proc_at s cur) <=? addr) || (p_sz (proc_at s cur) <? u32 (addr + 4)) = true).
    { apply orb_true_iff. destruct (Z.leb_spec (p_sz (proc_at s cur)) addr); [by left|]. right. apply Z.ltb_lt. mlia. }
    rewrite X. by wp_step.
Qed.

(** Where argument [n] is. *)
Definition arg_addr s (cur : nat) (n : Z) : Z := u32 (ld32 (mem (km s)) (p_tf (proc_at s cur) + tf_esp) + 4 + 4 * n).


(** The string at [va] in the process. *)
Definition ustring s (cur : nat) (va : Z) (l : list Z) : Prop :=
  exists str, l = str ++ [0] /\ Forall (fun b => b ≠ 0) str /\ forall i b, l !! i = Some b -> ubyte s cur (va + Z.of_nat i) = b.

Lemma wp_fetchstr_from s cur fuel : forall va ep, 0 <= va -> ep - va <= Z.of_nat fuel -> (forall i, va <= i < ep -> mapped s cur i) ->
  wp (fetchstr_from kend fuel cur va ep) (fun r s' => s' = s /\
    match r with
    | Some l => ustring s cur va l /\ va + zlen l <= ep
    | None => forall i, va <= i < ep -> ubyte s cur i ≠ 0
    end) s.
Proof.
  induction fuel as [|fuel IH]; intros va ep H0 Hf Hm; cbn [fetchstr_from]; destruct (Z.ltb_spec va ep); try lia; try (wp_step; split; [done|lia]).
  wp_step. apply wp_load8; [apply Hm; lia|]. destruct (Z.eqb_spec (ubyte s cur va) 0) as [E|E].
  - wp_step. split; [done|]. split; [|unfold zlen; simpl; lia]. exists []. split; [done|]. split; [done|].
    intros [|i] b Hb; simplify_eq/=. by rewrite Z.add_0_r.
  - wp_step. eapply wp_mono; [apply IH; [lia|lia|intros i Hi; apply Hm; lia]|]. intros r s' [-> Hr]. wp_step. split; [done|].
    destruct r as [l|]; simpl.
    + destruct Hr as [(str & -> & Fs & Hb) Hl]. split; [|unfold zlen in *; simpl; lia]. exists (ubyte s cur va :: str). split; [done|].
      split; [by constructor|]. intros [|i] b X; simplify_eq/=; [by rewrite Z.add_0_r|]. rewrite <- (Hb i b X). f_equal. lia.
    + intros i Hi. destruct (decide (i = va)) as [->|]; [done|]. apply Hr. lia.
Qed.

(** Strings are fetched.  In a process whose memory from [addr] on is
    mapped, [fetchstr] returns: with the string at [addr] up to its NUL, all of
    it below the size of the process; or with -1, and then [addr] is outside the
    process or there is no NUL between it and the end.  It changes nothing. *)
Theorem fetchstr_terminates s cur addr :
  0 <= addr -> (forall i, addr <= i < p_sz (proc_at s cur) -> mapped s cur i) ->
  wp (fetchstr kend cur addr) (fun r s' => s' = s /\
    match r with
    | Some l => ustring s cur addr l /\ addr + zlen l <= p_sz (proc_at s cur)
    | None => forall i, addr <= i < p_sz (proc_at s cur) -> ubyte s cur i ≠ 0
    end) s.
Proof.
  intros Ha Hm. unfold fetchstr. wp_step. apply wp_gets. destruct (Z.leb_spec (p_sz (proc_at s cur)) addr); [wp_step; split; [done|lia]|].
  apply wp_fetchstr_from; [done|lia|done].
Qed.
End args.

(** ** Examples *)


(** A process with a page of memory at address 0: its directory is at
    [KERNBASE + 4096], its page table and its page follow, and so does its
    kernel stack. *)
Definition demo_dir : Z := KERNBASE + 4096.
Definition demo_page : page := blit (blit zero_page 4 [104; 105; 0]) 104 (le_bytes 4 8).
Definition demo_mem : memory :=
  <[demo_dir := put32 zero_page 0 (8192 + 7)]> (<[KERNBASE + 8192 := put32 zero_page 0 (12288 + 7)]>
  (<[KERNBASE + 12288 := demo_page]> (<[KERNBASE + 16384 := put32 zero_page (4020 + tf_esp) 100]> ∅))).
Definition demo_proc : proc := set_tf (KERNBASE + 16384 + 4020) (set_sz 4096 (set_pgdir demo_dir (set_state RUNNING proc0))).
Definition demo_sys : psys counts := PSys [demo_proc] (Some 0%nat) 2 false (Kmem 0 false demo_mem) (fun _ => 0).

Lemma demo_mapped i : 0 <= i < 4096 -> mapped demo_sys 0 i.
Proof.
  intros Hi. unfold mapped, page_of, kern_page.
  assert (E1 : PDX i = 0) by (unfold PDX; change 0x3FF with (Z.ones 10); rewrite Z.shiftr_div_pow2, Z.land_ones by lia; mlia).
  assert (E2 : PTX i = 0) by (unfold PTX; change 0x3FF with (Z.ones 10); rewrite Z.shiftr_div_pow2, Z.land_ones by lia; mlia).
  rewrite E1, E2. vm_compute. congruence.
Qed.


Lemma fetchstr_terminates_witness : wp (fetchstr (F := counts) kend0 0 4) (fun r s' => s' = demo_sys /\ exists l, r = Some l /\ ustring demo_sys 0 4 l) demo_sys.
Proof.
  eapply wp_mono.
  - apply (fetchstr_terminates kend0 demo_sys 0 4); [lia|]. intros i Hi. apply demo_mapped.
    assert (Es : p_sz (proc_at demo_sys 0) = 4096) by (vm_compute; reflexivity). lia.
  - intros [l|] s' [-> H]; [split; [done|]; exists l; split; [done|apply H]|]. exfalso. apply (H 6); [|vm_compute; reflexivity].
    assert (Es : p_sz (proc_at demo_sys 0) = 4096) by (vm_compute; reflexivity). lia.
Defined.
