(* ===== verification/SyscallSpec.v ===== *)
(** * System calls: sleeping, and where the checks fall short *)

From S2P Require Import Prelude Param Cstring SleepLock Layout Log BlockStore Fs Mmu Kalloc Vm Console Pipe FileOps Proc ProcTable File UserAccess UserAccessSpec Sysfile Exec Rtc Sysproc Trap DescriptorSpec.

Section spec.
Context {S : Type} {BS : BlockStore S} {TX : TxOps S}.
Context (devsw : Z -> devsw_entry S) (kend ticks_addr : Z).
#[local] Instance syscall_ops : FileOps (fsys S) := file_ops devsw kend.
Implicit Types (k : kernel S) (s : psys (fsys S)).

(** ** [sleep] *)

(** Process [cur] is asleep on the clock. *)
Definition dozing k (cur : nat) : Prop :=
  exists c, ptable (kp k) !! cur = Some c /\ p_state c = SLEEPING /\ p_chan c = Some (CAddr ticks_addr).
Definition awake k (cur : nat) : Prop := exists c, ptable (kp k) !! cur = Some c /\ p_state c = RUNNABLE.

Lemma timer_step k cur : dozing k cur -> exists k', timer ticks_addr 0 k = Ret tt k' /\ awake k' cur /\ ticks k' = u32 (ticks k + 1).
Proof.
  intros (c & Hc & Es & Ec). eexists. split; [reflexivity|]. split; [|done]. exists (set_state RUNNABLE c). simpl.
  rewrite list_lookup_fmap, Hc. simpl. by rewrite !bool_decide_eq_true_2.
Qed.

(** [sleep(n)].  A process that began to sleep when the clock was at [t0]
    looks again [m] ticks later, also when the clock has wrapped around in
    between: if [m] is less than [n] it goes on sleeping, unless it was killed
    and returns -1, and the next timer interrupt wakes it; otherwise it returns
    0. *)
Theorem sleep_wakes k cur c t0 n m :
  ptable (kp k) !! cur = Some c -> 0 <= n < 2 ^ 31 -> 0 <= m < 2 ^ 32 -> ticks k = u32 (t0 + m) ->
  exists r k', sleep_check ticks_addr cur t0 n k = Ret r k' /\ ticks k' = ticks k /\
    (r = SysRet 0 /\ n <= m /\ k' = k \/
     r = SysRet (-1) /\ m < n /\ p_killed c ≠ 0 /\ k' = k \/
     r = SysSleep /\ m < n /\ p_killed c = 0 /\ dozing k' cur /\
       exists k'', timer ticks_addr 0 k' = Ret tt k'' /\ awake k'' cur /\ ticks k'' = u32 (t0 + (m + 1))).
Proof.
  clear devsw kend. intros Hc Hn Hm Ht. unfold sleep_check. munfold. assert (E : u32 (ticks k - t0) = m) by (rewrite Ht; mlia).
  assert (En : u32 n = n) by mlia. rewrite E, En. destruct (Z.ltb_spec m n) as [L|L]; [|exists (SysRet 0), k; split; [done|]; split; [done|]; by left].
  assert (Pa : proc_at (kp k) cur = c) by (unfold proc_at; by rewrite Hc). rewrite Pa. destruct (Z.eqb_spec (p_killed c) 0) as [Ek|Ek]; simpl.
  - eexists _, _. split; [reflexivity|]. split; [done|]. right. right. split; [done|]. split; [done|]. split; [done|].
    set (k' := set_kp _ k). assert (D : dozing k' cur).
    { exists (set_state SLEEPING (set_chan (Some (CAddr ticks_addr)) c)). simpl. rewrite Pa.
      rewrite list_lookup_insert_eq; [done|by eapply lookup_lt_Some]. }
    split; [done|]. destruct (timer_step k' cur D) as (k'' & E1 & A & E2). exists k''. split; [done|]. split; [done|].
    rewrite E2. simpl. rewrite Ht. mlia.
  - exists (SysRet (-1)), k. split; [done|]. split; [done|]. right. left. done.
Qed.

(** ** Gaps *)

(** [sbrk] does not compare the new size with [KERNBASE]. *)
Theorem sbrk_unchecked k cur c n : argint kend cur 0 (kp k) = Ret (Some n) (kp k) -> 0 <= n -> ptable (kp k) !! cur = Some c ->
  exists k', sys_sbrk kend cur k = Ret (SysRet (s32 (p_sz c))) k' /\ p_sz (proc_at (kp k') cur) = u32 (p_sz c + n).
Proof.
  intros E Hn Hc. assert (Pa : proc_at (kp k) cur = c) by (unfold proc_at; by rewrite Hc).
  unfold sys_sbrk, with_int, p_op, zoom, pget, gets, mbind, M_bind. destruct k as [s sc ti re]. simpl in *. rewrite E, Pa. simpl.
  rewrite (proj2 (Z.leb_le 0 n)) by done. unfold pmod, modify, mret, M_ret. eexists. split; [reflexivity|]. simpl.
  unfold proc_at at 1. simpl. rewrite list_lookup_insert_eq by (by eapply lookup_lt_Some). simpl. by rewrite Pa.
Qed.

(** With such a size [argptr] accepts addresses of the kernel. *)
Theorem argptr_kernel_pointer s cur n w size : argint kend cur n s = Ret (Some (s32 w)) s ->
  KERNBASE <= w -> 0 <= size -> w + size <= p_sz (proc_at s cur) < 2 ^ 32 -> 0 < size ->
  argptr kend cur n size s = Ret (Some w) s.
Proof.
  intros E Hw H0 H1 Hs. unfold argptr, mbind, M_bind. rewrite E. unfold pget, gets. unfold KERNBASE in Hw. assert (Ew : u32 (s32 w) = w) by mlia.
  assert (Es : u32 (w + size) = w + size) by mlia. rewrite Ew, Es.
  rewrite (proj2 (Z.ltb_ge size 0)), (proj2 (Z.leb_gt _ w)), (proj2 (Z.ltb_ge _ (w + size))) by lia. done.
Qed.

(** An access to the last page of a process whose size is not a multiple of the
    page size kills it, although the address is below the size. *)
Theorem partial_page_kills s cur c va err : ptable s !! cur = Some c -> va < p_sz c < PGROUNDUP va ->
  pgflt kend cur va err s = Ret tt (set_ptable (<[cur := set_killed 1 c]> (ptable s)) s).
Proof.
  intros Hc H. assert (Pa : proc_at s cur = c) by (unfold proc_at; by rewrite Hc).
  unfold pgflt, mbind, M_bind, pget, gets. rewrite Pa, (proj2 (Z.ltb_lt _ _)) by lia. cbn [orb]. unfold pmod, modify. by rewrite Pa.
Qed.

(** When the kernel itself accesses such a page for a system call it never gets
    past the access: the handler does not map the page and the access faults
    again. *)
Theorem kernel_fault_hangs s cur c va : ptable s !! cur = Some c -> va < p_sz c < PGROUNDUP va -> page_of s cur va = None ->
  touch kend cur va s = OutOfFuel.
Proof.
  intros Hc H Hp. unfold touch. munfold. rewrite Hp, (partial_page_kills s cur c va 0 Hc H).
  set (s' := set_ptable _ s). assert (X : page_of s' cur va = None); [|by rewrite X].
  rewrite <- Hp. unfold page_of, proc_at, s'. simpl. rewrite Hc, list_lookup_insert_eq by (by eapply lookup_lt_Some). done.
Qed.

(** [kill(0)] marks the first unused slot as killed and reports success. *)
Theorem kill_zero s i p : list_find (fun q => p_pid q = 0) (ptable s) = Some (i, p) -> p_state p = UNUSED ->
  kill 0 s = Ret 0 (set_ptable (<[i := set_killed 1 p]> (ptable s)) s).
Proof.
  intros E Hu. unfold kill. munfold. rewrite E. apply list_find_Some in E as (Hi & _ & _).
  unfold pmod, modify. unfold proc_at. rewrite Hi. simpl. rewrite bool_decide_eq_false_2 by congruence. done.
Qed.

(** [setprio] accepts 2, which is neither [NORMAL] nor [HIGH]. *)
Theorem setprio_two k cur pid i p : argint kend cur 0 (kp k) = Ret (Some pid) (kp k) -> argint kend cur 1 (kp k) = Ret (Some 2) (kp k) ->
  0 <= pid -> list_find (fun q => p_pid q = pid) (ptable (kp k)) = Some (i, p) ->
  exists k', sys_setprio kend cur k = Ret (SysRet 0) k' /\ p_prio (proc_at (kp k') i) = 2.
Proof.
  intros E0 E1 Hp Ef. destruct k as [s sc ti re]. unfold sys_setprio, with_int, p_op, zoom, mbind, M_bind. simpl in *. rewrite E0. simpl. rewrite E1. simpl.
  rewrite (proj2 (Z.ltb_ge pid 0)) by done. change (2 <? u32 2) with false. cbn [orb]. unfold setprocprio. munfold.
  unfold set_kp. simpl. rewrite Ef. eexists. split; [reflexivity|]. apply list_find_Some in Ef as (Hi & _ & _). simpl.
  unfold proc_at. simpl. by rewrite list_lookup_insert_eq by (by eapply lookup_lt_Some).
Qed.
End spec.

(** A process that sleeps while the clock wraps around. *)
Definition demo_kernel : kernel lstate :=
  Kernel (PSys [set_state RUNNING proc0] (Some 0%nat) 2 false (Kmem 0 false ∅) demo_files) screen0 2 0.

Lemma sleep_wakes_witness : exists k', sleep_check 0x80110000 0 (2 ^ 32 - 1) 5 demo_kernel = Ret SysSleep k' /\ dozing 0x80110000 k' 0.
Proof.
  destruct (sleep_wakes 0x80110000 demo_kernel 0 (set_state RUNNING proc0) (2 ^ 32 - 1) 5 3 ltac:(reflexivity) ltac:(lia) ltac:(lia) ltac:(reflexivity))
    as (r & k' & E & _ & [(_ & H & _)|[(_ & _ & H & _)|(-> & _ & _ & H & _)]]).
  - lia.
  - by destruct H.
  - exists k'. split; [exact E|exact H].
Defined.
