(* ===== verification/ShellRun.v ===== *)
(** * The shell runs a command (user/sh.c, gets of user/ulib.c)

    [runcmd] and the loop of [main], over the system calls they make.  A process
    of the shell has its table of descriptors; what it does is the list of its
    writes, forks and waits and the way it ends, with the processes that it
    forks inside, each with what it does.  Whether a call that can fail succeeds
    is an argument: the answer to call number [k] of the process [id].  The
    parser's messages are one action. *)

From S2P Require Import Prelude Param Cstring Shell ShellSpec ShellText UserPrintf Console BlockStore Fs FileOps Proc File Sysfile.

(** ** Descriptor tables *)

(** What a descriptor refers to; a pipe is named by the call that made it. *)
Inductive fobj :=
| FOther (n : Z)
| FFile (path : list Z) (mode : Z)
| FPipeR (id : list nat)
| FPipeW (id : list nat).

(** The lowest free descriptor from [fd] on, as [fdalloc] of sysfile.c finds it. *)
Fixpoint fd_alloc_from {A} (f : A) (l : list (option A)) (fd : Z) (n : nat) : Z * list (option A) :=
  match n with
  | O => (-1, l)
  | S n' =>
      match rd None l fd with
      | None => (fd, wr l fd (Some f))
      | Some _ => fd_alloc_from f l (fd + 1) n'
      end
  end.
Definition fd_alloc {A} (f : A) (l : list (option A)) : Z * list (option A) := fd_alloc_from f l 0 (Z.to_nat NOFILE).

(** It is what the kernel does with the table of a process. *)
Lemma fdalloc_table {S} {BS : BlockStore S} (s : psys (fsys S)) cur f : (cur < length (ptable s))%nat ->
  wp (fdalloc cur f) (fun r s' => (r, p_ofile (proc_at s' cur)) = fd_alloc f (p_ofile (proc_at s cur))) s.
Proof.
  intros Hc. unfold fdalloc, fd_alloc. generalize (Z.to_nat NOFILE). intros n. generalize 0. induction n as [|n IH]; intros fd; cbn [fdalloc_from fd_alloc_from].
  - by wp_step.
  - wp_step. unfold pget at 1. wp_step. destruct (rd None (p_ofile (proc_at s cur)) fd); [apply IH|]. wp_step. unfold pmod at 1. wp_step. wp_step.
    unfold proc_at at 1. simpl. by rewrite list_lookup_insert_eq.
Qed.

(** ** Processes of the shell *)

Inductive ending :=
| EExec (path : list Z) (argv : list (list Z)) (fds : list (option fobj))
| EExit (status : Z).

Inductive act :=
| AWrite (f : option fobj) (text : list Z)
| AReport (f : option fobj) (message : string)
| AChdir (path : list Z)
| AFork (acts : list act) (e : ending)
| AWait (fds : list (option fobj)).

Record uproc := UProc { ufds : list (option fobj); uid : list nat; ucalls : nat; uacts : list act }.

Definition set_ufds v s := UProc v (uid s) (ucalls s) (uacts s).
Definition set_ucalls v s := UProc (ufds s) (uid s) v (uacts s).
Definition act_now (a : act) : M uproc unit := modify (fun s => UProc (ufds s) (uid s) (ucalls s) (uacts s ++ [a])).

Section calls.
Context (answer : list nat -> bool).

(** A call that can fail: its answer and its name. *)
Definition ask : M uproc (bool * list nat) := fun s =>
  let c := ucalls s :: uid s in Ret (answer c, c) (set_ucalls (S (ucalls s)) s).

Definition new_fd (f : fobj) : M uproc Z := fun s =>
  let '(fd, l) := fd_alloc f (ufds s) in Ret fd (set_ufds l s).

Definition u_close (fd : Z) : M uproc unit := modify (fun s => set_ufds (wr (ufds s) fd None) s).
Definition u_open (path : list Z) (mode : Z) : M uproc Z :=
  '(ok, _) ← ask; if ok : bool then new_fd (FFile path mode) else mret (-1).
Definition u_dup (fd : Z) : M uproc Z :=
  s ← get; match rd None (ufds s) fd with Some f => new_fd f | None => mret (-1) end.

Definition u_pipe : M uproc (option (Z * Z)) :=
  '(ok, id) ← ask;
  if ok : bool then
    fd0 ← new_fd (FPipeR id);
    if fd0 <? 0 then mret None
    else
      fd1 ← new_fd (FPipeW id);
      if fd1 <? 0 then u_close fd0;; mret None else mret (Some (fd0, fd1))
  else mret None.

Definition u_write (fd : Z) (text : list Z) : M uproc unit := s ← get; act_now (AWrite (rd None (ufds s) fd) text).
Definition u_wait : M uproc unit := s ← get; act_now (AWait (ufds s)).
Definition exit_ (status : Z) : M uproc ending := mret (EExit status).

(** The child runs [child]; the result is whether there is a child. *)
Definition u_fork (child : M uproc ending) : M uproc bool :=
  '(ok, id) ← ask;
  if ok : bool then
    s ← get;
    match child (UProc (ufds s) id 0 []) with
    | Ret e s' => act_now (AFork (uacts s') e);; mret true
    | Panic m => panic m
    | Blocked => blocked
    | OutOfFuel => out_of_fuel
    end
  else mret false.

(** ** runcmd *)

Definition no_str (a : Z) : list Z := [].

(** [panic(s)], with the text of [s] *)
Definition sh_panic (msg : list Z) : M uproc ending :=
  u_write 2 (printf (fun _ => msg) (cstring "%c%s
%c") [RED; 1; LGREY]);;
  exit_ 1.

(** [if(fork1() == 0) child; rest] *)
Definition fork1 (child rest : M uproc ending) : M uproc ending :=
  b ← u_fork child;
  if b : bool then rest else sh_panic (cstr (cstring "fork")).

Section command.
(** The nodes of the command, and the line, at the address [base]. *)
Context (h : list cmdnode) (buf : list Z) (base : Z).

Definition str_at (a : Z) : list Z := string_at buf (a - base).

(** The strings of an argument array. *)
Fixpoint argv_of (l : list (option Z)) : list (list Z) :=
  match l with
  | Some q :: l' => string_at buf q :: argv_of l'
  | _ => []
  end.

Definition failed_text (what : string) (q : Z) : list Z :=
  printf str_at (cstring ("%c" +:+ what +:+ " %s failed
%c")) [RED; base + q; LGREY].

Fixpoint runcmd (fuel : nat) (cmd : nat) : M uproc ending :=
  match fuel with
  | O => out_of_fuel
  | S fuel' =>
      match h !! cmd with
      | None => sh_panic (cstr (cstring "runcmd"))
      | Some (NExec argv _) =>
          match rd None argv 0 with
          | None => exit_ 1
          | Some q =>
              s ← get;
              '(ok, _) ← ask;
              if ok : bool then mret (EExec (string_at buf q) (argv_of argv) (ufds s))
              else u_write 2 (failed_text "exec" q);; exit_ 1
          end
      | Some (NRedir c file _ mode fd) =>
          u_close fd;;
          r ← u_open (string_at buf file) mode;
          if r <? 0 then u_write 2 (failed_text "open" file);; exit_ 1
          else runcmd fuel' c
      | Some (NList l r) =>
          fork1 (runcmd fuel' l) (u_wait;; runcmd fuel' r)
      | Some (NPipe l r) =>
          p ← u_pipe;
          match p with
          | None => sh_panic (cstr (cstring "pipe"))
          | Some (p0, p1) =>
              fork1 (u_close 1;; u_dup p1;; u_close p0;; u_close p1;; runcmd fuel' l)
                (fork1 (u_close 0;; u_dup p0;; u_close p0;; u_close p1;; runcmd fuel' r)
                  (u_close p0;; u_close p1;; u_wait;; u_wait;; exit_ 0))
          end
      | Some (NBack c) => fork1 (runcmd fuel' c) (exit_ 0)
      end
  end.
End command.

(** ** The loop of main *)

(** [gets] for [n] more characters of the standard input; the rest is what it
    leaves there. *)
Fixpoint gets_from (n : nat) (input : list Z) : list Z * list Z :=
  match n, input with
  | O, _ | _, [] => ([], input)
  | S n', c :: input' =>
      if (c =? 10) || (c =? 13) then ([c], input')
      else let '(l, rest) := gets_from n' input' in (c :: l, rest)
  end.

(** [gets(buf, max)], in a buffer of [max] zeros *)
Definition gets_line (max : Z) (input : list Z) : list Z * list Z :=
  let '(l, rest) := gets_from (Z.to_nat (max - 1)) input in (l ++ replicate (Z.to_nat max - length l) 0, rest).

Definition getcmd (nbuf : Z) (input : list Z) : M uproc (Z * list Z * list Z) :=
  u_write 2 (printf no_str (cstring "$ ") []);;
  let '(buf, rest) := gets_line nbuf input in
  mret (if rd 0 buf 0 =? 0 then -1 else 0, buf, rest).

(** [runcmd(parsecmd(buf))] in the child *)
Definition sh_child (base : Z) (buf : list Z) : M uproc ending := fun s =>
  match parsecmd buf (Shell 0 []) with
  | Ret (cmd, buf') sh => runcmd (heap sh) buf' base (length (heap sh)) cmd s
  | Panic m => (s ← get; act_now (AReport (rd None (ufds s) 2) m);; exit_ 1) s
  | Blocked => Blocked
  | OutOfFuel => OutOfFuel
  end.

Fixpoint sh_loop (base : Z) (fuel : nat) (input : list Z) : M uproc ending :=
  '(r, buf, rest) ← getcmd 100 input;
  if r <? 0 then exit_ 0
  else
    match fuel with
    | O => out_of_fuel
    | S fuel' =>
        if (rd 0 buf 0 =? 99) && (rd 0 buf 1 =? 100) && (rd 0 buf 2 =? 32) then
          let path := string_at (wr buf (strlen buf - 1) 0) 3 in
          act_now (AChdir path);;
          '(ok, _) ← ask;
          (if ok : bool then mret tt else u_write 2 (printf (fun _ => path) (cstring "cannot cd %s
") [1]));;
          sh_loop base fuel' rest
        else fork1 (sh_child base buf) (u_wait;; sh_loop base fuel' rest)
    end.

(** [while((fd = open("console", O_RDWR)) >= 0)] *)
Fixpoint open_three (n : nat) : M uproc unit :=
  match n with
  | O => out_of_fuel
  | S n' =>
      fd ← u_open (cstr (cstring "console")) O_RDWR;
      if fd <? 0 then mret tt
      else if 3 <=? fd then u_close fd
      else open_three n'
  end.

(** [main] with the characters of its standard input. *)
Definition sh_main (base : Z) (input : list Z) : M uproc ending := open_three 4;; sh_loop base (length input) input.
End calls.

(** ** What a command means *)

(** The table of a process with the descriptors 0, 1, 2 and no other. *)
Definition std_table (e : list fobj) : list (option fobj) := (Some <$> e) ++ replicate 13 None.

Definition panic_msg (msg : list Z) : list Z := RED :: msg ++ [10; LGREY].
Definition failed_msg (what name : list Z) : list Z := RED :: what ++ [32] ++ name ++ cstr (cstring " failed
") ++ [LGREY].

Section plumb.
Context (answer : list nat -> bool).

(** What a process with the descriptors [e] does for the command [c], from its
    call number [k] on: the commands get their descriptors as values, there are
    no tables, and no descriptors are copied or closed. *)
Fixpoint plumb (c : command) (e : list fobj) (id : list nat) (k : nat) : list act * ending :=
  let ok := answer (k :: id) in
  let err msg := ([AWrite (e !! 2%nat) msg], EExit 1) in
  match c with
  | CExec [] => ([], EExit 1)
  | CExec (path :: args) =>
      if ok then ([], EExec path (path :: args) (std_table e)) else err (failed_msg (cstr (cstring "exec")) path)
  | CRedir c file mode fd =>
      if ok then plumb c (<[Z.to_nat fd := FFile file mode]> e) id (S k) else err (failed_msg (cstr (cstring "open")) file)
  | CList l r =>
      if ok then
        let '(a, x) := plumb l e (k :: id) 0 in
        let '(a', x') := plumb r e id (S k) in
        (AFork a x :: AWait (std_table e) :: a', x')
      else err (panic_msg (cstr (cstring "fork")))
  | CPipe l r =>
      if ok then
        if answer (S k :: id) then
          let '(a, x) := plumb l (<[1%nat := FPipeW (k :: id)]> e) (S k :: id) 0 in
          if answer (S (S k) :: id) then
            let '(a', x') := plumb r (<[0%nat := FPipeR (k :: id)]> e) (S (S k) :: id) 0 in
            ([AFork a x; AFork a' x'; AWait (std_table e); AWait (std_table e)], EExit 0)
          else ([AFork a x; AWrite (e !! 2%nat) (panic_msg (cstr (cstring "fork")))], EExit 1)
        else err (panic_msg (cstr (cstring "fork")))
      else err (panic_msg (cstr (cstring "pipe")))
  | CBack c =>
      if ok then let '(a, x) := plumb c e (k :: id) 0 in ([AFork a x], EExit 0)
      else err (panic_msg (cstr (cstring "fork")))
  end.
End plumb.

(** The redirections of a command are of the standard input or output. *)
Fixpoint redirs_ok (c : command) : Prop :=
  match c with
  | CExec _ => True
  | CRedir c _ _ fd => (fd = 0 \/ fd = 1) /\ redirs_ok c
  | CPipe l r | CList l r => redirs_ok l /\ redirs_ok r
  | CBack c => redirs_ok c
  end.

(** ** runcmd does what a command means *)

Lemma argv_of_array buf qs n : argv_of buf ((Some <$> qs) ++ replicate n None) = string_at buf <$> qs.
Proof. induction qs as [|q qs IH]; [by destruct n|]. rewrite !fmap_cons. simpl. by rewrite IH. Qed.

(** The tables after the calls that [runcmd] makes. *)
Lemma table_redir e fd f : length e = 3%nat -> fd = 0 \/ fd = 1 ->
  fd_alloc f (wr (std_table e) fd None) = (fd, std_table (<[Z.to_nat fd := f]> e)).
Proof. intros He. destruct e as [|a [|b [|c [|? ?]]]]; try done. intros [-> | ->]; reflexivity. Qed.

Lemma table_pipe e : length e = 3%nat -> forall r w,
  let t3 := (Some <$> e) ++ Some r :: replicate 12 None in let t4 := (Some <$> e) ++ Some r :: Some w :: replicate 11 None in
  fd_alloc r (std_table e) = (3, t3) /\ fd_alloc w t3 = (4, t4) /\ wr (wr t4 3 None) 4 None = std_table e /\
  rd None (wr t4 1 None) 4 = Some w /\ fd_alloc w (wr t4 1 None) = (1, wr t4 1 (Some w)) /\
  wr (wr (wr t4 1 (Some w)) 3 None) 4 None = std_table (<[1%nat := w]> e) /\
  rd None (wr t4 0 None) 3 = Some r /\ fd_alloc r (wr t4 0 None) = (0, wr t4 0 (Some r)) /\
  wr (wr (wr t4 0 (Some r)) 3 None) 4 None = std_table (<[0%nat := r]> e) /\ rd None t4 2 = e !! 2%nat.
Proof. intros He r w. destruct e as [|a [|b [|c [|? ?]]]]; try done; repeat split. Qed.

Lemma table_err e : length e = 3%nat -> rd None (std_table e) 2 = e !! 2%nat.
Proof. intros He. by destruct e as [|a [|b [|c [|? ?]]]]. Qed.

Lemma panic_text msg : printf (fun _ => msg) (cstring "%c%s
%c") [RED; 1; LGREY] = panic_msg msg.
Proof. unfold printf, panic_msg. cbn. done. Qed.

Section run.
Context (answer : list nat -> bool).

(** From [s] the process does [r.1] and ends with [r.2]. *)
Definition does (m : M uproc ending) (s : uproc) (r : list act * ending) : Prop :=
  wp m (fun x s' => x = r.2 /\ uacts s' = uacts s ++ r.1) s.

Lemma does_panic msg s : does (sh_panic msg) s ([AWrite (rd None (ufds s) 2) (panic_msg msg)], EExit 1).
Proof. unfold does, sh_panic. rewrite panic_text. by vm_compute. Qed.

Lemma does_fork1 child rest s a x a' x' : answer (ucalls s :: uid s) = true ->
  does child (UProc (ufds s) (ucalls s :: uid s) 0 []) (a, x) ->
  does rest (UProc (ufds s) (uid s) (S (ucalls s)) (uacts s ++ [AFork a x])) (a', x') ->
  does (fork1 answer child rest) s (AFork a x :: a', x').
Proof.
  intros Ha Hc Hr. destruct (wp_inv _ _ _ Hc) as (x1 & s1 & E1 & -> & A1). simpl in E1, A1.
  unfold does, fork1, u_fork. wp_step. wp_step. unfold ask at 1. unfold wp at 1. rewrite Ha. wp_step. wp_step.
  cbn [ufds set_ucalls]. rewrite E1. wp_step. unfold act_now. wp_step. wp_step.
  rewrite A1. eapply wp_mono; [exact Hr|]. simpl. intros y s' [-> ->]. by rewrite <- app_assoc.
Qed.

Lemma does_fork1_fail child rest s : answer (ucalls s :: uid s) = false ->
  does (fork1 answer child rest) s ([AWrite (rd None (ufds s) 2) (panic_msg (cstr (cstring "fork")))], EExit 1).
Proof. intros Ha. unfold does, fork1, u_fork. wp_step. wp_step. unfold ask at 1. unfold wp at 1. rewrite Ha. wp_step. exact (does_panic _ (set_ucalls (S (ucalls s)) s)). Qed.

Section command.
Context (h : list cmdnode) (buf : list Z) (base : Z) (Hbase : 0 < base).

Lemma failed_text_msg what q : what = "exec"%string \/ what = "open"%string -> 0 <= q ->
  failed_text buf base what q = failed_msg (cstr (cstring what)) (string_at buf q).
Proof using Hbase.
  intros Hw Hq. unfold failed_text, printf, failed_msg. assert (E : str_at buf base (base + q) = string_at buf q) by (unfold str_at; f_equal; lia).
  assert (N : 0 < base + q) by lia. revert E N. generalize (base + q) (str_at buf base) (string_at buf q). intros a st n E N. destruct a as [|a|a]; try lia.
  destruct Hw as [-> | ->]; subst n; vm_compute; done.
Qed.

(** A call [m] of the system that only changes the table. *)
Lemma does_table {A} (m : M uproc A) (k : A -> M uproc ending) s r (v : A) s' : m s = Ret v s' -> uacts s' = uacts s ->
  does (k v) s' r -> does (m ≫= k) s r.
Proof. intros E A1 H. unfold does. wp_step. apply (wp_intro _ _ _ _ _ E). unfold does in H. by rewrite A1 in H. Qed.

Lemma does_close fd (k : M uproc ending) s r : does k (set_ufds (wr (ufds s) fd None) s) r -> does (u_close fd;; k) s r.
Proof. intros H. by apply (does_table _ _ _ _ tt (set_ufds (wr (ufds s) fd None) s)). Qed.

Lemma does_dup fd f fd' l (k : M uproc ending) s r : rd None (ufds s) fd = Some f -> fd_alloc f (ufds s) = (fd', l) ->
  does k (set_ufds l s) r -> does (u_dup fd;; k) s r.
Proof. intros Ef Ea H. apply (does_table _ _ _ _ fd' (set_ufds l s)); [|done|exact H]. unfold u_dup, mbind, M_bind, get. rewrite Ef. unfold new_fd. by rewrite Ea. Qed.

Lemma does_err text (k : Z) s o : rd None (ufds s) 2 = o -> does (u_write 2 text;; exit_ k) s ([AWrite o text], EExit k).
Proof. intros <-. by vm_compute. Qed.

Lemma does_act b (k : M uproc ending) s a x : does k (UProc (ufds s) (uid s) (ucalls s) (uacts s ++ [b])) (a, x) ->
  does (act_now b;; k) s (b :: a, x).
Proof. intros H. unfold does, act_now. wp_step. wp_step. eapply wp_mono; [exact H|]. simpl. intros y s' [-> ->]. by rewrite <- app_assoc. Qed.

Lemma does_write text (k : M uproc ending) s a x o : rd None (ufds s) 2 = o -> does k (UProc (ufds s) (uid s) (ucalls s) (uacts s ++ [AWrite o text])) (a, x) ->
  does (u_write 2 text;; k) s (AWrite o text :: a, x).
Proof. intros <- H. unfold does, u_write, act_now. wp_step. wp_step. wp_step. wp_step. eapply wp_mono; [exact H|]. simpl. intros y s' [-> ->]. by rewrite <- app_assoc. Qed.

Lemma does_exit k s : does (exit_ k) s ([], EExit k).
Proof. unfold does, exit_. wp_step. by rewrite app_nil_r. Qed.

Lemma does_wait (k : M uproc ending) s a x : does k (UProc (ufds s) (uid s) (ucalls s) (uacts s ++ [AWait (ufds s)])) (a, x) ->
  does (u_wait;; k) s (AWait (ufds s) :: a, x).
Proof. intros H. unfold does, u_wait, act_now. wp_step. wp_step. wp_step. wp_step. eapply wp_mono; [exact H|]. simpl. intros y s' [-> ->]. by rewrite <- app_assoc. Qed.

(** A child takes the pipe's end [pfd] as its descriptor [fd]. *)
Lemma does_end fd pfd f t t1 e' id n a (k : M uproc ending) r : rd None (wr t fd None) pfd = Some f -> fd_alloc f (wr t fd None) = (fd, t1) ->
  wr (wr t1 3 None) 4 None = std_table e' -> does k (UProc (std_table e') id n a) r ->
  does (u_close fd;; u_dup pfd;; u_close 3;; u_close 4;; k) (UProc t id n a) r.
Proof.
  intros E1 E2 E3 H. apply does_close. eapply does_dup; [exact E1|exact E2|]. apply does_close, does_close. unfold set_ufds.
  cbn [ufds uid ucalls uacts]. by rewrite E3.
Qed.

Lemma runcmd_plumb c : forall fuel p e id k acts, loaded h buf p c -> redirs_ok c -> (cdepth c <= fuel)%nat -> length e = 3%nat ->
  does (runcmd answer h buf base fuel p) (UProc (std_table e) id k acts) (plumb answer c e id k).
Proof using Hbase.
  induction c as [argv|c IH f mode fd|l IHl r IHr|l IHl r IHr|c IH]; intros fuel p e id k acts L R F He;
    (destruct fuel as [|fuel]; [simpl in F; lia|]); assert (Er := table_err e He); cbn [runcmd]; cbn [cdepth] in F.
  - destruct L as (qs & es & -> & Lq & -> & Q). unfold arg_array at 1. destruct qs as [|q qs]; [apply does_exit|].
    inversion_clear Q as [|? ? Hq _]. cbn [fmap list_fmap app plumb]. change (rd None (Some q :: _) 0) with (Some q). cbv iota.
    unfold does. wp_step. wp_step. wp_step. unfold ask at 1, wp at 1. simpl ucalls. simpl uid. destruct (answer (k :: id)).
    + wp_step. split; [|by rewrite app_nil_r]. simpl. f_equal. unfold arg_array. by rewrite argv_of_array.
    + rewrite failed_text_msg by (by left || done). exact (does_err _ 1 (UProc (std_table e) id (S k) acts) _ Er).
  - destruct L as (c' & q & x & -> & -> & Hq & L). destruct R as [Hfd R]. apply does_close. cbn [plumb].
    unfold u_open. unfold does. wp_step. wp_step. unfold ask at 1, wp at 1. simpl ucalls. simpl uid. destruct (answer (k :: id)).
    + unfold new_fd at 1, wp at 1. simpl ufds. rewrite table_redir by done. rewrite (proj2 (Z.ltb_ge fd 0)) by lia.
      apply (IH fuel c' _ id (S k) acts L R); [lia|by rewrite length_insert].
    + wp_step. change (-1 <? 0) with true. cbv iota. rewrite failed_text_msg by (by right || done).
      refine (does_err _ 1 (UProc _ id (S k) acts) _ _). simpl. rewrite rd_wr_ne by lia. exact Er.
  - destruct L as (p1 & p2 & -> & L1 & L2). destruct R as [R1 R2]. cbn [plumb].
    destruct (table_pipe e He (FPipeR (k :: id)) (FPipeW (k :: id))) as (T1 & T2 & T3 & T4 & T5 & T6 & T7 & T8 & T9 & T10).
    set (t4 := _ ++ Some (FPipeR _) :: _ :: _) in *.
    destruct (answer (k :: id)) eqn:A1.
    2: { apply (does_table _ _ _ _ None (UProc (std_table e) id (S k) acts)); [unfold u_pipe, ask, mbind, M_bind; simpl; by rewrite A1|done|].
         rewrite <- Er. apply (does_panic _ (UProc _ id (S k) acts)). }
    apply (does_table _ _ _ _ (Some (3, 4)) (UProc t4 id (S k) acts)).
    { unfold u_pipe, ask, mbind, M_bind. cbn [ucalls uid]. rewrite A1. unfold new_fd. cbn [ufds set_ucalls]. rewrite T1. change (3 <? 0) with false. cbn [ufds set_ufds]. by rewrite T2. }
    { done. }
    destruct (answer (S k :: id)) eqn:A2; [|rewrite <- T10; by apply (does_fork1_fail _ _ (UProc t4 id (S k) acts))].
    destruct (plumb answer l _ _ _) as [a x] eqn:El. destruct (answer (S (S k) :: id)) eqn:A3.
    + destruct (plumb answer r _ _ _) as [a' x'] eqn:Err. apply does_fork1; [done| |apply does_fork1; [done| |]]; cbn [ufds uid ucalls uacts].
      * eapply does_end; [exact T4|exact T5|exact T6|]. rewrite <- El. apply IHl; [done|done|lia|by rewrite length_insert].
      * eapply does_end; [exact T7|exact T8|exact T9|]. rewrite <- Err. apply IHr; [done|done|lia|by rewrite length_insert].
      * apply does_close, does_close. unfold set_ufds. cbn [ufds uid ucalls uacts]. rewrite T3. apply does_wait, does_wait, does_exit.
    + apply does_fork1; [done| |]; cbn [ufds uid ucalls uacts].
      * eapply does_end; [exact T4|exact T5|exact T6|]. rewrite <- El. apply IHl; [done|done|lia|by rewrite length_insert].
      * rewrite <- T10. by apply (does_fork1_fail _ _ (UProc t4 id (S (S k)) _)).
  - destruct L as (p1 & p2 & -> & L1 & L2). destruct R as [R1 R2]. cbn [plumb]. destruct (answer (k :: id)) eqn:A1.
    + destruct (plumb answer l _ _ _) as [a x] eqn:El, (plumb answer r _ _ _) as [a' x'] eqn:Err. apply does_fork1; [done| |]; cbn [ufds uid ucalls uacts].
      * rewrite <- El. apply IHl; (done || lia).
      * apply does_wait. rewrite <- Err. apply IHr; (done || lia).
    + rewrite <- Er. by apply (does_fork1_fail _ _ (UProc _ id k acts)).
  - destruct L as (p1 & -> & L1). cbn [plumb]. destruct (answer (k :: id)) eqn:A1.
    + destruct (plumb answer c _ _ _) as [a x] eqn:El. apply does_fork1; [done| |apply does_exit]. rewrite <- El. apply IH; (done || lia).
    + rewrite <- Er. by apply (does_fork1_fail _ _ (UProc _ id k acts)).
Qed.
End command.

(** C22: the shell runs a command as it is meant.  For a command in the heap of
    the parser: a process with the descriptors 0, 1 and 2 starts each program of
    the command with exactly these descriptors, replaced by the files of the
    redirections and by the ends of the pipes; no other descriptor of a pipe
    stays open in a program or in the shell while it waits; a list waits for its
    left part before it goes on; and a call that fails ends the process with a
    message and the status 1. *)
Theorem runcmd_correct h buf base c fuel p e id k : 0 < base -> loaded h buf p c -> redirs_ok c -> (cdepth c <= fuel)%nat -> length e = 3%nat ->
  exists s', runcmd answer h buf base fuel p (UProc (std_table e) id k []) = Ret (plumb answer c e id k).2 s' /\ uacts s' = (plumb answer c e id k).1.
Proof.
  intros Hb L R F He. destruct (wp_inv _ _ _ (runcmd_plumb h buf base Hb c fuel p e id k [] L R F He)) as (x & s' & E & -> & A).
  exists s'. by rewrite E, A.
Qed.

(** ** A session *)

Lemma redirs_wrap buf t rs : Forall (fun r : redir => r.2 = 0 \/ r.2 = 1) rs -> redirs_ok (meaning buf t) -> redirs_ok (meaning buf (wrap t rs)).
Proof. intros Hr. revert t. induction Hr as [|r rs Hr Hrs IH]; intros t Ht; [done|]. apply (IH (TRedir t r)). by split. Qed.

Lemma redirs_backs buf n t : redirs_ok (meaning buf t) -> redirs_ok (meaning buf (backs n t)).
Proof. revert t. induction n as [|n IH]; intros t H; [done|]. by apply (IH (TBack t)). Qed.

Lemma gitems_redirs ts args rs : gitems ts args rs -> Forall (fun r : redir => r.2 = 0 \/ r.2 = 1) rs.
Proof. induction 1; [done|done|]. constructor; [|done]. unfold redir_of, open_mode. simpl. case_match; simpl; tauto. Qed.

Lemma grammar_redirs buf : (forall ts t, gline ts t -> redirs_ok (meaning buf t)) /\ (forall ts t, gpipe ts t -> redirs_ok (meaning buf t)) /\
  (forall ts t, gexec ts t -> redirs_ok (meaning buf t)).
Proof.
  apply grammar_ind; simpl; intros; try split; try done; try (by apply redirs_backs);
    (apply redirs_wrap; [by eapply gitems_redirs|done]).
Qed.

Lemma derives_redirs buf c : derives buf c -> redirs_ok c.
Proof. intros (t & G & ->). by apply (proj1 (grammar_redirs buf) _ _ G). Qed.

(** The child of the shell for a line. *)
Lemma child_plumb base buf c e id : 0 < base -> derives buf c -> length e = 3%nat ->
  does (sh_child answer base buf) (UProc (std_table e) id 0 []) (plumb answer c e id 0).
Proof.
  intros Hb D He. destruct (wp_inv _ _ _ (parse_complete buf (Shell 0 []) c D)) as ([cmd buf'] & sh & E & L & F). unfold does, sh_child, wp at 1. rewrite E.
  apply (runcmd_plumb (heap sh) buf' base Hb c (length (heap sh)) cmd e id 0 [] L); [by eapply derives_redirs|done|done].
Qed.

Lemma child_error base buf e id : (forall c, ~ derives buf c) -> length e = 3%nat ->
  exists m, does (sh_child answer base buf) (UProc (std_table e) id 0 []) ([AReport (e !! 2%nat) m], EExit 1).
Proof.
  intros D He. assert (P := parse_sound buf (Shell 0 [])). unfold ep in P. unfold does, sh_child, wp at 1.
  destruct (parsecmd buf (Shell 0 [])) as [[cmd buf'] sh|m| |]; [destruct P as (c & Dc & _); by destruct (D c)| |done|done].
  exists m. rewrite <- (table_err e He). done.
Qed.

(** The buffer of [main] after a line and its newline. *)
Definition line_buf (line : list Z) : list Z := line ++ [10] ++ replicate (99 - length line) 0.

Definition line_ok (line : list Z) : Prop := (length line <= 98)%nat /\ Forall (fun c => c ≠ 0 /\ c ≠ 10 /\ c ≠ 13) line.

Definition is_cd (line : list Z) : Prop := exists path, line = [99; 100; 32] ++ path.

Section session.
Context (e : list fobj) (He : length e = 3%nat) (id : list nat).

Definition prompt : act := AWrite (e !! 2%nat) [36; 32].

(** What the shell does for the lines, from its call number [k] on. *)
Inductive session : nat -> list (list Z) -> list act -> ending -> Prop :=
| ses_end k : session k [] [prompt] (EExit 0)
| ses_cd k path lines acts x : session (S k) lines acts x ->
    session k (([99; 100; 32] ++ path) :: lines) (prompt :: AChdir path ::
      (if answer (k :: id) then [] else [AWrite (e !! 2%nat) (cstr (cstring "cannot cd ") ++ path ++ [10])]) ++ acts) x
| ses_command k line c lines acts x : ~ is_cd line -> answer (k :: id) = true -> derives (line_buf line) c -> session (S k) lines acts x ->
    session k (line :: lines) (prompt :: AFork (plumb answer c e (k :: id) 0).1 (plumb answer c e (k :: id) 0).2 :: AWait (std_table e) :: acts) x
| ses_error k line m lines acts x : ~ is_cd line -> answer (k :: id) = true -> (forall c, ~ derives (line_buf line) c) -> session (S k) lines acts x ->
    session k (line :: lines) (prompt :: AFork [AReport (e !! 2%nat) m] (EExit 1) :: AWait (std_table e) :: acts) x
| ses_fork k line lines : ~ is_cd line -> answer (k :: id) = false ->
    session k (line :: lines) [prompt; AWrite (e !! 2%nat) (panic_msg (cstr (cstring "fork")))] (EExit 1).

Lemma gets_from_line n line rest : (length line < n)%nat -> Forall (fun c => c ≠ 0 /\ c ≠ 10 /\ c ≠ 13) line ->
  gets_from n (line ++ 10 :: rest) = (line ++ [10], rest).
Proof.
  intros Hn Hl. revert n Hn. induction Hl as [|c line (_ & H1 & H2) Hl IH]; intros [|n] Hn; simpl in *; try lia; [done|].
  rewrite (proj2 (Z.eqb_neq c 10)), (proj2 (Z.eqb_neq c 13)) by done. simpl. by rewrite IH by lia.
Qed.

Lemma gets_line_buf line rest : line_ok line -> gets_line 100 (line ++ 10 :: rest) = (line_buf line, rest).
Proof.
  intros [Hl Hc]. unfold gets_line, line_buf. rewrite gets_from_line by (done || (change (Z.to_nat (100 - 1)) with 99%nat; lia)).
  f_equal. rewrite <- app_assoc. do 3 f_equal. rewrite length_app. simpl. lia.
Qed.

(** One prompt and the line read. *)
Lemma does_getcmd (k : Z * list Z * list Z -> M uproc ending) line rest n acts a x : line_ok line ->
  does (k (0, line_buf line, rest)) (UProc (std_table e) id n (acts ++ [prompt])) (a, x) ->
  does (getcmd 100 (line ++ 10 :: rest) ≫= k) (UProc (std_table e) id n acts) (prompt :: a, x).
Proof.
  intros Hl H. assert (Er := table_err e He). unfold does, getcmd, u_write, act_now. wp_step. wp_step. wp_step. wp_step. wp_step.
  rewrite gets_line_buf by done. wp_step. cbn [ufds uid ucalls uacts]. rewrite Er.
  assert (E0 : (rd 0 (line_buf line) 0 =? 0) = false). { apply Z.eqb_neq. destruct Hl as [_ Hc]. destruct line as [|c line]; [done|]. by inversion_clear Hc as [|? ? [Hc0 _] _]. }
  rewrite E0. eapply wp_mono; [exact H|]. simpl. intros y s' [-> ->]. by rewrite <- app_assoc.
Qed.

Lemma does_getcmd_eof (k : Z * list Z * list Z -> M uproc ending) n acts a x :
  does (k (-1, replicate 100 0, [])) (UProc (std_table e) id n (acts ++ [prompt])) (a, x) ->
  does (getcmd 100 [] ≫= k) (UProc (std_table e) id n acts) (prompt :: a, x).
Proof.
  intros H. assert (Er := table_err e He). unfold does, getcmd, u_write, act_now. wp_step. wp_step. wp_step. wp_step. wp_step.
  assert (G : gets_line 100 [] = (replicate 100 0, [])) by done. rewrite G. wp_step. cbn [ufds uid ucalls uacts]. rewrite Er. change (rd 0 (replicate 100 0) 0 =? 0) with true.
  eapply wp_mono; [exact H|]. simpl. intros y s' [-> ->]. by rewrite <- app_assoc.
Qed.

Lemma cd_test line : line_ok line -> let buf := line_buf line in
  (rd 0 buf 0 =? 99) && (rd 0 buf 1 =? 100) && (rd 0 buf 2 =? 32) = true <-> is_cd line.
Proof.
  intros [Hl Hc] buf. rewrite !andb_true_iff, !Z.eqb_eq. unfold buf, line_buf, is_cd. split.
  - intros [[H0 H1] H2]. destruct line as [|a [|b [|c line]]]; cbn in H0, H1, H2; try done.
    exists line. change (a = 99) in H0. change (b = 100) in H1. change (c = 32) in H2. by subst.
  - intros (path & ->). done.
Qed.

Lemma cd_path path : line_ok ([99; 100; 32] ++ path) -> let buf := line_buf ([99; 100; 32] ++ path) in
  string_at (wr buf (strlen buf - 1) 0) 3 = path.
Proof.
  intros [Hl Hc] buf. set (line := [99; 100; 32] ++ path) in *. assert (Hn : Forall (fun c => c ≠ 0) (line ++ [10])).
  { apply Forall_app. split; [|by repeat constructor]. eapply Forall_impl; [exact Hc|by intros c (? & _)]. }
  assert (E : strlen buf - 1 = Z.of_nat (length line)).
  { unfold buf, line_buf. rewrite app_assoc. replace (replicate (99 - length line) 0) with (0 :: replicate (98 - length line) 0) by
      (replace (99 - length line)%nat with (S (98 - length line)) by lia; done).
    rewrite strlen_cstr, cstr_app_nul by done. unfold zlen. rewrite length_app. simpl. lia. }
  rewrite E. unfold string_at, buf, line_buf. unfold wr. rewrite decide_True, Nat2Z.id by lia. rewrite insert_app_r_alt, Nat.sub_diag by lia.
  change (drop (Z.to_nat 3) (line ++ ?r)) with (path ++ r). apply cstr_app_nul. apply Forall_app in Hn as [Hn _]. by apply Forall_app in Hn as [_ Hn].
Qed.

Lemma derives_or_not buf : (exists c, derives buf c) \/ forall c, ~ derives buf c.
Proof.
  assert (P := parse_sound buf (Shell 0 [])). unfold ep in P. destruct (parsecmd buf (Shell 0 [])) as [r sh|m| |] eqn:E; try done.
  - left. destruct P as (c & D & _). by exists c.
  - right. intros c D. destruct (wp_inv _ _ _ (parse_complete buf (Shell 0 []) c D)) as (r & s' & E' & _). congruence.
Qed.

Lemma loop_session base lines : 0 < base -> Forall line_ok lines -> forall fuel k acts, (length lines <= fuel)%nat ->
  exists a x, session k lines a x /\
    does (sh_loop answer base fuel (mjoin ((fun l => l ++ [10]) <$> lines))) (UProc (std_table e) id k acts) (a, x).
Proof.
  intros Hb Hl. induction Hl as [|line lines Hline Hl IH]; intros fuel k acts Hf.
  - exists [prompt], (EExit 0). split; [constructor|]. destruct fuel; cbn [sh_loop]; (apply does_getcmd_eof; cbv beta iota; change (-1 <? 0) with true; apply does_exit).
  - destruct fuel as [|fuel]; [simpl in Hf; lia|]. assert (Hf' : (length lines <= fuel)%nat) by (simpl in Hf; lia).
    rewrite fmap_cons. set (rest := mjoin ((fun l => l ++ [10]) <$> lines)) in *.
    change (mjoin _) with ((line ++ [10]) ++ rest). rewrite <- app_assoc. simpl app. cbn [sh_loop].
    assert (Er := table_err e He). assert (T := cd_test line Hline). cbv zeta in T.
    destruct ((rd 0 (line_buf line) 0 =? 99) && (rd 0 (line_buf line) 1 =? 100) && (rd 0 (line_buf line) 2 =? 32)) eqn:Et.
    + destruct (proj1 T eq_refl) as (path & El). set (o := e !! 2%nat) in *.
      destruct (IH fuel (S k) ((acts ++ [prompt]) ++ [AChdir path] ++
        (if answer (k :: id) then [] else [AWrite o (cstr (cstring "cannot cd ") ++ path ++ [10])])) Hf') as (a & x & Hs & Hd).
      eexists _, x. split; [rewrite El; by constructor|]. apply does_getcmd; [done|]. cbv beta iota. change (0 <? 0) with false. cbv iota. rewrite Et.
      cbv zeta. rewrite El in *. rewrite (cd_path path) by done. apply does_act.
      apply (does_table _ _ _ _ (answer (k :: id), k :: id) (UProc (std_table e) id (S k) ((acts ++ [prompt]) ++ [AChdir path]))); [done|done|]. cbv beta iota.
      destruct (answer (k :: id)); [by rewrite app_nil_r in Hd|]. apply does_write; [exact Er|]. cbn [ufds uid ucalls uacts]. by rewrite <- app_assoc.
    + assert (Nc : ~ is_cd line) by (intros Hcd; by apply T in Hcd). destruct (answer (k :: id)) eqn:A.
      2: { eexists _, _. split; [by apply ses_fork|]. apply does_getcmd; [done|]. cbv beta iota. change (0 <? 0) with false. cbv iota. rewrite Et. rewrite <- Er. by apply (does_fork1_fail _ _ (UProc _ id k _)). }
      assert (Go : forall b y, does (sh_child answer base (line_buf line)) (UProc (std_table e) (k :: id) 0 []) (b, y) ->
        exists a x, session (S k) lines a x /\ does (sh_loop answer base (S fuel) (line ++ 10 :: rest)) (UProc (std_table e) id k acts)
          (prompt :: AFork b y :: AWait (std_table e) :: a, x)).
      { intros b y Hc. destruct (IH fuel (S k) (((acts ++ [prompt]) ++ [AFork b y]) ++ [AWait (std_table e)]) Hf') as (a & x & Hs & Hd). exists a, x.
        split; [done|]. cbn [sh_loop]. apply does_getcmd; [done|]. cbv beta iota. change (0 <? 0) with false. cbv iota. rewrite Et.
        apply does_fork1; [done|done|]. apply does_wait. exact Hd. }
      destruct (derives_or_not (line_buf line)) as [(c & D)|D].
      * destruct (Go _ _ ltac:(rewrite <- surjective_pairing; exact (child_plumb base _ c e (k :: id) Hb D He))) as (a & x & Hs & Hd).
        eexists _, x. split; [by eapply ses_command|exact Hd].
      * destruct (child_error base _ e (k :: id) D He) as (m & Hm). destruct (Go _ _ Hm) as (a & x & Hs & Hd).
        eexists _, x. split; [by eapply ses_error|exact Hd].
Qed.

(** C21: a session.  The shell that starts with three descriptors reads the
    lines of its input one after the other.  A line of the grammar is run in a
    child as the command that the grammar gives it, any other line ends its child
    with an error, [cd] changes the directory of the shell itself; the shell waits
    for each child, keeps its three descriptors, and ends at the end of the input,
    or when it cannot fork. *)
Theorem shell_session base lines : 0 < base -> Forall line_ok lines ->
  exists a x s', session 1 lines a x /\
    sh_main answer base (mjoin ((fun l => l ++ [10]) <$> lines)) (UProc (std_table e) id 0 []) = Ret x s' /\ uacts s' = a.
Proof.
  intros Hb Hl. set (input := mjoin _).
  assert (Lf : (length lines <= length input)%nat).
  { unfold input. clear. induction lines as [|l lines IH]; [done|]. rewrite fmap_cons. change (mjoin _) with ((l ++ [10]) ++ mjoin ((fun l => l ++ [10]) <$> lines)).
    rewrite !length_app. simpl in *. lia. }
  destruct (loop_session base lines Hb Hl (length input) 1 [] Lf) as (a & x & Hs & Hd). exists a, x.
  assert (O : open_three answer 4 (UProc (std_table e) id 0 []) = Ret tt (UProc (std_table e) id 1 [])).
  { destruct e as [|f0 [|f1 [|f2 [|? ?]]]]; try done. cbn [open_three]. unfold u_open, ask, mbind, M_bind. cbn. by destruct (answer (0%nat :: id)). }
  destruct (wp_inv _ _ _ Hd) as (y & s' & E & -> & A). exists s'. split; [done|]. split; [|exact A]. unfold sh_main, mbind, M_bind. rewrite O. exact E.
Qed.
End session.
End run.

(** ** On a line *)

Definition yes (c : list nat) : bool := true.
Definition demo_std : list fobj := [FOther 0; FOther 1; FOther 2].

(** [ls -l >o | wc &] *)
Lemma pipe_demo_run : plumb yes demo_command demo_std [1%nat] 0 =
  ([AFork [AFork [] (EExec [108; 115] [[108; 115]; [45; 108]] (std_table [FOther 0; FFile [111] 513; FOther 2]));
           AFork [] (EExec [119; 99] [[119; 99]] (std_table [FPipeR [0; 0; 1]%nat; FOther 1; FOther 2]));
           AWait (std_table demo_std); AWait (std_table demo_std)] (EExit 0)], EExit 0).
Proof. reflexivity. Qed.

(** The nodes of [ls|w] and its line. *)
Definition demo_heap : list cmdnode := [NExec (arg_array [0]) (arg_array [2]); NExec (arg_array [3]) (arg_array [4]); NPipe 0 1].
Definition demo_text : list Z := [108; 115; 0; 119; 0].

Lemma runcmd_correct_witness : let c := CPipe (CExec [[108; 115]]) (CExec [[119]]) in
  exists s', runcmd yes demo_heap demo_text 8192 2 2 (UProc (std_table demo_std) [] 0 []) = Ret (plumb yes c demo_std [] 0).2 s' /\
    uacts s' = (plumb yes c demo_std [] 0).1.
Proof.
  apply runcmd_correct; [lia| |by repeat split|simpl; lia|done].
  exists 0%nat, 1%nat. split; [done|]. split; [exists [0], [2]|exists [3], [4]]; (split; [done|]; split; [simpl; lia|]; split; [done|]; by repeat constructor).
Defined.

Lemma shell_session_witness : exists a x s', session yes demo_std [] 1 [[99; 100; 32; 47]; [108; 115]] a x /\
  sh_main yes 8192 (mjoin ((fun l => l ++ [10]) <$> [[99; 100; 32; 47]; [108; 115]])) (UProc (std_table demo_std) [] 0 []) = Ret x s' /\ uacts s' = a.
Proof.
  apply shell_session; [done|lia|]. repeat (constructor; [split; [simpl; lia|by repeat constructor]|]). constructor.
Defined.
