(* ===== verification/PhysMem.v ===== *)
(** * Physical memory by addresses

    Memory before the kernel has taken it over, as a function from addresses to
    bytes; for the boot loader and the tables of the firmware. *)

From S2P Require Import Prelude.

(** The bytes [bs] stored from the address [a] on; addresses wrap around. *)
Definition store (a : Z) (bs : list Z) (m : Z -> Z) : Z -> Z := fun x =>
  if decide (u32 (x - a) < zlen bs) then rd 0 bs (u32 (x - a)) else m x.

(** The [n] bytes from the address [a] on. *)
Definition fetch (m : Z -> Z) (a n : Z) : list Z := (fun i => m (u32 (a + i))) <$> seqZ 0 n.

Definition mem32 (m : Z -> Z) (a : Z) : Z := le_word (fetch m a 4).

Lemma store_at a bs m x : 0 <= a -> a + zlen bs <= 2 ^ 32 -> is_u32 x ->
  store a bs m x = if decide (a <= x < a + zlen bs) then rd 0 bs (x - a) else m x.
Proof.
  intros Ha Hb Hx. unfold store. assert (L := zlen_nonneg bs). case_decide as H1; case_decide as H2; [|exfalso|exfalso|done].
  - by rewrite u32_id by mlia.
  - mlia.
  - mlia.
Qed.

Lemma zlen_fetch m a n : 0 <= n -> zlen (fetch m a n) = n.
Proof. intros Hn. unfold zlen, fetch. rewrite length_fmap, length_seqZ. lia. Qed.

Lemma fetch_app m a n1 n2 : 0 <= n1 -> 0 <= n2 -> fetch m a (n1 + n2) = fetch m a n1 ++ fetch m (a + n1) n2.
Proof.
  intros H1 H2. unfold fetch. rewrite (seqZ_app 0 n1 n2), fmap_app by lia. f_equal.
  apply list_eq. intros i. rewrite !list_lookup_fmap. destruct (decide (Z.of_nat i < n2)) as [L|L].
  - rewrite !lookup_seqZ_lt by lia. simpl. do 3 f_equal. lia.
  - rewrite !lookup_seqZ_ge by lia. done.
Qed.

Lemma rd_fetch m a n i : 0 <= i < n -> rd 0 (fetch m a n) i = m (u32 (a + i)).
Proof. intros Hi. unfold rd, fetch. rewrite decide_True by lia. rewrite list_lookup_fmap, lookup_seqZ_lt by lia. simpl. do 3 f_equal. lia. Qed.
