(* ===== verification/Boot.v ===== *)
(** * The boot loader (bootmain.c)

    [bootmain] reads the kernel, an ELF file that starts at sector 1 of the disk,
    into physical memory and returns the address to jump to.  It polls the
    controller; the laws of the controller for this use are the class
    [PioDisk].  Memory is a function from addresses to bytes. *)

From S2P Require Import Prelude Param Layout SleepLock Bio Ide BlockStore Fs Mmu Kalloc Vm Pipe FileOps Proc File UserAccess Sysfile Exec PhysMem.

Definition SECTSIZE : Z := 512.

Record bstate (D : Type) := BState { bmem : Z -> Z; bdev : D }.
Arguments BState {D}. Arguments bmem {D}. Arguments bdev {D}.

Section boot.
Context {D : Type} {AP : AtaPorts D} (patience : nat).
Notation bstate := (bstate D).

Definition set_bmem v (s : bstate) : bstate := BState v (bdev s).
Definition set_bdev v (s : bstate) : bstate := BState (bmem s) v.
Definition bio {A} (m : M D A) : M bstate A := zoom bdev set_bdev m.

(** The loop asks at most [patience] times more. *)
Fixpoint wait_loop (fuel : nat) : M D unit :=
  r ← inb 0x1F7;
  if negb (Z.land r 0xC0 =? 0x40) then match fuel with O => out_of_fuel | S fuel' => wait_loop fuel' end
  else mret tt.
Definition waitdisk : M bstate unit := bio (wait_loop patience).

Definition readsect (dst offset : Z) : M bstate unit :=
  waitdisk;;
  bio (outb 0x1F2 1);;
  bio (outb 0x1F3 (u8 offset));;
  bio (outb 0x1F4 (u8 (Z.shiftr offset 8)));;
  bio (outb 0x1F5 (u8 (Z.shiftr offset 16)));;
  bio (outb 0x1F6 (u8 (Z.lor (Z.shiftr offset 24) 0xE0)));;
  bio (outb 0x1F7 0x20);;
  waitdisk;;
  d ← bio (insl 0x1F0 (SECTSIZE / 4));
  modify (fun s => set_bmem (store dst d (bmem s)) s).

Fixpoint readseg_loop (fuel : nat) (pa epa offset : Z) : M bstate unit :=
  if pa <? epa then
    match fuel with
    | O => out_of_fuel
    | S fuel' => readsect pa offset;; readseg_loop fuel' (u32 (pa + SECTSIZE)) epa (u32 (offset + 1))
    end
  else mret tt.

Definition readseg (pa count offset : Z) : M bstate unit :=
  let epa := u32 (pa + count) in
  let pa := u32 (pa - offset mod SECTSIZE) in
  let offset := offset / SECTSIZE + 1 in
  readseg_loop (Z.to_nat ((epa - pa) / SECTSIZE + 1)) pa epa offset.

(** The fields of a program header at [ph]. *)
Definition p_off (m : Z -> Z) (ph : Z) : Z := mem32 m (ph + 4).
Definition p_paddr (m : Z -> Z) (ph : Z) : Z := mem32 m (ph + 12).
Definition p_filesz (m : Z -> Z) (ph : Z) : Z := mem32 m (ph + 16).
Definition p_memsz (m : Z -> Z) (ph : Z) : Z := mem32 m (ph + 20).

(** One round of the loop over the program headers. *)
Definition load_segment (ph : Z) : M bstate unit :=
  s ← get;
  let pa := p_paddr (bmem s) ph in
  readseg pa (p_filesz (bmem s) ph) (p_off (bmem s) ph);;
  s ← get;
  let filesz := p_filesz (bmem s) ph in
  let memsz := p_memsz (bmem s) ph in
  if filesz <? memsz then
    modify (fun s => set_bmem (store (u32 (pa + filesz)) (replicate (Z.to_nat (memsz - filesz)) 0) (bmem s)) s)
  else mret tt.

(** The loop, for at most [n] headers. *)
Fixpoint load_all (n : nat) (ph eph : Z) : M bstate unit :=
  if ph <? eph then
    match n with
    | O => out_of_fuel
    | S n' => load_segment ph;; load_all n' (u32 (ph + sizeof_proghdr)) eph
    end
  else mret tt.

Definition scratch : Z := 0x10000.

(** The entry point, or nothing when there is no kernel. *)
Definition bootmain : M bstate (option Z) :=
  readseg scratch 4096 0;;
  s ← get;
  let elf := fetch (bmem s) scratch sizeof_elfhdr in
  let h := read_elfhdr elf in
  if negb (eh_magic h =? ELF_MAGIC) then mret None
  else
    let ph := u32 (scratch + eh_phoff h) in
    load_all (Z.to_nat (eh_phnum h)) ph (u32 (ph + eh_phnum h * sizeof_proghdr));;
    s ← get;
    mret (Some (eh_entry (read_elfhdr (fetch (bmem s) scratch sizeof_elfhdr)))).

(** ** The controller *)

(** The status register says ready after [n] reads that do not. *)
Fixpoint ready_after (n : nat) (d d' : D) : Prop :=
  match n with
  | O => exists r, inb 0x1F7 d = Ret r d' /\ Z.land r 0xC0 = 0x40
  | S n' => exists r d1, inb 0x1F7 d = Ret r d1 /\ Z.land r 0xC0 ≠ 0x40 /\ ready_after n' d1 d'
  end.

(** A controller that is read by polling, as its documentation describes it. *)
Class PioDisk := {
  preg : D -> Z -> Z;
  sector : D -> Z -> list Z;
  idle : D -> Prop;
  sector_len d b : zlen (sector d b) = SECTSIZE;
  sector_u8 d b : Forall is_u8 (sector d b);
  pio_ready d : idle d -> exists n d', (n <= patience)%nat /\ ready_after n d d' /\ idle d' /\ preg d' = preg d /\ sector d' = sector d;
  pio_reg d p v : idle d -> 0x1F2 <= p <= 0x1F6 -> is_u8 v -> exists d', outb p v d = Ret tt d' /\ idle d' /\
    (forall q, preg d' q = if decide (q = p) then v else preg d q) /\ sector d' = sector d;
  pio_read d : idle d -> preg d 0x1F2 = 1 -> Z.land (preg d 0x1F6) 0xF0 = 0xE0 -> exists d1 n d2 d3,
    outb 0x1F7 0x20 d = Ret tt d1 /\ (n <= patience)%nat /\ ready_after n d1 d2 /\
    insl 0x1F0 (SECTSIZE / 4) d2 = Ret (sector d (preg d 0x1F3 + 256 * preg d 0x1F4 + 65536 * preg d 0x1F5 + 2 ^ 24 * Z.land (preg d 0x1F6) 15)) d3 /\
    idle d3 /\ sector d3 = sector d
}.
Context {PD : PioDisk}.

Lemma wait_loop_run n : forall fuel d d', ready_after n d d' -> (n <= fuel)%nat -> wait_loop fuel d = Ret tt d'.
Proof.
  induction n as [|n IH]; intros fuel d d' H Hf.
  - destruct H as (r & E & Hr). destruct fuel; cbn [wait_loop]; munfold; rewrite E, Hr; done.
  - destruct H as (r & d1 & E & Hr & H). destruct fuel as [|fuel]; [lia|]. cbn [wait_loop]. munfold. rewrite E, (proj2 (Z.eqb_neq _ _) Hr). simpl. apply IH; [done|lia].
Qed.

Lemma wp_wait s (Q : unit -> bstate -> Prop) :
  idle (bdev s) -> (forall d, idle d -> preg d = preg (bdev s) -> sector d = sector (bdev s) -> Q tt (set_bdev d s)) -> wp waitdisk Q s.
Proof.
  intros Hi HQ. destruct (pio_ready _ Hi) as (n & d & Hn & Hr & Hd & E1 & E2). unfold waitdisk, bio. wp_step.
  apply (wp_intro _ _ _ _ _ (wait_loop_run n patience _ _ Hr Hn)). by apply HQ.
Qed.

Lemma wp_outb p v s (Q : unit -> bstate -> Prop) : idle (bdev s) -> 0x1F2 <= p <= 0x1F6 -> is_u8 v ->
  (forall d, idle d -> (forall q, preg d q = if decide (q = p) then v else preg (bdev s) q) -> sector d = sector (bdev s) -> Q tt (set_bdev d s)) ->
  wp (bio (outb p v)) Q s.
Proof.
  intros Hi Hp Hv HQ. destruct (pio_reg _ p v Hi Hp Hv) as (d & E & Hd & E1 & E2). unfold bio. wp_step. apply (wp_intro _ _ _ _ _ E). by apply HQ.
Qed.

(** ** Reading *)

Lemma wp_readsect dst offset s (Q : unit -> bstate -> Prop) : idle (bdev s) -> 0 <= offset < 2 ^ 24 ->
  (forall d, idle d -> sector d = sector (bdev s) -> Q tt (BState (store dst (sector (bdev s) offset) (bmem s)) d)) -> wp (readsect dst offset) Q s.
Proof.
  intros Hi Ho HQ. unfold readsect. wp_step. apply wp_wait; [done|]. intros d0 I0 _ S0.
  wp_step. apply wp_outb; [done|lia|done|]. intros d1 I1 R1 S1. wp_step. apply wp_outb; [done|lia|apply u8_range|]. intros d2 I2 R2 S2.
  wp_step. apply wp_outb; [done|lia|apply u8_range|]. intros d3 I3 R3 S3. wp_step. apply wp_outb; [done|lia|apply u8_range|]. intros d4 I4 R4 S4.
  wp_step. apply wp_outb; [done|lia|apply u8_range|]. intros d5 I5 R5 S5. cbn [bdev set_bdev] in *.
  assert (Z24 : Z.shiftr offset 24 = 0) by (rewrite Z.shiftr_div_pow2 by lia; apply Z.div_small; lia). rewrite Z24 in R5. change (u8 (Z.lor 0 0xE0)) with 0xE0 in R5.
  destruct (pio_read d5 I5) as (d6 & n & d7 & d8 & E6 & Hn & E7 & E8 & I8 & S8); [rewrite R5, R4, R3, R2, R1; done|rewrite R5; done|].
  wp_step. unfold bio. wp_step. apply (wp_intro _ _ _ _ _ E6). wp_step. unfold waitdisk, bio. wp_step. cbn [bdev set_bdev].
  apply (wp_intro _ _ _ _ _ (wait_loop_run n patience _ _ E7 Hn)). wp_step. wp_step. cbn [bdev set_bdev]. apply (wp_intro _ _ _ _ _ E8). wp_step.
  replace (preg d5 0x1F3 + _ + _ + _) with offset in *.
  - assert (ES : sector d5 = sector (bdev s)) by congruence. rewrite ES. apply (HQ d8); [done|by rewrite S8].
  - assert (G3 : preg d5 0x1F3 = u8 offset) by (rewrite R5, R4, R3, R2; done). assert (G4 : preg d5 0x1F4 = u8 (Z.shiftr offset 8)) by (rewrite R5, R4, R3; done).
    assert (G5 : preg d5 0x1F5 = u8 (Z.shiftr offset 16)) by (rewrite R5, R4; done). assert (G6 : preg d5 0x1F6 = 0xE0) by (rewrite R5; done).
    rewrite G3, G4, G5, G6, !Z.shiftr_div_pow2 by lia. change (Z.land 0xE0 15) with 0. clear -Ho. mlia.
Qed.

(** Byte [i] of the kernel file. *)
Definition fbyte (f : Z -> list Z) (i : Z) : Z := rd 0 (f (1 + i / SECTSIZE)) (i mod SECTSIZE).

Lemma wp_readseg_loop epa k : forall fuel pa sec s (Q : unit -> bstate -> Prop), idle (bdev s) -> (k <= fuel)%nat -> 0 <= pa -> epa + SECTSIZE <= 2 ^ 32 ->
  1 <= sec -> sec + Z.of_nat k < 2 ^ 24 -> (if decide (k = 0%nat) then epa <= pa else SECTSIZE * (Z.of_nat k - 1) < epa - pa <= SECTSIZE * Z.of_nat k) ->
  (forall d m, idle d -> sector d = sector (bdev s) ->
     (forall x, is_u32 x -> m x = if decide (pa <= x < pa + SECTSIZE * Z.of_nat k) then fbyte (sector (bdev s)) (SECTSIZE * (sec - 1) + (x - pa)) else bmem s x) ->
     Q tt (BState m d)) -> wp (readseg_loop fuel pa epa sec) Q s.
Proof.
  unfold SECTSIZE. induction k as [|k IH]; intros fuel pa sec s Q Hi Hf Hp He H1 H2 Hk HQ.
  - simpl in Hk. assert (E : readseg_loop fuel pa epa sec = mret tt) by (destruct fuel; cbn [readseg_loop]; by rewrite (proj2 (Z.ltb_ge _ _)) by lia).
    rewrite E. wp_step. destruct s as [m d]. apply HQ; [done|done|]. intros x _. rewrite decide_False by lia. done.
  - rewrite decide_False in Hk by done. destruct fuel as [|fuel]; [lia|]. cbn [readseg_loop]. rewrite (proj2 (Z.ltb_lt _ _)) by lia. wp_step.
    apply wp_readsect; [done|lia|]. intros d I1 S1. unfold SECTSIZE. rewrite !u32_id by (unfold is_u32; lia).
    apply IH; [done|lia|lia|unfold SECTSIZE; lia|lia|lia| |].
    + case_decide; lia.
    + cbn [bdev bmem]. intros d' m' I2 S2 Hm. apply HQ; [done|congruence|]. intros x Hx. rewrite Hm by done. rewrite S1. assert (Ls := sector_len (bdev s) sec). unfold SECTSIZE in Ls.
      rewrite store_at by (done || lia). rewrite Ls. unfold fbyte, SECTSIZE. repeat case_decide; try lia; try done.
      all: f_equal; [f_equal|]; clear Hm HQ IH; mlia.
Qed.

(** The first address that [readseg] writes, and the one after the last. *)
Definition seg_lo (pa off : Z) : Z := pa - off mod SECTSIZE.
Definition seg_hi (pa count off : Z) : Z := seg_lo pa off + SECTSIZE * ((count + off mod SECTSIZE + 511) / SECTSIZE).

Lemma wp_readseg pa count off s (Q : unit -> bstate -> Prop) : idle (bdev s) -> 0 <= seg_lo pa off -> 0 <= count -> 0 <= off ->
  pa + count + SECTSIZE <= 2 ^ 32 -> off + count + SECTSIZE < 2 ^ 32 ->
  (forall d m, idle d -> sector d = sector (bdev s) ->
     (forall x, is_u32 x -> m x = if decide (seg_lo pa off <= x < seg_hi pa count off) then fbyte (sector (bdev s)) (off + (x - pa)) else bmem s x) ->
     Q tt (BState m d)) -> wp (readseg pa count off) Q s.
Proof.
  unfold readseg, seg_lo, seg_hi, SECTSIZE. intros Hi Hl Hc Ho Hp Hf HQ. assert (B := Z.mod_pos_bound off 512 ltac:(lia)).
  rewrite !u32_id by (unfold is_u32; lia). set (k := (count + off mod 512 + 511) / 512).
  assert (Hk : 512 * (k - 1) < count + off mod 512 <= 512 * k) by (unfold k; mlia). assert (K0 : 0 <= k) by lia.
  assert (O0 := Z.div_pos off 512 Ho ltac:(lia)). assert (Hoff : off / 512 + count / 512 + 4 < 2 ^ 24) by (change (2 ^ 24) with 16777216; mlia).
  apply (wp_readseg_loop (pa + count) (Z.to_nat k)); unfold SECTSIZE; try done; try lia.
  - assert (k <= (pa + count - (pa - off mod 512)) / 512 + 1) by (unfold k; mlia). lia.
  - assert (k <= count / 512 + 2) by (unfold k; mlia). lia.
  - case_decide; lia.
  - intros d m Id Sd Hm. apply HQ; [done|done|]. intros x Hx. rewrite Hm by done. rewrite Z2Nat.id by lia.
    unfold k. repeat case_decide; try done; try lia. f_equal. mlia.
Qed.

(** ** A kernel that can be loaded *)

Section kernel.
Context (f : Z -> list Z).

Definition file_bytes (a n : Z) : list Z := (fun i => fbyte f (a + i)) <$> seqZ 0 n.
Definition file32 (a : Z) : Z := le_word (file_bytes a 4).
Definition file_hdr : elfhdr := read_elfhdr (file_bytes 0 sizeof_elfhdr).

(** Program header [j]. *)
Definition hdr_at (j : nat) : Z := eh_phoff file_hdr + sizeof_proghdr * Z.of_nat j.
Definition k_off (j : nat) : Z := file32 (hdr_at j + 4).
Definition k_paddr (j : nat) : Z := file32 (hdr_at j + 12).
Definition k_filesz (j : nat) : Z := file32 (hdr_at j + 16).
Definition k_memsz (j : nat) : Z := file32 (hdr_at j + 20).
Definition k_lo (j : nat) : Z := seg_lo (k_paddr j) (k_off j).

(** The headers are in the first page, the segments are above the page at
    [scratch] in which the headers lie, and each segment begins, with the
    rounding to a sector of the file, behind those before it.  A header without
    bytes (like the one for the stack) is passed over. *)
Record bootable : Prop := {
  bt_magic : eh_magic file_hdr = ELF_MAGIC;
  bt_headers : eh_phoff file_hdr + sizeof_proghdr * eh_phnum file_hdr <= 4096;
  bt_sizes j : Z.of_nat j < eh_phnum file_hdr -> k_filesz j <= k_memsz j;
  bt_place j : Z.of_nat j < eh_phnum file_hdr -> k_memsz j = 0 /\ k_off j mod SECTSIZE = 0 /\ k_paddr j + SECTSIZE <= 2 ^ 32 /\ k_off j + SECTSIZE < 2 ^ 32 \/
    k_memsz j ≠ 0 /\ scratch + 4096 <= k_lo j /\ k_paddr j + k_memsz j + SECTSIZE <= 2 ^ 32 /\ k_off j + k_filesz j + SECTSIZE < 2 ^ 32;
  bt_order i j : (i < j)%nat -> Z.of_nat j < eh_phnum file_hdr -> k_memsz j ≠ 0 -> k_paddr i + k_memsz i <= k_lo j
}.

(** Segment [j] is in memory. *)
Definition in_memory (m : Z -> Z) (j : nat) : Prop := forall i, 0 <= i < k_memsz j ->
  m (k_paddr j + i) = if decide (i < k_filesz j) then fbyte f (k_off j + i) else 0.

Definition headers (m : Z -> Z) : Prop := forall i, 0 <= i < 4096 -> m (scratch + i) = fbyte f i.

Hypothesis Hf8 : forall b, Forall is_u8 (f b).

Lemma fbyte_u8 i : is_u8 (fbyte f i).
Proof using Hf8. unfold fbyte, rd. case_decide; [|done]. destruct (_ !! _) as [x|] eqn:E; [|done]. exact (Forall_lookup_1 _ _ _ _ (Hf8 _) E). Qed.

Lemma file_bytes_u8 a n : Forall is_u8 (file_bytes a n).
Proof using Hf8. unfold file_bytes. apply Forall_fmap, Forall_forall. intros i _. apply fbyte_u8. Qed.

Lemma file32_u32 a : is_u32 (file32 a).
Proof using Hf8. unfold file32. exact (le_word_range (file_bytes a 4) (file_bytes_u8 a 4)). Qed.

Lemma file_hdr_range : 0 <= eh_phoff file_hdr /\ 0 <= eh_phnum file_hdr.
Proof using Hf8.
  unfold file_hdr, read_elfhdr. cbn [eh_phoff eh_phnum]. assert (F := file_bytes_u8 0 sizeof_elfhdr). split.
  - apply (le_word_slice_u32 _ 28 F).
  - apply le_word_range. by apply Forall_take, Forall_drop.
Qed.

Lemma fetch_headers m a n : headers m -> 0 <= a -> a + n <= 4096 -> fetch m (scratch + a) n = file_bytes a n.
Proof.
  intros H Ha Hn. unfold fetch, file_bytes. apply list_fmap_ext. intros k i Hi. apply lookup_seqZ in Hi as [-> Hk].
  rewrite u32_id by (unfold scratch, is_u32; lia). rewrite <- Z.add_assoc. apply H. lia.
Qed.

Lemma hdr_fields m j : headers m -> bootable -> Z.of_nat j < eh_phnum file_hdr -> let ph := scratch + hdr_at j in
  p_off m ph = k_off j /\ p_paddr m ph = k_paddr j /\ p_filesz m ph = k_filesz j /\ p_memsz m ph = k_memsz j.
Proof using Hf8.
  intros H B Hj ph. assert (R := file_hdr_range). assert (X := bt_headers B). unfold sizeof_proghdr in X.
  assert (E : forall o, 0 <= o <= 28 -> mem32 m (ph + o) = file32 (hdr_at j + o)).
  { intros o Ho. unfold mem32, file32, ph. f_equal. rewrite <- Z.add_assoc. unfold hdr_at, sizeof_proghdr. apply fetch_headers; (done || lia). }
  unfold p_off, p_paddr, p_filesz, p_memsz. by rewrite !E by lia.
Qed.

Lemma wp_load_segment j s (Q : unit -> bstate -> Prop) : bootable -> Z.of_nat j < eh_phnum file_hdr -> idle (bdev s) -> sector (bdev s) = f -> headers (bmem s) ->
  (forall d m, idle d -> sector d = f -> headers m -> in_memory m j ->
     (forall x, is_u32 x -> (k_memsz j = 0 \/ x < k_lo j) -> m x = bmem s x) -> Q tt (BState m d)) -> wp (load_segment (scratch + hdr_at j)) Q s.
Proof using Hf8.
  intros B Hj Hi Hs Hh HQ. unfold load_segment. wp_step. wp_step. destruct (hdr_fields _ j Hh B Hj) as (E1 & E2 & E3 & _). rewrite E1, E2, E3.
  assert (Rp := file32_u32 (hdr_at j + 12)). assert (Ro := file32_u32 (hdr_at j + 4)). assert (Rf := file32_u32 (hdr_at j + 16)). assert (Rm := file32_u32 (hdr_at j + 20)).
  fold (k_paddr j) in Rp. fold (k_off j) in Ro. fold (k_filesz j) in Rf. fold (k_memsz j) in Rm. assert (Sz := bt_sizes B j Hj). assert (P := bt_place B j Hj).
  unfold k_lo, is_u32 in *. assert (M0 := Z.mod_pos_bound (k_off j) SECTSIZE ltac:(done)).
  wp_step. apply wp_readseg; [done|unfold seg_lo in *; destruct P as [(? & ? & ?)|(? & ? & ? & ?)]; unfold scratch in *; lia|lia|lia|lia|lia|].
  intros d m Id Sd Hm. rewrite Hs in Sd, Hm. wp_step. wp_step. cbn [bmem].
  assert (Hh1 : headers m).
  { intros i Hb. rewrite Hm by (unfold scratch, is_u32; lia). rewrite decide_False; [by apply Hh|]. unfold seg_hi, seg_lo, scratch, SECTSIZE in *.
    destruct P as [(P1 & P2 & P3)|(? & ? & ? & ?)]; [|lia]. assert (F0 : k_filesz j = 0) by lia. rewrite F0, P2. change ((0 + 0 + 511) / 512) with 0. lia. }
  destruct (hdr_fields m j Hh1 B Hj) as (_ & _ & F3 & F4). rewrite F3, F4.
  assert (Hin : forall i, 0 <= i < k_filesz j -> m (k_paddr j + i) = fbyte f (k_off j + i)).
  { intros i Hb. destruct P as [(? & ? & ?)|(P0 & P1 & P2 & P3)]; [lia|]. rewrite Hm by (unfold is_u32, seg_lo, SECTSIZE in *; lia). rewrite decide_True; [f_equal; lia|].
    unfold seg_hi, seg_lo, SECTSIZE in *. mlia. }
  assert (Hlo : forall x, is_u32 x -> k_memsz j = 0 \/ x < seg_lo (k_paddr j) (k_off j) -> m x = bmem s x).
  { intros x Hx Hl. rewrite Hm by done. rewrite decide_False; [done|]. destruct Hl as [Hl|Hl]; [|lia]. destruct P as [(P1 & P2 & P3)|(P0 & P1 & P2 & P3)].
    - unfold seg_hi, seg_lo, SECTSIZE in *. assert (F0 : k_filesz j = 0) by lia. rewrite F0, P2. change ((0 + 0 + 511) / 512) with 0. lia.
    - done. }
  destruct (Z.ltb_spec (k_filesz j) (k_memsz j)) as [Lt|Ge].
  - destruct P as [(P1 & _)|(P0 & P1 & P2 & P3)]; [lia|]. wp_step. set (z := replicate _ 0). assert (Lz : zlen z = k_memsz j - k_filesz j) by (unfold z; rewrite zlen_replicate; lia).
    assert (St : forall x, is_u32 x -> store (u32 (k_paddr j + k_filesz j)) z m x = if decide (k_paddr j + k_filesz j <= x < k_paddr j + k_memsz j) then 0 else m x).
    { intros x Hx. unfold seg_lo, SECTSIZE in *. rewrite u32_id by (unfold is_u32; lia). rewrite store_at by (done || lia). rewrite Lz. repeat case_decide; try lia; try done.
      unfold z, rd. case_decide; [|done]. destruct (_ !! _) eqn:E; [|done]. by apply lookup_replicate in E as [-> _]. }
    apply HQ; [done|done| | |].
    + intros i Hb. rewrite St by (unfold scratch, is_u32; lia). rewrite decide_False by (unfold seg_lo, scratch in *; lia). by apply Hh1.
    + intros i Hb. unfold seg_lo, SECTSIZE in *. rewrite St by (unfold is_u32; lia). repeat case_decide; try lia; try done. apply Hin. lia.
    + intros x Hx Hl. rewrite St by done. rewrite decide_False by (unfold seg_lo in *; lia). by apply Hlo.
  - wp_step. apply HQ; [done|done|done| |done]. intros i Hb. rewrite decide_True by lia. apply Hin. lia.
Qed.

Lemma wp_load_all n : forall j s (Q : unit -> bstate -> Prop), bootable -> Z.of_nat (j + n) = eh_phnum file_hdr -> idle (bdev s) -> sector (bdev s) = f -> headers (bmem s) ->
  (forall i, (i < j)%nat -> in_memory (bmem s) i) ->
  (forall d m, headers m -> (forall i, Z.of_nat i < eh_phnum file_hdr -> in_memory m i) -> Q tt (BState m d)) ->
  wp (load_all n (scratch + hdr_at j) (scratch + hdr_at (j + n))) Q s.
Proof using Hf8.
  induction n as [|n IH]; intros j s Q B Hj Hi Hs Hh Hm HQ; cbn [load_all].
  - rewrite Nat.add_0_r in *. rewrite Z.ltb_irrefl. wp_step. destruct s as [m d]. apply HQ; [done|]. intros i Hb. apply Hm. lia.
  - assert (R := file_hdr_range). assert (X := bt_headers B). unfold sizeof_proghdr in X.
    rewrite (proj2 (Z.ltb_lt _ _)) by (unfold hdr_at, sizeof_proghdr; lia). wp_step. apply (wp_load_segment j); [done|lia|done|done|done|].
    intros d m Id Sd Hh' Hin Hfr. rewrite u32_id by (unfold is_u32, hdr_at, scratch, sizeof_proghdr; lia).
    replace (scratch + hdr_at j + sizeof_proghdr) with (scratch + hdr_at (S j)) by (unfold hdr_at; lia). replace (j + S n)%nat with (S j + n)%nat by lia.
    apply IH; [done|lia|done|done|done| |done]. intros i Hb. destruct (decide (i = j)) as [->|N]; [done|]. intros o Ho. cbn [bmem].
    assert (B1 := bt_place B i ltac:(lia)). rewrite Hfr; [apply Hm; (done || lia)|destruct B1 as [(? & _)|(? & ? & ? & ?)]; unfold is_u32, k_lo, seg_lo, SECTSIZE, scratch in *; [lia|]|].
    + assert (M0 := Z.mod_pos_bound (k_off i) 512 ltac:(done)). lia.
    + destruct (decide (k_memsz j = 0)) as [E|E]; [by left|right]. assert (O := bt_order B i j ltac:(lia) ltac:(lia) E). lia.
Qed.
End kernel.

(** C23: the boot loader loads the kernel.  For an ELF file at sector 1 whose
    headers are in its first page and whose segments lie in increasing order
    above the scratch page, each behind the end of the one before also after the
    rounding to sectors: [bootmain] ends and gives the entry point of the file,
    the bytes of every segment are in memory at its physical address, and the
    memory of a segment beyond its bytes in the file is zero. *)
Theorem bootmain_loads s : idle (bdev s) -> bootable (sector (bdev s)) ->
  wp bootmain (fun r s' => let f := sector (bdev s) in r = Some (eh_entry (file_hdr f)) /\
    forall j, Z.of_nat j < eh_phnum (file_hdr f) -> in_memory f (bmem s') j) s.
Proof.
  intros Hi B. set (f := sector (bdev s)) in *. assert (F8 : forall b, Forall is_u8 (f b)) by (intros b; apply sector_u8).
  unfold bootmain. wp_step. apply wp_readseg; try (done || (unfold seg_lo, scratch, SECTSIZE; simpl; lia)).
  intros d m Id Sd Hm. wp_step. wp_step. cbn [bmem].
  assert (Hh : headers f m).
  { intros i Hb. rewrite Hm by (unfold scratch, is_u32; lia). change (seg_hi scratch 4096 0) with (scratch + 4096). change (seg_lo scratch 0) with scratch.
    rewrite decide_True by lia. f_equal. lia. }
  assert (R := file_hdr_range f F8). assert (X := bt_headers f B). unfold sizeof_proghdr in X.
  assert (Eh : forall m', headers f m' -> read_elfhdr (fetch m' scratch sizeof_elfhdr) = file_hdr f).
  { intros m' H'. unfold file_hdr. f_equal. change scratch with (scratch + 0). by apply fetch_headers. }
  rewrite Eh by done. rewrite (bt_magic f B). rewrite Z.eqb_refl. simpl negb. cbv iota.
  wp_step. rewrite !u32_id by (unfold is_u32, scratch, sizeof_proghdr; rewrite ?u32_id; unfold is_u32; lia).
  replace (scratch + eh_phoff (file_hdr f)) with (scratch + hdr_at f 0) by (unfold hdr_at; lia).
  replace (scratch + hdr_at f 0 + eh_phnum (file_hdr f) * sizeof_proghdr) with (scratch + hdr_at f (0 + Z.to_nat (eh_phnum (file_hdr f)))) by (unfold hdr_at, sizeof_proghdr; lia).
  apply (wp_load_all f F8); [done|lia|done|done|done|intros i Hb; lia|]. intros d' m' Hh' Hin. wp_step. wp_step. wp_step. cbn [bmem]. rewrite Eh by done. done.
Qed.
End boot.

(** ** A controller and a kernel *)

(** A controller that is busy for one read of the status after a command. *)
Record pio_sim := PioSim { ps_regs : Z -> Z; ps_disk : Z -> list Z; ps_wait : nat }.

Definition whole_sector (l : list Z) : list Z := u8 <$> take 512 (l ++ replicate 512 0).

#[local] Instance pio_ports : AtaPorts pio_sim := {|
  outb p v := modify (fun d => PioSim (fun q => if decide (q = p) then v else ps_regs d q) (ps_disk d) (if decide (p = 0x1F7) then 1%nat else ps_wait d));
  inb p := fun d => match ps_wait d with O => Ret 0x40 d | S n => Ret 0x80 (PioSim (ps_regs d) (ps_disk d) n) end;
  outsl _ _ := mret tt;
  insl _ _ := gets (fun d => let r := ps_regs d in whole_sector (ps_disk d (r 0x1F3 + 256 * r 0x1F4 + 65536 * r 0x1F5 + 2 ^ 24 * Z.land (r 0x1F6) 15)))
|}.

#[local, program] Instance pio_laws : PioDisk (AP := pio_ports) 1%nat := {|
  preg := ps_regs;
  sector d b := whole_sector (ps_disk d b);
  idle d := (ps_wait d <= 1)%nat
|}.
Next Obligation. intros d b. unfold whole_sector. unfold zlen. rewrite length_fmap, length_take, length_app, length_replicate. unfold SECTSIZE. lia. Qed.
Next Obligation. intros d b. unfold whole_sector. apply Forall_fmap, Forall_forall. intros x _. apply u8_range. Qed.
Next Obligation.
  intros d Hd. simpl in *. exists (ps_wait d), (PioSim (ps_regs d) (ps_disk d) 0). split; [done|]. split; [|simpl; split; [lia|done]].
  destruct d as [r k [|[|n]]]; simpl in *; [by eexists|do 2 eexists; split; [done|]; split; [done|by eexists]|lia].
Qed.
Next Obligation. intros d p v Hd Hp Hv. simpl in *. eexists. split; [done|]. simpl. rewrite decide_False by lia. done. Qed.
Next Obligation.
  intros d Hd H1 H6. simpl in *. eexists _, 1%nat, _, _. split; [done|]. split; [lia|]. split; [do 2 eexists; split; [done|]; split; [done|by eexists]|].
  split; [done|]. simpl. split; [lia|done].
Qed.

(** An ELF file with one segment of 3 bytes at 512, loaded at 1 MB with 8 bytes
    of memory. *)
Definition tiny_kernel : list Z :=
  [0x7F; 0x45; 0x4C; 0x46] ++ replicate 20 0 ++ le_bytes 4 0x100004 ++ le_bytes 4 52 ++ replicate 12 0 ++ le_bytes 2 1 ++ replicate 6 0 ++
  le_bytes 4 1 ++ le_bytes 4 512 ++ le_bytes 4 0x80100000 ++ le_bytes 4 0x100000 ++ le_bytes 4 3 ++ le_bytes 4 8.

Definition tiny_disk : pio_sim := PioSim (fun _ => 0) (fun b => if decide (b = 1) then tiny_kernel else if decide (b = 2) then [7; 8; 9] else []) 0.

Lemma tiny_bootable : bootable (sector 1 tiny_disk).
Proof.
  assert (N : eh_phnum (file_hdr (sector 1 tiny_disk)) = 1) by (vm_compute; reflexivity).
  split.
  - by vm_compute.
  - by vm_compute.
  - intros j Hj. rewrite N in Hj. assert (j = 0%nat) as -> by lia. by vm_compute.
  - intros j Hj. rewrite N in Hj. assert (j = 0%nat) as -> by lia. right. by vm_compute.
  - intros i j Hij Hj. rewrite N in Hj. lia.
Qed.

Lemma bootmain_loads_witness : let s := BState (fun _ => 0xFF) tiny_disk in
  wp (bootmain 1) (fun r s' => let f := sector 1 (bdev s) in r = Some (eh_entry (file_hdr f)) /\
    forall j, Z.of_nat j < eh_phnum (file_hdr f) -> in_memory f (bmem s') j) s.
Proof.
  intros s. assert (I : idle 1 (bdev s)) by (cbn; lia). exact (bootmain_loads 1 s I tiny_bootable).
Defined.
