(* ===== verification/Mp.v ===== *)
(** * The multiprocessor tables of the firmware (mp.c)

    [mpinit] finds the configuration table that the firmware left in memory and
    takes from it the processors, the interrupt controller and the address of
    the local controllers.  Memory does not change. *)

From S2P Require Import Prelude Param Cstring PhysMem.

Definition MPPROC : Z := 0.
Definition MPBUS : Z := 1.
Definition MPIOAPIC : Z := 2.
Definition MPIOINTR : Z := 3.
Definition MPLINTR : Z := 4.

Definition sizeof_mp : Z := 16.
Definition sizeof_mpconf : Z := 44.
Definition sizeof_mpproc : Z := 20.
Definition sizeof_mpioapic : Z := 8.

(** [cpus[].apicid], [ncpu], [ioapicid], [lapic], and the ports written. *)
Record mpstate := MpState { apicids : list Z; ncpu : Z; ioapicid : Z; lapic : Z; ports : list (Z * Z) }.

Definition set_apicids v s := MpState v (ncpu s) (ioapicid s) (lapic s) (ports s).
Definition set_ncpu v s := MpState (apicids s) v (ioapicid s) (lapic s) (ports s).
Definition set_ioapicid v s := MpState (apicids s) (ncpu s) v (lapic s) (ports s).
Definition set_lapic v s := MpState (apicids s) (ncpu s) (ioapicid s) v (ports s).
Definition port_out (p v : Z) : M mpstate unit := modify (fun s => MpState (apicids s) (ncpu s) (ioapicid s) (lapic s) (ports s ++ [(p, v)])).

Section mp.
(** Memory, by physical addresses, and what the port 0x23 reads as. *)
Context (m : Z -> Z) (in23 : Z).

Definition sum (addr len : Z) : Z := u8 (foldl Z.add 0 (fetch m addr len)).

Definition signed (p : Z) (sig : list Z) : bool := memcmp (fetch m p 4) sig 4 =? 0.

(** "_MP_" and "PCMP" *)
Definition mp_sig : list Z := [95; 77; 80; 95].
Definition pcmp_sig : list Z := [80; 67; 77; 80].

Fixpoint mpsearch_loop (n : nat) (p : Z) : option Z :=
  match n with
  | O => None
  | S n' => if signed p mp_sig && (sum p sizeof_mp =? 0) then Some p else mpsearch_loop n' (p + sizeof_mp)
  end.
Definition mpsearch1 (a len : Z) : option Z := mpsearch_loop (Z.to_nat ((len + 15) / sizeof_mp)) a.

Definition bda (i : Z) : Z := m (0x400 + i).

Definition mpsearch : option Z :=
  let p := Z.shiftl (Z.lor (Z.shiftl (bda 0x0F) 8) (bda 0x0E)) 4 in
  let r := if negb (p =? 0) then mpsearch1 p 1024
           else mpsearch1 (u32 (Z.lor (Z.shiftl (bda 0x14) 8) (bda 0x13) * 1024 - 1024)) 1024 in
  match r with
  | Some mp => Some mp
  | None => mpsearch1 0xF0000 0x10000
  end.

Definition conf_length (conf : Z) : Z := le_word (fetch m (conf + 4) 2).

(** The configuration table, and the structure that points to it. *)
Definition mpconfig : option (Z * Z) :=
  match mpsearch with
  | None => None
  | Some mp =>
      let conf := mem32 m (mp + 4) in
      let version := m (u32 (conf + 6)) in
      if conf =? 0 then None
      else if negb (signed conf pcmp_sig) then None
      else if negb (version =? 1) && negb (version =? 4) then None
      else if negb (sum conf (conf_length conf) =? 0) then None
      else Some (conf, mp)
  end.

(** The loop over the entries.  The [break] of the last case leaves the switch,
    not the loop. *)
Fixpoint mp_loop (fuel : nat) (p e : Z) (ismp : bool) : M mpstate bool :=
  if p <? e then
    match fuel with
    | O => out_of_fuel
    | S fuel' =>
        let type := m (u32 p) in
        if type =? MPPROC then
          s ← get;
          (if ncpu s <? NCPU then
             modify (fun s => set_ncpu (ncpu s + 1) (set_apicids (wr (apicids s) (ncpu s) (m (u32 (p + 1)))) s))
           else mret tt);;
          mp_loop fuel' (p + sizeof_mpproc) e ismp
        else if type =? MPIOAPIC then
          modify (set_ioapicid (m (u32 (p + 1))));;
          mp_loop fuel' (p + sizeof_mpioapic) e ismp
        else if (type =? MPBUS) || (type =? MPIOINTR) || (type =? MPLINTR) then mp_loop fuel' (p + 8) e ismp
        else mp_loop fuel' p e false
    end
  else mret ismp.

Definition mpinit : M mpstate unit :=
  match mpconfig with
  | None => panic "Expect to run on an SMP"
  | Some (conf, mp) =>
      modify (set_lapic (mem32 m (conf + 36)));;
      ismp ← mp_loop (Z.to_nat (conf_length conf)) (conf + sizeof_mpconf) (conf + conf_length conf) true;
      if negb ismp then panic "Didn't find a suitable machine"
      else if negb (m (u32 (mp + 12)) =? 0) then port_out 0x22 0x70;; port_out 0x23 (Z.lor in23 1)
      else mret tt
  end.

(** ** Tables *)

Inductive mpentry :=
| EProc (apicid : Z) (rest : list Z)
| EIoapic (apicno : Z) (rest : list Z)
| EOther (type : Z) (rest : list Z).

Definition entry_bytes (e : mpentry) : list Z :=
  match e with
  | EProc id rest => MPPROC :: id :: rest
  | EIoapic id rest => MPIOAPIC :: id :: rest
  | EOther t rest => t :: rest
  end.

Definition entry_ok (e : mpentry) : Prop :=
  match e with
  | EProc _ rest => zlen rest = 18
  | EIoapic _ rest => zlen rest = 6
  | EOther t rest => (t = MPBUS \/ t = MPIOINTR \/ t = MPLINTR) /\ zlen rest = 7
  end.

Definition proc_ids (es : list mpentry) : list Z := omap (fun e => match e with EProc id _ => Some id | _ => None end) es.
Definition ioapic_ids (es : list mpentry) : list Z := omap (fun e => match e with EIoapic id _ => Some id | _ => None end) es.

(** What the entries [es] leave of the state [s]: the numbers of the first
    processors, as many as there is room for, and the last controller. *)
Definition after_entries (es : list mpentry) (s s' : mpstate) : Prop :=
  ncpu s' = Z.min NCPU (ncpu s + zlen (proc_ids es)) /\ zlen (apicids s') = NCPU /\
  (forall k, rd 0 (apicids s') k = if decide (ncpu s <= k < ncpu s') then rd 0 (proc_ids es) (k - ncpu s) else rd 0 (apicids s) k) /\
  ioapicid s' = default (ioapicid s) (last (ioapic_ids es)) /\ lapic s' = lapic s /\ ports s' = ports s.

Lemma entry_at p n e bs : 0 <= p -> p + n < 2 ^ 32 -> fetch m p n = entry_bytes e ++ bs -> zlen (entry_bytes e) <= n ->
  m (u32 p) = hd 0 (entry_bytes e) /\ (2 <= zlen (entry_bytes e) -> m (u32 (p + 1)) = rd 0 (entry_bytes e) 1) /\
  fetch m (p + zlen (entry_bytes e)) (n - zlen (entry_bytes e)) = bs.
Proof.
  intros Hp Hn E Hl. set (l := zlen (entry_bytes e)) in *. assert (L0 : 1 <= l) by (unfold l; destruct e; simpl; unfold zlen; simpl; lia).
  assert (R : forall i, 0 <= i < l -> m (u32 (p + i)) = rd 0 (entry_bytes e) i).
  { intros i Hi. rewrite <- (rd_fetch m p n i) by lia. rewrite E, rd_app by lia. by rewrite decide_True by (fold l; lia). }
  split; [|split].
  - specialize (R 0 ltac:(lia)). rewrite Z.add_0_r in R. rewrite R. by destruct e.
  - intros H2. apply R. lia.
  - replace n with (l + (n - l)) in E by lia. rewrite fetch_app in E by lia. apply app_inj_1 in E as [_ E]; [done|].
    apply Nat2Z.inj. exact (zlen_fetch m p l ltac:(lia)).
Qed.

(** The search returns the first structure with its signature and sum. *)
Lemma mpsearch1_first a len : let good p := signed p mp_sig = true /\ sum p sizeof_mp = 0 in
  match mpsearch1 a len with
  | Some p => good p /\ exists k, p = a + 16 * Z.of_nat k /\ (k < Z.to_nat ((len + 15) / 16))%nat /\ forall j, (j < k)%nat -> ~ good (a + 16 * Z.of_nat j)
  | None => forall j, (j < Z.to_nat ((len + 15) / 16))%nat -> ~ good (a + 16 * Z.of_nat j)
  end.
Proof.
  cbv zeta. unfold mpsearch1, sizeof_mp. generalize (Z.to_nat ((len + 15) / 16)). intros n. revert a. induction n as [|n IH]; intros a; cbn [mpsearch_loop]; [intros j Hj; lia|].
  destruct (signed a mp_sig && (sum a sizeof_mp =? 0)) eqn:E.
  - apply andb_true_iff in E as [E1 E2]. apply Z.eqb_eq in E2. split; [done|]. exists 0%nat. split; [lia|]. split; [lia|]. intros j Hj. lia.
  - assert (N : ~ (signed a mp_sig = true /\ sum a 16 = 0)) by (intros [E1 E2]; unfold sizeof_mp in E; by rewrite E1, E2 in E).
    specialize (IH (a + 16)). unfold sizeof_mp. destruct (mpsearch_loop n (a + 16)) as [p|].
    + destruct IH as (G & k & -> & Hk & F). split; [done|]. exists (S k). split; [lia|]. split; [lia|]. intros [|j] Hj; [by replace (a + 16 * Z.of_nat 0) with a by lia|].
      replace (a + 16 * Z.of_nat (S j)) with (a + 16 + 16 * Z.of_nat j) by lia. apply F. lia.
    + intros [|j] Hj; [by replace (a + 16 * Z.of_nat 0) with a by lia|]. replace (a + 16 * Z.of_nat (S j)) with (a + 16 + 16 * Z.of_nat j) by lia. apply IH. lia.
Qed.

(** A processor entry, with room for it and without. *)
Lemma after_proc id rest es s s' : 0 <= ncpu s <= NCPU -> zlen (apicids s) = NCPU ->
  let s1 := if ncpu s <? NCPU then set_ncpu (ncpu s + 1) (set_apicids (wr (apicids s) (ncpu s) id) s) else s in
  after_entries es s1 s' -> after_entries (EProc id rest :: es) s s'.
Proof.
  intros Hn Ha. change (proc_ids (EProc id rest :: es)) with (id :: proc_ids es). intros s1 (A1 & A2 & A3 & A4 & A5 & A6). unfold after_entries.
  change (proc_ids (EProc id rest :: es)) with (id :: proc_ids es). change (ioapic_ids (EProc id rest :: es)) with (ioapic_ids es).
  assert (Lc : zlen (id :: proc_ids es) = zlen (proc_ids es) + 1) by (unfold zlen; simpl; lia). rewrite Lc. assert (L0 := zlen_nonneg (proc_ids es)).
  unfold s1 in *. destruct (Z.ltb_spec (ncpu s) NCPU) as [L|L]; cbn [ncpu apicids ioapicid lapic ports set_ncpu set_apicids] in *.
  - split; [lia|]. split; [done|]. split; [|done]. intros k. rewrite A3. destruct (decide (k = ncpu s)) as [->|N].
    + rewrite decide_False, decide_True by lia. rewrite rd_wr_eq by lia. by rewrite Z.sub_diag.
    + rewrite rd_wr_ne by lia. case_decide; case_decide; try lia; try done. rewrite rd_cons, decide_False by lia. f_equal. lia.
  - split; [lia|]. split; [done|]. split; [|done]. intros k. rewrite A3. by rewrite !decide_False by lia.
Qed.

Lemma wp_mp_loop es : Forall entry_ok es -> forall fuel p e s (Q : bool -> mpstate -> Prop), 0 <= p -> e < 2 ^ 32 -> (length es <= fuel)%nat ->
  fetch m p (e - p) = mjoin (entry_bytes <$> es) -> p <= e -> 0 <= ncpu s <= NCPU -> zlen (apicids s) = NCPU ->
  (forall s', after_entries es s s' -> Q true s') -> wp (mp_loop fuel p e true) Q s.
Proof.
  induction 1 as [|x es Hx Hes IH]; intros fuel p e s Q Hp He Hf E Hpe Hn Ha HQ.
  - assert (e = p) as -> by (assert (X := zlen_fetch m p (e - p) ltac:(lia)); rewrite E in X; unfold zlen in X; simpl in X; lia).
    assert (Em : mp_loop fuel p p true = mret true) by (destruct fuel; cbn [mp_loop]; by rewrite Z.ltb_irrefl). rewrite Em. wp_step. apply HQ.
    split; [change (zlen (proc_ids [])) with 0; lia|]. split; [done|]. split; [intros k; by rewrite decide_False by lia|done].
  - rewrite fmap_cons in E. change (mjoin _) with (entry_bytes x ++ mjoin (entry_bytes <$> es)) in E.
    assert (Hl : zlen (entry_bytes x) <= e - p).
    { assert (X := zlen_fetch m p (e - p) ltac:(lia)). rewrite E, zlen_app in X. assert (Y := zlen_nonneg (mjoin (entry_bytes <$> es))). lia. }
    destruct (entry_at p (e - p) x _ Hp ltac:(lia) E Hl) as (E0 & E1 & E2).
    replace (e - p - zlen (entry_bytes x)) with (e - (p + zlen (entry_bytes x))) in E2 by lia.
    destruct fuel as [|fuel]; [simpl in Hf; lia|]. assert (Hf' : (length es <= fuel)%nat) by (simpl in Hf; lia).
    cbn [mp_loop]. rewrite (proj2 (Z.ltb_lt p e)) by (destruct x; unfold zlen in Hl; simpl in Hl; lia). rewrite E0. destruct x as [id rest|id rest|t rest]; cbn [entry_bytes entry_ok hd] in *.
    + assert (Lx : zlen (MPPROC :: id :: rest) = 20) by (unfold zlen in *; simpl in *; lia). rewrite Lx in *. change (MPPROC =? MPPROC) with true. cbv iota.
      rewrite E1 by lia. change (rd 0 (MPPROC :: id :: rest) 1) with id. wp_step. wp_step. wp_step.
      apply (wp_mono _ (fun _ s1 => s1 = if ncpu s <? NCPU then set_ncpu (ncpu s + 1) (set_apicids (wr (apicids s) (ncpu s) id) s) else s)).
      * destruct (ncpu s <? NCPU); by wp_step.
      * intros [] s1 Es1. apply IH; [unfold sizeof_mpproc; lia|done|done|exact E2|unfold sizeof_mpproc; lia| | |].
        -- subst s1. destruct (Z.ltb_spec (ncpu s) NCPU); simpl; lia.
        -- subst s1. destruct (Z.ltb_spec (ncpu s) NCPU); simpl; [by rewrite zlen_wr|done].
        -- intros s' A. apply HQ. subst s1. by apply after_proc.
    + assert (Lx : zlen (MPIOAPIC :: id :: rest) = 8) by (unfold zlen in *; simpl in *; lia). rewrite Lx in *. change (MPIOAPIC =? MPPROC) with false. change (MPIOAPIC =? MPIOAPIC) with true. cbv iota.
      rewrite E1 by lia. change (rd 0 (MPIOAPIC :: id :: rest) 1) with id. wp_step. wp_step. apply IH; try done; try (unfold sizeof_mpioapic; lia).
      intros s' (A1 & A2 & A3 & A4 & A5 & A6). apply HQ. split; [exact A1|]. split; [done|]. split; [exact A3|]. split; [|done].
      rewrite A4. change (ioapic_ids (EIoapic id rest :: es)) with (id :: ioapic_ids es). rewrite last_cons. by destruct (last (ioapic_ids es)).
    + destruct Hx as [Ht Hr]. assert (Lx : zlen (t :: rest) = 8) by (unfold zlen in *; simpl in *; lia). rewrite Lx in *.
      assert (Et : (t =? MPPROC) = false /\ (t =? MPIOAPIC) = false /\ (t =? MPBUS) || (t =? MPIOINTR) || (t =? MPLINTR) = true) by (by destruct Ht as [-> |[-> | ->]]).
      destruct Et as (T1 & T2 & T3). rewrite T1, T2, T3. apply IH; try done; lia.
Qed.

(** The tables of the firmware.  When the configuration table that
    [mpconfig] finds consists of entries of the known kinds: [mpinit] takes the
    processors in the order of the table, as many as there is room for, the last
    interrupt controller, and the address of the local controllers; it changes
    nothing else, and writes the two ports exactly when the machine asks for it. *)
Theorem mpinit_correct es conf mp s : mpconfig = Some (conf, mp) -> 0 <= conf -> conf + conf_length conf < 2 ^ 32 -> sizeof_mpconf <= conf_length conf ->
  fetch m (conf + sizeof_mpconf) (conf_length conf - sizeof_mpconf) = mjoin (entry_bytes <$> es) -> Forall entry_ok es ->
  ncpu s = 0 -> zlen (apicids s) = NCPU ->
  wp mpinit (fun _ s' => ncpu s' = Z.min NCPU (zlen (proc_ids es)) /\ zlen (apicids s') = NCPU /\
    (forall k, 0 <= k < ncpu s' -> rd 0 (apicids s') k = rd 0 (proc_ids es) k) /\
    ioapicid s' = default (ioapicid s) (last (ioapic_ids es)) /\ lapic s' = mem32 m (conf + 36) /\
    ports s' = ports s ++ (if m (u32 (mp + 12)) =? 0 then [] else [(0x22, 0x70); (0x23, Z.lor in23 1)])) s.
Proof.
  intros Ec Hc He Hl Hf Hes Hn Ha. unfold mpinit. rewrite Ec. wp_step. wp_step.
  assert (Le : (length es <= Z.to_nat (conf_length conf))%nat).
  { apply (f_equal zlen) in Hf. rewrite zlen_fetch in Hf by lia. assert (zlen es <= zlen (mjoin (entry_bytes <$> es))); [|unfold zlen, sizeof_mpconf in *; lia].
    clear. induction es as [|x es IH]; [done|]. rewrite fmap_cons. change (mjoin _) with (entry_bytes x ++ mjoin (entry_bytes <$> es)). rewrite zlen_app.
    unfold zlen in *. destruct x; simpl in *; lia. }
  wp_step. apply (wp_mp_loop es Hes); try (done || lia || (unfold sizeof_mpconf in *; lia)).
  - by replace (conf + conf_length conf - (conf + sizeof_mpconf)) with (conf_length conf - sizeof_mpconf) by lia.
  - simpl. rewrite Hn. done.
  - intros s' (A1 & A2 & A3 & A4 & A5 & A6). cbn [ncpu apicids ioapicid lapic ports set_lapic] in *. rewrite Hn, Z.add_0_l in *.
    assert (K : forall k, 0 <= k < ncpu s' -> rd 0 (apicids s') k = rd 0 (proc_ids es) k) by (intros k Hk; rewrite A3, decide_True by lia; f_equal; lia).
    simpl negb. cbv iota. destruct (m (u32 (mp + 12)) =? 0); simpl negb; cbv iota.
    + wp_step. rewrite app_nil_r. done.
    + unfold port_out. wp_step. wp_step. wp_step. cbn [ncpu apicids ioapicid lapic ports]. rewrite A6, <- app_assoc. done.
Qed.

(** An entry of another kind is never passed: the loop does not end, and the
    panic behind it is not reached. *)
Theorem mp_unknown_loops p e b fuel s : p < e -> 4 < m (u32 p) -> mp_loop fuel p e b s = OutOfFuel.
Proof.
  intros Hp Ht. revert b. induction fuel as [|fuel IH]; intros b; cbn [mp_loop]; rewrite (proj2 (Z.ltb_lt p e) Hp); [done|].
  assert (T : forall t, 0 <= t <= 4 -> (m (u32 p) =? t) = false) by (intros t H; apply Z.eqb_neq; lia).
  unfold MPPROC, MPIOAPIC, MPBUS, MPIOINTR, MPLINTR. rewrite !T by lia. apply IH.
Qed.
End mp.

(** ** A machine with two processors *)

Definition demo_entries : list mpentry := [EProc 0 (replicate 18 0); EProc 5 (replicate 18 0); EIoapic 2 (replicate 6 0); EOther MPBUS (replicate 7 0)].

(** A byte that makes the sum of the table zero, at index [i]. *)
Definition with_sum (i : Z) (l : list Z) : list Z := wr l i (u8 (- foldl Z.add 0 l)).

Definition demo_mp : list Z := with_sum 10 (mp_sig ++ le_bytes 4 0xF0100 ++ [1; 4; 0; 0; 0x80; 0; 0; 0]).
Definition demo_conf : list Z := with_sum 7 ((pcmp_sig ++ le_bytes 2 100 ++ [4; 0] ++ replicate 28 0 ++ le_bytes 4 0xFEE00000 ++ replicate 4 0) ++ mjoin (entry_bytes <$> demo_entries)).

Definition demo_mem (a : Z) : Z :=
  if decide (0xF0000 <= a < 0xF0010) then rd 0 demo_mp (a - 0xF0000)
  else if decide (0xF0100 <= a < 0xF0164) then rd 0 demo_conf (a - 0xF0100) else 0.

Lemma mpinit_correct_witness : wp (mpinit demo_mem 0) (fun _ s' => ncpu s' = 2 /\ rd 0 (apicids s') 1 = 5) (MpState (replicate 8 0) 0 0 0 []).
Proof.
  eapply wp_mono; [apply (mpinit_correct demo_mem 0 demo_entries 0xF0100 0xF0000); try (vm_compute; done)|].
  - repeat (constructor; [by vm_compute; auto|]). constructor.
  - intros [] s' (H1 & _ & H3 & _). assert (E : ncpu s' = 2) by (by rewrite H1). split; [done|]. rewrite H3 by lia. done.
Defined.
