(* ===== verification/Segments.v ===== *)
(** * Segments and gates (mmu.h, seginit and switchuvm of vm.c, tvinit of trap.c)

    The descriptor tables that the kernel gives to the processor, as the words
    the processor reads.  The fields of a descriptor are bit fields; [unpack] is
    the processor's side. *)

From stdpp Require Import functions.
From S2P Require Import Prelude Param Mmu Spinlock BlockStore Fs FileOps Kalloc Vm Proc Trap.

(** ** Bit fields *)

(** The word with the fields [l], each with its width, from the lowest bit on. *)
Fixpoint pack (l : list (Z * Z)) : Z :=
  match l with
  | [] => 0
  | (w, v) :: l' => v mod 2 ^ w + 2 ^ w * pack l'
  end.

Fixpoint unpack (ws : list Z) (x : Z) : list Z :=
  match ws with
  | [] => []
  | w :: ws' => x mod 2 ^ w :: unpack ws' (x / 2 ^ w)
  end.

Lemma unpack_pack l : Forall (fun f => 0 <= f.1) l -> unpack l.*1 (pack l) = (fun f => f.2 mod 2 ^ f.1) <$> l.
Proof.
  induction 1 as [|[w v] l Hw Hl IH]; [done|]. rewrite !fmap_cons. cbn [pack unpack fst snd] in *. assert (P : 0 < 2 ^ w) by lia. assert (B := Z.mod_pos_bound v (2 ^ w) P).
  rewrite (Z.mul_comm (2 ^ w)). rewrite Z.mod_add, Z.div_add by lia. rewrite Z.mod_mod, Z.div_small by lia. by rewrite Z.add_0_l, IH.
Qed.

(** ** Descriptors *)

Definition SEG_KCODE : Z := 1.
Definition SEG_KDATA : Z := 2.
Definition SEG_TSS : Z := 5.
Definition NSEGS : Z := 6.
Definition STA_X : Z := 8.
Definition STA_W : Z := 2.
Definition STA_R : Z := 2.
Definition STS_T32A : Z := 9.
Definition STS_IG32 : Z := 14.
Definition STS_TG32 : Z := 15.

Record segdesc := Segdesc {
  lim_15_0 : Z; base_15_0 : Z; base_23_16 : Z; sd_type : Z; sd_s : Z; sd_dpl : Z; sd_p : Z;
  lim_19_16 : Z; avl : Z; rsv1 : Z; db : Z; sd_g : Z; base_31_24 : Z
}.

Definition seg_widths : list Z := [16; 16; 8; 4; 1; 2; 1; 4; 1; 1; 1; 1; 8].

Definition seg_word (d : segdesc) : Z :=
  pack (zip seg_widths [lim_15_0 d; base_15_0 d; base_23_16 d; sd_type d; sd_s d; sd_dpl d; sd_p d; lim_19_16 d; avl d; rsv1 d; db d; sd_g d; base_31_24 d]).

Definition SEG (type base lim dpl : Z) : segdesc :=
  Segdesc (Z.land (Z.shiftr lim 12) 0xffff) (Z.land base 0xffff) (Z.land (Z.shiftr base 16) 0xff) type 1 dpl 1
          (Z.shiftr lim 28) 0 0 1 1 (Z.shiftr base 24).
Definition SEG16 (type base lim dpl : Z) : segdesc :=
  Segdesc (Z.land lim 0xffff) (Z.land base 0xffff) (Z.land (Z.shiftr base 16) 0xff) type 1 dpl 1
          (Z.shiftr lim 16) 0 0 1 0 (Z.shiftr base 24).

Record gatedesc := Gatedesc {
  off_15_0 : Z; gd_cs : Z; gd_args : Z; gd_rsv1 : Z; gd_type : Z; gd_s : Z; gd_dpl : Z; gd_p : Z; off_31_16 : Z
}.
Definition gate_widths : list Z := [16; 16; 5; 3; 4; 1; 2; 1; 16].
Definition gate_word (g : gatedesc) : Z :=
  pack (zip gate_widths [off_15_0 g; gd_cs g; gd_args g; gd_rsv1 g; gd_type g; gd_s g; gd_dpl g; gd_p g; off_31_16 g]).

Definition SETGATE (istrap : bool) (sel off d : Z) : gatedesc :=
  Gatedesc (Z.land off 0xffff) sel 0 0 (if istrap then STS_TG32 else STS_IG32) 0 d 1 (Z.shiftr off 16).

(** ** The tables of the kernel *)

(** [for(i = 0; i < 256; i++)] of [tvinit], from [i] on *)
Fixpoint tv_loop (vectors : Z -> Z) (n : nat) (i : Z) (idt : list gatedesc) : list gatedesc :=
  match n with
  | O => idt
  | S n' => tv_loop vectors n' (i + 1) (wr idt i (SETGATE false (Z.shiftl SEG_KCODE 3) (vectors i) 0))
  end.

Definition tvinit (vectors : Z -> Z) (idt : list gatedesc) : list gatedesc :=
  wr (tv_loop vectors 256 0 idt) T_SYSCALL (SETGATE true (Z.shiftl SEG_KCODE 3) (vectors T_SYSCALL) DPL_USER).

(** The part of [struct cpu] that the processor reads: [gdt], and [ss0], [esp0]
    and [iomb] of [ts]; and the registers %cr3 and tr. *)
Record cpux := Cpux { gdt : list segdesc; ts_ss0 : Z; ts_esp0 : Z; ts_iomb : Z; cr3 : Z; tr : Z }.

Definition set_gdt v x := Cpux v (ts_ss0 x) (ts_esp0 x) (ts_iomb x) (cr3 x) (tr x).
Definition set_ts ss0 esp0 iomb x := Cpux (gdt x) ss0 esp0 iomb (cr3 x) (tr x).
Definition set_cr3 v x := Cpux (gdt x) (ts_ss0 x) (ts_esp0 x) (ts_iomb x) v (tr x).
Definition set_tr v x := Cpux (gdt x) (ts_ss0 x) (ts_esp0 x) (ts_iomb x) (cr3 x) v.

Definition seginit (x : cpux) : cpux :=
  let code dpl := SEG (Z.lor STA_X STA_R) 0 0xffffffff dpl in
  let data dpl := SEG STA_W 0 0xffffffff dpl in
  set_gdt (wr (wr (wr (wr (gdt x) SEG_KCODE (code 0)) SEG_KDATA (data 0)) SEG_UCODE (code DPL_USER)) SEG_UDATA (data DPL_USER)) x.

(** All processors, with the state of the spin locks for [pushcli]. *)
Record machinex := MachineX { mx_lk : smem; mx_cpu : nat -> cpux }.
Definition set_mx_lk v s := MachineX v (mx_cpu s).
Definition mod_cpux (c : nat) (f : cpux -> cpux) : M machinex unit := modify (fun s => MachineX (mx_lk s) (<[c := f (mx_cpu s c)]> (mx_cpu s))).
Definition lk_op {A} (m : M smem A) : M machinex A := zoom mx_lk set_mx_lk m.

Definition sizeof_ts : Z := 104.

Definition switchkvm (c : nat) (kpgdir : Z) : M machinex unit := mod_cpux c (set_cr3 (V2P kpgdir)).

(** [&cpus[c].ts] is [ts_addr c]. *)
Definition switchuvm (ts_addr : nat -> Z) (c : nat) (op : option proc) : M machinex unit :=
  match op with
  | None => panic "switchuvm: no process"
  | Some p =>
      if p_kstack p =? 0 then panic "switchuvm: no kstack"
      else if p_pgdir p =? 0 then panic "switchuvm: no pgdir"
      else
        lk_op (pushcli c);;
        c1 ← lk_op (mycpu c);
        mod_cpux c1 (fun x => set_gdt (wr (gdt x) SEG_TSS (SEG16 STS_T32A (ts_addr c1) (sizeof_ts - 1) 0)) x);;
        mod_cpux c1 (fun x =>
          let d := SEG16 STS_T32A (ts_addr c1) (sizeof_ts - 1) 0 in
          set_gdt (wr (gdt x) SEG_TSS (Segdesc (lim_15_0 d) (base_15_0 d) (base_23_16 d) (sd_type d) 0 (sd_dpl d) (sd_p d)
            (lim_19_16 d) (avl d) (rsv1 d) (db d) (sd_g d) (base_31_24 d))) x);;
        mod_cpux c1 (set_ts (Z.shiftl SEG_KDATA 3) (u32 (p_kstack p + KSTACKSIZE)) 0xFFFF);;
        mod_cpux c1 (set_tr (Z.shiftl SEG_TSS 3));;
        mod_cpux c1 (set_cr3 (V2P (p_pgdir p)));;
        lk_op (popcli c)
  end.

(** ** What the processor reads *)

(** A segment descriptor: base, the last offset, application segment, type,
    privilege, present. *)
Record segview := SegView { v_base : Z; v_limit : Z; v_app : Z; v_type : Z; v_dpl : Z; v_present : Z }.

Definition read_seg (w : Z) : segview :=
  let f i := nth i (unpack seg_widths w) 0 in
  let lim := f 0%nat + 2 ^ 16 * f 7%nat in
  SegView (f 1%nat + 2 ^ 16 * f 2%nat + 2 ^ 24 * f 12%nat) (if f 11%nat =? 1 then lim * 4096 + 4095 else lim) (f 4%nat) (f 3%nat) (f 5%nat) (f 6%nat).

(** A gate: the handler, its code segment, whether it leaves the interrupt flag
    alone, privilege, present. *)
Record gateview := GateView { w_off : Z; w_sel : Z; w_trap : bool; w_dpl : Z; w_present : Z }.

Definition read_gate (w : Z) : option gateview :=
  let f i := nth i (unpack gate_widths w) 0 in
  if (f 5%nat =? 0) && ((f 4%nat =? STS_IG32) || (f 4%nat =? STS_TG32)) then
    Some (GateView (f 0%nat + 2 ^ 16 * f 8%nat) (f 1%nat) (f 4%nat =? STS_TG32) (f 6%nat) (f 7%nat))
  else None.

Lemma seg_fields d : unpack seg_widths (seg_word d) = zip_with (fun w v => v mod 2 ^ w) seg_widths
  [lim_15_0 d; base_15_0 d; base_23_16 d; sd_type d; sd_s d; sd_dpl d; sd_p d; lim_19_16 d; avl d; rsv1 d; db d; sd_g d; base_31_24 d].
Proof.
  unfold seg_word. set (l := [_; _; _; _; _; _; _; _; _; _; _; _; _]). change seg_widths with (zip seg_widths l).*1 at 1. rewrite unpack_pack by (by repeat constructor). done.
Qed.

Lemma gate_fields g : unpack gate_widths (gate_word g) = zip_with (fun w v => v mod 2 ^ w) gate_widths
  [off_15_0 g; gd_cs g; gd_args g; gd_rsv1 g; gd_type g; gd_s g; gd_dpl g; gd_p g; off_31_16 g].
Proof.
  unfold gate_word. set (l := [_; _; _; _; _; _; _; _; _]). change gate_widths with (zip gate_widths l).*1 at 1. rewrite unpack_pack by (by repeat constructor). done.
Qed.

(** Masks and shifts as remainders and quotients. *)
Ltac bits := change 0xffff with (Z.ones 16); change 0xff with (Z.ones 8); rewrite ?Z.land_ones, ?Z.shiftr_div_pow2 by lia;
  change (2 ^ 12) with 4096; change (2 ^ 28) with 268435456; change (2 ^ 24) with 16777216; change (2 ^ 4) with 16; change (2 ^ 2) with 4; change (2 ^ 1) with 2.

Lemma read_SEG type base lim dpl : 0 <= type < 16 -> 0 <= dpl < 4 -> is_u32 base -> is_u32 lim ->
  read_seg (seg_word (SEG type base lim dpl)) = SegView base (lim / 4096 * 4096 + 4095) 1 type dpl 1.
Proof.
  intros Ht Hd Hb Hl. unfold read_seg. rewrite seg_fields. cbn -[Z.land Z.shiftr Z.modulo Z.pow Z.mul Z.add]. bits.
  change (1 mod 2) with 1. simpl (_ =? _). cbv iota. f_equal; mlia.
Qed.

Lemma read_TSS base lim : is_u32 base -> 0 <= lim < 2 ^ 20 -> let d := SEG16 STS_T32A base lim 0 in
  read_seg (seg_word (Segdesc (lim_15_0 d) (base_15_0 d) (base_23_16 d) (sd_type d) 0 (sd_dpl d) (sd_p d) (lim_19_16 d) (avl d) (rsv1 d) (db d) (sd_g d) (base_31_24 d))) =
    SegView base lim 0 STS_T32A 0 1.
Proof.
  intros Hb Hl d. unfold read_seg. rewrite seg_fields. unfold d. cbn -[Z.land Z.shiftr Z.modulo Z.pow Z.mul Z.add]. bits. change (2 ^ 20) with 1048576 in Hl.
  change (0 mod 2) with 0. simpl (_ =? _). cbv iota. f_equal; mlia.
Qed.

Lemma read_SETGATE istrap sel off d : is_u16 sel -> is_u32 off -> 0 <= d < 4 ->
  read_gate (gate_word (SETGATE istrap sel off d)) = Some (GateView off sel istrap d 1).
Proof.
  intros Hs Ho Hd. unfold read_gate. rewrite gate_fields. cbn -[Z.land Z.shiftr Z.modulo Z.pow Z.mul Z.add]. bits.
  destruct istrap; cbn -[Z.modulo Z.mul Z.add Z.pow Z.div]; do 2 f_equal; mlia.
Qed.

(** ** The gates *)

Definition gate0 : gatedesc := Gatedesc 0 0 0 0 0 0 0 0 0.

Lemma rd_tv_loop vectors n : forall i idt k, 0 <= i -> i + Z.of_nat n <= zlen idt ->
  zlen (tv_loop vectors n i idt) = zlen idt /\
  rd gate0 (tv_loop vectors n i idt) k = if decide (i <= k < i + Z.of_nat n) then SETGATE false (Z.shiftl SEG_KCODE 3) (vectors k) 0 else rd gate0 idt k.
Proof.
  induction n as [|n IH]; intros i idt k Hi Hn; cbn [tv_loop]; [split; [done|]; by rewrite decide_False by lia|].
  destruct (IH (i + 1) (wr idt i (SETGATE false (Z.shiftl SEG_KCODE 3) (vectors i) 0)) k ltac:(lia) ltac:(rewrite zlen_wr; lia)) as [-> ->].
  rewrite zlen_wr. split; [done|]. destruct (decide (k = i)) as [->|N].
  - rewrite decide_False, decide_True by lia. apply rd_wr_eq. lia.
  - rewrite rd_wr_ne by lia. repeat case_decide; try done; lia.
Qed.

(** The instruction [int n] of a program with privilege [cpl], as the manual of
    the processor describes it: the gate must be present, and allow it. *)
Definition soft_int (idt : list gatedesc) (cpl n : Z) : option gateview :=
  match read_gate (gate_word (rd gate0 idt n)) with
  | Some g => if (w_present g =? 1) && (cpl <=? w_dpl g) then Some g else None
  | None => None
  end.

(** The gate of a vector. *)
Lemma tv_gate vectors idt n : zlen idt = 256 -> (forall i, is_u32 (vectors i)) -> 0 <= n < 256 ->
  read_gate (gate_word (rd gate0 (tvinit vectors idt) n)) =
  Some (GateView (vectors n) (Z.shiftl SEG_KCODE 3) (n =? T_SYSCALL) (if n =? T_SYSCALL then DPL_USER else 0) 1).
Proof.
  intros Hl Hv Hn. destruct (rd_tv_loop vectors 256 0 idt n ltac:(lia) ltac:(lia)) as [Lt Rt]. unfold tvinit. destruct (Z.eqb_spec n T_SYSCALL) as [->|N].
  - rewrite rd_wr_eq by (rewrite Lt; unfold T_SYSCALL; lia). clear -Hv. by apply read_SETGATE.
  - rewrite rd_wr_ne by done. rewrite Rt, decide_True by lia. clear -Hv. by apply read_SETGATE.
Qed.

(** C24: the gates.  After [tvinit] every interrupt goes through a gate into the
    kernel's code segment, to its own entry point; interrupts are off on entry
    except for a system call, and a user program can enter with [int n] exactly for
    the system call. *)
Theorem idt_protected vectors idt : zlen idt = 256 -> (forall i, is_u32 (vectors i)) -> let t := tvinit vectors idt in
  forall n, 0 <= n < 256 ->
    read_gate (gate_word (rd gate0 t n)) = Some (GateView (vectors n) (Z.shiftl SEG_KCODE 3) (n =? T_SYSCALL) (if n =? T_SYSCALL then DPL_USER else 0) 1) /\
    (soft_int t DPL_USER n ≠ None <-> n = T_SYSCALL).
Proof.
  intros Hl Hv t n Hn. assert (G := tv_gate vectors idt n Hl Hv Hn). split; [exact G|]. unfold soft_int, t. rewrite G. clear G t.
  cbn [w_present w_dpl]. destruct (Z.eqb_spec n T_SYSCALL) as [->|N]; simpl; [done|]. split; [intros H; by destruct H|done].
Qed.

Lemma idt_protected_witness : soft_int (tvinit (fun i => 0x80100000 + 16 * (i mod 256)) (replicate 256 gate0)) DPL_USER 14 = None.
Proof.
  assert (V : forall i, is_u32 (0x80100000 + 16 * (i mod 256))) by (intros i; assert (B := Z.mod_pos_bound i 256); unfold is_u32; lia).
  destruct (idt_protected (fun i => 0x80100000 + 16 * (i mod 256)) (replicate 256 gate0) eq_refl V 14 ltac:(lia)) as [_ H].
  destruct (soft_int _ _ 14); [|done]. assert (X := proj1 H ltac:(done)). discriminate X.
Defined.

(** ** The segments *)

Definition seg0 : segdesc := Segdesc 0 0 0 0 0 0 0 0 0 0 0 0 0.
Definition segment (x : cpux) (k : Z) : segview := read_seg (seg_word (rd seg0 (gdt x) k)).

(** The segments of the kernel and of user programs are all of memory; only the
    privilege differs. *)
Theorem seginit_flat x : zlen (gdt x) = NSEGS -> let y := seginit x in
  segment y SEG_KCODE = SegView 0 0xffffffff 1 (Z.lor STA_X STA_R) 0 1 /\ segment y SEG_KDATA = SegView 0 0xffffffff 1 STA_W 0 1 /\
  segment y SEG_UCODE = SegView 0 0xffffffff 1 (Z.lor STA_X STA_R) DPL_USER 1 /\ segment y SEG_UDATA = SegView 0 0xffffffff 1 STA_W DPL_USER 1 /\
  segment y SEG_TSS = segment x SEG_TSS.
Proof.
  intros Hl y. destruct x as [l ss esp io c t]. simpl in Hl. destruct l as [|g0 [|g1 [|g2 [|g3 [|g4 [|g5 [|? ?]]]]]]]; done.
Qed.

(** ** switchuvm *)

Lemma pushcli_run c s : exists s1, pushcli c s = Ret tt s1 /\ sm_lk s1 = sm_lk s /\ (forall d, d ≠ c -> sm_cpu s1 d = sm_cpu s d) /\
  let p := sm_cpu s c in sm_cpu s1 c = Cpu false (cpu_ncli p + 1) (if cpu_ncli p =? 0 then cpu_if p else cpu_intena p).
Proof.
  destruct s as [lk cp]. unfold pushcli, mycpu, when. munfold. simpl. rewrite !fn_lookup_insert. simpl. rewrite ?fn_lookup_insert. simpl.
  destruct (cpu_ncli (cp c) =? 0); (eexists; split; [done|]; split; [done|]; split; [intros d Hd; simpl; by rewrite !fn_lookup_insert_ne|]);
    simpl; rewrite ?fn_lookup_insert; simpl; by rewrite ?fn_lookup_insert.
Qed.

Lemma popcli_run c s : cpu_if (sm_cpu s c) = false -> 0 < cpu_ncli (sm_cpu s c) -> exists s1, popcli c s = Ret tt s1 /\ sm_lk s1 = sm_lk s /\
  (forall d, d ≠ c -> sm_cpu s1 d = sm_cpu s d) /\
  let p := sm_cpu s c in sm_cpu s1 c = Cpu ((cpu_ncli p =? 1) && cpu_intena p) (cpu_ncli p - 1) (cpu_intena p).
Proof.
  intros Hi Hn. destruct s as [lk cp]. unfold popcli, mycpu, when. munfold. simpl in *. rewrite Hi. simpl. rewrite ?Hi. simpl. rewrite !fn_lookup_insert. simpl.
  rewrite (proj2 (Z.ltb_ge _ _)) by lia. replace (cpu_ncli (cp c) - 1 =? 0) with (cpu_ncli (cp c) =? 1) by (destruct (Z.eqb_spec (cpu_ncli (cp c)) 1), (Z.eqb_spec (cpu_ncli (cp c) - 1) 0); lia || done).
  destruct ((cpu_ncli (cp c) =? 1) && cpu_intena (cp c)) eqn:E; (eexists; split; [done|]; split; [done|]; split; [intros d Hd; simpl; by rewrite !fn_lookup_insert_ne|]);
    simpl; rewrite ?fn_lookup_insert; simpl; rewrite ?fn_lookup_insert; by rewrite ?Hi.
Qed.

Lemma wp_mod_cpux c f s (Q : unit -> machinex -> Prop) :
  (forall s', mx_lk s' = mx_lk s -> mx_cpu s' c = f (mx_cpu s c) -> (forall d, d ≠ c -> mx_cpu s' d = mx_cpu s d) -> Q tt s') -> wp (mod_cpux c f) Q s.
Proof.
  intros H. unfold mod_cpux. wp_step. apply H; [done|simpl; by rewrite fn_lookup_insert|]. intros d Hd. simpl. by rewrite fn_lookup_insert_ne.
Qed.

(** C29: a process gets its address space and its kernel stack.  [switchuvm]
    returns with the interrupt state of the processor as before; on an interrupt
    the processor will use the kernel stack of the process, in the kernel's data
    segment; the task segment is the one of this processor and lets no user
    program use ports; the page directory is the one of the process; the other
    segments and processors are untouched. *)
Theorem switchuvm_correct ts_addr c p s : p_kstack p ≠ 0 -> p_pgdir p ≠ 0 -> is_u32 (p_kstack p + KSTACKSIZE) -> is_u32 (ts_addr c) ->
  let q := sm_cpu (mx_lk s) c in let x := mx_cpu s c in zlen (gdt x) = NSEGS ->
  0 <= cpu_ncli q -> (0 < cpu_ncli q -> cpu_if q = false) ->
  wp (switchuvm ts_addr c (Some p)) (fun _ s' => let q' := sm_cpu (mx_lk s') c in let x' := mx_cpu s' c in
    cpu_if q' = cpu_if q /\ cpu_ncli q' = cpu_ncli q /\ sm_lk (mx_lk s') = sm_lk (mx_lk s) /\
    segment x' SEG_TSS = SegView (ts_addr c) (sizeof_ts - 1) 0 STS_T32A 0 1 /\ (forall k, k ≠ SEG_TSS -> segment x' k = segment x k) /\
    ts_esp0 x' = p_kstack p + KSTACKSIZE /\ ts_ss0 x' = Z.shiftl SEG_KDATA 3 /\ sizeof_ts - 1 < ts_iomb x' /\
    tr x' = Z.shiftl SEG_TSS 3 /\ cr3 x' = V2P (p_pgdir p) /\
    (forall d, d ≠ c -> mx_cpu s' d = mx_cpu s d /\ sm_cpu (mx_lk s') d = sm_cpu (mx_lk s) d)) s.
Proof.
  intros Hk Hp Hs Ht q x Hg Hn Hi. unfold switchuvm. rewrite (proj2 (Z.eqb_neq _ _) Hk), (proj2 (Z.eqb_neq _ _) Hp).
  destruct (pushcli_run c (mx_lk s)) as (s1 & E1 & L1 & O1 & C1). fold q in C1. cbv zeta in C1.
  destruct (popcli_run c s1) as (s2 & E2 & L2 & O2 & C2); [by rewrite C1|rewrite C1; simpl; lia|]. cbv zeta in C2.
  wp_step. unfold lk_op. wp_step. apply (wp_intro _ _ _ _ _ E1). wp_step. wp_step. apply (wp_intro _ _ _ c s1); [unfold mycpu; munfold; simpl; by rewrite C1|].
  wp_step. apply wp_mod_cpux. intros t1 A1 B1 D1. wp_step. apply wp_mod_cpux. intros t2 A2 B2 D2. wp_step. apply wp_mod_cpux. intros t3 A3 B3 D3.
  wp_step. apply wp_mod_cpux. intros t4 A4 B4 D4. wp_step. apply wp_mod_cpux. intros t5 A5 B5 D5. wp_step.
  assert (E5 : mx_lk t5 = s1) by (by rewrite A5, A4, A3, A2, A1). rewrite E5. apply (wp_intro _ _ _ _ _ E2).
  cbn [mx_lk mx_cpu set_mx_lk] in *. rewrite B5, B4, B3, B2, B1. fold x. unfold segment. cbn [set_cr3 set_tr set_ts set_gdt gdt ts_esp0 ts_ss0 ts_iomb tr cr3].
  rewrite C2, C1, L2, L1. cbn [cpu_if cpu_ncli cpu_intena].
  split. { destruct (Z.eqb_spec (cpu_ncli q) 0) as [E|E]; [by rewrite E|]. rewrite Hi by lia. replace (cpu_ncli q + 1 =? 1) with false by (symmetry; apply Z.eqb_neq; lia). done. }
  split; [lia|]. split; [done|].
  split. { rewrite rd_wr_eq by (rewrite zlen_wr, Hg; unfold SEG_TSS, NSEGS; lia). apply read_TSS; [done|]. by vm_compute. }
  split. { intros k Hk'. by rewrite !rd_wr_ne by congruence. }
  split; [by apply u32_id|]. do 4 (split; [done|]). intros d Hd. split; [by rewrite D5, D4, D3, D2, D1|by rewrite O2, O1].
Qed.

Lemma switchuvm_correct_witness : let c0 := Cpux (replicate 6 seg0) 0 0 0 0 0 in let p := set_kstack 0x8dfff000 (set_pgdir 0x8dffe000 proc0) in
  wp (switchuvm (fun _ => 0x80113000) 0 (Some p)) (fun _ s' => ts_esp0 (mx_cpu s' 0) = 0x8e000000) (MachineX (SMem (fun _ => initlock) (fun _ => Cpu true 0 false)) (fun _ => c0)).
Proof.
  intros c0 p. eapply wp_mono; [apply (switchuvm_correct (fun _ => 0x80113000) 0 p); try (by vm_compute)|]. intros [] s' H. apply H.
Defined.
