(* ===== verification/Apic.v ===== *)
(** * Interrupt controllers (ioapic.c, lapic.c, picirq.c)

    The registers that the kernel writes, and what they make the controllers do
    as their documentation describes it.  The I/O APIC has a register that
    selects one of its registers and a data register; the local APIC is an array
    of registers, and the order of the writes to its command register matters,
    so the writes are kept as a list. *)

From S2P Require Import Prelude Param PhysMem Trap.

(** ** The I/O APIC *)

Definition REG_ID : Z := 0x00.
Definition REG_VER : Z := 0x01.
Definition REG_TABLE : Z := 0x10.
Definition INT_DISABLED : Z := 0x00010000.

Record ioapic := IoApic { io_reg : Z; io_data : Z -> Z }.

Definition io_select (reg : Z) : M ioapic unit := modify (fun s => IoApic reg (io_data s)).
Definition ioapicread (reg : Z) : M ioapic Z := io_select reg;; gets (fun s => io_data s (io_reg s)).
Definition ioapicwrite (reg data : Z) : M ioapic unit :=
  io_select reg;; modify (fun s => IoApic (io_reg s) (fun r => if decide (r = io_reg s) then data else io_data s r)).

(** The loop from [i] on; it ends behind [maxintr]. *)
Fixpoint ioapicinit_loop (n : nat) (i : Z) : M ioapic unit :=
  match n with
  | O => mret tt
  | S n' =>
      ioapicwrite (REG_TABLE + 2 * i) (Z.lor INT_DISABLED (T_IRQ0 + i));;
      ioapicwrite (REG_TABLE + 2 * i + 1) 0;;
      ioapicinit_loop n' (i + 1)
  end.

(** Whether it says that the machine is no multiprocessor. *)
Definition ioapicinit (ioapicid : Z) : M ioapic bool :=
  v ← ioapicread REG_VER;
  let maxintr := Z.land (Z.shiftr v 16) 0xFF in
  r ← ioapicread REG_ID;
  ioapicinit_loop (Z.to_nat (maxintr + 1)) 0;;
  mret (negb (Z.shiftr r 24 =? ioapicid)).

Definition ioapicenable (irq cpunum : Z) : M ioapic unit :=
  ioapicwrite (REG_TABLE + 2 * irq) (T_IRQ0 + irq);;
  ioapicwrite (REG_TABLE + 2 * irq + 1) (u32 (Z.shiftl cpunum 24)).

(** Where the interrupt [irq] goes: to which processor, and with which number. *)
Definition delivers (s : ioapic) (irq : Z) : option (Z * Z) :=
  let lo := io_data s (REG_TABLE + 2 * irq) in
  if Z.testbit lo 16 then None else Some (Z.shiftr (io_data s (REG_TABLE + 2 * irq + 1)) 24, Z.land lo 0xff).

Lemma ioapicwrite_run reg data s : ioapicwrite reg data s = Ret tt (IoApic reg (fun r => if decide (r = reg) then data else io_data s r)).
Proof. done. Qed.

Lemma wp_init_loop n : forall i s (Q : unit -> ioapic -> Prop), 0 <= i ->
  (forall s', (forall r, io_data s' r = if decide (REG_TABLE + 2 * i <= r < REG_TABLE + 2 * (i + Z.of_nat n)) then
       (if decide (r mod 2 = 0) then Z.lor INT_DISABLED (T_IRQ0 + (r - REG_TABLE) / 2) else 0) else io_data s r) -> Q tt s') ->
  wp (ioapicinit_loop n i) Q s.
Proof.
  induction n as [|n IH]; intros i s Q Hi HQ; cbn [ioapicinit_loop].
  - wp_step. apply HQ. intros r. by rewrite decide_False by lia.
  - wp_step. apply (wp_intro _ _ _ _ _ (ioapicwrite_run _ _ s)). wp_step. apply (wp_intro _ _ _ _ _ (ioapicwrite_run _ _ _)). apply IH; [lia|].
    intros s' H. apply HQ. intros r. rewrite H. cbn [io_data]. unfold REG_TABLE in *.
    destruct (decide (r = 16 + 2 * i)) as [->|N1].
    + rewrite decide_False by lia. rewrite decide_False by lia. rewrite (decide_True (P := 16 + 2 * i <= _ < _)) by lia. rewrite decide_True by mlia.
      replace ((16 + 2 * i - 16) / 2) with i by mlia. done.
    + destruct (decide (r = 16 + 2 * i + 1)) as [->|N2].
      * rewrite decide_False by lia. rewrite (decide_True (P := 16 + 2 * i <= _ < _)) by lia. by rewrite decide_False by mlia.
      * repeat case_decide; try done; lia.
Qed.

Fixpoint enable_all (l : list (Z * Z)) : M ioapic unit :=
  match l with
  | [] => mret tt
  | (irq, c) :: l' => ioapicenable irq c;; enable_all l'
  end.

Lemma delivers_enabled s irq c : 0 <= irq < 224 -> 0 <= c < 256 -> io_data s (REG_TABLE + 2 * irq) = T_IRQ0 + irq ->
  io_data s (REG_TABLE + 2 * irq + 1) = u32 (Z.shiftl c 24) -> delivers s irq = Some (c, T_IRQ0 + irq).
Proof.
  intros Hi Hc E1 E2. unfold delivers. rewrite E1, E2. unfold T_IRQ0 in *.
  rewrite Z.testbit_odd, Z.shiftr_div_pow2, Z.div_small by (change (2 ^ 16) with 65536; lia). change 0xff with (Z.ones 8). rewrite Z.land_ones by lia. simpl Z.odd. cbv iota.
  rewrite Z.shiftl_mul_pow2, Z.shiftr_div_pow2 by lia. change (2 ^ 24) with 16777216. do 2 f_equal; mlia.
Qed.

Lemma wp_enable_all l : forall s (Q : unit -> ioapic -> Prop), Forall (fun e => 0 <= e.1 < 224 /\ 0 <= e.2 < 256) l -> NoDup l.*1 ->
  (forall s', (forall irq c, (irq, c) ∈ l -> delivers s' irq = Some (c, T_IRQ0 + irq)) ->
     (forall irq, irq ∉ l.*1 -> delivers s' irq = delivers s irq) -> Q tt s') -> wp (enable_all l) Q s.
Proof.
  induction l as [|[irq c] l IH]; intros s Q Hl Hd HQ; cbn [enable_all].
  - wp_step. apply HQ; [|done]. intros i c H. by apply elem_of_nil in H.
  - inversion_clear Hl as [|? ? [Hi Hc] Hl']. rewrite fmap_cons in Hd. apply NoDup_cons in Hd as [Hn Hd]. simpl in *. wp_step. unfold ioapicenable. wp_step.
    apply (wp_intro _ _ _ _ _ (ioapicwrite_run _ _ s)). apply (wp_intro _ _ _ _ _ (ioapicwrite_run _ _ _)). apply IH; [done|done|]. intros s' H1 H2. apply HQ.
    + intros i d [[= -> ->]|H]%elem_of_cons; [|by apply H1]. rewrite H2 by done. apply delivers_enabled; [done|done| |]; simpl.
      * rewrite decide_False by lia. by rewrite decide_True.
      * by rewrite decide_True.
    + intros i H. rewrite not_elem_of_cons in H. destruct H as [Ni H]. rewrite H2 by done. unfold delivers. simpl. by rewrite !decide_False by lia.
Qed.

(** After [ioapicinit] and calls of [ioapicenable], exactly the interrupts that
    were enabled are delivered, each to its processor, with the number that
    [trap] expects. *)
Theorem ioapic_routes id l s : let maxintr := Z.land (Z.shiftr (io_data s REG_VER) 16) 0xff in
  Forall (fun e => 0 <= e.1 < 224 /\ 0 <= e.2 < 256) l -> NoDup l.*1 ->
  wp (ioapicinit id;; enable_all l) (fun _ s' => (forall irq c, (irq, c) ∈ l -> delivers s' irq = Some (c, T_IRQ0 + irq)) /\
    forall irq, 0 <= irq <= maxintr -> irq ∉ l.*1 -> delivers s' irq = None) s.
Proof.
  intros maxintr Hl Hd. unfold ioapicinit, ioapicread, io_select. repeat wp_step. apply wp_init_loop; [lia|]. intros s1 H1. cbn [io_data io_reg] in H1. fold maxintr in H1. wp_step.
  apply wp_enable_all; [done|done|]. intros s2 H2 H3. split; [done|]. intros irq Hi Hn. rewrite H3 by done. unfold delivers. rewrite H1.
  rewrite decide_True by lia. rewrite decide_True by (unfold REG_TABLE; mlia). rewrite Z.lor_spec. done.
Qed.

(** ** The PIC *)

Definition IO_PIC1 : Z := 0x20.
Definition IO_PIC2 : Z := 0xA0.
(** The ports written. *)
Definition picinit : list (Z * Z) := [(IO_PIC1 + 1, 0xFF); (IO_PIC2 + 1, 0xFF)].

(** ** The local APIC *)

Definition ID : Z := 0x0020 / 4.
Definition VER : Z := 0x0030 / 4.
Definition TPR : Z := 0x0080 / 4.
Definition EOI : Z := 0x00B0 / 4.
Definition SVR : Z := 0x00F0 / 4.
Definition ENABLE : Z := 0x00000100.
Definition ESR : Z := 0x0280 / 4.
Definition ICRLO : Z := 0x0300 / 4.
Definition INIT : Z := 0x00000500.
Definition STARTUP : Z := 0x00000600.
Definition DELIVS : Z := 0x00001000.
Definition ASSERT : Z := 0x00004000.
Definition LEVEL : Z := 0x00008000.
Definition BCAST : Z := 0x00080000.
Definition ICRHI : Z := 0x0310 / 4.
Definition TIMER : Z := 0x0320 / 4.
Definition X1 : Z := 0x0000000B.
Definition PERIODIC : Z := 0x00020000.
Definition PCINT : Z := 0x0340 / 4.
Definition LINT0 : Z := 0x0350 / 4.
Definition LINT1 : Z := 0x0360 / 4.
Definition ERROR : Z := 0x0370 / 4.
Definition MASKED : Z := 0x00010000.
Definition TICR : Z := 0x0380 / 4.
Definition TDCR : Z := 0x03E0 / 4.
Definition IRQ_ERROR : Z := 19.

(** The writes to the registers; what ID and VER read as; and how many more
    reads of ICRLO say that a command is still on its way. *)
Record lapic := Lapic { la_writes : list (Z * Z); la_id : Z; la_ver : Z; la_busy : nat }.

Definition lapicw (index value : Z) : M lapic unit :=
  modify (fun s => Lapic (la_writes s ++ [(index, u32 value)]) (la_id s) (la_ver s) (la_busy s)).

Definition read_icrlo : M lapic Z := fun s =>
  match la_busy s with
  | O => Ret 0 s
  | S n => Ret DELIVS (Lapic (la_writes s) (la_id s) (la_ver s) n)
  end.

(** [while(lapic[ICRLO] & DELIVS)] *)
Fixpoint delivery_loop (fuel : nat) : M lapic unit :=
  r ← read_icrlo;
  if negb (Z.land r DELIVS =? 0) then match fuel with O => out_of_fuel | S fuel' => delivery_loop fuel' end else mret tt.
Definition wait_delivery : M lapic unit := s ← get; delivery_loop (la_busy s).

Definition lapicinit (present : bool) : M lapic unit :=
  if negb present then mret tt
  else
    lapicw SVR (Z.lor ENABLE (T_IRQ0 + IRQ_SPURIOUS));;
    lapicw TDCR X1;;
    lapicw TIMER (Z.lor PERIODIC (T_IRQ0 + IRQ_TIMER));;
    lapicw TICR 10000000;;
    lapicw LINT0 MASKED;;
    lapicw LINT1 MASKED;;
    s ← get;
    (if 4 <=? Z.land (Z.shiftr (la_ver s) 16) 0xFF then lapicw PCINT MASKED else mret tt);;
    lapicw ERROR (T_IRQ0 + IRQ_ERROR);;
    lapicw ESR 0;;
    lapicw ESR 0;;
    lapicw EOI 0;;
    lapicw ICRHI 0;;
    lapicw ICRLO (Z.lor (Z.lor BCAST INIT) LEVEL);;
    wait_delivery;;
    lapicw TPR 0.

Definition lapicid (present : bool) : M lapic Z :=
  if negb present then mret 0 else s ← get; mret (Z.shiftr (la_id s) 24).

Definition lapiceoi (present : bool) : M lapic unit := if present then lapicw EOI 0 else mret tt.

(** The memory and the ports of [lapicstartap]; [microdelay] does nothing. *)
Definition wake_address : Z := Z.lor (Z.shiftl 0x40 4) 0x67.
Definition startap_ports : list (Z * Z) := [(0x70, 0xF); (0x71, 0x0A)].
Definition startap_memory (addr : Z) (m : Z -> Z) : Z -> Z := store wake_address (le_bytes 2 0 ++ le_bytes 2 (Z.shiftr addr 4)) m.

Definition startup_ipi (apicid addr : Z) : M lapic unit :=
  lapicw ICRHI (Z.shiftl apicid 24);; lapicw ICRLO (Z.lor STARTUP (Z.shiftr addr 12)).
Definition lapicstartap (apicid addr : Z) : M lapic unit :=
  lapicw ICRHI (Z.shiftl apicid 24);;
  lapicw ICRLO (Z.lor (Z.lor INIT LEVEL) ASSERT);;
  lapicw ICRLO (Z.lor INIT LEVEL);;
  startup_ipi apicid addr;;
  startup_ipi apicid addr.

(** The value of a register after the writes. *)
Definition reg_after (r : Z) (ws : list (Z * Z)) : option Z := snd <$> last (filter (fun w => w.1 = r) ws).

(** The commands to other processors: the destination in ICRHI, and a write to
    ICRLO sends. *)
Fixpoint ipis (hi : Z) (ws : list (Z * Z)) : list (Z * Z) :=
  match ws with
  | [] => []
  | (r, v) :: ws' => if r =? ICRHI then ipis v ws' else if r =? ICRLO then (Z.shiftr hi 24, v) :: ipis hi ws' else ipis hi ws'
  end.

Lemma wp_delivery n : forall s (Q : unit -> lapic -> Prop), la_busy s = n -> Q tt (Lapic (la_writes s) (la_id s) (la_ver s) 0) -> wp (delivery_loop n) Q s.
Proof.
  induction n as [|n IH]; intros [w i v b] Q Hb HQ; simpl in Hb; subst b; cbn [delivery_loop]; wp_step; unfold read_icrlo at 1, wp at 1; simpl.
  - exact HQ.
  - apply IH; [done|exact HQ].
Qed.

Lemma reg_after_snoc r w i v : reg_after r (w ++ [(i, v)]) = if decide (i = r) then Some v else reg_after r w.
Proof.
  unfold reg_after. rewrite filter_app. case_decide as D.
  - rewrite filter_cons_True by done. rewrite filter_nil, last_snoc. done.
  - rewrite filter_cons_False by done. by rewrite filter_nil, app_nil_r.
Qed.

Lemma wp_lapicw i v w d r b (Q : unit -> lapic -> Prop) : Q tt (Lapic (w ++ [(i, u32 v)]) d r b) -> wp (lapicw i v) Q (Lapic w d r b).
Proof. done. Qed.

Ltac lapic_step := wp_step; apply wp_lapicw.

(** [lapicinit] turns the controller on, with a periodic timer interrupt that
    [trap] takes for the clock, both lines off, and ready for interrupts. *)
Theorem lapicinit_state d r b : wp (lapicinit true) (fun _ s' =>
    reg_after SVR (la_writes s') = Some (Z.lor ENABLE (T_IRQ0 + IRQ_SPURIOUS)) /\ reg_after TIMER (la_writes s') = Some (Z.lor PERIODIC (T_IRQ0 + IRQ_TIMER)) /\
    reg_after LINT0 (la_writes s') = Some MASKED /\ reg_after LINT1 (la_writes s') = Some MASKED /\ reg_after ERROR (la_writes s') = Some (T_IRQ0 + IRQ_ERROR) /\
    reg_after TPR (la_writes s') = Some 0 /\ la_busy s' = 0%nat) (Lapic [] d r b).
Proof.
  unfold lapicinit, wait_delivery. simpl negb. cbv iota. do 6 lapic_step. wp_step. wp_step. wp_step. cbn [la_ver].
  apply (wp_mono _ (fun _ s1 => exists w, s1 = Lapic w d r b /\ forall r, r ≠ PCINT -> reg_after r w =
    reg_after r [(SVR, u32 (Z.lor ENABLE (T_IRQ0 + IRQ_SPURIOUS))); (TDCR, u32 X1); (TIMER, u32 (Z.lor PERIODIC (T_IRQ0 + IRQ_TIMER))); (TICR, u32 10000000);
      (LINT0, u32 MASKED); (LINT1, u32 MASKED)])).
  { destruct (4 <=? _); [apply wp_lapicw|wp_step]; (eexists; split; [done|]); intros r' Hr; [|done].
    rewrite reg_after_snoc, decide_False by congruence. done. }
  intros [] s1 (w & -> & Hw). do 6 lapic_step. wp_step. wp_step. wp_step. apply wp_delivery; [done|]. cbn [la_writes la_id la_ver la_busy].
  apply wp_lapicw. cbn [la_writes la_busy]. rewrite !reg_after_snoc. rewrite !Hw by done. by vm_compute.
Qed.

(** [lapicstartap] resets the processor and starts it at the page [addr], twice,
    and no other processor. *)
Theorem lapicstartap_starts apicid addr s : 0 <= apicid < 256 -> 0 <= addr < 2 ^ 20 -> addr mod 4096 = 0 ->
  wp (lapicstartap apicid addr) (fun _ s' => exists v, la_writes s' = la_writes s ++ v /\
    ipis 0 v = [(apicid, Z.lor (Z.lor INIT LEVEL) ASSERT); (apicid, Z.lor INIT LEVEL); (apicid, STARTUP + addr / 4096); (apicid, STARTUP + addr / 4096)]) s.
Proof.
  intros Hi Ha Hm. destruct s as [w i r b]. unfold lapicstartap, startup_ipi. do 3 lapic_step. wp_step. lapic_step. apply wp_lapicw. lapic_step. apply wp_lapicw. cbn [la_writes]. eexists. split; [by rewrite <- !app_assoc|].
  assert (E1 : Z.shiftr (u32 (Z.shiftl apicid 24)) 24 = apicid).
  { rewrite Z.shiftl_mul_pow2, Z.shiftr_div_pow2 by lia. change (2 ^ 24) with 16777216. mlia. }
  assert (E2 : u32 (Z.lor STARTUP (Z.shiftr addr 12)) = STARTUP + addr / 4096).
  { rewrite Z.shiftr_div_pow2 by lia. change (2 ^ 12) with 4096. change (2 ^ 20) with 1048576 in Ha. set (k := addr / 4096). assert (Hk : 0 <= k < 256) by (unfold k; mlia).
    assert (F : forallb (fun k => u32 (Z.lor STARTUP k) =? STARTUP + k) (seqZ 0 256) = true) by (vm_compute; reflexivity).
    rewrite forallb_forall in F. specialize (F k ltac:(apply list_elem_of_In, elem_of_seqZ; lia)). by apply Z.eqb_eq in F. }
  rewrite E2. cbn [app ipis]. change (ICRHI =? ICRHI) with true. change (ICRLO =? ICRHI) with false. change (ICRLO =? ICRLO) with true. cbv iota. by rewrite E1.
Qed.
