(* ===== verification/Uart.v ===== *)
(** * The serial port (uart.c)

    The port: whether there is one, the characters that arrived, those that were
    sent, and for how many more reads of its status it cannot take another one.
    [ioapicenable] routes its interrupt.  Console.v takes [uartputc] as one step;
    here it is the accesses to the port. *)

From S2P Require Import Prelude Cstring Ring Console ConsoleInput Trap Apic.

Definition COM1 : Z := 0x3f8.

(** The device, the variable [uart] and the I/O APIC. *)
Record com := Com { com_there : bool; com_rx : list Z; com_tx : list Z; com_busy : nat; com_setup : list (Z * Z); uart_on : bool; com_io : ioapic }.

Definition set_uart v s := Com (com_there s) (com_rx s) (com_tx s) (com_busy s) (com_setup s) v (com_io s).
Definition set_com_io v s := Com (com_there s) (com_rx s) (com_tx s) (com_busy s) (com_setup s) (uart_on s) v.

(** The status register, COM1+5: bit 0 for a character that arrived, bit 5 when
    the port can take one; a missing device reads as ones. *)
Definition in_status : M com Z := fun s =>
  if com_there s then
    Ret (Z.lor (if decide (com_rx s = []) then 0 else 0x01) (match com_busy s with O => 0x20 | S _ => 0 end))
        (Com true (com_rx s) (com_tx s) (pred (com_busy s)) (com_setup s) (uart_on s) (com_io s))
  else Ret 0xFF s.

(** The data register, COM1+0. *)
Definition in_data : M com Z := fun s =>
  match com_rx s with
  | [] => Ret 0 s
  | c :: rx => Ret c (Com (com_there s) rx (com_tx s) (com_busy s) (com_setup s) (uart_on s) (com_io s))
  end.
Definition out_data (c : Z) : M com unit :=
  modify (fun s => Com (com_there s) (com_rx s) (com_tx s ++ [u8 c]) (com_busy s) (com_setup s) (uart_on s) (com_io s)).

(** Writes to the other registers. *)
Definition out_reg (p v : Z) : M com unit :=
  modify (fun s => Com (com_there s) (com_rx s) (com_tx s) (com_busy s) (com_setup s ++ [(p, v)]) (uart_on s) (com_io s)).

(** [for(i = 0; i < 128 && !(inb(COM1+5) & 0x20); i++)] *)
Fixpoint tx_wait (n : nat) : M com unit :=
  match n with
  | O => mret tt
  | S n' => r ← in_status; if Z.land r 0x20 =? 0 then tx_wait n' else mret tt
  end.

Definition uartputc (c : Z) : M com unit :=
  s ← get;
  if negb (uart_on s) then mret tt else tx_wait 128;; out_data c.

Fixpoint uart_puts (l : list Z) : M com unit :=
  match l with
  | [] => mret tt
  | c :: l' => if c =? 0 then mret tt else uartputc c;; uart_puts l'
  end.

(** The divisor, at COM1+0 and COM1+1 while the latch is open, is written with
    [out_reg] too. *)
Definition uartinit : M com unit :=
  out_reg (COM1 + 2) 0;;
  out_reg (COM1 + 3) 0x80;;
  out_reg (COM1 + 0) (115200 / 9600);;
  out_reg (COM1 + 1) 0;;
  out_reg (COM1 + 3) 0x03;;
  out_reg (COM1 + 4) 0;;
  out_reg (COM1 + 1) 0x01;;
  r ← in_status;
  if r =? 0xFF then mret tt
  else
    modify (set_uart true);;
    in_data;;
    zoom com_io set_com_io (ioapicenable IRQ_COM1 0);;
    uart_puts (cstring "xv6...
").

Definition uartgetc : M com Z :=
  s ← get;
  if negb (uart_on s) then mret (-1)
  else
    r ← in_status;
    if Z.land r 0x01 =? 0 then mret (-1) else in_data.

(** The characters that [consoleintr] gets. *)
Fixpoint uart_getc_all (fuel : nat) : M com (list Z) :=
  c ← uartgetc;
  if c <? 0 then mret []
  else match fuel with O => out_of_fuel | S fuel' => cs ← uart_getc_all fuel'; mret (c :: cs) end.

Definition uartintr : M (com * cons) bool :=
  s ← get;
  cs ← zoom fst (fun k s => (k, s.2)) (uart_getc_all (length (com_rx s.1)));
  zoom snd (fun c s => (s.1, c)) (consoleintr cs).

(** ** Sending *)

Lemma status_there s : com_there s = true -> exists r s', in_status s = Ret r s' /\ r ≠ 0xFF /\ (Z.land r 0x01 = 0 <-> com_rx s = []) /\
  com_there s' = true /\ com_rx s' = com_rx s /\ com_tx s' = com_tx s /\ uart_on s' = uart_on s /\ com_io s' = com_io s.
Proof.
  intros H. unfold in_status. rewrite H. eexists _, _. split; [done|]. simpl. case_decide as D; destruct (com_busy s); simpl; split_and!; try done.
Qed.

Lemma wp_tx_wait n : forall s (Q : unit -> com -> Prop), com_there s = true ->
  (forall s', com_there s' = true -> com_rx s' = com_rx s -> com_tx s' = com_tx s -> uart_on s' = uart_on s -> com_io s' = com_io s -> Q tt s') -> wp (tx_wait n) Q s.
Proof.
  induction n as [|n IH]; intros s Q Ht HQ; cbn [tx_wait]; [wp_step; by apply HQ|]. destruct (status_there s Ht) as (r & s1 & E & _ & _ & H1 & H2 & H3 & H4 & H5).
  wp_step. apply (wp_intro _ _ _ _ _ E). destruct (Z.land r 0x20 =? 0).
  - apply IH; [done|]. intros s' A1 A2 A3 A4 A5. apply HQ; congruence.
  - wp_step. by apply HQ.
Qed.

Lemma wp_uart_send c s (Q : unit -> com -> Prop) : com_there s = true -> uart_on s = true ->
  (forall s', com_there s' = true -> uart_on s' = true -> com_rx s' = com_rx s -> com_io s' = com_io s -> com_tx s' = com_tx s ++ [u8 c] -> Q tt s') -> wp (uartputc c) Q s.
Proof.
  intros Ht Hu HQ. unfold uartputc. wp_step. wp_step. rewrite Hu. simpl negb. cbv iota. wp_step. apply wp_tx_wait; [done|]. intros s1 A1 A2 A3 A4 A5.
  unfold out_data. wp_step. apply HQ; simpl; congruence.
Qed.

(** What Console.v takes as one step is what the port does. *)
Theorem uartputc_step c s t : com_there s = true -> uart_on s = true -> uart t = true -> serial t = com_tx s ->
  wp (uartputc c) (fun _ s' => exists t', Console.uartputc c t = Ret tt t' /\ serial t' = com_tx s' /\ com_rx s' = com_rx s) s.
Proof.
  intros Ht Hu Hv Es. apply wp_uart_send; [done|done|]. intros s' A1 A2 A3 _ A4. eexists. split; [done|]. split; [|done]. rewrite A4, <- Es. by destruct t; simpl in *; subst.
Qed.

Lemma wp_uart_puts l : forall s (Q : unit -> com -> Prop), com_there s = true -> uart_on s = true -> Forall (fun c => 0 < c < 256) l ->
  (forall s', com_there s' = true -> uart_on s' = true -> com_io s' = com_io s -> com_tx s' = com_tx s ++ l -> Q tt s') -> wp (uart_puts (l ++ [0])) Q s.
Proof.
  induction l as [|c l IH]; intros s Q Ht Hu Hl HQ; simpl.
  - wp_step. apply HQ; (done || by rewrite app_nil_r).
  - inversion_clear Hl as [|? ? Hc Hl']. rewrite (proj2 (Z.eqb_neq c 0)) by lia. wp_step. apply wp_uart_send; [done|done|]. intros s1 A1 A2 A3 A4 A5.
    apply IH; [done|done|done|]. intros s' B1 B2 B3 B4. apply HQ; [done|done|congruence|]. rewrite B4, A5, u8_id by (unfold is_u8; lia). by rewrite <- app_assoc.
Qed.

Lemma wp_out_reg p v th rx tx busy set on io (Q : unit -> com -> Prop) :
  Q tt (Com th rx tx busy (set ++ [(p, v)]) on io) -> wp (out_reg p v) Q (Com th rx tx busy set on io).
Proof. done. Qed.

(** [uartinit] finds the port, lets its interrupt go to the first processor, and
    greets; without a port it leaves the console without one. *)
Theorem uartinit_correct s : uart_on s = false ->
  wp uartinit (fun _ s' => uart_on s' = com_there s /\
    if com_there s then delivers (com_io s') IRQ_COM1 = Some (0, T_IRQ0 + IRQ_COM1) /\ com_tx s' = com_tx s ++ cstr (cstring "xv6...
") else com_tx s' = com_tx s /\ com_io s' = com_io s) s.
Proof.
  intros Hu. destruct s as [th rx tx busy set on io]. simpl in Hu. subst on. unfold uartinit. do 7 (wp_step; apply wp_out_reg).
  wp_step. destruct th.
  - edestruct (status_there) as (r & s1 & E & Nr & _ & H1 & H2 & H3 & H4 & H5); [|apply (wp_intro _ _ _ _ _ E)]; [done|]. rewrite (proj2 (Z.eqb_neq _ _) Nr). cbn in H2, H3, H4, H5.
    wp_step. wp_step. wp_step. apply (wp_mono _ (fun _ s2 => com_there s2 = true /\ uart_on s2 = true /\ com_tx s2 = tx)).
    { unfold in_data, wp. simpl. destruct (com_rx s1); simpl; by rewrite ?H1, ?H3. }
    intros _ s2 (I1 & I2 & I3). wp_step. wp_step. unfold ioapicenable. wp_step. apply (wp_intro _ _ _ _ _ (ioapicwrite_run _ _ _)). apply (wp_intro _ _ _ _ _ (ioapicwrite_run _ _ _)).
    apply (wp_uart_puts (cstr (cstring "xv6...
"))); [done|done|by repeat constructor|]. intros s3 J1 J2 J3 J4. cbn in J4. split; [done|]. rewrite J3. split; [by vm_compute|]. by rewrite J4, I3.
  - unfold in_status at 1, wp at 1. simpl. done.
Qed.

(** ** Receiving *)

Lemma uart_getc_all_run cs : forall s, Forall (fun c => 0 <= c) cs -> com_there s = true -> uart_on s = true -> com_rx s = cs ->
  exists s', uart_getc_all (length cs) s = Ret cs s' /\ com_rx s' = [] /\ com_tx s' = com_tx s.
Proof.
  induction cs as [|c cs IH]; intros s Hc Ht Hu Hr.
  - destruct (status_there s Ht) as (r & s1 & E & _ & H0 & H1 & H2 & H3 & _). exists s1. cbn [length uart_getc_all]. unfold uartgetc. munfold. rewrite Hu. simpl.
    rewrite E. rewrite (proj2 (Z.eqb_eq _ _) (proj2 H0 Hr)). simpl. split; [done|]. split; [congruence|done].
  - inversion_clear Hc as [|? ? Hc0 Hcs]. destruct (status_there s Ht) as (r & s1 & E & _ & H0 & H1 & H2 & H3 & H4 & _).
    assert (N : (Z.land r 1 =? 0) = false) by (apply Z.eqb_neq; intros X; apply H0 in X; congruence).
    set (s2 := Com (com_there s1) cs (com_tx s1) (com_busy s1) (com_setup s1) (uart_on s1) (com_io s1)).
    destruct (IH s2) as (s3 & E3 & R3 & T3); [done|exact H1|simpl; congruence|done|]. exists s3.
    assert (G : uartgetc s = Ret c s2).
    { unfold uartgetc. munfold. rewrite Hu. simpl. rewrite E, N. unfold in_data. by rewrite H2, Hr. }
    cbn [length uart_getc_all]. munfold. rewrite G, (proj2 (Z.ltb_ge c 0)) by lia. rewrite E3. split; [done|]. split; [done|]. rewrite T3. simpl. done.
Qed.

(** A line from the serial port.  When a line of ordinary characters that
    fits and a return or a newline have arrived, the interrupt takes all of them,
    the readers are woken, and a [consoleread] with enough room returns the
    line. *)
Theorem serial_line_read text c n k s : com_there k = true -> uart_on k = true -> com_rx k = text ++ [c] -> c = 13 \/ c = newline ->
  cons_ok s (Editor [] []) -> forallb ordinary text = true -> zlen text < INPUT_BUF - 1 -> (length text < n)%nat ->
  wp uartintr (fun _ s' => com_rx s'.1 = [] /\ woken s'.2 = true /\
    exists i', consoleread false (Z.of_nat n) n [] (inp s'.2) = (i', Returns (zlen text + 1) (text ++ [newline])) /\ input_rep i' (Editor [] [])) (k, s).
Proof.
  intros Ht Hu Hr Hc O Ho Hl Hn. assert (F : Forall (fun c => 0 < c < 256) (text ++ [c])).
  { apply Forall_app. split; [|constructor; [destruct Hc as [-> | ->]; done|done]]. apply Forall_forall. intros x Hx. rewrite forallb_forall in Ho.
    apply list_elem_of_In, Ho in Hx. unfold ordinary in Hx. bool_prop. lia. }
  destruct (uart_getc_all_run (text ++ [c]) k) as (k' & E & R & _); [by eapply Forall_impl; [exact F|intros x Hx; simpl in Hx; lia]|done|done|done|].
  unfold uartintr. wp_step. wp_step. wp_step. wp_step. cbn [fst]. rewrite Hr. apply (wp_intro _ _ _ _ _ E). wp_step. cbn [snd fst].
  eapply wp_mono; [apply (typed_line_read (text ++ [c]) text c n s O); try done|].
  - eapply Forall_impl; [exact F|]. intros x Hx. simpl in Hx. unfold is_u8. lia.
  - clear -F. induction F as [|x l Hx Hl IH]; [done|]. rewrite filter_cons_True by lia. by rewrite IH.
  - intros d s' (W & X). done.
Qed.

Lemma serial_line_read_witness :
  wp uartintr (fun _ s' => woken s'.2 = true /\
    exists i', consoleread false 20 20 [] (inp s'.2) = (i', Returns 3 [108; 115; 10]) /\ input_rep i' (Editor [] []))
    (Com true [108; 115; 13] [] 3 [] true (IoApic 0 (fun _ => 0)), cons0).
Proof.
  eapply wp_mono; [apply (serial_line_read [108; 115] 13 20); try done; [by left|exact cons0_ok|simpl; lia]|]. intros d s' (_ & H). exact H.
Defined.
