(* ===== verification/Init.v ===== *)
(** * The first user program (user/init.c)

    [init] opens the console as its descriptors 0, 1 and 2 and starts a shell,
    again whenever the shell ends; in between it waits for the processes it
    inherits.  It is modelled over the system calls of ShellRun.v; [malloc] is
    taken to succeed. *)

From S2P Require Import Prelude Param Cstring UserPrintf Console ShellText ShellRun.

Definition BLOCK : Z := 0xdb.
Definition HBLOCK : Z := 0xdc.
Definition UBLOCK : Z := 0xdf.

(** The lines of [printIntro1]: spaces, the digits 0, 1 and 4, and a newline
    where the colour changes. *)
Definition lineas : list (list Z) := (cstr ∘ cstring) <$>
  ["




                                11   11  
11 
111"; "      111 
111  
1   
111  
1111     
00 00  
00 
0011"; "     0   
0   0 
0  
0   0 
0   0     
000  
00 
00   00"; "     0   
0   0 
0  
0   0 
0110     
00 00
00  
00   00"; "      444 
444  
444 
444  
4   4   
44   
44    
44444"]%string.

Definition intro_color (estado : Z) : Z :=
  rd LGREY [RED; BROWN; YELLOW; GREEN; BLUE; RED; GREEN; BLUE] estado.

Definition intro_block (c : Z) : Z := if c =? 48 then BLOCK else if c =? 49 then HBLOCK else if c =? 52 then UBLOCK else 32.

Fixpoint intro_line (estado : Z) (linea : list Z) : list Z :=
  match linea with
  | [] => printf no_str (cstring "
") []
  | c :: linea' =>
      let estado := if c =? 10 then estado + 1 else estado in
      (if c =? 10 then [] else printf no_str (cstring "%c%c") [intro_color estado; intro_block c]) ++ intro_line estado linea'
  end.

Definition printIntro1 : list Z :=
  printf no_str (cstring "
") [] ++ mjoin (intro_line 0 <$> lineas) ++ printf no_str (cstring "%c      by diegojose.parragan@um.es

") [CYAN].

Section init.
Context (answer : list nat -> bool).

Definition console : list Z := cstr (cstring "console").

Definition init_fds : M uproc unit :=
  fd ← u_open answer console O_RDWR;
  (if fd <? 0 then ask answer;; u_open answer console O_RDWR;; mret tt else mret tt);;
  u_dup 0;;
  u_dup 0;;
  mret tt.

Definition sh_name : list Z := cstr (cstring "sh").

(** The child. *)
Definition init_child : M uproc ending :=
  s ← get;
  '(ok, _) ← ask answer;
  if ok : bool then mret (EExec sh_name [sh_name] (ufds s))
  else u_write 1 (printf no_str (cstring "%cinit: exec sh failed
%c") [LRED; LGREY]);; exit_ 1.

(** [while((wpid=wait(&status)) >= 0 && wpid != pid)] when the calls of [wait]
    give the processes in [ws]; [None], or the end of the list, is an error. *)
Fixpoint init_wait (pid : Z) (ws : list (option Z)) : M uproc unit :=
  u_wait;;
  match ws with
  | [] => mret tt
  | None :: _ => mret tt
  | Some w :: ws' =>
      if w =? pid then mret tt
      else u_write 1 (printf no_str (cstring "%czombie!
%c") [CYAN; LGREY]);; init_wait pid ws'
  end.

(** The loop of [main], for the rounds that [rounds] describes: the number of the
    shell and what the calls of [wait] give.  The loop has no end: after the rounds
    [init] has not exited. *)
Fixpoint init_rounds (rounds : list (Z * list (option Z))) : M uproc (option ending) :=
  match rounds with
  | [] => mret None
  | (pid, ws) :: rounds' =>
      u_write 1 printIntro1;;
      u_write 1 (printf no_str (cstring "%cinit: starting sh
%c") [YELLOW; LGREY]);;
      b ← u_fork answer init_child;
      if negb b then u_write 1 (printf no_str (cstring "%cinit: fork failed
%c") [LRED; LGREY]);; mret (Some (EExit 1))
      else init_wait pid ws;; init_rounds rounds'
  end.

Definition init_main (rounds : list (Z * list (option Z))) : M uproc (option ending) := init_fds;; init_rounds rounds.

(** ** The descriptors of the shell *)

Definition console_std : list fobj := replicate 3 (FFile console O_RDWR).

Definition con : option fobj := Some (FFile console O_RDWR).

(** The writes and waits of a round, and the whole of it, for the call number [k]
    of the process [id]. *)
Fixpoint wait_acts (pid : Z) (ws : list (option Z)) : list act :=
  AWait (std_table console_std) ::
  match ws with
  | Some w :: ws' => if w =? pid then [] else AWrite con (CYAN :: cstr (cstring "zombie!
") ++ [LGREY]) :: wait_acts pid ws'
  | _ => []
  end.

Definition shell_acts (c : list nat) : act :=
  if answer c then AFork [] (EExec sh_name [sh_name] (std_table console_std))
  else AFork [AWrite con (LRED :: cstr (cstring "init: exec sh failed
") ++ [LGREY])] (EExit 1).

Fixpoint init_acts (id : list nat) (k : nat) (rounds : list (Z * list (option Z))) : list act * option ending :=
  match rounds with
  | [] => ([], None)
  | (pid, ws) :: rounds' =>
      let start := [AWrite con printIntro1; AWrite con (YELLOW :: cstr (cstring "init: starting sh
") ++ [LGREY])] in
      if answer (k :: id) then
        let '(a, x) := init_acts id (S k) rounds' in (start ++ shell_acts (0%nat :: k :: id) :: wait_acts pid ws ++ a, x)
      else (start ++ [AWrite con (LRED :: cstr (cstring "init: fork failed
") ++ [LGREY])], Some (EExit 1))
  end.

(** When the console can be opened, at once or after [mknod], [init] has exactly
    the three descriptors that the shell expects, all of them the console. *)
Lemma init_fds_run id : answer (0%nat :: id) = true \/ answer (2%nat :: id) = true ->
  wp init_fds (fun _ s => exists k, s = UProc (std_table console_std) id k [] /\ (k = 1 \/ k = 3)%nat) (UProc (replicate 16 None) id 0 []).
Proof.
  intros H. unfold init_fds, u_open, ask, u_dup, new_fd, wp, mbind, M_bind, get, mret, M_ret. cbn [ucalls uid].
  destruct (answer (0%nat :: id)) eqn:A; [eexists; split; [done|by left]|]. destruct H as [H|H]; [done|]. simpl. rewrite H. eexists. split; [done|by right].
Qed.

Lemma wp_write1 text id k a (Q : unit -> uproc -> Prop) : Q tt (UProc (std_table console_std) id k (a ++ [AWrite con text])) ->
  wp (u_write 1 text) Q (UProc (std_table console_std) id k a).
Proof. done. Qed.

Lemma wp_init_wait pid ws id k : forall a (Q : unit -> uproc -> Prop), Q tt (UProc (std_table console_std) id k (a ++ wait_acts pid ws)) ->
  wp (init_wait pid ws) Q (UProc (std_table console_std) id k a).
Proof.
  induction ws as [|[w|] ws IH]; intros a Q HQ; [exact HQ| |exact HQ]. cbn [init_wait wait_acts] in *. destruct (w =? pid); [exact HQ|].
  wp_step. unfold u_wait at 1, act_now. wp_step. wp_step. wp_step. cbn [ufds uid ucalls uacts]. wp_step. apply wp_write1. apply IH. by rewrite <- !app_assoc.
Qed.

Lemma wp_init_rounds rounds id : forall k a (Q : option ending -> uproc -> Prop),
  (forall s', uacts s' = a ++ (init_acts id k rounds).1 -> ufds s' = std_table console_std -> Q (init_acts id k rounds).2 s') ->
  wp (init_rounds rounds) Q (UProc (std_table console_std) id k a).
Proof.
  induction rounds as [|[pid ws] rounds IH]; intros k a Q HQ; cbn [init_rounds init_acts] in *.
  - wp_step. apply HQ; [simpl; by rewrite app_nil_r|done].
  - wp_step. apply wp_write1. wp_step. apply wp_write1. wp_step. unfold u_fork at 1, ask. wp_step. unfold wp at 1. cbn [ucalls uid]. destruct (answer (k :: id)).
    + wp_step. wp_step. cbn [ufds set_ucalls]. assert (Hc : exists acts e s1, init_child (UProc (std_table console_std) (k :: id) 0 []) = Ret e s1 /\ uacts s1 = acts /\ AFork acts e = shell_acts (0%nat :: k :: id)).
      { unfold init_child, ask, shell_acts, mbind, M_bind, get. cbn [ucalls uid]. destruct (answer (0%nat :: k :: id)); (eexists _, _, _; split; [done|]; split; [done|done]). }
      destruct Hc as (acts & e & s1 & E & <- & Ea). rewrite E. wp_step. unfold act_now. wp_step. wp_step. simpl negb. cbv iota. wp_step. cbn [ufds uid ucalls uacts set_ucalls].
      apply wp_init_wait. destruct (init_acts id (S k) rounds) as [b x] eqn:Eb. apply IH. rewrite Eb. intros s' Hs Hf. apply HQ; [|done]. rewrite Hs, Ea. cbn [fst]. rewrite <- !app_assoc. done.
    + wp_step. simpl negb. cbv iota. wp_step. apply wp_write1. wp_step. apply HQ; [|done]. simpl. by rewrite <- !app_assoc.
Qed.

(** Init starts the shells.  When the console can be opened, at once or
    after [mknod], each shell starts with the three descriptors that it expects,
    all of them the console, and no other; [init] keeps its own, waits until the
    shell has ended and starts the next one, and exits only when it cannot
    fork. *)
Theorem init_correct rounds id : answer (0%nat :: id) = true \/ answer (2%nat :: id) = true -> exists k s',
  init_main rounds (UProc (replicate 16 None) id 0 []) = Ret (init_acts id k rounds).2 s' /\
  uacts s' = (init_acts id k rounds).1 /\ ufds s' = std_table console_std.
Proof.
  intros H. destruct (wp_inv _ _ _ (init_fds_run id H)) as ([] & s1 & E1 & k & -> & _). exists k.
  assert (W : wp (init_rounds rounds) (fun x s' => x = (init_acts id k rounds).2 /\ uacts s' = (init_acts id k rounds).1 /\ ufds s' = std_table console_std)
    (UProc (std_table console_std) id k [])) by (apply wp_init_rounds; by intros s' -> ->).
  destruct (wp_inv _ _ _ W) as (x & s' & E & -> & A & F). exists s'. split; [|done]. unfold init_main, mbind, M_bind. by rewrite E1.
Qed.
End init.

(** The shell with the number 2 ends, after an orphan with the number 5. *)
Lemma init_correct_witness : exists k s', init_main yes [(2, [Some 5; Some 2])] (UProc (replicate 16 None) [] 0 []) = Ret (init_acts yes [] k [(2, [Some 5; Some 2])]).2 s' /\
  uacts s' = (init_acts yes [] k [(2, [Some 5; Some 2])]).1 /\ ufds s' = std_table console_std.
Proof. apply init_correct. by left. Defined.
