(* ===== verification/Asm.v ===== *)
(** * The processor, for the assembly files

    The instructions that swtch.S, trapasm.S, the output of vectors.pl, usys.S,
    initcode.S and the end of entryother.S use, on the registers and a memory of
    bytes; and how the processor enters a handler and returns with [iret].  Every
    instruction is taken to succeed: the checks of descriptors and page tables
    are those of Segments.v and Vm.v. *)

From S2P Require Import Prelude Segments PhysMem.

Inductive reg := EAX | ECX | EDX | EBX | ESP | EBP | ESI | EDI.
Inductive sreg := DS | ES | FS | GS.

Record machine := Machine {
  eax : Z; ecx : Z; edx : Z; ebx : Z; esp : Z; ebp : Z; esi : Z; edi : Z;
  ds : Z; es : Z; fs : Z; gs : Z; ss : Z; cs : Z; eip : Z; eflags : Z; pdbr : Z;
  ram : Z -> Z
}.

Definition get_reg (r : reg) (m : machine) : Z :=
  match r with
  | EAX => eax m | ECX => ecx m | EDX => edx m | EBX => ebx m
  | ESP => esp m | EBP => ebp m | ESI => esi m | EDI => edi m
  end.

Definition set_reg (r : reg) (v : Z) '(Machine a c d b sp bp si di sd se sf sg s2 sc ip fl pb rm) : machine :=
  match r with
  | EAX => Machine v c d b sp bp si di sd se sf sg s2 sc ip fl pb rm
  | ECX => Machine a v d b sp bp si di sd se sf sg s2 sc ip fl pb rm
  | EDX => Machine a c v b sp bp si di sd se sf sg s2 sc ip fl pb rm
  | EBX => Machine a c d v sp bp si di sd se sf sg s2 sc ip fl pb rm
  | ESP => Machine a c d b v bp si di sd se sf sg s2 sc ip fl pb rm
  | EBP => Machine a c d b sp v si di sd se sf sg s2 sc ip fl pb rm
  | ESI => Machine a c d b sp bp v di sd se sf sg s2 sc ip fl pb rm
  | EDI => Machine a c d b sp bp si v sd se sf sg s2 sc ip fl pb rm
  end.

Definition get_sreg (r : sreg) (m : machine) : Z :=
  match r with DS => ds m | ES => es m | FS => fs m | GS => gs m end.

Definition set_sreg (r : sreg) (v : Z) '(Machine a c d b sp bp si di sd se sf sg s2 sc ip fl pb rm) : machine :=
  match r with
  | DS => Machine a c d b sp bp si di v se sf sg s2 sc ip fl pb rm
  | ES => Machine a c d b sp bp si di sd v sf sg s2 sc ip fl pb rm
  | FS => Machine a c d b sp bp si di sd se v sg s2 sc ip fl pb rm
  | GS => Machine a c d b sp bp si di sd se sf v s2 sc ip fl pb rm
  end.

Definition set_ss v '(Machine a c d b sp bp si di sd se sf sg s2 sc ip fl pb rm) := Machine a c d b sp bp si di sd se sf sg v sc ip fl pb rm.
Definition set_cs v '(Machine a c d b sp bp si di sd se sf sg s2 sc ip fl pb rm) := Machine a c d b sp bp si di sd se sf sg s2 v ip fl pb rm.
Definition set_eip v '(Machine a c d b sp bp si di sd se sf sg s2 sc ip fl pb rm) := Machine a c d b sp bp si di sd se sf sg s2 sc v fl pb rm.
Definition set_eflags v '(Machine a c d b sp bp si di sd se sf sg s2 sc ip fl pb rm) := Machine a c d b sp bp si di sd se sf sg s2 sc ip v pb rm.
Definition set_pdbr v '(Machine a c d b sp bp si di sd se sf sg s2 sc ip fl pb rm) := Machine a c d b sp bp si di sd se sf sg s2 sc ip fl v rm.
Definition set_ram v '(Machine a c d b sp bp si di sd se sf sg s2 sc ip fl pb rm) := Machine a c d b sp bp si di sd se sf sg s2 sc ip fl pb v.

(** ** Instructions *)

(** [pushl] of a segment register stores the selector with zeros above it. *)
Inductive instr :=
  | PushI (v : Z) | PushR (r : reg) | PushS (r : sreg) | Pushal
  | PopR (r : reg) | PopS (r : sreg) | Popal
  | MovI (r : reg) (v : Z)            (* movl $v, r *)
  | MovW (v : Z)                      (* movw $v, %ax *)
  | MovS (r : sreg)                   (* movw %ax, r *)
  | MovR (src dst : reg)              (* movl src, dst *)
  | Load (off : Z) (base dst : reg)   (* movl off(base), dst *)
  | Store (src base : reg)            (* movl src, (base) *)
  | LoadA (a : Z) (dst : reg)         (* movl (a), dst *)
  | Cr3 (r : reg)                     (* movl r, %cr3 *)
  | AddI (v : Z) (r : reg)            (* addl $v, r *)
  | Jmp (a : Z)
  | Call (a next : Z)                 (* next: the instruction after the call *)
  | CallA (a next : Z)                (* call *(a) *)
  | Ret_
  | Iret.

Definition push (v : Z) (m : machine) : machine :=
  let a := u32 (esp m - 4) in set_ram (store a (le_bytes 4 v) (ram m)) (set_reg ESP a m).

Definition top (m : machine) : Z := mem32 (ram m) (esp m).
Definition drop_top (m : machine) : machine := set_reg ESP (u32 (esp m + 4)) m.

Definition pushal (m : machine) : machine :=
  foldl (fun x v => push v x) m [eax m; ecx m; edx m; ebx m; esp m; ebp m; esi m; edi m].

(** [popal] ignores the word for %esp. *)
Definition pop_to (r : reg) (m : machine) : machine := set_reg r (top m) (drop_top m).
Definition popal (m : machine) : machine :=
  foldl (fun x o => match o with Some r => pop_to r x | None => drop_top x end) m
    [Some EDI; Some ESI; Some EBP; None; Some EBX; Some EDX; Some ECX; Some EAX].

(** The privilege level of the code that runs. *)
Definition cpl (m : machine) : Z := Z.land (cs m) 3.

(** [iret] takes the stack of the interrupted code from the frame exactly when it
    goes to a lower privilege. *)
Definition iret (m : machine) : machine :=
  let m1 := set_eip (top m) (drop_top m) in
  let m2 := set_cs (u16 (top m1)) (drop_top m1) in
  let m3 := set_eflags (top m2) (drop_top m2) in
  if cpl m <? cpl m3 then
    let sp := top m3 in
    let m4 := drop_top m3 in
    set_reg ESP sp (set_ss (u16 (top m4)) m4)
  else m3.

Definition step (i : instr) (m : machine) : machine :=
  match i with
  | PushI v => push v m
  | PushR r => push (get_reg r m) m
  | PushS r => push (get_sreg r m) m
  | Pushal => pushal m
  | PopR r => pop_to r m
  | PopS r => set_sreg r (u16 (top m)) (drop_top m)
  | Popal => popal m
  | MovI r v => set_reg r v m
  | MovW v => set_reg EAX (eax m - u16 (eax m) + v) m
  | MovS r => set_sreg r (u16 (eax m)) m
  | MovR src dst => set_reg dst (get_reg src m) m
  | Load off base dst => set_reg dst (mem32 (ram m) (get_reg base m + off)) m
  | Store src base => set_ram (store (get_reg base m) (le_bytes 4 (get_reg src m)) (ram m)) m
  | LoadA a dst => set_reg dst (mem32 (ram m) a) m
  | Cr3 r => set_pdbr (get_reg r m) m
  | AddI v r => set_reg r (u32 (get_reg r m + v)) m
  | Jmp a => set_eip a m
  | Call a next => set_eip a (push next m)
  | CallA a next => set_eip (mem32 (ram m) a) (push next m)
  | Ret_ => set_eip (top m) (drop_top m)
  | Iret => iret m
  end.

(** Code without branches. *)
Definition run (code : list instr) (m : machine) : machine := foldl (fun x i => step i x) m code.

(** ** Entering a handler *)

Definition FL_TF : Z := 0x100.
Definition FL_NT : Z := 0x4000.
Definition FL_RF : Z := 0x10000.
Definition FL_VM : Z := 0x20000.

(** The flags in the handler: an interrupt gate also clears the interrupt flag. *)
Definition entry_flags (g : gateview) (fl : Z) : Z :=
  Z.land fl (Z.lnot (Z.lor (Z.lor FL_TF FL_NT) (Z.lor (Z.lor FL_RF FL_VM) (if w_trap g then 0 else Proc.FL_IF)))).

(** An interrupt or exception through the gate [g] into the kernel: from user mode
    the processor takes the stack [ss0]:[esp0] of the task state.  [err] is the
    error code, for the exceptions that have one. *)
Definition deliver (g : gateview) (ss0 esp0 : Z) (err : option Z) (m : machine) : machine :=
  let words := [eflags m; cs m; eip m] ++ match err with Some e => [e] | None => [] end in
  let m1 :=
    if 0 <? cpl m then foldl (fun x v => push v x) (set_reg ESP esp0 (set_ss ss0 m)) ([ss m; esp m] ++ words)
    else foldl (fun x v => push v x) m words in
  set_eflags (entry_flags g (eflags m)) (set_cs (w_sel g) (set_eip (w_off g) m1)).

(** ** Words in memory *)

Lemma length_fetch m a n : length (fetch m a n) = Z.to_nat n.
Proof. unfold fetch. by rewrite length_fmap, length_seqZ. Qed.

Lemma fetch_store_eq m a v : fetch (store a (le_bytes 4 v) m) a 4 = le_bytes 4 v.
Proof.
  assert (L : zlen (le_bytes 4 v) = 4) by apply zlen_le_bytes. apply (rd_ext 0); [by rewrite length_fetch|].
  intros i Hi. rewrite zlen_fetch in Hi by lia. rewrite rd_fetch by lia. unfold store. rewrite L.
  replace (u32 (u32 (a + i) - a)) with i by mlia. by rewrite decide_True by lia.
Qed.

Lemma mem32_store_eq m a v : is_u32 v -> mem32 (store a (le_bytes 4 v) m) a = v.
Proof. intros Hv. unfold mem32. rewrite fetch_store_eq. by apply le_word_bytes_u32. Qed.

Lemma mem32_ext m m' a : (forall i, 0 <= i < 4 -> m' (u32 (a + i)) = m (u32 (a + i))) -> mem32 m' a = mem32 m a.
Proof.
  intros H. unfold mem32. f_equal. apply (rd_ext 0); [by rewrite !length_fetch|].
  intros i Hi. rewrite zlen_fetch in Hi by lia. rewrite !rd_fetch by lia. by apply H.
Qed.

Lemma mem32_store_ne m a v b : 4 <= u32 (b - a) <= 2 ^ 32 - 4 -> mem32 (store a (le_bytes 4 v) m) b = mem32 m b.
Proof.
  intros H. apply mem32_ext. intros i Hi. unfold store. replace (zlen (le_bytes 4 v)) with 4 by (symmetry; apply zlen_le_bytes).
  rewrite decide_False; [done|]. mlia.
Qed.

(** The words [ws] from the address [a] on. *)
Fixpoint words_at (m : Z -> Z) (a : Z) (ws : list Z) : Prop :=
  match ws with
  | [] => True
  | w :: ws' => mem32 m a = w /\ words_at m (a + 4) ws'
  end.

(** [m'] differs from [m] only from [lo] up to [hi]. *)
Definition outside (lo hi : Z) (m m' : Z -> Z) : Prop := forall x, is_u32 x -> ~ lo <= x < hi -> m' x = m x.

Lemma words_at_outside lo hi m m' ws : forall a, outside lo hi m m' -> 0 <= a -> a + 4 * zlen ws <= 2 ^ 32 -> a + 4 * zlen ws <= lo \/ hi <= a ->
  words_at m a ws -> words_at m' a ws.
Proof.
  induction ws as [|w ws IH]; intros a O Ha He Hd; [done|]. rewrite zlen_cons in *. assert (L := zlen_nonneg ws). intros [<- W]. split.
  - apply mem32_ext. intros i Hi. rewrite u32_id by mlia. apply O; mlia.
  - apply IH; [done|lia|lia|lia|done].
Qed.

Lemma words_at_app m ws1 ws2 : forall a, words_at m a (ws1 ++ ws2) <-> words_at m a ws1 /\ words_at m (a + 4 * zlen ws1) ws2.
Proof.
  induction ws1 as [|w ws1 IH]; intros a; [rewrite Z.add_0_r; simpl; tauto|]. cbn [app words_at]. rewrite IH, zlen_cons.
  replace (a + 4 * (zlen ws1 + 1)) with (a + 4 + 4 * zlen ws1) by lia. tauto.
Qed.

Lemma words_at_lookup m ws i w : forall a, words_at m a ws -> ws !! i = Some w -> mem32 m (a + 4 * Z.of_nat i) = w.
Proof.
  revert i. induction ws as [|v ws IH]; intros i a; [done|]. intros [E W]. destruct i as [|i]; simpl.
  - intros [= <-]. by rewrite Z.add_0_r.
  - intros Hi. rewrite <- (IH i (a + 4) W Hi). f_equal. lia.
Qed.

(** Words that are pushed one after the other. *)
Lemma pushes vs : forall m ws, Forall is_u32 vs -> 4 * zlen vs <= esp m < 2 ^ 32 -> esp m + 4 * zlen ws <= 2 ^ 32 -> words_at (ram m) (esp m) ws ->
  exists rm, foldl (fun x v => push v x) m vs = set_ram rm (set_reg ESP (esp m - 4 * zlen vs) m) /\
    words_at rm (esp m - 4 * zlen vs) (reverse vs ++ ws) /\ outside (esp m - 4 * zlen vs) (esp m) (ram m) rm.
Proof.
  induction vs as [|v vs IH]; intros m ws Hv Hs He W.
  - exists (ram m). rewrite Z.sub_0_r. split; [by destruct m|]. by split.
  - inversion_clear Hv as [|? ? Hv0 Hv']. rewrite zlen_cons in *. assert (L := zlen_nonneg vs). assert (L' := zlen_nonneg ws).
    cbn [foldl]. destruct (IH (push v m) (v :: ws)) as (rm & E & W' & O).
    + done.
    + destruct m; cbn [esp push set_ram set_reg] in *. rewrite u32_id by mlia. mlia.
    + rewrite zlen_cons. destruct m; cbn [esp push set_ram set_reg] in *. rewrite u32_id by mlia. mlia.
    + destruct m; cbn [esp push set_ram set_reg ram] in *. rewrite u32_id by mlia. split; [by apply mem32_store_eq|].
      apply (words_at_outside (esp0 - 4) esp0 ram0); [|lia|lia|lia|by rewrite Z.sub_add].
      intros x Hx Hn. rewrite store_at by (rewrite ?zlen_le_bytes; mlia). rewrite zlen_le_bytes. by rewrite decide_False by lia.
    + exists rm. rewrite E. destruct m; cbn [esp push set_ram set_reg ram] in *. rewrite (u32_id (esp0 - 4)) in * by mlia.
      replace (esp0 - 4 - 4 * zlen vs) with (esp0 - 4 * (zlen vs + 1)) in * by lia. split; [done|]. split; [rewrite reverse_cons, <- app_assoc; exact W'|].
      intros x Hx Hn. rewrite O by (done || lia). rewrite store_at by (rewrite ?zlen_le_bytes; mlia). rewrite zlen_le_bytes. by rewrite decide_False by lia.
Qed.
