(* ===== verification/Switch.v ===== *)
(** * The assembly of the kernel (swtch.S, trapasm.S, vectors.pl, usys.S, initcode.S)

    The code as instructions of Asm.v: the switch between kernel stacks, the entry
    and the exit of traps, and the stubs of the system calls.  The theorems say
    that the frames which this code builds are the structures of C that Proc.v and
    Trap.v use, and that it gives every register back. *)

From S2P Require Import Prelude Param Mmu Layout Segments FileOps Kalloc Vm Proc ProcMemory Trap PhysMem Asm.

(** ** The code *)

(** swtch.S *)
Definition swtch : list instr :=
  [Load 4 ESP EAX; Load 8 ESP EDX;
   PushR EBP; PushR EBX; PushR ESI; PushR EDI;
   Store ESP EAX; MovR EDX ESP;
   PopR EDI; PopR ESI; PopR EBX; PopR EBP; Ret_].

(** The exceptions for which vectors.pl leaves out the 0. *)
Definition has_err (i : Z) : bool := (i =? 8) || ((10 <=? i) && (i <=? 14)) || (i =? 17).

(** [trapret] of trapasm.S *)
Definition trapret_code : list instr := [Popal; PopS GS; PopS FS; PopS ES; PopS DS; AddI 8 ESP; Iret].

(** The instructions after [call trap]. *)
Definition after_trap_code : list instr := AddI 4 ESP :: trapret_code.

Section code.
(** The addresses of [alltraps], of [trap] and of the instruction after the call. *)
Context (alltraps trap_addr after_trap : Z).

Definition vector (i : Z) : list instr := (if has_err i then [] else [PushI 0]) ++ [PushI i; Jmp alltraps].

Definition alltraps_code : list instr :=
  [PushS DS; PushS ES; PushS FS; PushS GS; Pushal;
   MovW (Z.shiftl SEG_KDATA 3); MovS DS; MovS ES;
   PushR ESP; Call trap_addr after_trap].
End code.

(** [SYSCALL(name)] of usys.S up to [int], and after it *)
Definition stub (num : Z) : list instr := [MovI EAX num].
Definition stub_end : list instr := [Ret_].

Definition SYS_exec : Z := 7.

(** [start] of initcode.S up to [int], for the addresses of [argv] and [init] *)
Definition initcode_start (argv init : Z) : list instr := [PushI argv; PushI init; PushI 0; MovI EAX SYS_exec].

#[local] Opaque mem32 store.

(** ** Frames *)

(** The registers hold words and the selectors half words. *)
Definition sane (m : machine) : Prop :=
  Forall is_u32 [eax m; ecx m; edx m; ebx m; esp m; ebp m; esi m; edi m; eip m; eflags m] /\
  Forall is_u16 [ds m; es m; fs m; gs m; ss m; cs m].

(** [struct trapframe] for the interrupted code [u]: the last two words are there
    when it was a user program. *)
Definition frame (u : machine) (oesp trapno err : Z) : list Z :=
  [edi u; esi u; ebp u; oesp; ebx u; edx u; ecx u; eax u; gs u; fs u; es u; ds u; trapno; err; eip u; cs u; eflags u] ++
  (if 0 <? cpl u then [esp u; ss u] else []).

(** [struct context] *)
Definition context (u : machine) (ret : Z) : list Z := [edi u; esi u; ebx u; ebp u; ret].

Lemma words_at_intro m ws : forall a, (forall i w, ws !! i = Some w -> mem32 m (a + 4 * Z.of_nat i) = w) -> words_at m a ws.
Proof.
  induction ws as [|w ws IH]; intros a H; [done|]. split; [by rewrite <- (H 0%nat w eq_refl), Z.add_0_r|].
  apply IH. intros i v Hi. rewrite <- (H (S i) v Hi). f_equal. lia.
Qed.

Lemma u16_u32 x : is_u16 x -> is_u32 x.
Proof. mlia. Qed.

(** ** swtch *)

(** A call [swtch(old, new)]: the arguments are on the stack, and the words that it
    writes, [*old] and four words of the stack, are not those of the new context. *)
Record calls_swtch (m : machine) (ret old new : Z) (ctx : list Z) : Prop := {
  sw_sane : sane m;
  sw_args : words_at (ram m) (esp m) [ret; old; new];
  sw_ctx : words_at (ram m) new ctx;
  sw_len : length ctx = 5%nat;
  sw_stack : 16 <= esp m /\ esp m + 12 <= 2 ^ 32;
  sw_old : 0 <= old /\ old + 4 <= 2 ^ 32 /\ (old + 4 <= esp m - 16 \/ esp m + 4 <= old);
  sw_new : 0 <= new /\ new + 20 < 2 ^ 32 /\ (new + 20 <= esp m - 16 \/ esp m <= new) /\ (new + 20 <= old \/ old + 4 <= new)
}.

Lemma store_outside a v m : 0 <= a -> a + 4 <= 2 ^ 32 -> outside a (a + 4) m (store a (le_bytes 4 v) m).
Proof.
  intros H0 H1 x Hx Hn. assert (L := zlen_le4 v). rewrite store_at by (try done; lia). rewrite L. by rewrite decide_False by lia.
Qed.

Lemma run_app c1 c2 m : run (c1 ++ c2) m = run c2 (run c1 m).
Proof. apply foldl_app. Qed.

(** The last five instructions of [swtch]. *)
Lemma pop_context m c_edi c_esi c_ebx c_ebp c_eip : 0 <= esp m -> esp m + 20 < 2 ^ 32 -> words_at (ram m) (esp m) [c_edi; c_esi; c_ebx; c_ebp; c_eip] ->
  run [PopR EDI; PopR ESI; PopR EBX; PopR EBP; Ret_] m =
  set_eip c_eip (set_reg EBP c_ebp (set_reg EBX c_ebx (set_reg ESI c_esi (set_reg EDI c_edi (set_reg ESP (esp m + 20) m))))).
Proof.
  intros H0 H1 (W0 & W1 & W2 & W3 & W4 & _).
  destruct m as [a c d b sp bp si di sd se sf sg s2 sc ip fl pb rm]; cbn [esp ram] in *.
  unfold run; cbn [foldl step pop_to set_reg set_eip drop_top top esp ram]. unfold top; cbn [esp ram].
  rewrite (u32_id (sp + 4)) by mlia. rewrite (u32_id (sp + 4 + 4)) by mlia. rewrite (u32_id (sp + 4 + 4 + 4)) by mlia.
  rewrite (u32_id (sp + 4 + 4 + 4 + 4)) by mlia. rewrite (u32_id (sp + 4 + 4 + 4 + 4 + 4)) by mlia. rewrite W0, W1, W2, W3, W4. f_equal. lia.
Qed.

Lemma swtch_run m ret old new ctx : calls_swtch m ret old new ctx -> exists c_edi c_esi c_ebx c_ebp c_eip rm, ctx = [c_edi; c_esi; c_ebx; c_ebp; c_eip] /\
  run swtch m = set_ram rm (set_eip c_eip (set_reg EBP c_ebp (set_reg EBX c_ebx (set_reg ESI c_esi (set_reg EDI c_edi
    (set_reg ESP (new + 20) (set_reg EDX new (set_reg EAX old m)))))))) /\
  words_at rm (esp m - 16) (context m ret) /\ mem32 rm old = esp m - 16 /\
  (forall x, is_u32 x -> ~ esp m - 16 <= x < esp m -> ~ old <= x < old + 4 -> rm x = ram m x).
Proof.
  intros [[Su _] A C L S O N]. destruct ctx as [|c0 [|c1 [|c2 [|c3 [|c4 [|]]]]]]; try discriminate L. clear L.
  destruct A as (A0 & A1 & A2 & _).
  assert (E : run swtch m = run (drop 6 swtch) (foldl (fun x v => push v x) (set_reg EDX new (set_reg EAX old m)) [ebp m; ebx m; esi m; edi m])).
  { change swtch with (take 6 swtch ++ drop 6 swtch) at 1. rewrite run_app. apply (f_equal (run (drop 6 swtch))). replace (esp m + 4 + 4) with (esp m + 8) in A2 by lia.
    destruct m. unfold run. cbn [take swtch foldl step get_reg set_reg Asm.esp Asm.ram] in *. rewrite A1, A2. reflexivity. }
  rewrite E. clear E.
  rewrite !Forall_cons in Su. destruct Su as (_ & _ & _ & U3 & U4 & U5 & U6 & U7 & _).
  assert (X1 : esp (set_reg EDX new (set_reg EAX old m)) = esp m) by (by destruct m).
  assert (X2 : ram (set_reg EDX new (set_reg EAX old m)) = ram m) by (by destruct m).
  destruct (pushes [ebp m; ebx m; esi m; edi m] (set_reg EDX new (set_reg EAX old m)) [ret]) as (rm & E1 & W & Out).
  { by rewrite !Forall_cons. } { rewrite X1. change (4 * zlen _) with 16. lia. } { rewrite X1. change (4 * zlen _) with 4. lia. } { by rewrite X1, X2. }
  rewrite X1, X2 in *. clear X1 X2. change (4 * zlen [ebp m; ebx m; esi m; edi m]) with 16 in *.
  set (rm2 := store old (le_bytes 4 (esp m - 16)) rm). assert (Out2 : outside old (old + 4) rm rm2) by (apply store_outside; lia).
  exists c0, c1, c2, c3, c4, rm2. split; [reflexivity|]. rewrite E1. clear E1. change (drop 6 swtch) with ([Store ESP EAX; MovR EDX ESP] ++ [PopR EDI; PopR ESI; PopR EBX; PopR EBP; Ret_]).
  rewrite run_app.
  assert (E2 : run [Store ESP EAX; MovR EDX ESP] (set_ram rm (set_reg ESP (esp m - 16) (set_reg EDX new (set_reg EAX old m)))) =
    set_ram rm2 (set_reg ESP new (set_reg EDX new (set_reg EAX old m)))) by (by destruct m).
  rewrite E2. clear E2.
  split; [|split; [|split]].
  - rewrite (pop_context _ c0 c1 c2 c3 c4); [by destruct m|destruct m; simpl; lia|destruct m; simpl; lia|].
    assert (Y : forall k, esp (set_ram rm2 (set_reg ESP new k)) = new /\ ram (set_ram rm2 (set_reg ESP new k)) = rm2) by (by intros []).
    destruct (Y (set_reg EDX new (set_reg EAX old m))) as [-> ->].
    eapply (words_at_outside old (old + 4) rm); [done|lia|change (zlen [c0; c1; c2; c3; c4]) with 5; lia|change (zlen [c0; c1; c2; c3; c4]) with 5; lia|].
    eapply (words_at_outside (esp m - 16) (esp m) (ram m)); [done|lia|change (zlen [c0; c1; c2; c3; c4]) with 5; lia|change (zlen [c0; c1; c2; c3; c4]) with 5; lia|done].
  - eapply (words_at_outside old (old + 4) rm); [done|lia| | |exact W]; change (zlen (context m ret)) with 5; lia.
  - apply mem32_store_eq. mlia.
  - intros x Hx N1 N2. rewrite Out2, Out by done. done.
Qed.

(** C10: a switch is resumed.  A process that calls [swtch] continues, when some
    other code later switches to the context that was saved in [*old] and the
    stack of the process has not been touched, right after its call: with its
    stack pointer, %ebx, %esi, %edi and %ebp as if [swtch] had only returned. *)
Theorem swtch_resumes m ret old new ctx m2 ret2 old2 ctx2 : calls_swtch m ret old new ctx ->
  let saved := mem32 (ram (run swtch m)) old in
  calls_swtch m2 ret2 old2 saved ctx2 -> (forall x, esp m - 16 <= x < esp m + 4 -> ram m2 x = ram (run swtch m) x) ->
  let r := step Ret_ m in let m3 := run swtch m2 in
  eip m3 = eip r /\ esp m3 = esp r /\ ebx m3 = ebx r /\ esi m3 = esi r /\ edi m3 = edi r /\ ebp m3 = ebp r.
Proof.
  intros C1 saved C2 Same r m3. subst saved r m3. destruct (swtch_run _ _ _ _ _ C1) as (a0 & a1 & a2 & a3 & a4 & rm & _ & E1 & W & O & _).
  assert (Er : ram (run swtch m) = rm) by (rewrite E1; by destruct m). rewrite Er, O in *. clear Er E1.
  destruct (swtch_run _ _ _ _ _ C2) as (b0 & b1 & b2 & b3 & b4 & rm' & -> & E2 & _).
  assert (W2 : words_at (ram m2) (esp m - 16) (context m ret)).
  { apply words_at_intro. intros i w Hi. rewrite <- (words_at_lookup _ _ _ _ _ W Hi). apply mem32_ext. intros j Hj. apply Same.
    assert (Hl := lookup_lt_Some _ _ _ Hi). simpl in Hl. destruct C1. rewrite u32_id by mlia. lia. }
  assert (X := sw_ctx _ _ _ _ _ C2). simpl in X, W2. destruct X as (X0 & X1 & X2 & X3 & X4 & _), W2 as (Y0 & Y1 & Y2 & Y3 & Y4 & _).
  assert (Hr := proj1 (sw_args _ _ _ _ _ C1)). assert (Hs := sw_stack _ _ _ _ _ C1). rewrite E2. clear E2 C1 C2.
  destruct m2, m; cbn [set_ram set_eip set_reg step top drop_top Asm.esp Asm.eip Asm.ebx Asm.esi Asm.edi Asm.ebp Asm.ram] in *. rewrite (u32_id (_ + 4)) by mlia. unfold top. cbn [Asm.ram Asm.esp]. repeat split; congruence || lia.
Qed.

(** ** Traps *)

Definition kdata : Z := Z.shiftl SEG_KDATA 3.

(** The stack on which the handler of [u] starts, and the words of its frame that
    the processor and the entry of vectors.pl push. *)
Definition handler_stack (u : machine) (esp0 : Z) : Z := if 0 <? cpl u then esp0 else esp u.
Definition pushed_first (u : machine) (n e : Z) : list Z :=
  (if 0 <? cpl u then [ss u; esp u] else []) ++ [eflags u; cs u; eip u; e; n].

Lemma run_cons i c m : run (i :: c) m = run c (step i m).
Proof. done. Qed.

Lemma push_at_entry v x y z m : push v (set_eflags x (set_cs y (set_eip z m))) = set_eflags x (set_cs y (set_eip z (push v m))).
Proof. by destruct m. Qed.

Lemma jmp_at_entry a x y z m : set_eip a (set_eflags x (set_cs y (set_eip z m))) = set_eip a (set_eflags x (set_cs y m)).
Proof. by destruct m. Qed.

(** The processor and the entry of vectors.pl. *)
Lemma vector_run alltraps g ss0 esp0 n e u : (has_err n = false -> e = 0) ->
  run (vector alltraps n) (deliver g ss0 esp0 (if has_err n then Some e else None) u) =
  set_eip alltraps (set_eflags (entry_flags g (eflags u)) (set_cs (w_sel g)
    (foldl (fun x v => push v x) (if 0 <? cpl u then set_reg ESP esp0 (set_ss ss0 u) else u) (pushed_first u n e)))).
Proof.
  intros He. unfold vector, deliver, pushed_first. destruct (has_err n); [|rewrite He by done]; destruct (0 <? cpl u); rewrite ?app_assoc; cbn [app];
    rewrite ?run_cons; cbn [step]; rewrite ?push_at_entry, jmp_at_entry; reflexivity.
Qed.

(** The first instructions of [alltraps]. *)
Definition save_regs : list instr := [PushS DS; PushS ES; PushS FS; PushS GS; Pushal].

Lemma save_run m : 16 <= esp m < 2 ^ 32 -> run save_regs m =
  foldl (fun x v => push v x) m [ds m; es m; fs m; gs m; eax m; ecx m; edx m; ebx m; esp m - 16; ebp m; esi m; edi m].
Proof.
  intros Hs. set (m4 := foldl (fun x v => push v x) m [ds m; es m; fs m; gs m]).
  assert (E4 : run [PushS DS; PushS ES; PushS FS; PushS GS] m = m4) by (by destruct m).
  assert (Es : esp m4 = esp m - 16).
  { subst m4. clear E4. destruct m. cbn [foldl push set_reg set_ram Asm.esp] in *.
    rewrite !u32_id by mlia. lia. }
  change save_regs with ([PushS DS; PushS ES; PushS FS; PushS GS] ++ [Pushal]). rewrite run_app, E4. change (run [Pushal] m4) with (pushal m4). unfold pushal. rewrite Es.
  assert (R : eax m4 = eax m /\ ecx m4 = ecx m /\ edx m4 = edx m /\ ebx m4 = ebx m /\ ebp m4 = ebp m /\ esi m4 = esi m /\ edi m4 = edi m) by (subst m4; clear; by destruct m).
  destruct R as (-> & -> & -> & -> & -> & -> & ->). symmetry.
  exact (foldl_app _ [ds m; es m; fs m; gs m] [eax m; ecx m; edx m; ebx m; esp m - 16; ebp m; esi m; edi m] m).
Qed.

(** The registers at the call of [trap]. *)
Definition in_trap (u : machine) (g : gateview) (ss0 trap_addr tf : Z) (rm : Z -> Z) : machine :=
  Machine (eax u - u16 (eax u) + kdata) (ecx u) (edx u) (ebx u) (tf - 8) (ebp u) (esi u) (edi u) kdata kdata (fs u) (gs u)
    (if 0 <? cpl u then ss0 else ss u) (w_sel g) trap_addr (entry_flags g (eflags u)) (pdbr u) rm.

(** The registers that [alltraps] saves. *)
Definition savable (m : machine) : Prop :=
  Forall is_u32 [eax m; ecx m; edx m; ebx m; ebp m; esi m; edi m] /\ Forall is_u16 [ds m; es m; fs m; gs m].

Lemma alltraps_run trap_addr after m : 64 <= esp m < 2 ^ 32 -> savable m -> is_u32 after -> forall ws, words_at (ram m) (esp m) ws -> esp m + 4 * zlen ws <= 2 ^ 32 ->
  exists rm, run (alltraps_code trap_addr after) m =
    Machine (eax m - u16 (eax m) + kdata) (ecx m) (edx m) (ebx m) (esp m - 56) (ebp m) (esi m) (edi m) kdata kdata (fs m) (gs m) (ss m) (cs m) trap_addr (eflags m) (pdbr m) rm /\
    words_at rm (esp m - 56) ([after; esp m - 48; edi m; esi m; ebp m; esp m - 16; ebx m; edx m; ecx m; eax m; gs m; fs m; es m; ds m] ++ ws) /\
    outside (esp m - 56) (esp m) (ram m) rm.
Proof.
  intros Hs [Su Sh] Ha ws W We. rewrite !Forall_cons in Su. rewrite !Forall_cons in Sh. destruct Su as (U0 & U1 & U2 & U3 & U5 & U6 & U7 & _), Sh as (H0 & H1 & H2 & H3 & _).
  change (alltraps_code trap_addr after) with (save_regs ++ [MovW kdata; MovS DS; MovS ES] ++ [PushR ESP; Call trap_addr after]). rewrite !run_app, save_run by lia.
  destruct (pushes [ds m; es m; fs m; gs m; eax m; ecx m; edx m; ebx m; esp m - 16; ebp m; esi m; edi m] m ws) as (r1 & E1 & W1 & O1); [|change (4 * zlen _) with 48; lia|lia|done|].
  { repeat apply Forall_cons_2; try done; try (by apply u16_u32); mlia. }
  change (4 * zlen [ds m; _; _; _; _; _; _; _; _; _; _; _]) with 48 in *. rewrite E1. clear E1.
  set (k := Machine (eax m - u16 (eax m) + kdata) (ecx m) (edx m) (ebx m) (esp m - 48) (ebp m) (esi m) (edi m) kdata kdata (fs m) (gs m) (ss m) (cs m) (eip m) (eflags m) (pdbr m) r1).
  assert (Ek : run [MovW kdata; MovS DS; MovS ES] (set_ram r1 (set_reg ESP (esp m - 48) m)) = k).
  { assert (K : u16 (eax m - u16 (eax m) + kdata) = kdata) by (change kdata with 16; mlia). subst k. clear -K. destruct m. unfold run.
    cbn [foldl step set_reg set_ram set_sreg Asm.eax Asm.ecx] in *. rewrite K. reflexivity. }
  rewrite Ek. clear Ek. destruct (pushes [esp m - 48; after] k (reverse [ds m; es m; fs m; gs m; eax m; ecx m; edx m; ebx m; esp m - 16; ebp m; esi m; edi m] ++ ws)) as (r2 & E2 & W2 & O2).
  { repeat apply Forall_cons_2; try done; mlia. }
  { cbn [esp k]. change (4 * zlen _) with 8. lia. }
  { cbn [esp k]. rewrite zlen_app. change (zlen (reverse _)) with 12. lia. } { exact W1. }
  cbn [esp ram k] in *. change (4 * zlen [esp m - 48; after]) with 8 in *. exists r2. replace (esp m - 48 - 8) with (esp m - 56) in * by lia. split; [|split].
  - change (run [PushR ESP; Call trap_addr after] k) with (set_eip trap_addr (foldl (fun x v => push v x) k [esp m - 48; after])). rewrite E2. reflexivity.
  - exact W2.
  - intros x Hx Hn. rewrite O2, O1 by (done || lia). done.
Qed.

Lemma zlen_frame u o n e : zlen (frame u o n e) = 12 + zlen (pushed_first u n e).
Proof. unfold frame, pushed_first. by destruct (0 <? cpl u). Qed.

Lemma frame_pushed u o n e : frame u o n e =
  [edi u; esi u; ebp u; o; ebx u; edx u; ecx u; eax u; gs u; fs u; es u; ds u] ++ reverse (pushed_first u n e).
Proof. unfold frame, pushed_first. by destruct (0 <? cpl u). Qed.

Definition frame_size (u : machine) : Z := if 0 <? cpl u then sizeof_trapframe else sizeof_trapframe - 8.

Lemma frame_size_eq u n e : frame_size u = 48 + 4 * zlen (pushed_first u n e).
Proof. unfold frame_size, pushed_first. by destruct (0 <? cpl u). Qed.

(** A trap through the gate [g]: [trap] is called with the address of a frame that
    holds every register of the interrupted code. *)
Lemma trap_enters alltraps trap_addr after g ss0 esp0 n e u : sane u -> is_u32 after -> 0 <= n < 256 -> is_u32 e -> (has_err n = false -> e = 0) ->
  let S := handler_stack u esp0 in let tf := S - frame_size u in 100 <= S < 2 ^ 32 ->
  exists rm, run (vector alltraps n ++ alltraps_code trap_addr after) (deliver g ss0 esp0 (if has_err n then Some e else None) u) = in_trap u g ss0 trap_addr tf rm /\
    words_at rm (tf - 8) (after :: tf :: frame u (tf + 32) n e) /\ outside (tf - 8) S (ram u) rm.
Proof.
  intros [Su Sh] Ha Hn He Hz S tf HS. rewrite run_app, vector_run by done. set (B := if 0 <? cpl u then _ else u).
  assert (EB : esp B = S /\ ram B = ram u) by (subst B S; unfold handler_stack; destruct (0 <? cpl u); by destruct u). destruct EB as [EB RB].
  rewrite !Forall_cons in Su. rewrite !Forall_cons in Sh.
  destruct Su as (U0 & U1 & U2 & U3 & U4 & U5 & U6 & U7 & U8 & U9 & _), Sh as (H0 & H1 & H2 & H3 & H4 & H5 & _).
  assert (Lp : zlen (pushed_first u n e) <= 7) by (unfold pushed_first; by destruct (0 <? cpl u)).
  assert (L0 := zlen_nonneg (pushed_first u n e)). assert (Ef := frame_size_eq u n e). destruct (pushes (pushed_first u n e) B []) as (r1 & E1 & W1 & O1).
  { unfold pushed_first. apply Forall_app. split; [destruct (0 <? cpl u); repeat apply Forall_cons_2; try done; by apply u16_u32|].
    repeat apply Forall_cons_2; try done; [by apply u16_u32|mlia]. }
  { rewrite EB. lia. } { rewrite EB. change (zlen []) with 0. lia. } { done. }
  rewrite E1, EB, RB in *. clear E1. set (K := set_eip alltraps _).
  assert (EK : esp K = S - 4 * zlen (pushed_first u n e) /\ ram K = r1) by (subst K; by destruct B). destruct EK as [EK RK].
  destruct (alltraps_run trap_addr after K) with (ws := reverse (pushed_first u n e)) as (r2 & E2 & W2 & O2); [rewrite EK; lia| |done| | |].
  { subst K B. destruct (0 <? cpl u); destruct u; split; repeat apply Forall_cons_2; done. }
  { rewrite RK, EK. by rewrite app_nil_r in W1. }
  { rewrite EK. unfold zlen. rewrite length_reverse. fold (zlen (pushed_first u n e)). lia. }
  rewrite EK, RK in *. assert (Et : S - 4 * zlen (pushed_first u n e) - 48 = tf) by (subst tf; lia).
  replace (S - 4 * zlen (pushed_first u n e) - 56) with (tf - 8) in * by lia. replace (S - 4 * zlen (pushed_first u n e) - 16) with (tf + 32) in * by lia.
  exists r2. split; [|split].
  - rewrite E2. subst K B. unfold in_trap. clear. destruct (0 <? cpl u); by destruct u.
  - rewrite Et in W2. rewrite frame_pushed. revert W2. subst K B. clear. destruct (0 <? cpl u); by destruct u.
  - intros x Hx Hx'. rewrite O2, O1 by (done || lia). done.
Qed.

(** Words that are popped. *)
Definition stk (rm : Z -> Z) (sp : Z) (ws : list Z) : Prop := words_at rm sp ws /\ 0 <= sp /\ sp + 4 * zlen ws < 2 ^ 32.

Lemma stk_pop rm sp w ws : stk rm sp (w :: ws) -> mem32 rm sp = w /\ u32 (sp + 4) = sp + 4 /\ stk rm (sp + 4) ws.
Proof.
  intros ([W0 W] & H0 & H1). rewrite zlen_cons in H1. assert (L := zlen_nonneg ws). split; [done|]. split; [apply u32_id; mlia|]. split; [done|]. lia.
Qed.

Lemma pop_to_stk r m w ws : r ≠ ESP -> stk (ram m) (esp m) (w :: ws) ->
  pop_to r m = set_reg r w (set_reg ESP (esp m + 4) m) /\ stk (ram (pop_to r m)) (esp (pop_to r m)) ws.
Proof.
  intros Hr H. apply stk_pop in H as (E & U & H). unfold pop_to, drop_top, top. rewrite E, U. split; [done|]. by destruct r, m.
Qed.

Lemma drop_stk m w ws : stk (ram m) (esp m) (w :: ws) ->
  drop_top m = set_reg ESP (esp m + 4) m /\ stk (ram (drop_top m)) (esp (drop_top m)) ws.
Proof. intros H. apply stk_pop in H as (E & U & H). unfold drop_top. rewrite U. split; [done|]. by destruct m. Qed.

Lemma popal_run m a c d b o bp si di ws : stk (ram m) (esp m) ([di; si; bp; o; b; d; c; a] ++ ws) ->
  step Popal m = set_reg EAX a (set_reg ECX c (set_reg EDX d (set_reg EBX b (set_reg EBP bp (set_reg ESI si (set_reg EDI di (set_reg ESP (esp m + 32) m))))))) /\
  stk (ram m) (esp m + 32) ws.
Proof.
  cbn [app]. intros H. change (step Popal m) with (pop_to EAX (pop_to ECX (pop_to EDX (pop_to EBX (drop_top (pop_to EBP (pop_to ESI (pop_to EDI m)))))))).
  destruct (pop_to_stk EDI m _ _ ltac:(done) H) as [E1 H1]. rewrite E1 in *. clear H E1.
  destruct (pop_to_stk ESI _ _ _ ltac:(done) H1) as [E2 H2]. rewrite E2 in *. clear H1 E2.
  destruct (pop_to_stk EBP _ _ _ ltac:(done) H2) as [E3 H3]. rewrite E3 in *. clear H2 E3.
  destruct (drop_stk _ _ _ H3) as [E4 H4]. rewrite E4 in *. clear H3 E4.
  destruct (pop_to_stk EBX _ _ _ ltac:(done) H4) as [E5 H5]. rewrite E5 in *. clear H4 E5.
  destruct (pop_to_stk EDX _ _ _ ltac:(done) H5) as [E6 H6]. rewrite E6 in *. clear H5 E6.
  destruct (pop_to_stk ECX _ _ _ ltac:(done) H6) as [E7 H7]. rewrite E7 in *. clear H6 E7.
  destruct (pop_to_stk EAX _ _ _ ltac:(done) H7) as [E8 H8]. rewrite E8 in *. clear H7 E8.
  destruct m as [a0 c0 d0 b0 sp0 bp0 si0 di0 sd se sf sg s2 sc ip fl pb rm]. cbn [set_reg esp ram] in *. replace (sp0 + 4 + 4 + 4 + 4 + 4 + 4 + 4 + 4) with (sp0 + 32) in * by lia. done.
Qed.

Lemma pop_segs_run m g f e d ws : stk (ram m) (esp m) ([g; f; e; d] ++ ws) -> Forall is_u16 [g; f; e; d] ->
  run [PopS GS; PopS FS; PopS ES; PopS DS] m = set_sreg DS d (set_sreg ES e (set_sreg FS f (set_sreg GS g (set_reg ESP (esp m + 16) m)))) /\ stk (ram m) (esp m + 16) ws.
Proof.
  cbn [app]. intros H U. rewrite !Forall_cons in U. destruct U as (U0 & U1 & U2 & U3 & _).
  apply stk_pop in H as (E0 & V0 & H). apply stk_pop in H as (E1 & V1 & H). apply stk_pop in H as (E2 & V2 & H). apply stk_pop in H as (E3 & V3 & H).
  destruct m as [a0 c0 d0 b0 sp0 bp0 si0 di0 sd se sf sg s2 sc ip fl pb rm]. unfold run, top, drop_top in *. cbn [foldl step set_reg set_sreg esp ram] in *.
  unfold top. cbn [drop_top set_reg set_sreg esp ram]. rewrite V0, V1, V2, V3, E0, E1, E2, E3, !(u16_id) by done.
  replace (sp0 + 4 + 4 + 4 + 4) with (sp0 + 16) in * by lia. done.
Qed.

Lemma iret_run m ip c f sp s : stk (ram m) (esp m) ([ip; c; f] ++ (if 0 <? Z.land c 3 then [sp; s] else [])) -> cpl m = 0 -> is_u16 c -> is_u16 s ->
  iret m = set_eflags f (set_cs c (set_eip ip (if 0 <? Z.land c 3 then set_reg ESP sp (set_ss s m) else set_reg ESP (esp m + 12) m))).
Proof.
  cbn [app]. intros H Hc Uc Us. apply stk_pop in H as (E0 & V0 & H). apply stk_pop in H as (E1 & V1 & H). apply stk_pop in H as (E2 & V2 & H). unfold iret. rewrite Hc.
  destruct m as [a0 c0 d0 b0 sp0 bp0 si0 di0 sd se sf sg s2 sc ip0 fl pb rm]. unfold top, drop_top, cpl in *. cbn [set_reg set_eip set_cs set_eflags esp ram cs] in *.
  rewrite V0, V1, V2, E1, (u16_id c) by done. destruct (0 <? Z.land c 3).
  - apply stk_pop in H as (E3 & V3 & H). apply stk_pop in H as (E4 & V4 & _). rewrite V3, E4, u16_id by done. cbn [set_reg set_ss set_eip set_cs set_eflags]. by rewrite E0, E2, E3.
  - cbn [set_reg set_ss set_eip set_cs set_eflags]. rewrite E0, E2. replace (sp0 + 4 + 4 + 4) with (sp0 + 12) by lia. done.
Qed.

(** The registers of [v] over the page table and the memory of [m]. *)
Definition resume (v m : machine) : machine := set_pdbr (pdbr m) (set_ram (ram m) v).

(** [trapret] with a frame at the top of the stack. *)
Lemma trap_returns v o n e m : sane v -> cpl m = 0 -> stk (ram m) (esp m) (frame v o n e) ->
  (0 <? cpl v = false -> esp v = esp m + frame_size v /\ ss v = ss m) -> run trapret_code m = resume v m.
Proof.
  intros [_ Sh] Hc H Hk. rewrite !Forall_cons in Sh. destruct Sh as (H0 & H1 & H2 & H3 & H4 & H5 & _).
  change (frame v o n e) with ([edi v; esi v; ebp v; o; ebx v; edx v; ecx v; eax v] ++ [gs v; fs v; es v; ds v] ++ [n; e; eip v; cs v; eflags v] ++ (if 0 <? cpl v then [esp v; ss v] else [])) in H.
  change trapret_code with ([Popal] ++ [PopS GS; PopS FS; PopS ES; PopS DS] ++ [AddI 8 ESP; Iret]). rewrite !run_app.
  destruct (popal_run _ _ _ _ _ _ _ _ _ _ H) as [E1 S1]. change (run [Popal] m) with (step Popal m). rewrite E1. clear E1 H.
  set (m1 := set_reg EAX _ _). assert (X1 : esp m1 = esp m + 32 /\ ram m1 = ram m) by (subst m1; clear; by destruct m). destruct X1 as [X1 Y1]. rewrite <- X1, <- Y1 in S1.
  destruct (pop_segs_run _ _ _ _ _ _ S1) as [E2 S2]; [by repeat apply Forall_cons_2|]. rewrite E2. clear E2 S1. set (m2 := set_sreg DS _ _).
  apply stk_pop in S2 as (_ & _ & S2). apply stk_pop in S2 as (_ & _ & S2). cbn [app] in S2.
  set (m3 := set_reg ESP (esp m + 56) m2). assert (X3 : esp m3 = esp m + 56 /\ ram m3 = ram m /\ cpl m3 = 0).
  { subst m3 m2 m1. unfold cpl in *. clear -Hc. by destruct m. } destruct X3 as (X3 & Y3 & Z3).
  assert (E3 : run [AddI 8 ESP; Iret] m2 = iret m3).
  { change (run [AddI 8 ESP; Iret] m2) with (iret (set_reg ESP (u32 (esp m2 + 8)) m2)). assert (X2 : esp m2 = esp m + 48) by (subst m2 m1; clear; destruct m; cbn; lia).
    rewrite X2, u32_id; [unfold m3; do 2 f_equal; lia|]. rewrite X1 in S2. destruct S2 as (_ & A & B). rewrite !zlen_cons in B. assert (L := zlen_nonneg (if 0 <? cpl v then [esp v; ss v] else [])). mlia. }
  rewrite E3. clear E3. rewrite (iret_run m3 (eip v) (cs v) (eflags v) (esp v) (ss v)); [|rewrite X3, Y3; rewrite X1, Y1 in S2; replace (esp m + 56) with (esp m + 32 + 16 + 4 + 4) by lia; exact S2|done|done|done].
  unfold resume. rewrite X3. subst m3 m2 m1. clear X3 Y3 Z3 S2 X1 Y1. fold (cpl v). destruct (0 <? cpl v) eqn:Ev.
  - clear. by destruct m, v.
  - destruct (Hk eq_refl) as [K1 K2]. unfold frame_size in K1. rewrite Ev in K1. change (sizeof_trapframe - 8) with 68 in K1. clear -K1 K2.
    destruct m, v; cbn [Asm.esp Asm.ss Asm.eax Asm.ecx Asm.edx Asm.ebx Asm.ebp Asm.esi Asm.edi Asm.ds Asm.es Asm.fs Asm.gs Asm.cs Asm.eip Asm.eflags Asm.pdbr Asm.ram set_reg set_sreg set_eip set_cs set_eflags set_pdbr set_ram] in *.
    subst. f_equal. lia.
Qed.

Lemma sane_eax v u : is_u32 v -> sane u -> sane (set_reg EAX v u).
Proof. intros Hv [Su Sh]. destruct u. split; [|exact Sh]. apply Forall_cons_2; [done|]. by inversion Su. Qed.

Definition tf_trapno : Z := 48.
Definition tf_err : Z := 52.

(** The fields of [struct trapframe] at the offsets that the C code uses. *)
Definition is_frame (rm : Z -> Z) (tf : Z) (u : machine) (trapno err : Z) : Prop :=
  mem32 rm (tf + tf_eax) = eax u /\ mem32 rm (tf + tf_es) = es u /\ mem32 rm (tf + tf_ds) = ds u /\ mem32 rm (tf + tf_trapno) = trapno /\
  mem32 rm (tf + tf_err) = err /\ mem32 rm (tf + tf_eip) = eip u /\ mem32 rm (tf + tf_cs) = cs u /\ mem32 rm (tf + tf_eflags) = eflags u /\
  (0 <? cpl u = true -> mem32 rm (tf + tf_esp) = esp u /\ mem32 rm (tf + tf_ss) = ss u).

Lemma frame_fields rm tf u o n e : words_at rm tf (frame u o n e) -> is_frame rm tf u n e.
Proof.
  intros W. assert (F := fun i w => words_at_lookup rm (frame u o n e) i w tf W).
  split; [exact (F 7%nat _ eq_refl)|]. split; [exact (F 10%nat _ eq_refl)|]. split; [exact (F 11%nat _ eq_refl)|]. split; [exact (F 12%nat _ eq_refl)|].
  split; [exact (F 13%nat _ eq_refl)|]. split; [exact (F 14%nat _ eq_refl)|]. split; [exact (F 15%nat _ eq_refl)|]. split; [exact (F 16%nat _ eq_refl)|].
  unfold frame in F. intros E. rewrite E in F. split; [exact (F 17%nat _ eq_refl)|exact (F 18%nat _ eq_refl)].
Qed.

(** The states in which the handler of [k] returns to trapasm.S: it has taken the
    return address from the stack, and the frame holds the registers of [v]. *)
Record handled (k m v : machine) (o n e : Z) : Prop := {
  hd_esp : esp m = esp k + 4;
  hd_cpl : cpl m = 0;
  hd_ss : ss m = ss k;
  hd_frame : words_at (ram m) (mem32 (ram k) (esp k + 4)) (frame v o n e)
}.

Section trap.
Context (alltraps trap_addr after : Z) (g : gateview) (ss0 esp0 : Z) (after_ok : is_u32 after).

Definition trap_code (n : Z) : list instr := vector alltraps n ++ alltraps_code trap_addr after.

Lemma trap_through n e u : sane u -> 0 <= n < 256 -> is_u32 e -> (has_err n = false -> e = 0) -> 100 <= handler_stack u esp0 < 2 ^ 32 ->
  let k := run (trap_code n) (deliver g ss0 esp0 (if has_err n then Some e else None) u) in
  let tf := handler_stack u esp0 - frame_size u in
  eip k = trap_addr /\ mem32 (ram k) (esp k + 4) = tf /\ is_frame (ram k) tf u n e /\ outside (tf - 8) (handler_stack u esp0) (ram u) (ram k) /\
  forall m v, is_u32 v -> handled k m (set_reg EAX v u) (tf + 32) n e -> run after_trap_code m = resume (set_reg EAX v u) m.
Proof.
  intros Su Hn He Hz HS. destruct (trap_enters alltraps trap_addr after g ss0 esp0 n e u Su after_ok Hn He Hz HS) as (rm & E & (W0 & W1 & W) & O).
  cbv zeta. unfold trap_code. rewrite E. clear E. set (tf := handler_stack u esp0 - frame_size u) in *. cbn [in_trap eip ram esp]. replace (tf - 8 + 4) with (tf - 4) in * by lia.
  rewrite Z.sub_add in W. split; [done|]. split; [done|]. split; [by eapply frame_fields|]. split; [done|]. intros m v Hv [H1 H2 H3 H4].
  cbn [in_trap esp ram ss] in *. replace (tf - 8 + 4) with (tf - 4) in * by lia. rewrite W1 in H4.
  assert (Hf : 68 <= frame_size u <= 76) by (unfold frame_size; by destruct (0 <? cpl u)).
  unfold after_trap_code. rewrite run_cons. change (step (AddI 4 ESP) m) with (set_reg ESP (u32 (esp m + 4)) m). rewrite H1, u32_id by mlia. rewrite Z.sub_add.
  assert (Cv : cpl (set_reg EAX v u) = cpl u /\ esp (set_reg EAX v u) = esp u /\ ss (set_reg EAX v u) = ss u) by (by destruct u). destruct Cv as (Cv & Ev & Sv).
  rewrite (trap_returns (set_reg EAX v u) (tf + 32) n e).
  - unfold resume. clear. by destruct m.
  - by apply sane_eax.
  - unfold cpl in *. clear -H2. by destruct m.
  - assert (X : esp (set_reg ESP tf m) = tf /\ ram (set_reg ESP tf m) = ram m) by (by destruct m). destruct X as [-> ->]. split; [done|].
    rewrite zlen_frame. assert (X := frame_size_eq (set_reg EAX v u) n e). unfold frame_size in X, Hf, tf. rewrite Cv in X. lia.
  - rewrite Cv, Ev, Sv. intros Ec. assert (X : esp (set_reg ESP tf m) = tf /\ ss (set_reg ESP tf m) = ss m) by (by destruct m). destruct X as [-> ->].
    subst tf. unfold frame_size, handler_stack in *. rewrite Cv, Ec in *. split; [lia|done].
Qed.

End trap.

(** ** System calls *)

(** A user program calls the stub of the system call [num]: the arguments and the
    return address are on its stack, below the kernel. *)
Record calls_stub (u : machine) (ret : Z) (args : list Z) (tf : Z) : Prop := {
  st_sane : sane u;
  st_user : cpl u = DPL_USER;
  st_stack : words_at (ram u) (esp u) (ret :: args);
  st_below : esp u + 4 + 4 * zlen args <= tf - 8
}.


(** ** The first run of a process *)

(** The page [pg] is in memory at the address [a]. *)
Definition page_in (rm : Z -> Z) (a : Z) (pg : page) : Prop := forall i, 0 <= i < PGSIZE -> rm (a + i) = rd 0 pg i.

Lemma get32_fetch rm a pg off : page_in rm a pg -> zlen pg = PGSIZE -> 0 <= a -> a + PGSIZE <= 2 ^ 32 -> 0 <= off -> off + 4 <= PGSIZE ->
  mem32 rm (a + off) = get32 pg off.
Proof.
  intros P L Ha He H0 H1. with_strategy transparent [mem32] unfold mem32. unfold get32. f_equal. apply (rd_ext 0).
  - rewrite length_fetch. assert (X : zlen (slice pg off 4) = 4) by (apply zlen_slice; lia). unfold zlen in X. lia.
  - intros i Hi. rewrite zlen_fetch in Hi by lia. rewrite rd_fetch, rd_slice by lia. rewrite u32_id by mlia. rewrite <- P by lia. f_equal. lia.
Qed.

Lemma get32_ext p q off : zlen p = PGSIZE -> zlen q = PGSIZE -> 0 <= off -> off + 4 <= PGSIZE -> (forall i, 0 <= i < 4 -> rd 0 p (off + i) = rd 0 q (off + i)) ->
  get32 p off = get32 q off.
Proof.
  intros Lp Lq H0 H1 H. assert (X : zlen (slice p off 4) = 4) by (apply zlen_slice; lia). assert (Y : zlen (slice q off 4) = 4) by (apply zlen_slice; lia).
  unfold get32. f_equal. apply (rd_ext 0); [unfold zlen in *; lia|]. intros i Hi. rewrite !rd_slice by lia. apply H. lia.
Qed.

Lemma frame_eax v u o n e : frame (set_reg EAX v u) o n e = <[7%nat := v]> (frame u o n e).
Proof. unfold frame, cpl. destruct u; cbn [set_reg Asm.cs]. by destruct (0 <? _). Qed.

Lemma length_frame u o n e : cpl u = DPL_USER -> length (frame u o n e) = 19%nat.
Proof. intros E. unfold frame. by rewrite E. Qed.

(** The frame on the stack of a child is that of its parent, with 0 in %eax. *)
Lemma child_frame forkret trapret pg pp u o n e : child_stack forkret trapret pg pp -> zlen pg = PGSIZE -> zlen pp = PGSIZE -> cpl u = DPL_USER ->
  (forall i w, frame u o n e !! i = Some w -> get32 pp (4020 + 4 * Z.of_nat i) = w) ->
  forall i w, frame (set_reg EAX 0 u) o n e !! i = Some w -> get32 pg (4020 + 4 * Z.of_nat i) = w.
Proof.
  intros C Lg Lp Hu F i w. rewrite frame_eax. destruct (decide (i = 7%nat)) as [->|N].
  - rewrite list_lookup_insert_eq by (rewrite length_frame by done; lia). intros [= <-]. exact (cs_eax _ _ _ _ C).
  - rewrite list_lookup_insert_ne by done. intros Hi. rewrite <- (F i w Hi). assert (Hl := lookup_lt_Some _ _ _ Hi). rewrite length_frame in Hl by done.
    apply get32_ext; [done|done|lia|unfold PGSIZE; lia|]. intros j Hj. rewrite <- Z.add_assoc. apply (cs_tf _ _ _ _ C); unfold sizeof_trapframe, tf_eax; lia.
Qed.

(** C8: fork returns in the child.  The kernel stack that [fork] leaves for a child
    is such that, when the scheduler switches to it for the first time, the
    processor enters [forkret]; when [forkret] returns, it is to [trapret], and
    the child continues in user mode with every register of its parent at the
    call of [fork], except that %eax is 0. *)
Theorem forked_child_resumes forkret trapret pg pp ks sched ret old ctx u o n e :
  child_stack forkret trapret pg pp -> zlen pg = PGSIZE -> zlen pp = PGSIZE -> sane u -> cpl u = DPL_USER ->
  (forall i w, frame u o n e !! i = Some w -> get32 pp (4020 + 4 * Z.of_nat i) = w) ->
  calls_swtch sched ret old (ks + 3996) ctx -> page_in (ram sched) ks pg -> 0 <= ks -> ks + PGSIZE < 2 ^ 32 ->
  esp sched <= ks \/ ks + PGSIZE <= esp sched - 16 -> old + 4 <= ks \/ ks + PGSIZE <= old ->
  let k := run swtch sched in
  eip k = u32 forkret /\ esp k = ks + 4016 /\
  forall m, esp m = esp k -> cpl m = 0 -> (forall x, ks + 4016 <= x < ks + PGSIZE -> ram m x = ram k x) ->
    eip (step Ret_ m) = u32 trapret /\ run trapret_code (step Ret_ m) = resume (set_reg EAX 0 u) m.
Proof.
  intros C Lg Lp Su Hu F Sw Pg Hk0 Hk1 D1 D2. destruct (swtch_run _ _ _ _ _ Sw) as (c0 & c1 & c2 & c3 & c4 & rm & -> & E & _ & _ & Same). unfold PGSIZE in *.
  assert (Wc := sw_ctx _ _ _ _ _ Sw). destruct Wc as (_ & _ & _ & _ & W4 & _).
  assert (C4 : c4 = u32 forkret).
  { rewrite <- (cs_forkret _ _ _ _ C), <- W4. replace (ks + 3996 + 4 + 4 + 4 + 4) with (ks + 4012) by lia. apply get32_fetch; unfold PGSIZE; done || lia. }
  assert (Ek : eip (run swtch sched) = c4 /\ esp (run swtch sched) = ks + 3996 + 20 /\ ram (run swtch sched) = rm) by (rewrite E; clear; by destruct sched).
  cbv zeta. destruct Ek as (-> & -> & ->). split; [done|]. split; [lia|]. intros m Em Cm Sm.
  assert (Pm : forall off, 4016 <= off -> off + 4 <= 4096 -> mem32 (ram m) (ks + off) = get32 pg off).
  { intros off O0 O1. rewrite <- (get32_fetch (ram sched) ks pg off) by (unfold PGSIZE; done || lia). apply mem32_ext. intros i Hi. rewrite u32_id by mlia.
    rewrite Sm by lia. apply Same; [mlia|lia|lia]. }
  assert (Er : top m = u32 trapret). { unfold top. rewrite Em. replace (ks + 3996 + 20) with (ks + 4016) by lia. rewrite Pm by lia. exact (cs_trapret _ _ _ _ C). }
  set (m1 := step Ret_ m). assert (M1 : esp m1 = ks + 4020 /\ ram m1 = ram m /\ cpl m1 = 0 /\ eip m1 = top m /\ pdbr m1 = pdbr m).
  { subst m1. cbn [step]. unfold drop_top. rewrite Em, u32_id by mlia. unfold cpl in *. clear -Cm. destruct m; simpl in *. repeat split; lia || done. }
  destruct M1 as (M1 & M2 & M3 & M4 & M5). split; [congruence|].
  rewrite (trap_returns (set_reg EAX 0 u) o n e m1); [unfold resume; congruence|by apply sane_eax|done| |].
  - rewrite M1, M2. split; [|split; [lia|]].
    + apply words_at_intro. intros i w Hi. assert (Hl := lookup_lt_Some _ _ _ Hi). rewrite frame_eax, length_insert, length_frame in Hl by done.
      rewrite <- (child_frame _ _ _ _ _ _ _ _ C Lg Lp Hu F i w Hi), <- Z.add_assoc. apply Pm; lia.
    + unfold zlen. rewrite frame_eax, length_insert, length_frame by done. lia.
  - assert (X : cpl (set_reg EAX 0 u) = cpl u) by (clear; by destruct u). rewrite X, Hu. done.
Qed.

(** initcode.S calls [exec(init, argv)]. *)
Theorem initcode_execs argv init u : sane u -> is_u32 argv -> is_u32 init -> 12 <= esp u -> let u1 := run (initcode_start argv init) u in
  eax u1 = SYS_exec /\ esp u1 = esp u - 12 /\ words_at (ram u1) (esp u1) [0; init; argv].
Proof.
  intros [Su _] Ha Hi He. rewrite !Forall_cons in Su. destruct Su as (_ & _ & _ & _ & Ue & _).
  destruct (pushes [argv; init; 0] u []) as (rm & E & W & _); [|change (4 * zlen _) with 12; mlia|change (4 * zlen _) with 0; mlia|done|].
  { repeat apply Forall_cons_2; try done; mlia. }
  change (run (initcode_start argv init) u) with (set_reg EAX SYS_exec (foldl (fun x v => push v x) u [argv; init; 0])). rewrite E.
  change (4 * zlen [argv; init; 0]) with 12 in *. change (reverse [argv; init; 0] ++ []) with [0; init; argv] in W. revert W. clear. by destruct u.
Qed.

(** ** Examples *)

#[local] Transparent mem32 store.

Definition word_bytes (ws : list Z) : list Z := mjoin (le_bytes 4 <$> ws).
Definition demo_user : machine :=
  Machine 1 2 3 4 0x2f00 5 6 7 35 35 0 0 35 27 0x100 0x202 0x1000 (store 0x2f00 (word_bytes [0x44; 5]) (fun _ => 0)).

Lemma demo_user_sane : sane demo_user.
Proof. split; repeat apply Forall_cons_2; try apply Forall_nil_2; vm_compute; split; congruence. Qed.


Definition demo_vectors (i : Z) : Z := 0x80100000 + 16 * (i mod 256).
Lemma demo_vectors_ok i : is_u32 (demo_vectors i).
Proof. assert (B := Z.mod_pos_bound i 256). unfold demo_vectors, is_u32. lia. Qed.


(** Two kernel stacks. *)
Definition demo_sched : machine :=
  Machine 0 0 0 11 1000 12 13 14 16 16 0 0 16 8 0 0 0 (store 1000 (word_bytes [77; 2000; 3000]) (store 3000 (word_bytes [1; 2; 3; 4; 5]) (fun _ => 0))).
Definition demo_other : machine :=
  Machine 0 0 0 0 5000 0 0 0 16 16 0 0 16 8 0 0 0 (store 5000 (word_bytes [78; 2100; 984]) (ram (run swtch demo_sched))).

Ltac demo_call :=
  split; [split; repeat apply Forall_cons_2; try apply Forall_nil_2; vm_compute; split; congruence|vm_compute; tauto|vm_compute; tauto|reflexivity|
    unfold demo_sched, demo_other; cbn [esp]; lia..].

Lemma demo_calls : calls_swtch demo_sched 77 2000 3000 [1; 2; 3; 4; 5].
Proof.
  demo_call.
Qed.
Lemma demo_back : calls_swtch demo_other 78 2100 984 [14; 13; 11; 12; 77].
Proof.
  demo_call.
Qed.

Lemma swtch_resumes_witness : let m3 := run swtch demo_other in eip m3 = 77 /\ esp m3 = 1004 /\ ebx m3 = 11 /\ esi m3 = 13 /\ edi m3 = 14 /\ ebp m3 = 12.
Proof.
  apply (swtch_resumes demo_sched 77 2000 3000 [1; 2; 3; 4; 5] demo_other 78 2100 [14; 13; 11; 12; 77] demo_calls demo_back).
  intros x Hx. cbn [demo_other ram]. cbn [esp demo_sched] in Hx. unfold store at 1. change (zlen (word_bytes [78; 2100; 984])) with 12. rewrite decide_False by mlia. done.
Defined.

(** A child of [demo_user] with its kernel stack at 0x8dffe000. *)
Definition demo_parent : page := blit zero_page 4020 (word_bytes (frame demo_user 0 T_SYSCALL 0)).
Definition demo_child : page := put32 (blit (stack_page 0x80103000 0x80105000 zero_page) 4020 (slice demo_parent 4020 76)) 4048 0.
Definition demo_stack : Z := 0x8dffe000.
Definition demo_cpu : machine :=
  Machine 0 0 0 11 1000 12 13 14 16 16 0 0 16 8 0 0 0 (store 1000 (word_bytes [77; 2000; demo_stack + 3996]) (store demo_stack demo_child (fun _ => 0))).

Lemma demo_parent_page : is_page demo_parent.
Proof.
  apply blit_page; [apply zero_page_ok|lia|vm_compute; congruence|]. generalize (frame demo_user 0 T_SYSCALL 0). intros l.
  induction l as [|w l IH]; [done|]. apply Forall_app. split; [apply le_bytes_u8|exact IH].
Qed.

Lemma demo_child_len : zlen demo_child = PGSIZE.
Proof. vm_compute. reflexivity. Qed.

Lemma demo_in_page : page_in (ram demo_cpu) demo_stack demo_child.
Proof.
  intros i Hi. unfold PGSIZE in Hi. unfold demo_cpu, demo_stack. cbn [ram]. unfold store at 1. change (zlen (word_bytes _)) with 12. rewrite decide_False by mlia.
  unfold store. rewrite demo_child_len. unfold PGSIZE. replace (u32 _) with i by mlia. by rewrite decide_True by lia.
Qed.

Lemma forked_child_resumes_witness : let k := run swtch demo_cpu in eip k = 0x80103000 /\ esp k = demo_stack + 4016 /\
  forall m, esp m = esp k -> cpl m = 0 -> (forall x, demo_stack + 4016 <= x < demo_stack + PGSIZE -> ram m x = ram k x) ->
    run trapret_code (step Ret_ m) = resume (set_reg EAX 0 demo_user) m.
Proof.
  destruct (forked_child_resumes 0x80103000 0x80105000 demo_child demo_parent demo_stack demo_cpu 77 2000 [0; 0; 0; 0; 0x80103000] demo_user 0 T_SYSCALL 0) as (E1 & E2 & E3).
  - apply child_stack_page; [apply zero_page_ok|apply demo_parent_page].
  - apply demo_child_len.
  - vm_compute. reflexivity.
  - exact demo_user_sane.
  - reflexivity.
  - intros i w Hi. do 19 (destruct i as [|i]; [vm_compute in Hi; injection Hi as <-; vm_compute; reflexivity|]). discriminate Hi.
  - split; [split; repeat apply Forall_cons_2; try apply Forall_nil_2; vm_compute; split; congruence|vm_compute; tauto|vm_compute; tauto|reflexivity|
      unfold demo_cpu, demo_stack; cbn [esp]; lia..].
  - exact demo_in_page.
  - unfold demo_stack; lia.
  - unfold demo_stack, PGSIZE; lia.
  - left. unfold demo_stack, demo_cpu. cbn [esp]. lia.
  - left. unfold demo_stack. lia.
  - split; [exact E1|]. split; [exact E2|]. intros m H1 H2 H3. exact (proj2 (E3 m H1 H2 H3)).
Defined.
