(* ===== verification/Start.v ===== *)
(** * The start of the other processors (main.c, entryother.S)

    [startothers] leaves a stack, an entry point and a page table in the words
    below the code of entryother.S, starts a processor with interprocessor
    interrupts and waits until it is up, before it takes the next one.  The
    processors that wait for an interrupt are part of the state: the first STARTUP
    interrupt that reaches one of them makes it run the end of entryother.S, the
    second is ignored. *)

From S2P Require Import Prelude Param Mmu Kalloc Vm FileOps Proc Apic PhysMem Asm.

(** [code], as a physical address *)
Definition code_page : Z := 0x7000.

(** [start32] of entryother.S from the load of %cr3 on, without the bits of %cr0;
    the code before it enters protected mode. *)
Definition entryother (start next : Z) : list instr :=
  [LoadA (start - 12) EAX; Cr3 EAX; LoadA (start - 4) ESP; CallA (start - 8) next].

(** Physical memory, the page allocator, the local APIC of this processor, the
    APIC identifiers of the processors that wait, and those that are up, with the
    registers with which they entered [mpenter]. *)
Record boots := Boots { b_ram : Z -> Z; b_km : kmem; b_lapic : lapic; b_wait : list Z; b_up : list (Z * machine) }.

Definition set_b_ram v s := Boots v (b_km s) (b_lapic s) (b_wait s) (b_up s).
Definition set_b_km v s := Boots (b_ram s) v (b_lapic s) (b_wait s) (b_up s).
Definition set_b_lapic v s := Boots (b_ram s) (b_km s) v (b_wait s) (b_up s).

Section start.
(** The addresses of [mpenter] and [entrypgdir], the image of entryother.S and the
    address after its call. *)
Context (mpenter entrypgdir next : Z) (entryother_image : list Z).

Definition reset (rm : Z -> Z) : machine := Machine 0 0 0 0 0 0 0 0 0 0 0 0 0 0 0 0 0 rm.

(** A processor that gets the command [cmd]. *)
Definition take_ipi (s : boots) '(dest, cmd) : boots :=
  if decide (dest ∈ b_wait s /\ STARTUP <= cmd < STARTUP + 256) then
    Boots (b_ram s) (b_km s) (b_lapic s) (filter (fun d => d ≠ dest) (b_wait s))
      (b_up s ++ [(dest, run (entryother ((cmd - STARTUP) * 4096) next) (reset (b_ram s)))])
  else s.

(** [lapicstartap] and what the processors do *)
Definition start_ap (apicid addr : Z) : M boots unit :=
  modify (fun s => set_b_ram (startap_memory addr (b_ram s)) s);;
  s ← get;
  zoom b_lapic set_b_lapic (lapicstartap apicid addr);;
  modify (fun s' => foldl take_ipi s' (ipis 0 (drop (length (la_writes (b_lapic s))) (la_writes (b_lapic s'))))).

Definition put_word (a v : Z) : M boots unit := modify (fun s => set_b_ram (store a (le_bytes 4 v) (b_ram s)) s).

(** [while(c->started == 0)] waits for ever when the processor is not there. *)
Definition wait_started (apicid : Z) : M boots unit :=
  s ← get; if decide (apicid ∈ (b_up s).*1) then mret tt else blocked.

(** The body of the loop. *)
Definition start_one (apicid : Z) : M boots unit :=
  stack ← zoom b_km set_b_km kalloc;
  put_word (code_page - 4) (u32 (stack + KSTACKSIZE));;
  put_word (code_page - 8) mpenter;;
  put_word (code_page - 12) (V2P entrypgdir);;
  start_ap apicid code_page;;
  wait_started apicid.

(** [for(c = cpus; c < cpus+ncpu; c++)] from the processor [c] on; [me] is
    [mycpu()]. *)
Fixpoint start_from (me c : nat) (apicids : list Z) : M boots unit :=
  match apicids with
  | [] => mret tt
  | id :: apicids' => (if decide (c = me) then mret tt else start_one id);; start_from me (S c) apicids'
  end.

Definition startothers (me : nat) (apicids : list Z) : M boots unit :=
  modify (fun s => set_b_ram (store code_page entryother_image (b_ram s)) s);;
  start_from me 0 apicids.

(** ** Every processor has its own stack *)

(** A processor that entered [mpenter] with the page [q] as its stack. *)
Definition on_stack (q : Z) (m : machine) : Prop := eip m = mpenter /\ esp m = q + KSTACKSIZE - 4 /\ pdbr m = V2P entrypgdir.

Lemma words_below rm st : is_u32 st -> is_u32 mpenter ->
  let rm' := startap_memory code_page (store (code_page - 12) (le_bytes 4 (V2P entrypgdir)) (store (code_page - 8) (le_bytes 4 mpenter) (store (code_page - 4) (le_bytes 4 st) rm))) in
  mem32 rm' (code_page - 4) = st /\ mem32 rm' (code_page - 8) = mpenter /\ mem32 rm' (code_page - 12) = V2P entrypgdir.
Proof.
  intros Hs Hm rm'. assert (Far : forall rm a, code_page - 12 <= a <= code_page - 4 -> mem32 (startap_memory code_page rm) a = mem32 rm a).
  { intros rm0 a Ha. apply mem32_ext. intros i Hi. unfold code_page in *. unfold startap_memory, store. change (zlen (le_bytes 2 0 ++ _)) with 4. change wake_address with 1127.
    rewrite decide_False by mlia. done. }
  assert (Hv : is_u32 (V2P entrypgdir)) by (unfold V2P; mlia). unfold rm'. rewrite !Far by lia. split; [|split].
  - rewrite !mem32_store_ne by (unfold code_page; mlia). by apply mem32_store_eq.
  - rewrite mem32_store_ne by (unfold code_page; mlia). by apply mem32_store_eq.
  - by apply mem32_store_eq.
Qed.

Lemma take_ipi_no s d cmd : ~ (d ∈ b_wait s /\ STARTUP <= cmd < STARTUP + 256) -> take_ipi s (d, cmd) = s.
Proof. intros H. unfold take_ipi. by rewrite decide_False. Qed.

Lemma wp_start_ap id s : 0 <= id < 256 -> id ∈ b_wait s -> wp (start_ap id code_page) (fun _ s' =>
    b_up s' = b_up s ++ [(id, run (entryother code_page next) (reset (startap_memory code_page (b_ram s))))] /\
    b_wait s' = filter (fun d => d ≠ id) (b_wait s) /\ b_km s' = b_km s) s.
Proof.
  intros Hi Hw. unfold start_ap. wp_step. wp_step. wp_step. wp_step. wp_step. apply wp_zoom.
  eapply wp_mono; [apply lapicstartap_starts; [done|by unfold code_page|done]|]. intros [] l' (v & El & Ev). wp_step.
  destruct s as [rm k l w u]. cbn [set_b_ram set_b_lapic b_lapic b_ram b_km b_wait b_up] in *. rewrite El, drop_app_length, Ev. cbn [foldl].
  set (s1 := set_b_lapic _ _). assert (N1 : take_ipi s1 (id, Z.lor (Z.lor INIT LEVEL) ASSERT) = s1) by (apply take_ipi_no; intros [_ H]; vm_compute in H; by destruct H).
  assert (N2 : take_ipi s1 (id, Z.lor INIT LEVEL) = s1) by (apply take_ipi_no; intros [_ H]; vm_compute in H; by destruct H). rewrite N1, N2. clear N1 N2.
  change (STARTUP + code_page / 4096) with (STARTUP + 7).
  set (s2 := Boots (b_ram s1) k l' (filter (fun d => d ≠ id) w) (u ++ [(id, run (entryother code_page next) (reset (b_ram s1)))])).
  assert (Y : take_ipi s1 (id, STARTUP + 7) = s2).
  { unfold take_ipi. rewrite decide_True by (split; [exact Hw|unfold STARTUP; lia]). replace (STARTUP + 7 - STARTUP) with 7 by lia. done. }
  rewrite Y. clear Y. rewrite take_ipi_no; [done|]. intros [H _]. cbn [s2 b_wait] in H. apply list_elem_of_filter in H as [H _]. done.
Qed.

Context (kend : Z) (mpenter_ok : is_u32 mpenter).

Lemma entry_on_stack rm q : is_u32 (q + KSTACKSIZE) -> 4 <= q ->
  on_stack q (run (entryother code_page next) (reset (startap_memory code_page (store (code_page - 12) (le_bytes 4 (V2P entrypgdir))
    (store (code_page - 8) (le_bytes 4 mpenter) (store (code_page - 4) (le_bytes 4 (u32 (q + KSTACKSIZE))) rm)))))).
Proof.
  intros Hq H4. rewrite u32_id by done. destruct (words_below rm (q + KSTACKSIZE) Hq mpenter_ok) as (W1 & W2 & W3). revert W1 W2 W3. generalize (startap_memory code_page
    (store (code_page - 12) (le_bytes 4 (V2P entrypgdir)) (store (code_page - 8) (le_bytes 4 mpenter) (store (code_page - 4) (le_bytes 4 (q + KSTACKSIZE)) rm)))).
  intros r W1 W2 W3. unfold run, entryother, reset, push. cbn [foldl step set_reg get_reg set_pdbr set_eip set_ram eax esp ram]. unfold push. cbn [set_reg set_eip set_ram esp ram].
  unfold on_stack. cbn [eip esp pdbr]. rewrite W1, W2, W3. split; [done|]. split; [|done]. rewrite u32_id; unfold KSTACKSIZE in *; mlia.
Qed.

Lemma wp_start_one id q l s : kmem_rep kend (b_km s) (q :: l) -> 0 <= id < 256 -> id ∈ b_wait s -> wp (start_one id) (fun _ s' => exists m,
    b_up s' = b_up s ++ [(id, m)] /\ on_stack q m /\ b_wait s' = filter (fun d => d ≠ id) (b_wait s) /\ kmem_rep kend (b_km s') l) s.
Proof.
  intros R Hi Hw. unfold start_one. wp_step. apply wp_zoom. eapply wp_mono; [exact (wp_kalloc _ _ _ R)|]. intros p k' (_ & _ & -> & R').
  unfold put_word. wp_step. wp_step. wp_step. wp_step. wp_step. wp_step. wp_step. set (s1 := set_b_ram _ _).
  eapply wp_mono; [apply (wp_start_ap id s1); [done|by destruct s]|]. intros [] s' (E1 & E2 & E3). unfold wait_started. wp_step. wp_step.
  rewrite decide_True by (rewrite E1, fmap_app; apply elem_of_app; right; by left). wp_step. eexists. split; [rewrite E1; by destruct s|].
  assert (Hq := kr_pages _ _ _ R). inversion Hq as [|? ? (_ & _ & Hq1) _]. unfold KERNBASE, PHYSTOP in Hq1. split; [|split; [rewrite E2; by destruct s|rewrite E3; by destruct s]].
  replace (b_ram s1) with (store (code_page - 12) (le_bytes 4 (V2P entrypgdir)) (store (code_page - 8) (le_bytes 4 mpenter) (store (code_page - 4) (le_bytes 4 (u32 (q + KSTACKSIZE))) (b_ram s))))
    by (by destruct s). apply entry_on_stack; unfold KSTACKSIZE; mlia.
Qed.

(** The other processors, from the processor [c] on. *)
Fixpoint others (me c : nat) (apicids : list Z) : list Z :=
  match apicids with
  | [] => []
  | id :: ids => if decide (c = me) then others me (S c) ids else id :: others me (S c) ids
  end.

Lemma wp_start_from me ids : forall c l s, kmem_rep kend (b_km s) l -> Forall (fun id => 0 <= id < 256) ids -> NoDup (others me c ids) ->
  (forall id, id ∈ others me c ids -> id ∈ b_wait s) -> (length (others me c ids) <= length l)%nat ->
  wp (start_from me c ids) (fun _ s' => exists ms, b_up s' = b_up s ++ zip (others me c ids) ms /\
    Forall2 on_stack (take (length (others me c ids)) l) ms /\ kmem_rep kend (b_km s') (drop (length (others me c ids)) l)) s.
Proof.
  induction ids as [|id ids IH]; intros c l s R Hi N Hw Hl; cbn [start_from others] in *.
  { wp_step. exists []. rewrite app_nil_r. done. }
  inversion_clear Hi as [|? ? Hi0 Hi']. destruct (decide (c = me)); [wp_step; wp_step; by apply IH|].
  cbn [length] in *. destruct l as [|q l]; [simpl in Hl; lia|]. cbn [length] in Hl. apply NoDup_cons in N as [N0 N].
  wp_step. eapply wp_mono; [apply (wp_start_one id q l s R Hi0), Hw; by left|]. intros [] s1 (m & E1 & Om & E2 & R1).
  eapply wp_mono; [apply (IH (S c) l s1 R1 Hi' N); [|lia]|].
  { intros d Hd. rewrite E2. apply list_elem_of_filter. split; [by intros ->|apply Hw; by right]. }
  intros [] s2 (ms & E3 & F & R2). exists (m :: ms). rewrite E3, E1, <- app_assoc. split; [done|]. split; [by constructor|done].
Qed.

(** The other processors.  When they are there and there are pages enough,
    [startothers] starts every processor of the table but its own, each once and
    in order; each enters [mpenter] with [entrypgdir] as its page table and with a
    page of its own as its stack. *)
Theorem startothers_correct me ids l s : kmem_rep kend (b_km s) l -> Forall (fun id => 0 <= id < 256) ids -> NoDup (others me 0 ids) ->
  (forall id, id ∈ others me 0 ids -> id ∈ b_wait s) -> (length (others me 0 ids) <= length l)%nat ->
  wp (startothers me ids) (fun _ s' => exists ms, b_up s' = b_up s ++ zip (others me 0 ids) ms /\
    Forall2 on_stack (take (length (others me 0 ids)) l) ms /\ NoDup (take (length (others me 0 ids)) l) /\ kmem_rep kend (b_km s') (drop (length (others me 0 ids)) l)) s.
Proof.
  intros R Hi N Hw Hl. unfold startothers. wp_step. wp_step. eapply wp_mono; [apply (wp_start_from me ids 0 l); try done|].
  intros [] s' (ms & E & F & R'). exists ms. split; [exact E|]. split; [done|]. split; [|done]. assert (X := kr_nodup _ _ _ R). rewrite <- (take_drop (length (others me 0 ids)) l) in X.
  by apply NoDup_app in X as [X _].
Qed.
End start.

(** A machine with the processors 0 and 5 and one free page. *)
Definition demo_boots : boots := Boots (fun _ => 0) (Kmem 0x80200000 true ∅) (Lapic [] 0 0 0) [5] [].

Lemma startothers_correct_witness : wp (startothers 0x80103000 0x80109000 0x7100 [144] 0 [0; 5]) (fun _ s' => exists m, b_up s' = [(5, m)] /\
  eip m = 0x80103000 /\ esp m = 0x80200ffc /\ pdbr m = 0x109000) demo_boots.
Proof.
  assert (R : kmem_rep 0x80110000 (b_km demo_boots) [0x80200000]).
  { split; [by vm_compute|by apply NoDup_singleton|apply Forall_singleton; vm_compute; repeat split; congruence|done]. }
  eapply wp_mono; [apply (startothers_correct 0x80103000 0x80109000 0x7100 [144] 0x80110000 ltac:(vm_compute; split; congruence) 0 [0; 5] [0x80200000] demo_boots R)|].
  - repeat apply Forall_cons_2; [lia|lia|done].
  - apply NoDup_singleton.
  - intros id H. exact H.
  - simpl. lia.
  - intros [] s' (ms & E & F & _). change (take _ [0x80200000]) with [0x80200000] in F. inversion F as [|? m ? ? (O1 & O2 & O3) F0]; subst. inversion F0; subst. exists m. done.
Defined.
